(* ===== verification/_CoqProject ===== *)
-Q . S2P
Prelude.v
Float64.v
Decimal.v
Amounts.v
Crates.v
AccountId.v
Bech32.v
Addresses.v
Primitives.v
Errors.v
TrieUpdate.v
Borsh.v
GenesisTools.v
Wire.v
ReceiptWire.v
Fees.v
ShardLayout.v
ShardSplit.v
Bandwidth.v
BandwidthProofs.v
Scheduler.v
Requests.v
TrieQueue.v
OutgoingMetadata.v
State.v
BitcoinTx.v
RuntimeTypes.v
AccessKeys.v
Validation.v
TxBuilder.v
Wallet.v
RpcToy.v
WalletProofs.v
Translator.v
NearClient.v
SendRaw.v
SendProofs.v
SendLimits.v
SignSend.v
SignableMessage.v
Congestion.v
CongestionControl.v
Scheduling.v
SinkProofs.v
Verifier.v
Actions.v
ActionProofs.v
Runtime.v
Receipts.v
Pending.v
Conservation.v
Validators.v
ReceiptConservation.v
ReceiptFrames.v
Transactions.v
TransactionProofs.v
ChunkSafety.v
Supply.v
Apply.v
Chunk.v
ChunkQueues.v
GenesisState.v
GenesisProofs.v
GenesisLoad.v
SnapshotCheck.v
GenesisChain.v
LegacyCase.v
Psbt.v
PsbtBytes.v
PsbtReads.v
PsbtCreate.v
BitcoinWire.v
PsbtCombine.v
PsbtSign.v
PsbtLoop.v
Quantum.v
Messages.v
PatoshiUnlock.v
