(* ===== verification/Prelude.v ===== *)
(** * Bitcoin Infinity: a verification development

    Bitcoin Infinity (the repository jayzalowitz/near-bit) is a fork of the NEAR node
    in which Bitcoin addresses are accounts.  This library models the part of it
    that decides who owns what, from the Bitcoin snapshot the chain starts with to the
    Bitcoin wallet that spends on it, and proves that it does what it means to do.

    ** The program and its parts

    - bitinfinity-tools/ reads a snapshot of the unspent outputs of Bitcoin, moves the
      Patoshi coins to one address and writes the genesis file; nearcore validates
      the genesis and writes it to the state.
    - near-account-id/ decides which strings name accounts, Bitcoin addresses
      included.
    - nearcore/core/crypto derives Bitcoin addresses from secp256k1 keys;
      nearcore/core/primitives and primitives-core hold accounts, keys, actions,
      transactions, receipts and shard layouts with their Borsh encodings;
      nearcore/core/parameters the fee schedule; nearcore/core/store the overlay the
      runtime writes to and the queues kept in the state.
    - nearcore/runtime/runtime applies a chunk: it pays validators and sweeps the
      locked Patoshi accounts, runs the bandwidth scheduler, validates, charges and
      converts transactions, executes receipts, which send further receipts, and
      forwards or buffers what leaves the shard.
    - bitinfinity-btcrpc/ answers Bitcoin RPC calls: it keeps a wallet, translates
      Bitcoin transactions into transactions of the chain, signs and submits them.

    The genesis gives the first state.  A command of the server becomes a signed
    transaction; it enters the node through the account-id rules and the verifier, is
    charged to the signer's account and key, becomes a receipt, is executed action by
    action, and leaves refunds and new receipts.  The files follow that path, and each
    calls the ones before it as the code does.

    ** Files

    Shared:
    - [Prelude]: the [result] type ([Ok], [Err], [Panic]) with [let?], machine
      integers as [Z] with checked and saturating operations, tactics ([rust_inv],
      [bool_inv]), the hint database [rust], lemmas on lists and sums.
    - [Float64], [Decimal]: the f64 and the decimal text of the language.
    - [Crates]: hash functions, Base58, Bech32 decoding and curve operations of
      third-party crates, as a class with laws; [Toy] is an instance.

    Ledger data:
    - [AccountId], [Bech32], [Addresses]: near-account-id/src/validation.rs,
      account_id_ref.rs; core/crypto/src/bitcoin_utils.rs; the address and script
      code of bitinfinity-btcrpc.
    - [Primitives], [Errors]: the data of the ledger and the errors.
    - [Borsh], [Wire], [ReceiptWire]: codecs with round-trip laws.
    - [TrieUpdate], [State], [TrieQueue], [OutgoingMetadata]: the overlay, the columns,
      the queues and the groups of buffered receipts of core/store.
    - [ShardLayout], [ShardSplit]: core/primitives/src/shard_layout.
    - [Fees]: core/parameters/src/cost.rs, runtime/src/config.rs.

    Runtime:
    - [BitcoinTx], [AccessKeys], [Actions], [ActionProofs]: runtime/src/bitcoin_tx.rs,
      access_keys.rs, actions.rs, global_contracts.rs, deterministic_account_id.rs.
    - [Validation], [SignableMessage], [Verifier]: runtime/src/verifier.rs and
      core/primitives/src/signable_message.rs.
    - [RuntimeTypes], [Runtime], [Receipts], [Pending], [Validators], [Transactions],
      [Apply]: runtime/src/lib.rs, from one action up to [Runtime::apply].
    - [Bandwidth], [BandwidthProofs], [Scheduler], [Requests]: the bandwidth scheduler;
      [Congestion], [CongestionControl], [Scheduling], [SinkProofs]: the receipt sink,
      congestion levels and the limits of a chunk.
    - [Conservation], [ReceiptConservation], [ReceiptFrames], [TransactionProofs],
      [ChunkSafety], [Supply], [Chunk], [ChunkQueues]: the theorems about whole
      receipts and chunks.

    Genesis:
    - [GenesisTools]: bitinfinity-token and utxo_parser.rs, patoshi.rs,
      genesis_builder.rs, main.rs of bitinfinity-tools.
    - [GenesisState]: core/chain-configs/src/genesis_validate.rs and
      core/store/src/genesis/state_applier.rs.
    - [GenesisProofs], [GenesisLoad], [SnapshotCheck], [GenesisChain]: the theorems.

    Server (bitinfinity-btcrpc/src):
    - [Amounts]: amounts.rs.  [TxBuilder]: near_tx_builder.rs against the node's codecs.
    - [Wallet], [WalletProofs]: keystore.rs and the wallet commands of main.rs;
      [RpcToy] is an instance of the crates of the server.
    - [Translator]: tx_translator.rs.  [NearClient]: near_client.rs.
    - [SendRaw], [SendProofs], [SendLimits], [SignSend]: sendrawtransaction,
      sendtoaddress and signrawtransactionwithwallet of main.rs.
    - [LegacyCase]: genesis and translation together.
    - [Psbt]: the commands on partially signed transactions of main.rs; [PsbtBytes],
      [PsbtReads]: what their readers make of what their writers write; [BitcoinWire]:
      Bitcoin's own format of a transaction, in which the bitcoin crate reads it;
      [PsbtCreate], [PsbtCombine], [PsbtSign], [PsbtLoop]: the theorems.
    - [Quantum]: the registry of quantum keys and its specification.  [Messages]: signed
      messages.  [PatoshiUnlock]: patoshiunlock, with the view of the state of
      runtime/src/state_viewer/mod.rs, up to the guard of the runtime.

    Structs are records with the field names of the source behind a short prefix,
    enums are inductive types, [&mut] arguments are returned, [?] is [let?], and an
    [unwrap], a division by zero or an overflow of plain arithmetic in nearcore, which is
    built with overflow checks, is [Panic]; the tools and the server are not, and their
    arithmetic wraps.  Names are those of the source.

    ** What the theorems show

    - Genesis: the node accepts what the tools write from a snapshot in range whose names are
      valid account ids, and needs that validity ([genesis_accepted]); its state holds the coins of the
      snapshot and those of the operator and the treasury, no others
      ([genesis_holds_snapshot]), in the form the theorems on chunks start from, with
      the Patoshi coins locked ([genesis_locks_patoshi]).
    - Money: applying a chunk ([apply_conserves]), processing its transactions
      ([chunk_conserves]) and executing a receipt ([receipt_conserves]) create and
      destroy no tokens; fees and costs are exact ([tx_cost_exact],
      [charge_regular_success], [charge_gas_key_exact]).
    - Authority: a nonce is accepted once ([no_replay]); batches of signatures are
      checked as single ones ([batched_validation_agrees]); a Bitcoin key is
      registered only for its owner ([registration_sound]); delegate actions and
      transactions cannot be confused ([nep461_domain_separation]).
    - Patoshi lock: how the record of an account moves in any sequence of chunks
      ([patoshi_lock_lifecycle]), the floor under its balance ([chunk_keeps_floor],
      [locked_transaction_accepted]), and the unlock from the command of the server to
      the record in the state ([unlock_reaches_lock]).
    - Receipts: those that wait for data are run once it is there ([waiting_refines]);
      the sink splits what it is handed into sent and buffered receipts, each of the
      latter in the buffer of its shard ([sink_conserves]), and counts them right
      ([congestion_info_accurate]); grants and what is sent stay within the limits
      ([scheduler_within_limits], [chunk_within_bandwidth], [block_within_bandwidth]),
      and a waiting link is served ([scheduler_progress]).
    - Server: the wallet keeps every key it has handed out, as long as writes of its file
      succeed and no backup is written onto it ([keys_durable], [keystore_well_typed],
      [dump_import_round_trip]); the node reads what the server
      writes ([node_reads_client]); sendrawtransaction pays what the Bitcoin
      transaction says ([sendraw_pays]), what is signed is what is sent
      ([signed_is_sent]), and no two texts that the node acknowledged have the same nonce
      ([no_nonce_reuse]).  A partially
      signed transaction shows what it was made from ([created_is_decoded]), combining
      copies gathers their signatures ([combine_gathers]) and processing signs every
      input ([process_signs]).  Messages verify for the address that signed them
      ([signed_message_verifies]); the registry of quantum keys is one list for each
      address ([quantum_registry_refines]).
    - Formats: round trips of the Borsh codecs and of witness programs, the regular
      expression of account identifiers ([validate_regex]), decimal amounts
      ([satoshi_precision], [btc_amount_exact]).
    - Storage: the two-layer overlay implements a map ([overlay_refines_map]), the queues
      and groups their lists ([queue_refines], [receipt_groups_refine]); deriving a
      layout splits one shard ([derive_v3_splits]).
    - Behaviour that is not intended: [deleted_key_comes_back], [delegate_key_iff],
      [snapshot_check_rejects], [legacy_accounts_unreachable], [op_return_call],
      [unload_locks_plain], [locked_import_lost], [lock_does_not_stop_sendraw],
      [signing_reserves_nothing], [miswritten_rejected], [stake_refused],
      [taproot_scripts_differ], [parent_validity], [finalized_is_refused],
      [psbt_loops], [torn_write], [backup_onto_itself].

    ** Bounds and fuel

    Recursion is structural on lists almost everywhere.  Where the source loops on a
    shrinking remainder (Base58, pieces of a chunk, queues) the fuel is the length of
    the input, and a lemma states that it suffices.  The readers of partially signed
    transactions do not always end: their fuel is an argument and [Err Running] says that
    it was spent, as many steps as there are bytes suffice for sizes up to 2^62, and
    [psbt_loops] has a text on which no fuel does.  Integers keep the width of the
    source: u64 and u128 bounds are written out, and an overflow is an error, a panic or
    a wrap-around as in the code.  Lengths of data in memory are taken to fit a u64.

    ** Not modelled

    The chain, epoch manager, network, client, database and Merkle trie of nearcore
    (unchanged from upstream, and not about balances); the virtual machine and its
    host functions, which stand behind a parameter with the law [CallsConserve];
    metrics, logging, prefetching and pipelining of contract preparation.  Of the
    server: HTTP and JSON text, which are parameters; commands that run at the same
    time, since each is a function of the state here; the commands that only forward a
    request or report on the node and the wallet, token and contract commands built
    from the same builder, the indexer of incoming payments and the files of the caches.  Of the tools: the binary snapshot format, key
    generation and test data; operational tools of the node.
*)

From Stdlib Require Export ZArith Lia.
From stdpp Require Export base option list numbers gmap strings fin_maps.

#[export] Set Default Proof Using "Type".
Global Open Scope Z_scope.

(* ------------------------------------------------------------------ *)
(** ** Results: [Ok], [Err] and the panic of an [unwrap] or an overflow *)

Inductive result (A E : Type) : Type :=
| Ok (a : A)
| Err (e : E)
| Panic.
Arguments Ok {A E} a.
Arguments Err {A E} e.
Arguments Panic {A E}.

Definition rbind {A B E : Type} (m : result A E) (k : A -> result B E) : result B E :=
  match m with
  | Ok a => k a
  | Err e => Err e
  | Panic => Panic
  end.

Definition map_err {A E F : Type} (f : E -> F) (m : result A E) : result A F :=
  match m with
  | Ok a => Ok a
  | Err e => Err (f e)
  | Panic => Panic
  end.

(** [Option::ok_or] and [Option::unwrap]. *)
Definition ok_or {A E : Type} (o : option A) (e : E) : result A E :=
  match o with
  | Some a => Ok a
  | None => Err e
  end.

Definition unwrap {A E : Type} (o : option A) : result A E :=
  match o with
  | Some a => Ok a
  | None => Panic
  end.

Definition is_ok {A E : Type} (m : result A E) : bool :=
  match m with
  | Ok _ => true
  | _ => false
  end.

Declare Scope rust_scope.
Delimit Scope rust_scope with rust.
Notation "'let?' x ':=' m 'in' k" := (rbind m (fun x => k))
  (at level 10, x pattern, m at level 100, k at level 200) : rust_scope.
Global Open Scope rust_scope.

(* ------------------------------------------------------------------ *)
(** ** Machine integers: [Z] with the width's bound written out *)

Definition u8_max : Z := 255.
Definition u16_max : Z := 65535.
Definition u32_max : Z := 4294967295.
Definition u64_max : Z := 18446744073709551615.
Definition u128_max : Z := 340282366920938463463374607431768211455.

Definition is_u (mx v : Z) : Prop := 0 <= v <= mx.

Definition checked_add (mx a b : Z) : option Z :=
  if a + b <=? mx then Some (a + b) else None.
Definition checked_sub (a b : Z) : option Z :=
  if b <=? a then Some (a - b) else None.
Definition checked_mul (mx a b : Z) : option Z :=
  if a * b <=? mx then Some (a * b) else None.
Definition saturating_add (mx a b : Z) : Z := Z.min mx (a + b).
Definition saturating_sub (a b : Z) : Z := Z.max 0 (a - b).
Definition saturating_mul (mx a b : Z) : Z := Z.min mx (a * b).

(** Plain [+], [-] and [*] in a crate built with [overflow-checks = true]. *)
Definition add_or_panic {E : Type} (mx a b : Z) : result Z E := unwrap (checked_add mx a b).
Definition sub_or_panic {E : Type} (a b : Z) : result Z E := unwrap (checked_sub a b).
Definition mul_or_panic {E : Type} (mx a b : Z) : result Z E := unwrap (checked_mul mx a b).

(* ------------------------------------------------------------------ *)
(** ** Rust [str]: the UTF-8 bytes of the string *)

Definition byte_of_ascii (c : Ascii.ascii) : Z := Z.of_N (Ascii.N_of_ascii c).
Definition ascii_of_byte (b : Z) : Ascii.ascii := Ascii.ascii_of_N (Z.to_N b).

Definition as_bytes (s : string) : list Z :=
  map byte_of_ascii (String.list_ascii_of_string s).
Definition of_bytes (b : list Z) : string :=
  String.string_of_list_ascii (map ascii_of_byte b).
Definition str_len (s : string) : Z := Z.of_nat (String.length s).
Definition vec_len {A : Type} (l : list A) : Z := Z.of_nat (length l).

Fixpoint chars_of (l : list Z) : list Z :=
  match l with
  | [] => []
  | x :: l1 =>
      if x <? 0x80 then x :: chars_of l1
      else match l1 with
      | [] => []
      | y :: l2 =>
          if x <? 0xE0 then ((x mod 32) * 64 + y mod 64) :: chars_of l2
          else match l2 with
          | [] => []
          | z :: l3 =>
              if x <? 0xF0 then
                ((x mod 16) * 4096 + (y mod 64) * 64 + z mod 64) :: chars_of l3
              else match l3 with
              | [] => []
              | w :: l4 =>
                  ((x mod 8) * 262144 + (y mod 64) * 4096 + (z mod 64) * 64 + w mod 64)
                    :: chars_of l4
              end
          end
      end
  end.

(** [str::chars]: the code points the bytes encode. *)
Definition chars (s : string) : list Z := chars_of (as_bytes s).

Definition is_cont (b : Z) : bool := (0x80 <=? b) && (b <=? 0xBF).

(** Well-formed UTF-8, the invariant of every Rust [str]. *)
Fixpoint is_utf8 (l : list Z) : bool :=
  match l with
  | [] => true
  | x :: l1 =>
      if x <? 0x80 then is_utf8 l1
      else match l1 with
      | [] => false
      | y :: l2 =>
          if (0xC2 <=? x) && (x <? 0xE0) then is_cont y && is_utf8 l2
          else match l2 with
          | [] => false
          | z :: l3 =>
              if (0xE0 <=? x) && (x <? 0xF0) then
                is_cont y && is_cont z
                && (negb (x =? 0xE0) || (0xA0 <=? y)) && (negb (x =? 0xED) || (y <=? 0x9F))
                && is_utf8 l3
              else match l3 with
              | [] => false
              | w :: l4 =>
                  (0xF0 <=? x) && (x <=? 0xF4) && is_cont y && is_cont z && is_cont w
                  && (negb (x =? 0xF0) || (0x90 <=? y)) && (negb (x =? 0xF4) || (y <=? 0x8F))
                  && is_utf8 l4
              end
          end
      end
  end.

Definition is_str (s : string) : bool := is_utf8 (as_bytes s).

(** [str::starts_with], [str::strip_suffix] and [str::split_once] on a
    single-byte separator, by the bytes of the string. *)
Definition starts_with (p s : string) : bool :=
  bool_decide (take (String.length p) (as_bytes s) = as_bytes p).

Definition strip_suffix (suf l : list Z) : option (list Z) :=
  if bool_decide (suf `suffix_of` l) then Some (take (length l - length suf) l) else None.

Fixpoint split_once (sep : Z) (l : list Z) : option (list Z * list Z) :=
  match l with
  | [] => None
  | x :: l' =>
      if x =? sep then Some ([], l')
      else match split_once sep l' with
      | Some (a, b) => Some (x :: a, b)
      | None => None
      end
  end.

Definition contains (b : Z) (l : list Z) : bool := existsb (Z.eqb b) l.

Definition is_byte (b : Z) : Prop := 0 <= b <= 255.
Abbreviation bytes_ok := (Forall is_byte).

(** The arguments of a [format!] call, kept apart from their rendering. *)
Inductive fmt_arg : Type :=
| FZ (n : Z)
| FS (s : string).

Record message : Type := Msg {
  msg_template : string;
  msg_args : list fmt_arg;
}.

Definition lit (s : string) : message := Msg s [].

(* ------------------------------------------------------------------ *)
(** ** Lemmas on results and machine integers *)

Create HintDb rust discriminated.

Lemma is_ok_inv {A E} (m : result A E) : is_ok m = true -> exists a, m = Ok a.
Proof. destruct m; try done. by exists a. Qed.

Section results.
Context {A B E : Type}.
Implicit Types (m : result A E) (k : A -> result B E).

Lemma rbind_Ok m k b : rbind m k = Ok b <-> exists a, m = Ok a /\ k a = Ok b.
Proof. destruct m; simpl; naive_solver. Qed.

Lemma rbind_Err m k e :
  rbind m k = Err e <-> m = Err e \/ exists a, m = Ok a /\ k a = Err e.
Proof. destruct m; simpl; naive_solver. Qed.

Lemma map_err_Ok {F} (f : E -> F) m a : map_err f m = Ok a <-> m = Ok a.
Proof. destruct m; simpl; naive_solver. Qed.

Lemma ok_or_Ok (o : option A) (e : E) a : ok_or o e = Ok a <-> o = Some a.
Proof. destruct o; simpl; naive_solver. Qed.

Lemma unwrap_Ok (o : option A) a : unwrap (E:=E) o = Ok a <-> o = Some a.
Proof. destruct o; simpl; naive_solver. Qed.
End results.

Lemma checked_add_Some mx a b c : checked_add mx a b = Some c <-> c = a + b /\ a + b <= mx.
Proof. unfold checked_add. destruct (Z.leb_spec (a + b) mx); naive_solver lia. Qed.

Lemma checked_add_None mx a b : checked_add mx a b = None <-> mx < a + b.
Proof. unfold checked_add. destruct (Z.leb_spec (a + b) mx); naive_solver lia. Qed.

Lemma checked_sub_Some a b c : checked_sub a b = Some c <-> c = a - b /\ b <= a.
Proof. unfold checked_sub. destruct (Z.leb_spec b a); naive_solver lia. Qed.

Lemma checked_sub_None a b : checked_sub a b = None <-> a < b.
Proof. unfold checked_sub. destruct (Z.leb_spec b a); naive_solver lia. Qed.

Lemma checked_mul_Some mx a b c : checked_mul mx a b = Some c <-> c = a * b /\ a * b <= mx.
Proof. unfold checked_mul. destruct (Z.leb_spec (a * b) mx); naive_solver lia. Qed.

Lemma checked_mul_None mx a b : checked_mul mx a b = None <-> mx < a * b.
Proof. unfold checked_mul. destruct (Z.leb_spec (a * b) mx); naive_solver lia. Qed.

(** [rust_inv] opens every hypothesis that says a checked computation
    succeeded or failed, and every [let?] chain that returned [Ok]. *)
Ltac rust_inv_step :=
  match goal with
  | H : Ok _ = Ok _ |- _ => injection H as H
  | H : Err _ = Err _ |- _ => injection H as H
  | H : Some _ = Some _ |- _ => injection H as H
  | H : Ok _ = Err _ |- _ => discriminate H
  | H : Err _ = Ok _ |- _ => discriminate H
  | H : Ok _ = Panic |- _ => discriminate H
  | H : Panic = Ok _ |- _ => discriminate H
  | H : Err _ = Panic |- _ => discriminate H
  | H : Panic = Err _ |- _ => discriminate H
  | H : None = Some _ |- _ => discriminate H
  | H : Some _ = None |- _ => discriminate H
  | H : rbind _ _ = Ok _ |- _ =>
      let x := fresh "v" in let E := fresh "E" in
      apply rbind_Ok in H as (x & E & H)
  | H : map_err _ _ = Ok _ |- _ => apply map_err_Ok in H
  | H : ok_or _ _ = Ok _ |- _ => apply ok_or_Ok in H
  | H : unwrap _ = Ok _ |- _ => apply unwrap_Ok in H
  | H : add_or_panic _ _ _ = Ok _ |- _ => apply unwrap_Ok in H
  | H : sub_or_panic _ _ = Ok _ |- _ => apply unwrap_Ok in H
  | H : mul_or_panic _ _ _ = Ok _ |- _ => apply unwrap_Ok in H
  | H : checked_add _ _ _ = Some _ |- _ => apply checked_add_Some in H as [? H]
  | H : checked_add _ _ _ = None |- _ => apply checked_add_None in H
  | H : checked_sub _ _ = Some _ |- _ => apply checked_sub_Some in H as [? H]
  | H : checked_sub _ _ = None |- _ => apply checked_sub_None in H
  | H : checked_mul _ _ _ = Some _ |- _ => apply checked_mul_Some in H as [? H]
  | H : checked_mul _ _ _ = None |- _ => apply checked_mul_None in H
  end.
Ltac rust_inv := repeat (rust_inv_step; simpl in * ).

(** Boolean tests of the code as propositions. *)
Ltac bool_inv :=
  repeat match goal with
  | H : (_ && _) = true |- _ => apply andb_true_iff in H as [? ?]
  | H : (_ || _) = false |- _ => apply orb_false_iff in H as [? ?]
  | H : negb _ = true |- _ => apply negb_true_iff in H
  | H : negb _ = false |- _ => apply negb_false_iff in H
  | H : (_ <=? _) = true |- _ => apply Z.leb_le in H
  | H : (_ <=? _) = false |- _ => apply Z.leb_gt in H
  | H : (_ <? _) = true |- _ => apply Z.ltb_lt in H
  | H : (_ <? _) = false |- _ => apply Z.ltb_ge in H
  | H : (_ =? _) = true |- _ => apply Z.eqb_eq in H
  | H : (_ =? _) = false |- _ => apply Z.eqb_neq in H
  | H : bool_decide _ = true |- _ => apply bool_decide_eq_true in H
  | H : bool_decide _ = false |- _ => apply bool_decide_eq_false in H
  end.

(** [split_match] case-splits the outermost test of hypothesis [H]. *)
Ltac split_match H :=
  match type of H with
  | context [match ?x with _ => _ end] =>
      let E := fresh "E" in destruct x eqn:E; simpl in H; try discriminate H
  end.

(* ------------------------------------------------------------------ *)
(** ** Lemmas on bytes and strings *)

Lemma length_as_bytes s : length (as_bytes s) = String.length s.
Proof. unfold as_bytes. rewrite length_map. induction s; simpl; congruence. Qed.

Lemma as_bytes_app s t : as_bytes (s +:+ t) = as_bytes s ++ as_bytes t.
Proof. unfold as_bytes. induction s; simpl; [done|]. by f_equal. Qed.

Lemma byte_of_ascii_ok c : is_byte (byte_of_ascii c).
Proof.
  unfold is_byte, byte_of_ascii.
  pose proof (Ascii.N_ascii_bounded c). lia.
Qed.

Lemma as_bytes_ok s : bytes_ok (as_bytes s).
Proof. apply Forall_map, Forall_true. intros c. apply byte_of_ascii_ok. Qed.

Lemma byte_of_ascii_of_byte b : is_byte b -> byte_of_ascii (ascii_of_byte b) = b.
Proof.
  unfold is_byte, byte_of_ascii, ascii_of_byte. intros [??].
  rewrite Ascii.N_ascii_embedding by lia. lia.
Qed.

Lemma ascii_of_byte_of_ascii c : ascii_of_byte (byte_of_ascii c) = c.
Proof.
  unfold byte_of_ascii, ascii_of_byte. rewrite N2Z.id. apply Ascii.ascii_N_embedding.
Qed.

Lemma of_bytes_as_bytes s : of_bytes (as_bytes s) = s.
Proof.
  unfold of_bytes, as_bytes. rewrite map_map.
  rewrite (map_ext _ id) by apply ascii_of_byte_of_ascii.
  rewrite map_id. apply String.string_of_list_ascii_of_string.
Qed.

Lemma as_bytes_of_bytes b : bytes_ok b -> as_bytes (of_bytes b) = b.
Proof.
  unfold of_bytes, as_bytes. rewrite String.list_ascii_of_string_of_list_ascii, map_map.
  induction 1 as [|x l Hx _ IH]; simpl; [done|].
  by rewrite byte_of_ascii_of_byte, IH.
Qed.

Lemma as_bytes_inj s t : as_bytes s = as_bytes t -> s = t.
Proof. intros H. by rewrite <- (of_bytes_as_bytes s), H, of_bytes_as_bytes. Qed.

Lemma length_as_bytes_Z s : Z.of_nat (length (as_bytes s)) = str_len s.
Proof. unfold str_len. by rewrite length_as_bytes. Qed.

(** On a [str], characters that are all ASCII are the bytes themselves. *)
Lemma chars_of_ascii n l :
  (length l <= n)%nat -> bytes_ok l -> is_utf8 l = true ->
  Forall (fun c => c < 128) (chars_of l) -> chars_of l = l.
Proof.
  revert l. induction n as [|n IH]; intros [|x l] Hn Hb Hu Ha; simpl in *; try (done || lia).
  inversion_clear Hb as [|? ? Hx Hl]. unfold is_byte in *.
  destruct (Z.ltb_spec x 128).
  { inversion_clear Ha. f_equal. apply IH; [lia|done..]. }
  exfalso. unfold is_cont in *.
  destruct l as [|y l]; [done|]. inversion_clear Hl as [|? ? Hy Hl']. unfold is_byte in *.
  destruct (Z.ltb_spec x 0xE0), (Z.leb_spec 0xC2 x); simpl in *; try lia.
  all: repeat case_match; simpl in *; try discriminate;
    inversion_clear Ha; bool_inv;
    repeat match goal with H : _ || _ = true |- _ => apply orb_true_iff in H end;
    bool_inv; Z.to_euclidean_division_equations; lia.
Qed.

Lemma contains_true b l : contains b l = true <-> In b l.
Proof.
  unfold contains. rewrite existsb_exists. split.
  - intros (x & ? & ->%Z.eqb_eq); done.
  - intros ?. exists b. by rewrite Z.eqb_refl.
Qed.

Lemma contains_false b l : contains b l = false <-> ~ In b l.
Proof. by rewrite <- contains_true, not_true_iff_false. Qed.

Lemma split_once_Some sep l a b :
  split_once sep l = Some (a, b) <-> l = a ++ sep :: b /\ ~ In sep a.
Proof.
  revert a b. induction l as [|x l IH]; intros a b; simpl.
  { split; [done|]. intros [H _]. by destruct a. }
  destruct (Z.eqb_spec x sep) as [->|Hne].
  { split; [intros [= <- <-]; simpl; tauto|]. intros [H Hin].
    destruct a as [|y a]; simplify_eq/=; [done|]. exfalso. apply Hin. by left. }
  destruct (split_once sep l) as [[a' b']|] eqn:E.
  - destruct (IH a' b') as [IH1 _]. destruct IH1 as [-> Hin]; [done|].
    split; [intros [= <- <-]; simpl; naive_solver|]. intros [H Hin'].
    destruct a as [|y a]; simplify_eq/=.
    enough (Some (a', b') = Some (a, b)) as [= -> ->] by done.
    apply IH. split; [done|tauto].
  - split; [done|]. intros [H Hin']. destruct a as [|y a]; simplify_eq/=.
    enough (None = Some (a, b)) by done. apply IH. tauto.
Qed.

Lemma strip_suffix_Some suf l a : strip_suffix suf l = Some a <-> l = a ++ suf.
Proof.
  unfold strip_suffix. case_bool_decide as Hs.
  - destruct Hs as [k ->]. rewrite length_app, Nat.add_sub, take_app_length.
    split; [by intros [= ->]|]. by intros ->%app_inv_tail.
  - split; [done|]. intros ->. destruct Hs. by exists a.
Qed.

#[export] Hint Resolve as_bytes_ok byte_of_ascii_ok : rust.
