(* ===== verification/Float64.v ===== *)
(** * IEEE 754 double precision

    The [f64] of the language as far as the code uses it: a finite number is a dyadic
    rational, and every operation is the exact result rounded to the nearest number with
    53 significant bits, to even on a tie.  The sign of zero is not kept: nothing in the
    code observes it. *)

From S2P Require Import Prelude.

(** [Fin m e] is [m * 2 ^ e]. *)
Inductive f64 : Type :=
| Fin (m e : Z)
| Inf (negative : bool)
| NaN.

(** [a / b] rounded to an integer, to even on a tie. *)
Definition div_even (a b : Z) : Z :=
  let q := a / b in
  let r := a mod b in
  if 2 * r <? b then q
  else if b <? 2 * r then q + 1
  else if Z.even q then q else q + 1.

(** The numerator and the denominator of [a / b * 2 ^ k]. *)
Definition up (a k : Z) : Z := a * 2 ^ Z.max 0 k.
Definition down (b k : Z) : Z := b * 2 ^ Z.max 0 (- k).

(** The greatest [l] with [2 ^ l <= a / b]. *)
Definition ilog2 (a b : Z) : Z :=
  let l := Z.log2 a - Z.log2 b in
  if up a (- l) <? down b (- l) then l - 1 else l.

(** The exponent of the last place. *)
Definition last_place (a b : Z) : Z := Z.max (ilog2 a b - 52) (-1074).

(** A positive rational, rounded. *)
Definition round_positive (a b : Z) : Z * Z :=
  let e := last_place a b in
  (div_even (up a (- e)) (down b (- e)), e).

Definition overflows (m e : Z) : bool := 2 ^ 1024 <=? up m e.

Definition round_frac (a b : Z) : f64 :=
  if a =? 0 then Fin 0 0
  else
    let '(m, e) := round_positive (Z.abs a) b in
    if overflows m e then Inf (a <? 0) else Fin (Z.sgn a * m) e.

(** A dyadic rational, rounded. *)
Definition round_dyadic (m e : Z) : f64 := round_frac (up m e) (down 1 e).

Definition of_Z (n : Z) : f64 := round_frac n 1.

Definition is_finite (x : f64) : bool := match x with Fin _ _ => true | _ => false end.

Definition f_mul (x y : f64) : f64 :=
  match x, y with
  | Fin m e, Fin m' e' => round_dyadic (m * m') (e + e')
  | Inf s, Fin m _ | Fin m _, Inf s => if m =? 0 then NaN else Inf (xorb s (m <? 0))
  | Inf s, Inf s' => Inf (xorb s s')
  | _, _ => NaN
  end.

Definition f_div (x y : f64) : f64 :=
  match x, y with
  | Fin m e, Fin m' e' =>
      if m' =? 0 then if m =? 0 then NaN else Inf (m <? 0)
      else round_frac (Z.sgn m' * up m (e - e')) (down (Z.abs m') (e - e'))
  | Inf s, Fin m _ => Inf (xorb s (m <? 0))
  | Fin _ _, Inf _ => Fin 0 0
  | _, _ => NaN
  end.

Definition f_add (x y : f64) : f64 :=
  match x, y with
  | Fin m e, Fin m' e' =>
      let k := Z.min e e' in round_dyadic (m * 2 ^ (e - k) + m' * 2 ^ (e' - k)) k
  | Inf s, Fin _ _ | Fin _ _, Inf s => Inf s
  | Inf s, Inf s' => if Bool.eqb s s' then Inf s else NaN
  | _, _ => NaN
  end.

Definition f_neg (x : f64) : f64 :=
  match x with Fin m e => Fin (- m) e | Inf s => Inf (negb s) | NaN => NaN end.

Definition f_sub (x y : f64) : f64 := f_add x (f_neg y).

Definition f_abs (x : f64) : f64 :=
  match x with Fin m e => Fin (Z.abs m) e | Inf _ => Inf false | NaN => NaN end.

(** Comparison; nothing compares with [NaN]. *)
Definition f_compare (x y : f64) : option comparison :=
  match x, y with
  | Fin m e, Fin m' e' =>
      let k := Z.min e e' in Some (m * 2 ^ (e - k) ?= m' * 2 ^ (e' - k))
  | Fin _ _, Inf s => Some (if s then Gt else Lt)
  | Inf s, Fin _ _ => Some (if s then Lt else Gt)
  | Inf s, Inf s' => Some (if Bool.eqb s s' then Eq else if s then Lt else Gt)
  | _, _ => None
  end.

Definition f_lt (x y : f64) : bool := match f_compare x y with Some Lt => true | _ => false end.
Definition f_le (x y : f64) : bool := match f_compare x y with Some (Lt | Eq) => true | _ => false end.
Definition f_eq (x y : f64) : bool := match f_compare x y with Some Eq => true | _ => false end.
Definition f_gt (x y : f64) : bool := f_lt y x.

(** [f64::max]: the other operand when one is [NaN]. *)
Definition f_max (x y : f64) : f64 :=
  match f_compare x y with
  | Some Lt => y
  | Some _ => x
  | None => match x with NaN => y | _ => x end
  end.

(** [f64::round]: to the nearest integer, half away from zero. *)
Definition f_round (x : f64) : f64 :=
  match x with
  | Fin m e => if 0 <=? e then x
               else Fin (Z.sgn m * ((2 * Z.abs m + 2 ^ (- e)) / (2 * 2 ^ (- e)))) 0
  | _ => x
  end.

(** [as u64]: towards zero, saturating; [NaN] is 0. *)
Definition f_to_u64 (x : f64) : Z :=
  match x with
  | Fin m e => Z.max 0 (Z.min u64_max (Z.quot (up m e) (down 1 e)))
  | Inf s => if s then 0 else u64_max
  | NaN => 0
  end.

(* ------------------------------------------------------------------ *)
(** ** Rounding *)

Lemma div_even_error a b : 0 < b -> 2 * Z.abs (div_even a b * b - a) <= b.
Proof.
  intros Hb. unfold div_even. pose proof (Z.div_mod a b ltac:(lia)) as E. pose proof (Z.mod_pos_bound a b Hb) as Hr.
  destruct (Z.ltb_spec (2 * (a mod b)) b); [lia|]. destruct (Z.ltb_spec b (2 * (a mod b))); [lia|].
  destruct (Z.even _); lia.
Qed.

Lemma div_even_exact q b : 0 < b -> div_even (q * b) b = q.
Proof.
  intros Hb. unfold div_even. rewrite Z.mod_mul, Z.div_mul by lia. destruct (Z.ltb_spec (2 * 0) b); [done|lia].
Qed.

(** Powers of two on both sides. *)
Lemma up_down_shift a b k j : 0 < b -> k <= j -> (up a (- k) * down b (- j) = up a (- j) * down b (- k) * 2 ^ (j - k))%Z.
Proof.
  intros Hb Hkj. unfold up, down. rewrite !Z.opp_involutive.
  transitivity (a * b * (2 ^ Z.max 0 (- k) * 2 ^ Z.max 0 j)); [ring|].
  transitivity (a * b * (2 ^ Z.max 0 (- j) * 2 ^ Z.max 0 k * 2 ^ (j - k))); [|ring].
  f_equal. rewrite <- !Z.pow_add_r by lia. f_equal. lia.
Qed.

Lemma down_pos b k : 0 < b -> 0 < down b k.
Proof. intros Hb. unfold down. apply Z.mul_pos_pos; [done|]. apply Z.pow_pos_nonneg; lia. Qed.

(** [2 ^ l <= a / b < 2 ^ (l + 1)]. *)
Lemma ilog2_spec a b : 0 < a -> 0 < b ->
  down b (- ilog2 a b) <= up a (- ilog2 a b) < 2 * down b (- ilog2 a b).
Proof.
  intros Ha Hb. unfold ilog2. set (la := Z.log2 a). set (lb := Z.log2 b).
  assert (2 ^ la <= a < 2 * 2 ^ la) as HA.
  { pose proof (Z.log2_spec a Ha) as H. fold la in H. rewrite Z.pow_succ_r in H by (apply Z.log2_nonneg). lia. }
  assert (2 ^ lb <= b < 2 * 2 ^ lb) as HB.
  { pose proof (Z.log2_spec b Hb) as H. fold lb in H. rewrite Z.pow_succ_r in H by (apply Z.log2_nonneg). lia. }
  pose proof (Z.log2_nonneg a) as Hla. pose proof (Z.log2_nonneg b) as Hlb. fold la in Hla. fold lb in Hlb.
  assert (2 ^ la * 2 ^ Z.max 0 (- (la - lb)) = 2 ^ lb * 2 ^ Z.max 0 (la - lb)) as E.
  { rewrite <- !Z.pow_add_r by lia. f_equal. lia. }
  assert (up a (- (la - lb)) < 2 * down b (- (la - lb)) /\ down b (- (la - lb)) < 2 * up a (- (la - lb))) as [H1 H2].
  { unfold up, down. rewrite Z.opp_involutive. pose proof (Z.pow_pos_nonneg 2 (Z.max 0 (- (la - lb))) ltac:(lia) ltac:(lia)).
    pose proof (Z.pow_pos_nonneg 2 (Z.max 0 (la - lb)) ltac:(lia) ltac:(lia)). nia. }
  destruct (Z.ltb_spec (up a (- (la - lb))) (down b (- (la - lb)))) as [Hlt|Hge]; [|done].
  pose proof (up_down_shift a b (la - lb - 1) (la - lb) Hb ltac:(lia)) as Es.
  replace (la - lb - (la - lb - 1)) with 1 in Es by lia. change (2 ^ 1) with 2 in Es.
  pose proof (down_pos b (- (la - lb)) Hb). pose proof (down_pos b (- (la - lb - 1)) Hb). nia.
Qed.

(** The error of rounding is at most half a unit in the last place. *)
Lemma round_positive_error a b m e : 0 < b -> round_positive a b = (m, e) ->
  2 * Z.abs (m * down b (- e) - up a (- e)) <= down b (- e).
Proof. intros Hb [= <- <-]. apply div_even_error. by apply down_pos. Qed.

(** Bounds on the logarithm. *)
Lemma ilog2_lt a b k : 0 < a -> 0 < b -> up a (- k) < down b (- k) -> ilog2 a b < k.
Proof.
  intros Ha Hb Hlt. destruct (Z.lt_ge_cases (ilog2 a b) k) as [|Hge]; [done|exfalso].
  pose proof (ilog2_spec a b Ha Hb) as [Hl _]. pose proof (up_down_shift a b k (ilog2 a b) Hb Hge) as E.
  pose proof (down_pos b (- k) Hb). pose proof (down_pos b (- ilog2 a b) Hb).
  pose proof (Z.pow_pos_nonneg 2 (ilog2 a b - k) ltac:(lia) ltac:(lia)).
  assert (up a (- k) * down b (- ilog2 a b) < down b (- k) * down b (- ilog2 a b)) by (by apply Z.mul_lt_mono_pos_r).
  assert (down b (- k) * down b (- ilog2 a b) <= down b (- k) * up a (- ilog2 a b)) by (apply Z.mul_le_mono_nonneg_l; lia).
  assert (0 < down b (- k) * up a (- ilog2 a b)) by (apply Z.mul_pos_pos; lia). nia.
Qed.

Lemma ilog2_ge a b k : 0 < a -> 0 < b -> down b (- k) <= up a (- k) -> k <= ilog2 a b.
Proof.
  intros Ha Hb Hge. destruct (Z.le_gt_cases k (ilog2 a b)) as [|Hlt]; [done|exfalso].
  pose proof (ilog2_spec a b Ha Hb) as [_ Hl]. pose proof (up_down_shift a b (ilog2 a b) k Hb ltac:(lia)) as E.
  pose proof (down_pos b (- k) Hb). pose proof (down_pos b (- ilog2 a b) Hb).
  assert (2 <= 2 ^ (k - ilog2 a b)).
  { replace (k - ilog2 a b) with (Z.succ (k - ilog2 a b - 1)) by lia. rewrite Z.pow_succ_r by lia.
    pose proof (Z.pow_pos_nonneg 2 (k - ilog2 a b - 1) ltac:(lia) ltac:(lia)). lia. }
  assert (up a (- ilog2 a b) * down b (- k) < 2 * down b (- ilog2 a b) * down b (- k)) by (by apply Z.mul_lt_mono_pos_r).
  assert (down b (- ilog2 a b) * down b (- k) <= down b (- ilog2 a b) * up a (- k)) by (apply Z.mul_le_mono_nonneg_l; lia).
  assert (0 < down b (- ilog2 a b) * up a (- k)) by (apply Z.mul_pos_pos; lia). nia.
Qed.

(** A number in the normal range has 53 significant bits. *)
Lemma round_positive_normal a b m e : 0 < a -> 0 < b -> -1022 <= ilog2 a b -> round_positive a b = (m, e) ->
  e = ilog2 a b - 52 /\ 2 ^ 52 * down b (- e) <= up a (- e) < 2 ^ 53 * down b (- e) /\ 2 ^ 52 <= m <= 2 ^ 53.
Proof.
  intros Ha Hb Hl H. pose proof (round_positive_error a b m e Hb H) as Herr.
  assert (e = ilog2 a b - 52) as Ee by (injection H as _ <-; unfold last_place; lia).
  split; [done|]. pose proof (ilog2_spec a b Ha Hb) as [H1 H2].
  pose proof (up_down_shift a b e (ilog2 a b) Hb ltac:(lia)) as E.
  replace (ilog2 a b - e) with 52 in E by lia.
  pose proof (down_pos b (- e) Hb) as Hd. pose proof (down_pos b (- ilog2 a b) Hb) as Hd'.
  set (U := up a (- e)) in *. set (D := down b (- e)) in *.
  set (Ul := up a (- ilog2 a b)) in *. set (Dl := down b (- ilog2 a b)) in *. clearbody U D Ul Dl.
  change (2 ^ 53) with (2 * 2 ^ 52). set (p := 2 ^ 52) in *. assert (0 < p) by done. clearbody p.
  assert (p * D <= U < 2 * p * D) as HU by nia.
  split; [lia|]. split; nia.
Qed.

(** ** Powers of two *)

Lemma up_nonpos m e : e <= 0 -> up m e = m.
Proof. intros He. unfold up. rewrite Z.max_l, Z.pow_0_r by lia. lia. Qed.

Lemma up_nonneg m e : 0 <= e -> up m e = m * 2 ^ e.
Proof. intros He. unfold up. by rewrite Z.max_r by lia. Qed.

Lemma down_nonneg b e : 0 <= e -> down b e = b.
Proof. intros He. unfold down. rewrite Z.max_l, Z.pow_0_r by lia. lia. Qed.

Lemma down_nonpos b e : e <= 0 -> down b e = b * 2 ^ (- e).
Proof. intros He. unfold down. by rewrite Z.max_r by lia. Qed.

Lemma no_overflow m e : e <= 900 -> m <= 2 ^ 53 -> overflows m e = false.
Proof.
  intros He Hm. unfold overflows, up. apply Z.leb_gt.
  assert (0 < 2 ^ Z.max 0 e <= 2 ^ 900) as Hp by (split; [apply Z.pow_pos_nonneg|apply Z.pow_le_mono_r]; lia).
  assert (m * 2 ^ Z.max 0 e <= 2 ^ 53 * 2 ^ Z.max 0 e) by (apply Z.mul_le_mono_nonneg_r; lia).
  assert (2 ^ 53 * 2 ^ Z.max 0 e <= 2 ^ 53 * 2 ^ 900) by (apply Z.mul_le_mono_nonneg_l; [done|lia]).
  assert (2 ^ 53 * 2 ^ 900 < 2 ^ 1024) by done. lia.
Qed.

Lemma div_even_mono a a' b : 0 < b -> a <= a' -> div_even a b <= div_even a' b.
Proof.
  intros Hb Ha. pose proof (div_even_error a b Hb). pose proof (div_even_error a' b Hb).
  destruct (Z.le_gt_cases (div_even a b) (div_even a' b)) as [|Hgt]; [done|].
  assert (a = a') as ->; [|lia]. nia.
Qed.

(** ** Integers as numbers *)

(** [of_Z], scaled by [2 ^ 52]: relative error [2 ^ -53], and monotone. *)
Lemma of_Z_spec v : 1 <= v < 2 ^ 64 ->
  exists m e, of_Z v = Fin m e /\ 2 ^ 52 <= m <= 2 ^ 53 /\ -52 <= e <= 11
    /\ e = ilog2 v 1 - 52 /\ m = div_even (up v (- e)) (down 1 (- e))
    /\ 2 ^ 53 * Z.abs (m * 2 ^ (e + 52) - v * 2 ^ 52) <= v * 2 ^ 52.
Proof.
  intros Hv. unfold of_Z, round_frac. rewrite (proj2 (Z.eqb_neq v 0)) by lia.
  rewrite Z.abs_eq, Z.sgn_pos, (proj2 (Z.ltb_ge v 0)) by lia.
  assert (0 <= ilog2 v 1) as H1.
  { apply ilog2_ge; [lia..|]. rewrite down_nonneg, up_nonneg, Z.pow_0_r by lia. lia. }
  assert (ilog2 v 1 < 64) as H2.
  { apply ilog2_lt; [lia..|]. rewrite up_nonpos, down_nonpos by lia. rewrite Z.opp_involutive. lia. }
  destruct (round_positive v 1) as [m e] eqn:E.
  pose proof (round_positive_error v 1 m e ltac:(lia) E) as Herr.
  destruct (round_positive_normal v 1 m e ltac:(lia) ltac:(lia) ltac:(lia) E) as (Ee & [Hlo Hhi] & Hm).
  rewrite no_overflow by lia. exists m, e. rewrite Z.mul_1_l. split; [done|]. split; [done|]. split; [lia|].
  split; [done|]. split; [injection E as <- <-; done|].
  destruct (Z.le_gt_cases e 0) as [He|He].
  - rewrite up_nonneg, down_nonneg in * by lia.
    assert (m = v * 2 ^ (- e)) as -> by lia.
    assert (v * 2 ^ (- e) * 2 ^ (e + 52) = v * 2 ^ 52) as ->.
    { rewrite <- Z.mul_assoc, <- Z.pow_add_r by lia. do 2 f_equal. lia. }
    rewrite Z.sub_diag. simpl Z.abs. lia.
  - rewrite up_nonpos, down_nonpos, Z.mul_1_l, Z.opp_involutive in * by lia. rewrite Z.pow_add_r by lia.
    assert (0 < 2 ^ e) by (apply Z.pow_pos_nonneg; lia).
    replace (m * (2 ^ e * 2 ^ 52) - v * 2 ^ 52) with ((m * 2 ^ e - v) * 2 ^ 52) by ring.
    rewrite Z.abs_mul. change (Z.abs (2 ^ 52)) with (2 ^ 52). change (2 ^ 53) with (2 * 2 ^ 52). nia.
Qed.

Lemma of_Z_mono v v' m e m' e' : 1 <= v <= v' -> v' < 2 ^ 64 -> of_Z v = Fin m e -> of_Z v' = Fin m' e' ->
  m * 2 ^ (e + 52) <= m' * 2 ^ (e' + 52).
Proof.
  intros Hv Hv' E E'.
  destruct (of_Z_spec v ltac:(lia)) as (m1 & e1 & E1 & Hm & He & El & Em & _). rewrite E in E1. injection E1 as <- <-.
  destruct (of_Z_spec v' ltac:(lia)) as (m2 & e2 & E2 & Hm' & He' & El' & Em' & _). rewrite E' in E2. injection E2 as <- <-.
  destruct (Z.lt_trichotomy e e') as [Hlt|[->|Hgt]].
  - assert (2 ^ (e' + 52) = 2 * 2 ^ (e + 52) * 2 ^ (e' - e - 1)) as Ep.
    { change 2 with (2 ^ 1) at 2. rewrite <- !Z.pow_add_r by lia. f_equal. lia. }
    assert (0 < 2 ^ (e + 52)) by (apply Z.pow_pos_nonneg; lia).
    assert (1 <= 2 ^ (e' - e - 1)) by (pose proof (Z.pow_pos_nonneg 2 (e' - e - 1)); lia).
    assert (m * 2 ^ (e + 52) <= 2 ^ 53 * 2 ^ (e + 52)) by (apply Z.mul_le_mono_nonneg_r; lia).
    assert (2 ^ 52 * 2 ^ (e' + 52) <= m' * 2 ^ (e' + 52)) by (apply Z.mul_le_mono_nonneg_r; lia).
    assert (2 ^ 53 * 2 ^ (e + 52) <= 2 ^ 52 * 2 ^ (e' + 52)); [|lia].
    rewrite Ep. change (2 ^ 53) with (2 ^ 52 * 2).
    assert (2 ^ 52 * 2 * 2 ^ (e + 52) * 1 <= 2 ^ 52 * 2 * 2 ^ (e + 52) * 2 ^ (e' - e - 1)) by (apply Z.mul_le_mono_nonneg_l; lia).
    lia.
  - apply Z.mul_le_mono_nonneg_r; [apply Z.pow_nonneg; lia|]. subst m m'. apply div_even_mono; [apply down_pos; lia|].
    unfold up. apply Z.mul_le_mono_nonneg_r; [apply Z.pow_nonneg|]; lia.
  - exfalso. pose proof (ilog2_spec v 1 ltac:(lia) ltac:(lia)) as [Hl _].
    pose proof (ilog2_spec v' 1 ltac:(lia) ltac:(lia)) as [_ Hl'].
    assert (0 <= ilog2 v' 1 < ilog2 v 1) as Hlog by lia.
    rewrite up_nonpos, down_nonpos, Z.mul_1_l, Z.opp_involutive in Hl, Hl' by lia.
    assert (2 * 2 ^ ilog2 v' 1 <= 2 ^ ilog2 v 1); [|lia].
    rewrite <- Z.pow_succ_r by lia. apply Z.pow_le_mono_r; lia.
Qed.

(** Comparison on a common scale. *)
Lemma compare_scaled m e m' e' : -1074 <= e -> -1074 <= e' ->
  f_compare (Fin m e) (Fin m' e') = Some (m * 2 ^ (e + 1074) ?= m' * 2 ^ (e' + 1074)).
Proof.
  intros He He'. unfold f_compare. f_equal. set (k := Z.min e e').
  rewrite (Zmult_compare_compat_r _ _ (2 ^ (k + 1074))) by (apply Z.lt_gt, Z.pow_pos_nonneg; lia).
  rewrite <- !Z.mul_assoc, <- !Z.pow_add_r by lia.
  replace (e - k + (k + 1074)) with (e + 1074) by lia. by replace (e' - k + (k + 1074)) with (e' + 1074) by lia.
Qed.

(** A quotient of positive numbers that is at most 1 is rounded to at most 1, and to 1
    only when it is within [2 ^ -54] of 1. *)
Lemma round_at_most_one a b : 0 < a <= b -> b <= a * 2 ^ 1022 ->
  exists m e, round_frac a b = Fin m e /\ -1074 <= e <= -52 /\ 0 <= m /\ m * 2 ^ (e + 1074) <= 2 ^ 1074
    /\ (m * 2 ^ (e + 1074) = 2 ^ 1074 -> b * (2 ^ 54 - 1) <= a * 2 ^ 54).
Proof.
  intros Hab Hlow. unfold round_frac. rewrite (proj2 (Z.eqb_neq a 0)) by lia.
  rewrite Z.abs_eq, Z.sgn_pos, (proj2 (Z.ltb_ge a 0)) by lia.
  assert (-1022 <= ilog2 a b) as H1.
  { apply ilog2_ge; [lia..|]. rewrite down_nonneg, up_nonneg by lia. lia. }
  assert (ilog2 a b < 1) as H2.
  { apply ilog2_lt; [lia..|]. rewrite up_nonpos, down_nonpos by lia. change (2 ^ (- - (1))) with 2. lia. }
  destruct (round_positive a b) as [m e] eqn:E.
  pose proof (round_positive_error a b m e ltac:(lia) E) as Herr.
  destruct (round_positive_normal a b m e ltac:(lia) ltac:(lia) ltac:(lia) E) as (Ee & [Hlo Hhi] & Hm).
  rewrite no_overflow, Z.mul_1_l by lia. exists m, e. split; [done|]. split; [lia|]. split; [lia|].
  rewrite up_nonneg, down_nonneg in * by lia.
  destruct (Z.eq_dec (ilog2 a b) 0) as [H0|H0].
  - assert (e = -52) as -> by lia. change (-(-52)) with 52 in *. change (2 ^ 1074) with (2 ^ 52 * 2 ^ (-52 + 1074)).
    assert (a = b) as -> by lia. assert (m = 2 ^ 52) as -> by nia. split; [done|]. intros _. lia.
  - assert (2 ^ (e + 1074) <= 2 ^ (-53 + 1074)) as Hp by (apply Z.pow_le_mono_r; lia).
    assert (0 < 2 ^ (e + 1074)) by (apply Z.pow_pos_nonneg; lia).
    change (2 ^ 1074) with (2 ^ 53 * 2 ^ (-53 + 1074)).
    assert (m * 2 ^ (e + 1074) <= 2 ^ 53 * 2 ^ (e + 1074)) by (apply Z.mul_le_mono_nonneg_r; lia).
    assert (2 ^ 53 * 2 ^ (e + 1074) <= 2 ^ 53 * 2 ^ (-53 + 1074)) by (apply Z.mul_le_mono_nonneg_l; [done|lia]).
    split; [lia|]. intros Eq.
    assert (2 ^ (e + 1074) = 2 ^ (-53 + 1074)) as Ep by nia.
    apply Z.pow_inj_r in Ep; [|lia..]. assert (e = -53) as -> by lia. change (-(-53)) with 53 in *.
    assert (m = 2 ^ 53) as -> by nia. change (2 ^ 54) with (2 * 2 ^ 53). nia.
Qed.
