(* ===== verification/Decimal.v ===== *)
(** * Decimal numbers as text

    [u128::to_string], [u128::from_str] and padding of the standard library, on lists of
    characters (code points). *)

From S2P Require Import Prelude.

Definition digit_char (d : Z) : Z := 48 + d.
Definition is_ascii_digit (c : Z) : bool := (48 <=? c) && (c <=? 57).

(** The digits of [n] before [acc], the last first; [fuel] bounds their number. *)
Fixpoint dec_digits (fuel : nat) (n : Z) (acc : list Z) : list Z :=
  match fuel with
  | O => acc
  | S fuel =>
      let acc := digit_char (n mod 10) :: acc in
      if n / 10 =? 0 then acc else dec_digits fuel (n / 10) acc
  end.

(** [to_string] of a number of at most 128 bits, which has at most 39 digits. *)
Definition to_dec (n : Z) : list Z := dec_digits 39 n [].

Fixpoint dec_value (acc : Z) (l : list Z) : option Z :=
  match l with
  | [] => Some acc
  | c :: l => if is_ascii_digit c then dec_value (acc * 10 + (c - 48)) l else None
  end.

(** [from_str]: at least one digit after an optional plus sign, and a value in range. *)
Definition parse_uint (mx : Z) (l : list Z) : option Z :=
  let digits := match l with 43 :: rest => rest | _ => l end in
  match digits with
  | [] => None
  | _ => match dec_value 0 digits with
         | Some v => if v <=? mx then Some v else None
         | None => None
         end
  end.

(** [format!("{:0<width$}")] and [format!("{:0>width$}")]. *)
Definition pad_right (width : nat) (l : list Z) : list Z := l ++ replicate (width - length l) 48.
Definition pad_left (width : nat) (l : list Z) : list Z := replicate (width - length l) 48 ++ l.

(* ------------------------------------------------------------------ *)
(** ** Reading back what was written *)

Lemma dec_value_app l1 l2 acc v : dec_value acc l1 = Some v -> dec_value acc (l1 ++ l2) = dec_value v l2.
Proof.
  revert acc. induction l1 as [|c l1 IH]; intros acc H; simpl in *; [by injection H as ->|].
  destruct (is_ascii_digit c); [by apply IH|done].
Qed.

Lemma digit_char_digit d : 0 <= d < 10 -> is_ascii_digit (digit_char d) = true /\ digit_char d - 48 = d.
Proof. unfold is_ascii_digit, digit_char. lia. Qed.

(** Writing [n] in front of [acc] and reading from [v]. *)
Lemma dec_digits_spec fuel : forall n acc, 0 <= n < 10 ^ Z.of_nat fuel -> (0 < fuel)%nat ->
  exists l, dec_digits fuel n acc = l ++ acc /\ Forall (fun c => is_ascii_digit c = true) l
    /\ (0 < length l <= fuel)%nat /\ (n = 0 -> length l = 1%nat) /\ (0 < n -> n < 10 ^ Z.of_nat (length l))
    /\ forall v, dec_value v l = Some (v * 10 ^ Z.of_nat (length l) + n).
Proof.
  induction fuel as [|fuel IH]; intros n acc Hn Hf; [lia|]. simpl.
  pose proof (Z.mod_pos_bound n 10 ltac:(lia)) as Hm. pose proof (Z.div_mod n 10 ltac:(lia)) as Hd.
  destruct (digit_char_digit (n mod 10) Hm) as [Hc1 Hc2].
  destruct (Z.eqb_spec (n / 10) 0) as [Hz|Hz].
  - exists [digit_char (n mod 10)]. split; [done|]. split; [by constructor|]. simpl length.
    split; [lia|]. split; [done|]. split; [intros; change (10 ^ Z.of_nat 1) with 10; lia|].
    intros v. simpl. rewrite Hc1, Hc2. f_equal. lia.
  - assert (0 < n / 10) as Hpos by (pose proof (Z.div_pos n 10); lia).
    assert (n / 10 < 10 ^ Z.of_nat fuel) as Hlt.
    { apply Z.div_lt_upper_bound; [lia|]. rewrite Nat2Z.inj_succ, Z.pow_succ_r in Hn by lia. lia. }
    destruct fuel as [|fuel]; [simpl in Hlt; lia|].
    destruct (IH (n / 10) (digit_char (n mod 10) :: acc)) as (l & E & Hl & Hlen & _ & Hb & Hv); [lia|lia|].
    exists (l ++ [digit_char (n mod 10)]). split; [rewrite E, <- app_assoc; done|].
    split; [apply Forall_app; split; [done|by constructor]|]. rewrite length_app. simpl length.
    split; [lia|]. split; [lia|]. specialize (Hb Hpos).
    rewrite Nat2Z.inj_add, Z.pow_add_r by lia. change (10 ^ Z.of_nat 1) with 10. split; [intros _; lia|].
    intros v. rewrite (dec_value_app _ _ _ _ (Hv v)). simpl. rewrite Hc1, Hc2. f_equal. lia.
Qed.

Lemma to_dec_spec n : 0 <= n <= u128_max ->
  exists l, to_dec n = l /\ Forall (fun c => is_ascii_digit c = true) l /\ (0 < length l <= 39)%nat
    /\ (n = 0 -> length l = 1%nat) /\ (0 < n -> n < 10 ^ Z.of_nat (length l))
    /\ forall v, dec_value v l = Some (v * 10 ^ Z.of_nat (length l) + n).
Proof.
  intros Hn. destruct (dec_digits_spec 39 n []) as (l & E & H); [|lia|].
  - assert (u128_max < 10 ^ Z.of_nat 39) by (vm_compute; reflexivity). lia.
  - exists l. unfold to_dec. rewrite E, app_nil_r. done.
Qed.

Lemma parse_digits mx l v :
  Forall (fun c => is_ascii_digit c = true) l -> (0 < length l)%nat -> dec_value 0 l = Some v -> v <= mx ->
  parse_uint mx l = Some v.
Proof.
  intros Hl Hlen Hv Hmx. unfold parse_uint. destruct l as [|c l]; [simpl in Hlen; lia|].
  apply Forall_cons in Hl as [Hc Hl].
  assert (match c :: l with 43 :: rest => rest | _ => c :: l end = c :: l) as ->.
  { unfold is_ascii_digit in Hc. destruct (decide (c = 43)) as [->|Hne]; [done|]. repeat case_match; congruence. }
  rewrite Hv. by rewrite (proj2 (Z.leb_le _ _) Hmx).
Qed.

Lemma parse_to_dec n : 0 <= n <= u128_max -> parse_uint u128_max (to_dec n) = Some n.
Proof.
  intros Hn. destruct (to_dec_spec n Hn) as (l & -> & Hl & Hlen & _ & _ & Hv).
  apply parse_digits; [done|lia|rewrite Hv; f_equal; lia|lia].
Qed.

Lemma dec_value_zeros k acc : dec_value acc (replicate k 48) = Some (acc * 10 ^ Z.of_nat k).
Proof.
  revert acc. induction k as [|k IH]; intros acc; simpl; [f_equal; lia|].
  rewrite IH. f_equal. rewrite Nat2Z.inj_succ, Z.pow_succ_r by lia. lia.
Qed.

(** As many digits as the number has. *)
Lemma dec_digits_length fuel : forall n k acc, 0 <= n < 10 ^ Z.of_nat (S k) ->
  (length (dec_digits fuel n acc) <= S k + length acc)%nat.
Proof.
  induction fuel as [|fuel IH]; intros n k acc Hn; [simpl; lia|]. cbn [dec_digits].
  destruct (Z.eqb_spec (n / 10) 0) as [Hz|Hz]; [simpl; lia|].
  pose proof (Z.div_mod n 10 ltac:(lia)) as Hd. pose proof (Z.mod_pos_bound n 10 ltac:(lia)) as Hm.
  pose proof (Z.div_pos n 10 ltac:(lia) ltac:(lia)) as Hp.
  destruct k as [|k]; [change (10 ^ Z.of_nat 1) with 10 in Hn; lia|].
  rewrite Nat2Z.inj_succ, Z.pow_succ_r in Hn by lia.
  pose proof (IH (n / 10) k (digit_char (n mod 10) :: acc) ltac:(lia)) as IH'. simpl length in IH'. lia.
Qed.

Lemma to_dec_length n k : 0 <= n < 10 ^ Z.of_nat (S k) -> (length (to_dec n) <= S k)%nat.
Proof.
  intros H. unfold to_dec. pose proof (dec_digits_length 39 n k [] H) as Hl.
  change (length (@nil Z)) with 0%nat in Hl. lia.
Qed.

(** Leading zeros change nothing. *)
Lemma pad_left_spec n k : 0 <= n < 10 ^ Z.of_nat (S k) -> n <= u128_max ->
  length (pad_left (S k) (to_dec n)) = S k
  /\ Forall (fun c => is_ascii_digit c = true) (pad_left (S k) (to_dec n))
  /\ dec_value 0 (pad_left (S k) (to_dec n)) = Some n.
Proof.
  intros Hn Hmx. pose proof (to_dec_length n k Hn) as Hlen.
  destruct (to_dec_spec n ltac:(lia)) as (l & E & Hl & _ & _ & _ & Hv). rewrite E in *. unfold pad_left.
  split; [rewrite length_app, length_replicate; lia|]. split.
  - apply Forall_app. split; [|done]. by apply Forall_replicate.
  - rewrite (dec_value_app _ _ _ _ (dec_value_zeros _ _)), Hv. done.
Qed.
