(* ===== verification/Amounts.v ===== *)
(** * Amounts of the Bitcoin RPC (bitinfinity-btcrpc/src/amounts.rs)

    The conversion of decimal amounts, given as floating-point numbers of bitcoins, to
    satoshis, and sums of satoshis. *)

From S2P Require Import Prelude Float64.

Definition ZERO : f64 := Fin 0 0.

(** The literals [100_000_000.0] and [1e-6], and [u64::MAX as f64]. *)
Definition SATOSHIS_PER_BTC : f64 := Fin 100000000 0.
Definition PRECISION : f64 := round_frac 1 1000000.
Definition U64_MAX : f64 := of_Z u64_max.

Definition btc_to_satoshis_checked (amount_btc : f64) : option Z :=
  if negb (is_finite amount_btc) || f_le amount_btc ZERO then None
  else
    let satoshis_float := f_mul amount_btc SATOSHIS_PER_BTC in
    if negb (is_finite satoshis_float) || f_gt satoshis_float U64_MAX then None
    else
      let satoshis_rounded := f_round satoshis_float in
      if f_le satoshis_rounded ZERO then None
      else if f_gt (f_abs (f_sub satoshis_float satoshis_rounded)) PRECISION then None
      else Some (f_to_u64 satoshis_rounded).

Definition btc_to_satoshis_non_negative_checked (amount_btc : f64) : option Z :=
  if negb (is_finite amount_btc) || f_lt amount_btc ZERO then None
  else if f_eq amount_btc ZERO then Some 0
  else btc_to_satoshis_checked amount_btc.

Fixpoint sum_from (total : Z) (values : list Z) : option Z :=
  match values with
  | [] => Some total
  | value :: values =>
      match checked_add u64_max total value with
      | Some total => sum_from total values
      | None => None
      end
  end.

Definition checked_sum_satoshis (values : list Z) : option Z := sum_from 0 values.

(** The number nearest to [n] satoshis in bitcoins: what a decimal with eight places is
    read as. *)
Definition btc (n : Z) : f64 := round_frac n 100000000.

(* ------------------------------------------------------------------ *)
(** ** Amounts below 128 bitcoins *)

Local Abbreviation N := 100000000.

(** A rounded fraction in the range of the amounts: [k] binary places, [m] with 53 bits. *)
Lemma rounded a b k0 : 0 < a -> 0 < b -> 0 <= k0 <= 34 -> a < b * 2 ^ k0 -> b <= a * 2 ^ 27 ->
  exists m k, round_frac a b = Fin m (- k) /\ 53 - k0 <= k <= 79 /\ 2 ^ 52 <= m <= 2 ^ 53
    /\ 2 * Z.abs (m * b - a * 2 ^ k) <= b /\ a * 2 ^ k < 2 ^ 53 * b.
Proof.
  intros Ha Hb Hk0 Hlt Hge. unfold round_frac. rewrite (proj2 (Z.eqb_neq a 0)) by lia.
  rewrite Z.abs_eq, Z.sgn_pos, (proj2 (Z.ltb_ge a 0)) by lia.
  destruct (round_positive a b) as [m e] eqn:E.
  assert (ilog2 a b < k0) as H1.
  { apply ilog2_lt; [done..|]. rewrite up_nonpos by lia. by rewrite down_nonpos, Z.opp_involutive by lia. }
  assert (-27 <= ilog2 a b) as H2.
  { apply ilog2_ge; [done..|]. rewrite down_nonneg by lia. by rewrite up_nonneg by lia. }
  pose proof (round_positive_error a b m e Hb E) as Herr.
  destruct (round_positive_normal a b m e Ha Hb ltac:(lia) E) as (Ee & [_ Hu] & Hm).
  rewrite up_nonneg, down_nonneg in * by lia. rewrite no_overflow by lia.
  exists m, (- e). rewrite Z.opp_involutive, Z.mul_1_l. split_and!; try done; lia.
Qed.

Lemma combine_errors a n m P Q d : 0 < P -> 0 < Q -> 2 * Z.abs (a - n * P) <= d -> 2 * Z.abs (m * P - a * Q) <= P ->
  2 * Z.abs (m - n * Q) * P <= P + d * Q.
Proof.
  intros HP HQ H1 H2.
  assert (Z.abs (m - n * Q) * P = Z.abs ((m * P - a * Q) + (a - n * P) * Q)) as E.
  { rewrite <- (Z.abs_eq P) at 1 by lia. rewrite <- Z.abs_mul. f_equal. ring. }
  assert (Z.abs ((a - n * P) * Q) = Z.abs (a - n * P) * Q) as E2 by (rewrite Z.abs_mul; f_equal; lia).
  pose proof (Z.abs_triangle (m * P - a * Q) ((a - n * P) * Q)) as H.
  assert (2 * Z.abs (a - n * P) * Q <= d * Q) by (apply Z.mul_le_mono_nonneg_r; lia). lia.
Qed.

Lemma few_units d P s : 0 < P -> 2 * Z.abs d * P <= P + s -> s < 3 * P -> Z.abs d <= 1.
Proof. intros HP H Hs. destruct (Z.le_gt_cases (Z.abs d) 1) as [|Hd]; [done|exfalso]. nia. Qed.

Lemma no_unit d P s : 0 < P -> 2 * Z.abs d * P <= P + s -> s < P -> Z.abs d < 1.
Proof. intros HP H Hs. destruct (Z.lt_ge_cases (Z.abs d) 1) as [|Hd]; [done|exfalso]. nia. Qed.

(** Multiplied back, an amount is at most one unit in the last place off. *)
Lemma back n : 1 <= n < 128 * N ->
  exists m k, f_mul (btc n) SATOSHIS_PER_BTC = Fin m (- k) /\ 19 <= k <= 79 /\ m <= 2 ^ 53
    /\ Z.abs (m - n * 2 ^ k) <= 1 /\ (k = 19 -> m = n * 2 ^ k).
Proof.
  intros Hn. destruct (rounded n N 7) as (m1 & k1 & E1 & Hk1 & Hm1 & Herr1 & Hu1); [lia..|].
  assert (0 < 2 ^ k1) as HP by (apply Z.pow_pos_nonneg; lia).
  unfold btc. rewrite E1. unfold f_mul, SATOSHIS_PER_BTC, round_dyadic. rewrite Z.add_0_r.
  rewrite up_nonpos, down_nonpos, Z.opp_involutive, Z.mul_1_l by lia.
  assert (m1 * N < 2 ^ k1 * 2 ^ 34 /\ 2 ^ k1 <= m1 * N * 2 ^ 27) as [Hlt Hge].
  { change (2 ^ 34) with 17179869184. change (2 ^ 27) with 134217728. nia. }
  destruct (rounded (m1 * N) (2 ^ k1) 34) as (m2 & k2 & E2 & Hk2 & Hm2 & Herr2 & Hu2); [lia..|].
  exists m2, k2. split; [done|]. split; [lia|]. split; [lia|].
  assert (0 < 2 ^ k2) as HQ by (apply Z.pow_pos_nonneg; lia).
  set (P := 2 ^ k1) in *. set (Q := 2 ^ k2) in *.
  assert (5 * 10 ^ 7 * Q < P) as Hratio.
  { assert (2 ^ 52 * (N * Q) <= m1 * (N * Q)) by (apply Z.mul_le_mono_nonneg_r; lia). change (2 ^ 53) with (2 * 2 ^ 52) in Hu2.
    assert (2 ^ 52 * (N * Q) < 2 ^ 52 * (2 * P)) by lia. lia. }
  assert (2 * Z.abs (m2 - n * Q) * P <= P + N * Q) as Hsum
    by (by apply (combine_errors (m1 * N))).
  assert (2 ^ 26 * Q <= P) as Hpow.
  { assert (k2 + 26 <= k1) as Hk.
    { destruct (Z.le_gt_cases (k2 + 26) k1) as [|Hgt]; [done|exfalso].
      assert (P <= 2 ^ (k2 + 25)) by (apply Z.pow_le_mono_r; lia). rewrite Z.pow_add_r in H by lia.
      change (2 ^ 25) with 33554432 in H. fold Q in H. lia. }
    unfold P. replace k1 with (k2 + 26 + (k1 - k2 - 26)) by lia. rewrite !Z.pow_add_r by lia. fold Q.
    pose proof (Z.pow_pos_nonneg 2 (k1 - k2 - 26) ltac:(lia) ltac:(lia)).
    assert (Q * 2 ^ 26 * 1 <= Q * 2 ^ 26 * 2 ^ (k1 - k2 - 26)) by (apply Z.mul_le_mono_nonneg_l; lia). lia. }
  change (2 ^ 26) with 67108864 in Hpow. split; [apply (few_units _ P (N * Q)); lia|]. intros ->.
  assert (2 ^ 46 <= P) as HP46 by (apply Z.pow_le_mono_r; lia).
  assert (Q = 524288) as EQ by done. rewrite EQ in *. change (2 ^ 46) with 70368744177664 in HP46.
  assert (Z.abs (m2 - n * 524288) < 1); [|lia]. apply (no_unit _ P (N * 524288)); lia.
Qed.

Definition within_precision (d k : Z) : bool := negb (f_gt (f_abs (round_dyadic d (- k))) PRECISION).

Lemma units_checked : forallb (fun k => forallb (fun d => within_precision d k) [-1; 0; 1]) (seqZ 20 60) = true.
Proof. vm_compute. reflexivity. Qed.

Lemma small_difference d k : 20 <= k <= 79 -> Z.abs d <= 1 ->
  f_gt (f_abs (round_dyadic d (- k))) PRECISION = false.
Proof.
  intros Hk Hd. pose proof units_checked as H. rewrite forallb_forall in H.
  specialize (H k ltac:(apply list_elem_of_In, elem_of_seqZ; lia)). rewrite forallb_forall in H.
  specialize (H d ltac:(destruct (Z.abs_spec d); simpl; lia)). by apply negb_true_iff in H.
Qed.

Lemma U64_MAX_value : U64_MAX = Fin (2 ^ 53) 11.
Proof. vm_compute. reflexivity. Qed.

Lemma below_max m k : 0 <= k -> m <= 2 ^ 53 -> f_gt (Fin m (- k)) U64_MAX = false.
Proof.
  intros Hk Hm. rewrite U64_MAX_value. unfold f_gt, f_lt, f_compare.
  rewrite Z.min_r, Z.sub_diag, Z.pow_0_r, Z.mul_1_r by lia.
  assert (2 ^ 53 * 2 ^ 11 <= 2 ^ 53 * 2 ^ (11 - - k)) by (apply Z.mul_le_mono_nonneg_l; [done|apply Z.pow_le_mono_r; lia]).
  assert (2 ^ 53 < 2 ^ 53 * 2 ^ 11) by done.
  destruct (Z.compare_spec (2 ^ 53 * 2 ^ (11 - - k)) m); (done || lia).
Qed.

Lemma positive_le m k : 0 <= k -> 0 < m -> f_le (Fin m (- k)) ZERO = false.
Proof.
  intros Hk Hm. unfold f_le, f_compare, ZERO. rewrite Z.min_l, Z.sub_diag, Z.mul_0_l, Z.pow_0_r, Z.mul_1_r by lia.
  destruct (Z.compare_spec m 0); (done || lia).
Qed.

Lemma rounds_to n m k : 1 <= n -> 19 <= k -> Z.abs (m - n * 2 ^ k) <= 1 -> f_round (Fin m (- k)) = Fin n 0.
Proof.
  intros Hn Hk Hd. assert (2 ^ 19 <= 2 ^ k) as HQ by (apply Z.pow_le_mono_r; lia). change (2 ^ 19) with 524288 in HQ.
  unfold f_round. rewrite (proj2 (Z.leb_gt _ _)) by lia. rewrite Z.opp_involutive. set (Q := 2 ^ k) in *.
  assert (0 < m) by nia. rewrite Z.sgn_pos, Z.mul_1_l, Z.abs_eq by lia. f_equal.
  symmetry. apply (Z.div_unique _ _ _ (2 * m + Q - 2 * Q * n)); lia.
Qed.

Lemma exact_below n : 1 <= n < 128 * N -> btc_to_satoshis_checked (btc n) = Some n.
Proof.
  intros Hn. destruct (rounded n N 7) as (m1 & k1 & E1 & Hk1 & Hm1 & _); [lia..|].
  destruct (back n Hn) as (m & k & E & Hk & Hm & Hd & Hexact).
  unfold btc_to_satoshis_checked. rewrite E. unfold btc. rewrite E1. cbn [is_finite negb orb].
  rewrite positive_le, below_max by lia. rewrite (rounds_to n m k) by lia.
  assert (f_le (Fin n 0) ZERO = false) as -> by (apply (positive_le n 0); lia). unfold f_sub, f_neg, f_add.
  replace (Z.min (- k) 0) with (- k) by lia. replace (- k - - k) with 0 by lia. replace (0 - - k) with k by lia.
  change (2 ^ 0) with 1. rewrite Z.mul_1_r.
  assert (f_gt (f_abs (round_dyadic (m + - n * 2 ^ k) (- k))) PRECISION = false) as ->.
  { destruct (decide (k = 19)) as [->|Hne].
    - replace (m + - n * 2 ^ 19) with 0 by (rewrite Hexact by done; ring). reflexivity.
    - apply small_difference; [lia|]. replace (m + - n * 2 ^ k) with (m - n * 2 ^ k) by ring. done. }
  f_equal. unfold f_to_u64. rewrite up_nonpos, down_nonneg, Z.quot_1_r by lia. unfold u64_max. lia.
Qed.

(* ------------------------------------------------------------------ *)
(** ** Sums *)

Definition total_of (values : list Z) : Z := fold_right Z.add 0 values.

Lemma sum_from_spec values : forall total, Forall (fun v => 0 <= v) values -> total <= u64_max ->
  sum_from total values =
  if total + total_of values <=? u64_max then Some (total + total_of values) else None.
Proof.
  induction values as [|v values IH]; intros total Hv Ht; simpl.
  { rewrite Z.add_0_r. by rewrite (proj2 (Z.leb_le _ _) Ht). }
  apply Forall_cons in Hv as [Hv Hvs].
  assert (0 <= total_of values) by (clear -Hvs; induction Hvs; simpl; lia).
  unfold checked_add. destruct (Z.leb_spec (total + v) u64_max).
  - rewrite IH by done. by rewrite Z.add_assoc.
  - rewrite (proj2 (Z.leb_gt _ _)); [done|lia].
Qed.

(* ------------------------------------------------------------------ *)
(** ** What the conversions guarantee *)

(** C31. A decimal amount of [n] satoshis, read as the nearest double, is converted back to
    exactly [n] for every [n] below 128 bitcoins.  The bound is sharp: the amount
    128.00000002 has satoshi precision and is refused as too precise, because its
    product with 10^8 is one unit in the last place below the integer and such a unit
    is more than 10^-6 from there on.  A zero amount is refused by one conversion and
    accepted by the other, and 2^64 satoshis are cut to [u64::MAX] instead of being
    refused. *)
Theorem satoshi_precision :
  (forall n, 1 <= n < 12800000000 ->
     btc_to_satoshis_checked (btc n) = Some n /\ btc_to_satoshis_non_negative_checked (btc n) = Some n)
  /\ btc_to_satoshis_checked (btc 12800000002) = None
  /\ btc_to_satoshis_checked (btc 0) = None /\ btc_to_satoshis_non_negative_checked (btc 0) = Some 0
  /\ btc_to_satoshis_checked (btc (2 ^ 64)) = Some u64_max.
Proof.
  split; [|by vm_compute]. intros n Hn. split; [by apply exact_below|].
  unfold btc_to_satoshis_non_negative_checked. rewrite exact_below by done.
  destruct (rounded n 100000000 7) as (m & k & E & Hk & Hm & _); [lia..|]. unfold btc. rewrite E. simpl is_finite. simpl negb.
  pose proof (positive_le m k ltac:(lia) ltac:(lia)) as Hpos. revert Hpos. unfold f_le, f_lt, f_eq.
  by destruct (f_compare _ _) as [[]|].
Qed.

(** The sum of satoshis is exact, and [None] exactly when it does not fit. *)
Theorem checked_sum_exact values : Forall (fun v => 0 <= v) values ->
  checked_sum_satoshis values =
  if total_of values <=? u64_max then Some (total_of values) else None.
Proof. intros Hv. unfold checked_sum_satoshis. by rewrite sum_from_spec by done. Qed.

Lemma checked_sum_exact_witness :
  checked_sum_satoshis [u64_max; 1] = if total_of [u64_max; 1] <=? u64_max then Some (total_of [u64_max; 1]) else None.
Proof. apply (checked_sum_exact [u64_max; 1]). by repeat constructor. Defined.
