(* ===== verification/Crates.v ===== *)
(** * Third-party crates

    The repository calls hash functions, Base58, Bech32 and secp256k1 code that
    is not part of it.  They are the fields of the class [Crates]; what the
    repository relies on is stated by the laws of [HashLaws] and the other law
    classes, each a documented fact of the crate.  A concrete instance shows
    that the laws can hold together. *)

From S2P Require Import Prelude.

Class Crates : Type := {
  (** [sha2::Sha256::digest] *)
  sha256 : list Z -> list Z;
  (** [ripemd::Ripemd160::digest] *)
  ripemd160 : list Z -> list Z;
  (** [sha3::Keccak256::digest] *)
  keccak256 : list Z -> list Z;
  (** [bs58::encode(..).into_string()] *)
  bs58_encode : list Z -> string;
  (** [bs58::decode(..).into_vec().ok()] *)
  bs58_decode : string -> option (list Z);
  (** [bech32::segwit::decode(..).ok()]: human-readable part in lower case,
      witness version, witness program *)
  segwit_decode : string -> option (string * Z * list Z);
  (** [secp256k1]: the uncompressed key (65 bytes) recovered from a 65-byte
      signature and a 32-byte message; [None] for a malformed signature *)
  recover_ecdsa : list Z -> list Z -> option (list Z);
  (** [secp256k1]: verification of a 64-byte compact signature of a 32-byte
      message under an uncompressed key (65 bytes); [false] also for a signature
      or key that does not parse *)
  verify_ecdsa : list Z -> list Z -> list Z -> bool;
  (** [ed25519_dalek]: verification of a signature under a 32-byte key; [false]
      also for a key that is not on the curve *)
  verify_ed25519 : list Z -> list Z -> list Z -> bool;
  (** [curve25519_dalek]: the key decompresses to a torsion-free point *)
  ed25519_torsion_free : list Z -> bool;
}.

(** Digest lengths. *)
Class HashLaws (C : Crates) : Prop := {
  sha256_len : forall m, length (sha256 m) = 32%nat;
  sha256_ok : forall m, bytes_ok (sha256 m);
  ripemd160_len : forall m, length (ripemd160 m) = 20%nat;
  ripemd160_ok : forall m, bytes_ok (ripemd160 m);
  keccak256_len : forall m, length (keccak256 m) = 32%nat;
  keccak256_ok : forall m, bytes_ok (keccak256 m);
}.

(** ** A concrete instance

    Not the crates' algorithms: simple functions with the shapes the laws ask
    for, used where a theorem under the laws is applied to concrete data. *)
Module Toy.

Definition digest (n : nat) (m : list Z) : list Z :=
  map (fun i => fold_left (fun a b => (a * 31 + b + Z.of_nat i) mod 256) m 7) (seq 0 n).

Definition alphabet : list Z :=
  as_bytes "123456789ABCDEFGHJKLMNPQRSTUVWXYZabcdefghijkmnopqrstuvwxyz".

(** Two characters of the alphabet per byte. *)
Definition encode (b : list Z) : string :=
  of_bytes (flat_map (fun x => [nth (Z.to_nat (x / 58)) alphabet 0;
                                nth (Z.to_nat (x mod 58)) alphabet 0]) b).

Fixpoint index_of (c : Z) (l : list Z) : option Z :=
  match l with
  | [] => None
  | x :: l => if x =? c then Some 0 else option_map (Z.add 1) (index_of c l)
  end.

Fixpoint decode_pairs (l : list Z) : option (list Z) :=
  match l with
  | [] => Some []
  | [_] => None
  | x :: y :: l =>
      match index_of x alphabet, index_of y alphabet, decode_pairs l with
      | Some a, Some b, Some r => Some (a * 58 + b :: r)
      | _, _, _ => None
      end
  end.

Definition crates : Crates := {|
  sha256 := digest 32;
  ripemd160 := digest 20;
  keccak256 := digest 32;
  bs58_encode := encode;
  bs58_decode := fun s => decode_pairs (as_bytes s);
  segwit_decode := fun _ => None;
  recover_ecdsa := fun s m => if (length s =? 65)%nat then Some (4 :: digest 64 (s ++ m)) else None;
  verify_ecdsa := fun s m k =>
    existsb (fun r => bool_decide (k = 4 :: digest 64 (s ++ [r] ++ m))) [0; 1; 2; 3];
  verify_ed25519 := fun s m k => bool_decide (s = digest 64 (m ++ k));
  ed25519_torsion_free := fun k => (length k =? 32)%nat;
|}.

Lemma fold_mod_byte (f : Z -> Z -> Z) m a :
  is_byte a -> is_byte (fold_left (fun a b => (f a b) mod 256) m a).
Proof.
  revert a. induction m as [|b m IH]; intros a Ha; simpl; [done|].
  apply IH. unfold is_byte. pose proof (Z.mod_pos_bound (f a b) 256). lia.
Qed.

Lemma digest_ok n m : bytes_ok (digest n m).
Proof.
  apply Forall_map, Forall_forall. intros i _. apply (fold_mod_byte (fun a b => a * 31 + b + Z.of_nat i)).
  unfold is_byte. lia.
Qed.

Lemma digest_len n m : length (digest n m) = n.
Proof. unfold digest. by rewrite length_map, length_seq. Qed.

#[export] Instance hash_laws : HashLaws crates.
Proof. split; intros; (apply digest_len || apply digest_ok). Qed.
End Toy.
