(* ===== verification/AccountId.v ===== *)
(** * Account identifiers (near-account-id)

    [validation.rs] and [account_id_ref.rs]: which strings name an account,
    the class an identifier falls in, and the parent/sub-account relation. *)

From S2P Require Import Prelude Crates.

(* ------------------------------------------------------------------ *)
(** ** Errors *)

Inductive ParseErrorKind : Type :=
| TooLong
| TooShort
| RedundantSeparator
| InvalidChar.

Record ParseAccountError : Type := {
  pe_kind : ParseErrorKind;
  pe_char : option (Z * Z);
}.

Definition parse_error (k : ParseErrorKind) (c : option (Z * Z)) : ParseAccountError :=
  {| pe_kind := k; pe_char := c |}.

(* ------------------------------------------------------------------ *)
(** ** Character classes *)

Definition is_lower (b : Z) : bool := (97 <=? b) && (b <=? 122).
Definition is_digit (b : Z) : bool := (48 <=? b) && (b <=? 57).
Definition is_alnum (b : Z) : bool := is_lower b || is_digit b.
Definition is_hex (b : Z) : bool := ((97 <=? b) && (b <=? 102)) || is_digit b.
Definition is_dash (b : Z) : bool := (b =? 45) || (b =? 95).
Definition is_dot (b : Z) : bool := b =? 46.
Definition is_sep (b : Z) : bool := is_dash b || is_dot b.

Definition MIN_LEN : Z := 2.
Definition MAX_LEN : Z := 64.

(** [(lo..=hi).contains(&n)] *)
Definition in_range (lo hi n : Z) : bool := (lo <=? n) && (n <=? hi).

(* ------------------------------------------------------------------ *)
(** ** [validate_const] *)

(** The nested [validate_format_const]; [false] is its panic. *)
Fixpoint validate_format_const (at_start : bool) (current_char_is_separator : bool)
    (id : list Z) : bool :=
  match id with
  | [] => negb current_char_is_separator
  | b :: rest =>
      if is_alnum b then validate_format_const false false rest
      else if is_sep b then
        if current_char_is_separator then false
        else if at_start then false
        else validate_format_const false true rest
      else false
  end.

Definition validate_const (account_id : string) : result unit unit :=
  if str_len account_id <? MIN_LEN then Panic
  else if MAX_LEN <? str_len account_id then Panic
  else if validate_format_const true false (as_bytes account_id) then Ok tt else Panic.

(* ------------------------------------------------------------------ *)
(** ** Bitcoin, Ethereum, NEAR and deterministic identifiers *)

Definition is_eth_implicit (account_id : string) : bool :=
  (str_len account_id =? 42) && starts_with "0x" account_id
  && forallb is_hex (drop 2 (as_bytes account_id)).

Definition is_near_deterministic (account_id : string) : bool :=
  (str_len account_id =? 42) && starts_with "0s" account_id
  && forallb is_hex (drop 2 (as_bytes account_id)).

Definition is_near_implicit (account_id : string) : bool :=
  (str_len account_id =? 64) && forallb is_hex (as_bytes account_id).

Definition first_is (b : Z) (l : list Z) : bool :=
  match l with
  | x :: _ => x =? b
  | [] => false
  end.

Definition is_legacy_lowercased_bitcoin (account_id : string) : bool :=
  let bytes := as_bytes account_id in
  let len := str_len account_id in
  if starts_with "bc1q" account_id && in_range 42 62 len then forallb is_alnum bytes
  else if starts_with "bc1p" account_id && (len =? 62) then forallb is_alnum bytes
  else if first_is 49 bytes && in_range 25 34 len then forallb is_alnum bytes
  else if first_is 51 bytes && in_range 33 34 len then forallb is_alnum bytes
  else false.

Section validation.
Context {C : Crates}.

(** Versions 0x00, 0x05, 0x6f and 0xc4: P2PKH and P2SH of both networks. *)
Definition known_version (v : Z) : bool :=
  (v =? 0x00) || (v =? 0x05) || (v =? 0x6f) || (v =? 0xc4).

Definition has_valid_base58check_address (account_id : string) : bool :=
  if negb (in_range 26 35 (str_len account_id)) then false
  else match bs58_decode account_id with
  | None => false
  | Some decoded =>
      if negb (vec_len decoded =? 25) then false
      else
        let payload := take 21 decoded in
        let checksum := take 4 (drop 21 decoded) in
        let hash1 := sha256 payload in
        let hash2 := sha256 hash1 in
        if negb (bool_decide (checksum = take 4 hash2)) then false
        else match payload with
        | v :: _ => known_version v
        | [] => false
        end
  end.

Definition has_valid_segwit_address (account_id : string) : bool :=
  match segwit_decode account_id with
  | Some (hrp, _, _) =>
      bool_decide (hrp = "bc"%string) || bool_decide (hrp = "tb"%string)
      || bool_decide (hrp = "bcrt"%string)
  | None => false
  end.

Definition is_bitcoin_implicit (account_id : string) : bool :=
  has_valid_base58check_address account_id
  || has_valid_segwit_address account_id
  || is_legacy_lowercased_bitcoin account_id.

(* ------------------------------------------------------------------ *)
(** ** [validate] *)

(** The loop over [account_id.chars().enumerate()]; [this] is the last
    character seen. *)
Fixpoint validate_chars (i : Z) (last_char_is_separator : bool) (this : option (Z * Z))
    (cs : list Z) : result unit ParseAccountError :=
  match cs with
  | [] =>
      if last_char_is_separator then Err (parse_error RedundantSeparator this) else Ok tt
  | c :: rest =>
      let this := Some (i, c) in
      if is_alnum c then validate_chars (i + 1) false this rest
      else if is_sep c then
        if last_char_is_separator then Err (parse_error RedundantSeparator this)
        else validate_chars (i + 1) true this rest
      else Err (parse_error InvalidChar this)
  end.

Definition validate (account_id : string) : result unit ParseAccountError :=
  if str_len account_id <? MIN_LEN then Err (parse_error TooShort None)
  else if MAX_LEN <? str_len account_id then Err (parse_error TooLong None)
  else if is_bitcoin_implicit account_id then Ok tt
  else validate_chars 0 true None (chars account_id).

(* ------------------------------------------------------------------ *)
(** ** [AccountIdRef] *)

(** [AccountIdRef::new]. *)
Definition account_id_new (id : string) : result string ParseAccountError :=
  let? _ := validate id in Ok id.

(** [AccountIdRef::new_unvalidated]: the [debug_assert!] runs in debug builds
    only. *)
Definition new_unvalidated (debug : bool) (id : string) : result string unit :=
  if debug && negb (is_ok (validate id)) then Panic else Ok id.

Inductive AccountType : Type :=
| NamedAccount
| NearImplicitAccount
| EthImplicitAccount
| NearDeterministicAccount
| BtcImplicitAccount.

Definition is_implicit (t : AccountType) : bool :=
  match t with
  | NamedAccount => false
  | _ => true
  end.

Definition get_account_type (id : string) : AccountType :=
  if is_bitcoin_implicit id then BtcImplicitAccount
  else if is_eth_implicit id then EthImplicitAccount
  else if is_near_implicit id then NearImplicitAccount
  else if is_near_deterministic id then NearDeterministicAccount
  else NamedAccount.

Definition is_system (id : string) : bool := bool_decide (id = "system"%string).

Definition is_top_level (id : string) : bool :=
  negb (is_system id) && negb (contains 46 (as_bytes id)).

Definition is_sub_account_of (id parent : string) : bool :=
  match strip_suffix (as_bytes parent) (as_bytes id) with
  | Some s =>
      match strip_suffix [46] s with
      | Some s => negb (contains 46 s)
      | None => false
      end
  | None => false
  end.

Definition get_parent_account_id (debug : bool) (id : string) : result (option string) unit :=
  match split_once 46 (as_bytes id) with
  | None => Ok None
  | Some (_, parent_str) =>
      let? p := new_unvalidated debug (of_bytes parent_str) in Ok (Some p)
  end.

End validation.

(* ------------------------------------------------------------------ *)
(** ** The regular expression of the comment in [validate]

    [^(([a-z\d]+[-_])*[a-z\d]+\.)*([a-z\d]+[-_])*[a-z\d]+$], as a term with
    its standard meaning. *)

Inductive regex : Type :=
| RChr (p : Z -> bool)
| RSeq (r s : regex)
| RStar (r : regex).

Definition RPlus (r : regex) : regex := RSeq r (RStar r).

Inductive rmatch : regex -> list Z -> Prop :=
| m_chr p c : p c = true -> rmatch (RChr p) [c]
| m_seq r s l1 l2 : rmatch r l1 -> rmatch s l2 -> rmatch (RSeq r s) (l1 ++ l2)
| m_nil r : rmatch (RStar r) []
| m_cons r l1 l2 : rmatch r l1 -> rmatch (RStar r) l2 -> rmatch (RStar r) (l1 ++ l2).

Definition r_word : regex := RPlus (RChr is_alnum).
Definition r_dashes : regex := RStar (RSeq r_word (RChr is_dash)).
Definition r_label : regex := RSeq r_dashes r_word.
Definition account_id_regex : regex :=
  RSeq (RStar (RSeq r_label (RChr is_dot))) r_label.

(** What the regular expression describes: words of letters and digits, one
    separator between neighbours. *)
Inductive words : list Z -> Prop :=
| w_last w : w <> [] -> forallb is_alnum w = true -> words w
| w_more w s l :
    w <> [] -> forallb is_alnum w = true -> is_sep s = true -> words l ->
    words (w ++ s :: l).

#[local] Hint Constructors rmatch words : rust.

Lemma rmatch_chr p l : rmatch (RChr p) l <-> exists c, l = [c] /\ p c = true.
Proof. split; [inversion 1; eauto | intros (c & -> & ?); eauto with rust]. Qed.

Lemma rmatch_seq r s l :
  rmatch (RSeq r s) l <-> exists l1 l2, l = l1 ++ l2 /\ rmatch r l1 /\ rmatch s l2.
Proof. split; [inversion 1; eauto | intros (? & ? & -> & ? & ?); eauto with rust]. Qed.

(** Induction over the iterations of a star. *)
Lemma rmatch_star_ind r (P : list Z -> Prop) :
  P [] -> (forall l1 l2, rmatch r l1 -> rmatch (RStar r) l2 -> P l2 -> P (l1 ++ l2)) ->
  forall l, rmatch (RStar r) l -> P l.
Proof.
  intros H0 H1 l H. remember (RStar r) as q eqn:Hq. revert Hq.
  induction H; intros Hq; try discriminate Hq; injection Hq as ->; [done|].
  apply H1; auto.
Qed.

Lemma rmatch_word l : rmatch r_word l <-> l <> [] /\ forallb is_alnum l = true.
Proof.
  unfold r_word, RPlus. rewrite rmatch_seq. split.
  - intros (l1 & l2 & -> & (c & -> & Hc)%rmatch_chr & H2). split; [done|]. simpl.
    rewrite Hc. simpl. revert l2 H2. apply rmatch_star_ind; [done|].
    intros ? l2 (d & -> & Hd)%rmatch_chr _ IH. simpl. by rewrite Hd.
  - intros [Hne H]. destruct l as [|c l]; [done|]. simpl in H. bool_inv.
    exists [c], l. split_and!; [done|eauto with rust|].
    clear Hne H. induction l as [|d l IH]; [eauto with rust|]. simpl in *. bool_inv.
    change (d :: l) with ([d] ++ l). eauto with rust.
Qed.

Lemma words_prepend_dashes l1 l : rmatch r_dashes l1 -> words l -> words (l1 ++ l).
Proof.
  intros H1 Hl. revert l1 H1. apply rmatch_star_ind; [done|].
  intros w l2 (w1 & s & -> & [??]%rmatch_word & (c & -> & Hc)%rmatch_chr)%rmatch_seq _ IH.
  rewrite <- !(assoc_L (++)). simpl. apply w_more; [done..| |done].
  unfold is_sep. by rewrite Hc.
Qed.

Lemma words_prepend_labels l1 l :
  rmatch (RStar (RSeq r_label (RChr is_dot))) l1 -> words l -> words (l1 ++ l).
Proof.
  intros H1 Hl. revert l1 H1. apply rmatch_star_ind; [done|].
  intros ? l2 (w1 & s & -> & H1 & (c & -> & Hc)%rmatch_chr)%rmatch_seq _ IH.
  apply rmatch_seq in H1 as (d & w & -> & Hd & [??]%rmatch_word).
  rewrite <- !(assoc_L (++)). simpl. apply words_prepend_dashes; [done|].
  apply w_more; [done..| |done]. unfold is_sep. rewrite Hc. apply orb_true_r.
Qed.

Lemma regex_words l : rmatch account_id_regex l -> words l.
Proof.
  intros (l1 & l2 & -> & H1 & (d & w & -> & Hd & [??]%rmatch_word)%rmatch_seq)%rmatch_seq.
  apply words_prepend_labels, words_prepend_dashes; [done..|]. by apply w_last.
Qed.

Lemma regex_word w : w <> [] -> forallb is_alnum w = true -> rmatch account_id_regex w.
Proof.
  intros. change w with ([] ++ ([] ++ w)).
  assert (rmatch r_word w) by (apply rmatch_word; auto).
  apply m_seq; [apply m_nil|]. apply m_seq; [apply m_nil | done].
Qed.

(** A word and a dash in front of a matching string still match: they join
    its first label. *)
Lemma regex_dash w s l :
  rmatch r_word w -> is_dash s = true -> rmatch account_id_regex l ->
  rmatch account_id_regex (w ++ s :: l).
Proof.
  intros Hw Hs (l1 & l2 & -> & H1 & H2)%rmatch_seq.
  assert (Hstep : rmatch (RSeq r_word (RChr is_dash)) (w ++ [s])) by eauto with rust.
  assert (Hlabel : forall l, rmatch r_label l -> rmatch r_label ((w ++ [s]) ++ l)).
  { intros ? (d & v & -> & ? & ?)%rmatch_seq. rewrite (assoc_L (++)).
    constructor; [|done]. by constructor. }
  inversion H1 as [| | |? l3 l4 H3 H4]; subst.
  - specialize (Hlabel _ H2). rewrite <- (assoc_L (++)) in Hlabel. simpl in *.
    change (w ++ s :: l2) with ([] ++ (w ++ s :: l2)).
    apply m_seq; [apply m_nil | done].
  - apply rmatch_seq in H3 as (a & b & -> & Ha & Hb).
    replace (w ++ s :: ((a ++ b) ++ l4) ++ l2)
      with (((((w ++ [s]) ++ a) ++ b) ++ l4) ++ l2) by (by rewrite <- !(assoc_L (++))).
    constructor; [|done]. constructor; [|done]. constructor; [by apply Hlabel|done].
Qed.

Lemma regex_dot w s l :
  rmatch r_word w -> is_dot s = true -> rmatch account_id_regex l ->
  rmatch account_id_regex (w ++ s :: l).
Proof.
  intros Hw Hs (l1 & l2 & -> & H1 & H2)%rmatch_seq.
  replace (w ++ s :: l1 ++ l2) with (((([] ++ w) ++ [s]) ++ l1) ++ l2)
    by (by rewrite <- !(assoc_L (++))).
  apply m_seq; [|done]. apply m_cons; [|done].
  apply m_seq; [|by apply m_chr]. apply m_seq; [apply m_nil | done].
Qed.

Lemma words_regex l : words l -> rmatch account_id_regex l.
Proof.
  induction 1 as [w Hne Hw|w s l Hne Hw Hs _ IH]; [by apply regex_word|].
  unfold is_sep in Hs. apply orb_true_iff in Hs as [Hs|Hs];
    [apply regex_dash | apply regex_dot]; try done; by apply rmatch_word.
Qed.

(* ------------------------------------------------------------------ *)
(** ** The loops recognise exactly the words *)

(** The states of the loop as a function on bytes; [false] is any error. *)
Fixpoint sep_ok (last : bool) (l : list Z) : bool :=
  match l with
  | [] => negb last
  | c :: rest =>
      if is_alnum c then sep_ok false rest
      else if is_sep c then negb last && sep_ok true rest
      else false
  end.

Lemma validate_chars_ok i last this cs :
  is_ok (validate_chars i last this cs) = sep_ok last cs.
Proof.
  revert i last this. induction cs as [|c cs IH]; intros i last this; simpl.
  - by destruct last.
  - destruct (is_alnum c); [apply IH|]. destruct (is_sep c); [|done].
    destruct last; [done|apply IH].
Qed.

Lemma validate_format_const_ok l last :
  validate_format_const false last l = sep_ok last l.
Proof.
  revert last. induction l as [|c l IH]; intros last; simpl; [done|].
  destruct (is_alnum c); [apply IH|]. destruct (is_sep c); [|done].
  destruct last; [done|apply IH].
Qed.

Lemma validate_format_const_start l :
  l <> [] -> validate_format_const true false l = sep_ok true l.
Proof.
  destruct l as [|c l]; [done|]. intros _. simpl.
  destruct (is_alnum c); [apply validate_format_const_ok|]. by destruct (is_sep c).
Qed.

Lemma alnum_not_sep c : is_alnum c = true -> is_sep c = false.
Proof.
  unfold is_alnum, is_lower, is_digit, is_sep, is_dash, is_dot. intros H.
  destruct (Z.eqb_spec c 45), (Z.eqb_spec c 95), (Z.eqb_spec c 46); subst; try done.
Qed.

Lemma sep_ok_word_app last w l :
  w <> [] -> forallb is_alnum w = true -> sep_ok last (w ++ l) = sep_ok false l.
Proof.
  revert last. induction w as [|c w IH]; intros last Hne Hw; [done|].
  simpl in *. bool_inv. rewrite H. destruct w as [|d w]; [done|]. by apply IH.
Qed.

Lemma words_sep_ok last l : words l -> sep_ok last l = true.
Proof.
  intros H. revert last. induction H as [w Hne Hw|w s l Hne Hw Hs _ IH]; intros last.
  - rewrite <- (app_nil_r w). by rewrite sep_ok_word_app.
  - rewrite sep_ok_word_app by done. simpl. rewrite Hs.
    destruct (is_alnum s) eqn:E; [by rewrite (alnum_not_sep s E) in Hs|]. simpl. apply IH.
Qed.

Lemma words_cons c l : is_alnum c = true -> words l -> words (c :: l).
Proof.
  intros Hc. destruct 1 as [w Hne Hw|w s l Hne Hw Hs Hl].
  - apply w_last; [done|]. simpl. by rewrite Hc.
  - change (c :: w ++ s :: l) with ((c :: w) ++ s :: l). apply w_more; [done| |done..].
    simpl. by rewrite Hc.
Qed.

Lemma sep_ok_words l : (sep_ok true l = true -> words l)
  /\ (sep_ok false l = true -> forall c, is_alnum c = true -> words (c :: l)).
Proof.
  induction l as [|d l [IH1 IH2]]; simpl.
  { split; [done|]. intros _ c Hc. apply w_last; [done|]. simpl. by rewrite Hc. }
  destruct (is_alnum d) eqn:Hd.
  { split; [intros; by apply IH2|]. intros H c Hc. apply words_cons; [done|]. by apply IH2. }
  destruct (is_sep d) eqn:Hs; [|done]. simpl. split; [done|]. intros H c Hc.
  change (c :: d :: l) with ([c] ++ d :: l). apply w_more; auto. simpl. by rewrite Hc.
Qed.

Lemma sep_ok_regex l : sep_ok true l = true <-> rmatch account_id_regex l.
Proof.
  split.
  - intros H. by apply words_regex, sep_ok_words.
  - intros H. by apply words_sep_ok, regex_words.
Qed.

Lemma is_alnum_ascii c : is_alnum c = true -> c < 128.
Proof.
  unfold is_alnum, is_lower, is_digit. rewrite orb_true_iff.
  intros [H|H]; bool_inv; lia.
Qed.

Lemma is_sep_ascii c : is_sep c = true -> c < 128.
Proof.
  unfold is_sep, is_dash, is_dot. rewrite !orb_true_iff, !Z.eqb_eq. lia.
Qed.

Lemma sep_ok_ascii last l : sep_ok last l = true -> Forall (fun c => c < 128) l.
Proof.
  revert last. induction l as [|c l IH]; intros last H; simpl in *; [constructor|].
  destruct (is_alnum c) eqn:E.
  { constructor; [by apply is_alnum_ascii|eauto]. }
  destruct (is_sep c) eqn:E'; [|done]. bool_inv.
  constructor; [by apply is_sep_ascii|eauto].
Qed.

Lemma ascii_chars_of l : Forall (fun c => c < 128) l -> chars_of l = l.
Proof.
  induction 1 as [|c l Hc _ IH]; simpl; [done|].
  destruct (Z.ltb_spec c 128); [by rewrite IH|lia].
Qed.

(** On a [str] the loop over characters accepts iff the loop over bytes does. *)
Lemma sep_ok_chars s : is_str s = true -> sep_ok true (chars s) = sep_ok true (as_bytes s).
Proof.
  intros Hu. apply eq_true_iff_eq. split; intros H.
  - pose proof (sep_ok_ascii _ _ H) as Ha.
    rewrite <- (chars_of_ascii (length (as_bytes s)) (as_bytes s)); auto using as_bytes_ok.
  - unfold chars. rewrite ascii_chars_of; [done|]. by eapply sep_ok_ascii.
Qed.

(* ------------------------------------------------------------------ *)
(** ** Theorems *)

Section theorems.
Context {C : Crates}.

Lemma validate_ok_iff s :
  is_str s = true ->
  validate s = Ok tt <->
  MIN_LEN <= str_len s <= MAX_LEN
  /\ (is_bitcoin_implicit s = true \/ sep_ok true (as_bytes s) = true).
Proof.
  intros Hs. unfold validate.
  destruct (Z.ltb_spec (str_len s) MIN_LEN); [split; [done|lia]|].
  destruct (Z.ltb_spec MAX_LEN (str_len s)); [split; [done|lia]|].
  destruct (is_bitcoin_implicit s); [split; [auto with lia|done]|].
  pose proof (validate_chars_ok 0 true None (chars s)) as Hok.
  rewrite sep_ok_chars in Hok by done.
  destruct (validate_chars _ _ _ _) as [[]| |]; simpl in Hok; rewrite <- Hok.
  - split; [auto with lia|done].
  - split; [done|]. intros [_ [?|?]]; done.
  - split; [done|]. intros [_ [?|?]]; done.
Qed.

(** C30. [validate] accepts exactly the strings of 2 to 64 bytes that are a
    Bitcoin address or match the regular expression the source gives in a
    comment as its specification. *)
Theorem validate_regex s :
  is_str s = true ->
  validate s = Ok tt <->
  MIN_LEN <= str_len s <= MAX_LEN
  /\ (is_bitcoin_implicit s = true \/ rmatch account_id_regex (as_bytes s)).
Proof. intros. rewrite validate_ok_iff by done. by rewrite sep_ok_regex. Qed.

Lemma validate_const_ok_iff s :
  validate_const s = Ok tt <->
  MIN_LEN <= str_len s <= MAX_LEN /\ sep_ok true (as_bytes s) = true.
Proof.
  unfold validate_const.
  destruct (Z.ltb_spec (str_len s) MIN_LEN); [split; [done|lia]|].
  destruct (Z.ltb_spec MAX_LEN (str_len s)); [split; [done|lia]|].
  rewrite validate_format_const_start.
  - destruct (sep_ok true (as_bytes s)); split; (done || auto with lia || intros [_ ?]; done).
  - intros E. pose proof (length_as_bytes_Z s) as Hl. rewrite E in Hl. unfold MIN_LEN in *.
    simpl in Hl. lia.
Qed.

(** The compile-time checker [validate_const] and the run-time [validate]
    agree on every string that is not a Bitcoin address; what the first
    accepts the second accepts as well, Bitcoin addresses included. *)
Theorem validate_const_agrees s :
  is_str s = true ->
  (validate_const s = Ok tt -> validate s = Ok tt)
  /\ (is_bitcoin_implicit s = false -> validate s = Ok tt -> validate_const s = Ok tt).
Proof.
  intros Hs. rewrite validate_ok_iff, validate_const_ok_iff by done.
  split; [tauto|]. intros ->. intuition congruence.
Qed.

(** [e] names a character of [l] that explains the rejection. *)
Definition error_position (l : list Z) (e : ParseAccountError) : Prop :=
  exists k c, pe_char e = Some (Z.of_nat k, c) /\ l !! k = Some c /\
  match pe_kind e with
  | InvalidChar =>
      is_alnum c = false /\ is_sep c = false
      /\ Forall (fun c => is_alnum c || is_sep c = true) (take k l)
  | RedundantSeparator =>
      is_sep c = true
      /\ (k = 0%nat \/ S k = length l \/ exists b, l !! (k - 1)%nat = Some b /\ is_sep b = true)
  | _ => False
  end.

Lemma validate_chars_error cs pre e :
  pre ++ cs <> [] ->
  Forall (fun c => is_alnum c || is_sep c = true) pre ->
  validate_chars (Z.of_nat (length pre)) (default true (is_sep <$> last pre))
    ((fun c => (Z.of_nat (length pre - 1), c)) <$> last pre) cs = Err e ->
  error_position (pre ++ cs) e.
Proof.
  revert pre. induction cs as [|c cs IH]; intros pre Hne Hpre H; simpl in H.
  { rewrite app_nil_r in *. destruct (last pre) as [c|] eqn:Hl; simpl in H;
      [|apply last_None in Hl; by subst].
    destruct (is_sep c) eqn:Hs; [|done]. injection H as <-.
    exists (length pre - 1)%nat, c. simpl. rewrite <- Hl, last_lookup, Nat.sub_1_r.
    split_and!; [done..|]. right; left. destruct pre; simpl; [done|lia]. }
  assert (Hc : (pre ++ c :: cs) !! length pre = Some c)
    by (by rewrite lookup_app_r, Nat.sub_diag by lia).
  specialize (IH (pre ++ [c])). rewrite <- (assoc_L (++)), last_snoc, length_app in IH.
  simpl in IH. replace (Z.of_nat (length pre + 1)) with (Z.of_nat (length pre) + 1) in IH by lia.
  rewrite Nat.add_sub in IH.
  assert (IH' : is_alnum c || is_sep c = true ->
    validate_chars (Z.of_nat (length pre) + 1) (is_sep c) (Some (Z.of_nat (length pre), c)) cs
      = Err e -> error_position (pre ++ c :: cs) e)
    by (intros; apply IH; [done| |done]; by apply Forall_app_2, Forall_singleton).
  clear IH. destruct (is_alnum c) eqn:Ha.
  { apply IH'; [done|]. by rewrite (alnum_not_sep c Ha). }
  destruct (is_sep c) eqn:Hs.
  - destruct (default true (is_sep <$> last pre)) eqn:Hl; [|by apply IH'].
    injection H as <-. exists (length pre), c. simpl. split_and!; [done..|].
    destruct (last pre) as [b|] eqn:Hb; [|left; by apply last_None in Hb; subst].
    right; right. exists b. split; [|done]. rewrite last_lookup in Hb.
    rewrite lookup_app_l by (apply lookup_lt_Some in Hb; lia). by rewrite Nat.sub_1_r.
  - injection H as <-. exists (length pre), c. simpl. split_and!; try done.
    by rewrite take_app_length.
Qed.

Lemma chars_nonempty s : is_str s = true -> 0 < str_len s -> chars s <> [].
Proof.
  unfold is_str, chars. rewrite <- length_as_bytes_Z.
  destruct (as_bytes s) as [|x [|y [|z [|w l]]]]; simpl; repeat case_match; done || lia.
Qed.

(** Every error of [validate] is accurate: a length error is reported
    exactly for a string out of bounds, and otherwise the reported position
    holds the reported character, which is the first one outside the alphabet,
    or a separator that starts the identifier, ends it or follows another. *)
Theorem validate_error_accurate s e :
  is_str s = true -> validate s = Err e ->
  match pe_kind e with
  | TooShort => str_len s < MIN_LEN /\ pe_char e = None
  | TooLong => MAX_LEN < str_len s /\ pe_char e = None
  | _ => error_position (chars s) e
  end.
Proof.
  unfold validate. intros Hs H.
  destruct (Z.ltb_spec (str_len s) MIN_LEN); [by injection H as <-|].
  destruct (Z.ltb_spec MAX_LEN (str_len s)); [by injection H as <-|].
  destruct (is_bitcoin_implicit s); [done|].
  assert (E : chars s <> []) by (apply chars_nonempty; [done|unfold MIN_LEN in *; lia]).
  pose proof (validate_chars_error (chars s) [] e E (Forall_nil_2 _) H) as Hp.
  destruct (pe_kind e) eqn:K; try done; destruct Hp as (? & ? & _ & _ & Hp); by rewrite K in Hp.
Qed.

Lemma get_parent_Some id parent :
  get_parent_account_id false id = Ok (Some parent) <->
  exists a, as_bytes id = a ++ 46 :: as_bytes parent /\ ~ In 46 a.
Proof.
  unfold get_parent_account_id. destruct (split_once 46 (as_bytes id)) as [[a b]|] eqn:E; simpl.
  - apply split_once_Some in E as [E Ha]. split.
    + intros [= <-]. exists a. rewrite as_bytes_of_bytes; [done|].
      pose proof (as_bytes_ok id) as Hb. rewrite E in Hb. by decompose_Forall_hyps.
    + intros (a' & E' & Ha'). enough (Some (a, b) = Some (a', as_bytes parent)) as [= -> ->]
        by (by rewrite of_bytes_as_bytes).
      rewrite <- (proj2 (split_once_Some 46 (as_bytes id) a b)) by done.
      by apply split_once_Some.
  - split; [done|]. intros (a & E' & Ha').
    by rewrite (proj2 (split_once_Some 46 (as_bytes id) a (as_bytes parent))) in E by done.
Qed.

(** [is_sub_account_of] is the converse of [get_parent_account_id]: an
    account is a sub-account of exactly its parent, for all identifiers. *)
Theorem sub_account_iff_parent id parent :
  is_sub_account_of id parent = true <-> get_parent_account_id false id = Ok (Some parent).
Proof.
  rewrite get_parent_Some. unfold is_sub_account_of. split.
  - destruct (strip_suffix (as_bytes parent) (as_bytes id)) as [s|] eqn:E1; [|done].
    destruct (strip_suffix [46] s) as [a|] eqn:E2; [|done].
    apply strip_suffix_Some in E1 as ->, E2 as ->.
    intros H%negb_true_iff%contains_false. exists a. by rewrite <- (assoc_L (++)).
  - intros (a & E & Ha).
    rewrite (proj2 (strip_suffix_Some (as_bytes parent) (as_bytes id) (a ++ [46])))
      by (by rewrite E, <- (assoc_L (++))).
    rewrite (proj2 (strip_suffix_Some [46] (a ++ [46]) a)) by done.
    by apply negb_true_iff, contains_false.
Qed.

Lemma sep_ok_after_sep last a s b :
  is_sep s = true -> sep_ok last (a ++ s :: b) = true -> sep_ok true b = true.
Proof.
  intros Hs. revert last. induction a as [|c a IH]; intros last H; simpl in H.
  - destruct (is_alnum s) eqn:E; [by rewrite (alnum_not_sep s E) in Hs|].
    rewrite Hs in H. by bool_inv.
  - destruct (is_alnum c); [eauto|]. destruct (is_sep c); [|done]. bool_inv. eauto.
Qed.

Lemma ascii_is_utf8 l : Forall (fun c => c < 128) l -> is_utf8 l = true.
Proof.
  induction 1 as [|c l Hc _ IH]; simpl; [done|]. by destruct (Z.ltb_spec c 128); [|lia].
Qed.

(** The parent of a valid named account is itself a valid identifier
    exactly when it has at least two characters; for a one-character parent
    the [debug_assert!] of [new_unvalidated] fires, so that
    [get_parent_account_id] panics in a debug build. *)
Theorem parent_validity id parent :
  is_str id = true -> is_bitcoin_implicit id = false -> validate id = Ok tt ->
  get_parent_account_id false id = Ok (Some parent) ->
  (validate parent = Ok tt <-> MIN_LEN <= str_len parent)
  /\ (get_parent_account_id true id = Panic <-> str_len parent < MIN_LEN).
Proof.
  intros Hs Hb Hv Hp. pose proof Hp as (a & E & _)%get_parent_Some.
  apply validate_ok_iff in Hv as [Hlen [?|Hok]]; [congruence| |done].
  rewrite E in Hok. apply sep_ok_after_sep in Hok; [|done].
  assert (Hvp : validate parent = Ok tt <-> MIN_LEN <= str_len parent).
  { rewrite validate_ok_iff by (by apply ascii_is_utf8, (sep_ok_ascii true)).
    rewrite <- !length_as_bytes_Z, E in *. rewrite length_app in *. simpl in *.
    split; [lia|]. split; [lia|auto]. }
  split; [done|]. unfold get_parent_account_id in *.
  destruct (split_once 46 (as_bytes id)) as [[u b]|]; [|done]. simpl in *.
  injection Hp as ->. unfold new_unvalidated. simpl.
  destruct (validate parent) as [[]| |] eqn:V; simpl.
  - split; [done|]. pose proof (proj1 Hvp eq_refl). lia.
  - split; [|done]. intros _. destruct (Z.lt_ge_cases (str_len parent) MIN_LEN); [done|].
    by apply Hvp in H.
  - split; [|done]. intros _. destruct (Z.lt_ge_cases (str_len parent) MIN_LEN); [done|].
    by apply Hvp in H.
Qed.
End theorems.

(* ------------------------------------------------------------------ *)
(** ** The theorems at concrete identifiers *)

Section witnesses.
#[local] Existing Instance Toy.crates.

Lemma validate_regex_witness :
  validate "alice.near" = Ok tt <->
  MIN_LEN <= str_len "alice.near" <= MAX_LEN
  /\ (is_bitcoin_implicit "alice.near" = true
      \/ rmatch account_id_regex (as_bytes "alice.near")).
Proof. apply validate_regex. vm_compute. reflexivity. Defined.

Lemma validate_const_agrees_witness :
  validate "alice.near" = Ok tt /\ validate_const "a-b.near" = Ok tt.
Proof.
  split.
  - apply (validate_const_agrees "alice.near"); vm_compute; reflexivity.
  - apply (validate_const_agrees "a-b.near"); vm_compute; reflexivity.
Defined.

Lemma validate_error_accurate_witness :
  error_position (chars "a..b") (parse_error RedundantSeparator (Some (2, 46))).
Proof.
  apply (validate_error_accurate "a..b" (parse_error RedundantSeparator (Some (2, 46))));
    vm_compute; reflexivity.
Defined.

Lemma parent_validity_witness :
  (validate "c" = Ok tt <-> MIN_LEN <= str_len "c")
  /\ (get_parent_account_id true "ab.c" = Panic <-> str_len "c" < MIN_LEN).
Proof. apply (parent_validity "ab.c" "c"); vm_compute; reflexivity. Defined.
End witnesses.
