(* ===== verification/Bech32.v ===== *)
(** * Bech32 (BIP 173)

    The repository contains four copies of the same encoder (the node's
    [bitcoin_utils.rs], and [main.rs], [tx_translator.rs] and [utxo_synth.rs] of
    the RPC proxy) and two copies of the decoder of a witness program.  The
    algorithm is modelled once, with the u32 accumulator truncated to its width,
    and each copy is an instance. *)

From S2P Require Import Prelude Crates AccountId.

(* ------------------------------------------------------------------ *)
(** ** Regrouping bits *)

(** [while bits >= to { bits -= to; out.push((acc >> bits) & (2^to - 1)) }];
    the fuel bounds the number of iterations. *)
Fixpoint drain (fuel : nat) (to acc bits : Z) : list Z * Z :=
  match fuel with
  | O => ([], bits)
  | S fuel =>
      if to <=? bits then
        let bits := bits - to in
        let d := Z.land (Z.shiftr acc bits) (Z.ones to) in
        let '(ds, b) := drain fuel to acc bits in (d :: ds, b)
      else ([], bits)
  end.

(** The loop over the input: groups of [from] bits in, groups of [to] bits out.
    Returns the groups and the accumulator and number of pending bits. *)
Fixpoint regroup (from to : Z) (acc bits : Z) (input : list Z) : list Z * (Z * Z) :=
  match input with
  | [] => ([], (acc, bits))
  | v :: input =>
      let acc := Z.lor (Z.land (Z.shiftl acc from) u32_max) v in
      let bits := bits + from in
      let '(ds, bits) := drain 3 to acc bits in
      let '(rest, st) := regroup from to acc bits input in
      (ds ++ rest, st)
  end.

(** 8-bit program to 5-bit groups, the last one padded with zeros. *)
Definition to_base32 (program : list Z) : list Z :=
  let '(ds, (acc, bits)) := regroup 8 5 0 0 program in
  if 0 <? bits then ds ++ [Z.land (Z.land (Z.shiftl acc (5 - bits)) u32_max) 31] else ds.

(** 5-bit groups to bytes, pending bits dropped. *)
Definition of_base32 (payload5 : list Z) : list Z :=
  let '(bs, _) := regroup 5 8 0 0 payload5 in bs.

(* ------------------------------------------------------------------ *)
(** ** Checksum *)

Definition GEN : list Z := [0x3b6a57b2; 0x26508e6d; 0x1ea119fa; 0x3d4233dd; 0x2a1462b3].

(** The inner loop over [GEN.iter().enumerate()]. *)
Fixpoint xor_gen (b : Z) (i : Z) (gen : list Z) (chk : Z) : Z :=
  match gen with
  | [] => chk
  | g :: gen =>
      xor_gen b (i + 1) gen
        (if Z.land (Z.shiftr b i) 1 =? 1 then Z.lxor chk g else chk)
  end.

Definition polymod_step (chk v : Z) : Z :=
  let b := Z.shiftr chk 25 in
  let chk := Z.lxor (Z.shiftl (Z.land chk 0x1ffffff) 5) v in
  xor_gen b 0 GEN chk.

Definition polymod (values : list Z) : Z := fold_left polymod_step values 1.

Definition hrp_expand (hrp : string) : list Z :=
  map (fun b => Z.shiftr b 5) (as_bytes hrp) ++ [0]
  ++ map (fun b => Z.land b 31) (as_bytes hrp).

Definition checksum (hrp : string) (data5 : list Z) : list Z :=
  let poly := Z.lxor (polymod (hrp_expand hrp ++ data5 ++ [0; 0; 0; 0; 0; 0])) 1 in
  map (fun i => Z.land (Z.shiftr poly (5 * (5 - i))) 31) [0; 1; 2; 3; 4; 5].

(* ------------------------------------------------------------------ *)
(** ** Encoding *)

Definition CHARSET : list Z := as_bytes "qpzry9x8gf2tvdw0s3jn54khce6mua7l".

(** [CHARSET[d as usize]]; every group is below 32. *)
Definition charset_at (d : Z) : Z := nth (Z.to_nat d) CHARSET 0.

Definition segwit_encode (hrp : string) (witness_version : Z) (program : list Z) : string :=
  let data5 := witness_version :: to_base32 program in
  of_bytes (as_bytes hrp ++ [49] ++ map charset_at (data5 ++ checksum hrp data5)).

(** [str::find] of a character in the charset. *)
Fixpoint find_from (i : Z) (c : Z) (l : list Z) : option Z :=
  match l with
  | [] => None
  | x :: l => if x =? c then Some i else find_from (i + 1) c l
  end.
Definition charset_find (c : Z) : option Z := find_from 0 c CHARSET.

Fixpoint filter_map {A B : Type} (f : A -> option B) (l : list A) : list B :=
  match l with
  | [] => []
  | a :: l => match f a with Some b => b :: filter_map f l | None => filter_map f l end
  end.

(** What follows the last occurrence of [sep]: [rfind] and the slice after it. *)
Fixpoint after_last (sep : Z) (l : list Z) : option (list Z) :=
  match l with
  | [] => None
  | x :: l =>
      match after_last sep l with
      | Some r => Some r
      | None => if x =? sep then Some l else None
      end
  end.

(** utxo_synth.rs, [decode_bech32_program]. *)
Definition decode_bech32_program (addr : string) : option (list Z) :=
  match after_last 49 (as_bytes addr) with
  | None => None
  | Some data_part =>
      let data5 := filter_map charset_find (chars_of data_part) in
      if (length data5 <=? 7)%nat then None
      else
        let payload5 := take (length data5 - 7) (drop 1 data5) in
        Some (of_base32 payload5)
  end.

(* ------------------------------------------------------------------ *)
(** ** Regrouping preserves the number written *)

(** The number a list of base-[2^w] digits writes, most significant first. *)
Definition digits_value (w : Z) (l : list Z) : Z := fold_left (fun a d => a * 2 ^ w + d) l 0.

Definition digit (w : Z) (d : Z) : Prop := 0 <= d < 2 ^ w.

Lemma digits_value_acc w l a :
  0 <= w ->
  fold_left (fun a d => a * 2 ^ w + d) l a = a * 2 ^ (w * Z.of_nat (length l)) + digits_value w l.
Proof.
  intros Hw. unfold digits_value. revert a.
  induction l as [|d l IH]; intros a; simpl fold_left.
  { simpl. rewrite Z.mul_0_r, Z.pow_0_r. lia. }
  rewrite (IH (a * 2 ^ w + d)), (IH (0 * 2 ^ w + d)). simpl length.
  replace (w * Z.of_nat (S (length l))) with (w + w * Z.of_nat (length l)) by lia.
  rewrite Z.pow_add_r by lia. ring.
Qed.

Lemma digits_value_app w l1 l2 :
  0 <= w ->
  digits_value w (l1 ++ l2)
    = digits_value w l1 * 2 ^ (w * Z.of_nat (length l2)) + digits_value w l2.
Proof.
  intros Hw. unfold digits_value at 1. rewrite fold_left_app.
  by rewrite digits_value_acc by done.
Qed.

Lemma digits_value_cons w d l :
  0 <= w ->
  digits_value w (d :: l) = d * 2 ^ (w * Z.of_nat (length l)) + digits_value w l.
Proof. intros. unfold digits_value at 1. simpl. by rewrite digits_value_acc. Qed.

Lemma digits_value_bound w l :
  0 <= w -> Forall (digit w) l -> 0 <= digits_value w l < 2 ^ (w * Z.of_nat (length l)).
Proof.
  intros Hw. induction 1 as [|d l [Hd1 Hd2] _ IH]; [rewrite Z.mul_0_r; simpl; unfold digits_value; simpl; lia|].
  rewrite digits_value_cons by done. simpl length.
  replace (w * Z.of_nat (S (length l))) with (w + w * Z.of_nat (length l)) by lia.
  rewrite Z.pow_add_r by lia. nia.
Qed.

Lemma digits_value_inj w l1 l2 :
  0 <= w -> Forall (digit w) l1 -> Forall (digit w) l2 -> length l1 = length l2 ->
  digits_value w l1 = digits_value w l2 -> l1 = l2.
Proof.
  intros Hw H1 H2 Hl. revert l2 H2 Hl. induction H1 as [|d l1 [Hd1 Hd2] H1 IH];
    intros [|e l2] H2 Hl E; simplify_eq/=; [done|].
  inversion_clear H2 as [|? ? [He1 He2] H2']. rewrite !digits_value_cons, Hl in E by done.
  pose proof (digits_value_bound w l1 Hw H1) as B1. rewrite Hl in B1.
  pose proof (digits_value_bound w l2 Hw H2') as B2.
  assert (d = e) by nia. subst. f_equal. apply IH; [done..|]. lia.
Qed.

Lemma mod_split a p q :
  0 <= p -> 0 <= q -> a mod 2 ^ (p + q) = ((a / 2 ^ p) mod 2 ^ q) * 2 ^ p + a mod 2 ^ p.
Proof.
  intros. rewrite Z.pow_add_r by lia. rewrite Z.rem_mul_r by lia. lia.
Qed.

Lemma drain_spec fuel to acc bits ds b :
  0 < to -> 0 <= bits < to * Z.of_nat (S fuel) ->
  drain fuel to acc bits = (ds, b) ->
  Forall (digit to) ds /\ bits = to * Z.of_nat (length ds) + b /\ 0 <= b < to
  /\ digits_value to ds * 2 ^ b + acc mod 2 ^ b = acc mod 2 ^ bits.
Proof.
  intros Hto. revert bits ds b. induction fuel as [|fuel IH]; intros bits ds b Hb H; simpl in H.
  { injection H as <- <-. unfold digits_value. simpl. split_and!; [by apply Forall_nil|lia..]. }
  destruct (Z.leb_spec to bits) as [Hle|Hlt].
  2:{ injection H as <- <-. unfold digits_value. simpl. split_and!; [by apply Forall_nil|lia..]. }
  destruct (drain fuel to acc (bits - to)) as [ds' b'] eqn:E. injection H as <- <-.
  apply IH in E as (Hd & Hbits & Hb' & Hv); [|lia].
  rewrite Z.land_ones, Z.shiftr_div_pow2 by lia.
  set (d := (acc / 2 ^ (bits - to)) mod 2 ^ to).
  assert (digit to d) by (apply Z.mod_pos_bound; lia).
  split_and!; [by constructor|simpl length; lia|lia..|].
  rewrite digits_value_cons by lia.
  replace (acc mod 2 ^ bits) with (acc mod 2 ^ ((bits - to) + to)) by (f_equal; f_equal; lia).
  rewrite mod_split by lia. fold d. rewrite <- Hv.
  replace (2 ^ (bits - to)) with (2 ^ (to * Z.of_nat (length ds')) * 2 ^ b')
    by (rewrite <- Z.pow_add_r by lia; f_equal; lia).
  ring.
Qed.

(** Shifting in one group: the pending bits become the old ones followed by
    the group, however the accumulator was truncated. *)
Lemma shift_in acc bits from v :
  0 <= acc -> 0 <= bits -> 0 <= from -> bits + from <= 32 -> digit from v ->
  0 <= Z.lor (Z.land (Z.shiftl acc from) u32_max) v
  /\ Z.lor (Z.land (Z.shiftl acc from) u32_max) v mod 2 ^ (bits + from)
     = (acc mod 2 ^ bits) * 2 ^ from + v.
Proof.
  intros Ha Hb Hf H32 [Hv1 Hv2].
  change u32_max with (Z.ones 32). rewrite Z.land_ones, Z.shiftl_mul_pow2 by lia.
  pose proof (Z.mod_pos_bound (acc * 2 ^ from) (2 ^ 32)) as Hm.
  assert (Hdiv : (acc * 2 ^ from) mod 2 ^ 32 = (acc mod 2 ^ (32 - from)) * 2 ^ from).
  { replace (2 ^ 32) with (2 ^ (32 - from) * 2 ^ from)
      by (rewrite <- Z.pow_add_r by lia; f_equal; lia).
    rewrite Z.mul_mod_distr_r by lia. done. }
  assert (Hlor : Z.lor ((acc * 2 ^ from) mod 2 ^ 32) v = (acc * 2 ^ from) mod 2 ^ 32 + v).
  { assert (Hland : Z.land ((acc * 2 ^ from) mod 2 ^ 32) v = 0).
    { rewrite Hdiv, <- Z.shiftl_mul_pow2 by lia. apply Z.bits_inj'. intros n Hn.
      rewrite Z.land_spec, Z.bits_0. destruct (Z.lt_ge_cases n from).
      - by rewrite Z.shiftl_spec_low by lia.
      - rewrite <- (Z.mod_small v (2 ^ from)), Z.mod_pow2_bits_high by lia. apply andb_false_r. }
    by rewrite <- Z.lxor_lor, Z.add_nocarry_lxor. }
  rewrite Hlor. split; [lia|].
  rewrite Hdiv, Z.add_comm, (Z.add_comm bits from), mod_split by lia.
  rewrite Z.div_add, Z.mod_add by lia. rewrite (Z.div_small v), (Z.mod_small v) by lia.
  rewrite Z.add_0_l. f_equal. f_equal.
  replace (32 - from) with (bits + (32 - from - bits)) by lia. rewrite mod_split by lia.
  rewrite Z.add_comm, Z.mod_add by lia. apply Z.mod_mod. lia.
Qed.

Lemma regroup_spec from to acc bits input ds acc' bits' :
  0 < to -> 0 <= from -> from < 3 * to -> to + from <= 32 ->
  0 <= acc -> 0 <= bits < to -> Forall (digit from) input ->
  regroup from to acc bits input = (ds, (acc', bits')) ->
  Forall (digit to) ds /\ 0 <= acc' /\ 0 <= bits' < to
  /\ to * Z.of_nat (length ds) + bits' = bits + from * Z.of_nat (length input)
  /\ digits_value to ds * 2 ^ bits' + acc' mod 2 ^ bits'
     = (acc mod 2 ^ bits) * 2 ^ (from * Z.of_nat (length input)) + digits_value from input.
Proof.
  intros Hto Hfrom H3 H32. revert acc bits ds.
  induction input as [|v input IH]; intros acc bits ds Ha Hb Hin H;
    cbn [regroup] in H.
  { injection H as <- <- <-. simpl. rewrite !Z.mul_0_r, Z.pow_0_r. unfold digits_value. simpl.
    split_and!; [by apply Forall_nil|lia..]. }
  inversion_clear Hin as [|? ? Hv Hin'].
  destruct (shift_in acc bits from v) as [Ha1 Hm1]; [lia..|done|].
  set (acc1 := Z.lor (Z.land (Z.shiftl acc from) u32_max) v) in *.
  destruct (drain 3 to acc1 (bits + from)) as [ds0 b0] eqn:Ed.
  destruct (regroup from to acc1 b0 input) as [rest [a2 b2]] eqn:Er. injection H as <- <- <-.
  apply drain_spec in Ed as (Hd0 & Hbits0 & Hb0 & Hv0); [|lia..].
  apply IH in Er as (Hr & Ha2 & Hb2 & Hlen & Hval); [|lia..|done].
  split_and!; [by apply Forall_app|lia..| |].
  { rewrite length_app. simpl length. lia. }
  rewrite digits_value_app by lia. simpl length.
  rewrite digits_value_cons by lia.
  rewrite Z.mul_add_distr_r, <- Z.add_assoc, Hval, <- Z.mul_assoc, <- Z.pow_add_r by lia.
  rewrite Hlen, Z.pow_add_r, (Z.mul_comm from) by lia.
  rewrite Z.mul_assoc, Z.add_assoc, <- Z.mul_add_distr_r, Hv0, Hm1.
  replace (2 ^ (from * Z.of_nat (S (length input))))
    with (2 ^ from * 2 ^ (from * Z.of_nat (length input)))
    by (rewrite <- Z.pow_add_r by lia; f_equal; lia).
  rewrite (Z.mul_comm (Z.of_nat _) from). ring.
Qed.

Lemma is_byte_digit l : bytes_ok l -> Forall (digit 8) l.
Proof. intros H. eapply Forall_impl; [exact H|]. unfold is_byte, digit. intros; lia. Qed.

(** The groups write the program's number, shifted by the padding. *)
Lemma to_base32_spec program :
  bytes_ok program ->
  exists pad, 0 <= pad < 5 /\ Forall (digit 5) (to_base32 program)
  /\ 5 * Z.of_nat (length (to_base32 program)) = 8 * Z.of_nat (length program) + pad
  /\ digits_value 5 (to_base32 program) = digits_value 8 program * 2 ^ pad.
Proof.
  intros Hp. unfold to_base32.
  destruct (regroup 8 5 0 0 program) as [ds [acc bits]] eqn:E.
  apply regroup_spec in E as (Hd & Ha & Hb & Hl & Hv); [|lia..|by apply is_byte_digit].
  rewrite Z.mod_0_l, Z.mul_0_l in Hv by lia.
  destruct (Z.ltb_spec 0 bits) as [Hpos|Hz].
  2:{ exists 0. replace bits with 0 in * by lia. rewrite Z.mod_1_r in Hv by lia.
      split_and!; [lia..|done|lia|]. simpl in *. lia. }
  assert (Hlast : Z.land (Z.land (Z.shiftl acc (5 - bits)) u32_max) 31
                  = acc mod 2 ^ bits * 2 ^ (5 - bits)).
  { change u32_max with (Z.ones 32). change 31 with (Z.ones 5).
    rewrite <- Z.land_assoc. change (Z.land (Z.ones 32) (Z.ones 5)) with (Z.ones 5).
    rewrite Z.land_ones, Z.shiftl_mul_pow2 by lia.
    replace (2 ^ 5) with (2 ^ bits * 2 ^ (5 - bits))
      by (rewrite <- Z.pow_add_r by lia; by replace (bits + (5 - bits)) with 5 by lia).
    rewrite Z.mul_mod_distr_r by lia. done. }
  rewrite Hlast. exists (5 - bits).
  assert (Hlt := Z.mod_pos_bound acc (2 ^ bits) ltac:(lia)).
  assert (H32 : 2 ^ 5 = 2 ^ bits * 2 ^ (5 - bits))
    by (rewrite <- Z.pow_add_r by lia; f_equal; lia).
  split_and!; [lia..| | |].
  - apply Forall_app_2; [done|]. apply Forall_singleton. unfold digit. rewrite H32. nia.
  - rewrite length_app. simpl length. lia.
  - rewrite digits_value_app by lia. simpl length. unfold digits_value at 2. cbn [fold_left].
    rewrite Z.mul_1_r, H32. nia.
Qed.

(** Decoding the groups of a program gives the program back. *)
Lemma of_to_base32 program : bytes_ok program -> of_base32 (to_base32 program) = program.
Proof.
  intros Hp. destruct (to_base32_spec program Hp) as (pad & Hpad & Hd & Hl & Hv).
  unfold of_base32. destruct (regroup 5 8 0 0 (to_base32 program)) as [bs [acc bits]] eqn:E.
  apply regroup_spec in E as (Hbs & Ha & Hb & Hl' & Hv'); [|lia..|done].
  rewrite Z.mod_0_l, Z.mul_0_l, Z.add_0_l, Hv in Hv' by lia.
  assert (Hlen : length bs = length program) by lia. assert (bits = pad) by lia. subst bits.
  apply (digits_value_inj 8); [lia|done|by apply is_byte_digit|done|].
  assert (Hlt := Z.mod_pos_bound acc (2 ^ pad) ltac:(lia)). nia.
Qed.

Lemma length_to_base32 program :
  bytes_ok program ->
  Z.of_nat (length (to_base32 program)) = (8 * Z.of_nat (length program) + 4) / 5.
Proof.
  intros Hp. destruct (to_base32_spec program Hp) as (pad & Hpad & _ & Hl & _).
  apply (Z.div_unique_pos _ _ _ (4 - pad)); lia.
Qed.

(* ------------------------------------------------------------------ *)
(** ** The checksum is the one BIP 173 verifies *)

(** The part of [polymod_step] that depends on the state only. *)
Definition gens (b : Z) : Z :=
  fold_left (fun a '(i, g) => Z.lxor a (if Z.testbit b i then g else 0))
    [(0, 0x3b6a57b2); (1, 0x26508e6d); (2, 0x1ea119fa); (3, 0x3d4233dd); (4, 0x2a1462b3)] 0.

Lemma bit_test b i : 0 <= i -> (Z.land (Z.shiftr b i) 1 =? 1) = Z.testbit b i.
Proof.
  intros Hi. change 1 with (Z.ones 1) at 1. rewrite Z.land_ones by lia.
  destruct (Z.testbit b i) eqn:E.
  - apply Z.testbit_true in E; [|lia]. rewrite Z.shiftr_div_pow2 by lia. change (2 ^ 1) with 2.
    by rewrite E.
  - apply Z.testbit_false in E; [|lia]. rewrite Z.shiftr_div_pow2 by lia. change (2 ^ 1) with 2.
    by rewrite E.
Qed.

Lemma polymod_step_eq chk v :
  polymod_step chk v =
    Z.lxor (Z.lxor (Z.shiftl (Z.land chk 0x1ffffff) 5) v) (gens (Z.shiftr chk 25)).
Proof.
  unfold polymod_step, gens, GEN. cbn [xor_gen fold_left].
  rewrite !bit_test by lia. change (0 + 1 + 1 + 1 + 1) with 4. change (0 + 1 + 1 + 1) with 3.
  change (0 + 1 + 1) with 2. change (0 + 1) with 1.
  repeat match goal with |- context [Z.testbit ?b ?i] => destruct (Z.testbit b i) end;
    rewrite ?Z.lxor_0_r, ?Z.lxor_0_l, ?Z.lxor_assoc; reflexivity.
Qed.

Lemma gens_lxor a b : gens (Z.lxor a b) = Z.lxor (gens a) (gens b).
Proof.
  unfold gens. cbn [fold_left]. rewrite !Z.lxor_spec.
  repeat match goal with |- context [Z.testbit ?b ?i] => destruct (Z.testbit b i) end;
    reflexivity.
Qed.

Lemma lxor_interchange a b c d :
  Z.lxor (Z.lxor a b) (Z.lxor c d) = Z.lxor (Z.lxor a c) (Z.lxor b d).
Proof. rewrite !Z.lxor_assoc. f_equal. rewrite <- !Z.lxor_assoc. f_equal. apply Z.lxor_comm. Qed.

(** The checksum is linear over GF(2). *)
Lemma polymod_step_lxor a b v w :
  polymod_step (Z.lxor a b) (Z.lxor v w) = Z.lxor (polymod_step a v) (polymod_step b w).
Proof.
  rewrite !polymod_step_eq, Z.shiftr_lxor, gens_lxor.
  assert (Z.shiftl (Z.land (Z.lxor a b) 0x1ffffff) 5 =
    Z.lxor (Z.shiftl (Z.land a 0x1ffffff) 5) (Z.shiftl (Z.land b 0x1ffffff) 5)) as ->.
  { rewrite <- Z.shiftl_lxor. f_equal. change 0x1ffffff with (Z.ones 25).
    apply Z.bits_inj'. intros n Hn. rewrite Z.lxor_spec, !Z.land_spec, Z.lxor_spec.
    by destruct (Z.testbit (Z.ones 25) n); rewrite ?andb_true_r, ?andb_false_r. }
  rewrite (lxor_interchange _ _ v w). apply lxor_interchange.
Qed.

Lemma fold_polymod_lxor l1 l2 a b :
  length l1 = length l2 ->
  fold_left polymod_step (zip_with Z.lxor l1 l2) (Z.lxor a b)
    = Z.lxor (fold_left polymod_step l1 a) (fold_left polymod_step l2 b).
Proof.
  revert l2 a b. induction l1 as [|x l1 IH]; intros [|y l2] a b Hl; simplify_eq/=; [done|].
  rewrite polymod_step_lxor. by apply IH.
Qed.

Lemma polymod_step_small b w : 0 <= b < 2 ^ 25 -> digit 5 w -> polymod_step b w = b * 2 ^ 5 + w.
Proof.
  intros Hb Hw. rewrite polymod_step_eq.
  rewrite Z.shiftr_div_pow2, (Z.div_small b) by lia. change (gens 0) with 0.
  rewrite Z.lxor_0_r. change 0x1ffffff with (Z.ones 25).
  rewrite Z.land_ones, Z.mod_small by lia. unfold digit in Hw.
  assert (Hland : Z.land (Z.shiftl b 5) w = 0).
  { apply Z.bits_inj'. intros n Hn. rewrite Z.land_spec, Z.bits_0.
    destruct (Z.lt_ge_cases n 5); [by rewrite Z.shiftl_spec_low by lia|].
    rewrite <- (Z.mod_small w (2 ^ 5)), Z.mod_pow2_bits_high by lia. apply andb_false_r. }
  rewrite <- Z.add_nocarry_lxor by done. by rewrite Z.shiftl_mul_pow2 by lia.
Qed.

(** While the state fits, feeding groups writes their digits; in particular
    six groups fed to the zero state are the 30-bit number they write. *)
Lemma polymod_digits c a :
  Forall (digit 5) c -> 5 * Z.of_nat (length c) <= 30 ->
  0 <= a < 2 ^ (30 - 5 * Z.of_nat (length c)) ->
  fold_left polymod_step c a = fold_left (fun a d => a * 2 ^ 5 + d) c a.
Proof.
  intros Hc. revert a. induction Hc as [|d c Hd Hc IH]; intros a Hl Ha; [done|].
  cbn [fold_left]. simpl length in *.
  assert (2 ^ (30 - 5 * Z.of_nat (S (length c))) * 2 ^ 5 = 2 ^ (30 - 5 * Z.of_nat (length c)))
    by (rewrite <- Z.pow_add_r by lia; f_equal; lia).
  assert (2 ^ (30 - 5 * Z.of_nat (S (length c))) <= 2 ^ 25) by (apply Z.pow_le_mono_r; lia).
  rewrite polymod_step_small by (lia || done). unfold digit in Hd. apply IH; lia.
Qed.

Lemma polymod_six c :
  length c = 6%nat -> Forall (digit 5) c -> fold_left polymod_step c 0 = digits_value 5 c.
Proof. intros Hl Hc. apply polymod_digits; [done|rewrite Hl; lia..]. Qed.

Lemma lxor_bound n a b : 0 <= n -> digit n a -> digit n b -> digit n (Z.lxor a b).
Proof.
  unfold digit. intros Hn Ha Hb.
  assert (E : Z.lxor a b = (Z.lxor a b) mod 2 ^ n).
  { apply Z.bits_inj'. intros i Hi. destruct (Z.lt_ge_cases i n).
    - by rewrite Z.mod_pow2_bits_low by lia.
    - rewrite Z.mod_pow2_bits_high, Z.lxor_spec by lia.
      rewrite <- (Z.mod_small a (2 ^ n)), <- (Z.mod_small b (2 ^ n)) by lia.
      by rewrite !Z.mod_pow2_bits_high by lia. }
  rewrite E. apply Z.mod_pos_bound. lia.
Qed.

Lemma polymod_step_bound chk v : digit 5 v -> digit 30 (polymod_step chk v).
Proof.
  intros [Hv1 Hv2]. rewrite polymod_step_eq.
  apply lxor_bound; [lia| |].
  - apply lxor_bound; [lia| |unfold digit; lia]. change 0x1ffffff with (Z.ones 25).
    rewrite Z.land_ones, Z.shiftl_mul_pow2 by lia.
    pose proof (Z.mod_pos_bound chk (2 ^ 25)). unfold digit. lia.
  - unfold gens. cbn [fold_left].
    repeat match goal with |- context [Z.testbit ?b ?i] => destruct (Z.testbit b i) end;
      vm_compute; intuition congruence.
Qed.

Lemma polymod_bound l : Forall (digit 5) l -> digit 30 (polymod l).
Proof.
  intros Hl. unfold polymod. assert (H1 : digit 30 1) by (unfold digit; lia). revert H1.
  generalize 1. induction Hl as [|v l Hv _ IH]; intros a Ha; simpl; [done|].
  apply IH. by apply polymod_step_bound.
Qed.

(** The six groups the encoder appends write [poly]. *)
Lemma six_groups p :
  digit 30 p ->
  let c := map (fun i => Z.land (Z.shiftr p (5 * (5 - i))) 31) [0; 1; 2; 3; 4; 5] in
  Forall (digit 5) c /\ digits_value 5 c = p.
Proof.
  intros [H1 H2] c. subst c. simpl map.
  change 31 with (Z.ones 5). rewrite !Z.land_ones, !Z.shiftr_div_pow2 by lia. split.
  - repeat constructor; apply Z.mod_pos_bound; lia.
  - unfold digits_value. cbn [fold_left]. simpl Z.pow. change (2 ^ 30) with 1073741824 in H2.
    Z.to_euclidean_division_equations. lia.
Qed.

Lemma hrp_expand_digits hrp : Forall (digit 5) (hrp_expand hrp).
Proof.
  unfold hrp_expand. pose proof (as_bytes_ok hrp) as H.
  rewrite !Forall_app, !Forall_map. split_and!.
  - eapply Forall_impl; [exact H|]. intros b [? ?]. unfold digit.
    rewrite Z.shiftr_div_pow2 by lia. Z.to_euclidean_division_equations; lia.
  - apply Forall_singleton. unfold digit. lia.
  - eapply Forall_impl; [exact H|]. intros b [? ?]. change 31 with (Z.ones 5).
    rewrite Z.land_ones by lia. apply Z.mod_pos_bound. lia.
Qed.

(** Every address the encoders produce verifies under BIP 173: the
    polynomial checksum over the expanded prefix, the data and the appended six
    characters is one. *)
Theorem checksum_verifies hrp data5 :
  Forall (digit 5) data5 ->
  polymod (hrp_expand hrp ++ data5 ++ checksum hrp data5) = 1.
Proof.
  intros Hd. unfold checksum. set (zeros := [0; 0; 0; 0; 0; 0]).
  set (p0 := polymod (hrp_expand hrp ++ data5 ++ zeros)).
  assert (Hp0 : digit 30 p0).
  { apply polymod_bound. rewrite !Forall_app. split_and!; [apply hrp_expand_digits|done|].
    repeat constructor; unfold digit; lia. }
  destruct (six_groups (Z.lxor p0 1)) as [Hc Hval].
  { apply lxor_bound; [lia|done|unfold digit; lia]. }
  set (c := map _ _) in *.
  assert (Hz : zip_with Z.lxor zeros c = c) by reflexivity.
  set (st := fold_left polymod_step data5 (polymod (hrp_expand hrp))).
  assert (Hst : p0 = fold_left polymod_step zeros st)
    by (unfold p0, st, polymod; by rewrite !fold_left_app).
  assert (polymod (hrp_expand hrp ++ data5 ++ c) = fold_left polymod_step c st) as ->
    by (unfold st, polymod; by rewrite !fold_left_app).
  rewrite <- Hz, <- (Z.lxor_0_r st), fold_polymod_lxor by done.
  rewrite polymod_six, Hval, <- Hst by done.
  by rewrite <- Z.lxor_assoc, Z.lxor_nilpotent.
Qed.

(* ------------------------------------------------------------------ *)
(** ** Addresses as strings *)

Lemma digit5_cases (P : Z -> bool) d :
  forallb P (seqZ 0 32) = true -> digit 5 d -> P d = true.
Proof.
  intros HP [H1 H2]. apply (forallb_forall P (seqZ 0 32)); [done|].
  apply list_elem_of_In, elem_of_seqZ. lia.
Qed.

Lemma charset_find_at d : digit 5 d -> charset_find (charset_at d) = Some d.
Proof.
  intros Hd. apply (digit5_cases (fun d => bool_decide (charset_find (charset_at d) = Some d))) in Hd;
    [by apply bool_decide_eq_true in Hd|vm_compute; reflexivity].
Qed.

Lemma charset_at_alnum d : digit 5 d -> is_alnum (charset_at d) = true.
Proof. apply (digit5_cases (fun d => is_alnum (charset_at d))). vm_compute. reflexivity. Qed.

Lemma charset_at_not_sep d : digit 5 d -> charset_at d <> 49.
Proof.
  intros Hd. apply (digit5_cases (fun d => negb (charset_at d =? 49))) in Hd;
    [by bool_inv|vm_compute; reflexivity].
Qed.

Lemma alnum_byte b : is_alnum b = true -> is_byte b.
Proof.
  unfold is_alnum, is_lower, is_digit, is_byte. rewrite orb_true_iff.
  intros [?|?]; bool_inv; lia.
Qed.

Lemma charset_bytes_ok l : Forall (digit 5) l -> bytes_ok (map charset_at l).
Proof.
  intros H. apply Forall_map. eapply Forall_impl; [exact H|].
  intros d Hd. simpl. by apply alnum_byte, charset_at_alnum.
Qed.

Lemma checksum_digits hrp data5 :
  Forall (digit 5) data5 -> Forall (digit 5) (checksum hrp data5).
Proof.
  intros Hd. apply six_groups, lxor_bound; [lia| |unfold digit; lia].
  apply polymod_bound. rewrite !Forall_app. split_and!; [apply hrp_expand_digits|done|].
  repeat constructor; unfold digit; lia.
Qed.

Lemma length_checksum hrp data5 : length (checksum hrp data5) = 6%nat.
Proof. done. Qed.

Lemma to_base32_digits program : bytes_ok program -> Forall (digit 5) (to_base32 program).
Proof. intros Hp. by destruct (to_base32_spec program Hp) as (? & ? & ? & ?). Qed.

(** The bytes of an encoded address. *)
Lemma segwit_encode_bytes hrp v program :
  digit 5 v -> bytes_ok program ->
  as_bytes (segwit_encode hrp v program) =
    as_bytes hrp ++ 49 :: map charset_at
      ((v :: to_base32 program) ++ checksum hrp (v :: to_base32 program)).
Proof.
  intros Hv Hp. unfold segwit_encode. rewrite as_bytes_of_bytes; [done|].
  assert (Forall (digit 5) (v :: to_base32 program))
    by (constructor; [done|by apply to_base32_digits]).
  rewrite !Forall_app. split_and!; [apply as_bytes_ok| |].
  - apply Forall_singleton. unfold is_byte. lia.
  - apply charset_bytes_ok. apply Forall_app_2; [done|]. by apply checksum_digits.
Qed.

Lemma after_last_app sep pre l : ~ In sep l -> after_last sep (pre ++ sep :: l) = Some l.
Proof.
  intros Hl. assert (Hn : after_last sep l = None).
  { clear pre. induction l as [|x l IH]; simpl; [done|].
    rewrite IH by (intros ?; apply Hl; by right).
    destruct (Z.eqb_spec x sep); [|done]. subst. exfalso. apply Hl. by left. }
  induction pre as [|x pre IH]; simpl; [by rewrite Hn, Z.eqb_refl|]. by rewrite IH.
Qed.

Lemma filter_map_charset l :
  Forall (digit 5) l -> filter_map charset_find (map charset_at l) = l.
Proof.
  induction 1 as [|d l Hd _ IH]; simpl; [done|]. by rewrite charset_find_at, IH.
Qed.

Lemma charset_ascii l : Forall (digit 5) l -> Forall (fun c => c < 128) (map charset_at l).
Proof.
  intros H. apply Forall_map. eapply Forall_impl; [exact H|]. intros d Hd. simpl.
  by apply is_alnum_ascii, charset_at_alnum.
Qed.

(** Round trip: the witness program the RPC proxy extracts from an
    encoded address is the program that was encoded, whatever the prefix, the
    witness version and the length of the program. *)
Theorem decode_encode_program hrp v program :
  digit 5 v -> bytes_ok program -> program <> [] ->
  decode_bech32_program (segwit_encode hrp v program) = Some program.
Proof.
  intros Hv Hp Hne. unfold decode_bech32_program. rewrite segwit_encode_bytes by done.
  set (d := v :: to_base32 program).
  assert (Hd : Forall (digit 5) d) by (constructor; [done|by apply to_base32_digits]).
  assert (Hall : Forall (digit 5) (d ++ checksum hrp d))
    by (apply Forall_app_2; [done|by apply checksum_digits]).
  rewrite after_last_app.
  2:{ intros (x & Hx & Hin)%in_map_iff. rewrite Forall_forall in Hall.
      apply (charset_at_not_sep x); [|done]. apply Hall. by apply list_elem_of_In. }
  rewrite ascii_chars_of by (by apply charset_ascii). rewrite filter_map_charset by done.
  rewrite length_app, length_checksum.
  assert (0 < Z.of_nat (length (to_base32 program))).
  { rewrite length_to_base32 by done. destruct program; [done|]. simpl length.
    apply Z.div_str_pos. lia. }
  destruct (Nat.leb_spec (length d + 6) 7) as [Hle|_]; [subst d; simpl in Hle; lia|].
  change (drop 1 (d ++ checksum hrp d)) with (to_base32 program ++ checksum hrp d).
  change (length d) with (S (length (to_base32 program))).
  replace (S (length (to_base32 program)) + 6 - 7)%nat with (length (to_base32 program)) by lia.
  by rewrite take_app_length, of_to_base32.
Qed.
