(* ===== verification/Addresses.v ===== *)
(** * Bitcoin addresses and scripts

    The node derives addresses from public keys
    (nearcore/core/crypto/src/bitcoin_utils.rs); the RPC proxy derives them too
    (tx_translator.rs), and turns addresses into scriptPubKeys
    (main.rs, utxo_synth.rs of bitinfinity-btcrpc). *)

From S2P Require Import Prelude Crates AccountId Bech32.

(* ------------------------------------------------------------------ *)
(** ** String helpers *)

Definition hex_digit (d : Z) : Z := if d <? 10 then 48 + d else 87 + d.

(** [hex::encode]. *)
Definition hex_encode (b : list Z) : string :=
  of_bytes (flat_map (fun x => [hex_digit (x / 16); hex_digit (x mod 16)]) b).

(** [str::to_lowercase] on the ASCII strings Base58 produces. *)
Definition to_lowercase (s : string) : string :=
  of_bytes (map (fun b => if (65 <=? b) && (b <=? 90) then b + 32 else b) (as_bytes s)).

Definition ends_with (suf s : string) : bool :=
  bool_decide (as_bytes suf `suffix_of` as_bytes s).

(** [&s[from..]] and [&s[from..to]]. *)
Definition slice_from (from : nat) (s : string) : string := of_bytes (drop from (as_bytes s)).
Definition slice (from to : nat) (s : string) : string :=
  of_bytes (take (to - from) (drop from (as_bytes s))).

(* ------------------------------------------------------------------ *)
(** ** Derivation from a public key (node) *)

(** The compressed form of a 64-byte key: parity of Y, then X. *)
Definition compress (pubkey : list Z) : list Z :=
  let prefix := if Z.land (nth 63 pubkey 0) 1 =? 0 then 0x02 else 0x03 in
  prefix :: take 32 pubkey.

Section derive.
Context {C : Crates}.

Definition hash160 (b : list Z) : list Z := ripemd160 (sha256 b).

(** A payload followed by the first four bytes of its double hash. *)
Definition base58check (versioned : list Z) : string :=
  bs58_encode (versioned ++ take 4 (sha256 (sha256 versioned))).

Definition derive_bitcoin_address_from_pubkey (pubkey : list Z) : string :=
  base58check (0x00 :: hash160 (compress pubkey)).

Definition bitcoin_utils_bech32_encode : string -> Z -> list Z -> string := segwit_encode.

Definition derive_bitcoin_p2wpkh_from_pubkey (pubkey : list Z) : string :=
  bitcoin_utils_bech32_encode "bc" 0 (hash160 (compress pubkey)).

Definition derive_all_bitcoin_addresses (pubkey : list Z) : list string :=
  let p2pkh := derive_bitcoin_address_from_pubkey pubkey in
  let p2wpkh := derive_bitcoin_p2wpkh_from_pubkey pubkey in
  let p2pkh_legacy := to_lowercase p2pkh in
  if bool_decide (p2pkh_legacy = p2pkh) then [p2pkh; p2wpkh] else [p2pkh; p2wpkh; p2pkh_legacy].

(* ------------------------------------------------------------------ *)
(** ** Derivation from a public key (RPC proxy, tx_translator.rs) *)

Definition p2pkh_version_byte (bech32_hrp : string) : Z :=
  if bool_decide (bech32_hrp = "bc"%string) then 0x00 else 0x6F.

Definition pubkey_to_p2pkh_address (pubkey : list Z) (version_byte : Z) : string :=
  to_lowercase (base58check (version_byte :: hash160 pubkey)).

Definition bech32_encode_local : string -> Z -> list Z -> string := segwit_encode.

Definition pubkey_to_p2wpkh_address (pubkey : list Z) (bech32_hrp : string) : string :=
  bech32_encode_local bech32_hrp 0 (hash160 pubkey).

(* ------------------------------------------------------------------ *)
(** ** scriptPubKey (RPC proxy, main.rs) *)

Definition rpc_bech32_encode : string -> Z -> list Z -> string := segwit_encode.

Definition hash_script (addr : string) (pre post : string) : string :=
  match bs58_decode addr with
  | Some decoded =>
      if (25 <=? length decoded)%nat
      then pre +:+ hex_encode (take 20 (drop 1 decoded)) +:+ post
      else ""
  | None => ""
  end.

Definition derive_script_pub_key_hex (addr bech32_hrp : string) : string :=
  let bech32_q := bech32_hrp +:+ "1q" in
  let bech32_p := bech32_hrp +:+ "1p" in
  if starts_with bech32_q addr || starts_with bech32_p addr then
    let prefix_len := if starts_with bech32_q addr then String.length bech32_q
                      else String.length bech32_p in
    let witness_version := if starts_with bech32_p addr then 1 else 0 in
    let data_part := drop prefix_len (as_bytes addr) in
    let data5 := filter_map charset_find (chars_of data_part) in
    if (6 <? length data5)%nat then
      let program := of_base32 (take (length data5 - 6) data5) in
      if (length program =? 20)%nat then
        hex_encode [witness_version] +:+ "14" +:+ hex_encode program
      else if (length program =? 32)%nat then
        hex_encode [witness_version] +:+ "20" +:+ hex_encode program
      else ""
    else ""
  else if starts_with "1" addr || starts_with "m" addr || starts_with "n" addr then
    hash_script addr "76a914" "88ac"
  else if starts_with "3" addr || starts_with "2" addr then
    hash_script addr "a914" "87"
  else "".

Definition derive_script_pub_key_asm (addr bech32_hrp : string) : string :=
  let bech32_q := bech32_hrp +:+ "1q" in
  let bech32_p := bech32_hrp +:+ "1p" in
  let asm pre post :=
    match bs58_decode addr with
    | Some decoded =>
        if (25 <=? length decoded)%nat
        then pre +:+ hex_encode (take 20 (drop 1 decoded)) +:+ post else ""
    | None => ""
    end in
  if starts_with bech32_q addr then
    let hex := derive_script_pub_key_hex addr bech32_hrp in
    if 44 <=? str_len hex then "0 " +:+ slice_from 4 hex else ""
  else if starts_with bech32_p addr then
    let hex := derive_script_pub_key_hex addr bech32_hrp in
    if 68 <=? str_len hex then "1 " +:+ slice_from 4 hex else ""
  else if starts_with "3" addr || starts_with "2" addr then
    asm "OP_HASH160 " " OP_EQUAL"
  else asm "OP_DUP OP_HASH160 " " OP_EQUALVERIFY OP_CHECKSIG".

Definition classify_script_pub_key_hex (hex_str : string) : string * string :=
  if bool_decide (hex_str = ""%string) then ("nonstandard", "")%string
  else if starts_with "0014" hex_str && (str_len hex_str =? 44) then
    ("witness_v0_keyhash", "0 " +:+ slice_from 4 hex_str)%string
  else if starts_with "0020" hex_str && (str_len hex_str =? 68) then
    ("witness_v0_scripthash", "0 " +:+ slice_from 4 hex_str)%string
  else if starts_with "5120" hex_str && (str_len hex_str =? 68) then
    ("witness_v1_taproot", "1 " +:+ slice_from 4 hex_str)%string
  else if starts_with "76a914" hex_str && ends_with "88ac" hex_str && (str_len hex_str =? 50) then
    ("pubkeyhash",
     "OP_DUP OP_HASH160 " +:+ slice 6 46 hex_str +:+ " OP_EQUALVERIFY OP_CHECKSIG")%string
  else if starts_with "a914" hex_str && ends_with "87" hex_str && (str_len hex_str =? 46) then
    ("scripthash", "OP_HASH160 " +:+ slice 4 44 hex_str +:+ " OP_EQUAL")%string
  else if starts_with "6a" hex_str then
    ("nulldata", "OP_RETURN " +:+ slice_from 2 hex_str)%string
  else ("nonstandard", hex_str)%string.

(* ------------------------------------------------------------------ *)
(** ** Synthetic UTXOs (RPC proxy, utxo_synth.rs) *)

Definition deterministic_txid (account_id : string) : string :=
  hex_encode (sha256 (sha256 (as_bytes "bitinfinity-utxo:" ++ as_bytes account_id))).

Definition account_to_pubkey_hash (account_id : string) : list Z :=
  take 20 (sha256 (as_bytes account_id)).

(** Each [if] of the source falls through to the next when its decoding fails. *)
Definition derive_script_pub_key (account_id : string) : string :=
  let program := decode_bech32_program account_id in
  let v0 := starts_with "bc1q" account_id || starts_with "tb1q" account_id
            || starts_with "bcrt1q" account_id in
  let v1 := starts_with "bc1p" account_id || starts_with "tb1p" account_id
            || starts_with "bcrt1p" account_id in
  let p2sh := starts_with "3" account_id || starts_with "2" account_id in
  let p2pkh := starts_with "1" account_id || starts_with "m" account_id
               || starts_with "n" account_id in
  let decoded := match bs58_decode account_id with
                 | Some d => if (25 <=? length d)%nat then Some d else None
                 | None => None
                 end in
  let step1 := match program with
               | Some p => if v0 && (length p =? 20)%nat
                           then Some ("0014" +:+ hex_encode p) else None
               | None => None end in
  let step2 := match program with
               | Some p => if v1 && (length p =? 32)%nat
                           then Some ("5120" +:+ hex_encode p) else None
               | None => None end in
  let step3 := match decoded with
               | Some d => if p2sh
                           then Some ("a914" +:+ hex_encode (take 20 (drop 1 d)) +:+ "87")
                           else None
               | None => None end in
  let step4 := match decoded with
               | Some d => if p2pkh
                           then Some ("76a914" +:+ hex_encode (take 20 (drop 1 d)) +:+ "88ac")
                           else None
               | None => None end in
  match step1, step2, step3, step4 with
  | Some s, _, _, _ => s
  | None, Some s, _, _ => s
  | None, None, Some s, _ => s
  | None, None, None, Some s => s
  | None, None, None, None =>
      "76a914" +:+ hex_encode (account_to_pubkey_hash account_id) +:+ "88ac"
  end.

Definition derive_script_pub_key_address (pubkey_hash : list Z) (bech32_hrp : string) : string :=
  if negb (length pubkey_hash =? 20)%nat then ""
  else segwit_encode bech32_hrp 0 pubkey_hash.
End derive.

(* ------------------------------------------------------------------ *)
(** ** Lemmas *)

Lemma starts_with_app p s rest : as_bytes s = as_bytes p ++ rest -> starts_with p s = true.
Proof.
  intros E. unfold starts_with. rewrite E, <- length_as_bytes, take_app_length.
  by apply bool_decide_true.
Qed.

Lemma starts_with_false p s :
  take (String.length p) (as_bytes s) <> as_bytes p -> starts_with p s = false.
Proof. intros. by apply bool_decide_false. Qed.

(** Lower case, byte by byte. *)
Definition lower_byte (b : Z) : Z := if (65 <=? b) && (b <=? 90) then b + 32 else b.

Lemma as_bytes_lowercase s : as_bytes (to_lowercase s) = map lower_byte (as_bytes s).
Proof.
  unfold to_lowercase. fold lower_byte. apply as_bytes_of_bytes. pose proof (as_bytes_ok s) as H. apply Forall_map.
  eapply Forall_impl; [exact H|]. intros b Hb. unfold is_byte, lower_byte in *. destruct (_ && _) eqn:E; [|done]. bool_inv. lia.
Qed.

Lemma lowercase_idem s : to_lowercase (to_lowercase s) = to_lowercase s.
Proof.
  apply as_bytes_inj. rewrite !as_bytes_lowercase, map_map. apply map_ext. intros b. unfold lower_byte.
  destruct (Z.leb_spec 65 b), (Z.leb_spec b 90); simpl; destruct (Z.leb_spec 65 (b + 32)), (Z.leb_spec (b + 32) 90); simpl;
    repeat case_match; bool_inv; lia.
Qed.

(** A prefix of one character that is no letter. *)
Lemma starts_with_lowercase p c s : as_bytes p = [c] -> 0 <= c < 65 ->
  starts_with p (to_lowercase s) = starts_with p s.
Proof.
  intros Hp Hc. unfold starts_with. rewrite <- length_as_bytes, Hp, as_bytes_lowercase. apply bool_decide_ext.
  destruct (as_bytes s) as [|b l]; simpl; rewrite ?take_0; [done|]. unfold lower_byte.
  destruct (Z.leb_spec 65 b); destruct (Z.leb_spec b 90); simpl; split; intros [= Hb]; f_equal; lia.
Qed.

Lemma hex_digit_byte d : 0 <= d < 16 -> is_byte (hex_digit d).
Proof. unfold hex_digit, is_byte. intros. destruct (Z.ltb_spec d 10); lia. Qed.

Lemma hex_encode_bytes b :
  bytes_ok b ->
  as_bytes (hex_encode b) = flat_map (fun x => [hex_digit (x / 16); hex_digit (x mod 16)]) b.
Proof.
  intros Hb. unfold hex_encode. apply as_bytes_of_bytes.
  induction Hb as [|x b [Hx1 Hx2] _ IH]; simpl; [constructor|].
  constructor; [|constructor; [|done]]; apply hex_digit_byte;
    Z.to_euclidean_division_equations; lia.
Qed.

Lemma hex_encode_len b : bytes_ok b -> str_len (hex_encode b) = 2 * vec_len b.
Proof.
  intros Hb. rewrite <- length_as_bytes_Z, hex_encode_bytes by done. unfold vec_len. clear Hb.
  induction b; simpl length; lia.
Qed.

Lemma str_len_app s t : str_len (s +:+ t) = str_len s + str_len t.
Proof. rewrite <- !length_as_bytes_Z, as_bytes_app, length_app. lia. Qed.

Lemma slice_from_app p s : slice_from (String.length p) (p +:+ s) = s.
Proof.
  unfold slice_from. rewrite as_bytes_app, <- length_as_bytes, drop_app_length.
  apply of_bytes_as_bytes.
Qed.

Section segwit.
Context {C : Crates}.
Implicit Types (program : list Z) (hrp : string).

(** An encoded address starts with the prefix, the separator and the version
    character. *)
Lemma segwit_encode_version hrp v program :
  digit 5 v -> bytes_ok program ->
  as_bytes (segwit_encode hrp v program) =
    as_bytes hrp ++ [49; charset_at v] ++
      map charset_at (to_base32 program ++ checksum hrp (v :: to_base32 program)).
Proof. intros. by rewrite segwit_encode_bytes. Qed.

Lemma segwit_encode_len hrp v program :
  digit 5 v -> bytes_ok program ->
  str_len (segwit_encode hrp v program) =
    str_len hrp + 8 + (8 * vec_len program + 4) / 5.
Proof.
  intros Hv Hp. rewrite <- !length_as_bytes_Z, segwit_encode_version by done.
  rewrite !length_app, length_map, length_app, length_checksum. simpl length.
  pose proof (length_to_base32 program Hp). unfold vec_len in *. lia.
Qed.

Lemma segwit_alnum hrp v program :
  digit 5 v -> bytes_ok program -> forallb is_alnum (as_bytes hrp) = true ->
  forallb is_alnum (as_bytes (segwit_encode hrp v program)) = true.
Proof.
  intros Hv Hp Hh. rewrite segwit_encode_bytes by done. rewrite forallb_app, Hh. simpl.
  assert (Hd : Forall (digit 5) (v :: to_base32 program))
    by (constructor; [done|by apply to_base32_digits]).
  rewrite (charset_at_alnum v Hv). simpl.
  apply forallb_forall. intros c (d & <- & Hin)%in_map_iff. apply charset_at_alnum.
  apply in_app_or in Hin as [Hin|Hin]; apply list_elem_of_In in Hin.
  - inversion_clear Hd as [|? ? _ H']. by eapply Forall_forall in H'.
  - pose proof (checksum_digits hrp _ Hd) as H'. by eapply Forall_forall in H'.
Qed.

(** The SegWit address the node derives from any public key is an account
    identifier the chain accepts: 42 characters starting with [bc1q], valid, and
    classified as a Bitcoin account, so that a first transaction signed by the
    key can be matched to it.  No property of the Bech32 crate is needed. *)
Theorem p2wpkh_is_bitcoin_account (HL : HashLaws C) pubkey :
  let addr := derive_bitcoin_p2wpkh_from_pubkey pubkey in
  str_len addr = 42 /\ starts_with "bc1q" addr = true
  /\ validate addr = Ok tt /\ get_account_type addr = BtcImplicitAccount
  /\ addr ∈ derive_all_bitcoin_addresses pubkey.
Proof.
  intros addr. set (h := hash160 (compress pubkey)).
  assert (Hh : bytes_ok h) by apply ripemd160_ok.
  assert (H20 : vec_len h = 20) by (unfold vec_len, h, hash160; by rewrite ripemd160_len).
  assert (Hlen : str_len addr = 42).
  { unfold addr, derive_bitcoin_p2wpkh_from_pubkey, bitcoin_utils_bech32_encode.
    rewrite segwit_encode_len by (done || unfold digit; lia). fold h. by rewrite H20. }
  assert (Hstart : starts_with "bc1q" addr = true).
  { unfold addr, derive_bitcoin_p2wpkh_from_pubkey, bitcoin_utils_bech32_encode.
    eapply starts_with_app. rewrite segwit_encode_version by (done || unfold digit; lia).
    reflexivity. }
  assert (Hbtc : is_bitcoin_implicit addr = true).
  { unfold is_bitcoin_implicit, is_legacy_lowercased_bitcoin. rewrite Hlen, Hstart.
    apply orb_true_intro; right. simpl.
    apply (segwit_alnum "bc" 0 h); [unfold digit; lia|done|reflexivity]. }
  split_and!; [done..| | |].
  - unfold validate. rewrite Hlen, Hbtc. reflexivity.
  - unfold get_account_type. by rewrite Hbtc.
  - unfold derive_all_bitcoin_addresses. case_bool_decide; set_solver.
Qed.

(** Two characters after the prefix tell the versions apart. *)
Lemma segwit_starts_with hrp v program x :
  digit 5 v -> bytes_ok program -> length (as_bytes x) = 2%nat ->
  starts_with (hrp +:+ x) (segwit_encode hrp v program)
    = bool_decide (as_bytes x = [49; charset_at v]).
Proof.
  intros Hv Hp Hx. unfold starts_with. apply bool_decide_ext.
  rewrite segwit_encode_version, <- length_as_bytes, as_bytes_app, length_app, Hx by done.
  rewrite (assoc_L (++)). change 2%nat with (length [49; charset_at v]).
  rewrite <- length_app, take_app_length. split; [|by intros ->].
  intros H%app_inv_head. by symmetry.
Qed.

(** The groups read after the prefix are the program's and the checksum's. *)
Lemma segwit_data5 hrp v program x :
  digit 5 v -> bytes_ok program -> length (as_bytes x) = 2%nat ->
  filter_map charset_find
    (chars_of (drop (String.length (hrp +:+ x)) (as_bytes (segwit_encode hrp v program))))
  = to_base32 program ++ checksum hrp (v :: to_base32 program).
Proof.
  intros Hv Hp Hx.
  rewrite segwit_encode_version, <- length_as_bytes, as_bytes_app, length_app, Hx by done.
  rewrite (assoc_L (++)). change 2%nat with (length [49; charset_at v]).
  rewrite <- length_app, drop_app_length.
  assert (Hdig : Forall (digit 5) (to_base32 program ++ checksum hrp (v :: to_base32 program))).
  { apply Forall_app_2; [by apply to_base32_digits|].
    apply checksum_digits. constructor; [done|by apply to_base32_digits]. }
  rewrite ascii_chars_of by (by apply charset_ascii). by apply filter_map_charset.
Qed.

(** The script derivation of main.rs on an encoded address. *)
Lemma derive_hex_segwit hrp v program :
  v = 0 \/ v = 1 -> bytes_ok program ->
  derive_script_pub_key_hex (segwit_encode hrp v program) hrp =
    if (length program =? 20)%nat then hex_encode [v] +:+ "14" +:+ hex_encode program
    else if (length program =? 32)%nat then hex_encode [v] +:+ "20" +:+ hex_encode program
    else ""%string.
Proof.
  intros Hv Hp. assert (Hd : digit 5 v) by (unfold digit; lia).
  unfold derive_script_pub_key_hex. rewrite !segwit_starts_with by done.
  replace (drop _ _) with (drop (String.length (hrp +:+ "1q")) (as_bytes (segwit_encode hrp v program)))
    by (f_equal; rewrite <- !length_as_bytes, !as_bytes_app, !length_app; by case_bool_decide).
  rewrite segwit_data5, length_app, length_checksum by done.
  rewrite Nat.add_sub, take_app_length, of_to_base32 by done.
  assert (Hlen : (6 <? length (to_base32 program) + 6)%nat = false -> length program = 0%nat).
  { intros Hle%Nat.ltb_ge. pose proof (length_to_base32 program Hp) as Hl.
    Z.to_euclidean_division_equations; lia. }
  destruct (6 <? _)%nat; [|rewrite (Hlen eq_refl)]; destruct Hv as [-> | ->]; done.
Qed.

(** The script derivation of utxo_synth.rs, for the three networks' prefixes. *)
Lemma derive_synth_segwit hrp v program :
  In hrp ["bc"; "tb"; "bcrt"]%string -> bytes_ok program ->
  (v = 0 /\ length program = 20%nat) \/ (v = 1 /\ length program = 32%nat) ->
  derive_script_pub_key (segwit_encode hrp v program) =
    if v =? 0 then "0014" +:+ hex_encode program else "5120" +:+ hex_encode program.
Proof.
  intros Hh Hp Hv. assert (Hd : digit 5 v) by (unfold digit; lia).
  assert (Hne : program <> []) by (intros ->; simpl in Hv; lia).
  unfold derive_script_pub_key. rewrite decode_encode_program by done.
  assert (Hs : forall h c, In h ["bc"; "tb"; "bcrt"]%string -> h = hrp ->
    starts_with (h +:+ "1" +:+ c) (segwit_encode hrp v program)
      = starts_with (hrp +:+ ("1" +:+ c)) (segwit_encode hrp v program)) by (by intros h c _ ->).
  destruct Hv as [[-> Hl] | [-> Hl]]; rewrite Hl.
  - assert ((starts_with "bc1q" (segwit_encode hrp 0 program)
      || starts_with "tb1q" (segwit_encode hrp 0 program)
      || starts_with "bcrt1q" (segwit_encode hrp 0 program)) = true) as ->; [|done].
    destruct Hh as [<- | [<- | [<- | []]]].
    + change "bc1q"%string with ("bc" +:+ "1q")%string. by rewrite segwit_starts_with.
    + change "tb1q"%string with ("tb" +:+ "1q")%string.
      rewrite (segwit_starts_with "tb") by done. by rewrite orb_true_r.
    + change "bcrt1q"%string with ("bcrt" +:+ "1q")%string.
      rewrite (segwit_starts_with "bcrt") by done. by rewrite orb_true_r.
  - rewrite andb_false_r.
    assert ((starts_with "bc1p" (segwit_encode hrp 1 program)
      || starts_with "tb1p" (segwit_encode hrp 1 program)
      || starts_with "bcrt1p" (segwit_encode hrp 1 program)) = true) as ->; [|done].
    destruct Hh as [<- | [<- | [<- | []]]].
    + change "bc1p"%string with ("bc" +:+ "1p")%string. by rewrite segwit_starts_with.
    + change "tb1p"%string with ("tb" +:+ "1p")%string.
      rewrite (segwit_starts_with "tb") by done. by rewrite orb_true_r.
    + change "bcrt1p"%string with ("bcrt" +:+ "1p")%string.
      rewrite (segwit_starts_with "bcrt") by done. by rewrite orb_true_r.
Qed.

(** Classification by a four-character prefix. *)
Lemma starts_with_lit p s : starts_with p (p +:+ s) = true.
Proof. apply (starts_with_app _ _ (as_bytes s)). apply as_bytes_app. Qed.

Lemma classify_keyhash program :
  bytes_ok program -> length program = 20%nat ->
  classify_script_pub_key_hex ("0014" +:+ hex_encode program)
    = ("witness_v0_keyhash", "0 " +:+ hex_encode program)%string.
Proof.
  intros Hp Hl. unfold classify_script_pub_key_hex. rewrite bool_decide_false by done.
  rewrite starts_with_lit, str_len_app, hex_encode_len by done. unfold vec_len. rewrite Hl.
  simpl (_ && _). cbv iota. by rewrite (slice_from_app "0014").
Qed.

(** For every 20-byte key hash and each network prefix the two script
    derivations of the RPC proxy agree with each other and with BIP 141: the
    scriptPubKey of the SegWit address is the bytes 00 14 and the hash, and it is
    classified as a version-0 key hash whose assembly shows that hash. *)
Theorem p2wpkh_scripts_agree hrp program :
  In hrp ["bc"; "tb"; "bcrt"]%string -> bytes_ok program -> length program = 20%nat ->
  let addr := derive_script_pub_key_address program hrp in
  derive_script_pub_key_hex addr hrp = ("0014" +:+ hex_encode program)%string
  /\ derive_script_pub_key addr = ("0014" +:+ hex_encode program)%string
  /\ classify_script_pub_key_hex (derive_script_pub_key addr)
     = ("witness_v0_keyhash", "0 " +:+ hex_encode program)%string.
Proof.
  intros Hh Hp Hl addr. unfold addr, derive_script_pub_key_address. rewrite Hl. simpl negb. cbv iota.
  assert (derive_script_pub_key (segwit_encode hrp 0 program) = ("0014" +:+ hex_encode program)%string)
    as -> by (rewrite derive_synth_segwit; auto).
  split_and!; [|done|by apply classify_keyhash].
  rewrite derive_hex_segwit by auto. by rewrite Hl.
Qed.

(** For taproot addresses (witness version 1, 32-byte program) the two
    derivations differ: utxo_synth.rs gives the standard script starting with 51 20,
    which is classified as taproot, while main.rs writes the version byte itself
    and gives 01 20, which its own classifier calls nonstandard. *)
Theorem taproot_scripts_differ hrp program :
  In hrp ["bc"; "tb"; "bcrt"]%string -> bytes_ok program -> length program = 32%nat ->
  let addr := segwit_encode hrp 1 program in
  derive_script_pub_key addr = ("5120" +:+ hex_encode program)%string
  /\ derive_script_pub_key_hex addr hrp = ("0120" +:+ hex_encode program)%string
  /\ (classify_script_pub_key_hex (derive_script_pub_key addr)).1 = "witness_v1_taproot"%string
  /\ (classify_script_pub_key_hex (derive_script_pub_key_hex addr hrp)).1 = "nonstandard"%string.
Proof.
  intros Hh Hp Hl addr. unfold addr.
  assert (Hs : derive_script_pub_key (segwit_encode hrp 1 program) = ("5120" +:+ hex_encode program)%string)
    by (rewrite derive_synth_segwit; auto).
  assert (Hx : derive_script_pub_key_hex (segwit_encode hrp 1 program) hrp
               = ("0120" +:+ hex_encode program)%string)
    by (rewrite derive_hex_segwit by auto; by rewrite Hl).
  assert (Hlen : forall p, str_len (p +:+ hex_encode program) = str_len p + 64)
    by (intros; rewrite str_len_app, hex_encode_len by done; unfold vec_len; by rewrite Hl).
  rewrite Hs, Hx. split_and!; [done..| |].
  - unfold classify_script_pub_key_hex. rewrite bool_decide_false by done.
    rewrite starts_with_lit, Hlen. done.
  - unfold classify_script_pub_key_hex. rewrite bool_decide_false by done.
    assert (Hpre : forall p, (String.length p <= 4)%nat ->
      starts_with p ("0120" +:+ hex_encode program) =
      bool_decide (take (String.length p) (as_bytes "0120") = as_bytes p)).
    { intros p Hlp. unfold starts_with. rewrite as_bytes_app, take_app_le; [done|].
      rewrite length_as_bytes. done. }
    rewrite !Hpre by (vm_compute; lia).
    assert (starts_with "76a914" ("0120" +:+ hex_encode program) = false) as ->
      by (by apply starts_with_false; rewrite as_bytes_app).
    done.
Qed.
End segwit.

(* ------------------------------------------------------------------ *)
(** ** The theorems at concrete inputs *)

Section witnesses.
#[local] Existing Instance Toy.crates.

Lemma checksum_verifies_witness :
  polymod (hrp_expand "bc" ++ [0; 1; 31] ++ checksum "bc" [0; 1; 31]) = 1.
Proof. apply checksum_verifies. repeat constructor; vm_compute; congruence. Defined.

Definition sample_program (n : nat) : list Z := map (fun i => (Z.of_nat i * 37 + 5) mod 256) (seq 0 n).

Lemma sample_program_ok n : bytes_ok (sample_program n).
Proof.
  apply Forall_map, Forall_forall. intros i _. simpl. unfold is_byte.
  pose proof (Z.mod_pos_bound (Z.of_nat i * 37 + 5) 256). lia.
Qed.

Lemma decode_encode_program_witness :
  decode_bech32_program (segwit_encode "tb" 0 (sample_program 20)) = Some (sample_program 20).
Proof.
  apply decode_encode_program; [vm_compute; intuition congruence|apply sample_program_ok|].
  vm_compute. congruence.
Defined.

Lemma p2wpkh_is_bitcoin_account_witness :
  validate (derive_bitcoin_p2wpkh_from_pubkey (sample_program 64)) = Ok tt.
Proof.
  destruct (p2wpkh_is_bitcoin_account Toy.hash_laws (sample_program 64)) as (_ & _ & H & _).
  exact H.
Defined.

Lemma p2wpkh_scripts_agree_witness :
  derive_script_pub_key_hex (derive_script_pub_key_address (sample_program 20) "bcrt") "bcrt"
    = ("0014" +:+ hex_encode (sample_program 20))%string.
Proof.
  destruct (p2wpkh_scripts_agree "bcrt" (sample_program 20)) as [H _];
    [simpl; tauto|apply sample_program_ok|reflexivity|exact H].
Defined.

Lemma taproot_scripts_differ_witness :
  derive_script_pub_key_hex (segwit_encode "bc" 1 (sample_program 32)) "bc"
    = ("0120" +:+ hex_encode (sample_program 32))%string.
Proof.
  destruct (taproot_scripts_differ "bc" (sample_program 32)) as (_ & H & _);
    [simpl; tauto|apply sample_program_ok|reflexivity|exact H].
Defined.
End witnesses.
