(* ===== verification/Primitives.v ===== *)
(** * Core data of the ledger (nearcore/core/primitives, primitives-core, crypto)

    Accounts, access keys, actions, transactions and receipts, with the
    accessors the runtime uses.  Balances are u128, gas, nonces and storage
    usage u64, all as [Z]; hashes and keys are byte lists. *)

From S2P Require Import Prelude Crates AccountId.

Abbreviation AccountId := string (only parsing).
Abbreviation CryptoHash := (list Z) (only parsing).

(** [CryptoHash::default()]: 32 zero bytes. *)
Definition hash_default : CryptoHash := replicate 32 0.

(* ------------------------------------------------------------------ *)
(** ** Public keys (core/crypto/src/signature.rs) *)

Inductive PublicKey : Type :=
| ED25519 (k : list Z)
| SECP256K1 (k : list Z).

#[export] Instance PublicKey_eq_dec : EqDecision PublicKey.
Proof. solve_decision. Defined.

#[export] Instance PublicKey_countable : Countable PublicKey.
Proof.
  refine (inj_countable'
    (fun k => match k with ED25519 b => inl b | SECP256K1 b => inr b end)
    (fun s => match s with inl b => ED25519 b | inr b => SECP256K1 b end) _).
  by intros [].
Defined.

Definition public_key_len (k : PublicKey) : Z :=
  match k with
  | ED25519 _ => 33
  | SECP256K1 _ => 65
  end.

(** [PublicKey::empty(KeyType::ED25519)]. *)
Definition empty_ed25519 : PublicKey := ED25519 (replicate 32 0).

(* ------------------------------------------------------------------ *)
(** ** Accounts (core/primitives-core/src/account.rs) *)

Inductive AccountContract : Type :=
| ContractNone
| ContractLocal (h : CryptoHash)
| ContractGlobal (h : CryptoHash)
| ContractGlobalByAccount (id : AccountId).

#[export] Instance AccountContract_eq_dec : EqDecision AccountContract.
Proof. solve_decision. Defined.

Definition local_code (c : AccountContract) : option CryptoHash :=
  match c with
  | ContractLocal h => Some h
  | _ => None
  end.

Definition from_local_code_hash (h : CryptoHash) : AccountContract :=
  if bool_decide (h = hash_default) then ContractNone else ContractLocal h.

Definition contract_is_local (c : AccountContract) : bool :=
  match c with
  | ContractLocal _ => true
  | _ => false
  end.

Definition contract_is_none (c : AccountContract) : bool :=
  match c with
  | ContractNone => true
  | _ => false
  end.

Definition identifier_storage_usage (c : AccountContract) : Z :=
  match c with
  | ContractNone | ContractLocal _ => 0
  | ContractGlobal _ => 32
  | ContractGlobalByAccount id => str_len id
  end.

Record AccountV1 : Type := mkAccountV1 {
  v1_amount : Z;
  v1_locked : Z;
  v1_code_hash : CryptoHash;
  v1_storage_usage : Z;
}.

Record AccountV2 : Type := mkAccountV2 {
  v2_amount : Z;
  v2_locked : Z;
  v2_storage_usage : Z;
  v2_contract : AccountContract;
}.

Definition to_v2 (a : AccountV1) : AccountV2 :=
  {| v2_amount := v1_amount a; v2_locked := v1_locked a;
     v2_storage_usage := v1_storage_usage a;
     v2_contract := from_local_code_hash (v1_code_hash a) |}.

Inductive Account : Type :=
| AccV1 (a : AccountV1)
| AccV2 (a : AccountV2).

#[export] Instance AccountV1_eq_dec : EqDecision AccountV1.
Proof. solve_decision. Defined.
#[export] Instance AccountV2_eq_dec : EqDecision AccountV2.
Proof. solve_decision. Defined.
#[export] Instance Account_eq_dec : EqDecision Account.
Proof. solve_decision. Defined.

Definition MAX_ACCOUNT_DELETION_STORAGE_USAGE : Z := 10000.
Definition SERIALIZATION_SENTINEL : Z := u128_max.

(** [Account::new]. *)
Definition account_new (amount locked : Z) (contract : AccountContract) (storage_usage : Z)
    : Account :=
  match contract with
  | ContractNone => AccV1 (mkAccountV1 amount locked hash_default storage_usage)
  | ContractLocal h => AccV1 (mkAccountV1 amount locked h storage_usage)
  | _ => AccV2 (mkAccountV2 amount locked storage_usage contract)
  end.

Definition amount (a : Account) : Z :=
  match a with AccV1 a => v1_amount a | AccV2 a => v2_amount a end.
Definition locked (a : Account) : Z :=
  match a with AccV1 a => v1_locked a | AccV2 a => v2_locked a end.
Definition storage_usage (a : Account) : Z :=
  match a with AccV1 a => v1_storage_usage a | AccV2 a => v2_storage_usage a end.
Definition contract (a : Account) : AccountContract :=
  match a with
  | AccV1 a => from_local_code_hash (v1_code_hash a)
  | AccV2 a => v2_contract a
  end.

Definition local_contract_hash (a : Account) : option CryptoHash :=
  match a with
  | AccV1 a => local_code (from_local_code_hash (v1_code_hash a))
  | AccV2 a => local_code (v2_contract a)
  end.

Definition set_amount (a : Account) (x : Z) : Account :=
  match a with
  | AccV1 a => AccV1 (mkAccountV1 x (v1_locked a) (v1_code_hash a) (v1_storage_usage a))
  | AccV2 a => AccV2 (mkAccountV2 x (v2_locked a) (v2_storage_usage a) (v2_contract a))
  end.

Definition set_locked (a : Account) (x : Z) : Account :=
  match a with
  | AccV1 a => AccV1 (mkAccountV1 (v1_amount a) x (v1_code_hash a) (v1_storage_usage a))
  | AccV2 a => AccV2 (mkAccountV2 (v2_amount a) x (v2_storage_usage a) (v2_contract a))
  end.

Definition set_storage_usage (a : Account) (x : Z) : Account :=
  match a with
  | AccV1 a => AccV1 (mkAccountV1 (v1_amount a) (v1_locked a) (v1_code_hash a) x)
  | AccV2 a => AccV2 (mkAccountV2 (v2_amount a) (v2_locked a) x (v2_contract a))
  end.

Definition set_contract (a : Account) (c : AccountContract) : Account :=
  match a with
  | AccV1 a =>
      match c with
      | ContractNone | ContractLocal _ =>
          AccV1 (mkAccountV1 (v1_amount a) (v1_locked a)
                   (default hash_default (local_code c)) (v1_storage_usage a))
      | _ =>
          let a2 := to_v2 a in
          AccV2 (mkAccountV2 (v2_amount a2) (v2_locked a2) (v2_storage_usage a2) c)
      end
  | AccV2 a => AccV2 (mkAccountV2 (v2_amount a) (v2_locked a) (v2_storage_usage a) c)
  end.

(* ------------------------------------------------------------------ *)
(** ** Access keys *)

Record FunctionCallPermission : Type := mkFunctionCallPermission {
  fcp_allowance : option Z;
  fcp_receiver_id : string;
  fcp_method_names : list string;
}.

Record GasKeyInfo : Type := mkGasKeyInfo {
  gk_balance : Z;
  gk_num_nonces : Z;
}.

Definition MAX_BALANCE_TO_BURN : Z := 10 ^ 24.
Definition MAX_NONCES_FOR_GAS_KEY : Z := 1024.
Definition ACCESS_KEY_NONCE_RANGE_MULTIPLIER : Z := 1000000.

Inductive AccessKeyPermission : Type :=
| PermFunctionCall (p : FunctionCallPermission)
| PermFullAccess
| PermGasKeyFunctionCall (g : GasKeyInfo) (p : FunctionCallPermission)
| PermGasKeyFullAccess (g : GasKeyInfo).

Record AccessKey : Type := mkAccessKey {
  ak_nonce : Z;
  ak_permission : AccessKeyPermission;
}.

#[export] Instance FunctionCallPermission_eq_dec : EqDecision FunctionCallPermission.
Proof. solve_decision. Defined.
#[export] Instance GasKeyInfo_eq_dec : EqDecision GasKeyInfo.
Proof. solve_decision. Defined.
#[export] Instance AccessKeyPermission_eq_dec : EqDecision AccessKeyPermission.
Proof. solve_decision. Defined.
#[export] Instance AccessKey_eq_dec : EqDecision AccessKey.
Proof. solve_decision. Defined.

Definition full_access : AccessKey := mkAccessKey 0 PermFullAccess.

Definition gas_key_info (k : AccessKey) : option GasKeyInfo :=
  match ak_permission k with
  | PermGasKeyFunctionCall g _ | PermGasKeyFullAccess g => Some g
  | _ => None
  end.

(** Writing through [gas_key_info_mut]. *)
Definition set_gas_key_info (k : AccessKey) (g : GasKeyInfo) : AccessKey :=
  match ak_permission k with
  | PermGasKeyFunctionCall _ p => mkAccessKey (ak_nonce k) (PermGasKeyFunctionCall g p)
  | PermGasKeyFullAccess _ => mkAccessKey (ak_nonce k) (PermGasKeyFullAccess g)
  | _ => k
  end.

Definition function_call_permission (p : AccessKeyPermission) : option FunctionCallPermission :=
  match p with
  | PermFunctionCall p | PermGasKeyFunctionCall _ p => Some p
  | _ => None
  end.

(** Writing the allowance through [function_call_permission_mut]. *)
Definition set_allowance (k : AccessKey) (allowance : option Z) : AccessKey :=
  let upd p := mkFunctionCallPermission allowance (fcp_receiver_id p) (fcp_method_names p) in
  match ak_permission k with
  | PermFunctionCall p => mkAccessKey (ak_nonce k) (PermFunctionCall (upd p))
  | PermGasKeyFunctionCall g p => mkAccessKey (ak_nonce k) (PermGasKeyFunctionCall g (upd p))
  | _ => k
  end.

Definition set_nonce (k : AccessKey) (nonce : Z) : AccessKey :=
  mkAccessKey nonce (ak_permission k).

(* ------------------------------------------------------------------ *)
(** ** Actions (core/primitives/src/action) *)

Inductive GlobalContractIdentifier : Type :=
| CodeHash (h : CryptoHash)
| ByAccountId (id : AccountId).

#[export] Instance GlobalContractIdentifier_eq_dec : EqDecision GlobalContractIdentifier.
Proof. solve_decision. Defined.

#[export] Instance GlobalContractIdentifier_countable : Countable GlobalContractIdentifier.
Proof.
  refine (inj_countable'
    (fun i => match i with CodeHash h => inl h | ByAccountId a => inr a end)
    (fun s => match s with inl h => CodeHash h | inr a => ByAccountId a end) _).
  by intros [].
Defined.

Definition global_contract_identifier_len (i : GlobalContractIdentifier) : Z :=
  match i with
  | CodeHash _ => 32
  | ByAccountId id => str_len id
  end.

Inductive GlobalContractDeployMode : Type :=
| DeployCodeHash
| DeployAccountId.

(** [DeterministicAccountStateInit::V1]; the [BTreeMap] is its sorted list of
    entries. *)
Record DeterministicAccountStateInit : Type := mkStateInit {
  si_code : GlobalContractIdentifier;
  si_data : list (list Z * list Z);
}.

Definition len_bytes (s : DeterministicAccountStateInit) : Z :=
  fold_left (fun acc kv => acc + vec_len kv.1 + vec_len kv.2) (si_data s) 0.

Record FunctionCallAction : Type := mkFunctionCall {
  fc_method_name : string;
  fc_args : list Z;
  fc_gas : Z;
  fc_deposit : Z;
}.

Record StakeAction : Type := mkStake {
  sa_stake : Z;
  sa_public_key : PublicKey;
}.

Record AddKeyAction : Type := mkAddKey {
  ad_public_key : PublicKey;
  ad_access_key : AccessKey;
}.

Record DeployGlobalContractAction : Type := mkDeployGlobal {
  dg_code : list Z;
  dg_deploy_mode : GlobalContractDeployMode;
}.

Record DeterministicStateInitAction : Type := mkDeterministic {
  ds_state_init : DeterministicAccountStateInit;
  ds_deposit : Z;
}.

(** The variants of [Action] other than [Delegate].  [NonDelegateAction] is a
    newtype of [Action] whose constructor refuses [Delegate], so delegate
    actions nest one level deep; the two levels are two types here. *)
Inductive NonDelegateAction : Type :=
| CreateAccount
| DeployContract (code : list Z)
| FunctionCall (a : FunctionCallAction)
| Transfer (deposit : Z)
| Stake (a : StakeAction)
| AddKey (a : AddKeyAction)
| DeleteKey (public_key : PublicKey)
| DeleteAccount (beneficiary_id : AccountId)
| DeployGlobalContract (a : DeployGlobalContractAction)
| UseGlobalContract (i : GlobalContractIdentifier)
| DeterministicStateInit (a : DeterministicStateInitAction)
| TransferToGasKey (public_key : PublicKey) (deposit : Z)
| WithdrawFromGasKey (public_key : PublicKey) (amount : Z).

Record DelegateAction : Type := mkDelegate {
  da_sender_id : AccountId;
  da_receiver_id : AccountId;
  da_actions : list NonDelegateAction;
  da_nonce : Z;
  da_max_block_height : Z;
  da_public_key : PublicKey;
}.

(** [Signature]: one of the two key types' signatures. *)
Inductive Signature : Type :=
| SigED25519 (s : list Z)
| SigSECP256K1 (s : list Z).

Record SignedDelegateAction : Type := mkSignedDelegate {
  sd_delegate_action : DelegateAction;
  sd_signature : Signature;
}.

Inductive Action : Type :=
| Plain (a : NonDelegateAction)
| Delegate (d : SignedDelegateAction).

Coercion Plain : NonDelegateAction >-> Action.

(** [DelegateAction::get_actions]. *)
Definition get_actions (d : DelegateAction) : list Action := map Plain (da_actions d).

(** [NonDelegateAction::try_from]. *)
Definition non_delegate_try_from (a : Action) : option NonDelegateAction :=
  match a with
  | Plain a => Some a
  | Delegate _ => None
  end.

Definition get_prepaid_gas (a : Action) : Z :=
  match a with
  | Plain (FunctionCall f) => fc_gas f
  | _ => 0
  end.

Definition get_deposit_balance (a : Action) : Z :=
  match a with
  | Plain (FunctionCall f) => fc_deposit f
  | Plain (Transfer d) => d
  | Plain (DeterministicStateInit i) => ds_deposit i
  | Plain (TransferToGasKey _ d) => d
  | _ => 0
  end.

(* ------------------------------------------------------------------ *)
(** ** Transactions (core/primitives/src/transaction.rs) *)

Inductive TransactionNonce : Type :=
| Nonce (nonce : Z)
| GasKeyNonce (nonce : Z) (nonce_index : Z).

Definition tn_nonce (n : TransactionNonce) : Z :=
  match n with
  | Nonce n => n
  | GasKeyNonce n _ => n
  end.

Definition tn_nonce_index (n : TransactionNonce) : option Z :=
  match n with
  | Nonce _ => None
  | GasKeyNonce _ i => Some i
  end.

Record TransactionV0 : Type := mkTransactionV0 {
  t0_signer_id : AccountId;
  t0_public_key : PublicKey;
  t0_nonce : Z;
  t0_receiver_id : AccountId;
  t0_block_hash : CryptoHash;
  t0_actions : list Action;
}.

Record TransactionV1 : Type := mkTransactionV1 {
  t1_signer_id : AccountId;
  t1_public_key : PublicKey;
  t1_nonce : TransactionNonce;
  t1_receiver_id : AccountId;
  t1_block_hash : CryptoHash;
  t1_actions : list Action;
}.

Inductive Transaction : Type :=
| TxV0 (tx : TransactionV0)
| TxV1 (tx : TransactionV1).

Definition signer_id (tx : Transaction) : AccountId :=
  match tx with TxV0 t => t0_signer_id t | TxV1 t => t1_signer_id t end.
Definition receiver_id (tx : Transaction) : AccountId :=
  match tx with TxV0 t => t0_receiver_id t | TxV1 t => t1_receiver_id t end.
Definition public_key (tx : Transaction) : PublicKey :=
  match tx with TxV0 t => t0_public_key t | TxV1 t => t1_public_key t end.
Definition nonce (tx : Transaction) : TransactionNonce :=
  match tx with TxV0 t => Nonce (t0_nonce t) | TxV1 t => t1_nonce t end.
Definition actions (tx : Transaction) : list Action :=
  match tx with TxV0 t => t0_actions t | TxV1 t => t1_actions t end.
Definition block_hash (tx : Transaction) : CryptoHash :=
  match tx with TxV0 t => t0_block_hash t | TxV1 t => t1_block_hash t end.

(** [SignedTransaction]: the transaction, its signature, and the hash and size
    computed when it is built. *)
Record SignedTransaction : Type := mkSignedTransaction {
  stx_transaction : Transaction;
  stx_signature : Signature;
  stx_hash : CryptoHash;
  stx_size : Z;
}.

(* ------------------------------------------------------------------ *)
(** ** Receipts (core/primitives/src/receipt.rs) *)

Record DataReceiver : Type := mkDataReceiver {
  dr_data_id : CryptoHash;
  dr_receiver_id : AccountId;
}.

Record ActionReceipt : Type := mkActionReceipt {
  ar_signer_id : AccountId;
  ar_signer_public_key : PublicKey;
  ar_gas_price : Z;
  ar_output_data_receivers : list DataReceiver;
  ar_input_data_ids : list CryptoHash;
  ar_actions : list Action;
}.

Record ActionReceiptV2 : Type := mkActionReceiptV2 {
  ar2_refund_to : option AccountId;
  ar2_receipt : ActionReceipt;
}.

Record DataReceipt : Type := mkDataReceipt {
  dt_data_id : CryptoHash;
  dt_data : option (list Z);
}.

Record GlobalContractDistributionReceipt : Type := mkGlobalDistribution {
  gd_id : GlobalContractIdentifier;
  gd_target_shard : Z;
  gd_already_delivered_shards : list Z;
  gd_code : list Z;
  (** [None] for the V1 variant *)
  gd_nonce : option Z;
}.

Inductive ReceiptEnum : Type :=
| RAction (r : ActionReceipt)
| RData (r : DataReceipt)
| RPromiseYield (r : ActionReceipt)
| RPromiseResume (r : DataReceipt)
| RGlobalContractDistribution (r : GlobalContractDistributionReceipt)
| RActionV2 (r : ActionReceiptV2)
| RPromiseYieldV2 (r : ActionReceiptV2).

Record Receipt : Type := mkReceipt {
  r_predecessor_id : AccountId;
  r_receiver_id : AccountId;
  r_receipt_id : CryptoHash;
  r_receipt : ReceiptEnum;
}.

(** [VersionedReceiptEnum]: the two versions of an action receipt read alike. *)
Inductive VersionedReceiptEnum : Type :=
| VAction (refund_to : option AccountId) (r : ActionReceipt)
| VData (r : DataReceipt)
| VPromiseYield (refund_to : option AccountId) (r : ActionReceipt)
| VPromiseResume (r : DataReceipt)
| VGlobalContractDistribution (r : GlobalContractDistributionReceipt).

Definition versioned_receipt (r : Receipt) : VersionedReceiptEnum :=
  match r_receipt r with
  | RAction a => VAction None a
  | RData d => VData d
  | RPromiseYield a => VPromiseYield None a
  | RPromiseResume d => VPromiseResume d
  | RGlobalContractDistribution g => VGlobalContractDistribution g
  | RActionV2 a => VAction (ar2_refund_to a) (ar2_receipt a)
  | RPromiseYieldV2 a => VPromiseYield (ar2_refund_to a) (ar2_receipt a)
  end.

Definition refund_to (r : Receipt) : option AccountId :=
  match r_receipt r with
  | RActionV2 a | RPromiseYieldV2 a => ar2_refund_to a
  | _ => None
  end.

Definition balance_refund_receiver (r : Receipt) : AccountId :=
  default (r_predecessor_id r) (refund_to r).

(** [Receipt::from_tx]. *)
Definition receipt_from_tx (receipt_id : CryptoHash) (tx_signer_id tx_receiver_id : AccountId)
    (signer_public_key : PublicKey) (gas_price : Z) (acts : list Action) : Receipt :=
  {| r_predecessor_id := tx_signer_id; r_receiver_id := tx_receiver_id;
     r_receipt_id := receipt_id;
     r_receipt := RAction {|
       ar_signer_id := tx_signer_id; ar_signer_public_key := signer_public_key;
       ar_gas_price := gas_price; ar_output_data_receivers := []; ar_input_data_ids := [];
       ar_actions := acts |} |}.

Definition new_balance_refund (receiver : AccountId) (refund : Z) : Receipt :=
  {| r_predecessor_id := "system"; r_receiver_id := receiver;
     r_receipt_id := hash_default;
     r_receipt := RAction {|
       ar_signer_id := "system"; ar_signer_public_key := empty_ed25519;
       ar_gas_price := 0; ar_output_data_receivers := []; ar_input_data_ids := [];
       ar_actions := [Plain (Transfer refund)] |} |}.

Definition new_gas_refund (receiver : AccountId) (refund : Z) (signer_public_key : PublicKey)
    : Receipt :=
  {| r_predecessor_id := "system"; r_receiver_id := receiver;
     r_receipt_id := hash_default;
     r_receipt := RAction {|
       ar_signer_id := receiver; ar_signer_public_key := signer_public_key;
       ar_gas_price := 0; ar_output_data_receivers := []; ar_input_data_ids := [];
       ar_actions := [Plain (Transfer refund)] |} |}.

(* ------------------------------------------------------------------ *)
(** ** Accessor laws *)

Lemma amount_set_amount a x : amount (set_amount a x) = x.
Proof. by destruct a. Qed.
Lemma locked_set_amount a x : locked (set_amount a x) = locked a.
Proof. by destruct a. Qed.
Lemma storage_usage_set_amount a x : storage_usage (set_amount a x) = storage_usage a.
Proof. by destruct a. Qed.
Lemma contract_set_amount a x : contract (set_amount a x) = contract a.
Proof. by destruct a. Qed.
Lemma amount_set_locked a x : amount (set_locked a x) = amount a.
Proof. by destruct a. Qed.
Lemma locked_set_locked a x : locked (set_locked a x) = x.
Proof. by destruct a. Qed.
Lemma storage_usage_set_locked a x : storage_usage (set_locked a x) = storage_usage a.
Proof. by destruct a. Qed.
Lemma amount_set_storage_usage a x : amount (set_storage_usage a x) = amount a.
Proof. by destruct a. Qed.
Lemma locked_set_storage_usage a x : locked (set_storage_usage a x) = locked a.
Proof. by destruct a. Qed.
Lemma storage_usage_set_storage_usage a x : storage_usage (set_storage_usage a x) = x.
Proof. by destruct a. Qed.
Lemma contract_set_storage_usage a x : contract (set_storage_usage a x) = contract a.
Proof. by destruct a. Qed.
Lemma amount_set_contract a c : amount (set_contract a c) = amount a.
Proof. destruct a, c; done. Qed.
Lemma locked_set_contract a c : locked (set_contract a c) = locked a.
Proof. destruct a, c; done. Qed.
Lemma storage_usage_set_contract a c : storage_usage (set_contract a c) = storage_usage a.
Proof. destruct a, c; done. Qed.

#[export] Hint Rewrite amount_set_amount locked_set_amount storage_usage_set_amount
  contract_set_amount amount_set_locked locked_set_locked storage_usage_set_locked
  amount_set_storage_usage locked_set_storage_usage storage_usage_set_storage_usage
  contract_set_storage_usage amount_set_contract locked_set_contract
  storage_usage_set_contract : account.

Ltac account_simpl := autorewrite with account in *.

(** Reading back a contract that was set; the all-zero hash stands for no
    contract in the V1 layout. *)
Lemma contract_set_contract a c : c <> ContractLocal hash_default -> contract (set_contract a c) = c.
Proof.
  intros Hc. destruct a as [a|a]; destruct c; try done; unfold contract, set_contract, local_code,
    from_local_code_hash; simpl; case_bool_decide; naive_solver.
Qed.
