(* ===== verification/Errors.v ===== *)
(** * Errors and protocol features (core/primitives/src/errors.rs,
    core/primitives-core/src/version.rs)

    The error values of the modelled code, constructor for constructor; a
    constructor that no modelled function returns is left out. *)

From S2P Require Import Prelude Crates AccountId Primitives.

Inductive StorageError : Type :=
| StorageInconsistentState (m : message).

Inductive DepositCostFailureReason : Type :=
| ReasonNotEnoughBalance
| ReasonLackBalanceForState.

Inductive InvalidAccessKeyError : Type :=
| AccessKeyNotFound (account_id : AccountId) (public_key : PublicKey)
| ReceiverMismatch (tx_receiver : AccountId) (ak_receiver : string)
| MethodNameMismatch (method_name : string)
| RequiresFullAccess
| NotEnoughAllowance (account_id : AccountId) (public_key : PublicKey) (allowance cost : Z)
| DepositWithFunctionCall.

Inductive ActionsValidationError : Type :=
| DeleteActionMustBeFinal
| TotalPrepaidGasExceeded (total_prepaid_gas limit : Z)
| TotalNumberOfActionsExceeded (total_number_of_actions limit : Z)
| AddKeyMethodNamesNumberOfBytesExceeded (total_number_of_bytes limit : Z)
| AddKeyMethodNameLengthExceeded (length limit : Z)
| AVIntegerOverflow
| InvalidAccountId (account_id : string)
| ContractSizeExceeded (size limit : Z)
| FunctionCallMethodNameLengthExceeded (length limit : Z)
| FunctionCallArgumentsLengthExceeded (length limit : Z)
| UnsuitableStakingKey (public_key : PublicKey)
| FunctionCallZeroAttachedGas
| DelegateActionMustBeOnlyOne
| UnsupportedProtocolFeature (protocol_feature : string) (version : Z)
| InvalidDeterministicStateInitReceiver (receiver_id derived_id : AccountId)
| DeterministicStateInitKeyLengthExceeded (length limit : Z)
| DeterministicStateInitValueLengthExceeded (length limit : Z)
| GasKeyInvalidNumNonces (requested_nonces limit : Z)
| AddGasKeyWithNonZeroBalance (balance : Z)
| GasKeyFunctionCallAllowanceNotAllowed.

Inductive InvalidTxError : Type :=
| InvalidAccessKey (e : InvalidAccessKeyError)
| InvalidSignerId (signer_id : string)
| SignerDoesNotExist (signer_id : AccountId)
| InvalidNonce (tx_nonce ak_nonce : Z)
| NonceTooLarge (tx_nonce upper_bound : Z)
| InvalidSignature
| NotEnoughBalance (signer_id : AccountId) (balance cost : Z)
| TxLackBalanceForState (signer_id : AccountId) (amount : Z)
| CostOverflow
| Expired
| TxActionsValidation (e : ActionsValidationError)
| TransactionSizeExceeded (size limit : Z)
| InvalidTransactionVersion
| TxStorageError (e : StorageError)
| InvalidNonceIndex (tx_nonce_index : option Z) (num_nonces : Z)
| NotEnoughGasKeyBalance (signer_id : AccountId) (balance cost : Z)
| NotEnoughBalanceForDeposit (signer_id : AccountId) (balance cost : Z)
    (reason : DepositCostFailureReason).

Inductive ReceiptValidationError : Type :=
| InvalidPredecessorId (account_id : string)
| RVInvalidReceiverId (account_id : string)
| ReturnedValueLengthExceeded (length limit : Z)
| NumberInputDataDependenciesExceeded (number limit : Z)
| RVActionsValidation (e : ActionsValidationError)
| ReceiptSizeExceeded (size limit : Z)
| InvalidRefundTo (account_id : string).

Inductive ActionErrorKind : Type :=
| AccountAlreadyExists (account_id : AccountId)
| AccountDoesNotExist (account_id : AccountId)
| CreateAccountOnlyByRegistrar (account_id registrar_account_id predecessor_id : AccountId)
| CreateAccountNotAllowed (account_id predecessor_id : AccountId)
| ActorNoPermission (account_id actor_id : AccountId)
| DeleteKeyDoesNotExist (account_id : AccountId) (public_key : PublicKey)
| AddKeyAlreadyExists (account_id : AccountId) (public_key : PublicKey)
| DeleteAccountStaking (account_id : AccountId)
| LackBalanceForState (account_id : AccountId) (amount : Z)
| TriesToUnstake (account_id : AccountId)
| TriesToStake (account_id : AccountId) (stake locked balance : Z)
| InsufficientStake (account_id : AccountId) (stake minimum_stake : Z)
| FunctionCallError (e : message)
| NewReceiptValidationError (e : ReceiptValidationError)
| OnlyImplicitAccountCreationAllowed (account_id : AccountId)
| DeleteAccountWithLargeState (account_id : AccountId)
| DelegateActionInvalidSignature
| DelegateActionSenderDoesNotMatchTxReceiver (sender_id receiver_id : AccountId)
| DelegateActionExpired
| DelegateActionAccessKeyError (e : InvalidAccessKeyError)
| DelegateActionInvalidNonce (delegate_nonce ak_nonce : Z)
| DelegateActionNonceTooLarge (delegate_nonce upper_bound : Z)
| GlobalContractDoesNotExist (identifier : GlobalContractIdentifier)
| GasKeyDoesNotExist (account_id : AccountId) (public_key : PublicKey)
| InsufficientGasKeyBalance (account_id : AccountId) (public_key : PublicKey)
    (balance required : Z)
| GasKeyBalanceTooHigh (account_id : AccountId) (public_key : option PublicKey) (balance : Z).

Record ActionError : Type := mkActionError {
  ae_index : option Z;
  ae_kind : ActionErrorKind;
}.

(** [impl From<ActionErrorKind> for ActionError]. *)
Definition action_error (k : ActionErrorKind) : ActionError := mkActionError None k.

Inductive RuntimeError : Type :=
| UnexpectedIntegerOverflow (m : message)
| RtInvalidTxError (e : InvalidTxError)
| RtStorageError (e : StorageError)
| RtReceiptValidationError (e : ReceiptValidationError)
| ValidatorError (m : message).

(* ------------------------------------------------------------------ *)
(** ** Protocol features *)

Inductive ProtocolFeature : Type :=
| DeterministicAccountIds
| InvalidTxGenerateOutcomes
| ExcludeExistingCodeFromWitnessForCodeLen
| FixAccessKeyAllowanceCharging
| IncludeDeployGlobalContractOutcomeBurntStorage
| FixDeterministicAccountIdCreation
| GlobalContractDistributionNonce
| InstantPromiseYield
| YieldResumeImprovements
| GasKeys.

Definition protocol_version (f : ProtocolFeature) : Z :=
  match f with
  | DeterministicAccountIds => 82
  | GasKeys => 149
  | _ => 83
  end.

Definition enabled (f : ProtocolFeature) (version : Z) : bool := protocol_version f <=? version.
