(* ===== verification/TrieUpdate.v ===== *)
(** * The overlay over the state trie (core/store/src/trie/update.rs)

    [TrieUpdate] keeps two layers of changes over an immutable trie: committed
    changes, a list per key with the latest last, and prospective changes of the
    receipt being applied.  Keys and values are arbitrary.  The refinement at
    the end shows the layers implement a pair of plain maps, which is what the
    runtime model works with. *)

From S2P Require Import Prelude.

Section trie_update.
Context {K V : Type} `{Countable K}.

Record TrieUpdate : Type := mkTrieUpdate {
  tu_trie : gmap K V;
  tu_committed : gmap K (list (option V));
  tu_prospective : gmap K (option V);
}.

Definition tu_new (trie : gmap K V) : TrieUpdate := mkTrieUpdate trie ∅ ∅.

(** [get_ref_from_updates]: the outer option says whether an update exists. *)
Definition get_ref_from_updates (u : TrieUpdate) (k : K) : option (option V) :=
  match tu_prospective u !! k with
  | Some value => Some value
  | None =>
      match tu_committed u !! k with
      | Some changes => last changes
      | None => None
      end
  end.

Definition tu_get (u : TrieUpdate) (k : K) : option V :=
  match get_ref_from_updates u k with
  | Some value => value
  | None => tu_trie u !! k
  end.

Definition is_some {A : Type} (o : option A) : bool :=
  match o with
  | Some _ => true
  | None => false
  end.

Definition contains_key (u : TrieUpdate) (k : K) : bool :=
  match tu_prospective u !! k with
  | Some value => is_some value
  | None =>
      match tu_committed u !! k with
      | Some changes =>
          match last changes with
          | Some data => is_some data
          | None => is_some (tu_trie u !! k)
          end
      | None => is_some (tu_trie u !! k)
      end
  end.

Definition tu_set (u : TrieUpdate) (k : K) (v : V) : TrieUpdate :=
  mkTrieUpdate (tu_trie u) (tu_committed u) (<[k := Some v]> (tu_prospective u)).

Definition tu_remove (u : TrieUpdate) (k : K) : TrieUpdate :=
  mkTrieUpdate (tu_trie u) (tu_committed u) (<[k := None]> (tu_prospective u)).

(** One iteration of the loop of [commit]. *)
Definition push_change (committed : gmap K (list (option V))) (kv : K * option V)
    : gmap K (list (option V)) :=
  <[kv.1 := default [] (committed !! kv.1) ++ [kv.2]]> committed.

Definition tu_commit (u : TrieUpdate) : TrieUpdate :=
  mkTrieUpdate (tu_trie u)
    (fold_left push_change (map_to_list (tu_prospective u)) (tu_committed u)) ∅.

Definition tu_rollback (u : TrieUpdate) : TrieUpdate :=
  mkTrieUpdate (tu_trie u) (tu_committed u) ∅.

(** [Trie::update] with the last change of every committed key. *)
Definition apply_change (trie : gmap K V) (kv : K * list (option V)) : gmap K V :=
  match last kv.2 with
  | Some (Some v) => <[kv.1 := v]> trie
  | Some None => delete kv.1 trie
  | None => trie
  end.

(** [finalize]; [Panic] is its assertion on uncommitted changes and its [expect] of a
    change for every committed key. *)
Definition tu_finalize (u : TrieUpdate) : result (gmap K V) unit :=
  if negb (bool_decide (tu_prospective u = ∅)) then Panic
  else if negb (bool_decide (map_Forall (fun _ changes => changes <> []) (tu_committed u))) then Panic
  else Ok (fold_left apply_change (map_to_list (tu_committed u)) (tu_trie u)).

(* ------------------------------------------------------------------ *)
(** ** The abstract view: a committed map and the current one *)

Record view : Type := mkView {
  view_committed : gmap K V;
  view_current : gmap K V;
}.

Definition view_set (w : view) (k : K) (v : V) : view :=
  mkView (view_committed w) (<[k := v]> (view_current w)).
Definition view_remove (w : view) (k : K) : view :=
  mkView (view_committed w) (delete k (view_current w)).
Definition view_commit (w : view) : view := mkView (view_current w) (view_current w).
Definition view_rollback (w : view) : view := mkView (view_committed w) (view_committed w).

Inductive trie_op : Type :=
| OpSet (k : K) (v : V)
| OpRemove (k : K)
| OpCommit
| OpRollback.

Definition run_op (u : TrieUpdate) (o : trie_op) : TrieUpdate :=
  match o with
  | OpSet k v => tu_set u k v
  | OpRemove k => tu_remove u k
  | OpCommit => tu_commit u
  | OpRollback => tu_rollback u
  end.

Definition run_view_op (w : view) (o : trie_op) : view :=
  match o with
  | OpSet k v => view_set w k v
  | OpRemove k => view_remove w k
  | OpCommit => view_commit w
  | OpRollback => view_rollback w
  end.

(** [u] implements [w]: reads agree in both layers, and no committed entry is
    empty. *)
Record refines (u : TrieUpdate) (w : view) : Prop := {
  ref_current : forall k, tu_get u k = view_current w !! k;
  ref_committed : forall k, tu_get (tu_rollback u) k = view_committed w !! k;
  ref_nonempty : forall k, tu_committed u !! k <> Some [];
}.

Lemma push_changes_lookup l committed k :
  NoDup l.*1 ->
  fold_left push_change l committed !! k =
    match list_to_map (M:=gmap K (option V)) l !! k with
    | Some v => Some (default [] (committed !! k) ++ [v])
    | None => committed !! k
    end.
Proof.
  revert committed. induction l as [|[k' v'] l IH]; intros committed Hl; simpl; [by rewrite lookup_empty|].
  apply NoDup_cons in Hl as [Hin Hl]. rewrite IH by done. unfold push_change. simpl.
  destruct (decide (k = k')) as [->|Hne].
  - rewrite (not_elem_of_list_to_map_1 l k') by done. by rewrite !lookup_insert_eq.
  - by rewrite !lookup_insert_ne by done.
Qed.

Lemma commit_lookup u k :
  tu_committed (tu_commit u) !! k =
    match tu_prospective u !! k with
    | Some v => Some (default [] (tu_committed u !! k) ++ [v])
    | None => tu_committed u !! k
    end.
Proof.
  simpl. rewrite push_changes_lookup by apply NoDup_fst_map_to_list.
  by rewrite list_to_map_to_list.
Qed.

Lemma commit_get u k : tu_get (tu_commit u) k = tu_get u k.
Proof.
  unfold tu_get, get_ref_from_updates. rewrite commit_lookup. simpl. rewrite lookup_empty.
  destruct (tu_prospective u !! k) as [v|]; [by rewrite last_snoc|done].
Qed.

Lemma run_op_refines u w o : refines u w -> refines (run_op u o) (run_view_op w o).
Proof.
  intros [Hc Hb Hn]. destruct o as [k v|k| |]; split; simpl; try done; intros k'.
  - specialize (Hc k'). unfold tu_get, get_ref_from_updates in *. simpl.
    destruct (decide (k = k')) as [->|?]; [by rewrite !lookup_insert_eq|].
    by rewrite !lookup_insert_ne by done.
  - specialize (Hc k'). unfold tu_get, get_ref_from_updates in *. simpl.
    destruct (decide (k = k')) as [->|?]; [by rewrite lookup_insert_eq, lookup_delete_eq|].
    by rewrite lookup_insert_ne, lookup_delete_ne by done.
  - change (tu_get (tu_commit u) k' = view_current w !! k'). by rewrite commit_get.
  - change (tu_get (tu_commit u) k' = view_current w !! k'). by rewrite commit_get.
  - change (tu_committed (tu_commit u) !! k' <> Some []). rewrite commit_lookup.
    destruct (tu_prospective u !! k'); [|done].
    destruct (default [] (tu_committed u !! k')); done.
Qed.

Lemma new_refines trie : refines (tu_new trie) (mkView trie trie).
Proof.
  split; intros k; unfold tu_get, get_ref_from_updates; simpl; by rewrite !lookup_empty.
Qed.

Lemma run_ops_refines trie ops :
  refines (fold_left run_op ops (tu_new trie)) (fold_left run_view_op ops (mkView trie trie)).
Proof.
  generalize (new_refines trie). generalize (tu_new trie), (mkView trie trie).
  induction ops as [|o ops IH]; intros u w Hr; simpl; [done|]. by apply IH, run_op_refines.
Qed.

Lemma apply_changes_lookup l trie k :
  NoDup l.*1 ->
  fold_left apply_change l trie !! k =
    match list_to_map (M:=gmap K (list (option V))) l !! k with
    | Some changes => default (trie !! k) (last changes)
    | None => trie !! k
    end.
Proof.
  revert trie. induction l as [|[k' c] l IH]; intros trie Hl; simpl; [by rewrite lookup_empty|].
  apply NoDup_cons in Hl as [Hin Hl]. rewrite IH by done. unfold apply_change. simpl.
  destruct (decide (k = k')) as [->|Hne].
  - rewrite (not_elem_of_list_to_map_1 l k') by done. rewrite lookup_insert_eq.
    destruct (last c) as [[v|]|]; simpl; [by rewrite lookup_insert_eq|by rewrite lookup_delete_eq|done].
  - rewrite (lookup_insert_ne _ k' k) by done.
    destruct (last c) as [[v|]|]; [by rewrite lookup_insert_ne by done| |done].
    by rewrite lookup_delete_ne by done.
Qed.

Lemma finalize_lookup u m k :
  tu_finalize u = Ok m -> m !! k = tu_get (tu_rollback u) k.
Proof.
  unfold tu_finalize. case_bool_decide; [|done]. case_bool_decide; [|done]. cbn [negb]. intros [= <-].
  rewrite apply_changes_lookup by apply NoDup_fst_map_to_list.
  rewrite list_to_map_to_list. unfold tu_get, get_ref_from_updates. simpl.
  rewrite lookup_empty. destruct (tu_committed u !! k) as [c|]; [|done]. by destruct (last c).
Qed.

(** C24. Refinement of the overlay.  After any sequence of writes, removals,
    commits and rollbacks from a trie, every read and every membership test of
    the layered [TrieUpdate] answers like one map on which the same operations
    were performed directly, a rollback being a return to the last commit; and
    [finalize], when nothing is left uncommitted, produces exactly the
    committed map. *)
Theorem overlay_refines_map (trie : gmap K V) (ops : list trie_op) :
  let u := fold_left run_op ops (tu_new trie) in
  let w := fold_left run_view_op ops (mkView trie trie) in
  (forall k, tu_get u k = view_current w !! k)
  /\ (forall k, contains_key u k = is_some (view_current w !! k))
  /\ (forall m, tu_finalize u = Ok m -> m = view_committed w)
  /\ (tu_finalize (tu_commit u) = Ok (view_current w))
  /\ (tu_finalize (tu_rollback u) = Ok (view_committed w)).
Proof.
  intros u w. assert (Hr : refines u w) by apply run_ops_refines.
  pose proof (run_op_refines u w OpCommit Hr) as [_ _ Hn']. destruct Hr as [Hc Hb Hn].
  assert (Hfin : forall v (m : gmap K V), tu_prospective v = ∅ -> (forall k, tu_committed v !! k <> Some []) ->
    (forall k, tu_get (tu_rollback v) k = m !! k) -> tu_finalize v = Ok m).
  { intros v m Hv Hne Hm. destruct (tu_finalize v) as [m'| |] eqn:E.
    - f_equal. apply map_eq. intros k. by rewrite (finalize_lookup v m' k E), Hm.
    - unfold tu_finalize in E. by repeat case_bool_decide.
    - unfold tu_finalize in E. rewrite Hv, !bool_decide_true in E; [done| |done].
      intros k c Hk ->. by apply (Hne k). }
  split_and!; [done| | | |].
  - intros k. rewrite <- Hc. unfold contains_key, tu_get, get_ref_from_updates.
    destruct (tu_prospective u !! k); [done|]. destruct (tu_committed u !! k); [|done].
    by destruct (last _).
  - intros m E. apply map_eq. intros k. by rewrite (finalize_lookup u m k E).
  - apply Hfin; [done|done|]. intros k. change (tu_get (tu_commit u) k = view_current w !! k).
    by rewrite commit_get.
  - by apply Hfin.
Qed.
End trie_update.
