(* ===== verification/Borsh.v ===== *)
(** * Borsh encoding

    The encoding the chain stores and signs: little-endian integers, u32 length
    prefixes, one-byte tags.  A codec pairs an encoder with a decoder that
    returns the rest of the input; [round_trip] is the law a codec obeys on the
    values of a well-formedness predicate.  Decoding errors are [None]. *)

From S2P Require Import Prelude Crates AccountId Primitives.

Record codec (A : Type) : Type := mkCodec {
  enc : A -> list Z;
  dec : list Z -> option (A * list Z);
}.
Arguments mkCodec {A} enc dec.
Arguments enc {A} c a.
Arguments dec {A} c b.

Definition round_trip {A : Type} (c : codec A) (wf : A -> Prop) : Prop :=
  forall a rest, wf a -> dec c (enc c a ++ rest) = Some (a, rest).

(** [BorshDeserialize::try_from_slice]: the whole input is consumed. *)
Definition try_from_slice {A : Type} (c : codec A) (b : list Z) : option A :=
  match dec c b with
  | Some (a, []) => Some a
  | _ => None
  end.

Notation "'let*' x ':=' m 'in' k" := (match m with Some x => k | None => None end)
  (at level 10, x pattern, m at level 100, k at level 200).

(* ------------------------------------------------------------------ *)
(** ** Integers, byte arrays *)

Fixpoint le_enc (n : nat) (v : Z) : list Z :=
  match n with
  | O => []
  | S n => v mod 256 :: le_enc n (v / 256)
  end.

Fixpoint le_dec (n : nat) (b : list Z) : option (Z * list Z) :=
  match n with
  | O => Some (0, b)
  | S n =>
      match b with
      | [] => None
      | x :: b =>
          let* (v, rest) := le_dec n b in Some (x + 256 * v, rest)
      end
  end.

Definition uint_c (n : nat) : codec Z := mkCodec (le_enc n) (le_dec n).
Definition u8_c := uint_c 1.
Definition u16_c := uint_c 2.
Definition u32_c := uint_c 4.
Definition u64_c := uint_c 8.
Definition u128_c := uint_c 16.

(** [[u8; n]]. *)
Definition array_c (n : nat) : codec (list Z) :=
  mkCodec (fun b => b)
    (fun b => if (length b <? n)%nat then None else Some (take n b, drop n b)).

(* ------------------------------------------------------------------ *)
(** ** Combinators *)

Definition pair_c {A B : Type} (c : codec A) (d : codec B) : codec (A * B) :=
  mkCodec (fun p => enc c p.1 ++ enc d p.2)
    (fun b => let* (x, b) := dec c b in let* (y, b) := dec d b in Some ((x, y), b)).

(** A struct is the tuple of its fields. *)
Definition map_c {A B : Type} (c : codec A) (to : B -> A) (back : A -> B) : codec B :=
  mkCodec (fun x => enc c (to x)) (fun b => let* (x, b) := dec c b in Some (back x, b)).

(** A codec whose decoder refuses some values. *)
Definition guard_c {A : Type} (c : codec A) (p : A -> bool) : codec A :=
  mkCodec (enc c) (fun b => let* (x, b) := dec c b in if p x then Some (x, b) else None).

Definition bool_c : codec bool :=
  mkCodec (fun x : bool => [if x then 1 else 0])
    (fun b => match b with
              | x :: b => if x =? 0 then Some (false, b)
                          else if x =? 1 then Some (true, b) else None
              | [] => None
              end).

Definition option_c {A : Type} (c : codec A) : codec (option A) :=
  mkCodec (fun o => match o with None => [0] | Some a => 1 :: enc c a end)
    (fun b => match b with
              | x :: b => if x =? 0 then Some (None, b)
                          else if x =? 1 then let* (a, b) := dec c b in Some (Some a, b)
                          else None
              | [] => None
              end).

Fixpoint dec_many {A : Type} (c : codec A) (n : nat) (b : list Z) : option (list A * list Z) :=
  match n with
  | O => Some ([], b)
  | S n =>
      let* (a, b) := dec c b in
      let* (l, b) := dec_many c n b in Some (a :: l, b)
  end.

(** [Vec<T>]: a u32 length and the elements. *)
Definition vec_c {A : Type} (c : codec A) : codec (list A) :=
  mkCodec (fun l => le_enc 4 (vec_len l) ++ flat_map (enc c) l)
    (fun b => let* (n, b) := le_dec 4 b in dec_many c (Z.to_nat n) b).

Definition string_c : codec string :=
  guard_c (map_c (vec_c u8_c) as_bytes of_bytes) is_str.

(* ------------------------------------------------------------------ *)
(** ** Laws *)

Create HintDb borsh discriminated.

Lemma le_enc_length n v : length (le_enc n v) = n.
Proof. revert v. induction n; intros; simpl; [done|]. by rewrite IHn. Qed.

Lemma le_enc_ok n v : bytes_ok (le_enc n v).
Proof.
  revert v. induction n; intros; simpl; constructor; [|done].
  unfold is_byte. pose proof (Z.mod_pos_bound v 256). lia.
Qed.

Lemma uint_rt n : round_trip (uint_c n) (fun v => 0 <= v < 256 ^ Z.of_nat n).
Proof.
  intros v rest. unfold uint_c; simpl. revert v. induction n as [|n IH]; intros v H; simpl.
  { change (256 ^ Z.of_nat 0) with 1 in H. f_equal. f_equal. lia. }
  rewrite Nat2Z.inj_succ, Z.pow_succ_r in H by lia.
  rewrite IH.
  - f_equal. f_equal. pose proof (Z.div_mod v 256). lia.
  - split; [apply Z.div_pos; lia|]. apply Z.div_lt_upper_bound; lia.
Qed.

Lemma u8_rt : round_trip u8_c (is_u u8_max).
Proof. intros v rest [? ?]. apply (uint_rt 1). unfold u8_max in *. simpl. lia. Qed.
Lemma u16_rt : round_trip u16_c (is_u u16_max).
Proof. intros v rest [? ?]. apply (uint_rt 2). unfold u16_max in *. simpl. lia. Qed.
Lemma u32_rt : round_trip u32_c (is_u u32_max).
Proof. intros v rest [? ?]. apply (uint_rt 4). unfold u32_max in *. simpl. lia. Qed.
Lemma u64_rt : round_trip u64_c (is_u u64_max).
Proof. intros v rest [? ?]. apply (uint_rt 8). unfold u64_max in *. simpl. lia. Qed.
Lemma u128_rt : round_trip u128_c (is_u u128_max).
Proof. intros v rest [? ?]. apply (uint_rt 16). unfold u128_max in *. simpl. lia. Qed.

Lemma array_rt n : round_trip (array_c n) (fun b => length b = n).
Proof.
  intros b rest <-. simpl. rewrite length_app, take_app_length, drop_app_length.
  destruct (Nat.ltb_spec (length b + length rest) (length b)); [lia|done].
Qed.

Lemma pair_rt {A B} (c : codec A) (d : codec B) P Q :
  round_trip c P -> round_trip d Q -> round_trip (pair_c c d) (fun p => P p.1 /\ Q p.2).
Proof.
  intros Hc Hd [x y] rest [Hx Hy]. simpl in *.
  rewrite <- (assoc_L (++)), Hc by done. by rewrite Hd by done.
Qed.

Lemma map_rt {A B} (c : codec A) (to : B -> A) (back : A -> B) P (Q : B -> Prop) :
  round_trip c P -> (forall b, Q b -> P (to b) /\ back (to b) = b) ->
  round_trip (map_c c to back) Q.
Proof. intros Hc H b rest [Hb E]%H. simpl. rewrite Hc by done. by rewrite E. Qed.

Lemma guard_rt {A} (c : codec A) p P :
  round_trip c P -> round_trip (guard_c c p) (fun a => P a /\ p a = true).
Proof. intros Hc a rest [Ha Hp]. simpl. rewrite Hc by done. by rewrite Hp. Qed.

Lemma bool_rt : round_trip bool_c (fun _ => True).
Proof. by intros [] rest _. Qed.

Lemma option_rt {A} (c : codec A) P :
  round_trip c P -> round_trip (option_c c) (fun o => forall a, o = Some a -> P a).
Proof. intros Hc [a|] rest H; simpl; [by rewrite Hc by auto|done]. Qed.

Lemma dec_many_rt {A} (c : codec A) P l rest :
  round_trip c P -> Forall P l ->
  dec_many c (length l) (flat_map (enc c) l ++ rest) = Some (l, rest).
Proof.
  intros Hc. induction 1 as [|a l Ha HP IH]; simpl; [done|].
  rewrite <- (assoc_L (++)), Hc by done. by rewrite IH.
Qed.

Lemma vec_rt {A} (c : codec A) P :
  round_trip c P ->
  round_trip (vec_c c) (fun l => vec_len l <= u32_max /\ Forall P l).
Proof.
  intros Hc l rest [Hl HP]. unfold vec_c. cbn [enc dec]. rewrite <- (assoc_L (++)).
  pose proof (u32_rt (vec_len l)) as Hu. unfold u32_c, uint_c in Hu. cbn [enc dec] in Hu.
  rewrite Hu by (unfold is_u, vec_len in *; lia). clear Hu Hl.
  unfold vec_len. rewrite Nat2Z.id. by apply (dec_many_rt c P).
Qed.

Lemma bytes_rt : round_trip (vec_c u8_c) (fun l => vec_len l <= u32_max /\ bytes_ok l).
Proof. apply vec_rt, u8_rt. Qed.

Lemma string_rt : round_trip string_c (fun s => str_len s <= u32_max /\ is_str s = true).
Proof.
  apply (guard_rt _ _ (fun s => str_len s <= u32_max)), (map_rt _ _ _ _ _ bytes_rt).
  intros s Hs. split; [|apply of_bytes_as_bytes].
  split; [|apply as_bytes_ok]. unfold vec_len. by rewrite length_as_bytes_Z.
Qed.

Lemma try_from_slice_enc {A} (c : codec A) P a :
  round_trip c P -> P a -> try_from_slice c (enc c a) = Some a.
Proof.
  intros Hc Ha. unfold try_from_slice. rewrite <- (app_nil_r (enc c a)). by rewrite Hc.
Qed.

#[export] Hint Resolve u8_rt u16_rt u32_rt u64_rt u128_rt array_rt bool_rt string_rt
  bytes_rt pair_rt option_rt vec_rt : borsh.
