(* ===== verification/GenesisTools.v ===== *)
(** * Building the genesis (bitinfinity-tools, bitinfinity-token)

    The snapshot of the unspent outputs of Bitcoin is summed by address, the balances of
    the Patoshi addresses go to one locked address, and the result becomes the records of
    the first block; a second command recounts the supply.  Snapshot and CSV files are read
    by crates: their records are arguments.  Text of amounts is a list of characters;
    JSON is not modelled.  Sums without a check wrap, as in a release build. *)

From stdpp Require Import sorting.
From S2P Require Import Prelude Decimal Borsh.

(* ------------------------------------------------------------------ *)
(** ** Denominations (bitinfinity-token/src/lib.rs) *)

Definition ONE_BIT : Z := 10 ^ 24.
Definition ONE_SATOSHI_IN_YOCTOBIT : Z := 10 ^ 16.

Definition wrapping_add (mx a b : Z) : Z := (a + b) mod (mx + 1).
Definition wrapping_mul (mx a b : Z) : Z := (a * b) mod (mx + 1).

Definition satoshis_to_yoctosyd (satoshis : Z) : Z := wrapping_mul u128_max satoshis ONE_SATOSHI_IN_YOCTOBIT.

Definition yoctosyd_to_satoshis (yoctosyd : Z) : option Z :=
  let satoshis := yoctosyd / ONE_SATOSHI_IN_YOCTOBIT in
  if u64_max <? satoshis then None else Some satoshis.

(* ------------------------------------------------------------------ *)
(** ** The snapshot (utxo_parser.rs) *)

Record TxOut : Type := mkTxOut {
  to_amount : Z;
  to_address : option string;
}.

Record Aggregate : Type := mkAggregate {
  ag_balances : gmap string Z;
  ag_total_utxos : Z;
  ag_skipped : Z;
  ag_total_satoshis : Z;
}.

(** [*map.entry(key).or_insert(0) += amount] *)
Definition credit (m : gmap string Z) (key : string) (amount : Z) : gmap string Z :=
  <[key := wrapping_add u64_max (default 0 (m !! key)) amount]> m.

Definition add_txout (a : Aggregate) (item : TxOut) : Aggregate :=
  let total_utxos := wrapping_add u64_max (ag_total_utxos a) 1 in
  let total_satoshis := wrapping_add u64_max (ag_total_satoshis a) (to_amount item) in
  match to_address item with
  | Some addr => mkAggregate (credit (ag_balances a) addr (to_amount item)) total_utxos (ag_skipped a)
                   total_satoshis
  | None => mkAggregate (ag_balances a) total_utxos (wrapping_add u64_max (ag_skipped a) 1) total_satoshis
  end.

Definition parse_and_aggregate (expected_utxo_count : Z) (dump : list TxOut)
    : result (gmap string Z) message :=
  let a := fold_left add_txout dump (mkAggregate ∅ 0 0 0) in
  if negb (ag_total_utxos a =? expected_utxo_count) then
    Err (Msg "UTXO count mismatch: parsed {} records, header reported {}"
           [FZ (ag_total_utxos a); FZ expected_utxo_count])
  else Ok (ag_balances a).

(* ------------------------------------------------------------------ *)
(** ** Patoshi addresses (patoshi.rs) *)

Record PatoshiReassignment : Type := mkReassignment {
  total_satoshis : Z;
  addresses_removed : Z;
  target_address : string;
}.

(** One turn of the loop: map, sum and count. *)
Definition remove_patoshi (st : gmap string Z * Z * Z) (addr : string) : gmap string Z * Z * Z :=
  let '(m, total_removed, count_removed) := st in
  match m !! addr with
  | Some balance => (delete addr m, wrapping_add u64_max total_removed balance, count_removed + 1)
  | None => st
  end.

(** The addresses are a hash set: [addresses] lists them in the order of its iterator. *)
Definition reassign_patoshi (utxo_map : gmap string Z) (addresses : list string) (target : string)
    : gmap string Z * PatoshiReassignment :=
  let '(m, total_removed, count_removed) := fold_left remove_patoshi addresses (utxo_map, 0, 0) in
  ((if 0 <? total_removed then credit m target total_removed else m),
   mkReassignment total_removed count_removed target).

(* ------------------------------------------------------------------ *)
(** ** The genesis file (genesis_builder.rs) *)

Record ValidatorInfo : Type := mkValidatorInfo {
  vi_account_id : string;
  vi_public_key : string;
  vi_amount : list Z;
}.

Record AccountData : Type := mkAccountData {
  ad_amount : list Z;
  ad_locked : list Z;
  ad_code_hash : string;
  ad_storage_usage : Z;
  ad_version : string;
}.

Record AccessKeyData : Type := mkAccessKeyData {
  akd_nonce : Z;
  akd_permission : string;
}.

Inductive ToolRecord : Type :=
| ToolAccount (account_id : string) (account : AccountData)
| ToolAccessKey (account_id : string) (public_key : string) (access_key : AccessKeyData)
| ToolData (account_id : string) (data_key : string) (value : string).

Record GenesisFile : Type := mkGenesisFile {
  g_protocol_version : Z;
  g_genesis_time : string;
  g_chain_id : string;
  g_genesis_height : Z;
  g_num_block_producer_seats : Z;
  g_num_block_producer_seats_per_shard : list Z;
  g_avg_hidden_validator_seats_per_shard : list Z;
  g_dynamic_resharding : bool;
  g_protocol_upgrade_stake_threshold : Z * Z;
  g_epoch_length : Z;
  g_gas_limit : Z;
  g_min_gas_price : list Z;
  g_max_gas_price : list Z;
  g_block_producer_kickout_threshold : Z;
  g_chunk_producer_kickout_threshold : Z;
  g_chunk_validator_only_kickout_threshold : Z;
  g_target_validator_mandates_per_shard : Z;
  g_online_min_threshold : Z * Z;
  g_online_max_threshold : Z * Z;
  g_gas_price_adjustment_rate : Z * Z;
  g_validators : list ValidatorInfo;
  g_transaction_validity_period : Z;
  g_protocol_reward_rate : Z * Z;
  g_max_inflation_rate : Z * Z;
  g_total_supply : list Z;
  g_num_blocks_per_year : Z;
  g_protocol_treasury_account : string;
  g_fishermen_threshold : list Z;
  g_minimum_stake_divisor : Z;
  g_shard_layout_v0 : Z * Z;
  g_num_chunk_only_producer_seats : Z;
  g_minimum_validators_per_shard : Z;
  g_max_kickout_stake_perc : Z;
  g_minimum_stake_ratio : Z * Z;
  g_use_production_config : bool;
  g_records : list ToolRecord;
}.

Record ValidatorConfig : Type := mkValidatorConfig {
  vc_account_id : string;
  vc_public_key_ed25519 : string;
  vc_stake_yocto : Z;
  vc_balance_yocto : Z;
}.

Definition NO_CODE_HASH : string := "11111111111111111111111111111111".

(** Iteration of a [BTreeMap]: in the order of the keys. *)
Definition key_le {A : Type} (p q : string * A) : Prop := String.leb p.1 q.1 = true.
#[export] Instance key_le_dec {A : Type} (p q : string * A) : Decision (key_le p q).
Proof. unfold key_le. apply _. Defined.
Definition btree_iter {A : Type} (m : gmap string A) : list (string * A) := merge_sort key_le (map_to_list m).

Definition account_data (amount locked : Z) : AccountData :=
  mkAccountData (to_dec amount) (to_dec locked) NO_CODE_HASH 0 "V1".

Definition TREASURY : string := "near".
Definition treasury_balance : Z := 1000000000000000000000000.

(** The loop over the addresses: records and supply. *)
Fixpoint add_addresses (validator_account : string) (l : list (string * Z)) (records : list ToolRecord)
    (total_supply : Z) : result (list ToolRecord * Z) message :=
  match l with
  | [] => Ok (records, total_supply)
  | (addr, satoshis) :: l =>
      if bool_decide (addr = validator_account) || bool_decide (addr = TREASURY)
      then add_addresses validator_account l records total_supply
      else
        let yocto := wrapping_mul u128_max satoshis (10 ^ 16) in
        let? total_supply := ok_or (checked_add u128_max total_supply yocto) (lit "Total supply overflow") in
        add_addresses validator_account l (records ++ [ToolAccount addr (account_data yocto 0)]) total_supply
  end.

(** [PatoshiRecord] of the tools: floor, lock, unlock epoch. *)
Definition tool_record_c : codec (Z * (bool * option Z)) := pair_c u128_c (pair_c bool_c (option_c u64_c)).
Definition TOOL_RECORD_DATA_KEY : list Z := as_bytes "bitinfinity:patoshi:v1".
Definition TOOL_INDEX_DATA_KEY : list Z := as_bytes "bitinfinity:patoshi:index:v1".

Section build.
(** [STANDARD.encode] of the crate [base64]. *)
Variable b64_encode : list Z -> string.

Definition patoshi_data (registry : list (string * Z)) : list ToolRecord :=
  match registry with
  | [] => []
  | _ =>
      map (fun '(account_id, genesis_balance) =>
             ToolData account_id (b64_encode TOOL_RECORD_DATA_KEY)
               (b64_encode (enc tool_record_c (genesis_balance, (true, None))))) registry
      ++ [ToolData TREASURY (b64_encode TOOL_INDEX_DATA_KEY)
            (b64_encode (enc (vec_c string_c) (map fst registry)))]
  end.

Definition build (chain_id genesis_time : string) (utxo_map : gmap string Z) (validator : ValidatorConfig)
    (patoshi_registry : gmap string Z) : result GenesisFile message :=
  let total_supply :=
    wrapping_add u128_max 0 (wrapping_add u128_max (vc_balance_yocto validator) (vc_stake_yocto validator)) in
  let records :=
    [ToolAccount (vc_account_id validator) (account_data (vc_balance_yocto validator) (vc_stake_yocto validator));
     ToolAccessKey (vc_account_id validator) (vc_public_key_ed25519 validator) (mkAccessKeyData 0 "FullAccess")] in
  let '(records, total_supply) :=
    if bool_decide (TREASURY = vc_account_id validator) then (records, total_supply)
    else (records ++ [ToolAccount TREASURY (account_data treasury_balance 0)],
          wrapping_add u128_max total_supply treasury_balance) in
  let? (records, total_supply) :=
    add_addresses (vc_account_id validator) (btree_iter utxo_map) records total_supply in
  let records := records ++ patoshi_data (btree_iter patoshi_registry) in
  Ok {| g_protocol_version := 84; g_genesis_time := genesis_time; g_chain_id := chain_id;
        g_genesis_height := 0; g_num_block_producer_seats := 1; g_num_block_producer_seats_per_shard := [1];
        g_avg_hidden_validator_seats_per_shard := [0]; g_dynamic_resharding := false;
        g_protocol_upgrade_stake_threshold := (4, 5); g_epoch_length := 500; g_gas_limit := 1000000000000000;
        g_min_gas_price := to_dec 100000000; g_max_gas_price := to_dec 10000000000000000000000;
        g_block_producer_kickout_threshold := 90; g_chunk_producer_kickout_threshold := 90;
        g_chunk_validator_only_kickout_threshold := 80; g_target_validator_mandates_per_shard := 68;
        g_online_min_threshold := (9, 10); g_online_max_threshold := (99, 100);
        g_gas_price_adjustment_rate := (1, 100);
        g_validators := [mkValidatorInfo (vc_account_id validator) (vc_public_key_ed25519 validator)
                           (to_dec (vc_stake_yocto validator))];
        g_transaction_validity_period := 100; g_protocol_reward_rate := (0, 1);
        g_max_inflation_rate := (0, 1); g_total_supply := to_dec total_supply;
        g_num_blocks_per_year := 31536000; g_protocol_treasury_account := TREASURY;
        g_fishermen_threshold := to_dec 10000000000000000000000000; g_minimum_stake_divisor := 10;
        g_shard_layout_v0 := (1, 0); g_num_chunk_only_producer_seats := 300;
        g_minimum_validators_per_shard := 1; g_max_kickout_stake_perc := 100;
        g_minimum_stake_ratio := (1, 6250); g_use_production_config := false; g_records := records |}.

(* ------------------------------------------------------------------ *)
(** ** The commands (main.rs) *)

Definition validator_of (account_id public_key : string) : ValidatorConfig :=
  mkValidatorConfig account_id public_key 50000000000000000000000000000000 1000000000000000000000000000000.

(** [GenerateGenesis] on a snapshot; the target address comes from an argument or from a
    fresh key. *)
Definition generate_genesis (chain_id genesis_time validator_account validator_pubkey : string)
    (expected_utxo_count : Z) (dump : list TxOut) (patoshi : option (list string)) (target : string)
    : result GenesisFile message :=
  let? utxos := parse_and_aggregate expected_utxo_count dump in
  let '(utxos, registry) :=
    match patoshi with
    | Some addresses =>
        let '(utxos, reassignment) := reassign_patoshi utxos addresses target in
        if 0 <? total_satoshis reassignment
        then (utxos, {[target_address reassignment :=
                         wrapping_mul u128_max (total_satoshis reassignment) (10 ^ 16)]})
        else (utxos, ∅)
    | None => (utxos, ∅)
    end in
  build chain_id genesis_time utxos (validator_of validator_account validator_pubkey) registry.
End build.

(* ------------------------------------------------------------------ *)
(** ** Verification of the supply (main.rs) *)

Record GenesisSupplySummary : Type := mkSummary {
  declared_total_yocto : Z;
  computed_total_yocto : Z;
  reconciled : bool;
  total_records : Z;
  account_records : Z;
  access_key_records : Z;
  data_records : Z;
}.

(** The loop: sum and counts. *)
Definition count_record (st : Z * Z * Z * Z) (r : ToolRecord) : result (Z * Z * Z * Z) message :=
  let '(computed, accounts, keys, data) := st in
  match r with
  | ToolAccount _ account =>
      let? amount := ok_or (parse_uint u128_max (ad_amount account)) (lit "Invalid account.amount: {}") in
      let? locked := ok_or (parse_uint u128_max (ad_locked account)) (lit "Invalid account.locked: {}") in
      let? x := ok_or (checked_add u128_max computed amount) (lit "Computed account total overflowed u128") in
      let? x := ok_or (checked_add u128_max x locked) (lit "Computed account total overflowed u128") in
      Ok (x, accounts + 1, keys, data)
  | ToolAccessKey _ _ _ => Ok (computed, accounts, keys + 1, data)
  | ToolData _ _ _ => Ok (computed, accounts, keys, data + 1)
  end.

Fixpoint count_records (l : list ToolRecord) (st : Z * Z * Z * Z) : result (Z * Z * Z * Z) message :=
  match l with
  | [] => Ok st
  | r :: l => let? st := count_record st r in count_records l st
  end.

Definition summarize_genesis (g : GenesisFile) : result GenesisSupplySummary message :=
  let? declared := ok_or (parse_uint u128_max (g_total_supply g)) (lit "Invalid genesis total_supply: {}") in
  let? (computed, accounts, keys, data) := count_records (g_records g) (0, 0, 0, 0) in
  Ok (mkSummary declared computed (declared =? computed) (vec_len (g_records g)) accounts keys data).

Definition SATOSHIS_PER_BTC : Z := 100000000.
Definition YOCTO_PER_SATOSHI : Z := 10000000000000000.

Definition yocto_to_satoshis_exact (yocto : Z) : result Z message :=
  if negb (yocto mod YOCTO_PER_SATOSHI =? 0)
  then Err (Msg "Yocto amount is not an exact satoshi multiple: {}" [FZ yocto])
  else Ok (yocto / YOCTO_PER_SATOSHI).

(** [char::is_whitespace]. *)
Definition is_whitespace (c : Z) : bool :=
  ((9 <=? c) && (c <=? 13)) || (c =? 32) || (c =? 133) || (c =? 160) || (c =? 5760)
  || ((8192 <=? c) && (c <=? 8202)) || (c =? 8232) || (c =? 8233) || (c =? 8239) || (c =? 8287) || (c =? 12288).

Fixpoint trim_start (l : list Z) : list Z :=
  match l with
  | c :: l' => if is_whitespace c then trim_start l' else l
  | [] => []
  end.
Definition trim (l : list Z) : list Z := rev (trim_start (rev (trim_start l))).

(** [str::split] on one character. *)
Fixpoint split_on (sep : Z) (l : list Z) : list (list Z) :=
  match l with
  | [] => [[]]
  | c :: l =>
      if c =? sep then [] :: split_on sep l
      else match split_on sep l with
           | part :: parts => (c :: part) :: parts
           | [] => [[c]]
           end
  end.

Definition parse_btc_amount_to_satoshis (raw : list Z) : result Z message :=
  let value := trim raw in
  match value with
  | [] => Err (lit "BTC amount is empty")
  | _ =>
      let value := match value with 43 :: rest => rest | _ => value end in
      if match value with 45 :: _ => true | _ => false end
      then Err (lit "BTC amount cannot be negative: {}")
      else if contains 101 value || contains 69 value
      then Err (lit "BTC amount scientific notation is not supported: {}")
      else
        match split_on 46 value with
        | whole_part :: frac =>
            let? frac_digits := match frac with
                                | [] => Ok []
                                | [frac_part] => Ok frac_part
                                | _ => Err (lit "Invalid BTC amount format: {}")
                                end in
            let whole_digits := match whole_part with [] => [48] | _ => whole_part end in
            if negb (forallb is_ascii_digit whole_digits) then Err (lit "Invalid BTC whole-part digits: {}")
            else if negb (forallb is_ascii_digit frac_digits) then Err (lit "Invalid BTC fractional digits: {}")
            else if (8 <? length frac_digits)%nat then Err (lit "BTC amount has more than 8 decimal places: {}")
            else
              let? whole := ok_or (parse_uint u128_max whole_digits) (lit "number too large to fit in target type") in
              let? frac := ok_or (parse_uint u128_max (pad_right 8 frac_digits))
                             (lit "number too large to fit in target type") in
              ok_or (match checked_mul u128_max whole SATOSHIS_PER_BTC with
                     | Some x => checked_add u128_max x frac
                     | None => None
                     end) (lit "BTC amount conversion overflowed u128")
        | [] => Err (lit "BTC amount is empty")
        end
  end.

(** [VerifySnapshotSupply], given the total that Bitcoin Core reports. *)
Definition verify_snapshot_supply (g : GenesisFile) (total_amount : list Z) (tolerance_sats : Z)
    : result unit message :=
  let? summary := summarize_genesis g in
  if negb (reconciled summary)
  then Err (lit "Genesis must reconcile internally before snapshot supply comparison")
  else
    let? snapshot_total := parse_btc_amount_to_satoshis total_amount in
    let? genesis_total := yocto_to_satoshis_exact (computed_total_yocto summary) in
    let diff := Z.abs (genesis_total - snapshot_total) in
    if tolerance_sats <? diff then
      Err (Msg "Snapshot supply reconciliation failed: diff {} sats exceeds tolerance {} sats"
             [FZ diff; FZ tolerance_sats])
    else Ok tt.
