(* ===== verification/Wire.v ===== *)
(** * Wire formats of the ledger's data

    The Borsh codecs of keys, accounts, actions and transactions, with the two
    hand-written ones of the repository: accounts, whose second version is marked
    by an impossible balance, and transactions, whose second version is told apart
    by the second byte. *)

From Stdlib Require Import Sorted.
From S2P Require Import Prelude Crates AccountId Primitives Borsh.

(* ------------------------------------------------------------------ *)
(** ** Keys, signatures and identifiers (core/crypto/src/signature.rs) *)

Definition public_key_c : codec PublicKey :=
  mkCodec
    (fun k => match k with ED25519 b => 0 :: b | SECP256K1 b => 1 :: b end)
    (fun b =>
      let* (t, b) := dec u8_c b in
      if t =? 0 then let* (k, b) := dec (array_c 32) b in Some (ED25519 k, b)
      else if t =? 1 then let* (k, b) := dec (array_c 64) b in Some (SECP256K1 k, b)
      else None).

Definition signature_c : codec Signature :=
  mkCodec
    (fun s => match s with SigED25519 b => 0 :: b | SigSECP256K1 b => 1 :: b end)
    (fun b =>
      let* (t, b) := dec u8_c b in
      if t =? 0 then
        let* (s, b) := dec (array_c 64) b in
        if negb (Z.land (nth 63 s 0) 0xE0 =? 0) then None else Some (SigED25519 s, b)
      else if t =? 1 then let* (s, b) := dec (array_c 65) b in Some (SigSECP256K1 s, b)
      else None).

Definition hash_c : codec CryptoHash := array_c 32.

(** near-account-id/src/borsh.rs: a string that [validate] accepts. *)
Definition account_id_c {C : Crates} : codec AccountId :=
  guard_c string_c (fun id => is_ok (validate id)).

(* ------------------------------------------------------------------ *)
(** ** Access keys *)

Definition function_call_permission_c : codec FunctionCallPermission :=
  map_c (pair_c (option_c u128_c) (pair_c string_c (vec_c string_c)))
    (fun p => (fcp_allowance p, (fcp_receiver_id p, fcp_method_names p)))
    (fun '(a, (r, m)) => mkFunctionCallPermission a r m).

Definition gas_key_info_c : codec GasKeyInfo :=
  map_c (pair_c u128_c u16_c) (fun g => (gk_balance g, gk_num_nonces g))
    (fun '(b, n) => mkGasKeyInfo b n).

Definition permission_c : codec AccessKeyPermission :=
  mkCodec
    (fun p => match p with
     | PermFunctionCall f => 0 :: enc function_call_permission_c f
     | PermFullAccess => [1]
     | PermGasKeyFunctionCall g f => 2 :: enc (pair_c gas_key_info_c function_call_permission_c) (g, f)
     | PermGasKeyFullAccess g => 3 :: enc gas_key_info_c g
     end)
    (fun b =>
      let* (t, b) := dec u8_c b in
      if t =? 0 then let* (f, b) := dec function_call_permission_c b in Some (PermFunctionCall f, b)
      else if t =? 1 then Some (PermFullAccess, b)
      else if t =? 2 then
        let* ((g, f), b) := dec (pair_c gas_key_info_c function_call_permission_c) b in
        Some (PermGasKeyFunctionCall g f, b)
      else if t =? 3 then let* (g, b) := dec gas_key_info_c b in Some (PermGasKeyFullAccess g, b)
      else None).

Definition access_key_c : codec AccessKey :=
  map_c (pair_c u64_c permission_c) (fun k => (ak_nonce k, ak_permission k))
    (fun '(n, p) => mkAccessKey n p).

(* ------------------------------------------------------------------ *)
(** ** Accounts (core/primitives-core/src/account.rs) *)

Section accounts.
Context {C : Crates}.

Definition account_contract_c : codec AccountContract :=
  mkCodec
    (fun c => match c with
     | ContractNone => [0]
     | ContractLocal h => 1 :: enc hash_c h
     | ContractGlobal h => 2 :: enc hash_c h
     | ContractGlobalByAccount id => 3 :: enc account_id_c id
     end)
    (fun b =>
      let* (t, b) := dec u8_c b in
      if t =? 0 then Some (ContractNone, b)
      else if t =? 1 then let* (h, b) := dec hash_c b in Some (ContractLocal h, b)
      else if t =? 2 then let* (h, b) := dec hash_c b in Some (ContractGlobal h, b)
      else if t =? 3 then let* (i, b) := dec account_id_c b in Some (ContractGlobalByAccount i, b)
      else None).

Definition account_v1_c : codec AccountV1 :=
  map_c (pair_c u128_c (pair_c u128_c (pair_c hash_c u64_c)))
    (fun a => (v1_amount a, (v1_locked a, (v1_code_hash a, v1_storage_usage a))))
    (fun '(a, (l, (h, s))) => mkAccountV1 a l h s).

Definition account_v2_c : codec AccountV2 :=
  map_c (pair_c u128_c (pair_c u128_c (pair_c u64_c account_contract_c)))
    (fun a => (v2_amount a, (v2_locked a, (v2_storage_usage a, v2_contract a))))
    (fun '(a, (l, (s, c))) => mkAccountV2 a l s c).

Definition account_c : codec Account :=
  mkCodec
    (fun a => match a with
     | AccV1 a => enc account_v1_c a
     | AccV2 a => enc u128_c SERIALIZATION_SENTINEL ++ 0 :: enc account_v2_c a
     end)
    (fun b =>
      let* (sentinel_or_amount, b) := dec u128_c b in
      if sentinel_or_amount =? SERIALIZATION_SENTINEL then
        let* (t, b) := dec u8_c b in
        if t =? 0 then let* (a, b) := dec account_v2_c b in Some (AccV2 a, b) else None
      else
        let* (l, b) := dec u128_c b in
        let* (h, b) := dec hash_c b in
        let* (s, b) := dec u64_c b in
        Some (AccV1 (mkAccountV1 sentinel_or_amount l h s), b)).
End accounts.

(* ------------------------------------------------------------------ *)
(** ** Actions (core/primitives/src/action/mod.rs) *)

(** A [BTreeMap] collects its entries in key order, later ones replacing
    earlier ones. *)
Fixpoint bytes_lt (a b : list Z) : bool :=
  match a, b with
  | _, [] => false
  | [], _ :: _ => true
  | x :: a, y :: b => (x <? y) || ((x =? y) && bytes_lt a b)
  end.

Fixpoint btree_insert (k v : list Z) (l : list (list Z * list Z)) : list (list Z * list Z) :=
  match l with
  | [] => [(k, v)]
  | (k', v') :: l' =>
      if bytes_lt k k' then (k, v) :: l
      else if bytes_lt k' k then (k', v') :: btree_insert k v l'
      else (k, v) :: l'
  end.

Definition btree_collect (l : list (list Z * list Z)) : list (list Z * list Z) :=
  fold_left (fun m kv => btree_insert kv.1 kv.2 m) l [].

Section wire.
Context {C : Crates}.

Definition identifier_c : codec GlobalContractIdentifier :=
  mkCodec
    (fun i => match i with
     | CodeHash h => 0 :: enc hash_c h
     | ByAccountId id => 1 :: enc account_id_c id
     end)
    (fun b =>
      let* (t, b) := dec u8_c b in
      if t =? 0 then let* (h, b) := dec hash_c b in Some (CodeHash h, b)
      else if t =? 1 then let* (i, b) := dec account_id_c b in Some (ByAccountId i, b)
      else None).

Definition deploy_mode_c : codec GlobalContractDeployMode :=
  mkCodec (fun m => match m with DeployCodeHash => [0] | DeployAccountId => [1] end)
    (fun b => let* (t, b) := dec u8_c b in
      if t =? 0 then Some (DeployCodeHash, b)
      else if t =? 1 then Some (DeployAccountId, b) else None).

Definition state_init_c : codec DeterministicAccountStateInit :=
  mkCodec
    (fun s => 0 :: enc (pair_c identifier_c (vec_c (pair_c (vec_c u8_c) (vec_c u8_c))))
                     (si_code s, si_data s))
    (fun b => let* (t, b) := dec u8_c b in
      if t =? 0 then
        let* ((i, d), b) := dec (pair_c identifier_c (vec_c (pair_c (vec_c u8_c) (vec_c u8_c)))) b in
        Some (mkStateInit i (btree_collect d), b)
      else None).

Definition function_call_c : codec FunctionCallAction :=
  map_c (pair_c string_c (pair_c (vec_c u8_c) (pair_c u64_c u128_c)))
    (fun f => (fc_method_name f, (fc_args f, (fc_gas f, fc_deposit f))))
    (fun '(m, (a, (g, d))) => mkFunctionCall m a g d).

Definition stake_c : codec StakeAction :=
  map_c (pair_c u128_c public_key_c) (fun s => (sa_stake s, sa_public_key s))
    (fun '(s, k) => mkStake s k).

Definition add_key_c : codec AddKeyAction :=
  map_c (pair_c public_key_c access_key_c) (fun a => (ad_public_key a, ad_access_key a))
    (fun '(p, k) => mkAddKey p k).

Definition deploy_global_c : codec DeployGlobalContractAction :=
  map_c (pair_c (vec_c u8_c) deploy_mode_c) (fun d => (dg_code d, dg_deploy_mode d))
    (fun '(c, m) => mkDeployGlobal c m).

Definition deterministic_c : codec DeterministicStateInitAction :=
  map_c (pair_c state_init_c u128_c) (fun d => (ds_state_init d, ds_deposit d))
    (fun '(s, d) => mkDeterministic s d).

Definition enc_plain (a : NonDelegateAction) : list Z :=
  match a with
  | CreateAccount => [0]
  | DeployContract code => 1 :: enc (vec_c u8_c) code
  | FunctionCall f => 2 :: enc function_call_c f
  | Transfer d => 3 :: enc u128_c d
  | Stake s => 4 :: enc stake_c s
  | AddKey k => 5 :: enc add_key_c k
  | DeleteKey k => 6 :: enc public_key_c k
  | DeleteAccount id => 7 :: enc account_id_c id
  | DeployGlobalContract d => 9 :: enc deploy_global_c d
  | UseGlobalContract i => 10 :: enc identifier_c i
  | DeterministicStateInit d => 11 :: enc deterministic_c d
  | TransferToGasKey k d => 12 :: enc (pair_c public_key_c u128_c) (k, d)
  | WithdrawFromGasKey k d => 13 :: enc (pair_c public_key_c u128_c) (k, d)
  end.

(** [deserialize_variant] on a tag other than the delegate one. *)
Definition dec_variant (t : Z) (b : list Z) : option (NonDelegateAction * list Z) :=
  if t =? 0 then Some (CreateAccount, b)
  else if t =? 1 then let* (c, b) := dec (vec_c u8_c) b in Some (DeployContract c, b)
  else if t =? 2 then let* (f, b) := dec function_call_c b in Some (FunctionCall f, b)
  else if t =? 3 then let* (d, b) := dec u128_c b in Some (Transfer d, b)
  else if t =? 4 then let* (s, b) := dec stake_c b in Some (Stake s, b)
  else if t =? 5 then let* (k, b) := dec add_key_c b in Some (AddKey k, b)
  else if t =? 6 then let* (k, b) := dec public_key_c b in Some (DeleteKey k, b)
  else if t =? 7 then let* (i, b) := dec account_id_c b in Some (DeleteAccount i, b)
  else if t =? 9 then let* (d, b) := dec deploy_global_c b in Some (DeployGlobalContract d, b)
  else if t =? 10 then let* (i, b) := dec identifier_c b in Some (UseGlobalContract i, b)
  else if t =? 11 then let* (d, b) := dec deterministic_c b in Some (DeterministicStateInit d, b)
  else if t =? 12 then
    let* ((k, d), b) := dec (pair_c public_key_c u128_c) b in Some (TransferToGasKey k d, b)
  else if t =? 13 then
    let* ((k, d), b) := dec (pair_c public_key_c u128_c) b in Some (WithdrawFromGasKey k d, b)
  else None.

Definition ACTION_DELEGATE_NUMBER : Z := 8.

Definition non_delegate_c : codec NonDelegateAction :=
  mkCodec enc_plain
    (fun b => let* (t, b) := dec u8_c b in
      if t =? ACTION_DELEGATE_NUMBER then None else dec_variant t b).

Definition delegate_action_c : codec DelegateAction :=
  map_c (pair_c account_id_c (pair_c account_id_c (pair_c (vec_c non_delegate_c)
           (pair_c u64_c (pair_c u64_c public_key_c)))))
    (fun d => (da_sender_id d, (da_receiver_id d, (da_actions d,
                (da_nonce d, (da_max_block_height d, da_public_key d))))))
    (fun '(s, (r, (a, (n, (m, k))))) => mkDelegate s r a n m k).

Definition signed_delegate_c : codec SignedDelegateAction :=
  map_c (pair_c delegate_action_c signature_c)
    (fun d => (sd_delegate_action d, sd_signature d)) (fun '(d, s) => mkSignedDelegate d s).

Definition action_c : codec Action :=
  mkCodec
    (fun a => match a with
     | Plain a => enc_plain a
     | Delegate d => ACTION_DELEGATE_NUMBER :: enc signed_delegate_c d
     end)
    (fun b => let* (t, b) := dec u8_c b in
      if t =? ACTION_DELEGATE_NUMBER
      then let* (d, b) := dec signed_delegate_c b in Some (Delegate d, b)
      else let* (a, b) := dec_variant t b in Some (Plain a, b)).

(* ------------------------------------------------------------------ *)
(** ** Transactions (core/primitives/src/transaction.rs) *)

Definition transaction_nonce_c : codec TransactionNonce :=
  mkCodec
    (fun n => match n with
     | Nonce n => 0 :: enc u64_c n
     | GasKeyNonce n i => 1 :: enc (pair_c u64_c u16_c) (n, i)
     end)
    (fun b => let* (t, b) := dec u8_c b in
      if t =? 0 then let* (n, b) := dec u64_c b in Some (Nonce n, b)
      else if t =? 1 then let* ((n, i), b) := dec (pair_c u64_c u16_c) b in Some (GasKeyNonce n i, b)
      else None).

(** The fields after the signer, for a given encoding of the nonce. *)
Definition tx_tail_c {N : Type} (nonce_c : codec N)
    : codec (PublicKey * (N * (AccountId * (CryptoHash * list Action)))) :=
  pair_c public_key_c (pair_c nonce_c (pair_c account_id_c (pair_c hash_c (vec_c action_c)))).

Definition enc_transaction (tx : Transaction) : list Z :=
  match tx with
  | TxV0 t =>
      enc account_id_c (t0_signer_id t)
      ++ enc (tx_tail_c u64_c) (t0_public_key t, (t0_nonce t, (t0_receiver_id t,
           (t0_block_hash t, t0_actions t))))
  | TxV1 t =>
      1 :: enc account_id_c (t1_signer_id t)
      ++ enc (tx_tail_c transaction_nonce_c) (t1_public_key t, (t1_nonce t, (t1_receiver_id t,
           (t1_block_hash t, t1_actions t))))
  end.

(** The closure [read_signer_id] of [deserialize_reader]. *)
Definition read_signer_id (buf : list Z) (b : list Z) : option (AccountId * list Z) :=
  let* (str_len, _) := le_dec 4 buf in
  if MAX_LEN <? str_len then None
  else
    let* (bytes, b) := dec_many u8_c (Z.to_nat str_len) b in
    if negb (is_utf8 bytes) then None
    else if is_ok (validate (of_bytes bytes)) then Some (of_bytes bytes, b) else None.

Definition dec_transaction (b : list Z) : option (Transaction * list Z) :=
  let* (u1, b) := dec u8_c b in
  let* (u2, b) := dec u8_c b in
  let* (u3, b) := dec u8_c b in
  let* (u4, b) := dec u8_c b in
  if u2 =? 0 then
    let* (signer, b) := read_signer_id [u1; u2; u3; u4] b in
    let* ((k, (n, (r, (h, a)))), b) := dec (tx_tail_c u64_c) b in
    Some (TxV0 (mkTransactionV0 signer k n r h a), b)
  else
    let* (u5, b) := dec u8_c b in
    let* (signer, b) := read_signer_id [u2; u3; u4; u5] b in
    let* ((k, (n, (r, (h, a)))), b) := dec (tx_tail_c transaction_nonce_c) b in
    Some (TxV1 (mkTransactionV1 signer k n r h a), b).

Definition transaction_c : codec Transaction := mkCodec enc_transaction dec_transaction.

(** [SignedTransaction]: hash and size are not part of the encoding. *)
Definition signed_transaction_c : codec (Transaction * Signature) :=
  pair_c transaction_c signature_c.
End wire.

(* ------------------------------------------------------------------ *)
(** ** Round trips *)

Lemma u8_tag t l : is_u u8_max t -> dec u8_c (t :: l) = Some (t, l).
Proof.
  intros Ht. pose proof (u8_rt t l Ht) as H. unfold u8_c, uint_c in *. simpl in *.
  rewrite Z.mod_small in H by (unfold is_u, u8_max in *; lia). exact H.
Qed.

Ltac tag := rewrite u8_tag by (unfold is_u, u8_max; lia); cbn [Z.eqb Pos.eqb].

Lemma array_dec n b rest : length b = n -> dec (array_c n) (b ++ rest) = Some (b, rest).
Proof. apply array_rt. Qed.

Lemma hash_rt : round_trip hash_c (fun h => length h = 32%nat).
Proof. apply array_rt. Qed.

Definition key_wf (k : PublicKey) : Prop :=
  match k with
  | ED25519 b => length b = 32%nat
  | SECP256K1 b => length b = 64%nat
  end.

Lemma public_key_rt : round_trip public_key_c key_wf.
Proof.
  intros [b|b] rest Hk; unfold public_key_c; cbn [enc dec app]; tag;
    by rewrite (array_dec _ b rest Hk).
Qed.

Definition sig_wf (s : Signature) : Prop :=
  match s with
  | SigED25519 b => length b = 64%nat /\ Z.land (nth 63 b 0) 0xE0 = 0
  | SigSECP256K1 b => length b = 65%nat
  end.

Lemma signature_rt : round_trip signature_c sig_wf.
Proof.
  intros [b|b] rest Hk; unfold signature_c; cbn [enc dec app]; tag.
  - destruct Hk as [Hk Hz]. rewrite (array_dec _ b rest Hk). by rewrite Hz.
  - by rewrite (array_dec _ b rest Hk).
Qed.

Definition str_wf (s : string) : Prop := str_len s <= u32_max /\ is_str s = true.

Definition fcp_wf (p : FunctionCallPermission) : Prop :=
  (forall a, fcp_allowance p = Some a -> is_u u128_max a) /\ str_wf (fcp_receiver_id p)
  /\ vec_len (fcp_method_names p) <= u32_max /\ Forall str_wf (fcp_method_names p).

Lemma function_call_permission_rt : round_trip function_call_permission_c fcp_wf.
Proof.
  eapply map_rt.
  - apply pair_rt; [apply option_rt, u128_rt|]. apply pair_rt; [apply string_rt|].
    apply vec_rt, string_rt.
  - intros [a r m] (? & ? & ? & ?). unfold str_wf in *. simpl in *. split_and!; try done; tauto.
Qed.

Definition gki_wf (g : GasKeyInfo) : Prop :=
  is_u u128_max (gk_balance g) /\ is_u u16_max (gk_num_nonces g).

Lemma gas_key_info_rt : round_trip gas_key_info_c gki_wf.
Proof.
  eapply map_rt; [apply pair_rt; [apply u128_rt|apply u16_rt]|].
  intros [b n] [? ?]. simpl in *. by split_and!.
Qed.

Definition permission_wf (p : AccessKeyPermission) : Prop :=
  match p with
  | PermFunctionCall f => fcp_wf f
  | PermFullAccess => True
  | PermGasKeyFunctionCall g f => gki_wf g /\ fcp_wf f
  | PermGasKeyFullAccess g => gki_wf g
  end.

Lemma permission_rt : round_trip permission_c permission_wf.
Proof.
  intros [f| |g f|g] rest H; unfold permission_c; cbn [enc dec app]; tag.
  - by rewrite (function_call_permission_rt f rest H).
  - done.
  - rewrite (pair_rt _ _ _ _ gas_key_info_rt function_call_permission_rt (g, f) rest H). done.
  - by rewrite (gas_key_info_rt g rest H).
Qed.

Definition access_key_wf (k : AccessKey) : Prop :=
  is_u u64_max (ak_nonce k) /\ permission_wf (ak_permission k).

Lemma access_key_rt : round_trip access_key_c access_key_wf.
Proof.
  eapply map_rt; [apply pair_rt; [apply u64_rt|apply permission_rt]|].
  intros [n p] [? ?]. simpl in *. by split_and!.
Qed.

Section account_rt.
Context {C : Crates}.

Definition id_wf (id : AccountId) : Prop := str_wf id /\ is_ok (validate id) = true.

Lemma account_id_rt : round_trip account_id_c id_wf.
Proof. apply guard_rt, string_rt. Qed.

Definition contract_wf (c : AccountContract) : Prop :=
  match c with
  | ContractNone => True
  | ContractLocal h | ContractGlobal h => length h = 32%nat
  | ContractGlobalByAccount id => id_wf id
  end.

Lemma account_contract_rt : round_trip account_contract_c contract_wf.
Proof.
  intros [|h|h|id] rest H; unfold account_contract_c; cbn [enc dec app]; tag.
  - done.
  - by rewrite (hash_rt h rest H).
  - by rewrite (hash_rt h rest H).
  - by rewrite (account_id_rt id rest H).
Qed.

Definition account_wf (a : Account) : Prop :=
  is_u u128_max (amount a) /\ is_u u128_max (locked a) /\ is_u u64_max (storage_usage a)
  /\ match a with
     | AccV1 a => length (v1_code_hash a) = 32%nat
     | AccV2 a => contract_wf (v2_contract a)
     end.

Lemma account_v2_rt :
  round_trip account_v2_c (fun a => account_wf (AccV2 a)).
Proof.
  eapply map_rt.
  - apply pair_rt; [apply u128_rt|]. apply pair_rt; [apply u128_rt|].
    apply pair_rt; [apply u64_rt|apply account_contract_rt].
  - intros [a l s c] (? & ? & ? & ?). simpl in *. by split_and!.
Qed.

(** Round trip of stored accounts through the sentinel format: every
    account decodes from its encoding, with the bytes that follow left over,
    provided a version-1 account does not hold the maximal balance that marks
    version 2. *)
Theorem account_round_trip a rest :
  account_wf a -> (forall v, a = AccV1 v -> v1_amount v <> SERIALIZATION_SENTINEL) ->
  dec account_c (enc account_c a ++ rest) = Some (a, rest).
Proof.
  intros Hwf Hs. destruct a as [[a l h s]|a]; unfold account_c; cbn [enc dec].
  - destruct Hwf as (Ha & Hl & Hu & Hh). simpl in Ha, Hl, Hu, Hh.
    unfold account_v1_c, map_c, pair_c. cbn [enc v1_amount v1_locked v1_code_hash v1_storage_usage fst snd].
    rewrite <- !(assoc_L (++)). rewrite (u128_rt a) by done.
    destruct (Z.eqb_spec a SERIALIZATION_SENTINEL); [by destruct (Hs _ eq_refl)|].
    rewrite (u128_rt l) by done. rewrite (hash_rt h) by done.
    by rewrite (u64_rt s) by done.
  - rewrite <- (assoc_L (++)), (u128_rt SERIALIZATION_SENTINEL)
      by (unfold is_u, SERIALIZATION_SENTINEL, u128_max; lia).
    rewrite Z.eqb_refl. cbn [app]. tag. by rewrite (account_v2_rt a rest Hwf).
Qed.
End account_rt.

Lemma bytes_lt_asym a b : bytes_lt a b = true -> bytes_lt b a = false.
Proof.
  revert b. induction a as [|x a IH]; intros [|y b] H; simpl in *; try done.
  destruct (Z.ltb_spec x y), (Z.ltb_spec y x), (Z.eqb_spec x y), (Z.eqb_spec y x);
    simpl in *; try lia; try done. auto.
Qed.

Definition entries_sorted (l : list (list Z * list Z)) : Prop :=
  StronglySorted (fun a b => bytes_lt a.1 b.1 = true) l.

Lemma btree_insert_last m k v :
  Forall (fun kv => bytes_lt kv.1 k = true) m -> btree_insert k v m = m ++ [(k, v)].
Proof.
  induction 1 as [|[k' v'] m Hk _ IH]; simpl in *; [done|].
  by rewrite (bytes_lt_asym _ _ Hk), Hk, IH.
Qed.

Lemma btree_collect_sorted l : entries_sorted l -> btree_collect l = l.
Proof.
  unfold btree_collect, entries_sorted. change l with ([] ++ l) at 1 3.
  generalize (@nil (list Z * list Z)). induction l as [|[k v] l IH]; intros m Hs; simpl.
  { by rewrite app_nil_r. }
  rewrite btree_insert_last.
  - rewrite IH; [by rewrite <- (assoc_L (++))|]. by rewrite <- (assoc_L (++)).
  - clear IH. induction m as [|a m IH]; [constructor|]. inversion_clear Hs as [|? ? Hs' Ha].
    constructor; [|by apply IH]. rewrite Forall_app in Ha. destruct Ha as [_ Ha].
    by inversion_clear Ha.
Qed.

Section tx_rt.
Context {C : Crates}.

Definition bytes_wf (l : list Z) : Prop := vec_len l <= u32_max /\ bytes_ok l.

Definition identifier_wf (i : GlobalContractIdentifier) : Prop :=
  match i with
  | CodeHash h => length h = 32%nat
  | ByAccountId id => id_wf id
  end.

Definition state_init_wf (s : DeterministicAccountStateInit) : Prop :=
  identifier_wf (si_code s) /\ vec_len (si_data s) <= u32_max
  /\ Forall (fun kv => bytes_wf kv.1 /\ bytes_wf kv.2) (si_data s) /\ entries_sorted (si_data s).

Definition plain_wf (a : NonDelegateAction) : Prop :=
  match a with
  | CreateAccount => True
  | DeployContract code => bytes_wf code
  | FunctionCall f =>
      str_wf (fc_method_name f) /\ bytes_wf (fc_args f)
      /\ is_u u64_max (fc_gas f) /\ is_u u128_max (fc_deposit f)
  | Transfer d => is_u u128_max d
  | Stake s => is_u u128_max (sa_stake s) /\ key_wf (sa_public_key s)
  | AddKey k => key_wf (ad_public_key k) /\ access_key_wf (ad_access_key k)
  | DeleteKey k => key_wf k
  | DeleteAccount id => id_wf id
  | DeployGlobalContract d => bytes_wf (dg_code d)
  | UseGlobalContract i => identifier_wf i
  | DeterministicStateInit d => state_init_wf (ds_state_init d) /\ is_u u128_max (ds_deposit d)
  | TransferToGasKey k d | WithdrawFromGasKey k d => key_wf k /\ is_u u128_max d
  end.

Lemma identifier_rt : round_trip identifier_c identifier_wf.
Proof.
  intros [h|id] rest H; unfold identifier_c; cbn [enc dec app]; tag.
  - by rewrite (hash_rt h rest H).
  - by rewrite (account_id_rt id rest H).
Qed.

Lemma deploy_mode_rt : round_trip deploy_mode_c (fun _ => True).
Proof. by intros [] rest _. Qed.

Lemma state_init_rt : round_trip state_init_c state_init_wf.
Proof.
  intros [i d] rest (Hi & Hl & Hd & Hs). simpl in Hi, Hl, Hd, Hs.
  unfold state_init_c. cbn [enc dec app si_code si_data]. tag.
  rewrite (pair_rt _ _ _ _ identifier_rt
    (vec_rt _ _ (pair_rt _ _ _ _ bytes_rt bytes_rt)) (i, d) rest).
  - by rewrite btree_collect_sorted.
  - by split_and!.
Qed.

Lemma function_call_rt : round_trip function_call_c (fun f => plain_wf (FunctionCall f)).
Proof.
  eapply map_rt.
  - apply pair_rt; [apply string_rt|]. apply pair_rt; [apply bytes_rt|].
    apply pair_rt; [apply u64_rt|apply u128_rt].
  - intros [m a g d] (? & ? & ? & ?). unfold str_wf, bytes_wf in *. simpl in *.
    split_and!; try done; tauto.
Qed.

Lemma stake_rt : round_trip stake_c (fun s => plain_wf (Stake s)).
Proof.
  eapply map_rt; [apply pair_rt; [apply u128_rt|apply public_key_rt]|]. by intros [] [].
Qed.

Lemma add_key_rt : round_trip add_key_c (fun k => plain_wf (AddKey k)).
Proof.
  eapply map_rt; [apply pair_rt; [apply public_key_rt|apply access_key_rt]|]. by intros [] [].
Qed.

Lemma deploy_global_rt : round_trip deploy_global_c (fun d => plain_wf (DeployGlobalContract d)).
Proof.
  eapply map_rt; [apply pair_rt; [apply bytes_rt|apply deploy_mode_rt]|]. by intros [] [].
Qed.

Lemma deterministic_rt : round_trip deterministic_c (fun d => plain_wf (DeterministicStateInit d)).
Proof.
  eapply map_rt; [apply pair_rt; [apply state_init_rt|apply u128_rt]|]. by intros [] [].
Qed.

Lemma plain_variant_rt a :
  plain_wf a ->
  exists t payload, enc_plain a = t :: payload /\ is_u u8_max t /\ t <> ACTION_DELEGATE_NUMBER
  /\ forall rest, dec_variant t (payload ++ rest) = Some (a, rest).
Proof.
  unfold ACTION_DELEGATE_NUMBER.
  destruct a as [|c|f|d|s|k|k|id|d|i|d|k d|k d]; intros Hwf; simpl in Hwf;
    eexists _, _; (split; [reflexivity|]); (split; [unfold is_u, u8_max; lia|]);
    (split; [lia|]); intros rest; unfold dec_variant; cbn [Z.eqb Pos.eqb].
  - done.
  - by rewrite (bytes_rt c rest Hwf).
  - by rewrite (function_call_rt f rest Hwf).
  - by rewrite (u128_rt d rest Hwf).
  - by rewrite (stake_rt s rest Hwf).
  - by rewrite (add_key_rt k rest Hwf).
  - by rewrite (public_key_rt k rest Hwf).
  - by rewrite (account_id_rt id rest Hwf).
  - by rewrite (deploy_global_rt d rest Hwf).
  - by rewrite (identifier_rt i rest Hwf).
  - by rewrite (deterministic_rt d rest Hwf).
  - by rewrite (pair_rt _ _ _ _ public_key_rt u128_rt (k, d) rest Hwf).
  - by rewrite (pair_rt _ _ _ _ public_key_rt u128_rt (k, d) rest Hwf).
Qed.

Lemma non_delegate_rt : round_trip non_delegate_c plain_wf.
Proof.
  intros a rest Hwf. destruct (plain_variant_rt a Hwf) as (t & p & E & Ht & Hn & Hdec).
  unfold non_delegate_c. cbn [enc dec]. rewrite E. cbn [app]. rewrite u8_tag by done.
  destruct (Z.eqb_spec t ACTION_DELEGATE_NUMBER); [done|]. apply Hdec.
Qed.

Definition delegate_wf (d : DelegateAction) : Prop :=
  id_wf (da_sender_id d) /\ id_wf (da_receiver_id d)
  /\ vec_len (da_actions d) <= u32_max /\ Forall plain_wf (da_actions d)
  /\ is_u u64_max (da_nonce d) /\ is_u u64_max (da_max_block_height d) /\ key_wf (da_public_key d).

Definition action_wf (a : Action) : Prop :=
  match a with
  | Plain a => plain_wf a
  | Delegate d => delegate_wf (sd_delegate_action d) /\ sig_wf (sd_signature d)
  end.

Lemma delegate_action_rt : round_trip delegate_action_c delegate_wf.
Proof.
  eapply map_rt.
  - apply pair_rt; [apply account_id_rt|]. apply pair_rt; [apply account_id_rt|].
    apply pair_rt; [apply vec_rt, non_delegate_rt|].
    apply pair_rt; [apply u64_rt|]. apply pair_rt; [apply u64_rt|apply public_key_rt].
  - intros [] (? & ? & ? & ? & ? & ? & ?). simpl in *. by split_and!.
Qed.

Lemma signed_delegate_rt : round_trip signed_delegate_c (fun d => action_wf (Delegate d)).
Proof.
  eapply map_rt; [apply pair_rt; [apply delegate_action_rt|apply signature_rt]|]. by intros [] [].
Qed.

Lemma action_rt : round_trip action_c action_wf.
Proof.
  intros [a|d] rest Hwf; unfold action_c; cbn [enc dec].
  - destruct (plain_variant_rt a Hwf) as (t & p & E & Ht & Hn & Hdec).
    rewrite E. cbn [app]. rewrite u8_tag by done.
    destruct (Z.eqb_spec t ACTION_DELEGATE_NUMBER); [done|]. by rewrite Hdec.
  - cbn [app]. rewrite u8_tag by (unfold is_u, u8_max, ACTION_DELEGATE_NUMBER; lia).
    rewrite Z.eqb_refl. by rewrite (signed_delegate_rt d rest Hwf).
Qed.

(* ------------------------------------------------------------------ *)
(** ** Transactions *)

Lemma validate_bounds id : is_ok (validate id) = true -> MIN_LEN <= str_len id <= MAX_LEN.
Proof.
  unfold validate. destruct (Z.ltb_spec (str_len id) MIN_LEN); [done|].
  destruct (Z.ltb_spec MAX_LEN (str_len id)); [done|]. lia.
Qed.

(** The encoding of an identifier: four length bytes and the characters. *)
Lemma enc_account_id id :
  enc account_id_c id = le_enc 4 (str_len id) ++ flat_map (enc u8_c) (as_bytes id).
Proof.
  change (enc account_id_c id) with (enc (vec_c u8_c) (as_bytes id)).
  unfold vec_c. cbn [enc]. unfold vec_len. by rewrite length_as_bytes_Z.
Qed.

Lemma read_signer_id_enc id rest :
  id_wf id ->
  read_signer_id (le_enc 4 (str_len id)) (flat_map (enc u8_c) (as_bytes id) ++ rest)
  = Some (id, rest).
Proof.
  intros [[Hl Hs] Hv]. pose proof (validate_bounds id Hv) as Hb. unfold read_signer_id.
  pose proof (u32_rt (str_len id) []) as Hu. unfold u32_c, uint_c in Hu. cbn [enc dec] in Hu.
  rewrite app_nil_r in Hu. rewrite Hu by (unfold is_u, MIN_LEN in *; lia).
  destruct (Z.ltb_spec MAX_LEN (str_len id)); [lia|].
  unfold str_len. rewrite Nat2Z.id, <- length_as_bytes.
  rewrite (dec_many_rt u8_c (is_u u8_max)); [|apply u8_rt|apply as_bytes_ok].
  unfold is_str in Hs. rewrite Hs, of_bytes_as_bytes, Hv. done.
Qed.

Lemma le_enc_4 v : le_enc 4 v = [v mod 256; v / 256 mod 256; v / 256 / 256 mod 256;
                                 v / 256 / 256 / 256 mod 256].
Proof. done. Qed.

Definition nonce_wf (n : TransactionNonce) : Prop :=
  match n with
  | Nonce n => is_u u64_max n
  | GasKeyNonce n i => is_u u64_max n /\ is_u u16_max i
  end.

Lemma transaction_nonce_rt : round_trip transaction_nonce_c nonce_wf.
Proof.
  intros [n|n i] rest H; unfold transaction_nonce_c; cbn [enc dec app]; tag.
  - by rewrite (u64_rt n rest H).
  - by rewrite (pair_rt _ _ _ _ u64_rt u16_rt (n, i) rest H).
Qed.

Definition transaction_wf (tx : Transaction) : Prop :=
  id_wf (signer_id tx) /\ key_wf (public_key tx) /\ nonce_wf (nonce tx)
  /\ id_wf (receiver_id tx) /\ length (block_hash tx) = 32%nat
  /\ vec_len (actions tx) <= u32_max /\ Forall action_wf (actions tx).

Lemma tx_tail_rt {N} (c : codec N) P :
  round_trip c P ->
  round_trip (tx_tail_c c) (fun t => key_wf t.1 /\ P t.2.1 /\ id_wf t.2.2.1
    /\ length t.2.2.2.1 = 32%nat /\ vec_len t.2.2.2.2 <= u32_max /\ Forall action_wf t.2.2.2.2).
Proof.
  intros Hc.
  exact (pair_rt _ _ _ _ public_key_rt (pair_rt _ _ _ _ Hc
          (pair_rt _ _ _ _ account_id_rt (pair_rt _ _ _ _ hash_rt (vec_rt _ _ action_rt))))).
Qed.

Lemma transaction_rt : round_trip transaction_c transaction_wf.
Proof.
  intros tx rest (Hs & Hk & Hn & Hr & Hh & Hl & Ha).
  pose proof (validate_bounds _ (proj2 Hs)) as Hb. unfold MIN_LEN, MAX_LEN in Hb.
  destruct tx as [[s k n r h a]|[s k n r h a]]; cbn -[enc dec] in Hs, Hk, Hn, Hr, Hh, Hl, Ha, Hb;
    unfold transaction_c; cbn [enc dec]; unfold enc_transaction, dec_transaction;
    cbn [t0_signer_id t0_public_key t0_nonce t0_receiver_id t0_block_hash t0_actions
         t1_signer_id t1_public_key t1_nonce t1_receiver_id t1_block_hash t1_actions];
    rewrite enc_account_id; cbn [app]; rewrite <- !(assoc_L (++));
    set (body := flat_map _ _ ++ _).
  - rewrite le_enc_4. cbn [app]. do 4 (rewrite u8_tag by
      (pose proof (Z.mod_pos_bound); unfold is_u, u8_max; Z.to_euclidean_division_equations; lia)).
    replace (str_len s / 256 mod 256) with 0 by (Z.to_euclidean_division_equations; lia).
    rewrite Z.eqb_refl. subst body.
    replace [str_len s mod 256; 0; _; _] with (le_enc 4 (str_len s))
      by (rewrite le_enc_4; repeat f_equal; Z.to_euclidean_division_equations; lia).
    rewrite read_signer_id_enc by done.
    by rewrite (tx_tail_rt u64_c (is_u u64_max) u64_rt (k, (n, (r, (h, a)))) rest).
  - rewrite le_enc_4. cbn [app]. rewrite u8_tag by (unfold is_u, u8_max; lia).
    do 3 (rewrite u8_tag by
      (unfold is_u, u8_max; Z.to_euclidean_division_equations; lia)).
    destruct (Z.eqb_spec (str_len s mod 256) 0) as [E|_];
      [rewrite Z.mod_small in E; lia|].
    rewrite u8_tag by (unfold is_u, u8_max; Z.to_euclidean_division_equations; lia).
    rewrite <- le_enc_4. subst body. rewrite read_signer_id_enc by done.
    by rewrite (tx_tail_rt transaction_nonce_c nonce_wf transaction_nonce_rt
                  (k, (n, (r, (h, a)))) rest).
Qed.

(** C32. Round trip of transactions through the version trick: a transaction of
    either version decodes from its encoding to itself, the version being
    recovered from the second byte, whatever follows. *)
Theorem transaction_round_trip tx rest :
  transaction_wf tx -> dec_transaction (enc_transaction tx ++ rest) = Some (tx, rest).
Proof. apply transaction_rt. Qed.
End tx_rt.

(* ------------------------------------------------------------------ *)
(** ** The theorems at concrete inputs *)

Section witnesses.
#[local] Existing Instance Toy.crates.

Definition sample_account : Account :=
  AccV2 (mkAccountV2 5 7 182 (ContractGlobalByAccount "alice.near")).

Lemma alice_wf : id_wf "alice.near".
Proof. by split_and!; vm_compute. Qed.

Lemma account_round_trip_witness :
  dec account_c (enc account_c sample_account ++ [9]) = Some (sample_account, [9]).
Proof.
  apply account_round_trip.
  - unfold account_wf, is_u, u128_max, u64_max. cbn. split_and!; try lia; apply alice_wf.
  - intros v H. discriminate H.
Defined.

Definition sample_tx : Transaction :=
  TxV1 {| t1_signer_id := "alice.near"; t1_public_key := ED25519 (replicate 32 7);
          t1_nonce := GasKeyNonce 12 3; t1_receiver_id := "alice.near";
          t1_block_hash := hash_default;
          t1_actions := [Plain CreateAccount; Plain (Transfer 11)] |}.

Lemma transaction_round_trip_witness :
  dec_transaction (enc_transaction sample_tx ++ [1; 2]) = Some (sample_tx, [1; 2]).
Proof.
  apply transaction_round_trip. unfold transaction_wf, is_u, nonce_wf.
  cbn [signer_id public_key nonce receiver_id block_hash actions sample_tx t1_signer_id
       t1_public_key t1_nonce t1_receiver_id t1_block_hash t1_actions].
  split_and!; try apply alice_wf; try done.
  repeat constructor; done.
Defined.
End witnesses.
