(* ===== verification/ReceiptWire.v ===== *)
(** * Wire format of receipts (core/primitives/src/receipt.rs)

    The Borsh codecs of receipts and of the receipts kept in the state.  A stored
    entry is either a bare receipt or a receipt with metadata, told apart by its
    first two bytes. *)

From S2P Require Import Prelude Crates AccountId Primitives Borsh Wire.

Section wire.
Context {C : Crates}.

Definition data_receiver_c : codec DataReceiver :=
  map_c (pair_c hash_c account_id_c) (fun d => (dr_data_id d, dr_receiver_id d))
    (fun '(i, r) => mkDataReceiver i r).

Definition action_receipt_c : codec ActionReceipt :=
  map_c (pair_c account_id_c (pair_c public_key_c (pair_c u128_c
           (pair_c (vec_c data_receiver_c) (pair_c (vec_c hash_c) (vec_c action_c))))))
    (fun r => (ar_signer_id r, (ar_signer_public_key r, (ar_gas_price r,
                (ar_output_data_receivers r, (ar_input_data_ids r, ar_actions r))))))
    (fun '(s, (k, (g, (o, (i, a))))) => mkActionReceipt s k g o i a).

Definition action_receipt_v2_c : codec ActionReceiptV2 :=
  map_c (pair_c account_id_c (pair_c (option_c account_id_c) (pair_c public_key_c (pair_c u128_c
           (pair_c (vec_c data_receiver_c) (pair_c (vec_c hash_c) (vec_c action_c)))))))
    (fun v => let r := ar2_receipt v in
              (ar_signer_id r, (ar2_refund_to v, (ar_signer_public_key r, (ar_gas_price r,
                (ar_output_data_receivers r, (ar_input_data_ids r, ar_actions r)))))))
    (fun '(s, (f, (k, (g, (o, (i, a)))))) => mkActionReceiptV2 f (mkActionReceipt s k g o i a)).

Definition data_receipt_c : codec DataReceipt :=
  map_c (pair_c hash_c (option_c (vec_c u8_c))) (fun d => (dt_data_id d, dt_data d))
    (fun '(i, d) => mkDataReceipt i d).

(** The fields the two versions of a distribution receipt share. *)
Definition distribution_fields_c
    : codec (GlobalContractIdentifier * (Z * (list Z * list Z))) :=
  pair_c identifier_c (pair_c u64_c (pair_c (vec_c u64_c) (vec_c u8_c))).

Definition distribution_c : codec GlobalContractDistributionReceipt :=
  mkCodec
    (fun g =>
       let fields := enc distribution_fields_c
                       (gd_id g, (gd_target_shard g, (gd_already_delivered_shards g, gd_code g))) in
       match gd_nonce g with
       | None => 0 :: fields
       | Some n => 1 :: fields ++ enc u64_c n
       end)
    (fun b =>
      let* (t, b) := dec u8_c b in
      if t =? 0 then
        let* ((i, (s, (d, c))), b) := dec distribution_fields_c b in
        Some (mkGlobalDistribution i s d c None, b)
      else if t =? 1 then
        let* (((i, (s, (d, c))), n), b) := dec (pair_c distribution_fields_c u64_c) b in
        Some (mkGlobalDistribution i s d c (Some n), b)
      else None).

Definition receipt_enum_c : codec ReceiptEnum :=
  mkCodec
    (fun r => match r with
     | RAction a => 0 :: enc action_receipt_c a
     | RData d => 1 :: enc data_receipt_c d
     | RPromiseYield a => 2 :: enc action_receipt_c a
     | RPromiseResume d => 3 :: enc data_receipt_c d
     | RGlobalContractDistribution g => 4 :: enc distribution_c g
     | RActionV2 a => 5 :: enc action_receipt_v2_c a
     | RPromiseYieldV2 a => 6 :: enc action_receipt_v2_c a
     end)
    (fun b =>
      let* (t, b) := dec u8_c b in
      if t =? 0 then let* (a, b) := dec action_receipt_c b in Some (RAction a, b)
      else if t =? 1 then let* (d, b) := dec data_receipt_c b in Some (RData d, b)
      else if t =? 2 then let* (a, b) := dec action_receipt_c b in Some (RPromiseYield a, b)
      else if t =? 3 then let* (d, b) := dec data_receipt_c b in Some (RPromiseResume d, b)
      else if t =? 4 then
        let* (g, b) := dec distribution_c b in Some (RGlobalContractDistribution g, b)
      else if t =? 5 then let* (a, b) := dec action_receipt_v2_c b in Some (RActionV2 a, b)
      else if t =? 6 then let* (a, b) := dec action_receipt_v2_c b in Some (RPromiseYieldV2 a, b)
      else None).

(** [Receipt::V0] is encoded without a version tag. *)
Definition receipt_c : codec Receipt :=
  map_c (pair_c account_id_c (pair_c account_id_c (pair_c hash_c receipt_enum_c)))
    (fun r => (r_predecessor_id r, (r_receiver_id r, (r_receipt_id r, r_receipt r))))
    (fun '(p, (r, (i, e))) => mkReceipt p r i e).

(* ------------------------------------------------------------------ *)
(** ** Receipts in the state *)

Record StateStoredReceiptMetadata : Type := mkMetadata {
  congestion_gas : Z;
  congestion_size : Z;
}.

Inductive StateStoredReceipt : Type :=
| StoredV0 (receipt : Receipt) (m : StateStoredReceiptMetadata)
| StoredV1 (receipt : Receipt) (m : StateStoredReceiptMetadata).

Inductive ReceiptOrStateStoredReceipt : Type :=
| BareReceipt (r : Receipt)
| StoredReceipt (r : StateStoredReceipt).

Definition STATE_STORED_RECEIPT_TAG : Z := u8_max.

Definition stored_fields_c : codec (Receipt * (Z * Z)) := pair_c receipt_c (pair_c u64_c u64_c).

Definition state_stored_receipt_c : codec StateStoredReceipt :=
  mkCodec
    (fun r =>
       STATE_STORED_RECEIPT_TAG :: STATE_STORED_RECEIPT_TAG ::
       match r with
       | StoredV0 r m => 0 :: enc stored_fields_c (r, (congestion_gas m, congestion_size m))
       | StoredV1 r m => 1 :: enc stored_fields_c (r, (congestion_gas m, congestion_size m))
       end)
    (fun b =>
      let* (u1, b) := dec u8_c b in
      let* (u2, b) := dec u8_c b in
      let* (u3, b) := dec u8_c b in
      if negb (u1 =? STATE_STORED_RECEIPT_TAG) || negb (u2 =? STATE_STORED_RECEIPT_TAG) then None
      else if u3 =? 0 then
        let* ((r, (g, s)), b) := dec stored_fields_c b in Some (StoredV0 r (mkMetadata g s), b)
      else if u3 =? 1 then
        let* ((r, (g, s)), b) := dec stored_fields_c b in Some (StoredV1 r (mkMetadata g s), b)
      else None).

(** The two bytes read ahead are put back before the chosen decoder runs. *)
Definition stored_entry_c : codec ReceiptOrStateStoredReceipt :=
  mkCodec
    (fun e => match e with
     | BareReceipt r => enc receipt_c r
     | StoredReceipt r => enc state_stored_receipt_c r
     end)
    (fun b =>
      let* (u1, b1) := dec u8_c b in
      let* (u2, b2) := dec u8_c b1 in
      let reader := u1 :: u2 :: b2 in
      if (u1 =? STATE_STORED_RECEIPT_TAG) && (u2 =? STATE_STORED_RECEIPT_TAG) then
        let* (r, b) := dec state_stored_receipt_c reader in Some (StoredReceipt r, b)
      else let* (r, b) := dec receipt_c reader in Some (BareReceipt r, b)).

Definition get_receipt (e : ReceiptOrStateStoredReceipt) : Receipt :=
  match e with
  | BareReceipt r => r
  | StoredReceipt (StoredV0 r _) | StoredReceipt (StoredV1 r _) => r
  end.

Definition should_update_outgoing_metadatas (e : ReceiptOrStateStoredReceipt) : bool :=
  match e with
  | BareReceipt _ | StoredReceipt (StoredV0 _ _) => false
  | StoredReceipt (StoredV1 _ _) => true
  end.
End wire.

(* ------------------------------------------------------------------ *)
(** ** Round trips *)

Section rt.
Context {C : Crates}.

Definition data_receiver_wf (d : DataReceiver) : Prop :=
  length (dr_data_id d) = 32%nat /\ id_wf (dr_receiver_id d).

Lemma data_receiver_rt : round_trip data_receiver_c data_receiver_wf.
Proof.
  eapply map_rt; [apply pair_rt; [apply hash_rt|apply account_id_rt]|]. by intros [] [].
Qed.

Definition action_receipt_wf (r : ActionReceipt) : Prop :=
  id_wf (ar_signer_id r) /\ key_wf (ar_signer_public_key r) /\ is_u u128_max (ar_gas_price r)
  /\ (vec_len (ar_output_data_receivers r) <= u32_max
      /\ Forall data_receiver_wf (ar_output_data_receivers r))
  /\ (vec_len (ar_input_data_ids r) <= u32_max
      /\ Forall (fun h => length h = 32%nat) (ar_input_data_ids r))
  /\ vec_len (ar_actions r) <= u32_max /\ Forall action_wf (ar_actions r).

Lemma action_receipt_rt : round_trip action_receipt_c action_receipt_wf.
Proof.
  eapply map_rt.
  - apply pair_rt; [apply account_id_rt|]. apply pair_rt; [apply public_key_rt|].
    apply pair_rt; [apply u128_rt|]. apply pair_rt; [apply vec_rt, data_receiver_rt|].
    apply pair_rt; [apply vec_rt, hash_rt|apply vec_rt, action_rt].
  - by intros [] (? & ? & ? & ? & ? & ?).
Qed.

Definition action_receipt_v2_wf (r : ActionReceiptV2) : Prop :=
  (forall id, ar2_refund_to r = Some id -> id_wf id) /\ action_receipt_wf (ar2_receipt r).

Lemma action_receipt_v2_rt : round_trip action_receipt_v2_c action_receipt_v2_wf.
Proof.
  eapply map_rt.
  - apply pair_rt; [apply account_id_rt|]. apply pair_rt; [apply option_rt, account_id_rt|].
    apply pair_rt; [apply public_key_rt|]. apply pair_rt; [apply u128_rt|].
    apply pair_rt; [apply vec_rt, data_receiver_rt|].
    apply pair_rt; [apply vec_rt, hash_rt|apply vec_rt, action_rt].
  - by intros [f []] (? & ? & ? & ? & ? & ? & ?).
Qed.

Definition data_receipt_wf (d : DataReceipt) : Prop :=
  length (dt_data_id d) = 32%nat /\ forall b, dt_data d = Some b -> bytes_wf b.

Lemma data_receipt_rt : round_trip data_receipt_c data_receipt_wf.
Proof.
  eapply map_rt; [apply pair_rt; [apply hash_rt|apply option_rt, bytes_rt]|]. by intros [] [].
Qed.

Definition distribution_wf (g : GlobalContractDistributionReceipt) : Prop :=
  (identifier_wf (gd_id g) /\ is_u u64_max (gd_target_shard g)
   /\ (vec_len (gd_already_delivered_shards g) <= u32_max
       /\ Forall (is_u u64_max) (gd_already_delivered_shards g))
   /\ bytes_wf (gd_code g))
  /\ forall n, gd_nonce g = Some n -> is_u u64_max n.

Lemma distribution_fields_rt :
  round_trip distribution_fields_c (fun f => identifier_wf f.1 /\ is_u u64_max f.2.1
    /\ (vec_len f.2.2.1 <= u32_max /\ Forall (is_u u64_max) f.2.2.1) /\ bytes_wf f.2.2.2).
Proof.
  exact (pair_rt _ _ _ _ identifier_rt (pair_rt _ _ _ _ u64_rt
           (pair_rt _ _ _ _ (vec_rt _ _ u64_rt) bytes_rt))).
Qed.

Lemma distribution_rt : round_trip distribution_c distribution_wf.
Proof.
  intros [i s d c [n|]] rest [Hf Hn]; unfold distribution_c;
    cbn [enc dec app gd_nonce gd_id gd_target_shard gd_already_delivered_shards gd_code]; tag.
  - pose proof (pair_rt _ _ _ _ distribution_fields_rt u64_rt ((i, (s, (d, c))), n) rest) as H.
    unfold pair_c at 2 in H. cbn [enc fst snd] in H. rewrite H; [done|].
    split; [exact Hf|]. by apply Hn.
  - by rewrite (distribution_fields_rt (i, (s, (d, c))) rest Hf).
Qed.

Definition receipt_enum_wf (r : ReceiptEnum) : Prop :=
  match r with
  | RAction a | RPromiseYield a => action_receipt_wf a
  | RData d | RPromiseResume d => data_receipt_wf d
  | RGlobalContractDistribution g => distribution_wf g
  | RActionV2 a | RPromiseYieldV2 a => action_receipt_v2_wf a
  end.

Lemma receipt_enum_rt : round_trip receipt_enum_c receipt_enum_wf.
Proof.
  intros [a|d|a|d|g|a|a] rest H; unfold receipt_enum_c; cbn [enc dec app]; tag;
    first [ by rewrite (action_receipt_rt a rest H) | by rewrite (data_receipt_rt d rest H)
          | by rewrite (distribution_rt g rest H) | by rewrite (action_receipt_v2_rt a rest H) ].
Qed.

Definition receipt_wf (r : Receipt) : Prop :=
  id_wf (r_predecessor_id r) /\ id_wf (r_receiver_id r) /\ length (r_receipt_id r) = 32%nat
  /\ receipt_enum_wf (r_receipt r).

Lemma receipt_rt : round_trip receipt_c receipt_wf.
Proof.
  eapply map_rt.
  - apply pair_rt; [apply account_id_rt|]. apply pair_rt; [apply account_id_rt|].
    apply pair_rt; [apply hash_rt|apply receipt_enum_rt].
  - by intros [] (? & ? & ? & ?).
Qed.

(** The second byte of an encoded receipt is zero: identifiers are short. *)
Lemma receipt_second_byte r :
  receipt_wf r -> exists x tl, enc receipt_c r = x :: 0 :: tl /\ is_u u8_max x.
Proof.
  intros ([_ Hv] & _). pose proof (validate_bounds _ Hv) as Hb. unfold MIN_LEN, MAX_LEN in Hb.
  unfold receipt_c, map_c, pair_c. cbn [enc fst snd]. rewrite enc_account_id, le_enc_4.
  cbn [app]. eexists _, _. split.
  - f_equal. f_equal. Z.to_euclidean_division_equations; lia.
  - unfold is_u, u8_max. Z.to_euclidean_division_equations; lia.
Qed.

Definition metadata_wf (m : StateStoredReceiptMetadata) : Prop :=
  is_u u64_max (congestion_gas m) /\ is_u u64_max (congestion_size m).

Definition stored_entry_wf (e : ReceiptOrStateStoredReceipt) : Prop :=
  receipt_wf (get_receipt e)
  /\ match e with
     | BareReceipt _ => True
     | StoredReceipt (StoredV0 _ m) | StoredReceipt (StoredV1 _ m) => metadata_wf m
     end.

Lemma state_stored_receipt_rt :
  round_trip state_stored_receipt_c (fun r => stored_entry_wf (StoredReceipt r)).
Proof.
  intros [r [g s]|r [g s]] rest [Hr Hm]; unfold state_stored_receipt_c, STATE_STORED_RECEIPT_TAG;
    cbn [enc dec app]; do 2 (rewrite u8_tag by (unfold is_u, u8_max; lia)); tag;
    rewrite Z.eqb_refl; cbn [negb orb congestion_gas congestion_size];
    unfold stored_fields_c;
    by rewrite (pair_rt _ _ _ _ receipt_rt (pair_rt _ _ _ _ u64_rt u64_rt) (r, (g, s)) rest
                  (conj Hr Hm)).
Qed.

(** Entries of the receipt queues in the state decode unambiguously: a bare
    receipt and a receipt with metadata, of either version, each decode from
    their own encoding to themselves, so a bare receipt is never taken for a
    tagged one, whatever its predecessor. *)
Theorem stored_entry_round_trip e rest :
  stored_entry_wf e -> dec stored_entry_c (enc stored_entry_c e ++ rest) = Some (e, rest).
Proof.
  destruct e as [r|r]; intros Hwf; unfold stored_entry_c; cbn [enc dec].
  - destruct (receipt_second_byte r (proj1 Hwf)) as (x & tl & E & Hx).
    pose proof (receipt_rt r rest (proj1 Hwf)) as Hr. rewrite E in *. cbn [app] in *.
    rewrite !u8_tag by (done || (unfold is_u, u8_max; lia)).
    rewrite andb_false_r. by rewrite Hr.
  - pose proof (state_stored_receipt_rt r rest Hwf) as Hr.
    assert (exists tl, enc state_stored_receipt_c r = u8_max :: u8_max :: tl) as [tl E]
      by (by destruct r; eexists). rewrite E in *. cbn [app] in *.
    rewrite !u8_tag by (unfold is_u, u8_max; lia).
    unfold STATE_STORED_RECEIPT_TAG. rewrite Z.eqb_refl. cbn [andb]. by rewrite Hr.
Qed.
End rt.

(* ------------------------------------------------------------------ *)
(** ** The theorem at concrete inputs *)

Section witnesses.
#[local] Existing Instance Toy.crates.

Definition sample_entry : ReceiptOrStateStoredReceipt :=
  BareReceipt (receipt_from_tx hash_default "alice.near" "alice.near" empty_ed25519 100
                 [Plain (Transfer 5)]).

Lemma sample_entry_wf : stored_entry_wf sample_entry.
Proof.
  unfold stored_entry_wf, receipt_wf, action_receipt_wf, is_u.
  cbn [sample_entry get_receipt receipt_from_tx r_predecessor_id r_receiver_id r_receipt_id r_receipt
       receipt_enum_wf].
  unfold action_receipt_wf.
  cbn [ar_signer_id ar_signer_public_key ar_gas_price ar_output_data_receivers ar_input_data_ids
       ar_actions].
  split_and!; try apply alice_wf; try done; repeat constructor; done.
Qed.

Lemma stored_entry_round_trip_witness :
  dec stored_entry_c (enc stored_entry_c sample_entry ++ [7]) = Some (sample_entry, [7]).
Proof. apply stored_entry_round_trip. apply sample_entry_wf. Defined.
End witnesses.
