(* ===== verification/Fees.v ===== *)
(** * Fees and transaction cost (core/parameters/src/cost.rs, runtime/src/config.rs)

    The configuration records, the fee of every action, and the cost of turning
    a transaction into a receipt.  [checked_add(..).unwrap()] is a panic,
    [checked_add_result] an [IntegerOverflowError].  Sums of lengths of data
    held in memory are taken not to overflow a u64. *)

From S2P Require Import Prelude Crates AccountId Primitives.

Inductive IntegerOverflowError : Type := IntegerOverflow.

(* ------------------------------------------------------------------ *)
(** ** Configuration *)

Record Fee : Type := mkFee {
  send_sir : Z;
  send_not_sir : Z;
  execution : Z;
}.

Definition send_fee (f : Fee) (sir : bool) : Z :=
  if sir then send_sir f else send_not_sir f.
Definition fee_exec (f : Fee) : Z := execution f.

Inductive ActionCosts : Type :=
| c_create_account
| c_delete_account
| c_deploy_contract_base
| c_deploy_contract_byte
| c_function_call_base
| c_function_call_byte
| c_transfer
| c_stake
| c_add_full_access_key
| c_add_function_call_key_base
| c_add_function_call_key_byte
| c_delete_key
| c_new_action_receipt
| c_new_data_receipt_base
| c_new_data_receipt_byte
| c_delegate
| c_deploy_global_contract_base
| c_deploy_global_contract_byte
| c_use_global_contract_base
| c_use_global_contract_byte
| c_deterministic_state_init_base
| c_deterministic_state_init_byte
| c_deterministic_state_init_entry.

Record StorageUsageConfig : Type := mkStorageUsageConfig {
  storage_amount_per_byte : Z;
  num_bytes_account : Z;
  num_extra_bytes_record : Z;
  global_contract_storage_amount_per_byte : Z;
}.

(** A [Rational32] is its numerator and denominator. *)
Record RuntimeFeesConfig : Type := mkFeesConfig {
  action_fees : ActionCosts -> Fee;
  storage_usage_config : StorageUsageConfig;
  burnt_gas_reward : Z * Z;
  gas_refund_penalty : Z * Z;
  min_gas_refund_penalty : Z;
}.

Inductive AccountIdValidityRulesVersion : Type :=
| RulesV0
| RulesV1
| RulesV2.

Record LimitConfig : Type := mkLimitConfig {
  max_total_prepaid_gas : Z;
  max_actions_per_receipt : Z;
  max_number_bytes_method_names : Z;
  max_length_method_name : Z;
  max_arguments_length : Z;
  max_length_returned_data : Z;
  max_contract_size : Z;
  max_transaction_size : Z;
  max_receipt_size : Z;
  max_length_storage_key : Z;
  max_length_storage_value : Z;
  max_number_input_data_dependencies : Z;
  account_id_validity_rules_version : AccountIdValidityRulesVersion;
}.

Record RuntimeConfig : Type := mkRuntimeConfig {
  fees : RuntimeFeesConfig;
  limit_config : LimitConfig;
  eth_implicit_accounts : bool;
  deterministic_account_ids : bool;
  min_allowed_top_level_account_length : Z;
  registrar_account_id : AccountId;
  use_state_stored_receipt : bool;
}.

Definition Fee_test_value (v : Z) : Fee := mkFee v v v.

(** [RuntimeFeesConfig::test()]. *)
Definition test_action_fees (c : ActionCosts) : Fee :=
  match c with
  | c_create_account => Fee_test_value 3850000000000
  | c_delete_account => Fee_test_value 147489000000
  | c_deploy_contract_base => Fee_test_value 184765750000
  | c_deploy_contract_byte => Fee_test_value 6812999
  | c_function_call_base => Fee_test_value 2319861500000
  | c_function_call_byte => Fee_test_value 2235934
  | c_transfer => Fee_test_value 115123062500
  | c_stake => mkFee 141715687500 141715687500 102217625000
  | c_add_full_access_key => Fee_test_value 101765125000
  | c_add_function_call_key_base => Fee_test_value 102217625000
  | c_add_function_call_key_byte => Fee_test_value 1925331
  | c_delete_key => Fee_test_value 94946625000
  | c_new_action_receipt => Fee_test_value 108059500000
  | c_new_data_receipt_base => Fee_test_value 4697339419375
  | c_new_data_receipt_byte => Fee_test_value 59357464
  | c_delegate => Fee_test_value 200000000000
  | c_deploy_global_contract_base => Fee_test_value 184765750000
  | c_deploy_global_contract_byte => mkFee 6812999 6812999 70000000
  | c_use_global_contract_base => Fee_test_value 184765750000
  | c_use_global_contract_byte => mkFee 6812999 47683715 64572944
  | c_deterministic_state_init_base => mkFee 3850000000000 3850000000000 4080000000000
  | c_deterministic_state_init_byte => mkFee 72000000 72000000 70000000
  | c_deterministic_state_init_entry => mkFee 0 0 200000000000
  end.

Definition test_storage_usage_config : StorageUsageConfig :=
  {| storage_amount_per_byte := 909 * 100000000000000000;
     num_bytes_account := 100;
     num_extra_bytes_record := 40;
     global_contract_storage_amount_per_byte := 100000000000000000000 |}.

Definition test_fees : RuntimeFeesConfig :=
  {| action_fees := test_action_fees; storage_usage_config := test_storage_usage_config;
     burnt_gas_reward := (3, 10); gas_refund_penalty := (5, 100);
     min_gas_refund_penalty := 1000000000000 |}.

Definition min_send_and_exec_fee (f : Fee) : result Z IntegerOverflowError :=
  add_or_panic u64_max (Z.min (send_sir f) (send_not_sir f)) (execution f).

Definition min_receipt_with_function_call_gas (cfg : RuntimeFeesConfig)
    : result Z IntegerOverflowError :=
  let? a := min_send_and_exec_fee (action_fees cfg c_new_action_receipt) in
  let? b := min_send_and_exec_fee (action_fees cfg c_function_call_base) in
  add_or_panic u64_max a b.

(** NEP-536: the part of a gas refund kept as a penalty. *)
Definition gas_penalty_for_gas_refund (cfg : RuntimeFeesConfig) (gas_refund : Z)
    : result Z IntegerOverflowError :=
  let? relative_cost :=
    (if (gas_refund_penalty cfg).2 =? 0 then Panic
     else let q := gas_refund * (gas_refund_penalty cfg).1 / (gas_refund_penalty cfg).2 in
          if q <=? u64_max then Ok q else Panic) in
  Ok (Z.min (Z.max relative_cost (min_gas_refund_penalty cfg)) gas_refund).

(* ------------------------------------------------------------------ *)
(** ** Fees of single actions *)

(** [base.checked_add(byte.checked_mul(n).unwrap()).unwrap()]. *)
Definition base_plus_bytes (base byte num_bytes : Z) : result Z IntegerOverflowError :=
  let? all_bytes_fee := mul_or_panic u64_max byte num_bytes in
  add_or_panic u64_max base all_bytes_fee.

Definition transfer_exec_fee (cfg : RuntimeFeesConfig) (eth_enabled : bool) (t : AccountType)
    : result Z IntegerOverflowError :=
  let transfer_fee := fee_exec (action_fees cfg c_transfer) in
  match eth_enabled, t with
  | _, NamedAccount => Ok transfer_fee
  | false, EthImplicitAccount => Ok transfer_fee
  | true, EthImplicitAccount =>
      add_or_panic u64_max transfer_fee (fee_exec (action_fees cfg c_create_account))
  | _, NearImplicitAccount =>
      let? x := add_or_panic u64_max transfer_fee (fee_exec (action_fees cfg c_create_account)) in
      add_or_panic u64_max x (fee_exec (action_fees cfg c_add_full_access_key))
  | _, NearDeterministicAccount =>
      add_or_panic u64_max transfer_fee (fee_exec (action_fees cfg c_create_account))
  | _, BtcImplicitAccount =>
      add_or_panic u64_max transfer_fee (fee_exec (action_fees cfg c_create_account))
  end.

Definition transfer_send_fee (cfg : RuntimeFeesConfig) (sir : bool) (eth_enabled : bool)
    (t : AccountType) : result Z IntegerOverflowError :=
  let transfer_fee := send_fee (action_fees cfg c_transfer) sir in
  let create_fee := send_fee (action_fees cfg c_create_account) sir in
  match eth_enabled, t with
  | _, NamedAccount => Ok transfer_fee
  | false, EthImplicitAccount => Ok transfer_fee
  | true, EthImplicitAccount => add_or_panic u64_max transfer_fee create_fee
  | _, NearImplicitAccount =>
      let? x := add_or_panic u64_max transfer_fee create_fee in
      add_or_panic u64_max x (send_fee (action_fees cfg c_add_full_access_key) sir)
  | _, NearDeterministicAccount => add_or_panic u64_max transfer_fee create_fee
  | _, BtcImplicitAccount => add_or_panic u64_max transfer_fee create_fee
  end.

(** Bytes of the method names, each with its terminator. *)
Definition method_names_bytes (names : list string) : Z :=
  fold_right (fun name acc => str_len name + 1 + acc) 0 names.

Definition permission_send_fees (p : AccessKeyPermission) (cfg : RuntimeFeesConfig) (sir : bool)
    : result Z IntegerOverflowError :=
  match p with
  | PermFunctionCall call_perm =>
      base_plus_bytes (send_fee (action_fees cfg c_add_function_call_key_base) sir)
        (send_fee (action_fees cfg c_add_function_call_key_byte) sir)
        (method_names_bytes (fcp_method_names call_perm))
  | PermFullAccess => Ok (send_fee (action_fees cfg c_add_full_access_key) sir)
  | PermGasKeyFullAccess _ | PermGasKeyFunctionCall _ _ => Ok 0
  end.

Definition permission_exec_fees (p : AccessKeyPermission) (cfg : RuntimeFeesConfig)
    : result Z IntegerOverflowError :=
  match p with
  | PermFunctionCall call_perm =>
      base_plus_bytes (fee_exec (action_fees cfg c_add_function_call_key_base))
        (fee_exec (action_fees cfg c_add_function_call_key_byte))
        (method_names_bytes (fcp_method_names call_perm))
  | PermFullAccess => Ok (fee_exec (action_fees cfg c_add_full_access_key))
  | PermGasKeyFullAccess _ | PermGasKeyFunctionCall _ _ => Ok 0
  end.

(** The body of the loops that fold [checked_add_result] over a slice. *)
Fixpoint sum_checked {A : Type} (mx : Z) (f : A -> result Z IntegerOverflowError) (acc : Z)
    (l : list A) : result Z IntegerOverflowError :=
  match l with
  | [] => Ok acc
  | a :: l =>
      let? delta := f a in
      let? acc := ok_or (checked_add mx acc delta) IntegerOverflow in
      sum_checked mx f acc l
  end.

(* ------------------------------------------------------------------ *)
(** ** runtime/src/config.rs *)

Definition safe_gas_to_balance (gas_price gas : Z) : result Z IntegerOverflowError :=
  ok_or (checked_mul u128_max gas_price gas) IntegerOverflow.
Definition safe_add_balance (a b : Z) : result Z IntegerOverflowError :=
  ok_or (checked_add u128_max a b) IntegerOverflow.
Definition safe_add_compute (a b : Z) : result Z IntegerOverflowError :=
  ok_or (checked_add u64_max a b) IntegerOverflow.
Definition checked_add_result (a b : Z) : result Z IntegerOverflowError :=
  ok_or (checked_add u64_max a b) IntegerOverflow.

Section config.
Context {C : Crates}.

(** The arms of the [match] in [total_send_fees] other than [Delegate]. *)
Definition plain_send_fee (config : RuntimeConfig) (sir : bool) (receiver_id : AccountId)
    (a : NonDelegateAction) : result Z IntegerOverflowError :=
  let fee c := send_fee (action_fees (fees config) c) sir in
  match a with
  | CreateAccount => Ok (fee c_create_account)
  | DeployContract code =>
      base_plus_bytes (fee c_deploy_contract_base) (fee c_deploy_contract_byte) (vec_len code)
  | FunctionCall f =>
      base_plus_bytes (fee c_function_call_base) (fee c_function_call_byte)
        (str_len (fc_method_name f) + vec_len (fc_args f))
  | Transfer _ =>
      transfer_send_fee (fees config) sir (eth_implicit_accounts config)
        (get_account_type receiver_id)
  | Stake _ => Ok (fee c_stake)
  | AddKey k => permission_send_fees (ak_permission (ad_access_key k)) (fees config) sir
  | DeleteKey _ => Ok (fee c_delete_key)
  | DeleteAccount _ => Ok (fee c_delete_account)
  | DeployGlobalContract d =>
      base_plus_bytes (fee c_deploy_global_contract_base) (fee c_deploy_global_contract_byte)
        (vec_len (dg_code d))
  | UseGlobalContract i =>
      base_plus_bytes (fee c_use_global_contract_base) (fee c_use_global_contract_byte)
        (global_contract_identifier_len i)
  | DeterministicStateInit d =>
      let? all_entries_fee := mul_or_panic u64_max (fee c_deterministic_state_init_entry)
                                (vec_len (si_data (ds_state_init d))) in
      let? x := base_plus_bytes (fee c_deterministic_state_init_base)
                  (fee c_deterministic_state_init_byte) (len_bytes (ds_state_init d)) in
      add_or_panic u64_max x all_entries_fee
  | TransferToGasKey _ _ => Ok 0
  | WithdrawFromGasKey _ _ => Ok 0
  end.

Definition action_send_fee (config : RuntimeConfig) (sir : bool) (receiver_id : AccountId)
    (a : Action) : result Z IntegerOverflowError :=
  match a with
  | Plain a => plain_send_fee config sir receiver_id a
  | Delegate d =>
      let delegate_cost := send_fee (action_fees (fees config) c_delegate) sir in
      let da := sd_delegate_action d in
      let? inner := sum_checked u64_max (plain_send_fee config sir (da_receiver_id da)) 0
                      (da_actions da) in
      add_or_panic u64_max delegate_cost inner
  end.

Definition total_send_fees (config : RuntimeConfig) (sir : bool) (acts : list Action)
    (receiver_id : AccountId) : result Z IntegerOverflowError :=
  sum_checked u64_max (action_send_fee config sir receiver_id) 0 acts.

Definition total_prepaid_send_fees (config : RuntimeConfig) (acts : list Action)
    : result Z IntegerOverflowError :=
  sum_checked u64_max (fun a =>
    match a with
    | Delegate d =>
        let da := sd_delegate_action d in
        let sir := bool_decide (da_sender_id da = da_receiver_id da) in
        total_send_fees config sir (get_actions da) (da_receiver_id da)
    | Plain _ => Ok 0
    end) 0 acts.

Definition plain_exec_fee (config : RuntimeConfig) (receiver_id : AccountId)
    (a : NonDelegateAction) : result Z IntegerOverflowError :=
  let fee c := fee_exec (action_fees (fees config) c) in
  match a with
  | CreateAccount => Ok (fee c_create_account)
  | DeployContract code =>
      base_plus_bytes (fee c_deploy_contract_base) (fee c_deploy_contract_byte) (vec_len code)
  | FunctionCall f =>
      base_plus_bytes (fee c_function_call_base) (fee c_function_call_byte)
        (str_len (fc_method_name f) + vec_len (fc_args f))
  | Transfer _ =>
      transfer_exec_fee (fees config) (eth_implicit_accounts config)
        (get_account_type receiver_id)
  | Stake _ => Ok (fee c_stake)
  | AddKey k => permission_exec_fees (ak_permission (ad_access_key k)) (fees config)
  | DeleteKey _ => Ok (fee c_delete_key)
  | DeleteAccount _ => Ok (fee c_delete_account)
  | DeployGlobalContract d =>
      base_plus_bytes (fee c_deploy_global_contract_base) (fee c_deploy_global_contract_byte)
        (vec_len (dg_code d))
  | UseGlobalContract i =>
      base_plus_bytes (fee c_use_global_contract_base) (fee c_use_global_contract_byte)
        (global_contract_identifier_len i)
  | DeterministicStateInit d =>
      let? all_entries_fee := mul_or_panic u64_max (fee c_deterministic_state_init_entry)
                                (vec_len (si_data (ds_state_init d))) in
      let? x := base_plus_bytes (fee c_deterministic_state_init_base)
                  (fee c_deterministic_state_init_byte) (len_bytes (ds_state_init d)) in
      add_or_panic u64_max x all_entries_fee
  | TransferToGasKey _ _ => Ok 0
  | WithdrawFromGasKey _ _ => Ok 0
  end.

Definition exec_fee (config : RuntimeConfig) (a : Action) (receiver_id : AccountId)
    : result Z IntegerOverflowError :=
  match a with
  | Plain a => plain_exec_fee config receiver_id a
  | Delegate _ => Ok (fee_exec (action_fees (fees config) c_delegate))
  end.

Definition action_prepaid_exec_fee (config : RuntimeConfig) (receiver_id : AccountId)
    (a : Action) : result Z IntegerOverflowError :=
  match a with
  | Delegate d =>
      let da := sd_delegate_action d in
      let? delta := sum_checked u64_max (plain_exec_fee config (da_receiver_id da)) 0
                      (da_actions da) in
      let? e := exec_fee config a (da_receiver_id da) in
      let? delta := checked_add_result delta e in
      checked_add_result delta (fee_exec (action_fees (fees config) c_new_action_receipt))
  | Plain _ => exec_fee config a receiver_id
  end.

Definition total_prepaid_exec_fees (config : RuntimeConfig) (acts : list Action)
    (receiver_id : AccountId) : result Z IntegerOverflowError :=
  sum_checked u64_max (action_prepaid_exec_fee config receiver_id) 0 acts.
End config.

Definition action_deposit (a : Action) : result Z IntegerOverflowError :=
  match a with
  | Delegate d =>
      sum_checked u128_max (fun a => Ok (get_deposit_balance (Plain a))) 0
        (da_actions (sd_delegate_action d))
  | Plain _ => Ok (get_deposit_balance a)
  end.

Definition total_deposit (acts : list Action) : result Z IntegerOverflowError :=
  sum_checked u128_max action_deposit 0 acts.

Definition action_prepaid_gas (a : Action) : result Z IntegerOverflowError :=
  match a with
  | Delegate d =>
      sum_checked u64_max (fun a => Ok (get_prepaid_gas (Plain a))) 0
        (da_actions (sd_delegate_action d))
  | Plain _ => Ok (get_prepaid_gas a)
  end.

Definition total_prepaid_gas (acts : list Action) : result Z IntegerOverflowError :=
  sum_checked u64_max action_prepaid_gas 0 acts.

Record TransactionCost : Type := mkTransactionCost {
  gas_burnt : Z;
  gas_remaining : Z;
  receipt_gas_price : Z;
  burnt_amount : Z;
  gas_cost : Z;
  deposit_cost : Z;
  total_cost : Z;
}.

Definition calculate_tx_cost {C : Crates} (receiver_id signer_id : AccountId)
    (acts : list Action) (config : RuntimeConfig) (price : Z)
    : result TransactionCost IntegerOverflowError :=
  let sir := bool_decide (receiver_id = signer_id) in
  let receipt_fee := action_fees (fees config) c_new_action_receipt in
  let? send := total_send_fees config sir acts receiver_id in
  let? gas_burnt := checked_add_result (send_fee receipt_fee sir) send in
  let? prepaid := total_prepaid_gas acts in
  let? prepaid_send := total_prepaid_send_fees config acts in
  let? prepaid_gas := checked_add_result prepaid prepaid_send in
  let? gas_remaining := checked_add_result prepaid_gas (fee_exec receipt_fee) in
  let? prepaid_exec := total_prepaid_exec_fees config acts receiver_id in
  let? gas_remaining := checked_add_result gas_remaining prepaid_exec in
  let? burnt_amount := safe_gas_to_balance price gas_burnt in
  let? remaining_gas_amount := safe_gas_to_balance price gas_remaining in
  let? gas_cost := safe_add_balance burnt_amount remaining_gas_amount in
  let? deposit_cost := total_deposit acts in
  let? total_cost := safe_add_balance gas_cost deposit_cost in
  Ok {| gas_burnt := gas_burnt; gas_remaining := gas_remaining;
        receipt_gas_price := price; burnt_amount := burnt_amount;
        gas_cost := gas_cost; deposit_cost := deposit_cost; total_cost := total_cost |}.

Definition tx_cost {C : Crates} (config : RuntimeConfig) (tx : Transaction) (price : Z)
    : result TransactionCost IntegerOverflowError :=
  calculate_tx_cost (receiver_id tx) (signer_id tx) (actions tx) config price.

(* ------------------------------------------------------------------ *)
(** ** Sums *)

Definition zsum {A : Type} (g : A -> Z) (l : list A) : Z :=
  fold_right (fun a acc => g a + acc) 0 l.

Lemma zsum_cons {A} (g : A -> Z) a l : zsum g (a :: l) = g a + zsum g l.
Proof. done. Qed.

Lemma zsum_ext {A} (f g : A -> Z) l : (forall a, f a = g a) -> zsum f l = zsum g l.
Proof. intros H. induction l as [|a l IH]; [done|]. by rewrite !zsum_cons, H, IH. Qed.

Lemma zsum_nonneg {A} (g : A -> Z) l : Forall (fun a => 0 <= g a) l -> 0 <= zsum g l.
Proof. induction 1; simpl; lia. Qed.

Lemma zsum_app {A} (g : A -> Z) l1 l2 : zsum g (l1 ++ l2) = zsum g l1 + zsum g l2.
Proof. induction l1; simpl; lia. Qed.

(** A checked sum succeeds exactly when the sum fits, provided each summand is
    computed, or fails only because it is itself too large. *)
Lemma sum_checked_spec {A} mx (f : A -> result Z IntegerOverflowError) g acc l :
  0 <= acc <= mx ->
  Forall (fun a => 0 <= g a
    /\ f a = if g a <=? mx then Ok (g a) else Err IntegerOverflow) l ->
  sum_checked mx f acc l =
    if acc + zsum g l <=? mx then Ok (acc + zsum g l) else Err IntegerOverflow.
Proof.
  intros Hacc Hl. revert acc Hacc.
  induction Hl as [|a l [Ha Hf] Hl IH]; intros acc Hacc; simpl.
  { rewrite Z.add_0_r. by destruct (Z.leb_spec acc mx); [|lia]. }
  assert (0 <= zsum g l) by (apply zsum_nonneg; eapply Forall_impl; [done|]; by intros ? []).
  rewrite Hf. destruct (Z.leb_spec (g a) mx); simpl.
  2:{ destruct (Z.leb_spec (acc + (g a + zsum g l)) mx); [lia|done]. }
  unfold checked_add. destruct (Z.leb_spec (acc + g a) mx); simpl.
  - rewrite IH by lia. by rewrite Z.add_assoc.
  - destruct (Z.leb_spec (acc + (g a + zsum g l)) mx); [lia|done].
Qed.

Lemma sum_checked_Ok {A} mx (f : A -> result Z IntegerOverflowError) acc l s :
  sum_checked mx f acc l = Ok s ->
  exists gs, Forall2 (fun a g => f a = Ok g) l gs /\ s = acc + zsum (fun x => x) gs
    /\ (l <> [] -> s <= mx).
Proof.
  revert acc. induction l as [|a l IH]; intros acc H; simpl in H; rust_inv.
  { exists []. simpl. split_and!; [constructor|lia|done]. }
  apply IH in H as (gs & H2 & -> & Hb). exists (v :: gs). subst. simpl.
  split_and!; [by constructor|lia|]. intros _. destruct l; [|by apply Hb].
  inversion H2; subst. simpl. lia.
Qed.

(** All actions of a list, those inside delegate actions included. *)
Definition flatten (acts : list Action) : list NonDelegateAction :=
  flat_map (fun a => match a with
                     | Plain a => [a]
                     | Delegate d => da_actions (sd_delegate_action d)
                     end) acts.

Lemma zsum_flatten (g : NonDelegateAction -> Z) acts :
  zsum g (flatten acts) =
  zsum (fun a => match a with
                 | Plain a => g a
                 | Delegate d => zsum g (da_actions (sd_delegate_action d))
                 end) acts.
Proof.
  unfold flatten. induction acts as [|[a|d] acts IH]; simpl; [done|lia|].
  rewrite zsum_app. lia.
Qed.

(** Field widths of the actions, as their Rust types guarantee. *)
Definition action_bounded (a : NonDelegateAction) : Prop :=
  is_u u128_max (get_deposit_balance (Plain a)) /\ is_u u64_max (get_prepaid_gas (Plain a)).

Lemma total_nested_spec mx (g : NonDelegateAction -> Z) acts :
  0 <= mx -> Forall (fun a => is_u mx (g a)) (flatten acts) ->
  sum_checked mx (fun a => match a with
    | Plain a => Ok (g a)
    | Delegate d => sum_checked mx (fun a => Ok (g a)) 0 (da_actions (sd_delegate_action d))
    end) 0 acts =
  if zsum g (flatten acts) <=? mx then Ok (zsum g (flatten acts)) else Err IntegerOverflow.
Proof.
  intros Hmx Hl. rewrite zsum_flatten.
  apply (sum_checked_spec mx _ (fun a => match a with
    | Plain a => g a
    | Delegate d => zsum g (da_actions (sd_delegate_action d))
    end) 0); [lia|].
  assert (Hok : forall l, Forall (fun a => is_u mx (g a)) l ->
    Forall (fun a => 0 <= g a
      /\ @Ok Z IntegerOverflowError (g a) = if g a <=? mx then Ok (g a) else Err IntegerOverflow) l).
  { intros l H. eapply Forall_impl; [exact H|]. intros a [? ?]. simpl.
    by destruct (Z.leb_spec (g a) mx); [|lia]. }
  induction acts as [|[a|d] acts IH]; simpl in *; constructor.
  - inversion_clear Hl as [|? ? Ha]. destruct Ha. split; [lia|].
    by destruct (Z.leb_spec (g a) mx); [|lia].
  - inversion_clear Hl. by apply IH.
  - apply Forall_app in Hl as [Hd _]. split.
    + apply zsum_nonneg. eapply Forall_impl; [exact Hd|]. by intros ? [].
    + rewrite (sum_checked_spec mx _ g 0); [done|lia|]. by apply Hok.
  - apply Forall_app in Hl as [_ Hl]. by apply IH.
Qed.

Lemma sum_checked_ext {A} mx (f g : A -> result Z IntegerOverflowError) acc l :
  (forall a, f a = g a) -> sum_checked mx f acc l = sum_checked mx g acc l.
Proof.
  intros H. revert acc. induction l as [|a l IH]; intros acc; simpl; [done|].
  rewrite H. destruct (g a); simpl; try done. destruct (ok_or _ _); simpl; auto.
Qed.

Lemma total_deposit_spec acts :
  Forall action_bounded (flatten acts) ->
  total_deposit acts =
    (let s := zsum (fun a => get_deposit_balance (Plain a)) (flatten acts) in
     if s <=? u128_max then Ok s else Err IntegerOverflow).
Proof.
  intros H. simpl. rewrite <- total_nested_spec; [|unfold u128_max; lia|].
  - apply sum_checked_ext. by intros [].
  - eapply Forall_impl; [exact H|]. by intros ? [].
Qed.

Lemma total_prepaid_gas_spec acts :
  Forall action_bounded (flatten acts) ->
  total_prepaid_gas acts =
    (let s := zsum (fun a => get_prepaid_gas (Plain a)) (flatten acts) in
     if s <=? u64_max then Ok s else Err IntegerOverflow).
Proof.
  intros H. simpl. rewrite <- total_nested_spec; [|unfold u64_max; lia|].
  - apply sum_checked_ext. by intros [].
  - eapply Forall_impl; [exact H|]. by intros ? [].
Qed.

(** The deposit and prepaid gas of a list of actions are the exact sums
    over all actions, those nested in delegate actions included, and the
    overflow error is returned exactly when such a sum does not fit. *)
Theorem totals_are_sums acts :
  Forall action_bounded (flatten acts) ->
  total_deposit acts =
    (let s := zsum (fun a => get_deposit_balance (Plain a)) (flatten acts) in
     if s <=? u128_max then Ok s else Err IntegerOverflow)
  /\ total_prepaid_gas acts =
    (let s := zsum (fun a => get_prepaid_gas (Plain a)) (flatten acts) in
     if s <=? u64_max then Ok s else Err IntegerOverflow).
Proof.
  intros H. split; [by apply total_deposit_spec|by apply total_prepaid_gas_spec].
Qed.

(** The NEP-536 penalty is computed without panic whenever the ratio is at
    most one, never exceeds the refund it is taken from, takes at least the
    configured minimum or all of the refund, and at least the configured
    fraction. *)
Theorem gas_penalty_bounds cfg gas_refund :
  is_u u64_max gas_refund -> 0 <= min_gas_refund_penalty cfg ->
  0 <= (gas_refund_penalty cfg).1 <= (gas_refund_penalty cfg).2 ->
  0 < (gas_refund_penalty cfg).2 ->
  exists p, gas_penalty_for_gas_refund cfg gas_refund = Ok p
    /\ 0 <= p <= gas_refund
    /\ (p = gas_refund \/ min_gas_refund_penalty cfg <= p)
    /\ gas_refund * (gas_refund_penalty cfg).1 / (gas_refund_penalty cfg).2 <= p.
Proof.
  intros [Hr1 Hr2] Hm [Hn Hd] Hpos. unfold gas_penalty_for_gas_refund.
  destruct (Z.eqb_spec (gas_refund_penalty cfg).2 0); [lia|].
  set (q := gas_refund * _ / _).
  assert (0 <= q <= gas_refund).
  { split; [apply Z.div_pos; nia|]. apply Z.div_le_upper_bound; nia. }
  destruct (Z.leb_spec q u64_max); [|lia]. simpl.
  eexists. split; [done|]. lia.
Qed.

Section tx_cost_spec.
Context {C : Crates}.

Lemma calculate_tx_cost_Ok rid sid acts config price c :
  calculate_tx_cost rid sid acts config price = Ok c ->
  exists send prepaid prepaid_send prepaid_exec,
    let receipt_fee := action_fees (fees config) c_new_action_receipt in
    let sir := bool_decide (rid = sid) in
    total_send_fees config sir acts rid = Ok send
    /\ total_prepaid_gas acts = Ok prepaid
    /\ total_prepaid_send_fees config acts = Ok prepaid_send
    /\ total_prepaid_exec_fees config acts rid = Ok prepaid_exec
    /\ total_deposit acts = Ok (deposit_cost c)
    /\ gas_burnt c = send_fee receipt_fee sir + send
    /\ gas_remaining c = prepaid + prepaid_send + fee_exec receipt_fee + prepaid_exec
    /\ receipt_gas_price c = price
    /\ burnt_amount c = price * gas_burnt c
    /\ gas_cost c = price * (gas_burnt c + gas_remaining c)
    /\ total_cost c = gas_cost c + deposit_cost c
    /\ gas_burnt c <= u64_max /\ gas_remaining c <= u64_max /\ total_cost c <= u128_max.
Proof.
  unfold calculate_tx_cost, checked_add_result, safe_gas_to_balance, safe_add_balance.
  intros H. rust_inv. subst. simpl. do 4 eexists. split_and!; try done; lia.
Qed.

(** When the cost of a transaction is computed, no step overflowed: the
    amount charged is the gas price times all gas burnt now or prepaid for
    later, plus all deposits, nested ones included, and it fits a u128. *)
Theorem tx_cost_exact config tx price c :
  Forall action_bounded (flatten (actions tx)) ->
  tx_cost config tx price = Ok c ->
  burnt_amount c = price * gas_burnt c
  /\ gas_cost c = price * (gas_burnt c + gas_remaining c)
  /\ deposit_cost c = zsum (fun a => get_deposit_balance (Plain a)) (flatten (actions tx))
  /\ total_cost c = gas_cost c + deposit_cost c
  /\ total_cost c <= u128_max.
Proof.
  intros Hb H. apply calculate_tx_cost_Ok in H
    as (send & prepaid & psend & pexec & H1 & H2 & H3 & H4 & Hd & ? & ? & ? & ? & ? & ? & ? & ? & ?).
  split_and!; try done.
  unfold total_deposit in Hd.
  rewrite (sum_checked_ext _ action_deposit (fun a => match a with
    | Plain a => Ok (get_deposit_balance (Plain a))
    | Delegate d => sum_checked u128_max (fun a => Ok (get_deposit_balance (Plain a))) 0
        (da_actions (sd_delegate_action d)) end)) in Hd by (by intros []).
  rewrite total_nested_spec in Hd; [|unfold u128_max; lia|].
  - destruct (_ <=? _) in Hd; by rust_inv.
  - eapply Forall_impl; [exact Hb|]. by intros ? [].
Qed.
End tx_cost_spec.

(* ------------------------------------------------------------------ *)
(** ** The theorems at concrete inputs *)

(** A configuration with the test fees and small limits. *)
Definition sample_config : RuntimeConfig :=
  {| fees := test_fees;
     limit_config := {|
       max_total_prepaid_gas := 1000000000000000; max_actions_per_receipt := 100;
       max_number_bytes_method_names := 2000; max_length_method_name := 256;
       max_arguments_length := 4194304; max_length_returned_data := 4194304;
       max_contract_size := 4194304; max_transaction_size := 1572864;
       max_receipt_size := 4194304; max_length_storage_key := 2048;
       max_length_storage_value := 4194304; max_number_input_data_dependencies := 128;
       account_id_validity_rules_version := RulesV1 |};
     eth_implicit_accounts := true; deterministic_account_ids := true;
     min_allowed_top_level_account_length := 65; registrar_account_id := "registrar";
     use_state_stored_receipt := true |}.

Definition sample_transfer (signer receiver : AccountId) (key : PublicKey) (n deposit : Z)
    : Transaction :=
  TxV0 {| t0_signer_id := signer; t0_public_key := key; t0_nonce := n;
          t0_receiver_id := receiver; t0_block_hash := hash_default;
          t0_actions := [Plain (Transfer deposit)] |}.

Section witnesses.
#[local] Existing Instance Toy.crates.

Lemma transfer_bounded d : is_u u128_max d -> Forall action_bounded [Transfer d].
Proof. intros [? ?]. repeat constructor; simpl; unfold u64_max; lia. Qed.

Lemma totals_are_sums_witness :
  total_deposit [Plain (Transfer 5); Plain CreateAccount] = Ok 5
  /\ total_prepaid_gas [Plain (Transfer 5); Plain CreateAccount] = Ok 0.
Proof.
  apply (totals_are_sums [Plain (Transfer 5); Plain CreateAccount]).
  repeat constructor; vm_compute; congruence.
Defined.

Lemma gas_penalty_bounds_witness :
  exists p, gas_penalty_for_gas_refund test_fees 30000000000000 = Ok p
    /\ 0 <= p <= 30000000000000
    /\ (p = 30000000000000 \/ min_gas_refund_penalty test_fees <= p)
    /\ 30000000000000 * (gas_refund_penalty test_fees).1 / (gas_refund_penalty test_fees).2 <= p.
Proof. apply (gas_penalty_bounds test_fees 30000000000000); vm_compute; intuition congruence. Defined.

Lemma tx_cost_exact_witness :
  exists c, tx_cost sample_config (sample_transfer "alice.near" "bob.near" empty_ed25519 1 7) 100 = Ok c
  /\ burnt_amount c = 100 * gas_burnt c
  /\ gas_cost c = 100 * (gas_burnt c + gas_remaining c)
  /\ deposit_cost c = 7 /\ total_cost c = gas_cost c + deposit_cost c /\ total_cost c <= u128_max.
Proof.
  eexists. split; [vm_compute; reflexivity|].
  apply (tx_cost_exact sample_config (sample_transfer "alice.near" "bob.near" empty_ed25519 1 7) 100).
  - repeat constructor; vm_compute; congruence.
  - vm_compute. reflexivity.
Defined.
End witnesses.
