(* ===== verification/ShardLayout.v ===== *)
(** * Shard layouts (core/primitives/src/shard_layout/)

    Which shard an account belongs to, and how a layout is derived from another by
    splitting one shard at a new boundary account.  The order of accounts is the
    order of their bytes.  [BTreeMap]s are finite maps: where a loop over one only
    checks and inserts, the order of its steps does not matter. *)

From stdpp Require Import sorting gmap strings.
From S2P Require Import Prelude Crates AccountId Primitives.

Inductive ShardLayoutError : Type :=
| InvalidShardId (shard_id : Z)
| InvalidShardIndex (shard_index : Z)
| NoParent (shard_id : Z)
| CannotDeriveLayout.

Record ShardLayoutV0 : Type := mkLayoutV0 {
  l0_num_shards : Z;
  l0_version : Z;
}.

Record ShardLayoutV1 : Type := mkLayoutV1 {
  l1_boundary_accounts : list AccountId;
  l1_shards_split_map : option (list (list Z));
  l1_to_parent_shard_map : option (list Z);
  l1_version : Z;
}.

Record ShardLayoutV2 : Type := mkLayoutV2 {
  l2_boundary_accounts : list AccountId;
  l2_shard_ids : list Z;
  l2_id_to_index_map : gmap Z Z;
  l2_index_to_id_map : gmap Z Z;
  l2_shards_split_map : option (gmap Z (list Z));
  l2_shards_parent_map : option (gmap Z Z);
  l2_version : Z;
}.

Record ShardLayoutV3 : Type := mkLayoutV3 {
  l3_boundary_accounts : list AccountId;
  l3_shard_ids : list Z;
  l3_id_to_index_map : gmap Z Z;
  l3_shards_split_map : gmap Z (list Z);
  l3_last_split : Z;
  l3_shards_ancestor_map : gmap Z (list Z);
}.

Inductive ShardLayout : Type :=
| LayoutV0 (l : ShardLayoutV0)
| LayoutV1 (l : ShardLayoutV1)
| LayoutV2 (l : ShardLayoutV2)
| LayoutV3 (l : ShardLayoutV3).

(* ------------------------------------------------------------------ *)
(** ** Standard library: [partition_point], [max], [splice] of one element *)

(** The length of the prefix where the predicate holds: what the binary search
    finds on a partitioned slice. *)
Fixpoint partition_point {A : Type} (f : A -> bool) (l : list A) : nat :=
  match l with
  | [] => 0
  | x :: l => if f x then S (partition_point f l) else 0
  end.

Definition at_most (a x : AccountId) : bool := String.leb x a.

Fixpoint list_max (l : list Z) : option Z :=
  match l with
  | [] => None
  | x :: l => Some (match list_max l with Some y => Z.max x y | None => x end)
  end.

Definition splice_one {A : Type} (i : nat) (new l : list A) : list A :=
  take i l ++ new ++ drop (S i) l.

Fixpoint try_map {A B E : Type} (f : A -> result B E) (l : list A) : result (list B) E :=
  match l with
  | [] => Ok []
  | x :: l => let? y := f x in let? ys := try_map f l in Ok (y :: ys)
  end.

(** [BTreeMap::insert] followed by the assertion that the key was new. *)
Definition insert_child (parent : Z) (acc : result (gmap Z Z) unit) (child : Z)
    : result (gmap Z Z) unit :=
  let? m := acc in
  match m !! child with
  | Some _ => Panic
  | None => Ok (<[child := parent]> m)
  end.

(* ------------------------------------------------------------------ *)
(** ** Version 1: contiguous shard ids *)

Definition v1_num_shards (l : ShardLayoutV1) : Z := vec_len (l1_boundary_accounts l) + 1.

Definition insert_children_v1 (num_shards : Z) (acc : result (gmap Z Z) unit) (entry : Z * list Z)
    : result (gmap Z Z) unit :=
  let '(parent, shard_ids) := entry in
  fold_left (fun acc id =>
    let? m := insert_child parent acc id in
    if id <? num_shards then Ok m else Panic) shard_ids acc.

Definition derive_to_parent_shard_map (shards_split_map : list (list Z)) (num_shards : Z)
    : result (list Z) unit :=
  let? m := fold_left (insert_children_v1 num_shards)
              (imap (fun i ids => (Z.of_nat i, ids)) shards_split_map) (Ok ∅) in
  try_map (fun id => unwrap (m !! id)) (seqZ 0 num_shards).

Definition v1_new (boundary_accounts : list AccountId) (shards_split_map : option (list (list Z)))
    (version : Z) : result ShardLayoutV1 unit :=
  let? to_parent :=
    match shards_split_map with
    | None => Ok None
    | Some m =>
        let? p := derive_to_parent_shard_map m (vec_len boundary_accounts + 1) in
        Ok (Some p)
    end in
  Ok (mkLayoutV1 boundary_accounts shards_split_map to_parent version).

Definition v1_get_children_shards_ids (l : ShardLayoutV1) (parent : Z) : option (list Z) :=
  match l1_shards_split_map l with
  | Some m => m !! Z.to_nat parent
  | None => None
  end.

Definition v1_try_get_parent_shard_id (l : ShardLayoutV1) (shard_id : Z)
    : result (option Z) ShardLayoutError :=
  if v1_num_shards l <=? shard_id then Err (InvalidShardId shard_id)
  else match l1_to_parent_shard_map l with
       | Some m => let? p := unwrap (m !! Z.to_nat shard_id) in Ok (Some p)
       | None => Ok None
       end.

(** The loop counts the boundaries up to the first one above the account. *)
Fixpoint v1_count (shard_id : Z) (account_id : AccountId) (boundaries : list AccountId) : Z :=
  match boundaries with
  | [] => shard_id
  | b :: boundaries =>
      if String.ltb account_id b then shard_id else v1_count (shard_id + 1) account_id boundaries
  end.

(* ------------------------------------------------------------------ *)
(** ** Version 2 *)

Definition check_parent_v2 (shard_ids : list Z) (acc : result (gmap Z Z) unit) (entry : Z * list Z)
    : result (gmap Z Z) unit :=
  let '(parent, children) := entry in
  let? m := fold_left (insert_child parent) children acc in
  match children with
  | [child] => if parent =? child then Ok m else Panic
  | _ => if contains parent shard_ids then Panic else Ok m
  end.

Definition sorted_ids (l : list Z) : list Z := merge_sort Z.le l.

Definition validate_and_derive_shard_parent_map (shard_ids : list Z) (split_map : gmap Z (list Z))
    : result (gmap Z Z) unit :=
  let? m := fold_left (check_parent_v2 shard_ids) (map_to_list split_map) (Ok ∅) in
  if bool_decide (sorted_ids shard_ids = sorted_ids (map fst (map_to_list m))) then Ok m else Panic.

Fixpoint index_ids (i : Z) (ids : list Z) (m : gmap Z Z) : gmap Z Z :=
  match ids with
  | [] => m
  | id :: ids => index_ids (i + 1) ids (<[id := i]> m)
  end.

Fixpoint ids_by_index (i : Z) (ids : list Z) (m : gmap Z Z) : gmap Z Z :=
  match ids with
  | [] => m
  | id :: ids => ids_by_index (i + 1) ids (<[i := id]> m)
  end.

Definition v2_new (boundary_accounts : list AccountId) (shard_ids : list Z)
    (split_map : option (gmap Z (list Z))) : result ShardLayoutV2 unit :=
  if negb (vec_len boundary_accounts + 1 =? vec_len shard_ids) then Panic
  else if negb (bool_decide (boundary_accounts = merge_sort String.le boundary_accounts)) then Panic
  else
    let? parent_map :=
      match split_map with
      | None => Ok None
      | Some m => let? p := validate_and_derive_shard_parent_map shard_ids m in Ok (Some p)
      end in
    Ok (mkLayoutV2 boundary_accounts shard_ids (index_ids 0 shard_ids ∅)
          (ids_by_index 0 shard_ids ∅) split_map parent_map 3).

Definition v2_get_children_shards_ids (l : ShardLayoutV2) (parent : Z) : option (list Z) :=
  match l2_shards_split_map l with
  | Some m => m !! parent
  | None => None
  end.

Definition v2_try_get_parent_shard_id (l : ShardLayoutV2) (shard_id : Z)
    : result (option Z) ShardLayoutError :=
  if negb (contains shard_id (l2_shard_ids l)) then Err (InvalidShardId shard_id)
  else match l2_shards_parent_map l with
       | Some m => let? p := unwrap (m !! shard_id) in Ok (Some p)
       | None => Ok None
       end.

(* ------------------------------------------------------------------ *)
(** ** Version 3: only splits, with their history *)

Definition check_parent_v3 (shard_ids : list Z) (acc : result (gmap Z Z) unit) (entry : Z * list Z)
    : result (gmap Z Z) unit :=
  let '(parent, children) := entry in
  let? m := acc in
  if contains parent shard_ids then Panic
  else if negb (1 <? vec_len children) then Panic
  else fold_left (insert_child parent) children (Ok m).

(** The walk to the root; [None] when it does not end within [fuel] steps. *)
Fixpoint ancestors (fuel : nat) (parents : gmap Z Z) (current : Z) : option (list Z) :=
  match fuel with
  | O => None
  | S fuel =>
      match parents !! current with
      | None => Some []
      | Some p => cons p <$> ancestors fuel parents p
      end
  end.

(** A chain without repetition has at most [size parents] steps, so a walk that runs
    out of this fuel never ends; the model does not tell that from a panic. *)
Definition insert_ancestors (parents : gmap Z Z) (acc : result (gmap Z (list Z)) unit) (id : Z)
    : result (gmap Z (list Z)) unit :=
  let? m := acc in
  let? l := unwrap (ancestors (S (size parents)) parents id) in
  Ok (<[id := l]> m).

Definition validate_and_derive_shard_ancestor_map (shard_ids : list Z) (split_map : gmap Z (list Z))
    : result (gmap Z (list Z)) unit :=
  let? parents := fold_left (check_parent_v3 shard_ids) (map_to_list split_map) (Ok ∅) in
  fold_left (insert_ancestors parents) shard_ids (Ok ∅).

Fixpoint is_sorted (l : list AccountId) : bool :=
  match l with
  | x :: ((y :: _) as l') => String.leb x y && is_sorted l'
  | _ => true
  end.

Definition v3_new (boundary_accounts : list AccountId) (shard_ids : list Z)
    (split_map : gmap Z (list Z)) (last_split : Z) : result ShardLayoutV3 unit :=
  if negb (vec_len boundary_accounts + 1 =? vec_len shard_ids) then Panic
  else if negb (is_sorted boundary_accounts) then Panic
  else if negb (match split_map !! last_split with Some (_ :: _) => true | _ => false end) then Panic
  else
    let? ancestor_map := validate_and_derive_shard_ancestor_map shard_ids split_map in
    Ok (mkLayoutV3 boundary_accounts shard_ids (index_ids 0 shard_ids ∅) split_map last_split
          ancestor_map).

Definition last_split_children {E : Type} (l : ShardLayoutV3) : result (list Z) E :=
  unwrap (l3_shards_split_map l !! l3_last_split l).

Definition v3_get_children_shards_ids (l : ShardLayoutV3) (parent : Z)
    : result (option (list Z)) unit :=
  let? children := last_split_children l in
  Ok (if parent =? l3_last_split l then Some children
      else if contains parent (l3_shard_ids l) && negb (contains parent children)
      then Some [parent] else None).

Definition v3_try_get_parent_shard_id (l : ShardLayoutV3) (shard_id : Z)
    : result Z ShardLayoutError :=
  if negb (contains shard_id (l3_shard_ids l)) then Err (InvalidShardId shard_id)
  else
    let? children := last_split_children l in
    Ok (if contains shard_id children then l3_last_split l else shard_id).

(* ------------------------------------------------------------------ *)
(** ** All versions *)

Definition num_shards (l : ShardLayout) : Z :=
  match l with
  | LayoutV0 l => l0_num_shards l
  | LayoutV1 l => v1_num_shards l
  | LayoutV2 l => vec_len (l2_shard_ids l)
  | LayoutV3 l => vec_len (l3_shard_ids l)
  end.

Definition shard_ids (l : ShardLayout) : list Z :=
  match l with
  | LayoutV0 _ | LayoutV1 _ => seqZ 0 (num_shards l)
  | LayoutV2 l => l2_shard_ids l
  | LayoutV3 l => l3_shard_ids l
  end.

Definition layout_version (l : ShardLayout) : Z :=
  match l with
  | LayoutV0 l => l0_version l
  | LayoutV1 l => l1_version l
  | LayoutV2 l => l2_version l
  | LayoutV3 _ => 3
  end.

Definition boundary_accounts (l : ShardLayout) : result (list AccountId) unit :=
  match l with
  | LayoutV0 _ => Panic
  | LayoutV1 l => Ok (l1_boundary_accounts l)
  | LayoutV2 l => Ok (l2_boundary_accounts l)
  | LayoutV3 l => Ok (l3_boundary_accounts l)
  end.

(** The value of the first eight bytes, little endian. *)
Definition le_u64 (bytes : list Z) : Z := fold_right (fun b v => b + 256 * v) 0 (take 8 bytes).

Definition account_id_to_shard_id {C : Crates} (l : ShardLayout) (account_id : AccountId)
    : result Z unit :=
  match l with
  | LayoutV0 l =>
      if l0_num_shards l =? 0 then Panic
      else Ok (le_u64 (sha256 (as_bytes account_id)) mod l0_num_shards l)
  | LayoutV1 l => Ok (v1_count 0 account_id (l1_boundary_accounts l))
  | LayoutV2 l =>
      unwrap (l2_shard_ids l !! partition_point (at_most account_id) (l2_boundary_accounts l))
  | LayoutV3 l =>
      unwrap (l3_shard_ids l !! partition_point (at_most account_id) (l3_boundary_accounts l))
  end.

Definition get_children_shards_ids (l : ShardLayout) (parent : Z) : result (option (list Z)) unit :=
  match l with
  | LayoutV0 _ => Ok None
  | LayoutV1 l => Ok (v1_get_children_shards_ids l parent)
  | LayoutV2 l => Ok (v2_get_children_shards_ids l parent)
  | LayoutV3 l => v3_get_children_shards_ids l parent
  end.

Definition try_get_parent_shard_id (l : ShardLayout) (shard_id : Z)
    : result (option Z) ShardLayoutError :=
  match l with
  | LayoutV0 _ => Ok None
  | LayoutV1 l => v1_try_get_parent_shard_id l shard_id
  | LayoutV2 l => v2_try_get_parent_shard_id l shard_id
  | LayoutV3 l => let? p := v3_try_get_parent_shard_id l shard_id in Ok (Some p)
  end.

Definition get_parent_shard_id (l : ShardLayout) (shard_id : Z) : result Z ShardLayoutError :=
  let? p := try_get_parent_shard_id l shard_id in
  ok_or p (NoParent shard_id).

Definition get_shard_index (l : ShardLayout) (shard_id : Z) : result Z ShardLayoutError :=
  match l with
  | LayoutV0 _ | LayoutV1 _ => Ok shard_id
  | LayoutV2 l => ok_or (l2_id_to_index_map l !! shard_id) (InvalidShardId shard_id)
  | LayoutV3 l => ok_or (l3_id_to_index_map l !! shard_id) (InvalidShardId shard_id)
  end.

Definition get_shard_id (l : ShardLayout) (shard_index : Z) : result Z ShardLayoutError :=
  match l with
  | LayoutV0 l => if l0_num_shards l <=? shard_index then Err (InvalidShardIndex shard_index)
                  else Ok shard_index
  | LayoutV1 l => if v1_num_shards l <=? shard_index then Err (InvalidShardIndex shard_index)
                  else Ok shard_index
  | LayoutV2 l => ok_or (l2_shard_ids l !! Z.to_nat shard_index) (InvalidShardIndex shard_index)
  | LayoutV3 l => ok_or (l3_shard_ids l !! Z.to_nat shard_index) (InvalidShardIndex shard_index)
  end.

Fixpoint split_parents (l : ShardLayout) (ids : list Z) (acc : gset Z) : result (gset Z) unit :=
  match ids with
  | [] => Ok acc
  | id :: ids =>
      match try_get_parent_shard_id l id with
      | Ok (Some p) => split_parents l ids (if p =? id then acc else {[p]} ∪ acc)
      | Ok None => split_parents l ids acc
      | _ => Panic
      end
  end.

Definition get_split_parent_shard_ids (l : ShardLayout) : result (gset Z) unit :=
  match l with
  | LayoutV3 l => Ok {[l3_last_split l]}
  | _ => split_parents l (shard_ids l) ∅
  end.

(* ------------------------------------------------------------------ *)
(** ** Deriving a layout *)

Definition v2_derive (base : ShardLayout) (new_boundary_account : AccountId)
    : result ShardLayoutV2 unit :=
  let? boundaries := boundary_accounts base in
  let ids := shard_ids base in
  let split_map := list_to_map (map (fun id => (id, [id])) ids) : gmap Z (list Z) in
  if bool_decide (new_boundary_account ∈ boundaries) then Panic
  else
    let boundaries := merge_sort String.le (boundaries ++ [new_boundary_account]) in
    let? found := unwrap (list_find (eq new_boundary_account) boundaries) in
    let index := fst found in
    let? max_shard_id := unwrap (list_max ids) in
    let? first := add_or_panic u64_max max_shard_id 1 in
    let? second := add_or_panic u64_max max_shard_id 2 in
    let? parent := unwrap (ids !! index) in
    v2_new boundaries (splice_one index [first; second] ids)
      (Some (<[parent := [first; second]]> split_map)).

Definition derive_shard_layout (base : ShardLayout) (new_boundary_account : AccountId)
    : result ShardLayout unit :=
  let? l := v2_derive base new_boundary_account in
  Ok (LayoutV2 l).

(** [Vec::binary_search] on a sorted vector: found, or the place to insert. *)
Definition binary_search (x : AccountId) (l : list AccountId) : nat + nat :=
  let i := partition_point (fun y => String.ltb y x) l in
  if bool_decide (l !! i = Some x) then inl i else inr i.

Definition v3_derive_impl (ids : list Z) (boundaries : list AccountId)
    (new_boundary_account : AccountId) (split_map : gmap Z (list Z)) : result ShardLayoutV3 unit :=
  match binary_search new_boundary_account boundaries with
  | inl _ => Panic
  | inr index =>
      let boundaries := take index boundaries ++ new_boundary_account :: drop index boundaries in
      let? max_shard_id := unwrap (list_max ids) in
      let? first := add_or_panic u64_max max_shard_id 1 in
      let? second := add_or_panic u64_max max_shard_id 2 in
      let? last_split := unwrap (ids !! index) in
      v3_new boundaries (splice_one index [first; second] ids)
        (<[last_split := [first; second]]> split_map) last_split
  end.

(** [split_history.entry(parent_id).or_default().push(shard_id)] for the shards of a
    layout that have another shard as parent. *)
Fixpoint add_splits (l : ShardLayout) (ids : list Z) (m : gmap Z (list Z))
    : result (gmap Z (list Z)) unit :=
  match ids with
  | [] => Ok m
  | id :: ids =>
      match try_get_parent_shard_id l id with
      | Ok (Some p) =>
          add_splits l ids (if p =? id then m else <[p := default [] (m !! p) ++ [id]]> m)
      | Ok None => add_splits l ids m
      | _ => Panic
      end
  end.

Fixpoint build_split_map_from (history : list ShardLayout) (m : gmap Z (list Z))
    : result (gmap Z (list Z)) unit :=
  match history with
  | current :: ((prev :: _) as rest) =>
      if (layout_version current <? 3) || (layout_version prev <? 3) then Ok m
      else
        let? m := add_splits current (shard_ids current) m in
        build_split_map_from rest m
  | _ => Ok m
  end.

Definition build_shard_split_map (layout_history : list ShardLayout) : result (gmap Z (list Z)) unit :=
  build_split_map_from layout_history ∅.

Definition derive_v3 (base : ShardLayout) (new_boundary_account : AccountId)
    (layout_history : list ShardLayout) : result ShardLayout unit :=
  match base with
  | LayoutV0 _ => Panic
  | LayoutV1 _ | LayoutV2 _ =>
      let? boundaries := boundary_accounts base in
      let? split_map := build_shard_split_map layout_history in
      let? l := v3_derive_impl (shard_ids base) boundaries new_boundary_account split_map in
      Ok (LayoutV3 l)
  | LayoutV3 l =>
      let? l := v3_derive_impl (l3_shard_ids l) (l3_boundary_accounts l) new_boundary_account
                  (l3_shards_split_map l) in
      Ok (LayoutV3 l)
  end.
