(* ===== verification/ShardSplit.v ===== *)
(** * Splitting a shard

    A layout derived from another splits exactly the shard of the new boundary
    account, and moves no account of any other shard. *)

From stdpp Require Import sorting gmap strings.
From S2P Require Import Prelude Crates AccountId Primitives ShardLayout.

(* ------------------------------------------------------------------ *)
(** ** Places in a sorted list of accounts *)


Lemma ltb_leb a b : String.ltb a b = negb (String.leb b a).
Proof.
  unfold String.ltb, String.leb. rewrite String.compare_antisym. by destruct (String.compare b a).
Qed.

Lemma leb_le a b : String.leb a b = true <-> String.le a b.
Proof. unfold String.le. split; [by intros ->|by destruct (String.leb a b)]. Qed.

Lemma leb_gt a b : String.leb a b = false -> String.leb b a = true.
Proof. intros H. destruct (String.leb_total a b) as [E|E]; congruence. Qed.

Notation place a bs := (partition_point (at_most a) bs).

Lemma place_le_length a bs : (place a bs <= length bs)%nat.
Proof. induction bs as [|x bs IH]; simpl; [lia|]. case_match; simpl; lia. Qed.

Lemma place_mono a b bs : String.leb a b = true -> (place a bs <= place b bs)%nat.
Proof.
  intros H. induction bs as [|x bs IH]; simpl; [lia|]. unfold at_most at 1 3.
  destruct (String.leb x a) eqn:E; [|lia].
  assert (String.leb x b = true) as ->; [|lia].
  apply leb_le. etransitivity; apply leb_le; eassumption.
Qed.

(** The boundaries with a new one at its place. *)
Definition with_boundary (b : AccountId) (bs : list AccountId) : list AccountId :=
  take (place b bs) bs ++ b :: drop (place b bs) bs.

Lemma with_boundary_cons b x bs :
  with_boundary b (x :: bs)
  = if String.leb x b then x :: with_boundary b bs else b :: x :: bs.
Proof. unfold with_boundary. simpl. unfold at_most at 1 3. by destruct (String.leb x b). Qed.

Lemma place_cons a x bs : place a (x :: bs) = if String.leb x a then S (place a bs) else O.
Proof. done. Qed.

Lemma place_with_boundary a b bs :
  place a (with_boundary b bs)
  = (place a bs + if String.leb b a then 1 else 0)%nat.
Proof.
  induction bs as [|x bs IH].
  { unfold with_boundary. simpl. unfold at_most. destruct (String.leb b a); lia. }
  rewrite with_boundary_cons. destruct (String.leb x b) eqn:Exb; rewrite !place_cons.
  - destruct (String.leb x a) eqn:Exa; [rewrite IH; lia|].
    destruct (String.leb b a) eqn:Eba; [|lia]. exfalso.
    apply not_true_iff_false in Exa. apply Exa, leb_le. etransitivity; by apply leb_le.
  - destruct (String.leb b a) eqn:Eba; [lia|].
    destruct (String.leb x a) eqn:Exa; [|lia]. exfalso.
    apply leb_gt in Eba. apply not_true_iff_false in Exb. apply Exb, leb_le.
    etransitivity; by apply leb_le.
Qed.

Lemma with_boundary_sorted b bs : Sorted String.le bs -> Sorted String.le (with_boundary b bs).
Proof.
  induction bs as [|x bs IH]; intros Hs.
  { repeat constructor. }
  rewrite with_boundary_cons. apply Sorted_inv in Hs as [Hs Hd].
  destruct (String.leb x b) eqn:E.
  - constructor; [auto|]. destruct bs as [|y bs].
    + constructor. by apply leb_le.
    + rewrite with_boundary_cons. inversion Hd. destruct (String.leb y b); constructor; [done|].
      by apply leb_le.
  - constructor; [by constructor|]. constructor. apply leb_le. by apply leb_gt.
Qed.

Lemma with_boundary_perm b bs : with_boundary b bs ≡ₚ b :: bs.
Proof.
  unfold with_boundary. rewrite <- Permutation_middle. by rewrite take_drop.
Qed.

Lemma sort_with_boundary b bs :
  Sorted String.le bs -> merge_sort String.le (bs ++ [b]) = with_boundary b bs.
Proof.
  intros Hs. apply (Sorted_unique String.le).
  - apply (Sorted_merge_sort String.le).
  - by apply with_boundary_sorted.
  - rewrite merge_sort_Permutation, with_boundary_perm. by rewrite Permutation_app_comm.
Qed.

Lemma sort_sorted bs : Sorted String.le bs -> merge_sort String.le bs = bs.
Proof.
  intros Hs. apply (Sorted_unique String.le); [apply (Sorted_merge_sort String.le)|done|].
  apply merge_sort_Permutation.
Qed.

Lemma find_boundary b bs :
  b ∉ bs -> list_find (eq b) (with_boundary b bs) = Some (place b bs, b).
Proof.
  intros Hb. pose proof (place_le_length b bs). apply list_find_Some. unfold with_boundary.
  assert (length (take (place b bs) bs) = place b bs) as Hl by (rewrite length_take; lia).
  split_and!; [|done|].
  - rewrite lookup_app_r by lia. by rewrite Hl, Nat.sub_diag.
  - intros j y Hj Hlt. rewrite lookup_app_l in Hj by lia. intros <-. apply Hb.
    apply list_elem_of_lookup_2 with j. rewrite lookup_take_Some in Hj. by destruct Hj.
Qed.

Lemma search_boundary b bs : b ∉ bs -> binary_search b bs = inr (place b bs).
Proof.
  intros Hb. unfold binary_search.
  assert (partition_point (fun y => String.ltb y b) bs = place b bs) as ->.
  { induction bs as [|x bs IH]; [done|]. simpl. apply not_elem_of_cons in Hb as [Hx Hb].
    rewrite IH by done. unfold at_most at 2. rewrite ltb_leb.
    destruct (String.leb b x) eqn:E; simpl.
    - destruct (String.leb x b) eqn:E'; [|done]. exfalso. apply Hx.
      apply (anti_symm String.le); by apply leb_le.
    - by rewrite (leb_gt b x E). }
  rewrite bool_decide_eq_false_2; [done|]. intros H. apply Hb. by eapply list_elem_of_lookup_2.
Qed.

Lemma is_sorted_Sorted bs : Sorted String.le bs -> is_sorted bs = true.
Proof.
  induction bs as [|x [|y bs] IH]; intros Hs; [done|done|].
  apply Sorted_inv in Hs as [Hs Hd]. inversion Hd as [|? ? Hle]. simpl is_sorted.
  apply leb_le in Hle. rewrite Hle. by apply IH.
Qed.

(* ------------------------------------------------------------------ *)
(** ** Routing after a split *)

Lemma route_split (ids : list Z) bs a b c1 c2 :
  length ids = S (length bs) ->
  splice_one (place b bs) [c1; c2] ids !! place a (with_boundary b bs)
  = if decide (place a bs = place b bs) then Some (if String.leb b a then c2 else c1)
    else ids !! place a bs.
Proof.
  intros Hlen. pose proof (place_le_length a bs). pose proof (place_le_length b bs) as Hb.
  rewrite place_with_boundary. unfold splice_one.
  assert (length (take (place b bs) ids) = place b bs) as Hl by (rewrite length_take; lia).
  destruct (String.leb b a) eqn:E.
  - pose proof (place_mono b a bs E). rewrite lookup_app_r, Hl by lia. case_decide as Heq.
    + by replace (place a bs + 1 - place b bs)%nat with 1%nat by lia.
    + rewrite lookup_app_r by (simpl; lia). rewrite lookup_drop. f_equal. simpl. lia.
  - apply leb_gt in E. pose proof (place_mono a b bs E). rewrite Nat.add_0_r. case_decide as Heq.
    + rewrite lookup_app_r, Hl, Heq by lia. by rewrite Nat.sub_diag.
    + rewrite lookup_app_l by lia. by rewrite lookup_take_lt by lia.
Qed.

(** A list of shards in which [p] is replaced by two new ones. *)
Lemma elem_of_splice (ids : list Z) i p c1 c2 x :
  NoDup ids -> ids !! i = Some p ->
  x ∈ splice_one i [c1; c2] ids <-> x = c1 \/ x = c2 \/ (x ∈ ids /\ x <> p).
Proof.
  intros Hnd Hi. unfold splice_one. rewrite <- (take_drop_middle ids i p Hi) in Hnd.
  apply NoDup_app in Hnd as (H1 & H2 & H3). apply NoDup_cons in H3 as [H3 H4].
  rewrite <- (take_drop_middle ids i p Hi) at 3. rewrite !elem_of_app, !elem_of_cons.
  pose proof (H2 x). set_solver.
Qed.

Lemma NoDup_splice (ids : list Z) i p c1 c2 :
  NoDup ids -> ids !! i = Some p -> c1 ∉ ids -> c2 ∉ ids -> c1 <> c2 ->
  NoDup (splice_one i [c1; c2] ids).
Proof.
  intros Hnd Hi H1 H2 H12. unfold splice_one. pose proof (take_drop_middle ids i p Hi) as E.
  revert E. generalize (take i ids) (drop (S i) ids). intros l1 l2 <-.
  apply NoDup_app in Hnd as (Ha & Hb & Hc). apply NoDup_cons in Hc as [Hc Hd].
  rewrite elem_of_app, elem_of_cons in H1. rewrite elem_of_app, elem_of_cons in H2.
  apply NoDup_app. split_and!; [done| |].
  - intros x Hx. specialize (Hb x Hx). simpl. rewrite !elem_of_cons. rewrite elem_of_cons in Hb.
    intros [->|[->|Hin]]; [apply H1|apply H2|apply Hb]; by auto.
  - simpl. apply NoDup_cons. rewrite not_elem_of_cons. split; [split; [done|]|].
    { intros Hin. apply H1. by auto. }
    apply NoDup_cons. split; [|done]. intros Hin. apply H2. by auto.
Qed.

Lemma length_splice (ids : list Z) i p c1 c2 :
  ids !! i = Some p -> length (splice_one i [c1; c2] ids) = S (length ids).
Proof.
  intros Hi. apply lookup_lt_Some in Hi. unfold splice_one.
  rewrite !length_app, length_take, length_drop. simpl. lia.
Qed.

Lemma list_max_Some ids : ids <> [] ->
  exists m, list_max ids = Some m /\ m ∈ ids /\ forall x, x ∈ ids -> x <= m.
Proof.
  induction ids as [|x ids IH]; [done|]. intros _. destruct ids as [|y ids].
  { exists x. split_and!; [done|set_solver|]. intros z Hz. set_solver. }
  destruct IH as (m & Hm & Hin & Hle); [done|]. exists (Z.max x m).
  change (list_max (x :: y :: ids)) with (Some (match list_max (y :: ids) with Some y => Z.max x y | None => x end)).
  rewrite Hm. split_and!; [done| |].
  - destruct (Z.max_spec x m) as [[_ ->]|[_ ->]]; set_solver.
  - intros z [->|Hz]%elem_of_cons; [lia|]. specialize (Hle z Hz). lia.
Qed.

(* ------------------------------------------------------------------ *)
(** ** Parent maps *)

Lemma insert_children p cs : forall m : gmap Z Z,
  NoDup cs -> (forall c, c ∈ cs -> m !! c = None) ->
  exists m', fold_left (insert_child p) cs (Ok m) = Ok m'
    /\ forall c q, m' !! c = Some q <-> m !! c = Some q \/ (q = p /\ c ∈ cs).
Proof.
  induction cs as [|x cs IH]; intros m Hnd Hm.
  { exists m. split; [done|]. set_solver. }
  apply NoDup_cons in Hnd as [Hx Hnd]. simpl. rewrite Hm by set_solver.
  destruct (IH (<[x := p]> m)) as (m' & Hf & Hq); [done| |].
  { intros c Hc. rewrite lookup_insert_ne by set_solver. apply Hm. set_solver. }
  exists m'. split; [done|]. intros c q. rewrite Hq. destruct (decide (c = x)) as [->|Hne].
  - rewrite lookup_insert_eq, Hm by set_solver. set_solver.
  - rewrite lookup_insert_ne by done. set_solver.
Qed.

(** The loop over a split map: it succeeds when the checks do and no child repeats. *)
Section loop.
Context (check : Z -> list Z -> Prop)
  (step : result (gmap Z Z) unit -> Z * list Z -> result (gmap Z Z) unit).
Hypothesis Hstep : forall m p cs m', check p cs ->
  fold_left (insert_child p) cs (Ok m) = Ok m' -> step (Ok m) (p, cs) = Ok m'.

Lemma parents_loop entries : forall m : gmap Z Z,
  NoDup (entries.*1) ->
  (forall p cs, (p, cs) ∈ entries -> NoDup cs /\ check p cs /\ forall c, c ∈ cs -> m !! c = None) ->
  (forall p q cs ds c, (p, cs) ∈ entries -> (q, ds) ∈ entries -> c ∈ cs -> c ∈ ds -> p = q) ->
  exists m', fold_left step entries (Ok m) = Ok m'
    /\ forall c p, m' !! c = Some p <-> m !! c = Some p \/ exists cs, (p, cs) ∈ entries /\ c ∈ cs.
Proof using Hstep.
  induction entries as [|[p cs] entries IH]; intros m Hk He Hd.
  { exists m. split; [done|]. set_solver. }
  simpl in Hk. apply NoDup_cons in Hk as [Hp Hk].
  destruct (He p cs) as (Hn & Hc & Hm); [by left|].
  destruct (insert_children p cs m Hn Hm) as (m1 & H1 & Hq). simpl.
  rewrite (Hstep m p cs m1 Hc H1). destruct (IH m1 Hk) as (m' & Hf & Hm').
  - intros q ds Hin. destruct (He q ds) as (Hn' & Hc' & Hm''); [by right|].
    split_and!; [done|done|]. intros c Hcd. destruct (m1 !! c) as [r|] eqn:E; [|done].
    apply Hq in E as [E|[-> E]]; [by rewrite Hm'' in E|].
    assert (p = q) as <- by (apply (Hd p q cs ds c); [by left|by right|done|done]). destruct Hp.
    apply list_elem_of_fmap. by exists (p, ds).
  - intros r q ds es c Hr Hs. apply Hd; by right.
  - exists m'. split; [done|]. intros c q. rewrite Hm', Hq. split.
    + intros [[?|[-> ?]]|(ds & ? & ?)]; [by left|right|right].
      * exists cs. split; [by left|done].
      * exists ds. split; [by right|done].
    + intros [?|(ds & [[= -> ->]|?]%elem_of_cons & ?)]; [by do 2 left|left; by right|right; by exists ds].
Qed.
End loop.

(** A split map in which no shard has two parents. *)
Definition one_parent (split_map : gmap Z (list Z)) : Prop :=
  (forall p cs, split_map !! p = Some cs -> NoDup cs)
  /\ forall p q cs ds c, split_map !! p = Some cs -> split_map !! q = Some ds ->
       c ∈ cs -> c ∈ ds -> p = q.

Definition is_child (split_map : gmap Z (list Z)) (p c : Z) : Prop :=
  exists cs, split_map !! p = Some cs /\ c ∈ cs.

Lemma parents_of_map (check : Z -> list Z -> Prop)
    (step : result (gmap Z Z) unit -> Z * list Z -> result (gmap Z Z) unit) (split_map : gmap Z (list Z)) :
  (forall m p cs m', check p cs ->
     fold_left (insert_child p) cs (Ok m) = Ok m' -> step (Ok m) (p, cs) = Ok m') ->
  (forall p cs, split_map !! p = Some cs -> check p cs) -> one_parent split_map ->
  exists m, fold_left step (map_to_list split_map) (Ok ∅) = Ok m
    /\ forall c p, m !! c = Some p <-> is_child split_map p c.
Proof.
  intros Hstep Hc [Hn Hd]. destruct (parents_loop check step Hstep (map_to_list split_map) ∅) as (m & Hf & Hm).
  - apply NoDup_fst_map_to_list.
  - intros p cs Hin%elem_of_map_to_list. split_and!; [by eapply Hn|by apply Hc|done].
  - intros p q cs ds c ?%elem_of_map_to_list ?%elem_of_map_to_list. by eapply Hd.
  - exists m. split; [done|]. intros c p. rewrite Hm, lookup_empty. unfold is_child.
    setoid_rewrite elem_of_map_to_list. naive_solver.
Qed.

Lemma sorted_ids_unique l k :
  NoDup l -> NoDup k -> (forall x, x ∈ l <-> x ∈ k) -> sorted_ids l = sorted_ids k.
Proof.
  intros Hl Hk He. unfold sorted_ids. apply (Sorted_unique Z.le).
  - apply (Sorted_merge_sort Z.le).
  - apply (Sorted_merge_sort Z.le).
  - rewrite !merge_sort_Permutation. by apply NoDup_Permutation.
Qed.

(* ------------------------------------------------------------------ *)
(** ** Well-formed layouts *)

(** A layout by ranges: one shard more than boundaries, which are sorted, and no
    shard twice. *)
Record layout_wf (l : ShardLayout) (bs : list AccountId) : Prop := mk_layout_wf {
  lw_boundaries : boundary_accounts l = Ok bs;
  lw_sorted : Sorted String.le bs;
  lw_length : length (shard_ids l) = S (length bs);
  lw_nodup : NoDup (shard_ids l);
}.

Lemma v1_count_place a bs : forall n, v1_count n a bs = n + Z.of_nat (place a bs).
Proof.
  induction bs as [|x bs IH]; intros n; [simpl; lia|].
  change (v1_count n a (x :: bs)) with (if String.ltb a x then n else v1_count (n + 1) a bs).
  rewrite place_cons, ltb_leb. destruct (String.leb x a); simpl; [rewrite IH|]; lia.
Qed.

Lemma route_lookup {C : Crates} l bs a :
  layout_wf l bs -> account_id_to_shard_id l a = unwrap (shard_ids l !! place a bs).
Proof.
  intros [Hb _ Hl _]. pose proof (place_le_length a bs). destruct l as [l|l|l|l]; simpl in *; simplify_eq; try done.
  rewrite v1_count_place. unfold v1_num_shards. rewrite lookup_seqZ_lt; [done|]. unfold vec_len. lia.
Qed.

Lemma route_total {C : Crates} l bs a :
  layout_wf l bs ->
  exists s, account_id_to_shard_id l a = Ok s /\ shard_ids l !! place a bs = Some s /\ s ∈ shard_ids l.
Proof.
  intros Hw. rewrite (route_lookup l bs) by done. pose proof (place_le_length a bs).
  destruct (lookup_lt_is_Some_2 (shard_ids l) (place a bs)) as [s Hs]; [rewrite (lw_length _ _ Hw); lia|].
  rewrite Hs. exists s. split_and!; [done|done|]. by eapply list_elem_of_lookup_2.
Qed.

(** The derived layout [l'] splits the shard of [b] in [l]: accounts below [b] go to the
    first child, the others to the second, and every account of another shard stays. *)
Definition splits {C : Crates} (l : ShardLayout) (b : AccountId) (l' : ShardLayout) : Prop :=
  exists parent c1 c2,
    account_id_to_shard_id l b = Ok parent
    /\ c1 ∉ shard_ids l /\ c2 ∉ shard_ids l /\ c1 <> c2
    /\ get_children_shards_ids l' parent = Ok (Some [c1; c2])
    /\ get_split_parent_shard_ids l' = Ok {[parent]}
    /\ forall a, exists s s',
         account_id_to_shard_id l a = Ok s
         /\ s' = (if s =? parent then if String.ltb a b then c1 else c2 else s)
         /\ account_id_to_shard_id l' a = Ok s'
         /\ try_get_parent_shard_id l' s' = Ok (Some s).

(** What the two derivations have in common. *)
Section derivation.
Context {C : Crates} (l : ShardLayout) (bs : list AccountId) (b : AccountId).
Hypothesis Hw : layout_wf l bs.
Hypothesis Hb : b ∉ bs.
Hypothesis Hmax : forall id, id ∈ shard_ids l -> id + 2 <= u64_max.

Lemma split_parts :
  exists parent m,
    list_max (shard_ids l) = Some m /\ (forall x, x ∈ shard_ids l -> x <= m) /\ m + 2 <= u64_max
    /\ shard_ids l !! place b bs = Some parent /\ account_id_to_shard_id l b = Ok parent.
Proof using Hw Hmax.
  destruct (route_total l bs b Hw) as (p & Hp & Hi & _).
  destruct (list_max_Some (shard_ids l)) as (m & Hm & Hin & Hle).
  { intros E. by rewrite E in Hi. }
  exists p, m. split_and!; auto.
Qed.

Lemma split_wf l' parent c1 c2 :
  shard_ids l !! place b bs = Some parent -> c1 ∉ shard_ids l -> c2 ∉ shard_ids l -> c1 <> c2 ->
  boundary_accounts l' = Ok (with_boundary b bs) ->
  shard_ids l' = splice_one (place b bs) [c1; c2] (shard_ids l) ->
  layout_wf l' (with_boundary b bs).
Proof using Hw.
  intros Hi H1 H2 H12 Hbs Hids. destruct Hw as [_ Hs Hl Hn]. split.
  - done.
  - by apply with_boundary_sorted.
  - rewrite Hids. erewrite length_splice by done. rewrite Hl.
    by rewrite (Permutation_length (with_boundary_perm b bs)).
  - rewrite Hids. by eapply NoDup_splice.
Qed.

Lemma split_routes l' parent c1 c2 a :
  shard_ids l !! place b bs = Some parent -> layout_wf l' (with_boundary b bs) ->
  shard_ids l' = splice_one (place b bs) [c1; c2] (shard_ids l) ->
  exists s, account_id_to_shard_id l a = Ok s /\ s ∈ shard_ids l
    /\ account_id_to_shard_id l' a = Ok (if s =? parent then if String.ltb a b then c1 else c2 else s).
Proof using Hw.
  intros Hi Hw' Hids. destruct (route_total l bs a Hw) as (s & Hs & Hl & Hin).
  exists s. split_and!; [done|done|]. rewrite (route_lookup l' _ a Hw'), Hids.
  rewrite (route_split (shard_ids l) bs a b) by (by destruct Hw).
  destruct (Z.eqb_spec s parent) as [->|Hne].
  - rewrite decide_True by (by eapply NoDup_lookup; [apply Hw|..]).
    simpl. rewrite ltb_leb. by destruct (String.leb b a).
  - rewrite decide_False by (intros E; rewrite E in Hl; congruence). by rewrite Hl.
Qed.
End derivation.

(* ------------------------------------------------------------------ *)
(** ** Version 2 *)

Lemma contains_elem x (l : list Z) : contains x l = bool_decide (x ∈ l).
Proof.
  destruct (contains x l) eqn:E; symmetry.
  - apply bool_decide_eq_true. apply contains_true in E. by apply list_elem_of_In.
  - apply bool_decide_eq_false. apply contains_false in E. by rewrite list_elem_of_In.
Qed.

(** Every shard to itself, except the split one. *)
Definition split_map_of (ids : list Z) (parent c1 c2 : Z) : gmap Z (list Z) :=
  <[parent := [c1; c2]]> (list_to_map (map (fun id => (id, [id])) ids)).

Lemma split_map_of_Some ids parent c1 c2 p cs :
  NoDup ids ->
  split_map_of ids parent c1 c2 !! p = Some cs
  <-> (p = parent /\ cs = [c1; c2]) \/ (p <> parent /\ p ∈ ids /\ cs = [p]).
Proof.
  intros Hn. unfold split_map_of. rewrite lookup_insert_Some.
  assert (forall q ds, (list_to_map (map (fun id => (id, [id])) ids) : gmap Z (list Z)) !! q = Some ds
                       <-> q ∈ ids /\ ds = [q]) as ->.
  { intros q ds. rewrite <- elem_of_list_to_map.
    - rewrite list_elem_of_fmap. naive_solver.
    - rewrite <- list_fmap_compose. simpl. by rewrite list_fmap_id. }
  naive_solver.
Qed.

Lemma check_parent_v2_step ids m p cs m' :
  (match cs with [c] => p = c | _ => p ∉ ids end) ->
  fold_left (insert_child p) cs (Ok m) = Ok m' -> check_parent_v2 ids (Ok m) (p, cs) = Ok m'.
Proof.
  intros Hc Hf. unfold check_parent_v2. rewrite Hf. simpl. rewrite contains_elem.
  destruct cs as [|c [|c' cs]]; [| |]; rewrite ?bool_decide_eq_false_2 by done; try done.
  subst. by rewrite Z.eqb_refl.
Qed.

Section version2.
Context (ids : list Z) (i : nat) (parent c1 c2 : Z).
Hypothesis Hn : NoDup ids.
Hypothesis Hi : ids !! i = Some parent.
Hypothesis H1 : c1 ∉ ids.
Hypothesis H2 : c2 ∉ ids.
Hypothesis H12 : c1 <> c2.

Lemma split_map_one_parent : one_parent (split_map_of ids parent c1 c2).
Proof using Hn H1 H2 H12.
  split.
  - intros p cs [[-> ->]|(_ & _ & ->)]%split_map_of_Some; [|apply NoDup_singleton|done].
    apply NoDup_cons. split; [|apply NoDup_singleton]. by intros ->%list_elem_of_singleton.
  - intros p q cs ds c Hp Hq Hc Hd.
    apply split_map_of_Some in Hp; [|done]. apply split_map_of_Some in Hq; [|done].
    destruct Hp as [[-> ->]|(_ & Hp & ->)], Hq as [[-> ->]|(_ & Hq & ->)].
    + done.
    + apply list_elem_of_singleton in Hd as ->.
      apply elem_of_cons in Hc as [->|E]; [done|]. apply list_elem_of_singleton in E as ->. done.
    + apply list_elem_of_singleton in Hc as ->.
      apply elem_of_cons in Hd as [->|E]; [done|]. apply list_elem_of_singleton in E as ->. done.
    + apply list_elem_of_singleton in Hc, Hd. congruence.
Qed.

Lemma parent_map_v2 :
  exists m, validate_and_derive_shard_parent_map (splice_one i [c1; c2] ids) (split_map_of ids parent c1 c2)
            = Ok m
    /\ forall c, c ∈ splice_one i [c1; c2] ids ->
         m !! c = Some (if (c =? c1) || (c =? c2) then parent else c).
Proof using Hn Hi H1 H2 H12.
  unfold validate_and_derive_shard_parent_map.
  destruct (parents_of_map (fun p cs => match cs with [c] => p = c | _ => p ∉ splice_one i [c1; c2] ids end)
              (check_parent_v2 (splice_one i [c1; c2] ids)) (split_map_of ids parent c1 c2))
    as (m & -> & Hm).
  - intros. by apply check_parent_v2_step.
  - intros p cs [[-> ->]|(_ & _ & ->)]%split_map_of_Some; [|done|done].
    rewrite (elem_of_splice ids i parent) by done. apply list_elem_of_lookup_2 in Hi.
    intros [E|[E|[_ E]]]; [subst; by apply H1|subst; by apply H2|done].
  - apply split_map_one_parent.
  - assert (forall c, c ∈ splice_one i [c1; c2] ids ->
              m !! c = Some (if (c =? c1) || (c =? c2) then parent else c)) as Hlk.
    { intros c Hc. apply Hm. rewrite (elem_of_splice ids i parent) in Hc by done. unfold is_child.
      setoid_rewrite split_map_of_Some; [|done].
      destruct (Z.eqb_spec c c1) as [->|]; simpl; [exists [c1; c2]; set_solver|].
      destruct (Z.eqb_spec c c2) as [->|]; simpl; [exists [c1; c2]; set_solver|].
      exists [c]. set_solver. }
    simpl. rewrite bool_decide_eq_true_2; [by exists m|].
    apply sorted_ids_unique; [by eapply NoDup_splice|apply NoDup_fst_map_to_list|].
    intros x. split.
    + intros Hx%Hlk. apply list_elem_of_fmap. eexists (x, _). split; [done|]. by apply elem_of_map_to_list.
    + intros ([y p] & -> & Hy%elem_of_map_to_list)%list_elem_of_fmap. simpl.
      apply Hm in Hy as (cs & Hp & Hy). rewrite (elem_of_splice ids i parent) by done.
      apply split_map_of_Some in Hp as [[-> ->]|(? & ? & ->)]; [| |done]; set_solver.
Qed.
End version2.

Lemma split_parents_spec l (f : Z -> Z) ids : forall acc,
  (forall id, id ∈ ids -> try_get_parent_shard_id l id = Ok (Some (f id))) ->
  exists s, split_parents l ids acc = Ok s
    /\ forall x, x ∈ s <-> x ∈ acc \/ exists id, id ∈ ids /\ f id = x /\ x <> id.
Proof.
  induction ids as [|id ids IH]; intros acc Hf.
  { exists acc. split; [done|]. set_solver. }
  simpl. rewrite Hf by (by left). destruct (IH (if f id =? id then acc else {[f id]} ∪ acc)) as (s & Hs & He).
  { intros. apply Hf. by right. }
  exists s. split; [done|]. intros x. rewrite He. setoid_rewrite elem_of_cons.
  destruct (Z.eqb_spec (f id) id); set_solver.
Qed.

(** From the parent map of a derived layout to the split it makes. *)
Lemma splits_intro {C : Crates} l bs b l' parent c1 c2 :
  layout_wf l bs -> shard_ids l !! place b bs = Some parent ->
  c1 ∉ shard_ids l -> c2 ∉ shard_ids l -> c1 <> c2 ->
  boundary_accounts l' = Ok (with_boundary b bs) ->
  shard_ids l' = splice_one (place b bs) [c1; c2] (shard_ids l) ->
  get_children_shards_ids l' parent = Ok (Some [c1; c2]) ->
  get_split_parent_shard_ids l' = Ok {[parent]} ->
  (forall c, c ∈ shard_ids l' ->
     try_get_parent_shard_id l' c = Ok (Some (if (c =? c1) || (c =? c2) then parent else c))) ->
  layout_wf l' (with_boundary b bs) /\ splits l b l'.
Proof.
  intros Hw Hi H1 H2 H12 Hbs Hids Hch Hsp Hpar.
  assert (layout_wf l' (with_boundary b bs)) as Hw' by (apply (split_wf l bs b Hw l' parent c1 c2); done).
  split; [done|]. exists parent, c1, c2. split_and!; try done.
  { by rewrite (route_lookup l bs) , Hi. }
  intros a. destruct (split_routes l bs b Hw l' parent c1 c2 a Hi Hw' Hids) as (s & Hs & Hin & Hr).
  eexists s, _. split_and!; [done|done|done|].
  destruct (Z.eqb_spec s parent) as [->|Hne].
  - destruct (route_total l' _ a Hw') as (x & Hx & _ & Hin'). rewrite Hr in Hx. injection Hx as <-.
    rewrite Hpar by done. destruct (String.ltb a b); rewrite Z.eqb_refl, ?orb_true_r; done.
  - rewrite Hpar.
    + rewrite (proj2 (Z.eqb_neq s c1)), (proj2 (Z.eqb_neq s c2)); [done| |]; by intros ->.
    + rewrite Hids. apply (elem_of_splice _ _ parent); [apply Hw|done|]. by auto.
Qed.

Lemma v2_derive_Ok l bs b parent m pm :
  layout_wf l bs -> b ∉ bs -> list_max (shard_ids l) = Some m -> m + 2 <= u64_max ->
  shard_ids l !! place b bs = Some parent ->
  let ids := splice_one (place b bs) [m + 1; m + 2] (shard_ids l) in
  let sm := split_map_of (shard_ids l) parent (m + 1) (m + 2) in
  validate_and_derive_shard_parent_map ids sm = Ok pm ->
  derive_shard_layout l b
  = Ok (LayoutV2 (mkLayoutV2 (with_boundary b bs) ids (index_ids 0 ids ∅) (ids_by_index 0 ids ∅)
                    (Some sm) (Some pm) 3)).
Proof.
  intros Hw Hb Hm Hov Hi ids sm Hpm.
  unfold derive_shard_layout, v2_derive. rewrite (lw_boundaries _ _ Hw). simpl.
  rewrite bool_decide_eq_false_2 by done.
  rewrite sort_with_boundary, (find_boundary b bs Hb) by apply Hw. simpl.
  rewrite Hm. unfold add_or_panic, checked_add. simpl.
  rewrite (proj2 (Z.leb_le (m + 1) u64_max)), (proj2 (Z.leb_le (m + 2) u64_max)) by lia. simpl.
  rewrite Hi. simpl. unfold v2_new. fold ids.
  assert (vec_len (with_boundary b bs) + 1 = vec_len ids) as ->.
  { unfold vec_len, ids. rewrite (length_splice _ _ parent), (lw_length _ _ Hw) by done.
    rewrite (Permutation_length (with_boundary_perm b bs)). simpl. lia. }
  rewrite Z.eqb_refl. simpl.
  rewrite bool_decide_eq_true_2 by (symmetry; apply sort_sorted, with_boundary_sorted, Hw). simpl.
  change (<[parent := [m + 1; m + 2]]> _) with sm. by rewrite Hpm.
Qed.

(** Deriving a layout of version 2 never panics on a sorted layout and a new
    boundary account, and splits one shard: the one the new boundary belongs to.
    Its accounts below the boundary go to the first new shard and the others to the
    second, every other account keeps its shard, each new shard records the old shard
    of its accounts as its parent, and the result is sorted again, so that layouts
    can be derived one after the other. *)
Theorem derive_v2_splits {C : Crates} l bs b :
  layout_wf l bs -> b ∉ bs -> (forall id, id ∈ shard_ids l -> id + 2 <= u64_max) ->
  exists l', derive_shard_layout l b = Ok l'
    /\ layout_wf l' (with_boundary b bs) /\ splits l b l'.
Proof.
  intros Hw Hb Hmax. destruct (split_parts l bs b Hw Hmax) as (parent & m & Hm & Hle & Hov & Hi & Hr).
  assert (m + 1 ∉ shard_ids l) as H1 by (intros Hin%Hle; lia).
  assert (m + 2 ∉ shard_ids l) as H2 by (intros Hin%Hle; lia).
  destruct (parent_map_v2 (shard_ids l) (place b bs) parent (m + 1) (m + 2)) as (pm & Hpm & Hlk);
    [apply Hw|done|done|done|lia|].
  eexists. split; [by eapply v2_derive_Ok|].
  set (l' := LayoutV2 _).
  assert (forall c, c ∈ shard_ids l' ->
    try_get_parent_shard_id l' c
    = Ok (Some (if (c =? m + 1) || (c =? m + 2) then parent else c))) as Hpar.
  { intros c Hc. simpl. unfold v2_try_get_parent_shard_id. simpl in *.
    rewrite contains_elem, bool_decide_eq_true_2 by done. simpl. by rewrite Hlk. }
  apply (splits_intro l bs b l' parent (m + 1) (m + 2)); try done; [lia| |].
  - simpl. unfold v2_get_children_shards_ids, split_map_of. simpl. by rewrite lookup_insert_eq.
  - unfold get_split_parent_shard_ids. simpl.
    destruct (split_parents_spec l' (fun c => if (c =? m + 1) || (c =? m + 2) then parent else c)
                (shard_ids l') ∅ Hpar) as (s & Hs & He).
    simpl in Hs. rewrite Hs. f_equal. apply set_eq. intros x. rewrite He, elem_of_singleton. clear Hs He.
    assert (m + 1 ∈ shard_ids l') as Hin
      by (apply (elem_of_splice _ _ parent); [apply Hw|done|by left]).
    split.
    * intros [?|(id & _ & Hx & Hne)]; [set_solver|]. case_match; congruence.
    * intros ->. right. exists (m + 1). rewrite Z.eqb_refl. split_and!; [done|done|].
      apply list_elem_of_lookup_2, Hle in Hi. lia.
Qed.

(* ------------------------------------------------------------------ *)
(** ** Version 3 *)

(** The chain of ancestors of a shard in a split map. *)
Inductive lineage (split_map : gmap Z (list Z)) : Z -> list Z -> Prop :=
| lineage_root c : (forall p, ~ is_child split_map p c) -> lineage split_map c []
| lineage_step c p l : is_child split_map p c -> lineage split_map p l -> lineage split_map c (p :: l).

(** The history of splits that led to the shards [ids]: a split shard is gone, has at
    least two children, and these have larger numbers. *)
Definition history_ok (ids : list Z) (split_map : gmap Z (list Z)) : Prop :=
  one_parent split_map
  /\ forall p cs, split_map !! p = Some cs ->
       p ∉ ids /\ (1 < length cs)%nat /\ forall c, c ∈ cs -> p < c /\ exists id, id ∈ ids /\ c <= id.

Definition below (parents : gmap Z Z) (c : Z) : gmap Z Z := filter (fun kv => kv.1 <= c) parents.

Lemma ancestors_enough parents split_map :
  (forall c p, parents !! c = Some p <-> is_child split_map p c) ->
  (forall c p, parents !! c = Some p -> p < c) ->
  forall fuel c, (size (below parents c) < fuel)%nat ->
  exists l, ancestors fuel parents c = Some l /\ lineage split_map c l.
Proof.
  intros Hp Hlt. induction fuel as [|fuel IH]; intros c Hf; [lia|]. simpl.
  destruct (parents !! c) as [p|] eqn:E.
  - assert (size (below parents p) < size (below parents c))%nat as Hs.
    { apply map_subset_size. apply strict_spec_alt. pose proof (Hlt _ _ E). split.
      - apply map_subseteq_spec. intros k q (Hk & Hle)%map_lookup_filter_Some.
        apply map_lookup_filter_Some. simpl in *. split; [done|lia].
      - intros Heq. assert (below parents c !! c = Some p) as Hc
          by (apply map_lookup_filter_Some; split; [done|simpl; lia]).
        rewrite <- Heq in Hc. apply map_lookup_filter_Some in Hc as [_ Hc]. simpl in Hc. lia. }
    destruct (IH p) as (l & -> & Hl); [lia|]. exists (p :: l). split; [done|].
    apply lineage_step; [by apply Hp|done].
  - exists []. split; [done|]. apply lineage_root. intros p Hc%Hp. congruence.
Qed.

Lemma check_parent_v3_step ids m p cs m' :
  p ∉ ids /\ (1 < length cs)%nat ->
  fold_left (insert_child p) cs (Ok m) = Ok m' -> check_parent_v3 ids (Ok m) (p, cs) = Ok m'.
Proof.
  intros [Hp Hl] Hf. unfold check_parent_v3. simpl. rewrite contains_elem, bool_decide_eq_false_2 by done.
  rewrite (proj2 (Z.ltb_lt 1 (vec_len cs))) by (unfold vec_len; lia). done.
Qed.

Lemma ancestors_loop parents split_map ids : forall acc,
  (forall id, id ∈ ids -> exists l, ancestors (S (size parents)) parents id = Some l /\ lineage split_map id l) ->
  exists am, fold_left (insert_ancestors parents) ids (Ok acc) = Ok am
    /\ forall id, (id ∈ ids -> exists l, am !! id = Some l /\ lineage split_map id l)
                  /\ (id ∉ ids -> am !! id = acc !! id).
Proof.
  induction ids as [|x ids IH]; intros acc Ha.
  { exists acc. split; [done|]. set_solver. }
  destruct (Ha x) as (l & Hl & Hx); [by left|]. cbn [fold_left]. unfold insert_ancestors at 2.
  rewrite Hl. simpl. destruct (IH (<[x := l]> acc)) as (am & -> & Hm).
  { intros. apply Ha. by right. }
  exists am. split; [done|]. intros id. destruct (Hm id) as [Hin Hout]. rewrite elem_of_cons.
  destruct (decide (id ∈ ids)) as [Hd|Hd].
  - split; [by auto|tauto].
  - specialize (Hout Hd). split.
    + intros [->|?]; [|done]. exists l. by rewrite Hout, lookup_insert_eq.
    + intros Hne. rewrite Hout, lookup_insert_ne; [done|]. intros ->. by destruct Hne; left.
Qed.

Lemma ancestor_map_v3 ids sm :
  history_ok ids sm ->
  exists am, validate_and_derive_shard_ancestor_map ids sm = Ok am
    /\ forall id, id ∈ ids -> exists l, am !! id = Some l /\ lineage sm id l.
Proof.
  intros [Ho Hh]. unfold validate_and_derive_shard_ancestor_map.
  destruct (parents_of_map (fun p cs => p ∉ ids /\ (1 < length cs)%nat) (check_parent_v3 ids) sm)
    as (pm & -> & Hm); [by intros; apply check_parent_v3_step| |done|].
  { intros p cs Hp. by apply Hh in Hp as (? & ? & _). }
  simpl. destruct (ancestors_loop pm sm ids ∅) as (am & -> & Ha).
  - intros id _. apply ancestors_enough; [done| |].
    + intros c p (cs & Hp & Hc)%Hm. apply Hh in Hp as (_ & _ & Hp). by apply Hp.
    + unfold below. pose proof (map_size_filter (fun kv : Z * Z => kv.1 <= id) pm). lia.
  - exists am. split; [done|]. intros id. apply Ha.
Qed.

Lemma history_split ids i parent m sm :
  history_ok ids sm -> NoDup ids -> ids !! i = Some parent -> (forall x, x ∈ ids -> x <= m) ->
  history_ok (splice_one i [m + 1; m + 2] ids) (<[parent := [m + 1; m + 2]]> sm).
Proof.
  intros [[Hn Hd] Hh] Hnd Hi Hm. pose proof (list_elem_of_lookup_2 _ _ _ Hi) as Hp.
  assert (forall p cs c, sm !! p = Some cs -> c ∈ cs -> c <= m) as Hold.
  { intros p cs c (_ & _ & Hc)%Hh H. apply Hc in H as (_ & id & ?%Hm & ?). lia. }
  assert (forall c, c ∈ [m + 1; m + 2] -> c = m + 1 \/ c = m + 2) as Hnew by set_solver.
  split; [split|].
  - intros p cs [[<- <-]|[_ ?]]%lookup_insert_Some; [|by eapply Hn].
    apply NoDup_cons. split; [set_solver by lia|apply NoDup_singleton].
  - intros p q cs ds c [[<- <-]|[Hpp Hp']]%lookup_insert_Some [[<- <-]|[Hqq Hq']]%lookup_insert_Some Hc Hc';
      [done| | |by eapply Hd].
    + apply Hnew in Hc. pose proof (Hold _ _ _ Hq' Hc'). lia.
    + apply Hnew in Hc'. pose proof (Hold _ _ _ Hp' Hc). lia.
  - intros p cs [[<- <-]|[Hne Hs]]%lookup_insert_Some.
    + split_and!; [|simpl; lia|].
      * rewrite (elem_of_splice ids i parent) by done. apply Hm in Hp. naive_solver lia.
      * intros c Hc%Hnew. apply Hm in Hp. split; [lia|]. exists (m + 2).
        rewrite (elem_of_splice ids i parent) by done. split; [by auto|lia].
    + destruct (Hh p cs Hs) as (Hout & Hl & Hc). split_and!; [|done|].
      * rewrite (elem_of_splice ids i parent) by done.
        destruct cs as [|c cs]; [simpl in Hl; lia|]. destruct (Hc c) as [? _]; [by left|].
        pose proof (Hold p (c :: cs) c Hs ltac:(by left)). naive_solver lia.
      * intros c H. pose proof (Hold p cs c Hs H). split; [by apply Hc|]. exists (m + 2).
        rewrite (elem_of_splice ids i parent) by done. split; [by auto|lia].
Qed.

(** The split map a derivation starts from. *)
Definition split_history (l : ShardLayout) (history : list ShardLayout) : result (gmap Z (list Z)) unit :=
  match l with
  | LayoutV3 l => Ok (l3_shards_split_map l)
  | _ => build_shard_split_map history
  end.

Lemma v3_derive_Ok l bs b history parent m sm am :
  layout_wf l bs -> b ∉ bs -> list_max (shard_ids l) = Some m -> m + 2 <= u64_max ->
  shard_ids l !! place b bs = Some parent -> split_history l history = Ok sm ->
  let ids := splice_one (place b bs) [m + 1; m + 2] (shard_ids l) in
  let sm' := <[parent := [m + 1; m + 2]]> sm in
  validate_and_derive_shard_ancestor_map ids sm' = Ok am ->
  derive_v3 l b history
  = Ok (LayoutV3 (mkLayoutV3 (with_boundary b bs) ids (index_ids 0 ids ∅) sm' parent am)).
Proof.
  intros Hw Hb Hm Hov Hi Hh ids sm' Ham.
  assert (v3_derive_impl (shard_ids l) bs b sm
          = Ok (mkLayoutV3 (with_boundary b bs) ids (index_ids 0 ids ∅) sm' parent am)) as Himpl.
  { unfold v3_derive_impl. rewrite (search_boundary b bs Hb). fold (with_boundary b bs).
    rewrite Hm. unfold add_or_panic, checked_add. simpl.
    rewrite (proj2 (Z.leb_le (m + 1) u64_max)), (proj2 (Z.leb_le (m + 2) u64_max)) by lia. simpl.
    rewrite Hi. simpl. unfold v3_new. fold ids sm'.
    assert (vec_len (with_boundary b bs) + 1 = vec_len ids) as ->.
    { unfold vec_len, ids. rewrite (length_splice _ _ parent), (lw_length _ _ Hw) by done.
      rewrite (Permutation_length (with_boundary_perm b bs)). simpl. lia. }
    rewrite Z.eqb_refl, is_sorted_Sorted by (apply with_boundary_sorted, Hw). simpl.
    unfold sm' at 1. rewrite lookup_insert_eq. simpl. by rewrite Ham. }
  pose proof (lw_boundaries _ _ Hw) as Hbs.
  destruct l as [l|l|l|l]; simpl in *; simplify_eq; rewrite ?Hh; simpl; by rewrite Himpl.
Qed.


(* ------------------------------------------------------------------ *)
(** ** A concrete layout *)

#[local] Existing Instance Toy.crates.

Definition sample_layout : ShardLayout :=
  LayoutV2 (mkLayoutV2 ["g"; "p"] [4; 0; 7] (index_ids 0 [4; 0; 7] ∅) (ids_by_index 0 [4; 0; 7] ∅)
              None None 3).

Lemma sample_layout_wf : layout_wf sample_layout ["g"; "p"].
Proof.
  split; [done| |done|].
  - repeat constructor.
  - repeat (apply NoDup_cons; split); [set_solver..|]. apply NoDup_nil. done.
Qed.

Lemma sample_layout_small id : id ∈ shard_ids sample_layout -> id + 2 <= u64_max.
Proof. simpl. rewrite !elem_of_cons. intros [->|[->|[->|[]%not_elem_of_nil]]]; done. Qed.

Lemma derive_v2_splits_witness :
  exists l', derive_shard_layout sample_layout "k.near" = Ok l'
    /\ layout_wf l' (with_boundary "k.near" ["g"; "p"]) /\ splits sample_layout "k.near" l'.
Proof.
  apply (derive_v2_splits sample_layout ["g"; "p"] "k.near");
    [apply sample_layout_wf|set_solver|apply sample_layout_small].
Defined.

