(* ===== verification/Bandwidth.v ===== *)
(** * The bandwidth scheduler (runtime/src/bandwidth_scheduler,
      core/primitives/src/bandwidth_scheduler.rs)

    How many bytes of receipts each shard may send to each other shard at a height:
    a base amount on every link, then the requests in the order of the allowances of
    their links, then what is left of the budgets.  The random generator that breaks
    ties is a parameter.  A map in key order is the list of its entries where the code
    only iterates over it. *)

From S2P Require Import Prelude Crates AccountId Primitives Fees ShardLayout.

(* ------------------------------------------------------------------ *)
(** ** Loops and stable sorting *)

(** A [for] loop whose body updates the state [s] and may panic. *)
Fixpoint for_each {A S E : Type} (body : A -> S -> result S E) (l : list A) (s : S) : result S E :=
  match l with
  | [] => Ok s
  | a :: l => let? s := body a s in for_each body l s
  end.

(** [slice::sort_by_key]: stable. *)
Fixpoint insert_by_key {A : Type} (key : A -> Z) (a : A) (l : list A) : list A :=
  match l with
  | [] => [a]
  | b :: l' => if key a <=? key b then a :: l else b :: insert_by_key key a l'
  end.

Fixpoint sort_by_key {A : Type} (key : A -> Z) (l : list A) : list A :=
  match l with
  | [] => []
  | a :: l => insert_by_key key a (sort_by_key key l)
  end.

(* ------------------------------------------------------------------ *)
(** ** Parameters and requests *)

Record BandwidthSchedulerParams : Type := mkBandwidthParams {
  base_bandwidth : Z;
  max_shard_bandwidth : Z;
  max_single_grant : Z;
  bp_max_receipt_size : Z;
  max_allowance : Z;
}.

Definition calculate (max_shard_bandwidth max_single_grant max_allowance max_base_bandwidth
    max_receipt_size num_shards : Z) : result BandwidthSchedulerParams unit :=
  if negb (max_receipt_size <=? max_single_grant) then Panic
  else if negb (max_single_grant <=? max_shard_bandwidth) then Panic
  else
    let? available_bandwidth := sub_or_panic max_shard_bandwidth max_single_grant in
    let? others := sub_or_panic num_shards 1 in
    let base_bandwidth := available_bandwidth / Z.max 1 others in
    let base_bandwidth := if max_base_bandwidth <? base_bandwidth then max_base_bandwidth
                          else base_bandwidth in
    Ok (mkBandwidthParams base_bandwidth max_shard_bandwidth max_single_grant max_receipt_size
          max_allowance).

Definition BANDWIDTH_REQUEST_VALUES_NUM : nat := 40.
Definition BANDWIDTH_REQUEST_BITMAP_SIZE : nat := 5.

Definition interpolate (min max i n : Z) : result Z unit :=
  let? d := sub_or_panic max min in
  let? p := mul_or_panic u64_max d i in
  add_or_panic u64_max min (p / n).

(** [BandwidthRequestValues::new]. *)
Definition request_values (params : BandwidthSchedulerParams) : result (list Z) unit :=
  try_map (fun i => interpolate (base_bandwidth params) (max_single_grant params) (Z.of_nat i + 1)
                      (Z.of_nat BANDWIDTH_REQUEST_VALUES_NUM))
    (seq 0 BANDWIDTH_REQUEST_VALUES_NUM).

(** The bytes of the bitmap; bit [i] is bit [i mod 8] of byte [i / 8]. *)
Abbreviation BandwidthRequestBitmap := (list Z) (only parsing).

Definition bitmap_new : BandwidthRequestBitmap := replicate BANDWIDTH_REQUEST_BITMAP_SIZE 0.

Definition get_bit (b : BandwidthRequestBitmap) (idx : nat) : result bool unit :=
  if (idx <? BANDWIDTH_REQUEST_VALUES_NUM)%nat then
    let? byte := unwrap (b !! (idx / 8)%nat) in
    Ok (Z.testbit byte (Z.of_nat (idx mod 8)))
  else Panic.

Definition set_bit (b : BandwidthRequestBitmap) (idx : nat) (val : bool)
    : result BandwidthRequestBitmap unit :=
  if (idx <? BANDWIDTH_REQUEST_VALUES_NUM)%nat then
    let? byte := unwrap (b !! (idx / 8)%nat) in
    let k := Z.of_nat (idx mod 8) in
    Ok (<[(idx / 8)%nat := if val then Z.setbit byte k else Z.clearbit byte k]> b)
  else Panic.

Definition is_all_zeros (b : BandwidthRequestBitmap) : bool := bool_decide (b = bitmap_new).

Record BandwidthRequest : Type := mkBandwidthRequest {
  br_to_shard : Z;
  requested_values_bitmap : BandwidthRequestBitmap;
}.

(** The inner [while] of [make_from_receipt_sizes]; the fuel is the number of values. *)
Fixpoint find_value (fuel : nat) (values : list Z) (total_size : Z) (cur_value_idx : nat) : nat :=
  match fuel with
  | O => cur_value_idx
  | S fuel =>
      match values !! cur_value_idx with
      | Some v => if v <? total_size then find_value fuel values total_size (S cur_value_idx)
                  else cur_value_idx
      | None => cur_value_idx
      end
  end.

Section requests.
Context {E : Type}.

(** The errors of the iterator are of type [E]; a panic is one of the bitmap or an overflow. *)
Definition no_error {A : Type} (m : result A unit) : result A E :=
  match m with Ok a => Ok a | _ => Panic end.

Fixpoint mark_sizes (params : BandwidthSchedulerParams) (values : list Z)
    (sizes : list (result Z E)) (total_size : Z) (cur_value_idx : nat) (bitmap : BandwidthRequestBitmap)
    : result BandwidthRequestBitmap E :=
  match sizes with
  | [] => Ok bitmap
  | receipt_size :: sizes =>
      let? receipt_size := receipt_size in
      let? total_size := add_or_panic u64_max total_size receipt_size in
      if total_size <=? base_bandwidth params then
        mark_sizes params values sizes total_size cur_value_idx bitmap
      else
        let cur_value_idx := find_value (length values) values total_size cur_value_idx in
        if (cur_value_idx =? length values)%nat then Ok bitmap
        else
          let? bitmap := no_error (set_bit bitmap cur_value_idx true) in
          mark_sizes params values sizes total_size cur_value_idx bitmap
  end.

Definition make_from_receipt_sizes (to_shard : Z) (receipt_sizes : list (result Z E))
    (params : BandwidthSchedulerParams) : result (option BandwidthRequest) E :=
  let? values := no_error (request_values params) in
  let? bitmap := mark_sizes params values receipt_sizes 0 0 bitmap_new in
  if is_all_zeros bitmap then Ok None
  else Ok (Some (mkBandwidthRequest (to_shard mod 65536) bitmap)).
End requests.

(* ------------------------------------------------------------------ *)
(** ** Maps by shard index and by link *)

Record ShardLink : Type := mkLink {
  sender : Z;
  receiver : Z;
}.

#[export] Instance ShardLink_eq_dec : EqDecision ShardLink.
Proof. solve_decision. Defined.

Abbreviation ShardIndexMap T := (list (option T)) (only parsing).

Section index_map.
Context {T : Type}.

Definition im_new (num_indexes : Z) : ShardIndexMap T := replicate (Z.to_nat num_indexes) None.

(** Indexing panics out of range. *)
Definition im_get (m : ShardIndexMap T) (index : Z) : result (option T) unit :=
  unwrap (m !! Z.to_nat index).

Definition im_insert (index : Z) (value : T) (m : ShardIndexMap T) : result (ShardIndexMap T) unit :=
  let? _ := unwrap (m !! Z.to_nat index) in
  Ok (<[Z.to_nat index := Some value]> m).
End index_map.

Record ShardLinkMap (T : Type) : Type := mkLinkMap {
  lm_data : list (option T);
  lm_num_indexes : Z;
}.
Arguments mkLinkMap {T} _ _.
Arguments lm_data {T} _.
Arguments lm_num_indexes {T} _.

Section link_map.
Context {T : Type}.

Definition lm_new (num_indexes : Z) : ShardLinkMap T :=
  mkLinkMap (replicate (Z.to_nat (num_indexes * num_indexes)) None) num_indexes.

(** The assertions on the link are debug assertions. *)
Definition data_index_for_link (m : ShardLinkMap T) (link : ShardLink) : Z :=
  sender link * lm_num_indexes m + receiver link.

Definition lm_get (m : ShardLinkMap T) (link : ShardLink) : result (option T) unit :=
  im_get (lm_data m) (data_index_for_link m link).

Definition lm_insert (link : ShardLink) (value : T) (m : ShardLinkMap T)
    : result (ShardLinkMap T) unit :=
  let? data := im_insert (data_index_for_link m link) value (lm_data m) in
  Ok (mkLinkMap data (lm_num_indexes m)).
End link_map.

Definition shard_indexes (layout : ShardLayout) : list Z := seqZ 0 (num_shards layout).

(** The links in the order of senders, then of receivers. *)
Definition iter_links (layout : ShardLayout) : list ShardLink :=
  flat_map (fun s => map (mkLink s) (shard_indexes layout)) (shard_indexes layout).

(* ------------------------------------------------------------------ *)
(** ** Distribution of the remaining bandwidth *)

Record EndpointInfo : Type := mkEndpointInfo {
  bandwidth_left : Z;
  links_num : Z;
}.

Definition average_link_bandwidth (e : EndpointInfo) : Z :=
  if links_num e =? 0 then 0 else bandwidth_left e / links_num e.

(** The division panics when no link is left. *)
Definition link_proposition (e : EndpointInfo) : result Z unit :=
  if links_num e =? 0 then Panic else Ok (bandwidth_left e / links_num e).

(** [get_mut(index).unwrap()] and an update in place. *)
Definition im_update {T : Type} (index : Z) (f : T -> result T unit) (m : ShardIndexMap T)
    : result (ShardIndexMap T) unit :=
  let? o := im_get m index in
  let? v := unwrap o in
  let? v := f v in
  im_insert index v m.

Definition add_link (e : EndpointInfo) : result EndpointInfo unit :=
  let? n := add_or_panic u64_max (links_num e) 1 in
  Ok (mkEndpointInfo (bandwidth_left e) n).

Definition use_link (granted : Z) (e : EndpointInfo) : result EndpointInfo unit :=
  let? rest := sub_or_panic (bandwidth_left e) granted in
  let? n := sub_or_panic (links_num e) 1 in
  Ok (mkEndpointInfo rest n).

(** One end of all the links: the first loop and its sort. *)
Definition endpoint_infos (layout : ShardLayout) (budgets : ShardIndexMap Z)
    : result (ShardIndexMap EndpointInfo) unit :=
  for_each (fun i infos =>
      let? b := im_get budgets i in
      im_insert i (mkEndpointInfo (default 0 b) 0) infos)
    (shard_indexes layout) (im_new (num_shards layout)).

Definition link_allowed (is_link_allowed : ShardLinkMap bool) (link : ShardLink) : result bool unit :=
  let? o := lm_get is_link_allowed link in Ok (default false o).

Definition count_links (layout : ShardLayout) (is_link_allowed : ShardLinkMap bool)
    (infos : ShardIndexMap EndpointInfo * ShardIndexMap EndpointInfo)
    : result (ShardIndexMap EndpointInfo * ShardIndexMap EndpointInfo) unit :=
  for_each (fun link '(sender_infos, receiver_infos) =>
      let? allowed := link_allowed is_link_allowed link in
      if allowed then
        let? sender_infos := im_update (sender link) add_link sender_infos in
        let? receiver_infos := im_update (receiver link) add_link receiver_infos in
        Ok (sender_infos, receiver_infos)
      else Ok (sender_infos, receiver_infos))
    (iter_links layout) infos.

(** The key unwraps the entry of every shard. *)
Definition average_of (infos : ShardIndexMap EndpointInfo) (shard : Z) : Z :=
  match infos !! Z.to_nat shard with
  | Some (Some e) => average_link_bandwidth e
  | _ => 0
  end.

Record Distribution : Type := mkDistribution {
  di_senders : ShardIndexMap EndpointInfo;
  di_receivers : ShardIndexMap EndpointInfo;
  di_grants : ShardLinkMap Z;
}.

(** The inner loop, with its [continue] and its [break]. *)
Fixpoint grant_from (is_link_allowed : ShardLinkMap bool) (from : Z) (receivers : list Z)
    (d : Distribution) : result Distribution unit :=
  match receivers with
  | [] => Ok d
  | to :: receivers =>
      let? allowed := link_allowed is_link_allowed (mkLink from to) in
      if negb allowed then grant_from is_link_allowed from receivers d
      else
        let? so := im_get (di_senders d) from in
        let? sender_info := unwrap so in
        let? ro := im_get (di_receivers d) to in
        let? receiver_info := unwrap ro in
        if (links_num sender_info =? 0) || (links_num receiver_info =? 0) then Ok d
        else
          let? sender_proposition := link_proposition sender_info in
          let? receiver_proposition := link_proposition receiver_info in
          let granted_bandwidth := Z.min sender_proposition receiver_proposition in
          let? grants := lm_insert (mkLink from to) granted_bandwidth (di_grants d) in
          let? sender_info := use_link granted_bandwidth sender_info in
          let? senders := im_insert from sender_info (di_senders d) in
          let? receiver_info := use_link granted_bandwidth receiver_info in
          let? receivers_infos := im_insert to receiver_info (di_receivers d) in
          grant_from is_link_allowed from receivers (mkDistribution senders receivers_infos grants)
  end.

Definition distribute_remaining_bandwidth (sender_budgets receiver_budgets : ShardIndexMap Z)
    (is_link_allowed : ShardLinkMap bool) (layout : ShardLayout) : result (ShardLinkMap Z) unit :=
  let? sender_infos := endpoint_infos layout sender_budgets in
  let? receiver_infos := endpoint_infos layout receiver_budgets in
  let? (sender_infos, receiver_infos) := count_links layout is_link_allowed (sender_infos, receiver_infos) in
  let senders := sort_by_key (average_of sender_infos) (shard_indexes layout) in
  let receivers := sort_by_key (average_of receiver_infos) (shard_indexes layout) in
  let? d := for_each (fun from d => grant_from is_link_allowed from receivers d) senders
              (mkDistribution sender_infos receiver_infos (lm_new (num_shards layout))) in
  Ok (di_grants d).

(* ------------------------------------------------------------------ *)
(** ** The scheduler *)

Record ShardStatus : Type := mkShardStatus {
  is_fully_congested : bool;
  last_chunk_missing : bool;
  allowed_sender_shard_index : option Z;
}.

Record SchedulerBandwidthRequest : Type := mkSchedulerRequest {
  sr_link : ShardLink;
  bandwidth_increases : list Z;
}.

Record LinkAllowance : Type := mkLinkAllowance {
  la_sender : Z;
  la_receiver : Z;
  la_allowance : Z;
}.

(** The increases a bitmap asks for above [current_total], from bit [bit_idx] on. *)
Fixpoint increases_from (bitmap : BandwidthRequestBitmap) (values : list Z) (bit_idx : nat)
    (current_total : Z) : result (list Z) unit :=
  match values with
  | [] => Ok []
  | requested_value :: values =>
      let? bit := get_bit bitmap bit_idx in
      if negb bit || (requested_value <=? current_total) then
        increases_from bitmap values (S bit_idx) current_total
      else
        let? increase := sub_or_panic requested_value current_total in
        let? rest := increases_from bitmap values (S bit_idx) requested_value in
        Ok (increase :: rest)
  end.

(** [SchedulerBandwidthRequest::new]. *)
Definition scheduler_request (sender_shard : Z) (request : BandwidthRequest)
    (params : BandwidthSchedulerParams) (layout : ShardLayout)
    : result (option SchedulerBandwidthRequest) unit :=
  match get_shard_index layout sender_shard, get_shard_index layout (br_to_shard request) with
  | Ok sender_index, Ok receiver_index =>
      let? values := request_values params in
      let? increases := increases_from (requested_values_bitmap request) values 0 (base_bandwidth params) in
      Ok (match increases with
          | [] => None
          | _ => Some (mkSchedulerRequest (mkLink sender_index receiver_index) increases)
          end)
  | _, _ => Ok None
  end.

Definition calculate_is_link_allowed (sender_index receiver_index : Z)
    (shards_status : ShardIndexMap ShardStatus) : result bool unit :=
  let? receiver_status := im_get shards_status receiver_index in
  match receiver_status with
  | None => Ok false
  | Some receiver_status =>
      if last_chunk_missing receiver_status then Ok false
      else
        let? sender_status := im_get shards_status sender_index in
        if match sender_status with Some st => last_chunk_missing st | None => false end then Ok false
        else if is_fully_congested receiver_status then
          Ok (bool_decide (Some sender_index = allowed_sender_shard_index receiver_status))
        else Ok true
  end.

Inductive TryGrantOutcome : Type :=
| Granted
| NotGranted.

(** [GrantedBandwidth]: by the identifiers of sender and receiver. *)
Abbreviation GrantedBandwidth := (gmap (Z * Z) Z).

Definition get_granted_bandwidth (g : GrantedBandwidth) (sender receiver : Z) : Z :=
  default 0 (g !! (sender, receiver)).

Section scheduler.
Context {Rng : Type}.
(** [ChaCha20Rng::from_seed] and [SliceRandom::shuffle]. *)
Variable from_seed : list Z -> Rng.
Variable shuffle : list SchedulerBandwidthRequest -> Rng -> list SchedulerBandwidthRequest * Rng.
Variable layout : ShardLayout.
Variable params : BandwidthSchedulerParams.

Record BandwidthScheduler : Type := mkScheduler {
  is_link_allowed_map : ShardLinkMap bool;
  sender_budget : ShardIndexMap Z;
  receiver_budget : ShardIndexMap Z;
  link_allowances : ShardLinkMap Z;
  granted_bandwidth : ShardLinkMap Z;
  rng : Rng;
}.

Definition with_sender_budget (s : BandwidthScheduler) b : BandwidthScheduler :=
  mkScheduler (is_link_allowed_map s) b (receiver_budget s) (link_allowances s) (granted_bandwidth s) (rng s).
Definition with_receiver_budget (s : BandwidthScheduler) b : BandwidthScheduler :=
  mkScheduler (is_link_allowed_map s) (sender_budget s) b (link_allowances s) (granted_bandwidth s) (rng s).
Definition with_allowances (s : BandwidthScheduler) a : BandwidthScheduler :=
  mkScheduler (is_link_allowed_map s) (sender_budget s) (receiver_budget s) a (granted_bandwidth s) (rng s).
Definition with_granted (s : BandwidthScheduler) g : BandwidthScheduler :=
  mkScheduler (is_link_allowed_map s) (sender_budget s) (receiver_budget s) (link_allowances s) g (rng s).
Definition with_rng (s : BandwidthScheduler) g : BandwidthScheduler :=
  mkScheduler (is_link_allowed_map s) (sender_budget s) (receiver_budget s) (link_allowances s)
    (granted_bandwidth s) g.

Definition init_budgets (s : BandwidthScheduler) : result BandwidthScheduler unit :=
  let? senders := for_each (fun i => im_insert i (max_shard_bandwidth params)) (shard_indexes layout)
                    (sender_budget s) in
  let? receivers := for_each (fun i => im_insert i (max_shard_bandwidth params)) (shard_indexes layout)
                      (receiver_budget s) in
  Ok (with_receiver_budget (with_sender_budget s senders) receivers).

Definition default_link_allowance : Z := 0.

Definition get_allowance (s : BandwidthScheduler) (link : ShardLink) : result Z unit :=
  let? o := lm_get (link_allowances s) link in Ok (default default_link_allowance o).

Definition increase_allowance (link : ShardLink) (increase : Z) (s : BandwidthScheduler)
    : result BandwidthScheduler unit :=
  let? current_allowance := get_allowance s link in
  let new_allowance := saturating_add u64_max current_allowance increase in
  let new_allowance := if max_allowance params <? new_allowance then max_allowance params
                       else new_allowance in
  let? a := lm_insert link new_allowance (link_allowances s) in
  Ok (with_allowances s a).

Definition decrease_allowance (link : ShardLink) (decrease : Z) (s : BandwidthScheduler)
    : result BandwidthScheduler unit :=
  let? current_allowance := get_allowance s link in
  let? a := lm_insert link (saturating_sub current_allowance decrease) (link_allowances s) in
  Ok (with_allowances s a).

Definition increase_allowances (s : BandwidthScheduler) : result BandwidthScheduler unit :=
  if num_shards layout =? 0 then Panic
  else
    let fair_link_bandwidth := max_shard_bandwidth params / num_shards layout in
    for_each (fun link => increase_allowance link fair_link_bandwidth) (iter_links layout) s.

Definition grant_more_bandwidth (link : ShardLink) (bandwidth : Z) (s : BandwidthScheduler)
    : result BandwidthScheduler unit :=
  let? o := lm_get (granted_bandwidth s) link in
  let new_granted := default u64_max (checked_add u64_max (default 0 o) bandwidth) in
  let? g := lm_insert link new_granted (granted_bandwidth s) in
  Ok (with_granted s g).

Definition is_link_allowed (s : BandwidthScheduler) (link : ShardLink) : result bool unit :=
  link_allowed (is_link_allowed_map s) link.

Definition try_grant_bandwidth (link : ShardLink) (bandwidth : Z) (s : BandwidthScheduler)
    : result (TryGrantOutcome * BandwidthScheduler) unit :=
  let? allowed := is_link_allowed s link in
  if negb allowed then Ok (NotGranted, s)
  else
    let? so := im_get (sender_budget s) (sender link) in
    let? ro := im_get (receiver_budget s) (receiver link) in
    let sb := default 0 so in
    let rb := default 0 ro in
    if (sb <? bandwidth) || (rb <? bandwidth) then Ok (NotGranted, s)
    else
      let? left_to_send := sub_or_panic sb bandwidth in
      let? senders := im_insert (sender link) left_to_send (sender_budget s) in
      let? left_to_receive := sub_or_panic rb bandwidth in
      let? receivers := im_insert (receiver link) left_to_receive (receiver_budget s) in
      let? s := decrease_allowance link bandwidth
                  (with_receiver_budget (with_sender_budget s senders) receivers) in
      let? s := grant_more_bandwidth link bandwidth s in
      Ok (Granted, s).

Definition grant_base_bandwidth (s : BandwidthScheduler) : result BandwidthScheduler unit :=
  for_each (fun link s => let? (_, s) := try_grant_bandwidth link (base_bandwidth params) s in Ok s)
    (iter_links layout) s.

(** [requests_by_allowance] is a map from allowances to the requests that wait there. *)
Abbreviation Waiting := (gmap Z (list SchedulerBandwidthRequest)).

Definition enqueue (request : SchedulerBandwidthRequest) (s : BandwidthScheduler) (w : Waiting)
    : result Waiting unit :=
  let? a := get_allowance s (sr_link request) in
  Ok (<[a := default [] (w !! a) ++ [request]]> w).

(** [pop_last]: the entry with the greatest key. *)
Definition pop_last (w : Waiting) : option (list SchedulerBandwidthRequest * Waiting) :=
  match list_max (map fst (map_to_list w)) with
  | Some a => match w !! a with Some rs => Some (rs, delete a w) | None => None end
  | None => None
  end.

Definition grant_first (request : SchedulerBandwidthRequest) (st : BandwidthScheduler * Waiting)
    : result (BandwidthScheduler * Waiting) unit :=
  let '(s, w) := st in
  match bandwidth_increases request with
  | [] => Ok (s, w)
  | bandwidth_increase :: rest =>
      let? (outcome, s) := try_grant_bandwidth (sr_link request) bandwidth_increase s in
      match outcome with
      | Granted =>
          match rest with
          | [] => Ok (s, w)
          | _ => let? w := enqueue (mkSchedulerRequest (sr_link request) rest) s w in Ok (s, w)
          end
      | NotGranted => Ok (s, w)
      end
  end.

(** The fuel is the number of increases that wait, plus one. *)
Fixpoint process_waiting (fuel : nat) (s : BandwidthScheduler) (w : Waiting)
    : result BandwidthScheduler unit :=
  match fuel with
  | O => Panic
  | S fuel =>
      match pop_last w with
      | None => Ok s
      | Some (requests, w) =>
          let '(requests, rng) := shuffle requests (rng s) in
          let? (s, w) := for_each grant_first requests (with_rng s rng, w) in
          process_waiting fuel s w
      end
  end.

Definition increases_num (requests : list SchedulerBandwidthRequest) : nat :=
  sum_list_with (fun r => length (bandwidth_increases r)) requests.

Definition process_bandwidth_requests (requests : list SchedulerBandwidthRequest)
    (s : BandwidthScheduler) : result BandwidthScheduler unit :=
  let? w := for_each (fun r => enqueue r s) requests ∅ in
  process_waiting (S (increases_num requests)) s w.

Definition distribute_remaining (s : BandwidthScheduler) : result BandwidthScheduler unit :=
  let? remaining := distribute_remaining_bandwidth (sender_budget s) (receiver_budget s)
                      (is_link_allowed_map s) layout in
  for_each (fun link s =>
      let? o := lm_get remaining link in
      match o with
      | Some grant => grant_more_bandwidth link grant s
      | None => Ok s
      end)
    (iter_links layout) s.

(** [get_shard_id(index).unwrap()]. *)
Definition id_of (index : Z) : result Z unit :=
  match get_shard_id layout index with Ok id => Ok id | _ => Panic end.

Definition get_final_granted_bandwidth (s : BandwidthScheduler) : result GrantedBandwidth unit :=
  for_each (fun link granted =>
      let? o := lm_get (granted_bandwidth s) link in
      match o with
      | Some g =>
          let? from := id_of (sender link) in
          let? to := id_of (receiver link) in
          Ok (<[(from, to) := g]> granted)
      | None => Ok granted
      end)
    (iter_links layout) ∅.

Definition update_scheduler_state (s : BandwidthScheduler) : result (list LinkAllowance) unit :=
  for_each (fun link l =>
      let? o := lm_get (link_allowances s) link in
      match o with
      | Some a =>
          let? from := id_of (sender link) in
          let? to := id_of (receiver link) in
          Ok (l ++ [mkLinkAllowance from to a])
      | None => Ok l
      end)
    (iter_links layout) [].

Definition schedule_bandwidth (requests : list SchedulerBandwidthRequest) (s : BandwidthScheduler)
    : result (GrantedBandwidth * BandwidthScheduler) unit :=
  let? s := init_budgets s in
  let? s := increase_allowances s in
  let? s := grant_base_bandwidth s in
  let? s := process_bandwidth_requests requests s in
  let? s := distribute_remaining s in
  let? granted := get_final_granted_bandwidth s in
  Ok (granted, s).

(** The loops at the start of [run]. *)
Definition load_allowances (l : list LinkAllowance) : result (ShardLinkMap Z) unit :=
  for_each (fun a m =>
      match get_shard_index layout (la_sender a), get_shard_index layout (la_receiver a) with
      | Ok from, Ok to => lm_insert (mkLink from to) (la_allowance a) m
      | _, _ => Ok m
      end) l (lm_new (num_shards layout)).

Definition load_statuses (shards_status : list (Z * ShardStatus))
    : result (ShardIndexMap ShardStatus) unit :=
  for_each (fun '(shard_id, status) m =>
      match get_shard_index layout shard_id with
      | Ok idx => im_insert idx status m
      | _ => Ok m
      end) shards_status (im_new (num_shards layout)).

Definition load_allowed_links (statuses : ShardIndexMap ShardStatus) : result (ShardLinkMap bool) unit :=
  for_each (fun link m =>
      let? allowed := calculate_is_link_allowed (sender link) (receiver link) statuses in
      lm_insert link allowed m) (iter_links layout) (lm_new (num_shards layout)).

Definition load_requests (requests : list (Z * list BandwidthRequest))
    : result (list SchedulerBandwidthRequest) unit :=
  for_each (fun '(sender_shard, l) acc =>
      for_each (fun request acc =>
          let? o := scheduler_request sender_shard request params layout in
          Ok (match o with Some r => acc ++ [r] | None => acc end)) l acc) requests [].

(** The grants and the allowances kept for the next height. *)
Definition run (allowances : list LinkAllowance) (requests : list (Z * list BandwidthRequest))
    (shards_status : list (Z * ShardStatus)) (rng_seed : list Z)
    : result (GrantedBandwidth * list LinkAllowance) unit :=
  if num_shards layout =? 0 then Ok (∅, allowances)
  else
    let? link_allowances := load_allowances allowances in
    let? statuses := load_statuses shards_status in
    let? allowed := load_allowed_links statuses in
    let? requests := load_requests requests in
    let? (granted, s) := schedule_bandwidth requests
      (mkScheduler allowed (im_new (num_shards layout)) (im_new (num_shards layout)) link_allowances
         (lm_new (num_shards layout)) (from_seed rng_seed)) in
    let? allowances := update_scheduler_state s in
    Ok (granted, allowances).
End scheduler.
Arguments mkScheduler {Rng} _ _ _ _ _ _.
