(* ===== verification/BandwidthProofs.v ===== *)
(** * The bandwidth scheduler stays within its limits

    Whatever the requests, the statuses of the shards and the random choices, a run of
    the scheduler ends without a panic; no shard is granted more than the bandwidth of a
    shard as a sender or as a receiver, nothing is granted on a forbidden link, every
    other link has at least the base bandwidth, and the allowances stay in their range. *)

From S2P Require Import Prelude Crates AccountId Primitives Fees ShardLayout Bandwidth.

(* ------------------------------------------------------------------ *)
(** ** Sums over indices *)

Section sums.
Context {A : Type}.
Implicit Types (f g : A -> Z) (l : list A).

Lemma zsum_ext_in f g l : (forall a, a ∈ l -> f a = g a) -> zsum f l = zsum g l.
Proof.
  induction l as [|a l IH]; intros H; [done|]. rewrite !zsum_cons, H, IH; [done| |left].
  intros b Hb. apply H. by right.
Qed.

Lemma zsum_add f g l : zsum (fun a => f a + g a) l = zsum f l + zsum g l.
Proof. induction l as [|a l IH]; [done|]. rewrite !zsum_cons, IH. lia. Qed.

Lemma zsum_change f g l x :
  NoDup l -> x ∈ l -> (forall a, a ∈ l -> a <> x -> g a = f a) -> zsum g l = zsum f l + (g x - f x).
Proof.
  induction 1 as [|a l Ha Hl IH]; intros Hx Hfg; [by apply elem_of_nil in Hx|].
  rewrite !zsum_cons. apply elem_of_cons in Hx as [->|Hx].
  - rewrite (zsum_ext_in g f l); [lia|]. intros b Hb. apply Hfg; [by right|]. by intros ->.
  - rewrite IH; [|done|]; [rewrite (Hfg a); [lia|left|]; by intros ->|].
    intros b Hb. apply Hfg. by right.
Qed.

Lemma zsum_member f l x : (forall a, a ∈ l -> 0 <= f a) -> x ∈ l -> f x <= zsum f l.
Proof.
  induction l as [|a l IH]; intros Hf Hx; [by apply elem_of_nil in Hx|]. rewrite zsum_cons.
  assert (0 <= f a) by (apply Hf; left).
  assert (forall b, b ∈ l -> 0 <= f b) as Hl by (intros b Hb; apply Hf; by right).
  apply elem_of_cons in Hx as [->|Hx]; [|specialize (IH Hl Hx); lia].
  assert (0 <= zsum f l) by (apply zsum_nonneg, Forall_forall; exact Hl). lia.
Qed.

Lemma zsum_le_in f g l : (forall a, a ∈ l -> f a <= g a) -> zsum f l <= zsum g l.
Proof.
  induction l as [|a l IH]; intros H; [done|]. rewrite !zsum_cons.
  assert (f a <= g a) by (apply H; left). assert (zsum f l <= zsum g l); [|lia]. apply IH. intros b Hb. apply H. by right.
Qed.

Lemma zsum_bound f l b : (forall a, a ∈ l -> f a <= b) -> zsum f l <= b * vec_len l.
Proof.
  unfold vec_len. induction l as [|a l IH]; intros Hf; [unfold zsum; simpl; lia|]. rewrite zsum_cons. simpl length.
  assert (f a <= b) by (apply Hf; left).
  assert (zsum f l <= b * Z.of_nat (length l)) by (apply IH; intros c Hc; apply Hf; by right). lia.
Qed.
End sums.

(* ------------------------------------------------------------------ *)
(** ** Loops *)

(** A loop body that keeps an invariant never panics; the invariant may speak of what
    has been visited. *)
Lemma for_each_inv {A S E} (P : list A -> S -> Prop) (body : A -> S -> result S E) l s :
  P [] s ->
  (forall seen a rest s, l = seen ++ a :: rest -> P seen s ->
     exists s', body a s = Ok s' /\ P (seen ++ [a]) s') ->
  exists s', for_each body l s = Ok s' /\ P l s'.
Proof.
  intros HP Hbody.
  enough (forall rest seen s, l = seen ++ rest -> P seen s ->
    exists s', for_each body rest s = Ok s' /\ P l s') as H by (by apply (H l [])).
  induction rest as [|a rest IH]; intros seen t El Ht; simpl.
  { exists t. rewrite app_nil_r in El. by subst. }
  destruct (Hbody seen a rest t El Ht) as (t1 & E1 & P1). rewrite E1. simpl.
  apply (IH (seen ++ [a])); [by rewrite <- app_assoc|done].
Qed.

Lemma for_each_keeps {A S E} (P : S -> Prop) (body : A -> S -> result S E) l : forall s,
  P s -> (forall a s, a ∈ l -> P s -> exists s', body a s = Ok s' /\ P s') ->
  exists s', for_each body l s = Ok s' /\ P s'.
Proof.
  induction l as [|a l IH]; intros s HP Hbody; simpl; [by exists s|].
  destruct (Hbody a s) as (s1 & E1 & P1); [left|done|]. rewrite E1. simpl. apply IH; [done|].
  intros b t Hb. apply Hbody. by right.
Qed.

Lemma insert_by_key_perm {A} (key : A -> Z) a l : insert_by_key key a l ≡ₚ a :: l.
Proof.
  induction l as [|b l IH]; simpl; [done|]. destruct (_ <=? _); [done|]. rewrite IH. apply perm_swap.
Qed.

Lemma sort_by_key_perm {A} (key : A -> Z) l : sort_by_key key l ≡ₚ l.
Proof. induction l as [|a l IH]; simpl; [done|]. by rewrite insert_by_key_perm, IH. Qed.

(* ------------------------------------------------------------------ *)
(** ** The maps *)

Definition in_range (n i : Z) : Prop := 0 <= i < n.

Section maps.
Context {T : Type} (n : Z).
Implicit Types (m : ShardIndexMap T) (lm : ShardLinkMap T).

Definition at_index m (i : Z) : option T := m !! Z.to_nat i ≫= id.

Definition im_ok m : Prop := vec_len m = n.

Lemma im_new_ok : 0 <= n -> im_ok (im_new n) /\ forall i, at_index (im_new n) i = None.
Proof.
  intros Hn. unfold im_ok, im_new, vec_len, at_index. rewrite length_replicate. split; [lia|].
  intros i. destruct (replicate _ _ !! _) eqn:E; [|done].
  apply lookup_replicate in E as [-> _]. done.
Qed.

Lemma im_lookup m i : im_ok m -> in_range n i -> exists o, m !! Z.to_nat i = Some o.
Proof. unfold im_ok, in_range, vec_len. intros H Hi. apply lookup_lt_is_Some. lia. Qed.

Lemma im_get_spec m i : im_ok m -> in_range n i -> im_get m i = Ok (at_index m i).
Proof.
  intros H Hi. destruct (im_lookup m i H Hi) as [o E]. unfold im_get, at_index. rewrite E. done.
Qed.

Lemma im_insert_spec m i v : im_ok m -> in_range n i ->
  exists m', im_insert i v m = Ok m' /\ im_ok m'
    /\ forall j, in_range n j -> at_index m' j = if decide (j = i) then Some v else at_index m j.
Proof.
  intros H Hi. destruct (im_lookup m i H Hi) as [o E]. unfold im_insert. rewrite E. simpl.
  eexists. split; [done|]. split; [unfold im_ok, vec_len; by rewrite length_insert|].
  intros j Hj. unfold at_index, in_range in *. case_decide as Hd.
  - subst j. rewrite list_lookup_insert_eq; [done|]. by apply lookup_lt_Some in E.
  - rewrite list_lookup_insert_ne; [done|lia].
Qed.

Definition at_link lm (s r : Z) : option T := at_index (lm_data lm) (s * n + r).

Definition lm_ok lm : Prop := lm_num_indexes lm = n /\ vec_len (lm_data lm) = n * n.

Lemma lm_new_ok : 0 <= n -> lm_ok (lm_new n) /\ forall s r, at_link (lm_new n) s r = None.
Proof.
  intros Hn. unfold lm_ok, lm_new, at_link, at_index, vec_len. simpl. rewrite length_replicate.
  split; [lia|]. intros s r. destruct (replicate _ _ !! _) eqn:E; [|done].
  apply lookup_replicate in E as [-> _]. done.
Qed.
End maps.

Definition valid_link (n : Z) (l : ShardLink) : Prop := in_range n (sender l) /\ in_range n (receiver l).

Lemma link_index n l : valid_link n l -> in_range (n * n) (sender l * n + receiver l).
Proof. unfold valid_link, in_range. intros [??]. nia. Qed.

Lemma link_index_inj n s r s' r' : in_range n s -> in_range n r -> in_range n s' -> in_range n r' ->
  s * n + r = s' * n + r' -> s = s' /\ r = r'.
Proof.
  unfold in_range. intros Hs Hr Hs' Hr' E.
  assert (s = s') as -> by (destruct (Z.lt_trichotomy s s') as [|[|]]; [nia|done|nia]). lia.
Qed.

Section link_maps.
Context {T : Type} (n : Z).
Implicit Types (lm : ShardLinkMap T).

Lemma lm_get_spec lm l : lm_ok n lm -> valid_link n l -> lm_get lm l = Ok (at_link n lm (sender l) (receiver l)).
Proof.
  intros [Hn Hd] Hl. unfold lm_get, at_link, data_index_for_link. rewrite Hn.
  by rewrite (im_get_spec (n * n)); [|done|apply link_index].
Qed.

Lemma lm_insert_spec lm l v : lm_ok n lm -> valid_link n l ->
  exists lm', lm_insert l v lm = Ok lm' /\ lm_ok n lm'
    /\ forall s r, in_range n s -> in_range n r ->
         at_link n lm' s r = if decide (s = sender l /\ r = receiver l) then Some v else at_link n lm s r.
Proof.
  intros [Hn Hd] Hl. unfold lm_insert, data_index_for_link. rewrite Hn.
  destruct (im_insert_spec (n * n) (lm_data lm) (sender l * n + receiver l) v) as (m' & E & Hm & Hat);
    [done|by apply link_index|].
  rewrite E. simpl. eexists. split; [done|]. split; [done|]. intros s r Hs Hr. unfold at_link. simpl.
  rewrite Hat by (apply (link_index n (mkLink s r)); done).
  destruct Hl as [Hl1 Hl2].
  repeat case_decide; try done; [|naive_solver].
  exfalso. destruct (link_index_inj n s r (sender l) (receiver l)); naive_solver.
Qed.
End link_maps.

(* ------------------------------------------------------------------ *)
(** ** Links and their sums *)

Definition amount (n : Z) (m : ShardLinkMap Z) (s r : Z) : Z := default 0 (at_link n m s r).

(** What a shard sends and what it receives. *)
Definition row (n : Z) (m : ShardLinkMap Z) (s : Z) : Z := zsum (amount n m s) (seqZ 0 n).
Definition col (n : Z) (m : ShardLinkMap Z) (r : Z) : Z := zsum (fun s => amount n m s r) (seqZ 0 n).

Definition amounts_nonneg (n : Z) (m : ShardLinkMap Z) : Prop :=
  forall s r, in_range n s -> in_range n r -> 0 <= amount n m s r.

Section rows.
Variable n : Z.
Implicit Types m : ShardLinkMap Z.

Lemma elem_of_indexes i : i ∈ seqZ 0 n <-> in_range n i.
Proof. rewrite elem_of_seqZ. unfold in_range. lia. Qed.

(** [m'] is [m] with the amount [v] on the link. *)
Definition updated m m' (l : ShardLink) (v : Z) : Prop :=
  forall s r, in_range n s -> in_range n r ->
    at_link n m' s r = if decide (s = sender l /\ r = receiver l) then Some v else at_link n m s r.

Lemma amount_updated m m' l v s r : updated m m' l v -> in_range n s -> in_range n r ->
  amount n m' s r = if decide (s = sender l /\ r = receiver l) then v else amount n m s r.
Proof. intros H Hs Hr. unfold amount. rewrite H by done. by case_decide. Qed.

Lemma row_updated m m' l v s : updated m m' l v -> valid_link n l -> in_range n s ->
  row n m' s = row n m s + (if decide (s = sender l) then v - amount n m (sender l) (receiver l) else 0).
Proof.
  intros H [Hl1 Hl2] Hs. unfold row. case_decide as Hd.
  - subst s. rewrite (zsum_change (amount n m (sender l)) (amount n m' (sender l)) _ (receiver l)).
    + rewrite (amount_updated m m' l v (sender l) (receiver l)) by done. rewrite decide_True by done. lia.
    + apply NoDup_seqZ.
    + by apply elem_of_indexes.
    + intros a Ha%elem_of_indexes Hne. rewrite (amount_updated m m' l v) by done.
      rewrite decide_False; [done|naive_solver].
  - rewrite Z.add_0_r. apply zsum_ext_in. intros a Ha%elem_of_indexes.
    rewrite (amount_updated m m' l v) by done. rewrite decide_False; [done|naive_solver].
Qed.

Lemma col_updated m m' l v r : updated m m' l v -> valid_link n l -> in_range n r ->
  col n m' r = col n m r + (if decide (r = receiver l) then v - amount n m (sender l) (receiver l) else 0).
Proof.
  intros H [Hl1 Hl2] Hr. unfold col. case_decide as Hd.
  - subst r. rewrite (zsum_change (fun s => amount n m s (receiver l)) _ _ (sender l)).
    + simpl. rewrite (amount_updated m m' l v (sender l) (receiver l)) by done.
      rewrite decide_True by done. lia.
    + apply NoDup_seqZ.
    + by apply elem_of_indexes.
    + intros a Ha%elem_of_indexes Hne. simpl. rewrite (amount_updated m m' l v) by done.
      rewrite decide_False; [done|naive_solver].
  - rewrite Z.add_0_r. apply zsum_ext_in. intros a Ha%elem_of_indexes.
    rewrite (amount_updated m m' l v) by done. rewrite decide_False; [done|naive_solver].
Qed.

Lemma amount_le_row m s r : amounts_nonneg n m -> in_range n s -> in_range n r ->
  amount n m s r <= row n m s.
Proof.
  intros Hm Hs Hr. apply (zsum_member (amount n m s)); [|by apply elem_of_indexes].
  intros a Ha%elem_of_indexes. by apply Hm.
Qed.

Lemma nonneg_updated m m' l v : updated m m' l v -> amounts_nonneg n m -> 0 <= v -> amounts_nonneg n m'.
Proof.
  intros H Hm Hv s r Hs Hr. rewrite (amount_updated m m' l v) by done. case_decide; [done|by apply Hm].
Qed.

Lemma empty_sums m : (forall s r, at_link n m s r = None) ->
  (forall s, row n m s = 0) /\ (forall r, col n m r = 0) /\ amounts_nonneg n m.
Proof.
  intros H. assert (forall s r, amount n m s r = 0) as H0 by (intros s r; unfold amount; by rewrite H).
  assert (forall (f : Z -> Z), (forall a, f a = 0) -> zsum f (seqZ 0 n) = 0) as Hz.
  { intros f Hf. generalize (seqZ 0 n). induction l as [|a l IH]; [done|]. rewrite zsum_cons, Hf, IH. done. }
  split; [|split]; [intros s; by apply Hz|intros r; by apply Hz|]. intros s r _ _. by rewrite H0.
Qed.
End rows.

Lemma iter_links_valid layout l : l ∈ iter_links layout <-> valid_link (num_shards layout) l.
Proof.
  unfold iter_links, shard_indexes. rewrite list_elem_of_In, in_flat_map. split.
  - intros (s & Hs & Hl). apply in_map_iff in Hl as (r & <- & Hr).
    apply list_elem_of_In, elem_of_indexes in Hs, Hr. done.
  - intros [Hs Hr]. exists (sender l). split; [by apply list_elem_of_In, elem_of_indexes|].
    apply in_map_iff. exists (receiver l). split; [by destruct l|by apply list_elem_of_In, elem_of_indexes].
Qed.

Lemma links_NoDup ss rs : NoDup ss -> NoDup rs -> NoDup (flat_map (fun s => map (mkLink s) rs) ss).
Proof.
  intros Hss Hrs. induction Hss as [|s ss Hs Hss IH]; simpl; [constructor|].
  apply NoDup_app. split; [|split; [|done]].
  - apply NoDup_fmap_2_strong; [|done]. congruence.
  - intros l Hl Hl'. apply list_elem_of_In, in_map_iff in Hl as (r & <- & _).
    apply list_elem_of_In, in_flat_map in Hl' as (s' & Hs' & Hl'%in_map_iff).
    destruct Hl' as (r' & [= <- _] & _). by apply Hs, list_elem_of_In.
Qed.

Lemma iter_links_NoDup layout : NoDup (iter_links layout).
Proof. apply links_NoDup; apply NoDup_seqZ. Qed.

Lemma iter_links_num layout : 0 <= num_shards layout ->
  vec_len (iter_links layout) = num_shards layout * num_shards layout.
Proof.
  intros Hn. unfold iter_links, vec_len.
  assert (forall rs ss, length (flat_map (fun s => map (mkLink s) rs) ss) = length ss * length rs)%nat as H.
  { intros rs. induction ss as [|s ss IH]; simpl; [done|]. by rewrite length_app, length_map, IH. }
  rewrite H. unfold shard_indexes. rewrite length_seqZ. lia.
Qed.

(** Loops that fill a map. *)
Lemma visited_in {A} (P : A -> Prop) (l seen : list A) a rest :
  (forall x, x ∈ l <-> P x) -> l = seen ++ a :: rest -> P a /\ forall x, x ∈ seen ++ [a] -> P x.
Proof.
  intros Hl El. assert (forall x, x ∈ seen ++ [a] -> P x) as H.
  { intros x Hx. apply Hl. rewrite El. apply elem_of_app in Hx as [Hx|Hx]; apply elem_of_app; [by left|].
    apply list_elem_of_singleton in Hx as ->. right. left. }
  split; [|done]. apply H, elem_of_app. right. left.
Qed.

Lemma fill_spec {T} n (body : Z -> ShardIndexMap T -> result (ShardIndexMap T) unit) (f : Z -> T) m :
  im_ok n m -> (forall i m, in_range n i -> im_ok n m -> body i m = im_insert i (f i) m) ->
  exists m', for_each body (seqZ 0 n) m = Ok m' /\ im_ok n m'
    /\ forall i, in_range n i -> at_index m' i = Some (f i).
Proof.
  intros Hm Hbody.
  destruct (for_each_inv (fun seen m => im_ok n m /\ forall i, i ∈ seen -> at_index m i = Some (f i))
    body (seqZ 0 n) m) as (m' & E & Hm' & Hat).
  - split; [done|]. intros i Hi. by apply elem_of_nil in Hi.
  - intros seen i rest m1 Es [Hm1 Hseen].
    destruct (visited_in (in_range n) _ seen i rest (elem_of_indexes n) Es) as [Hi Hin].
    rewrite Hbody by done. destruct (im_insert_spec n m1 i (f i) Hm1 Hi) as (m2 & E & Hm2 & Hat).
    exists m2. split; [done|]. split; [done|]. intros j Hj. rewrite Hat by (by apply Hin).
    case_decide as Hd; [by subst|]. apply Hseen.
    apply elem_of_app in Hj as [Hj|Hj]; [done|]. by apply list_elem_of_singleton in Hj.
  - exists m'. split; [done|]. split; [done|]. intros i Hi. by apply Hat, elem_of_indexes.
Qed.

Lemma fill_links_spec {T} layout (body : ShardLink -> ShardLinkMap T -> result (ShardLinkMap T) unit)
    (f : ShardLink -> T) m :
  let n := num_shards layout in
  lm_ok n m -> (forall l m, valid_link n l -> lm_ok n m -> body l m = lm_insert l (f l) m) ->
  exists m', for_each body (iter_links layout) m = Ok m' /\ lm_ok n m'
    /\ forall s r, in_range n s -> in_range n r -> at_link n m' s r = Some (f (mkLink s r)).
Proof.
  intros n Hm Hbody.
  destruct (for_each_inv (fun seen m => lm_ok n m /\ forall s r, mkLink s r ∈ seen ->
      at_link n m s r = Some (f (mkLink s r))) body (iter_links layout) m) as (m' & E & Hm' & Hat).
  - split; [done|]. intros s r Hi. by apply elem_of_nil in Hi.
  - intros seen l rest m1 Es [Hm1 Hseen].
    destruct (visited_in (valid_link n) _ seen l rest (iter_links_valid layout) Es) as [Hl Hin].
    rewrite Hbody by done. destruct (lm_insert_spec n m1 l (f l) Hm1 Hl) as (m2 & E & Hm2 & Hat).
    exists m2. split; [done|]. split; [done|]. intros s r Hj. destruct (Hin _ Hj) as [Hs Hr]. simpl in *.
    rewrite Hat by done. case_decide as Hd; [destruct Hd as [-> ->]; by destruct l|]. apply Hseen.
    apply elem_of_app in Hj as [Hj|Hj]; [done|]. apply list_elem_of_singleton in Hj. subst l. naive_solver.
  - exists m'. split; [done|]. split; [done|]. intros s r Hs Hr. by apply Hat, iter_links_valid.
Qed.

(* ------------------------------------------------------------------ *)
(** ** The remaining bandwidth *)

Section distribution.
Variables (layout : ShardLayout) (allowed : ShardLinkMap bool).
Local Abbreviation n := (num_shards layout).
Hypothesis Hn : 0 <= n <= 65536.
Hypothesis Hallowed : lm_ok n allowed.

Definition permits (s r : Z) : bool := default false (at_link n allowed s r).

Lemma link_allowed_spec l : valid_link n l -> link_allowed allowed l = Ok (permits (sender l) (receiver l)).
Proof using Hallowed. intros Hl. unfold link_allowed. by rewrite (lm_get_spec n). Qed.

Definition endpoints (f : Z -> EndpointInfo -> Prop) (m : ShardIndexMap EndpointInfo) : Prop :=
  im_ok n m /\ forall i, in_range n i -> exists e, at_index m i = Some e /\ f i e.

Lemma im_update_spec (f f' : Z -> EndpointInfo -> Prop) g m i :
  endpoints f m -> in_range n i ->
  (forall j e, in_range n j -> f j e -> j <> i -> f' j e) ->
  (forall e, f i e -> exists e', g e = Ok e' /\ f' i e') ->
  exists m', im_update i g m = Ok m' /\ endpoints f' m'.
Proof.
  intros [Hm Hf] Hi Hother Hg. destruct (Hf i Hi) as (e & Ee & He). destruct (Hg e He) as (e' & Eg & He').
  unfold im_update. rewrite (im_get_spec n) by done. simpl. rewrite Ee. simpl. rewrite Eg. simpl.
  destruct (im_insert_spec n m i e' Hm Hi) as (m' & E & Hm' & Hat). rewrite E.
  exists m'. split; [done|]. split; [done|]. intros j Hj. rewrite Hat by done. case_decide as Hd.
  - subst j. by exists e'.
  - destruct (Hf j Hj) as (ej & Ej & Hej). exists ej. auto.
Qed.

(** After the first loops: the whole budget is left. *)
Definition fresh (budget : Z -> Z) (bound : Z) (i : Z) (e : EndpointInfo) : Prop :=
  bandwidth_left e = budget i /\ 0 <= links_num e <= bound.

Lemma endpoint_infos_spec (b : ShardIndexMap Z) : im_ok n b ->
  exists m, endpoint_infos layout b = Ok m /\ endpoints (fresh (fun i => default 0 (at_index b i)) 0) m.
Proof using Hn.
  intros Hb. unfold endpoint_infos, shard_indexes.
  destruct (fill_spec n (fun i infos => let? o := im_get b i in im_insert i (mkEndpointInfo (default 0 o) 0) infos)
    (fun i => mkEndpointInfo (default 0 (at_index b i)) 0) (im_new n)) as (m & E & Hm & Hat).
  - apply im_new_ok. lia.
  - intros i m Hi Hm. by rewrite (im_get_spec n).
  - exists m. split; [done|]. split; [done|]. intros i Hi. eexists. split; [by apply Hat|].
    split; [done|]. simpl. lia.
Qed.

Lemma count_links_spec f g (sm rm : ShardIndexMap EndpointInfo) :
  endpoints (fresh f 0) sm -> endpoints (fresh g 0) rm ->
  exists sm' rm', count_links layout allowed (sm, rm) = Ok (sm', rm')
    /\ endpoints (fresh f (n * n)) sm' /\ endpoints (fresh g (n * n)) rm'.
Proof using Hn Hallowed.
  intros Hs Hr.
  assert (Hgrow : forall h b c m, b <= c -> endpoints (fresh h b) m -> endpoints (fresh h c) m).
  { intros h b c m Hbc [Hm He]. split; [done|]. intros i Hi. destruct (He i Hi) as (e & Ee & He1 & He2).
    exists e. split; [done|]. split; [done|lia]. }
  destruct (for_each_inv (fun seen '(sm, rm) => endpoints (fresh f (vec_len seen)) sm
      /\ endpoints (fresh g (vec_len seen)) rm)
    (fun link '(sender_infos, receiver_infos) =>
      let? allowed := link_allowed allowed link in
      if allowed then
        let? sender_infos := im_update (sender link) add_link sender_infos in
        let? receiver_infos := im_update (receiver link) add_link receiver_infos in
        Ok (sender_infos, receiver_infos)
      else Ok (sender_infos, receiver_infos)) (iter_links layout) (sm, rm)) as ([sm' rm'] & E & H1 & H2).
  - done.
  - intros seen l rest [sm1 rm1] El [H1 H2].
    assert (Hl : valid_link n l). { apply iter_links_valid. rewrite El. apply elem_of_app. right. left. }
    rewrite link_allowed_spec by done. simpl.
    assert (vec_len (seen ++ [l]) = vec_len seen + 1 /\ vec_len seen + 1 <= u64_max) as [El1 El2].
    { pose proof (iter_links_num layout (proj1 Hn)) as Hlen. rewrite El in Hlen. unfold vec_len, u64_max in *.
      assert (n * n <= 65536 * 65536) by nia. rewrite length_app in *. simpl in *. lia. }
    rewrite El1. destruct (permits _ _); [|eexists (_, _); split; [done|]; split; (eapply Hgrow; [|done]); lia].
    assert (Hadd : forall h m i, in_range n i -> endpoints (fresh h (vec_len seen)) m ->
      exists m', im_update i add_link m = Ok m' /\ endpoints (fresh h (vec_len seen + 1)) m').
    { intros h m i Hi Hm. eapply im_update_spec; [exact Hm|done| |].
      - intros j e _ [??] _. split; [done|lia].
      - intros e [He1 He2]. unfold add_link, add_or_panic, checked_add.
        rewrite (proj2 (Z.leb_le _ _)) by lia. simpl. eexists. split; [done|]. split; [done|]. simpl. lia. }
    destruct (Hadd f sm1 (sender l)) as (sm2 & E1 & Hs2); [apply Hl|done|]. rewrite E1. simpl.
    destruct (Hadd g rm1 (receiver l)) as (rm2 & E2 & Hr2); [apply Hl|done|]. rewrite E2. simpl.
    by exists (sm2, rm2).
  - exists sm', rm'. unfold count_links. rewrite E. rewrite iter_links_num in H1, H2 by lia. done.
Qed.

(** What has been granted and what is left is within the budget. *)
Record dist_ok (f g : Z -> Z) (d : Distribution) : Prop := mk_dist_ok {
  do_senders : endpoints (fun i e => 0 <= bandwidth_left e /\ 0 <= links_num e
                            /\ row n (di_grants d) i + bandwidth_left e <= f i) (di_senders d);
  do_receivers : endpoints (fun i e => 0 <= bandwidth_left e /\ 0 <= links_num e
                              /\ col n (di_grants d) i + bandwidth_left e <= g i) (di_receivers d);
  do_grants : lm_ok n (di_grants d);
  do_nonneg : amounts_nonneg n (di_grants d);
  do_allowed : forall s r, in_range n s -> in_range n r -> at_link n (di_grants d) s r <> None ->
    permits s r = true;
}.

Lemma grant_from_spec f g from : in_range n from -> forall receivers d,
  Forall (in_range n) receivers -> dist_ok f g d ->
  exists d', grant_from allowed from receivers d = Ok d' /\ dist_ok f g d'.
Proof using Hn Hallowed.
  intros Hfrom. induction receivers as [|to receivers IH]; intros d Hrs Hd; simpl; [by exists d|].
  apply Forall_cons in Hrs as [Hto Hrs].
  assert (Hl : valid_link n (mkLink from to)) by done.
  rewrite link_allowed_spec by done. simpl. destruct (permits from to) eqn:Ep; [|by apply IH]. simpl.
  pose proof Hd as [[Hs1 Hs2] [Hr1 Hr2] Hg Hnn Hal].
  destruct (Hs2 from Hfrom) as (se & Ese & Hse1 & Hse2 & Hse3).
  destruct (Hr2 to Hto) as (re & Ere & Hre1 & Hre2 & Hre3).
  rewrite (im_get_spec n), Ese by done. simpl. rewrite (im_get_spec n), Ere by done. simpl.
  unfold link_proposition, use_link, sub_or_panic, checked_sub.
  destruct (Z.eqb_spec (links_num se) 0) as [|Hln1]; [eexists; by split|].
  destruct (Z.eqb_spec (links_num re) 0) as [|Hln2]; [eexists; by split|]. simpl.
  set (v := Z.min _ _).
  assert (0 <= v <= bandwidth_left se /\ v <= bandwidth_left re) as [Hv1 Hv2].
  { assert (0 <= bandwidth_left se / links_num se <= bandwidth_left se)
      by (split; [apply Z.div_pos; lia|apply Z.div_le_upper_bound; nia]).
    assert (0 <= bandwidth_left re / links_num re <= bandwidth_left re)
      by (split; [apply Z.div_pos; lia|apply Z.div_le_upper_bound; nia]). lia. }
  destruct (lm_insert_spec n (di_grants d) (mkLink from to) v Hg Hl) as (grants & Eg & Hg' & Hat).
  rewrite Eg. simpl. rewrite (proj2 (Z.leb_le v (bandwidth_left se))) by lia.
  rewrite (proj2 (Z.leb_le 1 (links_num se))) by lia. simpl.
  destruct (im_insert_spec n (di_senders d) from (mkEndpointInfo (bandwidth_left se - v) (links_num se - 1)) Hs1 Hfrom)
    as (ss & Ess & Hss & Hsat). rewrite Ess. simpl.
  rewrite (proj2 (Z.leb_le v (bandwidth_left re))) by lia.
  rewrite (proj2 (Z.leb_le 1 (links_num re))) by lia. simpl.
  destruct (im_insert_spec n (di_receivers d) to (mkEndpointInfo (bandwidth_left re - v) (links_num re - 1)) Hr1 Hto)
    as (rs & Ers & Hrss & Hrat). rewrite Ers. simpl.
  apply IH; [done|]. fold (updated n (di_grants d) grants (mkLink from to) v) in Hat.
  pose proof (Hnn from to Hfrom Hto) as Hold.
  split; simpl; [| |done| |].
  - split; [done|]. intros i Hi. rewrite Hsat, (row_updated n _ _ _ _ _ Hat Hl Hi) by done. simpl.
    case_decide as Hi'; [subst i; eexists; split; [done|]; simpl; lia|].
    destruct (Hs2 i Hi) as (e & Ee & ? & ? & ?). exists e. split; [done|]. lia.
  - split; [done|]. intros i Hi. rewrite Hrat, (col_updated n _ _ _ _ _ Hat Hl Hi) by done. simpl.
    case_decide as Hi'; [subst i; eexists; split; [done|]; simpl; lia|].
    destruct (Hr2 i Hi) as (e & Ee & ? & ? & ?). exists e. split; [done|]. lia.
  - eapply nonneg_updated; [exact Hat|done|lia].
  - intros s r Hs Hr. rewrite Hat by done. simpl. case_decide as Hi'; [by destruct Hi' as [-> ->]|by apply Hal].
Qed.

Lemma distribute_spec (sb rb : ShardIndexMap Z) :
  im_ok n sb -> im_ok n rb ->
  (forall i, in_range n i -> 0 <= default 0 (at_index sb i)) ->
  (forall i, in_range n i -> 0 <= default 0 (at_index rb i)) ->
  exists m, distribute_remaining_bandwidth sb rb allowed layout = Ok m /\ lm_ok n m /\ amounts_nonneg n m
    /\ (forall i, in_range n i -> row n m i <= default 0 (at_index sb i))
    /\ (forall i, in_range n i -> col n m i <= default 0 (at_index rb i))
    /\ (forall s r, in_range n s -> in_range n r -> at_link n m s r <> None -> permits s r = true).
Proof using Hn Hallowed.
  intros Hsb Hrb Hs0 Hr0. unfold distribute_remaining_bandwidth.
  destruct (endpoint_infos_spec sb Hsb) as (si & E1 & H1). rewrite E1. simpl.
  destruct (endpoint_infos_spec rb Hrb) as (ri & E2 & H2). rewrite E2. simpl.
  destruct (count_links_spec _ _ _ _ H1 H2) as (si' & ri' & E3 & [H3 H3'] & [H4 H4']). rewrite E3. simpl.
  set (senders := sort_by_key (average_of si') _). set (receivers := sort_by_key (average_of ri') _).
  assert (Forall (in_range n) senders /\ Forall (in_range n) receivers) as [Hss Hrs].
  { split; unfold senders, receivers; rewrite sort_by_key_perm; apply Forall_forall; intros i;
      unfold shard_indexes; by rewrite elem_of_indexes. }
  destruct (lm_new_ok (T:=Z) n) as [Hnew Hnone]; [lia|].
  destruct (empty_sums n _ Hnone) as (Hrow & Hcol & Hnn).
  set (f := fun i => default 0 (at_index sb i)). set (g := fun i => default 0 (at_index rb i)).
  destruct (for_each_keeps (dist_ok f g) (fun from d => grant_from allowed from receivers d) senders
    (mkDistribution si' ri' (lm_new n))) as (d & Ed & Hd).
  - split; [| |done|done|]; simpl.
    + split; [done|]. intros i Hi. destruct (H3' i Hi) as (e & Ee & He1 & He2). exists e. rewrite Hrow, He1.
      split; [done|]. specialize (Hs0 i Hi). unfold f. lia.
    + split; [done|]. intros i Hi. destruct (H4' i Hi) as (e & Ee & He1 & He2). exists e. rewrite Hcol, He1.
      split; [done|]. specialize (Hr0 i Hi). unfold g. lia.
    + intros s r _ _. by rewrite Hnone.
  - intros from d Hfrom Hd. apply grant_from_spec; [|done|done].
    rewrite Forall_forall in Hss. by apply Hss.
  - rewrite Ed. simpl. destruct Hd as [[_ Hd1] [_ Hd2] Hd3 Hd4 Hd5]. eexists. split; [done|].
    split; [done|]. split; [done|]. split; [|split]; [| |done].
    + intros i Hi. destruct (Hd1 i Hi) as (e & _ & ? & ? & ?). unfold f in *. lia.
    + intros i Hi. destruct (Hd2 i Hi) as (e & _ & ? & ? & ?). unfold g in *. lia.
Qed.
End distribution.
