(* ===== verification/Scheduler.v ===== *)
(** * A run of the bandwidth scheduler

    The invariant of the scheduler: on each side, what a shard has been granted and what
    is left of its budget make the bandwidth of a shard.  The stages of the algorithm keep
    it and never panic; from it follow the limits on the grants of a run. *)

From S2P Require Import Prelude Crates AccountId Primitives Fees ShardLayout ShardSplit Bandwidth BandwidthProofs.

(** Layouts whose indices and identifiers agree. *)
Record indexed (l : ShardLayout) : Prop := mk_indexed {
  ix_num : 0 < num_shards l <= 65536;
  ix_index : forall id i, get_shard_index l id = Ok i <->
    in_range (num_shards l) i /\ shard_ids l !! Z.to_nat i = Some id;
  ix_len : vec_len (shard_ids l) = num_shards l;
  ix_id : forall i, in_range (num_shards l) i -> exists id,
    get_shard_id l i = Ok id /\ shard_ids l !! Z.to_nat i = Some id;
  ix_NoDup : NoDup (shard_ids l);
}.

Lemma index_ids_spec ids : forall i m id k, NoDup ids ->
  index_ids i ids m !! id = Some k <->
    (i <= k /\ ids !! Z.to_nat (k - i) = Some id) \/ (id ∉ ids /\ m !! id = Some k).
Proof.
  induction ids as [|x ids IH]; intros i m id k Hnd; simpl.
  { rewrite lookup_nil. set_solver. }
  apply NoDup_cons in Hnd as [Hx Hnd]. rewrite IH by done.
  destruct (decide (id = x)) as [->|Hne].
  - rewrite lookup_insert_eq. split.
    + intros [[Hk E]|[_ [= <-]]]; [|left; split; [lia|by rewrite Z.sub_diag]].
      destruct Hx. by eapply list_elem_of_lookup_2.
    + intros [[Hk E]|[Hin _]]; [|destruct Hin; left]. right. split; [done|].
      destruct (decide (k = i)) as [->|Hki]; [done|].
      replace (Z.to_nat (k - i)) with (S (Z.to_nat (k - (i + 1)))) in E by lia. simpl in E.
      destruct Hx. by eapply list_elem_of_lookup_2.
  - rewrite lookup_insert_ne by done. rewrite not_elem_of_cons. split.
    + intros [[Hk E]|[Hin E]]; [|by right]. left. split; [lia|].
      by replace (Z.to_nat (k - i)) with (S (Z.to_nat (k - (i + 1)))) by lia.
    + intros [[Hk E]|[[_ Hin] E]]; [|by right]. left.
      destruct (decide (k = i)) as [->|Hki]; [rewrite Z.sub_diag in E; simplify_eq/=; done|].
      replace (Z.to_nat (k - i)) with (S (Z.to_nat (k - (i + 1)))) in E by lia. split; [lia|done].
Qed.

(** The constructors of the layouts by ranges make such layouts. *)
Lemma built_indexed l ids :
  (exists l2, l = LayoutV2 l2 /\ l2_shard_ids l2 = ids /\ l2_id_to_index_map l2 = index_ids 0 ids ∅)
  \/ (exists l3, l = LayoutV3 l3 /\ l3_shard_ids l3 = ids /\ l3_id_to_index_map l3 = index_ids 0 ids ∅) ->
  NoDup ids -> 0 < vec_len ids <= 65536 -> indexed l.
Proof.
  intros Hl Hnd Hlen.
  assert (forall id k, index_ids 0 ids ∅ !! id = Some k <-> 0 <= k < vec_len ids /\ ids !! Z.to_nat k = Some id) as Hix.
  { intros id k. rewrite index_ids_spec by done. rewrite lookup_empty, Z.sub_0_r. split.
    - intros [[Hk E]|[_ ?]]; [|done]. split; [|done]. apply lookup_lt_Some in E. unfold vec_len. lia.
    - intros [Hk E]. left. split; [lia|done]. }
  assert (forall i, 0 <= i < vec_len ids -> exists id, ids !! Z.to_nat i = Some id) as Hget.
  { intros i Hi. apply lookup_lt_is_Some. unfold vec_len in Hi. lia. }
  destruct Hl as [([] & -> & E1 & E2)|([] & -> & E1 & E2)]; simpl in *; subst; split; simpl; try done;
    try (intros id k; unfold in_range; rewrite <- Hix; apply ok_or_Ok);
    intros i Hi; destruct (Hget i Hi) as [id E]; exists id; by rewrite E.
Qed.

(** What [calculate] guarantees of the parameters of [n] shards when the configured
    amounts are sensible. *)
Record params_ok (n : Z) (p : BandwidthSchedulerParams) : Prop := mk_params_ok {
  po_base : 0 <= base_bandwidth p <= max_single_grant p;
  po_shard : (n - 1) * base_bandwidth p + max_single_grant p <= max_shard_bandwidth p <= u64_max;
  po_values : max_single_grant p * 40 <= u64_max;
  po_allowance : 0 <= max_allowance p <= u64_max;
}.

Lemma calculate_ok max_shard max_grant max_allow max_base max_receipt n p :
  0 < n -> 0 <= max_base <= max_grant -> max_shard <= u64_max -> max_grant * 40 <= u64_max ->
  0 <= max_allow <= u64_max ->
  calculate max_shard max_grant max_allow max_base max_receipt n = Ok p -> params_ok n p.
Proof.
  unfold calculate, sub_or_panic, checked_sub. intros Hn Hb Hs Hg Ha H.
  destruct (_ <=? max_grant); [|done]. destruct (Z.leb_spec max_grant max_shard); [|done].
  destruct (Z.leb_spec 1 n); [|lia]. simpl in H. injection H as <-.
  set (a := max_shard - max_grant). set (d := Z.max 1 (n - 1)).
  assert (0 <= a / d /\ d * (a / d) <= a) as [Hq1 Hq2].
  { split; [apply Z.div_pos; lia|apply Z.mul_div_le; lia]. }
  split; simpl; [| |done|done].
  - destruct (Z.ltb_spec max_base (a / d)); lia.
  - split; [|done]. fold a d. destruct (Z.ltb_spec max_base (a / d)).
    + assert ((n - 1) * max_base <= d * (a / d)) by (unfold d in *; nia). lia.
    + assert ((n - 1) * (a / d) <= d * (a / d)) by (unfold d in *; nia). lia.
Qed.

Section scheduler.
Context {Rng : Type} (shuffle : list SchedulerBandwidthRequest -> Rng -> list SchedulerBandwidthRequest * Rng).
Variables (layout : ShardLayout) (params : BandwidthSchedulerParams).
Local Abbreviation n := (num_shards layout).
Local Abbreviation Sched := (BandwidthScheduler (Rng:=Rng)).
Hypothesis Hlayout : indexed layout.
Hypothesis Hparams : params_ok n params.

Local Abbreviation limit := (max_shard_bandwidth params).

Lemma limit_bounds : 0 <= limit <= u64_max.
Proof using Hlayout Hparams. destruct Hlayout as [? _ _ _ _], Hparams as [? ? _ _]. nia. Qed.

(** The budgets of one side, where [sent] is what has been granted on it. *)
Definition budgets_ok (sent : Z -> Z) (b : ShardIndexMap Z) : Prop :=
  im_ok n b /\ forall i, in_range n i -> exists v, at_index b i = Some v /\ 0 <= v /\ sent i + v = limit.

Record sched_ok (s : Sched) : Prop := mk_sched_ok {
  sk_links : lm_ok n (is_link_allowed_map s);
  sk_senders : budgets_ok (row n (granted_bandwidth s)) (sender_budget s);
  sk_receivers : budgets_ok (col n (granted_bandwidth s)) (receiver_budget s);
  sk_allowances : lm_ok n (link_allowances s);
  sk_range : forall from to, in_range n from -> in_range n to ->
    is_u (max_allowance params) (amount n (link_allowances s) from to);
  sk_granted : lm_ok n (granted_bandwidth s);
  sk_nonneg : amounts_nonneg n (granted_bandwidth s);
  sk_forbidden : forall from to, in_range n from -> in_range n to ->
    at_link n (granted_bandwidth s) from to <> None -> permits layout (is_link_allowed_map s) from to = true;
}.

(** The grants only grow, and the set of allowed links stays. *)
Record grows (s s' : Sched) : Prop := mk_grows {
  gr_links : is_link_allowed_map s' = is_link_allowed_map s;
  gr_more : forall from to, in_range n from -> in_range n to ->
    amount n (granted_bandwidth s) from to <= amount n (granted_bandwidth s') from to;
}.

Lemma grows_refl s : grows s s.
Proof. split; [done|]. lia. Qed.

Lemma grows_trans s1 s2 s3 : grows s1 s2 -> grows s2 s3 -> grows s1 s3.
Proof.
  intros [E1 H1] [E2 H2]. split; [by rewrite E2|]. intros from to Hf Ht.
  specialize (H1 from to Hf Ht). specialize (H2 from to Hf Ht). lia.
Qed.

(** What [try_grant_bandwidth] did. *)
Definition granted_on (l : ShardLink) (bw : Z) (s s' : Sched) : Prop :=
  permits layout (is_link_allowed_map s) (sender l) (receiver l) = true
  /\ updated n (granted_bandwidth s) (granted_bandwidth s') l
       (amount n (granted_bandwidth s) (sender l) (receiver l) + bw).

Definition refused_on (l : ShardLink) (bw : Z) (s s' : Sched) : Prop :=
  s' = s /\ (permits layout (is_link_allowed_map s) (sender l) (receiver l) = false
             \/ limit < row n (granted_bandwidth s) (sender l) + bw
             \/ limit < col n (granted_bandwidth s) (receiver l) + bw).

Lemma get_allowance_spec (s : Sched) l : lm_ok n (link_allowances s) -> valid_link n l ->
  get_allowance s l = Ok (amount n (link_allowances s) (sender l) (receiver l)).
Proof. intros Ha Hl. unfold get_allowance. by rewrite (lm_get_spec n). Qed.

Lemma decrease_allowance_spec (s : Sched) l d : lm_ok n (link_allowances s) -> valid_link n l ->
  exists a, decrease_allowance l d s = Ok (with_allowances s a) /\ lm_ok n a
    /\ updated n (link_allowances s) a l
         (saturating_sub (amount n (link_allowances s) (sender l) (receiver l)) d).
Proof.
  intros Ha Hl. unfold decrease_allowance. rewrite get_allowance_spec by done. simpl.
  destruct (lm_insert_spec n (link_allowances s) l (saturating_sub (amount n (link_allowances s) (sender l) (receiver l)) d) Ha Hl)
    as (a & E & Ha' & Hat). rewrite E. by exists a.
Qed.

(** The same map for every scheduler with the same grants. *)
Lemma grant_more_spec m l bw : lm_ok n m -> valid_link n l -> 0 <= bw ->
  amount n m (sender l) (receiver l) + bw <= u64_max ->
  exists g, (forall s : Sched, granted_bandwidth s = m -> grant_more_bandwidth l bw s = Ok (with_granted s g))
    /\ lm_ok n g /\ updated n m g l (amount n m (sender l) (receiver l) + bw).
Proof.
  intros Hg Hl Hb Hfit.
  destruct (lm_insert_spec n m l (amount n m (sender l) (receiver l) + bw) Hg Hl) as (g & E & Hg' & Hat).
  exists g. split; [|done]. intros s Hm. unfold grant_more_bandwidth. rewrite Hm, (lm_get_spec n) by done. simpl.
  fold (amount n m (sender l) (receiver l)). unfold checked_add. rewrite (proj2 (Z.leb_le _ _)) by done. simpl.
  by rewrite E.
Qed.

(** One side's budget after a grant. *)
Lemma budgets_used sent sent' b i v bw : budgets_ok sent b -> in_range n i -> at_index b i = Some v -> bw <= v ->
  (forall j, in_range n j -> sent' j = sent j + if decide (j = i) then bw else 0) ->
  exists b', im_insert i (v - bw) b = Ok b' /\ budgets_ok sent' b'.
Proof.
  intros [Hb Hv] Hi Ev Hle Hs. destruct (im_insert_spec n b i (v - bw) Hb Hi) as (b' & E & Hb' & Hat).
  exists b'. split; [done|]. split; [done|]. intros j Hj. rewrite Hat, Hs by done.
  destruct (Hv j Hj) as (u & Eu & Hu & Hsum). case_decide as Hd; [|exists u; split; [done|lia]].
  subst j. rewrite Ev in Eu. injection Eu as ->. eexists. split; [done|]. lia.
Qed.

Lemma try_grant_spec s l bw : sched_ok s -> valid_link n l -> 0 <= bw ->
  exists o s', try_grant_bandwidth l bw s = Ok (o, s') /\ sched_ok s' /\ grows s s' /\ rng s' = rng s
    /\ match o with Granted => granted_on l bw s s' | NotGranted => refused_on l bw s s' end.
Proof using Hlayout Hparams.
  intros Hs Hl Hbw. pose proof Hs as [H1 H2 H3 H4 H5 H6 H7 H8].
  unfold try_grant_bandwidth, is_link_allowed. rewrite (link_allowed_spec layout) by done. simpl.
  destruct (permits layout _ _ _) eqn:Ep; simpl.
  2: { exists NotGranted, s. refine (conj _ (conj Hs (conj (grows_refl s) (conj eq_refl (conj eq_refl _))))); [done|by left]. }
  pose proof Hl as [Hl1 Hl2].
  destruct (proj2 H2 _ Hl1) as (sb & Esb & Hsb & Hsum1). destruct (proj2 H3 _ Hl2) as (rb & Erb & Hrb & Hsum2).
  rewrite (im_get_spec n), Esb by (done || apply H2). simpl.
  rewrite (im_get_spec n), Erb by (done || apply H3). simpl.
  destruct (Z.ltb_spec sb bw); simpl.
  { exists NotGranted, s. refine (conj _ (conj Hs (conj (grows_refl s) (conj eq_refl (conj eq_refl _))))); [done|lia]. }
  destruct (Z.ltb_spec rb bw); simpl.
  { exists NotGranted, s. refine (conj _ (conj Hs (conj (grows_refl s) (conj eq_refl (conj eq_refl _))))); [done|lia]. }
  unfold sub_or_panic, checked_sub. rewrite !(proj2 (Z.leb_le bw _)) by lia. simpl.
  set (c := amount n (granted_bandwidth s) (sender l) (receiver l)).
  assert (c + bw <= u64_max) as Hfit.
  { pose proof (amount_le_row n _ _ _ H7 Hl1 Hl2). pose proof limit_bounds. unfold c. lia. }
  destruct (grant_more_spec _ l bw H6 Hl Hbw Hfit) as (g & Emore & Hg & Hgu). fold c in Hgu.
  destruct (budgets_used (row n (granted_bandwidth s)) (row n g) (sender_budget s) (sender l) sb bw)
    as (sb' & E1 & B1); try done.
  { intros j Hj. rewrite (row_updated n _ _ _ _ _ Hgu Hl Hj). fold c. case_decide; lia. }
  destruct (budgets_used (col n (granted_bandwidth s)) (col n g) (receiver_budget s) (receiver l) rb bw)
    as (rb' & E2 & B2); try done.
  { intros j Hj. rewrite (col_updated n _ _ _ _ _ Hgu Hl Hj). fold c. case_decide; lia. }
  rewrite E1. simpl. rewrite E2. simpl.
  destruct (decrease_allowance_spec (with_receiver_budget (with_sender_budget s sb') rb') l bw H4 Hl)
    as (a & E3 & Ha & Hau). rewrite E3. simpl in Hau |- *.
  rewrite Emore by done. simpl. do 2 eexists. split; [done|].
  assert (forall from to, in_range n from -> in_range n to -> from = sender l /\ to = receiver l ->
    amount n (granted_bandwidth s) from to = c) as Hc by (intros from to _ _ [-> ->]; done).
  split; [|split; [|split; [done|by split]]].
  - split; simpl; try done.
    + intros from to Hf Ht. rewrite (amount_updated n _ _ _ _ _ _ Hau Hf Ht).
      case_decide as Hd; [|by apply H5]. pose proof (H5 _ _ Hl1 Hl2) as Hr.
      unfold is_u, saturating_sub in *. lia.
    + eapply nonneg_updated; [exact Hgu|done|]. specialize (H7 _ _ Hl1 Hl2). fold c in H7. lia.
    + intros from to Hf Ht. rewrite Hgu by done. case_decide as Hd; [|by apply H8].
      destruct Hd as [-> ->]. done.
  - split; [done|]. simpl. intros from to Hf Ht. rewrite (amount_updated n _ _ _ _ _ _ Hgu Hf Ht).
    case_decide as Hd; [rewrite (Hc from to) by done; lia|lia].
Qed.
(* ------------------------------------------------------------------ *)
(** *** Budgets and allowances *)

(** The scheduler as [run] makes it. *)
Record start_ok (s : Sched) : Prop := mk_start_ok {
  st_links : lm_ok n (is_link_allowed_map s);
  st_senders : im_ok n (sender_budget s);
  st_receivers : im_ok n (receiver_budget s);
  st_allowances : lm_ok n (link_allowances s) /\ amounts_nonneg n (link_allowances s);
  st_granted : lm_ok n (granted_bandwidth s);
  st_none : forall from to, at_link n (granted_bandwidth s) from to = None;
}.

Lemma increase_allowance_spec (s : Sched) l d :
  lm_ok n (link_allowances s) -> valid_link n l -> 0 <= d -> amounts_nonneg n (link_allowances s) ->
  exists a v, increase_allowance params l d s = Ok (with_allowances s a) /\ lm_ok n a
    /\ updated n (link_allowances s) a l v /\ is_u (max_allowance params) v.
Proof using Hparams.
  intros Ha Hl Hd Hnn. unfold increase_allowance. rewrite get_allowance_spec by done. simpl.
  set (v := if _ <? _ then _ else _).
  destruct (lm_insert_spec n (link_allowances s) l v Ha Hl) as (a & E & Ha' & Hat). rewrite E.
  exists a, v. split_and!; try done. destruct Hl as [Hl1 Hl2]. specialize (Hnn _ _ Hl1 Hl2).
  destruct Hparams as [_ _ _ Hal]. unfold is_u, v, saturating_add.
  destruct (Z.ltb_spec (max_allowance params)
    (u64_max `min` (amount n (link_allowances s) (sender l) (receiver l) + d))); unfold u64_max in *; lia.
Qed.

Lemma increase_all_spec (s : Sched) d :
  lm_ok n (link_allowances s) -> 0 <= d -> amounts_nonneg n (link_allowances s) ->
  exists a, for_each (fun link => increase_allowance params link d) (iter_links layout) s = Ok (with_allowances s a)
    /\ lm_ok n a /\ forall from to, in_range n from -> in_range n to -> is_u (max_allowance params) (amount n a from to).
Proof using Hparams.
  intros Ha Hd Hnn.
  destruct (for_each_inv (fun seen t => exists a, t = with_allowances s a /\ lm_ok n a /\ amounts_nonneg n a
      /\ forall from to, mkLink from to ∈ seen -> is_u (max_allowance params) (amount n a from to))
    (fun link => increase_allowance params link d) (iter_links layout) s) as (t & E & a & -> & Ha' & _ & Hr).
  - exists (link_allowances s). split; [by destruct s|]. split_and!; try done.
    intros from to Hi. by apply elem_of_nil in Hi.
  - intros seen l rest t Es (a & -> & Ha1 & Hn1 & Hr).
    destruct (visited_in (valid_link n) _ seen l rest (iter_links_valid layout) Es) as [Hl Hin].
    destruct (increase_allowance_spec (with_allowances s a) l d Ha1 Hl Hd Hn1) as (a2 & v & E & Ha2 & Hu & Hv).
    eexists. split; [exact E|]. exists a2. split; [done|]. split; [done|]. simpl in Hu.
    split; [eapply nonneg_updated; [exact Hu|done|apply Hv]|].
    intros from to Hj. destruct (Hin _ Hj) as [Hf Ht]. simpl in Hf, Ht. rewrite (amount_updated n _ _ _ _ _ _ Hu Hf Ht).
    case_decide as Hc; [done|]. apply Hr. apply elem_of_app in Hj as [Hj|Hj]; [done|].
    apply list_elem_of_singleton in Hj. subst l. naive_solver.
  - exists a. split; [done|]. split; [done|]. intros from to Hf Ht. by apply Hr, iter_links_valid.
Qed.

Lemma prepared (s : Sched) : start_ok s ->
  exists s1 s2, init_budgets layout params s = Ok s1 /\ increase_allowances layout params s1 = Ok s2
    /\ sched_ok s2 /\ is_link_allowed_map s2 = is_link_allowed_map s
    /\ granted_bandwidth s2 = granted_bandwidth s.
Proof using Hlayout Hparams.
  intros [H1 H2 H3 [H4 H5] H6 H7]. unfold init_budgets, shard_indexes.
  destruct (fill_spec n (fun i => im_insert i limit) (fun _ => limit) (sender_budget s)) as (sb & E1 & Hsb & Hsat); [done..|].
  destruct (fill_spec n (fun i => im_insert i limit) (fun _ => limit) (receiver_budget s)) as (rb & E2 & Hrb & Hrat); [done..|].
  rewrite E1. simpl. rewrite E2. simpl. eexists. pose proof (ix_num _ Hlayout) as Hnum. pose proof limit_bounds as Hlim.
  unfold increase_allowances. rewrite (proj2 (Z.eqb_neq n 0)) by lia.
  destruct (increase_all_spec (with_receiver_budget (with_sender_budget s sb) rb) (limit / n)) as (a & E3 & Ha & Hr);
    [done|apply Z.div_pos; lia|done|].
  rewrite E3. eexists. split; [done|]. split; [done|]. split; [|done].
  destruct (empty_sums n _ H7) as (Hrow & Hcol & Hnn).
  split; simpl; try done.
  - split; [done|]. intros i Hi. exists limit. rewrite Hrow. split; [by apply Hsat|lia].
  - split; [done|]. intros i Hi. exists limit. rewrite Hcol. split; [by apply Hrat|lia].
  - intros from to _ _. by rewrite H7.
Qed.

(* ------------------------------------------------------------------ *)
(** *** Base bandwidth *)

Lemma zsum_hole (f : Z -> Z) b i : in_range n i -> f i = 0 -> (forall j, in_range n j -> f j <= b) ->
  zsum f (seqZ 0 n) <= b * (n - 1).
Proof.
  intros Hi Hf Hb. set (g := fun j => if decide (j = i) then b else f j).
  assert (zsum g (seqZ 0 n) = zsum f (seqZ 0 n) + (g i - f i)) as E.
  { apply zsum_change; [apply NoDup_seqZ|by apply elem_of_indexes|].
    intros a _ Ha. unfold g. by rewrite decide_False. }
  assert (zsum g (seqZ 0 n) <= b * vec_len (seqZ 0 n)) as Hg.
  { apply zsum_bound. intros j Hj%elem_of_indexes. unfold g. case_decide; [done|by apply Hb]. }
  unfold vec_len in Hg. rewrite length_seqZ in Hg. unfold in_range in Hi.
  rewrite Z2Nat.id in Hg by lia. unfold g in E at 2. rewrite decide_True in E by done. lia.
Qed.

Definition base_on (s : Sched) (seen : list ShardLink) : Prop :=
  forall from to, in_range n from -> in_range n to -> amount n (granted_bandwidth s) from to =
    if bool_decide (mkLink from to ∈ seen) && permits layout (is_link_allowed_map s) from to
    then base_bandwidth params else 0.

Lemma base_step s seen l : sched_ok s -> base_on s seen -> valid_link n l -> l ∉ seen ->
  exists o s', try_grant_bandwidth l (base_bandwidth params) s = Ok (o, s') /\ sched_ok s'
    /\ is_link_allowed_map s' = is_link_allowed_map s /\ base_on s' (seen ++ [l]).
Proof using Hlayout Hparams.
  intros Hs Hb Hl Hnew. pose proof Hparams as [[Hb0 Hb1] [Hp _] _ _].
  destruct (try_grant_spec s l (base_bandwidth params) Hs Hl Hb0) as (o & s' & E & Hs' & [Hlk _] & _ & Ho).
  exists o, s'. split; [done|]. split; [done|]. split; [done|]. pose proof Hl as [Hl1 Hl2].
  assert (amount n (granted_bandwidth s) (sender l) (receiver l) = 0) as H0.
  { rewrite Hb by done. rewrite bool_decide_eq_false_2; [done|]. by destruct l. }
  assert (forall from to, bool_decide (mkLink from to ∈ seen ++ [l])
    = bool_decide (mkLink from to ∈ seen) || bool_decide (from = sender l /\ to = receiver l)) as Hin.
  { intros from to. rewrite <- bool_decide_or. apply bool_decide_ext. rewrite elem_of_app, list_elem_of_singleton.
    destruct l; simpl. naive_solver. }
  assert (forall from to, in_range n from -> in_range n to ->
    amount n (granted_bandwidth s) from to <= base_bandwidth params) as Hle.
  { intros from to Hf Ht. rewrite Hb by done. destruct (_ && _); lia. }
  intros from to Hf Ht. rewrite Hin. destruct o.
  - destruct Ho as [Hp' Hu]. rewrite (amount_updated n _ _ _ _ _ _ Hu Hf Ht), Hlk, H0. case_decide as Hd.
    + rewrite (bool_decide_eq_true_2 (_ /\ _)) by done. destruct Hd as [-> ->]. rewrite Hp', orb_true_r. done.
    + rewrite (bool_decide_eq_false_2 (_ /\ _)), orb_false_r by done. by apply Hb.
  - destruct Ho as [-> [Hno|Hfull]].
    + rewrite Hb by done. case_bool_decide as H1; [done|]. simpl. case_bool_decide as H2; [|done].
      destruct H2 as [-> ->]. by rewrite Hno.
    + exfalso.
      assert (row n (granted_bandwidth s) (sender l) <= base_bandwidth params * (n - 1)) as Hr.
      { apply (zsum_hole _ _ (receiver l)); [done..|]. intros j Hj. by apply Hle. }
      assert (col n (granted_bandwidth s) (receiver l) <= base_bandwidth params * (n - 1)) as Hc.
      { apply (zsum_hole (fun f => amount n (granted_bandwidth s) f (receiver l)) _ (sender l)); [done..|].
        intros j Hj. by apply Hle. }
      lia.
Qed.

Lemma link_unseen seen l rest : iter_links layout = seen ++ l :: rest -> l ∉ seen.
Proof.
  intros Es. pose proof (iter_links_NoDup layout) as Hnd. rewrite Es in Hnd. apply NoDup_app in Hnd as (_ & Hd & _).
  intros Hin. apply (Hd _ Hin). left.
Qed.

Lemma base_spec s : sched_ok s -> (forall from to, at_link n (granted_bandwidth s) from to = None) ->
  exists s', grant_base_bandwidth layout params s = Ok s' /\ sched_ok s'
    /\ is_link_allowed_map s' = is_link_allowed_map s /\ base_on s' (iter_links layout).
Proof using Hlayout Hparams.
  intros Hs Hnone. unfold grant_base_bandwidth.
  destruct (for_each_inv (fun seen t => sched_ok t /\ is_link_allowed_map t = is_link_allowed_map s /\ base_on t seen)
    (fun link s => let? (_, s) := try_grant_bandwidth link (base_bandwidth params) s in Ok s)
    (iter_links layout) s) as (s' & E & ? & ? & ?); [| |by exists s'].
  - split; [done|]. split; [done|]. intros from to _ _. unfold amount. by rewrite Hnone.
  - intros seen l rest t Es (Ht & Hlk & Hb).
    destruct (visited_in (valid_link n) _ seen l rest (iter_links_valid layout) Es) as [Hl _].
    pose proof (link_unseen _ _ _ Es) as Hnew.
    destruct (base_step t seen l Ht Hb Hl Hnew) as (o & t' & E & Ht' & Hlk' & Hb'). rewrite E. simpl.
    exists t'. rewrite Hlk'. done.
Qed.
(* ------------------------------------------------------------------ *)
(** *** Requests *)

Local Abbreviation Waiting := (gmap Z (list SchedulerBandwidthRequest)).

Record request_ok (r : SchedulerBandwidthRequest) : Prop := mk_request_ok {
  ro_link : valid_link n (sr_link r);
  ro_some : bandwidth_increases r <> [];
  ro_nonneg : Forall (fun b => 0 <= b) (bandwidth_increases r);
}.

Definition waiting_ok (w : Waiting) : Prop :=
  map_Forall (fun _ rs => rs <> [] /\ Forall request_ok rs) w.

(** How many increases wait: the measure of the loop. *)
Definition waiting_num (w : Waiting) : nat := sum_list_with (fun p => increases_num p.2) (map_to_list w).

Lemma increases_num_app l1 l2 : increases_num (l1 ++ l2) = (increases_num l1 + increases_num l2)%nat.
Proof. apply sum_list_with_app. Qed.

Lemma waiting_num_delete (w : Waiting) a rs : w !! a = Some rs ->
  waiting_num w = (increases_num rs + waiting_num (delete a w))%nat.
Proof. intros Ha. unfold waiting_num. by rewrite <- (map_to_list_delete w a rs Ha). Qed.

Lemma enqueue_spec (s : Sched) r w : sched_ok s -> request_ok r -> waiting_ok w ->
  exists w', enqueue r s w = Ok w' /\ waiting_ok w'
    /\ waiting_num w' = (waiting_num w + length (bandwidth_increases r))%nat.
Proof.
  intros Hs Hr Hw. unfold enqueue. rewrite get_allowance_spec by (apply Hs || apply Hr). simpl.
  set (a := amount _ _ _ _). eexists. split; [done|]. split.
  - apply map_Forall_insert_2; [|done]. split; [by destruct (default [] (w !! a))|].
    apply Forall_app. split; [|by apply Forall_singleton].
    destruct (w !! a) as [rs|] eqn:E; [by apply (Hw a)|constructor].
  - rewrite (waiting_num_delete _ a _ (lookup_insert_eq _ _ _)), delete_insert_eq, increases_num_app.
    unfold increases_num at 2. simpl. destruct (w !! a) as [rs|] eqn:E; simpl.
    + rewrite (waiting_num_delete w a rs E). lia.
    + rewrite delete_id by done. change (increases_num []) with 0%nat. lia.
Qed.

Lemma pop_last_spec w rs w' : pop_last w = Some (rs, w') ->
  exists a, w !! a = Some rs /\ w' = delete a w.
Proof.
  unfold pop_last. destruct (list_max _) as [a|]; [|done]. destruct (w !! a) as [l|] eqn:E; [|done].
  intros [= <- <-]. by exists a.
Qed.

(** A group of requests: each is granted its first increase and waits for the rest, or
    is dropped. *)
Lemma group_spec rs : forall (s : Sched) w, Forall request_ok rs -> sched_ok s -> waiting_ok w ->
  exists s' w', for_each grant_first rs (s, w) = Ok (s', w') /\ sched_ok s' /\ waiting_ok w' /\ grows s s'
    /\ (waiting_num w' + length rs <= waiting_num w + increases_num rs)%nat.
Proof using Hlayout Hparams.
  induction rs as [|r rs IH]; intros s w Hrs Hs Hw; simpl.
  { exists s, w. split_and!; try done. }
  apply Forall_cons in Hrs as [Hr Hrs]. pose proof Hr as [Hl Hne Hnn].
  destruct (bandwidth_increases r) as [|b rest] eqn:Eb; [done|]. apply Forall_cons in Hnn as [Hb Hrest].
  simpl length.
  destruct (try_grant_spec s (sr_link r) b Hs Hl Hb) as (o & s1 & E & Hs1 & Hg & _ & _). rewrite E. simpl.
  assert (exists w1, match o with
      | Granted => match rest with [] => Ok (s1, w) | _ => let? w0 := enqueue (mkSchedulerRequest (sr_link r) rest) s1 w in Ok (s1, w0) end
      | NotGranted => Ok (s1, w) end = Ok (s1, w1) /\ waiting_ok w1 /\ (waiting_num w1 <= waiting_num w + length rest)%nat)
    as (w1 & E1 & Hw1 & Hnum1).
  { destruct o; [|exists w; split_and!; [done..|lia]]. destruct rest as [|b' rest']; [exists w; split_and!; [done..|lia]|].
    destruct (enqueue_spec s1 (mkSchedulerRequest (sr_link r) (b' :: rest')) w Hs1) as (w1 & E1 & Hw1 & Hnum); [done|done|].
    rewrite E1. exists w1. split_and!; [done..|]. rewrite Hnum. simpl. lia. }
  rewrite E1. simpl. destruct (IH s1 w1 Hrs Hs1 Hw1) as (s2 & w2 & E2 & Hs2 & Hw2 & Hg2 & Hnum2).
  exists s2, w2. split_and!; try done; [by eapply grows_trans|lia].
Qed.

Hypothesis Hshuffle : forall l g, (shuffle l g).1 ≡ₚ l.

Lemma sched_ok_rng s g : sched_ok s -> sched_ok (with_rng s g).
Proof. by intros []. Qed.

Lemma process_waiting_spec fuel : forall s w, sched_ok s -> waiting_ok w -> (waiting_num w < fuel)%nat ->
  exists s', process_waiting shuffle fuel s w = Ok s' /\ sched_ok s' /\ grows s s'.
Proof using Hlayout Hparams Hshuffle.
  induction fuel as [|fuel IH]; intros s w Hs Hw Hfuel; [lia|]. simpl.
  destruct (pop_last w) as [[rs w1]|] eqn:Ep; [|exists s; split_and!; [done..|apply grows_refl]].
  apply pop_last_spec in Ep as (a & Ea & ->). pose proof (waiting_num_delete _ _ _ Ea) as Hnum.
  destruct (Hw _ _ Ea) as [Hne Hrs]. pose proof (Hshuffle rs (rng s)) as Hperm.
  destruct (shuffle rs (rng s)) as [rs' g] eqn:Esh. simpl in Hperm.
  destruct (group_spec rs' (with_rng s g) (delete a w)) as (s1 & w1 & E1 & Hs1 & Hw1 & Hg1 & Hn1).
  { by rewrite Hperm. }
  { by apply sched_ok_rng. }
  { by apply map_Forall_delete. }
  rewrite E1. simpl.
  assert (length rs' = length rs /\ increases_num rs' = increases_num rs) as [El En].
  { split; [by apply Permutation_length|]. unfold increases_num. by rewrite Hperm. }
  assert (length rs <> 0%nat) by (by destruct rs).
  destruct (IH s1 w1 Hs1 Hw1) as (s2 & E2 & Hs2 & Hg2); [lia|]. exists s2. split_and!; try done.
  eapply grows_trans; [|exact Hg2]. by destruct Hg1.
Qed.

Lemma process_requests_spec rs s : Forall request_ok rs -> sched_ok s ->
  exists s', process_bandwidth_requests shuffle rs s = Ok s' /\ sched_ok s' /\ grows s s'.
Proof using Hlayout Hparams Hshuffle.
  intros Hrs Hs. unfold process_bandwidth_requests.
  destruct (for_each_inv (fun seen w => waiting_ok w /\ waiting_num w = increases_num seen)
    (fun r => enqueue r s) rs ∅) as (w & E & Hw & Hnum).
  - split; [apply map_Forall_empty|done].
  - intros seen r rest w Er [Hw Hnum].
    assert (request_ok r) as Hr. { rewrite Er in Hrs. apply Forall_app in Hrs as [_ Hrs]. by inversion Hrs. }
    destruct (enqueue_spec s r w Hs Hr Hw) as (w' & E & Hw' & Hnum'). exists w'. split_and!; try done.
    rewrite Hnum', Hnum, increases_num_app. unfold increases_num at 3. simpl. lia.
  - rewrite E. unfold rbind. apply process_waiting_spec; [done|done|lia].
Qed.

(* ------------------------------------------------------------------ *)
(** *** Progress *)

(** A request asks for at most the greatest grant, above the base bandwidth. *)
Definition modest (r : SchedulerBandwidthRequest) : Prop :=
  request_ok r /\ base_bandwidth params + hd 0 (bandwidth_increases r) <= max_single_grant params.

Definition on_open_link (s : Sched) (r : SchedulerBandwidthRequest) : Prop :=
  permits layout (is_link_allowed_map s) (sender (sr_link r)) (receiver (sr_link r)) = true.

Definition served_first (s : Sched) (r : SchedulerBandwidthRequest) : Prop :=
  base_bandwidth params + hd 0 (bandwidth_increases r)
  <= amount n (granted_bandwidth s) (sender (sr_link r)) (receiver (sr_link r)).

Definition at_base (s : Sched) : Prop := sched_ok s /\ base_on s (iter_links layout).

Lemma served_grows s s' r : valid_link n (sr_link r) -> served_first s r -> grows s s' -> served_first s' r.
Proof. intros [Hl1 Hl2] H [_ Hm]. specialize (Hm _ _ Hl1 Hl2). unfold served_first in *. lia. Qed.

(** Above the base grants, one request always fits. *)
Lemma first_fits s r b : at_base s -> valid_link n (sr_link r) ->
  base_bandwidth params + b <= max_single_grant params ->
  row n (granted_bandwidth s) (sender (sr_link r)) + b <= limit
  /\ col n (granted_bandwidth s) (receiver (sr_link r)) + b <= limit.
Proof using Hlayout Hparams.
  intros [_ Hb] [Hl1 Hl2] Hfit. pose proof Hparams as [[Hb0 Hb1] [Hp _] _ _]. pose proof (ix_num _ Hlayout) as Hnum.
  assert (forall from to, in_range n from -> in_range n to ->
    amount n (granted_bandwidth s) from to <= base_bandwidth params) as Hle.
  { intros from to Hf Ht. rewrite Hb by done. destruct (_ && _); lia. }
  assert (vec_len (seqZ 0 n) = n) as Hlen by (unfold vec_len; rewrite length_seqZ; lia).
  assert (row n (granted_bandwidth s) (sender (sr_link r)) <= base_bandwidth params * n) as H1.
  { rewrite <- Hlen at 2. apply zsum_bound. intros j Hj%elem_of_indexes. by apply Hle. }
  assert (col n (granted_bandwidth s) (receiver (sr_link r)) <= base_bandwidth params * n) as H2.
  { rewrite <- Hlen at 2. apply (zsum_bound (fun f => amount n (granted_bandwidth s) f (receiver (sr_link r)))).
    intros j Hj%elem_of_indexes. by apply Hle. }
  lia.
Qed.

Lemma group_progress rs : forall (s : Sched) w, Forall modest rs -> at_base s -> waiting_ok w ->
  exists s' w', for_each grant_first rs (s, w) = Ok (s', w')
    /\ ((s' = s /\ w' = w /\ Forall (fun r => ~ on_open_link s r) rs)
        \/ exists r, r ∈ rs /\ on_open_link s r /\ served_first s' r).
Proof using Hlayout Hparams.
  induction rs as [|r rs IH]; intros s w Hrs Hs Hw; simpl.
  { exists s, w. split; [done|]. left. done. }
  apply Forall_cons in Hrs as [[Hr Hmod] Hrs]. pose proof Hr as [Hl Hne Hnn].
  destruct (bandwidth_increases r) as [|b rest] eqn:Eb; [done|]. apply Forall_cons in Hnn as [Hb Hrest].
  simpl in Hmod. destruct (try_grant_spec s (sr_link r) b (proj1 Hs) Hl Hb) as (o & s1 & E & Hs1 & Hg & _ & Ho).
  rewrite E. simpl. destruct o.
  - assert (served_first s1 r) as Hserved.
    { destruct Ho as [Hop Hu]. pose proof Hl as [Hl1 Hl2]. unfold served_first. rewrite Eb. simpl.
      rewrite (amount_updated n _ _ _ _ _ _ Hu Hl1 Hl2), decide_True by done.
      rewrite (proj2 Hs) by done. unfold permits in *. rewrite Hop.
      rewrite bool_decide_eq_true_2 by (by apply iter_links_valid). simpl. lia. }
    assert (exists w1, match rest with [] => Ok (s1, w) | _ =>
      let? w0 := enqueue (mkSchedulerRequest (sr_link r) rest) s1 w in Ok (s1, w0) end = Ok (s1, w1) /\ waiting_ok w1)
      as (w1 & E1 & Hw1).
    { destruct rest as [|b' rest']; [by exists w|].
      destruct (enqueue_spec s1 (mkSchedulerRequest (sr_link r) (b' :: rest')) w Hs1) as (w1 & E1 & Hw1 & _); [done|done|].
      rewrite E1. by exists w1. }
    rewrite E1. simpl.
    destruct (group_spec rs s1 w1) as (s2 & w2 & E2 & _ & _ & Hg2 & _); [|done|done|].
    { eapply Forall_impl; [exact Hrs|]. by intros ? [? _]. }
    exists s2, w2. split; [done|]. right. exists r. split; [left|]. split; [apply Ho|by eapply served_grows].
  - destruct Ho as [-> [Hno|Hfull]]; simpl.
    + destruct (IH s w Hrs Hs Hw) as (s2 & w2 & E2 & H2). exists s2, w2. split; [done|].
      destruct H2 as [(-> & -> & Hall)|(q & Hq & Hop & Hsv)]; [left|right; exists q; split_and!; [by right|done..]].
      split; [done|]. split; [done|]. constructor; [unfold on_open_link; by rewrite Hno|done].
    + exfalso. destruct (first_fits s r b Hs Hl Hmod). lia.
Qed.

Lemma pop_last_total (w : Waiting) a rs : w !! a = Some rs -> exists rs' w', pop_last w = Some (rs', w').
Proof.
  intros Ha. unfold pop_last. destruct (list_max_Some (map fst (map_to_list w))) as (b & -> & Hb & _).
  { intros E. apply map_eq_nil, map_to_list_empty_iff in E. subst w. by rewrite lookup_empty in Ha. }
  apply list_elem_of_In, in_map_iff in Hb as ([b' l] & <- & Hb). apply list_elem_of_In, elem_of_map_to_list in Hb.
  simpl. rewrite Hb. eauto.
Qed.

Lemma process_progress fuel : forall s w, at_base s -> map_Forall (fun _ rs => rs <> [] /\ Forall modest rs) w ->
  (waiting_num w < fuel)%nat -> (exists a rs r, w !! a = Some rs /\ r ∈ rs /\ on_open_link s r) ->
  exists s' a rs r, process_waiting shuffle fuel s w = Ok s' /\ w !! a = Some rs /\ r ∈ rs
    /\ on_open_link s r /\ served_first s' r.
Proof using Hlayout Hparams Hshuffle.
  induction fuel as [|fuel IH]; intros s w Hs Hw Hfuel (a & rs & r & Ha & Hr & Hop); [lia|]. simpl.
  destruct (pop_last_total w a rs Ha) as (rs1 & w1 & Ep). rewrite Ep.
  apply pop_last_spec in Ep as (a1 & Ea & ->). pose proof (waiting_num_delete _ _ _ Ea) as Hnum.
  destruct (Hw _ _ Ea) as [Hne Hrs]. pose proof (Hshuffle rs1 (rng s)) as Hperm.
  destruct (shuffle rs1 (rng s)) as [rs' g] eqn:Esh. simpl in Hperm.
  assert (at_base (with_rng s g)) as Hs' by (destruct Hs as [? ?]; split; [by apply sched_ok_rng|done]).
  assert (forall v : Waiting, map_Forall (fun _ rs => rs <> [] /\ Forall modest rs) v -> waiting_ok v) as Hweak.
  { intros v Hv k l Hk. destruct (Hv k l Hk) as [? Hl]. split; [done|]. eapply Forall_impl; [exact Hl|]. by intros ? [? _]. }
  assert (Hwd : map_Forall (fun _ rs => rs <> [] /\ Forall modest rs) (delete a1 w)) by (by apply map_Forall_delete).
  destruct (group_progress rs' (with_rng s g) (delete a1 w)) as (s1 & w1 & E1 & H1); [by rewrite Hperm|done|by apply Hweak|].
  destruct (group_spec rs' (with_rng s g) (delete a1 w)) as (s1' & w1' & E1' & Hs1 & Hw1 & _ & Hn1).
  { rewrite Hperm. eapply Forall_impl; [exact Hrs|]. by intros ? [? _]. }
  { apply Hs'. }
  { by apply Hweak. }
  rewrite E1 in E1'. injection E1' as <- <-. rewrite E1. simpl.
  assert (length rs' = length rs1 /\ increases_num rs' = increases_num rs1) as [El En].
  { split; [by apply Permutation_length|]. unfold increases_num. by rewrite Hperm. }
  assert (length rs1 <> 0%nat) by (by destruct rs1).
  destruct H1 as [(-> & -> & Hall)|(q & Hq & Hqo & Hsv)].
  - assert (a <> a1) as Hane.
    { intros ->. rewrite Ha in Ea. injection Ea as ->. rewrite Hperm, Forall_forall in Hall. by apply (Hall r Hr). }
    destruct (IH (with_rng s g) (delete a1 w) Hs' Hwd) as (s2 & b & l & q & E2 & Hb & Hq & Hqo & Hsv); [lia| |].
    { exists a, rs, r. rewrite lookup_delete_ne by done. done. }
    exists s2, b, l, q. split; [done|]. split; [|done].
    apply lookup_delete_Some in Hb as [_ Hb]. done.
  - destruct (process_waiting_spec fuel s1 w1 Hs1 Hw1) as (s2 & E2 & _ & Hg2); [lia|].
    exists s2, a1, rs1, q. rewrite Hperm in Hq. split_and!; try done.
    eapply served_grows; [|exact Hsv|done]. rewrite Forall_forall in Hrs. by destruct (Hrs q Hq) as [[? _ _] _].
Qed.

Lemma requests_progress rs s : Forall modest rs -> at_base s -> (exists r, r ∈ rs /\ on_open_link s r) ->
  exists s' r, process_bandwidth_requests shuffle rs s = Ok s' /\ r ∈ rs /\ on_open_link s r /\ served_first s' r.
Proof using Hlayout Hparams Hshuffle.
  intros Hrs Hs (r & Hr & Hop). unfold process_bandwidth_requests. pose proof (proj1 Hs) as Hok.
  destruct (for_each_inv (fun seen w => map_Forall (fun _ l => l <> [] /\ Forall modest l) w
      /\ waiting_num w = increases_num seen
      /\ (forall q, q ∈ seen <-> exists a l, w !! a = Some l /\ q ∈ l))
    (fun r => enqueue r s) rs ∅) as (w & E & Hw & Hnum & Hin).
  - split_and!; [apply map_Forall_empty|done|]. intros q. split; [by intros ?%elem_of_nil|].
    intros (a & l & Ha & _). by rewrite lookup_empty in Ha.
  - intros seen q rest w Er (Hw & Hnum & Hin).
    assert (modest q) as Hq. { rewrite Er in Hrs. apply Forall_app in Hrs as [_ Hrs]. by inversion Hrs. }
    destruct (enqueue_spec s q w Hok (proj1 Hq)) as (w' & E & _ & Hnum').
    { intros a l Ha. destruct (Hw a l Ha) as [? Hl]. split; [done|]. eapply Forall_impl; [exact Hl|]. by intros ? [? _]. }
    exists w'. split; [done|]. unfold enqueue in E. rewrite get_allowance_spec in E by (apply Hok || apply Hq).
    simpl in E. injection E as <-. set (a := amount _ _ _ _) in *.
    split; [|split; [rewrite Hnum', Hnum, increases_num_app; unfold increases_num at 3; simpl; lia|]].
    + apply map_Forall_insert_2; [|done]. split; [by destruct (default [] (w !! a))|].
      apply Forall_app. split; [|by apply Forall_singleton]. destruct (w !! a) eqn:Ea; [by apply (Hw a)|constructor].
    + intros x. rewrite elem_of_app, list_elem_of_singleton, Hin. split.
      * intros [(b & l & Hb & Hx)| ->].
        -- destruct (decide (b = a)) as [->|Hne]; [|exists b, l; by rewrite lookup_insert_ne].
           exists a. eexists. rewrite lookup_insert_eq. split; [done|]. rewrite Hb. apply elem_of_app. by left.
        -- exists a. eexists. rewrite lookup_insert_eq. split; [done|]. apply elem_of_app. right. left.
      * intros (b & l & Hb & Hx). destruct (decide (b = a)) as [->|Hne].
        -- rewrite lookup_insert_eq in Hb. injection Hb as <-. apply elem_of_app in Hx as [Hx|Hx].
           ++ left. exists a. destruct (w !! a) as [l|] eqn:Ea; [by exists l|]. by apply elem_of_nil in Hx.
           ++ right. by apply list_elem_of_singleton in Hx.
        -- rewrite lookup_insert_ne in Hb by done. left. by exists b, l.
  - rewrite E. unfold rbind. pose proof (proj1 (Hin r) Hr) as (a & l & Ha & Hl).
    destruct (process_progress (S (increases_num rs)) s w Hs Hw) as (s' & b & l' & q & E' & Hb & Hq & Hqo & Hsv); [lia|by exists a, l, r|].
    exists s', q. split_and!; try done. apply Hin. eauto.
Qed.

(* ------------------------------------------------------------------ *)
(** *** What is left *)

Lemma distribute_step s m l : lm_ok n m -> amounts_nonneg n m -> valid_link n l ->
  lm_ok n (granted_bandwidth s) ->
  amount n (granted_bandwidth s) (sender l) (receiver l) + amount n m (sender l) (receiver l) <= u64_max ->
  exists g, (let? o := lm_get m l in
             match o with Some grant => grant_more_bandwidth l grant s | None => Ok s end)
            = Ok (with_granted s g : Sched)
    /\ lm_ok n g
    /\ (forall from to, in_range n from -> in_range n to -> amount n g from to =
          amount n (granted_bandwidth s) from to
          + if decide (from = sender l /\ to = receiver l) then amount n m (sender l) (receiver l) else 0)
    /\ (forall from to, in_range n from -> in_range n to -> at_link n g from to <> None ->
          at_link n (granted_bandwidth s) from to <> None \/ at_link n m from to <> None).
Proof.
  intros Hm Hnn Hl Hg Hfit. rewrite (lm_get_spec n) by done. simpl. pose proof Hl as [Hl1 Hl2].
  pose proof (Hnn _ _ Hl1 Hl2) as H0. revert H0 Hfit. unfold amount at 1 3.
  destruct (at_link n m (sender l) (receiver l)) as [v|] eqn:Ev; simpl; intros H0 Hfit.
  - destruct (grant_more_spec _ l v Hg Hl H0 Hfit) as (g & E & Hg' & Hu). rewrite E by done.
    exists g. split; [done|]. split; [done|]. split.
    + intros from to Hf Ht. rewrite (amount_updated n _ _ _ _ _ _ Hu Hf Ht). unfold amount at 4. rewrite Ev.
      case_decide as Hd; [destruct Hd as [-> ->]; done|lia].
    + intros from to Hf Ht. rewrite Hu by done. case_decide as Hd; [|by left].
      destruct Hd as [-> ->]. right. by rewrite Ev.
  - exists (granted_bandwidth s). split; [by destruct s|]. split; [done|]. split; [|by left].
    intros from to Hf Ht. unfold amount at 3. rewrite Ev. case_decide; simpl; lia.
Qed.

(** The end of the algorithm: every link has what it was granted before or more, and the
    sums are within the limit. *)
Record final_ok (s0 s : Sched) : Prop := mk_final_ok {
  fo_links : is_link_allowed_map s = is_link_allowed_map s0;
  fo_allowances : link_allowances s = link_allowances s0;
  fo_granted : lm_ok n (granted_bandwidth s);
  fo_nonneg : amounts_nonneg n (granted_bandwidth s);
  fo_more : forall from to, in_range n from -> in_range n to ->
    amount n (granted_bandwidth s0) from to <= amount n (granted_bandwidth s) from to;
  fo_row : forall i, in_range n i -> row n (granted_bandwidth s) i <= limit;
  fo_col : forall i, in_range n i -> col n (granted_bandwidth s) i <= limit;
  fo_forbidden : forall from to, in_range n from -> in_range n to ->
    at_link n (granted_bandwidth s) from to <> None -> permits layout (is_link_allowed_map s) from to = true;
}.

(** The loop over the links adds the remaining grants to what was granted before. *)
Lemma distribute_loop s m : lm_ok n m -> amounts_nonneg n m -> lm_ok n (granted_bandwidth s) ->
  (forall from to, in_range n from -> in_range n to ->
     amount n (granted_bandwidth s) from to + amount n m from to <= u64_max) ->
  exists g, for_each (fun link s => let? o := lm_get m link in
       match o with Some grant => grant_more_bandwidth link grant s | None => Ok s end)
    (iter_links layout) s = Ok (with_granted s g : Sched)
    /\ lm_ok n g
    /\ (forall from to, in_range n from -> in_range n to ->
          amount n g from to = amount n (granted_bandwidth s) from to + amount n m from to)
    /\ (forall from to, in_range n from -> in_range n to -> at_link n g from to <> None ->
          at_link n (granted_bandwidth s) from to <> None \/ at_link n m from to <> None).
Proof.
  intros Hm Hmn Hg0 Hfit. set (g0 := granted_bandwidth s) in *.
  destruct (for_each_inv (fun seen t => exists g, t = with_granted s g /\ lm_ok n g
      /\ (forall from to, in_range n from -> in_range n to -> amount n g from to =
            amount n g0 from to + if decide (mkLink from to ∈ seen) then amount n m from to else 0)
      /\ (forall from to, in_range n from -> in_range n to -> at_link n g from to <> None ->
            at_link n g0 from to <> None \/ at_link n m from to <> None))
    (fun link s => let? o := lm_get m link in
       match o with Some grant => grant_more_bandwidth link grant s | None => Ok s end)
    (iter_links layout) s) as (t & E & g & -> & Hg & Hsum & Hnone).
  - exists g0. split; [by destruct s|]. split; [done|]. split; [|by left].
    intros from to _ _. rewrite decide_False; [lia|]. apply not_elem_of_nil.
  - intros seen l rest t Es (g & -> & Hg & Hsum & Hnone).
    destruct (visited_in (valid_link n) _ seen l rest (iter_links_valid layout) Es) as [Hl _].
    pose proof Hl as [Hl1 Hl2]. pose proof (link_unseen _ _ _ Es) as Hnew.
    assert (mkLink (sender l) (receiver l) = l) as El by (by destruct l).
    destruct (distribute_step (with_granted s g) m l Hm Hmn Hl Hg) as (g' & E & Hg' & Hs' & Hn').
    { simpl. rewrite Hsum, El, decide_False, Z.add_0_r by done. by apply Hfit. }
    rewrite E. eexists. split; [done|]. exists g'. split; [done|]. split; [done|]. simpl in Hs', Hn'. split.
    + intros from to Hf Ht. rewrite Hs', Hsum by done.
      assert (mkLink from to ∈ seen ++ [l] <-> mkLink from to ∈ seen \/ (from = sender l /\ to = receiver l)) as Hin.
      { rewrite elem_of_app, list_elem_of_singleton. destruct l; simpl. naive_solver. }
      destruct (decide (from = sender l /\ to = receiver l)) as [[-> ->]|Hd].
      * rewrite El. rewrite (decide_False (P := l ∈ seen)) by done.
        rewrite decide_True; [lia|]. apply elem_of_app. right. left.
      * destruct (decide (mkLink from to ∈ seen)); [rewrite decide_True by tauto|rewrite decide_False by tauto]; lia.
    + intros from to Hf Ht Ha. destruct (Hn' from to Hf Ht Ha) as [?|?]; [by apply Hnone|by right].
  - exists g. split; [done|]. split; [done|]. split; [|done].
    intros from to Hf Ht. rewrite Hsum by done. rewrite decide_True; [done|]. by apply iter_links_valid.
Qed.

Lemma distribute_final s : sched_ok s ->
  exists s', distribute_remaining layout s = Ok s' /\ final_ok s s'.
Proof using Hlayout Hparams.
  intros [H1 [H2 H2'] [H3 H3'] H4 H5 H6 H7 H8]. unfold distribute_remaining. pose proof (ix_num _ Hlayout) as Hnum.
  destruct (distribute_spec layout (is_link_allowed_map s) ltac:(lia) H1 _ _ H2 H3)
    as (m & Em & Hm & Hmn & Hmr & Hmc & Hma).
  { intros i Hi. destruct (H2' i Hi) as (v & -> & ? & _). done. }
  { intros i Hi. destruct (H3' i Hi) as (v & -> & ? & _). done. }
  rewrite Em. simpl. set (g0 := granted_bandwidth s) in *.
  assert (forall i, in_range n i -> row n g0 i + row n m i <= limit) as Hrow.
  { intros i Hi. destruct (H2' i Hi) as (v & Ev & ? & ?). specialize (Hmr i Hi). rewrite Ev in Hmr. simpl in Hmr. lia. }
  assert (forall i, in_range n i -> col n g0 i + col n m i <= limit) as Hcol.
  { intros i Hi. destruct (H3' i Hi) as (v & Ev & ? & ?). specialize (Hmc i Hi). rewrite Ev in Hmc. simpl in Hmc. lia. }
  destruct (distribute_loop s m Hm Hmn H6) as (g & E & Hg & Hs & Hnone).
  { intros from to Hf Ht. fold g0. pose proof limit_bounds.
    pose proof (amount_le_row n g0 _ _ H7 Hf Ht). pose proof (amount_le_row n m _ _ Hmn Hf Ht).
    specialize (Hrow _ Hf). lia. }
  fold g0 in Hs, Hnone. eexists. split; [exact E|]. split; simpl; try done.
  - intros from to Hf Ht. rewrite Hs by done. specialize (H7 _ _ Hf Ht). specialize (Hmn _ _ Hf Ht). lia.
  - intros from to Hf Ht. fold g0. rewrite Hs by done. specialize (Hmn _ _ Hf Ht). lia.
  - intros i Hi. unfold row. rewrite (zsum_ext_in _ (fun r => amount n g0 i r + amount n m i r)).
    { rewrite zsum_add. by apply Hrow. } intros r Hr%elem_of_indexes. by apply Hs.
  - intros i Hi. unfold col. rewrite (zsum_ext_in _ (fun f => amount n g0 f i + amount n m f i)).
    { rewrite (zsum_add (fun f => amount n g0 f i) (fun f => amount n m f i)). by apply Hcol. }
    intros r Hr%elem_of_indexes. by apply Hs.
  - intros from to Hf Ht Ha. destruct (Hnone from to Hf Ht Ha) as [?|?]; [by apply H8|by apply Hma].
Qed.

(* ------------------------------------------------------------------ *)
(** *** Results *)

(** The identifier of a shard. *)
Definition idz (i : Z) : Z := default 0 (shard_ids layout !! Z.to_nat i).

Lemma id_of_spec i : in_range n i -> id_of layout i = Ok (idz i).
Proof using Hlayout.
  intros Hi. destruct (ix_id _ Hlayout i Hi) as (id & E1 & E2). unfold id_of, idz. by rewrite E1, E2.
Qed.

Lemma idz_inj i j : in_range n i -> in_range n j -> idz i = idz j -> i = j.
Proof using Hlayout.
  intros Hi Hj. destruct (ix_id _ Hlayout i Hi) as (x & _ & Ex). destruct (ix_id _ Hlayout j Hj) as (y & _ & Ey).
  unfold idz. rewrite Ex, Ey. simpl. intros <-. pose proof (ix_NoDup _ Hlayout) as Hnd.
  assert (Z.to_nat i = Z.to_nat j) by (by eapply NoDup_lookup). unfold in_range in *. lia.
Qed.

Lemma shard_ids_idz : shard_ids layout = map idz (seqZ 0 n).
Proof using Hlayout.
  pose proof (ix_len _ Hlayout) as Hlen. pose proof (ix_num _ Hlayout) as Hnum. apply list_eq. intros i. change (map idz (seqZ 0 n)) with (idz <$> seqZ 0 n).
  rewrite list_lookup_fmap. destruct (decide (Z.of_nat i < n)) as [Hi|Hi].
  - rewrite lookup_seqZ_lt by lia. simpl. unfold idz. rewrite Z.add_0_l, Nat2Z.id.
    destruct (lookup_lt_is_Some_2 (shard_ids layout) i) as [x ->]; [unfold vec_len in Hlen; lia|done].
  - rewrite lookup_seqZ_ge by lia. simpl. apply lookup_ge_None_2. unfold vec_len in Hlen. lia.
Qed.

Lemma zsum_ids f : zsum f (shard_ids layout) = zsum (fun i => f (idz i)) (seqZ 0 n).
Proof using Hlayout.
  rewrite shard_ids_idz. generalize (seqZ 0 n). induction l as [|a l IH]; [done|]. simpl map. by rewrite !zsum_cons, IH.
Qed.

Lemma id_index id : id ∈ shard_ids layout <-> exists i, in_range n i /\ id = idz i.
Proof using Hlayout.
  rewrite shard_ids_idz, list_elem_of_In, in_map_iff. split.
  - intros (i & <- & Hi%list_elem_of_In%elem_of_indexes). by exists i.
  - intros (i & Hi & ->). exists i. split; [done|]. by apply list_elem_of_In, elem_of_indexes.
Qed.

Lemma final_spec (s : Sched) : lm_ok n (granted_bandwidth s) ->
  exists G, get_final_granted_bandwidth layout s = Ok G
    /\ forall from to, in_range n from -> in_range n to ->
         get_granted_bandwidth G (idz from) (idz to) = amount n (granted_bandwidth s) from to.
Proof using Hlayout.
  intros Hg. unfold get_final_granted_bandwidth.
  set (body := fun link (granted : gmap (Z * Z) Z) => _).
  destruct (for_each_inv (fun seen G => forall from to, in_range n from -> in_range n to ->
      G !! (idz from, idz to) = if decide (mkLink from to ∈ seen) then at_link n (granted_bandwidth s) from to else None)
    body (iter_links layout) (∅ : gmap (Z * Z) Z)) as (G & E & HG).
  - intros from to _ _. rewrite decide_False by apply not_elem_of_nil. apply lookup_empty.
  - intros seen l rest G Es HG.
    destruct (visited_in (valid_link n) _ seen l rest (iter_links_valid layout) Es) as [Hl _]. pose proof Hl as [Hl1 Hl2].
    pose proof (link_unseen _ _ _ Es) as Hnew. unfold body. rewrite (lm_get_spec n) by done. simpl.
    assert (forall from to, mkLink from to ∈ seen ++ [l] <-> mkLink from to ∈ seen \/ (from = sender l /\ to = receiver l)) as Hin.
    { intros from to. rewrite elem_of_app, list_elem_of_singleton. destruct l; simpl. naive_solver. }
    assert (exists o, at_link n (granted_bandwidth s) (sender l) (receiver l) = o) as [o Eo] by eauto.
    assert (forall from to, ~ (from = sender l /\ to = receiver l) ->
      (if decide (mkLink from to ∈ seen ++ [l]) then at_link n (granted_bandwidth s) from to else None)
      = if decide (mkLink from to ∈ seen) then at_link n (granted_bandwidth s) from to else None) as Hother.
    { intros from to Hd. specialize (Hin from to). repeat case_decide; tauto. }
    rewrite Eo. destruct o as [v|].
    + rewrite id_of_spec by done. simpl. rewrite id_of_spec by done. simpl. eexists. split; [done|].
      intros from to Hf Ht. destruct (decide (from = sender l /\ to = receiver l)) as [[-> ->]|Hd].
      * rewrite lookup_insert_eq, decide_True by (apply Hin; by right). by rewrite Eo.
      * rewrite lookup_insert_ne, Hother by (done || (intros [= E1%idz_inj E2%idz_inj]; naive_solver)).
        by apply HG.
    + exists G. split; [done|]. intros from to Hf Ht.
      destruct (decide (from = sender l /\ to = receiver l)) as [[-> ->]|Hd]; [|rewrite Hother by done; by apply HG].
      rewrite HG by done. rewrite Eo. by repeat case_decide.
  - exists G. split; [done|]. intros from to Hf Ht. unfold get_granted_bandwidth. rewrite HG by done.
    rewrite decide_True by (by apply iter_links_valid). done.
Qed.

Definition allowance_ok (a : LinkAllowance) : Prop := is_u (max_allowance params) (la_allowance a).

Lemma update_state_spec (s : Sched) : lm_ok n (link_allowances s) ->
  (forall from to, in_range n from -> in_range n to ->
     is_u (max_allowance params) (amount n (link_allowances s) from to)) ->
  exists l, update_scheduler_state layout s = Ok l /\ Forall allowance_ok l.
Proof using Hlayout.
  intros Ha Hr. unfold update_scheduler_state. apply (for_each_keeps (Forall allowance_ok)); [constructor|].
  intros l acc Hl%iter_links_valid Hacc. pose proof Hl as [Hl1 Hl2]. rewrite (lm_get_spec n) by done. simpl.
  destruct (at_link n (link_allowances s) (sender l) (receiver l)) as [a|] eqn:Ea; [|by exists acc].
  rewrite id_of_spec by done. simpl. rewrite id_of_spec by done. simpl. eexists. split; [done|].
  apply Forall_app. split; [done|]. apply Forall_singleton. specialize (Hr _ _ Hl1 Hl2). unfold amount in Hr.
  by rewrite Ea in Hr.
Qed.

(** The whole algorithm. *)
Record outcome_ok (links : ShardLinkMap bool) (G : gmap (Z * Z) Z) : Prop := mk_outcome_ok {
  oo_sent : forall from, from ∈ shard_ids layout -> zsum (get_granted_bandwidth G from) (shard_ids layout) <= limit;
  oo_received : forall to, to ∈ shard_ids layout ->
    zsum (fun from => get_granted_bandwidth G from to) (shard_ids layout) <= limit;
  oo_links : forall from to, in_range n from -> in_range n to ->
    if permits layout links from to
    then base_bandwidth params <= get_granted_bandwidth G (idz from) (idz to)
    else get_granted_bandwidth G (idz from) (idz to) = 0;
}.

Lemma schedule_spec rs s : start_ok s -> Forall modest rs ->
  exists G s', schedule_bandwidth shuffle layout params rs s = Ok (G, s')
    /\ outcome_ok (is_link_allowed_map s) G
    /\ (lm_ok n (link_allowances s') /\ forall from to, in_range n from -> in_range n to ->
          is_u (max_allowance params) (amount n (link_allowances s') from to))
    /\ ((exists r, r ∈ rs /\ on_open_link s r) -> exists r, r ∈ rs /\ on_open_link s r
          /\ base_bandwidth params + hd 0 (bandwidth_increases r)
             <= get_granted_bandwidth G (idz (sender (sr_link r))) (idz (receiver (sr_link r)))).
Proof using Hlayout Hparams Hshuffle.
  intros Hs Hrs. unfold schedule_bandwidth. destruct (prepared s Hs) as (s1 & s2 & E1 & E2 & H2 & L2 & G2).
  rewrite E1. simpl. rewrite E2. simpl.
  destruct (base_spec s2 H2) as (s3 & E3 & H3 & L3 & B3). { rewrite G2. apply Hs. }
  rewrite E3. simpl.
  destruct (process_requests_spec rs s3) as (s4 & E4 & H4 & [L4 M4]); [|done|].
  { eapply Forall_impl; [exact Hrs|]. by intros ? [? _]. }
  rewrite E4. simpl.
  destruct (distribute_final s4 H4) as (s5 & E5 & [L5 A5 G5 N5 M5 R5 C5 F5]). rewrite E5. simpl.
  destruct (final_spec s5 G5) as (G & E6 & HG). rewrite E6. simpl. exists G, s5. split; [done|]. split; [|split; [rewrite A5; split; apply H4|]].
  2: { intros (r & Hr & Hop). unfold on_open_link in *. rewrite <- L2, <- L3 in Hop.
       destruct (requests_progress rs s3 Hrs (conj H3 B3)) as (s4' & q & E4' & Hq & Hqo & Hsv); [by exists r|].
       rewrite E4 in E4'. injection E4' as <-. exists q. unfold on_open_link in Hqo. rewrite L3, L2 in Hqo.
       split_and!; [done..|]. rewrite Forall_forall in Hrs. destruct (Hrs q Hq) as [[[Hq1 Hq2] _ _] _].
       rewrite HG by done. unfold served_first in Hsv. specialize (M5 _ _ Hq1 Hq2). lia. }
  rewrite L3 in L4. rewrite L2 in L4. split.
  - intros from (i & Hi & ->)%id_index. rewrite zsum_ids, (zsum_ext_in _ (amount n (granted_bandwidth s5) i)); [by apply R5|].
    intros j Hj%elem_of_indexes. by apply HG.
  - intros to (i & Hi & ->)%id_index. rewrite zsum_ids, (zsum_ext_in _ (fun f => amount n (granted_bandwidth s5) f i)); [by apply C5|].
    intros j Hj%elem_of_indexes. by apply HG.
  - intros from to Hf Ht. rewrite HG by done. destruct (permits layout _ from to) eqn:Ep.
    + specialize (B3 from to Hf Ht). rewrite L3, L2, Ep in B3.
      rewrite bool_decide_eq_true_2 in B3 by (by apply iter_links_valid). simpl in B3.
      specialize (M4 _ _ Hf Ht). specialize (M5 _ _ Hf Ht). lia.
    + unfold amount. destruct (at_link n (granted_bandwidth s5) from to) as [v|] eqn:Ea; [|done].
      exfalso. pose proof (F5 from to Hf Ht ltac:(by rewrite Ea)) as Hp. rewrite L5, L4, Ep in Hp. done.
Qed.
(* ------------------------------------------------------------------ *)
(** *** The start of a run *)

Lemma index_of_id id i : get_shard_index layout id = Ok i -> in_range n i /\ id = idz i.
Proof using Hlayout. intros [Hi E]%(ix_index _ Hlayout). split; [done|]. unfold idz. by rewrite E. Qed.

Lemma index_of_idz i : in_range n i -> get_shard_index layout (idz i) = Ok i.
Proof using Hlayout.
  intros Hi. apply (ix_index _ Hlayout). split; [done|]. destruct (ix_id _ Hlayout i Hi) as (id & _ & E).
  unfold idz. by rewrite E.
Qed.

Lemma load_allowances_spec l : Forall (fun a => 0 <= la_allowance a) l ->
  exists m, load_allowances layout l = Ok m /\ lm_ok n m /\ amounts_nonneg n m.
Proof using Hlayout.
  intros Hl. pose proof (ix_num _ Hlayout) as Hnum. destruct (lm_new_ok (T:=Z) n) as [Hnew Hnone]; [lia|].
  apply (for_each_keeps (fun m => lm_ok n m /\ amounts_nonneg n m)).
  { split; [done|]. by apply empty_sums. }
  intros a m Ha [Hm Hnn]. rewrite Forall_forall in Hl. specialize (Hl a Ha).
  destruct (get_shard_index layout (la_sender a)) as [from| |] eqn:E1; [|by exists m..].
  destruct (get_shard_index layout (la_receiver a)) as [to| |] eqn:E2; [|by exists m..].
  apply index_of_id in E1 as [Hf _], E2 as [Ht _].
  destruct (lm_insert_spec n m (mkLink from to) (la_allowance a) Hm) as (m' & E & Hm' & Hat); [done|].
  exists m'. split; [done|]. split; [done|]. eapply nonneg_updated; [exact Hat|done|done].
Qed.

(** The status of a shard, by its index. *)
Definition status_of (statuses : list (Z * ShardStatus)) (i : Z) : option ShardStatus :=
  (list_to_map statuses : gmap Z ShardStatus) !! idz i.

Lemma status_snoc seen id st i : id ∉ map fst seen ->
  status_of (seen ++ [(id, st)]) i = if decide (idz i = id) then Some st else status_of seen i.
Proof.
  intros Hnew. unfold status_of. rewrite list_to_map_app. simpl. rewrite lookup_union.
  change (insert id st ∅ : gmap Z ShardStatus) with (<[id := st]> ∅ : gmap Z ShardStatus).
  case_decide as Hd.
  - subst id. rewrite lookup_insert_eq, not_elem_of_list_to_map_1 by done. done.
  - rewrite lookup_insert_ne, lookup_empty by done. by destruct (list_to_map seen !! idz i).
Qed.

Lemma load_statuses_spec statuses : NoDup (map fst statuses) ->
  exists m, load_statuses layout statuses = Ok m /\ im_ok n m
    /\ forall i, in_range n i -> at_index m i = status_of statuses i.
Proof using Hlayout.
  intros Hnd. pose proof (ix_num _ Hlayout) as Hnum. destruct (im_new_ok (T:=ShardStatus) n) as [Hnew Hnone]; [lia|].
  destruct (for_each_inv (fun seen m => im_ok n m /\ forall i, in_range n i -> at_index m i = status_of seen i)
    (fun '(shard_id, status) m => match get_shard_index layout shard_id with
       | Ok idx => im_insert idx status m | _ => Ok m end) statuses (im_new n)) as (m & E & Hm & Hat); [done| |by exists m].
  intros seen [id st] rest m Es [Hm Hat].
  assert (id ∉ map fst seen) as Hfresh.
  { rewrite Es, map_app in Hnd. apply NoDup_app in Hnd as (_ & Hd & _). intros Hin. apply (Hd _ Hin). left. }
  destruct (get_shard_index layout id) as [k| |] eqn:Ek.
  - apply index_of_id in Ek as [Hk ->]. destruct (im_insert_spec n m k st Hm Hk) as (m' & E & Hm' & Hat').
    exists m'. split; [done|]. split; [done|]. intros i Hi. rewrite Hat', status_snoc by done.
    destruct (decide (i = k)) as [->|Hne]; [by rewrite decide_True|].
    rewrite decide_False; [by apply Hat|]. intros E'. by apply idz_inj in E'.
  - exists m. split; [done|]. split; [done|]. intros i Hi. rewrite status_snoc by done.
    rewrite decide_False; [by apply Hat|]. intros <-. rewrite index_of_idz in Ek by done. done.
  - exists m. split; [done|]. split; [done|]. intros i Hi. rewrite status_snoc by done.
    rewrite decide_False; [by apply Hat|]. intros <-. rewrite index_of_idz in Ek by done. done.
Qed.

(** Whether receipts may be sent from one shard to another: the receiver is known and took
    its last chunk, the sender is not known to have missed its own, and a congested
    receiver has chosen the sender. *)
Definition may_send (statuses : list (Z * ShardStatus)) (from to : Z) : bool :=
  match status_of statuses to with
  | None => false
  | Some st =>
      negb (last_chunk_missing st)
      && negb (match status_of statuses from with Some st' => last_chunk_missing st' | None => false end)
      && (negb (is_fully_congested st) || bool_decide (Some from = allowed_sender_shard_index st))
  end.

Lemma load_links_spec statuses m : im_ok n m -> (forall i, in_range n i -> at_index m i = status_of statuses i) ->
  exists links, load_allowed_links layout m = Ok links /\ lm_ok n links
    /\ forall from to, in_range n from -> in_range n to -> permits layout links from to = may_send statuses from to.
Proof using Hlayout.
  intros Hm Hat. pose proof (ix_num _ Hlayout) as Hnum. unfold load_allowed_links.
  destruct (fill_links_spec layout (fun link m' =>
      let? allowed := calculate_is_link_allowed (sender link) (receiver link) m in lm_insert link allowed m')
    (fun l => may_send statuses (sender l) (receiver l)) (lm_new n)) as (links & E & Hl & Hal).
  - apply lm_new_ok. lia.
  - intros [from to] m' [Hf Ht] _. simpl in *. unfold calculate_is_link_allowed.
    rewrite (im_get_spec n), Hat by done. simpl. unfold may_send.
    destruct (status_of statuses to) as [st|]; [|done]. destruct (last_chunk_missing st); [done|].
    rewrite (im_get_spec n), Hat by done. simpl.
    destruct (match status_of statuses from with Some st' => last_chunk_missing st' | None => false end); [done|].
    by destruct (is_fully_congested st).
  - exists links. split; [done|]. split; [done|]. intros from to Hf Ht. unfold permits. by rewrite Hal.
Qed.

Lemma try_map_total {A B} (f : A -> result B unit) (P : B -> Prop) l :
  (forall a, a ∈ l -> exists b, f a = Ok b /\ P b) ->
  exists bs, try_map f l = Ok bs /\ length bs = length l /\ Forall P bs.
Proof.
  induction l as [|a l IH]; intros H; simpl; [by exists []|].
  destruct (H a) as (b & E & Hb); [left|]. rewrite E. simpl.
  destruct IH as (bs & Es & Hlen & Hbs); [intros c Hc; apply H; by right|]. rewrite Es. simpl.
  exists (b :: bs). split; [done|]. split; [simpl; congruence|by constructor].
Qed.

Lemma values_spec : exists vs, request_values params = Ok vs /\ length vs = 40%nat
  /\ Forall (fun v => v <= max_single_grant params) vs.
Proof using Hparams.
  pose proof Hparams as [Hb [_ Hs] Hv _].
  destruct (try_map_total (fun i => interpolate (base_bandwidth params) (max_single_grant params) (Z.of_nat i + 1)
    (Z.of_nat BANDWIDTH_REQUEST_VALUES_NUM)) (fun v => v <= max_single_grant params) (seq 0 BANDWIDTH_REQUEST_VALUES_NUM))
    as (vs & E & Hlen & Hvs); [|exists vs; by rewrite Hlen].
  intros i [_ Hi]%elem_of_seq. unfold BANDWIDTH_REQUEST_VALUES_NUM in *. simpl in Hi.
  set (d := max_single_grant params - base_bandwidth params).
  assert (0 <= d * (Z.of_nat i + 1) <= d * 40) as Hd by nia.
  assert (0 <= d * (Z.of_nat i + 1) / 40 <= d) as Hq.
  { split; [apply Z.div_pos; lia|]. apply Z.div_le_upper_bound; lia. }
  unfold interpolate, sub_or_panic, mul_or_panic, add_or_panic, checked_sub, checked_mul, checked_add.
  rewrite (proj2 (Z.leb_le (base_bandwidth params) _)) by lia. simpl. fold d.
  rewrite (proj2 (Z.leb_le (d * _) u64_max)) by lia. simpl. change (Z.of_nat 40) with 40.
  rewrite (proj2 (Z.leb_le _ u64_max)) by (unfold u64_max in *; lia). simpl. eexists. split; [done|]. lia.
Qed.

(** The increases are positive, and reach at most the greatest value. *)
Lemma increases_spec bitmap vs : length bitmap = 5%nat -> forall idx cur, (idx + length vs <= 40)%nat ->
  exists l, increases_from bitmap vs idx cur = Ok l /\ Forall (fun b => 0 < b) l
    /\ (Forall (fun v => v <= max_single_grant params) vs -> cur <= max_single_grant params ->
         cur + zsum id l <= max_single_grant params).
Proof.
  intros Hbm. induction vs as [|v vs IH]; intros idx cur Hlen; simpl.
  { exists []. split; [done|]. split; [constructor|]. unfold zsum. simpl. lia. }
  simpl in Hlen. unfold get_bit. rewrite (proj2 (Nat.ltb_lt _ _)) by (unfold BANDWIDTH_REQUEST_VALUES_NUM; lia).
  destruct (lookup_lt_is_Some_2 bitmap (idx / 8)) as [byte Eb].
  { rewrite Hbm. apply Nat.Div0.div_lt_upper_bound. lia. }
  rewrite Eb. simpl. destruct (negb _ || _) eqn:Ec.
  - destruct (IH (S idx) cur) as (l & E & Hl & Hs); [lia|]. exists l. split; [done|]. split; [done|].
    intros Hv. apply Forall_cons in Hv as [_ Hv]. auto.
  - apply orb_false_iff in Ec as [_ Hv%Z.leb_gt]. unfold sub_or_panic, checked_sub.
    rewrite (proj2 (Z.leb_le cur v)) by lia. simpl.
    destruct (IH (S idx) v) as (l & E & Hl & Hs); [lia|]. rewrite E. simpl. eexists. split; [done|].
    split; [constructor; [lia|done]|]. intros Hvs _. apply Forall_cons in Hvs as [Hv1 Hv2].
    rewrite zsum_cons. unfold id at 1. specialize (Hs Hv2 Hv1). lia.
Qed.

Definition bitmap_ok (r : BandwidthRequest) : Prop := length (requested_values_bitmap r) = 5%nat.

Lemma scheduler_request_spec id r : bitmap_ok r ->
  exists o, scheduler_request id r params layout = Ok o /\ forall q, o = Some q -> modest q.
Proof using Hlayout Hparams.
  intros Hr. unfold scheduler_request.
  destruct (get_shard_index layout id) as [from| |] eqn:E1; [|by exists None..].
  destruct (get_shard_index layout (br_to_shard r)) as [to| |] eqn:E2; [|by exists None..].
  apply index_of_id in E1 as [Hf _], E2 as [Ht _].
  destruct values_spec as (vs & Ev & Hlen & Hvs). rewrite Ev. simpl.
  destruct (increases_spec (requested_values_bitmap r) vs Hr 0 (base_bandwidth params)) as (l & E & Hl & Hsum); [lia|].
  rewrite E. simpl. destruct l as [|b l]; [by exists None|]. eexists. split; [done|]. intros q [= <-].
  assert (Forall (fun b => 0 <= b) (b :: l)) as Hnn by (eapply Forall_impl; [exact Hl|]; simpl; lia).
  split; [split; done|]. simpl. specialize (Hsum Hvs ltac:(apply Hparams)). rewrite zsum_cons in Hsum.
  apply Forall_cons in Hnn as [_ Hnn]. assert (0 <= zsum Datatypes.id l) by (by apply zsum_nonneg). unfold Datatypes.id at 1 in Hsum. lia.
Qed.

Lemma load_requests_spec (requests : list (Z * list BandwidthRequest)) :
  Forall (fun p => Forall bitmap_ok p.2) requests ->
  exists l, load_requests layout params requests = Ok l /\ Forall modest l.
Proof using Hlayout Hparams.
  intros Hr. apply (for_each_keeps (Forall modest)); [constructor|].
  intros [from l] acc Hin Hacc. rewrite Forall_forall in Hr. specialize (Hr _ Hin). simpl in Hr.
  apply (for_each_keeps (Forall modest)); [done|]. intros r acc' Hr' Hacc'.
  rewrite Forall_forall in Hr. destruct (scheduler_request_spec from r (Hr _ Hr')) as (o & E & Hq).
  rewrite E. simpl. eexists. split; [done|]. destruct o as [q|]; [|done].
  apply Forall_app. split; [done|]. apply Forall_singleton. auto.
Qed.

Lemma run_spec from_seed allowances requests statuses seed :
  Forall (fun a => 0 <= la_allowance a) allowances -> Forall (fun p => Forall bitmap_ok p.2) requests ->
  NoDup (map fst statuses) ->
  exists G allowances' links, run from_seed shuffle layout params allowances requests statuses seed = Ok (G, allowances')
    /\ outcome_ok links G /\ Forall allowance_ok allowances'
    /\ (forall from to, in_range n from -> in_range n to -> permits layout links from to = may_send statuses from to)
    /\ exists rs, load_requests layout params requests = Ok rs
      /\ ((exists r, r ∈ rs /\ may_send statuses (sender (sr_link r)) (receiver (sr_link r)) = true) ->
          exists r, r ∈ rs /\ may_send statuses (sender (sr_link r)) (receiver (sr_link r)) = true
            /\ base_bandwidth params + hd 0 (bandwidth_increases r)
               <= get_granted_bandwidth G (idz (sender (sr_link r))) (idz (receiver (sr_link r)))).
Proof using Hlayout Hparams Hshuffle.
  intros Ha Hr Hst. unfold run. pose proof (ix_num _ Hlayout) as Hnum. rewrite (proj2 (Z.eqb_neq n 0)) by lia.
  destruct (load_allowances_spec _ Ha) as (am & E1 & Ham & Hnn). rewrite E1. simpl.
  destruct (load_statuses_spec _ Hst) as (sm & E2 & Hsm & Hat). rewrite E2. simpl.
  destruct (load_links_spec statuses sm Hsm Hat) as (links & E3 & Hl & Hp). rewrite E3. simpl.
  destruct (load_requests_spec _ Hr) as (rs & E4 & Hrs). rewrite E4. simpl.
  set (s := mkScheduler _ _ _ _ _ _). assert (start_ok s) as Hs.
  { destruct (lm_new_ok (T:=Z) n) as [Hnew Hnone]; [lia|]. split; simpl; try done; apply im_new_ok; lia. }
  destruct (schedule_spec rs s Hs Hrs) as (G & s' & E5 & HG & [Ha' Hr'] & Hprog). rewrite E5. simpl.
  destruct (update_state_spec s' Ha' Hr') as (l & E6 & Hl'). rewrite E6. simpl. exists G, l, links.
  split_and!; try done. exists rs. split; [done|].
  assert (forall r, r ∈ rs -> permits layout links (sender (sr_link r)) (receiver (sr_link r))
    = may_send statuses (sender (sr_link r)) (receiver (sr_link r))) as Heq.
  { intros r Hin. rewrite Forall_forall in Hrs. destruct (Hrs r Hin) as [[[H1 H2] _ _] _]. by apply Hp. }
  intros (r & Hin & Hop). unfold on_open_link in Hprog. simpl in Hprog.
  destruct Hprog as (q & Hq & Hqo & Hle); [exists r; by rewrite Heq|]. exists q. rewrite <- Heq by done. done.
Qed.
End scheduler.

(* ------------------------------------------------------------------ *)
(** ** The limits of a run *)

(** C12. For a layout whose identifiers and indices agree and parameters that satisfy what
    [calculate] establishes, whatever the stored allowances, the requests, the statuses
    of the shards and the choices of the shuffle, [run] returns: no index is out of
    range, no arithmetic overflows and the loop over the requests ends.  No shard is
    granted more than [max_shard_bandwidth] in total as a sender, nor as a receiver.  A
    link on which receipts may be sent gets at least the base bandwidth, every other
    link nothing.  The allowances kept for the next height are between 0 and
    [max_allowance]. *)
Theorem scheduler_within_limits {Rng : Type} (from_seed : list Z -> Rng)
    (shuffle : list SchedulerBandwidthRequest -> Rng -> list SchedulerBandwidthRequest * Rng)
    (layout : ShardLayout) (params : BandwidthSchedulerParams)
    (allowances : list LinkAllowance) (requests : list (Z * list BandwidthRequest))
    (statuses : list (Z * ShardStatus)) (seed : list Z) :
  (forall l g, (shuffle l g).1 ≡ₚ l) ->
  indexed layout -> params_ok (num_shards layout) params ->
  Forall (fun a => 0 <= la_allowance a) allowances ->
  Forall (fun p => Forall bitmap_ok p.2) requests ->
  NoDup (map fst statuses) ->
  exists granted allowances',
    run from_seed shuffle layout params allowances requests statuses seed = Ok (granted, allowances')
    /\ (forall from, from ∈ shard_ids layout ->
          zsum (get_granted_bandwidth granted from) (shard_ids layout) <= max_shard_bandwidth params)
    /\ (forall to, to ∈ shard_ids layout ->
          zsum (fun from => get_granted_bandwidth granted from to) (shard_ids layout) <= max_shard_bandwidth params)
    /\ (forall i j from to, get_shard_id layout i = Ok from -> get_shard_id layout j = Ok to ->
          in_range (num_shards layout) i -> in_range (num_shards layout) j ->
          if may_send layout statuses i j then base_bandwidth params <= get_granted_bandwidth granted from to
          else get_granted_bandwidth granted from to = 0)
    /\ Forall (fun a => 0 <= la_allowance a <= max_allowance params) allowances'.
Proof.
  intros Hsh Hl Hp Ha Hr Hst.
  destruct (run_spec shuffle layout params Hl Hp Hsh from_seed allowances requests statuses seed Ha Hr Hst)
    as (G & a' & links & E & [H1 H2 H3] & Ha' & Hperm & _).
  exists G, a'. split; [done|]. split; [done|]. split; [done|]. split; [|done].
  intros i j from to Ei Ej Hi Hj. specialize (H3 i j Hi Hj). rewrite Hperm in H3 by done.
  destruct (ix_id _ Hl i Hi) as (? & Ei' & Li). destruct (ix_id _ Hl j Hj) as (? & Ej' & Lj).
  rewrite Ei in Ei'. rewrite Ej in Ej'. injection Ei' as <-. injection Ej' as <-.
  unfold idz in H3. by rewrite Li, Lj in H3.
Qed.

(** What the requests of the block became. *)
Lemma collect_elem {A B} (f : A -> result (option B) unit) l : forall acc acc',
  for_each (fun a acc => let? o := f a in Ok (match o with Some b => acc ++ [b] | None => acc end)) l acc = Ok acc' ->
  forall b, b ∈ acc' <-> b ∈ acc \/ exists a, a ∈ l /\ f a = Ok (Some b).
Proof.
  induction l as [|a l IH]; intros acc acc' H b; simpl in H.
  { injection H as <-. set_solver. }
  apply rbind_Ok in H as (acc1 & E & H). apply rbind_Ok in E as (o & Eo & E). injection E as <-.
  rewrite (IH _ _ H). transitivity ((b ∈ acc \/ o = Some b) \/ exists a, a ∈ l /\ f a = Ok (Some b)).
  { destruct o as [b'|]; [rewrite elem_of_app, list_elem_of_singleton|]; naive_solver. }
  split.
  - intros [[?| ->]|(x & Hx & E)]; [by left|right; exists a; split; [left|done]|right; exists x; split; [by right|done]].
  - intros [?|(x & [->|Hx]%elem_of_cons & E)]; [by left; left|left; right; congruence|right; by exists x].
Qed.

Lemma load_requests_elem layout params requests rs : load_requests layout params requests = Ok rs ->
  forall r, r ∈ rs <-> exists from l q, (from, l) ∈ requests /\ q ∈ l
    /\ scheduler_request from q params layout = Ok (Some r).
Proof.
  unfold load_requests. intros H r. enough (forall acc rs,
    for_each (fun '(sender_shard, l) acc => for_each (fun request acc =>
          let? o := scheduler_request sender_shard request params layout in
          Ok (match o with Some r => acc ++ [r] | None => acc end)) l acc) requests acc = Ok rs ->
    r ∈ rs <-> r ∈ acc \/ exists from l q, (from, l) ∈ requests /\ q ∈ l
      /\ scheduler_request from q params layout = Ok (Some r)) as Hall.
  { rewrite (Hall [] rs H). set_solver. }
  clear H rs. induction requests as [|[from l] requests IH]; intros acc rs H; simpl in H.
  { injection H as <-. set_solver. }
  apply rbind_Ok in H as (acc1 & E & H). rewrite (IH _ _ H). pose proof (collect_elem _ _ _ _ E r) as Hc.
  rewrite Hc. split.
  - intros [[?|(q & Hq & E')]|(f & l' & q & Hin & Hq & E')]; [by left|right..].
    + exists from, l, q. split; [left|done].
    + exists f, l', q. split; [by right|done].
  - intros [?|(f & l' & q & Hin & Hq & E')]; [by left; left|].
    apply elem_of_cons in Hin as [[= -> ->]|Hin]; [left; right; by exists q|right; by exists f, l', q].
Qed.

(** C33. Requests cannot starve as a whole: when some request of the block is for a link on
    which receipts may be sent and asks for more than the base bandwidth, then at this
    height at least one such request is granted the lowest value it asks for, whatever
    the allowances and the shuffle. *)
Theorem scheduler_progress {Rng : Type} (from_seed : list Z -> Rng)
    (shuffle : list SchedulerBandwidthRequest -> Rng -> list SchedulerBandwidthRequest * Rng)
    (layout : ShardLayout) (params : BandwidthSchedulerParams)
    (allowances : list LinkAllowance) (requests : list (Z * list BandwidthRequest))
    (statuses : list (Z * ShardStatus)) (seed : list Z)
    (sender_shard : Z) (l : list BandwidthRequest) (q : BandwidthRequest) (r : SchedulerBandwidthRequest) :
  (forall l g, (shuffle l g).1 ≡ₚ l) ->
  indexed layout -> params_ok (num_shards layout) params ->
  Forall (fun a => 0 <= la_allowance a) allowances ->
  Forall (fun p => Forall bitmap_ok p.2) requests ->
  NoDup (map fst statuses) ->
  (sender_shard, l) ∈ requests -> q ∈ l ->
  scheduler_request sender_shard q params layout = Ok (Some r) ->
  may_send layout statuses (sender (sr_link r)) (receiver (sr_link r)) = true ->
  exists granted allowances' from l' q' r',
    run from_seed shuffle layout params allowances requests statuses seed = Ok (granted, allowances')
    /\ (from, l') ∈ requests /\ q' ∈ l'
    /\ scheduler_request from q' params layout = Ok (Some r')
    /\ may_send layout statuses (sender (sr_link r')) (receiver (sr_link r')) = true
    /\ exists to, get_shard_index layout from = Ok (sender (sr_link r'))
      /\ get_shard_index layout to = Ok (receiver (sr_link r'))
      /\ base_bandwidth params + hd 0 (bandwidth_increases r') <= get_granted_bandwidth granted from to.
Proof.
  intros Hsh Hl Hp Ha Hr Hst Hin Hq Er Hsend.
  destruct (run_spec shuffle layout params Hl Hp Hsh from_seed allowances requests statuses seed Ha Hr Hst)
    as (G & a' & links & E & _ & _ & _ & rs & Ers & Hprog).
  pose proof (load_requests_elem _ _ _ _ Ers) as Helem.
  destruct Hprog as (r' & Hr' & Hs' & Hle).
  { exists r. split; [|done]. apply Helem. by exists sender_shard, l, q. }
  apply Helem in Hr' as (from & l' & q' & Hin' & Hq' & Er').
  exists G, a', from, l', q', r'. split_and!; try done.
  unfold scheduler_request in Er'. destruct (get_shard_index layout from) as [i| |] eqn:Ei; [|done..].
  destruct (get_shard_index layout (br_to_shard q')) as [j| |] eqn:Ej; [|done..].
  exists (br_to_shard q'). rewrite Ej.
  apply rbind_Ok in Er' as (vs & _ & Er'). apply rbind_Ok in Er' as (inc & _ & Er').
  destruct inc as [|b inc]; [done|]. injection Er' as <-. simpl in *.
  apply (index_of_id layout Hl) in Ei as [Hi ->]. apply (index_of_id layout Hl) in Ej as [Hj Ej].
  rewrite Ej. done.
Qed.

(* ------------------------------------------------------------------ *)
(** ** Examples *)

Definition sample_ids : list Z := [4; 0; 7].

Definition sample_shards : ShardLayout :=
  LayoutV2 (mkLayoutV2 ["g"; "p"] sample_ids (index_ids 0 sample_ids ∅) (ids_by_index 0 sample_ids ∅) None None 3).

Definition sample_params : BandwidthSchedulerParams := mkBandwidthParams 100000 4500000 4194304 4194304 4500000.

Lemma sample_indexed : indexed sample_shards.
Proof.
  apply (built_indexed _ sample_ids); [left; by eexists| |done].
  repeat (apply NoDup_cons; split); [set_solver..|]. apply NoDup_nil. done.
Qed.

Lemma sample_params_ok : params_ok (num_shards sample_shards) sample_params.
Proof. by split. Qed.

Lemma sample_params_calculated : calculate 4500000 4194304 4500000 100000 4194304 3 = Ok sample_params.
Proof. reflexivity. Qed.

Lemma scheduler_within_limits_witness :
  exists granted allowances',
    run (fun _ => tt) (fun l g => (rev l, g)) sample_shards sample_params [mkLinkAllowance 4 7 2000000]
      [(4, [mkBandwidthRequest 7 [0; 0; 0; 0; 128]]); (0, [mkBandwidthRequest 7 [0; 0; 0; 0; 128]])]
      [(0, mkShardStatus false false None); (4, mkShardStatus false true None); (7, mkShardStatus false false None)] []
    = Ok (granted, allowances')
    /\ (forall from, from ∈ shard_ids sample_shards ->
          zsum (get_granted_bandwidth granted from) (shard_ids sample_shards) <= max_shard_bandwidth sample_params)
    /\ (forall to, to ∈ shard_ids sample_shards ->
          zsum (fun from => get_granted_bandwidth granted from to) (shard_ids sample_shards)
          <= max_shard_bandwidth sample_params)
    /\ (forall i j from to, get_shard_id sample_shards i = Ok from -> get_shard_id sample_shards j = Ok to ->
          in_range (num_shards sample_shards) i -> in_range (num_shards sample_shards) j ->
          if may_send sample_shards
               [(0, mkShardStatus false false None); (4, mkShardStatus false true None);
                (7, mkShardStatus false false None)] i j
          then base_bandwidth sample_params <= get_granted_bandwidth granted from to
          else get_granted_bandwidth granted from to = 0)
    /\ Forall (fun a => 0 <= la_allowance a <= max_allowance sample_params) allowances'.
Proof.
  apply (scheduler_within_limits (fun _ => tt) (fun l g => (rev l, g)) sample_shards sample_params).
  - intros l g. symmetry. apply Permutation_rev.
  - apply sample_indexed.
  - apply sample_params_ok.
  - by repeat constructor.
  - by repeat constructor.
  - repeat (apply NoDup_cons; split); [set_solver..|]. apply NoDup_nil. done.
Defined.

Lemma scheduler_progress_witness :
  exists granted allowances' from l' q' r',
    run (fun _ => tt) (fun l g => (rev l, g)) sample_shards sample_params []
      [(4, [mkBandwidthRequest 7 [0; 0; 0; 0; 128]])]
      [(0, mkShardStatus false false None); (4, mkShardStatus false false None);
       (7, mkShardStatus true false (Some 0))] []
    = Ok (granted, allowances')
    /\ (from, l') ∈ [(4, [mkBandwidthRequest 7 [0; 0; 0; 0; 128]])] /\ q' ∈ l'
    /\ scheduler_request from q' sample_params sample_shards = Ok (Some r')
    /\ may_send sample_shards
         [(0, mkShardStatus false false None); (4, mkShardStatus false false None);
          (7, mkShardStatus true false (Some 0))] (sender (sr_link r')) (receiver (sr_link r')) = true
    /\ exists to, get_shard_index sample_shards from = Ok (sender (sr_link r'))
      /\ get_shard_index sample_shards to = Ok (receiver (sr_link r'))
      /\ base_bandwidth sample_params + hd 0 (bandwidth_increases r') <= get_granted_bandwidth granted from to.
Proof.
  apply (scheduler_progress (fun _ => tt) (fun l g => (rev l, g)) sample_shards sample_params [] _ _ []
           4 [mkBandwidthRequest 7 [0; 0; 0; 0; 128]] (mkBandwidthRequest 7 [0; 0; 0; 0; 128])
           (mkSchedulerRequest (mkLink 0 2) [4094304])).
  - intros l g. symmetry. apply Permutation_rev.
  - apply sample_indexed.
  - apply sample_params_ok.
  - constructor.
  - by repeat constructor.
  - repeat (apply NoDup_cons; split); [set_solver..|]. apply NoDup_nil. done.
  - left.
  - left.
  - vm_compute. reflexivity.
  - vm_compute. reflexivity.
Defined.
