(* ===== verification/Requests.v ===== *)
(** * What bandwidth requests ask for

    The request made for a buffer asks exactly for the predefined values that first cover
    the sizes of its prefixes above the base bandwidth; in particular for enough to send
    the first receipt. *)

From S2P Require Import Prelude Crates AccountId Primitives Fees ShardLayout Bandwidth BandwidthProofs Scheduler.

(** Bit [i] of a bitmap. *)
Definition bit (b : list Z) (i : nat) : bool :=
  match b !! (i / 8)%nat with Some byte => Z.testbit byte (Z.of_nat (i mod 8)) | None => false end.

Lemma get_bit_spec b i : length b = 5%nat -> (i < 40)%nat -> get_bit b i = Ok (bit b i).
Proof.
  intros Hb Hi. unfold get_bit, bit. rewrite (proj2 (Nat.ltb_lt _ _)) by done.
  destruct (lookup_lt_is_Some_2 b (i / 8)) as [byte ->]; [|done].
  rewrite Hb. apply Nat.Div0.div_lt_upper_bound. lia.
Qed.

Lemma set_byte byte k : is_byte byte -> 0 <= k < 8 -> is_byte (Z.setbit byte k).
Proof.
  unfold is_byte. intros Hb Hk. assert (0 <= Z.setbit byte k) as H0.
  { unfold Z.setbit. apply Z.lor_nonneg. split; [lia|]. apply Z.shiftl_nonneg. lia. }
  split; [done|]. destruct (Z.eq_dec (Z.setbit byte k) 0) as [->|Hne]; [lia|].
  assert (Z.setbit byte k < 2 ^ 8); [|lia]. apply Z.log2_lt_pow2; [lia|].
  unfold Z.setbit. rewrite Z.log2_lor by (apply Z.shiftl_nonneg || idtac; lia).
  apply Z.max_lub_lt.
  - destruct (Z.eq_dec byte 0) as [->|]; [done|]. apply Z.log2_lt_pow2; lia.
  - rewrite Z.shiftl_1_l, Z.log2_pow2 by lia. lia.
Qed.

Lemma zero_bits b : length b = 5%nat -> bytes_ok b ->
  is_all_zeros b = true <-> forall i, (i < 40)%nat -> bit b i = false.
Proof.
  intros Hb Hbytes. unfold is_all_zeros. rewrite bool_decide_eq_true. split.
  - intros -> i _. unfold bit, bitmap_new. destruct (replicate _ _ !! _) as [x|] eqn:E; [|done].
    apply lookup_replicate in E as [-> _]. apply Z.bits_0.
  - intros H. unfold bitmap_new. apply list_eq. intros j. destruct (decide (j < 5)%nat) as [Hj|Hj].
    + rewrite lookup_replicate_2 by done. destruct (lookup_lt_is_Some_2 b j) as [x Ex]; [lia|]. rewrite Ex. f_equal.
      rewrite Forall_lookup in Hbytes. specialize (Hbytes _ _ Ex). apply Z.bits_inj'. intros k Hk. rewrite Z.bits_0.
      destruct (Z.lt_ge_cases k 8) as [Hk8|Hk8].
      * specialize (H (j * 8 + Z.to_nat k)%nat ltac:(lia)). unfold bit in H.
        rewrite Nat.div_add_l, (Nat.div_small (Z.to_nat k)), Nat.add_0_r, Ex in H by lia.
        rewrite Nat.add_comm, Nat.Div0.mod_add, Nat.mod_small, Z2Nat.id in H by lia. done.
      * apply Z.bits_above_log2; [apply Hbytes|]. unfold is_byte in Hbytes. destruct (Z.eq_dec x 0) as [->|]; [simpl; lia|].
        assert (Z.log2 x < 8); [|lia]. apply Z.log2_lt_pow2; lia.
    + rewrite !lookup_ge_None_2; [done| |]; [rewrite length_replicate; unfold BANDWIDTH_REQUEST_BITMAP_SIZE; lia|lia].
Qed.

Lemma set_bit_spec b i : length b = 5%nat -> (i < 40)%nat ->
  exists b', set_bit b i true = Ok b' /\ length b' = 5%nat /\ (bytes_ok b -> bytes_ok b')
    /\ forall j, bit b' j = bool_decide (j = i) || bit b j.
Proof.
  intros Hb Hi. unfold set_bit. rewrite (proj2 (Nat.ltb_lt _ _)) by done.
  assert (i / 8 < length b)%nat as Hlt by (rewrite Hb; apply Nat.Div0.div_lt_upper_bound; lia).
  destruct (lookup_lt_is_Some_2 b (i / 8) Hlt) as [byte E]. rewrite E. cbn [unwrap rbind].
  eexists. split; [done|]. split; [by rewrite length_insert|]. split.
  { intros Hbytes. apply Forall_insert; [done|]. rewrite Forall_lookup in Hbytes.
    apply set_byte; [by eapply Hbytes|]. pose proof (Nat.mod_upper_bound i 8). lia. }
  intros j. unfold bit.
  pose proof (Nat.div_mod_eq i 8) as Ei. pose proof (Nat.div_mod_eq j 8) as Ej.
  destruct (decide ((j / 8)%nat = (i / 8)%nat)) as [Hd|Hd].
  - rewrite Hd, list_lookup_insert_eq, E by done. rewrite Z.setbit_eqb by lia.
    destruct (decide (j = i)) as [->|Hne].
    + rewrite Z.eqb_refl. by rewrite bool_decide_eq_true_2.
    + rewrite (bool_decide_eq_false_2 (j = i)) by done. rewrite (proj2 (Z.eqb_neq _ _)); [done|].
      intros Heq%Nat2Z.inj. apply Hne. by rewrite Ei, Ej, Hd, Heq.
  - rewrite list_lookup_insert_ne by done. rewrite (bool_decide_eq_false_2 (j = i)); [done|]. by intros ->.
Qed.

(** The first value that is at least [t]. *)
Definition covers (values : list Z) (t : Z) (i : nat) : Prop :=
  (exists v, values !! i = Some v /\ t <= v) /\ forall j v, (j < i)%nat -> values !! j = Some v -> v < t.

Lemma find_value_spec values t fuel : forall cur, (cur <= length values)%nat -> (length values - cur <= fuel)%nat ->
  (forall j v, (j < cur)%nat -> values !! j = Some v -> v < t) ->
  let i := find_value fuel values t cur in
  (cur <= i <= length values)%nat /\ (forall j v, (j < i)%nat -> values !! j = Some v -> v < t)
  /\ (i < length values -> covers values t i)%nat.
Proof.
  induction fuel as [|fuel IH]; intros cur Hcur Hfuel Hlt; simpl.
  { split; [lia|]. split; [done|]. lia. }
  destruct (values !! cur) as [v|] eqn:Ev.
  - pose proof (lookup_lt_Some _ _ _ Ev). destruct (Z.ltb_spec v t) as [Hv|Hv].
    + destruct (IH (S cur)) as (H1 & H2 & H3); [lia|lia| |split; [lia|done]].
      intros j u Hj Hu. destruct (decide (j = cur)) as [->|Hne]; [congruence|]. apply (Hlt j); [lia|done].
    + split; [lia|]. split; [done|]. intros _. split; [by exists v|done].
  - apply lookup_ge_None in Ev. split; [lia|]. split; [done|]. lia.
Qed.

Lemma covers_unique values t i j : covers values t i -> covers values t j -> i = j.
Proof.
  intros [(v & Hv & Hle) Hlt] [(u & Hu & Hle') Hlt'].
  destruct (Nat.lt_trichotomy i j) as [H|[H|H]]; [|done|].
  - specialize (Hlt' _ _ H Hv). lia.
  - specialize (Hlt _ _ H Hu). lia.
Qed.

Section marks.
Context {E : Type} (params : BandwidthSchedulerParams) (values : list Z).
Lemma zsum_id_cons (x : Z) l : zsum id (x :: l) = x + zsum id l.
Proof. done. Qed.

(** The prefixes of the buffer that are above the base bandwidth and can be covered. *)
Definition asked (total : Z) (sizes : list Z) (i : nat) : Prop :=
  exists k, (0 < k <= length sizes)%nat /\ let t := total + zsum id (take k sizes) in
    base_bandwidth params < t /\ covers values t i.

Lemma asked_cons total size sizes i :
  asked total (size :: sizes) i <->
  (base_bandwidth params < total + size /\ covers values (total + size) i) \/ asked (total + size) sizes i.
Proof.
  unfold asked. split.
  - intros ([|k] & Hk & Hb & Hc); [lia|]. cbv zeta in Hb, Hc. cbn [take length] in Hk, Hb, Hc.
    rewrite zsum_id_cons, Z.add_assoc in Hb, Hc. destruct k as [|k]; [left|right].
    + rewrite take_0 in Hb, Hc. change (zsum id []) with 0 in Hb, Hc. by rewrite Z.add_0_r in Hb, Hc.
    + exists (S k). split; [lia|done].
  - intros [[Hb Hc]|(k & Hk & Hb & Hc)].
    + exists 1%nat. cbn [take length]. split; [lia|]. rewrite take_0, zsum_id_cons.
      change (zsum id []) with 0. by rewrite Z.add_0_r.
    + exists (S k). cbn [take length]. split; [lia|]. by rewrite zsum_id_cons, Z.add_assoc.
Qed.

Lemma asked_none total sizes i : Forall (fun v => 0 <= v) sizes ->
  (forall j v, values !! j = Some v -> v < total) -> ~ asked total sizes i.
Proof.
  intros Hs Hlt (k & _ & _ & (v & Hv & Hle) & _). specialize (Hlt _ _ Hv).
  assert (0 <= zsum id (take k sizes)); [|simpl in Hle; lia]. by apply zsum_nonneg, Forall_take.
Qed.

Hypothesis Hvalues : length values = 40%nat.

Lemma mark_sizes_spec sizes : forall total cur bitmap,
  Forall (fun v => 0 <= v) sizes -> 0 <= total -> total + zsum id sizes <= u64_max -> (cur <= 40)%nat ->
  length bitmap = 5%nat -> bytes_ok bitmap -> (forall j v, (j < cur)%nat -> values !! j = Some v -> v < total) ->
  exists b, mark_sizes (E:=E) params values (map Ok sizes) total cur bitmap = Ok b /\ length b = 5%nat /\ bytes_ok b
    /\ forall i, bit b i = true <-> bit bitmap i = true \/ asked total sizes i.
Proof using Hvalues.
  induction sizes as [|size sizes IH]; intros total cur bitmap Hs Ht Hfit Hcur Hbm Hby Hlt; simpl.
  { exists bitmap. split; [done|]. split; [done|]. split; [done|]. intros i. split; [by left|]. intros [?|(k & Hk & _)]; [done|simpl in Hk; lia]. }
  apply Forall_cons in Hs as [Hsize Hs]. rewrite zsum_id_cons in Hfit.
  assert (0 <= zsum id sizes) by (by apply zsum_nonneg).
  unfold add_or_panic, checked_add. rewrite (proj2 (Z.leb_le (total + size) _)) by lia. simpl.
  assert (forall j v, (j < cur)%nat -> values !! j = Some v -> v < total + size) as Hlt'.
  { intros j v Hj Hv. specialize (Hlt j v Hj Hv). lia. }
  setoid_rewrite asked_cons. destruct (Z.leb_spec (total + size) (base_bandwidth params)) as [Hbase|Hbase].
  - destruct (IH (total + size) cur bitmap) as (b & Eb & Hb & Hby' & Hbits); [done|lia|lia|done..|].
    exists b. split; [done|]. split; [done|]. split; [done|]. intros i. rewrite Hbits. naive_solver lia.
  - destruct (find_value_spec values (total + size) (length values) cur) as (Hi & Hlt2 & Hcov); [lia|lia|done|].
    set (i := find_value _ _ _ _) in *. destruct (Nat.eqb_spec i (length values)) as [Hend|Hend].
    + exists bitmap. split; [done|]. split; [done|]. split; [done|]. intros j. split; [by left|].
      assert (forall k v, values !! k = Some v -> v < total + size) as Hall.
      { intros k v Hk. apply (Hlt2 k v); [|done]. rewrite Hend. by eapply lookup_lt_Some. }
      intros [?|[[_ [(v & Hv & Hle) _]]|Hask]]; [done| |by apply asked_none in Hask].
      specialize (Hall _ _ Hv). lia.
    + destruct (set_bit_spec bitmap i Hbm) as (b1 & E1 & Hb1 & Hby1 & Hbits1); [lia|]. rewrite E1. simpl.
      destruct (IH (total + size) i b1) as (b & Eb & Hb & Hby' & Hbits); [done|lia|lia|lia|done|auto|done|].
      exists b. split; [done|]. split; [done|]. split; [done|]. intros j. rewrite Hbits, Hbits1, orb_true_iff, bool_decide_eq_true.
      assert (covers values (total + size) i) as Hc by (apply Hcov; lia).
      split; [|intros [?|[[_ Hj]|?]]; [by left; right| |by right]].
      * intros [[->|?]|?]; [right; left; by split|by left|by right; right].
      * left. left. by eapply covers_unique.
Qed.
End marks.

(** The first increase of a request comes from a bit of its bitmap. *)
Lemma increases_first bitmap vs : length bitmap = 5%nat -> forall idx cur l, (idx + length vs <= 40)%nat ->
  increases_from bitmap vs idx cur = Ok l ->
  match l with
  | [] => forall i v, vs !! i = Some v -> bit bitmap (idx + i) = true -> v <= cur
  | x :: _ => exists i v, vs !! i = Some v /\ bit bitmap (idx + i) = true /\ x = v - cur
  end.
Proof.
  intros Hb. induction vs as [|v vs IH]; intros idx cur l Hlen H; cbn [increases_from length] in H, Hlen.
  { injection H as <-. intros i v Hi. by rewrite lookup_nil in Hi. }
  rewrite get_bit_spec in H by (done || lia). cbn [rbind] in H.
  destruct (bit bitmap idx) eqn:Ebit; cbn [negb orb] in H.
  - destruct (Z.leb_spec v cur) as [Hv|Hv].
    + apply IH in H; [|lia]. destruct l as [|x l].
      * intros [|i] u Hu Hbit; [simpl in Hu; injection Hu as <-; done|]. simpl in Hu.
        replace (idx + S i)%nat with (S idx + i)%nat in Hbit by lia. by apply (H i u).
      * destruct H as (i & u & Hu & Hbit & ->). exists (S i), u.
        replace (idx + S i)%nat with (S idx + i)%nat by lia. done.
    + unfold sub_or_panic, checked_sub in H. rewrite (proj2 (Z.leb_le cur v)) in H by lia. cbn [unwrap rbind] in H.
      apply rbind_Ok in H as (rest & _ & H). injection H as <-. exists O, v. rewrite Nat.add_0_r. done.
  - apply IH in H; [|lia]. destruct l as [|x l].
    + intros [|i] u Hu Hbit; [rewrite Nat.add_0_r in Hbit; congruence|]. simpl in Hu.
      replace (idx + S i)%nat with (S idx + i)%nat in Hbit by lia. by apply (H i u).
    + destruct H as (i & u & Hu & Hbit & ->). exists (S i), u.
      replace (idx + S i)%nat with (S idx + i)%nat by lia. done.
Qed.

Lemma try_map_lookup {A B E} (f : A -> result B E) l : forall vs i x,
  try_map f l = Ok vs -> l !! i = Some x -> exists v, vs !! i = Some v /\ f x = Ok v.
Proof.
  induction l as [|a l IH]; intros vs i x H Hi; simpl in H; [done|].
  apply rbind_Ok in H as (b & Eb & H). apply rbind_Ok in H as (bs & Ebs & H). injection H as <-.
  destruct i as [|i]; simpl in Hi; [injection Hi as <-; by exists b|]. by apply (IH bs i x).
Qed.

(** The greatest value is the greatest grant of a request. *)
Lemma last_value params values : request_values params = Ok values ->
  values !! 39%nat = Some (max_single_grant params).
Proof.
  intros H. unfold request_values in H. destruct (try_map_lookup _ _ _ 39%nat 39%nat H) as (v & Hv & E); [done|].
  rewrite Hv. f_equal. unfold interpolate in E. apply rbind_Ok in E as (d & Ed & E). apply rbind_Ok in E as (p & Ep & E).
  unfold sub_or_panic, mul_or_panic, add_or_panic, checked_sub, checked_mul, checked_add in *.
  change (Z.of_nat BANDWIDTH_REQUEST_VALUES_NUM) with 40 in E. change (Z.of_nat 39 + 1) with 40 in Ep.
  destruct (_ <=? max_single_grant params); [|done]. simpl in Ed. injection Ed as <-.
  destruct (_ <=? u64_max) in Ep; [|done]. simpl in Ep. injection Ep as <-.
  destruct (_ <=? u64_max) in E; [|done]. simpl in E. injection E as <-. rewrite Z.div_mul by lia. lia.
Qed.

Lemma covered values t v i : values !! i = Some v -> t <= v -> exists j, covers values t j.
Proof.
  intros Hv Hle. pose proof (lookup_lt_Some _ _ _ Hv).
  destruct (find_value_spec values t (length values) 0) as (H1 & H2 & H3); [lia|lia|lia|].
  eexists. apply H3. destruct (decide (find_value (length values) values t 0 = length values)) as [E|]; [|lia].
  specialize (H2 i v). rewrite E in H2. specialize (H2 ltac:(done) Hv). lia.
Qed.

(** The request for a buffer. *)
Lemma request_spec {E} layout params to_shard sizes :
  params_ok (num_shards layout) params -> Forall (fun v => 0 <= v) sizes -> zsum id sizes <= u64_max ->
  exists values bitmap, request_values params = Ok values /\ length values = 40%nat
    /\ make_from_receipt_sizes (E:=E) to_shard (map Ok sizes) params
       = Ok (if is_all_zeros bitmap then None else Some (mkBandwidthRequest (to_shard mod 65536) bitmap))
    /\ length bitmap = 5%nat /\ bytes_ok bitmap
    /\ (forall i, bit bitmap i = true <-> asked params values 0 sizes i).
Proof.
  intros Hp Hs Hfit. destruct (values_spec _ _ Hp) as (values & Ev & Hlen & _).
  destruct (mark_sizes_spec (E:=E) params values Hlen sizes 0 0 bitmap_new) as (b & Eb & Hb & Hby & Hbits);
    [done|lia|lia|lia|done| |lia|].
  { apply Forall_replicate. unfold is_byte. lia. }
  exists values, b. split; [done|]. split; [done|]. split.
  { unfold make_from_receipt_sizes. rewrite Ev. cbn [no_error rbind]. rewrite Eb. cbn [rbind].
    by destruct (is_all_zeros b). }
  split; [done|]. split; [done|]. intros i. rewrite Hbits. split; [|by right]. intros [H|]; [|done]. exfalso.
  assert (is_all_zeros bitmap_new = true) as H0 by done. unfold bit in H.
  destruct (bitmap_new !! _) as [x|] eqn:Ex; [|done]. apply lookup_replicate in Ex as [-> _]. by rewrite Z.bits_0 in H.
Qed.

Lemma asked_in_range params values total sizes i : asked params values total sizes i -> (i < length values)%nat.
Proof. intros (k & _ & _ & (v & Hv & _) & _). by eapply lookup_lt_Some. Qed.

(** The bandwidth request of a shard says exactly what its buffer needs: for receipts of
    sizes that fit in a u64, the request has bit [i] exactly when value [i] is the first of the forty
    predefined values that covers the total size of some prefix of the buffer above the base
    bandwidth, and no request is made exactly when there is no such value. *)
Theorem request_exact {E : Type} (layout : ShardLayout) (params : BandwidthSchedulerParams) (to_shard : Z) (sizes : list Z) :
  params_ok (num_shards layout) params -> Forall (fun v => 0 <= v) sizes -> zsum id sizes <= u64_max ->
  exists values o, request_values params = Ok values
    /\ make_from_receipt_sizes (E:=E) to_shard (map Ok sizes) params = Ok o
    /\ match o with
       | None => forall i, ~ asked params values 0 sizes i
       | Some r => br_to_shard r = to_shard mod 65536 /\ bitmap_ok r
           /\ (exists i, asked params values 0 sizes i)
           /\ forall i, (i < 40)%nat -> exists b, get_bit (requested_values_bitmap r) i = Ok b
                /\ (b = true <-> asked params values 0 sizes i)
       end.
Proof.
  intros Hp Hs Hfit. destruct (request_spec (E:=E) layout params to_shard sizes Hp Hs Hfit)
    as (values & b & Ev & Hlen & Em & Hb & Hby & Hbits).
  pose proof (zero_bits b Hb Hby) as Hz. eexists values, _. split; [done|]. split; [done|].
  destruct (is_all_zeros b) eqn:Ez.
  - intros i Ha. pose proof (asked_in_range _ _ _ _ _ Ha) as Hi. apply Hbits in Ha.
    rewrite (proj1 Hz eq_refl i) in Ha by lia. done.
  - split; [done|]. split; [done|]. split.
    + destruct (decide (Forall (fun i => bit b i = false) (seq 0 40))) as [Hf|Hf].
      * exfalso. cut (false = true); [done|]. apply Hz. intros i Hi. rewrite Forall_forall in Hf. apply Hf, elem_of_seq. lia.
      * apply not_Forall_Exists, Exists_exists in Hf; [|intros k; apply _]. destruct Hf as (i & _ & Hi).
        exists i. apply Hbits. destruct (bit b i) eqn:E1; [done|by destruct Hi].
    + intros i Hi. exists (bit b i). split; [by apply get_bit_spec|apply Hbits].
Qed.

(** The receipt at the head of a buffer is asked for in full: when it is larger than the
    base bandwidth and not larger than the greatest single grant, the shard makes a request, the
    scheduler takes it up, and its first increase on top of the base bandwidth is already
    enough to send that receipt. *)
Theorem request_covers_first {E : Type} (layout : ShardLayout) (params : BandwidthSchedulerParams)
    (from_shard to_shard i j first : Z) (sizes : list Z) :
  params_ok (num_shards layout) params -> Forall (fun v => 0 <= v) sizes -> zsum id (first :: sizes) <= u64_max ->
  base_bandwidth params < first <= max_single_grant params -> 0 <= to_shard < 65536 ->
  get_shard_index layout from_shard = Ok i -> get_shard_index layout to_shard = Ok j ->
  exists request increase increases,
    make_from_receipt_sizes (E:=E) to_shard (map Ok (first :: sizes)) params = Ok (Some request)
    /\ scheduler_request from_shard request params layout
       = Ok (Some (mkSchedulerRequest (mkLink i j) (increase :: increases)))
    /\ first <= base_bandwidth params + increase <= max_single_grant params.
Proof.
  intros Hp Hs Hfit Hfirst Hto Ei Ej. pose proof Hp as [Hbase _ _ _].
  destruct (request_spec (E:=E) _ params to_shard (first :: sizes) Hp) as (values & b & Ev & Hlen & Em & Hb & Hby & Hbits);
    [constructor; [lia|done]|done|].
  destruct (values_spec _ _ Hp) as (? & Ev' & _ & Hmax). rewrite Ev in Ev'. injection Ev' as <-.
  destruct (covered values first _ _ (last_value _ _ Ev)) as (k & Hk); [lia|].
  assert (bit b k = true) as Hbit by (apply Hbits, asked_cons; left; rewrite Z.add_0_l; split; [lia|done]).
  pose proof Hk as [(v & Hv & Hle) _].
  assert (is_all_zeros b = false) as Ez.
  { apply not_true_is_false. intros Hz. rewrite (proj1 (zero_bits b Hb Hby) Hz k) in Hbit; [done|].
    apply lookup_lt_Some in Hv. lia. }
  rewrite Ez, Z.mod_small in Em by lia. rewrite Em.
  destruct (increases_spec params b values Hb 0 (base_bandwidth params)) as (l & El & Hpos & _); [lia|].
  pose proof (increases_first b values Hb 0 (base_bandwidth params) l ltac:(lia) El) as Hl.
  destruct l as [|x l]; [specialize (Hl k v Hv Hbit); lia|]. destruct Hl as (k' & v' & Hv' & Hbit' & ->).
  eexists _, _, l. split; [done|]. split.
  { unfold scheduler_request. cbn [br_to_shard requested_values_bitmap]. rewrite Ei, Ej, Ev. cbn [rbind]. rewrite El. done. }
  rewrite Forall_lookup in Hmax. specialize (Hmax _ _ Hv'). split; [|lia].
  rewrite Nat.add_0_l in Hbit'. apply Hbits in Hbit' as (m & Hm & _ & (u & Hu & Hle') & _). replace u with v' in Hle' by congruence.
  destruct m as [|m]; [lia|]. cbn [take] in Hle'. rewrite zsum_id_cons in Hle'.
  assert (0 <= zsum id (take m sizes)) by (by apply zsum_nonneg, Forall_take). lia.
Qed.

(* ------------------------------------------------------------------ *)
(** ** Examples *)

Lemma request_exact_witness :
  exists values o, request_values sample_params = Ok values
    /\ make_from_receipt_sizes (E:=unit) 7 (map Ok [60000; 150000; 4000000]) sample_params = Ok o
    /\ match o with
       | None => forall i, ~ asked sample_params values 0 [60000; 150000; 4000000] i
       | Some r => br_to_shard r = 7 mod 65536 /\ bitmap_ok r
           /\ (exists i, asked sample_params values 0 [60000; 150000; 4000000] i)
           /\ forall i, (i < 40)%nat -> exists b, get_bit (requested_values_bitmap r) i = Ok b
                /\ (b = true <-> asked sample_params values 0 [60000; 150000; 4000000] i)
       end.
Proof. apply (request_exact sample_shards); [apply sample_params_ok|by repeat constructor|done]. Defined.

Lemma request_covers_first_witness :
  exists request increase increases,
    make_from_receipt_sizes (E:=unit) 7 (map Ok [4194304; 10]) sample_params = Ok (Some request)
    /\ scheduler_request 4 request sample_params sample_shards
       = Ok (Some (mkSchedulerRequest (mkLink 0 2) (increase :: increases)))
    /\ 4194304 <= base_bandwidth sample_params + increase <= max_single_grant sample_params.
Proof.
  apply (request_covers_first sample_shards sample_params 4 7 0 2 4194304 [10]);
    [apply sample_params_ok|by repeat constructor|done|done|lia|reflexivity|reflexivity].
Defined.
