(* ===== verification/TrieQueue.v ===== *)
(** * Queues stored in the trie (core/store/src/trie/receipts_column_helper.rs)

    The queue of delayed receipts and the buffers of outgoing receipts share one
    implementation: items under consecutive indices and a pair of indices.  The
    cached indices of the source are the stored ones, since every change is written
    back at once.  The refinement shows the queue is a list. *)

From S2P Require Import Prelude Crates AccountId Primitives Errors Fees.

Record TrieQueueIndices : Type := mkTrieQueueIndices {
  first_index : Z;
  next_available_index : Z;
}.

(** The items by index, and the indices. *)
Record TrieQueue (A : Type) : Type := mkTrieQueue {
  q_items : gmap Z A;
  q_indices : TrieQueueIndices;
}.
Arguments mkTrieQueue {A}.
Arguments q_items {A}.
Arguments q_indices {A}.

Definition empty_queue {A : Type} : TrieQueue A := mkTrieQueue ∅ (mkTrieQueueIndices 0 0).

Definition item_missing (i : Z) : StorageError :=
  StorageInconsistentState (Msg "TrieQueue::Item #{} should be in the state" [FZ i]).

Section queue.
Context {A : Type}.

Definition push_back (q : TrieQueue A) (item : A) : result (TrieQueue A) IntegerOverflowError :=
  let index := next_available_index (q_indices q) in
  let items := <[index := item]> (q_items q) in
  let? next := ok_or (checked_add u64_max index 1) IntegerOverflow in
  Ok (mkTrieQueue items (mkTrieQueueIndices (first_index (q_indices q)) next)).

Definition pop_front (q : TrieQueue A) : result (option (A * TrieQueue A)) StorageError :=
  let first := first_index (q_indices q) in
  let next := next_available_index (q_indices q) in
  if next <=? first then Ok None
  else
    let? item := ok_or (q_items q !! first) (item_missing first) in
    Ok (Some (item, mkTrieQueue (delete first (q_items q)) (mkTrieQueueIndices (first + 1) next))).

Definition pop_back (q : TrieQueue A) : result (option (A * TrieQueue A)) StorageError :=
  let first := first_index (q_indices q) in
  let next := next_available_index (q_indices q) in
  if next <=? first then Ok None
  else
    let last_item_index := next - 1 in
    let? item := ok_or (q_items q !! last_item_index) (item_missing last_item_index) in
    Ok (Some (item, mkTrieQueue (delete last_item_index (q_items q))
                      (mkTrieQueueIndices first last_item_index))).

(** The closure may panic. *)
Definition modify_first (modify_fn : A -> result (option A) StorageError) (q : TrieQueue A)
    : result (TrieQueue A) StorageError :=
  let first := first_index (q_indices q) in
  if next_available_index (q_indices q) <=? first then Panic
  else
    let? first_item := ok_or (q_items q !! first) (item_missing first) in
    let? modified := modify_fn first_item in
    match modified with
    | Some item => Ok (mkTrieQueue (<[first := item]> (q_items q)) (q_indices q))
    | None =>
        let? r := pop_front q in
        Ok (match r with Some (_, q) => q | None => q end)
    end.

(** Removes up to [n] items from the front without reading them. *)
Definition pop_n (n : Z) (q : TrieQueue A) : TrieQueue A * Z :=
  let first := first_index (q_indices q) in
  let next := next_available_index (q_indices q) in
  let to_remove := Z.min n (default 0 (checked_sub next first)) in
  let items := fold_left (fun m i => delete i m) (seqZ first to_remove) (q_items q) in
  (mkTrieQueue items (if 0 <? to_remove then mkTrieQueueIndices (first + to_remove) next
                      else q_indices q), to_remove).

(** [indices.len()]: plain subtraction. *)
Definition queue_len {E : Type} (q : TrieQueue A) : result Z E :=
  sub_or_panic (next_available_index (q_indices q)) (first_index (q_indices q)).

(** All items in order. *)
Definition queue_iter (q : TrieQueue A) : list (result A StorageError) :=
  map (fun i => ok_or (q_items q !! i)
                  (StorageInconsistentState
                     (lit "TrieQueue::Item referenced by index should be in the state")))
    (seqZ (first_index (q_indices q))
       (next_available_index (q_indices q) - first_index (q_indices q))).

(* ------------------------------------------------------------------ *)
(** ** A queue is a list *)

Definition queue_abs (q : TrieQueue A) (l : list A) : Prop :=
  let first := first_index (q_indices q) in
  0 <= first
  /\ next_available_index (q_indices q) = first + Z.of_nat (length l)
  /\ next_available_index (q_indices q) <= u64_max
  /\ forall k, q_items q !! k = if decide (first <= k) then l !! Z.to_nat (k - first) else None.

Lemma queue_abs_empty : queue_abs empty_queue [].
Proof. split_and!; [done|done|done|]. intros k. simpl. by case_decide. Qed.

Lemma push_back_abs q l x :
  queue_abs q l ->
  if next_available_index (q_indices q) <? u64_max
  then exists q', push_back q x = Ok q' /\ queue_abs q' (l ++ [x])
  else push_back q x = Err IntegerOverflow.
Proof.
  intros (H0 & Hn & Hm & Hi). unfold push_back, checked_add. rewrite Hn in *.
  set (f := first_index (q_indices q)) in *.
  destruct (Z.ltb_spec (f + Z.of_nat (length l)) u64_max) as [Hlt|Hge].
  - destruct (Z.leb_spec (f + Z.of_nat (length l) + 1) u64_max); [|lia]. eexists. split; [done|].
    split_and!; simpl; [done|rewrite length_app; simpl; lia|done|]. intros k. fold f.
    destruct (decide (k = f + Z.of_nat (length l))) as [->|Hne].
    + rewrite lookup_insert_eq, decide_True by lia.
      rewrite lookup_app_r by lia. by replace (_ - length l)%nat with 0%nat by lia.
    + rewrite lookup_insert_ne, Hi by done. case_decide; [|done].
      destruct (decide (k < f + Z.of_nat (length l))).
      * by rewrite lookup_app_l by lia.
      * rewrite !lookup_ge_None_2; [done|rewrite length_app; simpl; lia|lia].
  - destruct (Z.leb_spec (f + Z.of_nat (length l) + 1) u64_max); [lia|done].
Qed.

Lemma pop_front_abs q l :
  queue_abs q l ->
  match l with
  | [] => pop_front q = Ok None
  | x :: l => exists q', pop_front q = Ok (Some (x, q')) /\ queue_abs q' l
  end.
Proof.
  intros (H0 & Hn & Hm & Hi). unfold pop_front. rewrite Hn in *.
  set (f := first_index (q_indices q)) in *. destruct l as [|x l]; simpl in *.
  { destruct (Z.leb_spec (f + Z.of_nat 0) f); [done|lia]. }
  destruct (Z.leb_spec (f + Z.of_nat (S (length l))) f); [lia|].
  rewrite (Hi f), decide_True, Z.sub_diag by lia. simpl. eexists. split; [done|].
  split_and!; simpl; [lia|lia|done|]. intros k. destruct (decide (k = f)) as [->|Hne].
  - by rewrite lookup_delete_eq, decide_False by lia.
  - rewrite lookup_delete_ne, Hi by done. repeat case_decide; try lia; try done.
    by replace (Z.to_nat (k - f)) with (S (Z.to_nat (k - (f + 1)))) by lia.
Qed.

Lemma pop_back_abs q l x :
  queue_abs q (l ++ [x]) -> exists q', pop_back q = Ok (Some (x, q')) /\ queue_abs q' l.
Proof.
  intros (H0 & Hn & Hm & Hi). unfold pop_back. rewrite Hn in *. rewrite length_app in *. simpl in *.
  set (f := first_index (q_indices q)) in *.
  destruct (Z.leb_spec (f + Z.of_nat (length l + 1)) f); [lia|].
  replace (f + Z.of_nat (length l + 1) - 1) with (f + Z.of_nat (length l)) by lia.
  rewrite (Hi (f + Z.of_nat (length l))), decide_True by lia.
  rewrite lookup_app_r by lia. replace (_ - length l)%nat with 0%nat by lia. simpl.
  eexists. split; [done|]. split_and!; simpl; [done|done|lia|]. intros k. fold f.
  destruct (decide (k = f + Z.of_nat (length l))) as [->|Hne].
  - rewrite lookup_delete_eq. case_decide; [|done]. by rewrite lookup_ge_None_2 by lia.
  - rewrite lookup_delete_ne, Hi by done. case_decide; [|done].
    destruct (decide (k < f + Z.of_nat (length l))).
    + by rewrite lookup_app_l by lia.
    + rewrite !lookup_ge_None_2; [done|lia|rewrite length_app; simpl; lia].
Qed.

Lemma pop_back_empty q : queue_abs q [] -> pop_back q = Ok None.
Proof.
  intros (_ & Hn & _). unfold pop_back. rewrite Hn. simpl.
  destruct (Z.leb_spec (first_index (q_indices q) + Z.of_nat 0) (first_index (q_indices q))); [done|lia].
Qed.

(** The end of the queue moves with the operations. *)
Lemma push_back_next q x q' :
  push_back q x = Ok q' -> next_available_index (q_indices q') = next_available_index (q_indices q) + 1.
Proof. unfold push_back. intros. rust_inv. by simplify_eq/=. Qed.

Lemma pop_back_next q x q' :
  pop_back q = Ok (Some (x, q')) ->
  next_available_index (q_indices q') = next_available_index (q_indices q) - 1.
Proof. unfold pop_back. case_match; [done|]. intros. rust_inv. by simplify_eq/=. Qed.

Lemma modify_first_next f q q' :
  modify_first f q = Ok q' -> next_available_index (q_indices q') = next_available_index (q_indices q).
Proof.
  unfold modify_first, pop_front. case_match; [done|]. intros. rust_inv.
  match goal with o : option A |- _ => destruct o end; rust_inv; by simplify_eq/=.
Qed.

Lemma modify_first_abs f q x l :
  queue_abs q (x :: l) ->
  match f x with
  | Ok o => exists q', modify_first f q = Ok q'
              /\ queue_abs q' (match o with Some y => y :: l | None => l end)
  | Err e => modify_first f q = Err e
  | Panic => modify_first f q = Panic
  end.
Proof.
  intros Hq. pose proof Hq as (H0 & Hn & Hm & Hi).
  destruct (pop_front_abs q (x :: l) Hq) as (q' & Hpop & Hq'). unfold modify_first. rewrite Hpop.
  rewrite Hn, (Hi (first_index (q_indices q))), decide_True, Z.sub_diag by lia. simpl in *.
  set (i := first_index (q_indices q)) in *.
  destruct (Z.leb_spec (i + Z.of_nat (S (length l))) i); [lia|].
  destruct (f x) as [[y|]|e|]; simpl; [|by eauto|done|done]. eexists. split; [done|].
  split_and!; simpl; [done|done|done|]. intros k. destruct (decide (k = i)) as [->|Hne].
  - by rewrite lookup_insert_eq, decide_True, Z.sub_diag by lia.
  - fold i. rewrite lookup_insert_ne, Hi by done. case_decide; [|done].
    by replace (Z.to_nat (k - i)) with (S (Z.to_nat (k - i) - 1)) by lia.
Qed.

Lemma delete_range (m : gmap Z A) n : forall f k, 0 <= n ->
  fold_left (fun m i => delete i m) (seqZ f n) m !! k
  = if decide (f <= k < f + n) then None else m !! k.
Proof.
  intros f k Hn. revert f m. pattern n. apply natlike_ind; [..|done]; clear n Hn.
  - intros f m. rewrite decide_False by lia. done.
  - intros n Hn IH f m. rewrite seqZ_cons by lia. simpl. rewrite Z.pred_succ, IH.
    destruct (decide (k = f)) as [->|Hne].
    + rewrite lookup_delete_eq. repeat case_decide; try done; lia.
    + rewrite lookup_delete_ne by done. repeat case_decide; try done; lia.
Qed.

Lemma pop_n_abs n q l :
  0 <= n -> queue_abs q l ->
  let k := Z.to_nat (Z.min n (Z.of_nat (length l))) in
  exists q', pop_n n q = (q', Z.of_nat k) /\ queue_abs q' (drop k l).
Proof.
  intros Hpos (H0 & Hn & Hm & Hi). unfold pop_n, checked_sub. rewrite Hn in *.
  set (f := first_index (q_indices q)) in *.
  destruct (Z.leb_spec f (f + Z.of_nat (length l))); [|lia]. simpl.
  replace (f + Z.of_nat (length l) - f) with (Z.of_nat (length l)) by lia.
  set (c := Z.min n (Z.of_nat (length l))). assert (0 <= c <= Z.of_nat (length l)) as Hc by lia.
  eexists. rewrite Z2Nat.id by lia. split; [done|].
  assert (Hf : first_index (if 0 <? c then mkTrieQueueIndices (f + c) (f + Z.of_nat (length l))
                            else q_indices q) = f + c)
    by (destruct (Z.ltb_spec 0 c); simpl; fold f; lia).
  split_and!; cbn [q_indices q_items]; rewrite ?Hf, ?length_drop; [lia| | |].
  - destruct (Z.ltb_spec 0 c); simpl; lia.
  - destruct (Z.ltb_spec 0 c); simpl; lia.
  - intros k. rewrite delete_range, Hi by lia.
    repeat case_decide; try lia; try done. rewrite lookup_drop. f_equal. lia.
Qed.

Lemma queue_len_abs {E} q l : queue_abs q l -> queue_len (E:=E) q = Ok (Z.of_nat (length l)).
Proof.
  intros (H0 & Hn & Hm & Hi). unfold queue_len, sub_or_panic, checked_sub. rewrite Hn.
  destruct (Z.leb_spec (first_index (q_indices q)) (first_index (q_indices q) + Z.of_nat (length l)));
    [|lia]. simpl. f_equal. lia.
Qed.

Lemma queue_iter_abs q l : queue_abs q l -> queue_iter q = map Ok l.
Proof.
  intros (H0 & Hn & Hm & Hi). unfold queue_iter. rewrite Hn.
  replace (_ + _ - _) with (Z.of_nat (length l)) by lia.
  apply list_eq. intros i. rewrite !list_lookup_fmap.
  destruct (decide (i < length l)%nat) as [Hlt|Hge].
  - rewrite lookup_seqZ_lt by lia. simpl. rewrite Hi, decide_True by lia.
    replace (Z.to_nat _) with i by lia.
    destruct (lookup_lt_is_Some_2 l i Hlt) as [x ->]. done.
  - rewrite lookup_seqZ_ge, lookup_ge_None_2 by lia. done.
Qed.
End queue.

(** C25. A queue in the trie is a double-ended list.  On a queue that stores a list [l]
    under consecutive indices: [push_back] appends, and fails only when the index
    would leave 64 bits; [pop_front] and [pop_back] return and remove the first and
    last element and never report a missing item; [modify_first] replaces or
    removes the head, and fails only if its closure does or on an empty queue; [pop_n] drops the first
    [n] elements; the length and the iteration are those of the list.  In every
    case the new queue stores the new list. *)
Theorem queue_refines {A : Type} (q : TrieQueue A) l :
  queue_abs q l ->
  (forall x, if next_available_index (q_indices q) <? u64_max
             then exists q', push_back q x = Ok q' /\ queue_abs q' (l ++ [x])
             else push_back q x = Err IntegerOverflow)
  /\ match l with
     | [] => pop_front q = Ok None /\ pop_back q = Ok None /\ forall f, modify_first f q = Panic
     | x :: l' =>
         (exists q', pop_front q = Ok (Some (x, q')) /\ queue_abs q' l')
         /\ (exists q' y l'', l = l'' ++ [y] /\ pop_back q = Ok (Some (y, q')) /\ queue_abs q' l'')
         /\ forall f, match f x with
                      | Ok o => exists q', modify_first f q = Ok q'
                                  /\ queue_abs q' (match o with Some y => y :: l' | None => l' end)
                      | Err e => modify_first f q = Err e
                      | Panic => modify_first f q = Panic
                      end
     end
  /\ (forall n, 0 <= n -> let k := Z.to_nat (Z.min n (Z.of_nat (length l))) in
        exists q', pop_n n q = (q', Z.of_nat k) /\ queue_abs q' (drop k l))
  /\ queue_len (E:=unit) q = Ok (Z.of_nat (length l)) /\ queue_iter q = map Ok l.
Proof.
  intros Hq. split_and!; [intros x; by apply push_back_abs| |intros n Hn; by apply pop_n_abs|
    by apply queue_len_abs|by apply queue_iter_abs].
  destruct l as [|x l'].
  - pose proof Hq as (_ & Hn & _). simpl in Hn. split_and!; [by apply (pop_front_abs q [])| |].
    + by apply pop_back_empty.
    + intros f. unfold modify_first. rewrite Hn. destruct (Z.leb_spec
        (first_index (q_indices q) + Z.of_nat 0) (first_index (q_indices q))); [done|lia].
  - split_and!; [by apply (pop_front_abs q (x :: l'))| |intros f; by apply modify_first_abs].
    destruct (exists_last (l := x :: l')) as (l'' & y & E); [done|]. rewrite E in Hq.
    destruct (pop_back_abs q l'' y Hq) as (q' & ? & ?). exists q', y, l''. by rewrite E.
Qed.

Lemma queue_refines_witness :
  exists q', push_back (empty_queue : TrieQueue Z) 7 = Ok q' /\ queue_abs q' [7].
Proof. exact (proj1 (queue_refines empty_queue [] queue_abs_empty) 7). Defined.
