(* ===== verification/OutgoingMetadata.v ===== *)
(** * Groups of buffered receipts (core/store/src/trie/outgoing_metadata.rs)

    The runtime buffers receipts it may not send yet, one queue per receiving shard.
    Beside each buffer it keeps a queue of groups of consecutive receipts, with their
    total size and gas, from which bandwidth requests are made.  The refinement shows
    that the groups are the buffered receipts cut into consecutive pieces. *)

From S2P Require Import Prelude Crates AccountId Primitives Errors Fees TrieQueue.

Record ReceiptGroup : Type := mkReceiptGroup {
  rg_size : Z;
  rg_gas : Z;
}.

Record ReceiptGroupsConfig : Type := mkReceiptGroupsConfig {
  size_upper_bound : Z;
  gas_upper_bound : Z;
}.

Definition default_config : ReceiptGroupsConfig := mkReceiptGroupsConfig 100000 u64_max.

(** The group queue of one shard: the groups, and the totals stored with the indices. *)
Record ReceiptGroupsQueue : Type := mkReceiptGroupsQueue {
  gq_groups : TrieQueue ReceiptGroup;
  gq_total_size : Z;
  gq_total_gas : Z;
  gq_total_receipts_num : Z;
}.

Definition empty_groups : ReceiptGroupsQueue := mkReceiptGroupsQueue empty_queue 0 0 0.

Definition rg_is_empty (g : ReceiptGroup) : result bool StorageError :=
  if rg_size g =? 0 then (if rg_gas g =? 0 then Ok true else Panic) else Ok false.

Definition should_start_new_group (cfg : ReceiptGroupsConfig) (last : ReceiptGroup) (size gas : Z)
    : result bool StorageError :=
  let? group_size := add_or_panic u64_max (rg_size last) size in
  if size_upper_bound cfg <? group_size then Ok true
  else
    let? group_gas := add_or_panic u128_max (rg_gas last) gas in
    Ok (gas_upper_bound cfg <? group_gas).

(** [push_back(..).expect(..)]. *)
Definition push_group (q : TrieQueue ReceiptGroup) (g : ReceiptGroup)
    : result (TrieQueue ReceiptGroup) StorageError :=
  match push_back q g with
  | Ok q => Ok q
  | _ => Panic
  end.

(** The change of the last groups when a receipt is pushed. *)
Definition push_last (cfg : ReceiptGroupsConfig) (q : TrieQueue ReceiptGroup) (size gas : Z)
    : result (TrieQueue ReceiptGroup) StorageError :=
  let? popped := pop_back q in
  match popped with
  | Some (last, q) =>
      let? start := should_start_new_group cfg last size gas in
      if start then let? q := push_group q last in push_group q (mkReceiptGroup size gas)
      else
        let? s := add_or_panic u64_max (rg_size last) size in
        let? g := add_or_panic u128_max (rg_gas last) gas in
        push_group q (mkReceiptGroup s g)
  | None => push_group q (mkReceiptGroup size gas)
  end.

Definition gq_update_on_receipt_pushed (cfg : ReceiptGroupsConfig) (gq : ReceiptGroupsQueue)
    (size gas : Z) : result ReceiptGroupsQueue StorageError :=
  let? total_size := add_or_panic u64_max (gq_total_size gq) size in
  let? total_gas := add_or_panic u128_max (gq_total_gas gq) gas in
  let? num := add_or_panic u64_max (gq_total_receipts_num gq) 1 in
  let? groups := push_last cfg (gq_groups gq) size gas in
  Ok (mkReceiptGroupsQueue groups total_size total_gas num).

(** The closure of [update_on_receipt_popped]. *)
Definition shrink_group (size gas : Z) (g : ReceiptGroup) : result (option ReceiptGroup) StorageError :=
  let? s := sub_or_panic (rg_size g) size in
  let? gs := sub_or_panic (rg_gas g) gas in
  let? e := rg_is_empty (mkReceiptGroup s gs) in
  Ok (if e then None else Some (mkReceiptGroup s gs)).

Definition gq_update_on_receipt_popped (gq : ReceiptGroupsQueue) (size gas : Z)
    : result ReceiptGroupsQueue StorageError :=
  let? total_size := sub_or_panic (gq_total_size gq) size in
  let? total_gas := sub_or_panic (gq_total_gas gq) gas in
  let? num := sub_or_panic (gq_total_receipts_num gq) 1 in
  let? len := queue_len (gq_groups gq) in
  if negb (0 <? len) then Panic
  else
    let? groups := modify_first (shrink_group size gas) (gq_groups gq) in
    Ok (mkReceiptGroupsQueue groups total_size total_gas num).

Definition iter_receipt_group_sizes (gq : ReceiptGroupsQueue) : list (result Z StorageError) :=
  map (fun g => let? g := g in Ok (rg_size g)) (queue_iter (gq_groups gq)).

(** The groups of every shard. *)
Record OutgoingMetadatas : Type := mkOutgoingMetadatas {
  om_metadatas : gmap Z ReceiptGroupsQueue;
  om_groups_config : ReceiptGroupsConfig;
}.

Definition update_on_receipt_pushed (m : OutgoingMetadatas) (shard_id size gas : Z)
    : result OutgoingMetadatas StorageError :=
  let gq := default empty_groups (om_metadatas m !! shard_id) in
  let? gq := gq_update_on_receipt_pushed (om_groups_config m) gq size gas in
  Ok (mkOutgoingMetadatas (<[shard_id := gq]> (om_metadatas m)) (om_groups_config m)).

Definition update_on_receipt_popped (m : OutgoingMetadatas) (shard_id size gas : Z)
    : result OutgoingMetadatas StorageError :=
  let? gq := unwrap (om_metadatas m !! shard_id) in
  let? gq := gq_update_on_receipt_popped gq size gas in
  Ok (mkOutgoingMetadatas (<[shard_id := gq]> (om_metadatas m)) (om_groups_config m)).

(* ------------------------------------------------------------------ *)
(** ** Groups are pieces of the buffer *)

(** A buffered receipt is its size and gas; a piece of the buffer has one group. *)
Definition group_of (piece : list (Z * Z)) : ReceiptGroup :=
  mkReceiptGroup (zsum fst piece) (zsum snd piece).

(** A piece of more than one receipt is within the bounds. *)
Definition in_bounds (cfg : ReceiptGroupsConfig) (piece : list (Z * Z)) : Prop :=
  length piece = 1%nat
  \/ (zsum fst piece <= size_upper_bound cfg /\ zsum snd piece <= gas_upper_bound cfg).

Definition proper_receipt (r : Z * Z) : Prop := 0 < r.1 /\ 0 <= r.2.

(** The totals fit their integers. *)
Definition buffer_fits (l : list (Z * Z)) : Prop :=
  zsum fst l <= u64_max /\ zsum snd l <= u128_max /\ vec_len l <= u64_max.

(** The queue holds the groups of a cut of [l] into pieces. *)
Definition holds_pieces (cfg : ReceiptGroupsConfig) (q : TrieQueue ReceiptGroup)
    (pieces : list (list (Z * Z))) : Prop :=
  queue_abs q (map group_of pieces) /\ Forall (fun p => p <> []) pieces /\ Forall (in_bounds cfg) pieces.

Record groups_abs (cfg : ReceiptGroupsConfig) (gq : ReceiptGroupsQueue) (l : list (Z * Z)) : Prop :=
mk_groups_abs {
  ga_proper : Forall proper_receipt l;
  ga_fits : buffer_fits l;
  ga_total_size : gq_total_size gq = zsum fst l;
  ga_total_gas : gq_total_gas gq = zsum snd l;
  ga_total_num : gq_total_receipts_num gq = vec_len l;
  ga_pieces : exists pieces, concat pieces = l /\ holds_pieces cfg (gq_groups gq) pieces;
}.

Lemma sums_nonneg l : Forall proper_receipt l -> 0 <= zsum fst l /\ 0 <= zsum snd l.
Proof.
  intros H. split; apply zsum_nonneg; (eapply Forall_impl; [exact H|]); intros x []; lia.
Qed.

Lemma sum_positive r l : Forall proper_receipt (r :: l) -> 0 < zsum fst (r :: l).
Proof.
  intros [H1 H2]%Forall_cons. rewrite zsum_cons. destruct H1. pose proof (sums_nonneg l H2). lia.
Qed.

Lemma add_fits {E} mx a b : a + b <= mx -> add_or_panic (E:=E) mx a b = Ok (a + b).
Proof. intros. unfold add_or_panic, checked_add. by rewrite (proj2 (Z.leb_le _ _)). Qed.

Lemma sub_fits {E} a b : b <= a -> sub_or_panic (E:=E) a b = Ok (a - b).
Proof. intros. unfold sub_or_panic, checked_sub. by rewrite (proj2 (Z.leb_le _ _)). Qed.

Lemma push_group_abs q l g :
  queue_abs q l -> next_available_index (q_indices q) < u64_max ->
  exists q', push_group q g = Ok q' /\ queue_abs q' (l ++ [g])
    /\ next_available_index (q_indices q') = next_available_index (q_indices q) + 1.
Proof.
  intros Hq Hn. pose proof (push_back_abs q l g Hq) as H. apply Z.ltb_lt in Hn. rewrite Hn in H.
  destruct H as (q' & Hp & Hq'). exists q'. unfold push_group. rewrite Hp.
  split_and!; [done|done|by eapply push_back_next].
Qed.

Lemma groups_abs_empty cfg : groups_abs cfg empty_groups [].
Proof.
  split; [done|done|done|done|done|]. exists []. split; [done|].
  split_and!; [apply queue_abs_empty|done|done].
Qed.

Lemma holds_snoc cfg q ps p :
  queue_abs q (map group_of ps ++ [group_of p]) -> Forall (fun p => p <> []) ps ->
  Forall (in_bounds cfg) ps -> p <> [] -> in_bounds cfg p -> holds_pieces cfg q (ps ++ [p]).
Proof.
  intros Hq H1 H2 H3 H4. split_and!; [by rewrite map_app|apply Forall_app|apply Forall_app];
    (split; [done|by constructor]).
Qed.

Lemma push_piece cfg q pieces size gas :
  holds_pieces cfg q pieces -> next_available_index (q_indices q) < u64_max ->
  exists q', push_group q (mkReceiptGroup size gas) = Ok q'
    /\ holds_pieces cfg q' (pieces ++ [[(size, gas)]]).
Proof.
  intros (Hq & Hne & Hb) Hn. destruct (push_group_abs q _ (mkReceiptGroup size gas) Hq Hn) as (q' & -> & Hq' & _).
  exists q'. split; [done|]. apply holds_snoc; [|done|done|done|by left].
  assert (group_of [(size, gas)] = mkReceiptGroup size gas) as -> by (unfold group_of; simpl; f_equal; lia).
  done.
Qed.

Lemma push_last_pieces cfg q pieces size gas :
  holds_pieces cfg q pieces -> next_available_index (q_indices q) < u64_max ->
  buffer_fits (concat pieces ++ [(size, gas)]) -> Forall proper_receipt (concat pieces) ->
  exists q' pieces', push_last cfg q size gas = Ok q'
    /\ concat pieces' = concat pieces ++ [(size, gas)] /\ holds_pieces cfg q' pieces'.
Proof.
  intros Hh Hn (Hs & Hg & _) Hp. unfold push_last. destruct (decide (pieces = [])) as [->|Hnn].
  { rewrite (pop_back_empty q) by apply Hh. simpl.
    destruct (push_piece cfg q [] size gas Hh Hn) as (q' & -> & Hq').
    exists q', [[(size, gas)]]. by split_and!. }
  destruct (exists_last Hnn) as (ps & p & ->). destruct Hh as (Hq & Hne & Hb). rewrite map_app in Hq.
  destruct (pop_back_abs q (map group_of ps) (group_of p) Hq) as (q1 & Hpop & Hq1). rewrite Hpop. simpl.
  pose proof (pop_back_next _ _ _ Hpop) as Hnx.
  rewrite concat_app in Hs, Hg, Hp. simpl in Hs, Hg, Hp. rewrite app_nil_r in Hs, Hg, Hp.
  rewrite !zsum_app in Hs, Hg. apply Forall_app in Hp as [Hp1 Hp2].
  pose proof (sums_nonneg _ Hp1). pose proof (sums_nonneg _ Hp2). simpl in Hs, Hg.
  pose proof Hne as [Hne1 Hne2]%Forall_app. pose proof Hb as [Hb1 Hb2]%Forall_app.
  unfold should_start_new_group. simpl. rewrite ?add_fits by lia. simpl.
  assert (exists q' pieces',
    (let? q := push_group q1 (group_of p) in push_group q (mkReceiptGroup size gas)) = Ok q'
    /\ concat pieces' = concat (ps ++ [p]) ++ [(size, gas)] /\ holds_pieces cfg q' pieces') as Hnew.
  { destruct (push_group_abs q1 _ (group_of p) Hq1) as (q2 & -> & Hq2 & Hn2); [lia|]. simpl.
    destruct (push_piece cfg q2 (ps ++ [p]) size gas) as (q3 & -> & Hq3); [|lia|].
    - split_and!; [by rewrite map_app|done|done].
    - exists q3, ((ps ++ [p]) ++ [[(size, gas)]]). split_and!; [done|by rewrite (concat_app (ps ++ [p]))|done]. }
  destruct (Z.ltb_spec (size_upper_bound cfg) (zsum fst p + size)); [exact Hnew|].
  simpl. destruct (Z.ltb_spec (gas_upper_bound cfg) (zsum snd p + gas)); [exact Hnew|].
  rewrite ?add_fits by lia. simpl.
  destruct (push_group_abs q1 _ (mkReceiptGroup (zsum fst p + size) (zsum snd p + gas)) Hq1)
    as (q2 & -> & Hq2 & _); [lia|]. exists q2, (ps ++ [p ++ [(size, gas)]]). split_and!; [done|..].
  - rewrite !concat_app. simpl. by rewrite !app_nil_r, <- app_assoc.
  - apply holds_snoc; [|done|done|by destruct p|].
    + unfold group_of at 2. rewrite !zsum_app. simpl. by rewrite !Z.add_0_r.
    + right. rewrite !zsum_app. simpl. lia.
Qed.

Lemma groups_pushed cfg gq l size gas :
  groups_abs cfg gq l -> next_available_index (q_indices (gq_groups gq)) < u64_max ->
  0 < size -> 0 <= gas -> buffer_fits (l ++ [(size, gas)]) ->
  exists gq', gq_update_on_receipt_pushed cfg gq size gas = Ok gq'
    /\ groups_abs cfg gq' (l ++ [(size, gas)]).
Proof.
  intros [Hp _ Hs Hg Hc (pieces & <- & Hh)] Hn Hsz Hgas Hf.
  destruct (push_last_pieces cfg (gq_groups gq) pieces size gas Hh Hn Hf Hp) as (q' & ps & Hq & Hcat & Hh').
  unfold gq_update_on_receipt_pushed. rewrite Hs, Hg, Hc. pose proof Hf as (F1 & F2 & F3).
  unfold vec_len in *. rewrite length_app in F3. rewrite zsum_app in F1, F2. simpl in F1, F2, F3.
  rewrite !add_fits by lia. simpl. rewrite Hq. simpl.
  eexists. split; [done|]. split; simpl.
  - apply Forall_app. split; [done|by repeat constructor].
  - done.
  - rewrite zsum_app. simpl. lia.
  - rewrite zsum_app. simpl. lia.
  - unfold vec_len. rewrite length_app. simpl. lia.
  - by exists ps.
Qed.

Lemma in_bounds_tail cfg r p :
  Forall proper_receipt (r :: p) -> p <> [] -> in_bounds cfg (r :: p) -> in_bounds cfg p.
Proof.
  intros [[H1 H2] Hp]%Forall_cons Hne [Hl|[Hs Hg]]; [by destruct p|].
  right. rewrite !zsum_cons in *. lia.
Qed.

(** The first group when the first receipt leaves. *)
Lemma shrink_first size gas p :
  Forall proper_receipt ((size, gas) :: p) ->
  shrink_group size gas (group_of ((size, gas) :: p))
  = Ok (match p with [] => None | _ => Some (group_of p) end).
Proof.
  intros Hp. pose proof Hp as [[H1 H2] Hr]%Forall_cons. pose proof (sums_nonneg p Hr).
  unfold shrink_group, group_of. cbn [rg_size rg_gas]. rewrite !zsum_cons. cbn [fst snd].
  rewrite !sub_fits by lia. cbn [rbind].
  replace (size + zsum fst p - size) with (zsum fst p) by lia.
  replace (gas + zsum snd p - gas) with (zsum snd p) by lia.
  destruct p as [|r p]; [done|]. pose proof (sum_positive r p Hr).
  unfold rg_is_empty. cbn [rg_size rg_gas]. rewrite (proj2 (Z.eqb_neq (zsum fst (r :: p)) 0)) by lia. done.
Qed.

Lemma groups_popped cfg gq size gas l :
  groups_abs cfg gq ((size, gas) :: l) ->
  exists gq', gq_update_on_receipt_popped gq size gas = Ok gq' /\ groups_abs cfg gq' l.
Proof.
  intros [Hp (F1 & F2 & F3) Hs Hg Hc (pieces & Hcat & Hq & Hne & Hb)].
  pose proof Hp as [[H1 H2] Hr]%Forall_cons. pose proof (sums_nonneg l Hr).
  simpl in H1, H2. destruct pieces as [|piece ps]; [done|]. apply Forall_cons in Hne as [Hne Hnes].
  apply Forall_cons in Hb as [Hb Hbs].
  destruct piece as [|r p]; [done|]. simpl in Hcat. injection Hcat as -> Hcat. subst l.
  rewrite zsum_cons in Hs, Hg, F1, F2. unfold vec_len in Hc, F3. simpl in Hs, Hg, Hc, F1, F2, F3.
  unfold gq_update_on_receipt_popped. rewrite Hs, Hg, Hc. rewrite !sub_fits by lia. simpl.
  rewrite (queue_len_abs _ _ Hq). simpl. destruct (Z.ltb_spec 0 (Z.of_nat (S (length (map group_of ps))))); [|lia].
  simpl. pose proof (modify_first_abs (shrink_group size gas) _ _ _ Hq) as Hm.
  rewrite shrink_first in Hm.
  2: { rewrite app_comm_cons in Hp. by apply Forall_app in Hp as [? _]. }
  destruct Hm as (q' & -> & Hq'). eexists. split; [done|]. split; simpl.
  - done.
  - unfold buffer_fits, vec_len. lia.
  - lia.
  - lia.
  - unfold vec_len. lia.
  - exists (match p with [] => ps | _ => p :: ps end). destruct p as [|r p]; [by split_and!|].
    split; [done|]. split_and!; [done|by constructor|]. constructor; [|done].
    apply (in_bounds_tail cfg (size, gas)); [|done|done].
    rewrite app_comm_cons in Hp. by apply Forall_app in Hp as [? _].
Qed.

(** Each push uses at most one more index. *)
Definition next_group (gq : ReceiptGroupsQueue) : Z := next_available_index (q_indices (gq_groups gq)).

Lemma push_group_next q g q' :
  push_group q g = Ok q' -> next_available_index (q_indices q') = next_available_index (q_indices q) + 1.
Proof. unfold push_group. case_match eqn:E; intros; simplify_eq. by apply push_back_next in E. Qed.

Lemma gq_pushed_next cfg gq size gas gq' :
  gq_update_on_receipt_pushed cfg gq size gas = Ok gq' -> next_group gq' <= next_group gq + 1.
Proof.
  unfold gq_update_on_receipt_pushed, push_last, next_group. intros. rust_inv. simplify_eq. simpl.
  match goal with H : match ?o with Some _ => _ | None => _ end = Ok _ |- _ => destruct o as [[last q]|] end.
  - match goal with H : pop_back _ = Ok (Some _) |- _ => apply pop_back_next in H end. rust_inv.
    case_match; rust_inv;
      repeat match goal with H : push_group _ _ = Ok _ |- _ => apply push_group_next in H end; lia.
  - match goal with H : push_group _ _ = Ok _ |- _ => apply push_group_next in H end. lia.
Qed.

Lemma gq_popped_next gq size gas gq' :
  gq_update_on_receipt_popped gq size gas = Ok gq' -> next_group gq' = next_group gq.
Proof.
  unfold gq_update_on_receipt_popped, next_group. intros. rust_inv. case_match; [done|].
  rust_inv. simplify_eq. simpl. by eapply modify_first_next.
Qed.

(** The groups kept beside a buffer of outgoing receipts are the buffer cut into
    consecutive pieces.  If they are so for a buffer [l], with receipts of positive
    size, then pushing a receipt succeeds and they are so for the longer buffer, as
    long as the totals fit their integers; popping the first receipt succeeds, with
    none of the underflow panics and assertions of the code, and they are so for the
    rest.  A group of more than one receipt stays within the bounds of the
    configuration, the totals are those of the buffer, and the sizes from which a
    bandwidth request is made are the sizes of the pieces. *)
Theorem receipt_groups_refine cfg gq l :
  groups_abs cfg gq l ->
  (forall size gas, 0 < size -> 0 <= gas -> buffer_fits (l ++ [(size, gas)]) ->
     next_available_index (q_indices (gq_groups gq)) < u64_max ->
     exists gq', gq_update_on_receipt_pushed cfg gq size gas = Ok gq'
       /\ groups_abs cfg gq' (l ++ [(size, gas)]))
  /\ match l with
     | [] => True
     | (size, gas) :: l' =>
         exists gq', gq_update_on_receipt_popped gq size gas = Ok gq' /\ groups_abs cfg gq' l'
     end
  /\ exists pieces, concat pieces = l /\ Forall (in_bounds cfg) pieces
       /\ iter_receipt_group_sizes gq = map (fun p => Ok (zsum fst p)) pieces.
Proof.
  intros Hg. split_and!.
  - intros. by apply groups_pushed.
  - destruct l as [|[size gas] l]; [done|]. by eapply groups_popped.
  - destruct Hg as [_ _ _ _ _ (pieces & Hc & Hq & _ & Hb)]. exists pieces. split_and!; [done|done|].
    unfold iter_receipt_group_sizes. rewrite (queue_iter_abs _ _ Hq), !map_map. done.
Qed.

Lemma receipt_groups_refine_witness :
  exists gq', gq_update_on_receipt_pushed default_config empty_groups 300 7 = Ok gq'
    /\ groups_abs default_config gq' [(300, 7)].
Proof.
  apply (proj1 (receipt_groups_refine default_config empty_groups [] (groups_abs_empty _)) 300 7);
    [done|done|by split_and!|done].
Defined.
