(* ===== verification/State.v ===== *)
(** * The world state (core/store/src/utils/mod.rs)

    One column of the trie per [TrieKey] variant the modelled code touches.
    Accounts, access keys and gas-key nonces are kept decoded, since only the
    typed setters write them; contract data is kept as raw bytes, because
    contracts write it too, and reading it can fail to decode.  The trie itself
    is taken to be complete: a lookup never fails for a missing node. *)

From S2P Require Import Prelude Crates AccountId Primitives Errors Borsh Fees TrieQueue ReceiptWire.

(** [GlobalContractCode] and [GlobalContractNonce]. *)
Record GlobalContracts : Type := mkGlobalContracts {
  gc_code : gmap GlobalContractIdentifier (list Z);
  gc_nonces : gmap GlobalContractIdentifier Z;
}.

Inductive PromiseYieldStatus : Type :=
| Yielded
| ResumeInitiated.

(** An entry of the queue of yielded promises that time out. *)
Record PromiseYieldTimeout : Type := mkPromiseYieldTimeout {
  yt_account_id : AccountId;
  yt_data_id : CryptoHash;
  yt_expires_at : Z;
}.

(** Data that has arrived, receipts that wait for data, and the timeouts of yielded
    promises.  The keys are the receiver and a data or receipt identifier.  Delayed and
    buffered receipts are kept by the queues that own them (Congestion). *)
Record ReceiptColumns : Type := mkReceiptColumns {
  rc_received_data : gmap (AccountId * CryptoHash) (option (list Z));
  rc_postponed_receipt_ids : gmap (AccountId * CryptoHash) CryptoHash;
  rc_pending_data_counts : gmap (AccountId * CryptoHash) Z;
  rc_postponed_receipts : gmap (AccountId * CryptoHash) Receipt;
  rc_yield_receipts : gmap (AccountId * CryptoHash) Receipt;
  rc_yield_status : gmap (AccountId * CryptoHash) PromiseYieldStatus;
  rc_timeouts : TrieQueue PromiseYieldTimeout;
}.

Record State : Type := mkState {
  st_accounts : gmap AccountId Account;
  st_access_keys : gmap (AccountId * PublicKey) AccessKey;
  st_gas_key_nonces : gmap (AccountId * PublicKey * Z) Z;
  st_contract_code : gmap AccountId (list Z);
  st_contract_data : gmap (AccountId * list Z) (list Z);
  st_globals : GlobalContracts;
  st_receipts : ReceiptColumns;
}.

Definition empty_globals : GlobalContracts := mkGlobalContracts ∅ ∅.
Definition empty_receipts : ReceiptColumns := mkReceiptColumns ∅ ∅ ∅ ∅ ∅ ∅ empty_queue.
Definition empty_state : State := mkState ∅ ∅ ∅ ∅ ∅ empty_globals empty_receipts.

(* ------------------------------------------------------------------ *)
(** ** Accounts *)

Definition get_account (s : State) (id : AccountId) : option Account := st_accounts s !! id.

Definition with_accounts (s : State) (m : gmap AccountId Account) : State :=
  mkState m (st_access_keys s) (st_gas_key_nonces s) (st_contract_code s) (st_contract_data s)
    (st_globals s) (st_receipts s).

Definition set_account (s : State) (id : AccountId) (a : Account) : State :=
  with_accounts s (<[id := a]> (st_accounts s)).

(* ------------------------------------------------------------------ *)
(** ** Access keys and gas-key nonces *)

Definition get_access_key (s : State) (id : AccountId) (pk : PublicKey) : option AccessKey :=
  st_access_keys s !! (id, pk).

Definition with_access_keys (s : State) (m : gmap (AccountId * PublicKey) AccessKey) : State :=
  mkState (st_accounts s) m (st_gas_key_nonces s) (st_contract_code s) (st_contract_data s)
    (st_globals s) (st_receipts s).

Definition set_access_key (s : State) (id : AccountId) (pk : PublicKey) (k : AccessKey) : State :=
  with_access_keys s (<[(id, pk) := k]> (st_access_keys s)).

Definition remove_access_key (s : State) (id : AccountId) (pk : PublicKey) : State :=
  with_access_keys s (delete (id, pk) (st_access_keys s)).

Definition get_gas_key_nonce (s : State) (id : AccountId) (pk : PublicKey) (i : Z) : option Z :=
  st_gas_key_nonces s !! (id, pk, i).

Definition with_gas_key_nonces (s : State) (m : gmap (AccountId * PublicKey * Z) Z) : State :=
  mkState (st_accounts s) (st_access_keys s) m (st_contract_code s) (st_contract_data s)
    (st_globals s) (st_receipts s).

Definition set_gas_key_nonce (s : State) (id : AccountId) (pk : PublicKey) (i n : Z) : State :=
  with_gas_key_nonces s (<[(id, pk, i) := n]> (st_gas_key_nonces s)).

Definition remove_gas_key_nonce (s : State) (id : AccountId) (pk : PublicKey) (i : Z) : State :=
  with_gas_key_nonces s (delete (id, pk, i) (st_gas_key_nonces s)).

(** The gas-key balances of one account. *)
Definition gas_key_balances (s : State) (id : AccountId) : list Z :=
  omap (fun '((a, _), k) =>
          if bool_decide (a = id) then gk_balance <$> gas_key_info k else None)
       (map_to_list (st_access_keys s)).

Fixpoint sum_balances (acc : Z) (l : list Z) : result Z StorageError :=
  match l with
  | [] => Ok acc
  | b :: l =>
      let? acc := ok_or (checked_add u128_max acc b)
                    (StorageInconsistentState (lit "gas key balance overflow")) in
      sum_balances acc l
  end.

Definition compute_gas_key_balance_sum (s : State) (id : AccountId) : result Z StorageError :=
  sum_balances 0 (gas_key_balances s id).

(* ------------------------------------------------------------------ *)
(** ** Contract code and data *)

Definition set_code (s : State) (id : AccountId) (code : list Z) : State :=
  mkState (st_accounts s) (st_access_keys s) (st_gas_key_nonces s)
    (<[id := code]> (st_contract_code s)) (st_contract_data s) (st_globals s) (st_receipts s).

Definition remove_code (s : State) (id : AccountId) : State :=
  mkState (st_accounts s) (st_access_keys s) (st_gas_key_nonces s)
    (delete id (st_contract_code s)) (st_contract_data s) (st_globals s) (st_receipts s).

(** [TrieUpdate::get_code_len]. *)
Definition get_code_len (s : State) (id : AccountId) : option Z :=
  vec_len <$> st_contract_code s !! id.

Definition set_contract_data (s : State) (id : AccountId) (key value : list Z) : State :=
  mkState (st_accounts s) (st_access_keys s) (st_gas_key_nonces s) (st_contract_code s)
    (<[(id, key) := value]> (st_contract_data s)) (st_globals s) (st_receipts s).

(** [get] of a Borsh value stored under a contract-data key. *)
Definition get_data {A : Type} (c : codec A) (s : State) (id : AccountId) (key : list Z)
    : result (option A) StorageError :=
  match st_contract_data s !! (id, key) with
  | None => Ok None
  | Some data =>
      match try_from_slice c data with
      | None => Err (StorageInconsistentState (lit "Failed to deserialize. err={err:?}"))
      | Some value => Ok (Some value)
      end
  end.

(** [set] of a Borsh value under a contract-data key. *)
Definition set_data {A : Type} (c : codec A) (s : State) (id : AccountId) (key : list Z) (v : A)
    : State := set_contract_data s id key (enc c v).

Definition with_globals (s : State) (g : GlobalContracts) : State :=
  mkState (st_accounts s) (st_access_keys s) (st_gas_key_nonces s) (st_contract_code s)
    (st_contract_data s) g (st_receipts s).

Definition with_receipts (s : State) (r : ReceiptColumns) : State :=
  mkState (st_accounts s) (st_access_keys s) (st_gas_key_nonces s) (st_contract_code s)
    (st_contract_data s) (st_globals s) r.

(** Writing one column of the receipts. *)
Definition with_received_data (s : State) (m : gmap (AccountId * CryptoHash) (option (list Z))) : State :=
  let rc := st_receipts s in
  with_receipts s (mkReceiptColumns m (rc_postponed_receipt_ids rc) (rc_pending_data_counts rc) (rc_postponed_receipts rc)
    (rc_yield_receipts rc) (rc_yield_status rc) (rc_timeouts rc)).
Definition with_postponed_receipt_ids (s : State) (m : gmap (AccountId * CryptoHash) CryptoHash) : State :=
  let rc := st_receipts s in
  with_receipts s (mkReceiptColumns (rc_received_data rc) m (rc_pending_data_counts rc) (rc_postponed_receipts rc)
    (rc_yield_receipts rc) (rc_yield_status rc) (rc_timeouts rc)).
Definition with_pending_data_counts (s : State) (m : gmap (AccountId * CryptoHash) Z) : State :=
  let rc := st_receipts s in
  with_receipts s (mkReceiptColumns (rc_received_data rc) (rc_postponed_receipt_ids rc) m (rc_postponed_receipts rc)
    (rc_yield_receipts rc) (rc_yield_status rc) (rc_timeouts rc)).
Definition with_postponed_receipts (s : State) (m : gmap (AccountId * CryptoHash) Receipt) : State :=
  let rc := st_receipts s in
  with_receipts s (mkReceiptColumns (rc_received_data rc) (rc_postponed_receipt_ids rc) (rc_pending_data_counts rc) m
    (rc_yield_receipts rc) (rc_yield_status rc) (rc_timeouts rc)).
Definition with_yield_receipts (s : State) (m : gmap (AccountId * CryptoHash) Receipt) : State :=
  let rc := st_receipts s in
  with_receipts s (mkReceiptColumns (rc_received_data rc) (rc_postponed_receipt_ids rc) (rc_pending_data_counts rc) (rc_postponed_receipts rc)
    m (rc_yield_status rc) (rc_timeouts rc)).
Definition with_yield_status (s : State) (m : gmap (AccountId * CryptoHash) PromiseYieldStatus) : State :=
  let rc := st_receipts s in
  with_receipts s (mkReceiptColumns (rc_received_data rc) (rc_postponed_receipt_ids rc) (rc_pending_data_counts rc) (rc_postponed_receipts rc)
    (rc_yield_receipts rc) m (rc_timeouts rc)).
Definition with_timeouts (s : State) (m : TrieQueue PromiseYieldTimeout) : State :=
  let rc := st_receipts s in
  with_receipts s (mkReceiptColumns (rc_received_data rc) (rc_postponed_receipt_ids rc) (rc_pending_data_counts rc) (rc_postponed_receipts rc)
    (rc_yield_receipts rc) (rc_yield_status rc) m).

(** Removes account, code, access keys, gas-key nonces and contract data. *)
Definition remove_account (s : State) (id : AccountId) : State :=
  mkState (delete id (st_accounts s))
    (filter (fun '((a, _), _) => a <> id) (st_access_keys s))
    (filter (fun '((a, _, _), _) => a <> id) (st_gas_key_nonces s))
    (delete id (st_contract_code s))
    (filter (fun '((a, _), _) => a <> id) (st_contract_data s)) (st_globals s) (st_receipts s).

(* ------------------------------------------------------------------ *)
(** ** The overlay: the state of the last commit and the current one

    The pair of maps [TrieUpdate.overlay_refines_map] shows the layers of a
    [TrieUpdate] implement. *)

Record StateUpdate : Type := mkStateUpdate {
  su_committed : State;
  su_current : State;
}.

Definition su_commit (u : StateUpdate) : StateUpdate :=
  mkStateUpdate (su_current u) (su_current u).
Definition su_rollback (u : StateUpdate) : StateUpdate :=
  mkStateUpdate (su_committed u) (su_committed u).
Definition su_put (u : StateUpdate) (s : State) : StateUpdate :=
  mkStateUpdate (su_committed u) s.

(* ------------------------------------------------------------------ *)
(** ** Read-after-write *)

Lemma get_set_account s id a : get_account (set_account s id a) id = Some a.
Proof. apply lookup_insert_eq. Qed.
Lemma get_set_account_ne s id id' a :
  id <> id' -> get_account (set_account s id a) id' = get_account s id'.
Proof. intros. by apply lookup_insert_ne. Qed.
Lemma get_set_access_key s id pk k : get_access_key (set_access_key s id pk k) id pk = Some k.
Proof. apply lookup_insert_eq. Qed.
Lemma get_set_access_key_ne s id pk k id' pk' :
  (id, pk) <> (id', pk') ->
  get_access_key (set_access_key s id pk k) id' pk' = get_access_key s id' pk'.
Proof. intros. by apply lookup_insert_ne. Qed.

Lemma get_set_data {A} (c : codec A) wf s id key v :
  round_trip c wf -> wf v -> get_data c (set_data c s id key v) id key = Ok (Some v).
Proof.
  intros Hc Hv. unfold get_data, set_data, set_contract_data. simpl.
  rewrite lookup_insert_eq. by rewrite (try_from_slice_enc c wf).
Qed.

Lemma get_set_data_ne {A B} (c : codec A) (d : codec B) s id key v id' key' :
  (id, key) <> (id', key') -> get_data d (set_data c s id key v) id' key' = get_data d s id' key'.
Proof.
  intros. unfold get_data, set_data, set_contract_data. simpl.
  by rewrite lookup_insert_ne by done.
Qed.

(* ------------------------------------------------------------------ *)
(** ** Money in the state *)

(** Liquid and staked tokens of all accounts, and the balances of gas keys. *)
Definition account_total (a : Account) : Z := amount a + locked a.
Definition total_accounts (s : State) : Z :=
  map_fold (fun _ a acc => account_total a + acc) 0 (st_accounts s).
Definition key_balance (k : AccessKey) : Z := default 0 (gk_balance <$> gas_key_info k).
Definition total_gas_keys (s : State) : Z :=
  map_fold (fun _ k acc => key_balance k + acc) 0 (st_access_keys s).

Lemma sum_insert {K V} `{Countable K} (f : V -> Z) (m : gmap K V) k v :
  map_fold (fun _ x acc => f x + acc) 0 (<[k := v]> m)
  = map_fold (fun _ x acc => f x + acc) 0 m - default 0 (f <$> m !! k) + f v.
Proof.
  assert (Hins : forall m' : gmap K V, m' !! k = None ->
    map_fold (fun _ x acc => f x + acc) 0 (<[k := v]> m')
    = f v + map_fold (fun _ x acc => f x + acc) 0 m').
  { intros m' Hm'. apply (map_fold_insert_L (fun _ x acc => f x + acc)); [|done].
    intros. lia. }
  destruct (m !! k) as [w|] eqn:E; simpl.
  - rewrite <- insert_delete_eq, Hins by apply lookup_delete_eq.
    rewrite <- (insert_delete_id m k w E) at 2.
    rewrite (map_fold_insert_L (fun _ x acc => f x + acc) 0 k w) ;
      [lia| |apply lookup_delete_eq]. intros. lia.
  - rewrite Hins by done. lia.
Qed.

Lemma sum_delete {K V} `{Countable K} (f : V -> Z) (m : gmap K V) k :
  map_fold (fun _ x acc => f x + acc) 0 (delete k m)
  = map_fold (fun _ x acc => f x + acc) 0 m - default 0 (f <$> m !! k).
Proof.
  destruct (m !! k) as [w|] eqn:E; simpl.
  - rewrite <- (insert_delete_id m k w E) at 2.
    rewrite (map_fold_insert_L (fun _ x acc => f x + acc) 0 k w);
      [lia| |apply lookup_delete_eq]. intros. lia.
  - rewrite delete_id by done. lia.
Qed.

Lemma fold_nonneg {K V} `{Countable K} (f : V -> Z) (m : gmap K V) :
  (forall k v, m !! k = Some v -> 0 <= f v) -> 0 <= map_fold (fun _ x acc => f x + acc) 0 m.
Proof.
  induction m as [|k v m Hm Hfold IH] using map_first_key_ind; intros Hf; [done|].
  rewrite (sum_insert f m k v), Hm. simpl.
  pose proof (Hf k v (lookup_insert_eq m k v)).
  assert (0 <= map_fold (fun _ x acc => f x + acc) 0 m); [|lia].
  apply IH. intros k' v' Hk'. apply (Hf k'). rewrite lookup_insert_ne; [done|]. intros ->. congruence.
Qed.

Lemma total_accounts_set s id a :
  total_accounts (set_account s id a)
  = total_accounts s - default 0 (account_total <$> get_account s id) + account_total a.
Proof. apply sum_insert. Qed.

Lemma total_gas_keys_set s id pk k :
  total_gas_keys (set_access_key s id pk k)
  = total_gas_keys s - default 0 (key_balance <$> get_access_key s id pk) + key_balance k.
Proof. apply sum_insert. Qed.
