(* ===== verification/BitcoinTx.v ===== *)
(** * Bitcoin accounts in the runtime (runtime/src/bitcoin_tx.rs)

    The lock on Patoshi accounts (a balance floor, a restricted set of actions,
    a delayed unlock) and the registration of the key of a Bitcoin account on its
    first transaction. *)

From S2P Require Import Prelude Crates AccountId Addresses Primitives Errors Borsh State.

Definition FOUNDATION_ACCOUNT_ID : AccountId := "near".
Definition PATOSHI_RECORD_DATA_KEY : list Z := as_bytes "bitinfinity:patoshi:v1".
Definition PATOSHI_INDEX_DATA_KEY : list Z := as_bytes "bitinfinity:patoshi:index:v1".
Definition PATOSHI_UNLOCK_DELAY_EPOCHS : Z := 14.

Record PatoshiRecord : Type := mkPatoshiRecord {
  genesis_balance : Z;
  is_locked : bool;
  unlock_epoch : option Z;
}.

#[export] Instance PatoshiRecord_eq_dec : EqDecision PatoshiRecord.
Proof. solve_decision. Defined.

(** The derived Borsh encoding. *)
Definition patoshi_record_c : codec PatoshiRecord :=
  map_c (pair_c u128_c (pair_c bool_c (option_c u64_c)))
    (fun r => (genesis_balance r, (is_locked r, unlock_epoch r)))
    (fun '(g, (l, u)) => mkPatoshiRecord g l u).

Definition get_patoshi_record (s : State) (id : AccountId)
    : result (option PatoshiRecord) StorageError :=
  get_data patoshi_record_c s id PATOSHI_RECORD_DATA_KEY.

Definition set_patoshi_record (s : State) (id : AccountId) (r : PatoshiRecord) : State :=
  set_data patoshi_record_c s id PATOSHI_RECORD_DATA_KEY r.

Section index.
Context {C : Crates}.

(** The [collect] into a [Result]: stops at the first invalid identifier. *)
Fixpoint parse_accounts (l : list string) : result (list AccountId) StorageError :=
  match l with
  | [] => Ok []
  | a :: l =>
      match validate a with
      | Ok _ => let? rest := parse_accounts l in Ok (a :: rest)
      | _ => Err (StorageInconsistentState
                    (Msg "Invalid account in Patoshi index `{}`: {}" [FS a]))
      end
  end.

Definition get_patoshi_index (s : State) : result (list AccountId) StorageError :=
  let? o := get_data (vec_c string_c) s FOUNDATION_ACCOUNT_ID PATOSHI_INDEX_DATA_KEY in
  match o with
  | None => Ok []
  | Some accounts => parse_accounts accounts
  end.
End index.

Definition is_patoshi_locked (record : PatoshiRecord) (epoch_height : Z) : bool :=
  if negb (is_locked record) then false
  else match unlock_epoch record with
  | Some unlock_epoch => epoch_height <? unlock_epoch
  | None => true
  end.

Definition compute_patoshi_sweep (liquid_balance locked_balance genesis_balance : Z) : Z * Z :=
  let total_balance := saturating_add u128_max liquid_balance locked_balance in
  let excess := saturating_sub total_balance genesis_balance in
  let sweep_amount := Z.min liquid_balance excess in
  let unswept_excess := saturating_sub excess sweep_amount in
  (sweep_amount, unswept_excess).

Definition action_name (a : Action) : string :=
  match a with
  | Plain CreateAccount => "CreateAccount"
  | Plain (DeployContract _) => "DeployContract"
  | Plain (FunctionCall _) => "FunctionCall"
  | Plain (Transfer _) => "Transfer"
  | Plain (Stake _) => "Stake"
  | Plain (AddKey _) => "AddKey"
  | Plain (DeleteKey _) => "DeleteKey"
  | Plain (DeleteAccount _) => "DeleteAccount"
  | Delegate _ => "Delegate"
  | Plain (DeployGlobalContract _) => "DeployGlobalContract"
  | Plain (UseGlobalContract _) => "UseGlobalContract"
  | Plain (TransferToGasKey _ _) => "TransferToGasKey"
  | Plain (WithdrawFromGasKey _ _) => "WithdrawFromGasKey"
  | Plain (DeterministicStateInit _) => "DeterministicStateInit"
  end.

Definition patoshi_validation_error (reason : string) (protocol_version : Z) : InvalidTxError :=
  TxActionsValidation (UnsupportedProtocolFeature reason protocol_version).

(** The loop over the actions of a locked account. *)
Fixpoint check_locked_actions (signer_id receiver_id : AccountId) (protocol_version : Z)
    (acts : list Action) : result unit InvalidTxError :=
  match acts with
  | [] => Ok tt
  | a :: acts =>
      let? _ :=
        match a with
        | Plain (Stake _) =>
            if negb (bool_decide (receiver_id = signer_id)) then
              Err (patoshi_validation_error "patoshi_locked_stake_requires_self_receiver"
                     protocol_version)
            else Ok tt
        | Plain (Transfer _) =>
            if negb (bool_decide (receiver_id = FOUNDATION_ACCOUNT_ID)) then
              Err (patoshi_validation_error
                     "patoshi_locked_transfer_requires_foundation_receiver" protocol_version)
            else Ok tt
        | _ => Err (patoshi_validation_error
                      ("patoshi_locked_action_blocked:" +:+ action_name a) protocol_version)
        end in
      check_locked_actions signer_id receiver_id protocol_version acts
  end.

Definition validate_locked_patoshi_transaction (signer_id receiver_id : AccountId)
    (acts : list Action) (post_tx_total_balance epoch_height protocol_version : Z)
    (record : PatoshiRecord) : result unit InvalidTxError :=
  if negb (is_patoshi_locked record epoch_height) then Ok tt
  else
    let? _ := check_locked_actions signer_id receiver_id protocol_version acts in
    if post_tx_total_balance <? genesis_balance record then
      Err (patoshi_validation_error "patoshi_below_genesis_floor" protocol_version)
    else Ok tt.

Definition is_patoshi_unlock_trigger (receiver_id : AccountId) (acts : list Action) : bool :=
  if negb (bool_decide (receiver_id = FOUNDATION_ACCOUNT_ID))
     || negb (length acts =? 1)%nat then false
  else match acts with
  | Plain (Transfer deposit) :: _ => deposit =? 0
  | _ => false
  end.

(** The mutated record and the scheduled epoch, if any. *)
Definition maybe_schedule_patoshi_unlock (record : PatoshiRecord) (receiver_id : AccountId)
    (acts : list Action) (current_epoch : Z) : PatoshiRecord * option Z :=
  if negb (is_patoshi_locked record current_epoch)
     || match unlock_epoch record with Some _ => true | None => false end
  then (record, None)
  else if negb (is_patoshi_unlock_trigger receiver_id acts) then (record, None)
  else
    let unlock_epoch := saturating_add u64_max current_epoch PATOSHI_UNLOCK_DELAY_EPOCHS in
    (mkPatoshiRecord (genesis_balance record) (is_locked record) (Some unlock_epoch),
     Some unlock_epoch).

(* ------------------------------------------------------------------ *)
(** ** Recovery and registration of keys *)

Section register.
Context {C : Crates}.

Definition is_bitcoin_address (account_id : AccountId) : bool :=
  match get_account_type account_id with
  | BtcImplicitAccount => true
  | _ => false
  end.

(** [Secp256K1Signature::recover]: the key without its leading byte. *)
Definition secp_recover (sig msg : list Z) : option (list Z) :=
  match recover_ecdsa sig msg with
  | Some res => Some (take 64 (drop 1 res))
  | None => None
  end.

Definition recover_secp256k1_signature (message_hash : list Z) (signature : Signature)
    : result (PublicKey * string) message :=
  match signature with
  | SigSECP256K1 sig =>
      if negb (length message_hash =? 32)%nat
      then Err (lit "Message hash must be exactly 32 bytes")
      else match secp_recover sig message_hash with
      | None => Err (lit "Failed to recover public key: {}")
      | Some recovered_pubkey =>
          let addresses := derive_all_bitcoin_addresses recovered_pubkey in
          Ok (SECP256K1 recovered_pubkey, default ""%string (head addresses))
      end
  | SigED25519 _ => Err (lit "Signature is not secp256k1; cannot recover public key")
  end.

Definition auto_register_access_key_if_needed (s : State) (account_id : AccountId)
    (pubkey : PublicKey) : State * bool :=
  match get_access_key s account_id pubkey with
  | Some _ => (s, false)
  | None => (set_access_key s account_id pubkey full_access, true)
  end.

Definition verify_and_register_bitcoin_transaction (tx_signature : Signature)
    (message_hash : list Z) (signer_id : AccountId) (s : State)
    : result (State * (bool * option PublicKey)) message :=
  if is_bitcoin_address signer_id then
    let? (recovered_pubkey, _) := recover_secp256k1_signature message_hash tx_signature in
    match recovered_pubkey with
    | SECP256K1 secp_key =>
        let all_addresses := derive_all_bitcoin_addresses secp_key in
        if negb (existsb (String.eqb signer_id) all_addresses) then Ok (s, (false, None))
        else
          let '(s, _) := auto_register_access_key_if_needed s signer_id recovered_pubkey in
          Ok (s, (true, Some recovered_pubkey))
    | _ => Err (lit "Expected secp256k1 public key")
    end
  else Ok (s, (true, None)).
End register.

(* ------------------------------------------------------------------ *)
(** ** Records in the state *)

Definition record_ok (r : PatoshiRecord) : Prop :=
  is_u u128_max (genesis_balance r) /\ forall e, unlock_epoch r = Some e -> is_u u64_max e.

Lemma patoshi_record_rt : round_trip patoshi_record_c record_ok.
Proof.
  eapply map_rt; [apply pair_rt; [apply u128_rt|apply pair_rt; [apply bool_rt|]]|].
  - apply option_rt, u64_rt.
  - intros [g l u] [Hg Hu]. simpl in *. by split_and!.
Qed.

Lemma get_set_patoshi_record s id r :
  record_ok r -> get_patoshi_record (set_patoshi_record s id r) id = Ok (Some r).
Proof. apply (get_set_data _ record_ok), patoshi_record_rt. Qed.

(* ------------------------------------------------------------------ *)
(** ** Scheduling the unlock *)

(** The record after the unlock was scheduled at [epoch]. *)
Definition scheduled_record (record : PatoshiRecord) (epoch : Z) : PatoshiRecord :=
  mkPatoshiRecord (genesis_balance record) (is_locked record)
    (Some (saturating_add u64_max epoch PATOSHI_UNLOCK_DELAY_EPOCHS)).

Lemma scheduled_record_ok record epoch :
  record_ok record -> is_u u64_max epoch -> record_ok (scheduled_record record epoch).
Proof.
  intros [Hg _] He. split; [done|]. intros u [= <-].
  unfold saturating_add, PATOSHI_UNLOCK_DELAY_EPOCHS, is_u, u64_max in *. lia.
Qed.

Lemma trigger_inv receiver_id acts :
  is_patoshi_unlock_trigger receiver_id acts = true ->
  receiver_id = FOUNDATION_ACCOUNT_ID /\ acts = [Plain (Transfer 0)].
Proof.
  unfold is_patoshi_unlock_trigger. case_bool_decide; [|done].
  destruct acts as [|a [|b acts]]; simpl; try done. destruct a as [a|]; [|done].
  destruct a; try done. by intros ->%Z.eqb_eq.
Qed.

Lemma schedule_cases r receiver_id acts e :
  (maybe_schedule_patoshi_unlock r receiver_id acts e = (r, None))
  \/ (unlock_epoch r = None /\ is_patoshi_locked r e = true
      /\ is_patoshi_unlock_trigger receiver_id acts = true
      /\ let u := saturating_add u64_max e PATOSHI_UNLOCK_DELAY_EPOCHS in
         maybe_schedule_patoshi_unlock r receiver_id acts e
         = (mkPatoshiRecord (genesis_balance r) (is_locked r) (Some u), Some u)).
Proof.
  unfold maybe_schedule_patoshi_unlock.
  destruct (is_patoshi_locked r e); simpl; [|by left].
  destruct (unlock_epoch r); simpl; [by left|].
  destruct (is_patoshi_unlock_trigger receiver_id acts); simpl; [by right|by left].
Qed.

(** What a locked account may do. *)
Definition locked_action_allowed (signer_id receiver_id : AccountId) (a : Action) : bool :=
  match a with
  | Plain (Stake _) => bool_decide (receiver_id = signer_id)
  | Plain (Transfer _) => bool_decide (receiver_id = FOUNDATION_ACCOUNT_ID)
  | _ => false
  end.

Lemma check_locked_actions_Ok signer_id receiver_id v acts :
  check_locked_actions signer_id receiver_id v acts = Ok tt <->
  forallb (locked_action_allowed signer_id receiver_id) acts = true.
Proof.
  induction acts as [|a acts IH]; simpl; [done|].
  destruct a as [[]|]; simpl; try done; case_bool_decide; simpl; done.
Qed.

(** A transaction of a locked Patoshi account is accepted exactly when
    every action stakes on the signer itself or transfers to the foundation and
    the balance that remains, liquid plus staked, is at least the genesis floor;
    any other account is unaffected. *)
Theorem locked_transaction_accepted signer_id receiver_id acts post e v record :
  validate_locked_patoshi_transaction signer_id receiver_id acts post e v record = Ok tt <->
  is_patoshi_locked record e = false
  \/ (forallb (locked_action_allowed signer_id receiver_id) acts = true
      /\ genesis_balance record <= post).
Proof.
  unfold validate_locked_patoshi_transaction.
  destruct (is_patoshi_locked record e); simpl; [|naive_solver].
  rewrite <- (check_locked_actions_Ok _ _ v).
  destruct (check_locked_actions _ _ _ _) as [[]| |]; simpl; [|naive_solver..].
  destruct (Z.ltb_spec post (genesis_balance record)); split; try done.
  - intros [?|[_ ?]]; [done|lia].
  - intros _. right. split; [done|lia].
Qed.

(** The epoch sweep of a locked account takes only liquid balance and only
    the excess over the floor: what is left, liquid plus staked, is the smaller of
    the old total and the floor whenever the liquid part covers the excess, it
    never goes below that, and swept and unswept amounts add up to the excess. *)
Theorem sweep_exact liquid staked floor sweep unswept :
  0 <= liquid -> 0 <= staked -> 0 <= floor -> liquid + staked <= u128_max ->
  compute_patoshi_sweep liquid staked floor = (sweep, unswept) ->
  0 <= sweep <= liquid /\ 0 <= unswept
  /\ sweep + unswept = Z.max 0 (liquid + staked - floor)
  /\ Z.min (liquid + staked) floor <= (liquid - sweep) + staked
  /\ (staked <= floor -> (liquid - sweep) + staked = Z.min (liquid + staked) floor)
  /\ (0 < unswept -> sweep = liquid).
Proof.
  intros ? ? ? ? [= <- <-]. unfold saturating_add, saturating_sub. lia.
Qed.

(* ------------------------------------------------------------------ *)
(** ** Registration *)

(** [s'] is [s] up to one access key. *)
Definition same_but_key (s s' : State) (id : AccountId) (pk : PublicKey) : Prop :=
  st_accounts s' = st_accounts s /\ st_gas_key_nonces s' = st_gas_key_nonces s
  /\ st_contract_code s' = st_contract_code s /\ st_contract_data s' = st_contract_data s
  /\ st_globals s' = st_globals s /\ st_receipts s' = st_receipts s
  /\ forall id' pk', (id', pk') <> (id, pk) -> get_access_key s' id' pk' = get_access_key s id' pk'.

Lemma same_but_key_refl s id pk : same_but_key s s id pk.
Proof. by split_and!. Qed.

Lemma same_but_key_set s id pk k : same_but_key s (set_access_key s id pk k) id pk.
Proof. split_and!; try done. intros. by apply get_set_access_key_ne. Qed.

Lemma same_but_key_trans s1 s2 s3 id pk :
  same_but_key s1 s2 id pk -> same_but_key s2 s3 id pk -> same_but_key s1 s3 id pk.
Proof.
  intros (? & ? & ? & ? & ? & ? & Ha) (? & ? & ? & ? & ? & ? & Hb). split_and!; try congruence.
  intros. rewrite Hb by done. by apply Ha.
Qed.

#[export] Hint Resolve same_but_key_refl same_but_key_set : rust.

Section register_spec.
Context {C : Crates}.

Lemma auto_register_spec s id pk s' b :
  auto_register_access_key_if_needed s id pk = (s', b) ->
  same_but_key s s' id pk
  /\ get_access_key s' id pk = Some (default full_access (get_access_key s id pk))
  /\ (b = true <-> get_access_key s id pk = None).
Proof.
  unfold auto_register_access_key_if_needed. intros H.
  destruct (get_access_key s id pk) as [k|] eqn:E; injection H as <- <-; simpl.
  - split_and!; auto with rust; done.
  - split_and!; [auto with rust|apply get_set_access_key|done].
Qed.

Lemma registration_cases sig msg signer s s' valid okey :
  is_bitcoin_address signer = true ->
  verify_and_register_bitcoin_transaction sig msg signer s = Ok (s', (valid, okey)) ->
  exists raw k, sig = SigSECP256K1 raw /\ secp_recover raw msg = Some k
    /\ valid = existsb (String.eqb signer) (derive_all_bitcoin_addresses k)
    /\ (if valid then
          okey = Some (SECP256K1 k) /\ signer ∈ derive_all_bitcoin_addresses k
          /\ same_but_key s s' signer (SECP256K1 k)
          /\ get_access_key s' signer (SECP256K1 k)
             = Some (default full_access (get_access_key s signer (SECP256K1 k)))
        else okey = None /\ s' = s).
Proof.
  unfold verify_and_register_bitcoin_transaction. intros -> H.
  destruct sig as [|raw]; simpl in H; [done|]. exists raw.
  destruct (length msg =? 32)%nat; simpl in H; [|done].
  destruct (secp_recover raw msg) as [k|]; simpl in H; [|done]. exists k.
  destruct (existsb _ _) eqn:E; simpl in H.
  - destruct (auto_register_access_key_if_needed _ _ _) as [s1 b] eqn:Er.
    injection H as <- <- <-. apply auto_register_spec in Er as (? & ? & _).
    split_and!; try done. apply existsb_exists in E as (x & Hin & ->%String.eqb_eq).
    by apply list_elem_of_In.
  - injection H as <- <- <-. by split_and!.
Qed.

(** A key is registered for a Bitcoin account only by its owner: when the
    verification succeeds, the signature is a secp256k1 one from which a key is
    recovered, one of the addresses of that key is the account, and the state
    differs at most in the entry of that key, which is a fresh full-access key or
    the one that was there; when the addresses do not match, the state is
    unchanged. *)
Theorem registration_sound sig msg signer s s' valid okey :
  is_bitcoin_address signer = true ->
  verify_and_register_bitcoin_transaction sig msg signer s = Ok (s', (valid, okey)) ->
  exists raw k, sig = SigSECP256K1 raw /\ secp_recover raw msg = Some k
    /\ valid = existsb (String.eqb signer) (derive_all_bitcoin_addresses k)
    /\ (if valid then
          okey = Some (SECP256K1 k) /\ signer ∈ derive_all_bitcoin_addresses k
          /\ same_but_key s s' signer (SECP256K1 k)
          /\ get_access_key s' signer (SECP256K1 k)
             = Some (default full_access (get_access_key s signer (SECP256K1 k)))
        else okey = None /\ s' = s).
Proof. apply registration_cases. Qed.
End register_spec.

(* ------------------------------------------------------------------ *)
(** ** The theorems at concrete inputs *)

Section witnesses.
#[local] Existing Instance Toy.crates.

Definition sample_record : PatoshiRecord := mkPatoshiRecord 1000 true None.

Lemma sweep_exact_witness :
  (700 - 300) + 600 = Z.min (700 + 600) 1000.
Proof.
  apply (sweep_exact 700 600 1000 300 0); vm_compute; congruence.
Defined.

Definition sample_sig : list Z := sample_program 65.
Definition sample_msg : list Z := sample_program 32.
Definition sample_key : list Z := default [] (secp_recover sample_sig sample_msg).
Definition sample_btc : AccountId := derive_bitcoin_p2wpkh_from_pubkey sample_key.

Lemma sample_btc_is_bitcoin : is_bitcoin_address sample_btc = true.
Proof. vm_compute. reflexivity. Qed.

Lemma sample_recover : secp_recover sample_sig sample_msg = Some sample_key.
Proof. vm_compute. reflexivity. Qed.

Lemma sample_match : existsb (String.eqb sample_btc) (derive_all_bitcoin_addresses sample_key) = true.
Proof. vm_compute. reflexivity. Qed.

Lemma sample_registration :
  verify_and_register_bitcoin_transaction (SigSECP256K1 sample_sig) sample_msg sample_btc empty_state
  = Ok (set_access_key empty_state sample_btc (SECP256K1 sample_key) full_access,
        (true, Some (SECP256K1 sample_key))).
Proof.
  unfold verify_and_register_bitcoin_transaction, recover_secp256k1_signature.
  rewrite sample_btc_is_bitcoin. change (length sample_msg =? 32)%nat with true. cbn [negb].
  rewrite sample_recover. cbn [rbind]. by rewrite sample_match.
Qed.

Lemma registration_sound_witness :
  exists raw k, SigSECP256K1 sample_sig = SigSECP256K1 raw
     /\ secp_recover raw sample_msg = Some k
     /\ true = existsb (String.eqb sample_btc) (derive_all_bitcoin_addresses k)
     /\ (Some (SECP256K1 sample_key) = Some (SECP256K1 k)
         /\ sample_btc ∈ derive_all_bitcoin_addresses k
         /\ same_but_key empty_state
              (set_access_key empty_state sample_btc (SECP256K1 sample_key) full_access)
              sample_btc (SECP256K1 k)
         /\ get_access_key
              (set_access_key empty_state sample_btc (SECP256K1 sample_key) full_access)
              sample_btc (SECP256K1 k)
            = Some (default full_access (get_access_key empty_state sample_btc (SECP256K1 k)))).
Proof.
  exact (registration_sound _ _ _ _ _ true _ sample_btc_is_bitcoin sample_registration).
Defined.
End witnesses.
