(* ===== verification/RuntimeTypes.v ===== *)
(** * Types of the runtime (runtime/src/lib.rs)

    The environment of a chunk, the verdict on a transaction, and the result an
    action builds up.  The execution profile of a result (a breakdown of the gas
    used, kept for metrics) is not modelled. *)

From S2P Require Import Prelude Crates AccountId Primitives Errors Fees State.

(** The fields of [ApplyState] the modelled code reads. *)
Record ApplyState : Type := mkApplyState {
  block_height : Z;
  epoch_height : Z;
  gas_price : Z;
  gas_limit : option Z;
  current_protocol_version : Z;
  config : RuntimeConfig;
  shard_id : Z;
}.

(** What handlers ask the epoch manager and the wallet-contract crate: the
    minimum stake of the epoch, and the marker code of the wallet accounts of
    the chain. *)
Record EpochInfo : Type := mkEpochInfo {
  minimum_stake : result Z RuntimeError;
  wallet_contract_magic_bytes : list Z;
}.

Record ValidatorAccountsUpdate : Type := mkValidatorAccountsUpdate {
  stake_info : gmap AccountId Z;
  validator_rewards : gmap AccountId Z;
  last_proposals : gmap AccountId Z;
  protocol_treasury_account_id : option AccountId;
}.

(* ------------------------------------------------------------------ *)
(** ** Verdicts *)

Inductive AccessKeyUpdate : Type :=
| Regular (nonce : Z) (new_allowance : option Z)
| GasKey (new_balance nonce_index nonce : Z).

Record VerificationResult : Type := mkVerificationResult {
  vr_gas_burnt : Z;
  vr_gas_remaining : Z;
  vr_receipt_gas_price : Z;
  vr_burnt_amount : Z;
  vr_new_account_amount : Z;
  vr_access_key_update : AccessKeyUpdate;
}.

Inductive TxVerdict : Type :=
| Success (r : VerificationResult)
| DepositFailed (r : VerificationResult) (error : InvalidTxError)
| Failed (error : InvalidTxError).

(** [VerificationResult::apply]; the [unwrap]s panic on a key of the wrong kind. *)
Definition vr_apply (r : VerificationResult) (account : Account) (access_key : AccessKey)
    : result (Account * AccessKey) unit :=
  let account := set_amount account (vr_new_account_amount r) in
  match vr_access_key_update r with
  | Regular nonce new_allowance =>
      let access_key := set_nonce access_key nonce in
      match new_allowance with
      | Some a =>
          match function_call_permission (ak_permission access_key) with
          | Some _ => Ok (account, set_allowance access_key (Some a))
          | None => Panic
          end
      | None => Ok (account, access_key)
      end
  | GasKey new_balance _ _ =>
      match gas_key_info access_key with
      | Some g => Ok (account, set_gas_key_info access_key (mkGasKeyInfo new_balance (gk_num_nonces g)))
      | None => Panic
      end
  end.

Definition gas_key_nonce_update (r : VerificationResult) : option (Z * Z) :=
  match vr_access_key_update r with
  | GasKey _ nonce_index nonce => Some (nonce_index, nonce)
  | _ => None
  end.

(* ------------------------------------------------------------------ *)
(** ** Results of actions *)

Inductive ReturnData : Type :=
| Value (v : list Z)
| ReceiptIndex (i : Z)
| ReturnNone.

Record ValidatorStake : Type := mkValidatorStake {
  vs_account_id : AccountId;
  vs_public_key : PublicKey;
  vs_stake : Z;
}.

Record ActionResult : Type := mkActionResult {
  res_gas_burnt : Z;
  res_gas_burnt_for_function_call : Z;
  res_gas_used : Z;
  res_compute_usage : Z;
  res_result : ReturnData + ActionError;
  res_logs : list string;
  res_new_receipts : list Receipt;
  res_validator_proposals : list ValidatorStake;
  res_tokens_burnt : Z;
}.

(** [ActionResult::default()]. *)
Definition result_default : ActionResult :=
  mkActionResult 0 0 0 0 (inl ReturnNone) [] [] [] 0.

Definition result_is_ok (r : ActionResult) : bool :=
  match res_result r with
  | inl _ => true
  | inr _ => false
  end.

(** [result.result = Err(kind.into())]. *)
Definition fail (r : ActionResult) (k : ActionErrorKind) : ActionResult :=
  mkActionResult (res_gas_burnt r) (res_gas_burnt_for_function_call r) (res_gas_used r)
    (res_compute_usage r) (inr (action_error k)) (res_logs r) (res_new_receipts r)
    (res_validator_proposals r) (res_tokens_burnt r).

Definition set_tokens_burnt (r : ActionResult) (x : Z) : ActionResult :=
  mkActionResult (res_gas_burnt r) (res_gas_burnt_for_function_call r) (res_gas_used r)
    (res_compute_usage r) (res_result r) (res_logs r) (res_new_receipts r)
    (res_validator_proposals r) x.

(** [result.result = Err(e)] for an error that is already an [ActionError]. *)
Definition fail_with (r : ActionResult) (e : ActionError) : ActionResult :=
  mkActionResult (res_gas_burnt r) (res_gas_burnt_for_function_call r) (res_gas_used r)
    (res_compute_usage r) (inr e) (res_logs r) (res_new_receipts r)
    (res_validator_proposals r) (res_tokens_burnt r).

Definition set_gas (r : ActionResult) (burnt used compute : Z) : ActionResult :=
  mkActionResult burnt (res_gas_burnt_for_function_call r) used compute (res_result r)
    (res_logs r) (res_new_receipts r) (res_validator_proposals r) (res_tokens_burnt r).

Definition set_compute_usage (r : ActionResult) (x : Z) : ActionResult :=
  mkActionResult (res_gas_burnt r) (res_gas_burnt_for_function_call r) (res_gas_used r)
    x (res_result r) (res_logs r) (res_new_receipts r)
    (res_validator_proposals r) (res_tokens_burnt r).

Definition push_receipt (r : ActionResult) (rc : Receipt) : ActionResult :=
  mkActionResult (res_gas_burnt r) (res_gas_burnt_for_function_call r) (res_gas_used r)
    (res_compute_usage r) (res_result r) (res_logs r) (res_new_receipts r ++ [rc])
    (res_validator_proposals r) (res_tokens_burnt r).

Definition push_proposal (r : ActionResult) (v : ValidatorStake) : ActionResult :=
  mkActionResult (res_gas_burnt r) (res_gas_burnt_for_function_call r) (res_gas_used r)
    (res_compute_usage r) (res_result r) (res_logs r) (res_new_receipts r)
    (res_validator_proposals r ++ [v]) (res_tokens_burnt r).

(** [impl From<IntegerOverflowError> for RuntimeError]. *)
Definition overflow_error (_ : IntegerOverflowError) : RuntimeError :=
  UnexpectedIntegerOverflow (lit "").

(** [ActionResult::merge]; the assertions on gas panic. *)
Definition merge (self next : ActionResult) : result ActionResult RuntimeError :=
  if negb (res_gas_burnt_for_function_call next <=? res_gas_burnt next) then Panic
  else if negb (res_gas_burnt next <=? res_gas_used next) then Panic
  else
    let? gb := map_err overflow_error
                 (checked_add_result (res_gas_burnt self) (res_gas_burnt next)) in
    let? gf := map_err overflow_error
                 (checked_add_result (res_gas_burnt_for_function_call self)
                    (res_gas_burnt_for_function_call next)) in
    let? gu := map_err overflow_error
                 (checked_add_result (res_gas_used self) (res_gas_used next)) in
    let? cu := map_err overflow_error
                 (safe_add_compute (res_compute_usage self) (res_compute_usage next)) in
    let logs := res_logs self ++ res_logs next in
    let res := match res_result next with
               | inl (ReceiptIndex i) => inl (ReceiptIndex (i + vec_len (res_new_receipts self)))
               | r => r
               end in
    match res with
    | inl _ =>
        let? tb := map_err overflow_error
                     (ok_or (checked_add u128_max (res_tokens_burnt self) (res_tokens_burnt next))
                        IntegerOverflow) in
        Ok (mkActionResult gb gf gu cu res logs
              (res_new_receipts self ++ res_new_receipts next)
              (res_validator_proposals self ++ res_validator_proposals next) tb)
    | inr _ => Ok (mkActionResult gb gf gu cu res logs [] [] 0)
    end.
