(* ===== verification/AccessKeys.v ===== *)
(** * Access keys and gas keys (runtime/src/access_keys.rs)

    Adding and deleting keys with their storage accounting, and moving tokens
    between an account and its gas keys.  A handler takes the mutable arguments of
    the source (state, account, result) and returns them. *)

From S2P Require Import Prelude Crates AccountId Primitives Errors Fees Borsh Wire State RuntimeTypes.

(** [borsh::object_length]. *)
Definition object_length {A : Type} (c : codec A) (a : A) : Z := vec_len (enc c a).

Definition access_key_storage_usage (cfg : RuntimeFeesConfig) (pk : PublicKey) (k : AccessKey) : Z :=
  object_length public_key_c pk + object_length access_key_c k
  + num_extra_bytes_record (storage_usage_config cfg).

Definition gas_key_storage_cost (cfg : RuntimeFeesConfig) (pk : PublicKey) (k : AccessKey)
    (num_nonces : Z) : Z :=
  let per_nonce_value_size := object_length u64_c 0 in
  let per_nonce_key_size := object_length public_key_c pk + 2 in
  num_nonces * (per_nonce_key_size + per_nonce_value_size
                + num_extra_bytes_record (storage_usage_config cfg))
  + access_key_storage_usage cfg pk k.

(** [(block_height - 1) * ACCESS_KEY_NONCE_RANGE_MULTIPLIER], with overflow
    checks. *)
Definition initial_nonce_value {E : Type} (block_height : Z) : result Z E :=
  let? h := sub_or_panic block_height 1 in
  mul_or_panic u64_max h ACCESS_KEY_NONCE_RANGE_MULTIPLIER.

(** [for i in 0..num_nonces { .. }] *)
Definition for_nonces (num_nonces : Z) (f : State -> Z -> State) (s : State) : State :=
  fold_left f (seqZ 0 num_nonces) s.

Definition delete_regular_key (cfg : RuntimeFeesConfig) (s : State) (account : Account)
    (id : AccountId) (pk : PublicKey) (k : AccessKey) : State * Account :=
  let usage := access_key_storage_usage cfg pk k in
  (remove_access_key s id pk,
   set_storage_usage account (saturating_sub (storage_usage account) usage)).

Definition gas_key_nonce_delete_compute_cost : Z := 0.

Definition delete_gas_key (cfg : RuntimeFeesConfig) (s : State) (account : Account)
    (res : ActionResult) (id : AccountId) (pk : PublicKey) (k : AccessKey) (g : GasKeyInfo)
    : result (State * Account * ActionResult) RuntimeError :=
  if MAX_BALANCE_TO_BURN <? gk_balance g then
    Ok (s, account, fail res (GasKeyBalanceTooHigh id (Some pk) (gk_balance g)))
  else
    let? tb := map_err overflow_error
                 (ok_or (checked_add u128_max (res_tokens_burnt res) (gk_balance g))
                    IntegerOverflow) in
    let res := set_tokens_burnt res tb in
    let s := for_nonces (gk_num_nonces g) (fun s i => remove_gas_key_nonce s id pk i) s in
    let? cost := mul_or_panic u64_max gas_key_nonce_delete_compute_cost (gk_num_nonces g) in
    let? cu := map_err overflow_error (safe_add_compute (res_compute_usage res) cost) in
    let res := set_compute_usage res cu in
    let s := remove_access_key s id pk in
    let account := set_storage_usage account
      (saturating_sub (storage_usage account) (gas_key_storage_cost cfg pk k (gk_num_nonces g))) in
    Ok (s, account, res).

Definition action_delete_key (cfg : RuntimeFeesConfig) (s : State) (account : Account)
    (res : ActionResult) (id : AccountId) (pk : PublicKey)
    : result (State * Account * ActionResult) RuntimeError :=
  match get_access_key s id pk with
  | Some k =>
      match gas_key_info k with
      | Some g => delete_gas_key cfg s account res id pk k g
      | None =>
          let '(s, account) := delete_regular_key cfg s account id pk k in Ok (s, account, res)
      end
  | None => Ok (s, account, fail res (DeleteKeyDoesNotExist id pk))
  end.

Definition storage_overflow (id : AccountId) : RuntimeError :=
  RtStorageError (StorageInconsistentState
    (Msg "Storage usage integer overflow for account {}" [FS id])).

Definition add_gas_key (cfg : RuntimeFeesConfig) (s : State) (account : Account) (id : AccountId)
    (pk : PublicKey) (k : AccessKey) (g : GasKeyInfo) (block_height : Z)
    : result (State * Account) RuntimeError :=
  let k := set_nonce k 0 in
  let s := set_access_key s id pk k in
  let num_nonces := gk_num_nonces g in
  let? nonce := initial_nonce_value block_height in
  let s := for_nonces num_nonces (fun s i => set_gas_key_nonce s id pk i nonce) s in
  let? usage := ok_or (checked_add u64_max (storage_usage account)
                         (gas_key_storage_cost cfg pk k num_nonces)) (storage_overflow id) in
  Ok (s, set_storage_usage account usage).

Definition add_regular_key (cfg : RuntimeFeesConfig) (s : State) (account : Account)
    (id : AccountId) (pk : PublicKey) (k : AccessKey) (block_height : Z)
    : result (State * Account) RuntimeError :=
  let? nonce := initial_nonce_value block_height in
  let k := set_nonce k nonce in
  let s := set_access_key s id pk k in
  let? usage := ok_or (checked_add u64_max (storage_usage account)
                         (access_key_storage_usage cfg pk k)) (storage_overflow id) in
  Ok (s, set_storage_usage account usage).

Definition action_add_key (ap : ApplyState) (s : State) (account : Account) (res : ActionResult)
    (id : AccountId) (a : AddKeyAction) : result (State * Account * ActionResult) RuntimeError :=
  match get_access_key s id (ad_public_key a) with
  | Some _ => Ok (s, account, fail res (AddKeyAlreadyExists id (ad_public_key a)))
  | None =>
      let cfg := fees (config ap) in
      let? (s, account) :=
        match gas_key_info (ad_access_key a) with
        | Some g => add_gas_key cfg s account id (ad_public_key a) (ad_access_key a) g (block_height ap)
        | None => add_regular_key cfg s account id (ad_public_key a) (ad_access_key a) (block_height ap)
        end in
      Ok (s, account, res)
  end.

Definition action_transfer_to_gas_key (s : State) (res : ActionResult) (id : AccountId)
    (pk : PublicKey) (deposit : Z) : result (State * ActionResult) RuntimeError :=
  match get_access_key s id pk with
  | None => Ok (s, fail res (GasKeyDoesNotExist id pk))
  | Some k =>
      match gas_key_info k with
      | None => Ok (s, fail res (GasKeyDoesNotExist id pk))
      | Some g =>
          let? b := ok_or (checked_add u128_max (gk_balance g) deposit)
                      (RtStorageError (StorageInconsistentState
                         (lit "gas key balance integer overflow"))) in
          let k := set_gas_key_info k (mkGasKeyInfo b (gk_num_nonces g)) in
          Ok (set_access_key s id pk k, res)
      end
  end.

Definition action_withdraw_from_gas_key (s : State) (account : Account) (res : ActionResult)
    (id : AccountId) (pk : PublicKey) (withdrawn : Z)
    : result (State * Account * ActionResult) RuntimeError :=
  match get_access_key s id pk with
  | None => Ok (s, account, fail res (GasKeyDoesNotExist id pk))
  | Some k =>
      match gas_key_info k with
      | None => Ok (s, account, fail res (GasKeyDoesNotExist id pk))
      | Some g =>
          match checked_sub (gk_balance g) withdrawn with
          | None => Ok (s, account, fail res (InsufficientGasKeyBalance id pk (gk_balance g) withdrawn))
          | Some updated_balance =>
              let k := set_gas_key_info k (mkGasKeyInfo updated_balance (gk_num_nonces g)) in
              let s := set_access_key s id pk k in
              let? b := ok_or (checked_add u128_max (amount account) withdrawn)
                          (RtStorageError (StorageInconsistentState
                             (lit "Account balance integer overflow"))) in
              Ok (s, set_amount account b, res)
          end
      end
  end.

(* ------------------------------------------------------------------ *)
(** ** Lemmas on the loops over nonces *)

Lemma for_nonces_frame n f s :
  (forall s i, st_accounts (f s i) = st_accounts s /\ st_access_keys (f s i) = st_access_keys s
    /\ st_contract_code (f s i) = st_contract_code s
    /\ st_contract_data (f s i) = st_contract_data s
    /\ st_globals (f s i) = st_globals s /\ st_receipts (f s i) = st_receipts s) ->
  let s' := for_nonces n f s in
  st_accounts s' = st_accounts s /\ st_access_keys s' = st_access_keys s
  /\ st_contract_code s' = st_contract_code s /\ st_contract_data s' = st_contract_data s
  /\ st_globals s' = st_globals s /\ st_receipts s' = st_receipts s.
Proof.
  intros Hf. unfold for_nonces. generalize (seqZ 0 n). intros l. revert s.
  induction l as [|i l IH]; intros s; simpl; [done|].
  destruct (IH (f s i)) as (-> & -> & -> & -> & -> & ->). apply Hf.
Qed.

Lemma set_nonces_lookup id pk v n s key :
  st_gas_key_nonces (for_nonces n (fun s i => set_gas_key_nonce s id pk i v) s) !! key
  = if bool_decide (key.1 = (id, pk) /\ 0 <= key.2 < n) then Some v
    else st_gas_key_nonces s !! key.
Proof.
  unfold for_nonces.
  assert (H : forall l s, st_gas_key_nonces (fold_left (fun s i => set_gas_key_nonce s id pk i v) l s) !! key
    = if bool_decide (key.1 = (id, pk) /\ key.2 ∈ l) then Some v else st_gas_key_nonces s !! key).
  { clear s. induction l as [|i l IH]; intros s; simpl.
    { by rewrite bool_decide_false by (intros [_ []%not_elem_of_nil]). }
    rewrite IH. destruct key as [idk j]; simpl.
    destruct (decide (idk = (id, pk))) as [-> |Hne].
    - destruct (decide (j = i)) as [-> |Hji].
      + rewrite lookup_insert_eq, (bool_decide_true (_ /\ i ∈ i :: l)) by set_solver.
        by destruct (bool_decide _).
      + rewrite lookup_insert_ne by congruence.
        by rewrite (bool_decide_ext _ ((id, pk) = (id, pk) /\ j ∈ i :: l)) by set_solver.
    - rewrite !bool_decide_false by naive_solver. by rewrite lookup_insert_ne by congruence. }
  rewrite H. f_equal; try done.
  by rewrite (bool_decide_ext _ (key.1 = (id, pk) /\ 0 <= key.2 < n)) by (rewrite elem_of_seqZ; lia || naive_solver lia).
Qed.

Lemma remove_nonces_lookup id pk n s key :
  st_gas_key_nonces (for_nonces n (fun s i => remove_gas_key_nonce s id pk i) s) !! key
  = if bool_decide (key.1 = (id, pk) /\ 0 <= key.2 < n) then None
    else st_gas_key_nonces s !! key.
Proof.
  unfold for_nonces.
  assert (H : forall l s, st_gas_key_nonces (fold_left (fun s i => remove_gas_key_nonce s id pk i) l s) !! key
    = if bool_decide (key.1 = (id, pk) /\ key.2 ∈ l) then None else st_gas_key_nonces s !! key).
  { clear s. induction l as [|i l IH]; intros s; simpl.
    { by rewrite bool_decide_false by (intros [_ []%not_elem_of_nil]). }
    rewrite IH. destruct key as [idk j]; simpl.
    destruct (decide (idk = (id, pk))) as [-> |Hne].
    - destruct (decide (j = i)) as [-> |Hji].
      + rewrite lookup_delete_eq, (bool_decide_true (_ /\ i ∈ i :: l)) by set_solver.
        by destruct (bool_decide _).
      + rewrite lookup_delete_ne by congruence.
        by rewrite (bool_decide_ext _ ((id, pk) = (id, pk) /\ j ∈ i :: l)) by set_solver.
    - rewrite !bool_decide_false by naive_solver. by rewrite lookup_delete_ne by congruence. }
  rewrite H.
  by rewrite (bool_decide_ext _ (key.1 = (id, pk) /\ 0 <= key.2 < n)) by (rewrite elem_of_seqZ; lia || naive_solver lia).
Qed.

(* ------------------------------------------------------------------ *)
(** ** Theorems *)

Lemma gas_key_info_set_nonce k n : gas_key_info (set_nonce k n) = gas_key_info k.
Proof. by destruct k as [? []]. Qed.

Lemma state_eq s s' :
  st_accounts s = st_accounts s' -> st_access_keys s = st_access_keys s' ->
  st_gas_key_nonces s = st_gas_key_nonces s' -> st_contract_code s = st_contract_code s' ->
  st_contract_data s = st_contract_data s' -> st_globals s = st_globals s' ->
  st_receipts s = st_receipts s' -> s = s'.
Proof. destruct s, s'. simpl. congruence. Qed.

Lemma set_storage_usage_undo a x : set_storage_usage (set_storage_usage a x) (storage_usage a) = a.
Proof. by destruct a as [[]|[]]. Qed.

Lemma undo_storage account u c :
  0 <= storage_usage account -> u = storage_usage account + c ->
  set_storage_usage (set_storage_usage account u)
    (saturating_sub (storage_usage (set_storage_usage account u)) c) = account.
Proof.
  intros H0 ->. rewrite storage_usage_set_storage_usage. unfold saturating_sub.
  replace (Z.max 0 _) with (storage_usage account) by lia. apply set_storage_usage_undo.
Qed.

Lemma delete_set_key s id pk k :
  get_access_key s id pk = None ->
  delete (id, pk) (st_access_keys (set_access_key s id pk k)) = st_access_keys s.
Proof. intros H. simpl. by apply delete_insert_id. Qed.

Lemma add_delete_regular cfg s account id pk k h s1 acc1 :
  0 <= storage_usage account -> get_access_key s id pk = None ->
  add_regular_key cfg s account id pk k h = Ok (s1, acc1) ->
  exists k1, get_access_key s1 id pk = Some k1 /\ gas_key_info k1 = gas_key_info k
    /\ delete_regular_key cfg s1 acc1 id pk k1 = (s, account).
Proof.
  intros Hu Hn H. unfold add_regular_key in H. rust_inv. subst.
  simplify_eq. eexists. split; [apply get_set_access_key|].
  split; [apply gas_key_info_set_nonce|]. unfold delete_regular_key. f_equal.
  - apply state_eq; try done. by apply delete_set_key.
  - by apply undo_storage.
Qed.

(** The state after adding a gas key and deleting it again. *)
Lemma gas_key_state_undo s id pk k v n :
  get_access_key s id pk = None ->
  (forall i, 0 <= i < n -> get_gas_key_nonce s id pk i = None) ->
  remove_access_key
    (for_nonces n (fun s i => remove_gas_key_nonce s id pk i)
      (for_nonces n (fun s i => set_gas_key_nonce s id pk i v) (set_access_key s id pk k))) id pk
  = s.
Proof.
  intros Hk Hn.
  set (s1 := for_nonces n _ (set_access_key s id pk k)). set (s2 := for_nonces n _ s1).
  destruct (for_nonces_frame n (fun s i => set_gas_key_nonce s id pk i v)
    (set_access_key s id pk k)) as (A1 & A2 & A3 & A4 & A5 & A6);
    [done|]. fold s1 in A1, A2, A3, A4, A5, A6.
  destruct (for_nonces_frame n (fun s i => remove_gas_key_nonce s id pk i) s1)
    as (B1 & B2 & B3 & B4 & B5 & B6); [done|]. fold s2 in B1, B2, B3, B4, B5, B6.
  apply state_eq; simpl; rewrite ?B1, ?B2, ?B3, ?B4, ?B5, ?B6, ?A1, ?A2, ?A3, ?A4, ?A5, ?A6;
    try done.
  - by apply delete_set_key.
  - apply map_eq. intros key. unfold s2. rewrite remove_nonces_lookup.
    case_bool_decide as Hkey.
    + destruct key as [[i p] j], Hkey as [[= -> ->] Hj]. symmetry. by apply Hn.
    + unfold s1. rewrite set_nonces_lookup. by rewrite bool_decide_false.
Qed.

(** Adding a key and deleting it is the identity.  When [action_add_key]
    adds a fresh key, regular or gas key with an empty balance,
    [action_delete_key] on the resulting state gives back exactly the old state,
    nonces included, and the old account, storage usage included, with no tokens
    burnt and no error recorded. *)
Theorem add_then_delete_key ap s account res id a s1 acc1 res1 :
  0 <= storage_usage account ->
  is_u u128_max (res_tokens_burnt res) -> is_u u64_max (res_compute_usage res) ->
  get_access_key s id (ad_public_key a) = None ->
  (forall g, gas_key_info (ad_access_key a) = Some g ->
     gk_balance g = 0 /\
     forall i, 0 <= i < gk_num_nonces g -> get_gas_key_nonce s id (ad_public_key a) i = None) ->
  action_add_key ap s account res id a = Ok (s1, acc1, res1) ->
  res1 = res
  /\ action_delete_key (fees (config ap)) s1 acc1 res1 id (ad_public_key a) = Ok (s, account, res).
Proof.
  intros Hu Htb Hcu Hk Hg H. unfold action_add_key in H. rewrite Hk in H.
  destruct a as [pk k]. simpl in *.
  destruct (gas_key_info k) as [g|] eqn:Eg; rust_inv; destruct v; simplify_eq; split; try done.
  - destruct (Hg g eq_refl) as [Hb Hn]. clear Hg. unfold add_gas_key in *. rust_inv. subst.
    simplify_eq. unfold action_delete_key.
    set (s2 := for_nonces _ _ _).
    assert (get_access_key s2 id pk = Some (set_nonce k 0)) as ->.
    { unfold get_access_key, s2. destruct (for_nonces_frame (gk_num_nonces g)
        (fun s i => set_gas_key_nonce s id pk i v) (set_access_key s id pk (set_nonce k 0)))
        as (_ & -> & _); [done|]. apply get_set_access_key. }
    rewrite gas_key_info_set_nonce, Eg. unfold delete_gas_key. rewrite Hb. simpl.
    unfold mul_or_panic, safe_add_compute, checked_mul, checked_add. rewrite !Z.add_0_r.
    destruct Htb, Hcu.
    rewrite (proj2 (Z.leb_le _ u128_max)) by done. simpl.
    rewrite (proj2 (Z.leb_le _ u64_max)) by done. simpl.
    f_equal. f_equal; [f_equal|by destruct res1].
    + by apply gas_key_state_undo.
    + by apply undo_storage.
  - eapply add_delete_regular in E as (k1 & Hk1 & Hg1 & Hdel); [|done..].
    unfold action_delete_key. by rewrite Hk1, Hg1, Eg, Hdel.
Qed.

Lemma key_balance_set k g b n :
  gas_key_info k = Some g -> key_balance (set_gas_key_info k (mkGasKeyInfo b n)) = b.
Proof. by destruct k as [? []]. Qed.

Lemma key_balance_info k g : gas_key_info k = Some g -> key_balance k = gk_balance g.
Proof. unfold key_balance. by intros ->. Qed.

(** Gas keys keep money.  Funding a gas key moves exactly the deposit into
    the total of gas-key balances and touches nothing else; withdrawing moves
    exactly the amount from the gas key to the account; and when either is
    refused (no such key, not a gas key, balance too low) an error is recorded and
    neither state nor account changes. *)
Theorem gas_key_transfers_conserve s account res id pk x :
  (forall s1 acc1 res1,
     action_withdraw_from_gas_key s account res id pk x = Ok (s1, acc1, res1) ->
     (res1 = res /\ st_accounts s1 = st_accounts s
      /\ total_gas_keys s1 + amount acc1 = total_gas_keys s + amount account
      /\ amount acc1 = amount account + x /\ locked acc1 = locked account)
     \/ (exists e, res1 = fail res e /\ s1 = s /\ acc1 = account))
  /\ (forall s2 res2,
     action_transfer_to_gas_key s res id pk x = Ok (s2, res2) ->
     (res2 = res /\ st_accounts s2 = st_accounts s
      /\ total_gas_keys s2 = total_gas_keys s + x)
     \/ (exists e, res2 = fail res e /\ s2 = s)).
Proof.
  unfold action_withdraw_from_gas_key, action_transfer_to_gas_key.
  destruct (get_access_key s id pk) as [k|] eqn:Ek; [|split; intros; simplify_eq; eauto 10].
  destruct (gas_key_info k) as [g|] eqn:Eg; [|split; intros; simplify_eq; eauto 10].
  split.
  - intros s1 acc1 res1 H.
    destruct (checked_sub (gk_balance g) x) as [u|] eqn:Eu; rust_inv; subst; [|eauto 10].
    left. simplify_eq. rewrite total_gas_keys_set, Ek, (key_balance_set k g) by done. simpl.
    rewrite (key_balance_info k g) by done. account_simpl. split_and!; try done; lia.
  - intros s2 res2 H. rust_inv. subst. left. simplify_eq.
    rewrite total_gas_keys_set, Ek, (key_balance_set k g) by done. simpl.
    rewrite (key_balance_info k g) by done. split_and!; try done; lia.
Qed.

(* ------------------------------------------------------------------ *)
(** ** The theorems at concrete inputs *)

Section witnesses.
Definition sample_apply : ApplyState := mkApplyState 5 2 100 (Some 1000000000000000) 200 sample_config 0.
Definition sample_pk : PublicKey := ED25519 (replicate 32 7).
Definition sample_gas_key : AccessKey := mkAccessKey 0 (PermGasKeyFullAccess (mkGasKeyInfo 0 2)).

Lemma add_then_delete_key_witness :
  exists s1 acc1,
    action_add_key sample_apply empty_state (account_new 10 0 ContractNone 182) result_default
      "alice.near" (mkAddKey sample_pk sample_gas_key) = Ok (s1, acc1, result_default)
    /\ action_delete_key test_fees s1 acc1 result_default "alice.near" sample_pk
       = Ok (empty_state, account_new 10 0 ContractNone 182, result_default).
Proof.
  do 2 eexists. split; [reflexivity|].
  apply (add_then_delete_key sample_apply empty_state (account_new 10 0 ContractNone 182)
           result_default "alice.near" (mkAddKey sample_pk sample_gas_key)).
  - simpl. lia.
  - vm_compute. intuition congruence.
  - vm_compute. intuition congruence.
  - reflexivity.
  - intros g H. injection H as <-. split; [reflexivity|]. intros. reflexivity.
  - reflexivity.
Defined.

End witnesses.
