(* ===== verification/Validation.v ===== *)
(** * Stateless validation (runtime/src/verifier.rs, core/primitives/src/transaction.rs)

    The checks on actions, transactions and receipts that do not read the state:
    limits, protocol features, the shape of a list of actions, signatures. *)

From S2P Require Import Prelude Crates AccountId Addresses Primitives Errors Fees Borsh Wire.
From S2P Require Import ReceiptWire.

(* ------------------------------------------------------------------ *)
(** ** Helpers of the crypto and primitives crates *)

Section helpers.
Context {C : Crates}.

(** [Signature::verify]. *)
Definition sig_verify (sig : Signature) (data : list Z) (pk : PublicKey) : bool :=
  match sig, pk with
  | SigED25519 s, ED25519 k => verify_ed25519 s data k
  | SigSECP256K1 s, SECP256K1 k =>
      if negb (nth 64 s 0 <=? 3) then false
      else if negb (length data =? 32)%nat then false
      else verify_ecdsa (take 64 s) data (4 :: k)
  | _, _ => false
  end.

Definition is_valid_staking_key (pk : PublicKey) : bool :=
  match pk with
  | ED25519 k => ed25519_torsion_free k
  | SECP256K1 _ => false
  end.

(** [account_is_implicit]. *)
Definition account_is_implicit (id : AccountId) (eth_enabled deterministic_enabled : bool) : bool :=
  match get_account_type id with
  | NamedAccount => false
  | NearImplicitAccount => true
  | EthImplicitAccount => eth_enabled
  | NearDeterministicAccount => deterministic_enabled
  | BtcImplicitAccount => true
  end.

(** [.parse::<AccountId>().unwrap()] *)
Definition parse_unwrap {E : Type} (id : string) : result AccountId E :=
  if is_ok (validate id) then Ok id else Panic.

Definition derive_near_deterministic_account_id {E : Type} (s : DeterministicAccountStateInit)
    : result AccountId E :=
  let hash := keccak256 (enc state_init_c s) in
  parse_unwrap ("0s" +:+ hex_encode (take 20 (drop 12 hash))).
End helpers.

(** [str::get(..i)] succeeds at the boundaries of characters. *)
Definition is_char_boundary (b : list Z) (i : nat) : bool :=
  (i =? 0)%nat || (i =? length b)%nat
  || ((i <? length b)%nat && negb ((128 <=? nth i b 0) && (nth i b 0 <? 192))).

Fixpoint truncate_string (s : string) (limit : nat) : string :=
  if is_char_boundary (as_bytes s) limit then of_bytes (take limit (as_bytes s))
  else match limit with
  | O => ""%string
  | S limit => truncate_string s limit
  end.

(* ------------------------------------------------------------------ *)
(** ** Single actions *)

Section actions.
Context {C : Crates}.

Definition require_protocol_feature (f : ProtocolFeature) (name : string) (version : Z)
    : result unit ActionsValidationError :=
  if negb (enabled f version) then Err (UnsupportedProtocolFeature name version) else Ok tt.

Definition validate_action_account_id (id : AccountId) : result unit ActionsValidationError :=
  map_err (fun _ => InvalidAccountId id) (validate id).

Definition validate_global_contract_identifier (i : GlobalContractIdentifier)
    : result unit ActionsValidationError :=
  match i with
  | ByAccountId id => validate_action_account_id id
  | CodeHash _ => Ok tt
  end.

Definition validate_code_size (l : LimitConfig) (code : list Z) : result unit ActionsValidationError :=
  if max_contract_size l <? vec_len code
  then Err (ContractSizeExceeded (vec_len code) (max_contract_size l)) else Ok tt.

Definition validate_function_call_action (l : LimitConfig) (a : FunctionCallAction)
    : result unit ActionsValidationError :=
  if fc_gas a =? 0 then Err FunctionCallZeroAttachedGas
  else if max_length_method_name l <? str_len (fc_method_name a) then
    Err (FunctionCallMethodNameLengthExceeded (str_len (fc_method_name a)) (max_length_method_name l))
  else if max_arguments_length l <? vec_len (fc_args a) then
    Err (FunctionCallArgumentsLengthExceeded (vec_len (fc_args a)) (max_arguments_length l))
  else Ok tt.

Definition validate_stake_action (a : StakeAction) : result unit ActionsValidationError :=
  if negb (is_valid_staking_key (sa_public_key a))
  then Err (UnsuitableStakingKey (sa_public_key a)) else Ok tt.

(** The loop over method names; each counts a terminating byte. *)
Fixpoint check_method_names (l : LimitConfig) (total : Z) (names : list string)
    : result Z ActionsValidationError :=
  match names with
  | [] => Ok total
  | m :: names =>
      if max_length_method_name l <? str_len m then
        Err (AddKeyMethodNameLengthExceeded (str_len m) (max_length_method_name l))
      else
        let? total := add_or_panic u64_max total (str_len m + 1) in
        check_method_names l total names
  end.

Definition validate_access_key_permission (l : LimitConfig) (p : AccessKeyPermission)
    : result unit ActionsValidationError :=
  match function_call_permission p with
  | None => Ok tt
  | Some fc =>
      let? _ :=
        match account_id_validity_rules_version l with
        | RulesV0 => Ok tt
        | RulesV1 | RulesV2 =>
            if is_ok (validate (fcp_receiver_id fc)) then Ok tt
            else Err (InvalidAccountId
                        (truncate_string (fcp_receiver_id fc) (Z.to_nat (MAX_LEN * 2))))
        end in
      let? total_number_of_bytes := check_method_names l 0 (fcp_method_names fc) in
      if max_number_bytes_method_names l <? total_number_of_bytes then
        Err (AddKeyMethodNamesNumberOfBytesExceeded total_number_of_bytes
               (max_number_bytes_method_names l))
      else Ok tt
  end.

Definition validate_add_key_action (l : LimitConfig) (a : AddKeyAction) (version : Z)
    : result unit ActionsValidationError :=
  let? _ := validate_access_key_permission l (ak_permission (ad_access_key a)) in
  match gas_key_info (ad_access_key a) with
  | None => Ok tt
  | Some g =>
      let? _ := require_protocol_feature GasKeys "GasKeys" version in
      let? _ :=
        match function_call_permission (ak_permission (ad_access_key a)) with
        | Some fc =>
            match fcp_allowance fc with
            | Some _ => Err GasKeyFunctionCallAllowanceNotAllowed
            | None => Ok tt
            end
        | None => Ok tt
        end in
      if (gk_num_nonces g =? 0) || (MAX_NONCES_FOR_GAS_KEY <? gk_num_nonces g) then
        Err (GasKeyInvalidNumNonces (gk_num_nonces g) MAX_NONCES_FOR_GAS_KEY)
      else if negb (gk_balance g =? 0) then Err (AddGasKeyWithNonZeroBalance (gk_balance g))
      else Ok tt
  end.

Fixpoint check_state_entries (l : LimitConfig) (entries : list (list Z * list Z))
    : result unit ActionsValidationError :=
  match entries with
  | [] => Ok tt
  | (key, value) :: entries =>
      if max_length_storage_key l <? vec_len key then
        Err (DeterministicStateInitKeyLengthExceeded (vec_len key) (max_length_storage_key l))
      else if max_length_storage_value l <? vec_len value then
        Err (DeterministicStateInitValueLengthExceeded (vec_len value) (max_length_storage_value l))
      else check_state_entries l entries
  end.

Definition validate_deterministic_state_init (l : LimitConfig) (a : DeterministicStateInitAction)
    (receiver_id : AccountId) (version : Z) : result unit ActionsValidationError :=
  let? _ := require_protocol_feature DeterministicAccountIds "DeterministicAccountIds" version in
  let? _ := validate_global_contract_identifier (si_code (ds_state_init a)) in
  let? derived_id := derive_near_deterministic_account_id (ds_state_init a) in
  if negb (bool_decide (derived_id = receiver_id)) then
    Err (InvalidDeterministicStateInitReceiver receiver_id derived_id)
  else check_state_entries l (si_data (ds_state_init a)).

(** [validate_action] on the variants other than [Delegate]. *)
Definition validate_plain_action (l : LimitConfig) (a : NonDelegateAction) (receiver : AccountId)
    (version : Z) : result unit ActionsValidationError :=
  match a with
  | CreateAccount => Ok tt
  | DeployContract code => validate_code_size l code
  | DeployGlobalContract d => validate_code_size l (dg_code d)
  | UseGlobalContract i => validate_global_contract_identifier i
  | FunctionCall a => validate_function_call_action l a
  | Transfer _ => Ok tt
  | Stake a => validate_stake_action a
  | AddKey a => validate_add_key_action l a version
  | DeleteKey _ => Ok tt
  | DeleteAccount beneficiary => validate_action_account_id beneficiary
  | DeterministicStateInit a => validate_deterministic_state_init l a receiver version
  | TransferToGasKey _ _ | WithdrawFromGasKey _ _ =>
      require_protocol_feature GasKeys "GasKeys" version
  end.

(* ------------------------------------------------------------------ *)
(** ** Lists of actions

    [validate_actions] and [validate_action] call each other through a delegate
    action; the nested list holds no delegate action, so the loop is written over
    the function that validates one action. *)

Definition is_delete_account (a : Action) : bool :=
  match a with Plain (DeleteAccount _) => true | _ => false end.
Definition is_delegate (a : Action) : bool :=
  match a with Delegate _ => true | _ => false end.

Fixpoint check_actions (va : Action -> result unit ActionsValidationError)
    (found_delegate_action : bool) (acts : list Action) : result unit ActionsValidationError :=
  match acts with
  | [] => Ok tt
  | a :: acts =>
      let? found_delegate_action :=
        if is_delete_account a then
          match acts with
          | [] => Ok found_delegate_action
          | _ :: _ => Err DeleteActionMustBeFinal
          end
        else if is_delegate a then
          if found_delegate_action then Err DelegateActionMustBeOnlyOne else Ok true
        else Ok found_delegate_action in
      let? _ := va a in
      check_actions va found_delegate_action acts
  end.

Definition validate_actions_by (va : Action -> result unit ActionsValidationError)
    (l : LimitConfig) (acts : list Action) : result unit ActionsValidationError :=
  if max_actions_per_receipt l <? vec_len acts then
    Err (TotalNumberOfActionsExceeded (vec_len acts) (max_actions_per_receipt l))
  else
    let? _ := check_actions va false acts in
    let? gas := map_err (fun _ => AVIntegerOverflow) (total_prepaid_gas acts) in
    if max_total_prepaid_gas l <? gas then
      Err (TotalPrepaidGasExceeded gas (max_total_prepaid_gas l))
    else Ok tt.

Definition validate_delegate_action (l : LimitConfig) (d : SignedDelegateAction)
    (receiver : AccountId) (version : Z) : result unit ActionsValidationError :=
  validate_actions_by
    (fun a => match a with
              | Plain a => validate_plain_action l a receiver version
              | Delegate _ => Panic
              end)
    l (get_actions (sd_delegate_action d)).

Definition validate_action (l : LimitConfig) (receiver : AccountId) (version : Z) (a : Action)
    : result unit ActionsValidationError :=
  match a with
  | Plain a => validate_plain_action l a receiver version
  | Delegate d => validate_delegate_action l d receiver version
  end.

Definition validate_actions (l : LimitConfig) (acts : list Action) (receiver : AccountId)
    (version : Z) : result unit ActionsValidationError :=
  validate_actions_by (validate_action l receiver version) l acts.

(* ------------------------------------------------------------------ *)
(** ** Transactions *)

Definition validate_transaction_actions (cfg : RuntimeConfig) (stx : SignedTransaction)
    (version : Z) : result unit InvalidTxError :=
  map_err TxActionsValidation
    (validate_actions (limit_config cfg) (actions (stx_transaction stx))
       (receiver_id (stx_transaction stx)) version).

(** [ValidatedTransaction::check_valid_for_config]. *)
Definition check_valid_for_config (cfg : RuntimeConfig) (stx : SignedTransaction) (version : Z)
    : result unit InvalidTxError :=
  if negb (enabled GasKeys version)
     && match stx_transaction stx with TxV1 _ => true | TxV0 _ => false end
  then Err InvalidTransactionVersion
  else if max_transaction_size (limit_config cfg) <? stx_size stx then
    Err (TransactionSizeExceeded (stx_size stx) (max_transaction_size (limit_config cfg)))
  else Ok tt.

(** [ValidatedTransaction::new]; the error also returns the transaction. *)
Definition validated_transaction_new (cfg : RuntimeConfig) (stx : SignedTransaction) (version : Z)
    : result SignedTransaction InvalidTxError :=
  let? _ := check_valid_for_config cfg stx version in
  if negb (sig_verify (stx_signature stx) (stx_hash stx) (public_key (stx_transaction stx)))
  then Err InvalidSignature else Ok stx.

Definition validate_transaction (cfg : RuntimeConfig) (stx : SignedTransaction) (version : Z)
    : result SignedTransaction InvalidTxError :=
  let? _ := validate_transaction_actions cfg stx version in
  validated_transaction_new cfg stx version.

Definition validate_transaction_well_formed (cfg : RuntimeConfig) (stx : SignedTransaction)
    (version : Z) : result unit InvalidTxError :=
  let? _ := validate_transaction_actions cfg stx version in
  check_valid_for_config cfg stx version.

(* ------------------------------------------------------------------ *)
(** ** Receipts *)

Inductive ValidateReceiptMode : Type :=
| NewReceipt
| ExistingReceipt.

Definition validate_action_receipt (l : LimitConfig) (refund_to : option AccountId)
    (r : ActionReceipt) (receiver : AccountId) (version : Z) : result unit ReceiptValidationError :=
  if max_number_input_data_dependencies l <? vec_len (ar_input_data_ids r) then
    Err (NumberInputDataDependenciesExceeded (vec_len (ar_input_data_ids r))
           (max_number_input_data_dependencies l))
  else
    let? _ :=
      match refund_to with
      | Some id => map_err (fun _ => InvalidRefundTo id) (validate id)
      | None => Ok tt
      end in
    map_err RVActionsValidation (validate_actions l (ar_actions r) receiver version).

Definition validate_data_receipt (l : LimitConfig) (d : DataReceipt)
    : result unit ReceiptValidationError :=
  let data_len := match dt_data d with Some b => vec_len b | None => 0 end in
  if max_length_returned_data l <? data_len then
    Err (ReturnedValueLengthExceeded data_len (max_length_returned_data l))
  else Ok tt.

Definition validate_receipt (l : LimitConfig) (r : Receipt) (version : Z)
    (mode : ValidateReceiptMode) : result unit ReceiptValidationError :=
  let? _ :=
    match mode with
    | NewReceipt =>
        let receipt_size := vec_len (enc receipt_c r) in
        if max_receipt_size l <? receipt_size
        then Err (ReceiptSizeExceeded receipt_size (max_receipt_size l)) else Ok tt
    | ExistingReceipt => Ok tt
    end in
  let? _ := map_err (fun _ => InvalidPredecessorId (r_predecessor_id r))
              (validate (r_predecessor_id r)) in
  let? _ := map_err (fun _ => RVInvalidReceiverId (r_receiver_id r))
              (validate (r_receiver_id r)) in
  match versioned_receipt r with
  | VAction refund_to a | VPromiseYield refund_to a =>
      validate_action_receipt l refund_to a (r_receiver_id r) version
  | VData d | VPromiseResume d => validate_data_receipt l d
  | VGlobalContractDistribution _ => Ok tt
  end.
End actions.

(* ------------------------------------------------------------------ *)
(** ** What the loop over actions accepts *)

Definition delegates (acts : list Action) : Z :=
  zsum (fun a => if is_delegate a then 1 else 0) acts.

Definition deletes_are_final (acts : list Action) : Prop :=
  forall pre a post, acts = pre ++ a :: post -> is_delete_account a = true -> post = [].

Lemma deletes_are_final_cons a acts :
  deletes_are_final (a :: acts) <->
  (is_delete_account a = true -> acts = []) /\ deletes_are_final acts.
Proof.
  split.
  - intros H. split; [by intros; eapply (H [])|]. intros pre b post ->. by apply (H (a :: pre)).
  - intros [H1 H2] [|x pre] b post E; simplify_list_eq; [done|]. by apply (H2 pre b post).
Qed.

Lemma delegates_nonneg acts : 0 <= delegates acts.
Proof. apply zsum_nonneg, Forall_forall. intros a _. by destruct (is_delegate a). Qed.

Lemma check_actions_iff va found acts :
  check_actions va found acts = Ok tt <->
  deletes_are_final acts /\ delegates acts + (if found then 1 else 0) <= 1
  /\ Forall (fun a => va a = Ok tt) acts.
Proof.
  revert found. induction acts as [|a acts IH]; intros found.
  { simpl. split; [|done]. intros _. split_and!; [by intros [] |by destruct found|done]. }
  pose proof (delegates_nonneg acts).
  rewrite deletes_are_final_cons, Forall_cons. unfold delegates in *. simpl.
  destruct (is_delete_account a) eqn:Hd.
  { destruct a as [[]|]; try discriminate. simpl. destruct acts as [|b acts]; simpl.
    - destruct (va _) as [[]| |]; simpl; split;
        naive_solver eauto using Forall_nil.
    - split; [done|]. intros ((Hx & _) & _). by specialize (Hx eq_refl). }
  destruct (is_delegate a) eqn:Hg; [destruct found|]; simpl.
  - split; [done|]. intros (_ & Hx & _). lia.
  - destruct (va a) as [[]| |]; simpl; [|naive_solver..]. rewrite IH. simpl.
    split; intros; destruct_and!; split_and!; try done; lia.
  - destruct (va a) as [[]| |]; simpl; [|naive_solver..]. rewrite IH. simpl.
    split; intros; destruct_and!; split_and!; try done; lia.
Qed.

Section specs.
Context {C : Crates}.

(** What [validate_actions] accepts: exactly the lists that are not longer
    than the limit, where an account deletion is the last action, with at most one
    delegate action, each action valid by itself, and whose prepaid gas, that of
    nested actions included, fits a u64 and the limit. *)
Theorem validate_actions_iff l acts receiver version :
  Forall action_bounded (flatten acts) ->
  validate_actions l acts receiver version = Ok tt <->
  vec_len acts <= max_actions_per_receipt l
  /\ deletes_are_final acts /\ delegates acts <= 1
  /\ Forall (fun a => validate_action l receiver version a = Ok tt) acts
  /\ zsum (fun a => get_prepaid_gas (Plain a)) (flatten acts)
     <= Z.min u64_max (max_total_prepaid_gas l).
Proof.
  intros Hb. unfold validate_actions, validate_actions_by. rewrite total_prepaid_gas_spec by done.
  set (g := zsum _ _). destruct (Z.ltb_spec (max_actions_per_receipt l) (vec_len acts)).
  { split; [done|]. intros (? & _). lia. }
  destruct (check_actions _ _ _) as [[]| |] eqn:E; simpl.
  - apply check_actions_iff in E as (? & ? & ?). rewrite Z.add_0_r in *.
    destruct (Z.leb_spec g u64_max); simpl.
    + destruct (Z.ltb_spec (max_total_prepaid_gas l) g); split; try done.
      * intros (_ & _ & _ & _ & ?). lia.
      * intros _. split_and!; try done. lia.
    + split; [done|]. intros (_ & _ & _ & _ & ?). lia.
  - split; [done|]. intros (_ & H1 & H2 & H3 & _).
    assert (check_actions (validate_action l receiver version) false acts = Ok tt) as E'
      by (apply check_actions_iff; rewrite Z.add_0_r; done). congruence.
  - split; [done|]. intros (_ & H1 & H2 & H3 & _).
    assert (check_actions (validate_action l receiver version) false acts = Ok tt) as E'
      by (apply check_actions_iff; rewrite Z.add_0_r; done). congruence.
Qed.

(** A receipt made from a validated transaction is a valid receipt: when
    [validate_transaction] accepts a transaction between valid accounts, the
    receipt [Receipt::from_tx] builds from it passes receipt validation, also as
    a new receipt when it fits the size limit. *)
Theorem validated_tx_gives_valid_receipt cfg stx version receipt_id price :
  is_ok (validate (signer_id (stx_transaction stx))) = true ->
  is_ok (validate (receiver_id (stx_transaction stx))) = true ->
  0 <= max_number_input_data_dependencies (limit_config cfg) ->
  validate_transaction cfg stx version = Ok stx ->
  let tx := stx_transaction stx in
  let r := receipt_from_tx receipt_id (signer_id tx) (receiver_id tx) (public_key tx) price
             (actions tx) in
  validate_receipt (limit_config cfg) r version ExistingReceipt = Ok tt
  /\ (vec_len (enc receipt_c r) <= max_receipt_size (limit_config cfg) ->
      validate_receipt (limit_config cfg) r version NewReceipt = Ok tt).
Proof.
  intros Hs Hr Hd Hv tx r. unfold validate_transaction in Hv.
  destruct (validate_transaction_actions cfg stx version) as [[]| |] eqn:Ha; try done.
  unfold validate_transaction_actions in Ha. apply map_err_Ok in Ha.
  assert (Hbody : validate_receipt (limit_config cfg) r version ExistingReceipt = Ok tt).
  { unfold validate_receipt. subst r. simpl. fold tx in Ha, Hs, Hr |- *.
    destruct (validate (signer_id tx)) as [[]| |]; try done.
    destruct (validate (receiver_id tx)) as [[]| |]; try done. simpl.
    unfold validate_action_receipt. simpl.
    destruct (Z.ltb_spec (max_number_input_data_dependencies (limit_config cfg)) 0); [lia|].
    simpl. change (vec_len []) with 0.
    destruct (Z.ltb_spec (max_number_input_data_dependencies (limit_config cfg)) 0); [lia|].
    simpl. by rewrite Ha. }
  split; [exact Hbody|]. intros Hsize. unfold validate_receipt in *.
  destruct (Z.ltb_spec (max_receipt_size (limit_config cfg)) (vec_len (enc receipt_c r))); [lia|].
  exact Hbody.
Qed.

(** ** Derived identifiers *)

Lemma alnum_valid id :
  MIN_LEN <= str_len id <= MAX_LEN -> forallb is_alnum (as_bytes id) = true ->
  is_ok (validate id) = true.
Proof.
  intros [H1 H2] Ha. unfold validate.
  destruct (Z.ltb_spec (str_len id) MIN_LEN); [lia|].
  destruct (Z.ltb_spec MAX_LEN (str_len id)); [lia|].
  destruct (is_bitcoin_implicit id); [done|]. rewrite validate_chars_ok.
  assert (as_bytes id <> []) by (intros E; rewrite <- length_as_bytes_Z, E in H1; by apply H1).
  assert (Hw : words (as_bytes id)) by by apply w_last.
  unfold chars. rewrite ascii_chars_of; [by apply words_sep_ok|].
  apply Forall_forall. intros c Hc. rewrite forallb_forall in Ha.
  apply is_alnum_ascii, Ha. by apply list_elem_of_In.
Qed.

Lemma hex_digit_hex d : 0 <= d < 16 -> is_hex (hex_digit d) = true.
Proof.
  intros. unfold is_hex, is_digit, hex_digit. destruct (Z.ltb_spec d 10); apply orb_true_iff;
    [right|left]; apply andb_true_iff; rewrite !Z.leb_le; lia.
Qed.

Lemma hex_encode_hex b : bytes_ok b -> forallb is_hex (as_bytes (hex_encode b)) = true.
Proof.
  intros Hb. rewrite hex_encode_bytes by done. induction Hb as [|x b Hx _ IH]; simpl; [done|].
  unfold is_byte in Hx.
  rewrite !hex_digit_hex by (Z.to_euclidean_division_equations; lia). done.
Qed.

Lemma hex_is_alnum c : is_hex c = true -> is_alnum c = true.
Proof.
  unfold is_hex, is_alnum, is_lower. rewrite !orb_true_iff, !andb_true_iff, !Z.leb_le.
  intros [?|?]; [left; lia|by right].
Qed.

(** The identifier derived from a deterministic initial state is always well
    formed: the derivation cannot panic, and gives [0s] followed by forty
    hexadecimal digits. *)
Theorem deterministic_id_well_formed `{!HashLaws C} (s : DeterministicAccountStateInit) :
  exists id, derive_near_deterministic_account_id (E := unit) s = Ok id
    /\ is_near_deterministic id = true /\ is_ok (validate id) = true.
Proof.
  set (h := take 20 (drop 12 (keccak256 (enc state_init_c s)))).
  set (id := ("0s" +:+ hex_encode h)%string).
  assert (Hok : bytes_ok h) by apply Forall_take, Forall_drop, keccak256_ok.
  assert (Hlen : length h = 20%nat)
    by (subst h; rewrite length_take, length_drop, keccak256_len; lia).
  assert (Hb : as_bytes id = as_bytes "0s" ++ as_bytes (hex_encode h)) by apply as_bytes_app.
  assert (Hhex := hex_encode_hex h Hok).
  assert (Hl : str_len id = 42).
  { pose proof (hex_encode_len h Hok) as E. rewrite <- length_as_bytes_Z in E |- *.
    rewrite Hb, length_app, Nat2Z.inj_add, E. unfold vec_len. by rewrite Hlen. }
  assert (Hv : is_ok (validate id) = true).
  { apply alnum_valid; [unfold MIN_LEN, MAX_LEN; lia|]. rewrite Hb, forallb_app. simpl.
    rewrite forallb_forall in *. intros c Hc. by apply hex_is_alnum, Hhex. }
  exists id. split_and!; [|..|done].
  - unfold derive_near_deterministic_account_id, parse_unwrap. fold h. fold id. by rewrite Hv.
  - unfold is_near_deterministic. rewrite Hl, (starts_with_app _ _ _ Hb), Hb.
    rewrite (drop_app_length' (as_bytes "0s") _ 2) by done. by rewrite Hhex.
Qed.
End specs.

(* ------------------------------------------------------------------ *)
(** ** The theorems at concrete inputs *)

Section witnesses.
#[local] Existing Instance Toy.crates.
#[local] Existing Instance Toy.hash_laws.

Definition sample_actions : list Action :=
  [Plain (Transfer 5); Plain (DeleteAccount "alice.near")].

Lemma sample_actions_bounded : Forall action_bounded (flatten sample_actions).
Proof.
  unfold sample_actions. simpl. rewrite !Forall_cons. unfold action_bounded, is_u. simpl.
  unfold u128_max, u64_max. split_and!; try lia. by apply Forall_nil.
Qed.

Lemma validate_actions_iff_witness :
  validate_actions (limit_config sample_config) sample_actions "alice.near" 83 = Ok tt
  /\ deletes_are_final sample_actions.
Proof.
  assert (E : validate_actions (limit_config sample_config) sample_actions "alice.near" 83 = Ok tt)
    by by vm_compute.
  split; [exact E|].
  apply (proj1 (validate_actions_iff (limit_config sample_config) sample_actions "alice.near" 83
           sample_actions_bounded)) in E as (_ & H & _).
  exact H.
Defined.

(** A transfer signed with the toy signature of its hash. *)
Definition sample_signed (tx : Transaction) (k : list Z) : SignedTransaction :=
  let h := sha256 (enc_transaction tx) in
  mkSignedTransaction tx (SigED25519 (Toy.digest 64 (h ++ k))) h (vec_len (enc_transaction tx)).

Definition sample_stx : SignedTransaction :=
  sample_signed (sample_transfer "alice.near" "bob.near" (ED25519 (replicate 32 7)) 12 5)
    (replicate 32 7).

Lemma validated_tx_gives_valid_receipt_witness :
  validate_transaction sample_config sample_stx 83 = Ok sample_stx
  /\ validate_receipt (limit_config sample_config)
       (receipt_from_tx hash_default "alice.near" "bob.near" (ED25519 (replicate 32 7)) 100
          [Plain (Transfer 5)]) 83 ExistingReceipt = Ok tt.
Proof.
  assert (E : validate_transaction sample_config sample_stx 83 = Ok sample_stx) by by vm_compute.
  split; [exact E|].
  exact (proj1 (validated_tx_gives_valid_receipt sample_config sample_stx 83 hash_default 100
    eq_refl eq_refl ltac:(simpl; lia) E)).
Defined.

Lemma deterministic_id_well_formed_witness :
  exists id, derive_near_deterministic_account_id (E := unit)
               (mkStateInit (ByAccountId "alice.near") [([1], [2])]) = Ok id
    /\ is_near_deterministic id = true /\ is_ok (validate id) = true.
Proof. exact (deterministic_id_well_formed (mkStateInit (ByAccountId "alice.near") [([1], [2])])). Defined.
End witnesses.
