(* ===== verification/TxBuilder.v ===== *)
(** * The transactions of the RPC server (bitinfinity-btcrpc/src/near_tx_builder.rs)

    The server writes the encoding of transactions by hand, without the types of the node.
    Buffers are lists of bytes; [extend_from_slice] of [to_le_bytes] is [le_enc], and a
    length cast to u32 is taken modulo 2^32 by it. *)

From S2P Require Import Prelude Crates AccountId Primitives Borsh Wire Errors Fees Validation.

Definition borsh_write_string (buf : list Z) (s : string) : list Z :=
  buf ++ le_enc 4 (str_len s) ++ as_bytes s.

(* ------------------------------------------------------------------ *)
(** ** Actions *)

Module NearAction.

Definition CREATE_ACCOUNT : Z := 0.
Definition DEPLOY_CONTRACT : Z := 1.
Definition FUNCTION_CALL : Z := 2.
Definition TRANSFER : Z := 3.
Definition STAKE : Z := 4.
Definition ADD_KEY : Z := 5.
Definition DELETE_KEY : Z := 6.
Definition DELETE_ACCOUNT : Z := 7.
Definition DELEGATE : Z := 8.
Definition DEPLOY_GLOBAL_CONTRACT : Z := 9.
Definition USE_GLOBAL_CONTRACT : Z := 10.
Definition DETERMINISTIC_STATE_INIT : Z := 11.
Definition TRANSFER_TO_GAS_KEY : Z := 12.
Definition WITHDRAW_FROM_GAS_KEY : Z := 13.

Definition create_account : list Z := [CREATE_ACCOUNT].

Definition deploy_contract (code : list Z) : list Z :=
  [DEPLOY_CONTRACT] ++ le_enc 4 (vec_len code) ++ code.

Definition function_call (method_name : string) (args : list Z) (gas deposit : Z) : list Z :=
  let buf := [FUNCTION_CALL] in
  let buf := borsh_write_string buf method_name in
  let buf := buf ++ le_enc 4 (vec_len args) in
  let buf := buf ++ args in
  let buf := buf ++ le_enc 8 gas in
  buf ++ le_enc 16 deposit.

Definition transfer (deposit : Z) : list Z := [TRANSFER] ++ le_enc 16 deposit.

Definition stake (stake_amount : Z) (public_key_uncompressed : list Z) : list Z :=
  [STAKE] ++ le_enc 16 stake_amount ++ [1] ++ public_key_uncompressed.

Definition stake_ed25519 (stake_amount : Z) (public_key_ed25519 : list Z) : list Z :=
  [STAKE] ++ le_enc 16 stake_amount ++ [0] ++ public_key_ed25519.

Definition add_full_access_key (public_key_uncompressed : list Z) : list Z :=
  [ADD_KEY] ++ [1] ++ public_key_uncompressed ++ le_enc 8 0 ++ [1].

Definition add_function_call_key (public_key_uncompressed : list Z) (allowance : option Z)
    (receiver_id : string) (method_names : list string) : list Z :=
  let buf := [ADD_KEY] ++ [1] ++ public_key_uncompressed ++ le_enc 8 0 ++ [0] in
  let buf := match allowance with
             | Some a => buf ++ [1] ++ le_enc 16 a
             | None => buf ++ [0]
             end in
  let buf := borsh_write_string buf receiver_id in
  let buf := buf ++ le_enc 4 (vec_len method_names) in
  fold_left borsh_write_string method_names buf.

Definition delete_key (public_key_uncompressed : list Z) : list Z :=
  [DELETE_KEY] ++ [1] ++ public_key_uncompressed.

Definition add_full_access_key_ed25519 (public_key : list Z) : list Z :=
  [ADD_KEY] ++ [0] ++ public_key ++ le_enc 8 0 ++ [1].

Definition delete_key_ed25519 (public_key : list Z) : list Z := [DELETE_KEY] ++ [0] ++ public_key.

Definition delete_account (beneficiary_id : string) : list Z :=
  borsh_write_string [DELETE_ACCOUNT] beneficiary_id.

Definition deploy_global_contract (code : list Z) : list Z :=
  [DEPLOY_GLOBAL_CONTRACT] ++ [0] ++ le_enc 4 (vec_len code) ++ code.

Definition deploy_global_contract_by_hash (code_hash : list Z) : list Z :=
  [DEPLOY_GLOBAL_CONTRACT] ++ [1] ++ code_hash.

Definition use_global_contract_by_hash (code_hash : list Z) : list Z :=
  [USE_GLOBAL_CONTRACT] ++ [0] ++ code_hash.

Definition use_global_contract_by_account (account_id : string) : list Z :=
  borsh_write_string ([USE_GLOBAL_CONTRACT] ++ [1]) account_id.

Definition transfer_to_gas_key (public_key_uncompressed : list Z) (deposit : Z) : list Z :=
  [TRANSFER_TO_GAS_KEY] ++ [1] ++ public_key_uncompressed ++ le_enc 16 deposit.

Definition withdraw_from_gas_key (public_key_uncompressed : list Z) (amount : Z) : list Z :=
  [WITHDRAW_FROM_GAS_KEY] ++ [1] ++ public_key_uncompressed ++ le_enc 16 amount.

Definition deterministic_state_init : list Z := [DETERMINISTIC_STATE_INIT].

Definition delegate (delegate_action_bytes signature_bytes : list Z) : list Z :=
  [DELEGATE] ++ le_enc 4 (vec_len delegate_action_bytes) ++ delegate_action_bytes
  ++ le_enc 4 (vec_len signature_bytes) ++ signature_bytes.
End NearAction.

(* ------------------------------------------------------------------ *)
(** ** Transactions *)

Record NearTxBuilder : Type := mkBuilder {
  nb_signer_id : string;
  nb_public_key_uncompressed : list Z;
  nb_nonce : Z;
  nb_receiver_id : string;
  nb_block_hash : list Z;
  nb_actions : list (list Z);
}.

Definition builder_new (signer_id : string) (public_key_uncompressed : list Z) (nonce : Z)
    (receiver_id : string) (block_hash : list Z) : NearTxBuilder :=
  mkBuilder signer_id public_key_uncompressed nonce receiver_id block_hash [].

Definition add_action (b : NearTxBuilder) (action : list Z) : NearTxBuilder :=
  mkBuilder (nb_signer_id b) (nb_public_key_uncompressed b) (nb_nonce b) (nb_receiver_id b)
    (nb_block_hash b) (nb_actions b ++ [action]).

Definition borsh_serialize_tx (b : NearTxBuilder) : list Z :=
  let buf := borsh_write_string [] (nb_signer_id b) in
  let buf := buf ++ [1] in
  let buf := buf ++ nb_public_key_uncompressed b in
  let buf := buf ++ le_enc 8 (nb_nonce b) in
  let buf := borsh_write_string buf (nb_receiver_id b) in
  let buf := buf ++ nb_block_hash b in
  let buf := buf ++ le_enc 4 (vec_len (nb_actions b)) in
  fold_left (fun buf action => buf ++ action) (nb_actions b) buf.

(** Parameters of [NearTransferParams] and [NearFunctionCallParams]. *)
Record NearTransferParams : Type := mkTransferParams {
  ntp_signer_id : string;
  ntp_public_key_uncompressed : list Z;
  ntp_nonce : Z;
  ntp_receiver_id : string;
  ntp_block_hash : list Z;
  ntp_deposit : Z;
}.

Record NearFunctionCallParams : Type := mkFunctionCallParams {
  nfp_signer_id : string;
  nfp_public_key_uncompressed : list Z;
  nfp_nonce : Z;
  nfp_receiver_id : string;
  nfp_block_hash : list Z;
  nfp_method_name : string;
  nfp_args : list Z;
  nfp_gas : Z;
  nfp_deposit : Z;
}.

Section sign.
Context {C : Crates}.
(** [STANDARD.encode] of [base64]; [sign_ecdsa_recoverable] of [secp256k1]: recovery
    identifier and compact signature of a 32-byte message. *)
Variable b64_encode : list Z -> string.
Variable sign_ecdsa_recoverable : list Z -> list Z -> Z * list Z.

Definition sign_and_encode (b : NearTxBuilder) (secret_key : list Z) : result string message :=
  match nb_actions b with
  | [] => Err (lit "Transaction must have at least one action")
  | _ =>
      let tx_bytes := borsh_serialize_tx b in
      let tx_hash := sha256 tx_bytes in
      if negb (length tx_hash =? 32)%nat then Err (lit "Failed to create message: {}")
      else
        let '(rec_id, sig_compact) := sign_ecdsa_recoverable secret_key tx_hash in
        let signed_tx := tx_bytes ++ [1] ++ sig_compact ++ [rec_id mod 256] in
        Ok (b64_encode signed_tx)
  end.

Definition transfer_sign_and_encode (p : NearTransferParams) (secret_key : list Z) : result string message :=
  let builder := builder_new (ntp_signer_id p) (ntp_public_key_uncompressed p) (ntp_nonce p)
                   (ntp_receiver_id p) (ntp_block_hash p) in
  let builder := add_action builder (NearAction.transfer (ntp_deposit p)) in
  sign_and_encode builder secret_key.

Definition call_sign_and_encode (p : NearFunctionCallParams) (secret_key : list Z) : result string message :=
  let builder := builder_new (nfp_signer_id p) (nfp_public_key_uncompressed p) (nfp_nonce p)
                   (nfp_receiver_id p) (nfp_block_hash p) in
  let builder := add_action builder
    (NearAction.function_call (nfp_method_name p) (nfp_args p) (nfp_gas p) (nfp_deposit p)) in
  sign_and_encode builder secret_key.

Definition decode_block_hash (hash_str : string) : result (list Z) message :=
  match bs58_decode hash_str with
  | None => Err (lit "Invalid base58 block hash: {}")
  | Some bytes =>
      if negb (length bytes =? 32)%nat then Err (Msg "Block hash must be 32 bytes, got {}" [FZ (vec_len bytes)])
      else Ok bytes
  end.
End sign.

(* ------------------------------------------------------------------ *)
(** ** What the node reads *)

(** The actions that are written as the node reads them. *)
Inductive built : list Z -> Action -> Prop :=
| built_create_account : built NearAction.create_account (Plain CreateAccount)
| built_deploy_contract code : built (NearAction.deploy_contract code) (Plain (DeployContract code))
| built_function_call m args gas deposit :
    built (NearAction.function_call m args gas deposit) (Plain (FunctionCall (mkFunctionCall m args gas deposit)))
| built_transfer deposit : built (NearAction.transfer deposit) (Plain (Transfer deposit))
| built_stake x pk : built (NearAction.stake x pk) (Plain (Stake (mkStake x (SECP256K1 pk))))
| built_stake_ed25519 x pk : built (NearAction.stake_ed25519 x pk) (Plain (Stake (mkStake x (ED25519 pk))))
| built_add_full_access_key pk :
    built (NearAction.add_full_access_key pk) (Plain (AddKey (mkAddKey (SECP256K1 pk) full_access)))
| built_add_function_call_key pk allowance receiver methods :
    built (NearAction.add_function_call_key pk allowance receiver methods)
      (Plain (AddKey (mkAddKey (SECP256K1 pk)
        (mkAccessKey 0 (PermFunctionCall (mkFunctionCallPermission allowance receiver methods))))))
| built_delete_key pk : built (NearAction.delete_key pk) (Plain (DeleteKey (SECP256K1 pk)))
| built_add_full_access_key_ed25519 pk :
    built (NearAction.add_full_access_key_ed25519 pk) (Plain (AddKey (mkAddKey (ED25519 pk) full_access)))
| built_delete_key_ed25519 pk : built (NearAction.delete_key_ed25519 pk) (Plain (DeleteKey (ED25519 pk)))
| built_delete_account id : built (NearAction.delete_account id) (Plain (DeleteAccount id))
| built_use_by_hash h : built (NearAction.use_global_contract_by_hash h) (Plain (UseGlobalContract (CodeHash h)))
| built_use_by_account id : built (NearAction.use_global_contract_by_account id) (Plain (UseGlobalContract (ByAccountId id)))
| built_transfer_to_gas_key pk x : built (NearAction.transfer_to_gas_key pk x) (Plain (TransferToGasKey (SECP256K1 pk) x))
| built_withdraw_from_gas_key pk x : built (NearAction.withdraw_from_gas_key pk x) (Plain (WithdrawFromGasKey (SECP256K1 pk) x)).

Lemma enc_bytes b : bytes_ok b -> flat_map (enc u8_c) b = b.
Proof.
  induction 1 as [|x b Hx _ IH]; [done|]. cbn [flat_map]. rewrite IH.
  change (enc u8_c x) with [x mod 256]. unfold is_byte in Hx. by rewrite Z.mod_small by lia.
Qed.

Lemma enc_vec b : bytes_ok b -> enc (vec_c u8_c) b = le_enc 4 (vec_len b) ++ b.
Proof. intros Hb. unfold vec_c. cbn [enc]. by rewrite enc_bytes. Qed.

Lemma enc_string s : enc string_c s = le_enc 4 (str_len s) ++ as_bytes s.
Proof.
  change (enc string_c s) with (enc (vec_c u8_c) (as_bytes s)). rewrite enc_vec by apply as_bytes_ok.
  unfold vec_len. by rewrite length_as_bytes_Z.
Qed.

Lemma write_strings l : forall buf,
  fold_left borsh_write_string l buf = buf ++ flat_map (enc string_c) l.
Proof.
  induction l as [|s l IH]; intros buf; simpl fold_left; [by rewrite app_nil_r|].
  rewrite IH. cbn [flat_map]. rewrite enc_string. unfold borsh_write_string. by rewrite <- !app_assoc.
Qed.

Lemma append_all (l : list (list Z)) : forall buf, fold_left (fun buf action => buf ++ action) l buf = buf ++ concat l.
Proof.
  induction l as [|a l IH]; intros buf; simpl; [by rewrite app_nil_r|]. rewrite IH. by rewrite app_assoc.
Qed.

Section decode.
Context {C : Crates}.

(** Byte by byte what the node would have written. *)
Lemma built_enc bytes a : built bytes a -> action_wf a -> enc action_c a = bytes.
Proof.
  intros Hb Hwf. destruct Hb; cbn [action_wf plain_wf] in Hwf.
  - done.
  - destruct Hwf as [_ Hc]. unfold action_c. cbn [enc enc_plain]. by rewrite enc_vec.
  - destruct Hwf as (_ & [_ Ha] & _). unfold action_c. cbn [enc enc_plain function_call_c map_c pair_c fc_method_name fc_args fc_gas fc_deposit fst snd].
    cbn [fc_args] in Ha. rewrite enc_string, enc_vec by done. unfold NearAction.function_call, borsh_write_string.
    by rewrite <- !app_assoc.
  - done.
  - done.
  - done.
  - unfold action_c. cbn [enc enc_plain add_key_c map_c pair_c ad_public_key ad_access_key fst snd public_key_c access_key_c].
    unfold NearAction.add_full_access_key. cbn [app]. done.
  - match goal with |- enc action_c ?a = _ => change (enc action_c a) with (5 :: (1 :: pk) ++ le_enc 8 0 ++ 0
      :: enc (option_c u128_c) allowance ++ enc string_c receiver ++ le_enc 4 (vec_len methods) ++ flat_map (enc string_c) methods) end.
    unfold NearAction.add_function_call_key. rewrite write_strings, enc_string. unfold borsh_write_string.
    destruct allowance as [x|]; cbn [app]; rewrite <- !app_assoc; cbn [app]; rewrite <- ?app_assoc; reflexivity.
  - done.
  - done.
  - done.
  - unfold action_c. cbn [enc enc_plain]. change (enc account_id_c id) with (enc string_c id). by rewrite enc_string.
  - done.
  - unfold action_c. cbn [enc enc_plain identifier_c]. change (enc account_id_c id) with (enc string_c id). by rewrite enc_string.
  - done.
  - done.
Qed.

(** The transaction a builder describes. *)
Definition described (b : NearTxBuilder) (acts : list Action) : Transaction :=
  TxV0 (mkTransactionV0 (nb_signer_id b) (SECP256K1 (nb_public_key_uncompressed b)) (nb_nonce b)
          (nb_receiver_id b) (nb_block_hash b) acts).

Lemma serialize_split b :
  borsh_serialize_tx b
  = enc account_id_c (nb_signer_id b) ++ enc public_key_c (SECP256K1 (nb_public_key_uncompressed b))
    ++ enc u64_c (nb_nonce b) ++ enc account_id_c (nb_receiver_id b) ++ enc hash_c (nb_block_hash b)
    ++ le_enc 4 (vec_len (nb_actions b)) ++ concat (nb_actions b).
Proof.
  unfold borsh_serialize_tx. rewrite append_all. unfold borsh_write_string.
  change (enc account_id_c ?id) with (enc string_c id). rewrite !enc_string.
  change (enc u64_c ?n) with (le_enc 8 n). change (enc hash_c ?h) with h. change (enc public_key_c (SECP256K1 ?k)) with ([1] ++ k).
  rewrite <- !app_assoc. reflexivity.
Qed.

Lemma serialize_enc b acts :
  Forall2 built (nb_actions b) acts -> Forall action_wf acts ->
  borsh_serialize_tx b = enc_transaction (described b acts).
Proof.
  intros Hb Hwf. rewrite serialize_split. unfold enc_transaction, described.
  cbn [t0_signer_id t0_public_key t0_nonce t0_receiver_id t0_block_hash t0_actions].
  unfold tx_tail_c, pair_c. cbn [enc fst snd]. do 5 f_equal. unfold vec_len.
  rewrite (Forall2_length _ _ _ Hb).
  change (enc (vec_c action_c) acts) with (le_enc 4 (Z.of_nat (length acts)) ++ flat_map (enc action_c) acts). f_equal.
  revert Hwf. induction Hb as [|bytes a l l' H1 _ IH]; intros Hwf; [done|].
  apply Forall_cons in Hwf as [Ha Hwf]. cbn [concat flat_map]. by rewrite (built_enc _ _ H1 Ha), IH.
Qed.

(** A well-formed builder. *)
Record builder_ok (b : NearTxBuilder) : Prop := mk_builder_ok {
  bo_signer : id_wf (nb_signer_id b);
  bo_key : length (nb_public_key_uncompressed b) = 64%nat;
  bo_nonce : is_u u64_max (nb_nonce b);
  bo_receiver : id_wf (nb_receiver_id b);
  bo_hash : length (nb_block_hash b) = 32%nat;
  bo_count : vec_len (nb_actions b) <= u32_max;
}.

Lemma described_wf b acts : builder_ok b -> Forall2 built (nb_actions b) acts -> Forall action_wf acts ->
  transaction_wf (described b acts).
Proof.
  intros [H1 H2 H3 H4 H5 H6] Hb Ha. unfold vec_len in H6. rewrite (Forall2_length _ _ _ Hb) in H6.
  unfold transaction_wf, described. by split_and!.
Qed.

Section signed.
Variable b64_encode : list Z -> string.
Variable b64_decode : string -> option (list Z).
Variable sign_ecdsa_recoverable : list Z -> list Z -> Z * list Z.

(** What [base64] and [secp256k1] document: the text decodes to what was encoded; a
    signature has 64 bytes and a recovery identifier, verifies under the public key, and
    the key is recovered from it. *)
Hypothesis b64_round_trip : forall b, bytes_ok b -> b64_decode (b64_encode b) = Some b.
Definition signs_for (secret_key public_key : list Z) : Prop := forall msg,
  let '(rec_id, sig) := sign_ecdsa_recoverable secret_key msg in
  0 <= rec_id <= 3 /\ length sig = 64%nat /\ bytes_ok sig
  /\ verify_ecdsa sig msg (4 :: public_key) = true
  /\ recover_ecdsa (sig ++ [rec_id]) msg = Some (4 :: public_key).

Lemma signed_text_read (b : NearTxBuilder) (acts : list Action) (secret_key : list Z) :
  builder_ok b -> nb_actions b <> [] -> Forall2 built (nb_actions b) acts -> Forall action_wf acts ->
  bytes_ok (borsh_serialize_tx b) -> (forall m, length (sha256 m) = 32%nat) ->
  signs_for secret_key (nb_public_key_uncompressed b) ->
  exists text bytes sig,
    sign_and_encode b64_encode sign_ecdsa_recoverable b secret_key = Ok text
    /\ b64_decode text = Some bytes
    /\ try_from_slice signed_transaction_c bytes = Some (described b acts, SigSECP256K1 sig)
    /\ let hash := sha256 (enc transaction_c (described b acts)) in
       sig_verify (SigSECP256K1 sig) hash (public_key (described b acts)) = true
       /\ recover_ecdsa sig hash = Some (4 :: nb_public_key_uncompressed b).
Proof using b64_round_trip.
  intros Hb Hne Hacts Hwf Hbytes Hsha Hsign. unfold sign_and_encode.
  destruct (nb_actions b) as [|first rest] eqn:En; [done|]. rewrite <- En in Hacts. clear first rest En Hne.
  rewrite (Hsha _). cbn [Nat.eqb negb]. pose proof (serialize_enc b acts Hacts Hwf) as Es.
  specialize (Hsign (sha256 (borsh_serialize_tx b))).
  destruct (sign_ecdsa_recoverable secret_key (sha256 (borsh_serialize_tx b))) as [rec_id sig].
  destruct Hsign as (Hr & Hlen & Hsb & Hv & Hrec). rewrite Z.mod_small by lia.
  eexists _, _, (sig ++ [rec_id]). split; [reflexivity|]. split.
  { apply b64_round_trip. repeat (apply Forall_app; split); try done; repeat constructor; unfold is_byte; lia. }
  change (enc transaction_c (described b acts)) with (enc_transaction (described b acts)). rewrite <- Es.
  split.
  - rewrite Es. unfold try_from_slice.
    assert (length (sig ++ [rec_id]) = 65%nat) as H65 by (rewrite length_app, Hlen; done).
    assert (round_trip signed_transaction_c (fun p => transaction_wf p.1 /\ sig_wf p.2)) as Hrt
      by (apply pair_rt; [apply transaction_rt|apply signature_rt]).
    specialize (Hrt (described b acts, SigSECP256K1 (sig ++ [rec_id])) []
      (conj (described_wf _ _ Hb Hacts Hwf) H65)). rewrite app_nil_r in Hrt.
    change (enc signed_transaction_c _) with (enc_transaction (described b acts) ++ [1] ++ sig ++ [rec_id]) in Hrt.
    by rewrite Hrt.
  - split; [|done]. unfold sig_verify, described. cbn [public_key t0_public_key].
    rewrite app_nth2, Hlen, Nat.sub_diag by lia. cbn [nth]. rewrite (proj2 (Z.leb_le _ _)) by lia. cbn [negb].
    rewrite (Hsha _). cbn [Nat.eqb negb]. rewrite take_app_le, take_ge by lia. exact Hv.
Qed.

(** C14. The node reads what the server writes.  For a builder with well-formed fields and
    actions of the kinds that are written correctly, signing succeeds; the node decodes the
    text, to the last byte, into exactly the transaction described; the hash it computes is
    the one that was signed, so the signature verifies under the key of the transaction,
    and recovering it gives that key. *)
Theorem node_reads_client (b : NearTxBuilder) (acts : list Action) (secret_key : list Z) :
  builder_ok b -> nb_actions b <> [] -> Forall2 built (nb_actions b) acts -> Forall action_wf acts ->
  bytes_ok (borsh_serialize_tx b) -> (forall m, length (sha256 m) = 32%nat) ->
  signs_for secret_key (nb_public_key_uncompressed b) ->
  exists text bytes sig,
    sign_and_encode b64_encode sign_ecdsa_recoverable b secret_key = Ok text
    /\ b64_decode text = Some bytes
    /\ try_from_slice signed_transaction_c bytes = Some (described b acts, SigSECP256K1 sig)
    /\ let hash := sha256 (enc transaction_c (described b acts)) in
       sig_verify (SigSECP256K1 sig) hash (public_key (described b acts)) = true
       /\ recover_ecdsa sig hash = Some (4 :: nb_public_key_uncompressed b).
Proof using b64_round_trip. by apply signed_text_read. Qed.
End signed.

(* ------------------------------------------------------------------ *)
(** ** Actions the node does not read *)

Lemma dec_many_short n : forall b, (length b < n)%nat -> dec_many u8_c n b = None.
Proof.
  induction n as [|n IH]; intros b Hb; [lia|]. destruct b as [|x b]; [done|]. cbn [dec_many dec u8_c uint_c le_dec].
  rewrite IH; [done|]. simpl in Hb. lia.
Qed.

(** The fields before the actions. *)
Lemma dec_fields b tail : builder_ok b ->
  dec_transaction (enc account_id_c (nb_signer_id b) ++ enc public_key_c (SECP256K1 (nb_public_key_uncompressed b))
    ++ enc u64_c (nb_nonce b) ++ enc account_id_c (nb_receiver_id b) ++ enc hash_c (nb_block_hash b) ++ tail)
  = let* (acts, rest) := dec (vec_c action_c) tail in Some (described b acts, rest).
Proof.
  intros [Hs Hk Hn Hr Hh _]. pose proof (validate_bounds _ (proj2 Hs)) as Hb. unfold MIN_LEN, MAX_LEN in Hb.
  rewrite enc_account_id, <- !app_assoc. unfold dec_transaction. set (body := flat_map _ _ ++ _).
  rewrite le_enc_4. cbn [app]. do 4 (rewrite u8_tag by
    (pose proof (Z.mod_pos_bound); unfold is_u, u8_max; Z.to_euclidean_division_equations; lia)).
  replace (str_len (nb_signer_id b) / 256 mod 256) with 0 by (Z.to_euclidean_division_equations; lia).
  rewrite Z.eqb_refl. subst body.
  replace [str_len (nb_signer_id b) mod 256; 0; _; _] with (le_enc 4 (str_len (nb_signer_id b)))
    by (rewrite le_enc_4; repeat f_equal; Z.to_euclidean_division_equations; lia).
  rewrite read_signer_id_enc by done. unfold tx_tail_c, pair_c. cbn [dec].
  rewrite (public_key_rt (SECP256K1 (nb_public_key_uncompressed b))) by done.
  rewrite (u64_rt (nb_nonce b)), (account_id_rt (nb_receiver_id b)), (hash_rt (nb_block_hash b)) by done.
  destruct (dec (vec_c action_c) tail) as [[acts rest]|]; done.
Qed.

(** Builders whose bytes the node cannot read as an action. *)
Inductive miswritten : list Z -> Prop :=
| miswritten_deploy_global code : 0 < vec_len code < 2 ^ 24 -> miswritten (NearAction.deploy_global_contract code)
| miswritten_state_init : miswritten NearAction.deterministic_state_init
| miswritten_delegate d sig : delegate_wf d -> vec_len (enc delegate_action_c d) <= u32_max ->
    bytes_ok (enc delegate_action_c d) -> miswritten (NearAction.delegate (enc delegate_action_c d) sig).

Lemma delegate_long d : delegate_wf d -> (65 <= length (enc delegate_action_c d))%nat.
Proof.
  intros (H1 & H2 & _ & _ & _ & _ & H7). pose proof (validate_bounds _ (proj2 H1)) as B1.
  pose proof (validate_bounds _ (proj2 H2)) as B2. unfold MIN_LEN in B1, B2.
  unfold delegate_action_c, map_c, pair_c. cbn [enc fst snd]. rewrite !length_app.
  change (enc account_id_c ?i) with (enc string_c i). rewrite !enc_string, !length_app, !le_enc_length, !length_as_bytes.
  change (enc u64_c ?n) with (le_enc 8 n). rewrite !le_enc_length.
  assert (33 <= length (enc public_key_c (da_public_key d)))%nat
    by (destruct (da_public_key d); simpl in H7 |- *; lia).
  assert (4 <= length (enc (vec_c non_delegate_c) (da_actions d)))%nat
    by (unfold vec_c; cbn [enc]; rewrite length_app, le_enc_length; lia).
  unfold str_len in *. lia.
Qed.

Lemma miswritten_unread a sig rec_id : miswritten a -> length sig = 64%nat ->
  dec action_c (a ++ [1] ++ sig ++ [rec_id]) = None.
Proof.
  intros Ha Hsig. destruct Ha as [code Hcode| |d s Hd Hlen Hok].
  - unfold NearAction.deploy_global_contract, NearAction.DEPLOY_GLOBAL_CONTRACT, action_c. cbn [app dec]. tag.
    change (9 =? ACTION_DELEGATE_NUMBER) with false. cbn iota. unfold dec_variant. cbn [Z.eqb Pos.eqb].
    unfold deploy_global_c, map_c, pair_c, vec_c. cbn [dec]. rewrite le_enc_4. cbn [app le_dec].
    rewrite dec_many_short; [done|]. rewrite length_cons, !length_app. cbn [length]. rewrite length_app, Hsig. cbn [length].
    unfold vec_len in *. Z.to_euclidean_division_equations. lia.
  - done.
  - unfold NearAction.delegate, NearAction.DELEGATE, action_c. cbn [app dec]. tag. change (8 =? ACTION_DELEGATE_NUMBER) with true. cbn iota.
    set (bytes := enc delegate_action_c d) in *. rewrite <- !app_assoc. rewrite app_assoc, <- (enc_vec bytes Hok).
    unfold signed_delegate_c, delegate_action_c, map_c, pair_c, account_id_c, string_c, guard_c, map_c. cbn [dec].
    rewrite (bytes_rt bytes) by done. destruct (is_str (of_bytes bytes)); [|done].
    destruct (is_ok (validate (of_bytes bytes))) eqn:E; [|done]. apply validate_bounds in E. exfalso.
    pose proof (delegate_long d Hd) as Hl. fold bytes in Hl. unfold MAX_LEN in E.
    rewrite <- (as_bytes_of_bytes bytes Hok), length_as_bytes in Hl. unfold str_len in E. lia.
Qed.

Lemma dec_actions_fail pre acts a tail : Forall2 built pre acts -> Forall action_wf acts ->
  dec action_c (a ++ tail) = None ->
  dec_many action_c (length (pre ++ [a])) (concat (pre ++ [a]) ++ tail) = None.
Proof.
  intros Hb. induction Hb as [|bytes x pre acts H1 _ IH]; intros Hwf Hfail.
  { cbn [app length concat dec_many]. by rewrite app_nil_r, Hfail. }
  apply Forall_cons in Hwf as [Hx Hwf]. cbn [app length concat dec_many]. rewrite <- app_assoc.
  rewrite <- (built_enc _ _ H1 Hx), (action_rt x) by done. by rewrite IH.
Qed.

(** Three kinds of actions that the server offers never reach the chain: a transaction
    that ends with the deployment of a global contract, a deterministic state
    initialization, or a delegate action, is not decoded by the node, whatever signature
    follows, since the server writes their fields in another layout. *)
Theorem miswritten_rejected (b : NearTxBuilder) pre acts a sig rec_id :
  builder_ok b -> nb_actions b = pre ++ [a] -> Forall2 built pre acts -> Forall action_wf acts ->
  miswritten a -> length sig = 64%nat ->
  try_from_slice signed_transaction_c (borsh_serialize_tx b ++ [1] ++ sig ++ [rec_id]) = None.
Proof.
  intros Hb Ea Hpre Hwf Ha Hsig. unfold try_from_slice, signed_transaction_c. unfold pair_c at 1. cbn [dec].
  rewrite serialize_split, <- !app_assoc. unfold transaction_c. cbn [dec].
  rewrite dec_fields by done. unfold vec_c. cbn [dec]. rewrite Ea.
  pose proof (bo_count _ Hb) as Hc. rewrite Ea in Hc.
  pose proof (u32_rt (vec_len (pre ++ [a]))) as Hu. unfold u32_c, uint_c in Hu. cbn [enc dec] in Hu.
  rewrite Hu by (unfold is_u, vec_len in *; lia). unfold vec_len. rewrite Nat2Z.id.
  by rewrite (dec_actions_fail pre acts) by (done || by apply miswritten_unread).
Qed.
End decode.

(** Staking through the server is always refused.  The bytes it writes for a stake are read
    as a stake under the secp256k1 key of the account, and validation refuses every stake
    that is not under an ed25519 key. *)
Theorem stake_refused {C : Crates} (x : Z) (pk : list Z) (rest : list Z) receiver version :
  is_u u128_max x -> length pk = 64%nat ->
  dec action_c (NearAction.stake x pk ++ rest) = Some (Plain (Stake (mkStake x (SECP256K1 pk))), rest)
  /\ forall l, validate_action l receiver version (Plain (Stake (mkStake x (SECP256K1 pk))))
       = Err (UnsuitableStakingKey (SECP256K1 pk)).
Proof.
  intros Hx Hpk. assert (action_wf (Plain (Stake (mkStake x (SECP256K1 pk))))) as Hwf by (by split).
  split; [|done]. rewrite <- (built_enc _ _ (built_stake x pk) Hwf). by apply action_rt.
Qed.

(* ------------------------------------------------------------------ *)
(** ** A concrete transaction *)

Module BuilderSample.

(** One key pair, which signs everything. *)
Definition key : list Z := repeat 9 64.
Definition crates : Crates := {|
  sha256 := Toy.digest 32;
  ripemd160 := Toy.digest 20;
  keccak256 := Toy.digest 32;
  bs58_encode := Toy.encode;
  bs58_decode := fun s => Toy.decode_pairs (as_bytes s);
  segwit_decode := fun _ => None;
  recover_ecdsa := fun _ _ => Some (4 :: key);
  verify_ecdsa := fun _ _ k => bool_decide (k = 4 :: key);
  verify_ed25519 := fun _ _ _ => false;
  ed25519_torsion_free := fun _ => false;
|}.
#[local] Existing Instance crates.

Definition signer (secret_key msg : list Z) : Z * list Z := (1, repeat 1 64).
Definition b : NearTxBuilder :=
  add_action (builder_new "alice.near" key 7 "bob.near" (repeat 0 32)) (NearAction.transfer 5).
Definition acts : list Action := [Plain (Transfer 5)].

Lemma b_ok : builder_ok b.
Proof. split; try (vm_compute; done); split; vm_compute; done. Qed.

Lemma node_reads_client_witness : exists text bytes sig,
  sign_and_encode of_bytes signer b [] = Ok text /\ Some (as_bytes text) = Some bytes /\
  try_from_slice signed_transaction_c bytes = Some (described b acts, SigSECP256K1 sig).
Proof.
  destruct (node_reads_client of_bytes (fun s => Some (as_bytes s)) signer
    (fun l H => f_equal Some (as_bytes_of_bytes l H)) b acts []) as (t & by' & sig & H1 & H2 & H3 & _).
  - exact b_ok.
  - discriminate.
  - constructor; [apply built_transfer|constructor].
  - apply Forall_singleton. vm_compute. done.
  - assert (forallb (fun x => (0 <=? x) && (x <? 256)) (borsh_serialize_tx b) = true) as H by (vm_compute; reflexivity).
    rewrite forallb_forall in H. apply Forall_forall. intros x Hx. apply list_elem_of_In, H in Hx. unfold is_byte. lia.
  - intros m. apply Toy.digest_len.
  - intros msg. split; [lia|]. split; [done|]. split; [|split; [vm_compute; reflexivity|reflexivity]].
    apply Forall_forall. intros x Hx. apply list_elem_of_In, repeat_spec in Hx as ->. unfold is_byte. lia.
  - exists t, by', sig. exact (conj H1 (conj H2 H3)).
Defined.

Lemma miswritten_rejected_witness :
  try_from_slice signed_transaction_c
    (borsh_serialize_tx (add_action b NearAction.deterministic_state_init) ++ [1] ++ repeat 1 64 ++ [0]) = None.
Proof.
  apply (miswritten_rejected _ (nb_actions b) acts NearAction.deterministic_state_init).
  - destruct b_ok. by split.
  - reflexivity.
  - constructor; [apply built_transfer|constructor].
  - apply Forall_singleton. vm_compute. done.
  - apply miswritten_state_init.
  - reflexivity.
Defined.

Lemma stake_refused_witness :
  dec action_c (NearAction.stake 5 key) = Some (Plain (Stake (mkStake 5 (SECP256K1 key))), []).
Proof. apply (stake_refused 5 key [] "alice.near" 0); [vm_compute; done|reflexivity]. Defined.
End BuilderSample.
