(* ===== verification/Wallet.v ===== *)
(** * The wallet of the RPC server (bitinfinity-btcrpc/src/keystore.rs, main.rs)

    Keys live in memory and in a file, which may be encrypted under a passphrase; commands
    create and import keys, encrypt, lock and unlock.  Commands run one after the other; the
    text of an error of the operating system or of a crate is the placeholder of its message. *)

From S2P Require Import Prelude Float64 Crates AccountId Bech32 Addresses.

(* ------------------------------------------------------------------ *)
(** ** The keystore (keystore.rs) *)

Record KeyEntry : Type := mkKeyEntry {
  private_key_hex : string;
  public_key_compressed_hex : string;
  public_key_uncompressed_hex : string;
}.

Record Keystore : Type := mkKeystore {
  ks_keys : gmap string KeyEntry;
  ks_watch_only : list string;
  ks_encrypted : bool;
}.

Record EncryptedWallet : Type := mkEncryptedWallet {
  ew_encrypted : bool;
  ew_salt : string;
  ew_data : string;
  ew_check : string;
  ew_nonce : string;
  ew_scheme : string;
}.

#[export] Instance key_entry_eq_dec : EqDecision KeyEntry.
Proof. solve_decision. Defined.
#[export] Instance keystore_eq_dec : EqDecision Keystore.
Proof. solve_decision. Defined.

(** The crates of the server: [hex], [secp256k1] (a secret key is valid; its public key,
    compressed and with the leading byte 4; a recoverable signature), [chacha20poly1305],
    [serde_json] on keystores and encrypted wallets, and [base64]. *)
Class RpcCrates : Type := {
  hex_decode : string -> option (list Z);
  secp_valid : list Z -> bool;
  secp_compressed : list Z -> list Z;
  secp_uncompressed : list Z -> list Z;
  secp_sign : list Z -> list Z -> Z * list Z;
  aead_encrypt : list Z -> list Z -> list Z -> option (list Z);
  aead_decrypt : list Z -> list Z -> list Z -> option (list Z);
  keystore_to_json : Keystore -> string;
  keystore_to_json_pretty : Keystore -> string;
  keystore_of_json : string -> option Keystore;
  wallet_to_json_pretty : EncryptedWallet -> string;
  wallet_of_json : string -> option EncryptedWallet;
  b64_std_encode : list Z -> string;
  b64_std_decode : string -> option (list Z);
}.

(** What the server relies on.  A ciphertext opens under its own key only: the tag is taken
    as unforgeable.  The JSON of a keystore has no salt and is not an encrypted wallet.
    [encrypt] refuses only texts beyond 256 GiB, which no wallet reaches. *)
Class RpcLaws (C : Crates) (R : RpcCrates) : Prop := {
  hex_round b : bytes_ok b -> hex_decode (hex_encode b) = Some b;
  secp_valid_len b : secp_valid b = true -> length b = 32%nat /\ bytes_ok b;
  aead_total k n p : is_Some (aead_encrypt k n p);
  aead_open k n p c : aead_encrypt k n p = Some c -> aead_decrypt k n c = Some p;
  aead_auth k k' n p p' c : aead_encrypt k n p = Some c -> aead_decrypt k' n c = Some p' -> k' = k;
  aead_bytes k n p c : bytes_ok p -> aead_encrypt k n p = Some c -> bytes_ok c;
  keystore_json ks : keystore_of_json (keystore_to_json ks) = Some ks;
  keystore_json_pretty ks : keystore_of_json (keystore_to_json_pretty ks) = Some ks;
  keystore_not_wallet ks : wallet_of_json (keystore_to_json_pretty ks) = None;
  wallet_json w : wallet_of_json (wallet_to_json_pretty w) = Some w;
  keystore_json_str ks : is_str (keystore_to_json ks) = true;
  keystore_json_pretty_str ks : is_str (keystore_to_json_pretty ks) = true;
  wallet_json_str w : is_str (wallet_to_json_pretty w) = true;
  empty_json : keystore_of_json "" = None /\ wallet_of_json "" = None;
}.

(** How a write of the file ends: done, or failing at the directory, at opening, or after
    some bytes. *)
Inductive Write : Type :=
| Written
| DirFails
| OpenFails
| WriteFails (n : nat).

Definition keystore_default : Keystore := mkKeystore ∅ [] false.
Definition empty_encrypted : Keystore := mkKeystore ∅ [] true.

Definition ks_insert (ks : Keystore) (address : string) (entry : KeyEntry) : Keystore :=
  mkKeystore (<[address := entry]> (ks_keys ks)) (ks_watch_only ks) (ks_encrypted ks).

Definition ks_get (ks : Keystore) (address : string) : option KeyEntry := ks_keys ks !! address.

Definition is_watch_only (ks : Keystore) (address : string) : bool := bool_decide (address ∈ ks_watch_only ks).

(** The keys come in the map's order. *)
Definition all_addresses (ks : Keystore) : list string :=
  let addrs := (map_to_list (ks_keys ks)).*1 in
  fold_left (fun addrs wo => if bool_decide (wo ∈ addrs) then addrs else addrs ++ [wo]) (ks_watch_only ks) addrs.

Definition add_watch_only (ks : Keystore) (address : string) : Keystore :=
  if bool_decide (address ∈ ks_watch_only ks) then ks
  else mkKeystore (ks_keys ks) (ks_watch_only ks ++ [address]) (ks_encrypted ks).

Section keystore.
Context {C : Crates} {R : RpcCrates}.

(** A hundred thousand rounds. *)
Definition derive_key (passphrase : string) (salt : list Z) : list Z :=
  Pos.iter (fun hash => sha256 (hash ++ salt)) (sha256 (as_bytes passphrase ++ salt)) 100000.

(** Blocks of 32 bytes; as many rounds as bytes are enough. *)
Fixpoint xor_blocks (fuel : nat) (data key block : list Z) : list Z :=
  match fuel, data with
  | S fuel, _ :: _ =>
      zip_with Z.lxor (take 32 data) block
      ++ xor_blocks fuel (drop 32 data) key (sha256 (block ++ take 16 key))
  | _, _ => []
  end.
Definition xor_encrypt (data key : list Z) : list Z := xor_blocks (length data) data key key.

(** The file's bytes, if it exists. *)
Definition read_to_string (file : option (list Z)) : option string :=
  match file with
  | Some bytes => if is_utf8 bytes then Some (of_bytes bytes) else None
  | None => None
  end.

Definition load (file : option (list Z)) : Keystore :=
  match read_to_string file with
  | Some contents =>
      if match wallet_of_json contents with Some enc => ew_encrypted enc | None => false end
      then mkKeystore ∅ [] true
      else match keystore_of_json contents with
           | Some ks => ks
           | None => keystore_default
           end
  | None => keystore_default
  end.

Definition decrypt_aead (key : list Z) (nonce_hex : string) (ciphertext : list Z) : result (list Z) message :=
  match hex_decode nonce_hex with
  | None => Err (lit "Invalid nonce in wallet file")
  | Some nonce_bytes =>
      if negb (length nonce_bytes =? 12)%nat then Err (lit "Invalid nonce length")
      else ok_or (aead_decrypt key nonce_bytes ciphertext) (lit "Incorrect passphrase")
  end.

Definition load_encrypted (passphrase : string) (file : option (list Z)) : result Keystore message :=
  let? contents := ok_or (read_to_string file) (lit "Failed to read wallet file: {}") in
  let? enc := ok_or (wallet_of_json contents) (lit "Wallet file is not encrypted") in
  if negb (ew_encrypted enc) then Err (lit "Wallet is not encrypted")
  else
    let? salt := ok_or (hex_decode (ew_salt enc)) (lit "Invalid salt in wallet file") in
    let? encrypted_data := ok_or (hex_decode (ew_data enc)) (lit "Invalid encrypted data in wallet file") in
    let key := derive_key passphrase salt in
    let? plaintext :=
      if bool_decide (ew_scheme enc = "aead"%string) then decrypt_aead key (ew_nonce enc) encrypted_data
      else
        let decrypted := xor_encrypt encrypted_data key in
        if negb (bool_decide (hex_encode (sha256 decrypted) = ew_check enc))
        then Err (lit "Incorrect passphrase") else Ok decrypted in
    if negb (is_utf8 plaintext) then Err (lit "Incorrect passphrase (invalid UTF-8)")
    else
      let? ks := ok_or (keystore_of_json (of_bytes plaintext)) (lit "Incorrect passphrase (invalid JSON)") in
      Ok (mkKeystore (ks_keys ks) (ks_watch_only ks) true).

(** The file is truncated when it is opened, before it is written. *)
Definition write_with_restricted_permissions (io : Write) (file : option (list Z)) (data : list Z)
    : option (list Z) * result unit message :=
  match io with
  | Written => (Some data, Ok tt)
  | WriteFails n => (Some (take n data), Err (lit "Failed to write wallet file: {}"))
  | _ => (file, Err (lit "Failed to write wallet file: {}"))
  end.

Definition create_dir_all (io : Write) : result unit message :=
  match io with DirFails => Err (lit "Failed to create keystore directory: {}") | _ => Ok tt end.

Definition save (io : Write) (file : option (list Z)) (ks : Keystore) : option (list Z) * result unit message :=
  match create_dir_all io with
  | Ok _ => write_with_restricted_permissions io file (as_bytes (keystore_to_json_pretty ks))
  | r => (file, r)
  end.

(** Salt and nonce come from the system's generator. *)
Definition save_encrypted (io : Write) (salt nonce_bytes : list Z) (file : option (list Z)) (ks : Keystore)
    (passphrase : string) : option (list Z) * result unit message :=
  match create_dir_all io with
  | Ok _ =>
      let inner := mkKeystore (ks_keys ks) (ks_watch_only ks) false in
      let plaintext := keystore_to_json inner in
      let key := derive_key passphrase salt in
      match aead_encrypt key nonce_bytes (as_bytes plaintext) with
      | None => (file, Err (lit "Encryption failed: {}"))
      | Some encrypted_data =>
          let enc := mkEncryptedWallet true (hex_encode salt) (hex_encode encrypted_data) ""
                       (hex_encode nonce_bytes) "aead" in
          write_with_restricted_permissions io file (as_bytes (wallet_to_json_pretty enc))
      end
  | r => (file, r)
  end.

Definition private_key_bytes (e : KeyEntry) : result (list Z) message :=
  let? bytes := ok_or (hex_decode (private_key_hex e)) (lit "Invalid private key hex: {}") in
  if negb (length bytes =? 32)%nat then Err (lit "Private key must be 32 bytes") else Ok bytes.

Definition public_key_uncompressed_bytes (e : KeyEntry) : result (list Z) message :=
  let? bytes := ok_or (hex_decode (public_key_uncompressed_hex e)) (lit "Invalid public key hex: {}") in
  if negb (length bytes =? 64)%nat then Err (lit "Uncompressed public key must be 64 bytes") else Ok bytes.

Definition near_public_key_string (e : KeyEntry) : result string message :=
  let? bytes := public_key_uncompressed_bytes e in
  Ok ("secp256k1:" +:+ bs58_encode bytes).

(* ------------------------------------------------------------------ *)
(** ** Wallet import format (main.rs) *)

Definition privkey_hex_to_wif (hex_key : string) (testnet : bool) : string :=
  match hex_decode hex_key with
  | None => hex_key
  | Some key_bytes =>
      let version := if testnet then 0xEF else 0x80 in
      let payload := [version] ++ key_bytes ++ [1] in
      let checksum := sha256 (sha256 payload) in
      bs58_encode (payload ++ take 4 checksum)
  end.

Definition wif_to_privkey_hex (wif : string) : result (string * bool) message :=
  let? bytes := ok_or (bs58_decode wif) (lit "Invalid WIF base58: {}") in
  if (length bytes <? 5)%nat then Err (lit "WIF too short")
  else
    let payload := take (length bytes - 4) bytes in
    let checksum := drop (length bytes - 4) bytes in
    let computed := sha256 (sha256 payload) in
    if negb (bool_decide (take 4 computed = checksum)) then Err (lit "WIF checksum mismatch")
    else
      let version := nth 0 payload 0 in
      if negb (version =? 0x80) && negb (version =? 0xEF)
      then Err (Msg "Unknown WIF version byte: 0x{:02x}" [FZ version])
      else
        let key_data := drop 1 payload in
        if (length key_data =? 33)%nat && (nth 32 key_data 0 =? 1) then Ok (hex_encode (take 32 key_data), true)
        else if (length key_data =? 32)%nat then Ok (hex_encode key_data, false)
        else Err (Msg "Invalid WIF key length: {}" [FZ (vec_len key_data)]).
End keystore.

(* ------------------------------------------------------------------ *)
(** ** The state and its commands (main.rs) *)

(** The fields of [RpcState] that the wallet uses, and the file. *)
Record WalletState : Type := mkWalletState {
  ws_chain_id : string;
  ws_keystore : Keystore;
  ws_unlock_until : option Z;
  ws_passphrase : option string;
  ws_name : string;
  ws_loaded : bool;
  ws_file : option (list Z);
}.

Definition with_keystore (w : WalletState) (ks : Keystore) : WalletState :=
  mkWalletState (ws_chain_id w) ks (ws_unlock_until w) (ws_passphrase w) (ws_name w) (ws_loaded w) (ws_file w).
Definition with_file (w : WalletState) (file : option (list Z)) : WalletState :=
  mkWalletState (ws_chain_id w) (ws_keystore w) (ws_unlock_until w) (ws_passphrase w) (ws_name w) (ws_loaded w) file.
Definition with_unlock (w : WalletState) (until : option Z) : WalletState :=
  mkWalletState (ws_chain_id w) (ws_keystore w) until (ws_passphrase w) (ws_name w) (ws_loaded w) (ws_file w).
Definition with_passphrase (w : WalletState) (pp : option string) : WalletState :=
  mkWalletState (ws_chain_id w) (ws_keystore w) (ws_unlock_until w) pp (ws_name w) (ws_loaded w) (ws_file w).
Definition with_name (w : WalletState) (name : string) (loaded : bool) : WalletState :=
  mkWalletState (ws_chain_id w) (ws_keystore w) (ws_unlock_until w) (ws_passphrase w) name loaded (ws_file w).

(** Values of [serde_json]; numbers are integers or floats. *)
Inductive Json : Type :=
| JNull
| JBool (b : bool)
| JNum (n : Z)
| JFloat (x : f64)
| JStr (s : string)
| JArr (l : list Json)
| JObj (fields : list (string * Json)).

(** [Panicked]: the task of the command dies, with the state it left. *)
Inductive Response : Type :=
| OkResponse (result : Json)
| ErrResponse (code : Z) (msg : message)
| Panicked.

(** [format!] of a prefix and an error. *)
Definition wrap (prefix : string) (m : message) : message := Msg (prefix +:+ msg_template m) (msg_args m).

(** Times are in nanoseconds; the seconds of an [Instant] are an i64, and adding past them
    panics. *)
Definition NANOS : Z := 10 ^ 9.
Definition instant_add (now secs : Z) : option Z :=
  let until := now + secs * NANOS in if until <? 2 ^ 63 * NANOS then Some until else None.

(** [str::contains]. *)
Fixpoint has_infix (needle l : list Z) : bool :=
  bool_decide (take (length needle) l = needle) || match l with [] => false | _ :: l => has_infix needle l end.

Definition bech32_hrp (chain_id : string) : string :=
  if has_infix (as_bytes "mainnet") (as_bytes chain_id) then "bc"
  else if has_infix (as_bytes "regtest") (as_bytes chain_id) then "bcrt"
  else "tb".
Definition is_testnet (chain_id : string) : bool := negb (has_infix (as_bytes "mainnet") (as_bytes chain_id)).

Definition is_wallet_unlocked (w : WalletState) (now : Z) : bool :=
  match ws_unlock_until w with
  | Some until => now <? until
  | None => false
  end.

(** What the system gives to a command: time, randomness, whether a write succeeds. *)
Record Env : Type := mkEnv {
  env_now : Z;
  env_io : Write;
  env_salt : list Z;
  env_nonce : list Z;
  env_secret_key : list Z;
}.

(** What a path given to a command names: a file that cannot be written, another file, or
    the wallet file itself. *)
Inductive CopyTarget : Type :=
| NoTarget
| OtherFile
| WalletItself.

Definition not_loaded : Response :=
  ErrResponse (-18) (lit "Requested wallet does not exist or is not loaded").
Definition locked_wallet : Response :=
  ErrResponse (-13) (lit "Error: Please enter the wallet passphrase with walletpassphrase first.").
Definition null : Response := OkResponse JNull.

Section commands.
Context {C : Crates} {R : RpcCrates}.

Definition rpc_state_new (chain_id : string) (now : Z) (file : option (list Z)) : WalletState :=
  let keystore := load file in
  mkWalletState chain_id keystore (if ks_encrypted keystore then None else Some (now + 999999999 * NANOS)) None
    "bitinfinity" true file.

(** Errors are only logged. *)
Definition save_keystore (e : Env) (w : WalletState) (ks : Keystore) : WalletState :=
  if ks_encrypted ks then
    match ws_passphrase w with
    | Some pp => with_file w (save_encrypted (env_io e) (env_salt e) (env_nonce e) (ws_file w) ks pp).1
    | None => w
    end
  else with_file w (save (env_io e) (ws_file w) ks).1.

(** Insertion under the addresses of a key, and saving. *)
Definition add_key (e : Env) (w : WalletState) (p2pkh_address bech32_address : string) (entry : KeyEntry)
    : WalletState :=
  let p2pkh_legacy := to_lowercase p2pkh_address in
  let keystore := ks_insert (ws_keystore w) p2pkh_address entry in
  let keystore := if negb (bool_decide (p2pkh_legacy = p2pkh_address))
                  then ks_insert keystore p2pkh_legacy entry else keystore in
  let keystore := ks_insert keystore bech32_address entry in
  save_keystore e (with_keystore w keystore) keystore.

Definition entry_of (sk_hex : string) (secret_key : list Z) : KeyEntry :=
  mkKeyEntry sk_hex (hex_encode (secp_compressed secret_key))
    (hex_encode (drop 1 (secp_uncompressed secret_key))).

Definition handle_getnewaddress (e : Env) (addr_type : option string) (w : WalletState) : WalletState * Response :=
  if negb (ws_loaded w) then (w, not_loaded)
  else if negb (is_wallet_unlocked w (env_now e)) then (w, locked_wallet)
  else
    let addr_type := default "bech32"%string addr_type in
    let secret_key := env_secret_key e in
    let pubkey_hash := hash160 (secp_compressed secret_key) in
    let p2pkh_address := base58check (0x00 :: pubkey_hash) in
    let bech32_address := rpc_bech32_encode (bech32_hrp (ws_chain_id w)) 0 pubkey_hash in
    let address := if bool_decide (addr_type = "legacy"%string) then p2pkh_address else bech32_address in
    let entry := entry_of (hex_encode secret_key) secret_key in
    (add_key e w p2pkh_address bech32_address entry, OkResponse (JStr address)).

Definition handle_getrawchangeaddress (e : Env) (w : WalletState) : WalletState * Response :=
  if negb (ws_loaded w) then (w, not_loaded)
  else if negb (is_wallet_unlocked w (env_now e)) then (w, locked_wallet)
  else
    let secret_key := env_secret_key e in
    let pubkey_hash := hash160 (secp_compressed secret_key) in
    let p2pkh_address := base58check (0x00 :: pubkey_hash) in
    let bech32_address := rpc_bech32_encode (bech32_hrp (ws_chain_id w)) 0 pubkey_hash in
    let entry := entry_of (hex_encode secret_key) secret_key in
    (add_key e w p2pkh_address bech32_address entry, OkResponse (JStr bech32_address)).

Definition handle_dumpprivkey (e : Env) (addr : option string) (w : WalletState) : WalletState * Response :=
  if negb (ws_loaded w) then (w, not_loaded)
  else if negb (is_wallet_unlocked w (env_now e)) then (w, locked_wallet)
  else match addr with
  | None => (w, ErrResponse (-32602) (lit "Missing address parameter"))
  | Some addr =>
      match ks_get (ws_keystore w) addr with
      | Some entry => (w, OkResponse (JStr (privkey_hex_to_wif (private_key_hex entry) (is_testnet (ws_chain_id w)))))
      | None => (w, ErrResponse (-4) (Msg "Private key not available for {}" [FS addr]))
      end
  end.

Definition handle_importprivkey (e : Env) (privkey_input : option string) (w : WalletState) : WalletState * Response :=
  if negb (ws_loaded w) then (w, not_loaded)
  else if negb (is_wallet_unlocked w (env_now e)) then (w, locked_wallet)
  else match privkey_input with
  | None => (w, ErrResponse (-32602) (lit "Missing private key"))
  | Some privkey_input =>
      let privkey_hex :=
        if (str_len privkey_input =? 64) && match hex_decode privkey_input with Some _ => true | None => false end
        then Ok privkey_input
        else match wif_to_privkey_hex privkey_input with
             | Ok (hex_key, _) => Ok hex_key
             | Err m => Err m
             | Panic => Panic
             end in
      match privkey_hex with
      | Ok privkey_hex =>
          match hex_decode privkey_hex with
          | None => (w, ErrResponse (-5) (lit "Invalid hex: {}"))
          | Some sk_bytes =>
              if negb (secp_valid sk_bytes) then (w, ErrResponse (-5) (lit "Invalid private key: {}"))
              else
                let pubkey_hash := hash160 (secp_compressed sk_bytes) in
                let hrp := bech32_hrp (ws_chain_id w) in
                let version_byte := if bool_decide (hrp = "bc"%string) then 0x00 else 0x6F in
                let p2pkh_address := base58check (version_byte :: pubkey_hash) in
                let bech32_address := rpc_bech32_encode hrp 0 pubkey_hash in
                let entry := entry_of privkey_hex sk_bytes in
                (add_key e w p2pkh_address bech32_address entry, OkResponse (JStr p2pkh_address))
          end
      | Err m => (w, ErrResponse (-5) (wrap "Invalid private key (expected WIF or 64-char hex): " m))
      | Panic => (w, Panicked)
      end
  end.

Definition import_watch_only (e : Env) (address : string) (w : WalletState) : WalletState * Response :=
  let keystore := add_watch_only (ws_keystore w) address in
  (save_keystore e (with_keystore w keystore) keystore, null).

Definition handle_importaddress (e : Env) (address : option string) (w : WalletState) : WalletState * Response :=
  if negb (ws_loaded w) then (w, not_loaded)
  else match address with
  | None => (w, ErrResponse (-32602) (lit "Missing address parameter"))
  | Some address => import_watch_only e address w
  end.

Definition handle_importpubkey (e : Env) (pubkey_hex : option string) (w : WalletState) : WalletState * Response :=
  if negb (ws_loaded w) then (w, not_loaded)
  else match pubkey_hex with
  | None => (w, ErrResponse (-32602) (lit "Missing pubkey parameter"))
  | Some pubkey_hex =>
      match hex_decode pubkey_hex with
      | Some b =>
          if (length b =? 33)%nat || (length b =? 65)%nat
          then import_watch_only e (derive_script_pub_key_address (hash160 b) (bech32_hrp (ws_chain_id w))) w
          else (w, ErrResponse (-5) (lit "Invalid public key (expected 33 or 65 hex bytes)"))
      | None => (w, ErrResponse (-5) (lit "Invalid public key (expected 33 or 65 hex bytes)"))
      end
  end.

Definition handle_walletpassphrase (e : Env) (passphrase : option string) (timeout_secs : option Z) (w : WalletState)
    : WalletState * Response :=
  if negb (ws_loaded w) then (w, not_loaded)
  else match passphrase with
  | None => (w, ErrResponse (-32602) (lit "Missing passphrase parameter"))
  | Some passphrase =>
      if negb (ks_encrypted (ws_keystore w)) then
        (w, ErrResponse (-15) (lit "Error: running with an unencrypted wallet, but walletpassphrase was called."))
      else match load_encrypted passphrase (ws_file w) with
      | Ok decrypted =>
          let w := with_keystore w decrypted in
          match instant_add (env_now e) (default 600 timeout_secs) with
          | None => (w, Panicked)
          | Some until => (with_passphrase (with_unlock w (Some until)) (Some passphrase), null)
          end
      | Err m => (w, ErrResponse (-14) (wrap "Error: " m))
      | Panic => (w, Panicked)
      end
  end.

Definition handle_walletlock (e : Env) (w : WalletState) : WalletState * Response :=
  if negb (ws_loaded w) then (w, not_loaded)
  else if negb (ks_encrypted (ws_keystore w)) then
    (w, ErrResponse (-15) (lit "Error: running with an unencrypted wallet, but walletlock was called."))
  else
    let '(file, saved) :=
      match ws_passphrase w with
      | Some passphrase =>
          save_encrypted (env_io e) (env_salt e) (env_nonce e) (ws_file w) (ws_keystore w) passphrase
      | None => (ws_file w, Ok tt)
      end in
    let w := with_file w file in
    match saved with
    | Ok _ => (with_passphrase (with_unlock (with_keystore w empty_encrypted) None) None, null)
    | Err m => (w, ErrResponse (-4) (wrap "Failed to save encrypted wallet: " m))
    | Panic => (w, Panicked)
    end.

Definition handle_walletpassphrasechange (e : Env) (old_passphrase new_passphrase : option string) (w : WalletState)
    : WalletState * Response :=
  if negb (ws_loaded w) then (w, not_loaded)
  else match old_passphrase, new_passphrase with
  | None, _ => (w, ErrResponse (-32602) (lit "Missing old passphrase"))
  | _, None => (w, ErrResponse (-32602) (lit "Missing new passphrase"))
  | Some old_passphrase, Some new_passphrase =>
      match load_encrypted old_passphrase (ws_file w) with
      | Ok decrypted =>
          let '(file, saved) :=
            save_encrypted (env_io e) (env_salt e) (env_nonce e) (ws_file w) decrypted new_passphrase in
          let w := with_file w file in
          match saved with
          | Ok _ => (with_passphrase (with_keystore w decrypted) (Some new_passphrase), null)
          | Err m => (w, ErrResponse (-4) (wrap "Error saving wallet: " m))
          | Panic => (w, Panicked)
          end
      | Err m => (w, ErrResponse (-14) (wrap "Error: " m))
      | Panic => (w, Panicked)
      end
  end.

Definition handle_encryptwallet (e : Env) (passphrase : option string) (w : WalletState) : WalletState * Response :=
  if negb (ws_loaded w) then (w, not_loaded)
  else match passphrase with
  | None => (w, ErrResponse (-32602) (lit "Missing passphrase parameter"))
  | Some passphrase =>
      let ks := ws_keystore w in
      if ks_encrypted ks then
        (w, ErrResponse (-15) (lit "Error: running with an encrypted wallet, but encryptwallet was called."))
      else
        let '(file, saved) := save_encrypted (env_io e) (env_salt e) (env_nonce e) (ws_file w) ks passphrase in
        let w := with_file w file in
        match saved with
        | Ok _ =>
            let w := with_keystore w (mkKeystore (ks_keys ks) (ks_watch_only ks) true) in
            (with_unlock (with_passphrase w (Some passphrase)) None, OkResponse (JStr "wallet encrypted; The keypool has been flushed and a new HD seed was set. You need to make a new backup."))
        | Err m => (w, ErrResponse (-4) (wrap "Error encrypting wallet: " m))
        | Panic => (w, Panicked)
        end
  end.

Definition non_empty (s : option string) : option string :=
  match s with Some s => if bool_decide (s = ""%string) then None else Some s | None => None end.

Definition aliases_are_virtual : string := "Wallet aliases are virtual in single-keystore mode.".

Definition handle_loadwallet (requested : option string) (w : WalletState) : WalletState * Response :=
  let current := ws_name w in
  let name := default current (non_empty requested) in
  let warning := if bool_decide (name = current) then ""%string else aliases_are_virtual in
  (with_name w name true, OkResponse (JObj [("name"%string, JStr name); ("warning"%string, JStr warning)])).

Definition handle_unloadwallet (requested : option string) (w : WalletState) : WalletState * Response :=
  let current := ws_name w in
  let unload := (with_passphrase (with_unlock (with_name w current false) None) None,
                 OkResponse (JObj [("warning"%string, JStr "")])) in
  match non_empty requested with
  | Some name =>
      if negb (bool_decide (name = current))
      then (w, ErrResponse (-18) (Msg "Requested wallet '{}' does not exist" [FS name]))
      else unload
  | None => unload
  end.

Definition handle_createwallet (requested : option string) (w : WalletState) : WalletState * Response :=
  let name := default "bitinfinity"%string requested in
  if bool_decide (name = ""%string) then (w, ErrResponse (-8) (lit "Wallet name must not be empty"))
  else (with_name w name true,
        OkResponse (JObj [("name"%string, JStr name); ("warning"%string, JStr aliases_are_virtual)])).

Definition handle_listwallets (w : WalletState) : WalletState * Response :=
  (w, OkResponse (JArr (if ws_loaded w then [JStr (ws_name w)] else []))).

Definition handle_listlabels (w : WalletState) : WalletState * Response :=
  if negb (ws_loaded w) then (w, not_loaded)
  else (w, OkResponse (JArr (JStr <$> all_addresses (ws_keystore w)))).

(** [std::fs::copy] of the wallet file.  Onto the wallet file itself, which is opened for
    reading and then truncated, it copies nothing and succeeds. *)
Definition handle_backupwallet (dest : option string) (target : CopyTarget) (w : WalletState)
    : WalletState * Response :=
  if negb (ws_loaded w) then (w, not_loaded)
  else if bool_decide (default ""%string dest = ""%string)
  then (w, ErrResponse (-32602) (lit "Required: [destination_path]"))
  else match ws_file w, target with
  | None, _ | _, NoTarget => (w, ErrResponse (-4) (lit "Error: Wallet backup failed: {}"))
  | Some _, OtherFile => (w, null)
  | Some _, WalletItself => (with_file w (Some []), null)
  end.

(** A command with its parameters, and what it does. *)
Inductive Command : Type :=
| GetNewAddress (addr_type : option string)
| GetRawChangeAddress
| DumpPrivKey (addr : option string)
| ImportPrivKey (privkey_input : option string)
| ImportAddress (address : option string)
| ImportPubKey (pubkey_hex : option string)
| WalletPassphrase (passphrase : option string) (timeout_secs : option Z)
| WalletLock
| WalletPassphraseChange (old_passphrase new_passphrase : option string)
| EncryptWallet (passphrase : option string)
| LoadWallet (requested : option string)
| UnloadWallet (requested : option string)
| CreateWallet (requested : option string)
| ListWallets
| ListLabels
| BackupWallet (dest : option string) (target : CopyTarget).

Definition handle (e : Env) (c : Command) (w : WalletState) : WalletState * Response :=
  match c with
  | GetNewAddress addr_type => handle_getnewaddress e addr_type w
  | GetRawChangeAddress => handle_getrawchangeaddress e w
  | DumpPrivKey addr => handle_dumpprivkey e addr w
  | ImportPrivKey input => handle_importprivkey e input w
  | ImportAddress address => handle_importaddress e address w
  | ImportPubKey pubkey_hex => handle_importpubkey e pubkey_hex w
  | WalletPassphrase passphrase timeout_secs => handle_walletpassphrase e passphrase timeout_secs w
  | WalletLock => handle_walletlock e w
  | WalletPassphraseChange old_pp new_pp => handle_walletpassphrasechange e old_pp new_pp w
  | EncryptWallet passphrase => handle_encryptwallet e passphrase w
  | LoadWallet requested => handle_loadwallet requested w
  | UnloadWallet requested => handle_unloadwallet requested w
  | CreateWallet requested => handle_createwallet requested w
  | ListWallets => handle_listwallets w
  | ListLabels => handle_listlabels w
  | BackupWallet dest target => handle_backupwallet dest target w
  end.
End commands.
