(* ===== verification/RpcToy.v ===== *)
(** * A concrete instance of the server's crates

    Simple functions with the shapes the laws ask for, to apply theorems to concrete data:
    [hex] as the crate has it; JSON as the bits of a number or as fields in hex; a ciphertext
    that carries its key. *)

From S2P Require Import Prelude Float64 Crates AccountId Bech32 Addresses Wallet.

Module ToyRpc.

#[export] Instance key_entry_countable : Countable KeyEntry.
Proof.
  refine (inj_countable' (fun e => (private_key_hex e, public_key_compressed_hex e, public_key_uncompressed_hex e))
    (fun '(a, b, c) => mkKeyEntry a b c) _).
  by intros [].
Defined.

#[export] Instance keystore_countable : Countable Keystore.
Proof.
  refine (inj_countable' (fun k => (ks_keys k, ks_watch_only k, ks_encrypted k))
    (fun '(a, b, c) => mkKeystore a b c) _).
  by intros [].
Defined.

(** The bits of a positive as characters. *)
Fixpoint bits (p : positive) : list Z :=
  match p with
  | xH => [49]
  | xO p => 48 :: bits p
  | xI p => 49 :: bits p
  end.
Fixpoint of_bits (l : list Z) : option positive :=
  match l with
  | [] => None
  | [b] => if b =? 49 then Some xH else None
  | b :: l => match of_bits l with Some p => Some (if b =? 48 then xO p else xI p) | None => None end
  end.

Lemma bits_cons p : exists b l, bits p = b :: l.
Proof. destruct p; simpl; eauto. Qed.

Lemma of_bits_bits p : of_bits (bits p) = Some p.
Proof.
  induction p as [p IH|p IH|]; [..|done]; cbn [bits];
    destruct (bits_cons p) as (b & l & Hb); rewrite Hb in *; cbn [of_bits] in *; by rewrite IH.
Qed.

Lemma bits_ascii p : Forall (fun b => b = 48 \/ b = 49) (bits p).
Proof. induction p; cbn [bits]; apply Forall_cons; auto. Qed.

Lemma bits_ok p : bytes_ok (bits p).
Proof. eapply Forall_impl; [apply bits_ascii|]. unfold is_byte. intros ? []; lia. Qed.

Lemma ascii_utf8 l : Forall (fun b => 0 <= b < 128) l -> is_utf8 l = true.
Proof.
  induction 1 as [|b l Hb _ IH]; [done|]. simpl. destruct (Z.ltb_spec b 128); [done|lia].
Qed.

(** A letter, then bits. *)
Definition tagged `{Countable A} (t : Z) (x : A) : string := of_bytes (t :: bits (encode x)).
Definition untagged `{Countable A} (t : Z) (s : string) : option A :=
  match as_bytes s with
  | b :: l => if b =? t then of_bits l ≫= decode else None
  | [] => None
  end.

Lemma tagged_bytes `{Countable A} t (x : A) : 0 <= t < 128 -> as_bytes (tagged t x) = t :: bits (encode x).
Proof.
  intros Ht. apply as_bytes_of_bytes. constructor; [unfold is_byte; lia|apply bits_ok].
Qed.

Lemma untagged_tagged `{Countable A} t (x : A) : 0 <= t < 128 -> untagged t (tagged t x) = Some x.
Proof.
  intros Ht. unfold untagged. rewrite tagged_bytes by done. rewrite Z.eqb_refl, of_bits_bits. simpl.
  apply decode_encode.
Qed.

Lemma untagged_other `{Countable A, Countable B} t u (x : B) :
  0 <= u < 128 -> t <> u -> untagged (A := A) t (tagged u x) = None.
Proof.
  intros Hu Htu. unfold untagged. rewrite tagged_bytes by done. by rewrite (proj2 (Z.eqb_neq u t)).
Qed.

Lemma tagged_str `{Countable A} t (x : A) : 0 <= t < 128 -> is_str (tagged t x) = true.
Proof.
  intros Ht. unfold is_str. rewrite tagged_bytes by done. apply ascii_utf8. constructor; [done|].
  eapply Forall_impl; [apply bits_ascii|]. intros ? []; lia.
Qed.

(** [hex::decode]. *)
Definition nibble (c : Z) : option Z :=
  if (48 <=? c) && (c <=? 57) then Some (c - 48)
  else if (97 <=? c) && (c <=? 102) then Some (c - 87)
  else if (65 <=? c) && (c <=? 70) then Some (c - 55)
  else None.
Fixpoint unhex (l : list Z) : option (list Z) :=
  match l with
  | [] => Some []
  | x :: y :: l =>
      match nibble x, nibble y, unhex l with
      | Some a, Some b, Some r => Some (16 * a + b :: r)
      | _, _, _ => None
      end
  | _ => None
  end.

Lemma nibble_byte x : is_byte x ->
  nibble (hex_digit (x / 16)) = Some (x / 16) /\ nibble (hex_digit (x mod 16)) = Some (x mod 16).
Proof.
  assert (H : forall n, 0 <= n < 16 -> nibble (hex_digit n) = Some n).
  { intros n Hn. assert (Hin : In n (map Z.of_nat (seq 0 16))).
    { rewrite <- (Z2Nat.id n) by lia. apply in_map, in_seq. lia. }
    simpl in Hin. repeat (destruct Hin as [<-|Hin]; [done|]). done. }
  unfold is_byte. intros Hx. split; apply H; [|apply Z.mod_pos_bound; lia].
  split; [apply Z.div_pos; lia|apply Z.div_lt_upper_bound; lia].
Qed.

Lemma hex_digit_is_byte x : is_byte x -> is_byte (hex_digit (x / 16)) /\ is_byte (hex_digit (x mod 16)).
Proof.
  intros Hx. destruct (nibble_byte x Hx) as [H1 H2]. unfold nibble in *. unfold is_byte.
  split; repeat case_match; naive_solver lia.
Qed.

Lemma unhex_hex b : bytes_ok b -> unhex (as_bytes (hex_encode b)) = Some b.
Proof.
  intros Hb. unfold hex_encode. rewrite as_bytes_of_bytes.
  - induction Hb as [|x b Hx _ IH]; [done|]. cbn [flat_map app unhex].
    destruct (nibble_byte x Hx) as [-> ->]. rewrite IH. do 2 f_equal. pose proof (Z.div_mod x 16). lia.
  - induction Hb as [|x b Hx _ IH]; [constructor|]. destruct (hex_digit_is_byte x Hx). cbn [flat_map app].
    by repeat apply Forall_cons_2.
Qed.

(** Fields in hex, each closed by a semicolon. *)
Definition field (s : string) : list Z := as_bytes (hex_encode (as_bytes s)) ++ [59].
Definition wallet_text (w : EncryptedWallet) : string :=
  of_bytes ((if ew_encrypted w then 49 else 48) :: flat_map field
    [ew_salt w; ew_data w; ew_check w; ew_nonce w; ew_scheme w]).

Fixpoint next_field (l acc : list Z) : option (string * list Z) :=
  match l with
  | [] => None
  | c :: l =>
      if c =? 59 then match unhex (rev_append acc []) with Some b => Some (of_bytes b, l) | None => None end
      else next_field l (c :: acc)
  end.
Fixpoint fields (n : nat) (l : list Z) : option (list string) :=
  match n with
  | O => match l with [] => Some [] | _ => None end
  | S n =>
      match next_field l [] with
      | Some (s, l) => match fields n l with Some r => Some (s :: r) | None => None end
      | None => None
      end
  end.
Definition wallet_of_text (s : string) : option EncryptedWallet :=
  match as_bytes s with
  | c :: l =>
      if (c =? 48) || (c =? 49) then
        match fields 5 l with
        | Some [a; b; d; e; f] => Some (mkEncryptedWallet (c =? 49) a b d e f)
        | _ => None
        end
      else None
  | [] => None
  end.

Lemma hex_digits_ascii b : bytes_ok b ->
  as_bytes (hex_encode b) = flat_map (fun x => [hex_digit (x / 16); hex_digit (x mod 16)]) b /\
  Forall (fun c => 0 <= c < 128 /\ c <> 59) (as_bytes (hex_encode b)).
Proof.
  intros Hb. assert (Ha : forall x c, nibble c = Some x -> 0 <= c < 128 /\ c <> 59).
  { intros x c. unfold nibble. repeat case_match; naive_solver lia. }
  assert (Hf : Forall (fun c => 0 <= c < 128 /\ c <> 59)
    (flat_map (fun x => [hex_digit (x / 16); hex_digit (x mod 16)]) b)).
  { induction Hb as [|x b Hx _ IH]; [constructor|]. destruct (nibble_byte x Hx). cbn [flat_map app].
    repeat apply Forall_cons_2; eauto. }
  assert (He : as_bytes (hex_encode b) = flat_map (fun x => [hex_digit (x / 16); hex_digit (x mod 16)]) b).
  { apply as_bytes_of_bytes. eapply Forall_impl; [exact Hf|]. unfold is_byte. intros ? [? _]. lia. }
  by rewrite He.
Qed.

Lemma next_field_app d acc l :
  Forall (fun c => 0 <= c < 128 /\ c <> 59) d ->
  next_field (d ++ 59 :: l) acc =
  match unhex (rev_append (rev_append d acc) []) with Some b => Some (of_bytes b, l) | None => None end.
Proof.
  intros Hd. revert acc. induction Hd as [|c d [_ Hc] _ IH]; intros acc; cbn [app next_field]; [done|].
  rewrite (proj2 (Z.eqb_neq _ _)) by done. by rewrite IH.
Qed.

Lemma next_field_field s l : next_field (field s ++ l) [] = Some (s, l).
Proof.
  unfold field. rewrite <- app_assoc. cbn [app].
  rewrite next_field_app by apply hex_digits_ascii, as_bytes_ok.
  rewrite !rev_append_rev, !app_nil_r, rev_involutive, unhex_hex by apply as_bytes_ok.
  by rewrite of_bytes_as_bytes.
Qed.

Lemma fields_app ss : fields (length ss) (flat_map field ss) = Some ss.
Proof.
  induction ss as [|s ss IH]; [done|]. cbn [length fields flat_map]. by rewrite next_field_field, IH.
Qed.

Lemma wallet_text_ascii w :
  Forall (fun c => 0 <= c < 128) ((if ew_encrypted w then 49 else 48) :: flat_map field
    [ew_salt w; ew_data w; ew_check w; ew_nonce w; ew_scheme w]).
Proof.
  apply Forall_cons. split; [destruct (ew_encrypted w); lia|]. apply Forall_flat_map, Forall_forall. intros s _.
  apply Forall_app. split; [|apply Forall_singleton; lia].
  eapply Forall_impl; [apply hex_digits_ascii, as_bytes_ok|]. by intros ? [? _].
Qed.

Lemma wallet_text_bytes w : as_bytes (wallet_text w) = (if ew_encrypted w then 49 else 48) :: flat_map field
    [ew_salt w; ew_data w; ew_check w; ew_nonce w; ew_scheme w].
Proof.
  apply as_bytes_of_bytes. eapply Forall_impl; [apply wallet_text_ascii|]. unfold is_byte. intros; lia.
Qed.

Lemma wallet_of_text_text w : wallet_of_text (wallet_text w) = Some w.
Proof.
  unfold wallet_of_text. rewrite wallet_text_bytes.
  change 5%nat with (length [ew_salt w; ew_data w; ew_check w; ew_nonce w; ew_scheme w]).
  rewrite fields_app. by destruct w as [[]].
Qed.

Definition valid_secret (b : list Z) : bool := (length b =? 32)%nat && forallb (fun x => (0 <=? x) && (x <? 256)) b.

Definition crates : RpcCrates := {|
  hex_decode := fun s => unhex (as_bytes s);
  secp_valid := valid_secret;
  secp_compressed := fun sk => 2 :: sk;
  secp_uncompressed := fun sk => 4 :: sk ++ sk;
  secp_sign := fun sk m => (0, sk ++ sk);
  aead_encrypt := fun k n p => Some (bits (encode k) ++ [0] ++ p);
  aead_decrypt := fun k n c =>
    let h := bits (encode k) ++ [0] in
    if bool_decide (take (length h) c = h) then Some (drop (length h) c) else None;
  keystore_to_json := tagged 75;
  keystore_to_json_pretty := tagged 75;
  keystore_of_json := untagged 75;
  wallet_to_json_pretty := wallet_text;
  wallet_of_json := wallet_of_text;
  b64_std_encode := of_bytes;
  b64_std_decode := fun s => Some (as_bytes s);
|}.

Lemma header_prefix l m r :
  Forall (fun b => b = 48 \/ b = 49) l -> Forall (fun b => b = 48 \/ b = 49) m ->
  take (length (l ++ [0])) (m ++ 0 :: r) = l ++ [0] -> l = m.
Proof.
  intros Hl. revert m. induction Hl as [|x l Hx _ IH]; intros m Hm H.
  - destruct Hm as [|y m Hy Hm]; [done|]. simpl in H. injection H as H1. lia.
  - destruct Hm as [|y m Hy Hm]; simpl in H; injection H as H1 H2; [lia|]. rewrite H1. f_equal. by apply IH.
Qed.

Lemma header_inj p q r : take (length (bits q ++ [0])) (bits p ++ [0] ++ r) = bits q ++ [0] -> q = p.
Proof.
  intros H. apply header_prefix in H; try apply bits_ascii.
  pose proof (of_bits_bits q) as Hq. rewrite H, of_bits_bits in Hq. by injection Hq.
Qed.

#[export] Instance laws {C : Crates} : RpcLaws C crates.
Proof.
  split; cbn -[encode decode tagged untagged wallet_text wallet_of_text is_str].
  - exact unhex_hex.
  - unfold valid_secret. intros b [Hl Hf]%andb_true_iff. apply Nat.eqb_eq in Hl. split; [done|].
    rewrite forallb_forall in Hf. apply Forall_forall. intros x Hx. apply list_elem_of_In, Hf in Hx.
    unfold is_byte. lia.
  - intros. by eexists.
  - intros k n p c [= <-]. rewrite (app_assoc _ [0] p). rewrite bool_decide_true by (by rewrite take_app_length).
    by rewrite drop_app_length.
  - intros k k' n p p' c [= <-]. case_bool_decide as H; [|done]. intros _.
    apply header_inj in H. by apply (inj encode) in H.
  - intros k n p c Hp [= <-]. apply Forall_app. split; [apply bits_ok|]. apply Forall_cons. split; [|done].
    unfold is_byte. lia.
  - intros. by apply untagged_tagged.
  - intros. by apply untagged_tagged.
  - intros ks. unfold wallet_of_text. by rewrite tagged_bytes.
  - exact wallet_of_text_text.
  - intros. by apply tagged_str.
  - intros. by apply tagged_str.
  - intros w. unfold is_str. rewrite wallet_text_bytes. apply ascii_utf8, wallet_text_ascii.
  - done.
Qed.

(* ------------------------------------------------------------------ *)
(** ** JSON values as numbers *)

#[export] Instance f64_eq_dec : EqDecision f64.
Proof. solve_decision. Defined.

Definition f64_to (x : f64) : option bool + (Z * Z) :=
  match x with Fin m e => inr (m, e) | Inf neg => inl (Some neg) | NaN => inl None end.
Definition f64_of (x : option bool + (Z * Z)) : f64 :=
  match x with inr (m, e) => Fin m e | inl (Some neg) => Inf neg | inl None => NaN end.
#[export] Instance f64_countable : Countable f64.
Proof. refine (inj_countable' f64_to f64_of _). by intros []. Defined.

Definition leaf : Type := unit + bool + Z + f64 + string.
Fixpoint json_tree (j : Json) : gen_tree leaf :=
  match j with
  | JNull => GenLeaf (inl (inl (inl (inl tt))))
  | JBool b => GenLeaf (inl (inl (inl (inr b))))
  | JNum n => GenLeaf (inl (inl (inr n)))
  | JFloat x => GenLeaf (inl (inr x))
  | JStr s => GenLeaf (inr s)
  | JArr l => GenNode 0 (map json_tree l)
  | JObj l => GenNode 1 (map (fun p => match p with (k, v) => GenNode 2 [GenLeaf (inr k); json_tree v] end) l)
  end.
Fixpoint tree_json (t : gen_tree leaf) : Json :=
  match t with
  | GenLeaf (inl (inl (inl (inl _)))) => JNull
  | GenLeaf (inl (inl (inl (inr b)))) => JBool b
  | GenLeaf (inl (inl (inr n))) => JNum n
  | GenLeaf (inl (inr x)) => JFloat x
  | GenLeaf (inr s) => JStr s
  | GenNode 0 l => JArr (map tree_json l)
  | GenNode _ l =>
      JObj (map (fun t => match t with GenNode _ [GenLeaf (inr k); v] => (k, tree_json v) | _ => (""%string, JNull) end) l)
  end.

Fixpoint tree_json_tree (j : Json) : tree_json (json_tree j) = j.
Proof.
  destruct j as [| | | | |l|l]; try reflexivity; cbn [json_tree tree_json]; f_equal; rewrite map_map.
  - induction l as [|x l IH]; cbn [map]; [done|]. by rewrite tree_json_tree, IH.
  - induction l as [|[k v] l IH]; cbn [map]; [done|]. cbn [tree_json]. by rewrite tree_json_tree, IH.
Qed.

Definition json_to_string (j : Json) : string := tagged 74 (json_tree j).
Definition json_from_str (s : string) : option Json := option_map tree_json (untagged 74 s).

Lemma json_round j : json_from_str (json_to_string j) = Some j.
Proof. unfold json_from_str, json_to_string. rewrite untagged_tagged by done. simpl. by rewrite tree_json_tree. Qed.
Lemma json_str j : is_str (json_to_string j) = true.
Proof. by apply tagged_str. Qed.

End ToyRpc.
