(* ===== verification/WalletProofs.v ===== *)
(** * No key is lost (bitinfinity-btcrpc/src/keystore.rs, main.rs)

    What the wallet promises: an address it has handed out can be recovered from the file,
    with the last passphrase it accepted, after any further commands and restarts.  The
    writes of the file succeed here, and no backup is made onto the wallet file;
    [torn_write] and [backup_onto_itself] show what a failing write and such a backup do. *)

From S2P Require Import Prelude Crates AccountId Bech32 Addresses Wallet RpcToy.

(* ------------------------------------------------------------------ *)
(** ** The contract *)

(** A call of a command, or the server starting again over the same file. *)
Inductive Event : Type :=
| Call (e : Env) (c : Command)
| Restart (now : Z).

(** What the user knows: the last passphrase accepted and the addresses handed out. *)
Record Vault : Type := mkVault {
  v_pass : option string;
  v_addrs : list string;
}.

Definition acknowledge (c : Command) (r : Response) (v : Vault) : Vault :=
  match r with
  | OkResponse j =>
      match c, j with
      | (GetNewAddress _ | GetRawChangeAddress | ImportPrivKey _), JStr a => mkVault (v_pass v) (a :: v_addrs v)
      | (WalletPassphrase (Some p) _ | WalletPassphraseChange _ (Some p) | EncryptWallet (Some p)), _ =>
          mkVault (Some p) (v_addrs v)
      | _, _ => v
      end
  | _ => v
  end.

Section contract.
Context {C : Crates} {R : RpcCrates}.

Definition exec (s : WalletState * Vault) (ev : Event) : WalletState * Vault :=
  let '(w, v) := s in
  match ev with
  | Call e c => let '(w', r) := handle e c w in (w', acknowledge c r v)
  | Restart now => (rpc_state_new (ws_chain_id w) now (ws_file w), v)
  end.

Definition run (s : WalletState * Vault) (evs : list Event) : WalletState * Vault := fold_left exec evs s.

Definition fresh (chain_id : string) (now : Z) : WalletState * Vault :=
  (rpc_state_new chain_id now None, mkVault None []).

(** What the file gives, with a passphrase if there is one. *)
Definition recover (p : option string) (file : option (list Z)) : gmap string KeyEntry :=
  match p with
  | None => ks_keys (load file)
  | Some p => match load_encrypted p file with Ok ks => ks_keys ks | _ => ∅ end
  end.

(** The addresses under which the commands store a secret key. *)
Definition own_addresses (chain_id : string) (sk : list Z) : list string :=
  let h := hash160 (secp_compressed sk) in
  let v := if bool_decide (bech32_hrp chain_id = "bc"%string) then 0x00 else 0x6F in
  [rpc_bech32_encode (bech32_hrp chain_id) 0 h;
   base58check (0x00 :: h); to_lowercase (base58check (0x00 :: h));
   base58check (v :: h); to_lowercase (base58check (v :: h))].

(** An entry holds a secret key, its public keys, and belongs to the address. *)
Definition entry_ok (chain_id a : string) (en : KeyEntry) : Prop :=
  exists sk, hex_decode (private_key_hex en) = Some sk /\ secp_valid sk = true /\
    en = entry_of (private_key_hex en) sk /\ a ∈ own_addresses chain_id sk.
Definition keys_ok (chain_id : string) (m : gmap string KeyEntry) : Prop := map_Forall (entry_ok chain_id) m.

(** The generators give what they promise. *)
Definition env_ok (e : Env) : Prop :=
  bytes_ok (env_salt e) /\ bytes_ok (env_nonce e) /\ length (env_nonce e) = 12%nat /\
  secp_valid (env_secret_key e) = true.
(** A backup onto the wallet file. *)
Definition onto_itself (c : Command) : bool :=
  match c with BackupWallet _ WalletItself => true | _ => false end.
Definition event_ok (ev : Event) : Prop :=
  match ev with
  | Call e c => env_ok e /\ env_io e = Written /\ onto_itself c = false
  | Restart _ => True
  end.

(* ------------------------------------------------------------------ *)
(** ** The invariant *)

Definition sealed_as (ks : Keystore) : Keystore := mkKeystore (ks_keys ks) (ks_watch_only ks) true.

(** The file opens, and under any passphrase that opens it gives [ks]. *)
Definition seals (file : option (list Z)) (p : string) (ks : Keystore) : Prop :=
  load_encrypted p file = Ok ks /\ (forall q ks', load_encrypted q file = Ok ks' -> ks' = ks) /\
  load file = empty_encrypted.
Definition plain (file : option (list Z)) (ks : Keystore) : Prop :=
  load file = ks /\ forall q ks', load_encrypted q file <> Ok ks'.

(** Memory [mem] against the file. *)
Definition disk_ok (w : WalletState) (p : option string) (ks : Keystore) : Prop :=
  match p with
  | None => ks_encrypted (ws_keystore w) = false /\ ws_passphrase w = None /\
            plain (ws_file w) ks /\ ws_keystore w = ks
  | Some p =>
      ks_encrypted (ws_keystore w) = true /\ seals (ws_file w) p ks /\ ks_encrypted ks = true /\
      (forall q, ws_passphrase w = Some q -> q = p /\ ws_keystore w = ks) /\
      (is_Some (ws_unlock_until w) -> is_Some (ws_passphrase w))
  end.

Definition wallet_inv (s : WalletState * Vault) : Prop :=
  let '(w, v) := s in
  exists ks, disk_ok w (v_pass v) ks /\ keys_ok (ws_chain_id w) (ks_keys ks) /\
    keys_ok (ws_chain_id w) (ks_keys (ws_keystore w)) /\
    Forall (fun a => is_Some (ks_keys ks !! a)) (v_addrs v).
End contract.

#[local] Opaque derive_key.

Section durable.
Context {C : Crates} {R : RpcCrates} {L : RpcLaws C R}.
#[local] Set Default Proof Using "All".

(** Strings written and read back. *)
Lemma read_written s : is_str s = true -> read_to_string (Some (as_bytes s)) = Some s.
Proof. intros H. unfold read_to_string. unfold is_str in H. rewrite H. by rewrite of_bytes_as_bytes. Qed.

Lemma save_written ks file :
  exists file', save Written file ks = (file', Ok tt) /\ (ks_encrypted ks = false -> plain file' ks).
Proof.
  exists (Some (as_bytes (keystore_to_json_pretty ks))). split; [done|]. intros He.
  split.
  - unfold load. rewrite read_written by apply keystore_json_pretty_str.
    by rewrite keystore_not_wallet, keystore_json_pretty.
  - intros q ks'. unfold load_encrypted. rewrite read_written by apply keystore_json_pretty_str.
    cbn [ok_or rbind]. by rewrite keystore_not_wallet.
Qed.

Lemma save_encrypted_written salt nonce file ks p :
  bytes_ok salt -> bytes_ok nonce -> length nonce = 12%nat ->
  exists file', save_encrypted Written salt nonce file ks p = (file', Ok tt) /\ seals file' p (sealed_as ks).
Proof.
  intros Hs Hn Hl. unfold save_encrypted. cbn [create_dir_all].
  set (inner := mkKeystore (ks_keys ks) (ks_watch_only ks) false).
  destruct (aead_total (derive_key p salt) nonce (as_bytes (keystore_to_json inner))) as [c Hc].
  rewrite Hc. eexists. split; [reflexivity|].
  assert (Hload : forall q ks', load_encrypted q (Some (as_bytes (wallet_to_json_pretty
      (mkEncryptedWallet true (hex_encode salt) (hex_encode c) "" (hex_encode nonce) "aead")))) = Ok ks' <->
      derive_key q salt = derive_key p salt /\ ks' = sealed_as ks).
  { intros q ks'. unfold load_encrypted. rewrite read_written by apply wallet_json_str. cbn [ok_or rbind].
    rewrite wallet_json. cbn [ok_or rbind ew_encrypted ew_salt ew_data ew_nonce ew_scheme negb].
    rewrite !hex_round by eauto using aead_bytes, as_bytes_ok. cbn [ok_or rbind]. rewrite bool_decide_true by done.
    unfold decrypt_aead. rewrite hex_round, Hl by done. cbn [Nat.eqb negb].
    destruct (aead_decrypt (derive_key q salt) nonce c) as [pt|] eqn:Hd; cbn [ok_or rbind].
    - pose proof (aead_auth _ _ _ _ _ _ Hc Hd) as Hk. rewrite Hk in Hd.
      rewrite (aead_open _ _ _ _ Hc) in Hd. injection Hd as <-.
      pose proof (keystore_json_str inner) as Hstr. unfold is_str in Hstr. rewrite Hstr. cbn [negb].
      rewrite of_bytes_as_bytes, keystore_json. cbn [ok_or rbind].
      split; [intros [= <-]; exact (conj Hk eq_refl) | intros [_ ->]; reflexivity].
    - split; [discriminate|]. intros [Hk _]. rewrite Hk, (aead_open _ _ _ _ Hc) in Hd. discriminate Hd. }
  split; [apply Hload; exact (conj eq_refl eq_refl)|]. split.
  - intros q ks' Hq. by apply Hload in Hq as [_ ?].
  - unfold load. rewrite read_written by apply wallet_json_str. by rewrite wallet_json.
Qed.

(* ------------------------------------------------------------------ *)
(** ** The commands keep the invariant *)

(** A change of the keystore that is saved: in the clear, or under the cached passphrase. *)
Lemma saved_change e w p ks ks' :
  env_ok e -> env_io e = Written -> disk_ok w p ks -> is_Some (ws_passphrase w) \/ p = None ->
  ks_encrypted ks' = ks_encrypted (ws_keystore w) ->
  disk_ok (save_keystore e (with_keystore w ks') ks') p ks'.
Proof.
  intros (Hs & Hn & Hl & _) Hio Hd Hp Hk. unfold save_keystore. destruct p as [p|]; simpl in *.
  - destruct Hd as (He & Hf & _ & Hpass & Hu). rewrite He in Hk. rewrite Hk.
    destruct Hp as [[q Hq]|]; [|done]. rewrite Hq. destruct (Hpass _ Hq) as [-> _].
    destruct (save_encrypted_written (env_salt e) (env_nonce e) (ws_file w) ks' p) as (f & Hf' & Hseal); [done..|].
    rewrite Hio, Hf'. simpl. split_and!; try done.
    + by destruct ks'; simpl in *; subst.
    + intros q' Hq'. rewrite Hq in Hq'. by injection Hq' as ->.
  - destruct Hd as (He & Hpass & _ & _). rewrite He in Hk. rewrite Hk.
    destruct (save_written ks' (ws_file w)) as (f & Hf & Hpl). rewrite Hio, Hf. simpl. auto.
Qed.

Lemma save_keystore_frame e w ks :
  ws_keystore (save_keystore e w ks) = ws_keystore w /\ ws_chain_id (save_keystore e w ks) = ws_chain_id w.
Proof. unfold save_keystore. destruct (ks_encrypted ks); [destruct (ws_passphrase w)|]; done. Qed.

(** Unlocked, a cached passphrase or no encryption. *)
Lemma unlocked_saves w now p ks :
  disk_ok w p ks -> is_wallet_unlocked w now = true -> is_Some (ws_passphrase w) \/ p = None.
Proof.
  unfold is_wallet_unlocked. intros Hd Hu. destruct p as [p|]; [left|by right].
  apply Hd. destruct (ws_unlock_until w); done.
Qed.

(** What memory holds when a change is saved. *)
Lemma memory_is_disk w p ks :
  disk_ok w p ks -> is_Some (ws_passphrase w) \/ p = None -> ws_keystore w = ks.
Proof.
  destruct p as [p|]; simpl; [|tauto]. intros (_ & _ & _ & H & _) [[q Hq]|]; [|done]. by apply (H q).
Qed.

Lemma stored_keys e w a b en :
  ks_keys (ws_keystore (add_key e w a b en)) =
  <[b := en]> (<[to_lowercase a := en]> (<[a := en]> (ks_keys (ws_keystore w)))) /\
  ks_encrypted (ws_keystore (add_key e w a b en)) = ks_encrypted (ws_keystore w).
Proof.
  unfold add_key. rewrite (proj1 (save_keystore_frame _ _ _)). simpl.
  case_bool_decide as H; simpl; [|done]. rewrite H. by rewrite insert_insert_eq.
Qed.

(** Storing a key under its addresses, and handing one of them out. *)
Lemma add_key_inv e w v a b en x :
  env_ok e -> env_io e = Written -> is_wallet_unlocked w (env_now e) = true ->
  Forall (fun y => entry_ok (ws_chain_id w) y en) [a; to_lowercase a; b] -> x ∈ [a; b] ->
  wallet_inv (w, v) -> wallet_inv (add_key e w a b en, mkVault (v_pass v) (x :: v_addrs v)).
Proof.
  intros Henv Hio Hun Hen Hx (ks & Hd & Hk & Hm & Ha).
  pose proof (unlocked_saves _ _ _ _ Hd Hun) as Hp. pose proof (memory_is_disk _ _ _ Hd Hp) as <-.
  destruct (stored_keys e w a b en) as [Hkeys Henc].
  rewrite !Forall_cons in Hen. destruct Hen as (H1 & H2 & H3 & _).
  exists (ws_keystore (add_key e w a b en)).
  assert (Hc : ws_chain_id (add_key e w a b en) = ws_chain_id w) by (unfold add_key; by rewrite (proj2 (save_keystore_frame _ _ _))).
  assert (Hok : keys_ok (ws_chain_id w) (ks_keys (ws_keystore (add_key e w a b en)))).
  { rewrite Hkeys. by repeat apply map_Forall_insert_2. }
  split_and!.
  - unfold add_key. rewrite (proj1 (save_keystore_frame _ _ _)). simpl v_pass. cbn [ws_keystore with_keystore].
    by eapply saved_change; eauto; case_bool_decide.
  - by rewrite Hc.
  - by rewrite Hc.
  - rewrite Hkeys. simpl. apply Forall_cons. split.
    + rewrite !lookup_insert_is_Some'. rewrite !elem_of_cons, elem_of_nil in Hx. naive_solver.
    + eapply Forall_impl; [exact Ha|]. intros y Hy. rewrite !lookup_insert_is_Some'. tauto.
Qed.

Lemma generated_entry chain_id sk :
  secp_valid sk = true ->
  Forall (fun y => entry_ok chain_id y (entry_of (hex_encode sk) sk))
    [base58check (0x00 :: hash160 (secp_compressed sk)); to_lowercase (base58check (0x00 :: hash160 (secp_compressed sk)));
     rpc_bech32_encode (bech32_hrp chain_id) 0 (hash160 (secp_compressed sk))].
Proof.
  intros Hv. destruct (secp_valid_len _ Hv) as [_ Hb].
  rewrite !Forall_cons. unfold entry_ok, own_addresses. cbn [private_key_hex entry_of].
  split_and!; [..|apply Forall_nil; exact I].
  all: exists sk; split_and!; [by apply hex_round|done|done|set_solver].
Qed.

Lemma imported_entry chain_id h sk v :
  hex_decode h = Some sk -> secp_valid sk = true ->
  v = (if bool_decide (bech32_hrp chain_id = "bc"%string) then 0x00 else 0x6F) ->
  Forall (fun y => entry_ok chain_id y (entry_of h sk))
    [base58check (v :: hash160 (secp_compressed sk)); to_lowercase (base58check (v :: hash160 (secp_compressed sk)));
     rpc_bech32_encode (bech32_hrp chain_id) 0 (hash160 (secp_compressed sk))].
Proof.
  intros Hh Hv ->. rewrite !Forall_cons. unfold entry_ok, own_addresses. cbn [private_key_hex entry_of].
  split_and!; [..|apply Forall_nil; exact I].
  all: exists sk; split_and!; [done|done|done|set_solver].
Qed.

(** The fields of the invariant that a command may leave. *)
Lemma inv_same w w' v :
  ws_chain_id w' = ws_chain_id w -> ws_keystore w' = ws_keystore w -> ws_passphrase w' = ws_passphrase w ->
  ws_unlock_until w' = ws_unlock_until w -> ws_file w' = ws_file w ->
  wallet_inv (w, v) -> wallet_inv (w', v).
Proof.
  intros H1 H2 H3 H4 H5. unfold wallet_inv, disk_ok. by rewrite H1, H2, H3, H4, H5.
Qed.

Lemma import_watch_only_inv e a w v :
  env_ok e -> env_io e = Written -> wallet_inv (w, v) -> wallet_inv ((import_watch_only e a w).1, v).
Proof.
  intros Henv Hio (ks & Hd & Hk & Hm & Ha). unfold import_watch_only. simpl fst.
  set (ks' := add_watch_only (ws_keystore w) a).
  assert (Hkeys : ks_keys ks' = ks_keys (ws_keystore w) /\ ks_encrypted ks' = ks_encrypted (ws_keystore w)).
  { unfold ks', add_watch_only. by case_bool_decide. }
  destruct Hkeys as [Hkeys Henc].
  destruct (save_keystore_frame e (with_keystore w ks') ks') as [F1 F2].
  destruct (decide (is_Some (ws_passphrase w) \/ v_pass v = None)) as [Hp|Hp].
  - pose proof (memory_is_disk _ _ _ Hd Hp) as <-. exists ks'.
    rewrite F1, F2. cbn [ws_keystore with_keystore ws_chain_id]. rewrite Hkeys.
    split_and!; try done. by eapply saved_change.
  - destruct (v_pass v) as [p|] eqn:Hv; [|by destruct Hp; right].
    assert (Hn : ws_passphrase w = None) by (destruct (ws_passphrase w); [exfalso; apply Hp; left; by eexists|done]).
    exists ks. rewrite F1, F2. rewrite Hv. destruct Hd as (D1 & D2 & D3 & D4 & D5). cbn [ws_keystore with_keystore ws_chain_id].
    unfold save_keystore. cbn [ws_passphrase with_keystore]. rewrite Henc, D1, Hn. rewrite Hkeys.
    cbn -[seals]. rewrite Henc, Hn. split_and!; try done.
    by rewrite Hn in D5.
Qed.

Lemma walletpassphrase_inv e q t w v :
  wallet_inv (w, v) ->
  let '(w', r) := handle_walletpassphrase e q t w in
  wallet_inv (w', acknowledge (WalletPassphrase q t) r v).
Proof.
  intros Hinv. unfold handle_walletpassphrase.
  destruct (ws_loaded w); [|exact Hinv]. destruct q as [q|]; [|exact Hinv]. cbn [negb].
  destruct (ks_encrypted (ws_keystore w)) eqn:He; [|exact Hinv]. cbn [negb].
  destruct (load_encrypted q (ws_file w)) as [d|m|] eqn:Hl; [|exact Hinv|exact Hinv].
  destruct Hinv as (ks & Hd & Hk & Hm & Ha).
  destruct (v_pass v) as [p|] eqn:Hv; [|destruct Hd as [Hd _]; congruence].
  destruct Hd as (D1 & D2 & D3 & D4 & D5). pose proof (proj1 (proj2 D2) _ _ Hl) as ->.
  destruct (instant_add _ _) as [until|]; cbn [acknowledge null].
  - exists ks. cbn -[seals]. split; [|split_and!; assumption].
    split; [exact D3|]. split; [exact (conj Hl (proj2 D2))|]. split; [exact D3|].
    split; [intros ? [= <-]; exact (conj eq_refl eq_refl)|intros _; by eexists].
  - exists ks. rewrite Hv. cbn -[seals]. split_and!; try done. intros q' Hq'. by destruct (D4 _ Hq').
Qed.

Lemma walletlock_inv e w v :
  env_ok e -> env_io e = Written -> wallet_inv (w, v) -> wallet_inv ((handle_walletlock e w).1, v).
Proof.
  intros (Hs & Hn & Hl & _) Hio Hinv. unfold handle_walletlock.
  destruct (ws_loaded w); [|exact Hinv]. cbn [negb].
  destruct (ks_encrypted (ws_keystore w)) eqn:He; [|exact Hinv]. cbn [negb].
  destruct Hinv as (ks & Hd & Hk & Hm & Ha).
  destruct (v_pass v) as [p|] eqn:Hv; [|destruct Hd as [Hd _]; congruence].
  destruct Hd as (D1 & D2 & D3 & D4 & D5).
  destruct (ws_passphrase w) as [q|] eqn:Hq.
  - destruct (D4 _ eq_refl) as [-> Hmem].
    destruct (save_encrypted_written (env_salt e) (env_nonce e) (ws_file w) (ws_keystore w) p) as (f & Hf & Hseal); [done..|].
    rewrite Hio, Hf. exists (sealed_as (ws_keystore w)). rewrite Hv. cbn -[seals]. rewrite Hmem in *.
    split_and!; try done; try (by intros [? ?]); apply map_Forall_empty.
  - exists ks. rewrite Hv. cbn -[seals]. split_and!; try done; try (by intros [? ?]); apply map_Forall_empty.
Qed.

Lemma passphrasechange_inv e old new w v :
  env_ok e -> env_io e = Written -> wallet_inv (w, v) ->
  let '(w', r) := handle_walletpassphrasechange e old new w in
  wallet_inv (w', acknowledge (WalletPassphraseChange old new) r v).
Proof.
  intros (Hs & Hn & Hl & _) Hio Hinv. unfold handle_walletpassphrasechange.
  destruct (ws_loaded w); [|exact Hinv]. destruct old as [old|]; [|exact Hinv]. destruct new as [new|]; [|exact Hinv].
  cbn [negb]. destruct (load_encrypted old (ws_file w)) as [d|m|] eqn:Hld; [|exact Hinv|exact Hinv].
  destruct Hinv as (ks & Hd & Hk & Hm & Ha).
  destruct (v_pass v) as [p|] eqn:Hv; [|destruct Hd as (_ & _ & [_ Hd] & _); by destruct (Hd _ _ Hld)].
  destruct Hd as (D1 & D2 & D3 & D4 & D5). pose proof (proj1 (proj2 D2) _ _ Hld) as ->.
  destruct (save_encrypted_written (env_salt e) (env_nonce e) (ws_file w) ks new) as (f & Hf & Hseal); [done..|].
  rewrite Hio, Hf. assert (Hks : sealed_as ks = ks) by (by destruct ks; simpl in *; subst).
  rewrite Hks in Hseal. exists ks. cbn -[seals]. split_and!; try done. by intros ? [= <-].
Qed.

Lemma encryptwallet_inv e q w v :
  env_ok e -> env_io e = Written -> wallet_inv (w, v) ->
  let '(w', r) := handle_encryptwallet e q w in wallet_inv (w', acknowledge (EncryptWallet q) r v).
Proof.
  intros (Hs & Hn & Hl & _) Hio Hinv. unfold handle_encryptwallet.
  destruct (ws_loaded w); [|exact Hinv]. destruct q as [q|]; [|exact Hinv]. cbn [negb].
  destruct (ks_encrypted (ws_keystore w)) eqn:He; [exact Hinv|].
  destruct Hinv as (ks & Hd & Hk & Hm & Ha).
  destruct (v_pass v) as [p|] eqn:Hv; [destruct Hd as [Hd _]; congruence|].
  destruct Hd as (D1 & D2 & D3 & <-).
  destruct (save_encrypted_written (env_salt e) (env_nonce e) (ws_file w) (ws_keystore w) q) as (f & Hf & Hseal); [done..|].
  rewrite Hio, Hf. exists (sealed_as (ws_keystore w)). cbn -[seals].
  split_and!; try done; try (by intros [? ?]); by intros ? [= <-].
Qed.

Lemma unload_inv w v n :
  wallet_inv (w, v) -> wallet_inv (with_passphrase (with_unlock (with_name w n false) None) None, v).
Proof.
  intros (ks & Hd & Hrest). exists ks. split; [|exact Hrest].
  destruct (v_pass v); cbn -[seals plain] in *; [|naive_solver].
  destruct Hd as (D1 & D2 & D3 & D4 & D5). split_and!; try done; by intros [? ?].
Qed.

Lemma restart_inv chain now w v :
  chain = ws_chain_id w -> wallet_inv (w, v) -> wallet_inv (rpc_state_new chain now (ws_file w), v).
Proof.
  intros -> (ks & Hd & Hk & Hm & Ha). exists ks. unfold rpc_state_new. destruct (v_pass v) as [p|].
  - destruct Hd as (D1 & D2 & D3 & D4 & D5). pose proof (proj2 (proj2 D2)) as Hload.
    rewrite Hload. cbn -[seals]. split_and!; try done; try (by intros [? ?]); apply map_Forall_empty.
  - destruct Hd as (D1 & D2 & [D3 D3'] & D4). rewrite D3. cbn -[load load_encrypted].
    rewrite D4 in *. split_and!; done.
Qed.

Lemma getnewaddress_inv e t w v :
  env_ok e -> env_io e = Written -> wallet_inv (w, v) ->
  let '(w', r) := handle_getnewaddress e t w in wallet_inv (w', acknowledge (GetNewAddress t) r v).
Proof.
  intros Henv Hio Hinv. unfold handle_getnewaddress. destruct (ws_loaded w); [|exact Hinv].
  destruct (is_wallet_unlocked w (env_now e)) eqn:Hu; [|exact Hinv]. cbn [negb acknowledge].
  apply add_key_inv; try done; [by apply generated_entry, Henv|]. case_bool_decide; set_solver.
Qed.

Lemma getrawchangeaddress_inv e w v :
  env_ok e -> env_io e = Written -> wallet_inv (w, v) ->
  let '(w', r) := handle_getrawchangeaddress e w in wallet_inv (w', acknowledge GetRawChangeAddress r v).
Proof.
  intros Henv Hio Hinv. unfold handle_getrawchangeaddress. destruct (ws_loaded w); [|exact Hinv].
  destruct (is_wallet_unlocked w (env_now e)) eqn:Hu; [|exact Hinv]. cbn [negb acknowledge].
  apply add_key_inv; try done; [by apply generated_entry, Henv|]. set_solver.
Qed.

Lemma importprivkey_inv e i w v :
  env_ok e -> env_io e = Written -> wallet_inv (w, v) ->
  let '(w', r) := handle_importprivkey e i w in wallet_inv (w', acknowledge (ImportPrivKey i) r v).
Proof.
  intros Henv Hio Hinv. unfold handle_importprivkey. destruct (ws_loaded w); [|exact Hinv].
  destruct (is_wallet_unlocked w (env_now e)) eqn:Hu; [|exact Hinv]. cbn [negb].
  destruct i as [i|]; [|exact Hinv]. cbv zeta.
  destruct (if _ && _ then Ok i else _) as [h|m|]; [|exact Hinv..].
  destruct (hex_decode h) as [sk|] eqn:Hh; [|exact Hinv].
  destruct (secp_valid sk) eqn:Hv; [|exact Hinv]. cbn [negb acknowledge].
  apply add_key_inv; try done; [by apply imported_entry|]. set_solver.
Qed.

Lemma handle_inv e c w v :
  env_ok e -> env_io e = Written -> onto_itself c = false -> wallet_inv (w, v) ->
  let '(w', r) := handle e c w in wallet_inv (w', acknowledge c r v).
Proof.
  intros Henv Hio Hself Hinv. destruct c as [t| |a|i|a|k|q t| |o n|q|n|n|n| | |d g]; cbn [handle].
  - by apply getnewaddress_inv.
  - by apply getrawchangeaddress_inv.
  - unfold handle_dumpprivkey. repeat case_match; simplify_eq; exact Hinv.
  - by apply importprivkey_inv.
  - unfold handle_importaddress. destruct (ws_loaded w); [|exact Hinv]. destruct a as [a|]; [|exact Hinv].
    exact (import_watch_only_inv e a w v Henv Hio Hinv).
  - unfold handle_importpubkey. destruct (ws_loaded w); [|exact Hinv]. destruct k as [k|]; [|exact Hinv].
    cbn [negb]. destruct (hex_decode k) as [b|]; [|exact Hinv].
    destruct ((length b =? 33)%nat || (length b =? 65)%nat); [|exact Hinv].
    exact (import_watch_only_inv e _ w v Henv Hio Hinv).
  - by apply walletpassphrase_inv.
  - pose proof (walletlock_inv e w v Henv Hio Hinv) as H. destruct (handle_walletlock e w) as [w' r].
    by destruct r.
  - by apply passphrasechange_inv.
  - by apply encryptwallet_inv.
  - exact (inv_same w _ v eq_refl eq_refl eq_refl eq_refl eq_refl Hinv).
  - unfold handle_unloadwallet. destruct (non_empty n) as [m|]; [case_bool_decide|]; try exact Hinv.
    all: exact (unload_inv w v (ws_name w) Hinv).
  - unfold handle_createwallet. case_bool_decide; [exact Hinv|].
    exact (inv_same w _ v eq_refl eq_refl eq_refl eq_refl eq_refl Hinv).
  - exact Hinv.
  - unfold handle_listlabels. destruct (ws_loaded w); exact Hinv.
  - unfold handle_backupwallet. destruct (ws_loaded w); [|exact Hinv]. case_bool_decide; [exact Hinv|].
    destruct (ws_file w), g; done.
Qed.

Lemma exec_inv s ev : event_ok ev -> wallet_inv s -> wallet_inv (exec s ev).
Proof.
  destruct s as [w v], ev as [e c|now]; simpl exec; intros Hev Hinv.
  - destruct Hev as (H1 & H2 & H3). pose proof (handle_inv e c w v H1 H2 H3 Hinv) as H.
    by destruct (handle e c w) as [w' r].
  - by apply restart_inv.
Qed.

Lemma fresh_inv chain_id now : wallet_inv (fresh chain_id now).
Proof.
  exists keystore_default. cbn -[load_encrypted]. split_and!; try done; try apply map_Forall_empty; by apply Forall_nil.
Qed.

Lemma run_inv s evs : Forall event_ok evs -> wallet_inv s -> wallet_inv (run s evs).
Proof.
  intros Hev. revert s. induction Hev as [|ev evs H _ IH]; intros s Hs; [exact Hs|].
  apply (IH (exec s ev)), exec_inv; done.
Qed.

Lemma recover_disk w p ks : disk_ok w p ks -> recover p (ws_file w) = ks_keys ks.
Proof.
  destruct p as [p|]; simpl.
  - intros (_ & (Hl & _) & _). by rewrite Hl.
  - intros (_ & _ & [Hl _] & _). by rewrite Hl.
Qed.

(** C7. The wallet keeps its keys: after any sequence of commands and restarts from a fresh
    installation in which the writes of the file succeed and no backupwallet names the wallet
    file itself as destination (which would empty it), every address that getnewaddress,
    getrawchangeaddress or importprivkey ever returned is found in the wallet file, opened
    with the last passphrase that encryptwallet, walletpassphrase or walletpassphrasechange
    accepted (or none), with a valid secret key from which the address is derived. *)
Theorem keys_durable chain_id now evs :
  Forall event_ok evs ->
  let '(w, v) := run (fresh chain_id now) evs in
  forall a, a ∈ v_addrs v ->
  exists en, recover (v_pass v) (ws_file w) !! a = Some en /\ entry_ok (ws_chain_id w) a en.
Proof.
  intros Hev. pose proof (run_inv _ _ Hev (fresh_inv chain_id now)) as Hinv.
  destruct (run _ _) as [w v]. destruct Hinv as (ks & Hd & Hk & _ & Ha).
  intros a Hin. rewrite (recover_disk _ _ _ Hd). rewrite Forall_forall in Ha.
  destruct (Ha a Hin) as [en Hen]. exists en. split; [done|]. by apply Hk.
Qed.

(** C22. The keystore is well typed: after any such sequence, every entry of the keystore in
    memory and of the wallet file holds a valid 32-byte secret key, the two encodings of
    its public key, and stands under an address derived from that key. *)
Theorem keystore_well_typed chain_id now evs :
  Forall event_ok evs ->
  let '(w, v) := run (fresh chain_id now) evs in
  keys_ok (ws_chain_id w) (ks_keys (ws_keystore w)) /\
  keys_ok (ws_chain_id w) (recover (v_pass v) (ws_file w)).
Proof.
  intros Hev. pose proof (run_inv _ _ Hev (fresh_inv chain_id now)) as Hinv.
  destruct (run _ _) as [w v]. destruct Hinv as (ks & Hd & Hk & Hm & _).
  by rewrite (recover_disk _ _ _ Hd).
Qed.

(* ------------------------------------------------------------------ *)
(** ** Unloading a wallet that is not encrypted *)

(** The commands that need an unlocked wallet. *)
Definition needs_unlock (c : Command) : bool :=
  match c with
  | GetNewAddress _ | GetRawChangeAddress | DumpPrivKey _ | ImportPrivKey _ => true
  | _ => false
  end.
Definition no_encryption (ev : Event) : bool :=
  match ev with Call _ (EncryptWallet _) | Restart _ => false | _ => true end.

Definition stuck (s : WalletState * Vault) : Prop :=
  wallet_inv s /\ v_pass s.2 = None /\ ws_unlock_until s.1 = None.

Lemma plain_memory w v : wallet_inv (w, v) -> v_pass v = None ->
  ks_encrypted (ws_keystore w) = false /\ forall q ks, load_encrypted q (ws_file w) <> Ok ks.
Proof. intros (ks & Hd & _) Hp. rewrite Hp in Hd. destruct Hd as (H1 & _ & [_ H2] & _). done. Qed.

Lemma import_watch_only_unlock e a w : ws_unlock_until (import_watch_only e a w).1 = ws_unlock_until w.
Proof.
  unfold import_watch_only, save_keystore. simpl fst.
  destruct (ks_encrypted _); [destruct (ws_passphrase _)|]; done.
Qed.

Lemma stuck_exec s ev : event_ok ev -> no_encryption ev = true -> stuck s -> stuck (exec s ev).
Proof.
  destruct s as [w v]. intros Hev Hne (Hinv & Hp & Hu). split; [by apply exec_inv|].
  destruct ev as [e c|]; [|done]. destruct (plain_memory _ _ Hinv Hp) as [He Hno]. simpl in Hp, Hu.
  assert (Hl : is_wallet_unlocked w (env_now e) = false) by (unfold is_wallet_unlocked; by rewrite Hu).
  simpl exec. destruct c as [t| |a|i|a|k|q t| |o n|q|n|n|n| | |d g]; cbn [handle]; try discriminate Hne.
  - unfold handle_getnewaddress. rewrite Hl. by destruct (ws_loaded w).
  - unfold handle_getrawchangeaddress. rewrite Hl. by destruct (ws_loaded w).
  - unfold handle_dumpprivkey. rewrite Hl. by destruct (ws_loaded w).
  - unfold handle_importprivkey. rewrite Hl. by destruct (ws_loaded w).
  - unfold handle_importaddress. destruct (ws_loaded w), a as [a|]; try done. cbn [negb].
    exact (conj Hp (eq_trans (import_watch_only_unlock e a w) Hu)).
  - unfold handle_importpubkey. destruct (ws_loaded w), k as [k|]; try done. cbn [negb].
    destruct (hex_decode k) as [b|]; [|done]. destruct (_ || _); [|done].
    exact (conj Hp (eq_trans (import_watch_only_unlock e _ w) Hu)).
  - unfold handle_walletpassphrase. rewrite He. by destruct (ws_loaded w), q.
  - unfold handle_walletlock. rewrite He. by destruct (ws_loaded w).
  - unfold handle_walletpassphrasechange. destruct (ws_loaded w), o as [o|], n as [n|]; try done.
    cbn [negb]. destruct (load_encrypted o (ws_file w)) as [d|m|] eqn:Hld; [by destruct (Hno _ _ Hld)|done..].
  - done.
  - unfold handle_unloadwallet. destruct (non_empty n) as [m|]; [case_bool_decide|]; done.
  - unfold handle_createwallet. by case_bool_decide.
  - done.
  - unfold handle_listlabels. by destruct (ws_loaded w).
  - unfold handle_backupwallet. destruct (ws_loaded w); [|done]. case_bool_decide; [done|].
    by destruct (ws_file w), g.
Qed.

Lemma unload_ok n w j : (handle_unloadwallet n w).2 = OkResponse j ->
  (handle_unloadwallet n w).1 = with_passphrase (with_unlock (with_name w (ws_name w) false) None) None.
Proof.
  unfold handle_unloadwallet. destruct (non_empty n) as [m|]; [|done].
  by destruct (bool_decide (m = ws_name w)).
Qed.

(** Unloading a wallet that is not encrypted locks it for good: once unloadwallet has
    answered, whatever commands follow, loadwallet and walletpassphrase among them but not
    encryptwallet, the commands that create, import or show a key are refused until the
    server is started again. *)
Theorem unload_locks_plain chain_id now evs n evs' e c :
  Forall event_ok evs -> v_pass (run (fresh chain_id now) evs).2 = None ->
  (exists j, (handle_unloadwallet n (run (fresh chain_id now) evs).1).2 = OkResponse j) ->
  Forall event_ok evs' -> forallb no_encryption evs' = true -> needs_unlock c = true ->
  let w := (run ((handle_unloadwallet n (run (fresh chain_id now) evs).1).1, (run (fresh chain_id now) evs).2) evs').1 in
  (handle e c w).2 = if ws_loaded w then locked_wallet else not_loaded.
Proof.
  intros Hev Hp [j Hj] Hev' Hne Hc. pose proof (run_inv _ _ Hev (fresh_inv chain_id now)) as Hinv.
  destruct (run (fresh chain_id now) evs) as [w0 v]. cbn [fst snd] in *.
  assert (Hs : stuck ((handle_unloadwallet n w0).1, v)).
  { rewrite (unload_ok _ _ _ Hj). split_and!; [by apply unload_inv|done|done]. }
  revert Hs. generalize ((handle_unloadwallet n w0).1, v). clear Hj Hinv Hp.
  induction evs' as [|ev evs' IH]; intros s Hs.
  - destruct Hs as (_ & _ & Hu). cbn [run fold_left]. cbv zeta.
    assert (Hl : is_wallet_unlocked s.1 (env_now e) = false) by (unfold is_wallet_unlocked; by rewrite Hu).
    destruct c; try discriminate Hc; cbn [handle];
      unfold handle_getnewaddress, handle_getrawchangeaddress, handle_dumpprivkey, handle_importprivkey;
      rewrite Hl; by destruct (ws_loaded s.1).
  - rewrite Forall_cons in Hev'. cbn [forallb] in Hne. apply andb_true_iff in Hne as [Hn1 Hn2].
    apply (IH (proj2 Hev') Hn2 (exec s ev)). apply stuck_exec; [exact (proj1 Hev')|done|done].
Qed.

(* ------------------------------------------------------------------ *)
(** ** Watch-only addresses while the wallet is locked *)

(** importaddress on a locked wallet answers that it succeeded, and the address is lost:
    nothing is written, and unlocking the wallet replaces the list in memory by the one of
    the file, in which the address is not. *)
Theorem locked_import_lost chain_id now evs e a e' p t :
  Forall event_ok evs ->
  let '(w, v) := run (fresh chain_id now) evs in
  v_pass v = Some p -> ws_passphrase w = None -> ws_loaded w = true ->
  (forall ks, load_encrypted p (ws_file w) = Ok ks -> is_watch_only ks a = false) ->
  let '(w1, r1) := handle e (ImportAddress (Some a)) w in
  let w2 := (handle e' (WalletPassphrase (Some p) t) w1).1 in
  r1 = null /\ is_watch_only (ws_keystore w1) a = true /\ ws_file w1 = ws_file w /\
  is_watch_only (ws_keystore w2) a = false.
Proof.
  intros Hev. pose proof (run_inv _ _ Hev (fresh_inv chain_id now)) as Hinv.
  destruct (run _ _) as [w v]. intros Hp Hn Hl Hnot.
  destruct Hinv as (ks & Hd & _). rewrite Hp in Hd. destruct Hd as (He & (Ho & _ & _) & _).
  cbn [handle]. unfold handle_importaddress. rewrite Hl. cbn [negb]. unfold import_watch_only.
  set (k := add_watch_only (ws_keystore w) a).
  assert (Hk : ks_encrypted k = true /\ is_watch_only k a = true).
  { unfold k, add_watch_only, is_watch_only. case_bool_decide; [by rewrite bool_decide_true|].
    simpl. split; [done|]. apply bool_decide_true. set_solver. }
  destruct Hk as [Hk1 Hk2]. unfold save_keystore. cbn [ws_passphrase with_keystore]. rewrite Hk1, Hn.
  split; [done|]. split; [exact Hk2|]. split; [done|].
  unfold handle_walletpassphrase. cbn [ws_loaded with_keystore ws_keystore ws_file].
  rewrite Hl, Hk1, Ho. cbn [negb]. destruct (instant_add _ _); exact (Hnot _ Ho).
Qed.

(* ------------------------------------------------------------------ *)
(** ** A write that fails after truncation *)

(** importaddress answers that it succeeded; the next start finds no keys. *)
Lemma torn_write e a w now :
  env_io e = WriteFails 0 -> ws_loaded w = true -> ks_encrypted (ws_keystore w) = false ->
  let '(w', r) := handle e (ImportAddress (Some a)) w in
  r = null /\ ks_keys (ws_keystore (rpc_state_new (ws_chain_id w) now (ws_file w'))) = ∅.
Proof.
  intros Hio Hl He. cbn [handle]. unfold handle_importaddress. rewrite Hl. cbn [negb].
  unfold import_watch_only, save_keystore.
  assert (Hk : ks_encrypted (add_watch_only (ws_keystore w) a) = false) by (unfold add_watch_only; by case_bool_decide).
  rewrite Hk, Hio. split; [done|]. unfold save. cbn [create_dir_all write_with_restricted_permissions fst].
  rewrite take_0. cbn [ws_file with_file]. unfold rpc_state_new, load. cbn [read_to_string is_utf8].
  change (of_bytes []) with ""%string. destruct empty_json as [E1 E2]. rewrite E2, E1. done.
Qed.

(** A backup onto the wallet file answers that it succeeded and empties the file: the next
    start finds no keys, and no passphrase opens it. *)
Lemma backup_onto_itself e dest w file :
  ws_loaded w = true -> ws_file w = Some file -> dest <> ""%string ->
  let '(w', r) := handle e (BackupWallet (Some dest) WalletItself) w in
  r = null /\ forall p, recover p (ws_file w') = ∅.
Proof.
  intros Hl Hf Hd. cbn [handle]. unfold handle_backupwallet. rewrite Hl, Hf. cbn [negb default].
  rewrite bool_decide_false by done. split; [done|]. destruct empty_json as [E1 E2].
  assert (Hr : read_to_string (Some []) = Some ""%string) by done.
  intros [p|]; cbn [ws_file with_file recover].
  - unfold load_encrypted. rewrite Hr. cbn [ok_or rbind]. by rewrite E2.
  - unfold load. by rewrite Hr, E2, E1.
Qed.

(* ------------------------------------------------------------------ *)
(** ** Keys in the wallet import format *)

Lemma import_hex_form (hex32 : string) (wif : string) :
  str_len wif <> 64 -> wif_to_privkey_hex wif = Ok (hex32, true) ->
  (if (str_len wif =? 64) && match hex_decode wif with Some _ => true | None => false end
   then Ok wif
   else match wif_to_privkey_hex wif with Ok (h, _) => Ok h | Err m => Err m | Panic => Panic end)
  = @Ok string message hex32.
Proof. intros Hl Hw. rewrite (proj2 (Z.eqb_neq _ _)) by done. cbn [andb]. by rewrite Hw. Qed.
End durable.

Section wif.
Context {C : Crates} {R : RpcCrates} {L : RpcLaws C R} {HL : HashLaws C}.
(** [bs58]: decoding reverses encoding, and 38 bytes take at most 52 characters. *)
Hypothesis bs58_round : forall b, bytes_ok b -> bs58_decode (bs58_encode b) = Some b.
Hypothesis bs58_wif_len : forall b, length b = 38%nat -> str_len (bs58_encode b) <> 64.
#[local] Set Default Proof Using "All".

Lemma wif_round_trip sk (testnet : bool) :
  length sk = 32%nat -> bytes_ok sk ->
  wif_to_privkey_hex (privkey_hex_to_wif (hex_encode sk) testnet) = Ok (hex_encode sk, true) /\
  str_len (privkey_hex_to_wif (hex_encode sk) testnet) <> 64.
Proof.
  intros Hl Hb. unfold privkey_hex_to_wif. rewrite hex_round by done.
  set (v := if testnet then 0xEF else 0x80). set (payload := [v] ++ sk ++ [1]).
  assert (Hv : v = 0xEF \/ v = 0x80) by (unfold v; destruct testnet; auto).
  assert (Hpl : length payload = 34%nat) by (unfold payload; rewrite !length_app, Hl; done).
  set (sum := take 4 (sha256 (sha256 payload))).
  assert (Hsl : length sum = 4%nat) by (unfold sum; rewrite length_take, sha256_len; done).
  split; [|apply bs58_wif_len; rewrite length_app; lia].
  unfold wif_to_privkey_hex. rewrite bs58_round.
  2:{ apply Forall_app. split; [|apply Forall_take, sha256_ok]. unfold payload.
      apply Forall_app. split; [apply Forall_singleton; unfold is_byte; destruct Hv as [-> | ->]; lia|].
      apply Forall_app. split; [done|]. apply Forall_singleton. unfold is_byte. lia. }
  cbn [ok_or rbind]. rewrite length_app, Hpl, Hsl. cbn [Nat.ltb Nat.leb Nat.add Nat.sub].
  rewrite take_app_length', drop_app_length' by done. fold sum. rewrite bool_decide_true by done. cbn [negb].
  unfold payload. cbn [app nth drop]. rewrite (proj2 (andb_false_iff _ _)).
  2:{ destruct Hv as [-> | ->]; auto. }
  rewrite drop_0, length_app, Hl. cbn [length Nat.add Nat.eqb andb].
  rewrite app_nth2, Hl by lia. cbn [Nat.sub nth Z.eqb Pos.eqb]. by rewrite take_app_length'.
Qed.

(** A key leaves a wallet and enters another: what dumpprivkey shows for a well-typed
    entry, with any chain's version byte, importprivkey of any unlocked wallet accepts, and
    it stores the same secret key with its public keys under the segwit address of its chain. *)
Theorem dump_import_round_trip w e a en w2 e2 :
  ws_loaded w = true -> is_wallet_unlocked w (env_now e) = true -> ks_get (ws_keystore w) a = Some en ->
  private_key_hex en = hex_encode (default [] (hex_decode (private_key_hex en))) -> entry_ok (ws_chain_id w) a en ->
  ws_loaded w2 = true -> is_wallet_unlocked w2 (env_now e2) = true ->
  exists wif sk, handle e (DumpPrivKey (Some a)) w = (w, OkResponse (JStr wif)) /\
    hex_decode (private_key_hex en) = Some sk /\
    ks_get (ws_keystore (handle e2 (ImportPrivKey (Some wif)) w2).1)
      (rpc_bech32_encode (bech32_hrp (ws_chain_id w2)) 0 (hash160 (secp_compressed sk))) = Some en.
Proof.
  intros Hl Hu Hg Hhex (sk & Hsk & Hv & Hen & _) Hl2 Hu2. rewrite Hsk in Hhex. simpl in Hhex.
  destruct (secp_valid_len _ Hv) as [Hlen Hb].
  destruct (wif_round_trip sk (is_testnet (ws_chain_id w)) Hlen Hb) as [Hw Hwl].
  exists (privkey_hex_to_wif (private_key_hex en) (is_testnet (ws_chain_id w))), sk. split_and!; [|done|].
  - cbn [handle]. unfold handle_dumpprivkey. by rewrite Hl, Hu, Hg.
  - rewrite Hhex. cbn [handle]. unfold handle_importprivkey. rewrite Hl2, Hu2. cbn [negb].
    rewrite (import_hex_form (hex_encode sk)) by done. rewrite hex_round, Hv by done. cbn [negb fst].
    unfold ks_get. rewrite (proj1 (stored_keys _ _ _ _ _)). rewrite lookup_insert_eq. by rewrite Hen, Hhex.
Qed.
End wif.

(* ------------------------------------------------------------------ *)
(** ** Concrete runs *)

Module Samples.

#[local] Existing Instance Toy.crates.
#[local] Existing Instance ToyRpc.crates.
#[local] Existing Instance ToyRpc.laws.

Definition env (now : Z) (key : Z) : Env := mkEnv now Written (repeat 3 32) (repeat 5 12) (repeat key 32).

Lemma env_good now key c : 0 <= key < 256 -> onto_itself c = false -> event_ok (Call (env now key) c).
Proof.
  intros Hk Hc. split; [|by split]. unfold env_ok, env. cbn -[repeat].
  assert (H : forall n x, 0 <= x < 256 -> bytes_ok (repeat x n)).
  { intros n x Hx. apply Forall_forall. intros y Hy. apply list_elem_of_In in Hy.
    apply repeat_spec in Hy as ->. unfold is_byte. lia. }
  split_and!; [apply H; lia|apply H; lia|done|].
  unfold ToyRpc.valid_secret. rewrite repeat_length. cbn [Nat.eqb andb]. apply forallb_forall.
  intros x Hx. apply repeat_spec in Hx as ->. lia.
Qed.

(** A key, encryption under a passphrase, a new start. *)
Definition evs : list Event :=
  [Call (env 0 1) (GetNewAddress None); Call (env 1 1) (EncryptWallet (Some "pw"%string)); Restart 6].

Lemma evs_good : Forall event_ok evs.
Proof. unfold evs. repeat (apply Forall_cons; split; [first [apply env_good; [lia|done] | exact I]|]). by apply Forall_nil. Qed.

Definition first_address : string := rpc_bech32_encode "bc" 0 (hash160 (2 :: repeat 1 32)).

Lemma keys_durable_witness :
  let '(w, v) := run (fresh "mainnet" 0) evs in
  v_pass v = Some "pw"%string /\
  exists en, recover (v_pass v) (ws_file w) !! first_address = Some en /\ entry_ok (ws_chain_id w) first_address en.
Proof.
  assert (H1 : v_pass (run (fresh "mainnet" 0) evs).2 = Some "pw"%string) by reflexivity.
  assert (H2 : v_addrs (run (fresh "mainnet" 0) evs).2 = [first_address]) by reflexivity.
  assert (H3 : first_address ∈ v_addrs (run (fresh "mainnet" 0) evs).2) by (rewrite H2; left).
  pose proof (keys_durable "mainnet" 0 evs evs_good) as H. destruct (run _ _) as [w v].
  exact (conj H1 (H _ H3)).
Defined.

Lemma keystore_well_typed_witness :
  let '(w, v) := run (fresh "mainnet" 0) evs in keys_ok (ws_chain_id w) (recover (v_pass v) (ws_file w)).
Proof.
  pose proof (keystore_well_typed "mainnet" 0 evs evs_good) as H. destruct (run _ _) as [w v]. exact (proj2 H).
Defined.

Lemma unload_locks_plain_witness :
  (handle (env 9 3) (GetNewAddress None)
     (run ((handle_unloadwallet None (run (fresh "mainnet" 0) []).1).1, (run (fresh "mainnet" 0) []).2)
        [Call (env 8 3) (LoadWallet None); Call (env 8 3) (WalletPassphrase (Some ""%string) None)]).1).2
  = locked_wallet.
Proof.
  apply (unload_locks_plain "mainnet" 0 [] None
    [Call (env 8 3) (LoadWallet None); Call (env 8 3) (WalletPassphrase (Some ""%string) None)] (env 9 3) (GetNewAddress None)).
  - by apply Forall_nil.
  - vm_compute. reflexivity.
  - eexists. vm_compute. reflexivity.
  - repeat (apply Forall_cons; split; [apply env_good; [lia|done]|]). by apply Forall_nil.
  - reflexivity.
  - reflexivity.
Defined.

(** An empty wallet, encrypted, and a new start. *)
Definition locked : list Event := [Call (env 1 1) (EncryptWallet (Some "pw"%string)); Restart 6].

Lemma locked_good : Forall event_ok locked.
Proof. unfold locked. repeat (apply Forall_cons; split; [first [apply env_good; [lia|done] | exact I]|]). by apply Forall_nil. Qed.

Lemma locked_file ks : load_encrypted "pw" (ws_file (run (fresh "mainnet" 0) locked).1) = Ok ks ->
  is_watch_only ks "watched" = false.
Proof.
  destruct (save_encrypted_written (repeat 3 32) (repeat 5 12) None keystore_default "pw") as (f & Hf & _ & Hu & _).
  1, 2: by apply env_good with (now := 0) (key := 1) (c := WalletLock).
  { done. }
  assert (E : ws_file (run (fresh "mainnet" 0) locked).1 = f).
  { change f with (f, @Ok unit message tt).1. rewrite <- Hf. reflexivity. }
  rewrite E. intros Hk. by rewrite (Hu _ _ Hk).
Qed.

Lemma locked_import_lost_witness :
  let '(w, v) := run (fresh "mainnet" 0) locked in
  let '(w1, r1) := handle (env 7 1) (ImportAddress (Some "watched"%string)) w in
  r1 = null /\ is_watch_only (ws_keystore w1) "watched" = true /\
  is_watch_only (ws_keystore (handle (env 8 1) (WalletPassphrase (Some "pw"%string) None) w1).1) "watched" = false.
Proof.
  assert (H1 : v_pass (run (fresh "mainnet" 0) locked).2 = Some "pw"%string) by reflexivity.
  assert (H2 : ws_passphrase (run (fresh "mainnet" 0) locked).1 = None) by reflexivity.
  assert (H3 : ws_loaded (run (fresh "mainnet" 0) locked).1 = true) by reflexivity.
  pose proof locked_file as H4.
  pose proof (locked_import_lost "mainnet" 0 locked (env 7 1) "watched" (env 8 1) "pw" None locked_good) as H.
  destruct (run _ _) as [w v]. specialize (H H1 H2 H3 H4).
  destruct (handle (env 7 1) _ w) as [w1 r1]. destruct H as (A & B & _ & D). exact (conj A (conj B D)).
Defined.

End Samples.

(** Two characters a byte. *)
Lemma toy_alphabet n : 0 <= n < 58 -> Toy.index_of (nth (Z.to_nat n) Toy.alphabet 0) Toy.alphabet = Some n.
Proof.
  intros Hn. assert (H : forallb (fun k => bool_decide (Toy.index_of (nth k Toy.alphabet 0) Toy.alphabet = Some (Z.of_nat k)))
    (seq 0 58) = true) by (vm_compute; reflexivity).
  rewrite forallb_forall in H. specialize (H (Z.to_nat n)). rewrite in_seq in H.
  rewrite Z2Nat.id in H by lia. eapply bool_decide_eq_true_1, H. lia.
Qed.

Lemma toy_bs58_bytes b :
  as_bytes (Toy.encode b) =
    flat_map (fun x => [nth (Z.to_nat (x / 58)) Toy.alphabet 0; nth (Z.to_nat (x mod 58)) Toy.alphabet 0]) b.
Proof.
  apply as_bytes_of_bytes, Forall_flat_map, Forall_forall. intros x _.
  assert (H : forall n, is_byte (nth n Toy.alphabet 0)).
  { intros n. destruct (nth_in_or_default n Toy.alphabet 0) as [Hin| ->]; [|unfold is_byte; lia].
    eapply (proj1 (List.Forall_forall _ _)); [apply as_bytes_ok|exact Hin]. }
  repeat apply Forall_cons_2; auto.
Qed.

Lemma toy_bs58_round b : bytes_ok b -> Toy.decode_pairs (as_bytes (Toy.encode b)) = Some b.
Proof.
  intros Hb. rewrite toy_bs58_bytes. induction Hb as [|x b Hx _ IH]; [done|]. unfold is_byte in Hx.
  cbn [flat_map app Toy.decode_pairs]. rewrite !toy_alphabet, IH.
  - do 2 f_equal. pose proof (Z.div_mod x 58). lia.
  - apply Z.mod_pos_bound. lia.
  - split; [apply Z.div_pos; lia|apply Z.div_lt_upper_bound; lia].
Qed.

Lemma toy_bs58_len b : length b = 38%nat -> str_len (Toy.encode b) <> 64.
Proof.
  intros Hb. rewrite <- length_as_bytes_Z, toy_bs58_bytes.
  assert (H : forall l, length (flat_map (fun x => [nth (Z.to_nat (x / 58)) Toy.alphabet 0;
    nth (Z.to_nat (x mod 58)) Toy.alphabet 0]) l) = (2 * length l)%nat).
  { induction l as [|x l IH]; [done|]. cbn [flat_map app length] in *. lia. }
  rewrite H. lia.
Qed.

Module WifSample.
#[local] Existing Instance Toy.crates.
#[local] Existing Instance ToyRpc.crates.
#[local] Existing Instance ToyRpc.laws.
#[local] Existing Instance Toy.hash_laws.

Definition sk : list Z := repeat 1 32.
Definition a : string := rpc_bech32_encode "bc" 0 (hash160 (secp_compressed sk)).
Definition en : KeyEntry := entry_of (hex_encode sk) sk.
Definition w : WalletState := with_keystore (rpc_state_new "mainnet" 0 None) (mkKeystore {[a := en]} [] false).
Definition w2 : WalletState := rpc_state_new "testnet" 0 None.
Definition e : Env := Samples.env 9 9.

Lemma dump_import_round_trip_witness :
  exists wif, handle e (DumpPrivKey (Some a)) w = (w, OkResponse (JStr wif)) /\
    ks_get (ws_keystore (handle e (ImportPrivKey (Some wif)) w2).1)
      (rpc_bech32_encode "tb" 0 (hash160 (secp_compressed sk))) = Some en.
Proof.
  assert (Hd : hex_decode (private_key_hex en) = Some sk) by (vm_compute; reflexivity).
  destruct (dump_import_round_trip (C := Toy.crates) (R := ToyRpc.crates) toy_bs58_round toy_bs58_len w e a en w2 e) as (wif & k & H & Hk & Hi).
  1, 2, 6, 7: vm_compute; reflexivity.
  - unfold ks_get, w. cbn [ws_keystore with_keystore ks_keys]. apply lookup_singleton_eq.
  - rewrite Hd. reflexivity.
  - exists sk. split; [exact Hd|]. split; [vm_compute; reflexivity|]. split; [reflexivity|]. left.
  - exists wif. split; [exact H|]. rewrite Hd in Hk. injection Hk as <-. exact Hi.
Defined.
End WifSample.
