(* ===== verification/Translator.v ===== *)
(** * Bitcoin transactions read by the RPC server (bitinfinity-btcrpc/src/tx_translator.rs)

    The sender, the inputs and the payments of a raw transaction.  The [bitcoin] crate is a
    parameter: it decodes transactions and scripts and names the address of a script. *)

From S2P Require Import Prelude Crates AccountId Bech32 Addresses Wallet.

(* ------------------------------------------------------------------ *)
(** ** What the [bitcoin] crate gives *)

Inductive Instruction : Type :=
| PushBytes (data : list Z)
| Op (name : string).

Record BtcTxIn : Type := mkBtcTxIn {
  ti_txid : string;
  ti_vout : Z;
  ti_script_sig : list Z;
  ti_witness : list (list Z);
  ti_sequence : Z;
}.

Record BtcTxOut : Type := mkBtcTxOut {
  to_value : Z;
  to_script_pubkey : list Z;
}.

Record BtcTransaction : Type := mkBtcTransaction {
  btx_version : Z;
  btx_lock_time : Z;
  btx_input : list BtcTxIn;
  btx_output : list BtcTxOut;
}.

Inductive Network : Type := Bitcoin | Testnet | Regtest.

(** [None] in [instructions] is an instruction that does not parse. *)
Class BitcoinCrate : Type := {
  deserialize : list Z -> option BtcTransaction;
  compute_txid : BtcTransaction -> string;
  weight_of : BtcTransaction -> Z;
  instructions : list Z -> list (option Instruction);
  is_op_return_script : list Z -> bool;
  address_from_script : Network -> list Z -> option string;
}.

(* ------------------------------------------------------------------ *)
(** ** The translation *)

Record TxInput : Type := mkTxInput {
  in_txid : string;
  in_vout : Z;
  in_script_sig_hex : string;
  in_script_sig_asm : string;
  in_txinwitness : list string;
  in_sequence : Z;
}.

Record TxOutput : Type := mkTxOutput {
  out_address : string;
  out_amount_satoshis : Z;
  out_is_op_return : bool;
  out_op_return_data : option (list Z);
}.

Record ParsedBitcoinTx : Type := mkParsedBitcoinTx {
  pt_txid : string;
  pt_sender_address : string;
  pt_sender_pubkey : list Z;
  pt_inputs : list TxInput;
  pt_outputs : list TxOutput;
  pt_raw_hex : string;
  pt_version : Z;
  pt_locktime : Z;
  pt_weight : Z;
}.

Record NearFunctionCall : Type := mkNearFunctionCall {
  nf_contract_id : string;
  nf_method_name : string;
  nf_args_base64 : string;
}.

Definition YOCTO_PER_SATOSHI : Z := 10000000000000000.

(** The product of a u64 stays in a u128. *)
Definition satoshis_to_yocto (satoshis : Z) : Z := satoshis * YOCTO_PER_SATOSHI.

(** [join(" ")]. *)
Fixpoint join_space (l : list string) : string :=
  match l with
  | [] => ""
  | [s] => s
  | s :: l => s +:+ " " +:+ join_space l
  end.

Definition is_pubkey_len (b : list Z) : bool := (length b =? 33)%nat || (length b =? 65)%nat.

(** [splitn(3, ':')]: at most three parts, the last with the rest. *)
Definition splitn3 (l : list Z) : list (list Z) :=
  match split_once 58 l with
  | None => [l]
  | Some (a, r) =>
      match split_once 58 r with
      | None => [a; r]
      | Some (b, c) => [a; b; c]
      end
  end.

Section translate.
Context {C : Crates} {R : RpcCrates} {B : BitcoinCrate}.

Definition extract_input (inp : BtcTxIn) : TxInput :=
  let script_sig_asm :=
    match ti_script_sig inp with
    | [] => ""%string
    | script => join_space (map (fun inst => match inst with PushBytes data => hex_encode data | Op op => op end)
                              (omap (fun x => x) (instructions script)))
    end in
  mkTxInput (ti_txid inp) (ti_vout inp) (hex_encode (ti_script_sig inp)) script_sig_asm
    (map hex_encode (ti_witness inp)) (ti_sequence inp).

Definition extract_inputs (tx : BtcTransaction) : list TxInput := map extract_input (btx_input tx).

Definition pushes (script : list Z) : list (list Z) :=
  omap (fun i => match i with Some (PushBytes data) => Some data | _ => None end) (instructions script).

Definition extract_sender_from_input (tx : BtcTransaction) (bech32_hrp : string) : result (list Z * string) message :=
  match btx_input tx with
  | [] => Err (lit "Transaction has no inputs")
  | first_input :: _ =>
      let witness := ti_witness first_input in
      let unknown := Err (lit "Could not extract sender public key from transaction inputs") in
      match ti_script_sig first_input with
      | _ :: _ as script_sig =>
          let pushes := pushes script_sig in
          let version_byte := p2pkh_version_byte bech32_hrp in
          let pubkey_bytes := List.last pushes [] in
          let wpubkey_bytes := List.last witness [] in
          if (2 <=? length pushes)%nat && is_pubkey_len pubkey_bytes
          then Ok (pubkey_bytes, pubkey_to_p2pkh_address pubkey_bytes version_byte)
          else if (2 <=? length witness)%nat && is_pubkey_len wpubkey_bytes
          then Ok (wpubkey_bytes, pubkey_to_p2pkh_address wpubkey_bytes version_byte)
          else unknown
      | [] =>
          match witness with
          | _ :: pubkey_bytes :: _ =>
              if is_pubkey_len pubkey_bytes
              then Ok (pubkey_bytes, pubkey_to_p2wpkh_address pubkey_bytes bech32_hrp)
              else unknown
          | [_] => Err (lit "P2TR key-path spend: cannot extract pubkey from witness alone")
          | [] => unknown
          end
      end
  end.

Definition network_of (bech32_hrp : string) : Network :=
  if bool_decide (bech32_hrp = "bc"%string) then Bitcoin
  else if bool_decide (bech32_hrp = "bcrt"%string) then Regtest
  else Testnet.

Definition extract_output (bech32_hrp : string) (txout : BtcTxOut) : TxOutput :=
  let script := to_script_pubkey txout in
  if is_op_return_script script then
    let data := if (2 <? length script)%nat then Some (drop 2 script) else None in
    mkTxOutput "" (to_value txout) true data
  else
    let address := match address_from_script (network_of bech32_hrp) script with
                   | Some addr => to_lowercase addr
                   | None => ""%string
                   end in
    mkTxOutput address (to_value txout) false None.

Definition extract_outputs (tx : BtcTransaction) (bech32_hrp : string) : list TxOutput :=
  map (extract_output bech32_hrp) (btx_output tx).

Definition from_hex_with_hrp (raw_hex bech32_hrp : string) : result ParsedBitcoinTx message :=
  let? bytes := ok_or (hex_decode raw_hex) (lit "Invalid hex: {}") in
  let? tx := ok_or (deserialize bytes) (lit "Failed to deserialize Bitcoin transaction: {}") in
  let txid := compute_txid tx in
  let? sender := extract_sender_from_input tx bech32_hrp in
  let inputs := extract_inputs tx in
  let outputs := extract_outputs tx bech32_hrp in
  Ok (mkParsedBitcoinTx txid (snd sender) (fst sender) inputs outputs raw_hex
        (btx_version tx) (btx_lock_time tx) (weight_of tx)).

Definition from_hex (raw_hex : string) : result ParsedBitcoinTx message := from_hex_with_hrp raw_hex "bc".
End translate.

Definition is_payment (p : ParsedBitcoinTx) (o : TxOutput) : bool :=
  negb (out_is_op_return o) && negb (bool_decide (out_address o = pt_sender_address p)).

Definition payment_output (p : ParsedBitcoinTx) : option TxOutput := List.find (is_payment p) (pt_outputs p).

Definition total_payment_satoshis (p : ParsedBitcoinTx) : Z :=
  fold_left (fun sum o => saturating_add u64_max sum (out_amount_satoshis o))
    (List.filter (is_payment p) (pt_outputs p)) 0.

Definition op_return_data (p : ParsedBitcoinTx) : option (list Z) :=
  match List.find out_is_op_return (pt_outputs p) with
  | Some o => out_op_return_data o
  | None => None
  end.

Definition decode_near_function_call (p : ParsedBitcoinTx) : option NearFunctionCall :=
  match op_return_data p with
  | None => None
  | Some data =>
      if negb (is_utf8 data) then None
      else
        let text := of_bytes data in
        if negb (starts_with "near:" text) then None
        else
          match splitn3 (drop 5 data) with
          | contract_id :: method_name :: rest =>
              Some (mkNearFunctionCall (of_bytes contract_id) (of_bytes method_name) (of_bytes (hd [] rest)))
          | _ => None
          end
  end.

(* ------------------------------------------------------------------ *)
(** ** Function calls in OP_RETURN *)

(** The text of a call. *)
Definition near_call_text (f : NearFunctionCall) : string :=
  "near:" +:+ nf_contract_id f +:+ ":" +:+ nf_method_name f +:+ ":" +:+ nf_args_base64 f.

(** OP_RETURN and a push, as Bitcoin writes them: the length in one byte up to 75, after
    OP_PUSHDATA1 up to 255. *)
Definition op_return_script (data : list Z) : list Z :=
  if (length data <=? 75)%nat then 0x6A :: vec_len data :: data else 0x6A :: 0x4C :: vec_len data :: data.

Lemma split_once_app sep a b : ~ In sep a -> split_once sep (a ++ sep :: b) = Some (a, b).
Proof. intros H. by apply split_once_Some. Qed.

Section op_return.
Context {B : BitcoinCrate}.

Lemma op_return_found p pre o post :
  pt_outputs p = pre ++ o :: post -> forallb (fun x => negb (out_is_op_return x)) pre = true -> out_is_op_return o = true ->
  op_return_data p = out_op_return_data o.
Proof.
  intros Ep Hpre Ho. unfold op_return_data. rewrite Ep. clear Ep.
  induction pre as [|x pre IH]; cbn [app List.find]; [by rewrite Ho|].
  cbn [forallb] in Hpre. apply andb_true_iff in Hpre as [Hx Hpre]. apply negb_true_iff in Hx. rewrite Hx. by apply IH.
Qed.

(** A function call in OP_RETURN is understood exactly when its text has at most 75
    bytes.  For a call whose contract and method have no colon, in the first OP_RETURN
    output of a transaction: a text of up to 75 bytes is decoded to the call; one of 76 to
    255 bytes, which Bitcoin pushes with OP_PUSHDATA1, is not recognised as a call at all,
    since the server skips two bytes of the script where three precede the text. *)
Theorem op_return_call hrp p pre post value (f : NearFunctionCall) :
  let data := as_bytes (near_call_text f) in
  let script := op_return_script data in
  pt_outputs p = pre ++ extract_output hrp (mkBtcTxOut value script) :: post ->
  forallb (fun x => negb (out_is_op_return x)) pre = true -> is_op_return_script script = true ->
  ~ In 58 (as_bytes (nf_contract_id f)) -> ~ In 58 (as_bytes (nf_method_name f)) ->
  is_str (near_call_text f) = true -> (length data <= 255)%nat ->
  decode_near_function_call p = if (length data <=? 75)%nat then Some f else None.
Proof.
  intros data script Ep Hpre Hop Hc Hm Hstr Hlen.
  assert (Ho : extract_output hrp (mkBtcTxOut value script) = mkTxOutput "" value true (Some (drop 2 script))).
  { unfold extract_output. cbn [to_script_pubkey to_value]. rewrite Hop.
    assert (H2 : (2 <? length script)%nat = true); [|by rewrite H2].
    apply Nat.ltb_lt. unfold script, op_return_script, data, near_call_text. rewrite as_bytes_app.
    destruct (_ <=? 75)%nat; cbn [length]; rewrite length_app; cbn; lia. }
  unfold decode_near_function_call. rewrite (op_return_found _ _ _ _ Ep Hpre), Ho by (by rewrite Ho).
  cbn [out_op_return_data]. unfold script, op_return_script. destruct (length data <=? 75)%nat eqn:El.
  - cbn [drop]. rewrite ?drop_0. unfold is_str in Hstr. fold data in Hstr. rewrite Hstr. cbn [negb].
    unfold data at 1. rewrite of_bytes_as_bytes. unfold near_call_text at 1. rewrite starts_with_lit. cbn [negb].
    unfold data, near_call_text. rewrite as_bytes_app. rewrite drop_app_length'  by done.
    rewrite !as_bytes_app. change (as_bytes ":") with [58]. cbn [app]. unfold splitn3.
    rewrite split_once_app by done. rewrite split_once_app by done. cbn [hd]. rewrite !of_bytes_as_bytes.
    by destruct f.
  - cbn [drop]. rewrite ?drop_0. destruct (is_utf8 (vec_len data :: data)); [|done]. cbn [negb].
    rewrite (starts_with_false "near:"); [done|]. rewrite as_bytes_of_bytes.
    2:{ apply Forall_cons. split; [unfold is_byte, vec_len; lia|apply as_bytes_ok]. }
    unfold data, near_call_text. rewrite as_bytes_app. cbn. intros H. by injection H.
Qed.
End op_return.

Module CallSample.
Definition bitcoin : BitcoinCrate := {|
  deserialize := fun _ => None;
  compute_txid := fun _ => ""%string;
  weight_of := fun _ => 0;
  instructions := fun _ => [];
  is_op_return_script := fun s => match s with 0x6A :: _ => true | _ => false end;
  address_from_script := fun _ _ => None;
|}.
#[local] Existing Instance bitcoin.

Definition long_call : NearFunctionCall :=
  mkNearFunctionCall "contract.near" "method"
    "eyJyZWNlaXZlciI6ImJvYi5uZWFyIiwiYW1vdW50IjoiMTAwMDAwMDAwMDAwMDAwMDAwMCJ9".
Definition tx : ParsedBitcoinTx :=
  mkParsedBitcoinTx "" "alice" [] []
    [extract_output "bc" (mkBtcTxOut 0 (op_return_script (as_bytes (near_call_text long_call))))] "" 2 0 0.

Lemma op_return_call_witness : decode_near_function_call tx = None.
Proof.
  apply (op_return_call "bc" tx [] [] 0 long_call).
  - reflexivity.
  - reflexivity.
  - reflexivity.
  - rewrite <- contains_false. vm_compute. reflexivity.
  - rewrite <- contains_false. vm_compute. reflexivity.
  - vm_compute. reflexivity.
  - apply Nat.leb_le. vm_compute. reflexivity.
Defined.
End CallSample.
