(* ===== verification/NearClient.v ===== *)
(** * The server's view of the node (bitinfinity-btcrpc/src/near_client.rs)

    [call] sends a request over HTTP and gives the answer's result or an error.  Here it is
    a parameter that also receives the number of earlier requests, so that the node may
    answer the same question differently each time. *)

From S2P Require Import Prelude Float64 Decimal Crates AccountId Bech32 Addresses Wallet Translator.

(* ------------------------------------------------------------------ *)
(** ** Access to JSON values ([serde_json::Value]) *)

Fixpoint assoc (k : string) (l : list (string * Json)) : option Json :=
  match l with
  | [] => None
  | (k', v) :: l => if bool_decide (k = k') then Some v else assoc k l
  end.
Definition get (j : Json) (k : string) : option Json :=
  match j with JObj fields => assoc k fields | _ => None end.
Definition as_str (j : Json) : option string := match j with JStr s => Some s | _ => None end.
Definition as_bool (j : Json) : option bool := match j with JBool b => Some b | _ => None end.
Definition as_array (j : Json) : option (list Json) := match j with JArr l => Some l | _ => None end.
Definition as_u64 (j : Json) : option Z :=
  match j with JNum n => if (0 <=? n) && (n <=? u64_max) then Some n else None | _ => None end.
Definition as_f64 (j : Json) : option f64 :=
  match j with JNum n => Some (of_Z n) | JFloat x => Some x | _ => None end.

Definition get_str (j : Json) (k : string) : option string := get j k ≫= as_str.
Definition get_u64 (j : Json) (k : string) : option Z := get j k ≫= as_u64.

(** Parameters of a request by position (main.rs). *)
Definition param (params : Json) (index : nat) : option Json := as_array params ≫= fun arr => arr !! index.
Definition get_str_param (params : Json) (index : nat) : option string := param params index ≫= as_str.
Definition get_u64_param (params : Json) (index : nat) : option Z := param params index ≫= as_u64.
Definition get_bool_param (params : Json) (index : nat) : option bool :=
  param params index ≫= fun v =>
    match as_bool v with
    | Some b => Some b
    | None => option_map (fun n => negb (n =? 0)) (as_u64 v)
    end.

(* ------------------------------------------------------------------ *)
(** ** Answers *)

Record AccountView : Type := mkAccountView {
  av_amount : string;
  av_locked : string;
  av_block_height : Z;
  av_block_hash : string;
}.

(** The cast to u64 truncates. *)
Definition balance_as_satoshis (a : AccountView) : Z :=
  let yocto := default 0 (parse_uint u128_max (as_bytes (av_amount a))) in
  (yocto / YOCTO_PER_SATOSHI) mod 2 ^ 64.

Record NodeStatus : Type := mkNodeStatus {
  st_chain_id : string;
  st_latest_block_height : Z;
  st_latest_block_hash : string;
  st_latest_block_time : string;
  st_syncing : bool;
  st_validator_account_id : option string;
}.

Section client.
Variable call : nat -> string -> Json -> result Json message.

Definition query (request_type account_id : string) : Json :=
  JObj [("request_type"%string, JStr request_type); ("finality"%string, JStr "final");
        ("account_id"%string, JStr account_id)].

Definition view_account (i : nat) (account_id : string) : result AccountView message :=
  let? result := call i "query" (query "view_account" account_id) in
  Ok (mkAccountView (default "0"%string (get_str result "amount")) (default "0"%string (get_str result "locked"))
        (default 0 (get_u64 result "block_height")) (default ""%string (get_str result "block_hash"))).

Definition status (i : nat) : result NodeStatus message :=
  let? result := call i "status" (JArr []) in
  let sync_info := default result (get result "sync_info") in
  Ok (mkNodeStatus (default "unknown"%string (get_str result "chain_id"))
        (default 0 (get_u64 sync_info "latest_block_height"))
        (default ""%string (get_str sync_info "latest_block_hash"))
        (default ""%string (get_str sync_info "latest_block_time"))
        (default false (get sync_info "syncing" ≫= as_bool))
        (get_str result "validator_account_id")).

Definition send_tx_async (i : nat) (signed_tx_base64 : string) : result string message :=
  let? result := call i "broadcast_tx_async" (JArr [JStr signed_tx_base64]) in
  ok_or (as_str result) (lit "Expected tx hash string").

Definition view_access_key (i : nat) (account_id public_key : string) : result Json message :=
  call i "query" (JObj [("request_type"%string, JStr "view_access_key"); ("finality"%string, JStr "final");
                        ("account_id"%string, JStr account_id); ("public_key"%string, JStr public_key)]).
End client.
