(* ===== verification/SendRaw.v ===== *)
(** * Sending (bitinfinity-btcrpc/src/main.rs)

    sendrawtransaction, signrawtransactionwithwallet and sendtoaddress: a Bitcoin transaction
    or an amount becomes transfers signed with keys of the wallet and handed to the node.
    The server is built without overflow checks, so additions without a check wrap. *)

From S2P Require Import Prelude Float64 Decimal Amounts Crates AccountId Bech32 Addresses Primitives GenesisTools TxBuilder Wallet Translator NearClient.

Notation YOCTO_PER_SATOSHI := Translator.YOCTO_PER_SATOSHI.

(* ------------------------------------------------------------------ *)
(** ** State *)

Record TxCacheEntry : Type := mkTxCacheEntry {
  tc_near_tx_hash : string;
  tc_raw_hex : string;
  tc_sender_id : string;
  tc_receiver_id : string;
  tc_amount_satoshis : Z;
  tc_block_height : Z;
  tc_is_incoming : bool;
}.

(** The fields of [RpcState] that sending uses, and what it has done to the node: the number
    of requests, and the texts posted to it, each with whether the node answered with a hash.
    Without such an answer the node may have taken the text or not. *)
Record SendState : Type := mkSendState {
  ss_wallet : WalletState;
  ss_nonce_cache : gmap string Z;
  ss_tx_cache : gmap string TxCacheEntry;
  ss_requests : nat;
  ss_sent : list (string * bool);
}.

Definition set_nonces (s : SendState) (m : gmap string Z) : SendState :=
  mkSendState (ss_wallet s) m (ss_tx_cache s) (ss_requests s) (ss_sent s).
Definition set_txs (s : SendState) (m : gmap string TxCacheEntry) : SendState :=
  mkSendState (ss_wallet s) (ss_nonce_cache s) m (ss_requests s) (ss_sent s).
Definition tick (s : SendState) : SendState :=
  mkSendState (ss_wallet s) (ss_nonce_cache s) (ss_tx_cache s) (S (ss_requests s)) (ss_sent s).
Definition log_sent (s : SendState) (text : string) (acknowledged : bool) : SendState :=
  mkSendState (ss_wallet s) (ss_nonce_cache s) (ss_tx_cache s) (ss_requests s) (ss_sent s ++ [(text, acknowledged)]).

(** Commands run on the state and may answer early. *)
Definition M (A : Type) : Type := SendState -> SendState * (A + Response).
Definition ret {A : Type} (x : A) : M A := fun s => (s, inl x).
Definition answer {A : Type} (r : Response) : M A := fun s => (s, inr r).
Definition bind {A B : Type} (m : M A) (k : A -> M B) : M B := fun s =>
  match m s with
  | (s', inl x) => k x s'
  | (s', inr r) => (s', inr r)
  end.
Declare Scope send_scope.
Delimit Scope send_scope with send.
Notation "'let!' x := m 'in' k" := (bind m (fun x => k))
  (at level 200, x pattern, m at level 100, k at level 200) : send_scope.
Open Scope send_scope.

Definition gets {A : Type} (f : SendState -> A) : M A := fun s => (s, inl (f s)).
Definition modify (f : SendState -> SendState) : M unit := fun s => (f s, inl tt).

(** A result, or an answer with code and prefix. *)
Definition ok_or_answer {A : Type} (r : result A message) (code : Z) (prefix : string) : M A :=
  match r with
  | Ok x => ret x
  | Err m => answer (ErrResponse code (wrap prefix m))
  | Panic => answer Panicked
  end.
Definition some_or_answer {A : Type} (x : option A) (r : Response) : M A :=
  match x with Some x => ret x | None => answer r end.

Definition run_command (m : M Response) (s : SendState) : SendState * Response :=
  match m s with
  | (s', inl r) => (s', r)
  | (s', inr r) => (s', r)
  end.

Definition SIGNED_INTENT_PREFIX : string := "bitinfinity:".
Definition ACCESS_KEY_NONCE_RANGE_MULTIPLIER : Z := 1000000.
Definition BITCOIN_FIRST_TX_HEIGHT_HEADROOM : Z := 0.

(** [TxCache::insert]; the copy on disk is left out. *)
Definition tx_cache_insert (cache : gmap string TxCacheEntry) (btc_txid near_tx_hash raw_hex sender_id : string)
    : gmap string TxCacheEntry :=
  <[btc_txid := mkTxCacheEntry near_tx_hash raw_hex sender_id "" 0 0 false]> cache.

(* ------------------------------------------------------------------ *)
(** ** Nonces *)

Definition bitcoin_first_tx_nonce_floor (latest_block_height : Z) : Z :=
  saturating_add u64_max
    (saturating_mul u64_max (saturating_add u64_max latest_block_height BITCOIN_FIRST_TX_HEIGHT_HEADROOM)
       ACCESS_KEY_NONCE_RANGE_MULTIPLIER) 1.

Definition normalize_nonce_for_first_bitcoin_tx (nonce latest_block_height : Z) : Z :=
  Z.max nonce (bitcoin_first_tx_nonce_floor latest_block_height).

Definition record_nonce (address : string) (nonce : Z) : M unit :=
  modify (fun s => set_nonces s (<[address := nonce]> (ss_nonce_cache s))).

Section send.
Context {C : Crates} {R : RpcCrates} {B : BitcoinCrate}.
(** The node; reading and printing JSON; the order in which a map gives its keys. *)
Variable call : nat -> string -> Json -> result Json message.
Variable json_from_str : string -> option Json.
Variable json_to_string : Json -> string.
Variable key_order : gmap string KeyEntry -> list string.

Definition request {A : Type} (f : nat -> A) : M A := fun s => (tick s, inl (f (ss_requests s))).

Definition send_text (text : string) : M (result string message) :=
  let! r := request (fun i => send_tx_async call i text) in
  let! _ := modify (fun s => log_sent s text (is_ok r)) in
  ret r.

Definition next_nonce (address near_pubkey_str : string) : M Z :=
  let! cache := gets ss_nonce_cache in
  let local_nonce := default 0 (cache !! address) in
  let! key := request (fun i => view_access_key call i address near_pubkey_str) in
  let! chain_nonce :=
    match key with
    | Ok ak_result => ret (default 0 (get_u64 ak_result "nonce"))
    | _ =>
        let! s := request (fun i => status call i) in
        ret (match s with
             | Ok s => saturating_sub (bitcoin_first_tx_nonce_floor (st_latest_block_height s)) 1
             | _ => 0
             end)
    end in
  let base := Z.max local_nonce chain_nonce in
  ret (wrapping_add u64_max base 1).

(** What a sender needs to sign: keys, block hash and the first nonce.  The three commands
    differ in the texts of two errors. *)
Record Signer : Type := mkSigner {
  sg_secret_key : list Z;
  sg_public_key : list Z;
  sg_block_hash : list Z;
  sg_nonce : Z;
}.
Definition prepare_signer (key_error secret_error : string) (sender : string) (key_entry : KeyEntry) : M Signer :=
  let! status := request (fun i => status call i) in
  let! status := ok_or_answer status (-32000) "Node not connected: " in
  let! block_hash := ok_or_answer (decode_block_hash (st_latest_block_hash status)) (-32000) "Invalid block hash: " in
  let! near_pubkey_str := ok_or_answer (near_public_key_string key_entry) (-32000) key_error in
  let! nonce := next_nonce sender near_pubkey_str in
  let nonce := normalize_nonce_for_first_bitcoin_tx nonce (st_latest_block_height status) in
  let! sk_bytes := ok_or_answer (private_key_bytes key_entry) (-32000) "Key error: " in
  let! pk_uncompressed := ok_or_answer (public_key_uncompressed_bytes key_entry) (-32000) "Key error: " in
  if secp_valid sk_bytes then ret (mkSigner sk_bytes pk_uncompressed block_hash nonce)
  else answer (ErrResponse (-32000) (lit (secret_error +:+ "{}"))).

(* ------------------------------------------------------------------ *)
(** ** sendrawtransaction *)

Fixpoint submit_intent (sender : string) (i : Z) (near_txs : list Json) (primary_hash : string) : M string :=
  match near_txs with
  | [] => ret primary_hash
  | tx_obj :: near_txs =>
      let near_tx_base64 := default ""%string (get_str tx_obj "near_tx") in
      let nonce := default 0 (get_u64 tx_obj "nonce") in
      let! r := send_text near_tx_base64 in
      match r with
      | Ok hash =>
          let! _ := record_nonce sender nonce in
          submit_intent sender (i + 1) near_txs (if i =? 0 then hash else primary_hash)
      | Err e => answer (ErrResponse (-25) (Msg ("Transaction submission failed for output {}: " +:+ msg_template e)
                                              (FZ i :: msg_args e)))
      | Panic => answer Panicked
      end
  end.

Definition send_intent (raw_hex decoded_str : string) : M Response :=
  let json_str := slice_from (String.length SIGNED_INTENT_PREFIX) decoded_str in
  let! payload := some_or_answer (json_from_str json_str) (ErrResponse (-22) (lit "Invalid signed intent: {}")) in
  let! sender := some_or_answer (non_empty (get_str payload "sender"))
    (ErrResponse (-22) (lit "Invalid signed intent: missing or empty sender field")) in
  let btc_txid := default ""%string (get_str payload "btc_txid") in
  let! near_txs :=
    match get payload "near_txs" ≫= as_array with
    | Some txs => ret txs
    | None =>
        match get_str payload "near_tx" with
        | Some near_tx =>
            ret [JObj [("near_tx"%string, JStr near_tx); ("nonce"%string, JNum (default 0 (get_u64 payload "nonce")))]]
        | None => answer (ErrResponse (-22) (lit "No NEAR transactions in signed intent"))
        end
    end in
  let! primary_hash := submit_intent sender 0 near_txs "" in
  let! _ := modify (fun s => set_txs s (tx_cache_insert (ss_tx_cache s) btc_txid primary_hash raw_hex sender)) in
  ret (OkResponse (JStr btc_txid)).

Definition transfer_text (sender : string) (g : Signer) (nonce : Z) (receiver : string) (satoshis : Z)
    : result string message :=
  transfer_sign_and_encode b64_std_encode secp_sign
    {| ntp_signer_id := sender; ntp_public_key_uncompressed := sg_public_key g; ntp_nonce := nonce;
       ntp_receiver_id := receiver; ntp_block_hash := sg_block_hash g;
       ntp_deposit := satoshis_to_yocto satoshis |} (sg_secret_key g).

Fixpoint submit_transfers (sender : string) (g : Signer) (current_nonce : Z) (outputs : list TxOutput)
    (near_tx_hashes : list string) : M (list string) :=
  match outputs with
  | [] => ret near_tx_hashes
  | output :: outputs =>
      let! text := ok_or_answer
        (transfer_text sender g current_nonce (out_address output) (out_amount_satoshis output))
        (-32000) "TX signing failed: " in
      let! r := send_text text in
      match r with
      | Ok hash =>
          let! _ := record_nonce sender current_nonce in
          submit_transfers sender g (wrapping_add u64_max current_nonce 1) outputs (near_tx_hashes ++ [hash])
      | Err e => answer (ErrResponse (-25) (Msg ("Transaction submission failed for output to {}: " +:+ msg_template e)
                                              (FS (out_address output) :: msg_args e)))
      | Panic => answer Panicked
      end
  end.

Definition send_function_call (raw_hex btc_txid sender : string) (g : Signer) (total_sat : Z) (f : NearFunctionCall)
    : M Response :=
  let args := default [] (b64_std_decode (nf_args_base64 f)) in
  let deposit := satoshis_to_yocto total_sat in
  let! text := ok_or_answer (call_sign_and_encode b64_std_encode secp_sign
    {| nfp_signer_id := sender; nfp_public_key_uncompressed := sg_public_key g; nfp_nonce := sg_nonce g;
       nfp_receiver_id := nf_contract_id f; nfp_block_hash := sg_block_hash g; nfp_method_name := nf_method_name f;
       nfp_args := args; nfp_gas := 300000000000000; nfp_deposit := deposit |} (sg_secret_key g))
    (-32000) "TX signing failed: " in
  let! r := send_text text in
  let! near_tx_hash := ok_or_answer r (-25) "Transaction submission failed: " in
  let! _ := record_nonce sender (sg_nonce g) in
  let! _ := modify (fun s => set_txs s (tx_cache_insert (ss_tx_cache s) btc_txid near_tx_hash raw_hex sender)) in
  ret (OkResponse (JStr btc_txid)).

Definition payment_outputs (sender : string) (outputs : list TxOutput) : list TxOutput :=
  List.filter (fun o => negb (out_is_op_return o) && negb (bool_decide (out_address o = ""%string))
                        && negb (bool_decide (out_address o = sender))) outputs.

Definition send_bitcoin_tx (raw_hex : string) : M Response :=
  let! chain_id := gets (fun s => ws_chain_id (ss_wallet s)) in
  let! parsed := ok_or_answer (from_hex_with_hrp raw_hex (bech32_hrp chain_id)) (-22) "TX decode failed: " in
  let btc_txid := pt_txid parsed in
  let sender := pt_sender_address parsed in
  let outputs := payment_outputs sender (pt_outputs parsed) in
  let function_call := decode_near_function_call parsed in
  let! _ := match outputs, function_call with
            | [], None => answer (ErrResponse (-25) (lit "No payment output found"))
            | _, _ => ret tt
            end in
  let! total_sat := some_or_answer (checked_sum_satoshis (map out_amount_satoshis outputs))
    (ErrResponse (-22) (lit "Transaction output total overflow")) in
  let! keystore := gets (fun s => ws_keystore (ss_wallet s)) in
  let! key_entry := some_or_answer (ks_get keystore sender)
    (ErrResponse (-4) (Msg "No private key found for address {}. Use getnewaddress to generate a key, or importprivkey to import one." [FS sender])) in
  let! g := prepare_signer "Invalid public key: " "Invalid secret key: " sender key_entry in
  match function_call with
  | Some f => send_function_call raw_hex btc_txid sender g total_sat f
  | None =>
      let! near_tx_hashes := submit_transfers sender g (sg_nonce g) outputs [] in
      let primary_hash := hd ""%string near_tx_hashes in
      let! _ := modify (fun s => set_txs s (tx_cache_insert (ss_tx_cache s) btc_txid primary_hash raw_hex sender)) in
      ret (OkResponse (JStr btc_txid))
  end.

Definition handle_sendrawtransaction (params : Json) : M Response :=
  let! raw_hex := some_or_answer (get_str_param params 0) (ErrResponse (-32602) (lit "Missing raw transaction hex")) in
  let! decoded_bytes := some_or_answer (hex_decode raw_hex)
    (ErrResponse (-22) (lit "TX decode failed: invalid hex: {}")) in
  let decoded_str := if is_utf8 decoded_bytes then of_bytes decoded_bytes else ""%string in
  if starts_with SIGNED_INTENT_PREFIX decoded_str then send_intent raw_hex decoded_str
  else send_bitcoin_tx raw_hex.

(* ------------------------------------------------------------------ *)
(** ** Guards of the wallet *)

Definition guard_wallet (now : Z) : M unit :=
  let! w := gets ss_wallet in
  if negb (ws_loaded w) then answer not_loaded
  else if negb (is_wallet_unlocked w now) then answer locked_wallet
  else ret tt.

(** The first address whose account holds the amount; the order is the map's. *)
Fixpoint find_funded (addresses : list string) (amount : Z) : M (option string) :=
  match addresses with
  | [] => ret None
  | a :: addresses =>
      let! account := request (fun i => view_account call i a) in
      match account with
      | Ok account => if amount <=? balance_as_satoshis account then ret (Some a) else find_funded addresses amount
      | _ => find_funded addresses amount
      end
  end.

(** The same with its key. *)
Fixpoint find_sender (keystore : Keystore) (addresses : list string) (amount : Z) : M (option (string * KeyEntry)) :=
  match addresses with
  | [] => ret None
  | a :: addresses =>
      let! account := request (fun i => view_account call i a) in
      match account with
      | Ok account =>
          if amount <=? balance_as_satoshis account then
            match ks_get keystore a with
            | Some entry => ret (Some (a, entry))
            | None => find_sender keystore addresses amount
            end
          else find_sender keystore addresses amount
      | _ => find_sender keystore addresses amount
      end
  end.

(* ------------------------------------------------------------------ *)
(** ** sendtoaddress *)

Definition handle_sendtoaddress (now : Z) (params : Json) : M Response :=
  let! _ := guard_wallet now in
  let! recipient := some_or_answer (get_str_param params 0) (ErrResponse (-32602) (lit "Missing address parameter")) in
  let amount_btc := default ZERO (param params 1 ≫= as_f64) in
  let! amount_satoshis := some_or_answer (btc_to_satoshis_checked amount_btc)
    (ErrResponse (-3) (lit "Invalid amount: must be positive, finite, and satoshi-precise")) in
  let subtract_fee := default false (param params 5 ≫= as_bool) in
  let fee_satoshis := if subtract_fee : bool then 1000 else 0 in
  let! send_satoshis :=
    match checked_sub amount_satoshis fee_satoshis with
    | Some sats => if 0 <? sats then ret sats
                   else answer (ErrResponse (-3) (lit "Invalid amount: too small after fee subtraction"))
    | None => answer (ErrResponse (-3) (lit "Invalid amount: too small after fee subtraction"))
    end in
  let! keystore := gets (fun s => ws_keystore (ss_wallet s)) in
  let! found := find_sender keystore (key_order (ks_keys keystore)) amount_satoshis in
  let! (sender, key_entry) := some_or_answer found (ErrResponse (-6) (lit "Insufficient funds or no wallet keys")) in
  let! g := prepare_signer "Key error: " "Key error: " sender key_entry in
  let! text := ok_or_answer (transfer_text sender g (sg_nonce g) recipient send_satoshis) (-32000) "TX signing failed: " in
  let! r := send_text text in
  let! near_tx_hash := ok_or_answer r (-25) "Transaction failed: " in
  let! _ := record_nonce sender (sg_nonce g) in
  let btc_txid := hex_encode (sha256 (as_bytes near_tx_hash)) in
  let synthetic_info := "sendtoaddress:" +:+ recipient +:+ ":" +:+ of_bytes (to_dec amount_satoshis) in
  let! _ := modify (fun s => set_txs s (tx_cache_insert (ss_tx_cache s) btc_txid near_tx_hash synthetic_info sender)) in
  ret (OkResponse (JStr btc_txid)).

(* ------------------------------------------------------------------ *)
(** ** signrawtransactionwithwallet *)

Record OutputInfo : Type := mkOutputInfo {
  oi_address : string;
  oi_amount_satoshis : Z;
}.

Fixpoint parse_intent_outputs (outs : list Json) : M (list OutputInfo) :=
  match outs with
  | [] => ret []
  | out :: outs =>
      let! address := some_or_answer (non_empty (get_str out "address"))
        (ErrResponse (-22) (lit "Invalid intent format: missing output address")) in
      let! amount_btc := some_or_answer (get out "amount" ≫= as_f64)
        (ErrResponse (-22) (lit "Invalid intent format: output amount must be a positive number")) in
      let! amount_satoshis := some_or_answer (btc_to_satoshis_checked amount_btc)
        (ErrResponse (-22) (lit "Invalid intent format: output amount must be positive and satoshi-precise")) in
      let! rest := parse_intent_outputs outs in
      ret (mkOutputInfo address amount_satoshis :: rest)
  end.

Definition incomplete (raw_hex error : string) : Response :=
  OkResponse (JObj [("hex"%string, JStr raw_hex); ("complete"%string, JBool false);
                    ("errors"%string, JArr [JObj [("error"%string, JStr error)]])]).

(** Sender and payments, from an intent or from a Bitcoin transaction. *)
Definition parse_unsigned (raw_hex : string) : M (string * list OutputInfo) :=
  let intent_bytes := default [] (hex_decode raw_hex) in
  let intent_str := if is_utf8 intent_bytes then of_bytes intent_bytes else ""%string in
  match json_from_str intent_str with
  | Some intent_json =>
      match get intent_json "outputs" ≫= as_array with
      | Some (_ :: _ as outs) =>
          let! parsed_outputs := parse_intent_outputs outs in
          let! total_sat := some_or_answer (checked_sum_satoshis (map oi_amount_satoshis parsed_outputs))
            (ErrResponse (-22) (lit "Invalid intent format: total output amount overflow")) in
          let! keystore := gets (fun s => ws_keystore (ss_wallet s)) in
          let! found := find_funded (key_order (ks_keys keystore)) total_sat in
          let! sender := some_or_answer found (incomplete raw_hex "Insufficient funds or no wallet keys") in
          ret (sender, parsed_outputs)
      | _ => answer (ErrResponse (-22) (lit "Invalid intent format"))
      end
  | None =>
      let! chain_id := gets (fun s => ws_chain_id (ss_wallet s)) in
      match from_hex_with_hrp raw_hex (bech32_hrp chain_id) with
      | Ok parsed =>
          let outputs := payment_outputs (pt_sender_address parsed) (pt_outputs parsed) in
          match outputs with
          | [] => answer (ErrResponse (-25) (lit "No payment outputs found"))
          | _ => ret (pt_sender_address parsed,
                      map (fun o => mkOutputInfo (out_address o) (out_amount_satoshis o)) outputs)
          end
      | _ => answer (ErrResponse (-22) (lit "TX decode failed: not a valid Bitcoin tx or bitinfinity intent"))
      end
  end.

Fixpoint sign_outputs (sender : string) (g : Signer) (i : Z) (outputs : list OutputInfo) : M (list Json) :=
  match outputs with
  | [] => ret []
  | output :: outputs =>
      let! nonce := some_or_answer (checked_add u64_max (sg_nonce g) i)
        (ErrResponse (-32000) (lit "Nonce overflow while preparing output transactions")) in
      let! text :=
        match transfer_text sender g nonce (oi_address output) (oi_amount_satoshis output) with
        | Ok text => ret text
        | Err e => answer (ErrResponse (-32000) (Msg ("TX signing failed for output {}: " +:+ msg_template e)
                                                  (FZ i :: msg_args e)))
        | Panic => answer Panicked
        end in
      let! rest := sign_outputs sender g (i + 1) outputs in
      ret (JObj [("near_tx"%string, JStr text); ("recipient"%string, JStr (oi_address output));
                 ("amount_sat"%string, JNum (oi_amount_satoshis output)); ("nonce"%string, JNum nonce)] :: rest)
  end.

(** The loop that is meant to move the nonce cache forward. *)
Fixpoint bump_nonce_cache (n : nat) (sender near_pubkey_str : string) : M unit :=
  match n with
  | O => ret tt
  | S n => let! _ := next_nonce sender near_pubkey_str in bump_nonce_cache n sender near_pubkey_str
  end.

Definition handle_signrawtransactionwithwallet (now : Z) (params : Json) : M Response :=
  let! _ := guard_wallet now in
  let! raw_hex := some_or_answer (get_str_param params 0) (ErrResponse (-32602) (lit "Missing raw transaction hex")) in
  let! (sender_addr, all_outputs) := parse_unsigned raw_hex in
  let! keystore := gets (fun s => ws_keystore (ss_wallet s)) in
  let! key_entry := some_or_answer (ks_get keystore sender_addr)
    (incomplete raw_hex ("Key not found for " +:+ sender_addr)) in
  let! g := prepare_signer "Key error: " "Key error: " sender_addr key_entry in
  let! total_sat := some_or_answer (checked_sum_satoshis (map oi_amount_satoshis all_outputs))
    (ErrResponse (-22) (lit "Transaction output total overflow")) in
  let! near_txs := sign_outputs sender_addr g 0 all_outputs in
  let! near_pubkey_str := ok_or_answer (near_public_key_string key_entry) (-32000) "Key error: " in
  let! _ := bump_nonce_cache (length all_outputs - 1) sender_addr near_pubkey_str in
  let first_address := match all_outputs with o :: _ => oi_address o | [] => ""%string end in
  let btc_txid := hex_encode (sha256 (as_bytes
    (sender_addr +:+ ":" +:+ first_address +:+ ":" +:+ of_bytes (to_dec total_sat) +:+ ":"
     +:+ of_bytes (to_dec (sg_nonce g))))) in
  let signed_payload := JObj [("near_txs"%string, JArr near_txs); ("sender"%string, JStr sender_addr);
                              ("total_amount_sat"%string, JNum total_sat); ("btc_txid"%string, JStr btc_txid)] in
  let signed_hex := hex_encode (as_bytes (SIGNED_INTENT_PREFIX +:+ json_to_string signed_payload)) in
  ret (OkResponse (JObj [("hex"%string, JStr signed_hex); ("complete"%string, JBool true); ("errors"%string, JArr [])])).
End send.
