(* ===== verification/SendProofs.v ===== *)
(** * What sending does (bitinfinity-btcrpc/src/main.rs)

    The texts posted to the node are read by it as the payments of the Bitcoin transaction;
    an acknowledged nonce is not used again; what the wallet's lock and the signing
    command's nonce loop do not do. *)

From S2P Require Import Prelude Float64 Decimal Amounts Crates AccountId Bech32 Addresses Primitives Borsh Wire Errors Validation GenesisTools TxBuilder Wallet RpcToy WalletProofs Translator NearClient SendRaw.

Local Open Scope send_scope.

(** What signing relies on: public keys of 65 bytes that start with 4, signatures that verify
    and give the key back; [base64] and [bs58]. *)
Class SignLaws (C : Crates) (R : RpcCrates) : Prop := {
  secp_public sk : secp_valid sk = true ->
    exists pk, secp_uncompressed sk = 4 :: pk /\ length pk = 64%nat /\ bytes_ok pk;
  secp_signs sk : secp_valid sk = true -> signs_for secp_sign sk (drop 1 (secp_uncompressed sk));
  b64_std_round b : bytes_ok b -> b64_std_decode (b64_std_encode b) = Some b;
  bs58_decode_bytes s b : bs58_decode s = Some b -> bytes_ok b;
  b64_decode_bytes s b : b64_std_decode s = Some b -> bytes_ok b;
}.

(* ------------------------------------------------------------------ *)
(** ** The node's reading of a transfer *)

Section reading.
Context {C : Crates} {R : RpcCrates}.

Definition transfer_tx (sender : string) (pk hash : list Z) (nonce : Z) (receiver : string) (satoshis : Z) : Transaction :=
  TxV0 (mkTransactionV0 sender (SECP256K1 pk) nonce receiver hash
          [Plain (Transfer (satoshis * 10 ^ 16))]).

(** The text decodes to a transaction whose signature verifies. *)
Definition node_reads (text : string) (t : Transaction) : Prop := exists bytes sig,
  b64_std_decode text = Some bytes /\
  try_from_slice signed_transaction_c bytes = Some (t, SigSECP256K1 sig) /\
  sig_verify (SigSECP256K1 sig) (sha256 (enc transaction_c t)) (public_key t) = true.

(** The payments with their nonces. *)
Fixpoint numbered (n : Z) (outs : list TxOutput) : list (Z * TxOutput) :=
  match outs with
  | [] => []
  | o :: outs => (n, o) :: numbered (wrapping_add u64_max n 1) outs
  end.

Definition pays (sender : string) (pk hash : list Z) (text : string) (p : Z * TxOutput) : Prop :=
  node_reads text (transfer_tx sender pk hash p.1 (out_address p.2) (out_amount_satoshis p.2)).

Definition recorded (cache : gmap string Z) (sender : string) (l : list (Z * TxOutput)) : gmap string Z :=
  fold_left (fun c p => <[sender := p.1]> c) l cache.

Definition output_ok (o : TxOutput) : Prop := id_wf (out_address o) /\ is_u u64_max (out_amount_satoshis o).

Record signer_ok (g : Signer) (sk : list Z) : Prop := mk_signer_ok {
  so_secret : sg_secret_key g = sk;
  so_valid : secp_valid sk = true;
  so_public : sg_public_key g = drop 1 (secp_uncompressed sk);
  so_hash : length (sg_block_hash g) = 32%nat;
  so_hash_bytes : bytes_ok (sg_block_hash g);
}.
End reading.

Section sending.
Context {C : Crates} {R : RpcCrates} {B : BitcoinCrate} {L : RpcLaws C R} {HL : HashLaws C} {SL : SignLaws C R}.
Variable call : nat -> string -> Json -> result Json message.
Variable json_from_str : string -> option Json.
#[local] Set Default Proof Using "All".

Lemma transfer_text_read sender g sk nonce receiver sat :
  signer_ok g sk -> id_wf sender -> id_wf receiver -> is_u u64_max nonce -> is_u u64_max sat ->
  exists text, transfer_text sender g nonce receiver sat = Ok text /\
    node_reads text (transfer_tx sender (drop 1 (secp_uncompressed sk)) (sg_block_hash g) nonce receiver sat).
Proof.
  intros [Hsk Hv Hpk Hh Hhb] Hs Hr Hn Ha. destruct (secp_public sk Hv) as (pk & Ep & Hpl & Hpb).
  unfold transfer_text, transfer_sign_and_encode. cbn [ntp_signer_id ntp_public_key_uncompressed ntp_nonce ntp_receiver_id
    ntp_block_hash ntp_deposit]. rewrite Hsk, Hpk.
  set (b := add_action _ _).
  assert (Hd : satoshis_to_yocto sat = sat * 10 ^ 16) by done.
  assert (Hu : is_u u128_max (satoshis_to_yocto sat)).
  { rewrite Hd. unfold is_u, u64_max, u128_max in *. lia. }
  assert (Hpk1 : drop 1 (secp_uncompressed sk) = pk) by (by rewrite Ep).
  destruct (signed_text_read b64_std_encode b64_std_decode secp_sign b64_std_round b
    [Plain (Transfer (satoshis_to_yocto sat))] sk) as (text & bytes & sig & H1 & H2 & H3 & H4 & _).
  - split; try done. unfold b. cbn [nb_public_key_uncompressed add_action builder_new]. by rewrite Hpk1.
  - done.
  - constructor; [apply built_transfer|constructor].
  - by apply Forall_singleton.
  - unfold borsh_serialize_tx, b. cbn [nb_signer_id nb_public_key_uncompressed nb_nonce nb_receiver_id nb_block_hash
      nb_actions add_action builder_new app fold_left]. unfold borsh_write_string. rewrite Hpk1.
    repeat (apply Forall_app; split); try apply le_enc_ok; try apply as_bytes_ok; try done; try apply Forall_nil; try done.
    all: repeat (apply Forall_cons; split); try apply le_enc_ok; try (unfold is_byte; lia); try apply Forall_nil; done.
  - intros m. apply sha256_len.
  - exact (secp_signs sk Hv).
  - exists text. split; [exact H1|]. exists bytes, sig. unfold transfer_tx. rewrite <- Hd. done.
Qed.

(* ------------------------------------------------------------------ *)
(** ** The loop over the payments *)

Lemma wrapping_u64 n : is_u u64_max (wrapping_add u64_max n 1).
Proof. unfold wrapping_add, is_u. pose proof (Z.mod_pos_bound (n + 1) (u64_max + 1)). unfold u64_max in *. lia. Qed.

Lemma submit_spec sender g sk outs : forall n hashes s,
  signer_ok g sk -> id_wf sender -> Forall output_ok outs -> is_u u64_max n ->
  let '(s', r) := submit_transfers call sender g n outs hashes s in
  exists k texts, (k <= length outs)%nat /\ ss_sent s' = ss_sent s ++ texts /\
    Forall2 (pays sender (drop 1 (secp_uncompressed sk)) (sg_block_hash g)) (map fst texts) (numbered n (take (length texts) outs)) /\
    ss_nonce_cache s' = recorded (ss_nonce_cache s) sender (numbered n (take k outs)) /\
    ss_wallet s' = ss_wallet s /\
    match r with
    | inl hs => k = length outs /\ map snd texts = repeat true k
    | inr r => map snd texts = repeat true k ++ [false] /\
        (forall j, r <> OkResponse j) /\ exists i text e, send_tx_async call i text = e /\ forall h, e <> Ok h
    end.
Proof.
  induction outs as [|o outs IH]; intros n hashes s Hg Hs Ho Hn.
  { exists O, []. cbn. rewrite app_nil_r. split_and!; done || constructor. }
  apply Forall_cons in Ho as [[Ho1 Ho2] Ho]. cbn [submit_transfers]. unfold bind at 1.
  destruct (transfer_text_read sender g sk n (out_address o) (out_amount_satoshis o)) as (text & Et & Hread); [done..|].
  rewrite Et. cbn [ok_or_answer ret]. unfold send_text, bind at 1, bind at 1, request at 1. cbn [fst snd].
  unfold bind at 1, modify at 1, ret at 1.
  destruct (send_tx_async call (ss_requests s) text) as [h|e|] eqn:Esend; cbn [is_ok].
  - unfold bind at 1, record_nonce at 1, modify at 1. set (s1 := set_nonces _ _).
    specialize (IH (wrapping_add u64_max n 1) (hashes ++ [h]) s1 Hg Hs Ho (wrapping_u64 n)).
    destruct (submit_transfers call sender g _ outs _ s1) as [s' r].
    destruct IH as (k & texts & Hk & Hsent & Hpays & Hc & Hw & Hr).
    exists (S k), ((text, true) :: texts). cbn [take numbered length map fst snd repeat]. split_and!; [lia| | | | |].
    + rewrite Hsent. unfold s1. cbn [ss_sent set_nonces log_sent tick]. by rewrite <- app_assoc.
    + by constructor.
    + rewrite Hc. done.
    + by rewrite Hw.
    + destruct r; destruct Hr as [Hr1 Hr2]; [split; congruence|split; [by rewrite Hr1|done]].
  - unfold bind, answer, ret. exists O, [(text, false)]. cbn. split_and!; try done; try lia; try (by repeat constructor).
    exists (ss_requests s), text, (Err e). by rewrite Esend.
  - unfold bind, answer, ret. exists O, [(text, false)]. cbn. split_and!; try done; try lia; try (by repeat constructor).
    exists (ss_requests s), text, Panic. by rewrite Esend.
Qed.

(* ------------------------------------------------------------------ *)
(** ** Preparing to sign *)

(** Only requests to the node were made. *)
Definition quiet (s s' : SendState) : Prop :=
  exists i, s' = mkSendState (ss_wallet s) (ss_nonce_cache s) (ss_tx_cache s) i (ss_sent s).

(** The nonce the node reports for a key leaves room for another. *)
Definition chain_nonces_ok : Prop := forall i a k j,
  view_access_key call i a k = Ok j -> default 0 (get_u64 j "nonce") < u64_max.
(** The node answers with a block hash, and takes every text. *)
Definition node_up : Prop := forall i, exists st h,
  status call i = Ok st /\ decode_block_hash (st_latest_block_hash st) = Ok h.
Definition node_accepts : Prop := forall i text, exists h, send_tx_async call i text = Ok h.

Lemma quiet_refl s : quiet s s.
Proof. exists (ss_requests s). by destruct s. Qed.

Lemma floor_u64 h : 0 <= h -> is_u u64_max (bitcoin_first_tx_nonce_floor h) /\ 1 <= bitcoin_first_tx_nonce_floor h.
Proof.
  intros Hh. unfold bitcoin_first_tx_nonce_floor, saturating_add, saturating_mul, is_u, u64_max,
    BITCOIN_FIRST_TX_HEIGHT_HEADROOM, ACCESS_KEY_NONCE_RANGE_MULTIPLIER. lia.
Qed.

Lemma get_u64_range j k : is_u u64_max (default 0 (get_u64 j k)).
Proof.
  assert (H0 : is_u u64_max 0) by (unfold is_u, u64_max; lia).
  unfold get_u64. destruct (get j k) as [v|]; [|exact H0]. cbn [mbind option_bind].
  destruct v as [| |n| | | |]; try exact H0. unfold as_u64.
  destruct ((0 <=? n) && (n <=? u64_max)) eqn:E; [|exact H0]. change (0 <= n <= u64_max). lia.
Qed.

Lemma status_height i st : status call i = Ok st -> is_u u64_max (st_latest_block_height st).
Proof.
  unfold status. destruct (call i "status" (JArr [])); [|done..]. cbn [rbind]. intros [= <-].
  apply get_u64_range.
Qed.

Lemma wrapping_next n : 0 <= n < u64_max -> wrapping_add u64_max n 1 = n + 1.
Proof. intros H. unfold wrapping_add. rewrite Z.mod_small; lia. Qed.

Definition cache_ok (s : SendState) (a : string) : Prop := 0 <= default 0 (ss_nonce_cache s !! a) < u64_max.

Lemma next_nonce_spec a k s : exists n s', next_nonce call a k s = (s', inl n) /\ quiet s s' /\ is_u u64_max n /\
  (chain_nonces_ok -> cache_ok s a -> default 0 (ss_nonce_cache s !! a) < n).
Proof.
  unfold next_nonce, bind, gets, request, ret. cbn [fst snd].
  destruct (view_access_key call (ss_requests s) a k) as [j|e|] eqn:Ej.
  - eexists _, _. split; [reflexivity|]. split; [by eexists|]. split; [apply wrapping_u64|].
    intros Hc [H1 H2]. specialize (Hc _ _ _ _ Ej). pose proof (get_u64_range j "nonce") as [H3 _].
    rewrite wrapping_next; lia.
  - eexists _, _. split; [reflexivity|]. split; [by eexists|]. split; [apply wrapping_u64|].
    intros _ [H1 H2]. cbn [ss_requests tick]. destruct (status call _) as [st|?|] eqn:Es; [|rewrite wrapping_next; lia..].
    apply status_height in Es as [Es _]. destruct (floor_u64 _ Es) as [[_ F1] F2].
    unfold saturating_sub. rewrite wrapping_next; lia.
  - eexists _, _. split; [reflexivity|]. split; [by eexists|]. split; [apply wrapping_u64|].
    intros _ [H1 H2]. cbn [ss_requests tick]. destruct (status call _) as [st|?|] eqn:Es; [|rewrite wrapping_next; lia..].
    apply status_height in Es as [Es _]. destruct (floor_u64 _ Es) as [[_ F1] F2].
    unfold saturating_sub. rewrite wrapping_next; lia.
Qed.

Lemma entry_keys h sk : hex_decode h = Some sk -> secp_valid sk = true ->
  private_key_bytes (entry_of h sk) = Ok sk /\
  public_key_uncompressed_bytes (entry_of h sk) = Ok (drop 1 (secp_uncompressed sk)).
Proof.
  intros Hh Hv. destruct (secp_valid_len _ Hv) as [Hl _]. destruct (secp_public sk Hv) as (pk & Ep & Hpl & Hpb).
  unfold private_key_bytes, public_key_uncompressed_bytes, entry_of.
  cbn [private_key_hex public_key_uncompressed_hex]. rewrite Hh, Ep. change (drop 1 (4 :: pk)) with pk.
  rewrite hex_round by done. cbn [ok_or rbind]. by rewrite Hl, Hpl.
Qed.

Lemma decode_block_hash_ok t h : decode_block_hash t = Ok h -> length h = 32%nat /\ bytes_ok h.
Proof.
  unfold decode_block_hash. destruct (bs58_decode t) as [b|] eqn:Eb; [|done].
  destruct (length b =? 32)%nat eqn:El; [|done]. intros [= <-]. apply Nat.eqb_eq in El. eauto using bs58_decode_bytes.
Qed.

Lemma prepare_spec ke se a h sk s :
  hex_decode h = Some sk -> secp_valid sk = true ->
  let '(s', r) := prepare_signer call ke se a (entry_of h sk) s in
  quiet s s' /\ (node_up -> exists g, r = inl g) /\
  match r with
  | inl g => signer_ok g sk /\ is_u u64_max (sg_nonce g) /\
      (chain_nonces_ok -> cache_ok s a -> default 0 (ss_nonce_cache s !! a) < sg_nonce g)
  | inr r => forall j, r <> OkResponse j
  end.
Proof.
  intros Hh Hv. destruct (entry_keys h sk Hh Hv) as [Hpriv Hpub]. unfold prepare_signer, bind at 1, request at 1.
  cbn [fst snd]. assert (Hq : quiet s (tick s)) by (by eexists).
  assert (Hup : node_up -> exists st bh, status call (ss_requests s) = Ok st /\
    decode_block_hash (st_latest_block_hash st) = Ok bh) by (intros Hn; apply Hn).
  destruct (status call (ss_requests s)) as [st|e|] eqn:Es.
  2, 3: cbn [ok_or_answer]; unfold bind, answer; split; [done|]; split; [intros Hn; by destruct (Hup Hn) as (? & ? & ? & _)|done].
  cbn [ok_or_answer]. unfold bind at 1, ret at 1. destruct (status_height _ _ Es) as [Hh0 _].
  destruct (decode_block_hash (st_latest_block_hash st)) as [bh|e|] eqn:Eb.
  2, 3: cbn [ok_or_answer]; unfold bind, answer; split; [done|]; split; [intros Hn; destruct (Hup Hn) as (? & ? & [= <-] & ?); congruence|done].
  cbn [ok_or_answer]. unfold bind at 1, ret at 1. unfold near_public_key_string. rewrite Hpub. cbn [rbind ok_or_answer].
  unfold bind at 1, ret at 1. unfold bind at 1.
  destruct (next_nonce_spec a ("secp256k1:" +:+ bs58_encode (drop 1 (secp_uncompressed sk))) (tick s)) as (n & s' & En & [i Hs'] & Hn & Hgt).
  rewrite En, Hpriv. cbn [ok_or_answer]. unfold bind, ret. rewrite Hv. cbn [sg_nonce].
  destruct (decode_block_hash_ok _ _ Eb) as [Hbl Hbb]. destruct (floor_u64 _ Hh0) as [[_ F1] F2].
  assert (Hmax : is_u u64_max (normalize_nonce_for_first_bitcoin_tx n (st_latest_block_height st))).
  { unfold normalize_nonce_for_first_bitcoin_tx, is_u in *. lia. }
  split; [exists i; by rewrite Hs'|]. split; [by eexists|]. split; [by split|]. split; [done|].
  intros Hc Hco. specialize (Hgt Hc Hco). cbn [ss_nonce_cache tick] in Hgt.
  unfold normalize_nonce_for_first_bitcoin_tx. lia.
Qed.

(* ------------------------------------------------------------------ *)
(** ** sendrawtransaction *)

(** What a command has done: it has posted the texts of the first payments, in order, with
    consecutive nonces from [n]; the first [k] were acknowledged, and if [refused] one more
    was posted that was not; the nonces of the first [k] are recorded. *)
Definition paid (s s' : SendState) (sender : string) (pk : list Z) (n : Z) (k : nat) (refused : bool)
    (outs : list TxOutput) : Prop :=
  exists hash texts, ss_sent s' = ss_sent s ++ texts /\
    map snd texts = repeat true k ++ (if refused then [false] else []) /\
    Forall2 (pays sender pk hash) (map fst texts) (numbered n (take (length texts) outs)) /\
    ss_nonce_cache s' = recorded (ss_nonce_cache s) sender (numbered n (take k outs)).

Lemma paid_nothing s s' sender pk n outs : quiet s s' -> paid s s' sender pk n 0 false outs.
Proof.
  intros [i ->]. exists [], []. cbn. rewrite app_nil_r. split_and!; try done; by constructor.
Qed.

Lemma send_bitcoin_tx_spec raw p h sk s :
  let sender := pt_sender_address p in
  let outs := payment_outputs sender (pt_outputs p) in
  from_hex_with_hrp raw (bech32_hrp (ws_chain_id (ss_wallet s))) = Ok p -> decode_near_function_call p = None ->
  ks_get (ws_keystore (ss_wallet s)) sender = Some (entry_of h sk) -> hex_decode h = Some sk -> secp_valid sk = true ->
  id_wf sender -> Forall output_ok outs ->
  let '(s', r) := run_command (send_bitcoin_tx call raw) s in
  exists n k refused, paid s s' sender (drop 1 (secp_uncompressed sk)) n k refused outs /\
    (chain_nonces_ok -> cache_ok s sender -> default 0 (ss_nonce_cache s !! sender) < n) /\
    (forall j, r = OkResponse j -> j = JStr (pt_txid p) /\ refused = false /\ (length outs <= k)%nat) /\
    (node_up -> node_accepts -> outs <> [] -> is_Some (checked_sum_satoshis (map out_amount_satoshis outs)) ->
     r = OkResponse (JStr (pt_txid p))).
Proof.
  intros sender outs Hp Hf Hk Hh Hv Hs Ho. unfold run_command, send_bitcoin_tx, bind at 1, gets at 1.
  rewrite Hp. cbn [ok_or_answer]. unfold bind at 1, ret at 1. cbv zeta. fold sender. fold outs. rewrite Hf.
  assert (Hnone : forall r : Response, (forall j, r <> OkResponse j) ->
    (node_up -> node_accepts -> outs <> [] -> is_Some (checked_sum_satoshis (map out_amount_satoshis outs)) -> False) ->
    exists n k refused, paid s s sender (drop 1 (secp_uncompressed sk)) n k refused outs /\
    (chain_nonces_ok -> cache_ok s sender -> default 0 (ss_nonce_cache s !! sender) < n) /\
    (forall j, r = OkResponse j -> j = JStr (pt_txid p) /\ refused = false /\ (length outs <= k)%nat) /\
    (node_up -> node_accepts -> outs <> [] -> is_Some (checked_sum_satoshis (map out_amount_satoshis outs)) ->
     r = OkResponse (JStr (pt_txid p)))).
  { intros r Hr Hx. exists (default 0 (ss_nonce_cache s !! sender) + 1), O, false.
    split; [apply paid_nothing, quiet_refl|]. split; [lia|]. split; [intros j Ej; by destruct (Hr j)|].
    intros. by destruct Hx. }
  destruct outs as [|o0 outs0] eqn:Eo; [apply Hnone; [done|]; by intros _ _ Hne|]. rewrite <- Eo in *. clear o0 outs0 Eo.
  unfold bind at 1, ret at 1. destruct (checked_sum_satoshis (map out_amount_satoshis outs)) as [total|] eqn:Et.
  2:{ apply Hnone; [done|]. by intros _ _ _ [? ?]. }
  cbn [some_or_answer]. unfold bind at 1, ret at 1. unfold bind at 1, gets at 1. rewrite Hk.
  cbn [some_or_answer]. unfold bind at 1, ret at 1. unfold bind at 1.
  pose proof (prepare_spec "Invalid public key: " "Invalid secret key: " sender h sk s Hh Hv) as Hprep.
  destruct (prepare_signer call _ _ sender (entry_of h sk) s) as [s1 [g|r]].
  2:{ destruct Hprep as (Hq & Hup & Hr). exists (default 0 (ss_nonce_cache s !! sender) + 1), O, false.
      split; [by apply paid_nothing|]. split; [lia|]. split; [intros j Ej; by destruct (Hr j)|].
      intros Hn. by destruct (Hup Hn). }
  destruct Hprep as ([i ->] & _ & Hg & Hgn & Hgt). unfold bind at 1.
  match goal with |- context [submit_transfers call sender g _ outs [] ?s1] =>
    pose proof (submit_spec sender g sk outs (sg_nonce g) [] s1 Hg Hs Ho Hgn) as Hsub;
    destruct (submit_transfers call sender g (sg_nonce g) outs [] s1) as [s2 [hs|r]] end;
    destruct Hsub as (k & texts & Hkl & Hsent & Hpays & Hc & _ & Hr).
  - destruct Hr as [Hr Hflags]. unfold bind, modify, ret. exists (sg_nonce g), k, false.
    split; [exists (sg_block_hash g), texts; by rewrite app_nil_r|].
    split; [done|]. split; [|done]. intros j [= <-]. by rewrite Hr.
  - destruct Hr as (Hflags & Hr & (i' & t & e & He & Hne)). exists (sg_nonce g), k, true.
    split; [by exists (sg_block_hash g), texts|]. split; [done|].
    split; [intros j Ej; by destruct (Hr j)|]. intros _ Hacc. destruct (Hacc i' t) as [h' Hh']. by destruct (Hne h'); rewrite <- He.
Qed.

(** C5. sendrawtransaction pays what the Bitcoin transaction says.  For a transaction without
    a function call, from a key of the wallet to well-formed addresses, and whatever the node
    answers: the texts posted to the node are, in order, the transfers to the first payment
    outputs, each of the output's satoshis times 10^16 from the sender's account, which the
    node decodes, with a signature that verifies under the sender's key; their nonces are
    consecutive (modulo 2^64).  The node acknowledged all of them but possibly the last, which
    is then posted only once, ends the command with an error, and may still have been taken
    by the node; the nonce recorded for the sender is the last acknowledged one.  The nonces
    start above the one recorded before if that one and those the node reports are below
    2^64 - 1.  The answer is the Bitcoin txid only if all payments were posted and
    acknowledged, and it is that answer when the node is up and takes every text. *)
Theorem sendraw_pays params raw b p en s :
  let chain_id := ws_chain_id (ss_wallet s) in
  let sender := pt_sender_address p in
  let outs := payment_outputs sender (pt_outputs p) in
  get_str_param params 0 = Some raw -> hex_decode raw = Some b ->
  starts_with SIGNED_INTENT_PREFIX (if is_utf8 b then of_bytes b else ""%string) = false ->
  from_hex_with_hrp raw (bech32_hrp chain_id) = Ok p -> decode_near_function_call p = None ->
  ks_get (ws_keystore (ss_wallet s)) sender = Some en -> entry_ok chain_id sender en ->
  id_wf sender -> Forall output_ok outs ->
  let '(s', r) := run_command (handle_sendrawtransaction call json_from_str params) s in
  exists pk n k refused, public_key_uncompressed_bytes en = Ok pk /\ paid s s' sender pk n k refused outs /\
    (chain_nonces_ok -> cache_ok s sender -> default 0 (ss_nonce_cache s !! sender) < n) /\
    (forall j, r = OkResponse j -> j = JStr (pt_txid p) /\ refused = false /\ (length outs <= k)%nat) /\
    (node_up -> node_accepts -> outs <> [] -> is_Some (checked_sum_satoshis (map out_amount_satoshis outs)) ->
     r = OkResponse (JStr (pt_txid p))).
Proof.
  intros chain_id sender outs Hraw Hb Hpre Hp Hf Hk (sk & Hsk & Hv & Hen & _) Hs Ho.
  assert (Hrun : run_command (handle_sendrawtransaction call json_from_str params) s = run_command (send_bitcoin_tx call raw) s).
  { unfold handle_sendrawtransaction, run_command, bind at 1. rewrite Hraw. cbn [some_or_answer]. unfold ret at 1.
    unfold bind at 1. rewrite Hb. cbn [some_or_answer]. unfold ret at 1. by rewrite Hpre. }
  rewrite Hrun. rewrite Hen in Hk.
  pose proof (send_bitcoin_tx_spec raw p (private_key_hex en) sk s Hp Hf Hk Hsk Hv Hs Ho) as H.
  destruct (run_command (send_bitcoin_tx call raw) s) as [s' r]. destruct H as (n & k & refused & H).
  exists (drop 1 (secp_uncompressed sk)), n, k, refused. split; [|exact H]. rewrite Hen.
  by apply (entry_keys (private_key_hex en) sk Hsk Hv).
Qed.

(* ------------------------------------------------------------------ *)
(** ** Nonces *)

(** The signer and the nonce at the front of a transaction. *)
Definition nonce_of (text : string) : option (string * Z) :=
  match b64_std_decode text with
  | None => None
  | Some bytes =>
      match dec (pair_c account_id_c (pair_c public_key_c u64_c)) bytes with
      | Some ((a, (_, n)), _) => Some (a, n)
      | None => None
      end
  end.

Lemma signed_nonce b sk text :
  sign_and_encode b64_std_encode secp_sign b sk = Ok text -> id_wf (nb_signer_id b) ->
  length (nb_public_key_uncompressed b) = 64%nat -> is_u u64_max (nb_nonce b) -> bytes_ok (borsh_serialize_tx b) ->
  secp_valid sk = true -> nonce_of text = Some (nb_signer_id b, nb_nonce b).
Proof.
  intros Ht Hid Hpk Hn Hb Hv. unfold sign_and_encode in Ht. destruct (nb_actions b); [done|].
  destruct (length (sha256 (borsh_serialize_tx b)) =? 32)%nat; [|done]. cbn [negb] in Ht.
  pose proof (secp_signs sk Hv (sha256 (borsh_serialize_tx b))) as Hsig.
  destruct (secp_sign sk (sha256 (borsh_serialize_tx b))) as [rec_id sig]. destruct Hsig as (Hr & Hlen & Hsb & _).
  injection Ht as <-. unfold nonce_of. rewrite Z.mod_small by lia. rewrite b64_std_round.
  2:{ apply Forall_app; split; [done|]. apply Forall_cons; split; [unfold is_byte; lia|]. apply Forall_app; split; [done|].
      apply Forall_singleton. unfold is_byte. lia. }
  rewrite serialize_split, <- !app_assoc.
  assert (Hrt : round_trip (pair_c account_id_c (pair_c public_key_c u64_c))
    (fun x => id_wf x.1 /\ key_wf x.2.1 /\ is_u u64_max x.2.2)).
  { apply (pair_rt _ _ _ (fun x => key_wf x.1 /\ is_u u64_max x.2)); [apply account_id_rt|].
    apply pair_rt; [apply public_key_rt|apply u64_rt]. }
  match goal with |- context [dec _ (?x ++ ?y ++ ?z ++ ?rest)] =>
    specialize (Hrt (nb_signer_id b, (SECP256K1 (nb_public_key_uncompressed b), nb_nonce b)) rest (conj Hid (conj Hpk Hn)));
    change (enc _ (nb_signer_id b, _)) with (x ++ y ++ z) in Hrt end.
  rewrite <- !app_assoc in Hrt. by rewrite Hrt.
Qed.

Lemma transfer_text_nonce sender g sk nonce receiver sat :
  signer_ok g sk -> id_wf sender -> is_u u64_max nonce ->
  exists text, transfer_text sender g nonce receiver sat = Ok text /\ nonce_of text = Some (sender, nonce).
Proof.
  intros [Hsk Hv Hpk Hh Hhb] Hs Hn. destruct (secp_public sk Hv) as (pk & Ep & Hpl & Hpb).
  assert (Hpk1 : drop 1 (secp_uncompressed sk) = pk) by (by rewrite Ep).
  unfold transfer_text, transfer_sign_and_encode. cbn [ntp_signer_id ntp_public_key_uncompressed ntp_nonce ntp_receiver_id
    ntp_block_hash ntp_deposit]. rewrite Hsk, Hpk, Hpk1. set (b := add_action _ _).
  destruct (sign_and_encode b64_std_encode secp_sign b sk) as [text|e|] eqn:Et.
  - exists text. split; [done|]. apply (signed_nonce b sk text); try done.
    unfold borsh_serialize_tx, b. cbn [nb_signer_id nb_public_key_uncompressed nb_nonce nb_receiver_id nb_block_hash
      nb_actions add_action builder_new app fold_left]. unfold borsh_write_string.
    repeat (apply Forall_app; split); try apply le_enc_ok; try apply as_bytes_ok; try done; try apply Forall_nil; try done.
    all: repeat (apply Forall_cons; split); try apply le_enc_ok; try (unfold is_byte; lia); try apply Forall_nil; done.
  - exfalso. unfold sign_and_encode, b in Et. cbn [nb_actions add_action builder_new app] in Et.
    rewrite sha256_len in Et. by destruct (secp_sign sk _).
  - exfalso. unfold sign_and_encode, b in Et. cbn [nb_actions add_action builder_new app] in Et.
    rewrite sha256_len in Et. by destruct (secp_sign sk _).
Qed.

(** The signers and nonces of the acknowledged texts. *)
Definition acknowledged (l : list (string * bool)) : list (string * Z) :=
  omap (fun p : string * bool => if p.2 then nonce_of p.1 else None) l.

(** Every text is above the nonces that its signer had acknowledged when it was posted. *)
Definition posted_above (l : list (string * bool)) : Prop :=
  forall l1 text ok l2 a n n', l = l1 ++ (text, ok) :: l2 -> nonce_of text = Some (a, n) ->
  (a, n') ∈ acknowledged l1 -> n' < n.

(** The cache is above the nonces acknowledged, and below the bound [m] of the chain's nonces
    plus the number of texts. *)
Definition nonce_inv (m : Z) (s : SendState) : Prop :=
  posted_above (ss_sent s) /\
  (forall a n, (a, n) ∈ acknowledged (ss_sent s) -> n <= default 0 (ss_nonce_cache s !! a)) /\
  (forall a, 0 <= default 0 (ss_nonce_cache s !! a) <= m + vec_len (ss_sent s)).

Lemma quiet_inv m s s' : quiet s s' -> nonce_inv m s -> nonce_inv m s'.
Proof. by intros [i ->]. Qed.

Lemma posted_snoc l text ok a n :
  posted_above l -> nonce_of text = Some (a, n) -> (forall n', (a, n') ∈ acknowledged l -> n' < n) ->
  posted_above (l ++ [(text, ok)]).
Proof.
  intros Hp Ht Hn l1 t b l2 x y n' E Hx. destruct l2 as [|q l2 _] using rev_ind.
  - apply app_inj_tail in E as [<- E]. assert (t = text) as -> by congruence.
    rewrite Ht in Hx. injection Hx as <- <-. apply Hn.
  - rewrite app_comm_cons, app_assoc in E. apply app_inj_tail in E as [-> _]. by apply (Hp l1 t b l2).
Qed.

Lemma acknowledged_snoc l text ok a n :
  nonce_of text = Some (a, n) -> acknowledged (l ++ [(text, ok)]) = acknowledged l ++ (if ok then [(a, n)] else []).
Proof. intros Ht. unfold acknowledged. rewrite omap_app. f_equal. cbn. destruct ok; [by rewrite Ht|done]. Qed.

(** Acknowledged nonces are distinct. *)
Lemma posted_NoDup l : posted_above l -> NoDup (acknowledged l).
Proof.
  induction l as [|[t b] l IH] using rev_ind; intros Hp; [constructor|].
  assert (Hl : posted_above l).
  { intros l1 x ok l2 a n n' -> Hx. apply (Hp l1 x ok (l2 ++ [(t, b)])); [by rewrite <- app_assoc|done]. }
  unfold acknowledged. rewrite omap_app. cbn. destruct b; cbn; [|rewrite app_nil_r; by apply IH].
  destruct (nonce_of t) as [[a n]|] eqn:Et; [|rewrite app_nil_r; by apply IH].
  apply NoDup_app. split; [by apply IH|]. split; [|apply NoDup_singleton].
  intros [x y] Hx Hy%list_elem_of_singleton. injection Hy as -> ->.
  specialize (Hp l t true [] a n n eq_refl Et Hx). lia.
Qed.

(** A text with a fresh nonce that is refused, and one that is acknowledged and recorded. *)
Lemma log_refused m s text a n i :
  nonce_inv m s -> nonce_of text = Some (a, n) -> default 0 (ss_nonce_cache s !! a) < n ->
  nonce_inv m (mkSendState (ss_wallet s) (ss_nonce_cache s) (ss_tx_cache s) i (ss_sent s ++ [(text, false)])).
Proof.
  intros (Hp & Hle & Hb) Ht Hn. unfold nonce_inv. cbn [ss_sent ss_nonce_cache].
  rewrite (acknowledged_snoc _ text false a n Ht), app_nil_r. split_and!; [|done|].
  - eapply posted_snoc; [done|exact Ht|]. intros n' Hx%Hle. lia.
  - intros x. unfold vec_len in *. rewrite length_app. cbn [length]. specialize (Hb x). lia.
Qed.

Lemma log_record m s text a n i :
  nonce_inv m s -> nonce_of text = Some (a, n) ->
  default 0 (ss_nonce_cache s !! a) < n <= m + vec_len (ss_sent s) + 1 ->
  nonce_inv m (mkSendState (ss_wallet s) (<[a := n]> (ss_nonce_cache s)) (ss_tx_cache s) i (ss_sent s ++ [(text, true)])).
Proof.
  intros (Hp & Hle & Hb) Ht Hn. unfold nonce_inv. cbn [ss_sent ss_nonce_cache].
  rewrite (acknowledged_snoc _ text true a n Ht). split_and!.
  - eapply posted_snoc; [done|exact Ht|]. intros n' Hx%Hle. lia.
  - intros x y [Hx|Hx%list_elem_of_singleton]%elem_of_app.
    + apply Hle in Hx. destruct (decide (a = x)) as [->|Hne]; [rewrite lookup_insert_eq; simpl; lia|].
      by rewrite lookup_insert_ne.
    + injection Hx as -> ->. rewrite lookup_insert_eq. simpl. lia.
  - intros x. unfold vec_len. rewrite length_app. cbn [length]. specialize (Hb x) as Hbx. specialize (Hb a).
    unfold vec_len in *. destruct (decide (a = x)) as [->|Hne]; [rewrite lookup_insert_eq; simpl; lia|].
    rewrite lookup_insert_ne by done. lia.
Qed.

Lemma submit_cons sender g n o outs hashes s text :
  transfer_text sender g n (out_address o) (out_amount_satoshis o) = Ok text ->
  submit_transfers call sender g n (o :: outs) hashes s =
  match send_tx_async call (ss_requests s) text with
  | Ok h => submit_transfers call sender g (wrapping_add u64_max n 1) outs (hashes ++ [h])
      (mkSendState (ss_wallet s) (<[sender := n]> (ss_nonce_cache s)) (ss_tx_cache s) (S (ss_requests s)) (ss_sent s ++ [(text, true)]))
  | Err e => (log_sent (tick s) text false, inr (ErrResponse (-25) (Msg ("Transaction submission failed for output to {}: " +:+ msg_template e)
                                               (FS (out_address o) :: msg_args e))))
  | Panic => (log_sent (tick s) text false, inr Panicked)
  end.
Proof.
  intros Et. cbn [submit_transfers]. rewrite Et. unfold send_text, ok_or_answer, bind, ret, request, modify, answer. cbn.
  by destruct (send_tx_async call (ss_requests s) text).
Qed.

Lemma submit_frame sender g outs : forall n hashes s,
  let s' := (submit_transfers call sender g n outs hashes s).1 in
  vec_len (ss_sent s) <= vec_len (ss_sent s') /\ ss_wallet s' = ss_wallet s.
Proof.
  induction outs as [|o outs IH]; intros n hashes s; [done|].
  destruct (transfer_text sender g n (out_address o) (out_amount_satoshis o)) as [text|e|] eqn:Et.
  - rewrite (submit_cons _ _ _ _ _ _ _ text) by done.
    destruct (send_tx_async call (ss_requests s) text) as [h|e|];
      [|split; [unfold vec_len; cbn; rewrite length_app; lia|done]..].
    match goal with |- context [submit_transfers call sender g ?m outs ?hs ?s1] => specialize (IH m hs s1) end.
    destruct IH as [H1 H2]. cbv zeta. split; [|done]. etransitivity; [|exact H1].
    unfold vec_len. cbn [ss_sent]. rewrite length_app. lia.
  - cbn [submit_transfers]. rewrite Et. done.
  - cbn [submit_transfers]. rewrite Et. done.
Qed.

Lemma submit_nonces m sender g sk outs : forall n hashes s,
  signer_ok g sk -> id_wf sender -> is_u u64_max n -> nonce_inv m s ->
  default 0 (ss_nonce_cache s !! sender) < n <= m + vec_len (ss_sent s) + 1 ->
  let s' := (submit_transfers call sender g n outs hashes s).1 in
  vec_len (ss_sent s) <= vec_len (ss_sent s') /\ ss_wallet s' = ss_wallet s /\
  (m + vec_len (ss_sent s') < u64_max -> nonce_inv m s').
Proof.
  induction outs as [|o outs IH]; intros n hashes s Hg Hs Hu Hinv Hn; [by cbn|].
  destruct (transfer_text_nonce sender g sk n (out_address o) (out_amount_satoshis o)) as (text & Et & Hnonce); [done..|].
  rewrite (submit_cons _ _ _ _ _ _ _ text) by done.
  pose proof (log_refused m s text sender n (S (ss_requests s)) Hinv Hnonce ltac:(lia)) as Hinv0.
  destruct (send_tx_async call (ss_requests s) text) as [h|e|] eqn:Esend;
    [|cbn -[nonce_inv]; split; [unfold vec_len; rewrite length_app; lia|done]..].
  clear Hinv0. pose proof (log_record m s text sender n (S (ss_requests s)) Hinv Hnonce Hn) as Hinv1.
  set (s1 := mkSendState _ _ _ _ _) in *.
  assert (Hl1 : vec_len (ss_sent s1) = vec_len (ss_sent s) + 1)
    by (unfold vec_len, s1; cbn [ss_sent]; rewrite length_app; cbn [length]; lia).
  assert (Hc1 : default 0 (ss_nonce_cache s1 !! sender) = n)
    by (unfold s1; cbn [ss_nonce_cache]; by rewrite lookup_insert_eq).
  destruct (Z.eq_dec n u64_max) as [Hmax|Hmax].
  - destruct (submit_frame sender g outs (wrapping_add u64_max n 1) (hashes ++ [h]) s1) as [H1 H2].
    cbv zeta. rewrite H2. split_and!; [lia|done|lia].
  - assert (Hw : wrapping_add u64_max n 1 = n + 1) by (apply wrapping_next; unfold is_u in Hu; lia).
    rewrite Hw. destruct (IH (n + 1) (hashes ++ [h]) s1) as (H1 & H2 & H3); try done.
    { unfold is_u in *. lia. }
    { rewrite Hc1, Hl1. lia. }
    cbv zeta in *. split_and!; [lia|by rewrite H2|done].
Qed.

(** The nonces and heights that the node reports stay below [m]. *)
Definition chain_bounded (m : Z) : Prop :=
  (forall i a k j, view_access_key call i a k = Ok j -> default 0 (get_u64 j "nonce") <= m) /\
  (forall i st, status call i = Ok st -> bitcoin_first_tx_nonce_floor (st_latest_block_height st) <= m).

Lemma next_nonce_upper m c a k s n s' :
  chain_bounded m -> 0 <= m -> default 0 (ss_nonce_cache s !! a) <= c -> 0 <= default 0 (ss_nonce_cache s !! a) ->
  m <= c < u64_max -> next_nonce call a k s = (s', inl n) -> n <= c + 1.
Proof.
  intros [Hk Hst] Hm Hc H0 Hmc. unfold next_nonce, bind, gets, request, ret. cbn [fst snd].
  assert (Hle : forall x, 0 <= x <= m -> wrapping_add u64_max (Z.max (default 0 (ss_nonce_cache s !! a)) x) 1 <= c + 1).
  { intros x Hx. rewrite wrapping_next; lia. }
  destruct (view_access_key call (ss_requests s) a k) as [j|e|] eqn:Ej; intros [= _ <-].
  - apply Hle. pose proof (get_u64_range j "nonce") as [H3 _]. specialize (Hk _ _ _ _ Ej). done.
  - apply Hle. cbn [ss_requests tick]. destruct (status call _) as [st|?|] eqn:Es; [|lia..].
    destruct (status_height _ _ Es) as [Hh _]. destruct (floor_u64 _ Hh) as [_ F2]. apply Hst in Es.
    unfold saturating_sub. lia.
  - apply Hle. cbn [ss_requests tick]. destruct (status call _) as [st|?|] eqn:Es; [|lia..].
    destruct (status_height _ _ Es) as [Hh _]. destruct (floor_u64 _ Hh) as [_ F2]. apply Hst in Es.
    unfold saturating_sub. lia.
Qed.

Lemma prepare_nonce ke se m a h sk s g s' :
  hex_decode h = Some sk -> secp_valid sk = true ->
  chain_bounded m -> 0 <= m -> nonce_inv m s -> m + vec_len (ss_sent s) < u64_max ->
  prepare_signer call ke se a (entry_of h sk) s = (s', inl g) ->
  quiet s s' /\ signer_ok g sk /\ is_u u64_max (sg_nonce g) /\
  default 0 (ss_nonce_cache s !! a) < sg_nonce g <= m + vec_len (ss_sent s) + 1.
Proof.
  intros Hh Hv Hch Hm Hinv Hroom Hp. pose proof (prepare_spec ke se a h sk s Hh Hv) as Hspec. rewrite Hp in Hspec.
  destruct Hspec as (Hq & _ & Hg & Hu & Hgt). destruct Hinv as (_ & _ & Hb). specialize (Hb a).
  assert (0 <= vec_len (ss_sent s)) by (unfold vec_len; lia).
  assert (Hlow : default 0 (ss_nonce_cache s !! a) < sg_nonce g).
  { apply Hgt; [|split; lia]. intros i x k j Hj. apply Hch in Hj. lia. }
  split_and!; try done. unfold prepare_signer, bind at 1, request at 1 in Hp. cbn [fst snd] in Hp.
  destruct (status call (ss_requests s)) as [st|e|] eqn:Es; [|done..].
  cbn [ok_or_answer] in Hp. unfold bind at 1, ret at 1 in Hp.
  destruct (decode_block_hash (st_latest_block_hash st)) as [bh|e|]; [|done..].
  cbn [ok_or_answer] in Hp. unfold bind at 1, ret at 1 in Hp.
  destruct (near_public_key_string (entry_of h sk)) as [ks|e|]; [|done..].
  cbn [ok_or_answer] in Hp. unfold bind at 1, ret at 1 in Hp. unfold bind at 1 in Hp.
  destruct (next_nonce call a ks (tick s)) as [s1 [n|r]] eqn:En; [|done].
  destruct (entry_keys h sk Hh Hv) as [Hpriv Hpub]. rewrite Hpriv, Hpub in Hp.
  cbn [ok_or_answer] in Hp. unfold bind, ret in Hp. rewrite Hv in Hp. injection Hp as _ <-. cbn [sg_nonce].
  assert (Hn : n <= m + vec_len (ss_sent s) + 1).
  { eapply (next_nonce_upper m _ a ks (tick s)); [done|done| | | |exact En]; cbn [ss_nonce_cache tick]; lia. }
  apply (proj2 Hch) in Es. unfold normalize_nonce_for_first_bitcoin_tx. lia.
Qed.
End sending.

(* ------------------------------------------------------------------ *)
(** ** Sequences of commands *)

(** The node's log only grows, and the wallet stays. *)
Definition mono {A : Type} (c : M A) : Prop := forall s,
  vec_len (ss_sent s) <= vec_len (ss_sent (c s).1) /\ ss_wallet (c s).1 = ss_wallet s.

Lemma mono_ret {A} (x : A) : mono (ret x).
Proof. done. Qed.
Lemma mono_answer {A} r : mono (A := A) (answer r).
Proof. done. Qed.
Lemma mono_gets {A} (f : SendState -> A) : mono (gets f).
Proof. done. Qed.
Lemma mono_request {A} (f : nat -> A) : mono (request f).
Proof. done. Qed.
Lemma mono_record a n : mono (record_nonce a n).
Proof. done. Qed.
Lemma mono_txs f : mono (modify (fun s => set_txs s (f s))).
Proof. done. Qed.
Lemma mono_bind {A A'} (c : M A) (k : A -> M A') : mono c -> (forall x, mono (k x)) -> mono (bind c k).
Proof.
  intros Hc Hk s. unfold bind. specialize (Hc s). destruct (c s) as [s1 [x|r]]; [|done]. cbn [fst] in Hc.
  destruct (Hk x s1) as [H1 H2]. split; [lia|]. by rewrite H2, (proj2 Hc).
Qed.
Lemma mono_ok_or {A} (r : result A message) code prefix : mono (ok_or_answer r code prefix).
Proof. by destruct r. Qed.
Lemma mono_some_or {A} (x : option A) r : mono (some_or_answer x r).
Proof. by destruct x. Qed.
Lemma mono_log text b : mono (modify (fun s => log_sent s text b)).
Proof. intros s. cbn. unfold vec_len. rewrite length_app. split; [lia|done]. Qed.

Create HintDb mono.
#[export] Hint Resolve mono_ret mono_answer mono_gets mono_request mono_record mono_txs mono_bind mono_ok_or
  mono_some_or mono_log : mono.

(** Every primitive is monotone; tests are split. *)
Ltac solve_mono :=
  repeat first
    [ done
    | apply mono_bind; [|intros ?]
    | solve [eauto with mono]
    | progress cbv zeta
    | match goal with |- mono (match ?x with _ => _ end) => destruct x end ].

Section runs.
Context {C : Crates} {R : RpcCrates} {B : BitcoinCrate} {L : RpcLaws C R} {HL : HashLaws C} {SL : SignLaws C R}.
Variable call : nat -> string -> Json -> result Json message.
Variable json_from_str : string -> option Json.
Variable key_order : gmap string KeyEntry -> list string.
#[local] Set Default Proof Using "All".

Lemma mono_send_text text : mono (send_text call text).
Proof. unfold send_text. solve_mono. Qed.
Lemma mono_next_nonce a k : mono (next_nonce call a k).
Proof. unfold next_nonce. solve_mono. Qed.
Lemma mono_submit sender g n outs hashes : mono (submit_transfers call sender g n outs hashes).
Proof. intros s. apply (submit_frame call json_from_str). Qed.
#[local] Hint Resolve mono_send_text mono_next_nonce mono_submit : mono.
Lemma mono_prepare ke se a en : mono (prepare_signer call ke se a en).
Proof. unfold prepare_signer. solve_mono. Qed.
#[local] Hint Resolve mono_prepare : mono.
Lemma mono_find_sender ks l n : mono (find_sender call ks l n).
Proof. induction l; cbn [find_sender]; solve_mono. Qed.
#[local] Hint Resolve mono_find_sender : mono.
Lemma mono_send_bitcoin_tx raw : mono (send_bitcoin_tx call raw).
Proof. unfold send_bitcoin_tx, send_function_call. solve_mono. Qed.
Lemma mono_sendtoaddress now params : mono (handle_sendtoaddress call key_order now params).
Proof. unfold handle_sendtoaddress, guard_wallet. solve_mono. Qed.

(** Every key of the wallet can sign for its address. *)
Definition wallet_signs (w : WalletState) : Prop := forall a en,
  ks_get (ws_keystore w) a = Some en -> entry_ok (ws_chain_id w) a en /\ id_wf a.

Lemma call_text_nonce sender g sk f deposit text :
  signer_ok g sk -> id_wf sender -> is_u u64_max (sg_nonce g) ->
  call_sign_and_encode b64_std_encode secp_sign
    {| nfp_signer_id := sender; nfp_public_key_uncompressed := sg_public_key g; nfp_nonce := sg_nonce g;
       nfp_receiver_id := nf_contract_id f; nfp_block_hash := sg_block_hash g; nfp_method_name := nf_method_name f;
       nfp_args := default [] (b64_std_decode (nf_args_base64 f)); nfp_gas := 300000000000000; nfp_deposit := deposit |}
    (sg_secret_key g) = Ok text -> nonce_of text = Some (sender, sg_nonce g).
Proof.
  intros [Hsk Hv Hpk Hh Hhb] Hs Hn Ht. destruct (secp_public sk Hv) as (pk & Ep & Hpl & Hpb).
  assert (Hpk1 : sg_public_key g = pk) by (by rewrite Hpk, Ep). rewrite Hsk, Hpk1 in Ht.
  apply (signed_nonce call json_from_str _ sk text Ht); try done.
  assert (Ha : bytes_ok (default [] (b64_std_decode (nf_args_base64 f)))).
  { destruct (b64_std_decode _) eqn:E; [by apply b64_decode_bytes in E|apply Forall_nil; done]. }
  unfold borsh_serialize_tx. cbn [nb_signer_id nb_public_key_uncompressed nb_nonce nb_receiver_id nb_block_hash
    nb_actions add_action builder_new app fold_left nfp_signer_id nfp_public_key_uncompressed nfp_nonce nfp_receiver_id
    nfp_block_hash nfp_method_name nfp_args nfp_gas nfp_deposit].
  unfold NearAction.function_call, borsh_write_string.
  repeat (apply Forall_app; split); try apply le_enc_ok; try apply as_bytes_ok; try done.
  all: try apply Forall_singleton; try (apply Forall_nil; exact I); unfold is_byte, NearAction.FUNCTION_CALL; lia.
Qed.

(** A text with a fresh nonce, sent and recorded. *)
Lemma send_record_inv m s text a n (k : string -> M Response) (bad : message -> Response) :
  nonce_inv m s -> nonce_of text = Some (a, n) ->
  default 0 (ss_nonce_cache s !! a) < n <= m + vec_len (ss_sent s) + 1 ->
  (forall h s1, nonce_inv m s1 -> nonce_inv m (k h s1).1) ->
  nonce_inv m ((let! r := send_text call text in
    let! h := match r with Ok h => ret h | Err e => answer (bad e) | Panic => answer Panicked end in
    let! _ := record_nonce a n in k h) s).1.
Proof.
  intros Hinv Ht Hn Hk. unfold bind, send_text, request, modify, ret, bind. cbn [fst snd].
  destruct (send_tx_async call (ss_requests s) text) as [h|e|]; cbn -[nonce_inv].
  2, 3: by apply (log_refused call json_from_str m s text a n (S (ss_requests s))); try lia.
  apply Hk. by apply (log_record call json_from_str m s text a n (S (ss_requests s))).
Qed.

Lemma set_txs_inv m s t : nonce_inv m s -> nonce_inv m (set_txs s t).
Proof. done. Qed.

(** From the keystore's entry to the signer. *)
Lemma prepared_signer m ke se a en s (k : Signer -> M Response) :
  wallet_signs (ss_wallet s) -> ks_get (ws_keystore (ss_wallet s)) a = Some en ->
  chain_bounded call m -> 0 <= m -> nonce_inv m s -> m + vec_len (ss_sent s) < u64_max ->
  (forall g sk s1, quiet s s1 -> signer_ok g sk -> id_wf a -> is_u u64_max (sg_nonce g) ->
     default 0 (ss_nonce_cache s1 !! a) < sg_nonce g <= m + vec_len (ss_sent s1) + 1 -> nonce_inv m s1 ->
     m + vec_len (ss_sent (k g s1).1) < u64_max -> nonce_inv m (k g s1).1) ->
  m + vec_len (ss_sent ((let! g := prepare_signer call ke se a en in k g) s).1) < u64_max ->
  nonce_inv m ((let! g := prepare_signer call ke se a en in k g) s).1.
Proof.
  intros Hw Hen Hch Hm Hinv Hroom Hk. destruct (Hw a en Hen) as [(sk & Hsk & Hv & He & _) Hid]. rewrite He.
  unfold bind. destruct (prepare_signer call ke se a (entry_of (private_key_hex en) sk) s) as [s1 [g|r]] eqn:Ep.
  - destruct (prepare_nonce call json_from_str ke se m a _ sk s g s1 Hsk Hv Hch Hm Hinv Hroom Ep) as (Hq & Hg & Hu & Hn).
    apply (Hk g sk s1); try done; [|by eapply quiet_inv]. destruct Hq as [i ->]. done.
  - intros _. pose proof (prepare_spec call json_from_str ke se a (private_key_hex en) sk s Hsk Hv) as Hp. rewrite Ep in Hp.
    exact (quiet_inv call json_from_str m s s1 (proj1 Hp) Hinv).
Qed.

(** The invariant after a command that leaves room for nonces. *)
Definition good {A : Type} (m : Z) (c : M A) (s : SendState) : Prop :=
  m + vec_len (ss_sent (c s).1) < u64_max -> nonce_inv m (c s).1.

Lemma good_gets {A A'} m (f : SendState -> A) (k : A -> M A') s : good m (k (f s)) s -> good m (bind (gets f) k) s.
Proof. done. Qed.
Lemma good_ret {A A'} m (x : A) (k : A -> M A') s : good m (k x) s -> good m (bind (ret x) k) s.
Proof. done. Qed.
Lemma good_answer {A A'} m r (k : A -> M A') s : nonce_inv m s -> good m (bind (answer r) k) s.
Proof. by intros H _. Qed.
Lemma good_some {A A'} m (x : option A) r (k : A -> M A') s :
  nonce_inv m s -> (forall y, x = Some y -> good m (k y) s) -> good m (bind (some_or_answer x r) k) s.
Proof. intros H Hk. destruct x; [by apply Hk|by intros _]. Qed.
Lemma good_ok {A A'} m (x : result A message) code prefix (k : A -> M A') s :
  nonce_inv m s -> (forall y, x = Ok y -> good m (k y) s) -> good m (bind (ok_or_answer x code prefix) k) s.
Proof. intros H Hk. destruct x; [by apply Hk|by intros _..]. Qed.

Lemma send_bitcoin_tx_nonces m raw s :
  wallet_signs (ss_wallet s) -> chain_bounded call m -> 0 <= m -> nonce_inv m s ->
  m + vec_len (ss_sent s) < u64_max -> good m (send_bitcoin_tx call raw) s.
Proof.
  intros Hw Hch Hm Hinv Hroom. unfold send_bitcoin_tx. apply good_gets, good_ok; [done|]. intros p Hp. cbv zeta.
  set (sender := pt_sender_address p). set (outs := payment_outputs sender (pt_outputs p)).
  assert (Hgo : good m (let! total_sat := some_or_answer (checked_sum_satoshis (map out_amount_satoshis outs))
      (ErrResponse (-22) (lit "Transaction output total overflow")) in
    let! keystore := gets (fun s => ws_keystore (ss_wallet s)) in
    let! key_entry := some_or_answer (ks_get keystore sender)
      (ErrResponse (-4) (Msg "No private key found for address {}. Use getnewaddress to generate a key, or importprivkey to import one." [FS sender])) in
    let! g := prepare_signer call "Invalid public key: " "Invalid secret key: " sender key_entry in
    match decode_near_function_call p with
    | Some f => send_function_call call raw (pt_txid p) sender g total_sat f
    | None =>
        let! near_tx_hashes := submit_transfers call sender g (sg_nonce g) outs [] in
        let primary_hash := hd ""%string near_tx_hashes in
        let! _ := modify (fun s => set_txs s (tx_cache_insert (ss_tx_cache s) (pt_txid p) primary_hash raw sender)) in
        ret (OkResponse (JStr (pt_txid p)))
    end) s).
  { apply good_some; [done|]. intros total Ht. apply good_gets, good_some; [done|]. intros en Hen.
    unfold good. apply (prepared_signer m _ _ sender en); try done.
    intros g sk s1 Hq Hg Hid Hu Hn Hinv1. destruct (decode_near_function_call p) as [f|].
    - unfold send_function_call. cbv zeta. apply good_ok; [done|]. intros text Ht' _.
      apply (send_record_inv m s1 text sender (sg_nonce g) _ (fun e => ErrResponse (-25) (wrap "Transaction submission failed: " e)));
        try done. by eapply call_text_nonce.
    - unfold bind. pose proof (submit_nonces call json_from_str m sender g sk outs (sg_nonce g) [] s1 Hg Hid Hu Hinv1 Hn) as Hsub.
      destruct (submit_transfers call sender g (sg_nonce g) outs [] s1) as [s2 [hs|r]]; cbn [fst] in Hsub;
        destruct Hsub as (_ & _ & Hsub); cbn -[nonce_inv]; exact Hsub. }
  destruct outs, (decode_near_function_call p); try (apply good_ret; exact Hgo). by apply good_answer.
Qed.

Lemma find_sender_quiet ks l n : forall s, exists r s', find_sender call ks l n s = (s', inl r) /\ quiet s s' /\
  (forall a en, r = Some (a, en) -> ks_get ks a = Some en).
Proof.
  induction l as [|a l IH]; intros s; cbn [find_sender].
  { exists None, s. split; [done|]. split; [apply (quiet_refl call json_from_str)|done]. }
  unfold bind at 1, request at 1. cbn [fst snd].
  assert (Hgo : exists r s', find_sender call ks l n (tick s) = (s', inl r) /\ quiet s s' /\
    (forall a en, r = Some (a, en) -> ks_get ks a = Some en)).
  { destruct (IH (tick s)) as (r & s' & H1 & [i ->] & H3). eexists r, _. split; [exact H1|]. split; [by eexists|done]. }
  destruct (view_account call (ss_requests s) a) as [v|e|]; try exact Hgo.
  destruct (n <=? balance_as_satoshis v); [|exact Hgo]. destruct (ks_get ks a) as [en|] eqn:E; [|exact Hgo].
  exists (Some (a, en)), (tick s). split; [done|]. split; [by eexists|]. by intros ? ? [= <- <-].
Qed.

Lemma good_step {A A'} m (c : M A) (k : A -> M A') s :
  match c s with (s1, inl x) => good m (k x) s1 | (s1, inr _) => nonce_inv m s1 end -> good m (bind c k) s.
Proof. unfold good, bind. destruct (c s) as [s1 [x|r]]; [done|by intros H _]. Qed.

Lemma sendtoaddress_nonces m now params s :
  wallet_signs (ss_wallet s) -> chain_bounded call m -> 0 <= m -> nonce_inv m s ->
  m + vec_len (ss_sent s) < u64_max -> good m (handle_sendtoaddress call key_order now params) s.
Proof.
  intros Hw Hch Hm Hinv Hroom. unfold handle_sendtoaddress.
  apply good_step. unfold guard_wallet, bind at 1, gets at 1.
  destruct (ws_loaded (ss_wallet s)); [|exact Hinv]. destruct (is_wallet_unlocked (ss_wallet s) now); [|exact Hinv].
  cbn [negb ret]. apply good_some; [done|]. intros recipient Hr. cbv zeta. apply good_some; [done|]. intros sat Hs.
  destruct (checked_sub sat _) as [sats|]; [|by apply good_answer]. destruct (0 <? sats); [|by apply good_answer].
  apply good_ret, good_gets, good_step.
  destruct (find_sender_quiet (ws_keystore (ss_wallet s)) (key_order (ks_keys (ws_keystore (ss_wallet s)))) sat s)
    as (r & s' & -> & [i ->] & Hfound). set (s0 := mkSendState _ _ _ _ _). change (nonce_inv m s0) in Hinv.
  apply good_some; [done|]. intros [sender en] ->. specialize (Hfound _ _ eq_refl).
  unfold good. apply (prepared_signer m _ _ sender en); try done.
  intros g sk s1 Hq Hg Hid Hu Hn Hinv1. apply good_ok; [done|]. intros text Ht _.
  destruct (transfer_text_nonce call json_from_str sender g sk (sg_nonce g) recipient sats) as (t & Et & Hnon); [done..|].
  rewrite Ht in Et. injection Et as <-.
  apply (send_record_inv m s1 text sender (sg_nonce g) _ (fun e => ErrResponse (-25) (wrap "Transaction failed: " e))); done.
Qed.

(** The commands that send with keys of the wallet. *)
Inductive SendCommand : Type :=
| SendRaw (params : Json)
| SendTo (now : Z) (params : Json).

Definition send_exec (s : SendState) (c : SendCommand) : SendState :=
  match c with
  | SendRaw params => (run_command (handle_sendrawtransaction call json_from_str params) s).1
  | SendTo now params => (run_command (handle_sendtoaddress call key_order now params) s).1
  end.

(** A raw transaction that is not an intent signed earlier. *)
Definition not_intent (c : SendCommand) : bool :=
  match c with
  | SendRaw params =>
      match get_str_param params 0 ≫= hex_decode with
      | Some b => negb (starts_with SIGNED_INTENT_PREFIX (if is_utf8 b then of_bytes b else ""%string))
      | None => true
      end
  | SendTo _ _ => true
  end.

Lemma run_command_state (c : M Response) s : (run_command c s).1 = (c s).1.
Proof. unfold run_command. by destruct (c s) as [s' [r|r]]. Qed.

Lemma exec_cases s c : not_intent c = true -> exists (cmd : M Response), (send_exec s c) = (cmd s).1 /\ mono cmd /\
  (forall m, wallet_signs (ss_wallet s) -> chain_bounded call m -> 0 <= m -> nonce_inv m s ->
   m + vec_len (ss_sent s) < u64_max -> good m cmd s).
Proof.
  destruct c as [params|now params]; cbn [send_exec not_intent]; intros Hc.
  - rewrite run_command_state. unfold handle_sendrawtransaction, bind at 1.
    destruct (get_str_param params 0) as [raw|]; cbn [some_or_answer].
    2:{ exists (answer (ErrResponse (-32602) (lit "Missing raw transaction hex"))). split; [done|]. split; [done|]. by intros * _ _ _ H _ _. }
    cbn [ret]. unfold bind at 1. cbn [mbind option_bind] in Hc. destruct (hex_decode raw) as [b|]; cbn [some_or_answer].
    2:{ exists (answer (ErrResponse (-22) (lit "TX decode failed: invalid hex: {}"))). split; [done|]. split; [done|]. by intros * _ _ _ H _ _. }
    cbn [ret]. apply negb_true_iff in Hc. rewrite Hc. exists (send_bitcoin_tx call raw). split; [done|].
    split; [apply mono_send_bitcoin_tx|]. intros m. apply send_bitcoin_tx_nonces.
  - rewrite run_command_state. eexists. split; [reflexivity|]. split; [apply mono_sendtoaddress|].
    intros m. apply sendtoaddress_nonces.
Qed.

End runs.
