(* ===== verification/SendLimits.v ===== *)
(** * What the lock and the signing command leave out (bitinfinity-btcrpc/src/main.rs)

    Commands that do not look at a part of the state give the same result whatever it is. *)

From S2P Require Import Prelude Float64 Decimal Amounts Crates AccountId Bech32 Addresses GenesisTools TxBuilder Wallet RpcToy WalletProofs Translator NearClient SendRaw SendProofs.

Local Open Scope send_scope.

(** Related states stay related, and the results are equal. *)
Definition respects {A : Type} (E : SendState -> SendState -> Prop) (c : M A) : Prop := forall s s',
  E s s' -> E (c s).1 (c s').1 /\ (c s).2 = (c s').2.

Section respects.
Context {C : Crates} {R : RpcCrates} {B : BitcoinCrate}.
Variable call : nat -> string -> Json -> result Json message.
Variable json_from_str : string -> option Json.
Variable key_order : gmap string KeyEntry -> list string.
Variable E : SendState -> SendState -> Prop.
(** The parts that the commands look at are the same, and their changes keep the relation. *)
Hypothesis E_call : forall s s', E s s' -> call (ss_requests s) = call (ss_requests s').
Hypothesis E_tick : forall s s', E s s' -> E (tick s) (tick s').
Hypothesis E_cache : forall s s', E s s' -> ss_nonce_cache s = ss_nonce_cache s'.
Hypothesis E_txs : forall s s', E s s' -> ss_tx_cache s = ss_tx_cache s'.
Hypothesis E_chain : forall s s', E s s' -> ws_chain_id (ss_wallet s) = ws_chain_id (ss_wallet s').
Hypothesis E_keys : forall s s', E s s' -> ks_keys (ws_keystore (ss_wallet s)) = ks_keys (ws_keystore (ss_wallet s')).
Hypothesis E_set_nonces : forall s s' m, E s s' -> E (set_nonces s m) (set_nonces s' m).
Hypothesis E_set_txs : forall s s' m, E s s' -> E (set_txs s m) (set_txs s' m).
Hypothesis E_log : forall s s' t b, E s s' -> E (log_sent s t b) (log_sent s' t b).
#[local] Set Default Proof Using "All".

Lemma resp_ret {A} (x : A) : respects E (ret x).
Proof. done. Qed.
Lemma resp_answer {A} r : respects E (answer (A := A) r).
Proof. done. Qed.
Lemma resp_bind {A A'} (c : M A) (k : A -> M A') : respects E c -> (forall x, respects E (k x)) -> respects E (bind c k).
Proof.
  intros Hc Hk s s' Hs. unfold bind. destruct (Hc s s' Hs) as [H1 H2].
  destruct (c s) as [s1 [x|r]], (c s') as [s1' [x'|r']]; simplify_eq/=; [by apply Hk|done].
Qed.
Lemma resp_gets {A A'} (f : SendState -> A) (k : A -> M A') :
  (forall s s', E s s' -> f s = f s') -> (forall x, respects E (k x)) -> respects E (bind (gets f) k).
Proof. intros Hf Hk s s' Hs. unfold bind, gets. rewrite (Hf s s' Hs). by apply Hk. Qed.
Lemma resp_ok_or {A} (r : result A message) code prefix : respects E (ok_or_answer r code prefix).
Proof. by destruct r. Qed.
Lemma resp_some_or {A} (x : option A) r : respects E (some_or_answer x r).
Proof. by destruct x. Qed.
Lemma resp_record a n : respects E (record_nonce a n).
Proof. intros s s' Hs. split; [|done]. unfold record_nonce, modify. cbn [fst]. rewrite (E_cache s s' Hs). auto. Qed.
Lemma resp_txs txid h raw sender :
  respects E (modify (fun s => set_txs s (tx_cache_insert (ss_tx_cache s) txid h raw sender))).
Proof. intros s s' Hs. split; [|done]. unfold modify. cbn [fst]. rewrite (E_txs s s' Hs). auto. Qed.
Lemma resp_log text b : respects E (modify (fun s => log_sent s text b)).
Proof. intros s s' Hs. split; [|done]. cbn [modify fst]. auto. Qed.
Lemma resp_request {A} (f : (string -> Json -> result Json message) -> A) : respects E (request (fun i => f (call i))).
Proof. intros s s' Hs. split; [by apply E_tick|]. cbn. by rewrite (E_call s s' Hs). Qed.
Lemma resp_status : respects E (request (fun i => status call i)).
Proof. apply (resp_request (fun c => status (fun _ => c) 0)). Qed.
Lemma resp_view_account a : respects E (request (fun i => view_account call i a)).
Proof. apply (resp_request (fun c => view_account (fun _ => c) 0 a)). Qed.
Lemma resp_view_key a k : respects E (request (fun i => view_access_key call i a k)).
Proof. apply (resp_request (fun c => view_access_key (fun _ => c) 0 a k)). Qed.
Lemma resp_send_async t : respects E (request (fun i => send_tx_async call i t)).
Proof. apply (resp_request (fun c => send_tx_async (fun _ => c) 0 t)). Qed.

Ltac solve_resp :=
  repeat first
    [ done
    | apply resp_gets; [by auto|intros ?]
    | match goal with |- respects E (bind (gets _) _) => fail 1 | |- _ => apply resp_bind; [|intros ?] end
    | apply resp_ret | apply resp_answer | apply resp_ok_or | apply resp_some_or | apply resp_record | apply resp_txs
    | apply resp_log | apply resp_status | apply resp_view_account | apply resp_view_key | apply resp_send_async
    | solve [auto]
    | progress cbv zeta
    | match goal with |- respects E (match ?x with _ => _ end) => destruct x end ].

Lemma resp_send_text t : respects E (send_text call t).
Proof. unfold send_text. solve_resp. Qed.
Lemma resp_next_nonce a k : respects E (next_nonce call a k).
Proof. unfold next_nonce. solve_resp. Qed.
#[local] Hint Resolve resp_send_text resp_next_nonce : core.
Lemma resp_prepare ke se a en : respects E (prepare_signer call ke se a en).
Proof. unfold prepare_signer. solve_resp. Qed.
Lemma resp_submit sender g outs : forall n hashes, respects E (submit_transfers call sender g n outs hashes).
Proof. induction outs; intros n hashes; cbn [submit_transfers]; solve_resp. Qed.
Lemma resp_submit_intent sender l : forall i h, respects E (submit_intent call sender i l h).
Proof. induction l; intros i h; cbn [submit_intent]; solve_resp. Qed.
Lemma resp_find_funded l n : respects E (find_funded call l n).
Proof. induction l; cbn [find_funded]; solve_resp. Qed.
#[local] Hint Resolve resp_prepare resp_submit resp_submit_intent resp_find_funded : core.

(** The keystore is read for its keys only. *)
Lemma resp_keystore {A} (k : Keystore -> M A) :
  (forall ks ks', ks_keys ks = ks_keys ks' -> k ks = k ks') -> (forall ks, respects E (k ks)) ->
  respects E (bind (gets (fun s => ws_keystore (ss_wallet s))) k).
Proof.
  intros Hk Hr s s' Hs. unfold bind, gets. rewrite (Hk _ _ (E_keys s s' Hs)). by apply Hr.
Qed.

Lemma resp_sendraw params : respects E (handle_sendrawtransaction call json_from_str params).
Proof.
  unfold handle_sendrawtransaction, send_intent, send_bitcoin_tx, send_function_call. solve_resp.
  all: apply resp_keystore; [intros ks ks' Hks; unfold ks_get; by rewrite Hks|]; intros ks; solve_resp.
Qed.

(** Signing: the lock is read as well, and the order of the keys. *)
Hypothesis E_wallet : forall s s', E s s' -> ss_wallet s = ss_wallet s'.
Variable json_to_string : Json -> string.

Lemma resp_sign_outputs sender g outs : forall i, respects E (sign_outputs sender g i outs).
Proof. induction outs; intros i; cbn [sign_outputs]; solve_resp. Qed.
Lemma resp_bump n a k : respects E (bump_nonce_cache call n a k).
Proof. induction n; cbn [bump_nonce_cache]; solve_resp. Qed.
Lemma resp_parse_outputs outs : respects E (parse_intent_outputs outs).
Proof. induction outs; cbn [parse_intent_outputs]; solve_resp. Qed.
#[local] Hint Resolve resp_sign_outputs resp_bump resp_parse_outputs : core.
Lemma resp_parse_unsigned raw : respects E (parse_unsigned call json_from_str key_order raw).
Proof.
  unfold parse_unsigned. solve_resp.
  all: apply resp_keystore; [intros ks ks' Hks; by rewrite Hks|]; intros ks; solve_resp.
Qed.
#[local] Hint Resolve resp_parse_unsigned : core.
Lemma resp_sign now params :
  respects E (handle_signrawtransactionwithwallet call json_from_str json_to_string key_order now params).
Proof.
  unfold handle_signrawtransactionwithwallet, guard_wallet. solve_resp.
  all: apply resp_keystore; [intros ks ks' Hks; unfold ks_get; by rewrite Hks|]; intros ks; solve_resp.
Qed.
End respects.

(* ------------------------------------------------------------------ *)
(** ** The lock *)

Definition with_wallet (s : SendState) (w : WalletState) : SendState :=
  mkSendState w (ss_nonce_cache s) (ss_tx_cache s) (ss_requests s) (ss_sent s).

Section lock.
Context {C : Crates} {R : RpcCrates} {B : BitcoinCrate}.
Variable call : nat -> string -> Json -> result Json message.
Variable json_from_str : string -> option Json.

(** The same keys on the same chain. *)
Definition same_keys (s s' : SendState) : Prop :=
  s' = with_wallet s (ss_wallet s') /\ ws_chain_id (ss_wallet s) = ws_chain_id (ss_wallet s') /\
  ks_keys (ws_keystore (ss_wallet s)) = ks_keys (ws_keystore (ss_wallet s')).

Lemma same_keys_sendraw params : respects same_keys (handle_sendrawtransaction call json_from_str params).
Proof.
  apply (resp_sendraw call json_from_str (fun _ => [])); unfold same_keys; intros s s'; intros;
    destruct s, s'; unfold with_wallet in *; simpl in *; naive_solver.
Qed.

Lemma encrypt_keeps_keys e p w :
  ws_chain_id (handle e (EncryptWallet p) w).1 = ws_chain_id w /\
  ks_keys (ws_keystore (handle e (EncryptWallet p) w).1) = ks_keys (ws_keystore w).
Proof.
  cbn [handle]. unfold handle_encryptwallet. destruct (ws_loaded w), p as [p|]; try done. cbn [negb].
  destruct (ks_encrypted (ws_keystore w)); [done|].
  by destruct (save_encrypted (env_io e) (env_salt e) (env_nonce e) (ws_file w) (ws_keystore w) p) as [f [?|?|]].
Qed.

Lemma unload_keeps_keys e n w :
  ws_chain_id (handle e (UnloadWallet n) w).1 = ws_chain_id w /\
  ks_keys (ws_keystore (handle e (UnloadWallet n) w).1) = ks_keys (ws_keystore w).
Proof.
  cbn [handle]. unfold handle_unloadwallet. by destruct (non_empty n) as [m|]; [case_bool_decide|].
Qed.

(** Locking does not stop sendrawtransaction: after encryptwallet, which locks the
    wallet, after the time of walletpassphrase has passed (another unlocking time), and after
    unloadwallet, it still signs with the wallet's keys; for every request, answer, texts
    handed to the node and recorded nonces are those of the unlocked wallet. *)
Theorem lock_does_not_stop_sendraw e p n until params s w' :
  w' ∈ [(handle e (EncryptWallet p) (ss_wallet s)).1; with_unlock (ss_wallet s) until;
        (handle e (UnloadWallet n) (ss_wallet s)).1] ->
  let '(s1, r1) := run_command (handle_sendrawtransaction call json_from_str params) s in
  let '(s2, r2) := run_command (handle_sendrawtransaction call json_from_str params) (with_wallet s w') in
  r2 = r1 /\ ss_sent s2 = ss_sent s1 /\ ss_nonce_cache s2 = ss_nonce_cache s1.
Proof.
  intros Hw. assert (HE : same_keys s (with_wallet s w')).
  { split; [done|]. cbn [ss_wallet with_wallet]. rewrite !elem_of_cons in Hw.
    destruct Hw as [-> |[-> |[-> |Hn]]]; [..|by apply elem_of_nil in Hn].
    - destruct (encrypt_keeps_keys e p (ss_wallet s)) as [-> ->]. done.
    - done.
    - destruct (unload_keeps_keys e n (ss_wallet s)) as [-> ->]. done. }
  destruct (same_keys_sendraw params s (with_wallet s w') HE) as [H1 H2]. unfold run_command.
  destruct (handle_sendrawtransaction call json_from_str params s) as [s1 x1].
  destruct (handle_sendrawtransaction call json_from_str params (with_wallet s w')) as [s2 x2].
  cbn [fst snd] in *. destruct H1 as [-> _]. by destruct x1, x2; simplify_eq.
Qed.
End lock.

(* ------------------------------------------------------------------ *)
(** ** Signing twice *)

Definition quietly {A : Type} (c : M A) : Prop := forall s, quiet s (c s).1.

Lemma quietly_bind {A A'} (c : M A) (k : A -> M A') : quietly c -> (forall x, quietly (k x)) -> quietly (bind c k).
Proof.
  intros Hc Hk s. unfold bind. specialize (Hc s). destruct (c s) as [s1 [x|r]]; [|done]. destruct Hc as [i Hi].
  simpl in Hi. destruct (Hk x s1) as [j Hj]. exists j. by rewrite Hj, Hi.
Qed.
Lemma quietly_same {A} (c : M A) : (forall s, (c s).1 = s) -> quietly c.
Proof. intros H s. rewrite H. exists (ss_requests s). by destruct s. Qed.
Lemma quietly_request {A} (f : nat -> A) : quietly (request f).
Proof. intros s. by eexists. Qed.
Lemma quietly_ok_or {A} (r : result A message) code prefix : quietly (ok_or_answer r code prefix).
Proof. apply quietly_same. by destruct r. Qed.
Lemma quietly_some_or {A} (x : option A) r : quietly (some_or_answer x r).
Proof. apply quietly_same. by destruct x. Qed.

Ltac solve_quiet :=
  repeat first
    [ apply quietly_bind; [|intros ?]
    | apply quietly_request | apply quietly_ok_or | apply quietly_some_or
    | solve [apply quietly_same; done]
    | solve [auto]
    | progress cbv zeta
    | match goal with |- quietly (match ?x with _ => _ end) => destruct x end ].

Section twice.
Context {C : Crates} {R : RpcCrates} {B : BitcoinCrate}.
Variable call : nat -> string -> Json -> result Json message.
Variable json_from_str : string -> option Json.
Variable json_to_string : Json -> string.
Variable key_order : gmap string KeyEntry -> list string.

Lemma quietly_next_nonce a k : quietly (next_nonce call a k).
Proof. unfold next_nonce. solve_quiet. Qed.
#[local] Hint Resolve quietly_next_nonce : core.
Lemma quietly_bump n a k : quietly (bump_nonce_cache call n a k).
Proof. induction n; cbn [bump_nonce_cache]; solve_quiet. Qed.
Lemma quietly_sign_outputs sender g outs : forall i, quietly (sign_outputs sender g i outs).
Proof. induction outs; intros i; cbn [sign_outputs]; solve_quiet. Qed.
Lemma quietly_parse_outputs outs : quietly (parse_intent_outputs outs).
Proof. induction outs; cbn [parse_intent_outputs]; solve_quiet. Qed.
Lemma quietly_find_funded l n : quietly (find_funded call l n).
Proof. induction l; cbn [find_funded]; solve_quiet. Qed.
#[local] Hint Resolve quietly_bump quietly_sign_outputs quietly_parse_outputs quietly_find_funded : core.
Lemma quietly_sign now params :
  quietly (handle_signrawtransactionwithwallet call json_from_str json_to_string key_order now params).
Proof.
  unfold handle_signrawtransactionwithwallet, guard_wallet, parse_unsigned, prepare_signer. solve_quiet.
Qed.

(** Everything but the number of requests. *)
Definition same_but_requests (s s' : SendState) : Prop := quiet s s'.

(** Signing does not reserve nonces.  signrawtransactionwithwallet changes nothing but
    the number of requests made to the node, so that its loop to move the nonce cache past
    the nonces it used has no effect; and signing again, when the node's answers have not
    changed, gives the same answer, with the same nonces. *)
Theorem signing_reserves_nothing now params s :
  let sign := handle_signrawtransactionwithwallet call json_from_str json_to_string key_order now params in
  let '(s1, r1) := run_command sign s in
  ss_nonce_cache s1 = ss_nonce_cache s /\ ss_tx_cache s1 = ss_tx_cache s /\ ss_sent s1 = ss_sent s /\
  ((forall i, call i = call 0%nat) -> (run_command sign s1).2 = r1).
Proof.
  intros sign. pose proof (quietly_sign now params s) as Hq. fold sign in Hq.
  destruct (run_command sign s) as [s1 r1] eqn:Er. unfold run_command in Er.
  destruct (sign s) as [s1' x] eqn:Es. assert (s1' = s1) as -> by (destruct x; by simplify_eq).
  cbn [fst] in Hq. destruct Hq as [i Hi]. rewrite Hi. split_and!; try done. intros Hcall. rewrite <- Hi.
  assert (HE : respects same_but_requests sign).
  { apply resp_sign; unfold same_but_requests, quiet; intros a a'; intros.
    1: by rewrite (Hcall (ss_requests a)), (Hcall (ss_requests a')).
    all: match goal with H : exists _, _ |- _ => destruct H as [j ->] end; try done; by eexists. }
  destruct (HE s s1) as [_ Hres]; [by eexists|]. rewrite Es in Hres. cbn [snd] in Hres.
  unfold run_command. destruct (sign s1) as [s2 x2]. cbn [snd] in Hres. subst x2. destruct x; by simplify_eq.
Qed.
End twice.
