(* ===== verification/SignSend.v ===== *)
(** * Signing, then sending (bitinfinity-btcrpc/src/main.rs)

    The hexadecimal text that signrawtransactionwithwallet answers is what sendrawtransaction
    takes: the transfers prepared by the one are handed to the node by the other. *)

From S2P Require Import Prelude Float64 Decimal Amounts Crates AccountId Bech32 Addresses Primitives Borsh Wire Errors Validation GenesisTools TxBuilder Wallet RpcToy WalletProofs Translator NearClient SendRaw SendProofs SendLimits.

Local Open Scope send_scope.

(** JSON that [serde_json] reads back as it was printed: no floats, integers of 64 bits, no
    key twice in an object. *)
Fixpoint plain_json (j : Json) : bool :=
  match j with
  | JFloat _ => false
  | JNum n => (- 2 ^ 63 <=? n) && (n <=? u64_max)
  | JArr l => forallb plain_json l
  | JObj fields => forallb (fun f => plain_json f.2) fields && bool_decide (NoDup (map fst fields))
  | _ => true
  end.

Section sign_send.
Context {C : Crates} {R : RpcCrates} {B : BitcoinCrate} {L : RpcLaws C R} {HL : HashLaws C} {SL : SignLaws C R}.
Variable call : nat -> string -> Json -> result Json message.
Variable json_from_str : string -> option Json.
Variable json_to_string : Json -> string.
Variable key_order : gmap string KeyEntry -> list string.
(** [serde_json] reads back such objects, and prints UTF-8. *)
Hypothesis json_round : forall fields, plain_json (JObj fields) = true ->
  json_from_str (json_to_string (JObj fields)) = Some (JObj fields).
Hypothesis json_str : forall j, is_str (json_to_string j) = true.
#[local] Set Default Proof Using "All".

Definition info_ok (o : OutputInfo) : Prop := id_wf (oi_address o) /\ is_u u64_max (oi_amount_satoshis o).

(** What a prepared transfer holds: its text and its nonce. *)
Definition prepared_transfer (sender : string) (pk hash : list Z) (n : Z) (o : OutputInfo) (j : Json) : Prop :=
  exists text, get_str j "near_tx" = Some text /\ get_u64 j "nonce" = Some n /\
    node_reads text (transfer_tx sender pk hash n (oi_address o) (oi_amount_satoshis o)).

(** The transfers for the payments, with consecutive nonces. *)
Fixpoint all_prepared (sender : string) (pk hash : list Z) (n : Z) (outs : list OutputInfo) (js : list Json) : Prop :=
  match outs, js with
  | [], [] => True
  | o :: outs, j :: js => prepared_transfer sender pk hash n o j /\ all_prepared sender pk hash (n + 1) outs js
  | _, _ => False
  end.

Lemma sign_outputs_spec sender g sk outs : forall i s s' js,
  signer_ok g sk -> id_wf sender -> Forall info_ok outs -> 0 <= sg_nonce g -> 0 <= i ->
  sign_outputs sender g i outs s = (s', inl js) ->
  all_prepared sender (drop 1 (secp_uncompressed sk)) (sg_block_hash g) (sg_nonce g + i) outs js.
Proof.
  induction outs as [|o outs IH]; intros i s s' js Hg Hs Ho Hn Hi; cbn [sign_outputs].
  { unfold ret. by intros [= _ <-]. }
  apply Forall_cons in Ho as [[Ho1 Ho2] Ho]. unfold bind at 1, checked_add.
  destruct (Z.leb_spec (sg_nonce g + i) u64_max); [|done]. cbn [some_or_answer]. unfold ret at 1.
  destruct (transfer_text_read call json_from_str sender g sk (sg_nonce g + i) (oi_address o) (oi_amount_satoshis o))
    as (text & Et & Hread); try done.
  { unfold is_u. lia. }
  rewrite Et. unfold bind at 1, ret at 1. unfold bind at 1.
  destruct (sign_outputs sender g (i + 1) outs s) as [s1 [rest|r]] eqn:Erest; [|done].
  unfold ret. intros [= _ <-]. cbn [all_prepared]. split.
  - exists text. split; [done|]. split; [|done]. change (as_u64 (JNum (sg_nonce g + i)) = Some (sg_nonce g + i)). unfold as_u64.
    by rewrite !(proj2 (Z.leb_le _ _)) by lia.
  - replace (sg_nonce g + i + 1) with (sg_nonce g + (i + 1)) by lia. by apply (IH (i + 1) s s1); try lia.
Qed.

Lemma sign_outputs_plain sender g outs : forall i s s' js,
  Forall info_ok outs -> 0 <= sg_nonce g -> 0 <= i -> sign_outputs sender g i outs s = (s', inl js) ->
  forallb plain_json js = true.
Proof.
  induction outs as [|o outs IH]; intros i s s' js Ho Hn Hi; cbn [sign_outputs]; [unfold ret; by intros [= _ <-]|].
  apply Forall_cons in Ho as [[_ Ho2] Ho]. unfold bind at 1, checked_add.
  destruct (Z.leb_spec (sg_nonce g + i) u64_max); [|done]. cbn [some_or_answer]. unfold ret at 1.
  unfold bind at 1. destruct (transfer_text _ _ _ _ _); [|done..]. unfold ret at 1. unfold bind at 1.
  destruct (sign_outputs sender g (i + 1) outs s) as [s1 [rest|r]] eqn:Erest; [|done].
  unfold ret. intros [= _ <-]. cbn [forallb plain_json fst snd map].
  rewrite (IH (i + 1) s s1 rest) by (done || lia). unfold is_u in Ho2.
  rewrite !(proj2 (Z.leb_le _ _)) by lia. rewrite bool_decide_true; [done|].
  apply (bool_decide_eq_true_1 _). vm_compute. reflexivity.
Qed.

Lemma total_u64 outs : forall z t, 0 <= z <= u64_max -> Forall info_ok outs ->
  sum_from z (map oi_amount_satoshis outs) = Some t -> 0 <= t <= u64_max.
Proof.
  induction outs as [|o outs IH]; intros z t Hz Ho; cbn [map sum_from]; [by intros [= <-]|].
  apply Forall_cons in Ho as [[_ [Ho1 Ho2]] Ho]. destruct (checked_add u64_max z _) as [x|] eqn:E; [|done].
  apply checked_add_Some in E as [-> E]. apply IH; [lia|done].
Qed.

(** The texts of prepared transfers, posted and acknowledged. *)
Definition texts_of (js : list Json) : list (string * bool) :=
  map (fun j => (default ""%string (get_str j "near_tx"), true)) js.

Lemma submit_intent_spec sender pk hash outs : forall n js i h s,
  node_accepts call -> all_prepared sender pk hash n outs js ->
  exists h' s', submit_intent call sender i js h s = (s', inl h') /\ ss_sent s' = ss_sent s ++ texts_of js /\
    ss_wallet s' = ss_wallet s /\
    (outs <> [] -> ss_nonce_cache s' !! sender = Some (n + vec_len outs - 1)).
Proof.
  induction outs as [|o outs IH]; intros n [|j js] i h s Hacc Hall; try done.
  { exists h, s. cbn. by rewrite app_nil_r. }
  cbn [all_prepared] in Hall. destruct Hall as [(text & Ht & Hn & _) Hall]. cbn [submit_intent]. cbv zeta.
  rewrite Ht, Hn. cbn [default from_option]. unfold bind at 1, send_text, bind at 1, request at 1. cbn [fst snd].
  change (Datatypes.id text) with text. change (Datatypes.id n) with n.
  destruct (Hacc (ss_requests s) text) as [h1 ->]. unfold bind at 1, modify at 1, ret at 1. cbn [is_ok].
  unfold bind at 1, record_nonce at 1, modify at 1. set (s1 := set_nonces _ _).
  destruct (IH (n + 1) js (i + 1) (if i =? 0 then h1 else h) s1 Hacc Hall) as (h' & s' & H1 & H2 & H3 & H4).
  exists h', s'. split; [exact H1|]. split; [|split; [by rewrite H3|]].
  - rewrite H2. unfold s1. cbn [ss_sent set_nonces log_sent tick texts_of map]. rewrite <- app_assoc. by rewrite Ht.
  - intros _. destruct outs as [|o' outs].
    + destruct js; [|done]. cbn [submit_intent] in H1. injection H1 as <- _. unfold s1. cbn [ss_nonce_cache set_nonces].
      rewrite lookup_insert_eq. f_equal. unfold vec_len. cbn [length]. lia.
    + rewrite H4 by done. f_equal. unfold vec_len. cbn [length]. lia.
Qed.

(** The hex text of an intent, sent. *)
Lemma send_signed fields s :
  handle_sendrawtransaction call json_from_str
    (JArr [JStr (hex_encode (as_bytes (SIGNED_INTENT_PREFIX +:+ json_to_string (JObj fields))))]) s
  = send_intent call json_from_str (hex_encode (as_bytes (SIGNED_INTENT_PREFIX +:+ json_to_string (JObj fields))))
      (SIGNED_INTENT_PREFIX +:+ json_to_string (JObj fields)) s.
Proof.
  unfold handle_sendrawtransaction, bind at 1, get_str_param, param. cbn [as_array mbind option_bind lookup list_lookup as_str some_or_answer].
  unfold ret at 1. unfold bind at 1. rewrite hex_round by apply as_bytes_ok. cbn [some_or_answer]. unfold ret at 1.
  assert (Hu : is_utf8 (as_bytes (SIGNED_INTENT_PREFIX +:+ json_to_string (JObj fields))) = true).
  { rewrite as_bytes_app. pose proof (json_str (JObj fields)) as Hj. unfold is_str in Hj. exact Hj. }
  rewrite Hu, of_bytes_as_bytes. by rewrite starts_with_lit.
Qed.

Lemma send_intent_fields fields js sender txid raw s :
  plain_json (JObj fields) = true ->
  get (JObj fields) "near_txs" = Some (JArr js) -> get_str (JObj fields) "sender" = Some sender -> sender <> ""%string ->
  get_str (JObj fields) "btc_txid" = Some txid ->
  send_intent call json_from_str raw (SIGNED_INTENT_PREFIX +:+ json_to_string (JObj fields)) s
  = (let! primary_hash := submit_intent call sender 0 js "" in
     let! _ := modify (fun s => set_txs s (tx_cache_insert (ss_tx_cache s) txid primary_hash raw sender)) in
     ret (OkResponse (JStr txid))) s.
Proof.
  intros Hplain Hj Hs Hne Ht. unfold send_intent. cbv zeta.
  assert (Hsl : slice_from (String.length SIGNED_INTENT_PREFIX) (SIGNED_INTENT_PREFIX +:+ json_to_string (JObj fields))
    = json_to_string (JObj fields)).
  { unfold slice_from. rewrite as_bytes_app, <- length_as_bytes, drop_app_length. apply of_bytes_as_bytes. }
  rewrite Hsl, json_round by done. cbn [some_or_answer]. unfold bind at 1, ret at 1. rewrite Hs. unfold non_empty.
  rewrite bool_decide_false by done. cbn [some_or_answer]. unfold bind at 1, ret at 1. rewrite Hj.
  cbn [mbind option_bind as_array]. unfold bind at 1, ret at 1. by rewrite Ht.
Qed.

Lemma quietly_parse raw : quietly (parse_unsigned call json_from_str key_order raw).
Proof.
  unfold parse_unsigned. pose proof quietly_parse_outputs. pose proof (quietly_find_funded call). solve_quiet.
Qed.

Lemma bind_guard {A} now (k : unit -> M A) s :
  bind (guard_wallet now) k s =
  if negb (ws_loaded (ss_wallet s)) then (s, inr not_loaded)
  else if negb (is_wallet_unlocked (ss_wallet s) now) then (s, inr locked_wallet) else k tt s.
Proof. unfold guard_wallet, bind, gets. by destruct (ws_loaded _), (is_wallet_unlocked _ _). Qed.

Lemma bump_answers n a k : forall s, exists s', bump_nonce_cache call n a k s = (s', inl tt).
Proof.
  induction n as [|n IH]; intros s; cbn [bump_nonce_cache]; [by eexists|]. unfold bind.
  destruct (next_nonce_spec call json_from_str a k s) as (m & s1 & -> & _). apply IH.
Qed.

Lemma sign_outputs_answer sender g outs : forall i s s' r j,
  sign_outputs sender g i outs s = (s', inr r) -> r <> OkResponse j.
Proof.
  induction outs as [|o outs IH]; intros i s s' r j; cbn [sign_outputs]; [done|]. unfold bind.
  destruct (checked_add u64_max (sg_nonce g) i) as [n|]; cbn [some_or_answer ret]; [|by intros [= _ <-]].
  destruct (transfer_text sender g n (oi_address o) (oi_amount_satoshis o)); [|by intros [= _ <-]..]. cbn [ret].
  destruct (sign_outputs sender g (i + 1) outs s) as [s1 [js|r']] eqn:E; [done|]. intros [= _ <-]. by eapply IH.
Qed.

(** C20. What is signed is what is sent.  When signrawtransactionwithwallet has completed for
    payments to well-formed addresses, sendrawtransaction of the text it answered, from any
    later state and with a node that takes the texts, hands over exactly the prepared
    transfers: one for each payment in order, of its satoshis times 10^16, with consecutive
    nonces, each decoded by the node with a valid signature; the last nonce is recorded. *)
Theorem signed_is_sent now params raw s s0 sender outs en hex s1 s2 :
  wallet_signs (ss_wallet s) -> node_accepts call ->
  get_str_param params 0 = Some raw ->
  parse_unsigned call json_from_str key_order raw s = (s0, inl (sender, outs)) -> Forall info_ok outs -> outs <> [] ->
  ks_get (ws_keystore (ss_wallet s)) sender = Some en -> sender <> ""%string ->
  run_command (handle_signrawtransactionwithwallet call json_from_str json_to_string key_order now params) s
    = (s1, OkResponse (JObj [("hex"%string, JStr hex); ("complete"%string, JBool true); ("errors"%string, JArr [])])) ->
  exists s3 txid pk hash n js,
    run_command (handle_sendrawtransaction call json_from_str (JArr [JStr hex])) s2 = (s3, OkResponse (JStr txid)) /\
    ss_sent s3 = ss_sent s2 ++ texts_of js /\ all_prepared sender pk hash n outs js /\
    ss_nonce_cache s3 !! sender = Some (n + vec_len outs - 1).
Proof.
  intros Hw Hacc Hraw Hparse Ho Hne Hen Hsne Hrun.
  unfold run_command, handle_signrawtransactionwithwallet in Hrun.
  rewrite (bind_guard now _ s) in Hrun. destruct (ws_loaded (ss_wallet s)); [|done].
  destruct (is_wallet_unlocked (ss_wallet s) now); [|done]. cbn [negb] in Hrun. rewrite Hraw in Hrun.
  cbn [some_or_answer] in Hrun. unfold bind at 1, ret at 1 in Hrun. unfold bind at 1 in Hrun. rewrite Hparse in Hrun.
  destruct (quietly_parse raw s) as [i0 Hq0]. rewrite Hparse in Hq0. cbn [fst] in Hq0.
  unfold bind at 1, gets at 1 in Hrun. rewrite Hq0 in Hrun. cbn [ss_wallet] in Hrun. rewrite Hen in Hrun.
  cbn [some_or_answer] in Hrun. unfold bind at 1, ret at 1 in Hrun. unfold bind at 1 in Hrun.
  destruct (Hw sender en Hen) as [(sk & Hsk & Hv & He & _) Hid]. rewrite He in Hrun.
  match type of Hrun with context [prepare_signer call ?x ?y sender ?z ?t] =>
    pose proof (prepare_spec call json_from_str x y sender (private_key_hex en) sk t Hsk Hv) as Hprep;
    destruct (prepare_signer call x y sender z t) as [sp [g|r]] end; [|destruct Hprep as (_ & _ & Hr); injection Hrun as _ ->; by destruct (Hr _ eq_refl)].
  destruct Hprep as (_ & _ & Hg & [Hu _] & _). unfold bind at 1 in Hrun.
  destruct (checked_sum_satoshis (map oi_amount_satoshis outs)) as [total|] eqn:Etotal; [|done].
  apply (total_u64 outs 0 total ltac:(unfold u64_max; lia) Ho) in Etotal.
  cbn [some_or_answer] in Hrun. unfold ret at 1 in Hrun. unfold bind at 1 in Hrun.
  destruct (sign_outputs sender g 0 outs sp) as [sq [js|r]] eqn:Esign; [|exfalso; injection Hrun as _ Hrun; by eapply sign_outputs_answer].
  pose proof (sign_outputs_spec sender g sk outs 0 sp sq js Hg Hid Ho Hu ltac:(lia) Esign) as Hall. rewrite Z.add_0_r in Hall.
  pose proof (sign_outputs_plain sender g outs 0 sp sq js Ho Hu ltac:(lia) Esign) as Hplain.
  unfold bind at 1 in Hrun. destruct (near_public_key_string (entry_of (private_key_hex en) sk)) as [pks|m|]; [|done..].
  cbn [ok_or_answer] in Hrun. unfold ret at 1 in Hrun. unfold bind at 1 in Hrun.
  destruct (bump_answers (length outs - 1) sender pks sq) as [sb Eb]. rewrite Eb in Hrun. unfold ret in Hrun. cbv zeta in Hrun.
  injection Hrun as _ <-.
  match goal with |- context [json_to_string (JObj ?fs)] => set (fields := fs) end.
  assert (Hfields : plain_json (JObj fields) = true).
  { unfold fields. cbn [plain_json forallb fst snd map]. rewrite Hplain, !(proj2 (Z.leb_le _ _)) by lia.
    rewrite bool_decide_true; [done|]. apply (bool_decide_eq_true_1 _). vm_compute. reflexivity. }
  destruct (submit_intent_spec sender (drop 1 (secp_uncompressed sk)) (sg_block_hash g) outs (sg_nonce g) js 0 "" s2 Hacc Hall)
    as (h' & s3 & H1 & H2 & H3 & H4).
  assert (Hsend : exists s4 txid, run_command (handle_sendrawtransaction call json_from_str
      (JArr [JStr (hex_encode (as_bytes (SIGNED_INTENT_PREFIX +:+ json_to_string (JObj fields))))])) s2
    = (s4, OkResponse (JStr txid)) /\ ss_sent s4 = ss_sent s3 /\ ss_nonce_cache s4 = ss_nonce_cache s3).
  { unfold run_command. rewrite send_signed. erewrite (send_intent_fields fields js sender); [|exact Hfields|reflexivity|reflexivity|done|reflexivity].
    unfold bind at 1. rewrite H1. unfold bind, modify, ret. by eexists _, _. }
  destruct Hsend as (s4 & txid & E1 & E2 & E3).
  exists s4, txid, (drop 1 (secp_uncompressed sk)), (sg_block_hash g), (sg_nonce g), js.
  rewrite E2, E3. split_and!; try done. by apply H4.
Qed.
End sign_send.

(* ------------------------------------------------------------------ *)
(** ** A concrete payment *)

Module SendSample.

(** Signatures carry their key; Base58 text of bytes only. *)
Definition crates : Crates := {|
  sha256 := Toy.digest 32;
  ripemd160 := Toy.digest 20;
  keccak256 := Toy.digest 32;
  bs58_encode := Toy.encode;
  bs58_decode := fun s =>
    match Toy.decode_pairs (as_bytes s) with
    | Some b => if forallb (fun x => (0 <=? x) && (x <? 256)) b then Some b else None
    | None => None
    end;
  segwit_decode := fun _ => None;
  recover_ecdsa := fun s _ => Some (4 :: take 64 s);
  verify_ecdsa := fun _ _ _ => true;
  verify_ed25519 := fun _ _ _ => false;
  ed25519_torsion_free := fun _ => false;
|}.
#[local] Existing Instance crates.
#[local] Existing Instance ToyRpc.crates.
#[local] Existing Instance ToyRpc.laws.

Lemma hash_laws : HashLaws crates.
Proof. split; intros m; first [apply Toy.digest_len | apply Toy.digest_ok]. Qed.
#[local] Existing Instance hash_laws.

Lemma forallb_bytes b : forallb (fun x => (0 <=? x) && (x <? 256)) b = true -> bytes_ok b.
Proof.
  intros H. rewrite forallb_forall in H. apply Forall_forall. intros x Hx. apply list_elem_of_In, H in Hx.
  unfold is_byte. lia.
Qed.

Lemma sign_laws : SignLaws crates ToyRpc.crates.
Proof.
  split.
  - intros sk Hv. destruct (secp_valid_len sk Hv) as [Hl Hb]. exists (sk ++ sk). split; [done|].
    rewrite length_app, Hl. split; [done|]. by apply Forall_app.
  - intros sk Hv msg. destruct (secp_valid_len sk Hv) as [Hl Hb]. cbn -[take drop].
    assert (Hl2 : length (sk ++ sk) = 64%nat) by (by rewrite length_app, Hl).
    split; [lia|]. split; [done|]. split; [by apply Forall_app|]. split; [done|].
    rewrite take_app_length' by done. done.
  - intros b Hb. exact (f_equal Some (as_bytes_of_bytes b Hb)).
  - intros s b. cbn. destruct (Toy.decode_pairs (as_bytes s)) as [l|]; [|done].
    destruct (forallb _ l) eqn:E; [|done]. intros [= <-]. by apply forallb_bytes.
  - intros s b [= <-]. apply as_bytes_ok.
Qed.
#[local] Existing Instance sign_laws.

Definition sk : list Z := repeat 1 32.
Definition sender : string := rpc_bech32_encode "bc" 0 (hash160 (2 :: sk)).

(** One input of the wallet's key, one payment of five satoshis. *)
Definition bitcoin : BitcoinCrate := {|
  deserialize := fun _ => Some (mkBtcTransaction 2 0 [mkBtcTxIn "aa" 0 [] [[1]; 2 :: sk] 0] [mkBtcTxOut 5 [0]]);
  compute_txid := fun _ => "txid"%string;
  weight_of := fun _ => 400;
  instructions := fun _ => [];
  is_op_return_script := fun _ => false;
  address_from_script := fun _ _ => Some "bob.near"%string;
|}.
#[local] Existing Instance bitcoin.

(** A node at height 7 that knows no key and takes everything. *)
Definition node (i : nat) (method : string) (params : Json) : result Json message :=
  if bool_decide (method = "status"%string) then
    Ok (JObj [("sync_info"%string, JObj [("latest_block_height"%string, JNum 7);
                                         ("latest_block_hash"%string, JStr (Toy.encode (repeat 0 32)))])])
  else if bool_decide (method = "broadcast_tx_async"%string) then Ok (JStr "near-hash")
  else Err (lit "unknown key").

Definition en : KeyEntry := entry_of (hex_encode sk) sk.
Definition wallet : WalletState :=
  mkWalletState "mainnet" (mkKeystore {[sender := en]} [] false) (Some 1000) None "w" true None.
Definition s : SendState := mkSendState wallet ∅ ∅ 0 [].
Definition raw : string := "00".
Definition params : Json := JArr [JStr raw].
Definition parsed : ParsedBitcoinTx :=
  match from_hex_with_hrp raw "bc" with Ok p => p | _ => mkParsedBitcoinTx "" "" [] [] [] "" 0 0 0 end.

Lemma sender_wf : id_wf sender.
Proof. split; vm_compute; done. Qed.
Lemma bob_wf : id_wf "bob.near".
Proof. split; vm_compute; done. Qed.
Lemma entry_good : entry_ok "mainnet" sender en.
Proof.
  exists sk. split; [vm_compute; reflexivity|]. split; [vm_compute; reflexivity|]. split; [reflexivity|].
  change (sender ∈ own_addresses "mainnet" sk). unfold own_addresses. left.
Qed.
Lemma key_found : ks_get (ws_keystore (ss_wallet s)) sender = Some en.
Proof. apply lookup_singleton_eq. Qed.
Lemma wallet_good : wallet_signs wallet.
Proof.
  intros a e He. unfold ks_get, wallet in He. cbn [ws_keystore ks_keys] in He.
  apply lookup_singleton_Some in He as [<- <-]. exact (conj entry_good sender_wf).
Qed.
Lemma node_takes : node_accepts node.
Proof. intros i text. exists "near-hash"%string. reflexivity. Qed.
Lemma node_answers : node_up node.
Proof. intros i. eexists _, (repeat 0 32). split; [reflexivity|vm_compute; reflexivity]. Qed.
Lemma node_bounded : chain_bounded node 10000000.
Proof.
  split; [intros i a k j H; discriminate H|]. intros i st H. injection H as <-. vm_compute. done.
Qed.

Lemma sendraw_pays_witness :
  (run_command (handle_sendrawtransaction node ToyRpc.json_from_str params) s).2 = OkResponse (JStr "txid").
Proof.
  assert (Es : pt_sender_address parsed = sender) by (vm_compute; reflexivity).
  assert (Eo : payment_outputs sender (pt_outputs parsed) = [mkTxOutput "bob.near" 5 false None]) by (vm_compute; reflexivity).
  pose proof (sendraw_pays node ToyRpc.json_from_str params raw [0] parsed en s) as H. cbv zeta in H.
  rewrite Es, Eo in H.
  specialize (H ltac:(vm_compute; reflexivity) ltac:(vm_compute; reflexivity) ltac:(vm_compute; reflexivity)
    ltac:(vm_compute; reflexivity) ltac:(vm_compute; reflexivity) key_found entry_good sender_wf).
  destruct (run_command _ s) as [s' r].
  destruct H as (pk & n & k & refused & _ & _ & _ & _ & Hok).
  - apply Forall_singleton. split; [exact bob_wf|cbn [out_amount_satoshis]; unfold is_u, u64_max; lia].
  - apply Hok; [exact node_answers|exact node_takes|discriminate|by exists 5].
Defined.


(** The text of a complete answer. *)
Definition complete_hex (r : Response) : option string :=
  match r with
  | OkResponse (JObj [(k1, JStr hex); (k2, JBool true); (k3, JArr [])]) =>
      if bool_decide (k1 = "hex" /\ k2 = "complete" /\ k3 = "errors")%string then Some hex else None
  | _ => None
  end.
Lemma complete_hex_Some r hex : complete_hex r = Some hex ->
  r = OkResponse (JObj [("hex"%string, JStr hex); ("complete"%string, JBool true); ("errors"%string, JArr [])]).
Proof.
  unfold complete_hex. repeat case_match; try done. intros [= <-].
  match goal with H : bool_decide _ = true |- _ => apply bool_decide_eq_true in H as (-> & -> & ->) end. done.
Qed.

Lemma signed_is_sent_witness : exists hex s3 txid n,
  run_command (handle_sendrawtransaction node ToyRpc.json_from_str (JArr [JStr hex])) s = (s3, OkResponse (JStr txid)) /\
  ss_nonce_cache s3 !! sender = Some n.
Proof.
  assert (Hrun : match complete_hex (run_command (handle_signrawtransactionwithwallet node ToyRpc.json_from_str
    ToyRpc.json_to_string (fun _ => []) 0 params) s).2 with Some _ => true | None => false end = true) by (vm_compute; reflexivity).
  destruct (run_command (handle_signrawtransactionwithwallet node ToyRpc.json_from_str
    ToyRpc.json_to_string (fun _ => []) 0 params) s) as [s1 r] eqn:Erun. cbn [snd] in Hrun.
  destruct (complete_hex r) as [hex|] eqn:Eh; [|discriminate Hrun]. apply complete_hex_Some in Eh. subst r.
  destruct (signed_is_sent node ToyRpc.json_from_str ToyRpc.json_to_string (fun _ => []) (fun l _ => ToyRpc.json_round (JObj l))
    ToyRpc.json_str 0 params raw s s sender [mkOutputInfo "bob.near" 5] en hex s1 s) as (s3 & txid & pk & hash & n & js & H1 & _ & _ & H4).
  - exact wallet_good.
  - exact node_takes.
  - reflexivity.
  - vm_compute. reflexivity.
  - apply Forall_singleton. split; [exact bob_wf|cbn [oi_amount_satoshis]; unfold is_u, u64_max; lia].
  - discriminate.
  - exact key_found.
  - discriminate.
  - exact Erun.
  - eexists hex, s3, txid, _. exact (conj H1 H4).
Defined.

Lemma lock_does_not_stop_sendraw_witness :
  (run_command (handle_sendrawtransaction node ToyRpc.json_from_str params)
    (with_wallet s (with_unlock wallet None))).2
  = (run_command (handle_sendrawtransaction node ToyRpc.json_from_str params) s).2.
Proof.
  pose proof (lock_does_not_stop_sendraw node ToyRpc.json_from_str (Samples.env 0 1) None None None params s
    (with_unlock wallet None)) as H.
  destruct (run_command _ s) as [s1 r1]. destruct (run_command _ (with_wallet s (with_unlock wallet None))) as [s2 r2].
  apply H. right. left.
Defined.

End SendSample.
