(* ===== verification/SignableMessage.v ===== *)
(** * Signed messages (core/primitives/src/signable_message.rs, action/delegate.rs)

    The NEP-461 prefix that keeps a signed delegate action apart from a signed
    transaction, and the hash a delegate action is signed with. *)

From S2P Require Import Prelude Crates AccountId Primitives Borsh Wire Validation.

Definition MIN_ON_CHAIN_DISCRIMINANT : Z := 2 ^ 30.
Definition MAX_ON_CHAIN_DISCRIMINANT : Z := 2 ^ 31 - 1.
Definition MIN_OFF_CHAIN_DISCRIMINANT : Z := 2 ^ 31.
Definition MAX_OFF_CHAIN_DISCRIMINANT : Z := u32_max.
Definition NEP_366_META_TRANSACTIONS : Z := 366.

Inductive SignableMessageType : Type := DelegateActionMessage.

Inductive ReadDiscriminantError : Type :=
| UnknownMessageType
| UnknownOnChainNep (nep : Z)
| UnknownOffChainNep (nep : Z)
| TransactionFound.

Inductive CreateDiscriminantError : Type := NepTooLarge (nep : Z).

Definition new_on_chain (nep : Z) : result Z CreateDiscriminantError :=
  if MAX_ON_CHAIN_DISCRIMINANT - MIN_ON_CHAIN_DISCRIMINANT <? nep then Err (NepTooLarge nep)
  else Ok (MIN_ON_CHAIN_DISCRIMINANT + nep).

Definition new_off_chain (nep : Z) : result Z CreateDiscriminantError :=
  if MAX_OFF_CHAIN_DISCRIMINANT - MIN_OFF_CHAIN_DISCRIMINANT <? nep then Err (NepTooLarge nep)
  else Ok (MIN_OFF_CHAIN_DISCRIMINANT + nep).

Definition is_transaction (d : Z) : bool := (MIN_LEN <=? d) && (d <=? MAX_LEN).

Definition on_chain_nep (d : Z) : option Z :=
  if (d <? MIN_ON_CHAIN_DISCRIMINANT) || (MAX_ON_CHAIN_DISCRIMINANT <? d) then None
  else Some (d - MIN_ON_CHAIN_DISCRIMINANT).

Definition off_chain_nep (d : Z) : option Z :=
  if (d <? MIN_OFF_CHAIN_DISCRIMINANT) || (MAX_OFF_CHAIN_DISCRIMINANT <? d) then None
  else Some (d - MIN_OFF_CHAIN_DISCRIMINANT).

(** [TryFrom<MessageDiscriminant>]. *)
Definition message_type_try_from (d : Z) : result SignableMessageType ReadDiscriminantError :=
  if is_transaction d then Err TransactionFound
  else match on_chain_nep d with
  | Some nep =>
      if nep =? NEP_366_META_TRANSACTIONS then Ok DelegateActionMessage
      else Err (UnknownOnChainNep nep)
  | None =>
      match off_chain_nep d with
      | Some nep => Err (UnknownOffChainNep nep)
      | None => Err UnknownMessageType
      end
  end.

(** [From<SignableMessageType>]; the [unwrap] panics. *)
Definition discriminant_from (t : SignableMessageType) : result Z unit :=
  match t with
  | DelegateActionMessage =>
      match new_on_chain NEP_366_META_TRANSACTIONS with Ok d => Ok d | _ => Panic end
  end.

(** The Borsh encoding of a [SignableMessage]. *)
Definition signable_bytes {A : Type} (c : codec A) (discriminant : Z) (msg : A) : list Z :=
  enc u32_c discriminant ++ enc c msg.

Section delegate.
Context {C : Crates}.

Definition get_nep461_hash (d : DelegateAction) : result CryptoHash unit :=
  let? discriminant := discriminant_from DelegateActionMessage in
  Ok (sha256 (signable_bytes delegate_action_c discriminant d)).

(** [SignedDelegateAction::verify]. *)
Definition signed_delegate_verify (s : SignedDelegateAction) : result bool unit :=
  let? hash := get_nep461_hash (sd_delegate_action s) in
  Ok (sig_verify (sd_signature s) hash (da_public_key (sd_delegate_action s))).
End delegate.

(* ------------------------------------------------------------------ *)
(** ** Theorems *)

Lemma new_on_chain_spec nep d :
  new_on_chain nep = Ok d -> 0 <= nep ->
  d = 2 ^ 30 + nep /\ 2 ^ 30 <= d < 2 ^ 31.
Proof.
  unfold new_on_chain, MAX_ON_CHAIN_DISCRIMINANT, MIN_ON_CHAIN_DISCRIMINANT.
  destruct (Z.ltb_spec (2 ^ 31 - 1 - 2 ^ 30) nep); [done|]. intros [= <-] ?. lia.
Qed.

Lemma new_off_chain_spec nep d :
  new_off_chain nep = Ok d -> 0 <= nep ->
  d = 2 ^ 31 + nep /\ 2 ^ 31 <= d <= u32_max.
Proof.
  unfold new_off_chain, MAX_OFF_CHAIN_DISCRIMINANT, MIN_OFF_CHAIN_DISCRIMINANT.
  destruct (Z.ltb_spec (u32_max - 2 ^ 31) nep); [done|]. intros [= <-] ?. lia.
Qed.

(** Message classes are disjoint: the discriminant of a NEP reads back as that
    NEP in its own class only, is never taken for a transaction, and only the
    on-chain discriminant of NEP-366 is accepted as a delegate action. *)
Theorem discriminant_classes nep d :
  0 <= nep ->
  (new_on_chain nep = Ok d ->
     on_chain_nep d = Some nep /\ off_chain_nep d = None /\ is_transaction d = false
     /\ (message_type_try_from d = Ok DelegateActionMessage <-> nep = NEP_366_META_TRANSACTIONS))
  /\ (new_off_chain nep = Ok d ->
     off_chain_nep d = Some nep /\ on_chain_nep d = None /\ is_transaction d = false
     /\ message_type_try_from d = Err (UnknownOffChainNep nep)).
Proof.
  intros Hn.
  split; intros H; [apply new_on_chain_spec in H as [-> Hr]|apply new_off_chain_spec in H as [-> Hr]];
    try done; unfold message_type_try_from, on_chain_nep, off_chain_nep, is_transaction,
      MIN_ON_CHAIN_DISCRIMINANT, MAX_ON_CHAIN_DISCRIMINANT, MIN_OFF_CHAIN_DISCRIMINANT,
      MAX_OFF_CHAIN_DISCRIMINANT, MIN_LEN, MAX_LEN, u32_max in *;
    repeat match goal with
    | |- context [?a <? ?b] => destruct (Z.ltb_spec a b); try lia
    | |- context [?a <=? ?b] => destruct (Z.leb_spec a b); try lia
    end; simpl; split_and!; try done; try (f_equal; lia).
  - replace (2 ^ 30 + nep - 2 ^ 30) with nep by lia.
    destruct (Z.eqb_spec nep NEP_366_META_TRANSACTIONS); done.
  - f_equal. f_equal. lia.
Qed.

Section separation.
Context {C : Crates}.

(** Four bytes whose last is at least 64 are not a length of an identifier. *)
Lemma read_signer_id_large a b c d rest :
  is_u u8_max a -> is_u u8_max b -> is_u u8_max c -> is_u u8_max d ->
  64 <= c \/ 64 <= d -> read_signer_id [a; b; c; d] rest = None.
Proof.
  intros [? ?] [? ?] [? ?] [? ?] Hcd. unfold read_signer_id. simpl.
  destruct (Z.ltb_spec MAX_LEN (a + 256 * (b + 256 * (c + 256 * (d + 256 * 0)))));
    [done|]. unfold MAX_LEN in *. lia.
Qed.

Lemma dec_u8_Some b x b' :
  dec u8_c b = Some (x, b') -> b = x :: b'.
Proof.
  unfold u8_c, uint_c. simpl. destruct b as [|y b]; [done|]. intros [= <- <-].
  by rewrite Z.add_0_r.
Qed.

(** Domain separation: the bytes signed for a message of any NEP, on chain or
    off chain, are not the encoding of a transaction, so such a signature cannot be
    reused to sign one.  Whatever the message and the bytes that follow. *)
Theorem nep461_domain_separation {A} (c : codec A) nep d msg :
  0 <= nep -> new_on_chain nep = Ok d \/ new_off_chain nep = Ok d ->
  bytes_ok (enc c msg) -> dec_transaction (signable_bytes c d msg) = None.
Proof.
  intros Hn Hd Hmsg.
  assert (Hr : 2 ^ 30 <= d <= u32_max)
    by (destruct Hd as [Hd|Hd];
        [apply new_on_chain_spec in Hd as [_ Hd]|apply new_off_chain_spec in Hd as [_ Hd]];
        unfold u32_max in *; lia).
  clear Hd. unfold signable_bytes, u32_c, uint_c. cbn [enc]. rewrite le_enc_4. cbn [app].
  assert (Hb : forall x, is_u u8_max (x mod 256))
    by (intros x; pose proof (Z.mod_pos_bound x 256); unfold is_u, u8_max; lia).
  assert (H4 : 64 <= d / 256 / 256 / 256 mod 256)
    by (unfold u32_max in *; Z.to_euclidean_division_equations; lia).
  unfold dec_transaction. rewrite !u8_tag by apply Hb.
  destruct (Z.eqb_spec (d / 256 mod 256) 0).
  - rewrite read_signer_id_large; [done|apply Hb..|by right].
  - destruct (dec u8_c (enc c msg)) as [[u5 rest]|] eqn:E; [|done].
    apply dec_u8_Some in E. rewrite E in Hmsg. inversion_clear Hmsg as [|? ? H5 _].
    rewrite read_signer_id_large; [done|apply Hb..|done|by left].
Qed.
End separation.

Section witnesses.
#[local] Existing Instance Toy.crates.

Lemma discriminant_classes_witness :
  on_chain_nep (2 ^ 30 + 366) = Some 366
  /\ message_type_try_from (2 ^ 30 + 366) = Ok DelegateActionMessage.
Proof.
  destruct (proj1 (discriminant_classes 366 (2 ^ 30 + 366) ltac:(lia)) eq_refl)
    as (H1 & _ & _ & H2).
  split; [exact H1|]. apply H2. reflexivity.
Defined.

Definition sample_delegate : DelegateAction :=
  {| da_sender_id := "alice.near"; da_receiver_id := "bob.near"; da_actions := [Transfer 5];
     da_nonce := 7; da_max_block_height := 100; da_public_key := ED25519 (replicate 32 7) |}.

Lemma nep461_domain_separation_witness :
  dec_transaction (signable_bytes delegate_action_c (2 ^ 30 + 366) sample_delegate) = None.
Proof.
  apply (nep461_domain_separation delegate_action_c 366).
  - lia.
  - left. reflexivity.
  - vm_compute. repeat constructor; discriminate.
Defined.
End witnesses.
