(* ===== verification/Congestion.v ===== *)
(** * Congestion control and the receipt sink (runtime/src/congestion_control.rs,
      core/primitives/src/congestion_info.rs)

    The sink sends the receipts a chunk produces, or buffers them per receiving shard
    when the limits of the chunk are used up; the delayed receipts wait in a queue of
    the shard itself.  The congestion information counts the gas and bytes of both.
    The limits come from floating-point congestion levels ([CongestionControl]) and from
    the bandwidth scheduler ([Scheduling]): here they are part of the sink.  Statistics are
    left out.  The buffers and the delayed queue are kept in the sink and the wrapper
    that own them: their writes are never rolled back, because the state is committed
    after each of them before anything can fail. *)

From S2P Require Import Prelude Crates AccountId Primitives Errors Borsh Fees TrieQueue OutgoingMetadata.
From S2P Require Import ReceiptWire State RuntimeTypes ShardLayout.

Record CongestionInfo : Type := mkCongestionInfo {
  delayed_receipts_gas : Z;
  buffered_receipts_gas : Z;
  receipt_bytes : Z;
  allowed_shard : Z;
}.

(** [checked_add(..).ok_or_else(UnexpectedIntegerOverflow(name))?] on one counter. *)
Definition add_counter (mx : Z) (name : string) (a b : Z) : result Z RuntimeError :=
  ok_or (checked_add mx a b) (UnexpectedIntegerOverflow (lit name)).
Definition sub_counter (name : string) (a b : Z) : result Z RuntimeError :=
  ok_or (checked_sub a b) (UnexpectedIntegerOverflow (lit name)).

Definition add_receipt_bytes (i : CongestionInfo) (bytes : Z) : result CongestionInfo RuntimeError :=
  let? b := add_counter u64_max "add_receipt_bytes" (receipt_bytes i) bytes in
  Ok (mkCongestionInfo (delayed_receipts_gas i) (buffered_receipts_gas i) b (allowed_shard i)).

Definition remove_receipt_bytes (i : CongestionInfo) (bytes : Z) : result CongestionInfo RuntimeError :=
  let? b := sub_counter "remove_receipt_bytes" (receipt_bytes i) bytes in
  Ok (mkCongestionInfo (delayed_receipts_gas i) (buffered_receipts_gas i) b (allowed_shard i)).

Definition add_delayed_receipt_gas (i : CongestionInfo) (gas : Z) : result CongestionInfo RuntimeError :=
  let? g := add_counter u128_max "add_delayed_receipt_gas" (delayed_receipts_gas i) gas in
  Ok (mkCongestionInfo g (buffered_receipts_gas i) (receipt_bytes i) (allowed_shard i)).

Definition remove_delayed_receipt_gas (i : CongestionInfo) (gas : Z)
    : result CongestionInfo RuntimeError :=
  let? g := sub_counter "remove_delayed_receipt_gas" (delayed_receipts_gas i) gas in
  Ok (mkCongestionInfo g (buffered_receipts_gas i) (receipt_bytes i) (allowed_shard i)).

Definition add_buffered_receipt_gas (i : CongestionInfo) (gas : Z) : result CongestionInfo RuntimeError :=
  let? g := add_counter u128_max "add_buffered_receipt_gas" (buffered_receipts_gas i) gas in
  Ok (mkCongestionInfo (delayed_receipts_gas i) g (receipt_bytes i) (allowed_shard i)).

Definition remove_buffered_receipt_gas (i : CongestionInfo) (gas : Z)
    : result CongestionInfo RuntimeError :=
  let? g := sub_counter "remove_buffered_receipt_gas" (buffered_receipts_gas i) gas in
  Ok (mkCongestionInfo (delayed_receipts_gas i) g (receipt_bytes i) (allowed_shard i)).

Definition get_new_allowed_shard (own_shard : Z) (all_shards : list Z) (congestion_seed : Z)
    : result Z RuntimeError :=
  if vec_len all_shards =? 0 then Ok own_shard
  else unwrap (all_shards !! Z.to_nat (congestion_seed mod vec_len all_shards)).

(** [as u16]: a shard number is cut to sixteen bits. *)
Definition as_u16 (v : Z) : Z := v mod 65536.

Definition finalize_allowed_shard (i : CongestionInfo) (own_shard : Z) (all_shards : list Z)
    (congestion_seed : Z) : result CongestionInfo RuntimeError :=
  let? shard := get_new_allowed_shard own_shard all_shards congestion_seed in
  Ok (mkCongestionInfo (delayed_receipts_gas i) (buffered_receipts_gas i) (receipt_bytes i)
        (as_u16 shard)).

(* ------------------------------------------------------------------ *)
(** ** Gas and size of receipts *)

Section congestion.
Context {C : Crates}.

Definition action_receipt_congestion_gas (receipt : Receipt) (cfg : RuntimeConfig) (ar : ActionReceipt)
    : result Z IntegerOverflowError :=
  let? exec := total_prepaid_exec_fees cfg (ar_actions ar) (r_receiver_id receipt) in
  let? prepaid_exec_gas :=
    checked_add_result exec (fee_exec (action_fees (fees cfg) c_new_action_receipt)) in
  let? prepaid_send_gas := total_prepaid_send_fees cfg (ar_actions ar) in
  let? prepaid_gas := checked_add_result prepaid_exec_gas prepaid_send_gas in
  let? gas_attached_to_fns := total_prepaid_gas (ar_actions ar) in
  checked_add_result gas_attached_to_fns prepaid_gas.

Definition compute_receipt_congestion_gas (receipt : Receipt) (cfg : RuntimeConfig)
    : result Z IntegerOverflowError :=
  match versioned_receipt receipt with
  | VAction _ ar => action_receipt_congestion_gas receipt cfg ar
  | VData _ | VPromiseYield _ _ | VPromiseResume _ | VGlobalContractDistribution _ => Ok 0
  end.

Definition compute_receipt_size (receipt : Receipt) : Z := vec_len (enc receipt_c receipt).

Definition receipt_congestion_gas (e : ReceiptOrStateStoredReceipt) (cfg : RuntimeConfig)
    : result Z IntegerOverflowError :=
  match e with
  | BareReceipt r => compute_receipt_congestion_gas r cfg
  | StoredReceipt (StoredV0 _ m) | StoredReceipt (StoredV1 _ m) => Ok (congestion_gas m)
  end.

Definition receipt_size (e : ReceiptOrStateStoredReceipt) : Z :=
  match e with
  | BareReceipt r => compute_receipt_size r
  | StoredReceipt (StoredV0 _ m) | StoredReceipt (StoredV1 _ m) => congestion_size m
  end.

(** The form in which a receipt is put into a queue. *)
Definition stored_form (cfg : RuntimeConfig) (receipt : Receipt) (size gas : Z)
    : ReceiptOrStateStoredReceipt :=
  if use_state_stored_receipt cfg then StoredReceipt (StoredV1 receipt (mkMetadata gas size))
  else BareReceipt receipt.

(** [Receipt::receiver_shard_id]. *)
Definition receiver_shard_id (layout : ShardLayout) (receipt : Receipt) : result Z RuntimeError :=
  match r_receipt receipt with
  | RGlobalContractDistribution g =>
      if contains (gd_target_shard g) (shard_ids layout) then Ok (gd_target_shard g)
      else
        let? children := map_err (fun _ => ValidatorError (lit ""))
                           (get_children_shards_ids layout (gd_target_shard g)) in
        match children with
        | None => Err (ValidatorError
                         (Msg "Shard {target_shard} does not exist in the parent shard layout"
                            [FZ (gd_target_shard g)]))
        | Some children => unwrap (head children)
        end
  | _ => map_err (fun _ => ValidatorError (lit "")) (account_id_to_shard_id layout (r_receiver_id receipt))
  end.

(* ------------------------------------------------------------------ *)
(** ** The sink *)

Record OutgoingLimit : Type := mkOutgoingLimit {
  ol_gas : Z;
  ol_size : Z;
}.

Record ReceiptSink : Type := mkReceiptSink {
  rs_own_congestion_info : CongestionInfo;
  rs_outgoing_receipts : list Receipt;
  rs_outgoing_limit : gmap Z OutgoingLimit;
  rs_outgoing_buffers : gmap Z (TrieQueue ReceiptOrStateStoredReceipt);
  rs_outgoing_metadatas : OutgoingMetadatas;
}.

(** [outgoing_buffers.to_shard(shard)]. *)
Definition to_shard (s : ReceiptSink) (shard : Z) : TrieQueue ReceiptOrStateStoredReceipt :=
  default empty_queue (rs_outgoing_buffers s !! shard).

Definition default_limit : OutgoingLimit := mkOutgoingLimit u64_max 0.

(** [Some sink] when the receipt was forwarded, [None] when it was not; a missing limit
    is entered in both cases. *)
Definition try_forward (cfg : RuntimeConfig) (receipt : Receipt) (gas size shard : Z) (s : ReceiptSink)
    : result (bool * ReceiptSink) RuntimeError :=
  let size := if max_receipt_size (limit_config cfg) <? size
              then max_receipt_size (limit_config cfg) else size in
  let limit := default default_limit (rs_outgoing_limit s !! shard) in
  if (gas <=? ol_gas limit) && (size <=? ol_size limit) then
    let? left_gas := unwrap (checked_sub (ol_gas limit) gas) in
    let? left_size := sub_or_panic (ol_size limit) size in
    Ok (true, mkReceiptSink (rs_own_congestion_info s) (rs_outgoing_receipts s ++ [receipt])
                (<[shard := mkOutgoingLimit left_gas left_size]> (rs_outgoing_limit s))
                (rs_outgoing_buffers s) (rs_outgoing_metadatas s))
  else
    Ok (false, mkReceiptSink (rs_own_congestion_info s) (rs_outgoing_receipts s)
                 (<[shard := limit]> (rs_outgoing_limit s)) (rs_outgoing_buffers s)
                 (rs_outgoing_metadatas s)).

Definition buffer_receipt (cfg : RuntimeConfig) (receipt : Receipt) (size gas shard : Z) (s : ReceiptSink)
    : result ReceiptSink RuntimeError :=
  let entry := stored_form cfg receipt size gas in
  let? info := add_receipt_bytes (rs_own_congestion_info s) size in
  let? info := add_buffered_receipt_gas info gas in
  let? metadatas :=
    if should_update_outgoing_metadatas entry
    then map_err RtStorageError (update_on_receipt_pushed (rs_outgoing_metadatas s) shard size gas)
    else Ok (rs_outgoing_metadatas s) in
  let? buffer := map_err overflow_error (push_back (to_shard s shard) entry) in
  Ok (mkReceiptSink info (rs_outgoing_receipts s) (rs_outgoing_limit s)
        (<[shard := buffer]> (rs_outgoing_buffers s)) metadatas).

Definition forward_or_buffer_receipt (cfg : RuntimeConfig) (layout : ShardLayout) (receipt : Receipt)
    (s : ReceiptSink) : result ReceiptSink RuntimeError :=
  let? shard := receiver_shard_id layout receipt in
  let size := compute_receipt_size receipt in
  let? gas := map_err overflow_error (compute_receipt_congestion_gas receipt cfg) in
  let? (forwarded, s) := try_forward cfg receipt gas size shard s in
  if forwarded then Ok s else buffer_receipt cfg receipt size gas shard s.

(** The receipts something has produced, in their order. *)
Fixpoint send_all (cfg : RuntimeConfig) (layout : ShardLayout) (rs : list Receipt) (s : ReceiptSink)
    : result ReceiptSink RuntimeError :=
  match rs with
  | [] => Ok s
  | r :: rs => let? s := forward_or_buffer_receipt cfg layout r s in send_all cfg layout rs s
  end.

(** The loop over one buffer: the number of forwarded receipts and the updates of the
    metadata, which wait until the iteration is over. *)
Fixpoint forward_items (cfg : RuntimeConfig) (layout : ShardLayout)
    (items : list (result ReceiptOrStateStoredReceipt StorageError))
    (s : ReceiptSink) (num_forwarded : Z) (updates : list (Z * Z))
    : result (ReceiptSink * Z * list (Z * Z)) RuntimeError :=
  match items with
  | [] => Ok (s, num_forwarded, updates)
  | item :: items =>
      let? entry := map_err RtStorageError item in
      let? gas := map_err overflow_error (receipt_congestion_gas entry cfg) in
      let size := receipt_size entry in
      let? target_shard_id := receiver_shard_id layout (get_receipt entry) in
      let? (forwarded, s) := try_forward cfg (get_receipt entry) gas size target_shard_id s in
      if forwarded then
        let? info := remove_receipt_bytes (rs_own_congestion_info s) size in
        let? info := remove_buffered_receipt_gas info gas in
        let s := mkReceiptSink info (rs_outgoing_receipts s) (rs_outgoing_limit s)
                   (rs_outgoing_buffers s) (rs_outgoing_metadatas s) in
        forward_items cfg layout items s (num_forwarded + 1)
          (if should_update_outgoing_metadatas entry then updates ++ [(size, gas)] else updates)
      else Ok (s, num_forwarded, updates)
  end.

Fixpoint pop_groups (m : OutgoingMetadatas) (shard : Z) (updates : list (Z * Z))
    : result OutgoingMetadatas StorageError :=
  match updates with
  | [] => Ok m
  | (size, gas) :: updates =>
      let? m := update_on_receipt_popped m shard size gas in
      pop_groups m shard updates
  end.

Definition forward_from_buffer_to_shard (cfg : RuntimeConfig) (layout : ShardLayout)
    (buffer_shard_id : Z) (s : ReceiptSink) : result ReceiptSink RuntimeError :=
  let? (s, num_forwarded, updates) :=
    forward_items cfg layout (queue_iter (to_shard s buffer_shard_id)) s 0 [] in
  let '(buffer, removed) := pop_n num_forwarded (to_shard s buffer_shard_id) in
  let buffers := if 0 <? removed then <[buffer_shard_id := buffer]> (rs_outgoing_buffers s)
                 else rs_outgoing_buffers s in
  let? metadatas :=
    map_err RtStorageError (pop_groups (rs_outgoing_metadatas s) buffer_shard_id updates) in
  Ok (mkReceiptSink (rs_own_congestion_info s) (rs_outgoing_receipts s) (rs_outgoing_limit s)
        buffers metadatas).

Fixpoint forward_from_buffers (cfg : RuntimeConfig) (layout : ShardLayout) (shards : list Z)
    (s : ReceiptSink) (all_empty : bool) : result (ReceiptSink * bool) RuntimeError :=
  match shards with
  | [] => Ok (s, all_empty)
  | shard :: shards =>
      let? s := forward_from_buffer_to_shard cfg layout shard s in
      let? len := queue_len (to_shard s shard) in
      forward_from_buffers cfg layout shards s (all_empty && (len =? 0))
  end.

(** Parents of split shards in ascending order, then the shards of the layout.  The
    debug assertion is not part of a release build. *)
Definition forward_from_buffer (cfg : RuntimeConfig) (layout : ShardLayout) (s : ReceiptSink)
    : result ReceiptSink RuntimeError :=
  let? parents := map_err (fun _ => ValidatorError (lit "")) (get_split_parent_shard_ids layout) in
  let? (s, all_empty) := forward_from_buffers cfg layout
                           (sorted_ids (elements parents) ++ shard_ids layout) s true in
  if all_empty && negb (buffered_receipts_gas (rs_own_congestion_info s) =? 0) then Panic else Ok s.

(* ------------------------------------------------------------------ *)
(** ** Delayed receipts *)

Record DelayedReceiptQueueWrapper : Type := mkDelayed {
  dq_queue : TrieQueue ReceiptOrStateStoredReceipt;
  dq_new_delayed_gas : Z;
  dq_new_delayed_bytes : Z;
  dq_removed_delayed_gas : Z;
  dq_removed_delayed_bytes : Z;
}.

Definition delayed_new (q : TrieQueue ReceiptOrStateStoredReceipt) : DelayedReceiptQueueWrapper :=
  mkDelayed q 0 0 0 0.

Definition delayed_push (cfg : RuntimeConfig) (d : DelayedReceiptQueueWrapper) (receipt : Receipt)
    : result DelayedReceiptQueueWrapper RuntimeError :=
  let? gas := map_err overflow_error (compute_receipt_congestion_gas receipt cfg) in
  let size := compute_receipt_size receipt in
  let? new_gas := map_err overflow_error (checked_add_result (dq_new_delayed_gas d) gas) in
  let? new_bytes := map_err overflow_error (checked_add_result (dq_new_delayed_bytes d) size) in
  let? q := map_err overflow_error (push_back (dq_queue d) (stored_form cfg receipt size gas)) in
  Ok (mkDelayed q new_gas new_bytes (dq_removed_delayed_gas d) (dq_removed_delayed_bytes d)).

(** Whether the receipt belongs to this shard; the lookups of the layout are unwrapped. *)
Definition receipt_filter_fn (layout : ShardLayout) (own_shard : Z) (e : ReceiptOrStateStoredReceipt)
    : result bool RuntimeError :=
  match receiver_shard_id layout (get_receipt e) with
  | Ok shard => Ok (shard =? own_shard)
  | _ => Panic
  end.

(** The loop of [pop]: [limit n] tells whether the proof size limit is exceeded after
    [n] more pops, which the storage below decides.  The fuel is the length of the
    queue plus one. *)
Fixpoint delayed_pop_loop (fuel : nat) (cfg : RuntimeConfig) (layout : ShardLayout) (own_shard : Z)
    (limit : nat -> bool) (n : nat) (d : DelayedReceiptQueueWrapper)
    : result (option ReceiptOrStateStoredReceipt * DelayedReceiptQueueWrapper) RuntimeError :=
  match fuel with
  | O => Panic
  | S fuel =>
      if limit n then Ok (None, d)
      else
        let? popped := map_err RtStorageError (pop_front (dq_queue d)) in
        match popped with
        | None => Ok (None, d)
        | Some (entry, q) =>
            let? gas := map_err overflow_error (receipt_congestion_gas entry cfg) in
            let size := receipt_size entry in
            let? rg := map_err overflow_error (checked_add_result (dq_removed_delayed_gas d) gas) in
            let? rb := map_err overflow_error (checked_add_result (dq_removed_delayed_bytes d) size) in
            let d := mkDelayed q (dq_new_delayed_gas d) (dq_new_delayed_bytes d) rg rb in
            let? keep := receipt_filter_fn layout own_shard entry in
            if keep then Ok (Some entry, d)
            else delayed_pop_loop fuel cfg layout own_shard limit (S n) d
        end
  end.

Definition delayed_pop (cfg : RuntimeConfig) (layout : ShardLayout) (own_shard : Z)
    (limit : nat -> bool) (d : DelayedReceiptQueueWrapper)
    : result (option ReceiptOrStateStoredReceipt * DelayedReceiptQueueWrapper) RuntimeError :=
  let? len := queue_len (dq_queue d) in
  delayed_pop_loop (S (Z.to_nat len)) cfg layout own_shard limit 0 d.

Definition apply_congestion_changes (d : DelayedReceiptQueueWrapper) (i : CongestionInfo)
    : result CongestionInfo RuntimeError :=
  let? i := add_delayed_receipt_gas i (dq_new_delayed_gas d) in
  let? i := remove_delayed_receipt_gas i (dq_removed_delayed_gas d) in
  let? i := add_receipt_bytes i (dq_new_delayed_bytes d) in
  remove_receipt_bytes i (dq_removed_delayed_bytes d).

(* ------------------------------------------------------------------ *)
(** ** Bootstrapping the congestion information from the state *)

Definition overflow_storage_err : StorageError :=
  StorageInconsistentState (lit "Calculations on stored receipt overflows calculations").

Definition int_overflow_to_storage_err (_ : IntegerOverflowError) : StorageError := overflow_storage_err.

Fixpoint bootstrap_queue (cfg : RuntimeConfig) (items : list (result ReceiptOrStateStoredReceipt StorageError))
    (gas bytes : Z) : result (Z * Z) StorageError :=
  match items with
  | [] => Ok (gas, bytes)
  | item :: items =>
      let? entry := item in
      let? g := map_err int_overflow_to_storage_err (receipt_congestion_gas entry cfg) in
      let? gas := ok_or (checked_add u128_max gas g) overflow_storage_err in
      let? bytes := ok_or (checked_add u64_max bytes (receipt_size entry)) overflow_storage_err in
      bootstrap_queue cfg items gas bytes
  end.

Fixpoint bootstrap_buffers (cfg : RuntimeConfig)
    (buffers : list (TrieQueue ReceiptOrStateStoredReceipt)) (gas bytes : Z)
    : result (Z * Z) StorageError :=
  match buffers with
  | [] => Ok (gas, bytes)
  | q :: buffers =>
      let? (gas, bytes) := bootstrap_queue cfg (queue_iter q) gas bytes in
      bootstrap_buffers cfg buffers gas bytes
  end.

(** Only the sums matter, so the order of the buffers does not. *)
Definition bootstrap_congestion_info (cfg : RuntimeConfig)
    (delayed : TrieQueue ReceiptOrStateStoredReceipt)
    (buffers : gmap Z (TrieQueue ReceiptOrStateStoredReceipt)) (own_shard : Z)
    : result CongestionInfo StorageError :=
  let? (delayed_gas, bytes) := bootstrap_queue cfg (queue_iter delayed) 0 0 in
  let? (buffered_gas, bytes) := bootstrap_buffers cfg (map snd (map_to_list buffers)) 0 bytes in
  Ok (mkCongestionInfo delayed_gas buffered_gas bytes (as_u16 own_shard)).
End congestion.
