(* ===== verification/CongestionControl.v ===== *)
(** * Congestion levels (core/primitives/src/congestion_info.rs, [CongestionControl])

    How congested a shard is, as the greatest of four fractions in floating point, and
    what follows from it: the gas another shard may send, and whether transactions are
    accepted. *)

From S2P Require Import Prelude Float64 Crates AccountId Primitives Errors Borsh Fees TrieQueue OutgoingMetadata.
From S2P Require Import ReceiptWire State RuntimeTypes ShardLayout Congestion.

Record CongestionControlConfig : Type := mkCongestionControlConfig {
  max_congestion_incoming_gas : Z;
  max_congestion_outgoing_gas : Z;
  max_congestion_memory_consumption : Z;
  max_congestion_missed_chunks : Z;
  max_outgoing_gas : Z;
  min_outgoing_gas : Z;
  allowed_shard_outgoing_gas : Z;
  max_tx_gas : Z;
  min_tx_gas : Z;
  reject_tx_congestion_threshold : f64;
  outgoing_receipts_usual_size_limit : Z;
  outgoing_receipts_big_size_limit : Z;
}.

Record CongestionControl : Type := mkCongestionControl {
  cc_config : CongestionControlConfig;
  cc_info : CongestionInfo;
  missed_chunks_count : Z;
}.

Definition ONE : f64 := Fin 1 0.

Definition clamped_f64_fraction (value max : Z) : result f64 unit :=
  if negb (0 <? max) then Panic
  else if max <=? value then Ok ONE
  else Ok (f_div (of_Z value) (of_Z max)).

Definition incoming_congestion (i : CongestionInfo) (cfg : CongestionControlConfig) : result f64 unit :=
  clamped_f64_fraction (delayed_receipts_gas i) (max_congestion_incoming_gas cfg).
Definition outgoing_congestion (i : CongestionInfo) (cfg : CongestionControlConfig) : result f64 unit :=
  clamped_f64_fraction (buffered_receipts_gas i) (max_congestion_outgoing_gas cfg).
Definition memory_congestion (i : CongestionInfo) (cfg : CongestionControlConfig) : result f64 unit :=
  clamped_f64_fraction (receipt_bytes i) (max_congestion_memory_consumption cfg).

Definition missed_chunks_congestion (c : CongestionControl) : result f64 unit :=
  if missed_chunks_count c <=? 1 then Ok (Fin 0 0)
  else clamped_f64_fraction (missed_chunks_count c) (max_congestion_missed_chunks (cc_config c)).

Definition localized_congestion_level (i : CongestionInfo) (cfg : CongestionControlConfig) : result f64 unit :=
  let? incoming := incoming_congestion i cfg in
  let? outgoing := outgoing_congestion i cfg in
  let? memory := memory_congestion i cfg in
  Ok (f_max (f_max incoming outgoing) memory).

Definition congestion_level (c : CongestionControl) : result f64 unit :=
  let? incoming := incoming_congestion (cc_info c) (cc_config c) in
  let? outgoing := outgoing_congestion (cc_info c) (cc_config c) in
  let? memory := memory_congestion (cc_info c) (cc_config c) in
  let? missed := missed_chunks_congestion c in
  Ok (f_max (f_max (f_max incoming outgoing) memory) missed).

(** [is_fully_congested]: equality with [1.0]. *)
Definition level_is_full (congestion_level : f64) : bool := f_eq congestion_level ONE.

Definition mix (left right : Z) (ratio : f64) : Z :=
  let left_part := f_mul (of_Z left) (f_sub ONE ratio) in
  let right_part := f_mul (of_Z right) ratio in
  f_to_u64 (f_round (f_add left_part right_part)).

Definition outgoing_gas_limit (c : CongestionControl) (sender_shard : Z) : result Z unit :=
  let? congestion := congestion_level c in
  if level_is_full congestion then
    if sender_shard =? allowed_shard (cc_info c) then Ok (allowed_shard_outgoing_gas (cc_config c))
    else Ok 0
  else Ok (mix (max_outgoing_gas (cc_config c)) (min_outgoing_gas (cc_config c)) congestion).

Definition outgoing_size_limit (c : CongestionControl) (sender_shard : Z) : Z :=
  if sender_shard =? allowed_shard (cc_info c) then outgoing_receipts_big_size_limit (cc_config c)
  else outgoing_receipts_usual_size_limit (cc_config c).

Definition process_tx_limit (c : CongestionControl) : result Z unit :=
  let? incoming := incoming_congestion (cc_info c) (cc_config c) in
  Ok (mix (max_tx_gas (cc_config c)) (min_tx_gas (cc_config c)) incoming).

Inductive RejectTransactionReason : Type :=
| IncomingCongestion (congestion_level : f64)
| OutgoingCongestion (congestion_level : f64)
| MemoryCongestion (congestion_level : f64)
| MissedChunks (missed_chunks : Z).

Inductive ShardAcceptsTransactions : Type :=
| AcceptsYes
| AcceptsNo (reason : RejectTransactionReason).

(** None of the levels is [NaN], so that [NotNan::new] succeeds. *)
Definition shard_accepts_transactions (c : CongestionControl) : result ShardAcceptsTransactions unit :=
  let? incoming := incoming_congestion (cc_info c) (cc_config c) in
  let? outgoing := outgoing_congestion (cc_info c) (cc_config c) in
  let? memory := memory_congestion (cc_info c) (cc_config c) in
  let? missed := missed_chunks_congestion c in
  let level := f_max (f_max (f_max incoming outgoing) memory) missed in
  let level := match level with NaN => ONE | _ => level end in
  if f_lt level (reject_tx_congestion_threshold (cc_config c)) then Ok AcceptsYes
  else
    Ok (AcceptsNo
      (if f_le level missed then MissedChunks (missed_chunks_count c)
       else if f_le level incoming then IncomingCongestion level
       else if f_le level outgoing then OutgoingCongestion level
       else MemoryCongestion level)).

(** With equal bounds above 2^53 the interpolation leaves the range between them. *)
Example mix_below_both : mix 9007199254740993 9007199254740993 (Fin 0 0) = 9007199254740992.
Proof. vm_compute. reflexivity. Qed.

Example mix_above_both : mix 9223372036854775807 9223372036854775807 (Fin 0 0) = 9223372036854775808.
Proof. vm_compute. reflexivity. Qed.

(* ------------------------------------------------------------------ *)
(** ** Fractions *)

(** A number between 0 and 1. *)
Definition frac (x : f64) : Prop :=
  exists m e, x = Fin m e /\ -1074 <= e /\ 0 <= m /\ m * 2 ^ (e + 1074) <= 2 ^ 1074.

Lemma full_scaled m e : -1074 <= e -> level_is_full (Fin m e) = (m * 2 ^ (e + 1074) =? 2 ^ 1074).
Proof.
  intros He. unfold level_is_full, f_eq, ONE. rewrite compare_scaled, Z.add_0_l, Z.mul_1_l by lia.
  rewrite Z.eqb_compare. by destruct (_ ?= _).
Qed.

Lemma max_full x y : frac x -> frac y ->
  frac (f_max x y) /\ level_is_full (f_max x y) = level_is_full x || level_is_full y.
Proof.
  intros Hx Hy. pose proof Hx as (m & e & -> & He & Hm & Hle). pose proof Hy as (m' & e' & -> & He' & Hm' & Hle').
  unfold f_max. rewrite compare_scaled, !full_scaled by done.
  destruct (Z.compare_spec (m * 2 ^ (e + 1074)) (m' * 2 ^ (e' + 1074))) as [Heq|Hlt|Hgt];
    rewrite full_scaled by done; split; try done.
  - rewrite <- Heq. by destruct (_ =? _).
  - rewrite (proj2 (Z.eqb_neq (m * _) _)) by lia. done.
  - rewrite (proj2 (Z.eqb_neq (m' * _) _)) by lia. by rewrite orb_false_r.
Qed.

Lemma quotient_scale m e m' e' : -52 <= e -> -52 <= e' ->
  up m (e - e') * (m' * 2 ^ (e' + 52)) = down m' (e - e') * (m * 2 ^ (e + 52)).
Proof.
  intros He He'. destruct (Z.le_gt_cases e' e).
  - rewrite up_nonneg, down_nonneg by lia. replace (e + 52) with ((e - e') + (e' + 52)) by lia.
    rewrite (Z.pow_add_r 2 (e - e') (e' + 52)) by lia. ring.
  - rewrite up_nonpos, down_nonpos by lia. replace (e' + 52) with (- (e - e') + (e + 52)) by lia.
    rewrite (Z.pow_add_r 2 (- (e - e')) (e + 52)) by lia. ring.
Qed.

(** Close to the maximum: the distance floating point cannot see. *)
Definition nearly (v max : Z) : Prop := max * (2 ^ 51 - 1) <= v * 2 ^ 51.

Lemma fraction_spec v max : 0 <= v < max -> max < 2 ^ 64 ->
  frac (f_div (of_Z v) (of_Z max))
  /\ (level_is_full (f_div (of_Z v) (of_Z max)) = true -> nearly v max).
Proof.
  intros Hv Hmax.
  destruct (of_Z_spec max ltac:(lia)) as (m' & e' & E' & Hm' & He' & _ & _ & Herr').
  destruct (Z.eq_dec v 0) as [->|Hv0].
  { rewrite E'. change (of_Z 0) with (Fin 0 0). unfold f_div. rewrite (proj2 (Z.eqb_neq m' 0)) by lia.
    unfold up. rewrite Z.mul_0_l, Z.mul_0_r. split; [exists 0, 0; split_and!; done|done]. }
  destruct (of_Z_spec v ltac:(lia)) as (m & e & E & Hm & He & _ & _ & Herr).
  pose proof (of_Z_mono v max m e m' e' ltac:(lia) Hmax E E') as Hmono.
  rewrite E, E'. unfold f_div. rewrite (proj2 (Z.eqb_neq m' 0)) by lia.
  rewrite Z.sgn_pos, Z.mul_1_l, (Z.abs_eq m') by lia.
  pose proof (quotient_scale m e m' e' ltac:(lia) ltac:(lia)) as Hq.
  set (a := up m (e - e')) in *. set (b := down m' (e - e')) in *.
  assert (0 < a) by (unfold a, up; apply Z.mul_pos_pos; [lia|apply Z.pow_pos_nonneg; lia]).
  assert (0 < b) by (unfold b; apply down_pos; lia).
  set (V := m * 2 ^ (e + 52)) in *. set (V' := m' * 2 ^ (e' + 52)) in *.
  assert (2 ^ 52 <= V) as HV.
  { unfold V. pose proof (Z.pow_pos_nonneg 2 (e + 52) ltac:(lia) ltac:(lia)).
    assert (2 ^ 52 * 1 <= m * 2 ^ (e + 52)) by (apply Z.mul_le_mono_nonneg; lia). lia. }
  assert (V' <= 2 ^ 53 * 2 ^ 63) as HV'.
  { unfold V'. apply Z.mul_le_mono_nonneg; [lia..|apply Z.pow_nonneg; lia|apply Z.pow_le_mono_r; lia]. }
  clearbody a b V V'. clear E E'.
  assert (a <= b) as Hab by nia.
  assert (b <= a * 2 ^ 1022) as Hlow.
  { assert (b * 2 ^ 52 <= b * V) by (apply Z.mul_le_mono_nonneg_l; lia).
    assert (a * V' <= a * (2 ^ 53 * 2 ^ 63)) by (apply Z.mul_le_mono_nonneg_l; lia).
    assert (2 ^ 53 * 2 ^ 63 = 2 ^ 64 * 2 ^ 52) as Ep by done. rewrite Ep in *.
    assert (b * 2 ^ 52 <= a * 2 ^ 64 * 2 ^ 52) as Hb by lia. apply Z.mul_le_mono_pos_r in Hb; [|done].
    assert (a * 2 ^ 64 <= a * 2 ^ 1022) by (apply Z.mul_le_mono_nonneg_l; [lia|done]). lia. }
  destruct (round_at_most_one a b ltac:(lia) Hlow) as (mr & er & Er & Her & Hmr & Hle & Hone). rewrite Er.
  split; [exists mr, er; split_and!; (done || lia)|].
  rewrite full_scaled by lia. intros Hf%Z.eqb_eq. specialize (Hone Hf). unfold nearly.
  assert (V' * (2 ^ 54 - 1) <= V * 2 ^ 54) as HVV.
  { assert (b * (2 ^ 54 - 1) * V <= a * 2 ^ 54 * V) as H1 by (apply Z.mul_le_mono_nonneg_r; lia).
    replace (b * (2 ^ 54 - 1) * V) with (a * (V' * (2 ^ 54 - 1))) in H1 by nia.
    replace (a * 2 ^ 54 * V) with (a * (V * 2 ^ 54)) in H1 by ring. by apply Z.mul_le_mono_pos_l in H1. }
  change (2 ^ 54) with 18014398509481984 in *. change (2 ^ 53) with 9007199254740992 in *.
  change (2 ^ 52) with 4503599627370496 in *. change (2 ^ 51) with 2251799813685248. lia.
Qed.

Lemma one_frac : frac ONE /\ level_is_full ONE = true.
Proof. split; [|reflexivity]. exists 1, 0. by split_and!. Qed.

Lemma clamped_spec v max : 0 <= v -> 0 < max < 2 ^ 64 ->
  exists x, clamped_f64_fraction v max = Ok x /\ frac x
    /\ (max <= v -> level_is_full x = true) /\ (level_is_full x = true -> nearly v max).
Proof.
  intros Hv Hmax. unfold clamped_f64_fraction. rewrite (proj2 (Z.ltb_lt 0 max)) by lia. simpl.
  destruct (Z.leb_spec max v) as [Hge|Hlt].
  - exists ONE. destruct one_frac. split_and!; try done. intros _. unfold nearly. lia.
  - destruct (fraction_spec v max ltac:(lia) ltac:(lia)) as [Hf Hn]. eexists. split_and!; try done. lia.
Qed.

(* ------------------------------------------------------------------ *)
(** ** Levels *)

Record config_ok (cfg : CongestionControlConfig) : Prop := mk_config_ok {
  cf_incoming : 0 < max_congestion_incoming_gas cfg < 2 ^ 64;
  cf_outgoing : 0 < max_congestion_outgoing_gas cfg < 2 ^ 64;
  cf_memory : 0 < max_congestion_memory_consumption cfg < 2 ^ 64;
  cf_missed : 0 < max_congestion_missed_chunks cfg < 2 ^ 64;
}.

Definition counters_nonneg (i : CongestionInfo) : Prop :=
  0 <= delayed_receipts_gas i /\ 0 <= buffered_receipts_gas i /\ 0 <= receipt_bytes i.

(** One of the four counters is at its maximum, up to [near]. *)
Definition some_counter (near : Z -> Z -> Prop) (c : CongestionControl) : Prop :=
  near (delayed_receipts_gas (cc_info c)) (max_congestion_incoming_gas (cc_config c))
  \/ near (buffered_receipts_gas (cc_info c)) (max_congestion_outgoing_gas (cc_config c))
  \/ near (receipt_bytes (cc_info c)) (max_congestion_memory_consumption (cc_config c))
  \/ (1 < missed_chunks_count c
      /\ near (missed_chunks_count c) (max_congestion_missed_chunks (cc_config c))).

Definition reached (v max : Z) : Prop := max <= v.

(** The congestion level of a shard is a number between 0 and 1, in floating point.  The
    shard counts as fully congested, by equality with 1.0, whenever one of its counters
    has reached its configured maximum (missed chunks count from two on), and only when
    one is within a fraction 2^-51 of it.  Then the only gas that may be sent to it is the
    fixed amount of the shard it has chosen; every other shard may send none. *)
Theorem full_congestion c sender_shard :
  config_ok (cc_config c) -> counters_nonneg (cc_info c) ->
  exists level, congestion_level c = Ok level
    /\ frac level
    /\ (some_counter reached c -> level_is_full level = true)
    /\ (level_is_full level = true -> some_counter nearly c)
    /\ (some_counter reached c ->
        outgoing_gas_limit c sender_shard =
        Ok (if sender_shard =? allowed_shard (cc_info c) then allowed_shard_outgoing_gas (cc_config c) else 0)).
Proof.
  intros [C1 C2 C3 C4] (I1 & I2 & I3).
  destruct (clamped_spec _ _ I1 C1) as (x1 & E1 & F1 & R1 & N1).
  destruct (clamped_spec _ _ I2 C2) as (x2 & E2 & F2 & R2 & N2).
  destruct (clamped_spec _ _ I3 C3) as (x3 & E3 & F3 & R3 & N3).
  assert (exists x4, missed_chunks_congestion c = Ok x4 /\ frac x4
    /\ (1 < missed_chunks_count c /\ max_congestion_missed_chunks (cc_config c) <= missed_chunks_count c ->
        level_is_full x4 = true)
    /\ (level_is_full x4 = true -> 1 < missed_chunks_count c
        /\ nearly (missed_chunks_count c) (max_congestion_missed_chunks (cc_config c))))
    as (x4 & E4 & F4 & R4 & N4).
  { unfold missed_chunks_congestion. destruct (Z.leb_spec (missed_chunks_count c) 1).
    - exists (Fin 0 0). split_and!; [done|by exists 0, 0|lia|done].
    - destruct (clamped_spec (missed_chunks_count c) _ ltac:(lia) C4) as (x & E & F & R & N). exists x.
      split_and!; try done; [tauto|auto]. }
  destruct (max_full x1 x2 F1 F2) as [F12 L12]. destruct (max_full _ x3 F12 F3) as [F123 L123].
  destruct (max_full _ x4 F123 F4) as [F L]. set (level := f_max (f_max (f_max x1 x2) x3) x4) in *.
  assert (congestion_level c = Ok level) as El.
  { unfold congestion_level, incoming_congestion, outgoing_congestion, memory_congestion. by rewrite E1, E2, E3, E4. }
  assert (some_counter reached c -> level_is_full level = true) as Hfull.
  { rewrite L, L123, L12, !orb_true_iff. unfold some_counter, reached. tauto. }
  exists level. split; [done|]. split; [done|]. split; [done|]. split.
  - rewrite L, L123, L12, !orb_true_iff. unfold some_counter. tauto.
  - intros Hr. unfold outgoing_gas_limit. rewrite El. simpl. rewrite (Hfull Hr). by destruct (_ =? _).
Qed.

Lemma full_congestion_witness :
  let cfg := mkCongestionControlConfig 400000000000000000 10000000000000000 1000000000 125 300000000000000000
               1000000000000000 1000000000000000 500000000000000 20000000000000 (round_frac 8 10) 102400 4718592 in
  let c := mkCongestionControl cfg (mkCongestionInfo 400000000000000000 0 0 3) 0 in
  exists level, congestion_level c = Ok level
    /\ frac level
    /\ (some_counter reached c -> level_is_full level = true)
    /\ (level_is_full level = true -> some_counter nearly c)
    /\ (some_counter reached c ->
        outgoing_gas_limit c 3 =
        Ok (if 3 =? allowed_shard (cc_info c) then allowed_shard_outgoing_gas (cc_config c) else 0)).
Proof. intros cfg c. apply (full_congestion c 3); [by split|by split_and!]. Defined.
