(* ===== verification/Scheduling.v ===== *)
(** * Bandwidth requests and grants of a chunk (runtime/src/bandwidth_scheduler/mod.rs,
      runtime/src/congestion_control.rs)

    Around the scheduler: the statuses of the shards from their congestion, the run at
    the start of a chunk and the state it leaves, the limits the sink takes from the
    grants, and the requests a chunk makes for what it has to keep in its buffers. *)

From S2P Require Import Prelude Float64 Crates AccountId Primitives Errors Borsh Fees ShardLayout TrieQueue OutgoingMetadata.
From S2P Require Import ReceiptWire State RuntimeTypes Congestion CongestionControl Bandwidth.

Record ExtendedCongestionInfo : Type := mkExtendedCongestionInfo {
  eci_congestion_info : CongestionInfo;
  eci_missed_chunks_count : Z;
}.

Record BandwidthSchedulerConfig : Type := mkSchedulerConfig {
  bc_max_shard_bandwidth : Z;
  bc_max_single_grant : Z;
  bc_max_allowance : Z;
  bc_max_base_bandwidth : Z;
}.

(** [BandwidthSchedulerStateV1]. *)
Record BandwidthSchedulerState : Type := mkSchedulerState {
  bss_link_allowances : list LinkAllowance;
  bss_sanity_check_hash : list Z;
}.

Record BandwidthSchedulerOutput : Type := mkSchedulerOutput {
  bso_granted : gmap (Z * Z) Z;
  bso_params : BandwidthSchedulerParams;
  scheduler_state_hash : list Z;
}.

Definition link_allowance_c : codec LinkAllowance :=
  map_c (pair_c u64_c (pair_c u64_c u64_c))
    (fun a => (la_sender a, (la_receiver a, la_allowance a)))
    (fun '(s, (r, a)) => mkLinkAllowance s r a).

(** The discriminant of [V1] and the derived encoding of its fields. *)
Definition scheduler_state_c : codec BandwidthSchedulerState :=
  map_c (pair_c (guard_c u8_c (Z.eqb 0)) (pair_c (vec_c link_allowance_c) (array_c 32)))
    (fun s => (0, (bss_link_allowances s, bss_sanity_check_hash s)))
    (fun '(_, (l, h)) => mkSchedulerState l h).

Section scheduling.
Context {C : Crates} {Rng : Type}.
Variable from_seed : list Z -> Rng.
Variable shuffle : list SchedulerBandwidthRequest -> Rng -> list SchedulerBandwidthRequest * Rng.
Variable layout : ShardLayout.
Variable congestion_config : CongestionControlConfig.
Variable scheduler_config : BandwidthSchedulerConfig.

Definition control_of (c : ExtendedCongestionInfo) : CongestionControl :=
  mkCongestionControl congestion_config (eci_congestion_info c) (eci_missed_chunks_count c).

Definition shard_status (c : ExtendedCongestionInfo) : result ShardStatus unit :=
  let allowed := match get_shard_index layout (allowed_shard (eci_congestion_info c)) with
                 | Ok i => Some i | _ => None end in
  let? level := congestion_level (control_of c) in
  Ok (mkShardStatus (level_is_full level) (0 <? eci_missed_chunks_count c) allowed).

Definition shards_status (congestion_info : list (Z * ExtendedCongestionInfo))
    : result (list (Z * ShardStatus)) unit :=
  try_map (fun '(shard_id, c) => let? st := shard_status c in Ok (shard_id, st)) congestion_info.

(** [BandwidthSchedulerParams::new]. *)
Definition scheduler_params (max_receipt_size : Z) : result BandwidthSchedulerParams unit :=
  if num_shards layout =? 0 then Panic
  else calculate (bc_max_shard_bandwidth scheduler_config) (bc_max_single_grant scheduler_config)
         (bc_max_allowance scheduler_config) (bc_max_base_bandwidth scheduler_config)
         max_receipt_size (num_shards layout).

Definition initial_scheduler_state : BandwidthSchedulerState := mkSchedulerState [] (replicate 32 0).

(** The output, and the state that is written back. *)
Definition run_bandwidth_scheduler (max_receipt_size : Z) (prev_state : option BandwidthSchedulerState)
    (congestion_info : list (Z * ExtendedCongestionInfo)) (bandwidth_requests : list (Z * list BandwidthRequest))
    (prev_block_hash : list Z) : result (BandwidthSchedulerOutput * BandwidthSchedulerState) unit :=
  let state := default initial_scheduler_state prev_state in
  let? statuses := shards_status congestion_info in
  let? params := scheduler_params max_receipt_size in
  let? (granted, allowances) := run from_seed shuffle layout params (bss_link_allowances state)
                                  bandwidth_requests statuses prev_block_hash in
  let state := mkSchedulerState allowances
                 (sha256 (bss_sanity_check_hash state ++ sha256 (enc (vec_c u64_c) (shard_ids layout)))) in
  Ok (mkSchedulerOutput granted params (sha256 (enc scheduler_state_c state)), state).

(** The limits of [ReceiptSink::new]. *)
Definition outgoing_limits (own_shard : Z) (congestion_info : list (Z * ExtendedCongestionInfo))
    (granted : gmap (Z * Z) Z) : result (gmap Z OutgoingLimit) unit :=
  for_each (fun '(shard_id, c) m =>
      let? gas := if negb (shard_id =? own_shard) then outgoing_gas_limit (control_of c) own_shard
                  else Ok u64_max in
      Ok (<[shard_id := mkOutgoingLimit gas (get_granted_bandwidth granted own_shard shard_id)]> m))
    congestion_info ∅.

(* ------------------------------------------------------------------ *)
(** ** Requests *)

Definition get_receipt_group_sizes_for_buffer_to_shard (s : ReceiptSink) (shard : Z)
    (params : BandwidthSchedulerParams) : result (list (result Z StorageError)) RuntimeError :=
  let? len := queue_len (to_shard s shard) in
  if len =? 0 then Ok []
  else Ok (match om_metadatas (rs_outgoing_metadatas s) !! shard with
           | Some metadata =>
               if gq_total_receipts_num metadata =? len then iter_receipt_group_sizes metadata
               else [Ok (bp_max_receipt_size params)]
           | None => [Ok (bp_max_receipt_size params)]
           end).

Definition cap_size (params : BandwidthSchedulerParams) (size : result Z StorageError) : result Z StorageError :=
  let? size := size in Ok (Z.min size (bp_max_receipt_size params)).

Definition generate_bandwidth_request (s : ReceiptSink) (shard : Z) (params : BandwidthSchedulerParams)
    : result (option BandwidthRequest) RuntimeError :=
  let? own := get_receipt_group_sizes_for_buffer_to_shard s shard params in
  let? parent :=
    match get_parent_shard_id layout shard with
    | Ok parent_shard_id => get_receipt_group_sizes_for_buffer_to_shard s parent_shard_id params
    | Err _ => Ok []
    | Panic => Panic
    end in
  map_err RtStorageError (make_from_receipt_sizes shard (map (cap_size params) (parent ++ own)) params).

Fixpoint generate_requests (s : ReceiptSink) (params : BandwidthSchedulerParams) (shards : list Z)
    : result (list BandwidthRequest) RuntimeError :=
  match shards with
  | [] => Ok []
  | shard :: shards =>
      let? request := generate_bandwidth_request s shard params in
      let? rest := generate_requests s params shards in
      Ok (match request with Some r => r :: rest | None => rest end)
  end.

Definition generate_bandwidth_requests (s : ReceiptSink) (params : BandwidthSchedulerParams)
    : result (list BandwidthRequest) RuntimeError :=
  generate_requests s params (shard_ids layout).
End scheduling.
