(* ===== verification/SinkProofs.v ===== *)
(** * The receipt sink loses nothing and counts right

    Every receipt handed to the sink is sent once or kept in a buffer once, in the
    order of arrival for each buffer; the counters of the congestion information are
    at all times what a recount of the stored receipts gives. *)

From S2P Require Import Prelude Crates AccountId Primitives Errors Borsh Fees TrieQueue OutgoingMetadata.
From S2P Require Import ReceiptWire State RuntimeTypes ShardLayout Congestion.

Notation Entry := ReceiptOrStateStoredReceipt.

(** The items of a queue. *)
Definition contents {A : Type} (q : TrieQueue A) : list A :=
  omap (fun r => match r with Ok x => Some x | _ => None end) (queue_iter q).

Lemma contents_abs {A} (q : TrieQueue A) l : queue_abs q l -> contents q = l.
Proof.
  intros Hq. unfold contents. rewrite (queue_iter_abs q l Hq). clear Hq.
  induction l as [|x l IH]; [done|]. simpl. f_equal. apply IH.
Qed.

Section sink.
Context {C : Crates} (cfg : RuntimeConfig) (layout : ShardLayout).

Definition gas_of (e : Entry) : Z :=
  match receipt_congestion_gas e cfg with Ok g => g | _ => 0 end.
Definition target_of (e : Entry) : Z :=
  match receiver_shard_id layout (get_receipt e) with Ok s => s | _ => 0 end.

(** An entry of a queue: its gas can be computed, its size is positive, and it has a
    receiving shard. *)
Record entry_ok (e : Entry) : Prop := mk_entry_ok {
  eo_gas : receipt_congestion_gas e cfg = Ok (gas_of e);
  eo_gas_pos : 0 <= gas_of e;
  eo_size : 0 < receipt_size e;
  eo_target : receiver_shard_id layout (get_receipt e) = Ok (target_of e);
}.

Definition queue_gas (q : TrieQueue Entry) : Z := zsum gas_of (contents q).
Definition queue_bytes (q : TrieQueue Entry) : Z := zsum receipt_size (contents q).
Definition buffers_sum (f : TrieQueue Entry -> Z) (m : gmap Z (TrieQueue Entry)) : Z :=
  map_fold (fun _ q acc => f q + acc) 0 m.

(** Size and gas of the entries that the receipt groups cover. *)
Definition grouped (l : list Entry) : list (Z * Z) :=
  map (fun e => (receipt_size e, gas_of e)) (filter (fun e => should_update_outgoing_metadatas e = true) l).

Definition groups_of (s : ReceiptSink) (shard : Z) : ReceiptGroupsQueue :=
  default empty_groups (om_metadatas (rs_outgoing_metadatas s) !! shard).

Definition queue_ok (q : TrieQueue Entry) : Prop :=
  queue_abs q (contents q) /\ Forall entry_ok (contents q).

(** The invariant of the sink; [bytes] and [gas] are those of the delayed receipts,
    which the sink does not touch. *)
Record sink_ok (bytes gas : Z) (s : ReceiptSink) : Prop := mk_sink_ok {
  so_queues : map_Forall (fun _ q => queue_ok q) (rs_outgoing_buffers s);
  so_groups : forall shard,
    groups_abs (om_groups_config (rs_outgoing_metadatas s)) (groups_of s shard)
      (grouped (contents (to_shard s shard)));
  so_bytes : receipt_bytes (rs_own_congestion_info s)
             = buffers_sum queue_bytes (rs_outgoing_buffers s) + bytes;
  so_gas : buffered_receipts_gas (rs_own_congestion_info s)
           = buffers_sum queue_gas (rs_outgoing_buffers s);
  so_delayed : delayed_receipts_gas (rs_own_congestion_info s) = gas;
  so_fits : buffered_receipts_gas (rs_own_congestion_info s) <= u128_max;
}.

Lemma to_shard_ok bytes gas s shard : sink_ok bytes gas s -> queue_ok (to_shard s shard).
Proof.
  intros Hs. unfold to_shard. destruct (rs_outgoing_buffers s !! shard) as [q|] eqn:E; simpl.
  - by eapply (so_queues _ _ _ Hs).
  - split; [apply queue_abs_empty|]. by constructor.
Qed.

Lemma entries_nonneg l : Forall entry_ok l -> 0 <= zsum gas_of l /\ 0 <= zsum receipt_size l.
Proof.
  intros H. split; apply zsum_nonneg; (eapply Forall_impl; [exact H|]); intros e []; lia.
Qed.

Lemma buffers_sum_nonneg f (m : gmap Z (TrieQueue Entry)) :
  map_Forall (fun _ q => 0 <= f q) m -> 0 <= buffers_sum f m.
Proof.
  unfold buffers_sum. induction m as [|k q m Hk Hf IH] using map_first_key_ind; intros H.
  { by rewrite map_fold_empty. }
  rewrite map_fold_insert_first_key by done. apply map_Forall_insert in H as [? ?]; [|done].
  specialize (IH H0). lia.
Qed.

(** The buffers hold at least what one of them holds. *)
Lemma buffers_sum_ge f (m : gmap Z (TrieQueue Entry)) k :
  map_Forall (fun _ q => 0 <= f q) m -> default 0 (f <$> m !! k) <= buffers_sum f m.
Proof.
  intros H. pose proof (sum_delete f m k) as E. unfold buffers_sum.
  assert (0 <= buffers_sum f (delete k m)) as Hd.
  { apply buffers_sum_nonneg. by apply map_Forall_delete. }
  unfold buffers_sum in Hd. lia.
Qed.

Lemma queues_nonneg (m : gmap Z (TrieQueue Entry)) :
  map_Forall (fun _ q => queue_ok q) m ->
  map_Forall (fun _ q => 0 <= queue_gas q) m /\ map_Forall (fun _ q => 0 <= queue_bytes q) m.
Proof.
  intros H. split; intros k q Hq; destruct (H k q Hq) as [_ He%entries_nonneg]; apply He.
Qed.

Lemma to_shard_sum f s shard :
  f empty_queue = 0 -> default 0 (f <$> rs_outgoing_buffers s !! shard) = f (to_shard s shard).
Proof. intros H. unfold to_shard. by destruct (rs_outgoing_buffers s !! shard). Qed.

(* ------------------------------------------------------------------ *)
(** ** Limits *)

Definition limit_of (s : ReceiptSink) (shard : Z) : OutgoingLimit :=
  default default_limit (rs_outgoing_limit s !! shard).

(** The size that counts against the limit. *)
Definition capped (size : Z) : Z :=
  if max_receipt_size (limit_config cfg) <? size then max_receipt_size (limit_config cfg) else size.

Definition to (shard : Z) (l : list Entry) : list Entry := filter (fun e => target_of e = shard) l.

(** From [s] to [s'] the entries [l] were sent: their gas and size were taken from the
    limits of their shards, and no limit was overdrawn. *)
Definition limits_paid (s s' : ReceiptSink) (l : list Entry) : Prop :=
  forall shard,
    ol_gas (limit_of s' shard) = ol_gas (limit_of s shard) - zsum gas_of (to shard l)
    /\ ol_size (limit_of s' shard)
       = ol_size (limit_of s shard) - zsum (fun e => capped (receipt_size e)) (to shard l)
    /\ (0 <= ol_gas (limit_of s shard) -> 0 <= ol_gas (limit_of s' shard))
    /\ (0 <= ol_size (limit_of s shard) -> 0 <= ol_size (limit_of s' shard)).

Lemma limits_paid_refl s s' : rs_outgoing_limit s' = rs_outgoing_limit s -> limits_paid s s' [].
Proof. intros H shard. unfold limit_of. rewrite H. simpl. lia. Qed.

Lemma limits_paid_app s1 s2 s3 l1 l2 :
  limits_paid s1 s2 l1 -> limits_paid s2 s3 l2 -> limits_paid s1 s3 (l1 ++ l2).
Proof.
  intros H1 H2 shard. specialize (H1 shard). specialize (H2 shard). unfold to.
  rewrite filter_app, !zsum_app. fold (to shard l1) (to shard l2).
  destruct H1 as (? & ? & ? & ?), H2 as (? & ? & ? & ?). split_and!; [lia|lia|tauto|tauto].
Qed.

(** One attempt: nothing changes but the limits and, on success, the outgoing list. *)
Lemma try_forward_spec e s :
  entry_ok e ->
  exists b s', try_forward cfg (get_receipt e) (gas_of e) (receipt_size e) (target_of e) s = Ok (b, s')
    /\ rs_own_congestion_info s' = rs_own_congestion_info s
    /\ rs_outgoing_buffers s' = rs_outgoing_buffers s
    /\ rs_outgoing_metadatas s' = rs_outgoing_metadatas s
    /\ rs_outgoing_receipts s' = rs_outgoing_receipts s ++ (if b then [get_receipt e] else [])
    /\ limits_paid s s' (if b then [e] else []).
Proof.
  intros He. unfold try_forward. fold (capped (receipt_size e)) (limit_of s (target_of e)).
  set (lim := limit_of s (target_of e)).
  destruct (Z.leb_spec (gas_of e) (ol_gas lim)) as [Hg|Hg];
    [destruct (Z.leb_spec (capped (receipt_size e)) (ol_size lim)) as [Hz|Hz]|]; simpl.
  - unfold checked_sub. rewrite (proj2 (Z.leb_le _ _) Hg), sub_fits by done. simpl.
    eexists true, _. split_and!; [done..|]. intros shard. unfold limit_of. simpl. unfold to.
    destruct (decide (target_of e = shard)) as [<-|Hne].
    + rewrite filter_cons_True by done. rewrite filter_nil. rewrite lookup_insert_eq. simpl.
      fold (limit_of s (target_of e)) lim. split_and!; lia.
    + rewrite filter_cons_False by done. rewrite filter_nil, lookup_insert_ne by done. simpl. lia.
  - eexists false, _. split_and!; [done..|by rewrite app_nil_r|]. intros shard. unfold limit_of. simpl.
    destruct (decide (target_of e = shard)) as [<-|Hne];
      [rewrite lookup_insert_eq|rewrite lookup_insert_ne by done]; simpl;
      fold (limit_of s (target_of e)) lim; lia.
  - eexists false, _. split_and!; [done..|by rewrite app_nil_r|]. intros shard. unfold limit_of. simpl.
    destruct (decide (target_of e = shard)) as [<-|Hne];
      [rewrite lookup_insert_eq|rewrite lookup_insert_ne by done]; simpl;
      fold (limit_of s (target_of e)) lim; lia.
Qed.

(* ------------------------------------------------------------------ *)
(** ** Forwarding from a buffer *)

Definition take_from_info (i : CongestionInfo) (l : list Entry) : CongestionInfo :=
  mkCongestionInfo (delayed_receipts_gas i) (buffered_receipts_gas i - zsum gas_of l)
    (receipt_bytes i - zsum receipt_size l) (allowed_shard i).

Lemma grouped_app l1 l2 : grouped (l1 ++ l2) = grouped l1 ++ grouped l2.
Proof. unfold grouped. by rewrite filter_app, map_app. Qed.

Lemma forward_items_spec l : forall s n upd,
  Forall entry_ok l ->
  zsum receipt_size l <= receipt_bytes (rs_own_congestion_info s) ->
  zsum gas_of l <= buffered_receipts_gas (rs_own_congestion_info s) ->
  exists k s', (k <= length l)%nat
    /\ forward_items cfg layout (map Ok l) s n upd = Ok (s', n + Z.of_nat k, upd ++ grouped (take k l))
    /\ rs_own_congestion_info s' = take_from_info (rs_own_congestion_info s) (take k l)
    /\ rs_outgoing_buffers s' = rs_outgoing_buffers s
    /\ rs_outgoing_metadatas s' = rs_outgoing_metadatas s
    /\ rs_outgoing_receipts s' = rs_outgoing_receipts s ++ map get_receipt (take k l)
    /\ limits_paid s s' (take k l).
Proof.
  assert (forall i, take_from_info i [] = i) as Hnil.
  { intros []. unfold take_from_info. simpl. f_equal; lia. }
  induction l as [|e l IH]; intros s n upd Hl Hb Hg.
  { exists O, s. simpl. rewrite Hnil, !app_nil_r, Z.add_0_r. split_and!; try done.
    by apply limits_paid_refl. }
  apply Forall_cons in Hl as [He Hl]. rewrite zsum_cons in Hb, Hg.
  pose proof (entries_nonneg l Hl). cbn [map forward_items map_err rbind].
  rewrite (eo_gas _ He), (eo_target _ He). cbn [map_err rbind].
  destruct (try_forward_spec e s He) as (b & s1 & -> & Hi & Hbuf & Hm & Ho & Hlim). cbn [rbind].
  destruct b.
  2: { exists O, s1. simpl. rewrite Hnil, !app_nil_r, Z.add_0_r in *. split_and!; try done; lia. }
  pose proof (eo_size _ He). pose proof (eo_gas_pos _ He).
  unfold remove_receipt_bytes, remove_buffered_receipt_gas, sub_counter, checked_sub.
  rewrite Hi, (proj2 (Z.leb_le (receipt_size e) (receipt_bytes _))) by lia. cbn [ok_or rbind buffered_receipts_gas].
  rewrite (proj2 (Z.leb_le (gas_of e) _)) by lia. cbn [ok_or rbind]. set (s2 := mkReceiptSink _ _ _ _ _).
  destruct (IH s2 (n + 1) (upd ++ grouped [e])) as (k & s' & Hk & Hf & Hi' & Hb' & Hm' & Ho' & Hl');
    [done|simpl; lia|simpl; lia|].
  exists (S k), s'. split_and!; [simpl; lia| | |by rewrite Hb'|by rewrite Hm'| |].
  - change (take (S k) (e :: l)) with ([e] ++ take k l). rewrite grouped_app, app_assoc.
    replace (n + Z.of_nat (S k)) with (n + 1 + Z.of_nat k) by lia. rewrite <- Hf. f_equal.
    unfold grouped. rewrite filter_cons. by case_decide; destruct (should_update_outgoing_metadatas e); rewrite ?app_nil_r.
  - rewrite Hi'. unfold take_from_info. simpl. f_equal; lia.
  - rewrite Ho'. simpl. by rewrite Ho, <- app_assoc.
  - change (take (S k) (e :: l)) with ([e] ++ take k l). apply (limits_paid_app s s1); [done|].
    intros shard. apply (Hl' shard).
Qed.

Lemma pop_groups_spec gcfg shard rest u : forall m,
  om_groups_config m = gcfg ->
  groups_abs gcfg (default empty_groups (om_metadatas m !! shard)) (u ++ rest) ->
  exists m', pop_groups m shard u = Ok m' /\ om_groups_config m' = gcfg
    /\ groups_abs gcfg (default empty_groups (om_metadatas m' !! shard)) rest
    /\ (forall shard', shard' <> shard -> om_metadatas m' !! shard' = om_metadatas m !! shard')
    /\ next_group (default empty_groups (om_metadatas m' !! shard))
       = next_group (default empty_groups (om_metadatas m !! shard)).
Proof.
  induction u as [|[size gas] u IH]; intros m Hc Hg; [by exists m|]. simpl.
  destruct (om_metadatas m !! shard) as [gq|] eqn:E; simpl in Hg.
  2: { pose proof (ga_total_num _ _ _ Hg) as Hn. unfold vec_len in Hn. simpl in Hn. lia. }
  unfold update_on_receipt_popped. rewrite E. simpl.
  destruct (groups_popped gcfg gq size gas (u ++ rest) Hg) as (gq' & Hp & Hg'). rewrite Hp. simpl.
  apply gq_popped_next in Hp.
  destruct (IH (mkOutgoingMetadatas (<[shard := gq']> (om_metadatas m)) (om_groups_config m)))
    as (m' & -> & Hc' & Hr & Ho & Hn); [done|by simpl; rewrite lookup_insert_eq|].
  exists m'. split_and!; [done|done|done| |].
  - intros shard' Hne. rewrite Ho by done. simpl. by rewrite lookup_insert_ne.
  - rewrite Hn. simpl. by rewrite lookup_insert_eq.
Qed.

(** Exchanging one buffer changes the sums by the difference. *)
Lemma buffers_sum_insert f s shard q :
  f empty_queue = 0 ->
  buffers_sum f (<[shard := q]> (rs_outgoing_buffers s))
  = buffers_sum f (rs_outgoing_buffers s) - f (to_shard s shard) + f q.
Proof.
  intros H. unfold buffers_sum. rewrite (sum_insert f), to_shard_sum by done. done.
Qed.

(** What forwarding the first [k] entries of one buffer changes. *)
Record forwarded (s s' : ReceiptSink) (shard : Z) (k : nat) : Prop := mk_forwarded {
  fw_buffer : contents (to_shard s' shard) = drop k (contents (to_shard s shard));
  fw_others : forall shard', shard' <> shard -> to_shard s' shard' = to_shard s shard';
  fw_outgoing : rs_outgoing_receipts s'
    = rs_outgoing_receipts s ++ map get_receipt (take k (contents (to_shard s shard)));
  fw_limits : limits_paid s s' (take k (contents (to_shard s shard)));
  fw_sums : forall f, f empty_queue = 0 -> (forall q q', contents q = contents q' -> f q = f q') ->
    buffers_sum f (rs_outgoing_buffers s')
    = buffers_sum f (rs_outgoing_buffers s) - f (to_shard s shard) + f (to_shard s' shard);
  fw_room : forall shard', next_group (groups_of s' shard') = next_group (groups_of s shard');
}.

Lemma buffer_bounds bytes gas s shard :
  0 <= bytes -> sink_ok bytes gas s ->
  queue_bytes (to_shard s shard) <= receipt_bytes (rs_own_congestion_info s)
  /\ queue_gas (to_shard s shard) <= buffered_receipts_gas (rs_own_congestion_info s).
Proof.
  intros Hpos Hs. destruct (queues_nonneg _ (so_queues _ _ _ Hs)) as [Hg Hb].
  rewrite (so_bytes _ _ _ Hs), (so_gas _ _ _ Hs).
  rewrite <- (to_shard_sum queue_bytes), <- (to_shard_sum queue_gas) by done.
  pose proof (buffers_sum_ge queue_bytes _ shard Hb). pose proof (buffers_sum_ge queue_gas _ shard Hg). lia.
Qed.

(** The buffer after [pop_n]; it is only written when something was removed. *)
Lemma replaced_buffer s s' shard k q' :
  let l := contents (to_shard s shard) in
  rs_outgoing_buffers s'
  = (if 0 <? Z.of_nat k then <[shard := q']> (rs_outgoing_buffers s) else rs_outgoing_buffers s) ->
  contents q' = drop k l ->
  contents (to_shard s' shard) = drop k l
  /\ (forall shard', shard' <> shard -> to_shard s' shard' = to_shard s shard')
  /\ forall f, f empty_queue = 0 -> (forall q q', contents q = contents q' -> f q = f q') ->
       buffers_sum f (rs_outgoing_buffers s')
       = buffers_sum f (rs_outgoing_buffers s) - f (to_shard s shard) + f (to_shard s' shard).
Proof.
  intros l Hb Hq. unfold to_shard at 1 2 5. rewrite !Hb. destruct (Z.ltb_spec 0 (Z.of_nat k)) as [Hk|Hk].
  - rewrite lookup_insert_eq. split_and!; [done| |].
    + intros shard' Hne. by rewrite lookup_insert_ne.
    + intros f H0 _. by rewrite buffers_sum_insert.
  - replace k with O by lia. rewrite drop_0. split_and!; [done|done|]. intros f _ _.
    unfold to_shard. lia.
Qed.

Lemma forward_one_shape bytes gas s shard :
  0 <= bytes -> sink_ok bytes gas s ->
  let l := contents (to_shard s shard) in
  exists k s', forward_from_buffer_to_shard cfg layout shard s = Ok s' /\ forwarded s s' shard k
    /\ rs_own_congestion_info s' = take_from_info (rs_own_congestion_info s) (take k l)
    /\ map_Forall (fun _ q => queue_ok q) (rs_outgoing_buffers s')
    /\ om_groups_config (rs_outgoing_metadatas s') = om_groups_config (rs_outgoing_metadatas s)
    /\ groups_abs (om_groups_config (rs_outgoing_metadatas s)) (groups_of s' shard) (grouped (drop k l))
    /\ forall shard', shard' <> shard -> groups_of s' shard' = groups_of s shard'.
Proof.
  intros Hpos Hs l. destruct (to_shard_ok bytes gas s shard Hs) as [Hq He].
  destruct (buffer_bounds bytes gas s shard Hpos Hs) as [Hb Hg]. fold l in Hq, He.
  destruct (forward_items_spec l s 0 [] He Hb Hg) as (k & s1 & Hk & Hf & Hi & Hbuf & Hm & Ho & Hl).
  unfold forward_from_buffer_to_shard. rewrite (queue_iter_abs _ _ Hq), Hf. cbn [rbind].
  rewrite Z.add_0_l, app_nil_l.
  assert (to_shard s1 shard = to_shard s shard) as -> by (unfold to_shard; by rewrite Hbuf).
  destruct (pop_n_abs (Z.of_nat k) (to_shard s shard) l) as (q' & Hpop & Hq'); [lia|done|].
  replace (Z.to_nat (Z.min (Z.of_nat k) (Z.of_nat (length l)))) with k in * by lia. rewrite Hpop, Hm, Hbuf.
  pose proof (so_groups _ _ _ Hs shard) as Hgr. fold l in Hgr. rewrite <- (take_drop k l), grouped_app in Hgr.
  destruct (pop_groups_spec _ shard _ _ (rs_outgoing_metadatas s) eq_refl Hgr) as (m' & -> & Hc' & Hg' & Ho' & Hnx).
  apply contents_abs in Hq' as Hcq. simpl. eexists k, _. split; [done|]. set (s' := mkReceiptSink _ _ _ _ _).
  destruct (replaced_buffer s s' shard k q') as (Hc & Hoth & Hsum); [done|done|].
  split_and!; [split; try done|done| |done|done|].
  - intros shard'. unfold groups_of. simpl. destruct (decide (shard' = shard)) as [->|Hne]; [done|by rewrite Ho'].
  - simpl. case_match; [|apply Hs]. apply map_Forall_insert_2; [|apply Hs].
    split; rewrite Hcq; [done|by apply Forall_drop].
  - intros shard' Hne. unfold groups_of. simpl. by rewrite Ho'.
Qed.

Lemma forward_one_buffer bytes gas s shard :
  0 <= bytes -> sink_ok bytes gas s ->
  exists k s', forward_from_buffer_to_shard cfg layout shard s = Ok s'
    /\ sink_ok bytes gas s' /\ forwarded s s' shard k.
Proof.
  intros Hpos Hs. destruct (forward_one_shape bytes gas s shard Hpos Hs)
    as (k & s' & Hf & Hfw & Hi & Hq & Hc & Hg & Hgo).
  exists k, s'. split_and!; [done| |done].
  set (l := contents (to_shard s shard)) in *.
  assert (zsum gas_of l = zsum gas_of (take k l) + zsum gas_of (drop k l)) by (by rewrite <- zsum_app, take_drop).
  assert (zsum receipt_size l = zsum receipt_size (take k l) + zsum receipt_size (drop k l))
    by (by rewrite <- zsum_app, take_drop).
  pose proof (fw_buffer _ _ _ _ Hfw) as Hb. fold l in Hb. split.
  - done.
  - intros shard'. rewrite Hc. destruct (decide (shard' = shard)) as [->|Hne]; [by rewrite Hb|].
    rewrite Hgo, (fw_others _ _ _ _ Hfw) by done. apply (so_groups _ _ _ Hs).
  - rewrite (fw_sums _ _ _ _ Hfw queue_bytes) by (done || by intros q1 q2 E; unfold queue_bytes; rewrite E).
    unfold queue_bytes at 2 3. fold l. rewrite Hb, Hi. simpl. rewrite (so_bytes _ _ _ Hs). lia.
  - rewrite (fw_sums _ _ _ _ Hfw queue_gas) by (done || by intros q1 q2 E; unfold queue_gas; rewrite E).
    unfold queue_gas at 2 3. fold l. rewrite Hb, Hi. simpl. rewrite (so_gas _ _ _ Hs). lia.
  - rewrite Hi. simpl. apply Hs.
  - rewrite Hi. simpl. pose proof (so_fits _ _ _ Hs). destruct (to_shard_ok bytes gas s shard Hs) as [_ Hl].
    destruct (entries_nonneg (take k l)) as [? _]; [by apply Forall_take|]. lia.
Qed.

(* ------------------------------------------------------------------ *)
(** ** Forwarding from all buffers *)

(** The weight of what is sent or stored, for any weight of receipts: the number of
    times one receipt occurs, or the tokens the receipts carry. *)
Definition queue_weight (w : Receipt -> Z) (q : TrieQueue Entry) : Z :=
  zsum w (map get_receipt (contents q)).
Definition carried (w : Receipt -> Z) (s : ReceiptSink) : Z :=
  zsum w (rs_outgoing_receipts s) + buffers_sum (queue_weight w) (rs_outgoing_buffers s).

(** From [s] to [s'] the entries [sent] left the buffers, from their fronts. *)
Record drained (s s' : ReceiptSink) (sent : list Entry) : Prop := mk_drained {
  dr_outgoing : rs_outgoing_receipts s' = rs_outgoing_receipts s ++ map get_receipt sent;
  dr_limits : limits_paid s s' sent;
  dr_fifo : forall shard, exists k, contents (to_shard s' shard) = drop k (contents (to_shard s shard));
  dr_carried : forall w, carried w s' = carried w s;
  dr_room : forall shard, next_group (groups_of s' shard) = next_group (groups_of s shard);
}.

Lemma drained_refl s : drained s s [].
Proof.
  split; [by rewrite app_nil_r|by apply limits_paid_refl| |done|done].
  intros shard. exists O. by rewrite drop_0.
Qed.

Lemma drained_trans s1 s2 s3 l1 l2 : drained s1 s2 l1 -> drained s2 s3 l2 -> drained s1 s3 (l1 ++ l2).
Proof.
  intros [O1 L1 F1 C1 R1] [O2 L2 F2 C2 R2]. split.
  - by rewrite O2, O1, map_app, app_assoc.
  - by eapply limits_paid_app.
  - intros shard. destruct (F1 shard) as [k1 E1], (F2 shard) as [k2 E2]. exists (k1 + k2)%nat.
    by rewrite E2, E1, drop_drop.
  - intros w. by rewrite C2.
  - intros shard. by rewrite R2.
Qed.

Lemma forwarded_drained s s' shard k :
  forwarded s s' shard k -> drained s s' (take k (contents (to_shard s shard))).
Proof.
  intros [Hb Ho Hout Hl Hs Hr]. split; [done|done| | |done].
  - intros shard'. destruct (decide (shard' = shard)) as [->|Hne]; [by exists k|].
    exists O. by rewrite Ho, drop_0.
  - intros w. unfold carried. rewrite Hout, zsum_app.
    rewrite (Hs (queue_weight w)) by (done || by intros q q' E; unfold queue_weight; rewrite E).
    unfold queue_weight at 2 3. rewrite Hb.
    rewrite <- (take_drop k (contents (to_shard s shard))) at 2. rewrite map_app, zsum_app. lia.
Qed.

Lemma forward_buffers_spec bytes gas shards : forall s empty,
  0 <= bytes -> sink_ok bytes gas s ->
  exists s' sent b, forward_from_buffers cfg layout shards s empty = Ok (s', b)
    /\ sink_ok bytes gas s' /\ drained s s' sent
    /\ (b = true -> forall shard, shard ∈ shards -> contents (to_shard s' shard) = []).
Proof.
  induction shards as [|shard shards IH]; intros s empty Hpos Hs; simpl.
  { exists s, [], empty. split_and!; [done|done|apply drained_refl|]. intros _ shard H. by apply elem_of_nil in H. }
  destruct (forward_one_buffer bytes gas s shard Hpos Hs) as (k & s1 & -> & Hs1 & Hf). simpl.
  apply forwarded_drained in Hf as Hd. destruct (to_shard_ok bytes gas s1 shard Hs1) as [Hq _].
  rewrite (queue_len_abs _ _ Hq). simpl.
  destruct (IH s1 (empty && (Z.of_nat (length (contents (to_shard s1 shard))) =? 0)) Hpos Hs1)
    as (s2 & sent & b & Hr & Hs2 & Hd2 & He).
  exists s2, (take k (contents (to_shard s shard)) ++ sent), b. split_and!; [done|done|by eapply drained_trans|].
  intros Hb shard' [->|Hin]%elem_of_cons; [|by apply He].
  destruct (dr_fifo _ _ _ Hd2 shard) as [k' ->].
  assert (contents (to_shard s1 shard) = []) as ->; [|by rewrite drop_nil].
  destruct (contents (to_shard s1 shard)) as [|x l] eqn:E; [done|]. exfalso.
  assert (forall shards s (s' : ReceiptSink),
    forward_from_buffers cfg layout shards s false = Ok (s', true) -> False) as Hfalse.
  { clear. induction shards as [|x shards IH]; intros s s'; simpl; [done|].
    intros H. rust_inv. eauto. }
  rewrite (proj2 (Z.eqb_neq _ 0)), andb_false_r in Hr by (simpl; lia). subst b. by eapply Hfalse.
Qed.

Lemma buffers_sum_zero f (m : gmap Z (TrieQueue Entry)) :
  map_Forall (fun _ q => f q = 0) m -> buffers_sum f m = 0.
Proof.
  unfold buffers_sum. induction m as [|k q m Hk Hf IH] using map_first_key_ind; intros H.
  { by rewrite map_fold_empty. }
  rewrite map_fold_insert_first_key by done. apply map_Forall_insert in H as [? H]; [|done].
  rewrite IH by done. lia.
Qed.

(** The shards whose buffers are forwarded. *)
Definition served (parents : gset Z) : list Z := sorted_ids (elements parents) ++ shard_ids layout.

Lemma forward_from_buffer_spec bytes gas s parents :
  0 <= bytes -> sink_ok bytes gas s -> get_split_parent_shard_ids layout = Ok parents ->
  map_Forall (fun shard q => contents q = [] \/ shard ∈ served parents) (rs_outgoing_buffers s) ->
  exists s' sent, forward_from_buffer cfg layout s = Ok s' /\ sink_ok bytes gas s' /\ drained s s' sent.
Proof.
  intros Hpos Hs Hp Hserved. unfold forward_from_buffer. rewrite Hp. simpl.
  destruct (forward_buffers_spec bytes gas (served parents) s true Hpos Hs) as (s' & sent & b & Hf & Hs' & Hd & He).
  unfold served in Hf. rewrite Hf. simpl. exists s', sent. split_and!; [|done|done].
  destruct b; [|done]. specialize (He eq_refl). simpl.
  assert (buffered_receipts_gas (rs_own_congestion_info s') = 0) as ->; [|done].
  rewrite (so_gas _ _ _ Hs'). apply buffers_sum_zero. intros shard q Hq.
  assert (to_shard s' shard = q) as Eq by (unfold to_shard; by rewrite Hq).
  enough (contents q = []) as E by (unfold queue_gas; by rewrite E).
  rewrite <- Eq. destruct (decide (shard ∈ served parents)) as [Hin|Hout]; [by apply He|].
  destruct (dr_fifo _ _ _ Hd shard) as [k ->]. unfold to_shard.
  destruct (rs_outgoing_buffers s !! shard) as [q0|] eqn:E0; simpl.
  2: { change (contents empty_queue) with (@nil Entry). by rewrite drop_nil. }
  destruct (Hserved shard q0 E0) as [->|?]; [by rewrite drop_nil|done].
Qed.

(* ------------------------------------------------------------------ *)
(** ** Sending or buffering a receipt *)

Lemma grouped_bounds l :
  Forall entry_ok l ->
  zsum fst (grouped l) <= zsum receipt_size l /\ zsum snd (grouped l) <= zsum gas_of l
  /\ vec_len (grouped l) <= zsum fst (grouped l).
Proof.
  induction 1 as [|e l He Hl IH]; [done|]. destruct He as [_ Hg Hs _]. unfold grouped in *.
  rewrite filter_cons. unfold vec_len in *. case_decide; simpl; lia.
Qed.

(** What buffering [e] for [shard] changes. *)
Record buffered (s s' : ReceiptSink) (shard : Z) (e : Entry) : Prop := mk_buffered {
  bu_buffer : contents (to_shard s' shard) = contents (to_shard s shard) ++ [e];
  bu_others : forall shard', shard' <> shard -> to_shard s' shard' = to_shard s shard';
  bu_outgoing : rs_outgoing_receipts s' = rs_outgoing_receipts s;
  bu_limits : rs_outgoing_limit s' = rs_outgoing_limit s;
  bu_sums : forall f, f empty_queue = 0 ->
    buffers_sum f (rs_outgoing_buffers s')
    = buffers_sum f (rs_outgoing_buffers s) - f (to_shard s shard) + f (to_shard s' shard);
  bu_room : forall shard', next_group (groups_of s' shard') <= next_group (groups_of s shard') + 1;
  bu_bytes : receipt_bytes (rs_own_congestion_info s') = receipt_bytes (rs_own_congestion_info s) + receipt_size e;
  bu_gas : buffered_receipts_gas (rs_own_congestion_info s')
           = buffered_receipts_gas (rs_own_congestion_info s) + gas_of e;
}.

(** The counters have room for [size] bytes, [gas] and [n] more items in every queue. *)
Definition sink_room (s : ReceiptSink) (size gas n : Z) : Prop :=
  receipt_bytes (rs_own_congestion_info s) + size <= u64_max
  /\ buffered_receipts_gas (rs_own_congestion_info s) + gas <= u128_max
  /\ forall shard, next_available_index (q_indices (to_shard s shard)) + n <= u64_max.

Lemma push_metadata bytes gas s shard e :
  0 <= bytes -> sink_ok bytes gas s -> entry_ok e ->
  receipt_bytes (rs_own_congestion_info s) + receipt_size e <= u64_max ->
  buffered_receipts_gas (rs_own_congestion_info s) + gas_of e <= u128_max ->
  next_group (groups_of s shard) < u64_max ->
  exists m', (if should_update_outgoing_metadatas e
              then update_on_receipt_pushed (rs_outgoing_metadatas s) shard (receipt_size e) (gas_of e)
              else Ok (rs_outgoing_metadatas s)) = Ok m'
    /\ om_groups_config m' = om_groups_config (rs_outgoing_metadatas s)
    /\ groups_abs (om_groups_config m') (default empty_groups (om_metadatas m' !! shard))
         (grouped (contents (to_shard s shard) ++ [e]))
    /\ (forall shard', shard' <> shard ->
          om_metadatas m' !! shard' = om_metadatas (rs_outgoing_metadatas s) !! shard')
    /\ next_group (default empty_groups (om_metadatas m' !! shard)) <= next_group (groups_of s shard) + 1.
Proof.
  intros Hpos Hs He Hb Hg Hn. pose proof (so_groups _ _ _ Hs shard) as Hgr.
  rewrite grouped_app. unfold grouped at 2. rewrite filter_cons, filter_nil.
  destruct (should_update_outgoing_metadatas e) eqn:E.
  2: { rewrite decide_False, app_nil_r by done. eexists. split_and!; try done. unfold groups_of. lia. }
  rewrite decide_True by done. simpl. destruct He as [_ Hgp Hsz _].
  destruct (to_shard_ok bytes gas s shard Hs) as [_ Hl]. destruct (grouped_bounds _ Hl) as (G1 & G2 & G3).
  destruct (buffer_bounds bytes gas s shard Hpos Hs) as [B1 B2]. unfold queue_bytes, queue_gas in B1, B2.
  destruct (groups_pushed _ _ _ (receipt_size e) (gas_of e) Hgr Hn Hsz Hgp) as (gq' & Hp & Hg').
  { unfold buffer_fits, vec_len in *. rewrite !zsum_app, length_app. simpl. lia. }
  unfold update_on_receipt_pushed. fold (groups_of s shard). rewrite Hp. simpl.
  apply gq_pushed_next in Hp. eexists. split_and!; [done|done|..]; simpl.
  - by rewrite lookup_insert_eq.
  - intros shard' Hne. by rewrite lookup_insert_ne.
  - by rewrite lookup_insert_eq.
Qed.

Lemma stored_ok bytes gas s shard e q' m' :
  sink_ok bytes gas s -> entry_ok e -> queue_abs q' (contents (to_shard s shard) ++ [e]) ->
  om_groups_config m' = om_groups_config (rs_outgoing_metadatas s) ->
  groups_abs (om_groups_config m') (default empty_groups (om_metadatas m' !! shard))
    (grouped (contents (to_shard s shard) ++ [e])) ->
  (forall shard', shard' <> shard ->
     om_metadatas m' !! shard' = om_metadatas (rs_outgoing_metadatas s) !! shard') ->
  next_group (default empty_groups (om_metadatas m' !! shard)) <= next_group (groups_of s shard) + 1 ->
  let i := rs_own_congestion_info s in
  buffered_receipts_gas i + gas_of e <= u128_max ->
  let s' := mkReceiptSink
    (mkCongestionInfo (delayed_receipts_gas i) (buffered_receipts_gas i + gas_of e)
       (receipt_bytes i + receipt_size e) (allowed_shard i))
    (rs_outgoing_receipts s) (rs_outgoing_limit s) (<[shard := q']> (rs_outgoing_buffers s)) m' in
  sink_ok bytes gas s' /\ buffered s s' shard e.
Proof.
  intros Hs He Hq' Hc Hgr Ho Hnx i Hfit s'. apply contents_abs in Hq' as Hcq.
  destruct (to_shard_ok bytes gas s shard Hs) as [_ Hl].
  assert (to_shard s' shard = q') as Hts by (unfold to_shard; simpl; by rewrite lookup_insert_eq).
  assert (forall shard', shard' <> shard -> to_shard s' shard' = to_shard s shard') as Hoth
    by (intros; unfold to_shard; simpl; by rewrite lookup_insert_ne).
  assert (forall shard', next_group (groups_of s' shard') <= next_group (groups_of s shard') + 1) as Hroom.
  { intros shard'. unfold groups_of at 1. simpl.
    destruct (decide (shard' = shard)) as [->|Hne]; [done|]. rewrite Ho by done. unfold groups_of. lia. }
  assert (forall f, f empty_queue = 0 -> buffers_sum f (rs_outgoing_buffers s')
    = buffers_sum f (rs_outgoing_buffers s) - f (to_shard s shard) + f (to_shard s' shard)) as Hsum
    by (intros f Hf; rewrite Hts; by apply buffers_sum_insert).
  split; [|by split; [rewrite Hts|..]]. split; simpl.
  - apply map_Forall_insert_2; [|apply Hs]. split; rewrite Hcq; [done|].
    apply Forall_app. split; [done|by constructor].
  - intros shard'. destruct (decide (shard' = shard)) as [->|Hne].
    + by rewrite Hts, Hcq.
    + rewrite Hoth by done. unfold groups_of. simpl. rewrite Ho, Hc by done. apply (so_groups _ _ _ Hs).
  - rewrite (buffers_sum_insert queue_bytes) by done. unfold i. rewrite (so_bytes _ _ _ Hs).
    unfold queue_bytes at 3 4. rewrite Hcq, zsum_app. simpl. lia.
  - rewrite (buffers_sum_insert queue_gas) by done. unfold i. rewrite (so_gas _ _ _ Hs).
    unfold queue_gas at 3 4. rewrite Hcq, zsum_app. simpl. lia.
  - apply Hs.
  - done.
Qed.

Lemma buffer_receipt_spec bytes gas s shard r g :
  0 <= bytes -> sink_ok bytes gas s -> next_group (groups_of s shard) < u64_max ->
  let e := stored_form cfg r (compute_receipt_size r) g in
  entry_ok e -> gas_of e = g -> receipt_size e = compute_receipt_size r ->
  match buffer_receipt cfg r (compute_receipt_size r) g shard s with
  | Ok s' => sink_ok bytes gas s' /\ buffered s s' shard e
      /\ next_available_index (q_indices (to_shard s' shard))
         = next_available_index (q_indices (to_shard s shard)) + 1
  | Err _ => ~ sink_room s (receipt_size e) (gas_of e) 1
  | Panic => False
  end.
Proof.
  intros Hpos Hs Hn e He Hge Hse. unfold buffer_receipt. fold e. rewrite <- Hge, <- Hse.
  unfold add_receipt_bytes, add_buffered_receipt_gas, add_counter.
  destruct (checked_add u64_max _ _) as [b|] eqn:Eb; cbn [ok_or rbind buffered_receipts_gas].
  2:{ apply checked_add_None in Eb. unfold sink_room. lia. }
  apply checked_add_Some in Eb as [-> Eb].
  destruct (checked_add u128_max _ _) as [g'|] eqn:Eg; cbn [ok_or rbind].
  2:{ apply checked_add_None in Eg. unfold sink_room. lia. }
  apply checked_add_Some in Eg as [-> Eg].
  destruct (push_metadata bytes gas s shard e Hpos Hs He Eb Eg Hn) as (m' & Hm & Hc & Hgr & Ho & Hnx).
  assert ((if should_update_outgoing_metadatas e
           then map_err RtStorageError (update_on_receipt_pushed (rs_outgoing_metadatas s) shard
                                          (receipt_size e) (gas_of e))
           else Ok (rs_outgoing_metadatas s)) = Ok m') as ->.
  { destruct (should_update_outgoing_metadatas e); [by rewrite Hm|by injection Hm as ->]. }
  cbn [rbind]. destruct (to_shard_ok bytes gas s shard Hs) as [Hq _].
  pose proof (push_back_abs (to_shard s shard) _ e Hq) as Hp.
  destruct (Z.ltb_spec (next_available_index (q_indices (to_shard s shard))) u64_max) as [Hx|Hx].
  2:{ rewrite Hp. intros (_ & _ & Hr). specialize (Hr shard). lia. }
  destruct Hp as (q' & Hp & Hq'). rewrite Hp. cbn [map_err rbind]. apply push_back_next in Hp.
  apply and_assoc. split; [by apply stored_ok|]. unfold to_shard at 1. cbn [rs_outgoing_buffers].
  by rewrite lookup_insert_eq.
Qed.

(** A receipt that can be handed to the sink. *)
Definition entry_for (r : Receipt) : Entry :=
  stored_form cfg r (compute_receipt_size r)
    (match compute_receipt_congestion_gas r cfg with Ok g => g | _ => 0 end).

Record sendable (r : Receipt) : Prop := mk_sendable {
  se_gas : exists g, compute_receipt_congestion_gas r cfg = Ok g /\ 0 <= g;
  se_shard : exists shard, receiver_shard_id layout r = Ok shard;
  se_size : 0 < compute_receipt_size r;
}.

Lemma sendable_entry r :
  sendable r ->
  entry_ok (entry_for r) /\ compute_receipt_congestion_gas r cfg = Ok (gas_of (entry_for r))
  /\ receipt_size (entry_for r) = compute_receipt_size r
  /\ receiver_shard_id layout r = Ok (target_of (entry_for r)) /\ get_receipt (entry_for r) = r.
Proof.
  intros [(g & Hg & Hp) [shard Hs] Hz].
  assert (get_receipt (entry_for r) = r) as Hr by (unfold entry_for, stored_form; by case_match).
  assert (receipt_congestion_gas (entry_for r) cfg = Ok g) as Hgas.
  { unfold entry_for, stored_form. rewrite Hg. by case_match; simpl. }
  assert (receipt_size (entry_for r) = compute_receipt_size r) as Hsz
    by (unfold entry_for, stored_form; by case_match).
  assert (gas_of (entry_for r) = g) as Hgo by (unfold gas_of; by rewrite Hgas).
  assert (target_of (entry_for r) = shard) as Hto by (unfold target_of; by rewrite Hr, Hs).
  split_and!; [split| | | |]; rewrite ?Hgo, ?Hto, ?Hsz, ?Hr; done.
Qed.

(** What handing [r] to the sink changes. *)
Inductive handed (s s' : ReceiptSink) (r : Receipt) : Prop :=
| handed_sent :
    rs_outgoing_receipts s' = rs_outgoing_receipts s ++ [r] ->
    (forall shard, to_shard s' shard = to_shard s shard) -> limits_paid s s' [entry_for r] -> handed s s' r
| handed_buffered :
    rs_outgoing_receipts s' = rs_outgoing_receipts s ->
    contents (to_shard s' (target_of (entry_for r)))
    = contents (to_shard s (target_of (entry_for r))) ++ [entry_for r] ->
    (forall shard, shard <> target_of (entry_for r) -> to_shard s' shard = to_shard s shard) ->
    limits_paid s s' [] -> handed s s' r.

Lemma forward_or_buffer_spec bytes gas s r :
  0 <= bytes -> sink_ok bytes gas s -> sendable r ->
  (forall shard, next_group (groups_of s shard) < u64_max) ->
  match forward_or_buffer_receipt cfg layout r s with
  | Ok s' => sink_ok bytes gas s' /\ handed s s' r
      /\ (forall w, carried w s' = carried w s + w r)
      /\ (forall shard, next_group (groups_of s' shard) <= next_group (groups_of s shard) + 1)
      /\ forall size g n, 0 <= n -> sink_room s (receipt_size (entry_for r) + size) (gas_of (entry_for r) + g) (1 + n) ->
           sink_room s' size g n
  | Err _ => ~ sink_room s (receipt_size (entry_for r)) (gas_of (entry_for r)) 1
  | Panic => False
  end.
Proof.
  intros Hpos Hs Hr Hn. destruct (sendable_entry r Hr) as (He & Hg & Hz & Ht & Hget).
  unfold forward_or_buffer_receipt. rewrite Ht, Hg. cbn [map_err rbind]. rewrite <- Hz.
  pose proof (try_forward_spec (entry_for r) s He) as (b & s1 & Htry & Hi & Hb & Hm & Ho & Hl).
  rewrite Hget in Htry, Ho. rewrite Htry. cbn [rbind].
  assert (forall shard, to_shard s1 shard = to_shard s shard) as Hts by (intros; unfold to_shard; by rewrite Hb).
  assert (forall shard, groups_of s1 shard = groups_of s shard) as Hgs by (intros; unfold groups_of; by rewrite Hm).
  assert (sink_ok bytes gas s1) as Hs1.
  { destruct Hs. split; rewrite ?Hi, ?Hb, ?Hm; try done. intros shard. by rewrite Hgs, Hts. }
  destruct b.
  { split_and!; [done|by apply handed_sent| |intros; rewrite Hgs; lia|].
    - intros w. unfold carried. rewrite Ho, Hb, zsum_app. simpl. lia.
    - intros size g n Hn0 (R1 & R2 & R3). destruct He as [_ He2 He3 _].
      unfold sink_room. rewrite Hi. split_and!; [lia|lia|].
      intros shard. rewrite Hts. specialize (R3 shard). lia. }
  rewrite app_nil_r in Ho. rewrite Hz.
  assert (entry_for r = stored_form cfg r (compute_receipt_size r) (gas_of (entry_for r))) as Hef
    by (unfold entry_for at 1; by rewrite Hg).
  pose proof (buffer_receipt_spec bytes gas s1 (target_of (entry_for r)) r (gas_of (entry_for r))) as Hbr.
  simpl in Hbr. rewrite <- Hef in Hbr. specialize (Hbr Hpos Hs1 ltac:(rewrite Hgs; apply Hn) He eq_refl Hz).
  destruct (buffer_receipt _ _ _ _ _ _) as [s2|e|]; [| |done].
  2:{ unfold sink_room in *. rewrite Hi in Hbr. intros (R1 & R2 & R3). apply Hbr. split_and!; [lia|lia|].
      intros shard. rewrite Hts. apply R3. }
  destruct Hbr as (Hs2 & Hbu & Hix). split_and!; [done| | | |].
  - destruct Hbu as [B1 B2 B3 B4 B5 B6]. apply handed_buffered; [by rewrite B3|by rewrite B1, Hts| |].
    + intros shard Hne. by rewrite B2, Hts.
    + intros shard. unfold limit_of. rewrite B4. apply (Hl shard).
  - intros w. unfold carried. rewrite (bu_outgoing _ _ _ _ Hbu), Ho, (bu_sums _ _ _ _ Hbu) by done.
    unfold queue_weight at 2 3. rewrite (bu_buffer _ _ _ _ Hbu), map_app, zsum_app, Hb. simpl. rewrite Hget. lia.
  - intros shard. rewrite <- Hgs. apply (bu_room _ _ _ _ Hbu).
  - intros size g n Hn0 (R1 & R2 & R3). unfold sink_room. rewrite (bu_bytes _ _ _ _ Hbu), (bu_gas _ _ _ _ Hbu), Hi.
    split_and!; [lia|lia|]. intros shard. specialize (R3 shard). rewrite <- Hts in R3.
    destruct (decide (shard = target_of (entry_for r))) as [->|Hne]; [lia|].
    rewrite (bu_others _ _ _ _ Hbu) by done. lia.
Qed.

(** Every element of the third list is in exactly one of the first two, in its order. *)
Inductive parted {A : Type} : list A -> list A -> list A -> Prop :=
| parted_nil : parted [] [] []
| parted_left x l1 l2 l : parted l1 l2 l -> parted (x :: l1) l2 (x :: l)
| parted_right x l1 l2 l : parted l1 l2 l -> parted l1 (x :: l2) (x :: l).

(** From [s] to [s'] the receipts [rs] were handed over: each was either sent, or
    appended to the buffer of the shard of its receiver, in order. *)
Record all_handed (s s' : ReceiptSink) (rs sent kept : list Receipt) : Prop := mk_all_handed {
  ah_parted : parted sent kept rs;
  ah_sent : rs_outgoing_receipts s' = rs_outgoing_receipts s ++ sent;
  ah_limits : limits_paid s s' (map entry_for sent);
  ah_kept : forall shard,
    contents (to_shard s' shard) = contents (to_shard s shard) ++ to shard (map entry_for kept);
  ah_carried : forall w, carried w s' = carried w s + zsum w rs;
}.

Lemma handed_cons s s1 s2 r rs sent kept :
  handed s s1 r -> (forall w, carried w s1 = carried w s + w r) -> all_handed s1 s2 rs sent kept ->
  exists sent' kept', all_handed s s2 (r :: rs) sent' kept'.
Proof.
  intros Hh Hc [Hp Ho Hl Hk Hw].
  assert (Hcar : forall w, carried w s2 = carried w s + zsum w (r :: rs))
    by (intros w; rewrite Hw, Hc, zsum_cons; lia).
  destruct Hh as [H1 H2 H3|H1 H2 H3 H4].
  - exists (r :: sent), kept. split; [by constructor|by rewrite Ho, H1, <- app_assoc| | |done].
    + change (map entry_for (r :: sent)) with ([entry_for r] ++ map entry_for sent).
      by eapply limits_paid_app.
    + intros shard. by rewrite Hk, H2.
  - exists sent, (r :: kept). split; [by constructor|by rewrite Ho, H1| | |done].
    + change (map entry_for sent) with ([] ++ map entry_for sent). by eapply limits_paid_app.
    + intros shard. rewrite Hk. unfold to. simpl. rewrite filter_cons. case_decide as Hd.
      * rewrite <- Hd, H2, <- app_assoc. done.
      * by rewrite H3 by congruence.
Qed.

(** Size and gas of receipts. *)
Definition sizes (rs : list Receipt) : Z := zsum receipt_size (map entry_for rs).
Definition gases (rs : list Receipt) : Z := zsum gas_of (map entry_for rs).

Lemma send_all_spec bytes gas rs : forall s,
  0 <= bytes -> sink_ok bytes gas s -> Forall sendable rs ->
  (forall shard, next_group (groups_of s shard) + vec_len rs <= u64_max) ->
  match send_all cfg layout rs s with
  | Ok s' => sink_ok bytes gas s' /\ exists sent kept, all_handed s s' rs sent kept
  | Err _ => ~ sink_room s (sizes rs) (gases rs) (vec_len rs)
  | Panic => False
  end.
Proof.
  unfold vec_len, sizes, gases. induction rs as [|r rs IH]; intros s Hpos Hs Hr Hn; simpl.
  { split; [done|]. exists [], []. split; [constructor|by rewrite app_nil_r|by apply limits_paid_refl| |].
    - intros shard. by rewrite app_nil_r.
    - intros w. simpl. lia. }
  apply Forall_cons in Hr as [Hr Hrs]. simpl in Hn.
  assert (0 <= zsum gas_of (map entry_for rs) /\ 0 <= zsum receipt_size (map entry_for rs)) as [Ng Nb].
  { apply entries_nonneg, Forall_map. eapply Forall_impl; [exact Hrs|]. intros x Hx. apply sendable_entry, Hx. }
  pose proof (forward_or_buffer_spec bytes gas s r Hpos Hs Hr) as H.
  destruct (forward_or_buffer_receipt cfg layout r s) as [s1|e|]; simpl;
    [| |apply H; intros shard; specialize (Hn shard); lia].
  2:{ intros (R1 & R2 & R3). apply H; [intros shard; specialize (Hn shard); lia|].
      split_and!; [lia|lia|]. intros shard. specialize (R3 shard). lia. }
  destruct H as (Hs1 & Hh & Hc & Hx & Hroom); [intros shard; specialize (Hn shard); lia|].
  specialize (IH s1 Hpos Hs1 Hrs). destruct (send_all cfg layout rs s1) as [s2|e|].
  - destruct IH as (Hs2 & sent & kept & Ha); [intros shard; specialize (Hn shard); specialize (Hx shard); lia|].
    split; [done|]. by eapply handed_cons.
  - intros R. apply IH; [intros shard; specialize (Hn shard); specialize (Hx shard); lia|].
    apply Hroom; [lia|]. by replace (1 + Z.of_nat (length rs)) with (Z.of_nat (S (length rs))) by lia.
  - apply IH. intros shard. specialize (Hn shard). specialize (Hx shard). lia.
Qed.

(** C17. The sink loses and invents no receipts.  At the start of a chunk the buffers are
    forwarded: this always succeeds, with none of the underflow errors, group panics
    and the assertion on the buffered gas, and it takes receipts from the fronts of
    the buffers only.  Then the receipts of the chunk are handed over one by one.
    This fails only if a counter has no room: the total of buffered bytes, the total
    of buffered gas, or the index of a queue.  Otherwise the receipts are parted in
    those that are sent and those that are kept, each in the order of arrival; the
    buffer of every shard grows exactly by the kept receipts whose receiver is on that
    shard.  For every weight of receipts, in particular the count of one receipt
    and the tokens they carry, what is sent and stored at the end is what was sent and
    stored at the start plus what was handed over; and no limit is overdrawn.  The
    invariant [sink_ok], that the group indices have room, that the receipts have a
    receiving shard and a computable gas, and that every buffer that is not empty
    belongs to a shard of the layout or a split parent, are assumed. *)
Theorem sink_conserves bytes gas s parents rs :
  0 <= bytes -> sink_ok bytes gas s -> get_split_parent_shard_ids layout = Ok parents ->
  map_Forall (fun shard q => contents q = [] \/ shard ∈ served parents) (rs_outgoing_buffers s) ->
  Forall sendable rs -> (forall shard, next_group (groups_of s shard) + vec_len rs <= u64_max) ->
  exists s1 sent0, forward_from_buffer cfg layout s = Ok s1 /\ drained s s1 sent0
    /\ match send_all cfg layout rs s1 with
       | Ok s2 => sink_ok bytes gas s2 /\ (exists sent kept, all_handed s1 s2 rs sent kept)
           /\ forall w, carried w s2 = carried w s + zsum w rs
       | Err _ => ~ sink_room s1 (sizes rs) (gases rs) (vec_len rs)
       | Panic => False
       end.
Proof.
  intros Hpos Hs Hp Hserved Hr Hn.
  destruct (forward_from_buffer_spec bytes gas s parents Hpos Hs Hp Hserved) as (s1 & sent0 & Hf & Hs1 & Hd).
  exists s1, sent0. split_and!; [done|done|].
  pose proof (send_all_spec bytes gas rs s1 Hpos Hs1 Hr) as H.
  destruct (send_all cfg layout rs s1) as [s2|e|].
  - destruct H as (Hs2 & sent & kept & Ha); [intros shard; rewrite (dr_room _ _ _ Hd); apply Hn|].
    split_and!; [done|by exists sent, kept|]. intros w. by rewrite (ah_carried _ _ _ _ _ Ha), (dr_carried _ _ _ Hd).
  - apply H. intros shard. rewrite (dr_room _ _ _ Hd). apply Hn.
  - apply H. intros shard. rewrite (dr_room _ _ _ Hd). apply Hn.
Qed.

(* ------------------------------------------------------------------ *)
(** ** Delayed receipts and the recount *)

(** The delayed queue, against its gas and bytes at the start of the chunk. *)
Record delayed_ok (bytes gas : Z) (d : DelayedReceiptQueueWrapper) : Prop := mk_delayed_ok {
  do_queue : queue_ok (dq_queue d);
  do_bytes : queue_bytes (dq_queue d) = bytes + dq_new_delayed_bytes d - dq_removed_delayed_bytes d;
  do_gas : queue_gas (dq_queue d) = gas + dq_new_delayed_gas d - dq_removed_delayed_gas d;
  do_removed : 0 <= dq_removed_delayed_bytes d /\ 0 <= dq_removed_delayed_gas d;
}.

Lemma checked_add_result_Ok a b c : checked_add_result a b = Ok c -> c = a + b.
Proof. unfold checked_add_result. intros. rust_inv. lia. Qed.

Lemma checked_add_result_cases a b :
  checked_add_result a b = Ok (a + b) \/ checked_add_result a b = Err IntegerOverflow.
Proof. unfold checked_add_result, checked_add. case_match; by auto. Qed.

Lemma delayed_push_spec bytes gas d r d' :
  delayed_ok bytes gas d -> sendable r -> delayed_push cfg d r = Ok d' ->
  delayed_ok bytes gas d' /\ contents (dq_queue d') = contents (dq_queue d) ++ [entry_for r].
Proof.
  intros [[Hq Hl] Hb Hg Hrm] Hr. destruct (sendable_entry r Hr) as (He & Hgas & Hz & _ & _).
  unfold delayed_push. rewrite Hgas. cbn [map_err rbind].
  assert (entry_for r = stored_form cfg r (compute_receipt_size r) (gas_of (entry_for r))) as Hef
    by (unfold entry_for at 1; by rewrite Hgas).
  rewrite <- Hef. intros H. rust_inv. simplify_eq.
  repeat match goal with H : checked_add_result _ _ = Ok _ |- _ => apply checked_add_result_Ok in H end.
  pose proof (push_back_abs _ _ (entry_for r) Hq) as Hp. case_match; [|congruence].
  destruct Hp as (q' & Hp & Hq'). apply contents_abs in Hq' as Hc.
  match goal with E : push_back _ _ = Ok _ |- _ => rewrite Hp in E; injection E as <- end. split; [|done].
  split; simpl.
  - split; rewrite Hc; [done|]. apply Forall_app. split; [done|by constructor].
  - unfold queue_bytes in *. rewrite Hc, zsum_app. simpl. lia.
  - unfold queue_gas in *. rewrite Hc, zsum_app. simpl. lia.
  - done.
Qed.

Definition popped (o : option Entry) : list Entry := match o with Some e => [e] | None => [] end.

(** One pop removes a prefix: receipts of other shards, and then at most one of this. *)
Lemma delayed_pop_loop_spec own limit bytes gas fuel : forall n d,
  delayed_ok bytes gas d -> (length (contents (dq_queue d)) < fuel)%nat ->
  match delayed_pop_loop fuel cfg layout own limit n d with
  | Ok (o, d') => delayed_ok bytes gas d'
      /\ exists skipped, Forall (fun e => target_of e <> own) skipped
           /\ contents (dq_queue d) = skipped ++ popped o ++ contents (dq_queue d')
           /\ forall e, o = Some e -> target_of e = own
  | Err _ => True
  | Panic => False
  end.
Proof.
  induction fuel as [|fuel IH]; intros n d Hd Hf; [lia|]. simpl. destruct (limit n).
  { split; [done|]. by exists []. }
  pose proof Hd as [[Hq Hl] Hb Hg Hrm]. pose proof (pop_front_abs _ _ Hq) as Hp.
  destruct (contents (dq_queue d)) as [|e l] eqn:E.
  { rewrite Hp. simpl. split; [done|]. exists []. by rewrite E. }
  destruct Hp as (q' & -> & Hq'). cbn [map_err rbind]. apply Forall_cons in Hl as [He Hl].
  rewrite (eo_gas _ He). cbn [map_err rbind]. apply contents_abs in Hq' as Hc.
  destruct (checked_add_result_cases (dq_removed_delayed_gas d) (gas_of e)) as [-> | ->]; [|done].
  cbn [map_err rbind].
  destruct (checked_add_result_cases (dq_removed_delayed_bytes d) (receipt_size e)) as [-> | ->]; [|done].
  cbn [map_err rbind].
  unfold receipt_filter_fn. rewrite (eo_target _ He). cbn [rbind]. set (d1 := mkDelayed _ _ _ _ _).
  assert (delayed_ok bytes gas d1) as Hd1.
  { unfold queue_bytes, queue_gas in *. rewrite E in *. rewrite !zsum_cons in *.
    pose proof (eo_gas_pos _ He). pose proof (eo_size _ He).
    split; unfold queue_bytes, queue_gas; simpl; rewrite ?Hc; [by split; rewrite Hc|lia|lia|lia]. }
  destruct (Z.eqb_spec (target_of e) own) as [Ho|Ho].
  - split; [done|]. exists []. simpl. rewrite Hc. split_and!; [done|done|]. by intros ? [= <-].
  - specialize (IH (S n) d1 Hd1). simpl in IH, Hf. rewrite Hc in IH. specialize (IH ltac:(lia)).
    destruct (delayed_pop_loop fuel _ _ _ _ _ _) as [[o d']| |]; [|done|done].
    destruct IH as (Hd' & skipped & Hsk & Hcat & Hown). split; [done|]. exists (e :: skipped).
    split_and!; [by constructor|by rewrite Hcat|done].
Qed.

Lemma delayed_pop_spec own limit bytes gas d :
  delayed_ok bytes gas d ->
  match delayed_pop cfg layout own limit d with
  | Ok (o, d') => delayed_ok bytes gas d'
      /\ exists skipped, Forall (fun e => target_of e <> own) skipped
           /\ contents (dq_queue d) = skipped ++ popped o ++ contents (dq_queue d')
           /\ forall e, o = Some e -> target_of e = own
  | Err _ => True
  | Panic => False
  end.
Proof.
  intros Hd. unfold delayed_pop. rewrite (queue_len_abs _ (contents (dq_queue d))) by apply Hd.
  cbn [rbind]. apply delayed_pop_loop_spec; [done|lia].
Qed.

Lemma bootstrap_queue_spec l : forall gas bytes,
  Forall entry_ok l -> gas + zsum gas_of l <= u128_max -> bytes + zsum receipt_size l <= u64_max ->
  bootstrap_queue cfg (map Ok l) gas bytes = Ok (gas + zsum gas_of l, bytes + zsum receipt_size l).
Proof.
  induction l as [|e l IH]; intros gas bytes Hl Hg Hb.
  { simpl. by rewrite !Z.add_0_r. }
  apply Forall_cons in Hl as [He Hl]. rewrite !zsum_cons in *. destruct (entries_nonneg l Hl).
  pose proof (eo_gas_pos _ He). pose proof (eo_size _ He).
  cbn [map bootstrap_queue rbind]. rewrite (eo_gas _ He). cbn [map_err rbind].
  unfold checked_add. rewrite (proj2 (Z.leb_le (gas + gas_of e) _)) by lia. cbn [ok_or rbind].
  rewrite (proj2 (Z.leb_le (bytes + receipt_size e) _)) by lia. cbn [ok_or rbind].
  rewrite IH by (done || lia). do 2 f_equal; lia.
Qed.

Lemma bootstrap_buffers_spec qs : forall gas bytes,
  Forall queue_ok qs -> gas + zsum queue_gas qs <= u128_max -> bytes + zsum queue_bytes qs <= u64_max ->
  bootstrap_buffers cfg qs gas bytes = Ok (gas + zsum queue_gas qs, bytes + zsum queue_bytes qs).
Proof.
  induction qs as [|q qs IH]; intros gas bytes Hq Hg Hb.
  { simpl. by rewrite !Z.add_0_r. }
  apply Forall_cons in Hq as [[Hqa Hl] Hqs]. rewrite !zsum_cons in *.
  assert (0 <= zsum queue_gas qs /\ 0 <= zsum queue_bytes qs) as [? ?].
  { split; apply zsum_nonneg; (eapply Forall_impl; [exact Hqs|]); intros x [_ Hx%entries_nonneg]; apply Hx. }
  cbn [bootstrap_buffers]. rewrite (queue_iter_abs _ _ Hqa).
  unfold queue_gas at 1 in Hg. unfold queue_bytes at 1 in Hb.
  rewrite bootstrap_queue_spec by (done || lia). cbn [rbind].
  rewrite IH by (done || lia). f_equal. f_equal; unfold queue_gas, queue_bytes; lia.
Qed.

Lemma buffers_sum_list f (m : gmap Z (TrieQueue Entry)) :
  buffers_sum f m = zsum f (map snd (map_to_list m)).
Proof.
  unfold buffers_sum. rewrite map_fold_foldr. induction (map_to_list m) as [|[k q] l IH]; [done|].
  simpl. rewrite IH. done.
Qed.

(** Counters that count right are what the recount finds. *)
Lemma bootstrap_counts own q s :
  sink_ok (queue_bytes q) (queue_gas q) s -> queue_ok q ->
  let i := rs_own_congestion_info s in
  delayed_receipts_gas i <= u128_max -> receipt_bytes i <= u64_max ->
  bootstrap_congestion_info cfg q (rs_outgoing_buffers s) own
  = Ok (mkCongestionInfo (delayed_receipts_gas i) (buffered_receipts_gas i) (receipt_bytes i) (as_u16 own)).
Proof.
  intros Hs [Hq Hl] i Hd Hb. pose proof (so_fits _ _ _ Hs) as Hg. unfold i in *. destruct Hs as [Hqs _ Eb Eg Ed _]. rewrite Eb, Eg, Ed in *.
  destruct (queues_nonneg _ Hqs) as [N1 N2].
  pose proof (buffers_sum_nonneg _ _ N1). pose proof (buffers_sum_nonneg _ _ N2).
  unfold bootstrap_congestion_info. rewrite (queue_iter_abs _ _ Hq).
  rewrite bootstrap_queue_spec by (done || unfold queue_gas, queue_bytes in *; lia). cbn [rbind].
  fold (queue_gas q) (queue_bytes q). rewrite !buffers_sum_list in *.
  rewrite bootstrap_buffers_spec; [|..|lia|lia].
  - cbn [rbind]. do 2 f_equal; lia.
  - apply Forall_forall. intros x ([k y] & -> & Hy%elem_of_map_to_list)%list_elem_of_fmap. by eapply Hqs.
Qed.

(** The steps of a chunk that touch the queues, in any order. *)
Inductive queue_step (own : Z) :
    ReceiptSink * DelayedReceiptQueueWrapper -> ReceiptSink * DelayedReceiptQueueWrapper -> Prop :=
| step_send r s s' d :
    sendable r -> (forall shard, next_group (groups_of s shard) < u64_max) ->
    forward_or_buffer_receipt cfg layout r s = Ok s' -> queue_step own (s, d) (s', d)
| step_delay r s d d' :
    sendable r -> delayed_push cfg d r = Ok d' -> queue_step own (s, d) (s, d')
| step_pop limit o s d d' :
    delayed_pop cfg layout own limit d = Ok (o, d') -> queue_step own (s, d) (s, d').

Lemma queue_steps_ok own bytes gas s d s' d' :
  0 <= bytes -> rtc (queue_step own) (s, d) (s', d') ->
  sink_ok bytes gas s -> delayed_ok bytes gas d -> sink_ok bytes gas s' /\ delayed_ok bytes gas d'.
Proof.
  intros Hpos Hrtc. remember (s, d) as x eqn:Ex. remember (s', d') as y eqn:Ey.
  revert s d Ex. induction Hrtc as [|x1 x2 x3 Hstep _ IH]; intros s d Ex Hs Hd; simplify_eq; [done|].
  destruct x2 as [s1 d1]. apply (IH eq_refl s1 d1 eq_refl); inversion Hstep; subst.
  - pose proof (forward_or_buffer_spec bytes gas s r Hpos Hs) as H.
    match goal with E : forward_or_buffer_receipt _ _ _ _ = Ok _ |- _ => rewrite E in H end. by apply H.
  - done.
  - done.
  - done.
  - match goal with E : delayed_push _ _ _ = Ok _ |- _ => by eapply delayed_push_spec in E as [? _] end.
  - pose proof (delayed_pop_spec own limit bytes gas d Hd) as H.
    match goal with E : delayed_pop _ _ _ _ _ = Ok _ |- _ => rewrite E in H end. by apply H.
Qed.

Definition with_info (s : ReceiptSink) (i : CongestionInfo) : ReceiptSink :=
  mkReceiptSink i (rs_outgoing_receipts s) (rs_outgoing_limit s) (rs_outgoing_buffers s)
    (rs_outgoing_metadatas s).

(** C18. The congestion information of a chunk is exact.  If the counters are right at the
    start, then after forwarding from the buffers and any interleaving of sent,
    delayed and popped receipts, applying the changes of the delayed queue never
    underflows, it fails only if a counter would overflow, and the counters it gives
    are those that a recount of all delayed and buffered receipts in the state gives;
    they are right again for the next chunk. *)
Theorem congestion_info_accurate own q s s1 parents s2 d2 :
  queue_ok q -> sink_ok (queue_bytes q) (queue_gas q) s ->
  get_split_parent_shard_ids layout = Ok parents ->
  map_Forall (fun shard q => contents q = [] \/ shard ∈ served parents) (rs_outgoing_buffers s) ->
  forward_from_buffer cfg layout s = Ok s1 ->
  rtc (queue_step own) (s1, delayed_new q) (s2, d2) ->
  match apply_congestion_changes d2 (rs_own_congestion_info s2) with
  | Ok i =>
      bootstrap_congestion_info cfg (dq_queue d2) (rs_outgoing_buffers s2) own
      = Ok (mkCongestionInfo (delayed_receipts_gas i) (buffered_receipts_gas i) (receipt_bytes i)
              (as_u16 own))
      /\ sink_ok (queue_bytes (dq_queue d2)) (queue_gas (dq_queue d2)) (with_info s2 i)
  | Err e => e = UnexpectedIntegerOverflow (lit "add_delayed_receipt_gas")
             \/ e = UnexpectedIntegerOverflow (lit "add_receipt_bytes")
  | Panic => False
  end.
Proof.
  intros Hq Hs Hp Hserved Hf Hrtc.
  assert (0 <= queue_bytes q) as Hpos by (apply entries_nonneg, Hq).
  destruct (forward_from_buffer_spec _ _ s parents Hpos Hs Hp Hserved) as (s1' & sent & Hf' & Hs1 & _).
  rewrite Hf in Hf'. injection Hf' as <-.
  destruct (queue_steps_ok own _ _ _ _ _ _ Hpos Hrtc Hs1) as [Hs2 [Hq2 Hb2 Hg2 Hr2]].
  { split; unfold delayed_new; cbn; [done|by rewrite Z.sub_0_r, Z.add_0_r..|lia]. }
  destruct (entries_nonneg _ (proj2 Hq2)) as [N1 N2]. fold (queue_gas (dq_queue d2)) in N1.
  fold (queue_bytes (dq_queue d2)) in N2. destruct Hs2 as [S1 S2 S3 S4 S5 S6].
  destruct (queues_nonneg _ S1) as [_ Nb%buffers_sum_nonneg].
  unfold apply_congestion_changes, add_delayed_receipt_gas, remove_delayed_receipt_gas, add_receipt_bytes,
    remove_receipt_bytes, add_counter, sub_counter, checked_add, checked_sub.
  destruct (Z.leb_spec (delayed_receipts_gas (rs_own_congestion_info s2) + dq_new_delayed_gas d2) u128_max);
    cbn [ok_or rbind delayed_receipts_gas]; [|by left].
  rewrite (proj2 (Z.leb_le (dq_removed_delayed_gas d2) _)) by lia. cbn [ok_or rbind receipt_bytes].
  destruct (Z.leb_spec (receipt_bytes (rs_own_congestion_info s2) + dq_new_delayed_bytes d2) u64_max);
    cbn [ok_or rbind receipt_bytes]; [|by right].
  rewrite (proj2 (Z.leb_le (dq_removed_delayed_bytes d2) _)) by lia. cbn [ok_or rbind].
  match goal with |- _ /\ sink_ok _ _ (with_info _ ?x) => set (i := x) end.
  assert (sink_ok (queue_bytes (dq_queue d2)) (queue_gas (dq_queue d2)) (with_info s2 i)) as Hfin.
  { split; simpl; [done|done|lia|done|lia|done]. }
  split; [|done]. apply (bootstrap_counts own (dq_queue d2) (with_info s2 i) Hfin Hq2); simpl; lia.
Qed.
End sink.

(* ------------------------------------------------------------------ *)
(** ** A concrete sink: one shard, one receipt in its buffer *)

Section witnesses.
#[local] Existing Instance Toy.crates.

Definition one_shard : ShardLayout := LayoutV2 (mkLayoutV2 [] [0] {[0 := 0]} {[0 := 0]} None None 0).

Definition one_entry : TrieQueue Entry := mkTrieQueue {[0 := sample_entry]} (mkTrieQueueIndices 0 1).

Definition sample_sink : ReceiptSink :=
  mkReceiptSink (mkCongestionInfo 0 (queue_gas sample_config one_entry) (queue_bytes one_entry) 0) []
    {[0 := mkOutgoingLimit 1000000000000 100000]} {[0 := one_entry]} (mkOutgoingMetadatas ∅ default_config).

Lemma one_entry_abs : queue_abs one_entry [sample_entry].
Proof.
  split_and!; [done|done|done|]. intros k. simpl. destruct (decide (k = 0)) as [->|Hne]; [done|].
  rewrite lookup_singleton_ne by done. case_decide; [|done].
  rewrite lookup_ge_None_2; [done|]. simpl. lia.
Qed.

Lemma one_entry_ok : queue_ok sample_config one_shard one_entry.
Proof.
  unfold queue_ok. rewrite (contents_abs _ _ one_entry_abs). split; [apply one_entry_abs|].
  constructor; [|done]. split; vm_compute; done.
Qed.

Lemma sample_sink_ok : sink_ok sample_config one_shard 0 0 sample_sink.
Proof.
  assert (forall f, buffers_sum f {[0 := one_entry]} = f one_entry) as Hsum
    by (intros f; unfold buffers_sum; rewrite map_fold_singleton; lia).
  split.
  - apply map_Forall_singleton. apply one_entry_ok.
  - intros shard. unfold groups_of. simpl. rewrite lookup_empty. simpl.
    assert (grouped sample_config (contents (to_shard sample_sink shard)) = []) as ->.
    { unfold to_shard. simpl. destruct (decide (shard = 0)) as [->|Hne]; [done|].
      by rewrite lookup_singleton_ne. }
    apply groups_abs_empty.
  - simpl. rewrite Hsum. lia.
  - simpl. by rewrite Hsum.
  - done.
  - vm_compute. done.
Qed.

Lemma sample_served : map_Forall (fun shard q => contents q = [] \/ shard ∈ served one_shard ∅)
                        (rs_outgoing_buffers sample_sink).
Proof. apply map_Forall_singleton. right. set_solver. Qed.

Lemma sample_sendable : sendable sample_config one_shard (get_receipt sample_entry).
Proof.
  split; [|by eexists|by vm_compute].
  exists (gas_of sample_config sample_entry). split; by vm_compute.
Qed.

Lemma sink_conserves_witness :
  exists s1 sent, forward_from_buffer sample_config one_shard sample_sink = Ok s1
    /\ drained sample_config one_shard sample_sink s1 sent
    /\ match send_all sample_config one_shard [get_receipt sample_entry] s1 with
       | Ok s2 => sink_ok sample_config one_shard 0 0 s2
           /\ (exists sent kept, all_handed sample_config one_shard s1 s2 [get_receipt sample_entry] sent kept)
           /\ forall w, carried w s2 = carried w sample_sink + zsum w [get_receipt sample_entry]
       | Err _ => ~ sink_room s1 (sizes sample_config [get_receipt sample_entry])
                      (gases sample_config [get_receipt sample_entry]) 1
       | Panic => False
       end.
Proof.
  apply (sink_conserves sample_config one_shard 0 0 sample_sink ∅);
    [done|apply sample_sink_ok|done|apply sample_served|by repeat constructor; apply sample_sendable|].
  intros shard. unfold groups_of. simpl. by rewrite lookup_empty.
Defined.

Lemma congestion_info_accurate_witness :
  exists s1, forward_from_buffer sample_config one_shard sample_sink = Ok s1
  /\ match apply_congestion_changes (delayed_new empty_queue) (rs_own_congestion_info s1) with
  | Ok i =>
      bootstrap_congestion_info sample_config empty_queue (rs_outgoing_buffers s1) 0
      = Ok (mkCongestionInfo (delayed_receipts_gas i) (buffered_receipts_gas i) (receipt_bytes i) 0)
      /\ sink_ok sample_config one_shard (queue_bytes empty_queue) (queue_gas sample_config empty_queue)
           (with_info s1 i)
  | Err e => e = UnexpectedIntegerOverflow (lit "add_delayed_receipt_gas")
             \/ e = UnexpectedIntegerOverflow (lit "add_receipt_bytes")
  | Panic => False
  end.
Proof.
  destruct (forward_from_buffer_spec sample_config one_shard 0 0 sample_sink ∅) as (s1 & sent & Hf & _);
    [done|apply sample_sink_ok|done|apply sample_served|].
  exists s1. split; [exact Hf|].
  apply (congestion_info_accurate sample_config one_shard 0 empty_queue sample_sink s1 ∅ s1
           (delayed_new empty_queue)); [|apply sample_sink_ok|done|apply sample_served|exact Hf|apply rtc_refl].
  split; [apply queue_abs_empty|by constructor].
Defined.
End witnesses.
