(* ===== verification/Verifier.v ===== *)
(** * Verification and charging of transactions (runtime/src/verifier.rs)

    The checks that read the signer's account and key: storage stake, nonce,
    permission, allowance and balances, for regular keys and for gas keys, and the
    registration of the key of a Bitcoin account on its first transaction.  A
    verdict does not change the state; the caller applies it. *)

From S2P Require Import Prelude Crates AccountId Addresses Primitives Errors Fees Borsh Wire State.
From S2P Require Import BitcoinTx RuntimeTypes AccessKeys.

(* ------------------------------------------------------------------ *)
(** ** Storage stake *)

Definition ZERO_BALANCE_ACCOUNT_STORAGE_LIMIT : Z := 770.

Inductive StorageStakingError : Type :=
| LackBalanceForStorageStaking (amount : Z)
| StakingStorageError (m : message).

Definition is_zero_balance_account (account : Account) : bool :=
  storage_usage account <=? ZERO_BALANCE_ACCOUNT_STORAGE_LIMIT.

Definition check_storage_stake (account : Account) (account_balance : Z) (cfg : RuntimeConfig)
    : result unit StorageStakingError :=
  let billable_storage_bytes := storage_usage account in
  let? required_amount :=
    ok_or (checked_mul u128_max (storage_amount_per_byte (storage_usage_config (fees cfg)))
             billable_storage_bytes)
      (StakingStorageError
         (Msg "Account's billable storage usage {} overflows multiplication"
            [FZ billable_storage_bytes])) in
  let? available_amount :=
    ok_or (checked_add u128_max account_balance (locked account))
      (StakingStorageError
         (Msg "Account's amount {} and locked {} overflow addition"
            [FZ (amount account); FZ (locked account)])) in
  if required_amount <=? available_amount then Ok tt
  else if is_zero_balance_account account then Ok tt
  else
    let? lack := unwrap (checked_sub required_amount available_amount) in
    Err (LackBalanceForStorageStaking lack).

(* ------------------------------------------------------------------ *)
(** ** Keys in the state *)

Definition set_tx_state_changes (s : State) (tx : Transaction) (signer : Account) (k : AccessKey)
    : State :=
  set_account (set_access_key s (signer_id tx) (public_key tx) k) (signer_id tx) signer.

Section auto_register.
Context {C : Crates}.

(** The state comes back with errors too: a key may have been written before a
    later check fails. *)
Definition maybe_auto_register_bitcoin_access_key (s : State) (signer_id : AccountId)
    (tx_public_key : PublicKey) (tx_signature : Signature) (tx_hash_bytes : list Z)
    (block_height tx_nonce : Z) : State * result bool InvalidTxError :=
  if negb (is_bitcoin_address signer_id) then (s, Ok false)
  else
    match verify_and_register_bitcoin_transaction tx_signature tx_hash_bytes signer_id s with
    | Panic => (s, Panic)
    | Err _ => (s, Err InvalidSignature)
    | Ok (s, (valid, recovered_pubkey)) =>
        if negb valid then (s, Err InvalidSignature)
        else match recovered_pubkey with
        | None => (s, Err InvalidSignature)
        | Some recovered_pubkey =>
            if negb (bool_decide (recovered_pubkey = tx_public_key)) then (s, Err InvalidSignature)
            else match get_access_key s signer_id tx_public_key with
            | None => (s, Ok true)
            | Some access_key =>
                let registration_height := Z.max (saturating_sub block_height 1) 1 in
                match initial_nonce_value (E := unit) registration_height with
                | Ok height_floor =>
                    let tx_nonce_floor :=
                      saturating_mul u64_max (tx_nonce / ACCESS_KEY_NONCE_RANGE_MULTIPLIER)
                        ACCESS_KEY_NONCE_RANGE_MULTIPLIER in
                    let min_nonce := Z.min height_floor tx_nonce_floor in
                    if ak_nonce access_key <? min_nonce
                    then (set_access_key s signer_id tx_public_key (set_nonce access_key min_nonce),
                          Ok true)
                    else (s, Ok true)
                | _ => (s, Panic)
                end
            end
        end
    end.
End auto_register.

Definition get_signer_and_access_key (s : State) (tx : Transaction)
    : result (Account * AccessKey) InvalidTxError :=
  match get_account s (signer_id tx) with
  | None => Err (SignerDoesNotExist (signer_id tx))
  | Some signer =>
      match get_access_key s (signer_id tx) (public_key tx) with
      | None => Err (InvalidAccessKey (AccessKeyNotFound (signer_id tx) (public_key tx)))
      | Some access_key => Ok (signer, access_key)
      end
  end.

(* ------------------------------------------------------------------ *)
(** ** Permission, nonce, allowance *)

Definition verify_function_call_permission (p : FunctionCallPermission) (tx : Transaction)
    : result unit InvalidTxError :=
  if negb (length (actions tx) =? 1)%nat then Err (InvalidAccessKey RequiresFullAccess)
  else match actions tx with
  | Plain (FunctionCall f) :: _ =>
      if 0 <? fc_deposit f then Err (InvalidAccessKey DepositWithFunctionCall)
      else if negb (bool_decide (receiver_id tx = fcp_receiver_id p)) then
        Err (InvalidAccessKey (ReceiverMismatch (receiver_id tx) (fcp_receiver_id p)))
      else if negb (bool_decide (fcp_method_names p = []))
              && forallb (fun m => negb (String.eqb (fc_method_name f) m)) (fcp_method_names p) then
        Err (InvalidAccessKey (MethodNameMismatch (fc_method_name f)))
      else Ok tt
  | _ => Err (InvalidAccessKey RequiresFullAccess)
  end.

Definition verify_nonce (tx_nonce current_nonce : Z) (block_height : option Z)
    : result unit InvalidTxError :=
  if tx_nonce <=? current_nonce then Err (InvalidNonce tx_nonce current_nonce)
  else match block_height with
  | Some height =>
      let upper_bound := saturating_mul u64_max height ACCESS_KEY_NONCE_RANGE_MULTIPLIER in
      if upper_bound <=? tx_nonce then Err (NonceTooLarge tx_nonce upper_bound) else Ok tt
  | None => Ok tt
  end.

Definition check_and_compute_new_allowance (k : AccessKey) (id : AccountId) (pk : PublicKey)
    (total_cost : Z) : result (option Z) InvalidTxError :=
  match function_call_permission (ak_permission k) with
  | None => Ok None
  | Some fc =>
      match fcp_allowance fc with
      | None => Ok None
      | Some allowance =>
          let? new_allowance :=
            ok_or (checked_sub allowance total_cost)
              (InvalidAccessKey (NotEnoughAllowance id pk allowance total_cost)) in
          Ok (Some new_allowance)
      end
  end.

(* ------------------------------------------------------------------ *)
(** ** Charging *)

(** The key comes back because of the legacy mutation of its allowance.  The
    assertion on the nonce index panics. *)
Definition verify_and_charge_tx_ephemeral (cfg : RuntimeConfig) (account : Account) (k : AccessKey)
    (tx : Transaction) (cost : TransactionCost) (block_height : option Z) (version : Z)
    : result (AccessKey * TxVerdict) unit :=
  match tn_nonce_index (nonce tx) with
  | Some _ => Panic
  | None =>
  match gas_key_info k with
  | Some g => Ok (k, Failed (InvalidNonceIndex None (gk_num_nonces g)))
  | None =>
  let account_id := signer_id tx in
  let tx_nonce := tn_nonce (nonce tx) in
  match verify_nonce tx_nonce (ak_nonce k) block_height with
  | Panic => Panic
  | Err e => Ok (k, Failed e)
  | Ok _ =>
  let balance := amount account in
  match checked_sub balance (total_cost cost) with
  | None => Ok (k, Failed (NotEnoughBalance account_id balance (total_cost cost)))
  | Some new_amount =>
  match check_and_compute_new_allowance k account_id (public_key tx) (total_cost cost) with
  | Panic => Panic
  | Err e => Ok (k, Failed e)
  | Ok new_allowance =>
  let k :=
    if negb (enabled FixAccessKeyAllowanceCharging version) then
      match new_allowance with
      | Some new => set_allowance k (Some new)
      | None => k
      end
    else k in
  match check_storage_stake account new_amount cfg with
  | Panic => Panic
  | Err (LackBalanceForStorageStaking lack) =>
      Ok (k, Failed (TxLackBalanceForState account_id lack))
  | Err (StakingStorageError err) =>
      Ok (k, Failed (TxStorageError (StorageInconsistentState err)))
  | Ok _ =>
  match match function_call_permission (ak_permission k) with
        | Some p => verify_function_call_permission p tx
        | None => Ok tt
        end with
  | Panic => Panic
  | Err e => Ok (k, Failed e)
  | Ok _ =>
      Ok (k, Success {|
        vr_gas_burnt := gas_burnt cost; vr_gas_remaining := gas_remaining cost;
        vr_receipt_gas_price := receipt_gas_price cost; vr_burnt_amount := burnt_amount cost;
        vr_new_account_amount := new_amount;
        vr_access_key_update := Regular tx_nonce new_allowance |})
  end end end end end end end.

Definition verify_and_charge_gas_key_tx_ephemeral (cfg : RuntimeConfig) (account : Account)
    (k : AccessKey) (current_nonce : Z) (tx : Transaction) (cost : TransactionCost)
    (block_height : option Z) : result TxVerdict unit :=
  match tn_nonce_index (nonce tx) with
  | None => Panic
  | Some nonce_index =>
  let account_id := signer_id tx in
  match gas_key_info k with
  | None => Ok (Failed (InvalidAccessKey (AccessKeyNotFound account_id (public_key tx))))
  | Some g =>
  if gk_num_nonces g <=? nonce_index then
    Ok (Failed (InvalidNonceIndex (Some nonce_index) (gk_num_nonces g)))
  else
  let tx_nonce := tn_nonce (nonce tx) in
  match verify_nonce tx_nonce current_nonce block_height with
  | Panic => Panic
  | Err e => Ok (Failed e)
  | Ok _ =>
  match checked_sub (gk_balance g) (gas_cost cost) with
  | None => Ok (Failed (NotEnoughGasKeyBalance account_id (gk_balance g) (gas_cost cost)))
  | Some new_gas_key_balance =>
  match match function_call_permission (ak_permission k) with
        | Some p => verify_function_call_permission p tx
        | None => Ok tt
        end with
  | Panic => Panic
  | Err e => Ok (Failed e)
  | Ok _ =>
  let make_result new_account_amount := {|
    vr_gas_burnt := gas_burnt cost; vr_gas_remaining := gas_remaining cost;
    vr_receipt_gas_price := receipt_gas_price cost; vr_burnt_amount := burnt_amount cost;
    vr_new_account_amount := new_account_amount;
    vr_access_key_update := GasKey new_gas_key_balance nonce_index tx_nonce |} in
  let account_balance := amount account in
  match checked_sub account_balance (deposit_cost cost) with
  | None =>
      Ok (DepositFailed (make_result account_balance)
            (NotEnoughBalanceForDeposit account_id account_balance (deposit_cost cost)
               ReasonNotEnoughBalance))
  | Some new_account_amount =>
  match check_storage_stake account new_account_amount cfg with
  | Panic => Panic
  | Err (LackBalanceForStorageStaking lack) =>
      Ok (DepositFailed (make_result account_balance)
            (NotEnoughBalanceForDeposit account_id new_account_amount lack
               ReasonLackBalanceForState))
  | Err (StakingStorageError err) =>
      Ok (Failed (TxStorageError (StorageInconsistentState err)))
  | Ok _ => Ok (Success (make_result new_account_amount))
  end end end end end end end.

(* ------------------------------------------------------------------ *)
(** ** Storage stake: theorem *)

(** Storage staking is exact.  Where the products and sums fit, an account
    passes exactly when liquid plus staked balance covers its storage or it is
    small enough to need no balance; otherwise the error carries the exact
    shortfall, and adding it makes the check pass. *)
Theorem storage_stake_exact account balance cfg :
  let required := storage_amount_per_byte (storage_usage_config (fees cfg))
                  * storage_usage account in
  required <= u128_max -> balance + locked account <= u128_max ->
  (check_storage_stake account balance cfg = Ok tt
   <-> required <= balance + locked account
       \/ storage_usage account <= ZERO_BALANCE_ACCOUNT_STORAGE_LIMIT)
  /\ (forall lack,
        check_storage_stake account balance cfg = Err (LackBalanceForStorageStaking lack)
        -> 0 < lack /\ balance + lack + locked account = required
           /\ check_storage_stake account (balance + lack) cfg = Ok tt).
Proof.
  intros required Hr Hb. unfold check_storage_stake, is_zero_balance_account.
  unfold checked_mul, checked_add. fold required.
  destruct (Z.leb_spec required u128_max); [|lia].
  destruct (Z.leb_spec (balance + locked account) u128_max); [|lia]. simpl.
  destruct (Z.leb_spec required (balance + locked account));
    [split; [split; [auto|done]|done]|].
  destruct (Z.leb_spec (storage_usage account) ZERO_BALANCE_ACCOUNT_STORAGE_LIMIT);
    [split; [split; [auto|done]|done]|].
  unfold checked_sub. destruct (Z.leb_spec (balance + locked account) required); [|lia]. simpl.
  split; [split; [done|lia]|]. intros lack [= <-].
  replace (balance + (required - (balance + locked account)) + locked account) with required by lia.
  split_and!; [lia|done|]. destruct (Z.leb_spec required u128_max); [|lia]. simpl.
  by rewrite Z.leb_refl.
Qed.

(* ------------------------------------------------------------------ *)
(** ** Permission: theorem *)

(** A restricted key signs exactly the transactions its permission names: one
    function call, without deposit, to the permitted receiver, of a permitted
    method (any method, if none is listed). *)
Theorem function_call_permission_iff p tx :
  verify_function_call_permission p tx = Ok tt <->
  exists f, actions tx = [Plain (FunctionCall f)] /\ fc_deposit f <= 0
    /\ receiver_id tx = fcp_receiver_id p
    /\ (fcp_method_names p = [] \/ fc_method_name f ∈ fcp_method_names p).
Proof.
  assert (Hm : forall f, negb (bool_decide (fcp_method_names p = []))
      && forallb (fun m => negb (String.eqb f m)) (fcp_method_names p) = false
      <-> fcp_method_names p = [] \/ f ∈ fcp_method_names p).
  { intros f. case_bool_decide; simpl; [naive_solver|].
    rewrite <- not_true_iff_false, forallb_forall. setoid_rewrite negb_true_iff.
    setoid_rewrite String.eqb_neq. setoid_rewrite <- list_elem_of_In. split.
    - intros Hx. right. destruct (decide (f ∈ fcp_method_names p)) as [?|Hn]; [done|].
      destruct Hx. intros m Hin ->. by apply Hn.
    - intros [?|Hin] Hx; [done|]. by apply (Hx f). }
  unfold verify_function_call_permission. split.
  - destruct (actions tx) as [|a [|b l]]; simpl; try done.
    destruct a as [[]|]; try done. intros Hx.
    destruct (Z.ltb_spec 0 (fc_deposit a)); [done|].
    case_bool_decide; [|done]. simpl in Hx.
    destruct (negb _ && _) eqn:E; [done|]. apply Hm in E. eauto 10.
  - intros (f & -> & Hd & -> & Hn). simpl.
    destruct (Z.ltb_spec 0 (fc_deposit f)); [lia|].
    rewrite bool_decide_true by done. simpl. apply Hm in Hn. by rewrite Hn.
Qed.

(* ------------------------------------------------------------------ *)
(** ** Regular keys: theorems *)

Definition allowance_of (k : AccessKey) : option Z :=
  match function_call_permission (ak_permission k) with
  | Some p => fcp_allowance p
  | None => None
  end.

(** The key after a charge: the transaction's nonce, and the cost taken from the
    allowance, if it has one. *)
Definition charged_key (k : AccessKey) (n cost : Z) : AccessKey :=
  match allowance_of k with
  | Some a => set_allowance (set_nonce k n) (Some (a - cost))
  | None => set_nonce k n
  end.

Lemma verify_nonce_Ok n cur bh :
  verify_nonce n cur bh = Ok tt <->
  cur < n /\ forall h, bh = Some h ->
    n < saturating_mul u64_max h ACCESS_KEY_NONCE_RANGE_MULTIPLIER.
Proof.
  unfold verify_nonce. destruct (Z.leb_spec n cur); [split; [done|lia]|].
  destruct bh as [h|]; [|naive_solver].
  destruct (Z.leb_spec (saturating_mul u64_max h ACCESS_KEY_NONCE_RANGE_MULTIPLIER) n).
  - split; [done|]. intros [_ Hx]. specialize (Hx h eq_refl). lia.
  - split; [|done]. intros _. split; [done|]. by intros ? [= <-].
Qed.

Lemma new_allowance_spec k id pk c o :
  check_and_compute_new_allowance k id pk c = Ok o ->
  o = (fun a => a - c) <$> allowance_of k /\ (forall a, allowance_of k = Some a -> c <= a).
Proof.
  unfold check_and_compute_new_allowance, allowance_of.
  destruct (function_call_permission _) as [fc|]; [|by intros [= <-]].
  destruct (fcp_allowance fc) as [a|]; [|by intros [= <-]].
  intros H. rust_inv. subst. split; [done|]. by intros ? [= <-].
Qed.

(** What [Success] says about the inputs. *)
Lemma charge_regular_inv cfg account k tx cost bh v k' r :
  verify_and_charge_tx_ephemeral cfg account k tx cost bh v = Ok (k', Success r) ->
  tn_nonce_index (nonce tx) = None /\ gas_key_info k = None
  /\ verify_nonce (tn_nonce (nonce tx)) (ak_nonce k) bh = Ok tt
  /\ total_cost cost <= amount account
  /\ check_storage_stake account (amount account - total_cost cost) cfg = Ok tt
  /\ (forall a, allowance_of k = Some a -> total_cost cost <= a)
  /\ vr_new_account_amount r = amount account - total_cost cost
  /\ vr_access_key_update r
     = Regular (tn_nonce (nonce tx)) ((fun a => a - total_cost cost) <$> allowance_of k)
  /\ vr_burnt_amount r = burnt_amount cost
  /\ vr_receipt_gas_price r = receipt_gas_price cost
  /\ k' = (if enabled FixAccessKeyAllowanceCharging v then k
           else match allowance_of k with
                | Some a => set_allowance k (Some (a - total_cost cost))
                | None => k
                end).
Proof.
  unfold verify_and_charge_tx_ephemeral. intros H.
  destruct (tn_nonce_index (nonce tx)); [done|]. destruct (gas_key_info k); [done|].
  destruct (verify_nonce _ _ _) as [[]| |]; try done.
  destruct (checked_sub _ _) as [na|] eqn:Es; [|done]. apply checked_sub_Some in Es as [-> Hle].
  destruct (check_and_compute_new_allowance _ _ _ _) as [o| |] eqn:Ea; try done.
  apply new_allowance_spec in Ea as [-> Hal].
  destruct (check_storage_stake _ _ _) as [[]|[]|] eqn:Ec; try done.
  destruct (match function_call_permission _ with Some _ => _ | None => _ end) as [[]| |]; try done.
  injection H as <- <-. simpl. split_and!; try done.
  destruct (enabled _ _); [done|]. by destruct (allowance_of k).
Qed.

Lemma charge_regular_apply cfg account k tx cost bh v k' r :
  verify_and_charge_tx_ephemeral cfg account k tx cost bh v = Ok (k', Success r) ->
  vr_apply r account k'
  = Ok (set_amount account (amount account - total_cost cost),
        charged_key k (tn_nonce (nonce tx)) (total_cost cost)).
Proof.
  intros H. apply charge_regular_inv in H as (_ & _ & _ & _ & _ & _ & Ha & Hu & _ & _ & ->).
  unfold vr_apply, charged_key. rewrite Ha, Hu.
  unfold allowance_of. destruct k as [n []], (enabled _ v); simpl; try done;
    destruct (fcp_allowance p); done.
Qed.

(** What a successful regular transaction costs.  The verdict can always be
    applied; the signer pays exactly the total cost, which it can afford, and
    still covers its storage; the key gets the transaction's nonce, larger than
    before and below the bound of the block height, and loses the total cost of
    its allowance, if limited; gas keys are refused on this path. *)
Theorem charge_regular_success cfg account k tx cost bh v k' r :
  verify_and_charge_tx_ephemeral cfg account k tx cost bh v = Ok (k', Success r) ->
  vr_apply r account k'
    = Ok (set_amount account (amount account - total_cost cost),
          charged_key k (tn_nonce (nonce tx)) (total_cost cost))
  /\ total_cost cost <= amount account
  /\ check_storage_stake account (amount account - total_cost cost) cfg = Ok tt
  /\ ak_nonce k < tn_nonce (nonce tx)
  /\ (forall h, bh = Some h ->
        tn_nonce (nonce tx) < saturating_mul u64_max h ACCESS_KEY_NONCE_RANGE_MULTIPLIER)
  /\ (forall a, allowance_of k = Some a -> total_cost cost <= a)
  /\ gas_key_info k = None.
Proof.
  intros H. split; [by apply (charge_regular_apply cfg account k tx cost bh v)|].
  apply charge_regular_inv in H as (_ & ? & [? ?]%verify_nonce_Ok & ? & ? & ? & _). by split_and!.
Qed.

(** No replay: after a transaction was charged, the same transaction is
    refused for its nonce, at any height, cost and protocol version. *)
Theorem charged_tx_not_replayable cfg account k tx cost bh v k' r account2 k2 :
  verify_and_charge_tx_ephemeral cfg account k tx cost bh v = Ok (k', Success r) ->
  vr_apply r account k' = Ok (account2, k2) ->
  forall cfg' cost' bh' v',
    verify_and_charge_tx_ephemeral cfg' account2 k2 tx cost' bh' v'
    = Ok (k2, Failed (InvalidNonce (tn_nonce (nonce tx)) (tn_nonce (nonce tx)))).
Proof.
  intros H Ha cfg' cost' bh' v'. rewrite (charge_regular_apply _ _ _ _ _ _ _ _ _ H) in Ha.
  injection Ha as <- <-. apply charge_regular_inv in H as (Hi & Hg & _).
  unfold verify_and_charge_tx_ephemeral. rewrite Hi.
  assert (gas_key_info (charged_key k (tn_nonce (nonce tx)) (total_cost cost)) = None) as ->
    by (unfold charged_key, allowance_of; destruct k as [? []]; simpl in *; try done;
        by destruct (fcp_allowance p)).
  assert (ak_nonce (charged_key k (tn_nonce (nonce tx)) (total_cost cost)) = tn_nonce (nonce tx)) as ->
    by (unfold charged_key, allowance_of; destruct k as [? []]; simpl in *; try done;
        by destruct (fcp_allowance p)).
  unfold verify_nonce. by rewrite Z.leb_refl.
Qed.

(** With the allowance fix, a verdict never touches the key: only applying a
    successful verdict changes it.  Without it, the key may differ in its
    allowance only, reduced by the total cost. *)
Theorem charge_key_untouched cfg account k tx cost bh v k' verdict :
  verify_and_charge_tx_ephemeral cfg account k tx cost bh v = Ok (k', verdict) ->
  (enabled FixAccessKeyAllowanceCharging v = true -> k' = k)
  /\ (k' = k \/ exists a, allowance_of k = Some a
                  /\ k' = set_allowance k (Some (a - total_cost cost)))
  /\ match verdict with DepositFailed _ _ => False | _ => True end.
Proof.
  unfold verify_and_charge_tx_ephemeral. intros H.
  destruct (tn_nonce_index (nonce tx)); [done|].
  destruct (gas_key_info k); [injection H as <- <-; auto|].
  destruct (verify_nonce _ _ _) as [[]| |]; [|injection H as <- <-; auto|done].
  destruct (checked_sub _ _) as [na|]; [|injection H as <- <-; auto].
  destruct (check_and_compute_new_allowance _ _ _ _) as [o| |] eqn:Ea;
    [|injection H as <- <-; auto|done].
  apply new_allowance_spec in Ea as [-> Hal].
  set (k1 := if negb _ then _ else k) in H.
  assert (Hk : (enabled FixAccessKeyAllowanceCharging v = true -> k1 = k)
    /\ (k1 = k \/ exists a, allowance_of k = Some a
                    /\ k1 = set_allowance k (Some (a - total_cost cost)))).
  { subst k1. destruct (enabled _ v); simpl; [auto|]. split; [done|].
    destruct (allowance_of k) as [a|]; simpl; eauto. }
  clearbody k1. destruct Hk as [H1 H2].
  destruct (check_storage_stake _ _ _) as [[]|[]|]; try done; try (by injection H as <- <-).
  destruct (match function_call_permission _ with Some _ => _ | None => _ end) as [[]| |];
    try done; by injection H as <- <-.
Qed.

(* ------------------------------------------------------------------ *)
(** ** Gas keys: theorem *)

Lemma charge_gas_key_inv cfg account k cur tx cost bh verdict r paid :
  verify_and_charge_gas_key_tx_ephemeral cfg account k cur tx cost bh = Ok verdict ->
  (verdict = Success r /\ paid = deposit_cost cost)
  \/ ((exists e, verdict = DepositFailed r e) /\ paid = 0) ->
  exists g idx,
    gas_key_info k = Some g /\ tn_nonce_index (nonce tx) = Some idx /\ idx < gk_num_nonces g
    /\ gas_key_nonce_update r = Some (idx, tn_nonce (nonce tx)) /\ cur < tn_nonce (nonce tx)
    /\ gas_cost cost <= gk_balance g
    /\ vr_burnt_amount r = burnt_amount cost
    /\ vr_receipt_gas_price r = receipt_gas_price cost
    /\ vr_new_account_amount r = amount account - paid
    /\ vr_apply r account k
       = Ok (set_amount account (amount account - paid),
             set_gas_key_info k (mkGasKeyInfo (gk_balance g - gas_cost cost) (gk_num_nonces g)))
    /\ (verdict = Success r <->
        deposit_cost cost <= amount account
        /\ check_storage_stake account (amount account - deposit_cost cost) cfg = Ok tt).
Proof.
  unfold verify_and_charge_gas_key_tx_ephemeral. intros H Hv.
  destruct (tn_nonce_index (nonce tx)) as [idx|]; [|done].
  destruct (gas_key_info k) as [g|] eqn:Hg; [|naive_solver].
  destruct (Z.leb_spec (gk_num_nonces g) idx); [naive_solver|].
  destruct (verify_nonce _ _ _) as [[]| |] eqn:Hn; [|naive_solver..].
  apply verify_nonce_Ok in Hn as [Hn _].
  destruct (checked_sub (gk_balance g) _) as [nb|] eqn:Eb; [|naive_solver].
  apply checked_sub_Some in Eb as [-> Hle].
  destruct (match function_call_permission _ with Some _ => _ | None => _ end) as [[]| |];
    [|naive_solver..].
  exists g, idx. unfold vr_apply, gas_key_nonce_update. rewrite Hg.
  destruct (checked_sub (amount account) _) as [na|] eqn:Es.
  - apply checked_sub_Some in Es as [-> Hd].
    destruct (check_storage_stake _ _ _) as [[]|[]|] eqn:Ec; [..|discriminate H]; injection H as <-;
      destruct Hv as [[Hv ->]|[[e Hv] ->]]; try discriminate Hv; injection Hv as <-; simpl;
      rewrite ?Z.sub_0_r; split_and!; try done; naive_solver.
  - apply checked_sub_None in Es. injection H as <-.
    destruct Hv as [[Hv ->]|[[e Hv] ->]]; [discriminate Hv|]. injection Hv as <-. simpl.
    rewrite Z.sub_0_r. split_and!; try done. split; [done|lia].
Qed.

(** What a gas-key transaction costs.  On success the gas is paid by the gas
    key and the deposits by the account, exactly; when the account cannot pay the
    deposits, only the gas is charged and the account keeps its balance.  Either
    way the verdict can be applied, the nonce of an existing index grows, and
    nothing else of the key changes. *)
Theorem charge_gas_key_exact cfg account k cur tx cost bh verdict r paid :
  verify_and_charge_gas_key_tx_ephemeral cfg account k cur tx cost bh = Ok verdict ->
  (verdict = Success r /\ paid = deposit_cost cost)
  \/ ((exists e, verdict = DepositFailed r e) /\ paid = 0) ->
  exists g idx,
    gas_key_info k = Some g /\ tn_nonce_index (nonce tx) = Some idx /\ idx < gk_num_nonces g
    /\ gas_key_nonce_update r = Some (idx, tn_nonce (nonce tx)) /\ cur < tn_nonce (nonce tx)
    /\ gas_cost cost <= gk_balance g
    /\ vr_apply r account k
       = Ok (set_amount account (amount account - paid),
             set_gas_key_info k (mkGasKeyInfo (gk_balance g - gas_cost cost) (gk_num_nonces g)))
    /\ (verdict = Success r <->
        deposit_cost cost <= amount account
        /\ check_storage_stake account (amount account - deposit_cost cost) cfg = Ok tt).
Proof.
  intros H Hv. destruct (charge_gas_key_inv _ _ _ _ _ _ _ _ _ _ H Hv)
    as (g & idx & ? & ? & ? & ? & ? & ? & _ & _ & _ & ? & ?). exists g, idx. by split_and!.
Qed.

(* ------------------------------------------------------------------ *)
(** ** First transaction of a Bitcoin account *)

(** The nonce a fresh key is registered with. *)
Definition registration_nonce (block_height tx_nonce : Z) : Z :=
  Z.min ((Z.max (block_height - 1) 1 - 1) * ACCESS_KEY_NONCE_RANGE_MULTIPLIER)
        (tx_nonce / ACCESS_KEY_NONCE_RANGE_MULTIPLIER * ACCESS_KEY_NONCE_RANGE_MULTIPLIER).

Section first_tx.
Context {C : Crates}.

Lemma verify_and_register_owner s id raw hash k :
  is_bitcoin_address id = true -> length hash = 32%nat -> secp_recover raw hash = Some k ->
  id ∈ derive_all_bitcoin_addresses k ->
  verify_and_register_bitcoin_transaction (SigSECP256K1 raw) hash id s
  = Ok ((auto_register_access_key_if_needed s id (SECP256K1 k)).1, (true, Some (SECP256K1 k))).
Proof.
  intros Hb Hl Hr Hin. unfold verify_and_register_bitcoin_transaction, recover_secp256k1_signature.
  rewrite Hb, Hl, Hr. cbn [Nat.eqb negb rbind].
  assert (existsb (String.eqb id) (derive_all_bitcoin_addresses k) = true) as ->.
  { apply existsb_exists. exists id. split; [by apply list_elem_of_In|apply String.eqb_refl]. }
  by destruct (auto_register_access_key_if_needed s id (SECP256K1 k)).
Qed.

Lemma fresh_key_registered s id raw hash k bh n :
  is_bitcoin_address id = true -> length hash = 32%nat -> secp_recover raw hash = Some k ->
  id ∈ derive_all_bitcoin_addresses k -> get_access_key s id (SECP256K1 k) = None ->
  1 <= bh -> bh * ACCESS_KEY_NONCE_RANGE_MULTIPLIER <= u64_max -> is_u u64_max n ->
  exists s',
    maybe_auto_register_bitcoin_access_key s id (SECP256K1 k) (SigSECP256K1 raw) hash bh n
    = (s', Ok true)
    /\ same_but_key s s' id (SECP256K1 k)
    /\ get_access_key s' id (SECP256K1 k)
       = Some (mkAccessKey (registration_nonce bh n) PermFullAccess)
    /\ (n mod ACCESS_KEY_NONCE_RANGE_MULTIPLIER <> 0 -> registration_nonce bh n < n).
Proof.
  intros Hb Hl Hr Hin Hnone Hbh Hmax Hn. unfold maybe_auto_register_bitcoin_access_key.
  rewrite Hb, (verify_and_register_owner s id raw hash k) by done. cbn [negb].
  rewrite bool_decide_true by done. cbn [negb].
  destruct (auto_register_access_key_if_needed s id (SECP256K1 k)) as [s1 b] eqn:Er.
  apply auto_register_spec in Er as (Hsame & Hk & _). rewrite Hnone in Hk. cbn [fst default] in *.
  simpl in Hk. rewrite Hk. unfold initial_nonce_value, sub_or_panic, mul_or_panic, saturating_sub,
    saturating_mul, ACCESS_KEY_NONCE_RANGE_MULTIPLIER in *.
  set (hr := Z.max (Z.max 0 (bh - 1)) 1).
  assert (hr = Z.max (bh - 1) 1) as Ehr by lia.
  unfold checked_sub, checked_mul. destruct (Z.leb_spec 1 hr); [|lia]. cbn [unwrap rbind].
  destruct (Z.leb_spec ((hr - 1) * 1000000) u64_max); [|lia]. cbn [unwrap rbind].
  assert (n / 1000000 * 1000000 <= n) by (Z.to_euclidean_division_equations; lia).
  destruct Hn as [Hn0 Hn1].
  assert (0 <= n / 1000000) by (apply Z.div_pos; lia).
  assert (Hmin : Z.min ((hr - 1) * 1000000) (Z.min u64_max (n / 1000000 * 1000000))
                 = registration_nonce bh n)
    by (unfold registration_nonce, ACCESS_KEY_NONCE_RANGE_MULTIPLIER; lia).
  rewrite Hmin. unfold full_access. cbn [ak_nonce].
  assert (0 <= registration_nonce bh n)
    by (unfold registration_nonce, ACCESS_KEY_NONCE_RANGE_MULTIPLIER; lia).
  assert (Hlt : n mod 1000000 <> 0 -> registration_nonce bh n < n).
  { intros Hmod. unfold registration_nonce, ACCESS_KEY_NONCE_RANGE_MULTIPLIER.
    pose proof (Z.div_mod n 1000000). pose proof (Z.mod_pos_bound n 1000000). lia. }
  destruct (Z.ltb_spec 0 (registration_nonce bh n)).
  - eexists. split; [reflexivity|]. split_and!; [|apply get_set_access_key|done].
    eapply same_but_key_trans; [exact Hsame|]. auto with rust.
  - exists s1. split_and!; try done. rewrite Hk. unfold full_access. repeat f_equal. lia.
Qed.

(** C35. First transaction of a Bitcoin account.  If the account has no key yet
    and the transaction is signed by the owner of the address, registration
    succeeds, changes nothing but that one key, and gives it full access and a
    nonce that is below the transaction's whenever the transaction's nonce is not
    the first of its range. *)
Theorem first_tx_registers_key s id raw hash k bh n :
  is_bitcoin_address id = true -> length hash = 32%nat -> secp_recover raw hash = Some k ->
  id ∈ derive_all_bitcoin_addresses k -> get_access_key s id (SECP256K1 k) = None ->
  1 <= bh -> bh * ACCESS_KEY_NONCE_RANGE_MULTIPLIER <= u64_max -> is_u u64_max n ->
  exists s',
    maybe_auto_register_bitcoin_access_key s id (SECP256K1 k) (SigSECP256K1 raw) hash bh n
    = (s', Ok true)
    /\ same_but_key s s' id (SECP256K1 k)
    /\ get_access_key s' id (SECP256K1 k)
       = Some (mkAccessKey (registration_nonce bh n) PermFullAccess)
    /\ (n mod ACCESS_KEY_NONCE_RANGE_MULTIPLIER <> 0 -> registration_nonce bh n < n).
Proof. apply fresh_key_registered. Qed.
End first_tx.

(* ------------------------------------------------------------------ *)
(** ** The theorems at concrete inputs *)

Section witnesses.
#[local] Existing Instance Toy.crates.

Definition sample_signer : Account := account_new (10 ^ 27) 0 ContractNone 900.

Lemma storage_stake_exact_witness :
  check_storage_stake sample_signer (10 ^ 27) sample_config = Ok tt.
Proof.
  apply (proj1 (storage_stake_exact sample_signer (10 ^ 27) sample_config
    ltac:(vm_compute; congruence) ltac:(vm_compute; congruence))).
  left. vm_compute. congruence.
Defined.

Definition sample_limited : AccessKey :=
  mkAccessKey 5 (PermFunctionCall (mkFunctionCallPermission (Some (10 ^ 25)) "bob.near" ["m"])).

Definition sample_call_tx (n : TransactionNonce) : Transaction :=
  TxV1 {| t1_signer_id := "alice.near"; t1_public_key := ED25519 (replicate 32 7);
          t1_nonce := n; t1_receiver_id := "bob.near"; t1_block_hash := hash_default;
          t1_actions := [Plain (FunctionCall (mkFunctionCall "m" [] 1000 0))] |}.

Definition sample_cost : TransactionCost :=
  {| gas_burnt := 10; gas_remaining := 20; receipt_gas_price := 1; burnt_amount := 10;
     gas_cost := 30; deposit_cost := 40; total_cost := 70 |}.

Definition sample_verdict : VerificationResult :=
  mkVerificationResult 10 20 1 10 (10 ^ 27 - 70) (Regular 12 (Some (10 ^ 25 - 70))).

Lemma sample_charge :
  verify_and_charge_tx_ephemeral sample_config sample_signer sample_limited
    (sample_call_tx (Nonce 12)) sample_cost (Some 3) 83
  = Ok (sample_limited, Success sample_verdict).
Proof. vm_compute. reflexivity. Qed.

Lemma charge_regular_success_witness :
  ak_nonce sample_limited < 12 /\ total_cost sample_cost <= amount sample_signer.
Proof.
  destruct (charge_regular_success _ _ _ _ _ _ _ _ _ sample_charge) as (_ & H1 & _ & H2 & _).
  exact (conj H2 H1).
Defined.

Lemma charged_tx_not_replayable_witness :
  verify_and_charge_tx_ephemeral sample_config (set_amount sample_signer (10 ^ 27 - 70))
    (mkAccessKey 12
       (PermFunctionCall (mkFunctionCallPermission (Some (10 ^ 25 - 70)) "bob.near" ["m"])))
    (sample_call_tx (Nonce 12)) sample_cost (Some 3) 83
  = Ok (mkAccessKey 12
          (PermFunctionCall (mkFunctionCallPermission (Some (10 ^ 25 - 70)) "bob.near" ["m"])),
        Failed (InvalidNonce 12 12)).
Proof. exact (charged_tx_not_replayable _ _ _ _ _ _ _ _ _ _ _ sample_charge eq_refl _ _ _ _). Defined.

(** A call to the wrong receiver, before the allowance fix: the transaction
    fails, and the allowance is charged all the same. *)
Definition sample_wrong_tx : Transaction :=
  TxV0 {| t0_signer_id := "alice.near"; t0_public_key := ED25519 (replicate 32 7);
          t0_nonce := 12; t0_receiver_id := "eve.near"; t0_block_hash := hash_default;
          t0_actions := [Plain (FunctionCall (mkFunctionCall "m" [] 1000 0))] |}.

Lemma sample_legacy_failure :
  verify_and_charge_tx_ephemeral sample_config sample_signer sample_limited sample_wrong_tx
    sample_cost (Some 3) 82
  = Ok (set_allowance sample_limited (Some (10 ^ 25 - 70)),
        Failed (InvalidAccessKey (ReceiverMismatch "eve.near" "bob.near"))).
Proof. vm_compute. reflexivity. Qed.

Lemma charge_key_untouched_witness :
  set_allowance sample_limited (Some (10 ^ 25 - 70)) = sample_limited
  \/ exists a, allowance_of sample_limited = Some a
       /\ set_allowance sample_limited (Some (10 ^ 25 - 70))
          = set_allowance sample_limited (Some (a - total_cost sample_cost)).
Proof.
  destruct (charge_key_untouched _ _ _ _ _ _ _ _ _ sample_legacy_failure) as (_ & H & _).
  exact H.
Defined.

Definition sample_gas_key_wallet : AccessKey :=
  mkAccessKey 0 (PermGasKeyFullAccess (mkGasKeyInfo 100 4)).

Definition sample_gas_verdict : VerificationResult :=
  mkVerificationResult 10 20 1 10 (10 ^ 27 - 40) (GasKey 70 3 12).

Lemma sample_gas_charge :
  verify_and_charge_gas_key_tx_ephemeral sample_config sample_signer sample_gas_key_wallet 11
    (sample_call_tx (GasKeyNonce 12 3)) sample_cost (Some 3)
  = Ok (Success sample_gas_verdict).
Proof. vm_compute. reflexivity. Qed.

Lemma charge_gas_key_exact_witness :
  exists g idx, gas_key_info sample_gas_key_wallet = Some g
    /\ vr_apply sample_gas_verdict sample_signer sample_gas_key_wallet
       = Ok (set_amount sample_signer (amount sample_signer - 40),
             set_gas_key_info sample_gas_key_wallet
               (mkGasKeyInfo (gk_balance g - 30) (gk_num_nonces g)))
    /\ idx < gk_num_nonces g.
Proof.
  destruct (charge_gas_key_exact _ _ _ _ _ _ _ _ sample_gas_verdict 40 sample_gas_charge
              (or_introl (conj eq_refl eq_refl))) as (g & idx & H1 & _ & H2 & _ & _ & _ & H3 & _).
  exists g, idx. exact (conj H1 (conj H3 H2)).
Defined.

Lemma sample_owner : sample_btc ∈ derive_all_bitcoin_addresses sample_key.
Proof.
  pose proof sample_match as H. apply existsb_exists in H as (x & Hin & ->%String.eqb_eq).
  by apply list_elem_of_In.
Qed.

Lemma first_tx_registers_key_witness :
  exists s',
    maybe_auto_register_bitcoin_access_key empty_state sample_btc (SECP256K1 sample_key)
      (SigSECP256K1 sample_sig) sample_msg 8 7000001 = (s', Ok true)
    /\ get_access_key s' sample_btc (SECP256K1 sample_key)
       = Some (mkAccessKey 6000000 PermFullAccess).
Proof.
  destruct (first_tx_registers_key empty_state sample_btc sample_sig sample_msg sample_key 8 7000001
              sample_btc_is_bitcoin eq_refl sample_recover sample_owner (lookup_empty _)
              ltac:(lia) ltac:(vm_compute; congruence) ltac:(vm_compute; split; congruence))
    as (s' & H1 & _ & H2 & _).
  exists s'. exact (conj H1 H2).
Defined.
End witnesses.
