(* ===== verification/Actions.v ===== *)
(** * Handlers of actions (runtime/src/actions.rs, global_contracts.rs,
    deterministic_account_id.rs)

    Staking, transfers, creation and deletion of accounts, contracts, delegate
    actions, and the checks that run before an action.  A handler takes the
    mutable arguments of the source and returns them.  Compiling a contract only
    fills a cache and is left out. *)

From S2P Require Import Prelude Crates AccountId Addresses Primitives Errors Fees Borsh Wire State.
From S2P Require Import BitcoinTx RuntimeTypes AccessKeys Validation SignableMessage Verifier.

Definition storage_err {A : Type} (m : result A StorageError) : result A RuntimeError :=
  map_err RtStorageError m.

Definition inconsistent (m : message) : RuntimeError := RtStorageError (StorageInconsistentState m).

(* ------------------------------------------------------------------ *)
(** ** Staking *)

Definition action_stake (ei : EpochInfo) (account : Account) (res : ActionResult) (id : AccountId)
    (a : StakeAction) : result (Account * ActionResult) RuntimeError :=
  let increment := saturating_sub (sa_stake a) (locked account) in
  match checked_sub (amount account) increment with
  | Some new_balance =>
      if (locked account =? 0) && (sa_stake a =? 0) then Ok (account, fail res (TriesToUnstake id))
      else
        let? too_small :=
          if 0 <? sa_stake a then
            let? m := minimum_stake ei in
            if sa_stake a <? m then Ok (Some m) else Ok None
          else Ok None in
        match too_small with
        | Some m => Ok (account, fail res (InsufficientStake id (sa_stake a) m))
        | None =>
            let res := push_proposal res (mkValidatorStake id (sa_public_key a) (sa_stake a)) in
            if locked account <? sa_stake a
            then Ok (set_locked (set_amount account new_balance) (sa_stake a), res)
            else Ok (account, res)
        end
  | None =>
      Ok (account, fail res (TriesToStake id (sa_stake a) (locked account) (amount account)))
  end.

(* ------------------------------------------------------------------ *)
(** ** Refunds and transfers *)

Definition try_refund_gas_key_balance (s : State) (id : AccountId) (pk : PublicKey) (deposit : Z)
    : result (State * bool) StorageError :=
  match get_access_key s id pk with
  | None => Ok (s, false)
  | Some k =>
      match gas_key_info k with
      | None => Ok (s, false)
      | Some g =>
          let? b := ok_or (checked_add u128_max (gk_balance g) deposit)
                      (StorageInconsistentState (lit "gas key balance integer overflow")) in
          Ok (set_access_key s id pk (set_gas_key_info k (mkGasKeyInfo b (gk_num_nonces g))), true)
      end
  end.

Definition try_refund_allowance (s : State) (id : AccountId) (pk : PublicKey) (deposit : Z) : State :=
  match get_access_key s id pk with
  | Some k =>
      match ak_permission k with
      | PermFunctionCall p =>
          match fcp_allowance p with
          | Some allowance =>
              let new_allowance := saturating_add u128_max allowance deposit in
              if allowance <? new_allowance
              then set_access_key s id pk (set_allowance k (Some new_allowance))
              else s
          | None => s
          end
      | _ => s
      end
  | None => s
  end.

Definition action_transfer (account : Account) (deposit : Z) : result Account StorageError :=
  let? b := ok_or (checked_add u128_max (amount account) deposit)
              (StorageInconsistentState (lit "Account balance integer overflow")) in
  Ok (set_amount account b).

(* ------------------------------------------------------------------ *)
(** ** Creating accounts *)

Definition action_create_account (cfg : RuntimeConfig) (account : option Account)
    (actor_id id predecessor_id : AccountId) (res : ActionResult)
    : option Account * AccountId * ActionResult :=
  if is_top_level id
     && ((str_len id <? min_allowed_top_level_account_length cfg)
         && negb (bool_decide (predecessor_id = registrar_account_id cfg))) then
    (account, actor_id,
     fail res (CreateAccountOnlyByRegistrar id (registrar_account_id cfg) predecessor_id))
  else if negb (is_top_level id) && negb (is_sub_account_of id predecessor_id) then
    (account, actor_id, fail res (CreateAccountNotAllowed id predecessor_id))
  else
    (Some (account_new 0 0 ContractNone (num_bytes_account (storage_usage_config (fees cfg)))),
     id, res).

(** [hex::decode] on lower-case digits. *)
Definition hex_value (c : Z) : option Z :=
  if (48 <=? c) && (c <=? 57) then Some (c - 48)
  else if (97 <=? c) && (c <=? 102) then Some (c - 87)
  else if (65 <=? c) && (c <=? 70) then Some (c - 55)
  else None.

Fixpoint hex_decode (l : list Z) : option (list Z) :=
  match l with
  | [] => Some []
  | [_] => None
  | a :: b :: l =>
      let* x := hex_value a in
      let* y := hex_value b in
      let* rest := hex_decode l in
      Some (16 * x + y :: rest)
  end.

(** [a + b + ..] on u64, with overflow checks. *)
Definition sum_u64 {E : Type} (l : list Z) : result Z E :=
  fold_left (fun acc x => let? a := acc in add_or_panic u64_max a x) l (Ok 0).

Definition create_deterministic_account (initial_balance : Z) (cfg : StorageUsageConfig) : Account :=
  account_new initial_balance 0 ContractNone (num_bytes_account cfg).

Section implicit.
Context {C : Crates}.

(** [PublicKey::from_near_implicit_account(..).unwrap()]. *)
Definition from_near_implicit_account {E : Type} (id : AccountId) : result PublicKey E :=
  match get_account_type id with
  | NearImplicitAccount =>
      match hex_decode (as_bytes id) with
      | Some key => unwrap (try_from_slice public_key_c (0 :: key))
      | None => Panic
      end
  | _ => Panic
  end.

Definition action_implicit_account_creation_transfer (ap : ApplyState) (ei : EpochInfo) (s : State)
    (id : AccountId) (deposit : Z) : result (State * option Account * AccountId) RuntimeError :=
  let cfg := storage_usage_config (fees (config ap)) in
  let actor_id := id in
  match get_account_type id with
  | NearImplicitAccount =>
      let? n := initial_nonce_value (block_height ap) in
      let access_key := set_nonce full_access n in
      let? pk := from_near_implicit_account id in
      let? usage := sum_u64 [num_bytes_account cfg; public_key_len pk;
                             object_length access_key_c access_key; num_extra_bytes_record cfg] in
      Ok (set_access_key s id pk access_key,
          Some (account_new deposit 0 ContractNone usage), actor_id)
  | EthImplicitAccount =>
      let magic_bytes := wallet_contract_magic_bytes ei in
      let? usage := sum_u64 [num_bytes_account cfg; vec_len magic_bytes;
                             num_extra_bytes_record cfg] in
      Ok (set_code s id magic_bytes,
          Some (account_new deposit 0 (from_local_code_hash (sha256 magic_bytes)) usage), actor_id)
  | NearDeterministicAccount =>
      Ok (s, Some (create_deterministic_account deposit cfg), actor_id)
  | BtcImplicitAccount =>
      Ok (s, Some (account_new deposit 0 ContractNone (num_bytes_account cfg)), actor_id)
  | NamedAccount => Panic
  end.
End implicit.

(* ------------------------------------------------------------------ *)
(** ** Contracts *)

(** Both branches of the protocol feature return the length of the stored code. *)
Definition get_code_len_or_default (s : State) (id : AccountId) : Z :=
  default 0 (get_code_len s id).

Definition clear_account_contract_storage_usage (s : State) (id : AccountId) (account : Account)
    : Account :=
  match contract account with
  | ContractNone => account
  | ContractLocal _ =>
      set_storage_usage account
        (saturating_sub (storage_usage account) (get_code_len_or_default s id))
  | ContractGlobal _ | ContractGlobalByAccount _ =>
      set_storage_usage account
        (saturating_sub (storage_usage account) (identifier_storage_usage (contract account)))
  end.

Definition usage_overflow (id : AccountId) : RuntimeError :=
  inconsistent (Msg "Storage usage integer overflow for account {}" [FS id]).

Section contracts.
Context {C : Crates}.

Definition action_deploy_contract (s : State) (account : Account) (id : AccountId) (code : list Z)
    : result (State * Account) RuntimeError :=
  let account := clear_account_contract_storage_usage s id account in
  let? u := ok_or (checked_add u64_max (storage_usage account) (vec_len code)) (usage_overflow id) in
  let account := set_storage_usage account u in
  let account := set_contract account (ContractLocal (sha256 code)) in
  Ok (set_code s id code, account).
End contracts.

Definition use_global_contract (s : State) (id : AccountId) (account : Account)
    (i : GlobalContractIdentifier) (res : ActionResult)
    : result (State * Account * ActionResult) RuntimeError :=
  match gc_code (st_globals s) !! i with
  | None => Ok (s, account, fail res (GlobalContractDoesNotExist i))
  | Some _ =>
      let account := clear_account_contract_storage_usage s id account in
      let s := if contract_is_local (contract account) then remove_code s id else s in
      let c := match i with
               | CodeHash h => ContractGlobal h
               | ByAccountId a => ContractGlobalByAccount a
               end in
      let? u := ok_or (checked_add u64_max (storage_usage account)
                         (global_contract_identifier_len i)) (usage_overflow id) in
      Ok (s, set_contract (set_storage_usage account u) c, res)
  end.

(** [get_nonce] and [set_nonce]; stored nonces are eight bytes, kept decoded. *)
Definition get_global_nonce (s : State) (i : GlobalContractIdentifier) : Z :=
  default 0 (gc_nonces (st_globals s) !! i).
Definition set_global_nonce (s : State) (i : GlobalContractIdentifier) (n : Z) : State :=
  with_globals s (mkGlobalContracts (gc_code (st_globals s)) (<[i := n]> (gc_nonces (st_globals s)))).
Definition set_global_code (s : State) (i : GlobalContractIdentifier) (code : list Z) : State :=
  with_globals s (mkGlobalContracts (<[i := code]> (gc_code (st_globals s))) (gc_nonces (st_globals s))).

Definition increment_nonce (version : Z) (s : State) (i : GlobalContractIdentifier)
    : result (State * Z) RuntimeError :=
  if negb (enabled GlobalContractDistributionNonce version) then Ok (s, 0)
  else
    let? n := ok_or (checked_add u64_max (get_global_nonce s i) 1)
                (UnexpectedIntegerOverflow (lit "GlobalContractDistributionNonce")) in
    Ok (set_global_nonce s i n, n).

(** [GlobalContractDistributionReceipt::new]. *)
Definition distribution_new (i : GlobalContractIdentifier) (target : Z) (delivered : list Z)
    (code : list Z) (nonce version : Z) : GlobalContractDistributionReceipt :=
  if enabled GlobalContractDistributionNonce version
  then mkGlobalDistribution i target delivered code (Some nonce)
  else mkGlobalDistribution i target delivered code None.

(** [Receipt::new_global_contract_distribution]. *)
Definition new_global_contract_distribution (predecessor_id : AccountId)
    (g : GlobalContractDistributionReceipt) : Receipt :=
  {| r_predecessor_id := predecessor_id; r_receiver_id := "system";
     r_receipt_id := hash_default; r_receipt := RGlobalContractDistribution g |}.

Section global.
Context {C : Crates}.

Definition initiate_distribution (s : State) (id : AccountId) (code : list Z)
    (mode : GlobalContractDeployMode) (current_shard_id version : Z) (res : ActionResult)
    : result (State * ActionResult) RuntimeError :=
  let i := match mode with
           | DeployCodeHash => CodeHash (sha256 code)
           | DeployAccountId => ByAccountId id
           end in
  let? (s, nonce) := increment_nonce version s i in
  let g := distribution_new i current_shard_id [] code nonce version in
  Ok (s, push_receipt res (new_global_contract_distribution id g)).

Definition action_deploy_global_contract (ap : ApplyState) (s : State) (account : Account)
    (id : AccountId) (a : DeployGlobalContractAction) (res : ActionResult)
    : result (State * Account * ActionResult) RuntimeError :=
  let per_byte := global_contract_storage_amount_per_byte
                    (storage_usage_config (fees (config ap))) in
  let storage_cost := saturating_mul u128_max per_byte (vec_len (dg_code a)) in
  match checked_sub (amount account) storage_cost with
  | None => Ok (s, account, fail res (LackBalanceForState id storage_cost))
  | Some updated_balance =>
      let? res :=
        if enabled IncludeDeployGlobalContractOutcomeBurntStorage (current_protocol_version ap) then
          let? tb := map_err overflow_error
                       (ok_or (checked_add u128_max (res_tokens_burnt res) storage_cost)
                          IntegerOverflow) in
          Ok (set_tokens_burnt res tb)
        else Ok res in
      let account := set_amount account updated_balance in
      let? (s, res) := initiate_distribution s id (dg_code a) (dg_deploy_mode a) (shard_id ap)
                         (current_protocol_version ap) res in
      Ok (s, account, res)
  end.
End global.

(** The freshness check and the write of [apply_distribution_current_shard];
    the state is committed when the code is written. *)
Definition check_and_update_nonce (version : Z) (s : State) (g : GlobalContractDistributionReceipt)
    : State * bool :=
  if negb (enabled GlobalContractDistributionNonce version) then (s, true)
  else
    let incoming := default 0 (gd_nonce g) in
    if incoming <? get_global_nonce s (gd_id g) then (s, false)
    else (set_global_nonce s (gd_id g) incoming, true).

Definition apply_distribution_current_shard (version : Z) (s : State)
    (g : GlobalContractDistributionReceipt) : State :=
  let '(s, fresh) := check_and_update_nonce version s g in
  if fresh then set_global_code s (gd_id g) (gd_code g) else s.

(* ------------------------------------------------------------------ *)
(** ** Deleting accounts *)

(** Returns state, account, actor and result; [unwrap] of a missing account
    panics. *)
Definition action_delete_account (s : State) (account : option Account) (actor_id : AccountId)
    (receipt : Receipt) (res : ActionResult) (id beneficiary_id : AccountId)
    : result (State * option Account * AccountId * ActionResult) RuntimeError :=
  match account with
  | None => Panic
  | Some account_ref =>
      let code_len := get_code_len_or_default s id in
      let usage := saturating_sub (storage_usage account_ref) code_len in
      if MAX_ACCOUNT_DELETION_STORAGE_USAGE <? usage then
        Ok (s, account, actor_id, fail res (DeleteAccountWithLargeState id))
      else
        let? to_burn := storage_err (compute_gas_key_balance_sum s id) in
        if MAX_BALANCE_TO_BURN <? to_burn then
          Ok (s, account, actor_id, fail res (GasKeyBalanceTooHigh id None to_burn))
        else
          let account_balance := amount account_ref in
          let res := if 0 <? account_balance
                     then push_receipt res (new_balance_refund beneficiary_id account_balance)
                     else res in
          let s := remove_account s id in
          let? tb := ok_or (checked_add u128_max (res_tokens_burnt res) to_burn)
                       (inconsistent (lit "tokens_burnt overflow")) in
          Ok (s, None, r_predecessor_id receipt, set_tokens_burnt res tb)
  end.

(* ------------------------------------------------------------------ *)
(** ** Deterministic accounts *)

Fixpoint insert_entries (cfg : StorageUsageConfig) (s : State) (id : AccountId) (usage : Z)
    (entries : list (list Z * list Z)) : result (State * Z) RuntimeError :=
  match entries with
  | [] => Ok (s, usage)
  | (key, value) :: entries =>
      let? kv := map_err overflow_error
                   (ok_or (checked_add u64_max (vec_len value) (vec_len key)) IntegerOverflow) in
      let? new_bytes := map_err overflow_error
                          (ok_or (checked_add u64_max kv (num_extra_bytes_record cfg))
                             IntegerOverflow) in
      let s := set_contract_data s id key value in
      let? usage := map_err overflow_error
                      (ok_or (checked_add u64_max usage new_bytes) IntegerOverflow) in
      insert_entries cfg s id usage entries
  end.

Definition deploy_deterministic_account (cfg : StorageUsageConfig) (s : State) (account : Account)
    (id : AccountId) (init : DeterministicAccountStateInit) (res : ActionResult)
    : result (State * Account * ActionResult) RuntimeError :=
  let? (s, account, res) := use_global_contract s id account (si_code init) res in
  if negb (result_is_ok res) then Ok (s, account, res)
  else
    let? (s, usage) := insert_entries cfg s id (storage_usage account) (si_data init) in
    Ok (s, set_storage_usage account usage, res).

Definition action_deterministic_state_init (ap : ApplyState) (s : State) (account : option Account)
    (id : AccountId) (receipt : Receipt) (a : DeterministicStateInitAction) (res : ActionResult)
    : result (State * option Account * ActionResult) RuntimeError :=
  let cfg := storage_usage_config (fees (config ap)) in
  let account := default (create_deterministic_account 0 cfg) account in
  let? (s, account, res) :=
    if contract_is_none (contract account)
    then deploy_deterministic_account cfg s account id (ds_state_init a) res
    else Ok (s, account, res) in
  if negb (result_is_ok res) then Ok (s, Some account, res)
  else
    let refund (account : Account) (deposit_refund : Z) :=
      let res := if 0 <? deposit_refund
                 then push_receipt res
                        (new_balance_refund (balance_refund_receiver receipt) deposit_refund)
                 else res in
      Ok (s, Some account, res) in
    match check_storage_stake account (amount account) (config ap) with
    | Panic => Panic
    | Ok _ => refund account (ds_deposit a)
    | Err (LackBalanceForStorageStaking missing) =>
        if missing <=? ds_deposit a then
          let? b := map_err overflow_error (safe_add_balance (amount account) missing) in
          let? rest := unwrap (checked_sub (ds_deposit a) missing) in
          refund (set_amount account b) rest
        else Ok (s, Some account, fail res (LackBalanceForState id missing))
    | Err (StakingStorageError err) => Err (inconsistent err)
    end.

(* ------------------------------------------------------------------ *)
(** ** Delegate actions *)

Definition delegate_key_error (res : ActionResult) (e : InvalidAccessKeyError) : ActionResult :=
  fail res (DelegateActionAccessKeyError e).

(** The checks of a function-call key; [false] when they end early with an error.
    A deposit is an error too, but the checks go on. *)
Definition check_delegate_function_call (p : FunctionCallPermission) (d : DelegateAction)
    (res : ActionResult) : ActionResult * bool :=
  match da_actions d with
  | [FunctionCall f] =>
      let res := if 0 <? fc_deposit f then delegate_key_error res DepositWithFunctionCall else res in
      if negb (bool_decide (da_receiver_id d = fcp_receiver_id p)) then
        (delegate_key_error res (ReceiverMismatch (da_receiver_id d) (fcp_receiver_id p)), false)
      else if negb (bool_decide (fcp_method_names p = []))
              && forallb (fun m => negb (String.eqb (fc_method_name f) m)) (fcp_method_names p) then
        (delegate_key_error res (MethodNameMismatch (fc_method_name f)), false)
      else (res, true)
  | _ => (delegate_key_error res RequiresFullAccess, false)
  end.

Definition validate_delegate_action_key (ap : ApplyState) (s : State) (d : DelegateAction)
    (res : ActionResult) : result (State * ActionResult) RuntimeError :=
  match get_access_key s (da_sender_id d) (da_public_key d) with
  | None => Ok (s, delegate_key_error res (AccessKeyNotFound (da_sender_id d) (da_public_key d)))
  | Some k =>
      if da_nonce d <=? ak_nonce k then
        Ok (s, fail res (DelegateActionInvalidNonce (da_nonce d) (ak_nonce k)))
      else
        let? upper_bound := mul_or_panic u64_max (block_height ap) ACCESS_KEY_NONCE_RANGE_MULTIPLIER in
        if upper_bound <=? da_nonce d then
          Ok (s, fail res (DelegateActionNonceTooLarge (da_nonce d) upper_bound))
        else
          let k := set_nonce k (da_nonce d) in
          let '(res, continue) :=
            match ak_permission k with
            | PermFunctionCall p => check_delegate_function_call p d res
            | _ => (res, true)
            end in
          if continue then Ok (set_access_key s (da_sender_id d) (da_public_key d) k, res)
          else Ok (s, res)
  end.

Definition action_receipt_required_gas {C : Crates} (ap : ApplyState) (receiver : AccountId)
    (acts : list Action) : result Z RuntimeError :=
  let? exec := map_err overflow_error (total_prepaid_exec_fees (config ap) acts receiver) in
  let? gas := map_err overflow_error (total_prepaid_gas acts) in
  let? r := map_err overflow_error (checked_add_result exec gas) in
  map_err overflow_error
    (checked_add_result r (fee_exec (action_fees (fees (config ap)) c_new_action_receipt))).

Section delegate.
Context {C : Crates}.

Definition apply_delegate_action (ap : ApplyState) (s : State) (ar : ActionReceipt)
    (sender_id : AccountId) (sd : SignedDelegateAction) (res : ActionResult)
    : result (State * ActionResult) RuntimeError :=
  let d := sd_delegate_action sd in
  let? record := storage_err (get_patoshi_record s sender_id) in
  let is_locked_patoshi :=
    match record with
    | Some record => is_patoshi_locked record (epoch_height ap)
    | None => false
    end in
  if is_locked_patoshi then
    Ok (s, delegate_key_error res
             (MethodNameMismatch "Patoshi locked account cannot use DelegateAction"))
  else
  let? verified := map_err (fun _ => UnexpectedIntegerOverflow (lit "")) (signed_delegate_verify sd) in
  if negb verified then Ok (s, fail res DelegateActionInvalidSignature)
  else if da_max_block_height d <? block_height ap then Ok (s, fail res DelegateActionExpired)
  else if negb (bool_decide (da_sender_id d = sender_id)) then
    Ok (s, fail res (DelegateActionSenderDoesNotMatchTxReceiver (da_sender_id d) sender_id))
  else
    let? (s, res) := validate_delegate_action_key ap s d res in
    if negb (result_is_ok res) then Ok (s, res)
    else
      let new_receipt := {|
        r_predecessor_id := sender_id; r_receiver_id := da_receiver_id d;
        r_receipt_id := hash_default;
        r_receipt := RAction {|
          ar_signer_id := ar_signer_id ar; ar_signer_public_key := ar_signer_public_key ar;
          ar_gas_price := ar_gas_price ar; ar_output_data_receivers := [];
          ar_input_data_ids := []; ar_actions := get_actions d |} |} in
      let? send_fees := map_err overflow_error
                          (total_prepaid_send_fees (config ap) (ar_actions ar)) in
      let? required_gas := action_receipt_required_gas ap (da_receiver_id d) (get_actions d) in
      let? used := map_err overflow_error (checked_add_result (res_gas_used res) required_gas) in
      let? used := map_err overflow_error (checked_add_result used send_fees) in
      let? burnt := map_err overflow_error (checked_add_result (res_gas_burnt res) send_fees) in
      let? compute := map_err overflow_error (safe_add_compute (res_compute_usage res) send_fees) in
      Ok (s, push_receipt (set_gas res burnt used compute) new_receipt).
End delegate.

(* ------------------------------------------------------------------ *)
(** ** Checks before an action *)

Definition check_actor_permissions (a : Action) (account : option Account) (actor_id id : AccountId)
    : result unit ActionError :=
  let same_actor :=
    if negb (bool_decide (actor_id = id))
    then Err (action_error (ActorNoPermission id actor_id)) else Ok tt in
  match a with
  | Plain (DeployContract _) | Plain (Stake _) | Plain (AddKey _) | Plain (DeleteKey _)
  | Plain (DeployGlobalContract _) | Plain (UseGlobalContract _)
  | Plain (WithdrawFromGasKey _ _) => same_actor
  | Plain (DeleteAccount _) =>
      let? _ := same_actor in
      match account with
      | None => Panic
      | Some account =>
          if negb (locked account =? 0) then Err (action_error (DeleteAccountStaking id)) else Ok tt
      end
  | Plain CreateAccount | Plain (FunctionCall _) | Plain (Transfer _)
  | Plain (TransferToGasKey _ _) | Delegate _ | Plain (DeterministicStateInit _) => Ok tt
  end.

Section existence.
Context {C : Crates}.

Definition check_transfer_to_nonexisting_account (cfg : RuntimeConfig) (id : AccountId)
    (implicit_account_creation_eligible : bool) : result unit ActionError :=
  if implicit_account_creation_eligible
     && account_is_implicit id (eth_implicit_accounts cfg) (deterministic_account_ids cfg)
  then Ok tt else Err (action_error (AccountDoesNotExist id)).

Definition check_account_existence (a : Action) (account : option Account) (id : AccountId)
    (cfg : RuntimeConfig) (implicit_account_creation_eligible : bool) : result unit ActionError :=
  match a with
  | Plain CreateAccount =>
      match account with
      | Some _ => Err (action_error (AccountAlreadyExists id))
      | None =>
          if account_is_implicit id (eth_implicit_accounts cfg) (deterministic_account_ids cfg)
          then Err (action_error (OnlyImplicitAccountCreationAllowed id)) else Ok tt
      end
  | Plain (Transfer _) =>
      match account with
      | None => check_transfer_to_nonexisting_account cfg id implicit_account_creation_eligible
      | Some _ => Ok tt
      end
  | Plain (DeterministicStateInit _) => Ok tt
  | _ =>
      match account with
      | None => Err (action_error (AccountDoesNotExist id))
      | Some _ => Ok tt
      end
  end.
End existence.
