(* ===== verification/ActionProofs.v ===== *)
(** * Properties of action handlers

    Which delegate actions a key may sign. *)

From S2P Require Import Prelude Crates AccountId Addresses Primitives Errors Fees Borsh Wire State.
From S2P Require Import BitcoinTx RuntimeTypes AccessKeys Validation SignableMessage Verifier Actions.

(** What a function-call permission lets a delegate action do. *)
Definition delegate_call_allowed (p : FunctionCallPermission) (d : DelegateAction) : Prop :=
  exists f, da_actions d = [FunctionCall f] /\ fc_deposit f <= 0
  /\ da_receiver_id d = fcp_receiver_id p
  /\ (fcp_method_names p = [] \/ In (fc_method_name f) (fcp_method_names p)).

Lemma no_method_matches m l :
  forallb (fun x => negb (String.eqb m x)) l = true <-> ~ In m l.
Proof.
  rewrite forallb_forall. split.
  - intros H Hin. specialize (H m Hin). by rewrite String.eqb_refl in H.
  - intros H x Hx. apply negb_true_iff, String.eqb_neq. by intros ->.
Qed.

Lemma check_delegate_iff p d res :
  result_is_ok res = true ->
  let '(res', continue) := check_delegate_function_call p d res in
  (result_is_ok res' = true <-> delegate_call_allowed p d)
  /\ (result_is_ok res' = true -> continue = true /\ res' = res).
Proof.
  intros Hok. unfold check_delegate_function_call, delegate_call_allowed.
  destruct (da_actions d) as [|[| |f| | | | | | | | | |] [|]];
    try (split; [split; [done|by intros (? & ? & _)]|done]).
  case_bool_decide as Hr; cbn [negb]; [|split; [split; [done|by intros (? & ? & ? & ? & _)]|done]].
  destruct (negb _ && _) eqn:E.
  { apply andb_prop in E as [E1 E2%no_method_matches]. apply negb_true_iff, bool_decide_eq_false in E1.
    split; [split; [done|]|done]. intros (f' & [= <-] & _ & _ & [?|?]); done. }
  destruct (Z.ltb_spec 0 (fc_deposit f)) as [Hd|Hd].
  { split; [split; [done|]|done]. intros (f' & [= <-] & ? & _). lia. }
  rewrite Hok. split; [|done]. split; [|done]. intros _. exists f. split_and!; try done.
  apply andb_false_iff in E as [E|E].
  - left. by apply negb_false_iff, bool_decide_eq_true in E.
  - right. destruct (in_dec String.string_dec (fc_method_name f) (fcp_method_names p)) as [?|Hn]; [done|].
    apply no_method_matches in Hn. congruence.
Qed.

(** C37. Which delegate actions a key may sign.  The check of the key succeeds exactly
    when the nonce is above the key's and below the bound of the block height, and
    a plain function-call key signs one call without deposit to its receiver and
    one of its methods.  No other permission restricts the action: a gas key whose
    permission is limited to function calls may sign a delegate action with any
    actions, though the same key is limited when it signs a transaction.  On
    success the key's nonce becomes the action's and nothing else changes. *)
Theorem delegate_key_iff ap s d res k :
  get_access_key s (da_sender_id d) (da_public_key d) = Some k -> result_is_ok res = true ->
  let bound := block_height ap * ACCESS_KEY_NONCE_RANGE_MULTIPLIER in
  bound <= u64_max ->
  exists s' res', validate_delegate_action_key ap s d res = Ok (s', res')
  /\ (result_is_ok res' = true <->
      ak_nonce k < da_nonce d < bound
      /\ match ak_permission k with
         | PermFunctionCall p => delegate_call_allowed p d
         | PermFullAccess | PermGasKeyFullAccess _ | PermGasKeyFunctionCall _ _ => True
         end)
  /\ (result_is_ok res' = true ->
      res' = res /\ s' = set_access_key s (da_sender_id d) (da_public_key d) (set_nonce k (da_nonce d))).
Proof.
  intros Hk Hok bound Hb. unfold validate_delegate_action_key. rewrite Hk.
  destruct (Z.leb_spec (da_nonce d) (ak_nonce k)) as [Hn|Hn].
  { do 2 eexists. split; [done|]. simpl. split; [|done]. split; [done|lia]. }
  unfold mul_or_panic, checked_mul. fold bound. destruct (Z.leb_spec bound u64_max); [|lia]. simpl.
  destruct (Z.leb_spec bound (da_nonce d)) as [Hu|Hu].
  { do 2 eexists. split; [done|]. simpl. split; [|done]. split; [done|lia]. }
  destruct (ak_permission k) as [p| |g p|g] eqn:Ep; simpl.
  2-4: do 2 eexists; split; [done|]; split; [by rewrite Hok|done].
  pose proof (check_delegate_iff p d res Hok) as Hc.
  destruct (check_delegate_function_call p d res) as [res' []]; simpl in Hc; destruct Hc as [Hiff Hsame].
  - do 2 eexists. split; [done|]. split; [|by intros [_ ->]%Hsame]. rewrite Hiff. naive_solver lia.
  - do 2 eexists. split; [done|]. assert (result_is_ok res' = true -> False) by (by intros [? _]%Hsame).
    split; [|by intros]. naive_solver.
Qed.

(* ------------------------------------------------------------------ *)
(** ** The theorem at a concrete key *)

Section witnesses.

Definition limited_gas_key : AccessKey :=
  mkAccessKey 0 (PermGasKeyFunctionCall (mkGasKeyInfo 0 1)
                   (mkFunctionCallPermission None "bob.near" ["vote"%string])).

(** A transfer signed by a gas key that may only call one method. *)
Definition limited_transfer : DelegateAction :=
  {| da_sender_id := "alice.near"; da_receiver_id := "carol.near"; da_actions := [Transfer 5];
     da_nonce := 7; da_max_block_height := 100; da_public_key := sample_pk |}.

Lemma delegate_key_iff_witness :
  exists s', validate_delegate_action_key sample_apply
    (set_access_key empty_state "alice.near" sample_pk limited_gas_key) limited_transfer result_default
  = Ok (s', result_default).
Proof.
  assert (Hk : get_access_key (set_access_key empty_state "alice.near" sample_pk limited_gas_key)
                 "alice.near" sample_pk = Some limited_gas_key) by apply get_set_access_key.
  destruct (delegate_key_iff sample_apply _ limited_transfer result_default limited_gas_key Hk eq_refl
              ltac:(vm_compute; congruence)) as (s' & res' & E & Hiff & Heq).
  assert (Hok : result_is_ok res' = true) by (apply Hiff; split; [vm_compute; split; congruence|exact I]).
  destruct (Heq Hok) as [-> _]. exists s'. exact E.
Defined.
End witnesses.
