(* ===== verification/Runtime.v ===== *)
(** * Executing action receipts (runtime/src/lib.rs)

    [apply_action], the loop over the actions of a receipt, refunds, and
    [apply_action_receipt] with its commits, rollback, rewards and outgoing data.
    The execution of a function call (contract preparation and the virtual
    machine) is a parameter; receipts handed to the sink or executed instantly are
    collected in lists. *)

From S2P Require Import Prelude Crates AccountId Addresses Primitives Errors Fees Borsh Wire State.
From S2P Require Import BitcoinTx RuntimeTypes AccessKeys Validation SignableMessage Verifier Actions.

(* ------------------------------------------------------------------ *)
(** ** Identifiers and outcomes *)

Section ids.
Context {C : Crates}.

Definition create_hash_index (base : CryptoHash) (height salt : Z) : CryptoHash :=
  sha256 (base ++ le_enc 8 height ++ le_enc 8 salt).

Definition create_receipt_id_from_transaction (tx_hash : CryptoHash) (height : Z) : CryptoHash :=
  create_hash_index tx_hash height 0.

(** [ApplyState::create_receipt_id]. *)
Definition create_receipt_id (ap : ApplyState) (parent : CryptoHash) (index : Z) : CryptoHash :=
  create_hash_index parent (block_height ap) index.

Definition create_action_hash_from_receipt_id (receipt_id : CryptoHash) (height index : Z)
    : CryptoHash := create_hash_index receipt_id height (u64_max - index).
End ids.

Inductive ExecutionStatus : Type :=
| SuccessValue (v : list Z)
| SuccessReceiptId (id : CryptoHash)
| FailureAction (e : ActionError)
| FailureTx (e : InvalidTxError).

Record ExecutionOutcome : Type := mkOutcome {
  o_id : CryptoHash;
  o_status : ExecutionStatus;
  o_logs : list string;
  o_receipt_ids : list CryptoHash;
  o_gas_burnt : Z;
  o_compute_usage : Z;
  o_tokens_burnt : Z;
  o_executor_id : AccountId;
}.

(** The balance statistics of a chunk. *)
Record BalanceStats : Type := mkBalanceStats {
  bs_tx_burnt_amount : Z;
  bs_other_burnt_amount : Z;
  bs_gas_deficit_amount : Z;
}.

Record GasRefundResult : Type := mkGasRefundResult {
  price_deficit : Z;
  price_surplus : Z;
  refund_penalty : Z;
}.

Definition gas_refund_default : GasRefundResult := mkGasRefundResult 0 0 0.

(** What executing receipts accumulates, next to the state: receipts sent out,
    receipts to execute at once, validator proposals, statistics. *)
Record Effects : Type := mkEffects {
  fx_outgoing : list Receipt;
  fx_instant : list Receipt;
  fx_proposals : list ValidatorStake;
  fx_stats : BalanceStats;
}.

(* ------------------------------------------------------------------ *)
(** ** One action *)

Definition action_transfer_or_implicit_account_creation {C : Crates} (ap : ApplyState)
    (ei : EpochInfo) (s : State) (account : option Account) (actor_id : AccountId) (deposit : Z)
    (is_refund : bool) (ar : ActionReceipt) (receipt : Receipt)
    : result (State * option Account * AccountId) RuntimeError :=
  match account with
  | Some account =>
      let is_gas_refund := is_refund && bool_decide (ar_signer_id ar = r_receiver_id receipt) in
      let? (s, refunded) :=
        if is_gas_refund
        then storage_err (try_refund_gas_key_balance s (r_receiver_id receipt)
                            (ar_signer_public_key ar) deposit)
        else Ok (s, false) in
      if refunded then Ok (s, Some account, actor_id)
      else
        let? account := storage_err (action_transfer account deposit) in
        let s := if is_gas_refund
                 then try_refund_allowance s (r_receiver_id receipt) (ar_signer_public_key ar) deposit
                 else s in
        Ok (s, Some account, actor_id)
  | None => action_implicit_account_creation_transfer ap ei s (r_receiver_id receipt) deposit
  end.

Section runtime.
Context {C : Crates}.

(** [action_function_call] with the contract it prepares: state, account, receipt,
    promise results, result so far, the call, the hash of the action, and whether it
    is the last one. *)
Variable action_function_call : ApplyState -> EpochInfo -> State -> Account -> Receipt ->
  ActionReceipt -> list (option (list Z)) -> ActionResult -> FunctionCallAction -> CryptoHash ->
  bool -> result (State * Account * ActionResult) RuntimeError.

(** Mutable arguments of [apply_action]. *)
Abbreviation ActionState := (State * option Account * AccountId)%type (only parsing).

(** [account.as_mut().expect(EXPECT_ACCOUNT_EXISTS)]. *)
Definition with_account {A : Type} (account : option Account)
    (k : Account -> result A RuntimeError) : result A RuntimeError :=
  match account with
  | Some a => k a
  | None => Panic
  end.

Definition dispatch_action (ap : ApplyState) (ei : EpochInfo) (s : State) (account : option Account)
    (actor_id : AccountId) (receipt : Receipt) (ar : ActionReceipt)
    (promise_results : list (option (list Z))) (action_index : Z) (a : Action) (res : ActionResult)
    : result (ActionState * ActionResult) RuntimeError :=
  let id := r_receiver_id receipt in
  let is_refund := is_system (r_predecessor_id receipt) in
  match a with
  | Plain CreateAccount =>
      let '(account, actor_id, res) :=
        action_create_account (config ap) account actor_id id (r_predecessor_id receipt) res in
      Ok (s, account, actor_id, res)
  | Plain (DeployContract code) =>
      with_account account (fun acc =>
        let? (s, acc) := action_deploy_contract s acc id code in
        Ok (s, Some acc, actor_id, res))
  | Plain (DeployGlobalContract d) =>
      with_account account (fun acc =>
        let? (s, acc, res) := action_deploy_global_contract ap s acc id d res in
        Ok (s, Some acc, actor_id, res))
  | Plain (UseGlobalContract i) =>
      with_account account (fun acc =>
        let? (s, acc, res) := use_global_contract s id acc i res in
        Ok (s, Some acc, actor_id, res))
  | Plain (DeterministicStateInit d) =>
      let? (s, account, res) := action_deterministic_state_init ap s account id receipt d res in
      Ok (s, account, actor_id, res)
  | Plain (FunctionCall f) =>
      with_account account (fun acc =>
        let action_hash :=
          create_action_hash_from_receipt_id (r_receipt_id receipt) (block_height ap) action_index in
        let is_last_action := action_index + 1 =? vec_len (ar_actions ar) in
        let? (s, acc, res) := action_function_call ap ei s acc receipt ar promise_results res f
                                action_hash is_last_action in
        Ok (s, Some acc, actor_id, res))
  | Plain (Transfer deposit) =>
      let? (s, account, actor_id) :=
        action_transfer_or_implicit_account_creation ap ei s account actor_id deposit is_refund ar
          receipt in
      Ok (s, account, actor_id, res)
  | Plain (Stake a) =>
      with_account account (fun acc =>
        let? (acc, res) := action_stake ei acc res id a in
        Ok (s, Some acc, actor_id, res))
  | Plain (AddKey a) =>
      with_account account (fun acc =>
        let? (s, acc, res) := action_add_key ap s acc res id a in
        Ok (s, Some acc, actor_id, res))
  | Plain (DeleteKey pk) =>
      with_account account (fun acc =>
        let? (s, acc, res) := action_delete_key (fees (config ap)) s acc res id pk in
        Ok (s, Some acc, actor_id, res))
  | Plain (DeleteAccount beneficiary) =>
      let? (s, account, actor_id, res) :=
        action_delete_account s account actor_id receipt res id beneficiary in
      Ok (s, account, actor_id, res)
  | Delegate d =>
      let? (s, res) := apply_delegate_action ap s ar id d res in
      Ok (s, account, actor_id, res)
  | Plain (TransferToGasKey pk deposit) =>
      let? (s, res) := action_transfer_to_gas_key s res id pk deposit in
      Ok (s, account, actor_id, res)
  | Plain (WithdrawFromGasKey pk amt) =>
      with_account account (fun acc =>
        let? (s, acc, res) := action_withdraw_from_gas_key s acc res id pk amt in
        Ok (s, Some acc, actor_id, res))
  end.

Definition apply_action (ap : ApplyState) (ei : EpochInfo) (s : State) (account : option Account)
    (actor_id : AccountId) (receipt : Receipt) (ar : ActionReceipt)
    (promise_results : list (option (list Z))) (action_index : Z) (a : Action)
    : result (ActionState * ActionResult) RuntimeError :=
  let id := r_receiver_id receipt in
  let? exec_fees := map_err overflow_error (exec_fee (config ap) a id) in
  let res := set_gas result_default exec_fees exec_fees exec_fees in
  let is_refund := is_system (r_predecessor_id receipt) in
  let is_the_only_action := vec_len (ar_actions ar) =? 1 in
  let is_deterministic_account_multi_action_eligible :=
    enabled FixDeterministicAccountIdCreation (current_protocol_version ap)
    && deterministic_account_ids (config ap)
    && match get_account_type id with NearDeterministicAccount => true | _ => false end in
  let implicit_account_creation_eligible :=
    negb is_refund && (is_the_only_action || is_deterministic_account_multi_action_eligible) in
  match check_account_existence a account id (config ap) implicit_account_creation_eligible with
  | Panic => Panic
  | Err e => Ok (s, account, actor_id, fail_with res e)
  | Ok _ =>
      match check_actor_permissions a account actor_id id with
      | Panic => Panic
      | Err e => Ok (s, account, actor_id, fail_with res e)
      | Ok _ => dispatch_action ap ei s account actor_id receipt ar promise_results action_index a res
      end
  end.

(* ------------------------------------------------------------------ *)
(** ** The actions of a receipt *)

(** [try_for_each] of [validate_receipt]. *)
Fixpoint validate_new_receipts (ap : ApplyState) (l : list Receipt)
    : result unit ReceiptValidationError :=
  match l with
  | [] => Ok tt
  | r :: l =>
      let? _ := validate_receipt (limit_config (config ap)) r (current_protocol_version ap)
                  NewReceipt in
      validate_new_receipts ap l
  end.

Definition check_new_receipts (ap : ApplyState) (res : ActionResult) : result ActionResult RuntimeError :=
  if result_is_ok res then
    match validate_new_receipts ap (res_new_receipts res) with
    | Ok _ => Ok res
    | Err e => Ok (fail res (NewReceiptValidationError e))
    | Panic => Panic
    end
  else Ok res.

(** [res.index = Some(..)] on an error. *)
Definition set_error_index (res : ActionResult) (i : Z) : ActionResult :=
  match res_result res with
  | inr e => fail_with res (mkActionError (Some i) (ae_kind e))
  | inl _ => res
  end.

Fixpoint apply_actions (ap : ApplyState) (ei : EpochInfo) (s : State) (account : option Account)
    (actor_id : AccountId) (receipt : Receipt) (ar : ActionReceipt)
    (promise_results : list (option (list Z))) (index : Z) (acts : list Action) (res : ActionResult)
    : result (ActionState * ActionResult) RuntimeError :=
  match acts with
  | [] => Ok (s, account, actor_id, res)
  | a :: acts =>
      let? (s, account, actor_id, new_result) :=
        apply_action ap ei s account actor_id receipt ar promise_results index a in
      let? new_result := check_new_receipts ap new_result in
      let? res := merge res new_result in
      if result_is_ok res
      then apply_actions ap ei s account actor_id receipt ar promise_results (index + 1) acts res
      else Ok (s, account, actor_id, set_error_index res index)
  end.

(* ------------------------------------------------------------------ *)
(** ** Refunds *)

Definition refund_unspent_gas_and_deposits (cfg : RuntimeConfig) (current_gas_price : Z)
    (receipt : Receipt) (ar : ActionReceipt) (res : ActionResult)
    : result (ActionResult * GasRefundResult) RuntimeError :=
  let overflow {A : Type} (m : result A IntegerOverflowError) := map_err overflow_error m in
  let? deposit := overflow (total_deposit (ar_actions ar)) in
  let? gas := overflow (total_prepaid_gas (ar_actions ar)) in
  let? send := overflow (total_prepaid_send_fees cfg (ar_actions ar)) in
  let? prepaid_gas := overflow (ok_or (checked_add u64_max gas send) IntegerOverflow) in
  let? exec := overflow (total_prepaid_exec_fees cfg (ar_actions ar) (r_receiver_id receipt)) in
  let? prepaid_exec_gas :=
    overflow (ok_or (checked_add u64_max exec
                       (fee_exec (action_fees (fees cfg) c_new_action_receipt))) IntegerOverflow) in
  let deposit_refund := if result_is_ok res then 0 else deposit in
  let? prepaid := overflow (ok_or (checked_add u64_max prepaid_gas prepaid_exec_gas) IntegerOverflow) in
  let? gross_gas_refund :=
    unwrap (checked_sub prepaid (if result_is_ok res then res_gas_used res else res_gas_burnt res)) in
  let? penalty := overflow (gas_penalty_for_gas_refund (fees cfg) gross_gas_refund) in
  let? net_gas_refund := unwrap (checked_sub gross_gas_refund penalty) in
  let? gas_balance_refund := overflow (safe_gas_to_balance (ar_gas_price ar) net_gas_refund) in
  let? penalty_balance := overflow (safe_gas_to_balance (ar_gas_price ar) penalty) in
  let? (deficit, surplus) :=
    if ar_gas_price ar <? current_gas_price then
      let? diff := unwrap (checked_sub current_gas_price (ar_gas_price ar)) in
      let? d := overflow (safe_gas_to_balance diff (res_gas_burnt res)) in Ok (d, 0)
    else
      let? diff := unwrap (checked_sub (ar_gas_price ar) current_gas_price) in
      let? d := overflow (safe_gas_to_balance diff (res_gas_burnt res)) in Ok (0, d) in
  let res := if 0 <? deposit_refund
             then push_receipt res (new_balance_refund (balance_refund_receiver receipt) deposit_refund)
             else res in
  let res := if 0 <? gas_balance_refund
             then push_receipt res (new_gas_refund (ar_signer_id ar) gas_balance_refund
                                      (ar_signer_public_key ar))
             else res in
  Ok (res, mkGasRefundResult deficit surplus penalty_balance).

(* ------------------------------------------------------------------ *)
(** ** Outgoing data and receipts *)

(** [get_mut(i)] with an update. *)
Definition update_nth {A : Type} (i : Z) (f : A -> option A) (l : list A) : option (list A) :=
  match l !! Z.to_nat i with
  | Some x => match f x with Some y => Some (<[Z.to_nat i := y]> l) | None => None end
  | None => None
  end.

Definition extend_receivers (r : ActionReceipt) (l : list DataReceiver) : ActionReceipt :=
  mkActionReceipt (ar_signer_id r) (ar_signer_public_key r) (ar_gas_price r)
    (ar_output_data_receivers r ++ l) (ar_input_data_ids r) (ar_actions r).

Definition extend_output (l : list DataReceiver) (r : Receipt) : option Receipt :=
  let set e := Some (mkReceipt (r_predecessor_id r) (r_receiver_id r) (r_receipt_id r) e) in
  match r_receipt r with
  | RAction a => set (RAction (extend_receivers a l))
  | RPromiseYield a => set (RPromiseYield (extend_receivers a l))
  | RActionV2 a => set (RActionV2 (mkActionReceiptV2 (ar2_refund_to a) (extend_receivers (ar2_receipt a) l)))
  | RPromiseYieldV2 a =>
      set (RPromiseYieldV2 (mkActionReceiptV2 (ar2_refund_to a) (extend_receivers (ar2_receipt a) l)))
  | _ => None
  end.

Definition generate_outgoing_data (id : AccountId) (ar : ActionReceipt) (res : ActionResult)
    : result (list Receipt) RuntimeError :=
  match ar_output_data_receivers ar with
  | [] => Ok (res_new_receipts res)
  | receivers =>
      match res_result res with
      | inl (ReceiptIndex i) => unwrap (update_nth i (extend_output receivers) (res_new_receipts res))
      | r =>
          let data := match r with
                      | inl (Value v) => Some v
                      | inl _ => Some []
                      | inr _ => None
                      end in
          Ok (res_new_receipts res
              ++ map (fun d => mkReceipt id (dr_receiver_id d) hash_default
                                 (RData (mkDataReceipt (dr_data_id d) data))) receivers)
      end
  end.

Definition set_receipt_id (r : Receipt) (h : CryptoHash) : Receipt :=
  mkReceipt (r_predecessor_id r) (r_receiver_id r) h (r_receipt r).

Definition number_receipts (ap : ApplyState) (parent : CryptoHash) (l : list Receipt) : list Receipt :=
  imap (fun i r => set_receipt_id r (create_receipt_id ap parent (Z.of_nat i))) l.

Definition is_action_receipt (r : Receipt) : bool :=
  match r_receipt r with
  | RAction _ | RPromiseYield _ | RActionV2 _ | RPromiseYieldV2 _ => true
  | _ => false
  end.

Definition is_instant_receipt (version : Z) (r : Receipt) : bool :=
  match versioned_receipt r with
  | VPromiseYield _ _ => enabled InstantPromiseYield version
  | _ => false
  end.

(* ------------------------------------------------------------------ *)
(** ** A whole action receipt *)

(** Reads and removes the input data. *)
Fixpoint collect_input_data (s : State) (id : AccountId) (ids : list CryptoHash)
    : result (State * list (option (list Z))) RuntimeError :=
  match ids with
  | [] => Ok (s, [])
  | data_id :: ids =>
      let? data := ok_or (rc_received_data (st_receipts s) !! (id, data_id))
                     (inconsistent (lit "received data should be in the state")) in
      let s := with_received_data s (delete (id, data_id) (rc_received_data (st_receipts s))) in
      let? (s, rest) := collect_input_data s id ids in
      Ok (s, data :: rest)
  end.

(** The storage-stake check after the last action. *)
Definition finish_actions (ap : ApplyState) (s : State) (account : option Account) (id : AccountId)
    (res : ActionResult) : result (State * ActionResult) RuntimeError :=
  if result_is_ok res then
    match account with
    | None => Ok (s, res)
    | Some account =>
        match check_storage_stake account (amount account) (config ap) with
        | Panic => Panic
        | Ok _ => Ok (set_account s id account, res)
        | Err (LackBalanceForStorageStaking lack) =>
            let? res := merge res (fail result_default (LackBalanceForState id lack)) in Ok (s, res)
        | Err (StakingStorageError err) => Err (inconsistent err)
        end
    end
  else Ok (s, res).

(** The reward of the receiver for executed function calls, paid from the burnt
    amount when the account still exists. *)
Definition pay_receiver_reward (u : StateUpdate) (id : AccountId) (reward tx_burnt : Z)
    : result (StateUpdate * Z) RuntimeError :=
  if 0 <? reward then
    match get_account (su_current u) id with
    | Some account =>
        let? tx_burnt := unwrap (checked_sub tx_burnt reward) in
        let? b := map_err overflow_error (safe_add_balance (amount account) reward) in
        Ok (su_commit (su_put u (set_account (su_current u) id (set_amount account b))), tx_burnt)
    | None => Ok (u, tx_burnt)
    end
  else Ok (u, tx_burnt).

Definition burnt_for_receipt (ap : ApplyState) (receipt : Receipt) (res : ActionResult)
    (g : GasRefundResult) : result Z RuntimeError :=
  let overflow {A : Type} (m : result A IntegerOverflowError) := map_err overflow_error m in
  let gas_burnt := if is_system (r_predecessor_id receipt) then 0 else res_gas_burnt res in
  let? paid := overflow (safe_gas_to_balance (gas_price ap) gas_burnt) in
  let? b := unwrap (checked_sub paid (price_deficit g)) in
  let? b := overflow (safe_add_balance b (price_surplus g)) in
  let? b := overflow (safe_add_balance b (refund_penalty g)) in
  overflow (safe_add_balance b (res_tokens_burnt res)).

Definition outcome_status (ap : ApplyState) (receipt : Receipt) (res : ActionResult)
    : ExecutionStatus :=
  match res_result res with
  | inl (ReceiptIndex i) => SuccessReceiptId (create_receipt_id ap (r_receipt_id receipt) i)
  | inl (Value v) => SuccessValue v
  | inl ReturnNone => SuccessValue []
  | inr e => FailureAction e
  end.

(** The part of [apply_action_receipt] up to the commit or rollback: the state, the
    result with its refunds, the refund figures and the statistics. *)
Definition run_receipt (ap : ApplyState) (ei : EpochInfo) (u : StateUpdate) (receipt : Receipt)
    (ar : ActionReceipt) (stats : BalanceStats)
    : result (StateUpdate * ActionResult * GasRefundResult * BalanceStats) RuntimeError :=
  let overflow {A : Type} (m : result A IntegerOverflowError) := map_err overflow_error m in
  let id := r_receiver_id receipt in
  let? (s, promise_results) := collect_input_data (su_current u) id (ar_input_data_ids ar) in
  let u := su_commit (su_put u s) in
  let account := get_account s id in
  let exec_fees := fee_exec (action_fees (fees (config ap)) c_new_action_receipt) in
  let res := set_gas result_default exec_fees exec_fees exec_fees in
  let? (s, account, _, res) :=
    apply_actions ap ei s account (r_predecessor_id receipt) receipt ar promise_results 0
      (ar_actions ar) res in
  let? (s, res) := finish_actions ap s account id res in
  let? (res, g, other_burnt) :=
    if is_system (r_predecessor_id receipt) then
      let? other_burnt :=
        if result_is_ok res then Ok (bs_other_burnt_amount stats)
        else
          let? d := overflow (total_deposit (ar_actions ar)) in
          overflow (safe_add_balance (bs_other_burnt_amount stats) d) in
      Ok (res, gas_refund_default, other_burnt)
    else
      let? (res, g) := refund_unspent_gas_and_deposits (config ap) (gas_price ap) receipt ar res in
      Ok (res, g, bs_other_burnt_amount stats) in
  let? deficit := overflow (safe_add_balance (bs_gas_deficit_amount stats) (price_deficit g)) in
  let u := if result_is_ok res then su_commit (su_put u s) else su_rollback (su_put u s) in
  Ok (u, res, g, mkBalanceStats (bs_tx_burnt_amount stats) other_burnt deficit).

Definition apply_action_receipt (ap : ApplyState) (ei : EpochInfo) (u : StateUpdate)
    (receipt : Receipt) (fx : Effects)
    : result (StateUpdate * Effects * ExecutionOutcome) RuntimeError :=
  let overflow {A : Type} (m : result A IntegerOverflowError) := map_err overflow_error m in
  match versioned_receipt receipt with
  | VAction _ ar | VPromiseYield _ ar =>
      let id := r_receiver_id receipt in
      let? (u, res, g, stats) := run_receipt ap ei u receipt ar (fx_stats fx) in
      let? tokens_burnt := burnt_for_receipt ap receipt res g in
      let '(numer, denom) := burnt_gas_reward (fees (config ap)) in
      let? scaled := unwrap (checked_mul u64_max (res_gas_burnt_for_function_call res) numer) in
      let? receiver_gas_reward := if denom =? 0 then Panic else Ok (scaled / denom) in
      let? reward := overflow (safe_gas_to_balance (ar_gas_price ar) receiver_gas_reward) in
      let? (u, tx_burnt) := pay_receiver_reward u id reward tokens_burnt in
      let? total_burnt := overflow (safe_add_balance (bs_tx_burnt_amount stats) tx_burnt) in
      let stats := mkBalanceStats total_burnt (bs_other_burnt_amount stats)
                     (bs_gas_deficit_amount stats) in
      let? new_receipts := generate_outgoing_data id ar res in
      let receipts := number_receipts ap (r_receipt_id receipt) new_receipts in
      let instant := filter (fun r => is_instant_receipt (current_protocol_version ap) r = true)
                       receipts in
      let outgoing := filter (fun r => is_instant_receipt (current_protocol_version ap) r = false)
                        receipts in
      let receipt_ids := r_receipt_id <$> filter (fun r => is_action_receipt r = true) receipts in
      Ok (u,
          mkEffects (fx_outgoing fx ++ outgoing) (fx_instant fx ++ instant)
            (fx_proposals fx ++ res_validator_proposals res) stats,
          {| o_id := r_receipt_id receipt; o_status := outcome_status ap receipt res;
             o_logs := res_logs res; o_receipt_ids := receipt_ids;
             o_gas_burnt := res_gas_burnt res; o_compute_usage := res_compute_usage res;
             o_tokens_burnt := tokens_burnt; o_executor_id := id |})
  | _ => Panic
  end.
End runtime.
