(* ===== verification/Receipts.v ===== *)
(** * Processing the receipts of a chunk (runtime/src/lib.rs, global_contracts.rs)

    [process_receipt] stores data and receipts that wait for it, runs the receipts
    that are ready, and passes the code of global contracts from shard to shard.
    [process_receipts] takes the local, the delayed and the incoming receipts in this
    order, then the timeouts of yielded promises.

    The proof-size limit is decided by the storage below: [limit n m] is its answer at
    check [m] of step [n] of the chunk.  Preparing contracts ahead of their execution,
    prefetching and metrics are left out. *)

From S2P Require Import Prelude Crates AccountId Primitives Errors Fees Borsh Wire ReceiptWire ShardLayout.
From S2P Require Import TrieQueue OutgoingMetadata State RuntimeTypes Validation Congestion Actions Runtime.

(* ------------------------------------------------------------------ *)
(** ** Receipts and data in the state (core/store/src/utils/mod.rs) *)

Definition set_received_data (s : State) (id : AccountId) (data_id : CryptoHash)
    (data : option (list Z)) : State :=
  with_received_data s (<[(id, data_id) := data]> (rc_received_data (st_receipts s))).

Definition has_received_data (s : State) (id : AccountId) (data_id : CryptoHash) : bool :=
  bool_decide (is_Some (rc_received_data (st_receipts s) !! (id, data_id))).

(** The assertion panics. *)
Definition set_postponed_receipt (s : State) (receipt : Receipt) : result State RuntimeError :=
  match versioned_receipt receipt with
  | VAction _ _ =>
      Ok (with_postponed_receipts s
            (<[(r_receiver_id receipt, r_receipt_id receipt) := receipt]>
               (rc_postponed_receipts (st_receipts s))))
  | _ => Panic
  end.

Definition set_promise_yield_receipt (s : State) (receipt : Receipt) : result State RuntimeError :=
  match versioned_receipt receipt with
  | VPromiseYield _ ar =>
      match ar_input_data_ids ar with
      | [data_id] =>
          Ok (with_yield_receipts s (<[(r_receiver_id receipt, data_id) := receipt]>
                                       (rc_yield_receipts (st_receipts s))))
      | _ => Panic
      end
  | _ => Panic
  end.

(* ------------------------------------------------------------------ *)
(** ** What an arriving receipt triggers *)

(** Run a receipt, commit what was stored, or leave everything as it is. *)
Inductive Routing : Type :=
| Run (receipt : Receipt)
| Store
| Ignore.

Definition remove_postponed_receipt (s : State) (id : AccountId) (receipt_id : CryptoHash) : State :=
  with_postponed_receipts s (delete (id, receipt_id) (rc_postponed_receipts (st_receipts s))).

Definition set_pending_data_count (s : State) (id : AccountId) (receipt_id : CryptoHash) (n : Z)
    : State :=
  with_pending_data_counts s (<[(id, receipt_id) := n]> (rc_pending_data_counts (st_receipts s))).

(** A data receipt: the arm [Data] of [process_receipt]. *)
Definition receive_data (s : State) (id : AccountId) (d : DataReceipt)
    : result (State * Routing) RuntimeError :=
  let s := set_received_data s id (dt_data_id d) (dt_data d) in
  match rc_postponed_receipt_ids (st_receipts s) !! (id, dt_data_id d) with
  | None => Ok (s, Store)
  | Some receipt_id =>
      let s := with_postponed_receipt_ids s
                 (delete (id, dt_data_id d) (rc_postponed_receipt_ids (st_receipts s))) in
      let? pending_data_count :=
        ok_or (rc_pending_data_counts (st_receipts s) !! (id, receipt_id))
          (inconsistent (lit "pending data count should be in the state")) in
      if pending_data_count =? 1 then
        let s := with_pending_data_counts s
                   (delete (id, receipt_id) (rc_pending_data_counts (st_receipts s))) in
        let? ready_receipt :=
          ok_or (rc_postponed_receipts (st_receipts s) !! (id, receipt_id))
            (inconsistent (lit "pending receipt should be in the state")) in
        Ok (remove_postponed_receipt s id receipt_id, Run ready_receipt)
      else
        let? n := ok_or (checked_sub pending_data_count 1)
                    (inconsistent (lit "pending data count is 0, but there is a new DataReceipt")) in
        Ok (set_pending_data_count s id receipt_id n, Store)
  end.

(** The loop over the input data of an action receipt; the count is a u32. *)
Fixpoint link_missing_data (s : State) (id : AccountId) (receipt_id : CryptoHash)
    (ids : list CryptoHash) (pending_data_count : Z) : result (State * Z) RuntimeError :=
  match ids with
  | [] => Ok (s, pending_data_count)
  | data_id :: ids =>
      if has_received_data s id data_id
      then link_missing_data s id receipt_id ids pending_data_count
      else
        let? n := add_or_panic u32_max pending_data_count 1 in
        link_missing_data
          (with_postponed_receipt_ids s
             (<[(id, data_id) := receipt_id]> (rc_postponed_receipt_ids (st_receipts s))))
          id receipt_id ids n
  end.

(** [process_action_receipt] up to the execution. *)
Definition receive_action (s : State) (receipt : Receipt) (ar : ActionReceipt)
    : result (State * Routing) RuntimeError :=
  let id := r_receiver_id receipt in
  let? (s, pending_data_count) :=
    link_missing_data s id (r_receipt_id receipt) (ar_input_data_ids ar) 0 in
  if pending_data_count =? 0 then Ok (s, Run receipt)
  else
    let s := set_pending_data_count s id (r_receipt_id receipt) pending_data_count in
    let? s := set_postponed_receipt s receipt in
    Ok (s, Store).

(** The arm [PromiseResume]. *)
Definition receive_resume (version : Z) (s : State) (id : AccountId) (d : DataReceipt)
    : State * Routing :=
  let key := (id, dt_data_id d) in
  let improved := enabled YieldResumeImprovements version in
  let resumed := match rc_yield_status (st_receipts s) !! key with
                 | Some ResumeInitiated => true
                 | _ => false
                 end in
  if match dt_data d with None => true | Some _ => false end && improved && resumed then (s, Ignore)
  else
    match rc_yield_receipts (st_receipts s) !! key with
    | Some yield_receipt =>
        let s := with_yield_receipts s (delete key (rc_yield_receipts (st_receipts s))) in
        let s := if improved
                 then with_yield_status s (delete key (rc_yield_status (st_receipts s)))
                 else s in
        (set_received_data s id (dt_data_id d) (dt_data d), Run yield_receipt)
    | None => (s, Ignore)
    end.

Definition receive (version : Z) (s : State) (receipt : Receipt)
    : result (State * Routing) RuntimeError :=
  match versioned_receipt receipt with
  | VData d => receive_data s (r_receiver_id receipt) d
  | VAction _ ar => receive_action s receipt ar
  | VPromiseYield _ _ => let? s := set_promise_yield_receipt s receipt in Ok (s, Store)
  | VPromiseResume d => Ok (receive_resume version s (r_receiver_id receipt) d)
  | VGlobalContractDistribution _ => Ok (s, Ignore)
  end.

(* ------------------------------------------------------------------ *)
(** ** Global contracts *)

(** The state is committed when the code is written. *)
Definition distribute_here (version : Z) (u : StateUpdate) (g : GlobalContractDistributionReceipt)
    : StateUpdate :=
  let s := apply_distribution_current_shard version (su_current u) g in
  if snd (check_and_update_nonce version (su_current u) g) then su_commit (su_put u s)
  else su_put u s.

(** [GlobalContractDistributionReceipt::forward]. *)
Definition distribution_forward (g : GlobalContractDistributionReceipt) (target : Z)
    (delivered : list Z) : GlobalContractDistributionReceipt :=
  mkGlobalDistribution (gd_id g) target delivered (gd_code g) (gd_nonce g).

(** The receipt for the next shard, if there is one; the delivered shards are a sorted
    set. *)
Definition forward_distribution_next_shard {C : Crates} (layout : ShardLayout) (ap : ApplyState)
    (receipt : Receipt) (g : GlobalContractDistributionReceipt) : option Receipt :=
  let delivered : gset Z := list_to_set (gd_already_delivered_shards g) ∪ {[shard_id ap]} in
  match filter (fun shard => shard ∉ delivered) (shard_ids layout) with
  | [] => None
  | next_shard :: _ =>
      let next := distribution_forward g next_shard (sorted_ids (elements delivered)) in
      Some (set_receipt_id (new_global_contract_distribution (r_predecessor_id receipt) next)
              (create_receipt_id ap (r_receipt_id receipt) 0))
  end.

(* ------------------------------------------------------------------ *)
(** ** The processing state *)

Inductive ReceiptSource : Type :=
| FromLocal
| FromDelayed
| FromInstant.

(** [ps_step] numbers the checks of the proof-size limit. *)
Record ProcessingState : Type := mkPS {
  ps_update : StateUpdate;
  ps_sink : ReceiptSink;
  ps_delayed : DelayedReceiptQueueWrapper;
  ps_local : list Receipt;
  ps_instant : list Receipt;
  ps_total_gas : Z;
  ps_total_compute : Z;
  ps_outcomes : list ExecutionOutcome;
  ps_processed : list (Receipt * ReceiptSource);
  ps_proposals : list ValidatorStake;
  ps_stats : BalanceStats;
  ps_step : nat;
}.

(** After a receipt: state, sink, instant receipts, proposals and statistics. *)
Definition ps_effects (ps : ProcessingState) (u : StateUpdate) (sink : ReceiptSink)
    (instant : list Receipt) (proposals : list ValidatorStake) (stats : BalanceStats)
    : ProcessingState :=
  mkPS u sink (ps_delayed ps) (ps_local ps) instant (ps_total_gas ps) (ps_total_compute ps)
    (ps_outcomes ps) (ps_processed ps) proposals stats (ps_step ps).

Definition ps_put (ps : ProcessingState) (u : StateUpdate) : ProcessingState :=
  ps_effects ps u (ps_sink ps) (ps_instant ps) (ps_proposals ps) (ps_stats ps).

Definition ps_with_delayed (ps : ProcessingState) (d : DelayedReceiptQueueWrapper)
    : ProcessingState :=
  mkPS (ps_update ps) (ps_sink ps) d (ps_local ps) (ps_instant ps) (ps_total_gas ps)
    (ps_total_compute ps) (ps_outcomes ps) (ps_processed ps) (ps_proposals ps) (ps_stats ps)
    (ps_step ps).

Definition ps_with_queues (ps : ProcessingState) (local instant : list Receipt) : ProcessingState :=
  mkPS (ps_update ps) (ps_sink ps) (ps_delayed ps) local instant (ps_total_gas ps)
    (ps_total_compute ps) (ps_outcomes ps) (ps_processed ps) (ps_proposals ps) (ps_stats ps)
    (ps_step ps).

Definition ps_push_processed (ps : ProcessingState) (receipt : Receipt) (source : ReceiptSource)
    : ProcessingState :=
  mkPS (ps_update ps) (ps_sink ps) (ps_delayed ps) (ps_local ps) (ps_instant ps) (ps_total_gas ps)
    (ps_total_compute ps) (ps_outcomes ps) (ps_processed ps ++ [(receipt, source)])
    (ps_proposals ps) (ps_stats ps) (ps_step ps).

(** [TotalResourceGuard::add], and the outcome. *)
Definition ps_add_outcome (ps : ProcessingState) (o : ExecutionOutcome)
    : result ProcessingState RuntimeError :=
  let? gas := map_err overflow_error (checked_add_result (ps_total_gas ps) (o_gas_burnt o)) in
  let? compute := map_err overflow_error
                    (safe_add_compute (ps_total_compute ps) (o_compute_usage o)) in
  Ok (mkPS (ps_update ps) (ps_sink ps) (ps_delayed ps) (ps_local ps) (ps_instant ps) gas compute
        (ps_outcomes ps ++ [o]) (ps_processed ps) (ps_proposals ps) (ps_stats ps) (ps_step ps)).

Definition ps_next (ps : ProcessingState) : ProcessingState :=
  mkPS (ps_update ps) (ps_sink ps) (ps_delayed ps) (ps_local ps) (ps_instant ps) (ps_total_gas ps)
    (ps_total_compute ps) (ps_outcomes ps) (ps_processed ps) (ps_proposals ps) (ps_stats ps)
    (S (ps_step ps)).

Section processing.
Context {C : Crates}.
Variable action_function_call : ApplyState -> EpochInfo -> State -> Account -> Receipt ->
  ActionReceipt -> list (option (list Z)) -> ActionResult -> FunctionCallAction -> CryptoHash ->
  bool -> result (State * Account * ActionResult) RuntimeError.
Variable layout : ShardLayout.
Variable limit : nat -> nat -> bool.
Variable ap : ApplyState.
Variable ei : EpochInfo.

(* ------------------------------------------------------------------ *)
(** ** One receipt *)

(** [apply_action_receipt] with the sink. *)
Definition execute (ps : ProcessingState) (u : StateUpdate) (receipt : Receipt)
    : result (ProcessingState * option ExecutionOutcome) RuntimeError :=
  let? (u, fx, outcome) :=
    apply_action_receipt action_function_call ap ei u receipt
      (mkEffects [] (ps_instant ps) (ps_proposals ps) (ps_stats ps)) in
  let? sink := send_all (config ap) layout (fx_outgoing fx) (ps_sink ps) in
  Ok (ps_effects ps u sink (fx_instant fx) (fx_proposals fx) (fx_stats fx), Some outcome).

Definition apply_global_contract_distribution_receipt (ps : ProcessingState) (receipt : Receipt)
    (g : GlobalContractDistributionReceipt) : result ProcessingState RuntimeError :=
  let u := distribute_here (current_protocol_version ap) (ps_update ps) g in
  let? sink :=
    match forward_distribution_next_shard layout ap receipt g with
    | Some next_receipt => forward_or_buffer_receipt (config ap) layout next_receipt (ps_sink ps)
    | None => Ok (ps_sink ps)
    end in
  Ok (ps_effects ps u sink (ps_instant ps) (ps_proposals ps) (ps_stats ps)).

Definition process_receipt (ps : ProcessingState) (receipt : Receipt)
    : result (ProcessingState * option ExecutionOutcome) RuntimeError :=
  match versioned_receipt receipt with
  | VGlobalContractDistribution g =>
      let? ps := apply_global_contract_distribution_receipt ps receipt g in Ok (ps, None)
  | _ =>
      let? (s, routing) := receive (current_protocol_version ap) (su_current (ps_update ps)) receipt in
      let u := su_put (ps_update ps) s in
      match routing with
      | Run ready_receipt => execute ps u ready_receipt
      | Store => Ok (ps_put ps (su_commit u), None)
      | Ignore => Ok (ps_put ps u, None)
      end
  end.

Definition process_receipt_with_metrics (ps : ProcessingState) (receipt : Receipt)
    : result ProcessingState RuntimeError :=
  let? (ps, outcome) := process_receipt ps receipt in
  match outcome with
  | Some outcome => ps_add_outcome ps outcome
  | None => Ok ps
  end.

(** The loop [while let Some(r) = instant_receipts.pop_front()]. *)
Fixpoint process_instant_receipts (fuel : nat) (ps : ProcessingState)
    : result ProcessingState RuntimeError :=
  match ps_instant ps with
  | [] => Ok ps
  | instant_receipt :: rest =>
      match fuel with
      | O => Panic
      | S fuel =>
          let? ps := process_receipt_with_metrics (ps_with_queues ps (ps_local ps) rest)
                       instant_receipt in
          process_instant_receipts fuel (ps_push_processed ps instant_receipt FromInstant)
      end
  end.

(** The fuel is the number of instant receipts: processing one produces no other. *)
Definition process_receipt_and_instant_receipts (ps : ProcessingState) (receipt : Receipt)
    : result ProcessingState RuntimeError :=
  let? ps := process_receipt_with_metrics ps receipt in
  process_instant_receipts (length (ps_instant ps)) ps.

(* ------------------------------------------------------------------ *)
(** ** Local, delayed and incoming receipts *)

(** [total.compute >= compute_limit || check_proof_size_limit_exceed()]. *)
Definition limit_reached (compute_limit : Z) (ps : ProcessingState) : bool :=
  (compute_limit <=? ps_total_compute ps) || limit (ps_step ps) 0.

Definition delay (ps : ProcessingState) (receipt : Receipt) : result ProcessingState RuntimeError :=
  let? d := delayed_push (config ap) (ps_delayed ps) receipt in
  Ok (ps_with_delayed ps d).

Fixpoint process_local (compute_limit : Z) (receipts : list Receipt) (ps : ProcessingState)
    : result ProcessingState RuntimeError :=
  match receipts with
  | [] => Ok ps
  | receipt :: receipts =>
      let? ps :=
        if limit_reached compute_limit ps then delay ps receipt
        else
          let? ps := process_receipt_and_instant_receipts ps receipt in
          Ok (ps_push_processed ps receipt FromLocal) in
      process_local compute_limit receipts (ps_next ps)
  end.

Definition process_local_receipts (compute_limit : Z) (ps : ProcessingState)
    : result ProcessingState RuntimeError :=
  process_local compute_limit (ps_local ps) (ps_with_queues ps [] (ps_instant ps)).

Definition invalid_delayed_receipt : RuntimeError :=
  inconsistent (lit "Delayed receipt {:?} in the state is invalid: {}").

Fixpoint process_delayed (fuel : nat) (compute_limit : Z) (ps : ProcessingState)
    : result ProcessingState RuntimeError :=
  if limit_reached compute_limit ps then Ok ps
  else
    let? (popped, d) := delayed_pop (config ap) layout (shard_id ap) (fun m => limit (ps_step ps) (S m))
                          (ps_delayed ps) in
    match popped with
    | None => Ok (ps_with_delayed ps d)
    | Some entry =>
        match fuel with
        | O => Panic
        | S fuel =>
            let receipt := get_receipt entry in
            let ps := ps_with_delayed ps d in
            let? _ := map_err (fun _ => invalid_delayed_receipt)
                        (validate_receipt (limit_config (config ap)) receipt
                           (current_protocol_version ap) ExistingReceipt) in
            let? ps := process_receipt_and_instant_receipts ps receipt in
            process_delayed fuel compute_limit (ps_next (ps_push_processed ps receipt FromDelayed))
        end
    end.

(** The fuel is the length of the queue. *)
Definition process_delayed_receipts (compute_limit : Z) (ps : ProcessingState)
    : result ProcessingState RuntimeError :=
  let? len := queue_len (dq_queue (ps_delayed ps)) in
  process_delayed (Z.to_nat len) compute_limit ps.

Fixpoint process_incoming_receipts (compute_limit : Z) (receipts : list Receipt) (ps : ProcessingState)
    : result ProcessingState RuntimeError :=
  match receipts with
  | [] => Ok ps
  | receipt :: receipts =>
      let? _ := map_err RtReceiptValidationError
                  (validate_receipt (limit_config (config ap)) receipt
                     (current_protocol_version ap) ExistingReceipt) in
      let? ps :=
        if limit_reached compute_limit ps then delay ps receipt
        else process_receipt_and_instant_receipts ps receipt in
      process_incoming_receipts compute_limit receipts (ps_next ps)
  end.

(* ------------------------------------------------------------------ *)
(** ** Timeouts of yielded promises *)

(** The variables of the loop: state, sink, first index, number of resume receipts
    made, timeouts processed. *)
Record Timeouts : Type := mkTimeouts {
  to_state : State;
  to_sink : ReceiptSink;
  to_first_index : Z;
  to_new_receipt_index : Z;
  to_processed : list PromiseYieldTimeout;
}.

Definition timeout_missing (index : Z) : RuntimeError :=
  inconsistent (Msg "PromiseYield timeout queue entry #{} should be in the state" [FZ index]).

(** The receipt that resumes a promise without data. *)
Definition resume_receipt (entry : PromiseYieldTimeout) (index : Z) : Receipt :=
  mkReceipt (yt_account_id entry) (yt_account_id entry)
    (create_hash_index (yt_data_id entry) (block_height ap) index)
    (RPromiseResume (mkDataReceipt (yt_data_id entry) None)).

Definition has_yield_receipt (s : State) (entry : PromiseYieldTimeout) : bool :=
  bool_decide (is_Some (rc_yield_receipts (st_receipts s) !! (yt_account_id entry, yt_data_id entry))).

Definition remove_timeout (s : State) (index : Z) : State :=
  let q := rc_timeouts (st_receipts s) in
  with_timeouts s (mkTrieQueue (delete index (q_items q)) (q_indices q)).

(** One timeout that has expired. *)
Definition expire (t : Timeouts) (entry : PromiseYieldTimeout) : result Timeouts RuntimeError :=
  let? (sink, new_receipt_index) :=
    if has_yield_receipt (to_state t) entry then
      let? sink := forward_or_buffer_receipt (config ap) layout
                     (resume_receipt entry (to_new_receipt_index t)) (to_sink t) in
      Ok (sink, to_new_receipt_index t + 1)
    else Ok (to_sink t, to_new_receipt_index t) in
  Ok (mkTimeouts (remove_timeout (to_state t) (to_first_index t)) sink (to_first_index t + 1)
        new_receipt_index (to_processed t ++ [entry])).

(** The fuel is the number of indices. *)
Fixpoint resolve_timeouts (fuel : nat) (compute_limit compute : Z) (step : nat) (next_available_index : Z)
    (t : Timeouts) : result Timeouts RuntimeError :=
  if next_available_index <=? to_first_index t then Ok t
  else
    match fuel with
    | O => Panic
    | S fuel =>
        if (compute_limit <=? compute) || limit step (length (to_processed t)) then Ok t
        else
          let? entry := ok_or (q_items (rc_timeouts (st_receipts (to_state t))) !! to_first_index t)
                          (timeout_missing (to_first_index t)) in
          if block_height ap <? yt_expires_at entry then Ok t
          else
            let? t := expire t entry in
            resolve_timeouts fuel compute_limit compute step next_available_index t
    end.

Definition resolve_promise_yield_timeouts (compute_limit : Z) (ps : ProcessingState)
    : result Timeouts RuntimeError :=
  let s := su_current (ps_update ps) in
  let i := q_indices (rc_timeouts (st_receipts s)) in
  resolve_timeouts (Z.to_nat (next_available_index i - first_index i)) compute_limit
    (ps_total_compute ps) (ps_step ps) (next_available_index i)
    (mkTimeouts s (ps_sink ps) (first_index i) 0 []).

(* ------------------------------------------------------------------ *)
(** ** All receipts *)

Definition process_receipts (incoming : list Receipt) (ps : ProcessingState)
    : result (ProcessingState * Timeouts) RuntimeError :=
  let compute_limit := default u64_max (gas_limit ap) in
  let? ps := process_local_receipts compute_limit ps in
  let? ps := process_delayed_receipts compute_limit ps in
  let? ps := process_incoming_receipts compute_limit incoming (ps_next ps) in
  let? t := resolve_promise_yield_timeouts compute_limit ps in
  Ok (ps_effects ps (su_put (ps_update ps) (to_state t)) (to_sink t) (ps_instant ps) (ps_proposals ps)
        (ps_stats ps), t).
End processing.
