(* ===== verification/Pending.v ===== *)
(** * Receipts that wait for data

    The runtime keeps two indices next to the receipts that wait: which receipt waits for
    a piece of data, and how many pieces a receipt still waits for.  The reference has
    neither: it looks at the inputs of all waiting receipts.  Both agree, so a receipt
    runs exactly when its last input arrives, and the errors for an inconsistent index
    are never raised. *)

From S2P Require Import Prelude Crates AccountId Primitives Errors Fees Borsh Wire ReceiptWire State RuntimeTypes.
From S2P Require Import Validation Actions Runtime Receipts.

(* ------------------------------------------------------------------ *)
(** ** The reference *)

Local Abbreviation slot_key := (AccountId * CryptoHash)%type.

(** Data that arrived, and receipts that wait. *)
Record Waiting : Type := mkWaiting {
  w_data : gmap slot_key (option (list Z));
  w_receipts : gmap slot_key Receipt;
}.

Definition view (s : State) : Waiting :=
  mkWaiting (rc_received_data (st_receipts s)) (rc_postponed_receipts (st_receipts s)).

Definition inputs (r : Receipt) : list CryptoHash :=
  match versioned_receipt r with VAction _ ar => ar_input_data_ids ar | _ => [] end.

(** The inputs of [r] that have not arrived. *)
Definition missing (data : gmap slot_key (option (list Z))) (r : Receipt) : list CryptoHash :=
  filter (fun d => data !! (r_receiver_id r, d) = None) (inputs r).

(** A receipt of [id] waiting for [d] that has all its inputs. *)
Definition runs_now (id : AccountId) (d : CryptoHash) (data : gmap slot_key (option (list Z)))
    (p : slot_key * Receipt) : bool :=
  bool_decide (p.1.1 = id) && bool_decide (d ∈ inputs p.2) && bool_decide (missing data p.2 = []).

Definition await_data (w : Waiting) (id : AccountId) (d : CryptoHash) (v : option (list Z))
    : Waiting * Routing :=
  let data := <[(id, d) := v]> (w_data w) in
  match filter (fun p => runs_now id d data p = true) (map_to_list (w_receipts w)) with
  | (k, r) :: _ => (mkWaiting data (delete k (w_receipts w)), Run r)
  | [] => (mkWaiting data (w_receipts w), Store)
  end.

Definition await_action (w : Waiting) (r : Receipt) : Waiting * Routing :=
  if bool_decide (missing (w_data w) r = []) then (w, Run r)
  else (mkWaiting (w_data w) (<[(r_receiver_id r, r_receipt_id r) := r]> (w_receipts w)), Store).

(* ------------------------------------------------------------------ *)
(** ** The indices *)

Record linked (D : gmap slot_key (option (list Z))) (K : gmap slot_key CryptoHash)
    (N : gmap slot_key Z) (P : gmap slot_key Receipt) : Prop := mk_linked {
  li_key : forall id rid r, P !! (id, rid) = Some r ->
    r_receiver_id r = id /\ r_receipt_id r = rid /\ NoDup (inputs r);
  li_count : forall id rid r, P !! (id, rid) = Some r ->
    N !! (id, rid) = Some (Z.of_nat (length (missing D r))) /\ missing D r <> [];
  li_link : forall id d rid, K !! (id, d) = Some rid <->
    exists r, P !! (id, rid) = Some r /\ d ∈ missing D r;
  li_disjoint : forall id rid1 rid2 r1 r2 d, P !! (id, rid1) = Some r1 -> P !! (id, rid2) = Some r2 ->
    d ∈ inputs r1 -> d ∈ inputs r2 -> rid1 = rid2;
}.

Definition linked_state (s : State) : Prop :=
  let rc := st_receipts s in
  linked (rc_received_data rc) (rc_postponed_receipt_ids rc) (rc_pending_data_counts rc)
    (rc_postponed_receipts rc).

(** An arriving action receipt: its inputs are its own and its identifier is new. *)
Definition own_inputs (s : State) (r : Receipt) : Prop :=
  let P := rc_postponed_receipts (st_receipts s) in
  NoDup (inputs r) /\ Z.of_nat (length (inputs r)) <= u32_max
  /\ P !! (r_receiver_id r, r_receipt_id r) = None
  /\ forall rid r' d, P !! (r_receiver_id r, rid) = Some r' -> d ∈ inputs r -> d ∉ inputs r'.

Lemma elem_of_missing D r d : d ∈ missing D r <-> D !! (r_receiver_id r, d) = None /\ d ∈ inputs r.
Proof. unfold missing. by rewrite list_elem_of_filter. Qed.

Lemma filter_ext_in {A} (P Q : A -> Prop) `{forall x, Decision (P x), forall x, Decision (Q x)} (l : list A) :
  (forall x, x ∈ l -> P x <-> Q x) -> filter P l = filter Q l.
Proof.
  induction l as [|x l IH]; intros Hl; [done|]. rewrite !filter_cons, IH by (intros; apply Hl; by right).
  pose proof (Hl x ltac:(by left)). do 2 case_decide; tauto.
Qed.

Lemma missing_ext D D' r :
  (forall d, d ∈ inputs r -> D' !! (r_receiver_id r, d) = None <-> D !! (r_receiver_id r, d) = None) ->
  missing D' r = missing D r.
Proof. apply filter_ext_in. Qed.

Lemma missing_other D r id d v :
  r_receiver_id r <> id \/ d ∉ inputs r -> missing (<[(id, d) := v]> D) r = missing D r.
Proof.
  intros H. apply missing_ext. intros d' Hd'. rewrite lookup_insert_ne; [done|].
  intros [= -> ->]. by destruct H.
Qed.

(** The arrival of a missing input. *)
Lemma missing_arrival D r d v :
  NoDup (inputs r) -> d ∈ missing D r ->
  length (missing D r) = S (length (missing (<[(r_receiver_id r, d) := v]> D) r)).
Proof.
  unfold missing. induction (inputs r) as [|x l IH]; intros Hn Hd; [by apply elem_of_nil in Hd|].
  apply NoDup_cons in Hn as [Hx Hn]. rewrite filter_cons in Hd. rewrite !filter_cons.
  destruct (decide (x = d)) as [->|Hne].
  - rewrite lookup_insert_eq. rewrite (decide_False (P := Some v = None)) by done.
    assert (D !! (r_receiver_id r, d) = None) as E.
    { case_decide; [done|]. by apply list_elem_of_filter in Hd as [? _]. }
    rewrite decide_True by done. simpl. f_equal. f_equal. apply filter_ext_in.
    intros y Hy. rewrite lookup_insert_ne; [done|]. by intros [= ->].
  - rewrite lookup_insert_ne by congruence. case_decide as E; simpl.
    + f_equal. apply IH; [done|]. by apply elem_of_cons in Hd as [?|?].
    + by apply IH.
Qed.

(* ------------------------------------------------------------------ *)
(** ** Arrival of data *)

Section arrival.
Context (D : gmap slot_key (option (list Z))) (K : gmap slot_key CryptoHash) (N : gmap slot_key Z)
  (P : gmap slot_key Receipt) (H : linked D K N P).
Context (id : AccountId) (d : CryptoHash) (v : option (list Z)).
Local Abbreviation D' := (<[(id, d) := v]> D).

(** Nobody waits for the data: no waiting receipt changes. *)
Lemma unlinked_missing : K !! (id, d) = None -> forall i rid r, P !! (i, rid) = Some r -> missing D' r = missing D r.
Proof using H.
  intros Hk i rid r Hr. destruct (li_key _ _ _ _ H _ _ _ Hr) as (Hi & _ & _).
  apply missing_ext. intros x Hx. destruct (decide ((id, d) = (r_receiver_id r, x))) as [[= E1 E2]|Hne].
  - subst x. rewrite E1, lookup_insert_eq. split; [done|]. intros E. exfalso.
    assert (K !! (id, d) = Some rid) as Hc; [|congruence]. apply (li_link _ _ _ _ H). exists r.
    rewrite E1, Hi. split; [done|]. by apply elem_of_missing.
  - by rewrite lookup_insert_ne.
Qed.

Lemma linked_unlinked : K !! (id, d) = None -> linked D' K N P.
Proof using H.
  intros Hk. pose proof (unlinked_missing Hk) as Hm. split.
  - apply H.
  - intros i rid r Hr. rewrite (Hm _ _ _ Hr). by apply (li_count _ _ _ _ H).
  - intros i x rid. rewrite (li_link _ _ _ _ H). split; intros (r & Hr & Hx); exists r; (split; [done|]);
      [by rewrite (Hm _ _ _ Hr)|by rewrite <- (Hm _ _ _ Hr)].
  - apply H.
Qed.

(** The receipt that waits for the data. *)
Context (rid : CryptoHash) (r : Receipt) (Hr : P !! (id, rid) = Some r) (Hd : d ∈ missing D r).

Lemma others_missing i rid' r' :
  P !! (i, rid') = Some r' -> (i, rid') <> (id, rid) -> missing D' r' = missing D r'.
Proof using H Hr Hd.
  intros Hr' Hne. apply missing_other. destruct (li_key _ _ _ _ H _ _ _ Hr') as (Hi & _ & _).
  destruct (decide (i = id)) as [->|Hi']; [|left; congruence]. right. intros Hin. apply Hne. f_equal.
  apply elem_of_missing in Hd as [_ Hd']. by eapply (li_disjoint _ _ _ _ H).
Qed.

Lemma receiver_missing : length (missing D r) = S (length (missing D' r)).
Proof using H Hr Hd.
  destruct (li_key _ _ _ _ H _ _ _ Hr) as (<- & _ & Hn). by apply missing_arrival.
Qed.

Lemma still_missing x : x ∈ missing D' r <-> x ∈ missing D r /\ x <> d.
Proof using H Hr.
  destruct (li_key _ _ _ _ H _ _ _ Hr) as (Hi & _ & _). rewrite !elem_of_missing, Hi.
  destruct (decide (x = d)) as [->|Hne]; [rewrite lookup_insert_eq; split; [by intros []|tauto]|].
  rewrite lookup_insert_ne by congruence. tauto.
Qed.

(** More inputs are missing. *)
Lemma linked_less :
  missing D' r <> [] ->
  linked D' (delete (id, d) K) (<[(id, rid) := Z.of_nat (length (missing D' r))]> N) P.
Proof using H Hr Hd.
  intros Hmore. split.
  - apply H.
  - intros i rid' r' Hr'. destruct (decide ((i, rid') = (id, rid))) as [[= -> ->]|Hne].
    + rewrite Hr in Hr'. injection Hr' as <-. by rewrite lookup_insert_eq.
    + rewrite lookup_insert_ne by done. rewrite (others_missing _ _ _ Hr' Hne). by apply (li_count _ _ _ _ H).
  - intros i x rid'. rewrite lookup_delete_Some, (li_link _ _ _ _ H). split.
    + intros [Hne (r' & Hr' & Hx)]. exists r'. split; [done|].
      destruct (decide ((i, rid') = (id, rid))) as [[= -> ->]|Hne'].
      * rewrite Hr in Hr'. injection Hr' as <-. apply still_missing. split; [done|congruence].
      * by rewrite (others_missing _ _ _ Hr' Hne').
    + intros (r' & Hr' & Hx). destruct (decide ((i, rid') = (id, rid))) as [[= -> ->]|Hne'].
      * rewrite Hr in Hr'. injection Hr' as <-. apply still_missing in Hx as [Hx Hne]. split; [congruence|eauto].
      * rewrite (others_missing _ _ _ Hr' Hne') in Hx. split; [|eauto]. intros [= -> ->].
        apply Hne'. f_equal. apply elem_of_missing in Hd as [_ Hd1]. apply elem_of_missing in Hx as [_ Hx1].
        by eapply (li_disjoint _ _ _ _ H).
  - apply H.
Qed.

(** It was the last one. *)
Lemma linked_last :
  missing D' r = [] -> linked D' (delete (id, d) K) (delete (id, rid) N) (delete (id, rid) P).
Proof using H Hr Hd.
  intros Hlast. split.
  - intros i rid' r' [_ Hr']%lookup_delete_Some. by apply (li_key _ _ _ _ H).
  - intros i rid' r' [Hne Hr']%lookup_delete_Some. rewrite lookup_delete_ne by done.
    rewrite (others_missing _ _ _ Hr') by congruence. by apply (li_count _ _ _ _ H).
  - intros i x rid'. rewrite lookup_delete_Some, (li_link _ _ _ _ H). split.
    + intros [Hne (r' & Hr' & Hx)]. exists r'.
      destruct (decide ((i, rid') = (id, rid))) as [[= -> ->]|Hne'].
      * rewrite Hr in Hr'. injection Hr' as <-. exfalso.
        assert (x ∈ missing D' r) as Hx' by (apply still_missing; split; [done|congruence]).
        rewrite Hlast in Hx'. by apply elem_of_nil in Hx'.
      * rewrite (others_missing _ _ _ Hr' Hne'). by rewrite lookup_delete_ne.
    + intros (r' & [Hne' Hr']%lookup_delete_Some & Hx).
      rewrite (others_missing _ _ _ Hr') in Hx by congruence. split; [|eauto]. intros [= -> ->].
      apply Hne'. f_equal. apply elem_of_missing in Hd as [_ Hd1]. apply elem_of_missing in Hx as [_ Hx1].
      by eapply (li_disjoint _ _ _ _ H).
  - intros i rid1 rid2 r1 r2 x [_ H1]%lookup_delete_Some [_ H2]%lookup_delete_Some. by eapply (li_disjoint _ _ _ _ H).
Qed.
End arrival.

Lemma nobody_runs D K N P id d :
  linked D K N P -> filter (fun p => runs_now id d D p = true) (map_to_list P) = [].
Proof.
  intros H. set (f := filter _ _). destruct f as [|[[i rid] r] l] eqn:E; [done|]. exfalso.
  assert (((i, rid), r) ∈ f) as Hin by (rewrite E; by left).
  apply list_elem_of_filter in Hin as [Hrun Hin]. apply elem_of_map_to_list in Hin.
  unfold runs_now in Hrun. apply andb_prop in Hrun as [_ Hrun]. apply bool_decide_eq_true in Hrun.
  by apply (li_count _ _ _ _ H) in Hin as [_ ?].
Qed.

Lemma one_runs D K N P id d v rid r :
  linked D K N P -> P !! (id, rid) = Some r -> d ∈ missing D r -> missing (<[(id, d) := v]> D) r = [] ->
  exists l, filter (fun p => runs_now id d (<[(id, d) := v]> D) p = true) (map_to_list P) = ((id, rid), r) :: l.
Proof.
  intros H Hr Hd Hlast.
  set (D' := <[(id, d) := v]> D) in *. set (f := filter _ _).
  assert (((id, rid), r) ∈ f) as Hin.
  { apply list_elem_of_filter. split; [|by apply elem_of_map_to_list]. unfold runs_now. simpl.
    apply elem_of_missing in Hd as [_ Hd]. rewrite !bool_decide_true by done. done. }
  destruct f as [|[[i rid'] r'] l] eqn:E; [by apply elem_of_nil in Hin|]. exists l. f_equal.
  assert (((i, rid'), r') ∈ f) as Hin' by (rewrite E; by left).
  apply list_elem_of_filter in Hin' as [Hrun Hin']. apply elem_of_map_to_list in Hin'.
  unfold runs_now in Hrun. simpl in Hrun. apply andb_prop in Hrun as [_ Hrun]. apply bool_decide_eq_true in Hrun.
  destruct (decide ((i, rid') = (id, rid))) as [[= -> ->]|Hne]; [congruence|]. exfalso.
  pose proof (others_missing _ _ _ _ H id d v rid r Hr Hd _ _ _ Hin' Hne) as Em.
  apply (li_count _ _ _ _ H) in Hin' as [_ Hm]. fold D' in Em. congruence.
Qed.

Lemma receive_data_refines s id dr :
  linked_state s ->
  exists s' routing, receive_data s id dr = Ok (s', routing)
    /\ await_data (view s) id (dt_data_id dr) (dt_data dr) = (view s', routing) /\ linked_state s'
    /\ rc_yield_receipts (st_receipts s') = rc_yield_receipts (st_receipts s).
Proof.
  intros H. unfold receive_data, await_data. cbn [view w_data w_receipts set_received_data with_received_data
    with_receipts st_receipts rc_postponed_receipt_ids rc_pending_data_counts rc_postponed_receipts rc_received_data].
  set (d := dt_data_id dr). set (v := dt_data dr). unfold linked_state in H. cbv zeta in H.
  destruct (rc_postponed_receipt_ids (st_receipts s) !! (id, d)) as [rid|] eqn:Ek.
  - pose proof Ek as (r & Hr & Hd)%(li_link _ _ _ _ H).
    destruct (li_count _ _ _ _ H _ _ _ Hr) as [Hn _].
    set (s1 := with_postponed_receipt_ids _ _).
    change (rc_pending_data_counts (st_receipts s1)) with (rc_pending_data_counts (st_receipts s)).
    set (s2 := with_pending_data_counts s1 _).
    change (rc_postponed_receipts (st_receipts s2)) with (rc_postponed_receipts (st_receipts s)).
    rewrite Hn. cbn [ok_or rbind]. pose proof (receiver_missing _ _ _ _ H id d v rid r Hr Hd) as Hlen.
    rewrite Hlen. destruct (Z.eqb_spec (Z.of_nat (S (length (missing (<[(id, d) := v]> (rc_received_data (st_receipts s))) r)))) 1) as [E|E].
    + assert (missing (<[(id, d) := v]> (rc_received_data (st_receipts s))) r = []) as Hlast
        by (apply length_zero_iff_nil; lia).
      rewrite Hr. cbn [ok_or rbind]. do 2 eexists. split; [reflexivity|].
      destruct (one_runs _ _ _ _ id d v rid r H Hr Hd Hlast) as [l El]. rewrite El.
      split_and!; [done|by eapply linked_last|done].
    + assert (missing (<[(id, d) := v]> (rc_received_data (st_receipts s))) r <> []) as Hmore
        by (intros E0; rewrite E0 in E; simpl in E; lia).
      unfold checked_sub.
      pose proof (linked_less _ _ _ _ H id d v rid r Hr Hd Hmore) as Hl.
      replace (Z.of_nat (S (length (missing (<[(id, d) := v]> (rc_received_data (st_receipts s))) r))) - 1)
        with (Z.of_nat (length (missing (<[(id, d) := v]> (rc_received_data (st_receipts s))) r))) by lia.
      rewrite (proj2 (Z.leb_le 1 _)) by lia. cbn [ok_or rbind]. do 2 eexists. split; [reflexivity|].
      rewrite (nobody_runs _ _ _ _ _ _ Hl). by split_and!.
  - do 2 eexists. split; [reflexivity|]. pose proof (linked_unlinked _ _ _ _ H id d v Ek) as Hl.
    rewrite (nobody_runs _ _ _ _ _ _ Hl). by split_and!.
Qed.

(* ------------------------------------------------------------------ *)
(** ** Arrival of an action receipt *)

Lemma link_missing_spec id rid ids : forall s n,
  NoDup ids ->
  let todo := filter (fun d => rc_received_data (st_receipts s) !! (id, d) = None) ids in
  n + Z.of_nat (length todo) <= u32_max ->
  exists s', link_missing_data s id rid ids n = Ok (s', n + Z.of_nat (length todo))
    /\ rc_received_data (st_receipts s') = rc_received_data (st_receipts s)
    /\ rc_pending_data_counts (st_receipts s') = rc_pending_data_counts (st_receipts s)
    /\ rc_postponed_receipts (st_receipts s') = rc_postponed_receipts (st_receipts s)
    /\ rc_yield_receipts (st_receipts s') = rc_yield_receipts (st_receipts s)
    /\ (todo = [] -> s' = s)
    /\ forall i x, rc_postponed_receipt_ids (st_receipts s') !! (i, x)
       = if decide (i = id /\ x ∈ todo) then Some rid else rc_postponed_receipt_ids (st_receipts s) !! (i, x).
Proof.
  induction ids as [|d ids IH]; intros s n Hn todo Hle.
  { exists s. simpl. rewrite Z.add_0_r. split_and!; try done. intros i x. rewrite decide_False; [done|].
    intros [_ Hx]. by apply elem_of_nil in Hx. }
  apply NoDup_cons in Hn as [Hd Hn]. unfold todo in *. clear todo. rewrite filter_cons in *.
  cbn [link_missing_data]. unfold has_received_data.
  destruct (rc_received_data (st_receipts s) !! (id, d)) as [v|] eqn:E.
  - rewrite (decide_False (P := Some v = None)) in * by done. rewrite bool_decide_true by eauto. by apply IH.
  - rewrite (decide_True (P := None = None)) in * by done. rewrite bool_decide_false by (intros []; congruence).
    cbn [length] in Hle. unfold add_or_panic, checked_add. rewrite (proj2 (Z.leb_le _ _)) by lia.
    cbn [unwrap rbind]. set (s1 := with_postponed_receipt_ids s _).
    destruct (IH s1 (n + 1) Hn) as (s' & Es & E1 & E2 & E3 & E4 & _ & E5).
    { change (rc_received_data (st_receipts s1)) with (rc_received_data (st_receipts s)). lia. }
    change (rc_received_data (st_receipts s1)) with (rc_received_data (st_receipts s)) in *.
    exists s'. rewrite Es. split_and!; [f_equal; f_equal; simpl; lia|done|done|done|done|done|].
    intros i x. rewrite E5. unfold s1. cbn [with_postponed_receipt_ids with_receipts st_receipts rc_postponed_receipt_ids].
    case_decide as Hx; [by rewrite decide_True by (destruct Hx; split; [done|by right])|].
    destruct (decide ((id, d) = (i, x))) as [[= <- <-]|Hne].
    + rewrite lookup_insert_eq, decide_True; [done|]. split; [done|by left].
    + rewrite lookup_insert_ne by done. rewrite decide_False; [done|]. intros [-> [->|Hx']%elem_of_cons]; [done|tauto].
Qed.

Lemma linked_postpone D K N P K' r :
  linked D K N P -> NoDup (inputs r) -> P !! (r_receiver_id r, r_receipt_id r) = None ->
  (forall rid r' d, P !! (r_receiver_id r, rid) = Some r' -> d ∈ inputs r -> d ∉ inputs r') ->
  missing D r <> [] ->
  (forall i x, K' !! (i, x) = if decide (i = r_receiver_id r /\ x ∈ missing D r) then Some (r_receipt_id r)
                              else K !! (i, x)) ->
  linked D K' (<[(r_receiver_id r, r_receipt_id r) := Z.of_nat (length (missing D r))]> N)
    (<[(r_receiver_id r, r_receipt_id r) := r]> P).
Proof.
  intros H Hn Hfree Hown Hm HK. set (id := r_receiver_id r) in *. set (rid := r_receipt_id r) in *. split.
  - intros i rid' r' [[[= <- <-] <-]|[_ Hr']]%lookup_insert_Some; [done|by apply (li_key _ _ _ _ H)].
  - intros i rid' r' [[[= <- <-] <-]|[Hne Hr']]%lookup_insert_Some; [by rewrite lookup_insert_eq|].
    rewrite lookup_insert_ne by done. by apply (li_count _ _ _ _ H).
  - intros i x rid'. rewrite HK. case_decide as Hx.
    + destruct Hx as [-> Hx]. split; [intros [= <-]; exists r; by rewrite lookup_insert_eq|].
      intros (r' & [[[= E] _]|[_ Hr']]%lookup_insert_Some & Hx'); [by f_equal|]. exfalso.
      apply elem_of_missing in Hx as [_ Hx]. apply elem_of_missing in Hx' as [_ Hx']. by apply (Hown _ _ _ Hr' Hx).
    + rewrite (li_link _ _ _ _ H). split; intros (r' & Hr' & Hx').
      * exists r'. split; [|done]. rewrite lookup_insert_ne; [done|]. intros [= <- <-]. congruence.
      * apply lookup_insert_Some in Hr' as [[[= <- <-] <-]|[_ Hr']]; [tauto|eauto].
  - intros i rid1 rid2 r1 r2 x H1 H2 Hx1 Hx2.
    apply lookup_insert_Some in H1 as [[[= <- <-] <-]|[_ H1]], H2 as [[[= E2] <-]|[_ H2]]; [done| | |].
    + exfalso. by apply (Hown _ _ _ H2 Hx1).
    + subst i. exfalso. by apply (Hown _ _ _ H1 Hx2).
    + by eapply (li_disjoint _ _ _ _ H).
Qed.

Lemma receive_action_refines s r rt ar :
  versioned_receipt r = VAction rt ar -> linked_state s -> own_inputs s r ->
  exists s' routing, receive_action s r ar = Ok (s', routing)
    /\ await_action (view s) r = (view s', routing) /\ linked_state s'
    /\ rc_yield_receipts (st_receipts s') = rc_yield_receipts (st_receipts s).
Proof.
  intros Ev H (Hn & Hlen & Hfree & Hown).
  assert (inputs r = ar_input_data_ids ar) as Ei by (unfold inputs; by rewrite Ev).
  unfold receive_action, await_action. cbn [view w_data w_receipts]. rewrite Ei in Hn, Hlen.
  destruct (link_missing_spec (r_receiver_id r) (r_receipt_id r) (ar_input_data_ids ar) s 0 Hn)
    as (s' & Es & E1 & E2 & E3 & E4 & E5 & E6).
  { etrans; [|exact Hlen]. apply inj_le. apply length_filter. }
  set (todo := filter _ _) in *.
  assert (missing (rc_received_data (st_receipts s)) r = todo) as Em by (unfold missing; by rewrite Ei).
  rewrite Es, Em. cbn [rbind]. destruct todo as [|d todo'] eqn:Et.
  - rewrite bool_decide_true by done. do 2 eexists. split; [reflexivity|]. rewrite (E5 eq_refl). by split_and!.
  - rewrite bool_decide_false by done. rewrite (proj2 (Z.eqb_neq _ _)) by (simpl; lia).
    unfold set_postponed_receipt. rewrite Ev. cbn [rbind]. do 2 eexists. split; [reflexivity|].
    split_and!; [unfold view; simpl; by rewrite E1, E3| |done].
    unfold linked_state. simpl. rewrite E1, E2, E3. rewrite <- Em in E6.
    replace (Z.of_nat (S (length todo'))) with (Z.of_nat (length (missing (rc_received_data (st_receipts s)) r)))
      by (by rewrite Em).
    eapply linked_postpone; [exact H|by rewrite Ei|done|done|by rewrite Em|exact E6].
Qed.

(* ------------------------------------------------------------------ *)
(** ** Taking the inputs of a receipt that runs *)

Lemma collect_spec id ids : forall s,
  NoDup ids -> (forall d, d ∈ ids -> rc_received_data (st_receipts s) !! (id, d) <> None) ->
  exists s0, collect_input_data s id ids
             = Ok (s0, map (fun d => default None (rc_received_data (st_receipts s) !! (id, d))) ids)
    /\ rc_postponed_receipt_ids (st_receipts s0) = rc_postponed_receipt_ids (st_receipts s)
    /\ rc_pending_data_counts (st_receipts s0) = rc_pending_data_counts (st_receipts s)
    /\ rc_postponed_receipts (st_receipts s0) = rc_postponed_receipts (st_receipts s)
    /\ forall i x, rc_received_data (st_receipts s0) !! (i, x)
       = if decide (i = id /\ x ∈ ids) then None else rc_received_data (st_receipts s) !! (i, x).
Proof.
  induction ids as [|d ids IH]; intros s Hn Hall; cbn [collect_input_data map].
  { exists s. split_and!; try done. intros i x. rewrite decide_False; [done|]. intros [_ Hx]. by apply elem_of_nil in Hx. }
  apply NoDup_cons in Hn as [Hd Hn]. pose proof (Hall d ltac:(by left)) as Hv.
  destruct (rc_received_data (st_receipts s) !! (id, d)) as [v|] eqn:E; [|done]. cbn [ok_or rbind default].
  set (s1 := with_received_data s _).
  assert (forall x, x ∈ ids -> rc_received_data (st_receipts s1) !! (id, x)
    = rc_received_data (st_receipts s) !! (id, x)) as Es1.
  { intros x Hx. unfold s1. simpl. apply lookup_delete_ne. by intros [= <-]. }
  destruct (IH s1 Hn) as (s0 & E0 & E1 & E2 & E3 & E4).
  { intros x Hx. rewrite Es1 by done. apply Hall. by right. }
  exists s0. rewrite E0. cbn [rbind]. split_and!; [|done|done|done|].
  - do 3 f_equal. apply list_fmap_ext. intros i x Hx. apply list_elem_of_lookup_2 in Hx. by rewrite Es1.
  - intros i x. rewrite E4. case_decide as Hx.
    + rewrite decide_True; [done|]. destruct Hx. split; [done|by right].
    + unfold s1. simpl. destruct (decide ((id, d) = (i, x))) as [[= <- <-]|Hne].
      * rewrite lookup_delete_eq, decide_True; [done|]. split; [done|by left].
      * rewrite lookup_delete_ne by done. rewrite decide_False; [done|].
        intros [-> [->|Hx']%elem_of_cons]; [done|tauto].
Qed.

(** The inputs of [r] have arrived, and no waiting receipt shares them. *)
Definition can_run (w : Waiting) (r : Receipt) : Prop :=
  NoDup (inputs r) /\ missing (w_data w) r = []
  /\ forall rid r' d, w_receipts w !! (r_receiver_id r, rid) = Some r' -> d ∈ inputs r -> d ∉ inputs r'.

Lemma collect_linked s r :
  linked_state s -> can_run (view s) r ->
  exists s0, collect_input_data s (r_receiver_id r) (inputs r)
             = Ok (s0, map (fun d => default None (w_data (view s) !! (r_receiver_id r, d))) (inputs r))
    /\ linked_state s0.
Proof.
  intros H (Hn & Hm & Hown). cbn [view w_data w_receipts] in *.
  destruct (collect_spec (r_receiver_id r) (inputs r) s Hn) as (s0 & E0 & E1 & E2 & E3 & E4).
  { intros d Hd E. assert (d ∈ missing (rc_received_data (st_receipts s)) r) as Hd' by by apply elem_of_missing.
    rewrite Hm in Hd'. by apply elem_of_nil in Hd'. }
  exists s0. split; [exact E0|]. unfold linked_state. cbv zeta. rewrite E1, E2, E3.
  assert (forall i rid r', rc_postponed_receipts (st_receipts s) !! (i, rid) = Some r' ->
    missing (rc_received_data (st_receipts s0)) r' = missing (rc_received_data (st_receipts s)) r') as Hsame.
  { intros i rid r' Hr'. apply missing_ext. intros x Hx. rewrite E4. rewrite decide_False; [done|].
    intros [Ei Hx']. destruct (li_key _ _ _ _ H _ _ _ Hr') as (Hi & _ & _).
    apply (Hown rid r' x); [by rewrite <- Ei, Hi|done|done]. }
  split.
  - apply H.
  - intros i rid r' Hr'. rewrite (Hsame _ _ _ Hr'). by apply (li_count _ _ _ _ H).
  - intros i x rid. rewrite (li_link _ _ _ _ H). split; intros (r' & Hr' & Hx); exists r'; (split; [done|]);
      [by rewrite (Hsame _ _ _ Hr')|by rewrite <- (Hsame _ _ _ Hr')].
  - apply H.
Qed.

Lemma await_data_can_run D K N P id d v w r :
  linked D K N P -> await_data (mkWaiting D P) id d v = (w, Run r) -> can_run w r.
Proof.
  intros H E. unfold await_data in E. cbn [w_data w_receipts] in E. set (f := filter _ _) in E.
  destruct f as [|[[i rid] r0] l] eqn:Ef; [done|]. injection E as <- <-.
  assert (((i, rid), r0) ∈ f) as Hin by (rewrite Ef; by left).
  apply list_elem_of_filter in Hin as [Hrun Hin]. apply elem_of_map_to_list in Hin.
  unfold runs_now in Hrun. simpl in Hrun. apply andb_prop in Hrun as [_ Hrun]. apply bool_decide_eq_true in Hrun.
  destruct (li_key _ _ _ _ H _ _ _ Hin) as (Hi & _ & Hn). split_and!; [done|done|].
  cbn [w_receipts]. intros rid' r' x [Hne Hr']%lookup_delete_Some Hx Hx'. rewrite Hi in *. apply Hne. f_equal.
  by eapply (li_disjoint _ _ _ _ H).
Qed.

(* ------------------------------------------------------------------ *)
(** ** The refinement *)

(** Data and action receipts in the reference. *)
Definition await (w : Waiting) (r : Receipt) : option (Waiting * Routing) :=
  match versioned_receipt r with
  | VData d => Some (await_data w (r_receiver_id r) (dt_data_id d) (dt_data d))
  | VAction _ _ => Some (await_action w r)
  | _ => None
  end.

(** C4. Receipts run exactly when their inputs are complete.  For data and for action
    receipts, the runtime with its two indices (which receipt waits for a piece of data,
    how many pieces are missing) does what the reference does by looking at the inputs of
    all waiting receipts: it runs the receipt whose last input arrived, and otherwise
    stores.  None of the errors about an inconsistent index is raised, the inputs of a
    receipt that runs are all there, and the indices are consistent again after they are
    taken.  An action receipt is assumed to have an id that no waiting receipt has and inputs
    that no other waiting receipt of its receiver asks for. *)
Theorem waiting_refines version s r w routing :
  linked_state s -> (forall rt ar, versioned_receipt r = VAction rt ar -> own_inputs s r) ->
  await (view s) r = Some (w, routing) ->
  exists s', receive version s r = Ok (s', routing) /\ view s' = w /\ linked_state s'
  /\ forall ready, routing = Run ready ->
     exists s0, collect_input_data s' (r_receiver_id ready) (inputs ready)
                = Ok (s0, map (fun d => default None (w_data w !! (r_receiver_id ready, d))) (inputs ready))
       /\ linked_state s0.
Proof.
  intros H Hown Ha. unfold await in Ha. unfold receive.
  destruct (versioned_receipt r) as [rt ar|d|rt ar|d|g] eqn:Ev; try done; injection Ha as Ha.
  - specialize (Hown rt ar eq_refl).
    destruct (receive_action_refines s r rt ar Ev H Hown) as (s' & ro & E & Ea & Hl & _).
    assert (w = view s' /\ routing = ro) as [-> ->] by (split; congruence). exists s'. split_and!; [done|done|done|].
    intros ready ->. apply collect_linked; [done|]. unfold await_action in Ha.
    case_bool_decide as Hm; [|done]. assert (view s = view s' /\ r = ready) as [<- <-] by (split; congruence).
    destruct Hown as (? & _ & _ & ?). by split_and!.
  - destruct (receive_data_refines s (r_receiver_id r) d H) as (s' & ro & E & Ea & Hl & _).
    assert (w = view s' /\ routing = ro) as [-> ->] by (split; congruence). exists s'. split_and!; [done|done|done|].
    intros ready ->. apply collect_linked; [done|]. by eapply (await_data_can_run _ _ _ _ _ _ _ _ _ H).
Qed.

(* ------------------------------------------------------------------ *)
(** ** A receipt with two inputs, the second of which arrives *)

Definition waiting_action : ActionReceipt :=
  {| ar_signer_id := "alice.near"; ar_signer_public_key := ED25519 (replicate 32 7); ar_gas_price := 7;
     ar_output_data_receivers := []; ar_input_data_ids := [replicate 32 1; replicate 32 2];
     ar_actions := [Plain (Transfer 12)] |}.

Definition waiting_receipt : Receipt :=
  mkReceipt "alice.near" "bob.near" (replicate 32 9) (RAction waiting_action).

Definition data_receipt (n : Z) : Receipt :=
  mkReceipt "carol.near" "bob.near" (replicate 32 (10 + n))
    (RData (mkDataReceipt (replicate 32 n) (Some [n]))).

Lemma linked_empty : linked_state empty_state.
Proof. split; [done..| |done]. intros id d rid. split; [done|]. by intros (r & Hr & _). Qed.

(** The first input has arrived, and then the receipt. *)
Definition first_state : State :=
  set_received_data empty_state "bob.near" (replicate 32 1) (Some [1]).
Definition second_state : State :=
  match receive 200 first_state waiting_receipt with Ok (s, _) => s | _ => first_state end.

Lemma first_linked : linked_state first_state.
Proof.
  destruct (receive_data_refines empty_state "bob.near" (mkDataReceipt (replicate 32 1) (Some [1])) linked_empty)
    as (s1 & ro1 & E1 & _ & H1 & _). change (@Ok (State * Routing) RuntimeError (first_state, Store) = Ok (s1, ro1)) in E1.
  by injection E1 as <- <-.
Qed.

Lemma second_linked : linked_state second_state.
Proof.
  destruct (receive_action_refines first_state waiting_receipt None waiting_action eq_refl first_linked) as (s2 & ro2 & E2 & _ & H2 & _).
  { split_and!; [|done|done|done]. apply NoDup_cons. split; [|apply NoDup_singleton].
    by rewrite list_elem_of_singleton. }
  unfold second_state, receive. change (versioned_receipt waiting_receipt) with (VAction None waiting_action).
  cbv iota beta. rewrite E2. exact H2.
Qed.

Lemma waiting_refines_witness :
  exists s', receive 200 second_state (data_receipt 2) = Ok (s', Run waiting_receipt) /\ linked_state s'.
Proof.
  assert (exists w, await (view second_state) (data_receipt 2) = Some (w, Run waiting_receipt)) as (w & Ha)
    by (eexists; vm_compute; reflexivity).
  destruct (waiting_refines 200 second_state (data_receipt 2) _ _ second_linked ltac:(done) Ha)
    as (s' & E & _ & Hl' & _).
  exists s'. split; [exact E|exact Hl'].
Defined.
