(* ===== verification/Conservation.v ===== *)
(** * Conservation of tokens

    What accounts and gas keys hold, what a receipt carries (its deposits and the
    gas it has prepaid, at the price it was bought), and what is burnt: executing an
    action receipt moves tokens between the three and creates none. *)

From S2P Require Import Prelude Crates AccountId Addresses Primitives Errors Fees Borsh Wire State.
From S2P Require Import BitcoinTx RuntimeTypes AccessKeys Validation SignableMessage Verifier Actions Runtime.

(* ------------------------------------------------------------------ *)
(** ** Definitions *)

Definition zres {E : Type} (m : result Z E) : Z := match m with Ok x => x | _ => 0 end.

Section value.
Context {C : Crates}.

(** Gas a receipt has prepaid. *)
Definition prepaid_gas_of (cfg : RuntimeConfig) (receiver : AccountId) (acts : list Action) : Z :=
  zres (total_prepaid_gas acts) + zres (total_prepaid_send_fees cfg acts)
  + zres (total_prepaid_exec_fees cfg acts receiver)
  + fee_exec (action_fees (fees cfg) c_new_action_receipt).

(** Tokens a receipt carries. *)
Definition receipt_value (cfg : RuntimeConfig) (r : Receipt) : Z :=
  match versioned_receipt r with
  | VAction _ ar | VPromiseYield _ ar =>
      zres (total_deposit (ar_actions ar))
      + ar_gas_price ar * prepaid_gas_of cfg (r_receiver_id r) (ar_actions ar)
  | _ => 0
  end.

Definition values (cfg : RuntimeConfig) (l : list Receipt) : Z := zsum (receipt_value cfg) l.
End value.

(** Tokens in the state. *)
Definition money (s : State) : Z := total_accounts s + total_gas_keys s.

Definition account_holds (o : option Account) : Z := default 0 (account_total <$> o).

Definition total_others (s : State) (id : AccountId) : Z :=
  map_fold (fun _ a acc => account_total a + acc) 0 (delete id (st_accounts s)).

(** Tokens in the state when account [id] is held in a local variable. *)
Definition held (id : AccountId) (s : State) (o : option Account) : Z :=
  total_others s id + account_holds o + total_gas_keys s.

Definition burnt_total (st : BalanceStats) : Z := bs_tx_burnt_amount st + bs_other_burnt_amount st.

(* ------------------------------------------------------------------ *)
(** ** Money and the local account *)

Lemma total_others_spec s id :
  total_others s id = total_accounts s - account_holds (get_account s id).
Proof. apply sum_delete. Qed.

Lemma held_start id s : held id s (get_account s id) = money s.
Proof. unfold held, money. rewrite total_others_spec. lia. Qed.

Lemma held_set_account id s a : money (set_account s id a) = held id s (Some a).
Proof.
  unfold held, money. rewrite total_others_spec, total_accounts_set.
  unfold account_holds. simpl. change (total_gas_keys (set_account s id a)) with (total_gas_keys s).
  lia.
Qed.

Lemma held_none id s : get_account s id = None -> held id s None = money s.
Proof. intros H. rewrite <- (held_start id s). by rewrite H. Qed.

Lemma held_ext id s s' o :
  st_accounts s' = st_accounts s -> total_gas_keys s' = total_gas_keys s -> held id s' o = held id s o.
Proof. intros H1 H2. unfold held, total_others. by rewrite H1, H2. Qed.

Lemma held_update id s a a' :
  account_total a' = account_total a -> held id s (Some a') = held id s (Some a).
Proof. intros H. unfold held, account_holds. simpl. by rewrite H. Qed.

(* ------------------------------------------------------------------ *)
(** ** Gas keys of a removed account *)

Lemma sum_balances_Ok acc l t :
  sum_balances acc l = Ok t -> t = acc + zsum (fun x => x) l.
Proof.
  revert acc. induction l as [|b l IH]; intros acc H; simpl in *; rust_inv; [lia|].
  apply IH in H. subst. lia.
Qed.

Lemma zsum_perm {A} (g : A -> Z) l l' : Permutation l l' -> zsum g l = zsum g l'.
Proof. induction 1; simpl; lia. Qed.

Definition balance_of (id : AccountId) (p : AccountId * PublicKey * AccessKey) : option Z :=
  let '((a, _), k) := p in
  if bool_decide (a = id) then gk_balance <$> gas_key_info k else None.

Lemma omap_perm {A B} (f : A -> option B) l l' : Permutation l l' -> Permutation (omap f l) (omap f l').
Proof.
  induction 1; simpl; try done.
  - destruct (f x); [by constructor|done].
  - destruct (f x), (f y); try done. apply Permutation_swap.
  - by etrans.
Qed.

Lemma balances_cons id a pk k l :
  zsum (fun x => x) (omap (balance_of id) ((a, pk, k) :: l))
  = (if bool_decide (a = id) then key_balance k else 0)
    + zsum (fun x => x) (omap (balance_of id) l).
Proof.
  simpl. case_bool_decide; [|done]. unfold key_balance. by destruct (gas_key_info k).
Qed.

Lemma gas_keys_removed (m : gmap (AccountId * PublicKey) AccessKey) id :
  zsum (fun x => x) (omap (balance_of id) (map_to_list m))
  = map_fold (fun _ k acc => key_balance k + acc) 0 m
    - map_fold (fun _ k acc => key_balance k + acc) 0
        (filter (fun '((a, _), _) => a <> id) m).
Proof.
  induction m as [|[a pk] k m Hm Hfold IH] using map_first_key_ind.
  { rewrite map_to_list_empty, map_filter_empty. done. }
  rewrite (zsum_perm _ _ _ (omap_perm _ _ _ (map_to_list_insert m (a, pk) k Hm))), balances_cons, IH.
  rewrite (sum_insert key_balance m (a, pk) k), Hm. cbn [fmap option_fmap option_map default].
  destruct (decide (a = id)) as [-> |Hne].
  - rewrite bool_decide_true by done. rewrite map_filter_insert_False by (simpl; tauto).
    rewrite delete_id by done. simpl. lia.
  - rewrite bool_decide_false by done. rewrite map_filter_insert_True by done.
    rewrite (sum_insert key_balance (filter _ m) (a, pk) k).
    rewrite (map_lookup_filter_None_2 _ m (a, pk)) by (left; done). simpl. lia.
Qed.

Lemma remove_account_keys s id t :
  compute_gas_key_balance_sum s id = Ok t ->
  total_gas_keys (remove_account s id) = total_gas_keys s - t.
Proof.
  intros H. apply sum_balances_Ok in H. unfold total_gas_keys, remove_account. simpl.
  pose proof (gas_keys_removed (st_access_keys s) id) as E.
  assert (gas_key_balances s id = omap (balance_of id) (map_to_list (st_access_keys s))) as E'.
  { unfold gas_key_balances. f_equal. }
  rewrite E' in H. lia.
Qed.

(* ------------------------------------------------------------------ *)
(** ** The ledger of a running receipt *)

(** Everything the execution of a receipt at gas price [price] accounts for, when
    [id] is the receiver, [o] its account and [res] the result so far.  Gas used
    but not burnt has been handed to new receipts. *)
Definition ledger {C : Crates} (cfg : RuntimeConfig) (price : Z) (id : AccountId) (s : State)
    (o : option Account) (res : ActionResult) : Z :=
  held id s o + res_tokens_burnt res + values cfg (res_new_receipts res)
  - price * (res_gas_used res - res_gas_burnt res).

(** What holds of the receiver between actions. *)
Definition inv (id : AccountId) (s : State) (o : option Account) : Prop :=
  match o with
  | Some a => is_u u128_max (amount a)
  | None => get_account s id = None
            /\ forall pk k, get_access_key s id pk = Some k -> key_balance k = 0
  end.

(** Results that agree on everything that carries tokens or gas. *)
Definition same_flow (res res' : ActionResult) : Prop :=
  res_tokens_burnt res' = res_tokens_burnt res /\ res_new_receipts res' = res_new_receipts res
  /\ res_gas_used res' = res_gas_used res /\ res_gas_burnt res' = res_gas_burnt res
  /\ res_gas_burnt_for_function_call res' = res_gas_burnt_for_function_call res.

Lemma same_flow_refl res : same_flow res res.
Proof. by split_and!. Qed.
Lemma same_flow_proposal res v : same_flow res (push_proposal res v).
Proof. by split_and!. Qed.
#[export] Hint Resolve same_flow_refl same_flow_proposal : rust.

Lemma fail_not_ok res k : result_is_ok (fail res k) = true -> False.
Proof. done. Qed.

(** Closes the branches of a handler that failed. *)
Ltac drop_failures :=
  repeat match goal with
  | H : result_is_ok (fail _ _) = true |- _ => discriminate H
  | H : result_is_ok (delegate_key_error _ _) = true |- _ => discriminate H
  end.

Section ledger.
Context {C : Crates}.
Implicit Types (cfg : RuntimeConfig) (price : Z).

Lemma ledger_flow cfg price id s o res s' o' res' d :
  same_flow res res' -> held id s' o' = held id s o + d ->
  ledger cfg price id s' o' res' = ledger cfg price id s o res + d.
Proof. intros (E1 & E2 & E3 & E4 & _) H. unfold ledger. rewrite E1, E2, E3, E4, H. lia. Qed.

Lemma values_app cfg l1 l2 : values cfg (l1 ++ l2) = values cfg l1 + values cfg l2.
Proof. apply zsum_app. Qed.

Lemma ledger_push cfg price id s o res r :
  ledger cfg price id s o (push_receipt res r) = ledger cfg price id s o res + receipt_value cfg r.
Proof.
  unfold ledger. cbn [push_receipt res_tokens_burnt res_new_receipts res_gas_used res_gas_burnt].
  rewrite values_app. unfold values at 2. simpl. lia.
Qed.

Lemma ledger_burn cfg price id s o res x :
  ledger cfg price id s o (set_tokens_burnt res x)
  = ledger cfg price id s o res + (x - res_tokens_burnt res).
Proof.
  unfold ledger.
  cbn [set_tokens_burnt res_tokens_burnt res_new_receipts res_gas_used res_gas_burnt]. lia.
Qed.

Lemma total_deposit_transfer x : is_u u128_max x -> total_deposit [Plain (Transfer x)] = Ok x.
Proof.
  intros [H0 H1].
  cbn [total_deposit sum_checked action_deposit get_deposit_balance rbind]. unfold checked_add.
  rewrite Z.add_0_l. by destruct (Z.leb_spec x u128_max); [|lia].
Qed.

Lemma balance_refund_value cfg id x :
  is_u u128_max x -> receipt_value cfg (new_balance_refund id x) = x.
Proof.
  intros H. unfold receipt_value, new_balance_refund, new_gas_refund, versioned_receipt.
  cbn [r_receipt ar_actions ar_gas_price]. rewrite (total_deposit_transfer x H). cbn [zres]. lia.
Qed.

Lemma gas_refund_value cfg id x pk :
  is_u u128_max x -> receipt_value cfg (new_gas_refund id x pk) = x.
Proof.
  intros H. unfold receipt_value, new_balance_refund, new_gas_refund, versioned_receipt.
  cbn [r_receipt ar_actions ar_gas_price]. rewrite (total_deposit_transfer x H). cbn [zres]. lia.
Qed.

(** A handler that fails leaves nothing to account for; a handler that succeeds
    adds the deposit [d] of its action to the ledger. *)
Definition accounts_for cfg price id d (s : State) (o : option Account) (res : ActionResult)
    (s' : State) (o' : option Account) (res' : ActionResult) : Prop :=
  result_is_ok res' = true ->
  ledger cfg price id s' o' res' = ledger cfg price id s o res + d /\ inv id s' o'.

(* ------------------------------------------------------------------ *)
(** ** Handlers *)

Lemma stake_accounts cfg price ei s acc res id a acc' res' :
  inv id s (Some acc) -> action_stake ei acc res id a = Ok (acc', res') ->
  accounts_for cfg price id 0 s (Some acc) res s (Some acc') res'.
Proof.
  intros Hinv H Hok. unfold action_stake in H.
  destruct (checked_sub _ _) as [nb|] eqn:Es; [|rust_inv; simplify_eq; drop_failures].
  apply checked_sub_Some in Es as [-> Hle]. unfold saturating_sub in *.
  destruct ((locked acc =? 0) && (sa_stake a =? 0)); [rust_inv; simplify_eq; drop_failures|].
  apply rbind_Ok in H as (ts & _ & H).
  destruct ts; [rust_inv; simplify_eq; drop_failures|].
  destruct (Z.ltb_spec (locked acc) (sa_stake a)); rust_inv; simplify_eq.
  - split; [|destruct Hinv; split; account_simpl; lia].
    apply ledger_flow; [auto with rust|]. rewrite Z.add_0_r. apply held_update.
    unfold account_total. account_simpl. lia.
  - split; [|done]. apply ledger_flow; [auto with rust|lia].
Qed.

Lemma transfer_accounts cfg price s acc res id d acc' :
  0 <= d -> inv id s (Some acc) -> action_transfer acc d = Ok acc' ->
  accounts_for cfg price id d s (Some acc) res s (Some acc') res.
Proof.
  intros Hd Hinv H Hok. unfold action_transfer in H. rust_inv. subst.
  split; [|destruct Hinv; split; account_simpl; lia].
  apply ledger_flow; [auto with rust|]. unfold held, account_holds, account_total. simpl.
  account_simpl. lia.
Qed.

Lemma key_balance_set_gas k g b n :
  gas_key_info k = Some g -> key_balance (set_gas_key_info k (mkGasKeyInfo b n)) = b.
Proof. unfold key_balance. destruct k as [? []]; simpl; try done; by intros [= <-]. Qed.

Lemma key_balance_of k g : gas_key_info k = Some g -> key_balance k = gk_balance g.
Proof. unfold key_balance. by intros ->. Qed.

Lemma held_set_key id s o id' pk k :
  held id (set_access_key s id' pk k) o
  = held id s o - default 0 (key_balance <$> get_access_key s id' pk) + key_balance k.
Proof.
  unfold held. rewrite total_gas_keys_set.
  change (total_others (set_access_key s id' pk k) id) with (total_others s id). lia.
Qed.

Lemma to_gas_key_accounts cfg price s acc res id pk d s' res' :
  inv id s (Some acc) -> action_transfer_to_gas_key s res id pk d = Ok (s', res') ->
  accounts_for cfg price id d s (Some acc) res s' (Some acc) res'.
Proof.
  intros Hinv H Hok. unfold action_transfer_to_gas_key in H.
  destruct (get_access_key s id pk) as [k|] eqn:Ek; [|rust_inv; simplify_eq; drop_failures].
  destruct (gas_key_info k) as [g|] eqn:Eg; [|rust_inv; simplify_eq; drop_failures].
  rust_inv. simplify_eq. split; [|done].
  apply ledger_flow; [auto with rust|]. rewrite held_set_key, Ek. simpl.
  rewrite (key_balance_of k g), (key_balance_set_gas k g) by done. lia.
Qed.

Lemma withdraw_accounts cfg price s acc res id pk d s' acc' res' :
  0 <= d -> inv id s (Some acc) ->
  action_withdraw_from_gas_key s acc res id pk d = Ok (s', acc', res') ->
  accounts_for cfg price id 0 s (Some acc) res s' (Some acc') res'.
Proof.
  intros Hd Hinv H Hok. unfold action_withdraw_from_gas_key in H.
  destruct (get_access_key s id pk) as [k|] eqn:Ek; [|rust_inv; simplify_eq; drop_failures].
  destruct (gas_key_info k) as [g|] eqn:Eg; [|rust_inv; simplify_eq; drop_failures].
  destruct (checked_sub _ _) as [nb|] eqn:Es; [|rust_inv; simplify_eq; drop_failures].
  rust_inv. simplify_eq.
  split; [|destruct Hinv; split; account_simpl; lia].
  apply ledger_flow; [auto with rust|]. rewrite held_set_key, Ek. simpl.
  rewrite (key_balance_of k g), (key_balance_set_gas k g) by done.
  unfold held, account_holds, account_total. simpl. account_simpl. lia.
Qed.

Lemma add_key_keys ap s acc res id a s' acc' res' :
  action_add_key ap s acc res id a = Ok (s', acc', res') -> result_is_ok res' = true ->
  key_balance (ad_access_key a) = 0 ->
  res' = res /\ st_accounts s' = st_accounts s /\ total_gas_keys s' = total_gas_keys s
  /\ amount acc' = amount acc /\ locked acc' = locked acc.
Proof.
  intros H Hok Hb. unfold action_add_key in H.
  destruct (get_access_key s id _) eqn:Ek; [rust_inv; simplify_eq; drop_failures|].
  assert (Hset : forall n, total_gas_keys (set_access_key s id (ad_public_key a)
                   (set_nonce (ad_access_key a) n)) = total_gas_keys s).
  { intros n. rewrite total_gas_keys_set, Ek. simpl.
    assert (key_balance (set_nonce (ad_access_key a) n) = 0) as ->; [|lia].
    unfold key_balance in *. by rewrite gas_key_info_set_nonce. }
  destruct (gas_key_info (ad_access_key a)) as [g|]; rust_inv.
  - unfold add_gas_key in *. rust_inv. simplify_eq. account_simpl.
    set (f := fun s i => set_gas_key_nonce s id (ad_public_key a) i _).
    match goal with |- context [for_nonces ?n ?f ?s0] =>
      destruct (for_nonces_frame n f s0) as (A1 & A2 & _); [done|];
      unfold total_gas_keys; rewrite A1, A2 end.
    split_and!; try done. apply Hset.
  - unfold add_regular_key in *. rust_inv. simplify_eq. account_simpl. split_and!; try done.
Qed.

Lemma add_key_accounts cfg price ap s acc res id a s' acc' res' :
  inv id s (Some acc) -> key_balance (ad_access_key a) = 0 ->
  action_add_key ap s acc res id a = Ok (s', acc', res') ->
  accounts_for cfg price id 0 s (Some acc) res s' (Some acc') res'.
Proof.
  intros Hinv Hb H Hok.
  destruct (add_key_keys _ _ _ _ _ _ _ _ _ H Hok Hb) as (-> & E1 & E2 & E3 & E4).
  split; [|simpl in *; by rewrite E3].
  apply ledger_flow; [auto with rust|]. rewrite (held_ext id s s') by done.
  rewrite Z.add_0_r. apply held_update. unfold account_total. lia.
Qed.

Lemma total_gas_keys_remove s id pk :
  total_gas_keys (remove_access_key s id pk)
  = total_gas_keys s - default 0 (key_balance <$> get_access_key s id pk).
Proof. apply sum_delete. Qed.

Lemma held_remove_key id s o id' pk :
  held id (remove_access_key s id' pk) o
  = held id s o - default 0 (key_balance <$> get_access_key s id' pk).
Proof.
  unfold held. rewrite total_gas_keys_remove.
  change (total_others (remove_access_key s id' pk) id) with (total_others s id). lia.
Qed.

Lemma delete_key_accounts cfg price fcfg s acc res id pk s' acc' res' :
  inv id s (Some acc) -> action_delete_key fcfg s acc res id pk = Ok (s', acc', res') ->
  accounts_for cfg price id 0 s (Some acc) res s' (Some acc') res'.
Proof.
  intros Hinv H Hok. unfold action_delete_key in H.
  destruct (get_access_key s id pk) as [k|] eqn:Ek; [|rust_inv; simplify_eq; drop_failures].
  destruct (gas_key_info k) as [g|] eqn:Eg.
  - unfold delete_gas_key in H.
    destruct (MAX_BALANCE_TO_BURN <? gk_balance g); [rust_inv; simplify_eq; drop_failures|].
    rust_inv. simplify_eq. unfold accounts_for, inv. account_simpl. split; [|done].
    unfold ledger. cbn [set_compute_usage set_tokens_burnt res_tokens_burnt res_new_receipts
      res_gas_used res_gas_burnt]. rewrite held_remove_key.
    match goal with |- context [for_nonces ?n ?f s] =>
      destruct (for_nonces_frame n f s) as (A1 & A2 & _); [done|] end.
    unfold get_access_key at 1. rewrite A2. fold (get_access_key s id pk). rewrite Ek. simpl.
    rewrite (key_balance_of k g) by done.
    erewrite (held_ext id s (for_nonces _ _ s)); [|exact A1|by unfold total_gas_keys; rewrite A2].
    rewrite (held_update id s acc) by (unfold account_total; account_simpl; lia). lia.
  - injection H as <- <- <-. unfold inv. account_simpl. split; [|done].
    apply ledger_flow; [auto with rust|]. rewrite held_remove_key, Ek. simpl.
    unfold key_balance. rewrite Eg. simpl.
    rewrite (held_update id s acc) by (unfold account_total; account_simpl; lia). lia.
Qed.

Lemma delete_account_accounts cfg price s acc actor receipt res id ben s' o' actor' res' :
  inv id s (Some acc) -> locked acc = 0 ->
  action_delete_account s (Some acc) actor receipt res id ben = Ok (s', o', actor', res') ->
  accounts_for cfg price id 0 s (Some acc) res s' o' res'.
Proof.
  intros Hinv Hl H Hok. unfold action_delete_account in H.
  destruct (_ <? saturating_sub _ _); [rust_inv; simplify_eq; drop_failures|].
  apply rbind_Ok in H as (t & Et & H). apply map_err_Ok in Et.
  destruct (MAX_BALANCE_TO_BURN <? t); [rust_inv; simplify_eq; drop_failures|].
  apply rbind_Ok in H as (tb & Etb & H). apply ok_or_Ok in Etb.
  apply checked_add_Some in Etb as [-> _]. injection H as <- <- <- <-.
  split_and!.
  - rewrite ledger_burn.
    assert (Hh : held id (remove_account s id) None = held id s (Some acc) - amount acc - t).
    { unfold held, account_holds. simpl. rewrite (remove_account_keys s id t Et).
      unfold total_others, remove_account, account_total. simpl. rewrite delete_delete_eq, Hl. lia. }
    destruct Hinv as [H0 H1]. destruct (Z.ltb_spec 0 (amount acc)).
    + rewrite ledger_push, balance_refund_value by done.
      unfold ledger. rewrite Hh. cbn [push_receipt res_tokens_burnt]. lia.
    + unfold ledger. rewrite Hh. lia.
  - split.
    + unfold get_account, remove_account. simpl. apply lookup_delete_eq.
    + intros pk k. unfold get_access_key, remove_account. simpl.
      intros [_ Hne]%map_lookup_filter_Some. by destruct Hne.
Qed.

Lemma clear_usage_amount s id acc :
  amount (clear_account_contract_storage_usage s id acc) = amount acc
  /\ locked (clear_account_contract_storage_usage s id acc) = locked acc.
Proof.
  unfold clear_account_contract_storage_usage.
  destruct (contract acc); account_simpl; done.
Qed.

Lemma deploy_contract_accounts cfg price s acc res id code s' acc' :
  inv id s (Some acc) -> action_deploy_contract s acc id code = Ok (s', acc') ->
  accounts_for cfg price id 0 s (Some acc) res s' (Some acc') res.
Proof.
  intros Hinv H Hok. unfold action_deploy_contract in H. rust_inv. simplify_eq.
  destruct (clear_usage_amount s id acc) as [E1 E2].
  unfold inv. account_simpl. rewrite E1. split; [|done].
  apply ledger_flow; [auto with rust|]. rewrite (held_ext id s (set_code s id code)) by done.
  rewrite Z.add_0_r. apply held_update. unfold account_total. account_simpl. lia.
Qed.

Lemma use_global_frame s id acc i res s' acc' res' :
  use_global_contract s id acc i res = Ok (s', acc', res') -> result_is_ok res' = true ->
  res' = res /\ st_accounts s' = st_accounts s /\ total_gas_keys s' = total_gas_keys s
  /\ st_access_keys s' = st_access_keys s
  /\ amount acc' = amount acc /\ locked acc' = locked acc.
Proof.
  intros H Hok. unfold use_global_contract in H.
  destruct (gc_code _ !! i); [|rust_inv; simplify_eq; drop_failures]. rust_inv. simplify_eq.
  destruct (clear_usage_amount s id acc) as [E1 E2].
  account_simpl. destruct (contract_is_local _); by split_and!.
Qed.

Lemma use_global_accounts cfg price s acc res id i s' acc' res' :
  inv id s (Some acc) -> use_global_contract s id acc i res = Ok (s', acc', res') ->
  accounts_for cfg price id 0 s (Some acc) res s' (Some acc') res'.
Proof.
  intros Hinv H Hok.
  destruct (use_global_frame _ _ _ _ _ _ _ _ H Hok) as (-> & E1 & E2 & _ & E3 & E4).
  split; [|simpl in *; by rewrite E3].
  apply ledger_flow; [auto with rust|]. rewrite (held_ext id s s') by done.
  rewrite Z.add_0_r. apply held_update. unfold account_total. lia.
Qed.

Lemma distribution_value cfg id g : receipt_value cfg (new_global_contract_distribution id g) = 0.
Proof. done. Qed.

Lemma initiate_distribution_frame s id code mode sh v res s' res' :
  initiate_distribution s id code mode sh v res = Ok (s', res') ->
  st_accounts s' = st_accounts s /\ st_access_keys s' = st_access_keys s
  /\ exists g, res' = push_receipt res (new_global_contract_distribution id g).
Proof.
  unfold initiate_distribution, increment_nonce. intros H.
  destruct (enabled _ v); simpl in H; rust_inv; simplify_eq; eauto.
Qed.

Lemma deploy_global_accounts cfg price ap s acc res id a s' acc' res' :
  enabled IncludeDeployGlobalContractOutcomeBurntStorage (current_protocol_version ap) = true ->
  0 <= global_contract_storage_amount_per_byte (storage_usage_config (fees (config ap))) ->
  inv id s (Some acc) ->
  action_deploy_global_contract ap s acc id a res = Ok (s', acc', res') ->
  accounts_for cfg price id 0 s (Some acc) res s' (Some acc') res'.
Proof.
  intros Hf H0 Hinv H Hok. unfold action_deploy_global_contract in H. rewrite Hf in H.
  set (cost := saturating_mul _ _ _) in *.
  assert (0 <= cost) by (unfold cost, saturating_mul, u128_max, vec_len; lia).
  destruct (checked_sub _ _) as [nb|] eqn:Es; [|rust_inv; simplify_eq; drop_failures].
  apply checked_sub_Some in Es as [-> Hle].
  apply rbind_Ok in H as (r1 & E1 & H). apply rbind_Ok in H as ([s1 res1] & E2 & H).
  injection H as <- <- <-. apply initiate_distribution_frame in E2 as (A1 & A2 & g & ->).
  apply rbind_Ok in E1 as (tb & Etb & E1). injection E1 as <-.
  apply map_err_Ok, ok_or_Ok, checked_add_Some in Etb as [-> _].
  split; [|destruct Hinv; split; account_simpl; lia].
  rewrite ledger_push, distribution_value, ledger_burn. unfold ledger.
  rewrite (held_ext id s s1); [|done|by unfold total_gas_keys; rewrite A2].
  unfold held, account_holds, account_total. simpl. account_simpl. lia.
Qed.

Lemma insert_entries_frame scfg s id usage entries s' usage' :
  insert_entries scfg s id usage entries = Ok (s', usage') ->
  st_accounts s' = st_accounts s /\ st_access_keys s' = st_access_keys s.
Proof.
  revert s usage. induction entries as [|[k v] entries IH]; intros s usage H; simpl in H;
    rust_inv; simplify_eq; [done|].
  by apply IH in H as [-> ->].
Qed.

Lemma deploy_deterministic_frame scfg s acc id init res s' acc' res' :
  deploy_deterministic_account scfg s acc id init res = Ok (s', acc', res') ->
  result_is_ok res' = true ->
  res' = res /\ st_accounts s' = st_accounts s /\ st_access_keys s' = st_access_keys s
  /\ amount acc' = amount acc /\ locked acc' = locked acc.
Proof.
  unfold deploy_deterministic_account. intros H Hok.
  apply rbind_Ok in H as ([[s1 acc1] res1] & E1 & H).
  destruct (result_is_ok res1) eqn:Er; simpl in H; [|injection H as <- <- <-; congruence].
  apply use_global_frame in E1 as (-> & E1 & _ & E2 & E3 & E4); [|done].
  apply rbind_Ok in H as ([s2 u2] & E5 & H). injection H as <- <- <-.
  apply insert_entries_frame in E5 as [E5 E6]. account_simpl. split_and!; congruence.
Qed.

Lemma storage_lack_pos acc balance rcfg lack :
  check_storage_stake acc balance rcfg = Err (LackBalanceForStorageStaking lack) -> 0 < lack.
Proof.
  unfold check_storage_stake. intros H.
  destruct (checked_mul _ _ _) as [r|]; [|done]. simpl in H.
  destruct (checked_add _ _ _) as [v|]; [|done]. simpl in H.
  destruct (Z.leb_spec r v); [done|]. destruct (is_zero_balance_account acc); [done|].
  unfold checked_sub in H. destruct (Z.leb_spec v r); [|lia]. simpl in H. injection H as <-. lia.
Qed.

(** The account [action_deterministic_state_init] works on. *)
Lemma deterministic_account_accounts cfg price ap s acc id receipt a res s' o' res' :
  is_u u128_max (ds_deposit a) -> is_u u128_max (amount acc) ->
  action_deterministic_state_init ap s (Some acc) id receipt a res = Ok (s', o', res') ->
  accounts_for cfg price id (ds_deposit a) s (Some acc) res s' o' res'.
Proof.
  intros [Hd0 Hd1] [Ha0 Ha1] H Hok. unfold action_deterministic_state_init in H.
  cbn [default] in H. apply rbind_Ok in H as ([[s1 acc1] res1] & E1 & H).
  destruct (result_is_ok res1) eqn:Er; simpl in H; [|injection H as <- <- <-; congruence].
  assert (res1 = res /\ st_accounts s1 = st_accounts s /\ st_access_keys s1 = st_access_keys s
    /\ amount acc1 = amount acc /\ locked acc1 = locked acc) as (-> & E2 & E3 & E4 & E5).
  { simpl in E1. destruct (contract_is_none _); [by eapply deploy_deterministic_frame|].
    by injection E1 as <- <- <-. }
  assert (Hheld : held id s1 (Some acc1) = held id s (Some acc)).
  { rewrite (held_ext id s s1); [|done|by unfold total_gas_keys; rewrite E3].
    apply held_update. unfold account_total. lia. }
  assert (Hpush : forall acc2 x, is_u u128_max x ->
    held id s1 (Some acc2) + x = held id s (Some acc) + ds_deposit a ->
    ledger cfg price id s1 (Some acc2)
      (if 0 <? x then push_receipt res (new_balance_refund (balance_refund_receiver receipt) x) else res)
    = ledger cfg price id s (Some acc) res + ds_deposit a).
  { intros acc2 x Hx Hh. destruct (Z.ltb_spec 0 x).
    - rewrite ledger_push, balance_refund_value by done. unfold ledger. lia.
    - destruct Hx. unfold ledger. lia. }
  destruct (check_storage_stake _ _ _) as [[]|[missing|]|] eqn:Ec; try done.
  - injection H as <- <- <-. split; [apply Hpush; [done|lia]|unfold inv, is_u; lia].
  - destruct (Z.leb_spec missing (ds_deposit a)) as [Hm|]; [|injection H as <- <- <-; drop_failures].
    assert (0 < missing) as Hpos by by eapply storage_lack_pos.
    apply rbind_Ok in H as (b & Eb & H). apply map_err_Ok, ok_or_Ok, checked_add_Some in Eb as [-> Hb].
    unfold checked_sub in H. destruct (Z.leb_spec missing (ds_deposit a)); [|lia].
    cbn [unwrap rbind] in H. injection H as <- <- <-. split_and!.
    + apply Hpush; [unfold is_u; lia|]. rewrite <- Hheld. unfold held, account_holds, account_total.
      simpl. account_simpl. lia.
    + unfold inv. account_simpl. unfold is_u. lia.
Qed.

Lemma deterministic_accounts cfg price ap s o id receipt a res s' o' res' :
  is_u u128_max (ds_deposit a) -> inv id s o ->
  action_deterministic_state_init ap s o id receipt a res = Ok (s', o', res') ->
  accounts_for cfg price id (ds_deposit a) s o res s' o' res'.
Proof.
  intros Hd Hinv H Hok. destruct o as [acc|].
  { exact (deterministic_account_accounts cfg price ap s acc id receipt a res s' o' res'
             Hd Hinv H Hok). }
  set (acc := create_deterministic_account 0 (storage_usage_config (fees (config ap)))).
  destruct (deterministic_account_accounts cfg price ap s acc id receipt a res s' o' res' Hd)
    as (E & H1); [unfold is_u, u128_max; simpl; lia|exact H|exact Hok|].
  split; [|done]. rewrite E. unfold ledger, held, account_holds, account_total. simpl. lia.
Qed.

Lemma create_account_accounts cfg price rcfg s o actor id pred res o' actor' res' :
  o = None -> action_create_account rcfg o actor id pred res = (o', actor', res') ->
  accounts_for cfg price id 0 s o res s o' res'.
Proof.
  intros -> H Hok. unfold action_create_account in H.
  destruct (is_top_level id && _); [injection H as <- <- <-; drop_failures|].
  destruct (negb (is_top_level id) && _); injection H as <- <- <-; [drop_failures|].
  split; [|unfold inv, is_u, u128_max; simpl; lia].
  apply ledger_flow; [auto with rust|]. unfold held, account_holds, account_total. simpl. lia.
Qed.

Lemma implicit_creation_accounts cfg price ap ei s id d res s' o' actor' :
  is_u u128_max d -> inv id s None ->
  action_implicit_account_creation_transfer ap ei s id d = Ok (s', o', actor') ->
  accounts_for cfg price id d s None res s' o' res.
Proof.
  intros Hd [Hacc Hkeys] H Hok. unfold action_implicit_account_creation_transfer in H.
  assert (Hgo : forall s1 acc, total_gas_keys s1 = total_gas_keys s -> st_accounts s1 = st_accounts s ->
    amount acc = d -> locked acc = 0 -> accounts_for cfg price id d s None res s1 (Some acc) res).
  { intros s1 acc E1 E2 E3 E4 _. split; [|simpl; by rewrite E3].
    apply ledger_flow; [auto with rust|]. rewrite (held_ext id s s1) by done.
    unfold held, account_holds, account_total. simpl. lia. }
  destruct (get_account_type id); try done.
  - apply rbind_Ok in H as (n & _ & H). apply rbind_Ok in H as (pk & _ & H).
    apply rbind_Ok in H as (u & _ & H). injection H as <- <- <-. apply Hgo; try done.
    rewrite total_gas_keys_set.
    destruct (get_access_key s id pk) as [k|] eqn:Ek; simpl; [rewrite (Hkeys pk k Ek)|];
      unfold key_balance; simpl; lia.
  - apply rbind_Ok in H as (u & _ & H). injection H as <- <- <-. apply Hgo; try done.
    all: unfold from_local_code_hash; by case_bool_decide.
  - injection H as <- <- <-. by apply Hgo.
  - injection H as <- <- <-. by apply Hgo.
Qed.

Lemma refund_gas_key_accounts cfg price s acc res id pk d s' b :
  inv id s (Some acc) -> try_refund_gas_key_balance s id pk d = Ok (s', b) ->
  if b then accounts_for cfg price id d s (Some acc) res s' (Some acc) res else s' = s.
Proof.
  intros Hinv H. unfold try_refund_gas_key_balance in H.
  destruct (get_access_key s id pk) as [k|] eqn:Ek; [|by injection H as <- <-].
  destruct (gas_key_info k) as [g|] eqn:Eg; [|by injection H as <- <-].
  rust_inv. simplify_eq. intros Hok. split; [|done].
  apply ledger_flow; [auto with rust|]. rewrite held_set_key, Ek. simpl.
  rewrite (key_balance_of k g), (key_balance_set_gas k g) by done. lia.
Qed.

Lemma refund_allowance_frame s id pk d :
  st_accounts (try_refund_allowance s id pk d) = st_accounts s
  /\ total_gas_keys (try_refund_allowance s id pk d) = total_gas_keys s.
Proof.
  unfold try_refund_allowance. destruct (get_access_key s id pk) as [k|] eqn:Ek; [|done].
  destruct (ak_permission k) as [p| | |] eqn:Ep; try done.
  destruct (fcp_allowance p) as [a|]; [|done].
  destruct (a <? saturating_add u128_max a d); [|done]. split; [done|].
  rewrite total_gas_keys_set, Ek. destruct k as [n perm]. simpl in Ep. subst perm.
  unfold key_balance, set_allowance, gas_key_info. simpl. lia.
Qed.

Lemma transfer_or_creation_accounts cfg price ap ei s o actor d is_refund ar receipt res s' o' actor' :
  let id := r_receiver_id receipt in
  is_u u128_max d -> inv id s o ->
  action_transfer_or_implicit_account_creation ap ei s o actor d is_refund ar receipt
  = Ok (s', o', actor') ->
  accounts_for cfg price id d s o res s' o' res.
Proof.
  intros id Hd Hinv H. unfold action_transfer_or_implicit_account_creation in H.
  destruct o as [acc|]; [|by eapply implicit_creation_accounts].
  fold id in H. set (gr := is_refund && _) in H.
  apply rbind_Ok in H as ([s1 refunded] & E1 & H).
  assert (Hs1 : if refunded then accounts_for cfg price id d s (Some acc) res s1 (Some acc) res
                else s1 = s).
  { destruct gr; [|by injection E1 as <- <-]. apply map_err_Ok in E1.
    by eapply refund_gas_key_accounts. }
  destruct refunded; [by injection H as <- <- <-|]. subst s1.
  apply rbind_Ok in H as (acc1 & E2 & H). apply map_err_Ok in E2. injection H as <- <- <-.
  intros Hok. destruct (transfer_accounts cfg price s acc res id d acc1) as (A1 & A2);
    [apply Hd|done|done|done|].
  split; [|done]. rewrite <- A1. destruct gr; [|done].
  unfold ledger. f_equal. f_equal. f_equal. apply held_ext; apply refund_allowance_frame.
Qed.

Lemma sum_checked_map {A B} mx (f : B -> result Z IntegerOverflowError) (g : A -> B) acc l :
  sum_checked mx f acc (map g l) = sum_checked mx (fun a => f (g a)) acc l.
Proof.
  revert acc. induction l as [|a l IH]; intros acc; simpl; [done|].
  destruct (f (g a)); simpl; try done. destruct (ok_or _ _); simpl; auto.
Qed.

Lemma delegate_deposit sd :
  total_deposit (get_actions (sd_delegate_action sd)) = action_deposit (Delegate sd).
Proof. unfold total_deposit, get_actions. by rewrite sum_checked_map. Qed.

Lemma delegate_send_fees cfg d : total_prepaid_send_fees cfg (get_actions d) = Ok 0.
Proof.
  unfold total_prepaid_send_fees, get_actions. rewrite sum_checked_map.
  induction (da_actions d); simpl; [done|]. unfold checked_add. done.
Qed.

Lemma check_delegate_ok p d res r c :
  check_delegate_function_call p d res = (r, c) -> result_is_ok r = true -> c = true /\ r = res.
Proof.
  unfold check_delegate_function_call. intros H Hok.
  destruct (da_actions d) as [|[] []]; try (injection H as <- <-; drop_failures).
  destruct (negb (bool_decide _)); [injection H as <- <-; drop_failures|].
  destruct (negb _ && _); [injection H as <- <-; drop_failures|]. injection H as <- <-.
  destruct (0 <? fc_deposit a); [drop_failures|done].
Qed.

Lemma delegate_key_frame ap s d res s' res' :
  validate_delegate_action_key ap s d res = Ok (s', res') -> result_is_ok res' = true ->
  res' = res /\ st_accounts s' = st_accounts s /\ total_gas_keys s' = total_gas_keys s.
Proof.
  unfold validate_delegate_action_key. intros H Hok.
  destruct (get_access_key s _ _) as [k|] eqn:Ek; [|injection H as <- <-; drop_failures].
  destruct (da_nonce d <=? ak_nonce k); [injection H as <- <-; drop_failures|].
  apply rbind_Ok in H as (ub & _ & H).
  destruct (ub <=? da_nonce d); [injection H as <- <-; drop_failures|].
  set (cont := match ak_permission _ with PermFunctionCall _ => _ | _ => _ end) in H.
  assert (Hc : forall r c, cont = (r, c) -> result_is_ok r = true -> c = true /\ r = res).
  { unfold cont. intros r c. destruct (ak_permission _); [apply check_delegate_ok|..];
      by intros [= <- <-]. }
  destruct cont as [r c]. destruct c; injection H as <- <-.
  - split_and!; [by apply (Hc r true)|done|]. rewrite total_gas_keys_set, Ek. simpl.
    unfold key_balance. rewrite gas_key_info_set_nonce. lia.
  - by destruct (Hc r false eq_refl Hok).
Qed.

Lemma delegate_accounts ap s o ar id sd res s' res' :
  inv id s o -> (o = None -> False) -> apply_delegate_action ap s ar id sd res = Ok (s', res') ->
  accounts_for (config ap) (ar_gas_price ar) id (zres (action_deposit (Delegate sd)))
    s o res s' o res'.
Proof.
  intros Hinv Ho H Hok. unfold apply_delegate_action in H.
  apply rbind_Ok in H as (record & _ & H).
  destruct (match record with Some _ => _ | None => _ end); [injection H as <- <-; drop_failures|].
  apply rbind_Ok in H as (verified & _ & H).
  destruct verified; simpl in H; [|injection H as <- <-; drop_failures].
  destruct (_ <? block_height ap); [injection H as <- <-; drop_failures|].
  case_bool_decide; simpl in H; [|injection H as <- <-; drop_failures].
  apply rbind_Ok in H as ([s1 res1] & E1 & H).
  destruct (result_is_ok res1) eqn:Er; simpl in H; [|injection H as <- <-; congruence].
  apply delegate_key_frame in E1 as (-> & E1 & E2); [|done].
  apply rbind_Ok in H as (send & _ & H). apply rbind_Ok in H as (req & Ereq & H).
  apply rbind_Ok in H as (u1 & Eu1 & H). apply rbind_Ok in H as (u2 & Eu2 & H).
  apply rbind_Ok in H as (b & Eb & H). apply rbind_Ok in H as (c & _ & H). injection H as <- <-.
  apply map_err_Ok, ok_or_Ok, checked_add_Some in Eu1 as [-> _].
  apply map_err_Ok, ok_or_Ok, checked_add_Some in Eu2 as [-> _].
  apply map_err_Ok, ok_or_Ok, checked_add_Some in Eb as [-> _].
  split; [|by destruct o].
  rewrite ledger_push. set (r := mkReceipt _ _ _ _).
  assert (receipt_value (config ap) r
          = zres (action_deposit (Delegate sd)) + ar_gas_price ar * req) as ->.
  { unfold receipt_value, prepaid_gas_of, r, versioned_receipt.
    cbn [r_receipt ar_actions ar_gas_price r_receiver_id].
    rewrite delegate_deposit, delegate_send_fees. unfold action_receipt_required_gas in Ereq.
    apply rbind_Ok in Ereq as (x & Ex & Ereq). apply rbind_Ok in Ereq as (y & Ey & Ereq).
    apply rbind_Ok in Ereq as (z & Ez & Ereq).
    apply map_err_Ok in Ex, Ey. apply map_err_Ok, ok_or_Ok, checked_add_Some in Ez as [-> _].
    apply map_err_Ok, ok_or_Ok, checked_add_Some in Ereq as [-> _].
    rewrite Ex, Ey. cbn [zres]. lia. }
  unfold ledger. cbn [set_gas res_tokens_burnt res_new_receipts res_gas_used res_gas_burnt].
  rewrite (held_ext id s s1) by done. lia.
Qed.
End ledger.
