(* ===== verification/Validators.v ===== *)
(** * Validator accounts at the start of a chunk (runtime/src/lib.rs)

    [update_validator_accounts] pays rewards and returns stake, then sweeps the
    excess of locked Patoshi accounts to the foundation.  The theorems show what it
    does to every account, and that tokens only appear as rewards. *)

From S2P Require Import Prelude Crates AccountId Primitives Errors Fees Borsh State BitcoinTx.
From S2P Require Import RuntimeTypes Actions Runtime Conservation.

(** One entry of [stake_info]. *)
Definition update_validator (upd : ValidatorAccountsUpdate) (s : State) (entry : AccountId * Z)
    : result State RuntimeError :=
  let '(id, max_of_stakes) := entry in
  match get_account s id with
  | Some account =>
      let? account :=
        match validator_rewards upd !! id with
        | Some reward =>
            let? l := ok_or (checked_add u128_max (locked account) reward)
                        (UnexpectedIntegerOverflow (lit "update_validator_accounts")) in
            Ok (set_locked account l)
        | None => Ok account
        end in
      if locked account <? max_of_stakes then
        Err (inconsistent (Msg "FATAL: staking invariant does not hold. Account stake {} is less than maximum of stakes {} in the past three epochs"
                             [FZ (locked account); FZ max_of_stakes]))
      else
        let last_proposal := default 0 (last_proposals upd !! id) in
        let? return_stake :=
          ok_or (checked_sub (locked account) (Z.max max_of_stakes last_proposal))
            (UnexpectedIntegerOverflow (lit "update_validator_accounts - return stake")) in
        let? l := ok_or (checked_sub (locked account) return_stake)
                    (UnexpectedIntegerOverflow (lit "update_validator_accounts - set_locked")) in
        let account := set_locked account l in
        let? a := ok_or (checked_add u128_max (amount account) return_stake)
                    (UnexpectedIntegerOverflow (lit "update_validator_accounts - set_amount")) in
        Ok (set_account s id (set_amount account a))
  | None =>
      if 0 <? max_of_stakes then
        Err (inconsistent (Msg "Account {} with max of stakes {} is not found" [FS id; FZ max_of_stakes]))
      else Ok s
  end.

Fixpoint update_validators (upd : ValidatorAccountsUpdate) (entries : list (AccountId * Z)) (s : State)
    : result State RuntimeError :=
  match entries with
  | [] => Ok s
  | entry :: entries => let? s := update_validator upd s entry in update_validators upd entries s
  end.

Definition pay_treasury (upd : ValidatorAccountsUpdate) (s : State) : result State RuntimeError :=
  match protocol_treasury_account_id upd with
  | Some id =>
      match stake_info upd !! id with
      | Some _ => Ok s
      | None =>
          let? account :=
            ok_or (get_account s id)
              (inconsistent (Msg "Protocol treasury account {} is not found" [FS id])) in
          let? treasury_reward :=
            ok_or (validator_rewards upd !! id)
              (inconsistent (Msg "Validator reward for the protocol treasury account {} is not found"
                               [FS id])) in
          let? a := ok_or (checked_add u128_max (amount account) treasury_reward)
                      (UnexpectedIntegerOverflow (lit "update_validator_accounts - treasure_reward")) in
          Ok (set_account s id (set_amount account a))
      end
  | None => Ok s
  end.

Section sweep.
Context {C : Crates}.

(** One account of the Patoshi index: the state and the amount taken from it. *)
Definition sweep_account (s : State) (epoch_height : Z) (id : AccountId)
    : result (State * Z) RuntimeError :=
  let? record := storage_err (get_patoshi_record s id) in
  match record with
  | None => Ok (s, 0)
  | Some record =>
      if negb (is_patoshi_locked record epoch_height) then Ok (s, 0)
      else
        let? account :=
          ok_or (get_account s id)
            (inconsistent (Msg "Patoshi record exists for `{}` but account is missing" [FS id])) in
        let '(sweep_amount, _) :=
          compute_patoshi_sweep (amount account) (locked account) (genesis_balance record) in
        if sweep_amount =? 0 then Ok (s, 0)
        else
          let? a := ok_or (checked_sub (amount account) sweep_amount)
                      (UnexpectedIntegerOverflow (lit "sweep_patoshi_excess - signer debit")) in
          Ok (set_account s id (set_amount account a), sweep_amount)
  end.

Fixpoint sweep_accounts (s : State) (epoch_height : Z) (ids : list AccountId) (total_swept : Z)
    : result (State * Z) RuntimeError :=
  match ids with
  | [] => Ok (s, total_swept)
  | id :: ids =>
      let? (s, swept) := sweep_account s epoch_height id in
      let? total_swept := ok_or (checked_add u128_max total_swept swept)
                            (UnexpectedIntegerOverflow (lit "sweep_patoshi_excess - total_swept")) in
      sweep_accounts s epoch_height ids total_swept
  end.

Definition sweep_patoshi_excess (s : State) (epoch_height : Z) : result State RuntimeError :=
  let? patoshi_accounts := storage_err (get_patoshi_index s) in
  let? (s, total_swept) := sweep_accounts s epoch_height patoshi_accounts 0 in
  if total_swept =? 0 then Ok s
  else
    let? foundation :=
      ok_or (get_account s FOUNDATION_ACCOUNT_ID)
        (inconsistent (Msg "Foundation account `{}` is missing" [FS FOUNDATION_ACCOUNT_ID])) in
    let? a := ok_or (checked_add u128_max (amount foundation) total_swept)
                (UnexpectedIntegerOverflow (lit "sweep_patoshi_excess - foundation credit")) in
    Ok (set_account s FOUNDATION_ACCOUNT_ID (set_amount foundation a)).

Definition update_validator_accounts (u : StateUpdate) (upd : ValidatorAccountsUpdate)
    (epoch_height : Z) : result StateUpdate RuntimeError :=
  let? s := update_validators upd (map_to_list (stake_info upd)) (su_current u) in
  let? s := pay_treasury upd s in
  let? s := sweep_patoshi_excess s epoch_height in
  Ok (su_commit (su_put u s)).
End sweep.

(* ------------------------------------------------------------------ *)
(** ** Effects on single accounts *)

(** [s'] is [s] but for the balances of existing accounts. *)
Record same_but_balances (s s' : State) : Prop := mk_same_but_balances {
  sb_rest : with_accounts s (st_accounts s') = s';
  sb_dom : forall id, is_Some (get_account s' id) <-> is_Some (get_account s id);
}.

Lemma same_but_balances_refl s : same_but_balances s s.
Proof. split; [by destruct s|done]. Qed.

Lemma same_but_balances_trans s1 s2 s3 :
  same_but_balances s1 s2 -> same_but_balances s2 s3 -> same_but_balances s1 s3.
Proof.
  intros [E1 D1] [E2 D2]. split; [by rewrite <- E2, <- E1|].
  intros id. by rewrite D2, D1.
Qed.

Lemma same_but_balances_set s id a a' :
  get_account s id = Some a -> same_but_balances s (set_account s id a').
Proof.
  intros Ha. split; [done|]. intros id'. destruct (decide (id = id')) as [<-|Hne].
  - rewrite get_set_account, Ha. by split; eauto.
  - by rewrite get_set_account_ne.
Qed.

Lemma same_keys_money s s' :
  same_but_balances s s' -> money s' - money s = total_accounts s' - total_accounts s.
Proof. intros [E _]. unfold money. assert (total_gas_keys s' = total_gas_keys s) by by rewrite <- E. lia. Qed.

(** Staked and total balance of one account. *)
Definition staked (s : State) (id : AccountId) : Z := default 0 (locked <$> get_account s id).
Definition balance (s : State) (id : AccountId) : Z := default 0 (account_total <$> get_account s id).

Lemma set_account_money s id a a' :
  get_account s id = Some a ->
  money (set_account s id a') = money s + (account_total a' - account_total a).
Proof.
  intros Ha. rewrite held_set_account. unfold held. rewrite total_others_spec, Ha.
  unfold money, account_holds. simpl. lia.
Qed.

Lemma set_account_balance s id a a' j :
  get_account s id = Some a -> j <> id -> balance (set_account s id a') j = balance s j
  /\ staked (set_account s id a') j = staked s j.
Proof. intros Ha Hj. unfold balance, staked. by rewrite get_set_account_ne. Qed.

Lemma set_account_self s id a :
  balance (set_account s id a) id = account_total a /\ staked (set_account s id a) id = locked a.
Proof. unfold balance, staked. by rewrite get_set_account. Qed.

(* ------------------------------------------------------------------ *)
(** ** Rewards and stakes *)

Definition reward_of (upd : ValidatorAccountsUpdate) (id : AccountId) : Z :=
  default 0 (validator_rewards upd !! id).

(** What is paid to [id] as a validator, if it has an account. *)
Definition paid_to (upd : ValidatorAccountsUpdate) (s : State) (id : AccountId) : Z :=
  match get_account s id with Some _ => reward_of upd id | None => 0 end.

(** The stake a validator keeps. *)
Definition kept_stake (upd : ValidatorAccountsUpdate) (id : AccountId) (max_of_stakes : Z) : Z :=
  Z.max max_of_stakes (default 0 (last_proposals upd !! id)).

Lemma update_validator_spec upd s id m s' :
  update_validator upd s (id, m) = Ok s' ->
  same_but_balances s s' /\ money s' = money s + paid_to upd s id
  /\ (forall j, j <> id -> balance s' j = balance s j /\ staked s' j = staked s j)
  /\ balance s' id = balance s id + paid_to upd s id
  /\ (is_Some (get_account s id) -> staked s' id = kept_stake upd id m)
  /\ balance s id - staked s id <= balance s' id - staked s' id.
Proof.
  unfold update_validator, paid_to, reward_of. destruct (get_account s id) as [a|] eqn:Ea; intros H.
  2:{ destruct (0 <? m); [done|]. injection H as <-. rewrite Z.add_0_r.
      split_and!; [apply same_but_balances_refl|lia|done|lia|by intros []|lia]. }
  apply rbind_Ok in H as (a1 & E1 & H).
  assert (locked a1 = locked a + default 0 (validator_rewards upd !! id) /\ amount a1 = amount a)
    as [El Ea1].
  { destruct (validator_rewards upd !! id) as [r|]; simpl; rust_inv; subst; account_simpl; lia. }
  destruct (locked a1 <? m); [done|]. rust_inv. subst. fold (kept_stake upd id m) in *.
  match goal with |- context [set_account s id ?x] => set (a2 := x) end.
  assert (account_total a2 = account_total a + default 0 (validator_rewards upd !! id)) as Et
    by (unfold a2, account_total; account_simpl; lia).
  split_and!.
  - by eapply same_but_balances_set.
  - rewrite (set_account_money s id a) by done. lia.
  - intros j Hj. by eapply set_account_balance.
  - rewrite (proj1 (set_account_self s id a2)), Et. unfold balance. by rewrite Ea.
  - intros _. rewrite (proj2 (set_account_self s id a2)). unfold a2. account_simpl. lia.
  - destruct (set_account_self s id a2) as [-> ->]. rewrite Et. unfold balance, staked. rewrite Ea.
    unfold a2, account_total. simpl. account_simpl. lia.
Qed.

Lemma update_validators_spec upd entries : forall s s',
  NoDup entries.*1 -> update_validators upd entries s = Ok s' ->
  same_but_balances s s' /\ money s' = money s + zsum (paid_to upd s) entries.*1
  /\ (forall j, j ∉ entries.*1 -> balance s' j = balance s j /\ staked s' j = staked s j)
  /\ (forall j m, (j, m) ∈ entries -> balance s' j = balance s j + paid_to upd s j
       /\ (is_Some (get_account s j) -> staked s' j = kept_stake upd j m))
  /\ forall j, balance s j - staked s j <= balance s' j - staked s' j.
Proof.
  induction entries as [|[id m] entries IH]; intros s s' Hnd H; simpl in H.
  { injection H as <-. split_and!; [apply same_but_balances_refl|simpl; lia|done|..].
    - intros j m []%elem_of_nil.
    - intros j. lia. }
  apply rbind_Ok in H as (s1 & E & H). simpl in Hnd. apply NoDup_cons in Hnd as [Hid Hnd].
  apply update_validator_spec in E as (B1 & M1 & O1 & I1 & K1 & L1).
  destruct (IH s1 s' Hnd H) as (B2 & M2 & O2 & I2 & L2). clear IH H.
  assert (Hp : forall j, paid_to upd s1 j = paid_to upd s j).
  { intros j. unfold paid_to. pose proof (sb_dom _ _ B1 j) as Hd.
    destruct Hd as [Hd1 Hd2]. destruct (get_account s1 j), (get_account s j); [done| | |done].
    - by destruct Hd1; eauto.
    - by destruct Hd2; eauto. }
  split_and!.
  - by eapply same_but_balances_trans.
  - rewrite M2, M1, fmap_cons, zsum_cons, (zsum_ext (paid_to upd s1) (paid_to upd s)) by done. simpl. lia.
  - intros j [Hj1 Hj2]%not_elem_of_cons. destruct (O2 j Hj2) as [-> ->]. by apply O1.
  - intros j m' [[= -> ->]|Hin]%elem_of_cons.
    + destruct (O2 id Hid) as [-> ->]. split; [done|]. exact K1.
    + assert (j ∈ entries.*1) as Hj by (apply list_elem_of_fmap; by exists (j, m')).
      assert (j <> id) as Hne by (by intros ->). destruct (O1 j Hne) as [O1a O1b].
      destruct (I2 j m' Hin) as [I2a I2b]. rewrite I2a, O1a, Hp. split; [done|].
      intros Hs. by apply I2b, (sb_dom _ _ B1).
  - intros j. specialize (L2 j). destruct (decide (j = id)) as [->|Hne]; [lia|].
    destruct (O1 j Hne). lia.
Qed.

(** What the protocol treasury gets when it is not a validator. *)
Definition treasury_share (upd : ValidatorAccountsUpdate) (id : AccountId) : Z :=
  if bool_decide (protocol_treasury_account_id upd = Some id) then
    match stake_info upd !! id with Some _ => 0 | None => reward_of upd id end
  else 0.

Lemma pay_treasury_spec upd s s' :
  pay_treasury upd s = Ok s' ->
  same_but_balances s s'
  /\ money s' = money s + default 0 (treasury_share upd <$> protocol_treasury_account_id upd)
  /\ forall j, balance s' j = balance s j + treasury_share upd j /\ staked s' j = staked s j.
Proof.
  unfold pay_treasury. intros H.
  assert (Hsame : s' = s -> (forall j, treasury_share upd j = 0) -> same_but_balances s s'
    /\ money s' = money s + default 0 (treasury_share upd <$> protocol_treasury_account_id upd)
    /\ forall j, balance s' j = balance s j + treasury_share upd j /\ staked s' j = staked s j).
  { intros -> Hz. split_and!; [apply same_but_balances_refl| |].
    - destruct (protocol_treasury_account_id upd) as [i|]; simpl; rewrite ?Hz; lia.
    - intros j. rewrite Hz. split; [lia|done]. }
  destruct (protocol_treasury_account_id upd) as [id|] eqn:Et.
  2:{ apply Hsame; [by injection H|]. intros j. unfold treasury_share. by rewrite Et. }
  assert (Hother : forall j, j <> id -> treasury_share upd j = 0).
  { intros j Hj. unfold treasury_share. rewrite Et. case_bool_decide; [congruence|done]. }
  destruct (stake_info upd !! id) as [m|] eqn:Es.
  { apply Hsame; [by injection H|]. intros j. destruct (decide (j = id)) as [->|Hj]; [|by apply Hother].
    unfold treasury_share. rewrite Es. by destruct (bool_decide _). }
  apply rbind_Ok in H as (a & Ea & H). apply ok_or_Ok in Ea.
  apply rbind_Ok in H as (r & Er & H). apply ok_or_Ok in Er.
  apply rbind_Ok in H as (b & Eb & H). apply ok_or_Ok, checked_add_Some in Eb as [-> _].
  injection H as <-.
  assert (treasury_share upd id = r) as Hr.
  { unfold treasury_share, reward_of. rewrite Et, bool_decide_true, Es, Er by done. done. }
  split_and!.
  - by eapply same_but_balances_set.
  - rewrite (set_account_money s id a) by done. simpl. rewrite Hr. unfold account_total. account_simpl. lia.
  - intros j. destruct (decide (j = id)) as [->|Hj].
    + match goal with |- context [set_account s id ?x] =>
        destruct (set_account_self s id x) as [-> ->] end.
      unfold balance, staked. rewrite Ea, Hr. unfold account_total. simpl. account_simpl. lia.
    + rewrite Hother by done. destruct (set_account_balance s id a (set_amount a (amount a + r)) j Ea Hj).
      split; [lia|done].
Qed.

(* ------------------------------------------------------------------ *)
(** ** The sweep *)

(** Balances are not negative, and no account holds more than a u128. *)
Definition accounts_fit (s : State) : Prop := forall id a,
  get_account s id = Some a -> 0 <= amount a /\ 0 <= locked a /\ account_total a <= u128_max.

Section sweep_proofs.
Context {C : Crates}.

(** The floor of an account with a locked Patoshi record. *)
Definition lock_floor (s : State) (epoch_height : Z) (id : AccountId) : option Z :=
  match get_patoshi_record s id with
  | Ok (Some record) =>
      if is_patoshi_locked record epoch_height then Some (genesis_balance record) else None
  | _ => None
  end.

(** What the sweep leaves of [total], of which [stake] is staked. *)
Definition left_after_sweep (floor : option Z) (stake total : Z) : Z :=
  match floor with
  | Some floor => Z.max stake (Z.min total floor)
  | None => total
  end.

Lemma lock_floor_same s s' e id : same_but_balances s s' -> lock_floor s' e id = lock_floor s e id.
Proof. intros [E _]. unfold lock_floor, get_patoshi_record, get_data. by rewrite <- E. Qed.

Lemma left_after_sweep_twice floor stake total :
  stake <= total ->
  left_after_sweep floor stake (left_after_sweep floor stake total) = left_after_sweep floor stake total.
Proof. unfold left_after_sweep. destruct floor; lia. Qed.

Lemma fit_balance s id : accounts_fit s -> 0 <= staked s id <= balance s id /\ balance s id <= u128_max.
Proof.
  intros Hf. unfold staked, balance. destruct (get_account s id) as [a|] eqn:E; simpl.
  - destruct (Hf id a E) as (? & ? & ?). unfold account_total in *. lia.
  - unfold u128_max. lia.
Qed.

Lemma sweep_account_spec s e id s' x :
  accounts_fit s -> sweep_account s e id = Ok (s', x) ->
  same_but_balances s s' /\ accounts_fit s' /\ money s' = money s - x
  /\ (forall j, staked s' j = staked s j)
  /\ (forall j, j <> id -> balance s' j = balance s j)
  /\ balance s' id = left_after_sweep (lock_floor s e id) (staked s id) (balance s id).
Proof.
  intros Hf H. unfold sweep_account in H. apply rbind_Ok in H as (record & Er & H). apply map_err_Ok in Er.
  unfold lock_floor. rewrite Er.
  assert (Hsame : forall y, @Ok _ RuntimeError (s, 0) = Ok (s', x) -> balance s id = y ->
    same_but_balances s s' /\ accounts_fit s' /\ money s' = money s - x
    /\ (forall j, staked s' j = staked s j) /\ (forall j, j <> id -> balance s' j = balance s j)
    /\ balance s' id = y).
  { intros y [= <- <-] Hy. split_and!; [apply same_but_balances_refl|done|lia|done|done|done]. }
  destruct record as [record|]; [|by apply Hsame].
  destruct (is_patoshi_locked record e); cbn [negb] in H; [|by apply Hsame].
  apply rbind_Ok in H as (a & Ea & H). apply ok_or_Ok in Ea.
  destruct (Hf id a Ea) as (Ha & Hl & Ht). unfold account_total in Ht.
  assert (balance s id = amount a + locked a /\ staked s id = locked a) as [Hb Hs]
    by (unfold balance, staked; by rewrite Ea).
  destruct (compute_patoshi_sweep (amount a) (locked a) (genesis_balance record)) as [sw uns] eqn:Ec.
  unfold compute_patoshi_sweep, saturating_add, saturating_sub in Ec. injection Ec as Esw _. cbn iota beta in H.
  rewrite Hb, Hs. unfold left_after_sweep.
  destruct (Z.eqb_spec sw 0) as [->|Hne]; [apply Hsame; [done|lia]|].
  apply rbind_Ok in H as (b & Eb & H). apply ok_or_Ok, checked_sub_Some in Eb as [-> Hle].
  injection H as <- <-.
  match goal with |- context [set_account s id ?y] => set (a' := y) end.
  assert (account_total a' = account_total a - sw /\ locked a' = locked a) as [Et El]
    by (unfold a', account_total; account_simpl; lia).
  split_and!.
  - by eapply same_but_balances_set.
  - intros j b Hj. destruct (decide (id = j)) as [<-|Hn].
    + rewrite get_set_account in Hj. injection Hj as <-. rewrite El, Et.
      unfold a', account_total. account_simpl. lia.
    + rewrite get_set_account_ne in Hj by done. by apply Hf in Hj.
  - rewrite (set_account_money s id a) by done. lia.
  - intros j. destruct (decide (j = id)) as [->|Hj].
    + by rewrite (proj2 (set_account_self s id a')), El, Hs.
    + by apply (set_account_balance s id a a').
  - intros j Hj. by apply (set_account_balance s id a a').
  - rewrite (proj1 (set_account_self s id a')), Et. unfold account_total. lia.
Qed.

Lemma sweep_accounts_spec e ids : forall s total s' total',
  accounts_fit s -> sweep_accounts s e ids total = Ok (s', total') ->
  same_but_balances s s' /\ accounts_fit s' /\ money s' = money s - (total' - total)
  /\ (forall j, staked s' j = staked s j)
  /\ forall j, balance s' j = if bool_decide (j ∈ ids)
       then left_after_sweep (lock_floor s e j) (staked s j) (balance s j) else balance s j.
Proof.
  induction ids as [|id ids IH]; intros s total s' total' Hf H; simpl in H.
  { injection H as <- <-. split_and!; [apply same_but_balances_refl|done|lia|done|].
    intros j. rewrite bool_decide_false; [done|apply not_elem_of_nil]. }
  apply rbind_Ok in H as ([s1 x] & E1 & H). apply rbind_Ok in H as (t1 & Et & H).
  apply ok_or_Ok, checked_add_Some in Et as [-> _].
  destruct (sweep_account_spec _ _ _ _ _ Hf E1) as (B1 & F1 & M1 & S1 & O1 & I1).
  destruct (IH _ _ _ _ F1 H) as (B2 & F2 & M2 & S2 & O2).
  split_and!; [by eapply same_but_balances_trans|done|lia|intros j; by rewrite S2, S1|].
  intros j. rewrite O2, S1, (lock_floor_same _ _ _ _ B1).
  destruct (fit_balance s id Hf) as [Hst _].
  destruct (decide (j = id)) as [->|Hj].
  - rewrite (bool_decide_true (id ∈ id :: ids)) by by left. rewrite I1.
    case_bool_decide; [|done]. apply left_after_sweep_twice. lia.
  - rewrite O1, (bool_decide_ext (j ∈ id :: ids) (j ∈ ids)); [done| |done].
    rewrite elem_of_cons. tauto.
Qed.

Lemma sweep_accounts_grow e ids : forall s total s' total',
  accounts_fit s -> sweep_accounts s e ids total = Ok (s', total') -> total <= total'.
Proof.
  induction ids as [|id ids IH]; intros s total s' total' Hf H; simpl in H; [by injection H as <- <-|].
  apply rbind_Ok in H as ([s1 x] & E1 & H). apply rbind_Ok in H as (t1 & Et & H).
  apply ok_or_Ok, checked_add_Some in Et as [-> _].
  destruct (sweep_account_spec _ _ _ _ _ Hf E1) as (_ & F1 & _). apply IH in H; [|done].
  assert (0 <= x); [|lia]. unfold sweep_account in E1. apply rbind_Ok in E1 as (record & _ & E1).
  destruct record as [record|]; [|by injection E1 as <- <-].
  destruct (is_patoshi_locked record e); cbn [negb] in E1; [|by injection E1 as <- <-].
  apply rbind_Ok in E1 as (a & Ea & E1). apply ok_or_Ok in Ea. destruct (Hf id a Ea) as (Ha & Hl & Ht).
  unfold compute_patoshi_sweep in E1. set (sw := Z.min _ _) in E1.
  assert (0 <= sw) by (unfold sw, saturating_sub; lia).
  destruct (sw =? 0); [by injection E1 as <- <-|]. apply rbind_Ok in E1 as (b & _ & E1). by injection E1 as <- <-.
Qed.

(** The floor the sweep applies to [id]: only accounts of the index are swept. *)
Definition swept_floor (s : State) (epoch_height : Z) (id : AccountId) : option Z :=
  match get_patoshi_index s with
  | Ok ids => if bool_decide (id ∈ ids) then lock_floor s epoch_height id else None
  | _ => None
  end.

Lemma swept_floor_same s s' e id : same_but_balances s s' -> swept_floor s' e id = swept_floor s e id.
Proof.
  intros H. unfold swept_floor. rewrite (lock_floor_same s s') by done.
  destruct H as [E _]. unfold get_patoshi_index, get_data. by rewrite <- E.
Qed.

Lemma sweep_spec s e s' :
  accounts_fit s -> sweep_patoshi_excess s e = Ok s' ->
  same_but_balances s s' /\ money s' = money s /\ (forall j, staked s' j = staked s j)
  /\ forall j, j <> FOUNDATION_ACCOUNT_ID ->
       balance s' j = left_after_sweep (swept_floor s e j) (staked s j) (balance s j).
Proof.
  intros Hf H. unfold sweep_patoshi_excess in H. apply rbind_Ok in H as (ids & Ei & H). apply map_err_Ok in Ei.
  apply rbind_Ok in H as ([s1 total] & E1 & H).
  destruct (sweep_accounts_spec e ids s 0 s1 total Hf E1) as (B1 & F1 & M1 & S1 & O1).
  assert (forall j, balance s1 j = left_after_sweep (swept_floor s e j) (staked s j) (balance s j)) as O.
  { intros j. rewrite O1. unfold swept_floor. rewrite Ei. by case_bool_decide. }
  destruct (Z.eqb_spec total 0) as [->|Hne]; [injection H as <-; split_and!; [done|lia|done|by intros]|].
  apply rbind_Ok in H as (f & Ef & H). apply ok_or_Ok in Ef.
  apply rbind_Ok in H as (b & Eb & H). apply ok_or_Ok, checked_add_Some in Eb as [-> _].
  injection H as <-. split_and!.
  - eapply same_but_balances_trans; [exact B1|by eapply same_but_balances_set].
  - rewrite (set_account_money s1 _ f) by done. unfold account_total. account_simpl. lia.
  - intros j. rewrite <- S1. destruct (decide (j = FOUNDATION_ACCOUNT_ID)) as [->|Hj].
    + rewrite (proj2 (set_account_self s1 _ _)). unfold staked. rewrite Ef. simpl. by account_simpl.
    + by apply (set_account_balance s1 _ f).
  - intros j Hj. rewrite <- O. by apply (set_account_balance s1 _ f).
Qed.

(* ------------------------------------------------------------------ *)
(** ** The whole update *)

(** What [id] earns: as a validator with an account, or as the treasury. *)
Definition earned (upd : ValidatorAccountsUpdate) (s : State) (id : AccountId) : Z :=
  match stake_info upd !! id with
  | Some _ => paid_to upd s id
  | None => treasury_share upd id
  end.

(** All rewards that are paid. *)
Definition minted (upd : ValidatorAccountsUpdate) (s : State) : Z :=
  zsum (paid_to upd s) (map_to_list (stake_info upd)).*1
  + default 0 (treasury_share upd <$> protocol_treasury_account_id upd).

(** No balance in the state is negative. *)
Definition balances_nonneg (s : State) : Prop :=
  (forall id a, get_account s id = Some a -> 0 <= amount a /\ 0 <= locked a)
  /\ forall id pk k, get_access_key s id pk = Some k -> 0 <= key_balance k.

Lemma balance_le_money s id : balances_nonneg s -> balance s id <= money s.
Proof.
  intros [Ha Hk].
  assert (0 <= map_fold (fun _ x acc => account_total x + acc) 0 (delete id (st_accounts s))) as H1.
  { apply fold_nonneg. intros i x [_ Hx]%lookup_delete_Some. destruct (Ha i x Hx). unfold account_total. lia. }
  assert (0 <= total_gas_keys s) as H2.
  { apply fold_nonneg. intros [i q] x Hx. by apply (Hk i q). }
  rewrite (sum_delete account_total) in H1. unfold money, total_accounts, balance, get_account. lia.
Qed.

Lemma nonneg_fit s : balances_nonneg s -> money s <= u128_max -> accounts_fit s.
Proof.
  intros Hn Hm id a Ha. destruct (proj1 Hn id a Ha) as [H1 H2]. split_and!; [done|done|].
  pose proof (balance_le_money s id Hn) as Hb. unfold balance in Hb. rewrite Ha in Hb. simpl in Hb. lia.
Qed.

Lemma nonneg_after s s' :
  balances_nonneg s -> same_but_balances s s' ->
  (forall j, balance s j - staked s j <= balance s' j - staked s' j) ->
  (forall j, 0 <= staked s' j) -> balances_nonneg s'.
Proof.
  intros [Ha Hk] [E D] Hl Hs. split.
  - intros id a Ea. specialize (Hl id). specialize (Hs id).
    assert (0 <= balance s id - staked s id) as H0.
    { unfold balance, staked. destruct (get_account s id) as [b|] eqn:Eb; simpl; [|lia].
      destruct (Ha id b Eb). unfold account_total. lia. }
    unfold balance at 2, staked at 2 in Hl. unfold staked in Hs. rewrite Ea in Hl, Hs.
    unfold account_total in Hl. simpl in Hl, Hs. lia.
  - intros id pk k. rewrite <- E. apply (Hk id pk k).
Qed.

Lemma sweep_nonneg s e s' :
  balances_nonneg s -> accounts_fit s -> sweep_patoshi_excess s e = Ok s' -> balances_nonneg s'.
Proof.
  intros [Hn Hk] Hf H. pose proof (sweep_spec _ _ _ Hf H) as ([E _] & _).
  assert (forall id a, get_account s' id = Some a -> 0 <= amount a /\ 0 <= locked a) as Ha.
  2:{ split; [exact Ha|]. intros id pk k Hp. apply (Hk id pk k). by rewrite <- E in Hp. }
  clear E. unfold sweep_patoshi_excess in H. apply rbind_Ok in H as (ids & _ & H).
  apply rbind_Ok in H as ([s1 total] & E1 & H). pose proof (sweep_accounts_grow _ _ _ _ _ _ Hf E1) as Ht.
  destruct (sweep_accounts_spec e ids s 0 s1 total Hf E1) as (_ & F1 & _).
  destruct (total =? 0); [injection H as <-; intros id a Ha; by apply F1 in Ha as (? & ? & _)|].
  apply rbind_Ok in H as (f & Ef & H). apply ok_or_Ok in Ef.
  apply rbind_Ok in H as (b & Eb & H). apply ok_or_Ok, checked_add_Some in Eb as [-> _].
  injection H as <-. intros id a Ha. destruct (decide (FOUNDATION_ACCOUNT_ID = id)) as [<-|Hne].
  - rewrite get_set_account in Ha. injection Ha as <-. apply F1 in Ef as (? & ? & _). account_simpl. lia.
  - rewrite get_set_account_ne in Ha by done. by apply F1 in Ha as (? & ? & _).
Qed.

(** The stake of [id] after the update of the validators. *)
Definition stake_after (upd : ValidatorAccountsUpdate) (s : State) (id : AccountId) : Z :=
  match stake_info upd !! id, get_account s id with
  | Some m, Some _ => kept_stake upd id m
  | _, _ => staked s id
  end.

Lemma stakes_updated upd s s1 :
  update_validators upd (map_to_list (stake_info upd)) s = Ok s1 ->
  same_but_balances s s1 /\ money s1 = money s + zsum (paid_to upd s) (map_to_list (stake_info upd)).*1
  /\ (forall id, staked s1 id = stake_after upd s id)
  /\ (forall id, balance s1 id = balance s id
        + match stake_info upd !! id with Some _ => paid_to upd s id | None => 0 end)
  /\ forall id, balance s id - staked s id <= balance s1 id - staked s1 id.
Proof.
  intros E1.
  destruct (update_validators_spec upd _ s s1 (NoDup_fst_map_to_list _) E1) as (B1 & M1 & O1 & I1 & L1).
  assert (Hout : forall id, stake_info upd !! id = None -> id ∉ (map_to_list (stake_info upd)).*1).
  { intros id Em [[i m] [-> Hin]]%list_elem_of_fmap. apply elem_of_map_to_list in Hin. simpl in Em. congruence. }
  split_and!; [done|done| | |done].
  - intros id. unfold stake_after. destruct (stake_info upd !! id) as [m|] eqn:Em; [|by apply O1, Hout].
    apply elem_of_map_to_list in Em. destruct (I1 id m Em) as [_ HI].
    destruct (get_account s id) as [a|] eqn:Ea; [apply HI; eauto|].
    unfold staked. rewrite Ea. destruct (get_account s1 id) as [b|] eqn:Eb; [|done].
    destruct (proj1 (sb_dom _ _ B1 id)) as [? Hx]; [by rewrite Eb; eauto|]. congruence.
  - intros id. destruct (stake_info upd !! id) as [m|] eqn:Em; [by apply elem_of_map_to_list, I1 in Em as [? _]|].
    rewrite Z.add_0_r. by apply O1, Hout.
Qed.

Lemma stake_after_nonneg upd s id :
  balances_nonneg s -> map_Forall (fun _ m => 0 <= m) (stake_info upd) -> 0 <= stake_after upd s id.
Proof.
  intros [Ha _] Hm. unfold stake_after, staked.
  destruct (stake_info upd !! id) as [m|] eqn:Em, (get_account s id) as [a|] eqn:Ea; simpl; try lia.
  - apply Hm in Em. unfold kept_stake. lia.
  - by apply (Ha id).
Qed.

Lemma update_exact u upd e u' :
  let s := su_current u in
  let s' := su_current u' in
  balances_nonneg s -> map_Forall (fun _ m => 0 <= m) (stake_info upd) ->
  map_Forall (fun _ r => 0 <= r) (validator_rewards upd) -> money s + minted upd s <= u128_max ->
  update_validator_accounts u upd e = Ok u' ->
  su_committed u' = s' /\ money s' = money s + minted upd s
  /\ same_but_balances s s' /\ balances_nonneg s'
  /\ (forall id, staked s' id = stake_after upd s id)
  /\ (forall id, id <> FOUNDATION_ACCOUNT_ID ->
        balance s' id = left_after_sweep (swept_floor s e id) (staked s' id)
                          (balance s id + earned upd s id)).
Proof.
  intros s s' Hn Hm Hr Hmax H. unfold update_validator_accounts in H. fold s in H.
  apply rbind_Ok in H as (s1 & E1 & H). apply rbind_Ok in H as (s2 & E2 & H).
  apply rbind_Ok in H as (s3 & E3 & H). injection H as <-. unfold s'. clear s'.
  cbn [su_commit su_put su_current su_committed].
  destruct (stakes_updated upd s s1 E1) as (B1 & M1 & S1 & I1 & L1).
  destruct (pay_treasury_spec upd s1 s2 E2) as (B2 & M2 & T2).
  assert (B12 : same_but_balances s s2) by by eapply same_but_balances_trans.
  assert (Ht : forall j, 0 <= treasury_share upd j).
  { intros j. unfold treasury_share, reward_of. destruct (bool_decide _); [|done].
    destruct (stake_info upd !! j); [done|]. destruct (validator_rewards upd !! j) as [r|] eqn:Er; [|done].
    by apply Hr in Er. }
  assert (Hn2 : balances_nonneg s2).
  { apply (nonneg_after s s2 Hn B12); intros j; destruct (T2 j) as [Tb Ts].
    - specialize (L1 j). specialize (Ht j). lia.
    - rewrite Ts, S1. by apply stake_after_nonneg. }
  assert (Hm2 : money s2 = money s + minted upd s) by (unfold minted; lia).
  destruct (sweep_spec s2 e s3 (nonneg_fit s2 Hn2 ltac:(lia)) E3) as (B3 & M3 & S3 & O3).
  pose proof (nonneg_fit s2 Hn2 ltac:(lia)) as Hfit2.
  split_and!; [done|lia|by eapply same_but_balances_trans|by apply (sweep_nonneg s2 e)
    |intros id; by rewrite S3, (proj2 (T2 id))|].
  intros id Hid. rewrite O3, (swept_floor_same s s2), S3 by done. f_equal.
  rewrite (proj1 (T2 id)), I1. unfold earned, treasury_share.
  destruct (stake_info upd !! id); [|lia]. destruct (bool_decide _); lia.
Qed.

(** The update of the validator accounts creates exactly the rewards it pays, and
    nothing else: every validator with an account gets its reward and is left with the
    larger of its recent stakes and its last proposal staked, the treasury gets its
    share, and then every account of the Patoshi index that is still locked is cut to
    its genesis balance as far as its liquid part allows, in favour of the foundation.
    All other balances and stakes stay as they are. *)
Theorem validator_update_exact u upd e u' :
  let s := su_current u in
  let s' := su_current u' in
  balances_nonneg s -> map_Forall (fun _ m => 0 <= m) (stake_info upd) ->
  map_Forall (fun _ r => 0 <= r) (validator_rewards upd) -> money s + minted upd s <= u128_max ->
  update_validator_accounts u upd e = Ok u' ->
  su_committed u' = s' /\ money s' = money s + minted upd s
  /\ (forall id, is_Some (get_account s' id) <-> is_Some (get_account s id))
  /\ (forall id, staked s' id = stake_after upd s id)
  /\ (forall id, id <> FOUNDATION_ACCOUNT_ID ->
        balance s' id = left_after_sweep (swept_floor s e id) (staked s' id)
                          (balance s id + earned upd s id)).
Proof.
  intros s s' Hn Hm Hr Hmax H.
  destruct (update_exact u upd e u' Hn Hm Hr Hmax H) as (E1 & E2 & [_ E3] & _ & E4 & E5).
  by split_and!.
Qed.
End sweep_proofs.

(* ------------------------------------------------------------------ *)
(** ** A concrete update: one validator, one locked Patoshi account, the treasury *)

Section witnesses.
#[local] Existing Instance Toy.crates.

Definition patoshi_id : AccountId := "patoshi.near".

Definition epoch_state : State :=
  let s := set_account empty_state FOUNDATION_ACCOUNT_ID (account_new 50 0 ContractNone 200) in
  let s := set_account s "val.near" (account_new 10 1000 ContractNone 200) in
  let s := set_account s patoshi_id (account_new 700 100 ContractNone 200) in
  let s := set_data (vec_c string_c) s FOUNDATION_ACCOUNT_ID PATOSHI_INDEX_DATA_KEY [patoshi_id] in
  set_patoshi_record s patoshi_id (mkPatoshiRecord 500 true None).

Definition epoch_update : ValidatorAccountsUpdate :=
  mkValidatorAccountsUpdate {["val.near" := 600]} {["val.near" := 40; "near" := 4]}
    {["val.near" := 900]} (Some FOUNDATION_ACCOUNT_ID).

Definition epoch_start : StateUpdate := mkStateUpdate epoch_state epoch_state.

Lemma epoch_update_runs : is_ok (update_validator_accounts epoch_start epoch_update 7) = true.
Proof. vm_compute. reflexivity. Qed.

Lemma epoch_nonneg : balances_nonneg epoch_state.
Proof.
  split; [|by intros id pk k Hk; vm_compute in Hk]. intros id a Ha.
  unfold epoch_state, get_account, set_patoshi_record, set_data, set_contract_data, set_account in Ha.
  simpl in Ha. rewrite !lookup_insert_Some in Ha.
  destruct Ha as [[_ <-]|[_ [[_ <-]|[_ [[_ <-]|[_ Ha]]]]]]; [vm_compute; split; congruence..|].
  by rewrite lookup_empty in Ha.
Qed.

Lemma validator_update_exact_witness :
  exists u', update_validator_accounts epoch_start epoch_update 7 = Ok u'
  /\ money (su_current u') = money epoch_state + 44
  /\ staked (su_current u') "val.near" = 900 /\ balance (su_current u') patoshi_id = 500.
Proof.
  destruct (is_ok_inv _ epoch_update_runs) as (u' & E). exists u'. split; [exact E|].
  destruct (validator_update_exact epoch_start epoch_update 7 u') as (_ & H1 & _ & H2 & H3).
  - exact epoch_nonneg.
  - intros id m Hm. unfold epoch_update, stake_info in Hm. apply lookup_singleton_Some in Hm as [_ <-]. vm_compute. congruence.
  - intros id r Hr. unfold epoch_update, validator_rewards in Hr. apply lookup_insert_Some in Hr as [[_ <-]|[_ Hr]]; [vm_compute; congruence|].
    apply lookup_singleton_Some in Hr as [_ <-]. vm_compute. congruence.
  - vm_compute. congruence.
  - exact E.
  - split_and!; [rewrite H1; reflexivity|rewrite H2; reflexivity|].
    rewrite H3, H2; [reflexivity|]. vm_compute. congruence.
Defined.
End witnesses.
