(* ===== verification/ReceiptConservation.v ===== *)
(** * Executing a receipt creates and destroys no tokens

    The handlers of [Conservation] put together: one action, the actions of a
    receipt, the refunds, the reward of the receiver and the outgoing receipts. *)

From S2P Require Import Prelude Crates AccountId Addresses Primitives Errors Fees Borsh Wire State.
From S2P Require Import BitcoinTx RuntimeTypes AccessKeys Validation SignableMessage Verifier Actions Runtime Conservation.

(** Amounts an action carries fit their types. *)
Definition amounts_fit (p : NonDelegateAction) : Prop :=
  action_bounded p /\ match p with WithdrawFromGasKey _ amt => is_u u128_max amt | _ => True end.

(** Amounts fit, and a new gas key starts empty ([validate_add_key_action] checks it). *)
Definition sound_action (a : Action) : Prop :=
  match a with
  | Plain (AddKey k) => key_balance (ad_access_key k) = 0
  | Plain (WithdrawFromGasKey _ amt) => is_u u128_max amt
  | Plain p => is_u u128_max (get_deposit_balance (Plain p))
  | Delegate d => Forall amounts_fit (da_actions (sd_delegate_action d))
  end.

(** The configuration counts the storage burnt by global contracts. *)
Definition sound_config (ap : ApplyState) : Prop :=
  enabled IncludeDeployGlobalContractOutcomeBurntStorage (current_protocol_version ap) = true
  /\ 0 <= global_contract_storage_amount_per_byte (storage_usage_config (fees (config ap))).

Section calls.
Context {C : Crates}.
Variable action_function_call : ApplyState -> EpochInfo -> State -> Account -> Receipt ->
  ActionReceipt -> list (option (list Z)) -> ActionResult -> FunctionCallAction -> CryptoHash ->
  bool -> result (State * Account * ActionResult) RuntimeError.

(** What the execution of the function calls among [acts] promises: a call that
    succeeds accounts for its deposit. *)
Class CallsConserve (acts : list Action) : Prop := call_accounts :
  forall ap ei s acc receipt ar pr res f h last s' acc' res',
  In (Plain (FunctionCall f)) acts -> inv (r_receiver_id receipt) s (Some acc) ->
  is_u u128_max (fc_deposit f) ->
  action_function_call ap ei s acc receipt ar pr res f h last = Ok (s', acc', res') ->
  accounts_for (config ap) (ar_gas_price ar) (r_receiver_id receipt) (fc_deposit f)
    s (Some acc) res s' (Some acc') res'.

Lemma calls_conserve_cons a acts :
  CallsConserve (a :: acts) -> CallsConserve [a] /\ CallsConserve acts.
Proof.
  intros H. split; intros ap ei s acc receipt ar pr res f h last s' acc' res' Hin;
    apply (H ap ei s acc receipt ar pr res f h last); simpl in *; tauto.
Qed.

(* ------------------------------------------------------------------ *)
(** ** One action *)

(** A successful dispatch adds the deposit of the action to the ledger. *)
Lemma dispatch_accounts ap ei s o actor receipt ar pr i a res s' o' actor' res' eligible :
  let id := r_receiver_id receipt in
  sound_config ap -> CallsConserve [a] -> sound_action a -> inv id s o ->
  check_account_existence a o id (config ap) eligible = Ok tt ->
  check_actor_permissions a o actor id = Ok tt ->
  dispatch_action action_function_call ap ei s o actor receipt ar pr i a res
  = Ok (s', o', actor', res') ->
  accounts_for (config ap) (ar_gas_price ar) id (zres (action_deposit a)) s o res s' o' res'.
Proof.
  intros id [Hv Hb] Hcall Ha Hinv Hex Hperm H. unfold dispatch_action in H. fold id in H.
  destruct a as [[|code|f|d|sa|ak|pk|ben|dg|gi|ds|pk d|pk amt]|sd]; simpl in Ha, Hex.
  all: try (destruct o as [acc|]; [|done]; cbn [with_account] in H).
  all: cbn [action_deposit get_deposit_balance zres].
  - destruct o; [done|]. destruct (action_create_account _ _ _ _ _ _) as [[o1 actor1] res1] eqn:E.
    injection H as <- <- <- <-. by eapply create_account_accounts.
  - apply rbind_Ok in H as ([s1 acc1] & E & H). injection H as <- <- <- <-.
    by eapply deploy_contract_accounts.
  - apply rbind_Ok in H as ([[s1 acc1] res1] & E & H). injection H as <- <- <- <-.
    eapply Hcall; [by left|done|done|exact E].
  - apply rbind_Ok in H as ([[s1 o1] actor1] & E & H). injection H as <- <- <- <-.
    by eapply transfer_or_creation_accounts.
  - apply rbind_Ok in H as ([acc1 res1] & E & H). injection H as <- <- <- <-.
    by eapply stake_accounts.
  - apply rbind_Ok in H as ([[s1 acc1] res1] & E & H). injection H as <- <- <- <-.
    by eapply add_key_accounts.
  - apply rbind_Ok in H as ([[s1 acc1] res1] & E & H). injection H as <- <- <- <-.
    by eapply delete_key_accounts.
  - apply rbind_Ok in H as ([[[s1 o1] actor1] res1] & E & H). injection H as <- <- <- <-.
    eapply delete_account_accounts; [done| |exact E]. simpl in Hperm.
    destruct (negb _); [done|]. simpl in Hperm. by destruct (Z.eqb_spec (locked acc) 0).
  - apply rbind_Ok in H as ([[s1 acc1] res1] & E & H). injection H as <- <- <- <-.
    by eapply deploy_global_accounts.
  - apply rbind_Ok in H as ([[s1 acc1] res1] & E & H). injection H as <- <- <- <-.
    by eapply use_global_accounts.
  - apply rbind_Ok in H as ([[s1 o1] res1] & E & H). injection H as <- <- <- <-.
    by eapply deterministic_accounts.
  - apply rbind_Ok in H as ([s1 res1] & E & H). injection H as <- <- <- <-.
    by eapply to_gas_key_accounts.
  - apply rbind_Ok in H as ([[s1 acc1] res1] & E & H). injection H as <- <- <- <-.
    eapply withdraw_accounts; [apply Ha|done|exact E].
  - apply rbind_Ok in H as ([s1 res1] & E & H). injection H as <- <- <- <-.
    by eapply delegate_accounts.
Qed.

Lemma apply_action_accounts ap ei s o actor receipt ar pr i a s' o' actor' res' :
  let id := r_receiver_id receipt in
  sound_config ap -> CallsConserve [a] -> sound_action a -> inv id s o ->
  apply_action action_function_call ap ei s o actor receipt ar pr i a
  = Ok (s', o', actor', res') -> result_is_ok res' = true ->
  ledger (config ap) (ar_gas_price ar) id s' o' res' = held id s o + zres (action_deposit a)
  /\ inv id s' o'.
Proof.
  intros id Hc Hcall Ha Hinv H Hok. unfold apply_action in H.
  apply rbind_Ok in H as (e & _ & H). set (res := set_gas _ e e e) in H.
  destruct (check_account_existence _ _ _ _ _) as [[]| |] eqn:Eex; [|by injection H as <- <- <- <-|done].
  destruct (check_actor_permissions _ _ _ _) as [[]| |] eqn:Ep; [|by injection H as <- <- <- <-|done].
  destruct (dispatch_accounts ap ei s o actor receipt ar pr i a res s' o' actor' res' _
              Hc Hcall Ha Hinv Eex Ep H Hok) as [E Hinv'].
  fold id in E. split; [|done]. rewrite E. unfold ledger. simpl. lia.
Qed.

(* ------------------------------------------------------------------ *)
(** ** The actions of a receipt *)

(** Results that failed carry nothing. *)
Definition empty_on_error (res : ActionResult) : Prop :=
  result_is_ok res = false -> res_tokens_burnt res = 0 /\ res_new_receipts res = [].

Lemma merge_flow self next res :
  merge self next = Ok res ->
  result_is_ok res = result_is_ok next /\ empty_on_error res
  /\ (result_is_ok next = true ->
      res_tokens_burnt res = res_tokens_burnt self + res_tokens_burnt next
      /\ res_new_receipts res = res_new_receipts self ++ res_new_receipts next
      /\ res_gas_used res = res_gas_used self + res_gas_used next
      /\ res_gas_burnt res = res_gas_burnt self + res_gas_burnt next).
Proof.
  unfold merge. intros H. repeat (destruct (negb _); [done|]).
  apply rbind_Ok in H as (gb & Egb & H). apply rbind_Ok in H as (gf & _ & H).
  apply rbind_Ok in H as (gu & Egu & H). apply rbind_Ok in H as (cu & _ & H).
  apply map_err_Ok, ok_or_Ok, checked_add_Some in Egb as [-> _].
  apply map_err_Ok, ok_or_Ok, checked_add_Some in Egu as [-> _].
  unfold empty_on_error, result_is_ok.
  destruct (res_result next) as [[]|]; cbn zeta iota in H;
    [apply rbind_Ok in H as (tb & Etb & H);
     apply map_err_Ok, ok_or_Ok, checked_add_Some in Etb as [-> _]..|];
    injection H as <-; by split_and!.
Qed.

Lemma check_new_receipts_ok ap res res' :
  check_new_receipts ap res = Ok res' -> result_is_ok res' = true -> res' = res.
Proof.
  unfold check_new_receipts. destruct (result_is_ok res) eqn:E; [|by intros [= <-]].
  destruct (validate_new_receipts _ _); intros [= <-]; by intros.
Qed.

Lemma set_error_index_empty res i :
  empty_on_error res -> result_is_ok res = false ->
  result_is_ok (set_error_index res i) = false /\ empty_on_error (set_error_index res i).
Proof.
  unfold set_error_index, empty_on_error, result_is_ok. destruct (res_result res); [done|].
  simpl. auto.
Qed.

(** The loop over the actions either fails, and drops what it produced, or has
    added all deposits to the ledger. *)
Lemma apply_actions_accounts ap ei receipt ar pr acts :
  let id := r_receiver_id receipt in
  sound_config ap -> CallsConserve acts -> Forall sound_action acts ->
  forall s o actor i res s' o' actor' res',
  inv id s o -> result_is_ok res = true ->
  apply_actions action_function_call ap ei s o actor receipt ar pr i acts res
  = Ok (s', o', actor', res') ->
  empty_on_error res' /\
  accounts_for (config ap) (ar_gas_price ar) id (zsum (fun a => zres (action_deposit a)) acts)
    s o res s' o' res'.
Proof.
  intros id Hc. induction acts as [|a acts IH];
    intros Hcall Ha s o actor i res s' o' actor' res' Hinv Hres H; simpl in H.
  { injection H as <- <- <- <-. unfold empty_on_error, accounts_for. rewrite Hres.
    split; [done|]. intros _. simpl. split; [lia|done]. }
  apply calls_conserve_cons in Hcall as [Hcall1 Hcall].
  apply Forall_cons in Ha as [Ha1 Ha].
  apply rbind_Ok in H as ([[[s1 o1] actor1] new] & Eact & H).
  apply rbind_Ok in H as (new1 & Echk & H). apply rbind_Ok in H as (res1 & Emerge & H).
  destruct (merge_flow _ _ _ Emerge) as (Eok & Hempty & Hflow).
  destruct (result_is_ok res1) eqn:Hok1.
  2:{ injection H as <- <- <- <-. destruct (set_error_index_empty res1 i Hempty Hok1) as [E1 E2].
      split; [done|]. intros Hok. congruence. }
  symmetry in Eok. assert (new1 = new) as -> by by eapply check_new_receipts_ok.
  destruct (apply_action_accounts ap ei s o actor receipt ar pr i a s1 o1 actor1 new
              Hc Hcall1 Ha1 Hinv Eact Eok) as [E Hinv1]. fold id in E, Hinv1.
  destruct (IH Hcall Ha s1 o1 actor1 (i + 1) res1 s' o' actor' res' Hinv1 Hok1 H) as [HA HB].
  split; [done|]. intros Hok. destruct (HB Hok) as [EB Hinv']. split; [|done]. rewrite EB.
  destruct (Hflow Eok) as (F1 & F2 & F3 & F4). unfold ledger in *.
  rewrite zsum_cons, F1, F2, F3, F4, values_app. lia.
Qed.

(* ------------------------------------------------------------------ *)
(** ** Deposits of a receipt *)

Lemma deposit_nonneg a d : sound_action a -> action_deposit a = Ok d -> 0 <= d.
Proof.
  destruct a as [p|sd]; simpl; intros Ha H.
  - injection H as <-. destruct p; simpl in *; unfold is_u in *; lia.
  - apply sum_checked_Ok in H as (gs & Hgs & -> & _).
    assert (Forall (fun g => 0 <= g) gs); [|pose proof (zsum_nonneg (fun x => x) gs); naive_solver].
    induction Hgs as [|x g l gs Hx Hgs IH]; [constructor|].
    apply Forall_cons in Ha as [[[[Hx0 _] _] _] Ha]. constructor; [|auto]. by injection Hx as <-.
Qed.

Lemma total_deposit_sum acts d :
  Forall sound_action acts -> total_deposit acts = Ok d ->
  d = zsum (fun a => zres (action_deposit a)) acts /\ is_u u128_max d.
Proof.
  intros Ha H. pose proof H as H'. apply sum_checked_Ok in H' as (gs & Hgs & -> & Hle).
  assert (Hsum : forall l gs, Forall sound_action l -> Forall2 (fun a g => action_deposit a = Ok g) l gs ->
    zsum (fun x => x) gs = zsum (fun a => zres (action_deposit a)) l /\ 0 <= zsum (fun x => x) gs).
  { intros l gs' Hl. induction 1 as [|a g l gs' E _ IH]; [done|].
    apply Forall_cons in Hl as [Hl1 Hl]. destruct (IH Hl) as [E1 E2].
    rewrite !zsum_cons, E, E1. cbn [zres]. pose proof (deposit_nonneg a g Hl1 E). lia. }
  destruct (Hsum acts gs Ha Hgs) as [E1 E2]. split; [lia|]. split; [lia|].
  destruct acts; [|by apply Hle]. apply Forall2_nil_inv_l in Hgs as ->. simpl. unfold u128_max. lia.
Qed.

(* ------------------------------------------------------------------ *)
(** ** Refunds *)

(** A refund receipt is made for a positive amount only. *)
Lemma push_refund cfg res r x :
  is_u u128_max x -> receipt_value cfg r = x ->
  let res' := if 0 <? x then push_receipt res r else res in
  values cfg (res_new_receipts res') = values cfg (res_new_receipts res) + x
  /\ res_result res' = res_result res /\ res_tokens_burnt res' = res_tokens_burnt res
  /\ res_gas_burnt res' = res_gas_burnt res
  /\ res_gas_burnt_for_function_call res' = res_gas_burnt_for_function_call res.
Proof.
  intros [H0 _] Hv. destruct (Z.ltb_spec 0 x); simpl.
  - rewrite values_app. unfold values at 2. rewrite zsum_cons, Hv. simpl. by rewrite Z.add_0_r.
  - split_and!; try done. lia.
Qed.

(** The refunds of a receipt return what was prepaid and neither used nor kept as
    a penalty, and its deposits when it failed.  The price of the gas burnt plus
    the corrections for a changed gas price is the price it was bought at. *)
Lemma refund_flow cfg price receipt ar res res' g :
  0 <= ar_gas_price ar -> Forall sound_action (ar_actions ar) ->
  refund_unspent_gas_and_deposits cfg price receipt ar res = Ok (res', g) ->
  result_is_ok res' = result_is_ok res /\ res_tokens_burnt res' = res_tokens_burnt res
  /\ res_gas_burnt res' = res_gas_burnt res
  /\ res_gas_burnt_for_function_call res' = res_gas_burnt_for_function_call res
  /\ res_result res' = res_result res
  /\ values cfg (res_new_receipts res') =
       values cfg (res_new_receipts res)
       + (if result_is_ok res then 0 else zres (total_deposit (ar_actions ar)))
       + ar_gas_price ar * (prepaid_gas_of cfg (r_receiver_id receipt) (ar_actions ar)
           - (if result_is_ok res then res_gas_used res else res_gas_burnt res))
       - refund_penalty g
  /\ price * res_gas_burnt res - price_deficit g + price_surplus g
     = ar_gas_price ar * res_gas_burnt res.
Proof.
  intros Hp Ha H. unfold refund_unspent_gas_and_deposits in H.
  apply rbind_Ok in H as (D & ED & H). apply map_err_Ok in ED.
  destruct (total_deposit_sum _ _ Ha ED) as [_ HD].
  apply rbind_Ok in H as (gas & Egas & H). apply rbind_Ok in H as (send & Esend & H).
  apply rbind_Ok in H as (x1 & E1 & H). apply rbind_Ok in H as (ex & Eex & H).
  apply rbind_Ok in H as (x2 & E2 & H). apply rbind_Ok in H as (x3 & E3 & H).
  apply rbind_Ok in H as (gross & Egross & H). apply rbind_Ok in H as (pen & Epen & H).
  apply rbind_Ok in H as (net & Enet & H). apply rbind_Ok in H as (refund & Eref & H).
  apply rbind_Ok in H as (pb & Epb & H). apply rbind_Ok in H as ([def sur] & Eds & H).
  injection H as <- <-.
  apply map_err_Ok in Egas, Esend, Eex.
  apply map_err_Ok, ok_or_Ok, checked_add_Some in E1 as [-> _], E2 as [-> _], E3 as [-> _].
  apply unwrap_Ok, checked_sub_Some in Egross as [-> Hg], Enet as [-> Hn].
  apply map_err_Ok, ok_or_Ok, checked_mul_Some in Eref as [-> Hr], Epb as [-> _].
  assert (Hds : price * res_gas_burnt res - def + sur = ar_gas_price ar * res_gas_burnt res).
  { destruct (ar_gas_price ar <? price);
      apply rbind_Ok in Eds as (diff & Ediff & Eds); apply rbind_Ok in Eds as (d & Ed & Eds);
      injection Eds as <- <-; apply unwrap_Ok, checked_sub_Some in Ediff as [-> _];
      apply map_err_Ok, ok_or_Ok, checked_mul_Some in Ed as [-> _]; lia. }
  set (D' := if result_is_ok res then 0 else D).
  assert (is_u u128_max D') as HD' by (unfold D', is_u in *; destruct (result_is_ok res); lia).
  destruct (push_refund cfg res (new_balance_refund (balance_refund_receiver receipt) D') D' HD')
    as (A1 & A2 & A3 & A4 & A5); [by apply balance_refund_value|].
  set (res1 := if 0 <? D' then _ else res) in *.
  set (y := ar_gas_price ar * _) in *.
  assert (is_u u128_max y) as Hy by (unfold y, is_u in *; nia).
  destruct (push_refund cfg res1 (new_gas_refund (ar_signer_id ar) y (ar_signer_public_key ar)) y Hy)
    as (B1 & B2 & B3 & B4 & B5); [by apply gas_refund_value|].
  set (res2 := if 0 <? y then _ else res1) in *.
  unfold result_is_ok at 1. rewrite B2, A2. cbn [price_deficit price_surplus refund_penalty].
  split_and!; try done; try congruence. rewrite B1, A1. unfold D', y, prepaid_gas_of.
  rewrite ED, Egas, Esend, Eex. cbn [zres]. destruct (result_is_ok res); lia.
Qed.

(* ------------------------------------------------------------------ *)
(** ** Outgoing receipts *)

Lemma values_ext cfg l l' :
  Forall2 (fun r r' => receipt_value cfg r' = receipt_value cfg r) l l' -> values cfg l' = values cfg l.
Proof. unfold values. induction 1; simpl; congruence. Qed.

Lemma extend_output_value cfg l r r' :
  extend_output l r = Some r' -> receipt_value cfg r' = receipt_value cfg r.
Proof.
  unfold extend_output, receipt_value, versioned_receipt.
  destruct (r_receipt r); try done; by intros [= <-].
Qed.

Lemma outgoing_value cfg id ar res l :
  generate_outgoing_data id ar res = Ok l -> values cfg l = values cfg (res_new_receipts res).
Proof.
  unfold generate_outgoing_data. intros H.
  destruct (ar_output_data_receivers ar) as [|d ds]; [by injection H as <-|].
  assert (Hdata : forall data l0, l = res_new_receipts res ++
      map (fun d => mkReceipt id (dr_receiver_id d) hash_default
                      (RData (mkDataReceipt (dr_data_id d) data))) l0 ->
      values cfg l = values cfg (res_new_receipts res)).
  { clear H. intros data l0 ->. rewrite values_app.
    assert (values cfg (map (fun d => mkReceipt id (dr_receiver_id d) hash_default
                      (RData (mkDataReceipt (dr_data_id d) data))) l0) = 0) as ->; [|lia].
    induction l0; [done|exact IHl0]. }
  destruct (res_result res) as [[v|i|]|e]; try (eapply (Hdata _ (d :: ds)); symmetry; injection H; intros E; exact E).
  apply unwrap_Ok in H. unfold update_nth in H.
  destruct (res_new_receipts res !! Z.to_nat i) as [r|] eqn:Er; [|done].
  destruct (extend_output _ r) as [r'|] eqn:E; [|done]. injection H as <-.
  apply values_ext, Forall2_same_length_lookup. rewrite length_insert. split; [done|].
  intros j x y Hx Hy. apply list_lookup_insert_Some in Hy as [(<- & -> & _)|[_ Hy]]; [|congruence].
  assert (x = r) as -> by congruence. by eapply extend_output_value.
Qed.

Lemma number_receipts_value cfg ap h l : values cfg (number_receipts ap h l) = values cfg l.
Proof.
  apply values_ext. unfold number_receipts.
  apply Forall2_same_length_lookup. rewrite length_imap. split; [done|].
  intros j x y Hx Hy. rewrite list_lookup_imap, Hx in Hy. by injection Hy as <-.
Qed.

Lemma values_partition cfg (f : Receipt -> bool) l :
  values cfg (filter (fun r => f r = true) l) + values cfg (filter (fun r => f r = false) l)
  = values cfg l.
Proof.
  unfold values. induction l as [|r l IH]; [done|]. rewrite !filter_cons.
  destruct (f r); repeat case_decide; try congruence; rewrite !zsum_cons; lia.
Qed.

(* ------------------------------------------------------------------ *)
(** ** Input data, storage stake and reward *)

Lemma collect_frame s id ids s' pr :
  collect_input_data s id ids = Ok (s', pr) ->
  st_accounts s' = st_accounts s /\ st_access_keys s' = st_access_keys s.
Proof.
  revert s s' pr. induction ids as [|d ids IH]; intros s s' pr H; simpl in H.
  { by injection H as <- <-. }
  apply rbind_Ok in H as (x & _ & H). apply rbind_Ok in H as ([s1 rest] & E & H).
  injection H as <- <-. by apply IH in E.
Qed.

Lemma inv_frame id s s' o :
  st_accounts s' = st_accounts s -> st_access_keys s' = st_access_keys s -> inv id s o -> inv id s' o.
Proof.
  intros E1 E2. unfold inv, get_account, get_access_key. rewrite E1, E2. done.
Qed.

Lemma finish_accounts ap s o id res s' res' :
  (result_is_ok res = true -> inv id s o) -> empty_on_error res ->
  finish_actions ap s o id res = Ok (s', res') ->
  empty_on_error res' /\
  (result_is_ok res' = true ->
   res' = res /\ money s' = held id s o /\ inv id s' (get_account s' id)).
Proof.
  intros Hinv Hempty H. unfold finish_actions in H.
  destruct (result_is_ok res) eqn:Hok; [|injection H as <- <-; split; [done|congruence]].
  specialize (Hinv eq_refl). destruct o as [acc|].
  2:{ injection H as <- <-. split; [done|]. intros _. destruct Hinv as [E Hk].
      split_and!; [done|by rewrite held_none|]. rewrite E. done. }
  destruct (check_storage_stake _ _ _) as [[]|[lack|]|]; try done.
  - injection H as <- <-. split; [done|]. intros _. split_and!; [done|apply held_set_account|].
    by rewrite get_set_account.
  - apply rbind_Ok in H as (r & E & H). injection H as <- <-.
    destruct (merge_flow _ _ _ E) as (E1 & E2 & _). split; [done|]. by rewrite E1.
Qed.

(** What is burnt, with the corrections of the refunds, at the price of the receipt. *)
Lemma burnt_amount_flow ap receipt res g b :
  burnt_for_receipt ap receipt res g = Ok b ->
  b = gas_price ap * (if is_system (r_predecessor_id receipt) then 0 else res_gas_burnt res)
      - price_deficit g + price_surplus g + refund_penalty g + res_tokens_burnt res.
Proof.
  unfold burnt_for_receipt. intros H.
  apply rbind_Ok in H as (x1 & E1 & H). apply rbind_Ok in H as (x2 & E2 & H).
  apply rbind_Ok in H as (x3 & E3 & H). apply rbind_Ok in H as (x4 & E4 & H).
  apply map_err_Ok, ok_or_Ok, checked_mul_Some in E1 as [-> _].
  apply unwrap_Ok, checked_sub_Some in E2 as [-> _].
  apply map_err_Ok, ok_or_Ok, checked_add_Some in E3 as [-> _], E4 as [-> _], H as [-> _]. lia.
Qed.

Lemma reward_accounts u id reward burnt u' burnt' :
  inv id (su_current u) (get_account (su_current u) id) ->
  pay_receiver_reward u id reward burnt = Ok (u', burnt') ->
  money (su_current u') + burnt' = money (su_current u) + burnt
  /\ inv id (su_current u') (get_account (su_current u') id).
Proof.
  intros Hinv H. unfold pay_receiver_reward in H.
  destruct (Z.ltb_spec 0 reward); [|by injection H as <- <-].
  destruct (get_account (su_current u) id) as [acc|] eqn:Ea; [|injection H as <- <-; by rewrite Ea].
  apply rbind_Ok in H as (b & Eb & H). apply rbind_Ok in H as (x & Ex & H). injection H as <- <-.
  apply unwrap_Ok, checked_sub_Some in Eb as [-> _].
  apply map_err_Ok, ok_or_Ok, checked_add_Some in Ex as [-> Hle].
  cbn [su_commit su_put su_current]. rewrite get_set_account. split.
  - rewrite held_set_account, <- (held_start id (su_current u)), Ea.
    unfold held, account_holds, account_total. simpl. account_simpl. lia.
  - destruct Hinv. unfold inv, is_u. account_simpl. lia.
Qed.

(* ------------------------------------------------------------------ *)
(** ** A whole receipt *)

Section receipt.
Context (ap : ApplyState) (ei : EpochInfo) (receipt : Receipt) (ar : ActionReceipt) (deposit : Z).
Local Abbreviation id := (r_receiver_id receipt).
Local Abbreviation cfg := (config ap).
Hypothesis Hconfig : sound_config ap.
Hypothesis Hcalls : CallsConserve (ar_actions ar).
Hypothesis Hactions : Forall sound_action (ar_actions ar).
Hypothesis Hprice : 0 <= ar_gas_price ar.
Hypothesis Hrefund : is_system (r_predecessor_id receipt) = true -> ar_gas_price ar = 0.
Hypothesis Hdeposit : total_deposit (ar_actions ar) = Ok deposit.

(** The refunds, or the amount burnt by a refund that fails. *)
Definition settled (res res' : ActionResult) (g : GasRefundResult) (burnt : Z) : Prop :=
  result_is_ok res' = result_is_ok res
  /\ forall b, burnt_for_receipt ap receipt res' g = Ok b ->
     values cfg (res_new_receipts res') + b + burnt =
     values cfg (res_new_receipts res) + res_tokens_burnt res
     + ar_gas_price ar * (prepaid_gas_of cfg id (ar_actions ar)
         - (if result_is_ok res then res_gas_used res - res_gas_burnt res else 0))
     + (if result_is_ok res then 0 else deposit).

Lemma refund_settles res res' g :
  is_system (r_predecessor_id receipt) = false ->
  refund_unspent_gas_and_deposits cfg (gas_price ap) receipt ar res = Ok (res', g) ->
  settled res res' g 0.
Proof using Hactions Hdeposit Hprice.
  intros Hs H. apply refund_flow in H as (E1 & E2 & E3 & _ & _ & E4 & E5); [|done|done].
  split; [done|]. intros b Hb. apply burnt_amount_flow in Hb. rewrite Hs in Hb.
  rewrite Hb, E4, E2, E3, Hdeposit. cbn [zres]. destruct (result_is_ok res); lia.
Qed.

Lemma refund_receipt_settles res :
  is_system (r_predecessor_id receipt) = true ->
  settled res res gas_refund_default (if result_is_ok res then 0 else deposit).
Proof using Hrefund.
  intros Hs. split; [done|]. intros b Hb. apply burnt_amount_flow in Hb.
  rewrite Hs in Hb. rewrite Hb, (Hrefund Hs). simpl. lia.
Qed.

Lemma settle_cases res stats res' g other :
  (if is_system (r_predecessor_id receipt) then
     let? other_burnt :=
       if result_is_ok res then Ok (bs_other_burnt_amount stats)
       else
         let? d := map_err overflow_error (total_deposit (ar_actions ar)) in
         map_err overflow_error (safe_add_balance (bs_other_burnt_amount stats) d) in
     Ok (res, gas_refund_default, other_burnt)
   else
     let? (res, g) := refund_unspent_gas_and_deposits cfg (gas_price ap) receipt ar res in
     Ok (res, g, bs_other_burnt_amount stats)) = Ok (res', g, other) ->
  settled res res' g (other - bs_other_burnt_amount stats).
Proof using Hactions Hdeposit Hprice Hrefund.
  intros H. destruct (is_system (r_predecessor_id receipt)) eqn:Hs in H.
  - apply rbind_Ok in H as (ob & Eob & H). injection H as <- <- <-.
    assert (ob - bs_other_burnt_amount stats = if result_is_ok res then 0 else deposit) as ->
      ; [|by apply refund_receipt_settles].
    destruct (result_is_ok res); [injection Eob as <-; lia|].
    rewrite Hdeposit in Eob. cbn [map_err rbind] in Eob.
    apply map_err_Ok, ok_or_Ok, checked_add_Some in Eob as [-> _]. lia.
  - apply rbind_Ok in H as ([res1 g1] & E & H). injection H as <- <- <-.
    rewrite Z.sub_diag. by apply refund_settles.
Qed.

Lemma run_receipt_accounts u stats u' res g stats' b :
  inv id (su_current u) (get_account (su_current u) id) ->
  run_receipt action_function_call ap ei u receipt ar stats = Ok (u', res, g, stats') ->
  burnt_for_receipt ap receipt res g = Ok b ->
  money (su_current u') + values cfg (res_new_receipts res) + b + burnt_total stats'
  = money (su_current u) + burnt_total stats + deposit
    + ar_gas_price ar * prepaid_gas_of cfg id (ar_actions ar)
  /\ inv id (su_current u') (get_account (su_current u') id).
Proof using Hactions Hcalls Hconfig Hdeposit Hprice Hrefund.
  intros Hinv H Hb. unfold run_receipt in H.
  apply rbind_Ok in H as ([s0 pr] & Ecol & H). apply collect_frame in Ecol as [F1 F2].
  assert (Hinv0 : inv id s0 (get_account s0 id)).
  { apply (inv_frame id (su_current u)); [done..|]. unfold get_account. by rewrite F1. }
  assert (Hm0 : money s0 = money (su_current u))
    by (unfold money, total_accounts, total_gas_keys; by rewrite F1, F2).
  apply rbind_Ok in H as ([[[s1 o1] actor1] res1] & Eact & H).
  apply apply_actions_accounts in Eact as [Hempty Hacc]; [|done..].
  apply rbind_Ok in H as ([s2 res2] & Efin & H).
  apply (finish_accounts ap s1 o1 id res1 s2 res2) in Efin as [Hempty2 Hfin];
    [|intros Hok; by destruct (Hacc Hok)|done].
  apply rbind_Ok in H as ([[res3 g3] other] & Eset & H). apply settle_cases in Eset as [Eok Hset].
  apply rbind_Ok in H as (def & _ & H). injection H as <- <- <- <-.
  specialize (Hset b Hb). unfold burnt_total. cbn [bs_tx_burnt_amount bs_other_burnt_amount].
  rewrite Eok. destruct (result_is_ok res2) eqn:Hok2;
    cbn [su_commit su_rollback su_put su_current su_committed].
  - destruct (Hfin eq_refl) as (-> & Hm & Hinv2). destruct (Hacc Hok2) as [El _].
    split; [|done]. unfold ledger in El. rewrite held_start in El. simpl in El.
    destruct (total_deposit_sum _ _ Hactions Hdeposit) as [HD _]. rewrite <- HD in El. lia.
  - destruct (Hempty2 Hok2) as [E1 E2]. rewrite E1, E2 in Hset.
    change (values cfg []) with 0 in Hset.
    split; [lia|done].
Qed.
End receipt.

(** A receipt the runtime may execute: its function calls keep their promise, its
    amounts fit their types, and refunds carry no gas price. *)
Definition receipt_sound (receipt : Receipt) : Prop :=
  match versioned_receipt receipt with
  | VAction _ ar | VPromiseYield _ ar =>
      CallsConserve (ar_actions ar) /\ Forall sound_action (ar_actions ar)
      /\ 0 <= ar_gas_price ar
      /\ (is_system (r_predecessor_id receipt) = true -> ar_gas_price ar = 0)
      /\ exists d, total_deposit (ar_actions ar) = Ok d
  | _ => False
  end.

(** Tokens in the state, in the receipts produced so far, and burnt so far. *)
Definition supply (cfg : RuntimeConfig) (u : StateUpdate) (fx : Effects) : Z :=
  money (su_current u) + values cfg (fx_outgoing fx) + values cfg (fx_instant fx)
  + burnt_total (fx_stats fx).

Lemma receipt_accounts ap ei u receipt fx u' fx' out :
  let id := r_receiver_id receipt in
  sound_config ap -> receipt_sound receipt ->
  inv id (su_current u) (get_account (su_current u) id) ->
  apply_action_receipt action_function_call ap ei u receipt fx = Ok (u', fx', out) ->
  supply (config ap) u' fx' = supply (config ap) u fx + receipt_value (config ap) receipt
  /\ inv id (su_current u') (get_account (su_current u') id).
Proof.
  intros id Hc Hr Hinv H. unfold apply_action_receipt, receipt_sound, receipt_value in *.
  destruct (versioned_receipt receipt) as [rt ar|d|rt ar|d|d]; try done.
  all: destruct Hr as (Hcalls & Ha & Hp & Hs & D & HD).
  all: apply rbind_Ok in H as ([[[u1 res] g] stats] & Erun & H); apply rbind_Ok in H as (b & Eb & H).
  all: destruct (run_receipt_accounts ap ei receipt ar D Hc Hcalls Ha Hp Hs HD u (fx_stats fx) u1 res g
                   stats b Hinv Erun Eb) as [Em Hinv1].
  all: destruct (burnt_gas_reward _) as [num den].
  all: apply rbind_Ok in H as (sc & _ & H); apply rbind_Ok in H as (rg & _ & H);
       apply rbind_Ok in H as (rew & _ & H); apply rbind_Ok in H as ([u2 txb] & Erew & H);
       apply rbind_Ok in H as (tot & Etot & H); apply rbind_Ok in H as (l & El & H);
       injection H as <- <- <-.
  all: apply reward_accounts in Erew as [Erew Hinv2]; [|done].
  all: apply map_err_Ok, ok_or_Ok, checked_add_Some in Etot as [-> _].
  all: apply (outgoing_value (config ap)) in El.
  all: split; [|done]; unfold supply, burnt_total in *;
       cbn [fx_outgoing fx_instant fx_stats bs_tx_burnt_amount bs_other_burnt_amount].
  all: rewrite !values_app, HD; cbn [zres].
  all: set (n := number_receipts ap _ l);
       pose proof (values_partition (config ap)
         (is_instant_receipt (current_protocol_version ap)) n) as Hpart.
  all: unfold n in Hpart at 3; rewrite number_receipts_value in Hpart; lia.
Qed.

(** C8. Executing an action receipt creates and destroys no tokens: whatever its
    actions do, and whether they succeed or are rolled back, the tokens held by
    accounts and gas keys, those carried by the receipts sent out (deposits,
    prepaid gas, refunds) and those reported as burnt grow together by exactly
    what the receipt carried.  The receiver's record stays well formed. *)
Theorem receipt_conserves ap ei u receipt fx u' fx' out :
  let id := r_receiver_id receipt in
  sound_config ap -> receipt_sound receipt ->
  inv id (su_current u) (get_account (su_current u) id) ->
  apply_action_receipt action_function_call ap ei u receipt fx = Ok (u', fx', out) ->
  supply (config ap) u' fx' = supply (config ap) u fx + receipt_value (config ap) receipt
  /\ inv id (su_current u') (get_account (su_current u') id).
Proof. apply receipt_accounts. Qed.
End calls.

(* ------------------------------------------------------------------ *)
(** ** The theorem at a concrete receipt *)

Section witnesses.
#[local] Existing Instance Toy.crates.

(** A contract that keeps its deposit and burns 400 gas. *)
Definition sample_call (ap : ApplyState) (ei : EpochInfo) (s : State) (acc : Account)
    (receipt : Receipt) (ar : ActionReceipt) (pr : list (option (list Z))) (res : ActionResult)
    (f : FunctionCallAction) (h : CryptoHash) (last : bool)
    : result (State * Account * ActionResult) RuntimeError :=
  let? acc := storage_err (action_transfer acc (fc_deposit f)) in
  Ok (s, acc, mkActionResult (res_gas_burnt res + 400) (res_gas_burnt_for_function_call res + 400)
                (res_gas_used res + 400) (res_compute_usage res + 400) (res_result res)
                (res_logs res) (res_new_receipts res) (res_validator_proposals res)
                (res_tokens_burnt res)).

Lemma sample_calls_conserve acts : CallsConserve sample_call acts.
Proof.
  intros ap ei s acc receipt ar pr res f h last s' acc' res' _ Hinv [Hd _] H Hok.
  apply rbind_Ok in H as (acc1 & E & H). apply map_err_Ok in E. injection H as <- <- <-.
  destruct (transfer_accounts (config ap) (ar_gas_price ar) s acc res (r_receiver_id receipt)
              (fc_deposit f) acc1 Hd Hinv E Hok) as [E1 E2].
  split; [|done]. rewrite <- E1. unfold ledger. simpl. lia.
Qed.

Definition sample_apply_state : ApplyState :=
  mkApplyState 100 3 5 (Some (10 ^ 15)) 200 sample_config 0.

Definition sample_epoch_info : EpochInfo := mkEpochInfo (Ok 1000) [].

Definition sample_receipt : Receipt :=
  mkReceipt "alice.near" "bob.near" (replicate 32 9)
    (RAction {| ar_signer_id := "alice.near"; ar_signer_public_key := ED25519 (replicate 32 7);
                ar_gas_price := 7; ar_output_data_receivers := []; ar_input_data_ids := [];
                ar_actions := [Plain (FunctionCall (mkFunctionCall "m" [] 1000 30));
                               Plain (Transfer 12)] |}).

Definition sample_update : StateUpdate :=
  let s := set_account empty_state "bob.near" (account_new (10 ^ 27) 0 ContractNone 200) in
  mkStateUpdate s s.

Definition no_effects : Effects := mkEffects [] [] [] (mkBalanceStats 0 0 0).

Lemma sample_receipt_runs :
  is_ok (apply_action_receipt sample_call sample_apply_state sample_epoch_info sample_update
           sample_receipt no_effects) = true.
Proof. vm_compute. reflexivity. Qed.

Lemma receipt_conserves_witness :
  exists u fx out,
    apply_action_receipt sample_call sample_apply_state sample_epoch_info sample_update
      sample_receipt no_effects = Ok (u, fx, out)
    /\ supply sample_config u fx
       = supply sample_config sample_update no_effects + receipt_value sample_config sample_receipt.
Proof.
  destruct (is_ok_inv _ sample_receipt_runs) as ([[u fx] out] & E).
  exists u, fx, out. split; [exact E|].
  refine (proj1 (receipt_conserves sample_call sample_apply_state sample_epoch_info sample_update
                   sample_receipt no_effects u fx out _ _ _ E)).
  - split; [reflexivity|vm_compute; congruence].
  - split_and!; [apply sample_calls_conserve| |done|done|by eexists].
    repeat constructor; vm_compute; congruence.
  - change (su_current sample_update) with
      (set_account empty_state "bob.near" (account_new (10 ^ 27) 0 ContractNone 200)).
    change (r_receiver_id sample_receipt) with "bob.near"%string. rewrite get_set_account.
    split; vm_compute; congruence.
Defined.
End witnesses.
