(* ===== verification/ReceiptFrames.v ===== *)
(** * What executing a receipt leaves alone

    A receipt changes the account and the keys of its receiver only, and it does not
    touch the receipts that wait for data.  What it sends out is well typed and, after
    the validation of new receipts, sound again: it can be executed in its turn. *)

From S2P Require Import Prelude Crates AccountId Addresses Primitives Errors Fees Borsh Wire State.
From S2P Require Import BitcoinTx RuntimeTypes AccessKeys Validation SignableMessage Verifier Actions.
From S2P Require Import Runtime Conservation ReceiptConservation.

(* ------------------------------------------------------------------ *)
(** ** Frames *)

(** The columns of waiting data and receipts are the same. *)
Record waiting_same (s s' : State) : Prop := mk_waiting_same {
  ws_data : rc_received_data (st_receipts s') = rc_received_data (st_receipts s);
  ws_ids : rc_postponed_receipt_ids (st_receipts s') = rc_postponed_receipt_ids (st_receipts s);
  ws_counts : rc_pending_data_counts (st_receipts s') = rc_pending_data_counts (st_receipts s);
  ws_postponed : rc_postponed_receipts (st_receipts s') = rc_postponed_receipts (st_receipts s);
  ws_yields : rc_yield_receipts (st_receipts s') = rc_yield_receipts (st_receipts s);
}.

Lemma waiting_same_trans s1 s2 s3 : waiting_same s1 s2 -> waiting_same s2 s3 -> waiting_same s1 s3.
Proof. intros [] []. split; congruence. Qed.

(** Only the account and the keys of [id] change. *)
Record touches (id : AccountId) (s s' : State) : Prop := mk_touches {
  tc_accounts : forall j, j <> id -> get_account s' j = get_account s j;
  tc_keys : forall j pk, j <> id -> get_access_key s' j pk = get_access_key s j pk;
  tc_waiting : waiting_same s s';
}.

Lemma touches_refl id s : touches id s s.
Proof. by split. Qed.

Lemma touches_trans id s1 s2 s3 : touches id s1 s2 -> touches id s2 s3 -> touches id s1 s3.
Proof.
  intros [A1 K1 W1] [A2 K2 W2]. split.
  - intros j Hj. by rewrite A2, A1.
  - intros j pk Hj. by rewrite K2, K1.
  - by eapply waiting_same_trans.
Qed.

Create HintDb frame.
#[export] Hint Resolve touches_refl : frame.

Section steps.
Context (id : AccountId) (s s' : State) (H : touches id s s').

(** A write that keeps accounts, keys and receipts. *)
Lemma touches_rest s'' :
  st_accounts s'' = st_accounts s' -> st_access_keys s'' = st_access_keys s' ->
  st_receipts s'' = st_receipts s' -> touches id s s''.
Proof using H.
  intros E1 E2 E3. destruct H as [A K [W1 W2 W3 W4 W5]].
  split; [|intros j pk; unfold get_access_key; rewrite E2; apply K|by split; rewrite E3].
  intros j. unfold get_account. rewrite E1. apply A.
Qed.

Lemma touches_set_key pk k : touches id s (set_access_key s' id pk k).
Proof using H.
  destruct H as [A K [W1 W2 W3 W4 W5]]. split; [done| |by split].
  intros j q Hj. rewrite get_set_access_key_ne by congruence. by apply K.
Qed.

Lemma touches_remove_key pk : touches id s (remove_access_key s' id pk).
Proof using H.
  destruct H as [A K [W1 W2 W3 W4 W5]]. split; [done| |by split].
  intros j q Hj. unfold get_access_key, remove_access_key. simpl.
  rewrite lookup_delete_ne by congruence. by apply K.
Qed.

Lemma touches_set_account a : touches id s (set_account s' id a).
Proof using H.
  destruct H as [A K [W1 W2 W3 W4 W5]]. split; [|done|by split].
  intros j Hj. rewrite get_set_account_ne by done. by apply A.
Qed.

Lemma touches_remove_account : touches id s (remove_account s' id).
Proof using H.
  destruct H as [A K [W1 W2 W3 W4 W5]]. split; [| |by split].
  - intros j Hj. unfold get_account, remove_account. simpl. rewrite lookup_delete_ne by done. by apply A.
  - intros j q Hj. rewrite <- (K j q Hj). unfold get_access_key, remove_account. simpl.
    apply option_eq. intros k. rewrite map_lookup_filter_Some. naive_solver.
Qed.
End steps.
#[export] Hint Resolve touches_set_key touches_remove_key touches_set_account touches_remove_account : frame.

Lemma touches_for_nonces id s s' n f :
  touches id s s' ->
  (forall s0 i, st_accounts (f s0 i) = st_accounts s0 /\ st_access_keys (f s0 i) = st_access_keys s0
                /\ st_receipts (f s0 i) = st_receipts s0) ->
  touches id s (for_nonces n f s').
Proof.
  intros H Hf. unfold for_nonces. revert s' H. induction (seqZ 0 n) as [|i l IH]; intros s' H; [done|].
  simpl. apply IH. destruct (Hf s' i) as (E1 & E2 & E3). by apply (touches_rest id s s' H).
Qed.

(* ------------------------------------------------------------------ *)
(** ** Receipts in flight *)

Definition typed_action (a : Action) : Prop :=
  match a with
  | Plain p => amounts_fit p
  | Delegate d => Forall amounts_fit (da_actions (sd_delegate_action d))
  end.

(** The amounts of a receipt fit their types, and refunds of the system carry no gas. *)
Definition typed_receipt (r : Receipt) : Prop :=
  match versioned_receipt r with
  | VAction _ ar | VPromiseYield _ ar =>
      Forall typed_action (ar_actions ar) /\ 0 <= ar_gas_price ar
      /\ (is_system (r_predecessor_id r) = true ->
          ar_gas_price ar = 0 /\ exists d, total_deposit (ar_actions ar) = Ok d)
  | _ => True
  end.

(** What validation adds: new gas keys start empty, and a deterministic account is not
    the account of the system. *)
Definition checked_action (receiver : AccountId) (a : Action) : Prop :=
  match a with
  | Plain (AddKey k) => key_balance (ad_access_key k) = 0
  | Plain (DeterministicStateInit _) => is_system receiver = false
  | _ => True
  end.

Definition checked_receipt (r : Receipt) : Prop :=
  match versioned_receipt r with
  | VAction _ ar | VPromiseYield _ ar => Forall (checked_action (r_receiver_id r)) (ar_actions ar)
  | _ => True
  end.

Definition sound_receipt (r : Receipt) : Prop := typed_receipt r /\ checked_receipt r.

Lemma refund_typed receiver x r :
  is_u u128_max x -> r_predecessor_id r = "system"%string -> r_receiver_id r = receiver ->
  (exists id pk, r_receipt r = RAction (mkActionReceipt id pk 0 [] [] [Plain (Transfer x)])) ->
  sound_receipt r.
Proof.
  intros Hx Hp Hr (id & pk & Hb).
  assert (amounts_fit (Transfer x)) as Hfit by (by repeat split; try apply Hx).
  unfold sound_receipt, typed_receipt, checked_receipt, versioned_receipt. rewrite Hb, Hr, Hp.
  cbn [ar_actions ar_gas_price]. split; [|by apply Forall_singleton]. split_and!.
  - by apply Forall_singleton.
  - done.
  - intros _. split; [done|]. exists x. by apply total_deposit_transfer.
Qed.

Lemma balance_refund_sound id x : is_u u128_max x -> sound_receipt (new_balance_refund id x).
Proof. intros Hx. by eapply refund_typed; [exact Hx|..|do 2 eexists]. Qed.

Lemma gas_refund_sound id x pk : is_u u128_max x -> sound_receipt (new_gas_refund id x pk).
Proof. intros Hx. by eapply refund_typed; [exact Hx|..|do 2 eexists]. Qed.

Lemma distribution_sound id g : sound_receipt (new_global_contract_distribution id g).
Proof. done. Qed.

(** From [res] to [res'] only typed receipts were added. *)
Definition emits (res res' : ActionResult) : Prop :=
  exists l, res_new_receipts res' = res_new_receipts res ++ l /\ Forall typed_receipt l.

Lemma emits_same res res' : res_new_receipts res' = res_new_receipts res -> emits res res'.
Proof. intros E. exists []. by rewrite E, app_nil_r. Qed.

Lemma emits_push res res' r :
  res_new_receipts res' = res_new_receipts res -> typed_receipt r -> emits res (push_receipt res' r).
Proof. intros E Hr. exists [r]. simpl. rewrite E. split; [done|by apply Forall_singleton]. Qed.
#[export] Hint Resolve emits_same emits_push : frame.

(* ------------------------------------------------------------------ *)
(** ** Handlers *)

(** Closes a branch of a handler: failures are dropped, the rest is a chain of writes. *)
Ltac frame_branch :=
  rust_inv; simplify_eq; drop_failures; split; eauto 6 with frame.

Lemma stake_frame ei acc res id a acc' res' :
  action_stake ei acc res id a = Ok (acc', res') -> emits res res'.
Proof.
  unfold action_stake. intros H. destruct (checked_sub _ _); [|rust_inv; subst; by apply emits_same].
  destruct (_ && _); [rust_inv; subst; by apply emits_same|]. apply rbind_Ok in H as (ts & _ & H).
  destruct ts; [rust_inv; subst; by apply emits_same|].
  destruct (locked acc <? sa_stake a); rust_inv; subst; by apply emits_same.
Qed.

Lemma to_gas_key_frame s res id pk d s' res' :
  action_transfer_to_gas_key s res id pk d = Ok (s', res') -> result_is_ok res' = true ->
  touches id s s' /\ emits res res'.
Proof.
  unfold action_transfer_to_gas_key. intros H Hok.
  destruct (get_access_key s id pk) as [k|]; [|by frame_branch].
  destruct (gas_key_info k); by frame_branch.
Qed.

Lemma withdraw_frame s acc res id pk d s' acc' res' :
  action_withdraw_from_gas_key s acc res id pk d = Ok (s', acc', res') -> result_is_ok res' = true ->
  touches id s s' /\ emits res res'.
Proof.
  unfold action_withdraw_from_gas_key. intros H Hok.
  destruct (get_access_key s id pk) as [k|]; [|by frame_branch].
  destruct (gas_key_info k); [|by frame_branch]. destruct (checked_sub _ _); by frame_branch.
Qed.

Lemma add_key_frame ap s acc res id a s' acc' res' :
  action_add_key ap s acc res id a = Ok (s', acc', res') -> result_is_ok res' = true ->
  touches id s s' /\ emits res res'.
Proof.
  unfold action_add_key. intros H Hok. destruct (get_access_key s id _); [by frame_branch|].
  apply rbind_Ok in H as ([s1 acc1] & E & H). injection H as <- <- <-. split; [|by apply emits_same].
  destruct (gas_key_info (ad_access_key a)).
  - unfold add_gas_key in E. rust_inv. simplify_eq. apply touches_for_nonces; [eauto with frame|done].
  - unfold add_regular_key in E. rust_inv. simplify_eq. eauto with frame.
Qed.

Lemma delete_key_frame fcfg s acc res id pk s' acc' res' :
  action_delete_key fcfg s acc res id pk = Ok (s', acc', res') -> result_is_ok res' = true ->
  touches id s s' /\ emits res res'.
Proof.
  unfold action_delete_key. intros H Hok.
  destruct (get_access_key s id pk) as [k|]; [|by frame_branch].
  destruct (gas_key_info k) as [g|]; [|injection H as <- <- <-; split; eauto with frame].
  unfold delete_gas_key in H.
  destruct (MAX_BALANCE_TO_BURN <? gk_balance g); [by frame_branch|]. rust_inv. simplify_eq.
  split; [|by apply emits_same]. apply touches_remove_key, touches_for_nonces; [eauto with frame|done].
Qed.

Lemma delete_account_frame s acc actor receipt res id ben s' o' actor' res' :
  is_u u128_max (amount acc) ->
  action_delete_account s (Some acc) actor receipt res id ben = Ok (s', o', actor', res') ->
  result_is_ok res' = true -> touches id s s' /\ emits res res'.
Proof.
  intros Ha H Hok. unfold action_delete_account in H.
  destruct (_ <? saturating_sub _ _); [by frame_branch|].
  apply rbind_Ok in H as (t & _ & H). destruct (MAX_BALANCE_TO_BURN <? t); [by frame_branch|].
  apply rbind_Ok in H as (tb & _ & H). injection H as <- <- <- <-. split; [eauto with frame|].
  destruct (0 <? amount acc); [|by apply emits_same].
  exists [new_balance_refund ben (amount acc)]. split; [done|].
  apply Forall_singleton. by apply balance_refund_sound.
Qed.

Lemma deploy_contract_frame {C : Crates} s acc id code s' acc' :
  action_deploy_contract s acc id code = Ok (s', acc') -> touches id s s'.
Proof.
  unfold action_deploy_contract. intros H. rust_inv. simplify_eq.
  by apply (touches_rest id s s (touches_refl id s)).
Qed.

Lemma use_global_touches s acc id i res s' acc' res' :
  use_global_contract s id acc i res = Ok (s', acc', res') -> result_is_ok res' = true ->
  touches id s s' /\ res' = res.
Proof.
  unfold use_global_contract. intros H Hok. destruct (gc_code _ !! i); [|by frame_branch].
  rust_inv. simplify_eq. split; [|done].
  destruct (contract_is_local _); by apply (touches_rest id s s (touches_refl id s)).
Qed.

Lemma deploy_global_frame {C : Crates} ap s acc id a res s' acc' res' :
  action_deploy_global_contract ap s acc id a res = Ok (s', acc', res') -> result_is_ok res' = true ->
  touches id s s' /\ emits res res'.
Proof.
  unfold action_deploy_global_contract. intros H Hok.
  destruct (checked_sub _ _); [|by frame_branch].
  apply rbind_Ok in H as (r1 & E1 & H). apply rbind_Ok in H as ([s1 res1] & E2 & H). injection H as <- <- <-.
  assert (res_new_receipts r1 = res_new_receipts res) as Er.
  { destruct (enabled _ _); rust_inv; by subst. }
  unfold initiate_distribution, increment_nonce in E2.
  destruct (negb _) in E2; rust_inv; simplify_eq.
  - split; [eauto with frame|]. by apply emits_push.
  - split; [|by apply emits_push]. by apply (touches_rest id s s (touches_refl id s)).
Qed.

Lemma insert_entries_touches scfg id entries : forall s usage s' usage',
  insert_entries scfg s id usage entries = Ok (s', usage') -> touches id s s'.
Proof.
  induction entries as [|[k v] entries IH]; intros s usage s' usage' H; simpl in H; rust_inv;
    simplify_eq; [apply touches_refl|].
  eapply touches_trans; [|by eapply IH]. by apply (touches_rest id s s (touches_refl id s)).
Qed.

Lemma deploy_deterministic_touches scfg s acc id init res s' acc' res' :
  deploy_deterministic_account scfg s acc id init res = Ok (s', acc', res') ->
  result_is_ok res' = true -> touches id s s' /\ res' = res.
Proof.
  unfold deploy_deterministic_account. intros H Hok.
  apply rbind_Ok in H as ([[s1 acc1] res1] & E1 & H).
  destruct (result_is_ok res1) eqn:Er; simpl in H; [|injection H as <- <- <-; congruence].
  apply use_global_touches in E1 as [T1 ->]; [|done].
  apply rbind_Ok in H as ([s2 u2] & E2 & H). injection H as <- <- <-.
  split; [|done]. eapply touches_trans; [exact T1|by eapply insert_entries_touches].
Qed.

Lemma deterministic_touches ap s o id receipt a res s' o' res' :
  is_u u128_max (ds_deposit a) ->
  action_deterministic_state_init ap s o id receipt a res = Ok (s', o', res') ->
  result_is_ok res' = true -> touches id s s' /\ emits res res'.
Proof.
  intros [Hd0 Hd1] H Hok. unfold action_deterministic_state_init in H.
  apply rbind_Ok in H as ([[s1 acc1] res1] & E1 & H).
  destruct (result_is_ok res1) eqn:Er; simpl in H; [|injection H as <- <- <-; congruence].
  assert (touches id s s1 /\ res1 = res) as [T1 ->].
  { destruct (contract_is_none _); [by eapply deploy_deterministic_touches|].
    injection E1 as <- <- <-. eauto with frame. }
  assert (Hpush : forall x, x <= ds_deposit a -> emits res
    (if 0 <? x then push_receipt res (new_balance_refund (balance_refund_receiver receipt) x) else res)).
  { intros x Hx. destruct (Z.ltb_spec 0 x); [|by apply emits_same].
    apply emits_push; [done|]. apply balance_refund_sound. unfold is_u. lia. }
  destruct (check_storage_stake _ _ _) as [[]|[missing|]|] eqn:Ec; try done.
  - injection H as <- <- <-. split; [done|]. by apply Hpush.
  - destruct (missing <=? ds_deposit a); [|injection H as <- <- <-; drop_failures].
    assert (0 < missing) as Hpos by by eapply storage_lack_pos.
    apply rbind_Ok in H as (b & _ & H). apply rbind_Ok in H as (rest & Er' & H).
    apply unwrap_Ok, checked_sub_Some in Er' as [-> _]. injection H as <- <- <-.
    split; [done|]. apply Hpush. lia.
Qed.

Section implicit.
Context {C : Crates}.

Lemma implicit_creation_touches ap ei s id d s' o' actor' :
  action_implicit_account_creation_transfer ap ei s id d = Ok (s', o', actor') -> touches id s s'.
Proof.
  unfold action_implicit_account_creation_transfer. intros H.
  destruct (get_account_type id); try done.
  - apply rbind_Ok in H as (n & _ & H). apply rbind_Ok in H as (pk & _ & H).
    apply rbind_Ok in H as (u & _ & H). injection H as <- <- <-. eauto with frame.
  - apply rbind_Ok in H as (u & _ & H). injection H as <- <- <-.
    by apply (touches_rest id s s (touches_refl id s)).
  - injection H as <- <- <-. eauto with frame.
  - injection H as <- <- <-. eauto with frame.
Qed.

Lemma refund_allowance_touches s id pk d : touches id s (try_refund_allowance s id pk d).
Proof.
  unfold try_refund_allowance. destruct (get_access_key s id pk) as [k|]; [|eauto with frame].
  destruct (ak_permission k) as [p| | |]; try by eauto with frame.
  destruct (fcp_allowance p) as [a|]; [|eauto with frame]. destruct (_ <? _); eauto with frame.
Qed.

Lemma refund_gas_key_touches s id pk d s' b :
  try_refund_gas_key_balance s id pk d = Ok (s', b) -> touches id s s'.
Proof.
  unfold try_refund_gas_key_balance. intros H.
  destruct (get_access_key s id pk) as [k|]; [|rust_inv; simplify_eq; eauto with frame].
  destruct (gas_key_info k); rust_inv; simplify_eq; eauto with frame.
Qed.

Lemma transfer_touches ap ei s o actor d is_refund ar receipt s' o' actor' :
  action_transfer_or_implicit_account_creation ap ei s o actor d is_refund ar receipt
  = Ok (s', o', actor') -> touches (r_receiver_id receipt) s s'.
Proof.
  unfold action_transfer_or_implicit_account_creation. intros H.
  destruct o as [acc|]; [|by eapply implicit_creation_touches].
  set (gr := is_refund && _) in H. apply rbind_Ok in H as ([s1 refunded] & E1 & H).
  assert (touches (r_receiver_id receipt) s s1) as T1.
  { destruct gr; [|injection E1 as <- <-; eauto with frame].
    apply map_err_Ok in E1. by eapply refund_gas_key_touches. }
  destruct refunded; [by injection H as <- <- <-|].
  apply rbind_Ok in H as (acc1 & _ & H). injection H as <- <- <-. destruct gr; [|done].
  eapply touches_trans; [exact T1|apply refund_allowance_touches].
Qed.
End implicit.

Section delegates.
Context {C : Crates}.

Lemma delegate_key_touches ap s d res s' res' :
  validate_delegate_action_key ap s d res = Ok (s', res') -> touches (da_sender_id d) s s'.
Proof.
  unfold validate_delegate_action_key. intros H.
  destruct (get_access_key s _ _) as [k|]; [|injection H as <- <-; eauto with frame].
  destruct (da_nonce d <=? ak_nonce k); [injection H as <- <-; eauto with frame|].
  apply rbind_Ok in H as (ub & _ & H). destruct (ub <=? da_nonce d); [injection H as <- <-; eauto with frame|].
  destruct (match ak_permission _ with PermFunctionCall _ => _ | _ => _ end) as [r c].
  destruct c; injection H as <- <-; eauto with frame.
Qed.

Lemma delegate_touches ap s ar id sd res s' res' :
  is_system id = false -> 0 <= ar_gas_price ar -> typed_action (Delegate sd) ->
  apply_delegate_action ap s ar id sd res = Ok (s', res') -> result_is_ok res' = true ->
  touches id s s' /\ emits res res'.
Proof.
  intros Hid Hp Ht H Hok. unfold apply_delegate_action in H.
  apply rbind_Ok in H as (record & _ & H).
  destruct (match record with Some _ => _ | None => _ end); [injection H as <- <-; drop_failures|].
  apply rbind_Ok in H as (verified & _ & H).
  destruct verified; simpl in H; [|injection H as <- <-; drop_failures].
  destruct (_ <? block_height ap); [injection H as <- <-; drop_failures|].
  case_bool_decide as Hs; simpl in H; [|injection H as <- <-; drop_failures].
  apply rbind_Ok in H as ([s1 res1] & E1 & H).
  destruct (result_is_ok res1) eqn:Er; simpl in H; [|injection H as <- <-; congruence].
  pose proof (delegate_key_touches _ _ _ _ _ _ E1) as T1. rewrite Hs in T1.
  apply delegate_key_frame in E1 as (-> & _); [|done].
  do 6 (apply rbind_Ok in H as (? & _ & H)). injection H as <- <-. split; [done|].
  apply emits_push; [done|]. unfold typed_receipt, versioned_receipt. cbn [r_receipt ar_actions ar_gas_price r_predecessor_id].
  rewrite Hid. split_and!; [|done|done]. unfold get_actions. by apply Forall_fmap.
Qed.
End delegates.

(* ------------------------------------------------------------------ *)
(** ** The promise of function calls, and one action *)

Section calls.
Context {C : Crates}.
Variable action_function_call : ApplyState -> EpochInfo -> State -> Account -> Receipt ->
  ActionReceipt -> list (option (list Z)) -> ActionResult -> FunctionCallAction -> CryptoHash ->
  bool -> result (State * Account * ActionResult) RuntimeError.

(** What the virtual machine promises of a successful call: it accounts for its deposit,
    changes only the account and keys of the contract, leaves waiting receipts alone
    and emits typed receipts in the name of the contract. *)
Class CallsLawful : Prop := {
  calls_conserve : forall acts, CallsConserve action_function_call acts;
  calls_touch : forall ap ei s acc receipt ar pr res f h last s' acc' res',
    action_function_call ap ei s acc receipt ar pr res f h last = Ok (s', acc', res') ->
    result_is_ok res' = true -> touches (r_receiver_id receipt) s s';
  calls_emit : forall ap ei s acc receipt ar pr res f h last s' acc' res',
    is_system (r_receiver_id receipt) = false -> 0 <= ar_gas_price ar ->
    action_function_call ap ei s acc receipt ar pr res f h last = Ok (s', acc', res') ->
    result_is_ok res' = true -> emits res res';
}.
Context {L : CallsLawful}.

(** The system has no account, in the state or in the local variable. *)
Definition not_system (id : AccountId) (o : option Account) : Prop := is_system id = true -> o = None.

Lemma create_account_frame cfg o actor id pred res o' actor' res' :
  not_system id o -> action_create_account cfg o actor id pred res = (o', actor', res') ->
  result_is_ok res' = true -> not_system id o' /\ res' = res.
Proof using C.
  intros Hn H Hok. unfold action_create_account in H.
  destruct (is_top_level id && _); [injection H as <- <- <-; drop_failures|].
  destruct (negb (is_top_level id) && _) eqn:E; injection H as <- <- <-; [drop_failures|].
  split; [|done]. intros Hs. exfalso. unfold is_top_level in E. rewrite Hs in E. cbn in E.
  apply bool_decide_eq_true in Hs as ->. apply negb_false_iff in E.
  by apply sub_account_iff_parent in E.
Qed.

Lemma not_system_some id acc acc' : not_system id (Some acc) -> not_system id (Some acc').
Proof. intros H Hs. by specialize (H Hs). Qed.

Lemma not_system_id id acc : not_system id (Some acc) -> is_system id = false.
Proof. intros H. destruct (is_system id) eqn:E; [by specialize (H E)|done]. Qed.

(** Bech32 does not take the name of the system for an address. *)
Context (Hnamed : get_account_type "system" = NamedAccount).

Lemma transfer_not_system ap ei s o actor d is_refund ar receipt s' o' actor' :
  not_system (r_receiver_id receipt) o ->
  action_transfer_or_implicit_account_creation ap ei s o actor d is_refund ar receipt
  = Ok (s', o', actor') -> not_system (r_receiver_id receipt) o'.
Proof using Hnamed.
  intros Hn H. destruct o as [acc|].
  { apply not_system_id in Hn. intros Hs. congruence. }
  unfold action_transfer_or_implicit_account_creation, action_implicit_account_creation_transfer in H.
  intros Hs. exfalso. apply bool_decide_eq_true in Hs. by rewrite Hs, Hnamed in H.
Qed.

Definition steps_ok (id : AccountId) (s : State) (res : ActionResult) (s' : State)
    (o' : option Account) (res' : ActionResult) : Prop :=
  touches id s s' /\ emits res res' /\ not_system id o'.

Lemma dispatch_frame ap ei s o actor receipt ar pr i a res s' o' actor' res' eligible :
  let id := r_receiver_id receipt in
  typed_action a -> checked_action id a -> 0 <= ar_gas_price ar -> inv id s o -> not_system id o ->
  check_account_existence a o id (config ap) eligible = Ok tt ->
  dispatch_action action_function_call ap ei s o actor receipt ar pr i a res
  = Ok (s', o', actor', res') -> result_is_ok res' = true -> steps_ok id s res s' o' res'.
Proof using L Hnamed.
  intros id Ha Hc Hp Hinv Hn Hex H Hok. unfold dispatch_action in H. fold id in H. unfold steps_ok.
  destruct a as [[|code|f|d|sa|ak|pk|ben|dg|gi|ds|pk d|pk amt]|sd]; cbn [typed_action checked_action] in Ha, Hc;
    simpl in Hex.
  all: try (destruct o as [acc|]; [|done]; cbn [with_account] in H; pose proof (not_system_id id acc Hn) as Hid).
  - destruct (action_create_account _ _ _ _ _ _) as [[o1 actor1] res1] eqn:E. injection H as <- <- <- <-.
    apply create_account_frame in E as [? ->]; [|done|done]. split_and!; eauto with frame.
  - apply rbind_Ok in H as ([s1 acc1] & E & H). injection H as <- <- <- <-.
    apply deploy_contract_frame in E. split_and!; eauto using not_system_some with frame.
  - apply rbind_Ok in H as ([[s1 acc1] res1] & E & H). injection H as <- <- <- <-.
    split_and!; [by eapply calls_touch|by eapply calls_emit|by eapply not_system_some].
  - apply rbind_Ok in H as ([[s1 o1] actor1] & E & H). injection H as <- <- <- <-.
    split_and!; [by eapply transfer_touches|eauto with frame|by eapply transfer_not_system].
  - apply rbind_Ok in H as ([acc1 res1] & E & H). injection H as <- <- <- <-.
    apply stake_frame in E. split_and!; eauto using not_system_some with frame.
  - apply rbind_Ok in H as ([[s1 acc1] res1] & E & H). injection H as <- <- <- <-.
    apply add_key_frame in E as []; [|done]. split_and!; eauto using not_system_some.
  - apply rbind_Ok in H as ([[s1 acc1] res1] & E & H). injection H as <- <- <- <-.
    apply delete_key_frame in E as []; [|done]. split_and!; eauto using not_system_some.
  - apply rbind_Ok in H as ([[[s1 o1] actor1] res1] & E & H). injection H as <- <- <- <-.
    apply delete_account_frame in E as []; [|done|done]. split_and!; [done|done|by intros ?; congruence].
  - apply rbind_Ok in H as ([[s1 acc1] res1] & E & H). injection H as <- <- <- <-.
    apply deploy_global_frame in E as []; [|done]. split_and!; eauto using not_system_some.
  - apply rbind_Ok in H as ([[s1 acc1] res1] & E & H). injection H as <- <- <- <-.
    apply use_global_touches in E as [? ->]; [|done]. split_and!; eauto using not_system_some with frame.
  - apply rbind_Ok in H as ([[s1 o1] res1] & E & H). injection H as <- <- <- <-.
    apply deterministic_touches in E as []; [|by destruct Ha as [[]]|done].
    split_and!; [done|done|by intros ?; congruence].
  - apply rbind_Ok in H as ([s1 res1] & E & H). injection H as <- <- <- <-.
    apply to_gas_key_frame in E as []; [|done]. by split_and!.
  - apply rbind_Ok in H as ([[s1 acc1] res1] & E & H). injection H as <- <- <- <-.
    apply withdraw_frame in E as []; [|done]. split_and!; eauto using not_system_some.
  - apply rbind_Ok in H as ([s1 res1] & E & H). injection H as <- <- <- <-.
    by apply delegate_touches in E as [].
Qed.

Lemma typed_sound id a : typed_action a -> checked_action id a -> sound_action a.
Proof.
  destruct a as [p|d]; [|done]. destruct p; cbn [typed_action checked_action sound_action];
    intros [[Hd _] Hw] Hc; first [done|exact Hc|exact Hw|exact Hd].
Qed.

Lemma apply_action_frame ap ei s o actor receipt ar pr i a s' o' actor' res' :
  let id := r_receiver_id receipt in
  typed_action a -> checked_action id a -> 0 <= ar_gas_price ar -> inv id s o -> not_system id o ->
  apply_action action_function_call ap ei s o actor receipt ar pr i a
  = Ok (s', o', actor', res') -> result_is_ok res' = true ->
  touches id s s' /\ Forall typed_receipt (res_new_receipts res') /\ not_system id o'.
Proof using L Hnamed.
  intros id Ha Hc Hp Hinv Hn H Hok. unfold apply_action in H.
  apply rbind_Ok in H as (e & _ & H). set (res := set_gas _ e e e) in H.
  destruct (check_account_existence _ _ _ _ _) as [[]| |] eqn:Eex; [|by injection H as <- <- <- <-|done].
  destruct (check_actor_permissions _ _ _ _) as [[]| |] eqn:Ep; [|by injection H as <- <- <- <-|done].
  destruct (dispatch_frame ap ei s o actor receipt ar pr i a res s' o' actor' res' _
              Ha Hc Hp Hinv Hn Eex H Hok) as (T & (l & E & Hl) & Hn').
  split_and!; [done|by rewrite E|done].
Qed.

(* ------------------------------------------------------------------ *)
(** ** Validation makes typed receipts sound *)

Lemma derived_not_system init id :
  derive_near_deterministic_account_id (E := ActionsValidationError) init = Ok id -> is_system id = false.
Proof.
  unfold derive_near_deterministic_account_id, parse_unwrap. intros H.
  destruct (validate _); [|done..]. injection H as <-. apply bool_decide_eq_false. by intros [=].
Qed.

Lemma validate_plain_checked l p receiver v :
  validate_plain_action l p receiver v = Ok tt -> checked_action receiver (Plain p).
Proof.
  destruct p; cbn [validate_plain_action checked_action]; try done; intros H.
  - unfold validate_add_key_action in H. apply rbind_Ok in H as (? & _ & H). unfold key_balance.
    destruct (gas_key_info (ad_access_key a)) as [g|]; [|done]. apply rbind_Ok in H as (? & _ & H).
    apply rbind_Ok in H as (? & _ & H). destruct (_ || _); [done|].
    destruct (Z.eqb_spec (gk_balance g) 0); done.
  - unfold validate_deterministic_state_init in H. apply rbind_Ok in H as (? & _ & H).
    apply rbind_Ok in H as (? & _ & H). apply rbind_Ok in H as (d & Ed & H).
    apply derived_not_system in Ed. case_bool_decide; [by subst|done].
Qed.

Lemma check_actions_checked l receiver v acts : forall b,
  check_actions (validate_action l receiver v) b acts = Ok tt -> Forall (checked_action receiver) acts.
Proof.
  intros b H. apply check_actions_iff in H as (_ & _ & H).
  eapply Forall_impl; [exact H|]. intros [p|d]; [|done]. simpl. apply validate_plain_checked.
Qed.

Lemma validate_checked l r v mode : validate_receipt l r v mode = Ok tt -> checked_receipt r.
Proof.
  unfold validate_receipt, checked_receipt. intros H. do 3 (apply rbind_Ok in H as (? & _ & H)).
  destruct (versioned_receipt r) as [rt ar| |rt ar| |]; try done.
  all: unfold validate_action_receipt in H; destruct (_ <? _); [done|].
  all: apply rbind_Ok in H as (? & _ & H); apply map_err_Ok in H; unfold validate_actions, validate_actions_by in H.
  all: destruct (_ <? _); [done|]; apply rbind_Ok in H as ([] & E & _); by eapply check_actions_checked.
Qed.

Lemma validate_new_checked ap rs : validate_new_receipts ap rs = Ok tt -> Forall checked_receipt rs.
Proof.
  induction rs as [|r rs IH]; intros H; [done|]. simpl in H. apply rbind_Ok in H as ([] & E & H).
  constructor; [by eapply validate_checked|auto].
Qed.

Lemma typed_checked rs : Forall typed_receipt rs -> Forall checked_receipt rs -> Forall sound_receipt rs.
Proof. intros H1 H2. rewrite Forall_forall in *. split; auto. Qed.

(* ------------------------------------------------------------------ *)
(** ** The actions of a receipt *)

Lemma actions_frame ap ei receipt ar pr acts :
  let id := r_receiver_id receipt in
  sound_config ap -> 0 <= ar_gas_price ar ->
  Forall typed_action acts -> Forall (checked_action id) acts ->
  forall s o actor i res s' o' actor' res',
  inv id s o -> not_system id o -> Forall sound_receipt (res_new_receipts res) ->
  apply_actions action_function_call ap ei s o actor receipt ar pr i acts res
  = Ok (s', o', actor', res') ->
  Forall sound_receipt (res_new_receipts res')
  /\ (result_is_ok res' = true -> touches id s s' /\ not_system id o').
Proof using L Hnamed.
  intros id Hc Hp. induction acts as [|a acts IH];
    intros Ha Hk s o actor i res s' o' actor' res' Hinv Hn Hres H; simpl in H.
  { injection H as <- <- <- <-. split; [done|]. eauto with frame. }
  apply Forall_cons in Ha as [Ha1 Ha], Hk as [Hk1 Hk].
  apply rbind_Ok in H as ([[[s1 o1] actor1] new] & Eact & H).
  apply rbind_Ok in H as (new1 & Echk & H). apply rbind_Ok in H as (res1 & Emerge & H).
  destruct (merge_flow _ _ _ Emerge) as (Eok & Hempty & Hflow).
  destruct (result_is_ok res1) eqn:Hok1.
  2:{ injection H as <- <- <- <-. destruct (set_error_index_empty res1 i Hempty Hok1) as [E1 E2].
      rewrite (proj2 (E2 E1)). split; [done|congruence]. }
  symmetry in Eok. assert (new1 = new) as -> by by eapply check_new_receipts_ok.
  destruct (apply_action_frame ap ei s o actor receipt ar pr i a s1 o1 actor1 new
              Ha1 Hk1 Hp Hinv Hn Eact Eok) as (T1 & Ht & Hn1).
  destruct (apply_action_accounts action_function_call ap ei s o actor receipt ar pr i a s1 o1 actor1 new
              Hc (calls_conserve [a]) (typed_sound id a Ha1 Hk1) Hinv Eact Eok) as [_ Hinv1].
  assert (Forall sound_receipt (res_new_receipts new)) as Hnew.
  { apply typed_checked; [done|]. unfold check_new_receipts in Echk. rewrite Eok in Echk.
    destruct (validate_new_receipts _ _) as [[]| |] eqn:Ev; [by eapply validate_new_checked| |done].
    injection Echk as Echk. by rewrite <- Echk in Eok. }
  destruct (Hflow Eok) as (_ & F & _).
  destruct (IH Ha Hk s1 o1 actor1 (i + 1) res1 s' o' actor' res' Hinv1 Hn1) as [HA HB];
    [rewrite F; by apply Forall_app|done|]. split; [done|]. intros Hok.
  destruct (HB Hok) as [T2 Hn2]. split; [by eapply touches_trans|done].
Qed.

(* ------------------------------------------------------------------ *)
(** ** A whole receipt *)

Lemma finish_frame ap s o id res s' res' :
  (result_is_ok res = true -> not_system id o /\ inv id s o) ->
  Forall sound_receipt (res_new_receipts res) -> finish_actions ap s o id res = Ok (s', res') ->
  Forall sound_receipt (res_new_receipts res')
  /\ (result_is_ok res' = true ->
      result_is_ok res = true /\ touches id s s' /\ not_system id (get_account s' id)).
Proof.
  intros Ho Hres H. unfold finish_actions in H.
  destruct (result_is_ok res) eqn:E; [|injection H as <- <-; split; [done|congruence]].
  destruct (Ho eq_refl) as [Hn Hinv]. destruct o as [acc|].
  2:{ injection H as <- <-. destruct Hinv as [Ea _]. split; [done|]. intros _. rewrite Ea.
      split_and!; eauto with frame. }
  destruct (check_storage_stake _ _ _) as [[]|[lack|]|]; try done.
  - injection H as <- <-. split; [done|]. intros _. rewrite get_set_account. split_and!; eauto with frame.
  - apply rbind_Ok in H as (r & Em & H). injection H as <- <-.
    destruct (merge_flow _ _ _ Em) as (E1 & E2 & _). rewrite E1, (proj2 (E2 E1)). done.
Qed.

Lemma push_refund_sound res r x :
  0 <= x -> (0 < x -> sound_receipt r) -> Forall sound_receipt (res_new_receipts res) ->
  Forall sound_receipt (res_new_receipts (if 0 <? x then push_receipt res r else res)).
Proof.
  intros Hx Hr Hres. destruct (Z.ltb_spec 0 x); [|done]. simpl.
  apply Forall_app. split; [done|]. apply Forall_singleton. auto.
Qed.

Lemma refund_frame cfg price receipt ar res res' g :
  0 <= ar_gas_price ar -> Forall sound_action (ar_actions ar) ->
  Forall sound_receipt (res_new_receipts res) ->
  refund_unspent_gas_and_deposits cfg price receipt ar res = Ok (res', g) ->
  (exists d, total_deposit (ar_actions ar) = Ok d) /\ Forall sound_receipt (res_new_receipts res').
Proof.
  intros Hp Ha Hres H. unfold refund_unspent_gas_and_deposits in H.
  apply rbind_Ok in H as (D & ED & H). apply map_err_Ok in ED.
  destruct (total_deposit_sum _ _ Ha ED) as [_ HD]. split; [by eexists|].
  do 7 (apply rbind_Ok in H as (? & _ & H)). apply rbind_Ok in H as (pen & _ & H).
  apply rbind_Ok in H as (net & Enet & H). apply rbind_Ok in H as (refund & Eref & H).
  apply rbind_Ok in H as (? & _ & H). apply rbind_Ok in H as ([? ?] & _ & H). injection H as <- <-.
  apply unwrap_Ok, checked_sub_Some in Enet as [-> Hn].
  apply map_err_Ok, ok_or_Ok, checked_mul_Some in Eref as [-> Hr].
  apply push_refund_sound; [nia|intros; apply gas_refund_sound; unfold is_u; nia|].
  apply push_refund_sound; [destruct HD, (result_is_ok res); lia| |done].
  intros Hpos. apply balance_refund_sound. by destruct (result_is_ok res).
Qed.

Section receipt.
Context (ap : ApplyState) (ei : EpochInfo) (receipt : Receipt) (ar : ActionReceipt).
Local Abbreviation id := (r_receiver_id receipt).
Hypothesis Hconfig : sound_config ap.
Hypothesis Htyped : Forall typed_action (ar_actions ar).
Hypothesis Hchecked : Forall (checked_action id) (ar_actions ar).
Hypothesis Hprice : 0 <= ar_gas_price ar.

Lemma all_sound : Forall sound_action (ar_actions ar).
Proof using Htyped Hchecked.
  rewrite Forall_forall in *. intros a Ha. by apply (typed_sound id); auto.
Qed.

Lemma settle_frame price stats res res' g other :
  Forall sound_receipt (res_new_receipts res) ->
  (if is_system (r_predecessor_id receipt) then
     let? other_burnt :=
       if result_is_ok res then Ok (bs_other_burnt_amount stats)
       else
         let? d := map_err overflow_error (total_deposit (ar_actions ar)) in
         map_err overflow_error (safe_add_balance (bs_other_burnt_amount stats) d) in
     Ok (res, gas_refund_default, other_burnt)
   else
     let? (res, g) := refund_unspent_gas_and_deposits (config ap) price receipt ar res in
     Ok (res, g, bs_other_burnt_amount stats)) = Ok (res', g, other) ->
  (is_system (r_predecessor_id receipt) = false -> exists d, total_deposit (ar_actions ar) = Ok d)
  /\ Forall sound_receipt (res_new_receipts res') /\ result_is_ok res' = result_is_ok res.
Proof using Htyped Hchecked Hprice.
  intros Hres H. destruct (is_system (r_predecessor_id receipt)).
  - apply rbind_Ok in H as (? & _ & H). by injection H as <- <- <-.
  - apply rbind_Ok in H as ([r1 g1] & E & H). injection H as <- <- <-.
    pose proof (refund_flow _ _ _ _ _ _ _ Hprice all_sound E) as [? _].
    by destruct (refund_frame _ _ _ _ _ _ _ Hprice all_sound Hres E).
Qed.

(** Running a receipt: its input data are read, then only its receiver changes. *)
Lemma run_receipt_frame u stats u' res g stats' :
  inv id (su_current u) (get_account (su_current u) id) ->
  not_system id (get_account (su_current u) id) ->
  run_receipt action_function_call ap ei u receipt ar stats = Ok (u', res, g, stats') ->
  (is_system (r_predecessor_id receipt) = false -> exists d, total_deposit (ar_actions ar) = Ok d)
  /\ Forall sound_receipt (res_new_receipts res)
  /\ not_system id (get_account (su_current u') id)
  /\ exists s0 pr, collect_input_data (su_current u) id (ar_input_data_ids ar) = Ok (s0, pr)
       /\ touches id s0 (su_current u').
Proof using L Hnamed Hconfig Htyped Hchecked Hprice.
  intros Hinv Hn H. unfold run_receipt in H.
  apply rbind_Ok in H as ([s0 pr] & Ecol & H). pose proof (collect_frame _ _ _ _ _ Ecol) as [F1 F2].
  assert (Ea : get_account s0 id = get_account (su_current u) id) by (unfold get_account; by rewrite F1).
  assert (Hinv0 : inv id s0 (get_account s0 id)) by (rewrite Ea; by apply (inv_frame id (su_current u))).
  rewrite <- Ea in Hn. apply rbind_Ok in H as ([[[s1 o1] actor1] res1] & Eact & H).
  pose proof Eact as Hacc. apply apply_actions_accounts in Hacc as [_ Hacc];
    [|done|apply calls_conserve|apply all_sound|done|done].
  apply actions_frame in Eact as [Hs1 Ht1]; [|done..].
  apply rbind_Ok in H as ([s2 res2] & Efin & H).
  destruct (finish_frame ap s1 o1 id res1 s2 res2) as [Hs2 Ht2]; [|done|done|].
  { intros Hok. split; [by apply Ht1|by destruct (Hacc Hok)]. }
  apply rbind_Ok in H as ([[res3 g3] other] & Eset & H).
  apply rbind_Ok in H as (def & _ & H). injection H as <- <- <- <-.
  apply settle_frame in Eset as (HD & Hs3 & Eok); [|done]. rewrite Eok. split_and!; [done|done|..].
  all: destruct (result_is_ok res2) eqn:Hok2; cbn [su_commit su_rollback su_put su_current su_committed].
  - by apply Ht2.
  - done.
  - destruct (Ht2 eq_refl) as (Hok1 & T2 & _). destruct (Ht1 Hok1) as [T1 _].
    exists s0, pr. split; [done|by eapply touches_trans].
  - exists s0, pr. eauto with frame.
Qed.
End receipt.

(** The action receipt inside an action or yield receipt. *)
Definition action_part (r : Receipt) : option ActionReceipt :=
  match versioned_receipt r with
  | VAction _ ar | VPromiseYield _ ar => Some ar
  | _ => None
  end.

Lemma sound_receipt_ext r r' :
  r_predecessor_id r' = r_predecessor_id r -> r_receiver_id r' = r_receiver_id r ->
  match action_part r', action_part r with
  | Some ar', Some ar => ar_actions ar' = ar_actions ar /\ ar_gas_price ar' = ar_gas_price ar
  | None, _ => True
  | Some _, None => False
  end -> sound_receipt r -> sound_receipt r'.
Proof.
  intros E1 E2. unfold action_part, sound_receipt, typed_receipt, checked_receipt. rewrite E1, E2.
  destruct (versioned_receipt r'), (versioned_receipt r); try done; by intros [-> ->].
Qed.

Lemma extend_output_sound l r r' : extend_output l r = Some r' -> sound_receipt r -> sound_receipt r'.
Proof.
  unfold extend_output. intros H. apply sound_receipt_ext; destruct r as [p q h e]; destruct e; try done;
    by injection H as <-.
Qed.

Lemma outgoing_sound id ar res l :
  Forall sound_receipt (res_new_receipts res) -> generate_outgoing_data id ar res = Ok l ->
  Forall sound_receipt l.
Proof.
  intros Hres H. unfold generate_outgoing_data in H.
  destruct (ar_output_data_receivers ar) as [|d ds]; [by injection H as <-|].
  assert (Hdata : forall data, Forall sound_receipt (res_new_receipts res ++
    map (fun d => mkReceipt id (dr_receiver_id d) hash_default
                    (RData (mkDataReceipt (dr_data_id d) data))) (d :: ds))).
  { intros data. apply Forall_app. split; [done|]. by apply Forall_fmap, Forall_true. }
  destruct (res_result res) as [[v|i|]|e]; try (injection H as <-; apply Hdata).
  apply unwrap_Ok in H. unfold update_nth in H.
  destruct (res_new_receipts res !! Z.to_nat i) as [r|] eqn:Er; [|done].
  destruct (extend_output (d :: ds) r) as [r'|] eqn:E; [|done]. injection H as <-.
  apply Forall_insert; [done|]. eapply extend_output_sound; [exact E|].
  by eapply Forall_lookup_1.
Qed.

Lemma number_receipts_sound ap h l :
  Forall sound_receipt l -> Forall sound_receipt (number_receipts ap h l).
Proof.
  intros H. unfold number_receipts. apply Forall_lookup_2. intros i r.
  rewrite list_lookup_imap. destruct (l !! i) as [r0|] eqn:E; [|done]. simpl. intros [= <-].
  apply (Forall_lookup_1 _ _ _ _ H) in E. revert E. by apply sound_receipt_ext; destruct r0 as [? ? ? []].
Qed.

Lemma reward_frame u id reward burnt u' burnt' :
  not_system id (get_account (su_current u) id) ->
  pay_receiver_reward u id reward burnt = Ok (u', burnt') ->
  touches id (su_current u) (su_current u') /\ not_system id (get_account (su_current u') id).
Proof.
  intros Hn H. unfold pay_receiver_reward in H.
  destruct (0 <? reward); [|injection H as <- <-; eauto with frame].
  destruct (get_account (su_current u) id) as [acc|] eqn:Ea.
  2:{ injection H as <- <-. rewrite Ea. eauto with frame. }
  apply rbind_Ok in H as (? & _ & H). apply rbind_Ok in H as (? & _ & H). injection H as <- <-.
  cbn [su_commit su_put su_current]. rewrite get_set_account. split; [eauto with frame|].
  by eapply not_system_some.
Qed.

(** What executing a receipt does next to moving tokens. *)
Record executed (ap : ApplyState) (receipt : Receipt) (s s' : State) (outs insts : list Receipt) : Prop :=
  mk_executed {
  ex_input : exists ar s0 pr, action_part receipt = Some ar
    /\ collect_input_data s (r_receiver_id receipt) (ar_input_data_ids ar) = Ok (s0, pr)
    /\ touches (r_receiver_id receipt) s0 s';
  ex_system : not_system (r_receiver_id receipt) (get_account s' (r_receiver_id receipt));
  ex_outs : Forall sound_receipt outs;
  ex_insts : Forall (fun r => sound_receipt r /\ is_instant_receipt (current_protocol_version ap) r = true) insts;
}.

Lemma receipt_frame ap ei u receipt fx u' fx' out :
  let id := r_receiver_id receipt in
  sound_config ap -> sound_receipt receipt ->
  inv id (su_current u) (get_account (su_current u) id) ->
  not_system id (get_account (su_current u) id) ->
  apply_action_receipt action_function_call ap ei u receipt fx = Ok (u', fx', out) ->
  receipt_sound action_function_call receipt
  /\ exists outs insts, fx_outgoing fx' = fx_outgoing fx ++ outs /\ fx_instant fx' = fx_instant fx ++ insts
     /\ executed ap receipt (su_current u) (su_current u') outs insts.
Proof using L Hnamed.
  intros id Hc [Ht Hk] Hinv Hn H. unfold apply_action_receipt, typed_receipt, checked_receipt in *.
  destruct (versioned_receipt receipt) as [rt ar|d|rt ar|d|d] eqn:Ev; try done.
  all: assert (action_part receipt = Some ar) as Epart by (unfold action_part; by rewrite Ev).
  all: destruct Ht as (Ht & Hp & Hs); apply rbind_Ok in H as ([[[u1 res] g] stats] & Erun & H).
  all: destruct (run_receipt_frame ap ei receipt ar Hc Ht Hk Hp u (fx_stats fx) u1 res g stats Hinv Hn Erun)
         as (HD & Hres & Hn1 & s0 & pr & Ecol & T1).
  all: apply rbind_Ok in H as (b & _ & H); destruct (burnt_gas_reward _) as [num den].
  all: apply rbind_Ok in H as (? & _ & H); apply rbind_Ok in H as (? & _ & H);
       apply rbind_Ok in H as (rew & _ & H); apply rbind_Ok in H as ([u2 txb] & Erew & H);
       apply rbind_Ok in H as (tot & _ & H); apply rbind_Ok in H as (l & El & H);
       injection H as <- <- <-.
  all: apply reward_frame in Erew as [T2 Hn2]; [|done].
  all: apply (outgoing_sound _ _ _ _ Hres), (number_receipts_sound ap (r_receipt_id receipt)) in El.
  all: split; [unfold receipt_sound; rewrite Ev; split_and!;
    [apply calls_conserve|by apply (all_sound receipt)|done|by intros ?; apply Hs
    |destruct (is_system (r_predecessor_id receipt)); [by apply Hs|by apply HD]]|].
  all: do 2 eexists; split; [reflexivity|]; split; [reflexivity|].
  all: rewrite Forall_forall in El; split; [exists ar, s0, pr; split_and!; [done|done|by eapply touches_trans]|done|..].
  all: apply Forall_forall; intros r [Hr1 Hr2]%list_elem_of_filter; auto.
Qed.
End calls.
