(* ===== verification/Transactions.v ===== *)
(** * Processing the transactions of a chunk (runtime/src/lib.rs)

    [process_transactions]: batched validation of signatures, the caches of signer
    data filled before the loop, and the loop that registers Bitcoin keys, charges
    the signer, applies the Patoshi guard and turns a transaction into a receipt.
    Validation and prefetching run on several threads in the source; they do not
    interact, so their results are the ones of the sequential definitions here. *)

From S2P Require Import Prelude Crates AccountId Addresses Primitives Errors Fees Borsh Wire State.
From S2P Require Import BitcoinTx RuntimeTypes AccessKeys Validation Verifier Runtime.

(* ------------------------------------------------------------------ *)
(** ** Validation in batches *)

Definition MAX_BATCH_SIZE : Z := 128.

(** Number of transactions one thread validates together.  Division by zero and
    [clamp] with crossed bounds panic. *)
Definition chunk_size (num_transactions num_threads min_chunk_size : Z) : result Z unit :=
  let chunk_count_target := num_threads * 4 in
  if (chunk_count_target =? 0) || (MAX_BATCH_SIZE <? min_chunk_size) || (min_chunk_size =? 0)
  then Panic
  else
    let chunk_size := Z.min (Z.max (num_transactions / chunk_count_target) min_chunk_size)
                        MAX_BATCH_SIZE in
    Ok (chunk_size / min_chunk_size * min_chunk_size).

(** [par_chunks]: consecutive pieces of [n] elements, the last may be shorter. *)
Fixpoint par_chunks {A : Type} (fuel n : nat) (l : list A) : list (list A) :=
  match fuel, l with
  | S fuel, _ :: _ => take n l :: par_chunks fuel n (drop n l)
  | _, _ => []
  end.

Section validation.
Context {C : Crates}.

(** [ed25519_dalek::VerifyingKey::from_bytes(..).is_ok()] and the batch verifier. *)
Variable verifying_key_ok : list Z -> bool.
Variable safe_verify_batch : list (list Z) -> list (list Z) -> list (list Z) -> bool.

Definition get_batchable_signature_and_public_key (stx : SignedTransaction)
    : option (list Z * list Z) :=
  match stx_signature stx, public_key (stx_transaction stx) with
  | SigED25519 sig, ED25519 key => if verifying_key_ok key then Some (sig, key) else None
  | _, _ => None
  end.

(** The loop that collects signatures, keys and messages, and the mask of the
    transactions they come from. *)
Fixpoint collect_batch (idx : Z) (txs : list (SignedTransaction * bool))
    : list (list Z) * list (list Z) * list (list Z) * Z :=
  match txs with
  | [] => ([], [], [], 0)
  | (tx, non_expired) :: txs =>
      let '(messages, signatures, keys, mask) := collect_batch (idx + 1) txs in
      if negb non_expired then (messages, signatures, keys, mask)
      else match get_batchable_signature_and_public_key tx with
      | Some (sig, key) =>
          (stx_hash tx :: messages, sig :: signatures, key :: keys, Z.lor (Z.shiftl 1 idx) mask)
      | None => (messages, signatures, keys, mask)
      end
  end.

Definition error_of {A : Type} (m : result A InvalidTxError) : result (option InvalidTxError) unit :=
  match m with
  | Ok _ => Ok None
  | Err e => Ok (Some e)
  | Panic => Panic
  end.

Definition validate_one (cfg : RuntimeConfig) (version : Z) (valid_signatures idx : Z)
    (tx : SignedTransaction) (non_expired : bool) : result (option InvalidTxError) unit :=
  if negb non_expired then Ok (Some Expired)
  else if Z.land (Z.shiftr valid_signatures idx) 1 =? 1
  then error_of (validate_transaction_well_formed cfg tx version)
  else error_of (validate_transaction cfg tx version).

Fixpoint validate_from (cfg : RuntimeConfig) (version valid_signatures idx : Z)
    (txs : list (SignedTransaction * bool)) : result (list (option InvalidTxError)) unit :=
  match txs with
  | [] => Ok []
  | (tx, non_expired) :: txs =>
      let? v := validate_one cfg version valid_signatures idx tx non_expired in
      let? vs := validate_from cfg version valid_signatures (idx + 1) txs in
      Ok (v :: vs)
  end.

(** One chunk of transactions with their expiration flags. *)
Definition validate_chunk (cfg : RuntimeConfig) (version : Z)
    (txs : list (SignedTransaction * bool)) : result (list (option InvalidTxError)) unit :=
  let '(messages, signatures, keys, batched_tx_mask) := collect_batch 0 txs in
  let valid_signatures :=
    if safe_verify_batch messages signatures keys then batched_tx_mask else 0 in
  validate_from cfg version valid_signatures 0 txs.

Fixpoint validate_chunks (cfg : RuntimeConfig) (version : Z)
    (chunks : list (list (SignedTransaction * bool)))
    : result (list (option InvalidTxError)) unit :=
  match chunks with
  | [] => Ok []
  | c :: chunks =>
      let? vs := validate_chunk cfg version c in
      let? rest := validate_chunks cfg version chunks in
      Ok (vs ++ rest)
  end.
End validation.

(* ------------------------------------------------------------------ *)
(** ** Caches of signer data *)

Record Caches : Type := mkCaches {
  ca_accounts : gmap AccountId (option Account);
  ca_access_keys : gmap (AccountId * PublicKey) (option AccessKey);
  ca_gas_key_nonces : gmap (AccountId * PublicKey * Z) (option Z);
}.

Definition no_caches : Caches := mkCaches ∅ ∅ ∅.

(** [entry(k).or_insert_with(f)]. *)
Definition or_insert {K V : Type} `{Countable K} (k : K) (v : V) (m : gmap K V) : gmap K V :=
  match m !! k with
  | Some _ => m
  | None => <[k := v]> m
  end.

Definition prefetch_one (s : State) (c : Caches) (p : SignedTransaction * bool) : Caches :=
  let '(stx, non_expired) := p in
  if negb non_expired then c
  else
    let tx := stx_transaction stx in
    let id := signer_id tx in
    let pk := public_key tx in
    mkCaches (or_insert id (get_account s id) (ca_accounts c))
      (or_insert (id, pk) (get_access_key s id pk) (ca_access_keys c))
      (match tn_nonce_index (nonce tx) with
       | Some i => or_insert (id, pk, i) (get_gas_key_nonce s id pk i) (ca_gas_key_nonces c)
       | None => ca_gas_key_nonces c
       end).

Definition prefetch (s : State) (txs : list (SignedTransaction * bool)) : Caches :=
  fold_left (prefetch_one s) txs no_caches.

(* ------------------------------------------------------------------ *)
(** ** The processing state *)

Record TxState : Type := mkTxState {
  ts_update : StateUpdate;
  ts_caches : Caches;
  ts_local_receipts : list Receipt;
  ts_sent : list Receipt;
  ts_outcomes : list ExecutionOutcome;
  ts_stats : BalanceStats;
  ts_total_gas : Z;
  ts_total_compute : Z;
}.

Definition ts_state (ts : TxState) : State := su_current (ts_update ts).

Definition put_state (ts : TxState) (s : State) : TxState :=
  mkTxState (su_put (ts_update ts) s) (ts_caches ts) (ts_local_receipts ts) (ts_sent ts)
    (ts_outcomes ts) (ts_stats ts) (ts_total_gas ts) (ts_total_compute ts).

Definition put_caches (ts : TxState) (c : Caches) : TxState :=
  mkTxState (ts_update ts) c (ts_local_receipts ts) (ts_sent ts) (ts_outcomes ts) (ts_stats ts)
    (ts_total_gas ts) (ts_total_compute ts).

Definition put_outcomes (ts : TxState) (l : list ExecutionOutcome) : TxState :=
  mkTxState (ts_update ts) (ts_caches ts) (ts_local_receipts ts) (ts_sent ts) l (ts_stats ts)
    (ts_total_gas ts) (ts_total_compute ts).

(** [*entry = Ok(..)] for an entry that exists. *)
Definition update_entry {K V : Type} `{Countable K} (k : K) (v : V) (m : gmap K V) : gmap K V :=
  match m !! k with
  | Some _ => <[k := v]> m
  | None => m
  end.

Definition cache_access_key (c : Caches) (id : AccountId) (pk : PublicKey) (k : option AccessKey)
    : Caches :=
  mkCaches (ca_accounts c) (update_entry (id, pk) k (ca_access_keys c)) (ca_gas_key_nonces c).

(* ------------------------------------------------------------------ *)
(** ** Outcomes *)

Definition failed_with_gas_burnt (stx : SignedTransaction) (error : InvalidTxError)
    (gas_burnt tokens_burnt : Z) : ExecutionOutcome :=
  {| o_id := stx_hash stx; o_status := FailureTx error; o_logs := []; o_receipt_ids := [];
     o_gas_burnt := gas_burnt; o_compute_usage := gas_burnt; o_tokens_burnt := tokens_burnt;
     o_executor_id := signer_id (stx_transaction stx) |}.

Definition failed (stx : SignedTransaction) (error : InvalidTxError) : ExecutionOutcome :=
  failed_with_gas_burnt stx error 0 0.

Definition register_outcome (version : Z) (outcomes : list ExecutionOutcome) (o : ExecutionOutcome)
    : list ExecutionOutcome :=
  if enabled InvalidTxGenerateOutcomes version then outcomes ++ [o]
  else match o_status o with
       | SuccessReceiptId _ => outcomes ++ [o]
       | _ => outcomes
       end.

(** A transaction dropped with an error: [register_outcome] and [continue]. *)
Definition reject (ap : ApplyState) (ts : TxState) (stx : SignedTransaction) (e : InvalidTxError)
    : TxState :=
  put_outcomes ts (register_outcome (current_protocol_version ap) (ts_outcomes ts) (failed stx e)).

Section process.
Context {C : Crates}.

(* ------------------------------------------------------------------ *)
(** ** The access key of a transaction *)

Definition try_auto_register (ap : ApplyState) (ts : TxState) (stx : SignedTransaction)
    : TxState * result bool InvalidTxError :=
  let tx := stx_transaction stx in
  let '(s, r) :=
    maybe_auto_register_bitcoin_access_key (ts_state ts) (signer_id tx) (public_key tx)
      (stx_signature stx) (stx_hash stx) (block_height ap) (tn_nonce (nonce tx)) in
  (put_state ts s, r).

(** The attempt before the lookup; errors are only logged. *)
Definition register_before_lookup (ap : ApplyState) (ts : TxState) (stx : SignedTransaction)
    : result TxState RuntimeError :=
  let tx := stx_transaction stx in
  let id := signer_id tx in
  let pk := public_key tx in
  if is_bitcoin_address id then
    match ca_access_keys (ts_caches ts) !! (id, pk) with
    | Some None =>
        let '(ts, r) := try_auto_register ap ts stx in
        match r with
        | Ok true =>
            Ok (put_caches ts (cache_access_key (ts_caches ts) id pk
                                 (get_access_key (ts_state ts) id pk)))
        | Ok false | Err _ => Ok ts
        | Panic => Panic
        end
    | _ => Ok ts
    end
  else Ok ts.

(** The lookup, with a second attempt when there is still no key. *)
Definition lookup_access_key (ap : ApplyState) (ts : TxState) (stx : SignedTransaction)
    : result (TxState * (AccessKey + InvalidTxError)) RuntimeError :=
  let tx := stx_transaction stx in
  let id := signer_id tx in
  let pk := public_key tx in
  let not_found := InvalidAccessKey (AccessKeyNotFound id pk) in
  match ca_access_keys (ts_caches ts) !! (id, pk) with
  | None => Panic
  | Some (Some k) => Ok (ts, inl k)
  | Some None =>
      if is_bitcoin_address id then
        let '(ts, r) := try_auto_register ap ts stx in
        match r with
        | Ok true =>
            let reloaded_key := get_access_key (ts_state ts) id pk in
            let ts := put_caches ts (cache_access_key (ts_caches ts) id pk reloaded_key) in
            match reloaded_key with
            | Some k => Ok (ts, inl k)
            | None => Ok (ts, inr not_found)
            end
        | Ok false => Ok (ts, inr not_found)
        | Err e => Ok (ts, inr e)
        | Panic => Panic
        end
      else Ok (ts, inr not_found)
  end.

(** Verification of the charge; [inr] is a rejection.  The key comes back because
    of the legacy change to its allowance. *)
Definition charge (ap : ApplyState) (ts : TxState) (account : Account) (k : AccessKey)
    (stx : SignedTransaction) (cost : TransactionCost)
    : result ((AccessKey * TxVerdict) + InvalidTxError) RuntimeError :=
  let tx := stx_transaction stx in
  match tn_nonce_index (nonce tx) with
  | Some nonce_index =>
      match ca_gas_key_nonces (ts_caches ts) !! (signer_id tx, public_key tx, nonce_index) with
      | None => Panic
      | Some None =>
          let num_nonces := default 0 (gk_num_nonces <$> gas_key_info k) in
          Ok (inr (InvalidNonceIndex (Some nonce_index) num_nonces))
      | Some (Some current_nonce) =>
          match verify_and_charge_gas_key_tx_ephemeral (config ap) account k current_nonce tx cost
                  (Some (block_height ap)) with
          | Ok v => Ok (inl (k, v))
          | _ => Panic
          end
      end
  | None =>
      match verify_and_charge_tx_ephemeral (config ap) account k tx cost (Some (block_height ap))
              (current_protocol_version ap) with
      | Ok p => Ok (inl p)
      | _ => Panic
      end
  end.

(* ------------------------------------------------------------------ *)
(** ** Effects of a charged transaction *)

(** The end of the loop body.  When the total of burnt tokens overflows the
    transaction is dropped here, without an outcome. *)
Definition finish_tx (ap : ApplyState) (ts : TxState) (stx : SignedTransaction) (account : Account)
    (k : AccessKey) (r : VerificationResult) (o : ExecutionOutcome) : result TxState RuntimeError :=
  let tx := stx_transaction stx in
  let id := signer_id tx in
  let pk := public_key tx in
  let c := ts_caches ts in
  match safe_add_balance (bs_tx_burnt_amount (ts_stats ts)) (o_tokens_burnt o) with
  | Panic => Panic
  | Err _ => Ok ts
  | Ok new_balance =>
      let stats := mkBalanceStats new_balance (bs_other_burnt_amount (ts_stats ts))
                     (bs_gas_deficit_amount (ts_stats ts)) in
      let? gas := map_err overflow_error
                    (ok_or (checked_add u64_max (ts_total_gas ts) (o_gas_burnt o)) IntegerOverflow) in
      let? compute := map_err overflow_error
                        (safe_add_compute (ts_total_compute ts) (o_compute_usage o)) in
      match vr_apply r account k with
      | Ok (account, k) =>
          let s := set_account (ts_state ts) id account in
          let '(s, nonces) :=
            match gas_key_nonce_update r with
            | Some (i, n) => (set_gas_key_nonce s id pk i n,
                              update_entry (id, pk, i) (Some n) (ca_gas_key_nonces c))
            | None => (s, ca_gas_key_nonces c)
            end in
          let s := set_access_key s id pk k in
          Ok (mkTxState (su_commit (su_put (ts_update ts) s))
                (mkCaches (<[id := Some account]> (ca_accounts c))
                   (update_entry (id, pk) (Some k) (ca_access_keys c)) nonces)
                (ts_local_receipts ts) (ts_sent ts) (ts_outcomes ts ++ [o]) stats gas compute)
      | _ => Panic
      end
  end.

(** The Patoshi guard: [inr] is a rejection, otherwise the state with the record of
    a scheduled unlock. *)
Definition patoshi_guard (ap : ApplyState) (ts : TxState) (stx : SignedTransaction)
    (account : Account) (r : VerificationResult) : result (TxState + InvalidTxError) RuntimeError :=
  let tx := stx_transaction stx in
  let id := signer_id tx in
  match get_patoshi_record (ts_state ts) id with
  | Panic => Panic
  | Err e => Err (RtStorageError e)
  | Ok None => Ok (inl ts)
  | Ok (Some record) =>
      let? post_tx_total_balance :=
        map_err overflow_error
          (ok_or (checked_add u128_max (vr_new_account_amount r) (locked account)) IntegerOverflow) in
      match validate_locked_patoshi_transaction id (receiver_id tx) (actions tx)
              post_tx_total_balance (epoch_height ap) (current_protocol_version ap) record with
      | Panic => Panic
      | Err e => Ok (inr e)
      | Ok _ =>
          let '(record, scheduled) :=
            maybe_schedule_patoshi_unlock record (receiver_id tx) (actions tx) (epoch_height ap) in
          match scheduled with
          | Some _ => Ok (inl (put_state ts (set_patoshi_record (ts_state ts) id record)))
          | None => Ok (inl ts)
          end
      end
  end.

Definition tx_receipt (ap : ApplyState) (stx : SignedTransaction) (r : VerificationResult) : Receipt :=
  let tx := stx_transaction stx in
  receipt_from_tx (create_receipt_id_from_transaction (stx_hash stx) (block_height ap))
    (signer_id tx) (receiver_id tx) (public_key tx) (vr_receipt_gas_price r) (actions tx).

Definition success_outcome (stx : SignedTransaction) (receipt : Receipt) (r : VerificationResult)
    : ExecutionOutcome :=
  {| o_id := stx_hash stx; o_status := SuccessReceiptId (r_receipt_id receipt); o_logs := [];
     o_receipt_ids := [r_receipt_id receipt]; o_gas_burnt := vr_gas_burnt r;
     o_compute_usage := vr_gas_burnt r; o_tokens_burnt := vr_burnt_amount r;
     o_executor_id := signer_id (stx_transaction stx) |}.

(** Local receipts wait for this chunk; others go to the sink. *)
Definition emit (ts : TxState) (id : AccountId) (receipt : Receipt) : TxState :=
  if bool_decide (r_receiver_id receipt = id)
  then mkTxState (ts_update ts) (ts_caches ts) (ts_local_receipts ts ++ [receipt]) (ts_sent ts)
         (ts_outcomes ts) (ts_stats ts) (ts_total_gas ts) (ts_total_compute ts)
  else mkTxState (ts_update ts) (ts_caches ts) (ts_local_receipts ts) (ts_sent ts ++ [receipt])
         (ts_outcomes ts) (ts_stats ts) (ts_total_gas ts) (ts_total_compute ts).

Definition settle (ap : ApplyState) (ts : TxState) (stx : SignedTransaction) (account : Account)
    (k : AccessKey) (cost : TransactionCost) (v : TxVerdict) : result TxState RuntimeError :=
  match v with
  | Failed e => Ok (reject ap ts stx e)
  | DepositFailed r e =>
      let? total_gas := map_err overflow_error
                          (checked_add_result (gas_burnt cost) (gas_remaining cost)) in
      finish_tx ap ts stx account k r (failed_with_gas_burnt stx e total_gas (gas_cost cost))
  | Success r =>
      let? g := patoshi_guard ap ts stx account r in
      match g with
      | inr e => Ok (reject ap ts stx e)
      | inl ts =>
          let receipt := tx_receipt ap stx r in
          finish_tx ap (emit ts (signer_id (stx_transaction stx)) receipt) stx account k r
            (success_outcome stx receipt r)
      end
  end.

(** One iteration of the loop. *)
Definition process_transaction (ap : ApplyState) (ts : TxState) (stx : SignedTransaction)
    (validation_error : option InvalidTxError) : result TxState RuntimeError :=
  match validation_error with
  | Some e => Ok (reject ap ts stx e)
  | None =>
      let tx := stx_transaction stx in
      match tx_cost (config ap) tx (gas_price ap) with
      | Panic => Panic
      | Err _ => Ok (reject ap ts stx CostOverflow)
      | Ok cost =>
          match ca_accounts (ts_caches ts) !! signer_id tx with
          | None => Panic
          | Some None => Ok (reject ap ts stx (InvalidSignerId (signer_id tx)))
          | Some (Some account) =>
              let? ts := register_before_lookup ap ts stx in
              let? (ts, key) := lookup_access_key ap ts stx in
              match key with
              | inr e => Ok (reject ap ts stx e)
              | inl k =>
                  let? v := charge ap ts account k stx cost in
                  match v with
                  | inr e => Ok (reject ap ts stx e)
                  | inl (k, v) => settle ap ts stx account k cost v
                  end
              end
          end
      end
  end.

Fixpoint process_all (ap : ApplyState) (ts : TxState)
    (txs : list (SignedTransaction * option InvalidTxError)) : result TxState RuntimeError :=
  match txs with
  | [] => Ok ts
  | (stx, e) :: txs =>
      let? ts := process_transaction ap ts stx e in
      process_all ap ts txs
  end.
End process.

(** [process_transactions] for transactions with their expiration flags; the
    receipts and outcomes already in [ts] stay in front. *)
Definition process_transactions {C : Crates} (verifying_key_ok : list Z -> bool)
    (safe_verify_batch : list (list Z) -> list (list Z) -> list (list Z) -> bool)
    (num_threads min_chunk_size : Z) (ap : ApplyState) (ts : TxState)
    (txs : list (SignedTransaction * bool)) : result TxState RuntimeError :=
  match chunk_size (vec_len txs) num_threads min_chunk_size with
  | Ok size =>
      match validate_chunks verifying_key_ok safe_verify_batch (config ap)
              (current_protocol_version ap) (par_chunks (length txs) (Z.to_nat size) txs) with
      | Ok validations =>
          process_all ap (put_caches ts (prefetch (ts_state ts) txs)) (zip (map fst txs) validations)
      | _ => Panic
      end
  | _ => Panic
  end.
