(* ===== verification/TransactionProofs.v ===== *)
(** * Properties of transaction processing

    Batched validation agrees with one-by-one validation; the caches agree with the
    state; no tokens are created or lost; nonces only grow; locked Patoshi accounts
    keep their floor. *)

From S2P Require Import Prelude Crates AccountId Addresses Primitives Errors Fees Borsh Wire State.
From S2P Require Import BitcoinTx RuntimeTypes AccessKeys Validation Verifier Runtime Conservation.
From S2P Require Import Transactions.

(* ------------------------------------------------------------------ *)
(** ** Batched validation *)

Section batches.
Context {C : Crates}.
Variable verifying_key_ok : list Z -> bool.
Variable safe_verify_batch : list (list Z) -> list (list Z) -> list (list Z) -> bool.

(** What batch verification promises: it accepts only if every signature of the
    batch verifies. *)
Definition batch_sound : Prop := forall ms ss ks,
  safe_verify_batch ms ss ks = true ->
  forall i m s k, ms !! i = Some m -> ss !! i = Some s -> ks !! i = Some k ->
  verify_ed25519 s m k = true.

(** Validation one by one. *)
Fixpoint validate_each (cfg : RuntimeConfig) (version : Z) (txs : list (SignedTransaction * bool))
    : result (list (option InvalidTxError)) unit :=
  match txs with
  | [] => Ok []
  | (tx, non_expired) :: txs =>
      let? v := if non_expired then error_of (validate_transaction cfg tx version)
                else Ok (Some Expired) in
      let? vs := validate_each cfg version txs in
      Ok (v :: vs)
  end.

(** A bit of the mask stands for a signature of the batch. *)
Lemma mask_bit txs : forall idx j ms ss ks mask,
  collect_batch verifying_key_ok idx txs = (ms, ss, ks, mask) -> 0 <= idx ->
  Z.testbit mask j = true ->
  exists n tx b sig key p, j = idx + Z.of_nat n /\ txs !! n = Some (tx, b)
    /\ stx_signature tx = SigED25519 sig /\ public_key (stx_transaction tx) = ED25519 key
    /\ ms !! p = Some (stx_hash tx) /\ ss !! p = Some sig /\ ks !! p = Some key.
Proof.
  induction txs as [|[tx b] txs IH]; intros idx j ms ss ks mask H Hidx Hbit; simpl in H.
  { injection H as <- <- <- <-. by rewrite Z.bits_0 in Hbit. }
  destruct (collect_batch _ (idx + 1) txs) as [[[ms1 ss1] ks1] mask1] eqn:E.
  assert (Hrest : Z.testbit mask1 j = true ->
    exists n tx' b' sig key p, j = idx + Z.of_nat n /\ ((tx, b) :: txs) !! n = Some (tx', b')
    /\ stx_signature tx' = SigED25519 sig /\ public_key (stx_transaction tx') = ED25519 key
    /\ ms1 !! p = Some (stx_hash tx') /\ ss1 !! p = Some sig /\ ks1 !! p = Some key).
  { intros Hb. destruct (IH (idx + 1) j ms1 ss1 ks1 mask1 E) as (n & tx' & b' & sig & key & p & -> & H1);
      [lia|done|]. exists (S n), tx', b', sig, key, p. split; [lia|exact H1]. }
  destruct b; simpl in H; [|injection H as <- <- <- <-; by apply Hrest].
  unfold get_batchable_signature_and_public_key in H.
  destruct (stx_signature tx) as [sig|] eqn:Es, (public_key (stx_transaction tx)) as [key|] eqn:Ek;
    try (injection H as <- <- <- <-; by apply Hrest).
  destruct (verifying_key_ok key); [|injection H as <- <- <- <-; by apply Hrest].
  injection H as <- <- <- <-. rewrite Z.lor_spec in Hbit. apply orb_true_iff in Hbit as [Hbit|Hbit].
  - rewrite Z.shiftl_1_l, Z.pow2_bits_eqb in Hbit by done. apply Z.eqb_eq in Hbit as <-.
    exists 0%nat, tx, true, sig, key, 0%nat. split_and!; try done. lia.
  - destruct (Hrest Hbit) as (n & tx' & b' & sig' & key' & p & -> & H1).
    by exists n, tx', b', sig', key', (S p).
Qed.

Lemma mask_test v idx : 0 <= idx -> (Z.land (Z.shiftr v idx) 1 =? 1) = Z.testbit v idx.
Proof.
  intros H. change 1 with (Z.ones 1) at 1. rewrite Z.land_ones by lia. change (2 ^ 1) with 2.
  rewrite <- Z.bit0_mod, Z.shiftr_spec, Z.add_0_l by lia. by destruct (Z.testbit v idx).
Qed.

Lemma verified_transaction cfg tx version :
  sig_verify (stx_signature tx) (stx_hash tx) (public_key (stx_transaction tx)) = true ->
  error_of (validate_transaction_well_formed cfg tx version)
  = error_of (validate_transaction cfg tx version).
Proof.
  intros H. unfold validate_transaction_well_formed, validate_transaction, validated_transaction_new.
  destruct (validate_transaction_actions _ _ _); simpl; try done.
  destruct (check_valid_for_config _ _ _); simpl; try done. by rewrite H.
Qed.

(** A mask whose bits stand for verified signatures does not change the result. *)
Lemma validate_from_each cfg version v : forall txs idx, 0 <= idx ->
  (forall n tx b, txs !! n = Some (tx, b) -> Z.testbit v (idx + Z.of_nat n) = true ->
   sig_verify (stx_signature tx) (stx_hash tx) (public_key (stx_transaction tx)) = true) ->
  validate_from cfg version v idx txs = validate_each cfg version txs.
Proof.
  induction txs as [|[tx b] txs IH]; intros idx Hidx Hv; simpl; [done|].
  rewrite IH; [|lia|].
  2:{ intros n tx' b' Hn Hb. apply (Hv (S n) tx' b' Hn). by replace (idx + Z.of_nat (S n))
        with (idx + 1 + Z.of_nat n) by lia. }
  f_equal. unfold validate_one. destruct b; simpl; [|done]. rewrite mask_test by done.
  destruct (Z.testbit v idx) eqn:E; [|done]. apply verified_transaction.
  apply (Hv 0%nat tx true eq_refl). by rewrite Z.add_0_r.
Qed.

Lemma validate_each_app cfg version l1 l2 :
  validate_each cfg version (l1 ++ l2) =
  let? v1 := validate_each cfg version l1 in
  let? v2 := validate_each cfg version l2 in Ok (v1 ++ v2).
Proof.
  induction l1 as [|[tx b] l1 IH]; simpl.
  { by destruct (validate_each cfg version l2). }
  destruct (if b then _ else _); simpl; try done. rewrite IH.
  destruct (validate_each cfg version l1); simpl; try done.
  by destruct (validate_each cfg version l2).
Qed.

Lemma validate_chunks_each cfg version chunks :
  batch_sound ->
  validate_chunks verifying_key_ok safe_verify_batch cfg version chunks
  = validate_each cfg version (concat chunks).
Proof.
  intros Hb. induction chunks as [|c chunks IH]; simpl; [done|].
  rewrite validate_each_app, <- IH. f_equal. unfold validate_chunk.
  destruct (collect_batch _ 0 c) as [[[ms ss] ks] mask] eqn:E.
  apply validate_from_each; [done|]. intros n tx b Hn Hbit.
  destruct (safe_verify_batch ms ss ks) eqn:Ev; [|by rewrite Z.bits_0 in Hbit].
  destruct (mask_bit c 0 (0 + Z.of_nat n) _ _ _ _ E)
    as (n' & tx' & b' & sig & key & p & Hj & Hn' & Hs & Hk & H1 & H2 & H3); [done|done|].
  assert (n' = n) as -> by lia. assert (tx' = tx) as -> by congruence.
  rewrite Hs, Hk. simpl. by apply (Hb ms ss ks Ev p).
Qed.

Lemma chunk_size_bounds n threads min size :
  0 <= n -> 0 <= threads -> 0 <= min -> chunk_size n threads min = Ok size -> 1 <= size <= MAX_BATCH_SIZE.
Proof.
  intros Hn Ht Hm. unfold chunk_size. destruct (_ || _) eqn:E; [done|]. intros [= <-].
  apply orb_false_iff in E as [[E1 E2]%orb_false_iff E3].
  apply Z.eqb_neq in E1, E3. apply Z.ltb_ge in E2. unfold MAX_BATCH_SIZE in *.
  set (c := Z.min _ 128). assert (min <= c <= 128) by lia. clearbody c.
  Z.to_euclidean_division_equations. nia.
Qed.

Lemma par_chunks_concat {A} n (l : list A) : forall fuel,
  (0 < n)%nat -> (length l <= fuel)%nat -> concat (par_chunks fuel n l) = l.
Proof.
  intros fuel Hn. revert l. induction fuel as [|fuel IH]; intros l Hl; destruct l as [|x l]; try done.
  { simpl in Hl. lia. }
  cbn [par_chunks concat]. rewrite IH; [apply take_drop|].
  rewrite length_drop. simpl in *. lia.
Qed.

Lemma par_chunks_length {A} n (l : list A) fuel :
  Forall (fun c => (length c <= n)%nat) (par_chunks fuel n l).
Proof.
  revert l. induction fuel as [|fuel IH]; intros l; destruct l as [|x l]; try constructor; [|apply IH].
  rewrite length_take. lia.
Qed.

Lemma mask_bound txs : forall idx ms ss ks mask,
  collect_batch verifying_key_ok idx txs = (ms, ss, ks, mask) -> 0 <= idx ->
  0 <= mask < 2 ^ (idx + Z.of_nat (length txs)).
Proof.
  induction txs as [|[tx b] txs IH]; intros idx ms ss ks mask H Hidx; cbn [collect_batch] in H.
  { injection H as _ _ _ <-. split; [done|]. apply Z.pow_pos_nonneg; simpl; lia. }
  destruct (collect_batch _ (idx + 1) txs) as [[[ms1 ss1] ks1] mask1] eqn:E.
  apply IH in E; [|lia].
  replace (idx + Z.of_nat (length ((tx, b) :: txs))) with (idx + 1 + Z.of_nat (length txs))
    by (simpl; lia).
  destruct (negb b); [by injection H as <- <- <- <-|].
  destruct (get_batchable_signature_and_public_key _ _) as [[sig key]|];
    [|by injection H as <- <- <- <-]. injection H as _ _ _ <-.
  set (w := idx + 1 + Z.of_nat (length txs)) in *. assert (0 <= Z.lor (Z.shiftl 1 idx) mask1).
  { apply Z.lor_nonneg. rewrite Z.shiftl_nonneg. lia. }
  split; [done|]. destruct (Z.eq_dec (Z.lor (Z.shiftl 1 idx) mask1) 0) as [->|Hne]; [lia|].
  apply Z.log2_lt_pow2; [lia|]. rewrite Z.log2_lor by (rewrite ?Z.shiftl_nonneg; lia).
  rewrite Z.shiftl_1_l, Z.log2_pow2 by lia. apply Z.max_lub_lt; [lia|].
  destruct (Z.eq_dec mask1 0) as [->|]; [simpl; lia|]. apply Z.log2_lt_pow2; lia.
Qed.

(** Verifying signatures in batches changes nothing.  With the pieces the
    transactions of a chunk are divided into, each piece fits the 128-bit mask that
    records which signatures the batch covers, and the errors recorded are those of
    expired transactions and of validating each of the others on its own.  The
    batch verifier is only trusted not to accept a batch with a bad signature. *)
Theorem batched_validation_agrees cfg version txs threads min size :
  batch_sound -> 0 <= threads -> 0 <= min -> chunk_size (vec_len txs) threads min = Ok size ->
  let pieces := par_chunks (length txs) (Z.to_nat size) txs in
  Forall (fun c => is_u u128_max (collect_batch verifying_key_ok 0 c).2) pieces
  /\ validate_chunks verifying_key_ok safe_verify_batch cfg version pieces
     = validate_each cfg version txs.
Proof.
  intros Hb Ht Hm Hs. apply chunk_size_bounds in Hs; [|unfold vec_len; lia|done..].
  cbv zeta. split.
  - eapply Forall_impl; [apply par_chunks_length|]. intros c Hc. simpl in Hc.
    destruct (collect_batch _ 0 c) as [[[ms ss] ks] mask] eqn:E. apply mask_bound in E as [H1 H2]; [|done].
    unfold MAX_BATCH_SIZE in Hs. simpl. split; [done|]. rewrite Z.add_0_l in H2.
    assert (2 ^ Z.of_nat (length c) <= 2 ^ 128) by (apply Z.pow_le_mono_r; lia).
    unfold u128_max. lia.
  - rewrite validate_chunks_each by done. rewrite par_chunks_concat; [done|lia..].
Qed.
End batches.

(* ------------------------------------------------------------------ *)
(** ** Costs are not negative *)

(** Fees are unsigned integers. *)
Definition fees_nonneg (cfg : RuntimeConfig) : Prop := forall c sir,
  0 <= send_fee (action_fees (fees cfg) c) sir /\ 0 <= fee_exec (action_fees (fees cfg) c).

Section costs.
Context {C : Crates} (cfg : RuntimeConfig).
Hypothesis Hfees : fees_nonneg cfg.

Lemma base_plus_bytes_nonneg base byte n x :
  0 <= base -> 0 <= byte -> 0 <= n -> base_plus_bytes base byte n = Ok x -> 0 <= x.
Proof. unfold base_plus_bytes. intros. rust_inv. nia. Qed.

Lemma sum_checked_nonneg {A} mx (f : A -> result Z IntegerOverflowError) l : forall acc s,
  Forall (fun a => forall x, f a = Ok x -> 0 <= x) l -> 0 <= acc ->
  sum_checked mx f acc l = Ok s -> 0 <= s.
Proof.
  induction l as [|a l IH]; intros acc s Hl Hacc H; simpl in H.
  { by injection H as <-. }
  apply rbind_Ok in H as (d & Ed & H). apply rbind_Ok in H as (acc' & Ea & H).
  apply ok_or_Ok, checked_add_Some in Ea as [-> _]. apply Forall_cons in Hl as [Ha Hl].
  eapply IH; [exact Hl| |exact H]. specialize (Ha d Ed). lia.
Qed.

Lemma method_names_bytes_nonneg l : 0 <= method_names_bytes l.
Proof. induction l; simpl; unfold str_len in *; lia. Qed.
Lemma len_bytes_nonneg d : 0 <= len_bytes d.
Proof.
  unfold len_bytes. assert (H : forall acc, 0 <= acc -> 0 <= fold_left
    (fun acc (kv : list Z * list Z) => acc + vec_len kv.1 + vec_len kv.2) (si_data d) acc); [|auto with lia].
  induction (si_data d) as [|[k v] l IH]; intros acc Hacc; simpl; [done|].
  apply IH. unfold vec_len. lia.
Qed.
Lemma identifier_len_nonneg i : 0 <= global_contract_identifier_len i.
Proof. destruct i; simpl; unfold str_len; lia. Qed.

Lemma transfer_fees_nonneg sir eth t x :
  transfer_send_fee (fees cfg) sir eth t = Ok x \/ transfer_exec_fee (fees cfg) eth t = Ok x -> 0 <= x.
Proof using Hfees.
  pose proof (Hfees c_transfer sir). pose proof (Hfees c_create_account sir).
  pose proof (Hfees c_add_full_access_key sir).
  intros [Hx|Hx]; destruct eth, t; simpl in Hx; rust_inv; subst; lia.
Qed.

Lemma permission_fees_nonneg p sir x :
  permission_send_fees p (fees cfg) sir = Ok x \/ permission_exec_fees p (fees cfg) = Ok x -> 0 <= x.
Proof using Hfees.
  pose proof (Hfees c_add_function_call_key_base sir). pose proof (Hfees c_add_function_call_key_byte sir).
  pose proof (Hfees c_add_full_access_key sir).
  intros [Hx|Hx]; destruct p; simpl in Hx;
    try (eapply base_plus_bytes_nonneg; [..|exact Hx]; [tauto|tauto|apply method_names_bytes_nonneg]);
    injection Hx as <-; tauto || lia.
Qed.

Lemma plain_fees_nonneg sir rid a x :
  plain_send_fee cfg sir rid a = Ok x \/ plain_exec_fee cfg rid a = Ok x -> 0 <= x.
Proof using Hfees.
  assert (Hf : forall c, 0 <= send_fee (action_fees (fees cfg) c) sir) by (intros c; apply (Hfees c sir)).
  assert (He : forall c, 0 <= fee_exec (action_fees (fees cfg) c)) by (intros c; apply (Hfees c sir)).
  assert (Hlen : forall A (l : list A), 0 <= vec_len l) by (unfold vec_len; lia).
  assert (Hstr : forall s, 0 <= str_len s) by (unfold str_len; lia).
  pose proof len_bytes_nonneg. pose proof identifier_len_nonneg.
  intros [Hx|Hx]; destruct a; simpl in Hx;
    try (injection Hx as <-; done);
    try (by apply (transfer_fees_nonneg sir (eth_implicit_accounts cfg) (get_account_type rid)); auto);
    try (by apply (permission_fees_nonneg (ak_permission (ad_access_key a)) sir); auto);
    try (eapply base_plus_bytes_nonneg; [..|exact Hx]; auto using Z.add_nonneg_nonneg).
  all: apply rbind_Ok in Hx as (y & Ey & Hx); apply rbind_Ok in Hx as (z & Ez & Hx);
    apply unwrap_Ok, checked_mul_Some in Ey as [-> _]; apply unwrap_Ok, checked_add_Some in Hx as [-> _];
    apply base_plus_bytes_nonneg in Ez; auto; apply Z.add_nonneg_nonneg; auto using Z.mul_nonneg_nonneg.
Qed.
Lemma total_send_nonneg sir acts rid x : total_send_fees cfg sir acts rid = Ok x -> 0 <= x.
Proof using Hfees.
  apply sum_checked_nonneg; [|done]. apply Forall_forall. intros [a|d] _ y Hy.
  - apply (plain_fees_nonneg sir rid a). by left.
  - simpl in Hy. apply rbind_Ok in Hy as (z & Ez & Hy).
    apply unwrap_Ok, checked_add_Some in Hy as [-> _].
    apply sum_checked_nonneg in Ez; [|apply Forall_forall; intros a _ w Hw|done].
    + pose proof (proj1 (Hfees c_delegate sir)). lia.
    + apply (plain_fees_nonneg sir (da_receiver_id (sd_delegate_action d)) a). by left.
Qed.

Lemma prepaid_send_nonneg acts x : total_prepaid_send_fees cfg acts = Ok x -> 0 <= x.
Proof using Hfees.
  apply sum_checked_nonneg; [|done]. apply Forall_forall. intros [a|d] _ y Hy.
  - by injection Hy as <-.
  - by eapply total_send_nonneg.
Qed.

Lemma prepaid_exec_nonneg acts rid x : total_prepaid_exec_fees cfg acts rid = Ok x -> 0 <= x.
Proof using Hfees.
  apply sum_checked_nonneg; [|done]. apply Forall_forall. intros [a|d] _ y Hy; simpl in Hy.
  - apply (plain_fees_nonneg true rid a). by right.
  - apply rbind_Ok in Hy as (z & Ez & Hy). apply rbind_Ok in Hy as (w & Ew & Hy).
    apply ok_or_Ok, checked_add_Some in Ew as [-> _], Hy as [-> _].
    apply sum_checked_nonneg in Ez; [|apply Forall_forall; intros a _ w Hw|done].
    + pose proof (Hfees c_delegate true). pose proof (Hfees c_new_action_receipt true). lia.
    + apply (plain_fees_nonneg true (da_receiver_id (sd_delegate_action d)) a). by right.
Qed.

(** The parts of a cost, and what the receipt of the transaction carries. *)
Lemma cost_parts tx price cost :
  0 <= price -> Forall action_bounded (flatten (actions tx)) -> tx_cost cfg tx price = Ok cost ->
  0 <= burnt_amount cost <= gas_cost cost /\ 0 <= deposit_cost cost
  /\ total_cost cost = gas_cost cost + deposit_cost cost
  /\ receipt_gas_price cost = price
  /\ forall id pk h, receipt_value cfg (receipt_from_tx h id (receiver_id tx) pk price (actions tx))
                    = total_cost cost - burnt_amount cost.
Proof using Hfees.
  intros Hp Hb H. apply calculate_tx_cost_Ok in H as (send & prepaid & psend & pexec & H1 & H2 & H3 & H4
    & Hd & Hgb & Hgr & Hpr & Hba & Hgc & Htc & _). cbn zeta in *.
  pose proof (total_send_nonneg _ _ _ _ H1). pose proof (prepaid_send_nonneg _ _ H3).
  pose proof (prepaid_exec_nonneg _ _ _ H4).
  assert (0 <= prepaid).
  { rewrite total_prepaid_gas_spec in H2 by done. cbn zeta in H2. destruct (_ <=? _); [|done].
    injection H2 as <-. apply zsum_nonneg. eapply Forall_impl; [exact Hb|]. intros a [_ [? _]]. done. }
  assert (0 <= deposit_cost cost).
  { rewrite total_deposit_spec in Hd by done. cbn zeta in Hd. destruct (_ <=? _); [|done].
    injection Hd as <-. apply zsum_nonneg. eapply Forall_impl; [exact Hb|]. intros a [[? _] _]. done. }
  set (sir := bool_decide _) in *.
  pose proof (Hfees c_new_action_receipt sir) as [? ?].
  split_and!; try done; try nia.
  intros id pk h. unfold receipt_value, versioned_receipt, receipt_from_tx, prepaid_gas_of.
  cbn [r_receipt ar_actions ar_gas_price r_receiver_id]. rewrite Hd, H2, H3, H4. cbn [zres].
  rewrite Htc, Hgc, Hba, Hgr. lia.
Qed.

End costs.

(* ------------------------------------------------------------------ *)
(** ** What registration may change *)

(** Only access keys change; the keys that were there keep their gas balance, their
    nonces do not shrink, and only the one at [(id, pk)] may differ; new keys hold
    no gas. *)
Record key_frame (s s' : State) (id : AccountId) (pk : PublicKey) : Prop := mkKeyFrame {
  kf_accounts : st_accounts s' = st_accounts s;
  kf_nonces : st_gas_key_nonces s' = st_gas_key_nonces s;
  kf_data : st_contract_data s' = st_contract_data s;
  kf_receipts : st_receipts s' = st_receipts s;
  kf_total : total_gas_keys s' = total_gas_keys s;
  kf_other : forall id' pk' k, (id', pk') <> (id, pk) ->
    get_access_key s id' pk' = Some k -> get_access_key s' id' pk' = Some k;
  kf_grow : forall id' pk' k, get_access_key s id' pk' = Some k ->
    exists k', get_access_key s' id' pk' = Some k' /\ ak_nonce k <= ak_nonce k';
  kf_balance : forall id' pk' k', get_access_key s' id' pk' = Some k' ->
    key_balance k' = default 0 (key_balance <$> get_access_key s id' pk');
}.

Lemma key_frame_refl s id pk : key_frame s s id pk.
Proof. split; try done; [by eauto with lia|]. by intros id' pk' k' ->. Qed.

Lemma key_frame_trans s1 s2 s3 id pk :
  key_frame s1 s2 id pk -> key_frame s2 s3 id pk -> key_frame s1 s3 id pk.
Proof.
  intros A B. split; try (etrans; [apply B|apply A]).
  - intros id' pk' k Hne Hk. by apply (kf_other _ _ _ _ B), (kf_other _ _ _ _ A).
  - intros id' pk' k Hk. apply (kf_grow _ _ _ _ A) in Hk as (k1 & Hk1 & ?).
    apply (kf_grow _ _ _ _ B) in Hk1 as (k2 & ? & ?). exists k2. split; [done|lia].
  - intros id' pk' k3 Hk3. rewrite (kf_balance _ _ _ _ B _ _ _ Hk3).
    destruct (get_access_key s2 id' pk') as [k2|] eqn:E; simpl.
    + by apply (kf_balance _ _ _ _ A).
    + destruct (get_access_key s1 id' pk') as [k1|] eqn:E1; [|done].
      apply (kf_grow _ _ _ _ A) in E1 as (? & ? & _). congruence.
Qed.

(** Writing a key at [(id', q)]: a fresh one, or the old one with a larger nonce. *)
Lemma key_frame_set s id pk q k :
  (get_access_key s id q = None /\ key_balance k = 0
   \/ q = pk /\ exists k0 n, get_access_key s id q = Some k0 /\ k = set_nonce k0 n /\ ak_nonce k0 <= n) ->
  key_frame s (set_access_key s id q k) id pk.
Proof.
  intros H.
  assert (Hb : key_balance k = default 0 (key_balance <$> get_access_key s id q)).
  { destruct H as [[-> ->]|(_ & k0 & n & -> & -> & _)]; [done|]. simpl.
    unfold key_balance. by rewrite gas_key_info_set_nonce. }
  split; try done.
  - rewrite total_gas_keys_set, Hb. lia.
  - intros id' pk' k' Hne Hk. destruct (decide ((id, q) = (id', pk'))) as [[= <- <-]|Hne'].
    + destruct H as [[H _]|[-> _]]; congruence.
    + by rewrite get_set_access_key_ne.
  - intros id' pk' k' Hk. destruct (decide ((id, q) = (id', pk'))) as [[= <- <-]|Hne'].
    + rewrite get_set_access_key. exists k. split; [done|].
      destruct H as [[H _]|(_ & k0 & n & H & -> & Hn)]; [congruence|].
      rewrite H in Hk. injection Hk as <-. by destruct k0.
    + rewrite get_set_access_key_ne by done. eauto with lia.
  - intros id' pk' k' Hk. destruct (decide ((id, q) = (id', pk'))) as [[= <- <-]|Hne'].
    + rewrite get_set_access_key in Hk. injection Hk as <-. done.
    + rewrite get_set_access_key_ne in Hk by done. by rewrite Hk.
Qed.

Section registration.
Context {C : Crates}.

Lemma register_frame sig msg id s s' r pk :
  is_bitcoin_address id = true ->
  verify_and_register_bitcoin_transaction sig msg id s = Ok (s', r) ->
  key_frame s s' id pk /\ (forall k, r = (true, Some k) -> get_access_key s' id k <> None).
Proof.
  unfold verify_and_register_bitcoin_transaction. intros -> H.
  apply rbind_Ok in H as ([rk addr] & _ & H). destruct rk as [|key]; [by rust_inv|].
  destruct (negb _); [injection H as <- <-; split; [apply key_frame_refl|done]|].
  unfold auto_register_access_key_if_needed in H.
  destruct (get_access_key s id (SECP256K1 key)) as [k|] eqn:E; injection H as <- <-.
  - split; [apply key_frame_refl|]. intros k' [= <-]. congruence.
  - split; [apply key_frame_set; by left|]. intros k' [= <-]. by rewrite get_set_access_key.
Qed.
Lemma auto_register_frame s id pk sig h bh n s' r :
  maybe_auto_register_bitcoin_access_key s id pk sig h bh n = (s', r) ->
  key_frame s s' id pk /\ (r = Ok true -> get_access_key s' id pk <> None).
Proof.
  unfold maybe_auto_register_bitcoin_access_key. intros H.
  destruct (is_bitcoin_address id) eqn:Ei; simpl in H;
    [|injection H as <- <-; split; [apply key_frame_refl|done]].
  destruct (verify_and_register_bitcoin_transaction sig h id s) as [[s1 [valid key]]| |] eqn:E;
    [|injection H as <- <-; split; [apply key_frame_refl|done]..].
  destruct (register_frame _ _ _ _ _ _ pk Ei E) as [Hf Hk].
  destruct valid; simpl in H; [|by injection H as <- <-].
  destruct key as [key|]; [|by injection H as <- <-].
  case_bool_decide; simpl in H; [|by injection H as <- <-]. subst key.
  destruct (get_access_key s1 id pk) as [k|] eqn:Ek; [|by apply Hk in Ek].
  destruct (initial_nonce_value _) as [floor| |]; [|by injection H as <- <-..].
  set (m := Z.min floor _) in H.
  destruct (Z.ltb_spec (ak_nonce k) m); injection H as <- <-; [|split; [done|congruence]].
  split; [|by rewrite get_set_access_key].
  eapply key_frame_trans; [exact Hf|]. apply key_frame_set. right. split; [done|].
  exists k, m. split_and!; [done|done|lia].
Qed.
End registration.

(* ------------------------------------------------------------------ *)
(** ** The caches agree with the state *)

Record coherent (ts : TxState) : Prop := mkCoherent {
  co_account : forall id o, ca_accounts (ts_caches ts) !! id = Some o ->
    get_account (ts_state ts) id = o;
  co_key : forall id pk k, ca_access_keys (ts_caches ts) !! (id, pk) = Some (Some k) ->
    get_access_key (ts_state ts) id pk = Some k;
  co_nonce : forall id pk i o, ca_gas_key_nonces (ts_caches ts) !! (id, pk, i) = Some o ->
    get_gas_key_nonce (ts_state ts) id pk i = o;
}.

(** [ts1] is [ts] after keys of [id] may have been registered. *)
Record registered (ts ts1 : TxState) (id : AccountId) (pk : PublicKey) : Prop := mkRegistered {
  rg_frame : key_frame (ts_state ts) (ts_state ts1) id pk;
  rg_accounts : ca_accounts (ts_caches ts1) = ca_accounts (ts_caches ts);
  rg_rest : ts_local_receipts ts1 = ts_local_receipts ts /\ ts_sent ts1 = ts_sent ts
    /\ ts_outcomes ts1 = ts_outcomes ts /\ ts_stats ts1 = ts_stats ts;
  rg_keys : forall q k, ca_access_keys (ts_caches ts) !! q = Some (Some k) ->
    ca_access_keys (ts_caches ts1) !! q = Some (Some k);
  rg_nonces : ca_gas_key_nonces (ts_caches ts1) = ca_gas_key_nonces (ts_caches ts);
}.

Lemma registered_refl ts id pk : registered ts ts id pk.
Proof. split; [apply key_frame_refl|done..]. Qed.

Lemma registered_trans ts1 ts2 ts3 id pk :
  registered ts1 ts2 id pk -> registered ts2 ts3 id pk -> registered ts1 ts3 id pk.
Proof.
  intros [A1 A2 (A3 & A4 & A5 & A6) A7 A8] [B1 B2 (B3 & B4 & B5 & B6) B7 B8].
  split; [by eapply key_frame_trans|congruence|split_and!; congruence|auto|congruence].
Qed.

Lemma update_entry_lookup {K V} `{Countable K} (k k' : K) (v w : V) (m : gmap K V) :
  update_entry k v m !! k' = Some w -> (k' = k /\ w = v) \/ (k' <> k /\ m !! k' = Some w).
Proof.
  unfold update_entry. destruct (m !! k) eqn:E.
  - intros [[<- <-]|[? ?]]%lookup_insert_Some; auto.
  - intros. right. split; [congruence|done].
Qed.

Section process.
Context {C : Crates}.

(** Registration when the cache holds no key: everything cached stays right. *)
Lemma register_coherent ap ts stx ts1 r :
  let tx := stx_transaction stx in
  let id := signer_id tx in
  let pk := public_key tx in
  coherent ts -> ca_access_keys (ts_caches ts) !! (id, pk) = Some None ->
  try_auto_register ap ts stx = (ts1, r) ->
  registered ts ts1 id pk /\ coherent ts1
  /\ let ts2 := put_caches ts1 (cache_access_key (ts_caches ts1) id pk
                                  (get_access_key (ts_state ts1) id pk)) in
     registered ts ts2 id pk /\ coherent ts2
     /\ (r = Ok true -> exists k, get_access_key (ts_state ts1) id pk = Some k
          /\ ca_access_keys (ts_caches ts2) !! (id, pk) = Some (Some k)).
Proof.
  intros tx id pk [Ha Hk Hn] Hc H. unfold try_auto_register in H. fold tx id pk in H.
  destruct (maybe_auto_register_bitcoin_access_key _ _ _ _ _ _ _) as [s1 r1] eqn:E.
  injection H as <- <-. apply auto_register_frame in E as [Hf Hr].
  assert (Hco : forall c, ca_accounts c = ca_accounts (ts_caches ts) ->
    ca_gas_key_nonces c = ca_gas_key_nonces (ts_caches ts) ->
    (forall i q k, ca_access_keys c !! (i, q) = Some (Some k) -> (i, q) = (id, pk) ->
       get_access_key s1 i q = Some k) ->
    (forall i q o, ca_access_keys c !! (i, q) = Some o -> (i, q) <> (id, pk) ->
       ca_access_keys (ts_caches ts) !! (i, q) = Some o) ->
    coherent (put_caches (put_state ts s1) c)).
  { intros c E1 E2 E3 E4. split; simpl.
    - intros i o. rewrite E1. unfold get_account, ts_state. simpl. rewrite (kf_accounts _ _ _ _ Hf).
      apply Ha.
    - intros i q k Hq. destruct (decide ((i, q) = (id, pk))) as [Heq|Hne]; [by apply E3|].
      apply (kf_other _ _ _ _ Hf); [done|]. by apply Hk, E4.
    - intros i q j o. rewrite E2. unfold get_gas_key_nonce, ts_state. simpl.
      rewrite (kf_nonces _ _ _ _ Hf). apply Hn. }
  cbv zeta. split_and!; [by split| | | |].
  - apply (Hco (ts_caches ts)); [done..| |done]. intros i q k Hq [= -> ->]. congruence.
  - split; try done. intros q k Hq. simpl. unfold update_entry. rewrite Hc.
    rewrite lookup_insert_ne; [done|]. intros <-. congruence.
  - apply Hco; [done..| |]; simpl.
    + intros i q k [[_ Hq]|[Hne _]]%update_entry_lookup [= -> ->]; done.
    + by intros i q o [[? _]|[_ ?]]%update_entry_lookup Hne.
  - intros Hok. destruct (get_access_key s1 id pk) as [k|] eqn:Ek; [|by destruct (Hr Hok)].
    exists k. split; [done|]. simpl. unfold update_entry. rewrite Hc.
    rewrite lookup_insert_eq. unfold ts_state. simpl. by rewrite Ek.
Qed.

Lemma find_key_spec ap ts stx ts0 ts1 key :
  let tx := stx_transaction stx in
  coherent ts -> register_before_lookup ap ts stx = Ok ts0 ->
  lookup_access_key ap ts0 stx = Ok (ts1, key) ->
  registered ts ts1 (signer_id tx) (public_key tx) /\ coherent ts1
  /\ forall k, key = inl k ->
     ca_access_keys (ts_caches ts1) !! (signer_id tx, public_key tx) = Some (Some k).
Proof.
  intros tx Hco H0 H1.
  assert (A0 : registered ts ts0 (signer_id tx) (public_key tx) /\ coherent ts0).
  { unfold register_before_lookup in H0. fold tx in H0.
    destruct (is_bitcoin_address _); [|injection H0 as <-; auto using registered_refl].
    destruct (ca_access_keys (ts_caches ts) !! _) as [[k|]|] eqn:Ec;
      try (injection H0 as <-; auto using registered_refl).
    destruct (try_auto_register ap ts stx) as [ts' r] eqn:Er.
    destruct (register_coherent ap ts stx ts' r Hco Ec Er) as (A & B & A' & B' & _).
    destruct r as [[]| |]; try done; by injection H0 as <-. }
  destruct A0 as [Hr0 Hco0]. unfold lookup_access_key in H1. fold tx in H1.
  destruct (ca_access_keys (ts_caches ts0) !! _) as [[k|]|] eqn:Ec; [| |done].
  { injection H1 as <- <-. split_and!; [done|done|]. by intros k' [= <-]. }
  destruct (is_bitcoin_address _); [|by injection H1 as <- <-].
  destruct (try_auto_register ap ts0 stx) as [ts' r] eqn:Er.
  destruct (register_coherent ap ts0 stx ts' r Hco0 Ec Er) as (A & B & A' & B' & Hk). cbv zeta in *.
  fold tx in Hk, A', B'.
  assert (T : forall t, registered ts0 t (signer_id tx) (public_key tx) ->
    registered ts t (signer_id tx) (public_key tx)) by (intros; by eapply registered_trans).
  destruct r as [[]| |]; try done;
    try (injection H1 as <- <-; split_and!; [by apply T|done|by intros]).
  destruct (Hk eq_refl) as (k & Hk1 & Hk2). rewrite Hk1 in H1. injection H1 as <- <-.
  rewrite Hk1 in A', B', Hk2. split_and!; [by apply T|done|]. by intros k' [= <-].
Qed.

(* ------------------------------------------------------------------ *)
(** ** The end of the loop body *)

(** State after a charge. *)
Definition charged_state (s : State) (id : AccountId) (pk : PublicKey) (account : Account)
    (k : AccessKey) (upd : option (Z * Z)) : State :=
  let s := set_account s id account in
  let s := match upd with Some (i, n) => set_gas_key_nonce s id pk i n | None => s end in
  set_access_key s id pk k.

Lemma finish_cases ap ts stx account k r o ts' :
  let tx := stx_transaction stx in
  let id := signer_id tx in
  let pk := public_key tx in
  finish_tx ap ts stx account k r o = Ok ts' ->
  (ts' = ts /\ u128_max < bs_tx_burnt_amount (ts_stats ts) + o_tokens_burnt o)
  \/ exists account' k',
    vr_apply r account k = Ok (account', k')
    /\ bs_tx_burnt_amount (ts_stats ts) + o_tokens_burnt o <= u128_max
    /\ ts_state ts' = charged_state (ts_state ts) id pk account' k' (gas_key_nonce_update r)
    /\ ts_caches ts' = mkCaches (<[id := Some account']> (ca_accounts (ts_caches ts)))
         (update_entry (id, pk) (Some k') (ca_access_keys (ts_caches ts)))
         (match gas_key_nonce_update r with
          | Some (i, n) => update_entry (id, pk, i) (Some n) (ca_gas_key_nonces (ts_caches ts))
          | None => ca_gas_key_nonces (ts_caches ts)
          end)
    /\ ts_local_receipts ts' = ts_local_receipts ts /\ ts_sent ts' = ts_sent ts
    /\ ts_outcomes ts' = ts_outcomes ts ++ [o]
    /\ ts_stats ts' = mkBalanceStats (bs_tx_burnt_amount (ts_stats ts) + o_tokens_burnt o)
         (bs_other_burnt_amount (ts_stats ts)) (bs_gas_deficit_amount (ts_stats ts)).
Proof.
  intros tx id pk H. unfold finish_tx in H. fold tx id pk in H.
  destruct (safe_add_balance _ _) as [nb| |] eqn:Eb; [..|done].
  2:{ injection H as <-. left. split; [done|]. unfold safe_add_balance, checked_add in Eb.
      destruct (Z.leb_spec (bs_tx_burnt_amount (ts_stats ts) + o_tokens_burnt o) u128_max); [done|lia]. }
  apply ok_or_Ok, checked_add_Some in Eb as [-> Hle]. right.
  apply rbind_Ok in H as (gas & _ & H). apply rbind_Ok in H as (comp & _ & H).
  destruct (vr_apply r account k) as [[account' k']| |]; try done. exists account', k'.
  unfold charged_state. destruct (gas_key_nonce_update r) as [[i n]|]; injection H as <-; by split_and!.
Qed.

Lemma charged_money s id pk account k account' k' upd :
  get_account s id = Some account -> get_access_key s id pk = Some k ->
  money (charged_state s id pk account' k' upd)
  = money s + (account_total account' - account_total account) + (key_balance k' - key_balance k).
Proof.
  intros Ha Hk. unfold charged_state, money.
  set (s1 := match upd with Some _ => _ | None => _ end).
  assert (total_accounts (set_access_key s1 id pk k') = total_accounts (set_account s id account')) as ->
    by (unfold s1; by destruct upd as [[]|]).
  rewrite total_gas_keys_set, total_accounts_set, Ha.
  assert (get_access_key s1 id pk = get_access_key s id pk) as -> by (unfold s1; by destruct upd as [[]|]).
  assert (total_gas_keys s1 = total_gas_keys s) as -> by (unfold s1; by destruct upd as [[]|]).
  rewrite Hk. simpl. lia.
Qed.

Lemma charged_coherent ts ts' id pk account' k' upd :
  coherent ts ->
  ts_state ts' = charged_state (ts_state ts) id pk account' k' upd ->
  ts_caches ts' = mkCaches (<[id := Some account']> (ca_accounts (ts_caches ts)))
    (update_entry (id, pk) (Some k') (ca_access_keys (ts_caches ts)))
    (match upd with
     | Some (i, n) => update_entry (id, pk, i) (Some n) (ca_gas_key_nonces (ts_caches ts))
     | None => ca_gas_key_nonces (ts_caches ts)
     end) ->
  coherent ts'.
Proof.
  intros [Ha Hk Hn] Es Ec. split; rewrite Es, Ec; simpl.
  - intros i o [[<- <-]|[Hne Hi]]%lookup_insert_Some.
    + unfold charged_state. destruct upd as [[]|]; apply lookup_insert_eq.
    + rewrite <- (Ha i o Hi). unfold charged_state.
      destruct upd as [[]|]; by apply (lookup_insert_ne (st_accounts (ts_state ts))).
  - intros i q k [[[= -> ->] [= ->]]|[Hne Hi]]%update_entry_lookup; [apply get_set_access_key|].
    unfold charged_state. rewrite get_set_access_key_ne by congruence.
    rewrite <- (Hk i q k Hi). by destruct upd as [[]|].
  - intros i q j o Hj. unfold charged_state. destruct upd as [[i0 n]|]; [|by apply Hn].
    apply update_entry_lookup in Hj as [[[= -> -> ->] ->]|[Hne Hj]]; [apply lookup_insert_eq|].
    rewrite <- (Hn i q j o Hj). by apply (lookup_insert_ne (st_gas_key_nonces (ts_state ts))).
Qed.

(** What a charge does to account and key: together they lose [paid], and neither
    becomes negative. *)
Record pays (account account' : Account) (k k' : AccessKey) (paid : Z) : Prop := mkPays {
  py_total : account_total account' + key_balance k' = account_total account + key_balance k - paid;
  py_amount : 0 <= amount account -> 0 <= amount account';
  py_locked : locked account' = locked account;
  py_balance : 0 <= key_balance k';
}.

(** How the nonce of a charged transaction moves. *)
Definition nonce_moves (ts : TxState) (stx : SignedTransaction) (k k' : AccessKey)
    (upd : option (Z * Z)) : Prop :=
  let tx := stx_transaction stx in
  match tn_nonce_index (nonce tx) with
  | None => upd = None /\ ak_nonce k < tn_nonce (nonce tx) /\ ak_nonce k' = tn_nonce (nonce tx)
  | Some i =>
      upd = Some (i, tn_nonce (nonce tx)) /\ ak_nonce k' = ak_nonce k
      /\ exists cur, cur < tn_nonce (nonce tx)
         /\ ca_gas_key_nonces (ts_caches ts) !! (signer_id tx, public_key tx, i) = Some (Some cur)
  end.

(** The effect of a verdict that charges: [paid] is what the signer loses. *)
Definition charges (ts : TxState) (stx : SignedTransaction) (account : Account) (k k1 : AccessKey)
    (cost : TransactionCost) (r : VerificationResult) (paid : Z) : Prop :=
  vr_burnt_amount r = burnt_amount cost /\ vr_receipt_gas_price r = receipt_gas_price cost
  /\ exists account' k', vr_apply r account k1 = Ok (account', k')
     /\ vr_new_account_amount r = amount account'
     /\ pays account account' k k' paid /\ nonce_moves ts stx k k' (gas_key_nonce_update r).

Lemma charged_key_nonce k n c :
  gas_key_info k = None -> ak_nonce (charged_key k n c) = n /\ key_balance (charged_key k n c) = 0.
Proof.
  unfold charged_key, allowance_of, key_balance. destruct k as [m []]; simpl; try done.
  by destruct (fcp_allowance p).
Qed.

Lemma charge_no_deposit_failure cfg account k tx cost bh v k' r e :
  verify_and_charge_tx_ephemeral cfg account k tx cost bh v = Ok (k', DepositFailed r e) -> False.
Proof.
  unfold verify_and_charge_tx_ephemeral. intros H. repeat split_match H.
Qed.

Lemma charge_spec ap ts account k stx cost k1 v :
  total_cost cost = gas_cost cost + deposit_cost cost -> charge ap ts account k stx cost = Ok (inl (k1, v)) ->
  match v with
  | Failed _ => True
  | Success r => charges ts stx account k k1 cost r (total_cost cost)
  | DepositFailed r _ =>
      charges ts stx account k k1 cost r (gas_cost cost) /\ vr_new_account_amount r = amount account
  end.
Proof.
  intros Hc H. unfold charge in H.
  destruct (tn_nonce_index (nonce (stx_transaction stx))) as [i|] eqn:Ei.
  - destruct (ca_gas_key_nonces _ !! _) as [[cur|]|] eqn:Ec; try done.
    destruct (verify_and_charge_gas_key_tx_ephemeral _ _ _ _ _ _ _) as [v'| |] eqn:Ev; try done.
    injection H as <- <-.
    assert (Hgo : forall r paid, (v' = Success r /\ paid = deposit_cost cost)
      \/ ((exists e, v' = DepositFailed r e) /\ paid = 0) ->
      charges ts stx account k k cost r (gas_cost cost + paid)
      /\ vr_new_account_amount r = amount account - paid).
    { intros r paid Hv. destruct (charge_gas_key_inv _ _ _ _ _ _ _ _ _ _ Ev Hv)
        as (g & idx & Hg & Hi & _ & Hu & Hcur & Hle & Hb & Hp & Hn & Happ & Hs).
      split; [|done]. split_and!; [done|done|]. do 2 eexists.
      split_and!; [exact Happ|by account_simpl|..].
      - assert (0 <= amount account -> 0 <= amount account - paid).
        { destruct Hv as [[Hv ->]|[_ ->]]; [apply Hs in Hv|]; lia. }
        split; account_simpl; try done; unfold account_total; account_simpl;
          rewrite (key_balance_set_gas k g), ?(key_balance_of k g) by done; lia.
      - unfold nonce_moves. rewrite Ei. assert (idx = i) as -> by congruence. split_and!; [done| |eauto].
        by destruct k as [m []]. }
    destruct v' as [r|r e|e]; [..|done].
    + rewrite Hc. apply Hgo. auto.
    + destruct (Hgo r 0) as [H1 H2]; [eauto|]. by rewrite Z.add_0_r in H1; rewrite Z.sub_0_r in H2.
  - destruct (verify_and_charge_tx_ephemeral _ _ _ _ _ _ _) as [[k1' v']| |] eqn:Ev; try done.
    injection H as <- <-. destruct v' as [r|r e|e]; [|by apply charge_no_deposit_failure in Ev|done].
    pose proof (charge_regular_apply _ _ _ _ _ _ _ _ _ Ev) as Happ.
    apply charge_regular_inv in Ev as (_ & Hg & [Hn _]%verify_nonce_Ok & Hle & _ & _ & Hna & Hu & Hb & Hp & _).
    split_and!; [done|done|]. do 2 eexists. split_and!; [exact Happ|by account_simpl|..].
    + destruct (charged_key_nonce k (tn_nonce (nonce (stx_transaction stx))) (total_cost cost) Hg) as [_ Hk].
      split; account_simpl; rewrite ?Hk; try done; unfold account_total; account_simpl;
        unfold key_balance; rewrite ?Hg; simpl; lia.
    + unfold nonce_moves, gas_key_nonce_update. rewrite Ei, Hu. split_and!; [done|done|].
      by apply charged_key_nonce.
Qed.

(* ------------------------------------------------------------------ *)
(** ** Conservation *)

Definition tx_supply (cfg : RuntimeConfig) (ts : TxState) : Z :=
  money (ts_state ts) + (values cfg (ts_local_receipts ts) + values cfg (ts_sent ts))
  + burnt_total (ts_stats ts).

(** Nothing is negative, and the total supply fits a u128. *)
Record healthy (cfg : RuntimeConfig) (ts : TxState) : Prop := mkHealthy {
  he_accounts : forall id a, get_account (ts_state ts) id = Some a -> 0 <= amount a /\ 0 <= locked a;
  he_keys : forall id pk k, get_access_key (ts_state ts) id pk = Some k -> 0 <= key_balance k;
  he_values : 0 <= values cfg (ts_local_receipts ts) + values cfg (ts_sent ts);
  he_stats : 0 <= bs_tx_burnt_amount (ts_stats ts) /\ 0 <= bs_other_burnt_amount (ts_stats ts);
  he_supply : tx_supply cfg ts <= u128_max;
}.

Lemma money_bound cfg ts id pk a k :
  healthy cfg ts -> get_account (ts_state ts) id = Some a ->
  get_access_key (ts_state ts) id pk = Some k ->
  account_total a + key_balance k <= money (ts_state ts).
Proof.
  intros [Ha Hk _ _ _] Ea Ek.
  assert (H1 : 0 <= map_fold (fun _ x acc => account_total x + acc) 0
                      (delete id (st_accounts (ts_state ts)))).
  { apply fold_nonneg. intros i x [_ Hx]%lookup_delete_Some. destruct (Ha i x Hx).
    unfold account_total. lia. }
  assert (H2 : 0 <= map_fold (fun _ x acc => key_balance x + acc) 0
                      (delete (id, pk) (st_access_keys (ts_state ts)))).
  { apply fold_nonneg. intros [i q] x [_ Hx]%lookup_delete_Some. by apply (Hk i q). }
  rewrite (sum_delete account_total) in H1. rewrite (sum_delete key_balance) in H2. unfold get_account in Ea. unfold get_access_key in Ek.
  rewrite Ea in H1. rewrite Ek in H2. simpl in H1, H2. unfold money, total_accounts, total_gas_keys. lia.
Qed.

(** The invariant of the loop. *)
Definition good (cfg : RuntimeConfig) (supply : Z) (ts : TxState) : Prop :=
  coherent ts /\ healthy cfg ts /\ tx_supply cfg ts = supply.

Lemma registered_good cfg S ts ts1 id pk :
  good cfg S ts -> registered ts ts1 id pk -> coherent ts1 -> good cfg S ts1.
Proof.
  intros (Hco & Hh & HS) [Hf Hacc (E1 & E2 & E3 & E4) _ _] Hco1.
  assert (Hs : tx_supply cfg ts1 = tx_supply cfg ts).
  { unfold tx_supply, money, total_accounts.
    by rewrite E1, E2, E4, (kf_accounts _ _ _ _ Hf), (kf_total _ _ _ _ Hf). }
  destruct Hh as [Ha Hk Hv Hst Hsup]. split_and!; [done| |congruence].
  split; rewrite ?E1, ?E2, ?E4, ?Hs; try done.
  - intros i a. unfold get_account. rewrite (kf_accounts _ _ _ _ Hf). apply Ha.
  - intros i q k' Hk'. rewrite (kf_balance _ _ _ _ Hf _ _ _ Hk').
    destruct (get_access_key (ts_state ts) i q) as [k|] eqn:E; simpl; [by apply (Hk i q)|done].
Qed.

Lemma reject_good cfg S ap ts stx e : good cfg S ts -> good cfg S (reject ap ts stx e).
Proof. intros ([] & [] & ?). by split_and!. Qed.

Lemma finish_good cfg S ap ts tsx stx account k k1 cost r o paid ts' :
  let tx := stx_transaction stx in
  good cfg S ts ->
  ts_state tsx = ts_state ts -> ts_caches tsx = ts_caches ts -> ts_stats tsx = ts_stats ts ->
  values cfg (ts_local_receipts tsx) + values cfg (ts_sent tsx)
    = values cfg (ts_local_receipts ts) + values cfg (ts_sent ts) + (paid - o_tokens_burnt o) ->
  0 <= o_tokens_burnt o <= paid ->
  ca_accounts (ts_caches ts) !! signer_id tx = Some (Some account) ->
  ca_access_keys (ts_caches ts) !! (signer_id tx, public_key tx) = Some (Some k) ->
  charges ts stx account k k1 cost r paid ->
  finish_tx ap tsx stx account k1 r o = Ok ts' -> good cfg S ts'.
Proof.
  intros tx (Hco & Hh & HS) Es Ec Est Ev Ho Hca Hck (_ & _ & account' & k' & Happ & _ & Hpay & _) H.
  pose proof (co_account _ Hco _ _ Hca) as Ha. pose proof (co_key _ Hco _ _ _ Hck) as Hk.
  pose proof (money_bound cfg ts _ _ _ _ Hh Ha Hk) as Hm.
  destruct Hh as [Hha Hhk Hv [Hs1 Hs2] Hsup], Hpay as [P1 P2 P3 P4].
  destruct (Hha _ _ Ha) as [Hl0 Hl]. specialize (P2 Hl0). unfold account_total in P1 at 1. rewrite P3 in P1.
  unfold tx_supply, burnt_total in *.
  apply finish_cases in H as [[-> Hbad]|(a2 & k2 & Happ2 & Hle & E1 & E2 & E3 & E4 & _ & E5)].
  { rewrite Est in Hbad. lia. }
  rewrite Happ in Happ2. injection Happ2 as <- <-. fold tx in E1, E2. rewrite Es in E1. rewrite Ec in E2.
  assert (Hmon : money (ts_state ts') = money (ts_state ts) - paid).
  { rewrite E1, (charged_money _ _ _ account k) by done. unfold account_total in *. lia. }
  assert (Hsup' : tx_supply cfg ts' = S).
  { unfold tx_supply, burnt_total. rewrite Hmon, E3, E4, E5, Est. simpl. lia. }
  split_and!; [by eapply charged_coherent| |done].
  split; rewrite ?E3, ?E4, ?E5, ?Est; simpl; [..|lia|lia|unfold tx_supply, burnt_total in *; lia].
  - intros i a. rewrite E1. intros Hi. destruct (decide (i = signer_id tx)) as [->|Hne].
    + assert (a = account') as -> by (unfold charged_state, get_account in Hi;
        destruct (gas_key_nonce_update r) as [[]|]; simpl in Hi; rewrite lookup_insert_eq in Hi; congruence).
      rewrite P3. done.
    + apply (Hha i). unfold charged_state, get_account in Hi.
      destruct (gas_key_nonce_update r) as [[]|]; simpl in Hi; by rewrite lookup_insert_ne in Hi.
  - intros i q x. rewrite E1. intros Hi. destruct (decide ((i, q) = (signer_id tx, public_key tx))) as [[= -> ->]|Hne].
    + unfold charged_state in Hi. rewrite get_set_access_key in Hi. by injection Hi as <-.
    + apply (Hhk i q). unfold charged_state in Hi. rewrite get_set_access_key_ne in Hi by congruence.
      by destruct (gas_key_nonce_update r) as [[]|].
Qed.

Lemma guard_cases ap ts stx account r ts1 :
  patoshi_guard ap ts stx account r = Ok (inl ts1) ->
  let tx := stx_transaction stx in
  match get_patoshi_record (ts_state ts) (signer_id tx) with
  | Ok None => ts1 = ts
  | Ok (Some record) =>
      let '(record', scheduled) := maybe_schedule_patoshi_unlock record (receiver_id tx) (actions tx)
                                     (epoch_height ap) in
      validate_locked_patoshi_transaction (signer_id tx) (receiver_id tx) (actions tx)
        (vr_new_account_amount r + locked account) (epoch_height ap) (current_protocol_version ap)
        record = Ok tt
      /\ ts1 = match scheduled with
               | Some _ => put_state ts (set_patoshi_record (ts_state ts) (signer_id tx) record')
               | None => ts
               end
  | _ => False
  end.
Proof.
  intros H tx. unfold patoshi_guard in H. fold tx in H.
  destruct (get_patoshi_record (ts_state ts) (signer_id tx)) as [[record|]| |]; try done;
    [|by injection H as <-].
  apply rbind_Ok in H as (post & Ep & H). apply map_err_Ok, ok_or_Ok, checked_add_Some in Ep as [-> _].
  destruct (validate_locked_patoshi_transaction _ _ _ _ _ _ _) as [[]| |]; try done.
  destruct (maybe_schedule_patoshi_unlock _ _ _ _) as [record' [e|]]; by injection H as <-.
Qed.

Lemma guard_frame ap ts stx account r ts1 :
  patoshi_guard ap ts stx account r = Ok (inl ts1) ->
  ts_caches ts1 = ts_caches ts /\ ts_local_receipts ts1 = ts_local_receipts ts
  /\ ts_sent ts1 = ts_sent ts /\ ts_stats ts1 = ts_stats ts /\ ts_outcomes ts1 = ts_outcomes ts
  /\ st_accounts (ts_state ts1) = st_accounts (ts_state ts)
  /\ st_access_keys (ts_state ts1) = st_access_keys (ts_state ts)
  /\ st_gas_key_nonces (ts_state ts1) = st_gas_key_nonces (ts_state ts).
Proof.
  intros H. apply guard_cases in H. cbv zeta in H.
  destruct (get_patoshi_record _ _) as [[record|]| |]; try done; [|by subst].
  destruct (maybe_schedule_patoshi_unlock _ _ _ _) as [record' [e|]]; by destruct H as [_ ->].
Qed.

Lemma guard_good cfg S ap ts stx account r ts1 :
  good cfg S ts -> patoshi_guard ap ts stx account r = Ok (inl ts1) -> good cfg S ts1.
Proof.
  intros (Hco & Hh & HS) H. apply guard_frame in H as (E1 & E2 & E3 & E4 & _ & E5 & E6 & E7).
  assert (Es : tx_supply cfg ts1 = tx_supply cfg ts)
    by (unfold tx_supply, money, total_accounts, total_gas_keys; by rewrite E2, E3, E4, E5, E6).
  destruct Hco as [C1 C2 C3], Hh as [H1 H2 H3 H4 H5]. split_and!; [| |congruence].
  - split; unfold get_account, get_access_key, get_gas_key_nonce; rewrite E1, ?E5, ?E6, ?E7; auto.
  - split; unfold get_account, get_access_key; rewrite ?E2, ?E3, ?E4, ?E5, ?E6, ?Es; auto.
Qed.

Lemma emit_frame cfg ts id receipt :
  let ts1 := emit ts id receipt in
  ts_update ts1 = ts_update ts /\ ts_caches ts1 = ts_caches ts /\ ts_stats ts1 = ts_stats ts
  /\ values cfg (ts_local_receipts ts1) + values cfg (ts_sent ts1)
     = values cfg (ts_local_receipts ts) + values cfg (ts_sent ts) + receipt_value cfg receipt.
Proof.
  unfold emit. destruct (bool_decide _); simpl; split_and!; try done; rewrite values_app;
    change (values cfg [receipt]) with (receipt_value cfg receipt + 0); lia.
Qed.

Section loop.
Context (ap : ApplyState).
Hypothesis Hfees : fees_nonneg (config ap).
Hypothesis Hprice : 0 <= gas_price ap.

Lemma settle_good S ts stx account k k1 cost v ts' :
  let tx := stx_transaction stx in
  Forall action_bounded (flatten (actions tx)) ->
  tx_cost (config ap) tx (gas_price ap) = Ok cost -> good (config ap) S ts ->
  ca_accounts (ts_caches ts) !! signer_id tx = Some (Some account) ->
  ca_access_keys (ts_caches ts) !! (signer_id tx, public_key tx) = Some (Some k) ->
  charge ap ts account k stx cost = Ok (inl (k1, v)) ->
  settle ap ts stx account k1 cost v = Ok ts' -> good (config ap) S ts'.
Proof using Hfees Hprice.
  intros tx Hb Hcost Hg Hca Hck Hch H.
  destruct (cost_parts (config ap) Hfees tx (gas_price ap) cost Hprice Hb Hcost)
    as ([Hc1 Hc2] & Hc3 & Hc4 & Hc5 & Hval).
  pose proof (charge_spec ap ts account k stx cost k1 v Hc4 Hch) as Hspec.
  destruct v as [r|r e|e]; simpl in H.
  - apply rbind_Ok in H as (g & Eg & H). destruct g as [ts1|e]; [|injection H as <-; by apply reject_good].
    pose proof (guard_good _ S _ _ _ _ _ _ Hg Eg) as Hg1.
    apply guard_frame in Eg as (E1 & _).
    pose proof (emit_frame (config ap) ts1 (signer_id tx) (tx_receipt ap stx r)) as (F1 & F2 & F3 & F4).
    assert (Hspec1 : charges ts1 stx account k k1 cost r (total_cost cost)).
    { unfold charges, nonce_moves in *. by rewrite E1. }
    pose proof Hspec as (Hburnt & Hrp & _).
    eapply (finish_good (config ap) S ap ts1 _ stx account k k1 cost r); [done| |done|done| | | | |done|exact H].
    + unfold ts_state. by rewrite F1.
    + simpl. rewrite F4. unfold tx_receipt. fold tx. rewrite Hrp, Hc5, Hval, Hburnt. lia.
    + simpl. rewrite Hburnt. lia.
    + by rewrite E1.
    + by rewrite E1.
  - apply rbind_Ok in H as (tg & _ & H).
    eapply (finish_good (config ap) S ap ts ts stx account k k1 cost r);
      [done..| | |done|done|exact (proj1 Hspec)|exact H];
      simpl; lia.
  - injection H as <-. by apply reject_good.
Qed.

Lemma process_good S ts stx e ts' :
  Forall action_bounded (flatten (actions (stx_transaction stx))) -> good (config ap) S ts ->
  process_transaction ap ts stx e = Ok ts' -> good (config ap) S ts'.
Proof using Hfees Hprice.
  intros Hb Hg H. unfold process_transaction in H.
  destruct e as [e|]; [injection H as <-; by apply reject_good|].
  destruct (tx_cost _ _ _) as [cost| |] eqn:Hcost; [|injection H as <-; by apply reject_good|done].
  destruct (ca_accounts _ !! _) as [[account|]|] eqn:Hca; [|injection H as <-; by apply reject_good|done].
  apply rbind_Ok in H as (ts0 & E0 & H). apply rbind_Ok in H as ([ts1 key] & E1 & H).
  destruct (find_key_spec ap ts stx ts0 ts1 key (proj1 Hg) E0 E1) as (Hr & Hco1 & Hkey).
  pose proof (registered_good _ S _ _ _ _ Hg Hr Hco1) as Hg1.
  destruct key as [k|e]; [|injection H as <-; by apply reject_good].
  apply rbind_Ok in H as (v & Ev & H). destruct v as [[k1 v]|e]; [|injection H as <-; by apply reject_good].
  eapply settle_good; [done|exact Hcost|exact Hg1| |by apply Hkey|exact Ev|exact H].
  by rewrite (rg_accounts _ _ _ _ Hr).
Qed.

Lemma process_all_good S l : forall ts ts',
  Forall (fun p => Forall action_bounded (flatten (actions (stx_transaction p.1)))) l ->
  good (config ap) S ts -> process_all ap ts l = Ok ts' -> good (config ap) S ts'.
Proof using Hfees Hprice.
  induction l as [|[stx e] l IH]; intros ts ts' Hb Hg H; simpl in H; [by injection H as <-|].
  apply Forall_cons in Hb as [Hb0 Hb]. apply rbind_Ok in H as (ts1 & E & H).
  eapply IH; [done|by eapply process_good|done].
Qed.
End loop.

(* ------------------------------------------------------------------ *)
(** ** The caches before the loop *)

Definition caches_of (s : State) (c : Caches) : Prop :=
  (forall id o, ca_accounts c !! id = Some o -> get_account s id = o)
  /\ (forall id pk o, ca_access_keys c !! (id, pk) = Some o -> get_access_key s id pk = o)
  /\ (forall id pk i o, ca_gas_key_nonces c !! (id, pk, i) = Some o -> get_gas_key_nonce s id pk i = o).

Lemma or_insert_lookup {K V} `{Countable K} (k k' : K) (v w : V) m :
  or_insert k v m !! k' = Some w -> (k' = k /\ w = v) \/ m !! k' = Some w.
Proof.
  unfold or_insert. destruct (m !! k); [by right|].
  intros [[<- <-]|[_ ?]]%lookup_insert_Some; auto.
Qed.

Lemma prefetch_one_caches s c p : caches_of s c -> caches_of s (prefetch_one s c p).
Proof.
  intros (H1 & H2 & H3). destruct p as [stx []]; [|done]. split_and!; simpl.
  - intros id o [[-> ->]|Hi]%or_insert_lookup; auto.
  - intros id pk o [[[= -> ->] ->]|Hi]%or_insert_lookup; auto.
  - intros id pk i o. destruct (tn_nonce_index _); [|apply H3].
    intros [[[= -> -> ->] ->]|Hi]%or_insert_lookup; auto.
Qed.

Lemma prefetch_coherent ts txs : coherent (put_caches ts (prefetch (ts_state ts) txs)).
Proof.
  assert (H : caches_of (ts_state ts) (prefetch (ts_state ts) txs)).
  { unfold prefetch. assert (H0 : caches_of (ts_state ts) no_caches) by done. revert H0.
    generalize no_caches. induction txs as [|p txs IH]; intros c Hc; simpl; [done|].
    by apply IH, prefetch_one_caches. }
  destruct H as (H1 & H2 & H3). split; [exact H1|intros id pk k; apply H2|exact H3].
Qed.

Lemma zip_bounded {A} (P : SignedTransaction -> Prop) (l : list (SignedTransaction * bool)) (v : list A) :
  Forall (fun p => P p.1) l -> Forall (fun p => P p.1) (zip (map fst l) v).
Proof.
  intros H. revert v. induction H as [|[stx b] l Hp H IH]; intros [|x v]; simpl; constructor; auto.
Qed.

Lemma process_transactions_inv vk svb threads min ap ts txs ts' :
  process_transactions vk svb threads min ap ts txs = Ok ts' ->
  exists validations, process_all ap (put_caches ts (prefetch (ts_state ts) txs))
    (zip (map fst txs) validations) = Ok ts'.
Proof.
  unfold process_transactions. destruct (chunk_size _ _ _); [|done..]. destruct (validate_chunks _ _ _ _ _) as [v| |]; [eauto|done..].
Qed.
End process.

(** C9. Processing the transactions of a chunk creates and destroys no tokens: what
    accounts and gas keys hold, plus what the emitted receipts carry (deposits and
    prepaid gas at the receipt's gas price), plus what was burnt, is the same
    before and after, whatever mix of accepted, rejected and half-failed
    transactions the chunk has, and balances stay non-negative.  In particular the
    branch that gives up on a transaction because the total of burnt tokens
    overflows is never taken when the supply fits 128 bits.  The signer caches the
    loop works on agree with the state at its end. *)
Theorem chunk_conserves {C : Crates} vk svb threads min ap ts txs ts' :
  fees_nonneg (config ap) -> 0 <= gas_price ap ->
  Forall (fun p => Forall action_bounded (flatten (actions (stx_transaction p.1)))) txs ->
  healthy (config ap) ts ->
  process_transactions vk svb threads min ap ts txs = Ok ts' ->
  tx_supply (config ap) ts' = tx_supply (config ap) ts /\ healthy (config ap) ts' /\ coherent ts'.
Proof.
  intros Hf Hp Hb Hh (v & H)%process_transactions_inv.
  set (ts0 := put_caches _ _) in H.
  assert (Hg : good (config ap) (tx_supply (config ap) ts) ts0)
    by (split_and!; [apply prefetch_coherent|by destruct Hh; split|done]).
  apply (zip_bounded (fun stx => Forall action_bounded (flatten (actions (stx_transaction stx))))
           _ v) in Hb.
  by destruct (process_all_good ap Hf Hp _ _ _ _ Hb Hg H) as (? & ? & ?).
Qed.
