(* ===== verification/ChunkSafety.v ===== *)
(** * Safety of the transactions of a chunk

    What one iteration of the loop of [process_transactions] can do, and from it:
    no transaction is charged twice, a locked Patoshi account keeps its genesis
    balance whatever a chunk holds, and over a sequence of chunks its lock ends only
    fourteen epochs after a transaction of its own that asks for it.  At the end, the
    theorems about chunks at concrete inputs. *)

From S2P Require Import Prelude Crates AccountId Addresses Primitives Errors Fees Borsh Wire State.
From S2P Require Import BitcoinTx RuntimeTypes AccessKeys Validation Verifier Runtime Conservation.
From S2P Require Import Transactions TransactionProofs.

Section shape.
Context {C : Crates}.

(** The state a charged transaction is settled in: the one after registration for a
    failed deposit, else the one after the Patoshi guard with the receipt emitted. *)
Inductive settled_in (ap : ApplyState) (ts1 : TxState) (stx : SignedTransaction) (account : Account)
    (r : VerificationResult) : TxState -> Prop :=
| settled_deposit_failed :
    vr_new_account_amount r = amount account -> settled_in ap ts1 stx account r ts1
| settled_success tsg :
    patoshi_guard ap ts1 stx account r = Ok (inl tsg) ->
    settled_in ap ts1 stx account r
      (emit tsg (signer_id (stx_transaction stx)) (tx_receipt ap stx r)).

(** What an iteration does: the transaction is dropped, or its signer is charged. *)
Inductive tx_step (ap : ApplyState) (ts : TxState) (stx : SignedTransaction) (ts' : TxState) : Prop :=
| step_rejected ts1 e :
    registered ts ts1 (signer_id (stx_transaction stx)) (public_key (stx_transaction stx)) ->
    coherent ts1 -> ts' = reject ap ts1 stx e -> tx_step ap ts stx ts'
| step_charged ts1 ts2 account k k1 cost r paid o :
    registered ts ts1 (signer_id (stx_transaction stx)) (public_key (stx_transaction stx)) ->
    coherent ts1 ->
    ca_accounts (ts_caches ts1) !! signer_id (stx_transaction stx) = Some (Some account) ->
    ca_access_keys (ts_caches ts1) !! (signer_id (stx_transaction stx), public_key (stx_transaction stx))
      = Some (Some k) ->
    charges ts1 stx account k k1 cost r paid -> settled_in ap ts1 stx account r ts2 ->
    finish_tx ap ts2 stx account k1 r o = Ok ts' ->
    tx_cost (config ap) (stx_transaction stx) (gas_price ap) = Ok cost -> tx_step ap ts stx ts'.

Lemma process_step ap ts stx e ts' :
  coherent ts -> process_transaction ap ts stx e = Ok ts' -> tx_step ap ts stx ts'.
Proof.
  intros Hco H. unfold process_transaction in H.
  assert (Hrej : forall e, tx_step ap ts stx (reject ap ts stx e))
    by (intros; eapply step_rejected; [apply registered_refl|done..]).
  destruct e as [e|]; [by injection H as <-|].
  destruct (tx_cost _ _ _) as [cost| |] eqn:Hcost; [|by injection H as <-|done].
  destruct (ca_accounts _ !! _) as [[account|]|] eqn:Hca; [|by injection H as <-|done].
  apply rbind_Ok in H as (ts0 & E0 & H). apply rbind_Ok in H as ([ts1 key] & E1 & H).
  destruct (find_key_spec ap ts stx ts0 ts1 key Hco E0 E1) as (Hr & Hco1 & Hkey).
  clear Hrej. assert (Hrej : forall e, tx_step ap ts stx (reject ap ts1 stx e))
    by (intros; by eapply step_rejected).
  destruct key as [k|e]; [|by injection H as <-].
  apply rbind_Ok in H as (v & Ev & H). destruct v as [[k1 v]|e]; [|by injection H as <-].
  pose proof Hcost as Hcost0. apply calculate_tx_cost_Ok in Hcost as (? & ? & ? & ? & _ & _ & _ & _ & _ & _ & _ & _ & _ & _ & Htc & _).
  pose proof (charge_spec ap ts1 account k stx cost k1 v Htc Ev) as Hspec.
  rewrite <- (rg_accounts _ _ _ _ Hr) in Hca.
  destruct v as [r|r e|e]; simpl in H; [..|by injection H as <-].
  - apply rbind_Ok in H as (g & Eg & H). destruct g as [tsg|e]; [|by injection H as <-].
    eapply step_charged; [exact Hr|done|done|by apply Hkey|exact Hspec|by apply settled_success|exact H|done].
  - apply rbind_Ok in H as (tg & _ & H). destruct Hspec as [Hspec Hamt].
    eapply step_charged; [exact Hr|done|done|by apply Hkey|exact Hspec|by apply settled_deposit_failed|exact H|done].
Qed.

Lemma settled_frame ap ts1 stx account r ts2 :
  settled_in ap ts1 stx account r ts2 ->
  ts_caches ts2 = ts_caches ts1 /\ ts_outcomes ts2 = ts_outcomes ts1
  /\ st_accounts (ts_state ts2) = st_accounts (ts_state ts1)
  /\ st_access_keys (ts_state ts2) = st_access_keys (ts_state ts1)
  /\ st_gas_key_nonces (ts_state ts2) = st_gas_key_nonces (ts_state ts1).
Proof.
  intros [_|tsg Hg]; [done|]. apply guard_frame in Hg as (E1 & _ & _ & _ & E0 & E2 & E3 & E4).
  unfold emit. by destruct (bool_decide _).
Qed.

Lemma settled_coherent ap ts1 stx account r ts2 :
  coherent ts1 -> settled_in ap ts1 stx account r ts2 -> coherent ts2.
Proof.
  intros [C1 C2 C3] Hs. apply settled_frame in Hs as (E1 & _ & E2 & E3 & E4).
  split; unfold get_account, get_access_key, get_gas_key_nonce; rewrite E1, ?E2, ?E3, ?E4; auto.
Qed.

Lemma step_coherent ap ts stx ts' : tx_step ap ts stx ts' -> coherent ts'.
Proof.
  intros [ts1 e Hr Hco ->|ts1 ts2 account k k1 cost r paid o Hr Hco Hca Hck Hch Hs Hf Hcost].
  - by destruct Hco.
  - pose proof (settled_coherent _ _ _ _ _ _ Hco Hs) as Hco2.
    apply finish_cases in Hf as [[-> _]|(a' & k' & _ & _ & E1 & E2 & _)]; [done|].
    by eapply charged_coherent.
Qed.

Lemma process_all_coherent ap l : forall ts ts',
  coherent ts -> process_all ap ts l = Ok ts' -> coherent ts'.
Proof.
  induction l as [|[stx e] l IH]; intros ts ts' Hco H; simpl in H; [by injection H as <-|].
  apply rbind_Ok in H as (ts1 & E & H). eapply IH; [|exact H].
  eapply step_coherent, process_step; [exact Hco|exact E].
Qed.

(* ------------------------------------------------------------------ *)
(** ** Replay *)

(** The nonce of [tx] is used up: the cached key, or the cached nonce of the gas
    key, is not smaller. *)
Definition used (ts : TxState) (tx : Transaction) : Prop :=
  exists k, ca_access_keys (ts_caches ts) !! (signer_id tx, public_key tx) = Some (Some k)
  /\ match tn_nonce_index (nonce tx) with
     | None => tn_nonce (nonce tx) <= ak_nonce k
     | Some i => exists cur,
         ca_gas_key_nonces (ts_caches ts) !! (signer_id tx, public_key tx, i) = Some (Some cur)
         /\ tn_nonce (nonce tx) <= cur
     end.

Lemma update_entry_eq {K V} `{Countable K} (k : K) (v w : V) m :
  m !! k = Some w -> update_entry k v m !! k = Some v.
Proof. intros H1. unfold update_entry. rewrite H1. apply lookup_insert_eq. Qed.

Lemma update_entry_ne {K V} `{Countable K} (k k' : K) (v : V) m :
  k <> k' -> update_entry k v m !! k' = m !! k'.
Proof. intros H1. unfold update_entry. destruct (m !! k); [by rewrite lookup_insert_ne|done]. Qed.

Lemma registered_used ts ts1 id pk tx : registered ts ts1 id pk -> used ts tx -> used ts1 tx.
Proof.
  intros Hr (k & Hk & Hn). exists k. split; [by apply (rg_keys _ _ _ _ Hr)|].
  by rewrite (rg_nonces _ _ _ _ Hr).
Qed.

(** The caches after a charge. *)
Definition charged_caches (c : Caches) (stx : SignedTransaction) (account' : Account) (k' : AccessKey)
    (upd : option (Z * Z)) : Caches :=
  let id := signer_id (stx_transaction stx) in
  let pk := public_key (stx_transaction stx) in
  mkCaches (<[id := Some account']> (ca_accounts c)) (update_entry (id, pk) (Some k') (ca_access_keys c))
    (match upd with
     | Some (i, n) => update_entry (id, pk, i) (Some n) (ca_gas_key_nonces c)
     | None => ca_gas_key_nonces c
     end).

Lemma charged_uses ts1 ts' stx account' k k' upd :
  ca_access_keys (ts_caches ts1) !! (signer_id (stx_transaction stx), public_key (stx_transaction stx))
    = Some (Some k) ->
  nonce_moves ts1 stx k k' upd ->
  ts_caches ts' = charged_caches (ts_caches ts1) stx account' k' upd -> used ts' (stx_transaction stx).
Proof.
  intros Hk Hm E. exists k'. rewrite E. simpl. split; [by eapply update_entry_eq|].
  unfold nonce_moves in Hm. destruct (tn_nonce_index _) as [i|].
  - destruct Hm as (-> & _ & cur & _ & Hcur). exists (tn_nonce (nonce (stx_transaction stx))).
    split; [by eapply update_entry_eq|lia].
  - destruct Hm as (_ & _ & ->). lia.
Qed.

Lemma charged_used ts1 ts' stx account' k k' upd tx :
  ca_access_keys (ts_caches ts1) !! (signer_id (stx_transaction stx), public_key (stx_transaction stx))
    = Some (Some k) ->
  nonce_moves ts1 stx k k' upd ->
  ts_caches ts' = charged_caches (ts_caches ts1) stx account' k' upd -> used ts1 tx -> used ts' tx.
Proof.
  intros Hk Hm E (q & Hq & Hn). unfold used. rewrite E. simpl.
  set (id := signer_id (stx_transaction stx)) in *. set (pk := public_key (stx_transaction stx)) in *.
  assert (Hkey : exists q', update_entry (id, pk) (Some k') (ca_access_keys (ts_caches ts1))
      !! (signer_id tx, public_key tx) = Some (Some q') /\ ak_nonce q <= ak_nonce q').
  { destruct (decide ((id, pk) = (signer_id tx, public_key tx))) as [Heq|Hne].
    - exists k'. rewrite <- Heq in Hq |- *. split; [by eapply update_entry_eq|].
      assert (q = k) as -> by congruence. unfold nonce_moves in Hm.
      destruct (tn_nonce_index (nonce (stx_transaction stx))); [|lia]. destruct Hm as (_ & -> & _). lia.
    - exists q. by rewrite update_entry_ne. }
  destruct Hkey as (q' & Hq' & Hle). exists q'. split; [done|].
  destruct (tn_nonce_index (nonce tx)) as [i|]; [|lia]. destruct Hn as (cur & Hcur & Hn).
  destruct upd as [[j n]|]; [|eauto].
  unfold nonce_moves in Hm. destruct (tn_nonce_index (nonce (stx_transaction stx))) as [i'|]; [|by destruct Hm].
  destruct Hm as ([= -> ->] & _ & cur' & Hlt & Hcur').
  destruct (decide ((id, pk, i') = (signer_id tx, public_key tx, i))) as [Heq|Hne].
  - fold id pk in Hcur'. rewrite Heq in Hcur' |- *. exists (tn_nonce (nonce (stx_transaction stx))).
    split; [by eapply update_entry_eq|]. assert (cur' = cur) as -> by congruence. lia.
  - exists cur. by rewrite update_entry_ne.
Qed.

(** A charge either hits the overflow of the burnt total and only leaves what was
    settled, or uses up the nonce. *)
Lemma finish_uses ap ts1 ts2 stx account k k1 cost r paid o ts' :
  ca_access_keys (ts_caches ts1) !! (signer_id (stx_transaction stx), public_key (stx_transaction stx))
    = Some (Some k) ->
  charges ts1 stx account k k1 cost r paid -> settled_in ap ts1 stx account r ts2 ->
  finish_tx ap ts2 stx account k1 r o = Ok ts' ->
  (forall tx, used ts1 tx -> used ts' tx)
  /\ (used ts' (stx_transaction stx) \/ ts_outcomes ts' = ts_outcomes ts1).
Proof.
  intros Hk (_ & _ & account' & k' & Happ & _ & _ & Hm) Hs Hf.
  apply settled_frame in Hs as (Ec & Eo & _).
  apply finish_cases in Hf as [[-> _]|(a2 & k2 & Happ2 & _ & _ & E & _)].
  - split; [|by right]. intros tx Hu. unfold used in *. by rewrite Ec.
  - rewrite Happ in Happ2. injection Happ2 as <- <-. rewrite Ec in E. split.
    + intros tx. by eapply charged_used.
    + left. by eapply charged_uses.
Qed.

Lemma step_used ap ts stx ts' tx : tx_step ap ts stx ts' -> used ts tx -> used ts' tx.
Proof.
  intros [ts1 e Hr Hco ->|ts1 ts2 account k k1 cost r paid o Hr Hco Hca Hck Hch Hs Hf Hcost] Hu.
  - by apply (registered_used _ _ _ _ _ Hr).
  - apply (registered_used _ _ _ _ _ Hr) in Hu.
    by apply (finish_uses _ _ _ _ _ _ _ _ _ _ _ _ Hck Hch Hs Hf).
Qed.

Lemma step_uses ap ts stx ts' o :
  tx_step ap ts stx ts' -> ts_outcomes ts' = ts_outcomes ts ++ [o] -> (forall e, o <> failed stx e) ->
  used ts' (stx_transaction stx).
Proof.
  intros Hstep Ho Hne.
  assert (Hnil : forall l : list ExecutionOutcome, l <> l ++ [o]).
  { intros l Hl. apply (f_equal length) in Hl. rewrite length_app in Hl. simpl in Hl. lia. }
  destruct Hstep as [ts1 e Hr Hco ->|ts1 ts2 account k k1 cost r paid o' Hr Hco Hca Hck Hch Hs Hf Hcost];
    destruct (rg_rest _ _ _ _ Hr) as (_ & _ & Eo & _).
  - simpl in Ho. rewrite Eo in Ho. unfold register_outcome in Ho.
    destruct (enabled _ _); simpl in Ho; [|by apply Hnil in Ho].
    apply app_inv_head in Ho as [= <-]. by destruct (Hne e).
  - destruct (finish_uses _ _ _ _ _ _ _ _ _ _ _ _ Hck Hch Hs Hf) as [_ [?|E]]; [done|].
    rewrite E, Eo in Ho. by apply Hnil in Ho.
Qed.

Lemma used_rejects ap ts stx e ts' :
  used ts (stx_transaction stx) -> process_transaction ap ts stx e = Ok ts' ->
  exists e', ts' = reject ap ts stx e'.
Proof.
  intros (k & Hk & Hn) H. unfold process_transaction in H.
  destruct e as [e|]; [injection H as <-; eauto|].
  destruct (tx_cost _ _ _) as [cost| |] eqn:Hcost; [|injection H as <-; eauto|done].
  destruct (ca_accounts _ !! _) as [[account|]|]; [|injection H as <-; eauto|done].
  assert (register_before_lookup ap ts stx = Ok ts) as E0
    by (unfold register_before_lookup; rewrite Hk; by destruct (is_bitcoin_address _)).
  assert (lookup_access_key ap ts stx = Ok (ts, inl k)) as E1
    by (unfold lookup_access_key; by rewrite Hk).
  rewrite E0 in H. simpl in H. rewrite E1 in H. simpl in H.
  apply rbind_Ok in H as (v & Ev & H). destruct v as [[k1 v]|e]; [|injection H as <-; eauto].
  pose proof Hcost as Hcost0. apply calculate_tx_cost_Ok in Hcost as (? & ? & ? & ? & _ & _ & _ & _ & _ & _ & _ & _ & _ & _ & Htc & _).
  pose proof (charge_spec ap ts account k stx cost k1 v Htc Ev) as Hspec.
  assert (Hno : forall r paid, charges ts stx account k k1 cost r paid -> False).
  { intros r paid (_ & _ & account' & k' & _ & _ & _ & Hm). unfold nonce_moves in Hm.
    destruct (tn_nonce_index _) as [i|]; [|lia]. destruct Hm as (_ & _ & cur & Hlt & Hcur).
    destruct Hn as (cur' & Hcur' & ?). assert (cur' = cur) by congruence. lia. }
  destruct v as [r|r e|e]; [by apply Hno in Hspec|by destruct Hspec as [?%Hno _]|].
  injection H as <-. eauto.
Qed.

Lemma process_all_used ap tx l : forall ts ts',
  coherent ts -> used ts tx -> process_all ap ts l = Ok ts' -> used ts' tx.
Proof.
  induction l as [|[stx e] l IH]; intros ts ts' Hco Hu H; simpl in H; [by injection H as <-|].
  apply rbind_Ok in H as (ts1 & E & H). pose proof (process_step _ _ _ _ _ Hco E) as Hs.
  eapply IH; [by eapply step_coherent|by eapply step_used|exact H].
Qed.
End shape.

(** C10. A nonce is accepted once per chunk.  After a transaction with an outcome
    other than a plain rejection (it was turned into a receipt, or its gas was
    charged), and whatever other transactions follow, a transaction of the same
    signer with the same public key and nonce, and for gas keys the same nonce
    index, is dropped: it has no effect but its failed outcome.  This covers the
    same transaction with another signature, and keys that were registered from
    the signature within the chunk. *)
Theorem no_replay {C : Crates} ap ts stx e o ts1 l ts2 stx2 e2 ts3 :
  coherent ts -> process_transaction ap ts stx e = Ok ts1 ->
  ts_outcomes ts1 = ts_outcomes ts ++ [o] -> (forall err, o <> failed stx err) ->
  process_all ap ts1 l = Ok ts2 ->
  let tx := stx_transaction stx in
  let tx2 := stx_transaction stx2 in
  signer_id tx2 = signer_id tx -> public_key tx2 = public_key tx -> nonce tx2 = nonce tx ->
  process_transaction ap ts2 stx2 e2 = Ok ts3 ->
  exists err, ts3 = reject ap ts2 stx2 err.
Proof.
  intros Hco H1 Ho Hne Hl tx tx2 Es Ep En H3. pose proof (process_step _ _ _ _ _ Hco H1) as Hs.
  eapply used_rejects; [|exact H3]. fold tx2.
  assert (Hu : used ts2 tx).
  { eapply process_all_used; [by eapply step_coherent|by eapply step_uses|exact Hl]. }
  unfold used in *. by rewrite Es, Ep, En.
Qed.

(* ------------------------------------------------------------------ *)
(** ** The floor of a locked account *)

(** Account [p] holds, liquid and staked together, at least the genesis balance of
    its Patoshi record while the record is locked. *)
Definition keeps_floor (ap : ApplyState) (s : State) (p : AccountId) : Prop :=
  forall record, get_patoshi_record s p = Ok (Some record) ->
  record_ok record
  /\ (is_patoshi_locked record (epoch_height ap) = true ->
      forall a, get_account s p = Some a -> genesis_balance record <= amount a + locked a).

Lemma keeps_floor_frame ap s s' p :
  st_accounts s' = st_accounts s -> st_contract_data s' = st_contract_data s ->
  keeps_floor ap s p -> keeps_floor ap s' p.
Proof.
  intros E1 E2 H record. unfold get_patoshi_record, get_data, get_account.
  rewrite E1, E2. apply H.
Qed.

Lemma charged_account s id pk account k upd p :
  get_account (charged_state s id pk account k upd) p
  = if decide (p = id) then Some account else get_account s p.
Proof.
  unfold charged_state, get_account. case_decide as Hp; destruct upd as [[]|]; simpl;
    by first [rewrite Hp, lookup_insert_eq|rewrite lookup_insert_ne].
Qed.

Lemma validated_floor id rid acts post e v record :
  validate_locked_patoshi_transaction id rid acts post e v record = Ok tt ->
  is_patoshi_locked record e = true -> genesis_balance record <= post.
Proof.
  unfold validate_locked_patoshi_transaction. intros H Hl. rewrite Hl in H. simpl in H.
  apply rbind_Ok in H as (? & _ & H). destruct (Z.ltb_spec post (genesis_balance record)); [done|lia].
Qed.

Section floor.
Context {C : Crates} (ap : ApplyState).
Hypothesis Hepoch : is_u u64_max (epoch_height ap).

(** [record'] comes from a record of [p] in [s] with the same floor that is locked
    if it is; if [signer] holds, [post] is not below the floor. *)
Definition record_from (s : State) (p : AccountId) (signer : Prop) (post : Z) (record' : PatoshiRecord)
    : Prop :=
  exists record, get_patoshi_record s p = Ok (Some record) /\ record_ok record'
  /\ genesis_balance record' = genesis_balance record
  /\ (is_patoshi_locked record' (epoch_height ap) = true ->
      is_patoshi_locked record (epoch_height ap) = true)
  /\ (signer -> is_patoshi_locked record (epoch_height ap) = true -> genesis_balance record <= post).

(** After the guard: other records are as before, and the signer's record is the
    validated one or its version with an unlock epoch. *)
Lemma guard_record ts stx account r tsg p record' :
  let id := signer_id (stx_transaction stx) in
  patoshi_guard ap ts stx account r = Ok (inl tsg) ->
  (forall record, get_patoshi_record (ts_state ts) p = Ok (Some record) -> record_ok record) ->
  get_patoshi_record (ts_state tsg) p = Ok (Some record') ->
  record_from (ts_state ts) p (p = id) (vr_new_account_amount r + locked account) record'.
Proof using Hepoch.
  intros id H Hok Hrec. apply guard_cases in H. cbv zeta in H. fold id in H.
  assert (Hsame : tsg = ts -> (p = id -> forall record, get_patoshi_record (ts_state ts) p = Ok (Some record) ->
     is_patoshi_locked record (epoch_height ap) = true ->
     genesis_balance record <= vr_new_account_amount r + locked account) ->
     record_from (ts_state ts) p (p = id) (vr_new_account_amount r + locked account) record').
  { intros -> Hval. exists record'. split_and!; [done|by apply Hok|done|done|]. intros Hp. by apply Hval. }
  destruct (get_patoshi_record (ts_state ts) id) as [[record|]| |] eqn:Er; try done.
  2:{ apply Hsame; [done|]. intros -> rec Hrec'. congruence. }
  destruct (schedule_cases record (receiver_id (stx_transaction stx)) (actions (stx_transaction stx))
    (epoch_height ap)) as [E|(Hn & Hlock & _ & E)]; cbv zeta in E; rewrite E in H; destruct H as [Hv ->].
  - apply Hsame; [done|]. intros -> rec Hrec'. rewrite Er in Hrec'. injection Hrec' as <-.
    by eapply validated_floor.
  - unfold ts_state in Hrec at 1. simpl in Hrec. destruct (decide (p = id)) as [-> |Hne].
    + assert (Hr' : record_ok (mkPatoshiRecord (genesis_balance record) (is_locked record)
        (Some (saturating_add u64_max (epoch_height ap) PATOSHI_UNLOCK_DELAY_EPOCHS)))).
      { split; [by apply (Hok record)|]. intros u [= <-]. unfold saturating_add, is_u in *.
        unfold PATOSHI_UNLOCK_DELAY_EPOCHS, u64_max in *. lia. }
      rewrite get_set_patoshi_record in Hrec by done. injection Hrec as <-.
      exists record. split_and!; [done|done|done|done|]. intros _. by eapply validated_floor.
    + unfold get_patoshi_record, set_patoshi_record in Hrec.
      rewrite get_set_data_ne in Hrec by congruence.
      exists record'. split_and!; [done|by apply Hok|done|done|by intros ->].
Qed.

Lemma step_floor ts stx ts' p :
  keeps_floor ap (ts_state ts) p -> tx_step ap ts stx ts' -> keeps_floor ap (ts_state ts') p.
Proof using Hepoch.
  intros Hfl [ts1 e Hr Hco ->|ts1 ts2 account k k1 cost r paid o Hr Hco Hca Hck Hch Hs Hf Hcost];
    destruct (rg_frame _ _ _ _ Hr) as [Hacc _ Hdata _ _ _ _];
    apply (keeps_floor_frame _ _ _ _ Hacc Hdata) in Hfl; [done|].
  clear Hacc Hdata Hr. pose proof (co_account _ Hco _ _ Hca) as Ha.
  destruct Hch as (_ & _ & account' & k' & Happ & Hnew & [_ _ Hlk _] & _).
  assert (Hrec : forall record', get_patoshi_record (ts_state ts2) p = Ok (Some record') ->
    record_from (ts_state ts1) p (p = signer_id (stx_transaction stx)) (vr_new_account_amount r + locked account) record').
  { intros record' H'. inversion Hs as [Hamt|tsg Hg]; subst ts2.
    - exists record'. destruct (Hfl _ H') as [Hok Hle]. split_and!; [done..|].
      intros -> Hl. rewrite Hamt. by apply Hle.
    - eapply guard_record; [exact Hg|intros rec Hrec; by apply Hfl|].
      unfold emit in H'. by destruct (bool_decide _). }
  apply settled_frame in Hs as (_ & _ & Eacc & _).
  apply finish_cases in Hf as [[-> _]|(a2 & k2 & Happ2 & _ & Es & _)].
  - intros record' (record & H1 & Hok & Hg & Hl & _)%Hrec. split; [done|].
    intros Hlock a Ha'. unfold get_account in Ha'. rewrite Eacc in Ha'. rewrite Hg.
    by apply (Hfl record H1); [apply Hl|].
  - rewrite Happ in Happ2. injection Happ2 as <- <-. rewrite Es. intros record' H'.
    assert (H2 : get_patoshi_record (ts_state ts2) p = Ok (Some record')).
    { rewrite <- H'. unfold charged_state. by destruct (gas_key_nonce_update r) as [[]|]. }
    apply Hrec in H2 as (record & H1 & Hok & Hg & Hl & Hval). split; [done|].
    intros Hlock a. rewrite charged_account. rewrite Hg. case_decide as Hp.
    + intros [= <-]. rewrite <- Hnew, Hlk. by apply Hval, Hl.
    + unfold get_account. rewrite Eacc. intros Ha'. by apply (Hfl record H1); [apply Hl|].
Qed.

Lemma process_all_floor p l : forall ts ts',
  coherent ts -> keeps_floor ap (ts_state ts) p -> process_all ap ts l = Ok ts' ->
  keeps_floor ap (ts_state ts') p.
Proof using Hepoch.
  induction l as [|[stx e] l IH]; intros ts ts' Hco Hfl H; simpl in H; [by injection H as <-|].
  apply rbind_Ok in H as (ts1 & E & H). pose proof (process_step _ _ _ _ _ Hco E) as Hs.
  eapply IH; [by eapply step_coherent|by eapply step_floor|exact H].
Qed.
End floor.

(** C13. No chunk of transactions takes a locked Patoshi account below its genesis
    balance: if every locked record's account holds at least the floor, liquid and
    staked together, before [process_transactions], it does afterwards, through
    fees, failed deposits, several transactions of the account in one chunk, and
    transactions that schedule the unlock. *)
Theorem chunk_keeps_floor {C : Crates} vk svb threads min ap ts txs ts' p :
  is_u u64_max (epoch_height ap) -> keeps_floor ap (ts_state ts) p ->
  process_transactions vk svb threads min ap ts txs = Ok ts' -> keeps_floor ap (ts_state ts') p.
Proof.
  intros He Hfl (v & H)%process_transactions_inv.
  eapply process_all_floor; [exact He|apply prefetch_coherent| |exact H]. exact Hfl.
Qed.

(* ------------------------------------------------------------------ *)
(** ** The life of a Patoshi lock *)

Section lock.
Context {C : Crates} (ap : ApplyState) (p : AccountId).

(** [stx] asks for the unlock: a transfer of nothing from [p] to the foundation. *)
Definition asks_unlock (stx : SignedTransaction) : Prop :=
  signer_id (stx_transaction stx) = p
  /\ receiver_id (stx_transaction stx) = FOUNDATION_ACCOUNT_ID
  /\ actions (stx_transaction stx) = [Plain (Transfer 0)].

(** What a step does to the record of [p]: nothing, or it schedules the unlock of a
    record without one. *)
Definition record_moves (record : PatoshiRecord) (asked : Prop) (s' : State) : Prop :=
  get_patoshi_record s' p = Ok (Some record)
  \/ (asked /\ unlock_epoch record = None
      /\ get_patoshi_record s' p = Ok (Some (scheduled_record record (epoch_height ap)))).

Lemma guard_moves ts stx account r tsg record :
  is_u u64_max (epoch_height ap) -> record_ok record ->
  get_patoshi_record (ts_state ts) p = Ok (Some record) ->
  patoshi_guard ap ts stx account r = Ok (inl tsg) ->
  record_moves record (asks_unlock stx) (ts_state tsg).
Proof.
  intros He Hok Hrec H. apply guard_cases in H. cbv zeta in H.
  destruct (get_patoshi_record (ts_state ts) (signer_id _)) as [[q|]| |] eqn:Er; try done;
    [|subst tsg; by left].
  destruct (schedule_cases q (receiver_id (stx_transaction stx)) (actions (stx_transaction stx))
    (epoch_height ap)) as [E|(Hn & _ & Ht & E)]; cbv zeta in E; rewrite E in H; destruct H as [_ ->];
    [by left|].
  apply trigger_inv in Ht as [Hrid Hact]. unfold ts_state. cbn [put_state ts_update su_put su_current].
  destruct (decide (signer_id (stx_transaction stx) = p)) as [Hp|Hne].
  - rewrite Hp in Er |- *. rewrite Hrec in Er. injection Er as <-. right.
    split; [done|]. split; [done|]. by apply get_set_patoshi_record, scheduled_record_ok.
  - left. unfold get_patoshi_record, set_patoshi_record in *.
    rewrite get_set_data_ne by congruence. exact Hrec.
Qed.

Lemma step_moves ts stx ts' record :
  is_u u64_max (epoch_height ap) -> record_ok record ->
  get_patoshi_record (ts_state ts) p = Ok (Some record) -> tx_step ap ts stx ts' ->
  record_moves record (asks_unlock stx) (ts_state ts').
Proof.
  intros He Hok Hrec
    [ts1 e Hr Hco ->|ts1 ts2 account k k1 cost r paid o Hr Hco Hca Hck Hch Hs Hf Hcost];
    destruct (rg_frame _ _ _ _ Hr) as [_ _ Hdata _ _ _ _];
    assert (H1 : get_patoshi_record (ts_state ts1) p = Ok (Some record))
      by (unfold get_patoshi_record, get_data in *; by rewrite Hdata); [by left|].
  assert (H2 : record_moves record (asks_unlock stx) (ts_state ts2)).
  { destruct Hs as [_|tsg Hg]; [by left|].
    replace (ts_state (emit tsg _ _)) with (ts_state tsg) by (unfold emit; by destruct (bool_decide _)).
    by eapply guard_moves. }
  apply finish_cases in Hf as [[-> _]|(a2 & k2 & _ & _ & Es & _)]; [done|].
  assert (E : get_patoshi_record (ts_state ts') p = get_patoshi_record (ts_state ts2) p).
  { rewrite Es. unfold charged_state. by destruct (gas_key_nonce_update r) as [[]|]. }
  unfold record_moves. by rewrite E.
Qed.

Lemma process_all_moves l : forall ts ts' record,
  is_u u64_max (epoch_height ap) -> record_ok record -> coherent ts ->
  get_patoshi_record (ts_state ts) p = Ok (Some record) -> process_all ap ts l = Ok ts' ->
  record_moves record (exists stx, (stx, None) ∈ l /\ asks_unlock stx) (ts_state ts').
Proof.
  induction l as [|[stx e] l IH]; intros ts ts' record He Hok Hco Hrec H; simpl in H;
    [injection H as <-; by left|].
  apply rbind_Ok in H as (ts1 & E & H). pose proof (process_step _ _ _ _ _ Hco E) as Hs.
  pose proof (step_coherent _ _ _ _ Hs) as Hco1.
  destruct (step_moves _ _ _ _ He Hok Hrec Hs) as [H1|(Ha & Hn & H1)].
  - destruct (IH _ _ _ He Hok Hco1 H1 H) as [H2|((q & Hin & Ha) & Hn & H2)]; [by left|].
    right. split_and!; [|done..]. exists q. split; [by right|done].
  - destruct (IH _ _ _ He (scheduled_record_ok _ _ Hok He) Hco1 H1 H) as [H2|(_ & Hn2 & _)]; [|done].
    destruct e as [e|].
    + injection E as <-. change (get_patoshi_record (ts_state ts) p
        = Ok (Some (scheduled_record record (epoch_height ap)))) in H1.
      rewrite Hrec in H1. injection H1 as H1. by rewrite H1 in Hn.
    + right. split_and!; [|done..]. exists stx. split; [by left|done].
Qed.

(** A transaction that was not rejected by validation is valid on its own. *)
Lemma validate_each_None cfg version txs : forall vs stx,
  validate_each cfg version txs = Ok vs -> (stx, None) ∈ zip (map fst txs) vs ->
  (stx, true) ∈ txs /\ is_ok (validate_transaction cfg stx version) = true.
Proof.
  induction txs as [|[q b] txs IH]; intros vs stx H Hin; simpl in H; [injection H as <-; by apply elem_of_nil in Hin|].
  apply rbind_Ok in H as (v & Ev & H). apply rbind_Ok in H as (vs' & Evs & [= <-]).
  apply elem_of_cons in Hin as [[= <- <-]|Hin].
  - destruct b; [|done]. split; [by left|]. unfold error_of in Ev. by destruct (validate_transaction _ _ _).
  - destruct (IH _ _ Evs Hin) as [? ?]. split; [by right|done].
Qed.
End lock.

Section history.
Context {C : Crates} (vk : list Z -> bool) (svb : list (list Z) -> list (list Z) -> list (list Z) -> bool).
Context (threads min : Z) (p : AccountId).

(** The transactions of a sequence of chunks, from state [s] to state [s']: between
    two chunks anything happens that leaves the record of [p] as it is. *)
Inductive chunk_history : State -> list (ApplyState * list (SignedTransaction * bool)) -> State -> Prop :=
| history_nil s s' :
    get_patoshi_record s' p = get_patoshi_record s p -> chunk_history s [] s'
| history_cons s ap ts txs ts' h s' :
    get_patoshi_record (ts_state ts) p = get_patoshi_record s p ->
    process_transactions vk svb threads min ap ts txs = Ok ts' ->
    chunk_history (ts_state ts') h s' -> chunk_history s ((ap, txs) :: h) s'.

(** [c] holds a transaction of [p] that asks for the unlock, has not expired and is valid. *)
Definition unlock_asked (c : ApplyState * list (SignedTransaction * bool)) : Prop :=
  exists stx, (stx, true) ∈ c.2 /\ asks_unlock p stx
  /\ is_ok (validate_transaction (config c.1) stx (current_protocol_version c.1)) = true.

Hypothesis Hbatch : batch_sound svb.
Hypothesis Hthreads : 0 <= threads.
Hypothesis Hmin : 0 <= min.

Lemma chunk_moves ap ts txs ts' record :
  is_u u64_max (epoch_height ap) -> record_ok record ->
  get_patoshi_record (ts_state ts) p = Ok (Some record) ->
  process_transactions vk svb threads min ap ts txs = Ok ts' ->
  record_moves ap p record (unlock_asked (ap, txs)) (ts_state ts').
Proof using Hbatch Hthreads Hmin.
  intros He Hok Hrec H. unfold process_transactions in H.
  destruct (chunk_size _ _ _) as [size| |] eqn:Es; [|done..].
  rewrite (proj2 (batched_validation_agrees vk svb _ _ _ _ _ _ Hbatch Hthreads Hmin Es)) in H.
  destruct (validate_each _ _ _) as [vs| |] eqn:Ev; [|done..].
  destruct (process_all_moves ap p _ _ _ record He Hok (prefetch_coherent _ _) Hrec H)
    as [H1|((stx & Hin & Ha) & H1)]; [by left|].
  right. split; [|exact H1]. destruct (validate_each_None _ _ _ _ _ Ev Hin). by exists stx.
Qed.

Lemma history_scheduled s h s' record :
  chunk_history s h s' -> Forall (fun c => is_u u64_max (epoch_height c.1)) h -> record_ok record ->
  get_patoshi_record s p = Ok (Some record) -> unlock_epoch record <> None ->
  get_patoshi_record s' p = Ok (Some record).
Proof using Hbatch Hthreads Hmin.
  induction 1 as [s s' E|s ap ts txs ts' h s' E Hp _ IH]; intros He Hok Hrec Hu; [congruence|].
  apply Forall_cons_1 in He as [He1 He]. rewrite <- E in Hrec.
  by destruct (chunk_moves ap ts txs ts' record He1 Hok Hrec Hp) as [H1|(_ & Hn & _)]; [apply IH|].
Qed.

Lemma history_moves s h s' record :
  chunk_history s h s' -> Forall (fun c => is_u u64_max (epoch_height c.1)) h -> record_ok record ->
  get_patoshi_record s p = Ok (Some record) ->
  get_patoshi_record s' p = Ok (Some record)
  \/ exists c, c ∈ h /\ unlock_asked c
     /\ get_patoshi_record s' p = Ok (Some (scheduled_record record (epoch_height c.1))).
Proof using Hbatch Hthreads Hmin.
  induction 1 as [s s' E|s ap ts txs ts' h s' E Hp Hh IH]; intros He Hok Hrec; [left; congruence|].
  apply Forall_cons_1 in He as [He1 He]. rewrite <- E in Hrec.
  destruct (chunk_moves ap ts txs ts' record He1 Hok Hrec Hp) as [H1|(Ha & _ & H1)].
  - destruct (IH He Hok H1) as [H2|(c & Hc & H2)]; [by left|]. right. exists c. split; [by right|done].
  - right. exists (ap, txs). split; [by left|]. split; [done|].
    apply (history_scheduled _ _ _ _ Hh He); [by apply scheduled_record_ok|done..].
Qed.
End history.


(* ------------------------------------------------------------------ *)
(** ** Deleted keys *)

(** C36. Deleting the key of a Bitcoin account does not retire its nonces.  After a
    successful [DeleteKey] of the regular key that owns the address, take a
    transaction signed by it that passed the nonce check before, at a height not
    above the present one, with a nonce at most the one of the deleted key and not a
    multiple of 10^6.  Its signature registers the key again, with full access and a
    nonce below its own, so that the old transaction passes the nonce check a second
    time. *)
Theorem deleted_key_comes_back {C : Crates} cfg s account res id raw hash k old s1 acc1 res1 cur0 bh0 bh n :
  is_bitcoin_address id = true -> length hash = 32%nat -> secp_recover raw hash = Some k ->
  id ∈ derive_all_bitcoin_addresses k ->
  get_access_key s id (SECP256K1 k) = Some old -> gas_key_info old = None ->
  0 <= n <= ak_nonce old -> ak_nonce old <= u64_max -> n mod ACCESS_KEY_NONCE_RANGE_MULTIPLIER <> 0 ->
  verify_nonce n cur0 (Some bh0) = Ok tt ->
  1 <= bh0 <= bh -> bh * ACCESS_KEY_NONCE_RANGE_MULTIPLIER <= u64_max ->
  action_delete_key cfg s account res id (SECP256K1 k) = Ok (s1, acc1, res1) ->
  exists s2 new,
    maybe_auto_register_bitcoin_access_key s1 id (SECP256K1 k) (SigSECP256K1 raw) hash bh n = (s2, Ok true)
    /\ get_access_key s2 id (SECP256K1 k) = Some new
    /\ ak_permission new = PermFullAccess /\ ak_nonce new < n
    /\ verify_nonce n (ak_nonce new) (Some bh) = Ok tt.
Proof.
  intros Hb Hl Hr Hin Hk Hg Hn Hmax Hmod Hold Hbh Hbm Hdel. unfold action_delete_key in Hdel.
  rewrite Hk, Hg in Hdel. injection Hdel as <- <- <-.
  destruct (fresh_key_registered (remove_access_key s id (SECP256K1 k)) id raw hash k bh n)
    as (s2 & E & _ & Hnew & Hlt); [done..|apply lookup_delete_eq|lia|done|split; lia|].
  do 2 eexists. split_and!; [exact E|exact Hnew|done|by apply Hlt|].
  apply verify_nonce_Ok. split; [by apply Hlt|]. intros h [= <-].
  apply verify_nonce_Ok in Hold as [_ Hold]. specialize (Hold bh0 eq_refl).
  unfold saturating_mul, ACCESS_KEY_NONCE_RANGE_MULTIPLIER in *. lia.
Qed.

(* ------------------------------------------------------------------ *)
(** ** The theorems at concrete inputs *)

Section witnesses.
#[local] Existing Instance Toy.crates.

Definition chunk_key : PublicKey := ED25519 (replicate 32 7).

(** A locked account that sends the same donation to the foundation twice. *)
Definition chunk_account : Account := account_new (10 ^ 27) 0 ContractNone 200.

Definition chunk_state : State :=
  set_patoshi_record
    (set_access_key (set_account empty_state "alice.near" chunk_account) "alice.near" chunk_key full_access)
    "alice.near" sample_record.

Definition chunk_stx : SignedTransaction :=
  sample_signed (sample_transfer "alice.near" FOUNDATION_ACCOUNT_ID chunk_key 12 5) (replicate 32 7).

Definition chunk_apply : ApplyState := mkApplyState 100 3 5 (Some (10 ^ 15)) 200 sample_config 0.

Definition chunk_start : TxState :=
  mkTxState (mkStateUpdate chunk_state chunk_state) no_caches [] [] [] (mkBalanceStats 0 0 0) 0 0.

Definition any_key (k : list Z) : bool := true.

(** A batch verifier that checks the signatures one by one. *)
Fixpoint each_verifies (ms ss ks : list (list Z)) : bool :=
  match ms, ss, ks with
  | m :: ms, s :: ss, k :: ks => verify_ed25519 s m k && each_verifies ms ss ks
  | _, _, _ => true
  end.

Definition chunk_txs : list (SignedTransaction * bool) := [(chunk_stx, true); (chunk_stx, true)].

#[local] Notation chunk_run :=
  (process_transactions any_key each_verifies 2 8 chunk_apply chunk_start chunk_txs).

Lemma chunk_runs : is_ok chunk_run = true.
Proof. vm_compute. reflexivity. Qed.

Lemma each_verifies_sound : batch_sound each_verifies.
Proof.
  intros ms. induction ms as [|m ms IH]; intros ss ks H i x y z Hx Hy Hz; [done|].
  destruct ss as [|s ss], ks as [|k ks]; try done. simpl in H. apply andb_prop in H as [H1 H2].
  destruct i as [|i]; simpl in Hx, Hy, Hz;
    [by injection Hx as <-; injection Hy as <-; injection Hz as <-|]. by eapply (IH ss ks H2 i).
Qed.

Lemma batched_validation_agrees_witness :
  validate_chunks any_key each_verifies sample_config 200 [chunk_txs]
  = validate_each sample_config 200 chunk_txs.
Proof.
  exact (proj2 (batched_validation_agrees any_key each_verifies sample_config 200 chunk_txs 2 8 8
                  each_verifies_sound ltac:(lia) ltac:(lia) eq_refl)).
Defined.

Lemma chunk_bounded :
  Forall (fun p => Forall action_bounded (flatten (actions (stx_transaction p.1)))) chunk_txs.
Proof.
  assert (H : Forall action_bounded [Transfer 5]) by (apply transfer_bounded; vm_compute; split; congruence).
  constructor; [exact H|]. constructor; [exact H|constructor].
Qed.

Lemma sample_fees_nonneg : fees_nonneg sample_config.
Proof. intros c sir. destruct c, sir; vm_compute; split; congruence. Qed.

Lemma chunk_start_account : get_account chunk_state "alice.near" = Some chunk_account.
Proof. reflexivity. Qed.

Lemma chunk_start_healthy : healthy sample_config chunk_start.
Proof.
  split; [| |vm_compute; congruence|vm_compute; split; congruence|vm_compute; congruence].
  - intros id a. change (get_account (ts_state chunk_start) id)
      with (get_account (set_account empty_state "alice.near" chunk_account) id).
    unfold get_account, set_account. simpl. intros [[<- <-]|[_ H]]%lookup_insert_Some; [|done].
    vm_compute. split; congruence.
  - intros id pk k. change (get_access_key (ts_state chunk_start) id pk)
      with (get_access_key (set_access_key empty_state "alice.near" chunk_key full_access) id pk).
    unfold get_access_key, set_access_key. simpl. intros [[_ <-]|[_ H]]%lookup_insert_Some; done.
Qed.

Lemma chunk_conserves_witness :
  exists ts', chunk_run = Ok ts'
  /\ tx_supply (config chunk_apply) ts' = tx_supply (config chunk_apply) chunk_start.
Proof.
  destruct (is_ok_inv _ chunk_runs) as (ts' & E). exists ts'. split; [exact E|].
  exact (proj1 (chunk_conserves any_key each_verifies 2 8 chunk_apply chunk_start chunk_txs ts'
                  sample_fees_nonneg ltac:(vm_compute; congruence) chunk_bounded chunk_start_healthy E)).
Defined.

Lemma chunk_start_floor : keeps_floor chunk_apply chunk_state "alice.near".
Proof.
  intros record. unfold chunk_state at 1.
  rewrite get_set_patoshi_record by (split; [vm_compute; split; congruence|by intros]).
  intros [= <-]. split; [split; [vm_compute; split; congruence|by intros]|]. intros _ a.
  rewrite chunk_start_account. intros [= <-]. vm_compute. congruence.
Qed.

Lemma chunk_keeps_floor_witness :
  exists ts', chunk_run = Ok ts' /\ keeps_floor chunk_apply (ts_state ts') "alice.near".
Proof.
  destruct (is_ok_inv _ chunk_runs) as (ts' & E). exists ts'. split; [exact E|].
  exact (chunk_keeps_floor any_key each_verifies 2 8 chunk_apply chunk_start chunk_txs ts' "alice.near"
           ltac:(vm_compute; split; congruence) chunk_start_floor E).
Defined.

(** The unlock is asked for in a chunk: the account is free fourteen epochs later. *)
Definition unlock_stx : SignedTransaction :=
  sample_signed (sample_transfer "alice.near" FOUNDATION_ACCOUNT_ID chunk_key 12 0) (replicate 32 7).

#[local] Notation unlock_run :=
  (process_transactions any_key each_verifies 2 8 chunk_apply chunk_start [(unlock_stx, true)]).

Definition unlocked_at (e : Z) (m : result TxState RuntimeError) : bool :=
  match m with
  | Ok ts' =>
      match get_patoshi_record (ts_state ts') "alice.near" with
      | Ok (Some record) => negb (is_patoshi_locked record e)
      | _ => false
      end
  | _ => false
  end.

Lemma unlock_runs : unlocked_at (epoch_height chunk_apply + 14) unlock_run = true.
Proof. vm_compute. reflexivity. Qed.

Lemma chunk_start_record : get_patoshi_record chunk_state "alice.near" = Ok (Some sample_record).
Proof. vm_compute. reflexivity. Qed.


Definition chunk_cached : TxState := put_caches chunk_start (prefetch chunk_state chunk_txs).

(** A transaction that is accepted, with a second copy processed after it. *)
Definition accepted_then_again (ap : ApplyState) (ts : TxState) (stx : SignedTransaction) : bool :=
  match process_transaction ap ts stx None with
  | Ok ts1 =>
      match ts_outcomes ts1 with
      | [o] => match o_status o with
               | SuccessReceiptId _ => is_ok (process_transaction ap ts1 stx None)
               | _ => false
               end
      | _ => false
      end
  | _ => false
  end.

Lemma accepted_inv ap ts stx :
  ts_outcomes ts = [] -> accepted_then_again ap ts stx = true ->
  exists ts1 o ts3, process_transaction ap ts stx None = Ok ts1
  /\ ts_outcomes ts1 = ts_outcomes ts ++ [o] /\ (forall e, o <> failed stx e)
  /\ process_transaction ap ts1 stx None = Ok ts3.
Proof.
  intros E0 H. unfold accepted_then_again in H. destruct (process_transaction _ ts _ _) as [ts1| |]; try done.
  destruct (ts_outcomes ts1) as [|o [|]] eqn:Eo; try done.
  destruct (o_status o) eqn:Es; try done. destruct (is_ok_inv _ H) as (ts3 & E3).
  exists ts1, o, ts3. rewrite E0. split_and!; [done|exact Eo|by intros e ->|done].
Qed.

Lemma accepted_run : accepted_then_again chunk_apply chunk_cached chunk_stx = true.
Proof. vm_compute. reflexivity. Qed.

Lemma no_replay_witness :
  exists ts1 ts3 err, process_transaction chunk_apply chunk_cached chunk_stx None = Ok ts1
  /\ process_transaction chunk_apply ts1 chunk_stx None = Ok ts3 /\ ts3 = reject chunk_apply ts1 chunk_stx err.
Proof.
  destruct (accepted_inv chunk_apply chunk_cached chunk_stx eq_refl accepted_run) as (ts1 & o & ts3 & E1 & Eo & Hne & E3).
  destruct (no_replay chunk_apply chunk_cached chunk_stx None o ts1 [] ts1 chunk_stx None ts3
              (prefetch_coherent chunk_start chunk_txs) E1 Eo Hne eq_refl eq_refl eq_refl eq_refl E3)
    as (err & H).
  exists ts1, ts3, err. exact (conj E1 (conj E3 H)).
Defined.

Definition deleted_state : State :=
  set_access_key empty_state sample_btc (SECP256K1 sample_key) (mkAccessKey 7000001 PermFullAccess).

Lemma deleted_key_comes_back_witness :
  exists s2 new,
    maybe_auto_register_bitcoin_access_key
      (remove_access_key deleted_state sample_btc (SECP256K1 sample_key)) sample_btc
      (SECP256K1 sample_key) (SigSECP256K1 sample_sig) sample_msg 9 7000001 = (s2, Ok true)
    /\ get_access_key s2 sample_btc (SECP256K1 sample_key) = Some new /\ ak_nonce new < 7000001
    /\ verify_nonce 7000001 (ak_nonce new) (Some 9) = Ok tt.
Proof.
  assert (Hk : get_access_key deleted_state sample_btc (SECP256K1 sample_key)
               = Some (mkAccessKey 7000001 PermFullAccess)) by apply get_set_access_key.
  assert (Hd : action_delete_key (fees sample_config) deleted_state chunk_account result_default sample_btc
      (SECP256K1 sample_key)
    = Ok (delete_regular_key (fees sample_config) deleted_state chunk_account sample_btc
            (SECP256K1 sample_key) (mkAccessKey 7000001 PermFullAccess), result_default))
    by (unfold action_delete_key; by rewrite Hk).
  destruct (deleted_key_comes_back (fees sample_config) deleted_state chunk_account result_default
    sample_btc sample_sig sample_msg sample_key _ _ _ _ 7000000 8 9 7000001 sample_btc_is_bitcoin eq_refl
    sample_recover sample_owner Hk eq_refl ltac:(simpl; lia) ltac:(vm_compute; congruence)
    ltac:(vm_compute; congruence) eq_refl ltac:(lia) ltac:(vm_compute; congruence) Hd)
    as (s2 & new & H1 & H2 & _ & H3).
  exists s2, new. exact (conj H1 (conj H2 H3)).
Defined.
End witnesses.
