(* ===== verification/Supply.v ===== *)
(** * The tokens of a chunk

    Tokens are held by accounts and gas keys, carried by receipts (waiting in the
    state, delayed, buffered, sent, or about to be executed), or burnt.  Processing the
    receipts of a chunk moves them between these places and creates none. *)

From S2P Require Import Prelude Crates AccountId Primitives Errors Fees Borsh Wire ReceiptWire ShardLayout.
From S2P Require Import TrieQueue OutgoingMetadata State RuntimeTypes Validation Congestion SinkProofs Actions.
From S2P Require Import Runtime Receipts Conservation ReceiptConservation ReceiptFrames TransactionProofs.

(* ------------------------------------------------------------------ *)
(** ** Queues and sink, when they succeed *)

Definition stored_queue (q : TrieQueue Entry) : Prop := queue_abs q (contents q).
Definition stored_buffers (s : ReceiptSink) : Prop :=
  map_Forall (fun _ q => stored_queue q) (rs_outgoing_buffers s).

Lemma push_back_contents (q q' : TrieQueue Entry) e :
  stored_queue q -> push_back q e = Ok q' -> stored_queue q' /\ contents q' = contents q ++ [e].
Proof.
  intros Hq H. pose proof (push_back_abs _ _ e Hq) as Hp. case_match; [|congruence].
  destruct Hp as (q1 & E & Hq1). rewrite H in E. injection E as <-.
  pose proof (contents_abs _ _ Hq1) as Hc. unfold stored_queue. by rewrite Hc.
Qed.

Lemma to_shard_stored s shard : stored_buffers s -> stored_queue (to_shard s shard).
Proof.
  intros Hs. unfold to_shard. destruct (rs_outgoing_buffers s !! shard) as [q|] eqn:E; simpl.
  - by eapply Hs.
  - apply queue_abs_empty.
Qed.

Lemma get_stored_form cfg r size gas : get_receipt (stored_form cfg r size gas) = r.
Proof. unfold stored_form. by destruct (use_state_stored_receipt cfg). Qed.

Lemma try_forward_kept cfg r gas size shard s b s' :
  try_forward cfg r gas size shard s = Ok (b, s') ->
  rs_outgoing_buffers s' = rs_outgoing_buffers s
  /\ rs_outgoing_receipts s' = rs_outgoing_receipts s ++ (if b then [r] else []).
Proof.
  unfold try_forward. intros H. destruct (_ && _).
  - apply rbind_Ok in H as (? & _ & H). apply rbind_Ok in H as (? & _ & H). by injection H as <- <-.
  - injection H as <- <-. by rewrite app_nil_r.
Qed.

Section sinks.
Context {C : Crates}.

Lemma forward_or_buffer_carried cfg layout r s s' :
  stored_buffers s -> forward_or_buffer_receipt cfg layout r s = Ok s' ->
  stored_buffers s' /\ forall w, carried w s' = carried w s + w r.
Proof.
  intros Hs H. unfold forward_or_buffer_receipt in H. apply rbind_Ok in H as (shard & _ & H).
  apply rbind_Ok in H as (gas & _ & H). apply rbind_Ok in H as ([b s1] & E & H).
  apply try_forward_kept in E as [Eb Eo]. destruct b.
  { injection H as <-. split; [unfold stored_buffers; by rewrite Eb|].
    intros w. unfold carried. rewrite Eb, Eo, zsum_app. simpl. lia. }
  rewrite app_nil_r in Eo. unfold buffer_receipt in H.
  apply rbind_Ok in H as (? & _ & H). apply rbind_Ok in H as (? & _ & H).
  apply rbind_Ok in H as (? & _ & H). apply rbind_Ok in H as (q & Eq & H). apply map_err_Ok in Eq.
  injection H as <-. assert (to_shard s1 shard = to_shard s shard) as Ets by (unfold to_shard; by rewrite Eb).
  rewrite Ets in Eq. apply push_back_contents in Eq as [Hq Hc]; [|by apply to_shard_stored].
  split; [unfold stored_buffers; simpl; rewrite Eb; by apply map_Forall_insert_2|].
  intros w. unfold carried. simpl. rewrite Eo, Eb.
  unfold buffers_sum. rewrite (sum_insert (queue_weight w)).
  pose proof (to_shard_sum (queue_weight w) s shard eq_refl) as Es. rewrite Es.
  unfold queue_weight at 3. rewrite Hc, map_app, zsum_app. simpl.
  rewrite get_stored_form. unfold queue_weight. lia.
Qed.

Lemma send_all_carried cfg layout rs : forall s s',
  stored_buffers s -> send_all cfg layout rs s = Ok s' ->
  stored_buffers s' /\ forall w, carried w s' = carried w s + zsum w rs.
Proof.
  induction rs as [|r rs IH]; intros s s' Hs H; simpl in H.
  { injection H as <-. split; [done|]. intros w. simpl. lia. }
  apply rbind_Ok in H as (s1 & E & H). apply forward_or_buffer_carried in E as [Hs1 E]; [|done].
  apply IH in H as [Hs' E']; [|done]. split; [done|]. intros w. rewrite E', E, zsum_cons. lia.
Qed.

Lemma delayed_push_contents cfg d r d' :
  stored_queue (dq_queue d) -> delayed_push cfg d r = Ok d' ->
  stored_queue (dq_queue d')
  /\ exists e, get_receipt e = r /\ contents (dq_queue d') = contents (dq_queue d) ++ [e].
Proof.
  intros Hq H. unfold delayed_push in H. apply rbind_Ok in H as (gas & _ & H).
  apply rbind_Ok in H as (? & _ & H). apply rbind_Ok in H as (? & _ & H).
  apply rbind_Ok in H as (q & Eq & H). apply map_err_Ok in Eq. injection H as <-.
  apply push_back_contents in Eq as [? ?]; [|done]. split; [done|].
  eexists. split; [apply (get_stored_form cfg)|done].
Qed.

(** Whether a receipt belongs to shard [own]. *)
Definition belongs (layout : ShardLayout) (own : Z) (r : Receipt) : bool :=
  match receiver_shard_id layout r with Ok shard => shard =? own | _ => false end.

Lemma delayed_pop_loop_contents cfg layout own limit fuel : forall n d o d',
  stored_queue (dq_queue d) -> delayed_pop_loop fuel cfg layout own limit n d = Ok (o, d') ->
  stored_queue (dq_queue d')
  /\ exists skipped, contents (dq_queue d) = skipped ++ popped o ++ contents (dq_queue d')
       /\ Forall (fun e => belongs layout own (get_receipt e) = false) skipped
       /\ forall e, o = Some e -> belongs layout own (get_receipt e) = true.
Proof.
  induction fuel as [|fuel IH]; intros n d o d' Hq H; [done|]. simpl in H. destruct (limit n).
  { injection H as <- <-. split; [done|]. by exists []. }
  pose proof (pop_front_abs _ _ Hq) as Hp. destruct (contents (dq_queue d)) as [|e l] eqn:E.
  { rewrite Hp in H. injection H as <- <-. split; [done|]. exists []. by rewrite E. }
  destruct Hp as (q' & Ep & Hq'). rewrite Ep in H. cbn [map_err rbind] in H.
  pose proof (contents_abs _ _ Hq') as Hc.
  apply rbind_Ok in H as (g & _ & H). apply rbind_Ok in H as (? & _ & H). apply rbind_Ok in H as (? & _ & H).
  apply rbind_Ok in H as (keep & Ek & H). unfold receipt_filter_fn in Ek.
  assert (belongs layout own (get_receipt e) = keep) as Hb
    by (unfold belongs; destruct (receiver_shard_id _ _); [by injection Ek|done|done]).
  destruct keep.
  - injection H as <- <-. simpl. split; [unfold stored_queue; by rewrite Hc|]. exists []. rewrite Hc.
    split_and!; [done|done|]. by intros ? [= <-].
  - apply IH in H as (Hq1 & skipped & E1 & Hs & Ho); [|unfold stored_queue; simpl; by rewrite Hc].
    simpl in E1. rewrite Hc in E1. split; [done|]. exists (e :: skipped).
    split_and!; [by rewrite E1|by constructor|done].
Qed.

Lemma forward_items_kept cfg layout l : forall s n ups s' n' ups',
  forward_items cfg layout (map Ok l) s n ups = Ok (s', n', ups') ->
  rs_outgoing_buffers s' = rs_outgoing_buffers s
  /\ exists k, (k <= length l)%nat /\ n' = n + Z.of_nat k
       /\ rs_outgoing_receipts s' = rs_outgoing_receipts s ++ map get_receipt (take k l).
Proof.
  induction l as [|e l IH]; intros s n ups s' n' ups' H; simpl in H.
  { injection H as <- <- <-. split; [done|]. exists 0%nat. rewrite app_nil_r. split_and!; [done|lia|done]. }
  apply rbind_Ok in H as (gas & _ & H). apply rbind_Ok in H as (shard & _ & H).
  apply rbind_Ok in H as ([b s1] & E & H). apply try_forward_kept in E as [Eb Eo]. destruct b.
  - apply rbind_Ok in H as (? & _ & H). apply rbind_Ok in H as (? & _ & H).
    apply IH in H as (Eb2 & k & Hk & En & Eo2). simpl in Eb2, Eo2. split; [congruence|].
    exists (S k). simpl. rewrite Eo2, Eo, <- app_assoc. split_and!; [lia|lia|done].
  - injection H as <- <- <-. split; [done|]. exists 0%nat. rewrite Eo. split_and!; [lia|lia|done].
Qed.

Lemma forward_to_shard_carried cfg layout shard s s' :
  stored_buffers s -> forward_from_buffer_to_shard cfg layout shard s = Ok s' ->
  stored_buffers s' /\ forall w, carried w s' = carried w s.
Proof.
  intros Hs H. unfold forward_from_buffer_to_shard in H. pose proof (to_shard_stored s shard Hs) as Hq.
  apply rbind_Ok in H as ([[s1 n] ups] & E & H). rewrite (queue_iter_abs _ _ Hq) in E.
  apply forward_items_kept in E as (Eb & k & Hk & -> & Eo).
  assert (to_shard s1 shard = to_shard s shard) as Ets by (unfold to_shard; by rewrite Eb). rewrite Ets in H.
  destruct (pop_n_abs (0 + Z.of_nat k) _ _ ltac:(lia) Hq) as (q' & Epop & Hq'). rewrite Epop in H.
  replace (Z.to_nat (Z.min (0 + Z.of_nat k) (Z.of_nat (length (contents (to_shard s shard)))))) with k in * by lia.
  pose proof (contents_abs _ _ Hq') as Hc. apply rbind_Ok in H as (m & _ & H). injection H as <-.
  assert (stored_queue q') as Hsq by (unfold stored_queue; by rewrite Hc).
  destruct (Z.ltb_spec 0 (Z.of_nat k)) as [Hpos|Hz].
  - split; [unfold stored_buffers; simpl; rewrite Eb; by apply map_Forall_insert_2|].
    intros w. unfold carried, buffers_sum. simpl. rewrite Eb, Eo, zsum_app, (sum_insert (queue_weight w)).
    pose proof (to_shard_sum (queue_weight w) s shard eq_refl) as Es. rewrite Es.
    unfold queue_weight at 2 3. rewrite Hc.
    rewrite <- (take_drop k (contents (to_shard s shard))) at 2. rewrite map_app, zsum_app. lia.
  - assert (k = 0%nat) as -> by lia. split; [unfold stored_buffers; simpl; by rewrite Eb|].
    intros w. unfold carried. simpl. by rewrite Eb, Eo, app_nil_r.
Qed.

Lemma forward_buffers_carried cfg layout shards : forall s b s' b',
  stored_buffers s -> forward_from_buffers cfg layout shards s b = Ok (s', b') ->
  stored_buffers s' /\ forall w, carried w s' = carried w s.
Proof.
  induction shards as [|shard shards IH]; intros s b s' b' Hs H; simpl in H; [by injection H as <- <-|].
  apply rbind_Ok in H as (s1 & E & H). apply rbind_Ok in H as (len & _ & H).
  apply forward_to_shard_carried in E as [Hs1 E]; [|done]. apply IH in H as [Hs' E']; [|done].
  split; [done|]. intros w. by rewrite E', E.
Qed.

Lemma forward_from_buffer_carried cfg layout s s' :
  stored_buffers s -> forward_from_buffer cfg layout s = Ok s' ->
  stored_buffers s' /\ forall w, carried w s' = carried w s.
Proof.
  intros Hs H. unfold forward_from_buffer in H. apply rbind_Ok in H as (parents & _ & H).
  apply rbind_Ok in H as ([s1 b] & E & H). apply forward_buffers_carried in E; [|done].
  destruct (_ && _); [done|]. by injection H as <-.
Qed.
End sinks.

(* ------------------------------------------------------------------ *)
(** ** The state *)

Section world.
Context {C : Crates}.

(** Tokens carried by the receipts that wait in the state. *)
Definition column_value (cfg : RuntimeConfig) (m : gmap (AccountId * CryptoHash) Receipt) : Z :=
  map_fold (fun _ r acc => receipt_value cfg r + acc) 0 m.
Definition waiting (cfg : RuntimeConfig) (s : State) : Z :=
  column_value cfg (rc_postponed_receipts (st_receipts s))
  + column_value cfg (rc_yield_receipts (st_receipts s)).

(** Every account is well formed, the system has none, and what waits is sound. *)
Record world (s : State) : Prop := mk_world {
  wo_inv : forall id, inv id s (get_account s id);
  wo_system : forall id, not_system id (get_account s id);
  wo_postponed : map_Forall (fun _ r => sound_receipt r) (rc_postponed_receipts (st_receipts s));
  wo_yields : map_Forall (fun _ r => sound_receipt r) (rc_yield_receipts (st_receipts s));
}.

(** Accounts and keys are the same. *)
Lemma world_accounts s s' :
  world s -> st_accounts s' = st_accounts s -> st_access_keys s' = st_access_keys s ->
  map_Forall (fun _ r => sound_receipt r) (rc_postponed_receipts (st_receipts s')) ->
  map_Forall (fun _ r => sound_receipt r) (rc_yield_receipts (st_receipts s')) -> world s'.
Proof.
  intros [W1 W2 _ _] E1 E2 P Y. split; [|unfold get_account; by rewrite E1|done|done].
  intros id. apply (inv_frame id s); [done..|]. unfold get_account. rewrite E1. apply W1.
Qed.

Lemma world_touches id s s' :
  world s -> touches id s s' -> inv id s' (get_account s' id) -> not_system id (get_account s' id) ->
  world s'.
Proof.
  intros [W1 W2 W3 W4] [A K [_ _ _ P Y]] Hi Hn. split; [| |by rewrite P|by rewrite Y].
  - intros j. destruct (decide (j = id)) as [->|Hj]; [done|]. specialize (W1 j). rewrite (A j Hj).
    unfold inv in *. rewrite (A j Hj). destruct (get_account s j); [done|].
    destruct W1 as [W1 W1']. split; [done|]. intros pk k. rewrite (K j pk Hj). apply W1'.
  - intros j. destruct (decide (j = id)) as [->|Hj]; [done|]. by rewrite (A j Hj).
Qed.

Lemma typed_flatten acts : Forall typed_action acts -> Forall action_bounded (flatten acts).
Proof.
  intros H. unfold flatten. induction H as [|a acts Ha _ IH]; simpl; [done|].
  apply Forall_app. split; [|done]. destruct a as [p|d]; simpl in *.
  - apply Forall_singleton. apply Ha.
  - eapply Forall_impl; [exact Ha|]. by intros ? [].
Qed.

Lemma receipt_value_nonneg cfg r : fees_nonneg cfg -> typed_receipt r -> 0 <= receipt_value cfg r.
Proof.
  intros Hf. unfold typed_receipt, receipt_value.
  destruct (versioned_receipt r) as [rt ar|?|rt ar|?|?]; try done.
  all: intros (Ha & Hp & _); apply typed_flatten in Ha.
  all: assert (0 <= zres (total_deposit (ar_actions ar))) as Hd
    by (rewrite total_deposit_spec by done; cbn zeta; destruct (_ <=? _); simpl; [|done];
        apply zsum_nonneg; eapply Forall_impl; [exact Ha|]; by intros ? [[? _] _]).
  all: assert (0 <= prepaid_gas_of cfg (r_receiver_id r) (ar_actions ar)) as Hg; [|nia].
  all: unfold prepaid_gas_of; rewrite total_prepaid_gas_spec by done; cbn zeta.
  all: assert (forall x, 0 <= zres (if zsum (fun a => get_prepaid_gas (Plain a)) (flatten (ar_actions ar)) <=? x
    then Ok (zsum (fun a => get_prepaid_gas (Plain a)) (flatten (ar_actions ar)))
    else Err IntegerOverflow : result Z IntegerOverflowError)) as H1
    by (intros x; destruct (_ <=? _); simpl; [|done]; apply zsum_nonneg; eapply Forall_impl; [exact Ha|];
        by intros ? [_ [? _]]).
  all: pose proof (H1 u64_max) as H2.
  all: pose proof (proj2 (Hf c_new_action_receipt true)) as H3.
  all: destruct (total_prepaid_send_fees cfg (ar_actions ar)) as [x| |] eqn:E4; cbn [zres];
       [apply (prepaid_send_nonneg cfg Hf) in E4|..].
  all: destruct (total_prepaid_exec_fees cfg (ar_actions ar) (r_receiver_id r)) as [y| |] eqn:E5; cbn [zres];
       [apply (prepaid_exec_nonneg cfg Hf) in E5|..]; lia.
Qed.

(* ------------------------------------------------------------------ *)
(** ** Identifiers *)

(** Where an arriving receipt may be stored: among the postponed receipts when it needs
    data, or among the yielded ones. *)
Definition slot (r : Receipt) : option (AccountId * CryptoHash + AccountId * CryptoHash) :=
  match versioned_receipt r with
  | VAction _ ar =>
      match ar_input_data_ids ar with
      | [] => None
      | _ => Some (inl (r_receiver_id r, r_receipt_id r))
      end
  | VPromiseYield _ ar =>
      match ar_input_data_ids ar with
      | [data_id] => Some (inr (r_receiver_id r, data_id))
      | _ => None
      end
  | _ => None
  end.

Definition occupied (s : State) (k : AccountId * CryptoHash + AccountId * CryptoHash) : Prop :=
  match k with
  | inl k => is_Some (rc_postponed_receipts (st_receipts s) !! k)
  | inr k => is_Some (rc_yield_receipts (st_receipts s) !! k)
  end.

(** No two of the receipts, and none of them and a receipt in the state, share a slot. *)
Definition unique_slots (s : State) (rs : list Receipt) : Prop :=
  NoDup (omap slot rs) /\ Forall (fun k => ~ occupied s k) (omap slot rs).

Global Instance unique_slots_perm s : Proper ((≡ₚ) ==> iff) (unique_slots s).
Proof. intros l l' H. unfold unique_slots. by rewrite H. Qed.

Lemma unique_slots_step s s' r rs :
  (forall k, occupied s' k -> occupied s k \/ slot r = Some k) ->
  unique_slots s (r :: rs) -> unique_slots s' rs.
Proof.
  unfold unique_slots. intros Ho. simpl. destruct (slot r) as [k|] eqn:E; simpl.
  - intros [[Hk Hn]%NoDup_cons [_ Hf]%Forall_cons]. split; [done|].
    rewrite Forall_forall in *. intros j Hj [Hj'|[= ->]]%Ho; [by apply (Hf j)|done].
  - intros [Hn Hf]. split; [done|]. rewrite Forall_forall in *. by intros j Hj [Hj'|]%Ho; [apply (Hf j)|].
Qed.

Definition free (s : State) (r : Receipt) : Prop := forall k, slot r = Some k -> ~ occupied s k.

Lemma unique_free s r rs : unique_slots s (r :: rs) -> free s r.
Proof.
  unfold unique_slots, free. intros [_ H] k E. simpl in H. rewrite E in H. by apply Forall_cons in H as [? _].
Qed.

(* ------------------------------------------------------------------ *)
(** ** Arrival of a receipt *)

(** Two states with the same accounts, keys and waiting receipts. *)
Record same_holdings (s s' : State) : Prop := mk_same_holdings {
  sh_accounts : st_accounts s' = st_accounts s;
  sh_keys : st_access_keys s' = st_access_keys s;
  sh_postponed : rc_postponed_receipts (st_receipts s') = rc_postponed_receipts (st_receipts s);
  sh_yields : rc_yield_receipts (st_receipts s') = rc_yield_receipts (st_receipts s);
}.

Lemma same_holdings_world s s' : same_holdings s s' -> world s -> world s'.
Proof. intros [? ? P Y] W. apply (world_accounts s); [done..|rewrite P|rewrite Y]; apply W. Qed.

Lemma same_holdings_money s s' : same_holdings s s' -> money s' = money s.
Proof. intros [E1 E2 _ _]. unfold money, total_accounts, total_gas_keys. by rewrite E1, E2. Qed.

Lemma same_holdings_waiting cfg s s' : same_holdings s s' -> waiting cfg s' = waiting cfg s.
Proof. intros [_ _ E1 E2]. unfold waiting. by rewrite E1, E2. Qed.

Definition run_value (cfg : RuntimeConfig) (routing : Routing) : Z :=
  match routing with Run r => receipt_value cfg r | _ => 0 end.

(** A receipt has been received: [lost] tokens were in a receipt that was replaced. *)
Record received (cfg : RuntimeConfig) (s : State) (r : Receipt) (s' : State) (routing : Routing)
    (lost : Z) : Prop := mk_received {
  re_world : world s';
  re_money : money s' = money s;
  re_run : forall ready, routing = Run ready -> sound_receipt ready;
  re_value : waiting cfg s' + run_value cfg routing + lost = waiting cfg s + receipt_value cfg r;
  re_lost : 0 <= lost;
  re_free : free s r -> lost = 0;
  re_occupied : forall k, occupied s' k -> occupied s k \/ slot r = Some k;
}.

Section arrival.
Context (cfg : RuntimeConfig).
Hypothesis Hfees : fees_nonneg cfg.

(** The receipt runs at once, or carries nothing. *)
Lemma received_same s r s' routing :
  world s -> same_holdings s s' -> run_value cfg routing = receipt_value cfg r ->
  (forall ready, routing = Run ready -> sound_receipt ready) -> received cfg s r s' routing 0.
Proof.
  intros W E Ev Hr. split; [by eapply same_holdings_world|by apply same_holdings_money|done
    |rewrite (same_holdings_waiting cfg s s') by done; lia|done|done|].
  intros [k|k]; simpl; [rewrite (sh_postponed _ _ E)|rewrite (sh_yields _ _ E)]; auto.
Qed.

Lemma value_nonneg (m : gmap (AccountId * CryptoHash) Receipt) k :
  map_Forall (fun _ r => sound_receipt r) m -> 0 <= default 0 (receipt_value cfg <$> m !! k).
Proof using Hfees.
  intros H. destruct (m !! k) as [r|] eqn:E; simpl; [|lia].
  apply receipt_value_nonneg; [done|]. by apply (H k r).
Qed.

Lemma received_postponed s r s' rt ar :
  world s -> sound_receipt r -> versioned_receipt r = VAction rt ar -> ar_input_data_ids ar <> [] ->
  st_accounts s' = st_accounts s -> st_access_keys s' = st_access_keys s ->
  rc_postponed_receipts (st_receipts s')
    = <[(r_receiver_id r, r_receipt_id r) := r]> (rc_postponed_receipts (st_receipts s)) ->
  rc_yield_receipts (st_receipts s') = rc_yield_receipts (st_receipts s) ->
  exists lost, received cfg s r s' Store lost.
Proof using Hfees.
  intros W Hr Ev Hids Ea Ek Ep Ey. set (k := (r_receiver_id r, r_receipt_id r)) in *.
  assert (slot r = Some (inl k)) as Es by (unfold slot; rewrite Ev; by destruct (ar_input_data_ids ar)).
  exists (default 0 (receipt_value cfg <$> rc_postponed_receipts (st_receipts s) !! k)). split.
  - apply (world_accounts s); [done..|rewrite Ep; apply map_Forall_insert_2; [done|apply W]|rewrite Ey; apply W].
  - unfold money, total_accounts, total_gas_keys. by rewrite Ea, Ek.
  - done.
  - unfold waiting, column_value. rewrite Ep, Ey, (sum_insert (receipt_value cfg)). simpl. lia.
  - apply value_nonneg, W.
  - intros Hf. specialize (Hf _ Es). simpl in Hf. apply eq_None_not_Some in Hf. by rewrite Hf.
  - intros [j|j]; simpl; [rewrite Ep|rewrite Ey; auto]. intros [x [[<- _]|[_ Hx]]%lookup_insert_Some]; eauto.
Qed.

Lemma received_yield s r s' rt ar data_id :
  world s -> sound_receipt r -> versioned_receipt r = VPromiseYield rt ar ->
  ar_input_data_ids ar = [data_id] ->
  s' = with_yield_receipts s (<[(r_receiver_id r, data_id) := r]> (rc_yield_receipts (st_receipts s))) ->
  exists lost, received cfg s r s' Store lost.
Proof using Hfees.
  intros W Hr Ev Ei ->. set (k := (r_receiver_id r, data_id)) in *.
  assert (slot r = Some (inr k)) as Es by (unfold slot; by rewrite Ev, Ei).
  exists (default 0 (receipt_value cfg <$> rc_yield_receipts (st_receipts s) !! k)). split.
  - apply (world_accounts s); [done..|apply W|simpl; apply map_Forall_insert_2; [done|apply W]].
  - done.
  - done.
  - unfold waiting, column_value. simpl. rewrite (sum_insert (receipt_value cfg)). lia.
  - apply value_nonneg, W.
  - intros Hf. specialize (Hf _ Es). simpl in Hf. apply eq_None_not_Some in Hf. by rewrite Hf.
  - intros [j|j]; simpl; [auto|]. intros [x [[<- _]|[_ Hx]]%lookup_insert_Some]; eauto.
Qed.

(** A waiting receipt is taken out to run, by a receipt that carries nothing. *)
Lemma received_ready s r s' ready :
  world s -> receipt_value cfg r = 0 ->
  st_accounts s' = st_accounts s -> st_access_keys s' = st_access_keys s ->
  (exists k, rc_postponed_receipts (st_receipts s) !! k = Some ready
     /\ rc_postponed_receipts (st_receipts s') = delete k (rc_postponed_receipts (st_receipts s))
     /\ rc_yield_receipts (st_receipts s') = rc_yield_receipts (st_receipts s))
  \/ (exists k, rc_yield_receipts (st_receipts s) !! k = Some ready
     /\ rc_yield_receipts (st_receipts s') = delete k (rc_yield_receipts (st_receipts s))
     /\ rc_postponed_receipts (st_receipts s') = rc_postponed_receipts (st_receipts s)) ->
  received cfg s r s' (Run ready) 0.
Proof.
  intros W Ev Ea Ek [(k & E & Ed & Eo)|(k & E & Ed & Eo)]; split; try done.
  - apply (world_accounts s); [done..|rewrite Ed; apply map_Forall_delete, W|rewrite Eo; apply W].
  - unfold money, total_accounts, total_gas_keys. by rewrite Ea, Ek.
  - intros ? [= <-]. by apply (wo_postponed _ W k).
  - unfold waiting, column_value. rewrite Ed, Eo, (sum_delete (receipt_value cfg)), E, Ev. simpl. lia.
  - intros [j|j]; simpl; rewrite ?Ed, ?Eo; [|auto]. intros [x [_ Hx]%lookup_delete_Some]; eauto.
  - apply (world_accounts s); [done..|rewrite Eo; apply W|rewrite Ed; apply map_Forall_delete, W].
  - unfold money, total_accounts, total_gas_keys. by rewrite Ea, Ek.
  - intros ? [= <-]. by apply (wo_yields _ W k).
  - unfold waiting, column_value. rewrite Ed, Eo, (sum_delete (receipt_value cfg)), E, Ev. simpl. lia.
  - intros [j|j]; simpl; rewrite ?Ed, ?Eo; [auto|]. intros [x [_ Hx]%lookup_delete_Some]; eauto.
Qed.

Lemma receive_data_received s r d s' routing :
  world s -> versioned_receipt r = VData d ->
  receive_data s (r_receiver_id r) d = Ok (s', routing) -> received cfg s r s' routing 0.
Proof.
  intros W Ev H. assert (receipt_value cfg r = 0) as Hv by (unfold receipt_value; by rewrite Ev).
  unfold receive_data in H. cbn [st_receipts rc_postponed_receipt_ids set_received_data with_received_data] in H.
  destruct (_ !! _) as [rid|]; [|injection H as <- <-; by apply received_same].
  apply rbind_Ok in H as (n & _ & H). destruct (n =? 1).
  - apply rbind_Ok in H as (ready & E & H). apply ok_or_Ok in E. injection H as <- <-.
    apply received_ready; [done..|]. left. by eexists.
  - apply rbind_Ok in H as (n' & _ & H). injection H as <- <-. by apply received_same.
Qed.

Lemma receive_resume_received version s r d s' routing :
  world s -> versioned_receipt r = VPromiseResume d ->
  receive_resume version s (r_receiver_id r) d = (s', routing) -> received cfg s r s' routing 0.
Proof.
  intros W Ev H. assert (receipt_value cfg r = 0) as Hv by (unfold receipt_value; by rewrite Ev).
  unfold receive_resume in H. destruct (_ && _); [injection H as <- <-; by apply received_same|].
  destruct (rc_yield_receipts (st_receipts s) !! _) as [y|] eqn:E.
  - injection H as <- <-. apply received_ready; [done|done|by destruct (enabled _ _)|by destruct (enabled _ _)|].
    right. eexists. split; [exact E|]. by destruct (enabled _ _).
  - injection H as <- <-. by apply received_same.
Qed.

Lemma link_holdings id rid ids : forall s n s' n',
  link_missing_data s id rid ids n = Ok (s', n') -> same_holdings s s'.
Proof.
  induction ids as [|d ids IH]; intros s n s' n' H; simpl in H; [by injection H as <- <-|].
  destruct (has_received_data s id d); [by eapply IH|].
  apply rbind_Ok in H as (m & _ & H). by apply IH in H as [].
Qed.

Lemma receive_received version s r s' routing :
  world s -> sound_receipt r -> receive version s r = Ok (s', routing) ->
  exists lost, received cfg s r s' routing lost.
Proof using Hfees.
  intros W Hr H. unfold receive in H. destruct (versioned_receipt r) as [rt ar|d|rt ar|d|g] eqn:Ev.
  - unfold receive_action in H. apply rbind_Ok in H as ([s1 n] & E & H). pose proof E as Hids.
    apply link_holdings in E. destruct (Z.eqb_spec n 0) as [->|Hn].
    + injection H as <- <-. exists 0. apply received_same; [done..|]. by intros ? [= <-].
    + unfold set_postponed_receipt in H. rewrite Ev in H. injection H as <- <-. destruct E as [E1 E2 E3 E4].
      eapply received_postponed; [done|done|exact Ev|..]; simpl; rewrite ?E3; try done.
      intros Eids. rewrite Eids in Hids. by injection Hids as _ <-.
  - exists 0. by eapply receive_data_received.
  - apply rbind_Ok in H as (s1 & E & H). injection H as <- <-. unfold set_promise_yield_receipt in E.
    rewrite Ev in E. destruct (ar_input_data_ids ar) as [|d [|]] eqn:Ei; [done| |done].
    injection E as <-. by eapply received_yield.
  - exists 0. injection H as H. by eapply receive_resume_received.
  - injection H as <- <-. exists 0. apply received_same; [done|done|unfold receipt_value; by rewrite Ev|done].
Qed.
End arrival.
End world.

(* ------------------------------------------------------------------ *)
(** ** Accounting for a step of the processing *)

Definition state_of (ps : ProcessingState) : State := su_current (ps_update ps).
Definition delayed_receipts (ps : ProcessingState) : list Receipt :=
  map get_receipt (contents (dq_queue (ps_delayed ps))).
(** The instant receipts among the processed ones. *)
Definition instants (l : list (Receipt * ReceiptSource)) : list Receipt :=
  omap (fun p => match p with (r, FromInstant) => Some r | _ => None end) l.

Lemma instants_app l1 l2 : instants (l1 ++ l2) = instants l1 ++ instants l2.
Proof. apply omap_app. Qed.

Section accounting.
Context {C : Crates} (layout : ShardLayout) (ap : ApplyState).
Local Abbreviation cfg := (config ap).
Local Abbreviation value := (receipt_value (config ap)).

(** Receipts to process: sound, and for an account of this shard. *)
Definition arrives (r : Receipt) : Prop :=
  sound_receipt r /\ belongs layout (shard_id ap) r = true.

Record ps_ok (ps : ProcessingState) : Prop := mk_ps_ok {
  po_world : world (state_of ps);
  po_local : Forall arrives (ps_local ps);
  po_instant : Forall (fun r => sound_receipt r
    /\ is_instant_receipt (current_protocol_version ap) r = true) (ps_instant ps);
  po_queue : stored_queue (dq_queue (ps_delayed ps));
  po_delayed : Forall arrives (delayed_receipts ps);
  po_buffers : stored_buffers (ps_sink ps);
}.

(** The tokens of the shard: in the state, in its receipts wherever they are, and burnt. *)
Definition tokens (ps : ProcessingState) : Z :=
  money (state_of ps) + waiting cfg (state_of ps) + carried value (ps_sink ps)
  + values cfg (delayed_receipts ps) + values cfg (ps_local ps) + values cfg (ps_instant ps)
  + burnt_total (ps_stats ps).

Definition queued (ps : ProcessingState) : list Receipt := ps_local ps ++ delayed_receipts ps.

(** From [ps] to [ps'], when the receipts [arrived] came in, no token was created; none was
    lost if identifiers are unique. *)
Record accounted (ps ps' : ProcessingState) (arrived : list Receipt) : Prop := mk_accounted {
  ac_ok : ps_ok ps';
  ac_local : ps_local ps = [] -> ps_local ps' = [];
  ac_tokens : exists new lost, ps_processed ps' = ps_processed ps ++ new
    /\ 0 <= lost /\ tokens ps' + lost = tokens ps + values cfg arrived
    /\ forall rest, unique_slots (state_of ps) (queued ps ++ arrived ++ instants new ++ rest) ->
       lost = 0 /\ unique_slots (state_of ps') (queued ps' ++ rest);
}.

Lemma accounted_trans ps1 ps2 ps3 a b :
  accounted ps1 ps2 a -> accounted ps2 ps3 b -> accounted ps1 ps3 (a ++ b).
Proof.
  intros [_ E1 (n1 & l1 & P1 & L1 & T1 & U1)] [O2 E2 (n2 & l2 & P2 & L2 & T2 & U2)]. split; [done|auto|].
  exists (n1 ++ n2), (l1 + l2). unfold values in *. rewrite P2, P1, app_assoc, zsum_app.
  split_and!; [done|lia|lia|]. intros rest Hu.
  destruct (U1 (b ++ instants n2 ++ rest)) as [Z1 Hu2].
  { eapply unique_slots_perm; [|exact Hu]. rewrite instants_app. solve_Permutation. }
  apply U2 in Hu2 as [? ?]. split; [lia|done].
Qed.

(** Only counters, logs or queues of the same receipts change. *)
Lemma accounted_same ps ps' new :
  ps_ok ps' -> ps_local ps' = ps_local ps -> state_of ps' = state_of ps -> queued ps' ≡ₚ queued ps ->
  tokens ps' = tokens ps -> ps_processed ps' = ps_processed ps ++ new -> instants new = [] ->
  accounted ps ps' [].
Proof.
  intros Hok El Es Eq Et Ep En. split; [done|congruence|]. exists new, 0. rewrite Es, Et, En. unfold values. simpl.
  split_and!; [done|lia|lia|]. intros rest Hu. split; [done|]. by rewrite Eq.
Qed.

(** Receipts taken from a queue. *)
Lemma accounted_take ps ps1 ps' rs :
  (ps_local ps = [] -> ps_local ps1 = []) -> state_of ps1 = state_of ps -> ps_processed ps1 = ps_processed ps -> queued ps ≡ₚ rs ++ queued ps1 ->
  tokens ps = tokens ps1 + values cfg rs -> accounted ps1 ps' rs -> accounted ps ps' [].
Proof.
  intros El Es Ep Eq Et [Hok El' (new & lost & P & L & T & U)]. split; [done|auto|]. exists new, lost.
  unfold values in *. simpl in *. rewrite <- Ep. split_and!; [done|done|lia|]. intros rest Hu.
  apply U. eapply unique_slots_perm; [|rewrite Es; exact Hu]. rewrite Eq. solve_Permutation.
Qed.

(** An instant receipt, processed and logged. *)
Lemma accounted_instant ps ps1 ps' r :
  ps_local ps1 = ps_local ps -> state_of ps1 = state_of ps -> ps_processed ps1 = ps_processed ps ->
  queued ps1 = queued ps -> tokens ps = tokens ps1 + value r -> accounted ps1 ps' [r] ->
  accounted ps (ps_push_processed ps' r FromInstant) [].
Proof.
  intros El Es Ep Eq Et [[] El' (new & lost & P & L & T & U)]. split; [by split|rewrite <- El; exact El'|].
  exists (new ++ [(r, FromInstant)]), lost.
  change (tokens (ps_push_processed ps' r FromInstant)) with (tokens ps').
  simpl. rewrite P, Ep, app_assoc. unfold values in *. simpl in *. split_and!; [done|done|lia|].
  intros rest Hu. apply U. eapply unique_slots_perm; [|rewrite Es; exact Hu].
  rewrite Eq, instants_app. simpl. solve_Permutation.
Qed.
End accounting.

Lemma collect_waiting s id ids s' pr :
  collect_input_data s id ids = Ok (s', pr) -> same_holdings s s'.
Proof.
  revert s s' pr. induction ids as [|d ids IH]; intros s s' pr H; simpl in H; [by injection H as <- <-|].
  apply rbind_Ok in H as (x & _ & H). apply rbind_Ok in H as ([s1 rest] & E & H).
  injection H as <- <-. by apply IH in E as [].
Qed.

Section processing.
Context {C : Crates}.
Context (action_function_call : ApplyState -> EpochInfo -> State -> Account -> Receipt ->
  ActionReceipt -> list (option (list Z)) -> ActionResult -> FunctionCallAction -> CryptoHash ->
  bool -> result (State * Account * ActionResult) RuntimeError).
Context {L : CallsLawful action_function_call}.
Context (layout : ShardLayout) (limit : nat -> nat -> bool) (ap : ApplyState) (ei : EpochInfo).
Hypothesis Hnamed : get_account_type "system" = NamedAccount.
Hypothesis Hconfig : sound_config ap.
Hypothesis Hfees : fees_nonneg (config ap).
Local Abbreviation value := (receipt_value (config ap)).
Local Abbreviation ps_ok := (ps_ok layout ap).
Local Abbreviation tokens := (tokens ap).
Local Abbreviation accounted := (accounted layout ap).

(** A receipt has been executed. *)
Record ran (ps ps' : ProcessingState) (r : Receipt) : Prop := mk_ran {
  ra_ok : ps_ok ps';
  ra_local : ps_local ps' = ps_local ps;
  ra_tokens : tokens ps' = tokens ps + value r;
  ra_processed : ps_processed ps' = ps_processed ps;
  ra_queued : queued ps' = queued ps;
  ra_occupied : forall k, occupied (state_of ps') k <-> occupied (state_of ps) k;
}.

Lemma execute_ran ps u r ps' o :
  ps_ok (ps_put ps u) -> sound_receipt r ->
  execute action_function_call layout ap ei ps u r = Ok (ps', o) -> ran (ps_put ps u) ps' r.
Proof using L Hnamed Hconfig.
  intros [W Hl Hi Hq Hd Hb] Hr H. unfold execute in H. apply rbind_Ok in H as ([[u' fx] out] & E & H).
  apply rbind_Ok in H as (sink & Es & H). injection H as <- <-. cbn [state_of ps_put ps_effects ps_update] in W.
  set (id := r_receiver_id r). pose proof (wo_inv _ W id) as Hinv.
  destruct (receipt_frame _ Hnamed _ _ _ _ _ _ _ _ Hconfig Hr Hinv (wo_system _ W id) E)
    as (Hs & outs & insts & Eo & Ei & [(ar & s0 & pr & _ & Ec & T) Hn Hos His]).
  destruct (receipt_accounts _ _ _ _ _ _ _ _ _ Hconfig Hs Hinv E) as [Et Hinv'].
  apply collect_waiting in Ec as SH. pose proof (same_holdings_world _ _ SH W) as W0.
  pose proof (world_touches _ _ _ W0 T Hinv' Hn) as W'. destruct T as [_ _ [_ _ _ Tp Ty]].
  rewrite (sh_postponed _ _ SH) in Tp. rewrite (sh_yields _ _ SH) in Ty.
  simpl in Eo, Ei. apply send_all_carried in Es as [Hb' Ecar]; [|done].
  split; [split; simpl; [done|done|rewrite Ei; by apply Forall_app|done|done|done]|done| |done|done|].
  - unfold tokens, supply in *. unfold state_of, delayed_receipts. simpl in *. rewrite Ecar, Eo, Ei in *. unfold waiting.
    rewrite Tp, Ty. unfold values in *. simpl in *. rewrite zsum_app in *. lia.
  - unfold state_of. simpl. intros [k|k]; simpl; [by rewrite Tp|by rewrite Ty].
Qed.

(** Everything but the state is the same. *)
Lemma put_ok ps u : ps_ok ps -> world (su_current u) -> ps_ok (ps_put ps u).
Proof. intros [] ?. by split. Qed.

Lemma unique_middle (s : State) l1 r l2 : unique_slots s (l1 ++ [r] ++ l2) -> unique_slots s (r :: l1 ++ l2).
Proof. intros H. eapply unique_slots_perm; [|exact H]. solve_Permutation. Qed.

(** A receipt was received and, when it made a receipt ready, that one was executed. *)
Lemma received_accounted ps r s' routing lost ps1 ps' :
  received (config ap) (state_of ps) r s' routing lost ->
  ps_local ps1 = ps_local ps -> state_of ps1 = s' -> ps_processed ps1 = ps_processed ps ->
  queued ps1 = queued ps -> tokens ps1 = tokens ps - waiting (config ap) (state_of ps) + waiting (config ap) s' ->
  (exists ready, routing = Run ready /\ ran ps1 ps' ready)
  \/ (run_value (config ap) routing = 0 /\ ps' = ps1 /\ ps_ok ps1) ->
  accounted ps ps' [r].
Proof.
  intros [_ _ _ Hv Hl Hf Ho] El Es Ep Eq Et [(ready & -> & [Hok El' T P Q O])|(Hz & -> & Hok)]; simpl in Hv.
  - split; [done|congruence|]. exists [], lost. rewrite P, Ep, app_nil_r. unfold values. simpl.
    split_and!; [done|done|lia|]. intros rest Hu%unique_middle. split; [by eapply Hf, unique_free|].
    rewrite Q, Eq. eapply unique_slots_step; [|exact Hu]. intros k Hk%O. rewrite Es in Hk. by apply Ho.
  - split; [done|congruence|]. exists [], lost. rewrite Ep, app_nil_r. unfold values. simpl.
    split_and!; [done|done|lia|]. intros rest Hu%unique_middle. split; [by eapply Hf, unique_free|].
    rewrite Eq. eapply unique_slots_step; [|exact Hu]. intros k Hk. rewrite Es in Hk. by apply Ho.
Qed.

(** A receipt without tokens or slot goes to the sink, or nowhere. *)
Lemma accounted_forward ps ps' r :
  ps_ok ps' -> value r = 0 -> slot r = None -> ps_local ps' = ps_local ps ->
  same_holdings (state_of ps) (state_of ps') -> ps_processed ps' = ps_processed ps -> queued ps' = queued ps -> tokens ps' = tokens ps ->
  accounted ps ps' [r].
Proof.
  intros Hok Hv Hs El [_ _ E1 E2] Ep Eq Et. split; [done|congruence|]. exists [], 0. rewrite Ep, app_nil_r. unfold values.
  simpl. rewrite Hv. split_and!; [done|lia|lia|]. intros rest Hu%unique_middle. split; [done|].
  rewrite Eq. eapply unique_slots_step; [|exact Hu]. intros [k|k]; simpl; rewrite ?E1, ?E2; auto.
Qed.

Lemma distribute_holdings u g :
  same_holdings (su_current u) (su_current (distribute_here (current_protocol_version ap) u g)).
Proof.
  unfold distribute_here. set (s := apply_distribution_current_shard _ _ _).
  assert (same_holdings (su_current u) s); [|by destruct (snd _)].
  unfold s, apply_distribution_current_shard, check_and_update_nonce. by repeat case_match; simplify_eq.
Qed.

Lemma tokens_put ps u :
  tokens (ps_put ps u) = tokens ps - (money (state_of ps) + waiting (config ap) (state_of ps))
    + (money (su_current u) + waiting (config ap) (su_current u)).
Proof. unfold tokens, delayed_receipts, state_of. simpl. lia. Qed.

(** [process_receipt] without the arm of global contracts. *)
Definition receive_and_run (ps : ProcessingState) (r : Receipt)
    : result (ProcessingState * option ExecutionOutcome) RuntimeError :=
  let? (s, routing) := receive (current_protocol_version ap) (state_of ps) r in
  let u := su_put (ps_update ps) s in
  match routing with
  | Run ready_receipt => execute action_function_call layout ap ei ps u ready_receipt
  | Store => Ok (ps_put ps (su_commit u), None)
  | Ignore => Ok (ps_put ps u, None)
  end.

Lemma receive_and_run_accounted ps r ps' o :
  ps_ok ps -> sound_receipt r -> receive_and_run ps r = Ok (ps', o) -> accounted ps ps' [r].
Proof using L Hnamed Hconfig Hfees.
  intros Hok Hr Hm. apply rbind_Ok in Hm as ([s routing] & E & Hm).
  destruct (receive_received (config ap) Hfees _ _ _ _ _ (po_world _ _ _ Hok) Hr E) as [lost Hre].
  pose proof Hre as [W Em Hrun _ _ _ _].
  assert (forall u, su_current u = s -> tokens (ps_put ps u) =
    tokens ps - waiting (config ap) (state_of ps) + waiting (config ap) s) as Et
    by (intros u <-; rewrite tokens_put; lia).
  assert (forall u, su_current u = s -> ps_ok (ps_put ps u)) as Hput by (intros u <-; by apply put_ok).
  destruct routing as [ready| |]; simpl in Hm.
  - apply execute_ran in Hm; [|by apply Hput|by apply Hrun].
    eapply (received_accounted _ _ _ _ _ (ps_put ps (su_put (ps_update ps) s)) _ Hre);
      [done|done|done|done|by apply Et|left; by eexists].
  - injection Hm as <- <-. eapply (received_accounted _ _ _ _ _ (ps_put ps (su_commit (su_put (ps_update ps) s))) _ Hre);
      [done|done|done|done|by apply Et|right; split_and!; auto].
  - injection Hm as <- <-. eapply (received_accounted _ _ _ _ _ (ps_put ps (su_put (ps_update ps) s)) _ Hre);
      [done|done|done|done|by apply Et|right; split_and!; auto].
Qed.

Lemma distribution_accounted ps r g ps' :
  ps_ok ps -> versioned_receipt r = VGlobalContractDistribution g ->
  apply_global_contract_distribution_receipt layout ap ps r g = Ok ps' -> accounted ps ps' [r].
Proof.
  intros Hok Ev E. apply rbind_Ok in E as (sink & Es & E).
  injection E as <-. pose proof (distribute_holdings (ps_update ps) g) as SH.
  assert (stored_buffers sink /\ carried value sink = carried value (ps_sink ps)) as [Hb Ec].
  { destruct (forward_distribution_next_shard layout ap r g) as [next|] eqn:En.
    - apply forward_or_buffer_carried in Es as [? Ew]; [|apply Hok]. split; [done|]. rewrite Ew.
      unfold forward_distribution_next_shard in En. case_match; [done|]. injection En as <-. cbn. lia.
    - injection Es as <-. split; [apply Hok|done]. }
  apply accounted_forward; try done.
  - destruct Hok. split; try done. by eapply same_holdings_world.
  - unfold receipt_value. by rewrite Ev.
  - unfold slot. by rewrite Ev.
  - unfold tokens, delayed_receipts, state_of. simpl. rewrite Ec.
    by rewrite (same_holdings_money _ _ SH), (same_holdings_waiting _ _ _ SH).
Qed.

Lemma process_receipt_accounted ps r ps' o :
  ps_ok ps -> sound_receipt r ->
  process_receipt action_function_call layout ap ei ps r = Ok (ps', o) -> accounted ps ps' [r].
Proof using L Hnamed Hconfig Hfees.
  intros Hok Hr H. unfold process_receipt in H.
  destruct (versioned_receipt r) as [rt ar|d|rt ar|d|g] eqn:Ev; try by eapply receive_and_run_accounted.
  apply rbind_Ok in H as (ps1 & E & H). injection H as <- <-. by eapply distribution_accounted.
Qed.

(* ------------------------------------------------------------------ *)
(** ** The loops *)

Lemma accounted_refl ps : ps_ok ps -> accounted ps ps [].
Proof. intros Hok. apply (accounted_same _ _ _ _ []); [done..|by rewrite app_nil_r|done]. Qed.

Lemma accounted_ok ps ps' rs : accounted ps ps' rs -> ps_ok ps'.
Proof. apply ac_ok. Qed.

Lemma with_metrics_accounted ps r ps' :
  ps_ok ps -> sound_receipt r ->
  process_receipt_with_metrics action_function_call layout ap ei ps r = Ok ps' -> accounted ps ps' [r].
Proof using L Hnamed Hconfig Hfees.
  intros Hok Hr H. apply rbind_Ok in H as ([ps1 o] & E & H).
  apply process_receipt_accounted in E; [|done..]. destruct o as [o|]; [|by injection H as <-].
  apply rbind_Ok in H as (gas & _ & H). apply rbind_Ok in H as (compute & _ & H). injection H as <-.
  rewrite <- (app_nil_r [r]). eapply accounted_trans; [exact E|].
  apply (accounted_same _ _ _ _ []); try done; [|by rewrite app_nil_r]. by destruct (ac_ok _ _ _ _ _ E).
Qed.

Lemma process_instant_accounted fuel : forall ps ps',
  ps_ok ps -> process_instant_receipts action_function_call layout ap ei fuel ps = Ok ps' ->
  accounted ps ps' [] /\ ps_instant ps' = [].
Proof using L Hnamed Hconfig Hfees.
  induction fuel as [|fuel IH]; intros ps ps' Hok H; simpl in H.
  all: destruct (ps_instant ps) as [|r rest] eqn:Ei; [injection H as <-; split; [by apply accounted_refl|done]|].
  { done. }
  apply rbind_Ok in H as (ps1 & E & H). destruct Hok as [W Hl Hi Hq Hd Hb]. rewrite Ei in Hi.
  apply Forall_cons in Hi as [[Hr Hri] Hi]. apply with_metrics_accounted in E; [|by split|done].
  apply (accounted_instant _ _ ps) in E; [|done|done|done|done|].
  2:{ unfold tokens, delayed_receipts, state_of. simpl. rewrite Ei. unfold values. rewrite zsum_cons. lia. }
  apply IH in H as [H Hn]; [|by eapply accounted_ok]. split; [|done]. by eapply (accounted_trans _ _ _ _ _ [] []).
Qed.

Lemma process_one_accounted ps r ps' :
  ps_ok ps -> sound_receipt r ->
  process_receipt_and_instant_receipts action_function_call layout ap ei ps r = Ok ps' ->
  accounted ps ps' [r] /\ ps_instant ps' = [].
Proof using L Hnamed Hconfig Hfees.
  intros Hok Hr H. apply rbind_Ok in H as (ps1 & E & H).
  apply with_metrics_accounted in E; [|done..]. apply process_instant_accounted in H as [H Hn]; [|by eapply accounted_ok].
  split; [|done]. by eapply (accounted_trans _ _ _ _ _ [r] []).
Qed.

Lemma delay_accounted ps r ps' :
  ps_ok ps -> arrives layout ap r -> delay ap ps r = Ok ps' -> accounted ps ps' [r].
Proof.
  intros [W Hl Hi Hq Hd Hb] Hr H. apply rbind_Ok in H as (d & E & H). injection H as <-.
  apply delayed_push_contents in E as (Hq' & e & Ee & Ec); [|done].
  assert (delayed_receipts (ps_with_delayed ps d) = delayed_receipts ps ++ [r]) as Edr
    by (unfold delayed_receipts; simpl; rewrite Ec, map_app; simpl; by rewrite Ee).
  split; [split; try done; rewrite Edr; apply Forall_app; split; [done|by apply Forall_singleton]|done|].
  exists [], 0. simpl. rewrite app_nil_r. split_and!; [done|done| |].
  - unfold tokens, state_of. rewrite Edr. unfold values. rewrite zsum_app. simpl. lia.
  - intros rest Hu. split; [done|]. unfold queued. rewrite Edr. simpl.
    eapply unique_slots_perm; [|exact Hu]. unfold queued. solve_Permutation.
Qed.

Lemma delay_instant ps r ps' : delay ap ps r = Ok ps' -> ps_instant ps = [] -> ps_instant ps' = [].
Proof. intros H E. apply rbind_Ok in H as (d & _ & H). by injection H as <-. Qed.

(** Moving to the next step, and logging a receipt that is not instant. *)
Lemma accounted_next ps ps' rs : accounted ps ps' rs -> accounted ps (ps_next ps') rs.
Proof. intros [[] H1 H2]. by split. Qed.

Lemma accounted_log ps ps' rs r source :
  source <> FromInstant -> accounted ps ps' rs -> accounted ps (ps_push_processed ps' r source) rs.
Proof.
  intros Hs [[] El (new & lost & P & Hl & T & U)]. split; [by split|done|]. exists (new ++ [(r, source)]), lost.
  simpl. rewrite P, app_assoc. split_and!; [done|done|done|]. intros rest Hu. apply U.
  rewrite instants_app in Hu. destruct source; [..|done]; simpl in Hu; by rewrite app_nil_r in Hu.
Qed.

Lemma process_local_accounted compute_limit receipts : forall ps ps',
  ps_ok ps -> Forall (arrives layout ap) receipts ->
  process_local action_function_call layout limit ap ei compute_limit receipts ps = Ok ps' ->
  accounted ps ps' receipts /\ (ps_instant ps = [] -> ps_instant ps' = []).
Proof using L Hnamed Hconfig Hfees.
  induction receipts as [|r rs IH]; intros ps ps' Hok Hrs H; simpl in H.
  { injection H as <-. split; [by apply accounted_refl|done]. }
  apply Forall_cons in Hrs as [Hr Hrs]. apply rbind_Ok in H as (ps1 & E & H).
  assert (accounted ps ps1 [r] /\ (ps_instant ps = [] -> ps_instant ps1 = [])) as [A Ei].
  { destruct (limit_reached _ _ _); [split; [by eapply delay_accounted|by eapply delay_instant]|].
    apply rbind_Ok in E as (ps2 & E & E'). injection E' as <-.
    apply process_one_accounted in E as [? ?]; [|done|apply Hr]. split; [by apply accounted_log|done]. }
  apply accounted_next in A. apply IH in H as [H Ei']; [|by eapply accounted_ok|done].
  split; [by eapply (accounted_trans _ _ _ _ _ [r])|auto].
Qed.

Lemma process_incoming_accounted compute_limit receipts : forall ps ps',
  ps_ok ps -> Forall (arrives layout ap) receipts ->
  process_incoming_receipts action_function_call layout limit ap ei compute_limit receipts ps = Ok ps' ->
  accounted ps ps' receipts /\ (ps_instant ps = [] -> ps_instant ps' = []).
Proof using L Hnamed Hconfig Hfees.
  induction receipts as [|r rs IH]; intros ps ps' Hok Hrs H; simpl in H.
  { injection H as <-. split; [by apply accounted_refl|done]. }
  apply Forall_cons in Hrs as [Hr Hrs]. apply rbind_Ok in H as (_ & _ & H).
  apply rbind_Ok in H as (ps1 & E & H).
  assert (accounted ps ps1 [r] /\ (ps_instant ps = [] -> ps_instant ps1 = [])) as [A Ei].
  { destruct (limit_reached _ _ _); [split; [by eapply delay_accounted|by eapply delay_instant]|].
    by apply process_one_accounted in E as [? ?]; [|done|apply Hr]. }
  apply accounted_next in A. apply IH in H as [H Ei']; [|by eapply accounted_ok|done].
  split; [by eapply (accounted_trans _ _ _ _ _ [r])|auto].
Qed.

Lemma process_local_receipts_accounted compute_limit ps ps' :
  ps_ok ps ->
  process_local_receipts action_function_call layout limit ap ei compute_limit ps = Ok ps' ->
  accounted ps ps' [] /\ ps_local ps' = [] /\ (ps_instant ps = [] -> ps_instant ps' = []).
Proof using L Hnamed Hconfig Hfees.
  intros [W Hl Hi Hq Hd Hb] H. apply process_local_accounted in H as [H Ei]; [|by split|done].
  split_and!; [|by apply (ac_local _ _ _ _ _ H)|done]. eapply accounted_take; [..|exact H]; [done|done|done|done|].
  unfold tokens, delayed_receipts, state_of. simpl. unfold values. simpl. lia.
Qed.

(** The receipts of the delayed queue belong to the shard, so none is skipped. *)
Lemma delayed_pop_taken ps o d f :
  ps_ok ps -> delayed_pop (config ap) layout (shard_id ap) f (ps_delayed ps) = Ok (o, d) ->
  ps_ok (ps_with_delayed ps d)
  /\ delayed_receipts ps = map get_receipt (popped o) ++ delayed_receipts (ps_with_delayed ps d).
Proof.
  intros [W Hl Hi Hq Hd Hb] H. apply rbind_Ok in H as (len & _ & H).
  apply delayed_pop_loop_contents in H as (Hq' & skipped & Ec & Hs & _); [|done].
  assert (skipped = []) as ->.
  { destruct skipped as [|e l]; [done|]. exfalso. apply Forall_cons in Hs as [Hs _].
    unfold delayed_receipts in Hd. rewrite Ec in Hd. simpl in Hd. apply Forall_cons in Hd as [[_ Hd] _]. congruence. }
  assert (delayed_receipts ps = map get_receipt (popped o) ++ delayed_receipts (ps_with_delayed ps d)) as E
    by (unfold delayed_receipts; simpl; by rewrite Ec, <- map_app).
  split; [|done]. rewrite E in Hd. apply Forall_app in Hd as [_ ?]. by split.
Qed.

Lemma process_delayed_accounted compute_limit fuel : forall ps ps',
  ps_ok ps -> process_delayed action_function_call layout limit ap ei fuel compute_limit ps = Ok ps' ->
  accounted ps ps' [] /\ (ps_instant ps = [] -> ps_instant ps' = []).
Proof using L Hnamed Hconfig Hfees.
  induction fuel as [|fuel IH]; intros ps ps' Hok H; simpl in H.
  all: destruct (limit_reached _ _ _); [injection H as <-; split; [by apply accounted_refl|done]|].
  all: apply rbind_Ok in H as ([o d] & E & H); pose proof (po_delayed _ _ _ Hok) as Hd;
       apply delayed_pop_taken in E as [Hok1 E]; [|done].
  all: destruct o as [e|]; [|injection H as <-; split; [|done]; apply (accounted_same _ _ _ _ []); try done;
         [by unfold queued; rewrite E|unfold tokens; rewrite E; done|by rewrite app_nil_r]].
  { done. }
  simpl in E. apply rbind_Ok in H as (_ & _ & H). apply rbind_Ok in H as (ps1 & E1 & H).
  rewrite E in Hd. apply Forall_cons in Hd as [[Hr _] _].
  apply process_one_accounted in E1 as [A Ei]; [|done..].
  apply (accounted_log _ _ _ (get_receipt e) FromDelayed), accounted_next in A; [|done].
  apply IH in H as [H Ei']; [|by eapply accounted_ok]. split; [|by intros _; apply Ei'].
  eapply (accounted_trans _ _ _ _ _ [] []); [|exact H].
  eapply accounted_take; [..|exact A]; [done|done|done|unfold queued; rewrite E; simpl; solve_Permutation|].
  unfold tokens. rewrite E. unfold values. rewrite zsum_cons. simpl. unfold state_of. simpl. lia.
Qed.

Lemma expire_kept t entry t' :
  stored_buffers (to_sink t) -> expire layout ap t entry = Ok t' ->
  same_holdings (to_state t) (to_state t') /\ stored_buffers (to_sink t')
  /\ carried value (to_sink t') = carried value (to_sink t).
Proof.
  intros Hb H. apply rbind_Ok in H as ([sink n] & E & H). injection H as <-. simpl.
  split; [done|]. destruct (has_yield_receipt _ _); [|by injection E as <- <-].
  apply rbind_Ok in E as (sink1 & E & E'). injection E' as <- <-.
  apply forward_or_buffer_carried in E as [? Ew]; [|done]. split; [done|]. rewrite Ew. cbn. lia.
Qed.

Lemma resolve_kept compute_limit compute step next fuel : forall t t',
  stored_buffers (to_sink t) ->
  resolve_timeouts layout limit ap fuel compute_limit compute step next t = Ok t' ->
  same_holdings (to_state t) (to_state t') /\ stored_buffers (to_sink t')
  /\ carried value (to_sink t') = carried value (to_sink t).
Proof.
  induction fuel as [|fuel IH]; intros t t' Hb H; simpl in H.
  all: destruct (next <=? to_first_index t); [by injection H as <-|].
  { done. }
  destruct (_ || _); [by injection H as <-|]. apply rbind_Ok in H as (entry & _ & H).
  destruct (block_height ap <? _); [by injection H as <-|]. apply rbind_Ok in H as (t1 & E & H).
  apply expire_kept in E as ([] & Hb1 & E1); [|done]. apply IH in H as ([] & Hb2 & E2); [|done].
  split_and!; [split; congruence|done|lia].
Qed.

Lemma process_receipts_accounted incoming ps ps' t :
  ps_ok ps -> Forall (arrives layout ap) incoming ->
  process_receipts action_function_call layout limit ap ei incoming ps = Ok (ps', t) ->
  accounted ps ps' incoming /\ ps_local ps' = [] /\ (ps_instant ps = [] -> ps_instant ps' = []).
Proof using L Hnamed Hconfig Hfees.
  intros Hok Hin H. unfold process_receipts in H. apply rbind_Ok in H as (ps1 & E1 & H).
  apply rbind_Ok in H as (ps2 & E2 & H). apply rbind_Ok in H as (ps3 & E3 & H).
  apply rbind_Ok in H as (t' & E4 & H). injection H as <- <-.
  apply process_local_receipts_accounted in E1 as (E1 & El & Ei1); [|done].
  apply rbind_Ok in E2 as (len & _ & E2).
  apply process_delayed_accounted in E2 as [E2 Ei2]; [|by eapply accounted_ok]. apply accounted_next in E2.
  apply process_incoming_accounted in E3 as [E3 Ei3]; [|by eapply accounted_ok|done].
  pose proof (accounted_ok _ _ _ E3) as Hok3.
  apply resolve_kept in E4 as (SH & Hb & Ec); [|apply Hok3]. simpl in SH, Ec.
  split_and!; [|by apply (ac_local _ _ _ _ _ E3), (ac_local _ _ _ _ _ E2)|intros Ei; by apply Ei3, Ei2, Ei1].
  eapply (accounted_trans _ _ _ _ _ [] incoming); [exact E1|].
  eapply (accounted_trans _ _ _ _ _ [] incoming); [exact E2|].
  rewrite <- (app_nil_r incoming). eapply accounted_trans; [exact E3|]. split.
  - destruct Hok3. split; try done. by eapply same_holdings_world.
  - done.
  - exists [], 0. simpl. rewrite app_nil_r. split_and!; [done|done| |].
    + unfold tokens, delayed_receipts, state_of. simpl. rewrite Ec.
      rewrite (same_holdings_money _ _ SH), (same_holdings_waiting _ _ _ SH). unfold values. simpl. lia.
    + intros rest [Hu1 Hu2]. split; [done|]. split; [done|]. eapply Forall_impl; [exact Hu2|].
      unfold state_of. simpl.
      intros [k|k]; simpl; [by rewrite (sh_postponed _ _ SH)|by rewrite (sh_yields _ _ SH)].
Qed.
End processing.
