(* ===== verification/Apply.v ===== *)
(** * Applying a chunk (runtime/src/lib.rs, [Runtime::apply])

    Applying a chunk updates the validator accounts, runs the bandwidth scheduler,
    forwards buffered receipts, processes the transactions and then the receipts, writes
    back the queues and asks for the bandwidth of the next chunk.  Receipts of
    transactions go to the sink after the loop over the transactions, which does not read
    it.  The configurations of congestion control and scheduler, which the code reads from
    the runtime configuration, are arguments of their own. *)

From S2P Require Import Prelude Crates AccountId Primitives Errors Fees Borsh Wire ReceiptWire ShardLayout Bandwidth.
From S2P Require Import TrieQueue OutgoingMetadata State BitcoinTx RuntimeTypes AccessKeys Validation Congestion CongestionControl.
From S2P Require Import Scheduling Verifier Actions Runtime Receipts Validators Transactions.

(** What a shard keeps between chunks. *)
Record Shard : Type := mkShard {
  sd_state : State;
  sd_delayed : TrieQueue ReceiptOrStateStoredReceipt;
  sd_buffers : gmap Z (TrieQueue ReceiptOrStateStoredReceipt);
  sd_metadatas : OutgoingMetadatas;
  sd_scheduler : option BandwidthSchedulerState;
}.

(** The arguments of [apply], and of the apply state what concerns congestion and
    bandwidth: what the chunks of the previous block say of their shards, in the order of
    the shard identifiers. *)
Record Chunk : Type := mkChunk {
  ck_validator_accounts_update : option ValidatorAccountsUpdate;
  ck_incoming_receipts : list Receipt;
  ck_signed_txs : list (SignedTransaction * bool);
  ck_is_new_chunk : bool;
  ck_congestion_info : list (Z * ExtendedCongestionInfo);
  ck_bandwidth_requests : list (Z * list BandwidthRequest);
  ck_prev_block_hash : CryptoHash;
}.

(** [ChunkApplyStatsV0], without the statistics of sink and scheduler. *)
Record ChunkStats : Type := mkChunkStats {
  cs_transactions_num : Z;
  cs_incoming_receipts_num : Z;
  cs_is_new_chunk : bool;
  cs_balance : BalanceStats;
}.

Record ApplyResult : Type := mkApplyResult {
  ar_shard : Shard;
  ar_validator_proposals : list ValidatorStake;
  ar_outgoing_receipts : list Receipt;
  ar_outcomes : list ExecutionOutcome;
  ar_processed_receipts : list (Receipt * ReceiptSource);
  ar_processed_yield_timeouts : list PromiseYieldTimeout;
  ar_delayed_receipts_count : Z;
  ar_congestion_info : option CongestionInfo;
  ar_bandwidth_requests : list BandwidthRequest;
  ar_bandwidth_scheduler_state_hash : CryptoHash;
  ar_stats : ChunkStats;
}.

(** The last proposal of each account, the latest first. *)
Fixpoint unique_proposals (account_ids : gset AccountId) (proposals : list ValidatorStake)
    : list ValidatorStake :=
  match proposals with
  | [] => []
  | p :: proposals =>
      if bool_decide (vs_account_id p ∈ account_ids) then unique_proposals account_ids proposals
      else p :: unique_proposals ({[vs_account_id p]} ∪ account_ids) proposals
  end.

(** [wrapping_add] on u64. *)
Definition wrapping_add_u64 (a b : Z) : Z := (a + b) mod (u64_max + 1).

(** [BTreeMap::get]. *)
Fixpoint btree_get {A : Type} (m : list (Z * A)) (key : Z) : option A :=
  match m with
  | [] => None
  | (k, a) :: m => if k =? key then Some a else btree_get m key
  end.

Section apply.
Context {C : Crates} {Rng : Type}.
Variable from_seed : list Z -> Rng.
Variable shuffle : list SchedulerBandwidthRequest -> Rng -> list SchedulerBandwidthRequest * Rng.
Variable congestion_control_config : CongestionControlConfig.
Variable bandwidth_scheduler_config : BandwidthSchedulerConfig.
Variable action_function_call : ApplyState -> EpochInfo -> State -> Account -> Receipt ->
  ActionReceipt -> list (option (list Z)) -> ActionResult -> FunctionCallAction -> CryptoHash ->
  bool -> result (State * Account * ActionResult) RuntimeError.
Variable verifying_key_ok : list Z -> bool.
Variable safe_verify_batch : list (list Z) -> list (list Z) -> list (list Z) -> bool.
Variables num_threads min_chunk_size : Z.
Variable layout : ShardLayout.
Variable limit : nat -> nat -> bool.
Variable ap : ApplyState.
Variable ei : EpochInfo.

Definition own_congestion_info (sh : Shard) (ck : Chunk) : result CongestionInfo RuntimeError :=
  match btree_get (ck_congestion_info ck) (shard_id ap) with
  | Some congestion_info => Ok (eci_congestion_info congestion_info)
  | None => map_err RtStorageError
              (bootstrap_congestion_info (config ap) (sd_delayed sh) (sd_buffers sh) (shard_id ap))
  end.

(** The run of the scheduler on the state of the shard. *)
Definition scheduler_step (sh : Shard) (ck : Chunk)
    : result (BandwidthSchedulerOutput * BandwidthSchedulerState) RuntimeError :=
  no_error (run_bandwidth_scheduler from_seed shuffle layout congestion_control_config
              bandwidth_scheduler_config (max_receipt_size (limit_config (config ap))) (sd_scheduler sh)
              (ck_congestion_info ck) (ck_bandwidth_requests ck) (ck_prev_block_hash ck)).

Definition receipt_sink_new (sh : Shard) (ck : Chunk) (own : CongestionInfo)
    (output : BandwidthSchedulerOutput) : result ReceiptSink RuntimeError :=
  let? limits := no_error (outgoing_limits congestion_control_config (shard_id ap)
                             (ck_congestion_info ck) (bso_granted output)) in
  Ok (mkReceiptSink own [] limits (sd_buffers sh) (sd_metadatas sh)).

(** The statistics count a new chunk as missing and a missing one as new. *)
Definition chunk_stats (ck : Chunk) (balance : BalanceStats) : ChunkStats :=
  mkChunkStats (vec_len (ck_signed_txs ck)) (vec_len (ck_incoming_receipts ck))
    (negb (ck_is_new_chunk ck)) balance.

Definition no_stats : BalanceStats := mkBalanceStats 0 0 0.

(** Congestion information and requests as they came in. *)
Definition missing_chunk_apply_result (sh : Shard) (ck : Chunk) (u : StateUpdate)
    (output : BandwidthSchedulerOutput) (scheduler_state : BandwidthSchedulerState)
    : result ApplyResult RuntimeError :=
  let? len := queue_len (sd_delayed sh) in
  Ok (mkApplyResult
        (mkShard (su_current u) (sd_delayed sh) (sd_buffers sh) (sd_metadatas sh) (Some scheduler_state))
        [] [] [] [] [] len
        (eci_congestion_info <$> btree_get (ck_congestion_info ck) (shard_id ap))
        (default [] (btree_get (ck_bandwidth_requests ck) (shard_id ap)))
        (scheduler_state_hash output) (chunk_stats ck no_stats)).

(** Steps 1 and 2, and the state the receipts are processed in. *)
Definition update_validators_step (sh : Shard) (ck : Chunk) : result StateUpdate RuntimeError :=
  let u := mkStateUpdate (sd_state sh) (sd_state sh) in
  match ck_validator_accounts_update ck with
  | Some upd => update_validator_accounts u upd (epoch_height ap)
  | None => Ok u
  end.

Definition transactions_step (sh : Shard) (ck : Chunk) (u : StateUpdate) (output : BandwidthSchedulerOutput)
    : result ProcessingState RuntimeError :=
  let? own := own_congestion_info sh ck in
  let? sink := receipt_sink_new sh ck own output in
  let? sink := forward_from_buffer (config ap) layout sink in
  let? ts := process_transactions verifying_key_ok safe_verify_batch num_threads min_chunk_size ap
               (mkTxState u no_caches [] [] [] no_stats 0 0) (ck_signed_txs ck) in
  let? sink := send_all (config ap) layout (ts_sent ts) sink in
  Ok (mkPS (ts_update ts) sink (delayed_new (sd_delayed sh)) (ts_local_receipts ts) []
        (ts_total_gas ts) (ts_total_compute ts) (ts_outcomes ts) [] [] (ts_stats ts) 0).

(** The indices are written when they changed. *)
Definition write_timeout_indices (s : State) (first : Z) : State :=
  let q := rc_timeouts (st_receipts s) in
  with_timeouts s (mkTrieQueue (q_items q)
                     (mkTrieQueueIndices first (next_available_index (q_indices q)))).

Definition validate_apply_state_update (ck : Chunk) (ps : ProcessingState) (t : Timeouts)
    (output : BandwidthSchedulerOutput) (scheduler_state : BandwidthSchedulerState)
    : result ApplyResult RuntimeError :=
  let u := su_commit (su_put (ps_update ps)
             (write_timeout_indices (su_current (ps_update ps)) (to_first_index t))) in
  let sink := ps_sink ps in
  let? delayed_receipts_count := queue_len (dq_queue (ps_delayed ps)) in
  let? own := apply_congestion_changes (ps_delayed ps) (rs_own_congestion_info sink) in
  let? shard_seed := map_err (fun _ => ValidatorError (lit "")) (get_shard_index layout (shard_id ap)) in
  let congestion_seed := wrapping_add_u64 (block_height ap) shard_seed in
  let? own := finalize_allowed_shard own (shard_id ap) (shard_ids layout) congestion_seed in
  let? bandwidth_requests := generate_bandwidth_requests layout sink (bso_params output) in
  Ok (mkApplyResult
        (mkShard (su_current u) (dq_queue (ps_delayed ps)) (rs_outgoing_buffers sink)
           (rs_outgoing_metadatas sink) (Some scheduler_state))
        (unique_proposals ∅ (rev (ps_proposals ps))) (rs_outgoing_receipts sink) (ps_outcomes ps)
        (ps_processed ps) (to_processed t) delayed_receipts_count (Some own)
        bandwidth_requests (scheduler_state_hash output) (chunk_stats ck (ps_stats ps))).

Definition apply (sh : Shard) (ck : Chunk) : result ApplyResult RuntimeError :=
  let? u := update_validators_step sh ck in
  let? (output, scheduler_state) := scheduler_step sh ck in
  if negb (ck_is_new_chunk ck) then missing_chunk_apply_result sh ck u output scheduler_state
  else
    let? ps := transactions_step sh ck u output in
    let? (ps, t) := process_receipts action_function_call layout limit ap ei
                      (ck_incoming_receipts ck) ps in
    validate_apply_state_update ck ps t output scheduler_state.
End apply.
