(* ===== verification/Chunk.v ===== *)
(** * No chunk creates tokens

    The theorem puts the proofs about the steps of a chunk together. *)

From S2P Require Import Prelude Float64 Crates AccountId Primitives Errors Fees Borsh Wire ReceiptWire ShardLayout.
From S2P Require Import TrieQueue OutgoingMetadata State BitcoinTx RuntimeTypes AccessKeys Validation Congestion SinkProofs Verifier Actions.
From S2P Require Import Runtime Receipts Conservation Validators ReceiptConservation ReceiptFrames.
From S2P Require Import Transactions TransactionProofs ChunkSafety Supply Bandwidth CongestionControl Scheduling Apply.

(* ------------------------------------------------------------------ *)
(** ** The transactions of a chunk *)

Section transactions.
Context {C : Crates} (layout : ShardLayout) (ap : ApplyState).

(** What the types of a transaction say, and that its signer lives on this shard. *)
Definition well_typed (stx : SignedTransaction) : Prop :=
  Forall typed_action (actions (stx_transaction stx))
  /\ account_id_to_shard_id layout (signer_id (stx_transaction stx)) = Ok (shard_id ap).

Definition checked_tx (stx : SignedTransaction) : Prop :=
  Forall (checked_action (receiver_id (stx_transaction stx))) (actions (stx_transaction stx)).

(** Between transactions: gas is only in keys of accounts that exist, the system has no
    account, receipts in the state are untouched, and the new ones are sound. *)
Record tx_ok (s0 : State) (ts : TxState) : Prop := mk_tx_ok {
  to_holders : forall id pk k, get_account (ts_state ts) id = None ->
    get_access_key (ts_state ts) id pk = Some k -> key_balance k = 0;
  to_system : forall id, not_system id (get_account (ts_state ts) id);
  to_receipts : st_receipts (ts_state ts) = st_receipts s0;
  to_local : Forall (fun r => arrives layout ap r /\ slot r = None) (ts_local_receipts ts);
  to_sent : Forall sound_receipt (ts_sent ts);
}.

Lemma registered_ok s0 ts ts1 id pk : tx_ok s0 ts -> registered ts ts1 id pk -> tx_ok s0 ts1.
Proof.
  intros [Hh Hs Hr Hl Ht] [F _ (E1 & E2 & _) _ _].
  assert (forall i, get_account (ts_state ts1) i = get_account (ts_state ts) i) as Ea
    by (intros i; unfold get_account; by rewrite (kf_accounts _ _ _ _ F)).
  split; rewrite ?E1, ?E2; try done.
  - intros i q k Hi Hk. rewrite Ea in Hi. rewrite (kf_balance _ _ _ _ F _ _ _ Hk).
    destruct (get_access_key (ts_state ts) i q) as [k0|] eqn:E; [by apply (Hh i q)|done].
  - intros i. rewrite Ea. apply Hs.
  - by rewrite (kf_receipts _ _ _ _ F).
Qed.

Lemma guard_receipts ts stx account r ts1 :
  patoshi_guard ap ts stx account r = Ok (inl ts1) -> st_receipts (ts_state ts1) = st_receipts (ts_state ts).
Proof.
  intros H. apply guard_cases in H. cbv zeta in H.
  destruct (get_patoshi_record _ _) as [[record|]| |]; try done; [|by subst].
  destruct (maybe_schedule_patoshi_unlock _ _ _ _) as [record' [e|]]; by destruct H as [_ ->].
Qed.

(** The receipt of a transaction. *)
Lemma tx_receipt_sound stx r :
  well_typed stx -> checked_tx stx -> is_system (signer_id (stx_transaction stx)) = false ->
  0 <= vr_receipt_gas_price r -> sound_receipt (tx_receipt ap stx r).
Proof.
  intros [Ht _] Hc Hs Hp. unfold tx_receipt, receipt_from_tx.
  split; [split_and!; [done|done|cbn; congruence]|exact Hc].
Qed.

Lemma emit_ok s0 ts stx r :
  let id := signer_id (stx_transaction stx) in
  well_typed stx -> tx_ok s0 ts -> sound_receipt (tx_receipt ap stx r) ->
  tx_ok s0 (emit ts id (tx_receipt ap stx r)).
Proof.
  intros id [_ Hhome] [Hh Hs Hr Hl Ht] Hsound. unfold emit. case_bool_decide as Hid; split; try done; simpl.
  - apply Forall_app. split; [done|]. apply Forall_singleton. split; [|done]. split; [done|].
    unfold belongs, receiver_shard_id. cbn in Hid |- *. rewrite Hid. unfold id. rewrite Hhome. simpl.
    apply Z.eqb_refl.
  - apply Forall_app. split; [done|]. by apply Forall_singleton.
Qed.

Lemma charged_ok s0 ts ts' id pk account account' k' upd :
  tx_ok s0 ts -> get_account (ts_state ts) id = Some account ->
  ts_state ts' = charged_state (ts_state ts) id pk account' k' upd ->
  ts_local_receipts ts' = ts_local_receipts ts -> ts_sent ts' = ts_sent ts -> tx_ok s0 ts'.
Proof.
  intros [Hh Hs Hr Hl Ht] Ha E El Et.
  assert (forall i, get_account (ts_state ts') i = if decide (i = id) then Some account'
    else get_account (ts_state ts) i) as Ea.
  { intros i. rewrite E. unfold charged_state, get_account. case_decide as Hi; [subst i|].
    - destruct upd as [[]|]; simpl; apply lookup_insert_eq.
    - destruct upd as [[]|]; simpl; by apply lookup_insert_ne. }
  split; rewrite ?El, ?Et; try done.
  - intros i q k Hi Hk. rewrite Ea in Hi. case_decide as Hd; [done|].
    apply (Hh i q k); [done|]. rewrite E in Hk. unfold charged_state in Hk.
    rewrite get_set_access_key_ne in Hk by congruence. by destruct upd as [[]|].
  - intros i. rewrite Ea. case_decide as Hd; [subst i|apply Hs]. intros Hsys. apply (Hs id) in Hsys. congruence.
  - rewrite E, <- Hr. unfold charged_state. by destruct upd as [[]|].
Qed.

Hypothesis Hfees : fees_nonneg (config ap).
Hypothesis Hprice : 0 <= gas_price ap.

Lemma transaction_ok s0 ts stx e ts' :
  well_typed stx -> (e = None -> checked_tx stx) -> coherent ts -> tx_ok s0 ts ->
  process_transaction ap ts stx e = Ok ts' -> tx_ok s0 ts'.
Proof using Hfees Hprice.
  intros Hty Hchk Hco Hok H. destruct e as [e|]; [injection H as <-; by destruct Hok|].
  specialize (Hchk eq_refl). apply process_step in H; [|done].
  destruct H as [ts1 e Hr Hco1 ->|ts1 ts2 account k k1 cost r paid o Hr Hco1 Hca Hck Hch Hs Hf Hcost].
  { apply (registered_ok s0) in Hr; [|done]. by destruct Hr. }
  apply (registered_ok s0) in Hr; [|done]. pose proof (co_account _ Hco1 _ _ Hca) as Ha.
  assert (Hok2 : tx_ok s0 ts2).
  { destruct Hs as [_|tsg Hg]; [done|].
    apply emit_ok; [done| |apply tx_receipt_sound; [done|done| |]].
    - pose proof (guard_receipts _ _ _ _ _ Hg) as Erc. destruct Hr as [Hh Hsy Hrc Hl Ht].
      apply guard_frame in Hg as (_ & E2 & E3 & _ & _ & E5 & E6 & _).
      split; unfold get_account, get_access_key; rewrite ?E2, ?E3, ?E5, ?E6, ?Erc; auto.
    - destruct (is_system _) eqn:Esys; [|done]. pose proof (to_system _ _ Hr _ Esys). congruence.
    - destruct Hch as (_ & -> & _). destruct Hty as [Hty _].
      by destruct (cost_parts (config ap) Hfees _ _ _ Hprice (typed_flatten _ Hty) Hcost) as (_ & _ & _ & -> & _). }
  pose proof (settled_frame _ _ _ _ _ _ Hs) as (_ & _ & E2 & _).
  apply finish_cases in Hf as [[-> _]|(a' & k' & _ & _ & E1 & _ & El & Et & _)]; [done|].
  eapply charged_ok; [exact Hok2| |exact E1|done|done]. unfold get_account. rewrite E2. exact Ha.
Qed.

Lemma process_all_ok s0 l : forall ts ts',
  Forall (fun p => well_typed p.1 /\ (p.2 = None -> checked_tx p.1)) l -> coherent ts -> tx_ok s0 ts ->
  process_all ap ts l = Ok ts' -> tx_ok s0 ts'.
Proof using Hfees Hprice.
  induction l as [|[stx e] l IH]; intros ts ts' Hl Hco Hok H; simpl in H; [by injection H as <-|].
  apply Forall_cons in Hl as [[Ht Hc] Hl]. apply rbind_Ok in H as (ts1 & E & H).
  eapply IH; [done| |by eapply transaction_ok|exact H]. eapply step_coherent, process_step; [exact Hco|exact E].
Qed.

(* The flags of expiration and the errors of validation. *)
Lemma validated_checked stx :
  validate_transaction_actions (config ap) stx (current_protocol_version ap) = Ok tt -> checked_tx stx.
Proof.
  unfold validate_transaction_actions, validate_actions, validate_actions_by. intros H. apply map_err_Ok in H.
  destruct (_ <? _); [done|]. apply rbind_Ok in H as ([] & E & _). by eapply check_actions_checked.
Qed.

Lemma error_of_None {A} (m : result A InvalidTxError) : error_of m = Ok None -> exists a, m = Ok a.
Proof. destruct m; [eauto|done..]. Qed.

Lemma validate_one_checked v idx stx b :
  validate_one (config ap) (current_protocol_version ap) v idx stx b = Ok None -> checked_tx stx.
Proof.
  unfold validate_one. destruct b; [|done]. simpl.
  destruct (_ =? 1); intros [a H]%error_of_None; apply validated_checked.
  - unfold validate_transaction_well_formed in H. by apply rbind_Ok in H as ([] & ? & _).
  - unfold validate_transaction in H. apply rbind_Ok in H as ([] & ? & _). done.
Qed.

Definition validations_ok (txs : list (SignedTransaction * bool)) (vs : list (option InvalidTxError)) : Prop :=
  Forall2 (fun p v => v = None -> checked_tx p.1) txs vs.

Lemma validate_from_ok v txs : forall idx vs,
  validate_from (config ap) (current_protocol_version ap) v idx txs = Ok vs -> validations_ok txs vs.
Proof.
  induction txs as [|[stx b] txs IH]; intros idx vs H; simpl in H; [injection H as <-; constructor|].
  apply rbind_Ok in H as (x & E & H). apply rbind_Ok in H as (xs & Es & H). injection H as <-.
  constructor; [|by eapply IH]. intros ->. by eapply validate_one_checked.
Qed.

Lemma validate_chunks_ok vk svb chunks : forall vs,
  validate_chunks vk svb (config ap) (current_protocol_version ap) chunks = Ok vs ->
  validations_ok (concat chunks) vs.
Proof.
  induction chunks as [|c chunks IH]; intros vs H; simpl in H; [injection H as <-; constructor|].
  apply rbind_Ok in H as (x & E & H). apply rbind_Ok in H as (xs & Es & H). injection H as <-.
  apply Forall2_app; [|by apply IH]. unfold validate_chunk in E.
  destruct (collect_batch _ _ _) as [[[? ?] ?] ?]. by eapply validate_from_ok.
Qed.

Lemma process_transactions_ok s0 vk svb threads min ts txs ts' :
  0 <= threads -> 0 <= min -> Forall (fun p => well_typed p.1) txs -> tx_ok s0 ts ->
  process_transactions vk svb threads min ap ts txs = Ok ts' -> tx_ok s0 ts'.
Proof using Hfees Hprice.
  intros Ht Hm Hty Hok H. unfold process_transactions in H.
  destruct (chunk_size _ _ _) as [size| |] eqn:Esize; [|done..].
  apply chunk_size_bounds in Esize; [|unfold vec_len; lia|done|done].
  destruct (validate_chunks _ _ _ _ _) as [vs| |] eqn:Ev; [|done..].
  apply validate_chunks_ok in Ev. rewrite par_chunks_concat in Ev by lia.
  assert (tx_ok s0 (put_caches ts (prefetch (ts_state ts) txs))) by (by destruct Hok).
  eapply process_all_ok; [|apply prefetch_coherent|done|exact H].
  clear -Hty Ev. induction Ev as [|[stx b] v txs vs Hv _ IH]; simpl; [done|].
  apply Forall_cons in Hty as [? ?]. constructor; auto.
Qed.
End transactions.

(* ------------------------------------------------------------------ *)
(** ** The tokens of a shard *)

Section chunk.
Context {C : Crates} {Rng : Type} (from_seed : list Z -> Rng).
Context (shuffle : list SchedulerBandwidthRequest -> Rng -> list SchedulerBandwidthRequest * Rng).
Context (congestion_config : CongestionControlConfig) (scheduler_config : BandwidthSchedulerConfig).
Context (action_function_call : ApplyState -> EpochInfo -> State -> Account -> Receipt ->
  ActionReceipt -> list (option (list Z)) -> ActionResult -> FunctionCallAction -> CryptoHash ->
  bool -> result (State * Account * ActionResult) RuntimeError).
Context {L : CallsLawful action_function_call}.
Context (verifying_key_ok : list Z -> bool).
Context (safe_verify_batch : list (list Z) -> list (list Z) -> list (list Z) -> bool).
Context (num_threads min_chunk_size : Z) (layout : ShardLayout) (limit : nat -> nat -> bool).
Context (ap : ApplyState) (ei : EpochInfo).
Local Abbreviation value := (receipt_value (config ap)).

Definition stored_receipts (q : TrieQueue ReceiptOrStateStoredReceipt) : list Receipt :=
  map get_receipt (contents q).

(** Between chunks: sound state, stored queues, delayed receipts of this shard. *)
Record shard_ok (sh : Shard) : Prop := mk_shard_ok {
  so_world : world (sd_state sh);
  so_queue : stored_queue (sd_delayed sh);
  so_delayed : Forall (arrives layout ap) (stored_receipts (sd_delayed sh));
  so_buffers : map_Forall (fun _ q => stored_queue q) (sd_buffers sh);
}.

(** Accounts, gas keys, and receipts waiting, delayed and buffered. *)
Definition shard_tokens (sh : Shard) : Z :=
  money (sd_state sh) + waiting (config ap) (sd_state sh)
  + values (config ap) (stored_receipts (sd_delayed sh))
  + buffers_sum (queue_weight value) (sd_buffers sh).

Definition rewards (ck : Chunk) (s : State) : Z :=
  match ck_validator_accounts_update ck with Some upd => minted upd s | None => 0 end.

(** What the types of the arguments say, and what the chunk producer guarantees. *)
Record chunk_ok (ck : Chunk) : Prop := mk_chunk_ok {
  co_update : forall upd, ck_validator_accounts_update ck = Some upd ->
    map_Forall (fun _ m => 0 <= m) (stake_info upd) /\ map_Forall (fun _ r => 0 <= r) (validator_rewards upd);
  co_incoming : Forall (arrives layout ap) (ck_incoming_receipts ck);
  co_txs : Forall (fun p => well_typed layout ap p.1) (ck_signed_txs ck);
}.

Lemma fit_inv s id a : balances_nonneg s -> money s <= u128_max -> get_account s id = Some a ->
  is_u u128_max (amount a).
Proof.
  intros Hn Hm Ha. destruct (nonneg_fit s Hn Hm id a Ha) as (? & ? & ?). unfold account_total, is_u in *. lia.
Qed.

Lemma validators_step_ok sh ck u :
  shard_ok sh -> chunk_ok ck -> balances_nonneg (sd_state sh) ->
  money (sd_state sh) + rewards ck (sd_state sh) <= u128_max ->
  update_validators_step ap sh ck = Ok u ->
  world (su_current u) /\ balances_nonneg (su_current u) /\ st_receipts (su_current u) = st_receipts (sd_state sh)
  /\ money (su_current u) = money (sd_state sh) + rewards ck (sd_state sh).
Proof.
  intros [W _ _ _] [Hup _ _] Hn Hm H. unfold update_validators_step, rewards in *.
  destruct (ck_validator_accounts_update ck) as [upd|]; [|injection H as <-; simpl; split_and!; [done..|lia]].
  destruct (Hup upd eq_refl) as [Hu1 Hu2].
  apply update_exact in H as (_ & Em & [E D] & Hn' & _); [|done..]. simpl in *.
  split_and!; [|done|by rewrite <- E|done]. destruct W as [W1 W2 W3 W4].
  assert (forall id, get_account (su_current u) id = None -> get_account (sd_state sh) id = None) as Hnone.
  { intros id. rewrite !eq_None_not_Some. by rewrite D. }
  split; [| |by rewrite <- E|by rewrite <- E].
  - intros id. unfold inv. destruct (get_account (su_current u) id) as [a|] eqn:Ea.
    + eapply fit_inv; [exact Hn'|lia|exact Ea].
    + split; [done|]. intros pk k Hk. rewrite <- E in Hk. specialize (W1 id). rewrite (Hnone id Ea) in W1.
      by apply (proj2 W1 pk).
  - intros id Hs. destruct (get_account (su_current u) id) eqn:Ea; [|done].
    destruct (proj1 (D id)) as [b Hb]; [by rewrite Ea|]. rewrite (W2 id Hs) in Hb. done.
Qed.

Hypothesis Hnamed : get_account_type "system" = NamedAccount.
Hypothesis Hconfig : sound_config ap.
Hypothesis Hfees : fees_nonneg (config ap).
Hypothesis Hprice : 0 <= gas_price ap.
Hypothesis Hthreads : 0 <= num_threads.
Hypothesis Hmin : 0 <= min_chunk_size.

(** The state after the transactions. *)
Lemma tx_world s0 ts :
  world s0 -> tx_ok layout ap s0 ts -> healthy (config ap) ts -> world (ts_state ts).
Proof.
  intros W [Hh Hs Hr _ _] [Ha Hk Hv [Hb1 Hb2] Hsup]. destruct W as [_ _ W3 W4].
  split; [|done|by rewrite Hr|by rewrite Hr]. intros id. unfold inv.
  destruct (get_account (ts_state ts) id) as [a|] eqn:Ea.
  - eapply fit_inv; [by split|unfold tx_supply, burnt_total in Hsup; lia|exact Ea].
  - split; [done|]. intros pk k. by apply Hh.
Qed.

Lemma healthy_start u : balances_nonneg (su_current u) -> money (su_current u) <= u128_max ->
  healthy (config ap) (mkTxState u no_caches [] [] [] no_stats 0 0).
Proof.
  intros [H1 H2] Hm. split; simpl; [exact H1|exact H2|done|done|].
  unfold tx_supply, burnt_total, ts_state. simpl. unfold values. simpl. lia.
Qed.

Lemma transactions_step_ok sh ck u output ps :
  shard_ok sh -> chunk_ok ck -> world (su_current u) -> balances_nonneg (su_current u) ->
  st_receipts (su_current u) = st_receipts (sd_state sh) -> money (su_current u) <= u128_max ->
  transactions_step congestion_config verifying_key_ok safe_verify_batch num_threads min_chunk_size layout ap
    sh ck u output = Ok ps ->
  ps_ok layout ap ps /\ st_receipts (state_of ps) = st_receipts (sd_state sh)
  /\ Forall (fun r => slot r = None) (ps_local ps)
  /\ delayed_receipts ps = stored_receipts (sd_delayed sh)
  /\ ps_instant ps = [] /\ ps_processed ps = []
  /\ tokens ap ps = shard_tokens sh - money (sd_state sh) + money (su_current u).
Proof using Hfees Hprice Hthreads Hmin.
  intros [_ Hq Hd Hb] [_ _ Htx] W Hn Er Hm H. unfold transactions_step in H.
  apply rbind_Ok in H as (own & _ & H). apply rbind_Ok in H as (sink0 & Es0 & H).
  apply rbind_Ok in Es0 as (limits & _ & Es0). injection Es0 as <-.
  apply rbind_Ok in H as (sink & Es & H). apply rbind_Ok in H as (ts & Et & H). apply rbind_Ok in H as (sink' & Es' & H). injection H as <-.
  apply forward_from_buffer_carried in Es as [Hb1 Ec1]; [|exact Hb].
  apply send_all_carried in Es' as [Hb2 Ec2]; [|done].
  set (ts0 := mkTxState _ _ _ _ _ _ _ _) in Et.
  pose proof (healthy_start u Hn Hm) as Hh. fold ts0 in Hh.
  assert (Hok0 : tx_ok layout ap (su_current u) ts0).
  { split; [|apply W|done|constructor..]. intros id pk k Ha Hk. pose proof (wo_inv _ W id) as Hi.
    unfold ts0, ts_state in Ha, Hk. simpl in Ha, Hk. rewrite Ha in Hi. by apply (proj2 Hi pk). }
  pose proof (process_transactions_ok layout ap Hfees Hprice _ _ _ _ _ _ _ _ Hthreads Hmin Htx Hok0 Et) as Hok.
  apply process_transactions_inv in Et as [vs Et].
  assert (Hg : good (config ap) (tx_supply (config ap) ts0) (put_caches ts0 (prefetch (ts_state ts0) (ck_signed_txs ck))))
    by (split_and!; [apply prefetch_coherent|by destruct Hh; split|done]).
  assert (Hbd : Forall (fun p : SignedTransaction * bool => Forall action_bounded (flatten (actions (stx_transaction p.1))))
    (ck_signed_txs ck)) by (eapply Forall_impl; [exact Htx|]; intros p [Hp _]; by apply typed_flatten).
  apply (zip_bounded (fun stx => Forall action_bounded (flatten (actions (stx_transaction stx)))) _ vs) in Hbd.
  destruct (process_all_good ap Hfees Hprice _ _ _ _ Hbd Hg Et) as (_ & Hh' & Hsup).
  pose proof (tx_world _ _ W Hok Hh') as W'. destruct Hok as [_ _ Hrc Hl Hsent].
  split_and!; try done; simpl.
  - split; try done. eapply Forall_impl; [exact Hl|]. by intros r [? _].
  - unfold state_of. simpl. unfold ts_state in Hrc. congruence.
  - eapply Forall_impl; [exact Hl|]. by intros r [_ ?].
  - unfold tokens, shard_tokens, state_of, delayed_receipts. simpl. rewrite Ec2, Ec1.
    unfold tx_supply, ts_state in *. simpl in *. unfold waiting. rewrite Hrc, Er.
    unfold carried, values, burnt_total, stored_receipts in *. simpl in *. lia.
Qed.

Lemma unique_slots_none s l rs : Forall (fun r => slot r = None) l -> unique_slots s rs -> unique_slots s (l ++ rs).
Proof.
  intros Hl. unfold unique_slots. rewrite omap_app.
  assert (omap slot l = []) as ->; [|done]. induction Hl as [|r l Hr _ IH]; [done|]. simpl. by rewrite Hr.
Qed.

Lemma unique_slots_same s s' rs : st_receipts s' = st_receipts s -> unique_slots s rs -> unique_slots s' rs.
Proof.
  intros E [H1 H2]. split; [done|]. eapply Forall_impl; [exact H2|]. intros [k|k]; simpl; by rewrite E.
Qed.

Lemma finish_ok ck ps t output st res :
  ps_ok layout ap ps -> ps_local ps = [] -> ps_instant ps = [] ->
  validate_apply_state_update layout ap ck ps t output st = Ok res ->
  shard_ok (ar_shard res) /\ ar_processed_receipts res = ps_processed ps
  /\ shard_tokens (ar_shard res) + values (config ap) (ar_outgoing_receipts res)
     + burnt_total (cs_balance (ar_stats res)) = tokens ap ps.
Proof.
  intros [W _ _ Hq Hd Hb] El Ei H. unfold validate_apply_state_update in H.
  apply rbind_Ok in H as (n & _ & H). apply rbind_Ok in H as (own & _ & H). apply rbind_Ok in H as (seed & _ & H).
  apply rbind_Ok in H as (own' & _ & H). apply rbind_Ok in H as (requests & _ & H).
  injection H as <-. simpl. split_and!; [|done|].
  - split; [by apply (same_holdings_world (state_of ps))|done..].
  - unfold shard_tokens, tokens. simpl. rewrite El, Ei. unfold values, carried, stored_receipts, delayed_receipts.
    simpl. unfold state_of, waiting, money, total_accounts, total_gas_keys. simpl. lia.
Qed.

(** C1. Applying a chunk creates no tokens.  Counting what accounts and gas keys hold and
    what is carried by the receipts that wait for data, are delayed, are buffered or
    leave the shard, the shard has after the chunk what it had before, plus the rewards
    paid to validators, plus what the incoming receipts bring, minus what was burnt and
    minus what was in a waiting receipt overwritten by one with the same identifier; if
    identifiers are unique nothing is lost.  A missing chunk takes in no receipts.  The
    invariants of the shard hold again. *)
Theorem apply_conserves sh ck res :
  shard_ok sh -> chunk_ok ck -> balances_nonneg (sd_state sh) ->
  money (sd_state sh) + rewards ck (sd_state sh) <= u128_max ->
  apply from_seed shuffle congestion_config scheduler_config action_function_call verifying_key_ok
    safe_verify_batch num_threads min_chunk_size layout limit ap ei sh ck = Ok res ->
  shard_ok (ar_shard res)
  /\ exists lost, 0 <= lost
     /\ shard_tokens (ar_shard res) + values (config ap) (ar_outgoing_receipts res)
        + burnt_total (cs_balance (ar_stats res)) + lost
        = shard_tokens sh + rewards ck (sd_state sh)
          + (if ck_is_new_chunk ck then values (config ap) (ck_incoming_receipts ck) else 0)
     /\ (unique_slots (sd_state sh) (stored_receipts (sd_delayed sh) ++ ck_incoming_receipts ck
                                     ++ instants (ar_processed_receipts res)) -> lost = 0).
Proof using L Hnamed Hconfig Hfees Hprice Hthreads Hmin.
  intros Hsh Hck Hn Hm H. unfold apply in H. apply rbind_Ok in H as (u & Eu & H).
  destruct (validators_step_ok _ _ _ Hsh Hck Hn Hm Eu) as (W & Hn' & Er & Em).
  apply rbind_Ok in H as ([output st] & _ & H).
  destruct (ck_is_new_chunk ck); simpl in H.
  - apply rbind_Ok in H as (ps & Eps & H). apply rbind_Ok in H as ([ps' t] & Ep & H).
    destruct (transactions_step_ok _ _ _ _ _ Hsh Hck W Hn' Er ltac:(lia) Eps)
      as (Hok & Erc & Hslot & Ed & Ei & Epr & Et).
    apply process_receipts_accounted in Ep as (A & El' & Ei'); [|try done..]; [|apply Hck].
    destruct A as [Hok' _ (new & lost & Enew & Hlost & Htok & Hu)].
    destruct (finish_ok _ _ _ _ _ _ Hok' El' (Ei' Ei) H) as (Hres & Eproc & Efin).
    split; [done|]. exists lost. split_and!; [done|lia|]. intros Huniq.
    apply (Hu []). rewrite Epr in Enew. simpl in Enew. rewrite <- Enew, <- Eproc. unfold queued.
    rewrite Ed, app_nil_r, <- app_assoc. apply unique_slots_none; [done|].
    by apply (unique_slots_same (sd_state sh)).
  - apply rbind_Ok in H as (n & _ & H). injection H as <-. destruct Hsh. simpl. split; [by split|].
    exists 0. split_and!; [done| |done]. unfold shard_tokens, waiting. simpl. rewrite Er.
    unfold values, burnt_total. simpl. lia.
Qed.
End chunk.

(* ------------------------------------------------------------------ *)
(** ** A concrete chunk: a reward, a transaction and an incoming receipt *)

Section witnesses.
#[local] Existing Instance Toy.crates.

#[local] Instance sample_calls_lawful : CallsLawful sample_call.
Proof.
  split.
  - apply sample_calls_conserve.
  - intros ap ei s acc receipt ar pr res f h last s' acc' res' H _.
    apply rbind_Ok in H as (acc1 & _ & H). injection H as <- <- <-. eauto with frame.
  - intros ap ei s acc receipt ar pr res f h last s' acc' res' _ _ H _.
    apply rbind_Ok in H as (acc1 & _ & H). injection H as <- <- <-.
    exists []. split; [by rewrite app_nil_r|done].
Qed.

Definition shard_state : State :=
  let s := set_account chunk_state "bob.near" (account_new (10 ^ 27) 0 ContractNone 200) in
  let s := set_account s "val.near" (account_new 10 1000 ContractNone 200) in
  set_account s FOUNDATION_ACCOUNT_ID (account_new 50 0 ContractNone 200).

Definition sample_shard : Shard :=
  mkShard shard_state empty_queue ∅ (mkOutgoingMetadatas ∅ default_config) None.

Definition sample_chunk : Chunk :=
  mkChunk (Some epoch_update) [sample_receipt] chunk_txs true
    [(0, mkExtendedCongestionInfo (mkCongestionInfo 0 0 0 0) 0)] [] (replicate 32 0).

Definition sample_congestion : CongestionControlConfig :=
  mkCongestionControlConfig 400000000000000000 10000000000000000 1000000000 125 300000000000000000
    1000000000000000 1000000000000000 500000000000000 20000000000000 (round_frac 8 10) 102400 4718592.

Definition sample_scheduler : BandwidthSchedulerConfig := mkSchedulerConfig 4500000 4194304 4500000 100000.

#[local] Notation run_chunk :=
  (apply (fun _ => tt) (fun l g => (l, g)) sample_congestion sample_scheduler sample_call any_key each_verifies 2 8 one_shard (fun _ _ => false) chunk_apply sample_epoch_info
     sample_shard sample_chunk).

Lemma sample_chunk_runs : is_ok run_chunk = true.
Proof. vm_compute. reflexivity. Qed.

Lemma shard_state_accounts id a : get_account shard_state id = Some a ->
  is_system id = false /\ is_u u128_max (amount a) /\ 0 <= locked a.
Proof.
  unfold shard_state, chunk_state, get_account, set_patoshi_record, set_data, set_contract_data, set_account.
  simpl. rewrite !lookup_insert_Some.
  intros [[<- <-]|[_ [[<- <-]|[_ [[<- <-]|[_ [[<- <-]|[_ Ha]]]]]]]]; [vm_compute; split_and!; congruence..|done].
Qed.

Lemma shard_state_keys id pk k : get_access_key shard_state id pk = Some k -> key_balance k = 0.
Proof.
  unfold shard_state, chunk_state, get_access_key, set_patoshi_record, set_data, set_contract_data, set_account.
  simpl. by intros [[_ <-]|[_ Ha]]%lookup_insert_Some.
Qed.

Lemma sample_shard_nonneg : balances_nonneg (sd_state sample_shard).
Proof.
  change (sd_state sample_shard) with shard_state. split.
  - intros id a Ha. by apply shard_state_accounts in Ha as (_ & [? _] & ?).
  - intros id pk k Hk. apply shard_state_keys in Hk. lia.
Qed.

Lemma sample_shard_ok : shard_ok one_shard chunk_apply sample_shard.
Proof.
  split; [|apply queue_abs_empty|by constructor|apply map_Forall_empty]. split; [| |apply map_Forall_empty..].
  - intros id. unfold inv. change (sd_state sample_shard) with shard_state.
    destruct (get_account shard_state id) as [a|] eqn:E; [by apply shard_state_accounts in E as (_ & ? & _)|].
    split; [done|]. intros pk k. apply shard_state_keys.
  - intros id Hs. change (sd_state sample_shard) with shard_state.
    destruct (get_account shard_state id) as [a|] eqn:E; [|done]. apply shard_state_accounts in E as (E & _). congruence.
Qed.

Lemma sample_chunk_ok : chunk_ok one_shard chunk_apply sample_chunk.
Proof.
  split.
  - intros upd [= <-]. split; [apply map_Forall_singleton; lia|]. simpl.
    apply map_Forall_insert_2; [lia|]. apply map_Forall_singleton. lia.
  - apply Forall_singleton. split; [|reflexivity]. split; [|repeat constructor].
    split_and!; [|done|done]. repeat constructor; vm_compute; congruence.
  - assert (well_typed one_shard chunk_apply chunk_stx) as H
      by (split; [repeat constructor; vm_compute; congruence|reflexivity]).
    constructor; [exact H|]. by apply Forall_singleton.
Qed.

Lemma apply_conserves_witness :
  exists res, run_chunk = Ok res /\ shard_ok one_shard chunk_apply (ar_shard res).
Proof.
  destruct (is_ok_inv _ sample_chunk_runs) as (res & E). exists res. split; [exact E|].
  refine (proj1 (apply_conserves _ _ _ _ sample_call any_key each_verifies 2 8 one_shard (fun _ _ => false)
    chunk_apply sample_epoch_info eq_refl _ sample_fees_nonneg _ _ _ sample_shard sample_chunk res
    sample_shard_ok sample_chunk_ok _ _ E)); [|vm_compute; congruence|lia|lia| |vm_compute; congruence].
  - split; [reflexivity|vm_compute; congruence].
  - exact sample_shard_nonneg.
Defined.
End witnesses.
