(* ===== verification/ChunkQueues.v ===== *)
(** * Queues and bandwidth of a chunk

    Processing the receipts of a chunk touches the sink and the delayed queue only by
    handing over, delaying and taking back receipts.  So what holds of each of these steps
    holds of a chunk: it sends to no shard more bytes than the scheduler granted. *)

From S2P Require Import Prelude Float64 Crates AccountId Primitives Errors Fees Borsh Wire ReceiptWire ShardLayout.
From S2P Require Import Bandwidth BandwidthProofs Scheduler TrieQueue OutgoingMetadata State BitcoinTx RuntimeTypes AccessKeys Validation.
From S2P Require Import Congestion CongestionControl Scheduling SinkProofs Verifier Actions Runtime Receipts Validators Transactions.
From S2P Require Import Conservation ReceiptConservation Supply TransactionProofs ChunkSafety Apply Chunk.

(* ------------------------------------------------------------------ *)
(** ** The steps that touch the queues *)

Section moves.
Context {C : Crates}.
Context (action_function_call : ApplyState -> EpochInfo -> State -> Account -> Receipt ->
  ActionReceipt -> list (option (list Z)) -> ActionResult -> FunctionCallAction -> CryptoHash ->
  bool -> result (State * Account * ActionResult) RuntimeError).
Context (layout : ShardLayout) (limit : nat -> nat -> bool) (ap : ApplyState) (ei : EpochInfo).

Inductive queue_move :
    ReceiptSink * DelayedReceiptQueueWrapper -> ReceiptSink * DelayedReceiptQueueWrapper -> Prop :=
| move_send r s s' d :
    forward_or_buffer_receipt (config ap) layout r s = Ok s' -> queue_move (s, d) (s', d)
| move_delay r s d d' :
    delayed_push (config ap) d r = Ok d' -> queue_move (s, d) (s, d')
| move_pop lim o s d d' :
    delayed_pop (config ap) layout (shard_id ap) lim d = Ok (o, d') -> queue_move (s, d) (s, d').

Definition queues (ps : ProcessingState) : ReceiptSink * DelayedReceiptQueueWrapper := (ps_sink ps, ps_delayed ps).

Definition moves (ps ps' : ProcessingState) : Prop := rtc queue_move (queues ps) (queues ps').

Lemma moves_same ps ps' : queues ps' = queues ps -> moves ps ps'.
Proof. unfold moves. intros ->. apply rtc_refl. Qed.

Lemma moves_trans ps1 ps2 ps3 : moves ps1 ps2 -> moves ps2 ps3 -> moves ps1 ps3.
Proof. apply rtc_trans. Qed.

Lemma send_all_moves rs d : forall s s',
  send_all (config ap) layout rs s = Ok s' -> rtc queue_move (s, d) (s', d).
Proof.
  induction rs as [|r rs IH]; intros s s' H; simpl in H; [injection H as <-; apply rtc_refl|].
  apply rbind_Ok in H as (s1 & E & H). eapply rtc_l; [by eapply move_send|by apply IH].
Qed.

Lemma execute_moves ps u r ps' o :
  execute action_function_call layout ap ei ps u r = Ok (ps', o) -> moves ps ps'.
Proof.
  unfold execute. intros H. apply rbind_Ok in H as ([[u' fx] outcome] & _ & H).
  apply rbind_Ok in H as (sink & Es & H). injection H as <- <-. by eapply send_all_moves.
Qed.

Lemma process_receipt_moves ps r ps' o :
  process_receipt action_function_call layout ap ei ps r = Ok (ps', o) -> moves ps ps'.
Proof.
  assert (forall x : result (State * Routing) RuntimeError,
    (let? (s, routing) := x in
     let u := su_put (ps_update ps) s in
     match routing with
     | Run ready_receipt => execute action_function_call layout ap ei ps u ready_receipt
     | Store => Ok (ps_put ps (su_commit u), None)
     | Ignore => Ok (ps_put ps u, None)
     end) = Ok (ps', o) -> moves ps ps') as Hother.
  { intros x H. apply rbind_Ok in H as ([s routing] & _ & H).
    destruct routing; [by apply execute_moves in H|injection H as <- _; by apply moves_same..]. }
  unfold process_receipt. destruct (versioned_receipt r); intros H; try by eapply Hother.
  apply rbind_Ok in H as (ps1 & E & H). injection H as <- _.
  unfold apply_global_contract_distribution_receipt in E. apply rbind_Ok in E as (sink & Es & E). injection E as <-.
  destruct (forward_distribution_next_shard _ _ _ _) as [next|].
  - apply rtc_once. by eapply move_send.
  - injection Es as <-. by apply moves_same.
Qed.

Lemma with_metrics_moves ps r ps' :
  process_receipt_with_metrics action_function_call layout ap ei ps r = Ok ps' -> moves ps ps'.
Proof.
  unfold process_receipt_with_metrics. intros H. apply rbind_Ok in H as ([ps1 outcome] & E & H).
  eapply moves_trans; [by eapply process_receipt_moves|]. destruct outcome as [o|]; [|injection H as <-; by apply moves_same].
  unfold ps_add_outcome in H. repeat (apply rbind_Ok in H as (? & _ & H)). injection H as <-. by apply moves_same.
Qed.

Lemma instant_moves fuel : forall ps ps',
  process_instant_receipts action_function_call layout ap ei fuel ps = Ok ps' -> moves ps ps'.
Proof.
  induction fuel as [|fuel IH]; intros ps ps' H; simpl in H;
    (destruct (ps_instant ps) as [|r rest]; [injection H as <-; by apply moves_same|]); [done|].
  apply rbind_Ok in H as (ps1 & E & H). apply with_metrics_moves in E. apply IH in H.
  eapply moves_trans; [exact E|exact H].
Qed.

Lemma with_instants_moves ps r ps' :
  process_receipt_and_instant_receipts action_function_call layout ap ei ps r = Ok ps' -> moves ps ps'.
Proof.
  unfold process_receipt_and_instant_receipts. intros H. apply rbind_Ok in H as (ps1 & E & H).
  eapply moves_trans; [by eapply with_metrics_moves|by eapply instant_moves].
Qed.

Lemma delay_moves ps r ps' : delay ap ps r = Ok ps' -> moves ps ps'.
Proof.
  unfold delay. intros H. apply rbind_Ok in H as (d & E & H). injection H as <-.
  apply rtc_once. by eapply move_delay.
Qed.

Lemma local_moves cl rs : forall ps ps',
  process_local action_function_call layout limit ap ei cl rs ps = Ok ps' -> moves ps ps'.
Proof.
  induction rs as [|r rs IH]; intros ps ps' H; simpl in H; [injection H as <-; by apply moves_same|].
  apply rbind_Ok in H as (ps1 & E & H). apply IH in H. eapply moves_trans; [|exact H]. change (moves ps ps1).
  destruct (limit_reached _ _ _); [by eapply delay_moves|].
  apply rbind_Ok in E as (ps2 & E & E'). injection E' as <-.
  apply with_instants_moves in E. exact E.
Qed.

Lemma delayed_moves cl fuel : forall ps ps',
  process_delayed action_function_call layout limit ap ei fuel cl ps = Ok ps' -> moves ps ps'.
Proof.
  induction fuel as [|fuel IH]; intros ps ps' H; simpl in H;
    (destruct (limit_reached _ _ _); [injection H as <-; by apply moves_same|]);
    apply rbind_Ok in H as ([o d] & E & H);
    (destruct o as [e|]; [|injection H as <-; apply rtc_once; by eapply move_pop]); [done|].
  apply rbind_Ok in H as (? & _ & H). apply rbind_Ok in H as (ps1 & E1 & H). apply IH in H.
  apply with_instants_moves in E1. eapply moves_trans; [|eapply moves_trans; [exact E1|exact H]].
  apply rtc_once. by eapply move_pop.
Qed.

Lemma incoming_moves cl rs : forall ps ps',
  process_incoming_receipts action_function_call layout limit ap ei cl rs ps = Ok ps' -> moves ps ps'.
Proof.
  induction rs as [|r rs IH]; intros ps ps' H; simpl in H; [injection H as <-; by apply moves_same|].
  apply rbind_Ok in H as (? & _ & H). apply rbind_Ok in H as (ps1 & E & H). apply IH in H.
  eapply moves_trans; [|exact H]. change (moves ps ps1).
  destruct (limit_reached _ _ _); [by eapply delay_moves|by eapply with_instants_moves].
Qed.

Lemma timeouts_moves d cl compute step next fuel : forall t t',
  resolve_timeouts layout limit ap fuel cl compute step next t = Ok t' ->
  rtc queue_move (to_sink t, d) (to_sink t', d).
Proof.
  induction fuel as [|fuel IH]; intros t t' H; simpl in H;
    (destruct (next <=? to_first_index t); [injection H as <-; apply rtc_refl|]); [done|].
  destruct (_ || _); [injection H as <-; apply rtc_refl|].
  apply rbind_Ok in H as (entry & _ & H). destruct (_ <? _); [injection H as <-; apply rtc_refl|].
  apply rbind_Ok in H as (t1 & E & H). apply IH in H. eapply rtc_trans; [|exact H].
  unfold expire in E. apply rbind_Ok in E as ([sink n] & E & E'). injection E' as <-. simpl.
  destruct (has_yield_receipt _ _); [|injection E as <- _; apply rtc_refl].
  apply rbind_Ok in E as (sink' & E & E'). injection E' as <- _. apply rtc_once. by eapply move_send.
Qed.

(** All of it. *)
Lemma process_receipts_moves incoming ps ps' t :
  process_receipts action_function_call layout limit ap ei incoming ps = Ok (ps', t) -> moves ps ps'.
Proof.
  unfold process_receipts. intros H. apply rbind_Ok in H as (ps1 & E1 & H). apply rbind_Ok in H as (ps2 & E2 & H).
  apply rbind_Ok in H as (ps3 & E3 & H). apply rbind_Ok in H as (t' & E4 & H). injection H as <- <-.
  apply local_moves in E1. unfold process_delayed_receipts in E2. apply rbind_Ok in E2 as (len & _ & E2).
  apply delayed_moves in E2. apply incoming_moves in E3.
  unfold resolve_promise_yield_timeouts in E4. apply timeouts_moves with (d := ps_delayed ps3) in E4.
  eapply moves_trans; [exact E1|]. eapply moves_trans; [exact E2|]. eapply moves_trans; [exact E3|exact E4].
Qed.
End moves.

(* ------------------------------------------------------------------ *)
(** ** Limits are kept *)

Section within.
Context {C : Crates} (cfg : RuntimeConfig) (layout : ShardLayout).

(** The bytes that count against the limit of a shard: a receipt above the maximal
    size counts with the maximal size. *)
Definition counted (r : Receipt) : Z := capped cfg (compute_receipt_size r).
Definition sent_to (shard : Z) (rs : list Receipt) : Z :=
  zsum counted (filter (fun r => belongs layout shard r = true) rs).

(** The bytes themselves. *)
Definition bytes_to (shard : Z) (rs : list Receipt) : Z :=
  zsum compute_receipt_size (filter (fun r => belongs layout shard r = true) rs).

Lemma bytes_sent_to shard rs :
  Forall (fun r => compute_receipt_size r <= max_receipt_size (limit_config cfg)) rs ->
  bytes_to shard rs = sent_to shard rs.
Proof.
  intros H. apply zsum_ext_in. intros r [_ Hr]%list_elem_of_filter. rewrite Forall_forall in H.
  apply H in Hr. unfold counted, capped. destruct (Z.ltb_spec (max_receipt_size (limit_config cfg)) (compute_receipt_size r)); lia.
Qed.

(** The size stored with a buffered receipt is its size. *)
Definition accurate (e : Entry) : Prop := receipt_size e = compute_receipt_size (get_receipt e).
Definition accurate_queue (q : TrieQueue Entry) : Prop := map_Forall (fun _ e => accurate e) (q_items q).
Definition accurate_buffers (m : gmap Z (TrieQueue Entry)) : Prop := map_Forall (fun _ q => accurate_queue q) m.

(** Against the limits [L] of the start. *)
Record within (L : Z -> Z) (s : ReceiptSink) : Prop := mk_within {
  wi_paid : forall shard, sent_to shard (rs_outgoing_receipts s) + ol_size (limit_of s shard) = L shard
    /\ 0 <= ol_size (limit_of s shard);
  wi_routed : Forall (fun r => exists shard, receiver_shard_id layout r = Ok shard) (rs_outgoing_receipts s);
  wi_accurate : accurate_buffers (rs_outgoing_buffers s);
}.

Lemma sent_to_snoc shard rs r target : receiver_shard_id layout r = Ok target ->
  sent_to shard (rs ++ [r]) = sent_to shard rs + (if target =? shard then counted r else 0).
Proof.
  intros Hr. unfold sent_to. rewrite filter_app, zsum_app. f_equal. rewrite filter_cons, filter_nil.
  unfold belongs. rewrite Hr. destruct (target =? shard); simpl; [unfold zsum; simpl; lia|done].
Qed.

Lemma try_forward_within L r gas size target s b s' :
  receiver_shard_id layout r = Ok target -> size = compute_receipt_size r -> within L s ->
  try_forward cfg r gas size target s = Ok (b, s') -> within L s'.
Proof.
  intros Hr -> [Hp Hro Ha] H. unfold try_forward in H. fold (capped cfg (compute_receipt_size r)) in H.
  fold (counted r) in H. fold (limit_of s target) in H. destruct (_ && _) eqn:Efit.
  - apply andb_true_iff in Efit as [_ Efit]. apply Z.leb_le in Efit.
    apply rbind_Ok in H as (g & _ & H). apply rbind_Ok in H as (z & Ez & H). injection H as <- <-.
    unfold sub_or_panic, checked_sub in Ez. rewrite (proj2 (Z.leb_le _ _) Efit) in Ez. injection Ez as <-.
    split; simpl; [|apply Forall_app; split; [done|]; apply Forall_singleton; eauto|done].
    intros shard. rewrite (sent_to_snoc _ _ _ _ Hr). specialize (Hp shard). unfold limit_of in *. simpl.
    destruct (Z.eqb_spec target shard) as [->|Hne].
    + rewrite lookup_insert_eq. simpl. lia.
    + rewrite lookup_insert_ne by done. lia.
  - injection H as <- <-. split; simpl; [|done|done]. intros shard. specialize (Hp shard). unfold limit_of in *. simpl.
    destruct (decide (target = shard)) as [->|Hne]; [by rewrite lookup_insert_eq|by rewrite lookup_insert_ne].
Qed.

Lemma to_shard_accurate s shard : accurate_buffers (rs_outgoing_buffers s) -> accurate_queue (to_shard s shard).
Proof.
  intros H. unfold to_shard. destruct (rs_outgoing_buffers s !! shard) as [q|] eqn:E; [by eapply H|].
  apply map_Forall_empty.
Qed.

Lemma buffer_within L r gas shard s s' :
  within L s -> buffer_receipt cfg r (compute_receipt_size r) gas shard s = Ok s' -> within L s'.
Proof.
  intros [Hp Hr Ha] H. unfold buffer_receipt in H.
  apply rbind_Ok in H as (? & _ & H). apply rbind_Ok in H as (? & _ & H).
  apply rbind_Ok in H as (? & _ & H). apply rbind_Ok in H as (q & Eq & H). apply map_err_Ok in Eq.
  injection H as <-. split; [exact Hp|exact Hr|]. simpl. apply map_Forall_insert_2; [|done].
  unfold push_back in Eq. apply rbind_Ok in Eq as (n & _ & Eq). injection Eq as <-.
  apply map_Forall_insert_2; [|by apply to_shard_accurate]. unfold accurate, stored_form.
  by destruct (use_state_stored_receipt cfg).
Qed.

Lemma forward_or_buffer_within L r s s' :
  within L s -> forward_or_buffer_receipt cfg layout r s = Ok s' -> within L s'.
Proof.
  intros Hw H. unfold forward_or_buffer_receipt in H. apply rbind_Ok in H as (shard & Es & H).
  apply rbind_Ok in H as (gas & _ & H). apply rbind_Ok in H as ([b s1] & E & H).
  eapply try_forward_within in E; [|done|done|done].
  destruct b; [by injection H as <-|by eapply buffer_within].
Qed.

Definition accurate_item (item : result Entry StorageError) : Prop :=
  match item with Ok e => accurate e | _ => True end.

Lemma forward_items_within L items : forall s n ups s' n' ups',
  Forall accurate_item items -> within L s -> forward_items cfg layout items s n ups = Ok (s', n', ups') ->
  within L s'.
Proof.
  induction items as [|item items IH]; intros s n ups s' n' ups' Hi Hw H; simpl in H; [by injection H as <- _ _|].
  apply Forall_cons in Hi as [He Hi]. apply rbind_Ok in H as (e & E & H). apply map_err_Ok in E as ->.
  apply rbind_Ok in H as (gas & _ & H). apply rbind_Ok in H as (shard & Es & H).
  apply rbind_Ok in H as ([b s1] & E & H). eapply try_forward_within in E; [|done|done|done].
  destruct b; [|by injection H as <- _ _].
  apply rbind_Ok in H as (? & _ & H). apply rbind_Ok in H as (? & _ & H).
  eapply IH; [done| |exact H]. destruct E as [Hp Hr Ha]. by split.
Qed.

Lemma queue_iter_accurate q : accurate_queue q -> Forall accurate_item (queue_iter q).
Proof.
  intros Hq. apply Forall_forall. intros item (i & -> & _)%list_elem_of_fmap.
  destruct (q_items q !! i) as [e|] eqn:E; [by eapply Hq|done].
Qed.

Lemma pop_n_accurate n q : accurate_queue q -> accurate_queue (pop_n n q).1.
Proof.
  unfold pop_n, accurate_queue. simpl. generalize (seqZ (first_index (q_indices q))
    (Z.min n (default 0 (checked_sub (next_available_index (q_indices q)) (first_index (q_indices q)))))).
  intros l. generalize (q_items q). induction l as [|i l IH]; intros m Hm; simpl; [done|].
  apply IH. by apply map_Forall_delete.
Qed.

Lemma forward_from_buffer_within L s s' :
  within L s -> forward_from_buffer cfg layout s = Ok s' -> within L s'.
Proof.
  assert (forall shard s s', within L s -> forward_from_buffer_to_shard cfg layout shard s = Ok s' -> within L s')
    as Hone.
  { intros shard s1 s2 Hw H. unfold forward_from_buffer_to_shard in H.
    apply rbind_Ok in H as ([[s3 n] ups] & E & H).
    apply forward_items_within with (L := L) in E; [|by apply queue_iter_accurate, to_shard_accurate, Hw|done].
    pose proof (pop_n_accurate n _ (to_shard_accurate s3 shard (wi_accurate _ _ E))) as Hpop.
    destruct (pop_n _ _) as [q removed]. apply rbind_Ok in H as (m & _ & H). injection H as <-.
    destruct E as [Hp Hr Ha]. split; [exact Hp|exact Hr|]. simpl.
    destruct (0 <? removed); [by apply map_Forall_insert_2|done]. }
  assert (forall shards s b s' b', within L s -> forward_from_buffers cfg layout shards s b = Ok (s', b') ->
    within L s') as Hall.
  { induction shards as [|shard shards IH]; intros s1 b s2 b' Hw H; simpl in H; [by injection H as <- _|].
    apply rbind_Ok in H as (s3 & E & H). apply rbind_Ok in H as (len & _ & H).
    eapply IH; [|exact H]. by eapply Hone. }
  intros Hw H. unfold forward_from_buffer in H. apply rbind_Ok in H as (parents & _ & H).
  apply rbind_Ok in H as ([s1 b] & E & H). apply Hall in E; [|done].
  destruct (_ && _); [done|]. by injection H as <-.
Qed.
End within.

Lemma moves_within {C : Crates} layout ap L x y :
  rtc (queue_move layout ap) x y -> within (config ap) layout L x.1 -> within (config ap) layout L y.1.
Proof.
  induction 1 as [|x y z Hxy _ IH]; [done|]. intros Hw. apply IH.
  destruct Hxy; simpl in *; [|done|done]. by eapply forward_or_buffer_within.
Qed.

(* ------------------------------------------------------------------ *)
(** ** The grants of a chunk *)

Lemma for_each_partial {A S E} (P : S -> Prop) (body : A -> S -> result S E) l : forall s s',
  P s -> (forall a s s', a ∈ l -> P s -> body a s = Ok s' -> P s') -> for_each body l s = Ok s' -> P s'.
Proof.
  induction l as [|a l IH]; intros s s' HP Hbody H; simpl in H; [by injection H as <-|].
  apply rbind_Ok in H as (s1 & E1 & H). eapply IH; [|intros b t t' Hb; apply Hbody; by right|exact H].
  eapply Hbody; [left|done|done].
Qed.

(** Only shards of the layout are granted anything. *)
Definition of_layout (layout : ShardLayout) (G : gmap (Z * Z) Z) : Prop :=
  map_Forall (fun k _ => k.1 ∈ shard_ids layout /\ k.2 ∈ shard_ids layout) G.

Lemma final_of_layout {Rng} layout (s : BandwidthScheduler (Rng:=Rng)) G :
  indexed layout -> get_final_granted_bandwidth layout s = Ok G -> of_layout layout G.
Proof.
  intros Hl. unfold get_final_granted_bandwidth. apply for_each_partial; [apply map_Forall_empty|].
  intros link m m' [H1 H2]%iter_links_valid Hm H. apply rbind_Ok in H as (o & _ & H).
  destruct o as [g|]; [|by injection H as <-].
  rewrite !(id_of_spec layout Hl) in H by done. cbn [rbind] in H. injection H as <-.
  apply map_Forall_insert_2; [|done]. split; apply (id_index layout Hl); eauto.
Qed.

Lemma run_of_layout {Rng} (from_seed : list Z -> Rng) shuffle layout params allowances requests statuses seed G a' :
  indexed layout -> run from_seed shuffle layout params allowances requests statuses seed = Ok (G, a') ->
  of_layout layout G.
Proof.
  intros Hl H. unfold run in H. destruct (_ =? _); [injection H as <- _; apply map_Forall_empty|].
  do 4 apply rbind_Ok in H as (? & _ & H). apply rbind_Ok in H as ([G' s] & E & H).
  apply rbind_Ok in H as (? & _ & H). injection H as <- _. unfold schedule_bandwidth in E.
  do 5 apply rbind_Ok in E as (? & _ & E). apply rbind_Ok in E as (G1 & EG & E). injection E as <- _.
  by eapply final_of_layout.
Qed.

Lemma grant_outside layout G from to :
  of_layout layout G -> ~ (from ∈ shard_ids layout /\ to ∈ shard_ids layout) -> get_granted_bandwidth G from to = 0.
Proof.
  intros HG Hn. unfold get_granted_bandwidth. destruct (G !! (from, to)) eqn:E; [|done].
  exfalso. apply Hn. apply (HG _ _ E).
Qed.

(** What the documentation of the configuration asks for. *)
Record scheduler_config_ok (c : BandwidthSchedulerConfig) : Prop := mk_scheduler_config_ok {
  sg_base : 0 <= bc_max_base_bandwidth c <= bc_max_single_grant c;
  sg_shard : bc_max_shard_bandwidth c <= u64_max;
  sg_values : bc_max_single_grant c * 40 <= u64_max;
  sg_allowance : 0 <= bc_max_allowance c <= u64_max;
}.

(** The state of the scheduler: no negative allowance. *)
Definition allowances_nonneg (o : option BandwidthSchedulerState) : Prop :=
  forall st, o = Some st -> Forall (fun a => 0 <= la_allowance a) (bss_link_allowances st).

Section grants.
Context {C : Crates} {Rng : Type} (from_seed : list Z -> Rng).
Context (shuffle : list SchedulerBandwidthRequest -> Rng -> list SchedulerBandwidthRequest * Rng).
Context (congestion_config : CongestionControlConfig) (scheduler_config : BandwidthSchedulerConfig).
Context (layout : ShardLayout).
Hypothesis Hshuffle : forall l g, (shuffle l g).1 ≡ₚ l.
Hypothesis Hlayout : indexed layout.
Hypothesis Hconfig : scheduler_config_ok scheduler_config.

Local Abbreviation most := (bc_max_shard_bandwidth scheduler_config).

(** The grants [G] of a block. *)
Record grants_ok (G : gmap (Z * Z) Z) : Prop := mk_grants_ok {
  gr_nonneg : forall from to, 0 <= get_granted_bandwidth G from to;
  gr_outside : forall from to, to ∉ shard_ids layout -> get_granted_bandwidth G from to = 0;
  gr_sent : forall from, zsum (get_granted_bandwidth G from) (shard_ids layout) <= most;
  gr_received : forall to, zsum (fun from => get_granted_bandwidth G from to) (shard_ids layout) <= most;
}.

Lemma statuses_keys infos : forall statuses,
  shards_status layout congestion_config infos = Ok statuses -> map fst statuses = map fst infos.
Proof.
  unfold shards_status. induction infos as [|[id c] infos IH]; intros statuses H; simpl in H; [by injection H as <-|].
  apply rbind_Ok in H as ([id' st] & E & H). apply rbind_Ok in E as (st' & _ & E). injection E as <- <-.
  apply rbind_Ok in H as (rest & Er & H). injection H as <-. simpl. f_equal. by apply IH.
Qed.

Lemma grants_spec max_receipt prev infos requests hash output st :
  allowances_nonneg prev -> Forall (fun p => Forall bitmap_ok p.2) requests -> NoDup (map fst infos) ->
  run_bandwidth_scheduler from_seed shuffle layout congestion_config scheduler_config max_receipt prev infos
    requests hash = Ok (output, st) ->
  grants_ok (bso_granted output) /\ allowances_nonneg (Some st).
Proof using Hshuffle Hlayout Hconfig.
  intros Hprev Hreq Hnd H. unfold run_bandwidth_scheduler in H. apply rbind_Ok in H as (statuses & Est & H).
  apply statuses_keys in Est. rewrite <- Est in Hnd. apply rbind_Ok in H as (params & Ep & H).
  unfold scheduler_params in Ep. destruct (Z.eqb_spec (num_shards layout) 0) as [|Hnum]; [done|].
  pose proof (ix_num _ Hlayout) as Hrange. pose proof Hconfig as [G1 G2 G3 G4].
  assert (0 < num_shards layout) as Hn by lia. pose proof (calculate_ok _ _ _ _ _ _ _ Hn G1 G2 G3 G4 Ep) as Hp.
  assert (max_shard_bandwidth params = most) as Hmost.
  { unfold calculate in Ep. do 2 (destruct (negb _); [done|]).
    apply rbind_Ok in Ep as (? & _ & Ep). apply rbind_Ok in Ep as (? & _ & Ep). by injection Ep as <-. }
  apply rbind_Ok in H as ([G a'] & Er & H). injection H as <- <-. simpl.
  destruct (run_spec shuffle layout params Hlayout Hp Hshuffle from_seed (bss_link_allowances (default initial_scheduler_state prev))
    requests statuses hash) as (G' & a1 & links & Er' & [O1 O2 O3] & Ha & _); [|done|done|].
  { destruct prev as [st|]; [by apply Hprev|constructor]. }
  rewrite Er in Er'. injection Er' as <- <-. pose proof (run_of_layout _ _ _ _ _ _ _ _ _ _ Hlayout Er) as Hdom.
  assert (forall from to, 0 <= get_granted_bandwidth G from to) as Hnn.
  { intros from to. destruct (decide (from ∈ shard_ids layout /\ to ∈ shard_ids layout)) as [[Hf Ht]|Hno].
    - apply (id_index layout Hlayout) in Hf as (i & Hi & ->), Ht as (j & Hj & ->). specialize (O3 i j Hi Hj).
      destruct Hp as [Hb _ _ _]. destruct (permits _ _ _ _); lia.
    - by rewrite (grant_outside layout). }
  assert (0 <= most) as Hpos.
  { destruct Hp as [Hb [Hs _] _ _]. rewrite <- Hmost. nia. }
  split; [|intros ? [= <-]; eapply Forall_impl; [exact Ha|]; intros a [? _]; done].
  split; [done| | |].
  - intros from to Hto. apply (grant_outside layout); [done|tauto].
  - intros from. destruct (decide (from ∈ shard_ids layout)) as [Hin|Hout]; [rewrite <- Hmost; by apply O1|].
    transitivity (0 * vec_len (shard_ids layout)); [apply zsum_bound; intros to _; by rewrite (grant_outside layout) by tauto|lia].
  - intros to. destruct (decide (to ∈ shard_ids layout)) as [Hin|Hout]; [rewrite <- Hmost; by apply O2|].
    transitivity (0 * vec_len (shard_ids layout)); [apply zsum_bound; intros from _; by rewrite (grant_outside layout) by tauto|lia].
Qed.
End grants.

(* ------------------------------------------------------------------ *)
(** ** Requests are well formed *)

Lemma mark_sizes_length {E} params values sizes : forall total cur b b',
  mark_sizes (E:=E) params values sizes total cur b = Ok b' -> length b' = length b.
Proof.
  induction sizes as [|size sizes IH]; intros total cur b b' H; simpl in H; [by injection H as <-|].
  apply rbind_Ok in H as (z & _ & H). apply rbind_Ok in H as (t & _ & H).
  destruct (_ <=? _); [by eapply IH|]. destruct (_ =? _)%nat; [by injection H as <-|].
  apply rbind_Ok in H as (b1 & E1 & H). rewrite (IH _ _ _ _ H).
  unfold set_bit in E1. destruct (_ <? _)%nat; [|done].
  destruct (b !! _); [|done]. simpl in E1. injection E1 as <-. apply length_insert.
Qed.

Lemma made_bitmap {E} to_shard sizes params r :
  make_from_receipt_sizes (E:=E) to_shard sizes params = Ok (Some r) -> bitmap_ok r.
Proof.
  unfold make_from_receipt_sizes. intros H. apply rbind_Ok in H as (values & _ & H).
  apply rbind_Ok in H as (b & Eb & H). destruct (is_all_zeros b); [done|]. injection H as <-.
  apply mark_sizes_length in Eb. exact Eb.
Qed.

Lemma generated_bitmaps layout s params shards : forall l,
  generate_requests layout s params shards = Ok l -> Forall bitmap_ok l.
Proof.
  induction shards as [|shard shards IH]; intros l H; simpl in H; [injection H as <-; constructor|].
  apply rbind_Ok in H as (o & Eo & H). apply rbind_Ok in H as (rest & Er & H). injection H as <-.
  apply IH in Er. destruct o as [r|]; [|done]. constructor; [|done].
  unfold generate_bandwidth_request in Eo. apply rbind_Ok in Eo as (own & _ & Eo).
  apply rbind_Ok in Eo as (parent & _ & Eo). apply map_err_Ok in Eo. by eapply made_bitmap.
Qed.

(** A receipt has a size. *)
Lemma receipt_size_pos {C : Crates} r : 0 < compute_receipt_size r.
Proof.
  assert (forall A (c : codec A) l, (0 < length (enc (vec_c c) l))%nat) as Hvec
    by (intros A c l; simpl; lia).
  specialize (Hvec _ u8_c (as_bytes (r_predecessor_id r))).
  unfold compute_receipt_size, vec_len.
  change (enc receipt_c r) with (enc (vec_c u8_c) (as_bytes (r_predecessor_id r)) ++
    enc (pair_c account_id_c (pair_c hash_c receipt_enum_c)) (r_receiver_id r, (r_receipt_id r, r_receipt r))).
  rewrite length_app. lia.
Qed.

Lemma total_sent {C : Crates} cfg layout ids rs :
  NoDup ids -> Forall (fun r => exists shard, shard ∈ ids /\ receiver_shard_id layout r = Ok shard) rs ->
  zsum (counted cfg) rs = zsum (fun shard => sent_to cfg layout shard rs) ids.
Proof.
  intros Hnd. induction rs as [|r rs IH] using rev_ind; intros Hrs.
  { unfold sent_to. clear. induction ids as [|a ids IHi]; [done|]. rewrite zsum_cons, <- IHi. done. }
  apply Forall_app in Hrs as [Hrs (target & Hin & Ht)%Forall_singleton]. rewrite zsum_app, (IH Hrs).
  rewrite (zsum_change (fun shard => sent_to cfg layout shard rs) (fun shard => sent_to cfg layout shard (rs ++ [r])) ids target);
    [|done|done|].
  - rewrite (sent_to_snoc cfg layout target rs r target Ht), Z.eqb_refl. unfold zsum at 2. simpl. lia.
  - intros shard _ Hne. rewrite (sent_to_snoc _ _ _ _ _ _ Ht), (proj2 (Z.eqb_neq _ _)) by congruence. lia.
Qed.

Lemma sent_to_member {C : Crates} cfg layout rs r target :
  0 <= max_receipt_size (limit_config cfg) -> r ∈ rs -> receiver_shard_id layout r = Ok target ->
  counted cfg r <= sent_to cfg layout target rs.
Proof.
  intros Hmax Hin Ht. unfold sent_to. apply (zsum_member (counted cfg)).
  - intros a _. unfold counted, capped. pose proof (receipt_size_pos a). destruct (_ <? _); lia.
  - apply list_elem_of_filter. split; [|done]. unfold belongs. rewrite Ht. apply Z.eqb_refl.
Qed.

(* ------------------------------------------------------------------ *)
(** ** A chunk *)

Section chunk_bandwidth.
Context {C : Crates} {Rng : Type} (from_seed : list Z -> Rng).
Context (shuffle : list SchedulerBandwidthRequest -> Rng -> list SchedulerBandwidthRequest * Rng).
Context (congestion_config : CongestionControlConfig) (scheduler_config : BandwidthSchedulerConfig).
Context (action_function_call : ApplyState -> EpochInfo -> State -> Account -> Receipt ->
  ActionReceipt -> list (option (list Z)) -> ActionResult -> FunctionCallAction -> CryptoHash ->
  bool -> result (State * Account * ActionResult) RuntimeError).
Context (verifying_key_ok : list Z -> bool).
Context (safe_verify_batch : list (list Z) -> list (list Z) -> list (list Z) -> bool).
Context (num_threads min_chunk_size : Z) (layout : ShardLayout) (limit : nat -> nat -> bool) (ei : EpochInfo).

Local Abbreviation apply_chunk ap := (apply from_seed shuffle congestion_config scheduler_config action_function_call
  verifying_key_ok safe_verify_batch num_threads min_chunk_size layout limit ap ei).
Local Abbreviation scheduled ap := (scheduler_step from_seed shuffle congestion_config scheduler_config layout ap).

(** What a shard keeps for bandwidth: the sizes of its buffered receipts and allowances
    that are not negative. *)
Definition bandwidth_ok (sh : Shard) : Prop :=
  accurate_buffers (sd_buffers sh) /\ allowances_nonneg (sd_scheduler sh).

Definition requests_ok (ck : Chunk) : Prop :=
  Forall (fun p => Forall bitmap_ok p.2) (ck_bandwidth_requests ck) /\ NoDup (map fst (ck_congestion_info ck)).

Lemma limits_granted own infos G m :
  outgoing_limits congestion_config own infos G = Ok m ->
  map_Forall (fun shard l => ol_size l = get_granted_bandwidth G own shard) m.
Proof.
  apply for_each_partial; [apply map_Forall_empty|]. intros [shard c] m1 m2 _ Hm H.
  apply rbind_Ok in H as (g & _ & H). injection H as <-. by apply map_Forall_insert_2.
Qed.

Lemma sink_start ap sh ck own output s :
  (forall from to, 0 <= get_granted_bandwidth (bso_granted output) from to) ->
  accurate_buffers (sd_buffers sh) ->
  receipt_sink_new congestion_config ap sh ck own output = Ok s ->
  exists L, within (config ap) layout L s
    /\ forall shard, L shard <= get_granted_bandwidth (bso_granted output) (shard_id ap) shard.
Proof.
  intros Hnn Hacc H. apply rbind_Ok in H as (m & Em & H). injection H as <-.
  assert (exists m', outgoing_limits congestion_config (shard_id ap) (ck_congestion_info ck) (bso_granted output) = Ok m'
    /\ m' = m) as (m' & Em' & ->) by (destruct (outgoing_limits _ _ _ _); [injection Em as <-; eauto|done..]).
  apply limits_granted in Em'. exists (fun shard => ol_size (default default_limit (m !! shard))).
  assert (forall shard, 0 <= ol_size (default default_limit (m !! shard))
    <= get_granted_bandwidth (bso_granted output) (shard_id ap) shard) as Hb.
  { intros shard. specialize (Hnn (shard_id ap) shard). destruct (m !! shard) as [l|] eqn:E; simpl; [|lia].
    rewrite (Em' _ _ E). lia. }
  split; [|intros shard; apply Hb]. split; [|constructor|done].
  intros shard. unfold sent_to, limit_of, zsum. simpl. specialize (Hb shard). lia.
Qed.

Lemma transactions_within ap sh ck u output ps :
  (forall from to, 0 <= get_granted_bandwidth (bso_granted output) from to) ->
  accurate_buffers (sd_buffers sh) ->
  transactions_step congestion_config verifying_key_ok safe_verify_batch num_threads min_chunk_size layout ap
    sh ck u output = Ok ps ->
  exists L, within (config ap) layout L (ps_sink ps)
    /\ forall shard, L shard <= get_granted_bandwidth (bso_granted output) (shard_id ap) shard.
Proof.
  intros Hnn Hacc H. unfold transactions_step in H. apply rbind_Ok in H as (own & _ & H).
  apply rbind_Ok in H as (s0 & E0 & H). apply sink_start in E0 as (L & Hw & HL); [|done|done]. exists L. split; [|done].
  apply rbind_Ok in H as (s1 & E1 & H). eapply forward_from_buffer_within in E1; [|exact Hw].
  apply rbind_Ok in H as (ts & _ & H). apply rbind_Ok in H as (s2 & E2 & H). injection H as <-. simpl.
  eapply (send_all_moves layout ap _ (delayed_new (sd_delayed sh))) in E2.
  by apply (moves_within _ _ L) in E2.
Qed.

Hypothesis Hshuffle : forall l g, (shuffle l g).1 ≡ₚ l.
Hypothesis Hlayout : indexed layout.
Hypothesis Hconfig : scheduler_config_ok scheduler_config.

(** What a chunk sends, against the grants of its block. *)
Lemma chunk_sent ap sh ck res :
  bandwidth_ok sh -> requests_ok ck -> apply_chunk ap sh ck = Ok res ->
  exists output st, scheduled ap sh ck = Ok (output, st)
    /\ grants_ok scheduler_config layout (bso_granted output)
    /\ (forall shard, sent_to (config ap) layout shard (ar_outgoing_receipts res)
                      <= get_granted_bandwidth (bso_granted output) (shard_id ap) shard)
    /\ Forall (fun r => exists shard, receiver_shard_id layout r = Ok shard) (ar_outgoing_receipts res)
    /\ bandwidth_ok (ar_shard res) /\ Forall bitmap_ok (ar_bandwidth_requests res).
Proof using Hshuffle Hlayout Hconfig.
  intros [Hacc Hall] [Hreq Hnd] H. unfold apply in H. apply rbind_Ok in H as (u & _ & H).
  apply rbind_Ok in H as ([output st] & Es & H). exists output, st. split; [done|].
  assert (grants_ok scheduler_config layout (bso_granted output) /\ allowances_nonneg (Some st)) as [HG Hst].
  { unfold scheduler_step in Es. destruct (run_bandwidth_scheduler _ _ _ _ _ _ _ _ _ _) as [[o' st']| |] eqn:E; [|done..].
    injection Es as -> ->. by eapply grants_spec. }
  split; [done|]. pose proof (gr_nonneg _ _ _ HG) as Hnn. destruct (negb (ck_is_new_chunk ck)).
  - apply rbind_Ok in H as (len & _ & H). injection H as <-. simpl. split; [|split; [constructor|]].
    { intros shard. unfold sent_to, zsum. simpl. apply Hnn. }
    split; [by split|]. destruct (btree_get _ _) as [l|] eqn:E; [|constructor]. simpl.
    clear -E Hreq. induction (ck_bandwidth_requests ck) as [|[k l'] m IH]; [done|]. simpl in E.
    apply Forall_cons in Hreq as [H1 H2]. destruct (k =? _); [by injection E as <-|by apply IH].
  - apply rbind_Ok in H as (ps & Eps & H). apply transactions_within in Eps as (L & Hw & HL); [|done|done].
    apply rbind_Ok in H as ([ps' t] & Ep & H). apply process_receipts_moves in Ep.
    apply (moves_within _ _ L) in Ep; [|exact Hw]. destruct Ep as [Hp Hr Ha]. simpl in Hp, Hr, Ha.
    unfold validate_apply_state_update in H.
    apply rbind_Ok in H as (n & _ & H). apply rbind_Ok in H as (own & _ & H). apply rbind_Ok in H as (seed & _ & H).
    apply rbind_Ok in H as (own' & _ & H). apply rbind_Ok in H as (requests & Er & H). injection H as <-. simpl.
    split; [|split; [done|split; [by split|by eapply generated_bitmaps]]].
    intros shard. specialize (Hp shard). specialize (HL shard). lia.
Qed.

(** C19. A chunk sends no more than it was granted.  For an honest shuffle, a layout whose
    identifiers and indices agree and a sound configuration, a chunk that is applied sends to
    every shard at most the bytes that the scheduler granted on that link, receipts counted
    up to the maximal size, and at most the bandwidth of one shard in total.  The sizes kept
    with the buffered receipts and the allowances are sound again afterwards, and the
    requests for the next chunk well formed, so the same holds of it. *)
Theorem chunk_within_bandwidth ap sh ck res :
  bandwidth_ok sh -> requests_ok ck -> 0 < max_receipt_size (limit_config (config ap)) ->
  apply_chunk ap sh ck = Ok res ->
  (exists output st, scheduled ap sh ck = Ok (output, st)
     /\ forall shard, sent_to (config ap) layout shard (ar_outgoing_receipts res)
                      <= get_granted_bandwidth (bso_granted output) (shard_id ap) shard)
  /\ zsum (counted (config ap)) (ar_outgoing_receipts res) <= bc_max_shard_bandwidth scheduler_config
  /\ bandwidth_ok (ar_shard res) /\ Forall bitmap_ok (ar_bandwidth_requests res).
Proof using Hshuffle Hlayout Hconfig.
  intros Hsh Hck Hmax H. apply chunk_sent in H as (output & st & Es & HG & Hsent & Hr & Hsh' & Hreq); [|done|done].
  split; [by exists output, st|]. split; [|done].
  rewrite (total_sent _ layout (shard_ids layout)); [|apply Hlayout|].
  - transitivity (zsum (get_granted_bandwidth (bso_granted output) (shard_id ap)) (shard_ids layout));
      [by apply zsum_le_in|apply HG].
  - rewrite Forall_forall in *. intros r Hin. destruct (Hr r Hin) as [shard Hshard]. exists shard. split; [|done].
    destruct (decide (shard ∈ shard_ids layout)) as [|Hout]; [done|]. exfalso.
    pose proof (sent_to_member (config ap) layout _ r shard ltac:(lia) Hin Hshard) as Hle. specialize (Hsent shard).
    rewrite (gr_outside _ _ _ HG) in Hsent by done. unfold counted, capped in Hle. pose proof (receipt_size_pos r).
    destruct (_ <? _); lia.
Qed.

(** C3. No shard receives more than it can take.  Suppose the chunks of a block are applied, one
    for each shard, with the same configuration, scheduler state, congestion information, requests
    and block hash, and each of them succeeds.  Each chunk is applied without knowing the others.
    Still, the bytes that all of them together send to one shard are at most the bandwidth of one
    shard, where a receipt above the maximal receipt size counts with that size, as the code
    counts it; if no receipt they send is above it, this bounds the bytes themselves.  The
    shuffle of the scheduler is assumed to be a permutation, the identifiers and indices of the
    layout to agree, and the configuration of the scheduler, the requests and the stored
    allowances and sizes to be sound. *)
Theorem block_within_bandwidth (aps : Z -> ApplyState) (shards : Z -> Shard) (chunks : Z -> Chunk)
    (results : Z -> ApplyResult) cfg sh0 ck0 :
  (forall id, id ∈ shard_ids layout -> shard_id (aps id) = id /\ config (aps id) = cfg
     /\ bandwidth_ok (shards id) /\ requests_ok (chunks id)
     /\ sd_scheduler (shards id) = sd_scheduler sh0
     /\ ck_congestion_info (chunks id) = ck_congestion_info ck0
     /\ ck_bandwidth_requests (chunks id) = ck_bandwidth_requests ck0
     /\ ck_prev_block_hash (chunks id) = ck_prev_block_hash ck0
     /\ apply_chunk (aps id) (shards id) (chunks id) = Ok (results id)) ->
  forall to, to ∈ shard_ids layout ->
    zsum (fun id => sent_to cfg layout to (ar_outgoing_receipts (results id))) (shard_ids layout)
      <= bc_max_shard_bandwidth scheduler_config
    /\ ((forall id, id ∈ shard_ids layout ->
           Forall (fun r => compute_receipt_size r <= max_receipt_size (limit_config cfg))
             (ar_outgoing_receipts (results id))) ->
        zsum (fun id => bytes_to layout to (ar_outgoing_receipts (results id))) (shard_ids layout)
        <= bc_max_shard_bandwidth scheduler_config).
Proof using Hshuffle Hlayout Hconfig.
  intros H to Hto.
  assert (zsum (fun id => sent_to cfg layout to (ar_outgoing_receipts (results id))) (shard_ids layout)
          <= bc_max_shard_bandwidth scheduler_config) as Hbound.
  2:{ split; [done|]. intros Hsz. etransitivity; [|exact Hbound].
      apply zsum_le_in. intros id Hid. rewrite (bytes_sent_to cfg); [done|by apply Hsz]. }
  assert (exists output st, scheduled (aps to) (shards to) (chunks to) = Ok (output, st)
    /\ grants_ok scheduler_config layout (bso_granted output)) as (output & st & Eo & HG).
  { destruct (H to Hto) as (_ & _ & H1 & H2 & _ & _ & _ & _ & Ha). apply chunk_sent in Ha; [|done|done].
    destruct Ha as (o & s & ? & ? & _). by exists o, s. }
  transitivity (zsum (fun from => get_granted_bandwidth (bso_granted output) from to) (shard_ids layout)); [|apply HG].
  apply zsum_le_in. intros id Hid. destruct (H id Hid) as (Hi & Hc & H1 & H2 & E1 & E2 & E3 & E4 & Ha).
  destruct (H to Hto) as (_ & Hc' & _ & _ & F1 & F2 & F3 & F4 & _).
  apply chunk_sent in Ha as (o & s & Es & _ & Hsent & _); [|done|done]. specialize (Hsent to).
  assert (o = output) as ->; [|by rewrite Hi, Hc in Hsent].
  unfold scheduler_step in Es, Eo. rewrite Hc, E1, E2, E3, E4 in Es. rewrite Hc', F1, F2, F3, F4 in Eo. congruence.
Qed.
End chunk_bandwidth.

(* ------------------------------------------------------------------ *)
(** ** Examples *)

Section witnesses.
#[local] Existing Instance Toy.crates.

#[local] Notation run_chunk :=
  (apply (fun _ => tt) (fun l g => (l, g)) sample_congestion sample_scheduler sample_call any_key each_verifies 2 8
     one_shard (fun _ _ => false) chunk_apply sample_epoch_info sample_shard sample_chunk).

Lemma one_shard_indexed : indexed one_shard.
Proof. apply (built_indexed _ [0]); [left; by eexists|apply NoDup_singleton|done]. Qed.

Lemma sample_scheduler_ok : scheduler_config_ok sample_scheduler.
Proof. by split. Qed.

Lemma sample_bandwidth_ok : bandwidth_ok sample_shard.
Proof. split; [apply map_Forall_empty|by intros st [=]]. Qed.

Lemma sample_requests_ok : requests_ok sample_chunk.
Proof. split; [constructor|]. apply NoDup_singleton. Qed.

Lemma chunk_within_bandwidth_witness :
  exists res, run_chunk = Ok res
    /\ zsum (counted (config chunk_apply)) (ar_outgoing_receipts res) <= bc_max_shard_bandwidth sample_scheduler.
Proof.
  destruct (is_ok_inv _ sample_chunk_runs) as (res & E). exists res. split; [exact E|].
  refine (proj1 (proj2 (chunk_within_bandwidth (fun _ => tt) (fun l g => (l, g)) sample_congestion sample_scheduler
    sample_call any_key each_verifies 2 8 one_shard (fun _ _ => false) sample_epoch_info _ one_shard_indexed
    sample_scheduler_ok chunk_apply sample_shard sample_chunk res sample_bandwidth_ok sample_requests_ok _ E)));
    [done|vm_compute; congruence].
Defined.

Lemma block_within_bandwidth_witness :
  exists res, run_chunk = Ok res
    /\ forall to, to ∈ shard_ids one_shard ->
         zsum (fun id => sent_to (config chunk_apply) one_shard to (ar_outgoing_receipts res)) (shard_ids one_shard)
           <= bc_max_shard_bandwidth sample_scheduler
         /\ ((forall id, id ∈ shard_ids one_shard ->
                Forall (fun r => compute_receipt_size r <= max_receipt_size (limit_config (config chunk_apply)))
                  (ar_outgoing_receipts res)) ->
             zsum (fun id => bytes_to one_shard to (ar_outgoing_receipts res)) (shard_ids one_shard)
             <= bc_max_shard_bandwidth sample_scheduler).
Proof.
  destruct (is_ok_inv _ sample_chunk_runs) as (res & E). exists res. split; [exact E|].
  apply (block_within_bandwidth (fun _ => tt) (fun l g => (l, g)) sample_congestion sample_scheduler sample_call any_key
    each_verifies 2 8 one_shard (fun _ _ => false) sample_epoch_info (fun l g => Permutation_refl l) one_shard_indexed
    sample_scheduler_ok (fun _ => chunk_apply) (fun _ => sample_shard) (fun _ => sample_chunk) (fun _ => res)
    (config chunk_apply) sample_shard sample_chunk).
  intros id Hid. change (id ∈ [0]) in Hid. apply list_elem_of_singleton in Hid as ->.
  split; [reflexivity|]. split; [reflexivity|]. split; [apply sample_bandwidth_ok|]. split; [apply sample_requests_ok|].
  do 4 (split; [reflexivity|]). exact E.
Defined.
End witnesses.
