(* ===== verification/GenesisState.v ===== *)
(** * Loading a genesis (core/chain-configs/src/genesis_validate.rs,
      core/store/src/genesis/state_applier.rs)

    The node reads the records of the genesis file, checks them against the configuration
    and writes them into the state of a shard, from which the first chunk starts.  Reading
    JSON is left to serde: [load_genesis] converts field by field what it hands over.
    Flushing in between does not change what is written. *)

From S2P Require Import Prelude Decimal GenesisTools Crates AccountId Primitives Errors Fees Borsh Wire ReceiptWire ShardLayout.
From S2P Require Import Bandwidth TrieQueue OutgoingMetadata State BitcoinTx RuntimeTypes Validation Congestion Scheduling.
From S2P Require Import Actions Runtime Receipts Validators Transactions Apply.

Inductive StateRecord : Type :=
| RecAccount (account_id : AccountId) (account : Account)
| RecData (account_id : AccountId) (data_key value : list Z)
| RecContract (account_id : AccountId) (code : list Z)
| RecAccessKey (account_id : AccountId) (public_key : PublicKey) (access_key : AccessKey)
| RecPostponedReceipt (receipt : Receipt)
| RecReceivedData (account_id : AccountId) (data_id : CryptoHash) (data : option (list Z))
| RecDelayedReceipt (receipt : Receipt)
| RecGasKeyNonce (account_id : AccountId) (public_key : PublicKey) (index nonce : Z).

Definition state_record_to_account_id (r : StateRecord) : AccountId :=
  match r with
  | RecAccount id _ | RecAccessKey id _ _ | RecGasKeyNonce id _ _ _ | RecContract id _
  | RecReceivedData id _ _ | RecData id _ _ => id
  | RecPostponedReceipt receipt | RecDelayedReceipt receipt => r_receiver_id receipt
  end.

(** The fields of [GenesisConfig] that validation reads; a rational is a pair. *)
Record GenesisConfig : Type := mkGenesisConfig {
  gc_validators : list (AccountId * PublicKey * Z);
  gc_total_supply : Z;
  gc_online_min_threshold : Z * Z;
  gc_online_max_threshold : Z * Z;
  gc_gas_price_adjustment_rate : Z * Z;
  gc_epoch_length : Z;
}.

(** Comparison of rationals with positive denominators. *)
Definition ratio_le (a b : Z * Z) : bool := a.1 * b.2 <=? b.1 * a.2.

(* ------------------------------------------------------------------ *)
(** ** Validation *)

Record GenesisValidator : Type := mkGenesisValidator {
  gv_total_supply : Z;
  gv_staked_accounts : gmap AccountId Z;
  gv_account_ids : gset AccountId;
  gv_access_key_account_ids : gset AccountId;
  gv_contract_account_ids : gset AccountId;
  gv_validation_errors : list message;
}.

Definition validator_new : GenesisValidator := mkGenesisValidator 0 ∅ ∅ ∅ ∅ [].

Definition duplicate_account (id : AccountId) : message :=
  Msg "Duplicate account id {} in genesis records" [FS id].
Definition second_contract (id : AccountId) : message :=
  Msg "account {} has more than one contract deployed" [FS id].

Definition process_record (v : GenesisValidator) (r : StateRecord) : result GenesisValidator unit :=
  match r with
  | RecAccount id account =>
      let errors := if bool_decide (id ∈ gv_account_ids v)
                    then gv_validation_errors v ++ [duplicate_account id] else gv_validation_errors v in
      let? total := add_or_panic u128_max (amount account) (locked account) in
      let? supply := add_or_panic u128_max (gv_total_supply v) total in
      Ok (mkGenesisValidator supply
            (if 0 <? locked account then <[id := locked account]> (gv_staked_accounts v)
             else gv_staked_accounts v)
            ({[id]} ∪ gv_account_ids v) (gv_access_key_account_ids v) (gv_contract_account_ids v) errors)
  | RecAccessKey id _ _ =>
      Ok (mkGenesisValidator (gv_total_supply v) (gv_staked_accounts v) (gv_account_ids v)
            ({[id]} ∪ gv_access_key_account_ids v) (gv_contract_account_ids v) (gv_validation_errors v))
  | RecContract id _ =>
      let errors := if bool_decide (id ∈ gv_contract_account_ids v)
                    then gv_validation_errors v ++ [second_contract id] else gv_validation_errors v in
      Ok (mkGenesisValidator (gv_total_supply v) (gv_staked_accounts v) (gv_account_ids v)
            (gv_access_key_account_ids v) ({[id]} ∪ gv_contract_account_ids v) errors)
  | _ => Ok v
  end.

Section validation.
Context {C : Crates}.

Definition errors_if (b : bool) (e : message) : list message := if b then [e] else [].

Definition missing_accounts (template : string) (ids : gset AccountId) (v : GenesisValidator) : list message :=
  map (fun id => Msg template [FS id])
    (filter (fun id => id ∉ gv_account_ids v) (elements ids)).

Definition validate_processed_records (cfg : GenesisConfig) (v : GenesisValidator) : list message :=
  let validators : gmap AccountId Z := list_to_map (rev (map (fun '(id, _, x) => (id, x)) (gc_validators cfg))) in
  gv_validation_errors v
  ++ flat_map (fun '(_, pk, _) => errors_if (negb (is_valid_staking_key pk))
                 (lit "validator staking key is not valid")) (gc_validators cfg)
  ++ errors_if (negb (Z.of_nat (size validators) =? vec_len (gc_validators cfg)))
       (Msg "Duplicate account in validators. The number of account_ids: {} does not match the number of validators: {}."
          [FZ (Z.of_nat (size (gv_account_ids v))); FZ (Z.of_nat (size validators))])
  ++ errors_if (size validators =? 0)%nat (lit "No validators in genesis")
  ++ errors_if (negb (gv_total_supply v =? gc_total_supply cfg))
       (Msg "wrong total supply. account.locked() + account.amount() = {} is not equal to the total supply = {} specified in genesis config."
          [FZ (gv_total_supply v); FZ (gc_total_supply cfg)])
  ++ errors_if (negb (bool_decide (validators = gv_staked_accounts v)))
       (lit "Validator accounts do not match staked accounts.")
  ++ missing_accounts "access key account {} does not exist" (gv_access_key_account_ids v) v
  ++ missing_accounts "contract account {} does not exist," (gv_contract_account_ids v) v
  ++ errors_if (ratio_le (gc_online_max_threshold cfg) (gc_online_min_threshold cfg))
       (lit "Online max threshold {} smaller than min threshold {}")
  ++ errors_if (negb (ratio_le (gc_online_max_threshold cfg) (1, 1)))
       (lit "Online max threshold must be less or equal than 1, but current value is {}")
  ++ errors_if (10000000 <=? (gc_online_max_threshold cfg).1)
       (lit "online_max_threshold's numerator is too large, may lead to overflow.")
  ++ errors_if (10000000 <=? (gc_online_min_threshold cfg).1)
       (lit "online_min_threshold's numerator is too large, may lead to overflow.")
  ++ errors_if (10000000 <=? (gc_online_max_threshold cfg).2)
       (lit "online_max_threshold's denominator is too large, may lead to overflow.")
  ++ errors_if (10000000 <=? (gc_online_min_threshold cfg).2)
       (lit "online_min_threshold's denominator is too large, may lead to overflow.")
  ++ errors_if (ratio_le (1, 1) (gc_gas_price_adjustment_rate cfg))
       (lit "Gas price adjustment rate must be less than 1, value in config is {}")
  ++ errors_if (gc_epoch_length cfg =? 0) (lit "Epoch Length must be greater than 0").

(** The errors; none means that the genesis is accepted. *)
Definition validate_genesis (cfg : GenesisConfig) (records : list StateRecord) : result (list message) unit :=
  let? v := for_each (fun r v => process_record v r) records validator_new in
  Ok (validate_processed_records cfg v).
End validation.

(* ------------------------------------------------------------------ *)
(** ** Writing the state *)

(** [StorageComputer::process_record]. *)
Definition record_usage (cfg : StorageUsageConfig) (r : StateRecord) : result (option (AccountId * Z)) unit :=
  match r with
  | RecAccount id _ => Ok (Some (id, num_bytes_account cfg))
  | RecData id data_key value =>
      let? a := add_or_panic u64_max (num_extra_bytes_record cfg) (vec_len data_key) in
      let? a := add_or_panic u64_max a (vec_len value) in
      Ok (Some (id, a))
  | RecContract id code => Ok (Some (id, vec_len code))
  | RecAccessKey id pk k =>
      let? a := add_or_panic u64_max (num_extra_bytes_record cfg) (vec_len (enc public_key_c pk)) in
      let? a := add_or_panic u64_max a (vec_len (enc access_key_c k)) in
      Ok (Some (id, a))
  | RecGasKeyNonce id pk _ nonce =>
      let? a := add_or_panic u64_max (num_extra_bytes_record cfg) (vec_len (enc public_key_c pk)) in
      let? a := add_or_panic u64_max a 2 in
      let? a := add_or_panic u64_max a (vec_len (enc u64_c nonce)) in
      Ok (Some (id, a))
  | RecPostponedReceipt _ | RecReceivedData _ _ _ | RecDelayedReceipt _ => Ok None
  end.

Definition add_usage (cfg : StorageUsageConfig) (r : StateRecord) (m : gmap AccountId Z)
    : result (gmap AccountId Z) unit :=
  let? o := record_usage cfg r in
  match o with
  | Some (id, usage) =>
      let? u := add_or_panic u64_max (default 0 (m !! id)) usage in
      Ok (<[id := u]> m)
  | None => Ok m
  end.

(** The state, the queue of delayed receipts, what is postponed, and the storage used. *)
Record GenesisBatch : Type := mkGenesisBatch {
  gb_state : State;
  gb_delayed : TrieQueue ReceiptOrStateStoredReceipt;
  gb_postponed : list Receipt;
  gb_usage : gmap AccountId Z;
}.

Section apply_genesis.
Context {C : Crates}.
Variable cfg : StorageUsageConfig.

Definition set_delayed_receipt (q : TrieQueue ReceiptOrStateStoredReceipt) (receipt : Receipt)
    : result (TrieQueue ReceiptOrStateStoredReceipt) unit :=
  let index := next_available_index (q_indices q) in
  let? next := add_or_panic u64_max index 1 in
  Ok (mkTrieQueue (<[index := BareReceipt receipt]> (q_items q))
        (mkTrieQueueIndices (first_index (q_indices q)) next)).

(** One record.  Code of an account that does not exist is only logged. *)
Definition write_record (r : StateRecord) (b : GenesisBatch) : result GenesisBatch unit :=
  let s := gb_state b in
  let? usage := add_usage cfg r (gb_usage b) in
  let with_state s := mkGenesisBatch s (gb_delayed b) (gb_postponed b) usage in
  match r with
  | RecAccount id account => Ok (with_state (set_account s id account))
  | RecData id data_key value => Ok (with_state (set_contract_data s id data_key value))
  | RecContract id code =>
      match get_account s id with
      | Some account =>
          if bool_decide (sha256 code = default hash_default (local_code (contract account)))
          then Ok (with_state (set_code s id code)) else Panic
      | None => Ok (with_state s)
      end
  | RecAccessKey id pk k => Ok (with_state (set_access_key s id pk k))
  | RecGasKeyNonce id pk index nonce => Ok (with_state (set_gas_key_nonce s id pk index nonce))
  | RecPostponedReceipt receipt => Ok (mkGenesisBatch s (gb_delayed b) (gb_postponed b ++ [receipt]) usage)
  | RecReceivedData id data_id data => Ok (with_state (set_received_data s id data_id data))
  | RecDelayedReceipt receipt =>
      let? q := set_delayed_receipt (gb_delayed b) receipt in
      Ok (mkGenesisBatch s q (gb_postponed b) usage)
  end.

(** Records of other shards are skipped. *)
Definition write_own_record (account_ids : gset AccountId) (r : StateRecord) (b : GenesisBatch)
    : result GenesisBatch unit :=
  if bool_decide (state_record_to_account_id r ∈ account_ids) then write_record r b else Ok b.

Definition write_usage (p : AccountId * Z) (s : State) : result State unit :=
  match get_account s p.1 with
  | Some account => Ok (set_account s p.1 (set_storage_usage account p.2))
  | None => Panic
  end.

Definition insert_postponed_action_receipt (s : State) (receipt : Receipt) (id : AccountId)
    (input_data_ids : list CryptoHash) : result State unit :=
  let? (s, pending_data_count) :=
    map_err (fun _ => tt) (link_missing_data s id (r_receipt_id receipt) input_data_ids 0) in
  if pending_data_count =? 0 then Panic
  else map_err (fun _ => tt)
         (set_postponed_receipt (set_pending_data_count s id (r_receipt_id receipt) pending_data_count) receipt).

Definition write_postponed (receipt : Receipt) (s : State) : result State unit :=
  match versioned_receipt receipt with
  | VAction _ ar => insert_postponed_action_receipt s receipt (r_receiver_id receipt) (ar_input_data_ids ar)
  | VPromiseYield _ _ => map_err (fun _ => tt) (set_promise_yield_receipt s receipt)
  | _ => Panic
  end.

Definition write_stake (account_ids : gset AccountId) (v : AccountId * PublicKey * Z) (s : State)
    : result State unit :=
  let '(id, _, stake) := v in
  if negb (bool_decide (id ∈ account_ids)) then Ok s
  else
    match get_account s id with
    | Some account => Ok (set_account s id (set_locked account stake))
    | None => Panic
    end.

(** [GenesisStateApplier::apply]; the order in which the storage of the accounts is written does
    not matter. *)
Definition apply_genesis (validators : list (AccountId * PublicKey * Z)) (records : list StateRecord)
    (account_ids : gset AccountId) : result Shard unit :=
  let? b := for_each (write_own_record account_ids) records
              (mkGenesisBatch empty_state empty_queue [] ∅) in
  let? s := for_each write_usage (map_to_list (gb_usage b)) (gb_state b) in
  let? s := for_each write_postponed (gb_postponed b) s in
  let? s := for_each (write_stake account_ids) validators s in
  Ok (mkShard s (gb_delayed b) ∅ (mkOutgoingMetadatas ∅ default_config) None).
End apply_genesis.

(* ------------------------------------------------------------------ *)
(** ** From the file to the node *)

Section load.
Context {C : Crates}.
(** [PublicKey::from_str], and base64 decoding of stored keys and values. *)
Variable parse_public_key : string -> option PublicKey.
Variable b64_decode : string -> option (list Z).

Definition parse_account_id (id : string) : option AccountId := if is_ok (validate id) then Some id else None.

(** [Account::deserialize] of version 1. *)
Definition load_account (a : AccountData) : option Account :=
  match parse_uint u128_max (ad_amount a), parse_uint u128_max (ad_locked a), bs58_decode (ad_code_hash a) with
  | Some amount, Some locked, Some code_hash =>
      if (length code_hash =? 32)%nat && bool_decide (ad_version a = "V1")
      then Some (AccV1 (mkAccountV1 amount locked code_hash (ad_storage_usage a))) else None
  | _, _, _ => None
  end.

Definition load_record (r : ToolRecord) : option StateRecord :=
  match r with
  | ToolAccount id account =>
      match parse_account_id id, load_account account with
      | Some id, Some account => Some (RecAccount id account)
      | _, _ => None
      end
  | ToolAccessKey id pk k =>
      match parse_account_id id, parse_public_key pk with
      | Some id, Some pk =>
          if bool_decide (akd_permission k = "FullAccess")
          then Some (RecAccessKey id pk (mkAccessKey (akd_nonce k) PermFullAccess)) else None
      | _, _ => None
      end
  | ToolData id key value =>
      match parse_account_id id, b64_decode key, b64_decode value with
      | Some id, Some key, Some value => Some (RecData id key value)
      | _, _, _ => None
      end
  end.

Definition load_validator (v : ValidatorInfo) : option (AccountId * PublicKey * Z) :=
  match parse_account_id (vi_account_id v), parse_public_key (vi_public_key v),
        parse_uint u128_max (vi_amount v) with
  | Some id, Some pk, Some stake => Some (id, pk, stake)
  | _, _, _ => None
  end.

Definition load_genesis (g : GenesisFile) : option (GenesisConfig * list StateRecord) :=
  match mapM load_validator (g_validators g), parse_uint u128_max (g_total_supply g),
        mapM load_record (g_records g) with
  | Some validators, Some total_supply, Some records =>
      Some (mkGenesisConfig validators total_supply (g_online_min_threshold g) (g_online_max_threshold g)
              (g_gas_price_adjustment_rate g) (g_epoch_length g), records)
  | _, _, _ => None
  end.
End load.
