(* ===== verification/GenesisProofs.v ===== *)
(** * The chain starts with the coins of the snapshot

    The genesis that the tools write is one that the node accepts; the state it is loaded
    into satisfies the invariants that the theorems on chunks ask for; every address holds
    what it held on Bitcoin; and the Patoshi coins are locked. *)

From stdpp Require Import sorting.
From S2P Require Import Prelude Decimal GenesisTools Crates AccountId Primitives Errors Fees Borsh Wire ReceiptWire ShardLayout.
From S2P Require Import Bandwidth BandwidthProofs TrieQueue OutgoingMetadata State BitcoinTx RuntimeTypes Validation Congestion Scheduling SinkProofs.
From S2P Require Import Actions Runtime Receipts Conservation Validators Transactions ReceiptConservation ReceiptFrames Supply Apply Chunk.
From S2P Require Import GenesisState.

(* ------------------------------------------------------------------ *)
(** ** Balances by address *)

Definition sum_of (m : gmap string Z) : Z := map_fold (fun _ x acc => id x + acc) 0 m.
Definition nonneg (m : gmap string Z) : Prop := map_Forall (fun _ v => 0 <= v) m.
Definition held_by (m : gmap string Z) (addr : string) : Z := default 0 (m !! addr).

Lemma sum_of_nonneg m : nonneg m -> 0 <= sum_of m.
Proof. intros Hm. apply (fold_nonneg id). exact Hm. Qed.

Lemma held_nonneg m addr : nonneg m -> 0 <= held_by m addr.
Proof. intros Hm. unfold held_by. destruct (m !! addr) eqn:E; [by eapply Hm|done]. Qed.

Lemma sum_of_insert m k v : sum_of (<[k := v]> m) = sum_of m - held_by m k + v.
Proof. unfold sum_of, held_by. rewrite (sum_insert id). unfold id. by destruct (m !! k). Qed.

Lemma sum_of_delete m k : sum_of (delete k m) = sum_of m - held_by m k.
Proof. unfold sum_of, held_by. rewrite (sum_delete id). unfold id. by destruct (m !! k). Qed.

Lemma held_le_sum m addr : nonneg m -> held_by m addr <= sum_of m.
Proof.
  intros Hm. pose proof (sum_of_delete m addr) as E.
  assert (0 <= sum_of (delete addr m)); [|lia]. apply sum_of_nonneg. by apply map_Forall_delete.
Qed.

Lemma credit_spec m k a : nonneg m -> 0 <= a -> sum_of m + a <= u64_max ->
  credit m k a = <[k := held_by m k + a]> m /\ nonneg (credit m k a) /\ sum_of (credit m k a) = sum_of m + a.
Proof.
  intros Hm Ha Hs. pose proof (held_le_sum m k Hm). pose proof (held_nonneg m k Hm).
  assert (credit m k a = <[k := held_by m k + a]> m) as E.
  { unfold credit, wrapping_add, held_by in *. by rewrite Z.mod_small by lia. }
  rewrite E. split; [done|]. split; [apply map_Forall_insert_2; [lia|done]|]. rewrite sum_of_insert. lia.
Qed.

(** What the outputs of a snapshot pay to an address, and to any. *)
Definition paid_to (addr : string) (dump : list TxOut) : Z :=
  zsum (fun o => if bool_decide (to_address o = Some addr) then to_amount o else 0) dump.
Definition addressed (dump : list TxOut) : Z :=
  zsum (fun o => if to_address o then to_amount o else 0) dump.
Definition outputs_ok (dump : list TxOut) : Prop := Forall (fun o => 0 <= to_amount o) dump.

Lemma addressed_nonneg dump : outputs_ok dump -> 0 <= addressed dump.
Proof. intros H. apply zsum_nonneg. eapply Forall_impl; [exact H|]. intros [a [?|]]; simpl; lia. Qed.

Lemma aggregate_spec dump : forall a,
  outputs_ok dump -> nonneg (ag_balances a) -> sum_of (ag_balances a) + addressed dump <= u64_max ->
  0 <= ag_total_utxos a -> ag_total_utxos a + vec_len dump <= u64_max ->
  let a' := fold_left add_txout dump a in
  nonneg (ag_balances a') /\ sum_of (ag_balances a') = sum_of (ag_balances a) + addressed dump
  /\ (forall addr, held_by (ag_balances a') addr = held_by (ag_balances a) addr + paid_to addr dump)
  /\ (forall addr, is_Some (ag_balances a' !! addr) <->
        is_Some (ag_balances a !! addr) \/ exists o, o ∈ dump /\ to_address o = Some addr)
  /\ ag_total_utxos a' = ag_total_utxos a + vec_len dump.
Proof.
  induction dump as [|o dump IH]; intros a Hd Hn Hs H0 Hl; cbn [fold_left].
  { unfold addressed, paid_to, vec_len, zsum. simpl. rewrite !Z.add_0_r. split; [done|]. split; [done|].
    split; [intros; lia|]. split; [|lia]. intros addr. split; [by left|]. intros [?|(o & Ho & _)]; [done|].
    by apply elem_of_nil in Ho. }
  apply Forall_cons in Hd as [Ho Hd]. pose proof (addressed_nonneg dump Hd) as Hpos.
  unfold addressed in Hs, Hpos. rewrite zsum_cons in Hs. fold (addressed dump) in Hs, Hpos.
  unfold vec_len in Hl. rewrite length_cons in Hl. fold (vec_len dump) in Hl.
  unfold addressed, paid_to. setoid_rewrite zsum_cons. fold (addressed dump).
  assert (wrapping_add u64_max (ag_total_utxos a) 1 = ag_total_utxos a + 1) as Ec
    by (unfold wrapping_add, vec_len in *; rewrite Z.mod_small; lia).
  unfold vec_len. rewrite length_cons. fold (vec_len dump).
  destruct o as [x [addr|]]; cbn [to_address to_amount] in *.
  - assert (add_txout a (mkTxOut x (Some addr)) = mkAggregate (credit (ag_balances a) addr x) (ag_total_utxos a + 1)
      (ag_skipped a) (wrapping_add u64_max (ag_total_satoshis a) x)) as -> by (unfold add_txout; simpl; by rewrite Ec).
    destruct (credit_spec (ag_balances a) addr x Hn Ho) as (E1 & E2 & E3); [lia|].
    destruct (IH (mkAggregate (credit (ag_balances a) addr x) (ag_total_utxos a + 1) (ag_skipped a)
      (wrapping_add u64_max (ag_total_satoshis a) x))) as (I1 & I2 & I3 & I4 & I5);
      [done|exact E2|cbn [ag_balances]; rewrite E3; lia|cbn; lia|unfold vec_len; cbn [ag_total_utxos]; lia|].
    cbn [ag_balances ag_total_utxos] in I2, I3, I4, I5. rewrite E3 in I2.
    split; [done|]. split; [rewrite I2; lia|]. split.
    { intros k. rewrite I3, E1. unfold held_by at 1. fold (paid_to k dump).
      destruct (decide (k = addr)) as [->|Hne].
      - rewrite lookup_insert_eq, bool_decide_true by done. simpl. unfold held_by. lia.
      - rewrite lookup_insert_ne, bool_decide_false by congruence. unfold held_by. lia. }
    split; [|rewrite I5; unfold vec_len; lia].
    intros k. rewrite I4, E1. destruct (decide (k = addr)) as [->|Hne].
    + rewrite lookup_insert_eq. split; [|by left]. intros _. right. eexists. split; [left|done].
    + rewrite lookup_insert_ne by done. split.
      * intros [?|(o & Hin & Eo)]; [by left|right; exists o; split; [by right|done]].
      * intros [?|(o & [->|Hin]%elem_of_cons & Eo)]; [by left|simpl in Eo; congruence|right; by exists o].
  - assert (add_txout a (mkTxOut x None) = mkAggregate (ag_balances a) (ag_total_utxos a + 1)
      (wrapping_add u64_max (ag_skipped a) 1) (wrapping_add u64_max (ag_total_satoshis a) x)) as ->
      by (unfold add_txout; simpl; by rewrite Ec).
    destruct (IH (mkAggregate (ag_balances a) (ag_total_utxos a + 1) (wrapping_add u64_max (ag_skipped a) 1)
      (wrapping_add u64_max (ag_total_satoshis a) x))) as (I1 & I2 & I3 & I4 & I5);
      [done|done|cbn [ag_balances]; lia|cbn; lia|unfold vec_len; cbn [ag_total_utxos]; lia|].
    cbn [ag_balances ag_total_utxos] in I2, I3, I4, I5. split; [done|]. split; [rewrite I2; lia|]. split; [intros k; rewrite I3, bool_decide_false by done; fold (paid_to k dump); lia|].
    split; [|rewrite I5; unfold vec_len; lia]. intros k. rewrite I4. split.
    * intros [?|(o & Hin & Eo)]; [by left|right; exists o; split; [by right|done]].
    * intros [?|(o & [->|Hin]%elem_of_cons & Eo)]; [by left|done|right; by exists o].
Qed.

(* ------------------------------------------------------------------ *)
(** ** Reassignment *)

Definition present (m : gmap string Z) (addr : string) : Z := if m !! addr then 1 else 0.

Lemma remove_all_spec addrs : forall m t c m' t' c',
  NoDup addrs -> nonneg m -> 0 <= t -> t + sum_of m <= u64_max ->
  fold_left remove_patoshi addrs (m, t, c) = (m', t', c') ->
  t' = t + zsum (held_by m) addrs /\ c' = c + zsum (present m) addrs
  /\ (forall k, m' !! k = if decide (k ∈ addrs) then None else m !! k)
  /\ nonneg m' /\ sum_of m' = sum_of m - zsum (held_by m) addrs.
Proof.
  induction addrs as [|a addrs IH]; intros m t c m' t' c' Hnd Hn Ht Hs H; cbn [fold_left] in H.
  { injection H as <- <- <-. unfold zsum. simpl. split; [lia|]. split; [lia|]. split; [|split; [done|lia]].
    done. }
  apply NoDup_cons in Hnd as [Ha Hnd]. rewrite !zsum_cons.
  pose proof (held_nonneg m a Hn). pose proof (held_le_sum m a Hn).
  assert (forall x, x ∈ addrs -> delete a m !! x = m !! x) as Hother.
  { intros x Hx. apply lookup_delete_ne. by intros ->. }
  assert (forall k, (if decide (k ∈ addrs) then None else delete a m !! k)
    = if decide (k ∈ a :: addrs) then None else m !! k) as Hk.
  { intros k. destruct (decide (k ∈ a :: addrs)) as [[->|Hin]%elem_of_cons|Hout].
    - rewrite lookup_delete_eq. by case_decide.
    - by rewrite decide_True.
    - apply not_elem_of_cons in Hout as [Hne Hout]. by rewrite decide_False, lookup_delete_ne. }
  assert (held_by m a = match m !! a with Some b => b | None => 0 end) as Hh by (unfold held_by; by destruct (m !! a)).
  assert (present m a = match m !! a with Some _ => 1 | None => 0 end) as Hpr by (unfold present; by destruct (m !! a)).
  unfold remove_patoshi at 2 in H. destruct (m !! a) as [b|] eqn:E; rewrite Hh in *; rewrite Hpr.
  - unfold wrapping_add in H. rewrite Z.mod_small in H by lia. pose proof (sum_of_delete m a) as Ed. rewrite Hh in Ed.
    apply IH in H as (I1 & I2 & I3 & I4 & I5); [|done|by apply map_Forall_delete|lia|lia].
    rewrite (zsum_ext_in (held_by (delete a m)) (held_by m)) in I1, I5 by (intros x Hx; unfold held_by; by rewrite Hother).
    rewrite (zsum_ext_in (present (delete a m)) (present m)) in I2 by (intros x Hx; unfold present; by rewrite Hother).
    split; [lia|]. split; [lia|]. split; [|split; [done|lia]]. intros k. by rewrite I3, Hk.
  - rewrite delete_id in Hk by done. apply IH in H as (I1 & I2 & I3 & I4 & I5); [|done..].
    split; [lia|]. split; [lia|]. split; [|split; [done|lia]]. intros k. by rewrite I3, Hk.
Qed.

(** What is left and where it goes. *)
Lemma reassign_spec m addrs target m' r :
  NoDup addrs -> nonneg m -> sum_of m <= u64_max -> reassign_patoshi m addrs target = (m', r) ->
  total_satoshis r = zsum (held_by m) addrs /\ 0 <= total_satoshis r <= sum_of m
  /\ addresses_removed r = zsum (present m) addrs /\ target_address r = target
  /\ nonneg m' /\ sum_of m' = sum_of m
  /\ (forall k, k <> target -> m' !! k = if decide (k ∈ addrs) then None else m !! k)
  /\ held_by m' target = (if decide (target ∈ addrs) then 0 else held_by m target) + total_satoshis r
  /\ (0 < total_satoshis r -> is_Some (m' !! target))
  /\ (total_satoshis r = 0 -> m' !! target = if decide (target ∈ addrs) then None else m !! target).
Proof.
  intros Hnd Hn Hs H. unfold reassign_patoshi in H.
  destruct (fold_left remove_patoshi addrs (m, 0, 0)) as [[m1 t] c] eqn:E.
  apply remove_all_spec in E as (E1 & E2 & E3 & E4 & E5); [|done|done|lia|lia]. injection H as <- <-.
  assert (0 <= t) as Ht.
  { rewrite E1. assert (0 <= zsum (held_by m) addrs); [|lia]. apply zsum_nonneg, Forall_forall. intros x _. by apply held_nonneg. }
  pose proof (sum_of_nonneg _ E4) as H4. cbn [total_satoshis addresses_removed target_address].
  assert (held_by m1 target = if decide (target ∈ addrs) then 0 else held_by m target) as Hh.
  { unfold held_by. rewrite E3. by case_decide. }
  split; [lia|]. split; [lia|]. split; [lia|]. split; [done|].
  destruct (Z.ltb_spec 0 t) as [Hpos|Hz].
  - destruct (credit_spec m1 target t E4 Ht) as (C1 & C2 & C3); [lia|]. split; [done|]. split; [lia|].
    rewrite C1. split; [intros k Hk; rewrite lookup_insert_ne by done; apply E3|].
    unfold held_by at 1. rewrite lookup_insert_eq. split; [simpl; lia|]. split; [eauto|lia].
  - split; [done|]. split; [lia|]. split; [intros k _; apply E3|]. split; [lia|]. split; [lia|]. intros _. apply E3.
Qed.

(** Reassigning the Patoshi coins moves them and nothing else.  The coins of the listed
    addresses are taken from them and added to the target, which may itself be listed;
    every other balance stays; no coin is created or lost, and what is reported is what was
    moved.  The result does not depend on the order in which the hash set is walked. *)
Theorem reassign_conserves (m : gmap string Z) (addrs : list string) (target : string) :
  NoDup addrs -> nonneg m -> sum_of m <= u64_max ->
  let '(m', r) := reassign_patoshi m addrs target in
  total_satoshis r = zsum (held_by m) addrs /\ addresses_removed r = zsum (present m) addrs
  /\ sum_of m' = sum_of m
  /\ held_by m' target = (if decide (target ∈ addrs) then 0 else held_by m target) + total_satoshis r
  /\ (forall k, k <> target -> m' !! k = if decide (k ∈ addrs) then None else m !! k)
  /\ forall addrs', addrs' ≡ₚ addrs -> reassign_patoshi m addrs' target = (m', r).
Proof.
  intros Hnd Hn Hs. destruct (reassign_patoshi m addrs target) as [m' r] eqn:E.
  destruct (reassign_spec _ _ _ _ _ Hnd Hn Hs E) as (R1 & R2 & R3 & R4 & R5 & R6 & R7 & R8 & R9 & R10).
  do 5 (split; [done|]). intros addrs' Hp. destruct (reassign_patoshi m addrs' target) as [m2 r2] eqn:E2.
  assert (NoDup addrs') as Hnd' by (by rewrite Hp).
  destruct (reassign_spec _ _ _ _ _ Hnd' Hn Hs E2) as (S1 & S2 & S3 & S4 & S5 & S6 & S7 & S8 & S9 & S10).
  assert (forall f, zsum f addrs' = zsum f addrs) as Hz by (intros f; by apply zsum_perm).
  rewrite Hz in S1, S3. assert (forall k, k ∈ addrs' <-> k ∈ addrs) as Hin by (intros k; by rewrite Hp).
  assert (r2 = r) as -> by (destruct r, r2; simpl in *; congruence). f_equal. apply map_eq. intros k.
  assert (forall A (x y : A), (if decide (k ∈ addrs') then x else y) = if decide (k ∈ addrs) then x else y) as Hd
    by (intros A x y; specialize (Hin k); repeat case_decide; tauto).
  destruct (decide (k = target)) as [->|Hne]; [|by rewrite S7, R7, Hd].
  destruct (Z.eq_dec (total_satoshis r) 0) as [Hz0|Hnz]; [by rewrite S10, R10, Hd|].
  destruct S9 as [x Ex]; [lia|]. destruct R9 as [y Ey]; [lia|]. unfold held_by in S8, R8.
  rewrite Hd, Ex in S8. rewrite Ey in R8. simpl in S8, R8. unfold id in *. rewrite Ex, Ey. f_equal. lia.
Qed.

(** The target is itself listed, and one listed address holds nothing. *)
Lemma reassign_conserves_witness :
  let m := <["a" := 5]> (<["b" := 7]> {["c" := 11]}) in
  let '(m', r) := reassign_patoshi m ["b"; "x"; "c"] "b" in
  total_satoshis r = 18 /\ addresses_removed r = 2 /\ sum_of m' = 23 /\ held_by m' "b" = 18.
Proof.
  intros m. pose proof (reassign_conserves m ["b"; "x"; "c"] "b") as H.
  destruct (reassign_patoshi m ["b"; "x"; "c"] "b") as [m' r].
  destruct H as (H1 & H2 & H3 & H4 & _).
  - apply (bool_decide_unpack _). vm_compute. exact I.
  - apply (bool_decide_unpack _). vm_compute. exact I.
  - vm_compute. congruence.
  - rewrite H1, H2, H3. split_and!; [vm_compute; reflexivity..|]. rewrite H4, H1. vm_compute. reflexivity.
Defined.

(* ------------------------------------------------------------------ *)
(** ** The file *)

(** The limit of Bitcoin, in satoshis. *)
Definition MAX_MONEY : Z := 2100000000000000.

Definition yocto (l : list (string * Z)) : Z := zsum (fun p => p.2 * 10 ^ 16) l.
Definition account_record (p : string * Z) : ToolRecord := ToolAccount p.1 (account_data (p.2 * 10 ^ 16) 0).

Lemma add_addresses_spec va l : forall records total,
  Forall (fun p => p.1 <> va /\ p.1 <> TREASURY /\ 0 <= p.2 <= u64_max) l -> total + yocto l <= u128_max ->
  add_addresses va l records total = Ok (records ++ map account_record l, total + yocto l).
Proof.
  induction l as [|[a x] l IH]; intros records total Hl Ht; simpl.
  { rewrite app_nil_r. unfold yocto, zsum. simpl. by rewrite Z.add_0_r. }
  apply Forall_cons in Hl as [(H1 & H2 & H3) Hl]. simpl in H1, H2, H3. unfold yocto in *. rewrite zsum_cons in *. simpl in Ht.
  assert (0 <= zsum (fun p : string * Z => p.2 * 10 ^ 16) l) as Hpos.
  { apply zsum_nonneg. eapply Forall_impl; [exact Hl|]. intros p (_ & _ & ?). lia. }
  rewrite !bool_decide_false by done. simpl. unfold wrapping_mul. change (Z.pow_pos 10 16) with (10 ^ 16).
  rewrite Z.mod_small by (unfold u128_max, u64_max in *; lia).
  unfold checked_add. rewrite (proj2 (Z.leb_le _ _)) by lia. simpl. rewrite IH by (done || lia).
  rewrite <- app_assoc. f_equal. f_equal. cbn [snd]. lia.
Qed.

Lemma btree_iter_perm {A} (m : gmap string A) : btree_iter m ≡ₚ map_to_list m.
Proof. apply merge_sort_Permutation. Qed.

Lemma sum_of_list m : zsum snd (map_to_list m) = sum_of m.
Proof.
  unfold sum_of. rewrite map_fold_foldr. unfold zsum. induction (map_to_list m) as [|[k v] l IH]; [done|].
  simpl. by rewrite IH.
Qed.

Lemma yocto_sum m : yocto (btree_iter m) = sum_of m * 10 ^ 16.
Proof.
  unfold yocto. rewrite (zsum_perm _ _ _ (btree_iter_perm m)), <- sum_of_list.
  induction (map_to_list m) as [|p l IH]; [done|]. rewrite !zsum_cons, IH. lia.
Qed.

Lemma for_each_app {A S E} (body : A -> S -> result S E) l1 l2 s :
  for_each body (l1 ++ l2) s = let? s := for_each body l1 s in for_each body l2 s.
Proof.
  revert s. induction l1 as [|a l1 IH]; intros s; simpl; [done|]. destruct (body a s); simpl; [apply IH|done..].
Qed.
