(* ===== verification/GenesisLoad.v ===== *)
(** * The node accepts the genesis the tools write

    The file that bitinfinity-tools builds from a snapshot, loaded, validated and written
    into the state by the node: the two programs share no code, and have to agree on amounts
    as text, on keys and encodings of the Patoshi records, and on the total supply. *)

From stdpp Require Import sorting.
From S2P Require Import Prelude Decimal Crates AccountId Primitives Errors Fees Borsh GenesisTools Wire ReceiptWire ShardLayout.
From S2P Require Import Bandwidth BandwidthProofs TrieQueue OutgoingMetadata State BitcoinTx RuntimeTypes Validation Congestion Scheduling SinkProofs.
From S2P Require Import Actions Runtime Receipts Conservation Validators Transactions ReceiptConservation ReceiptFrames Supply Apply Chunk.
From S2P Require Import GenesisState GenesisProofs.

Definition stake_yocto : Z := 50000000000000000000000000000000.
Definition balance_yocto : Z := 1000000000000000000000000000000.
Definition start_supply (coins : Z) : Z := balance_yocto + stake_yocto + treasury_balance + coins * 10 ^ 16.

Definition node_account (amount locked : Z) : Account := AccV1 (mkAccountV1 amount locked hash_default 0).
Definition address_account (p : string * Z) : string * Account := (p.1, node_account (p.2 * 10 ^ 16) 0).
Definition address_record (p : string * Z) : StateRecord := RecAccount p.1 (node_account (p.2 * 10 ^ 16) 0).

(** The address that holds locked coins, and the floor. *)
Abbreviation Lock := (option (string * Z)) (only parsing).
Definition registry_of (lock : Lock) : gmap string Z :=
  match lock with Some (target, floor) => {[target := floor]} | None => ∅ end.
Definition lock_records (lock : Lock) : list StateRecord :=
  match lock with
  | Some (target, floor) =>
      [RecData target PATOSHI_RECORD_DATA_KEY (enc patoshi_record_c (mkPatoshiRecord floor true None));
       RecData FOUNDATION_ACCOUNT_ID PATOSHI_INDEX_DATA_KEY (enc (vec_c string_c) [target])]
  | None => []
  end.

Section genesis.
Context {C : Crates}.
Variable b64_encode : list Z -> string.
Variable b64_decode : string -> option (list Z).
Variable parse_public_key : string -> option PublicKey.
Variable cfg : StorageUsageConfig.
(** Account and key of the first validator. *)
Variables va vk : string.
Variable key : list Z.

(** What the crates do and what the operator gives. *)
Record setup_ok : Prop := mk_setup_ok {
  se_b64 : forall b, bytes_ok b -> b64_decode (b64_encode b) = Some b;
  se_bs58 : bs58_decode NO_CODE_HASH = Some hash_default;
  se_key : parse_public_key vk = Some (ED25519 key);
  se_key_len : length key = 32%nat;
  se_staking : ed25519_torsion_free key = true;
  se_va : validate va = Ok tt;
  se_va_treasury : va <> TREASURY;
  se_va_system : is_system va = false;
  se_account : is_u u32_max (num_bytes_account cfg);
  se_record : is_u u32_max (num_extra_bytes_record cfg);
}.

(** An account of its own. *)
Definition good_id (id : string) : Prop :=
  validate id = Ok tt /\ is_str id = true /\ id <> va /\ id <> TREASURY /\ is_system id = false.

Record accounts_ok (m : gmap string Z) : Prop := mk_accounts_ok {
  ao_nonneg : nonneg m;
  ao_sum : sum_of m <= MAX_MONEY;
  ao_ids : forall id, is_Some (m !! id) -> good_id id;
}.

Definition lock_ok (m : gmap string Z) (lock : Lock) : Prop :=
  match lock with
  | Some (target, floor) => is_Some (m !! target) /\ 0 <= floor <= held_by m target * 10 ^ 16
  | None => True
  end.

Hypothesis Hset : setup_ok.

Definition listed_ok (p : string * Z) : Prop := good_id p.1 /\ 0 <= p.2 <= MAX_MONEY.

Lemma iter_ok m : accounts_ok m -> Forall listed_ok (btree_iter m).
Proof.
  intros [Hn Hs Hid]. apply Forall_forall. intros [a x] Hin. rewrite (btree_iter_perm m) in Hin.
  apply elem_of_map_to_list in Hin. split; [apply Hid; eauto|]. simpl.
  pose proof (held_le_sum m a Hn). unfold held_by in *. rewrite Hin in *. simpl in *.
  specialize (Hn _ _ Hin). simpl in Hn. unfold id in *. lia.
Qed.

Lemma iter_NoDup (m : gmap string Z) : NoDup (btree_iter m).*1.
Proof. rewrite (btree_iter_perm m). apply NoDup_fst_map_to_list. Qed.

Lemma yocto_nonneg l : Forall listed_ok l -> 0 <= yocto l.
Proof. intros H. apply zsum_nonneg. eapply Forall_impl; [exact H|]. intros p [_ ?]. lia. Qed.

(* ------------------------------------------------------------------ *)
(** ** The file and how it is read *)

Definition written (m : gmap string Z) (lock : Lock) (g : GenesisFile) : Prop :=
  g_validators g = [mkValidatorInfo va vk (to_dec stake_yocto)]
  /\ g_total_supply g = to_dec (start_supply (sum_of m))
  /\ g_online_min_threshold g = (9, 10) /\ g_online_max_threshold g = (99, 100)
  /\ g_gas_price_adjustment_rate g = (1, 100) /\ g_epoch_length g = 500
  /\ g_records g = ToolAccount va (account_data balance_yocto stake_yocto) :: ToolAccessKey va vk (mkAccessKeyData 0 "FullAccess")
       :: ToolAccount TREASURY (account_data treasury_balance 0) :: map account_record (btree_iter m)
       ++ patoshi_data b64_encode (btree_iter (registry_of lock)).

Lemma build_spec chain_id genesis_time m lock : accounts_ok m ->
  exists g, build b64_encode chain_id genesis_time m (validator_of va vk) (registry_of lock) = Ok g
    /\ written m lock g.
Proof using Hset.
  intros Hm. unfold build. cbn [vc_account_id vc_public_key_ed25519 vc_stake_yocto vc_balance_yocto validator_of].
  rewrite bool_decide_false by (intros E; by apply (se_va_treasury Hset)).
  match goal with |- context [wrapping_add u128_max (wrapping_add u128_max 0 ?x) treasury_balance] =>
    change (wrapping_add u128_max (wrapping_add u128_max 0 x) treasury_balance) with (balance_yocto + stake_yocto + treasury_balance) end.
  rewrite add_addresses_spec.
  - simpl. eexists. split; [reflexivity|]. unfold written, start_supply. rewrite yocto_sum. split_and!; try done.
  - eapply Forall_impl; [by apply iter_ok|]. intros p [(_ & _ & ? & ? & _) ?]. unfold MAX_MONEY, u64_max in *. by split_and!; try lia.
  - rewrite yocto_sum. pose proof (ao_sum _ Hm). unfold balance_yocto, stake_yocto, treasury_balance, MAX_MONEY, u128_max in *. lia.
Qed.

Definition loaded_records (m : gmap string Z) (lock : Lock) : list StateRecord :=
  RecAccount va (node_account balance_yocto stake_yocto) :: RecAccessKey va (ED25519 key) full_access
  :: RecAccount TREASURY (node_account treasury_balance 0) :: map address_record (btree_iter m) ++ lock_records lock.

Definition loaded_config (m : gmap string Z) : GenesisConfig :=
  mkGenesisConfig [(va, ED25519 key, stake_yocto)] (start_supply (sum_of m)) (9, 10) (99, 100) (1, 100) 500.

Lemma parse_valid id : validate id = Ok tt -> parse_account_id id = Some id.
Proof. unfold parse_account_id. by intros ->. Qed.

Lemma treasury_valid : validate TREASURY = Ok tt.
Proof. unfold validate. destruct (is_bitcoin_implicit TREASURY); vm_compute; reflexivity. Qed.

Lemma load_account_data x l : is_u u128_max x -> is_u u128_max l ->
  load_account (account_data x l) = Some (node_account x l).
Proof using Hset.
  intros Hx Hl. unfold load_account, account_data. cbn [ad_amount ad_locked ad_code_hash ad_version ad_storage_usage].
  by rewrite !parse_to_dec, (se_bs58 Hset) by done.
Qed.

Lemma load_account_record id x l : validate id = Ok tt -> is_u u128_max x -> is_u u128_max l ->
  load_record parse_public_key b64_decode (ToolAccount id (account_data x l)) = Some (RecAccount id (node_account x l)).
Proof using Hset. intros Hid Hx Hl. unfold load_record. by rewrite parse_valid, load_account_data. Qed.

Lemma load_data id k v : validate id = Ok tt -> bytes_ok k -> bytes_ok v ->
  load_record parse_public_key b64_decode (ToolData id (b64_encode k) (b64_encode v)) = Some (RecData id k v).
Proof using Hset. intros Hid Hk Hv. unfold load_record. by rewrite parse_valid, !(se_b64 Hset). Qed.

Lemma record_bytes_ok floor : bytes_ok (enc patoshi_record_c (mkPatoshiRecord floor true None)).
Proof.
  change (bytes_ok (le_enc 16 floor ++ [1; 0])). apply Forall_app. split; [apply le_enc_ok|].
  repeat constructor; done.
Qed.

Lemma index_bytes_ok (l : list string) : bytes_ok (enc (vec_c string_c) l).
Proof.
  change (bytes_ok (le_enc 4 (vec_len l) ++ flat_map (enc string_c) l)).
  apply Forall_app. split; [apply le_enc_ok|]. induction l as [|x l IH]; [constructor|]. cbn [flat_map].
  apply Forall_app; split; [|done].
  change (bytes_ok (le_enc 4 (vec_len (as_bytes x)) ++ flat_map (le_enc 1) (as_bytes x))).
  apply Forall_app; split; [apply le_enc_ok|]. induction (as_bytes x) as [|c b IHb]; [constructor|].
  cbn [flat_map]. apply Forall_app; split; [apply le_enc_ok|done].
Qed.

Lemma load_lock m lock : accounts_ok m -> lock_ok m lock ->
  Forall2 (fun r r' => load_record parse_public_key b64_decode r = Some r')
    (patoshi_data b64_encode (btree_iter (registry_of lock))) (lock_records lock).
Proof using Hset.
  intros Hm Hl. destruct lock as [[target floor]|]; unfold btree_iter, registry_of;
    [|rewrite map_to_list_empty; constructor].
  rewrite map_to_list_singleton. simpl. destruct Hl as [Ht _].
  destruct (ao_ids _ Hm _ Ht) as (Hv & _). repeat constructor; apply load_data; try done; try apply as_bytes_ok.
  - apply record_bytes_ok.
  - apply treasury_valid.
  - apply index_bytes_ok.
Qed.

Lemma load_spec m lock g : accounts_ok m -> lock_ok m lock -> written m lock g ->
  load_genesis parse_public_key b64_decode g = Some (loaded_config m, loaded_records m lock).
Proof using Hset.
  intros Hm Hl (E1 & E2 & E3 & E4 & E5 & E6 & E7). unfold load_genesis. rewrite E1, E2, E3, E4, E5, E6.
  assert (mapM (load_validator parse_public_key) [mkValidatorInfo va vk (to_dec stake_yocto)]
    = Some [(va, ED25519 key, stake_yocto)]) as ->.
  { apply mapM_Some. constructor; [|constructor]. unfold load_validator. cbn [vi_account_id vi_public_key vi_amount].
    by rewrite (parse_valid _ (se_va Hset)), (se_key Hset), parse_to_dec. }
  pose proof (ao_sum _ Hm) as Hs. pose proof (sum_of_nonneg _ (ao_nonneg _ Hm)) as Hp.
  rewrite parse_to_dec by (unfold start_supply, balance_yocto, stake_yocto, treasury_balance, MAX_MONEY, u128_max in *; lia).
  assert (mapM (load_record parse_public_key b64_decode) (g_records g) = Some (loaded_records m lock)) as ->; [|done].
  rewrite E7. clear E7. apply mapM_Some. constructor; [by apply load_account_record; [apply (se_va Hset)|..]|]. constructor.
  { unfold load_record. by rewrite (parse_valid _ (se_va Hset)), (se_key Hset). }
  constructor; [by apply load_account_record; [apply treasury_valid|..]|]. apply Forall2_app; [|by eapply load_lock].
  pose proof (iter_ok m Hm) as Hi. induction Hi as [|p l [(Hid & _) Hb] _ IH]; simpl; [constructor|]. constructor; [|done].
  apply load_account_record; [done| |done]. unfold MAX_MONEY, u128_max in *. split; lia.
Qed.

(* ------------------------------------------------------------------ *)
(** ** Validation *)

Lemma process_addresses l : forall v,
  NoDup l.*1 -> Forall listed_ok l -> (forall id, id ∈ l.*1 -> id ∉ gv_account_ids v) ->
  0 <= gv_total_supply v -> gv_total_supply v + yocto l <= u128_max ->
  for_each (fun r v => process_record v r) (map address_record l) v
  = Ok (mkGenesisValidator (gv_total_supply v + yocto l) (gv_staked_accounts v)
          (list_to_set l.*1 ∪ gv_account_ids v) (gv_access_key_account_ids v) (gv_contract_account_ids v)
          (gv_validation_errors v)).
Proof.
  induction l as [|[a x] l IH]; intros v Hnd Hl Hf H0 Ht.
  { simpl. unfold yocto, zsum. simpl. rewrite Z.add_0_r, union_empty_l_L. by destruct v. }
  apply Forall_cons in Hl as [[_ Hx] Hl]. simpl in Hx. rewrite fmap_cons in Hnd, Hf. apply NoDup_cons in Hnd as [Ha Hnd]. simpl in Ha, Hf.
  pose proof (yocto_nonneg l Hl) as Hp. unfold yocto in *. rewrite zsum_cons in *. cbn [snd] in *.
  set (y := x * 10 ^ 16) in *. assert (0 <= y) as Hy by (unfold y; lia).
  assert (process_record v (RecAccount a (node_account y 0)) = Ok (mkGenesisValidator (gv_total_supply v + y)
    (gv_staked_accounts v) ({[a]} ∪ gv_account_ids v) (gv_access_key_account_ids v) (gv_contract_account_ids v)
    (gv_validation_errors v))) as Ep.
  { unfold process_record. rewrite bool_decide_false by (apply Hf; left).
    cbn [Primitives.amount locked node_account v1_amount v1_locked]. unfold add_or_panic, checked_add. rewrite Z.add_0_r.
    rewrite (proj2 (Z.leb_le y _)) by lia. simpl. by rewrite (proj2 (Z.leb_le _ _)) by lia. }
  cbn [map for_each]. change (address_record (a, x)) with (RecAccount a (node_account y 0)). rewrite Ep. cbn [rbind].
  rewrite IH; cbn [gv_total_supply gv_account_ids gv_staked_accounts gv_access_key_account_ids gv_contract_account_ids gv_validation_errors]; try done; [| |lia|lia].
  - f_equal. f_equal; [lia|]. simpl. clear. set_solver.
  - intros id Hid. specialize (Hf id ltac:(by right)). apply not_elem_of_union. split; [|done].
    intros ->%elem_of_singleton. done.
Qed.

Lemma process_lock lock v : for_each (fun r v => process_record v r) (lock_records lock) v = Ok v.
Proof. by destruct lock as [[]|]. Qed.

Definition start_validator (m : gmap string Z) : GenesisValidator :=
  mkGenesisValidator (start_supply (sum_of m)) {[va := stake_yocto]}
    (list_to_set (btree_iter m).*1 ∪ ({[TREASURY]} ∪ ({[va]} ∪ ∅))) {[va]} ∅ [].

Lemma fresh_ids m id : accounts_ok m -> id ∈ (btree_iter m).*1 -> good_id id.
Proof.
  intros Hm ([a x] & -> & Hin)%list_elem_of_fmap. pose proof (iter_ok m Hm) as Hi. rewrite Forall_forall in Hi.
  by apply (Hi _ Hin).
Qed.

Lemma process_spec m lock : accounts_ok m ->
  for_each (fun r v => process_record v r) (loaded_records m lock) validator_new = Ok (start_validator m).
Proof using Hset.
  intros Hm. pose proof (ao_sum _ Hm) as Hs. pose proof (sum_of_nonneg _ (ao_nonneg _ Hm)) as Hp.
  unfold loaded_records. change (?a :: ?b :: ?c :: ?d) with ([a; b; c] ++ d). rewrite for_each_app.
  assert (for_each (fun r v => process_record v r) [RecAccount va (node_account balance_yocto stake_yocto);
    RecAccessKey va (ED25519 key) full_access; RecAccount TREASURY (node_account treasury_balance 0)] validator_new
    = Ok (mkGenesisValidator (balance_yocto + stake_yocto + treasury_balance) {[va := stake_yocto]} ({[TREASURY]} ∪ ({[va]} ∪ ∅)) ({[va]} ∪ ∅) ∅ [])) as ->.
  { cbn [for_each]. unfold process_record at 1. rewrite bool_decide_false by (simpl; set_solver). simpl.
    rewrite bool_decide_false; [done|]. pose proof (se_va_treasury Hset). set_solver. }
  cbn [rbind]. rewrite for_each_app, process_addresses.
  - cbn [rbind]. rewrite process_lock. unfold start_validator, start_supply. cbn [gv_total_supply gv_staked_accounts gv_account_ids gv_access_key_account_ids gv_contract_account_ids gv_validation_errors]. rewrite yocto_sum, union_empty_r_L. done.
  - apply iter_NoDup.
  - by apply iter_ok.
  - intros id Hid. apply fresh_ids in Hid as (_ & _ & ? & ? & _); [|done]. simpl. set_solver.
  - done.
  - rewrite yocto_sum. cbn [gv_total_supply]. unfold balance_yocto, stake_yocto, treasury_balance, MAX_MONEY, u128_max in *. lia.
Qed.

Lemma validate_spec m lock : accounts_ok m -> validate_genesis (loaded_config m) (loaded_records m lock) = Ok [].
Proof using Hset.
  intros Hm. unfold validate_genesis. rewrite process_spec by done. cbn [rbind]. f_equal.
  unfold validate_processed_records, loaded_config, start_validator.
  cbn [gc_validators gc_total_supply gc_online_min_threshold gc_online_max_threshold gc_gas_price_adjustment_rate gc_epoch_length
       gv_total_supply gv_staked_accounts gv_account_ids gv_access_key_account_ids gv_contract_account_ids gv_validation_errors].
  cbn [flat_map map rev app]. unfold is_valid_staking_key. rewrite (se_staking Hset).
  change (list_to_map [(va, stake_yocto)]) with (<[va := stake_yocto]> (∅ : gmap AccountId Z)).
  rewrite insert_empty, map_size_singleton, (Z.eqb_refl (start_supply (sum_of m))), bool_decide_true by done.
  unfold missing_accounts. cbn [gv_account_ids].
  rewrite elements_singleton, elements_empty, filter_cons_False; [done|]. set_solver.
Qed.

(* ------------------------------------------------------------------ *)
(** ** The state *)

(** Storage so far: of accounts in the state, and far from the limit. *)
Definition usage_ok (P : AccountId -> Prop) (bound : Z) (usage : gmap AccountId Z) : Prop :=
  map_Forall (fun id u => P id /\ 0 <= u <= bound) usage.

Lemma add_usage_ok P r id u usage bound :
  record_usage cfg r = Ok (Some (id, u)) -> 0 <= u <= 2 ^ 40 -> P id -> usage_ok P bound usage ->
  0 <= bound -> bound + 2 ^ 40 <= u64_max ->
  exists usage', add_usage cfg r usage = Ok usage' /\ usage_ok P (bound + 2 ^ 40) usage'.
Proof.
  intros Hr Hu Hid Ho H0 Hb. unfold add_usage. rewrite Hr. cbn [rbind].
  assert (0 <= default 0 (usage !! id) <= bound) as Hd.
  { destruct (usage !! id) as [w|] eqn:E; [by apply Ho in E as [_ ?]|simpl; lia]. }
  unfold add_or_panic, checked_add. rewrite (proj2 (Z.leb_le _ _)) by lia. cbn [unwrap rbind].
  eexists. split; [reflexivity|]. apply map_Forall_insert_2; [split; [done|lia]|].
  eapply map_Forall_impl; [exact Ho|]. intros k v [? ?]. split; [done|lia].
Qed.

Definition header_batch (usage : gmap AccountId Z) : GenesisBatch :=
  mkGenesisBatch (mkState (<[TREASURY := node_account treasury_balance 0]> {[va := node_account balance_yocto stake_yocto]})
    {[(va, ED25519 key) := full_access]} ∅ ∅ ∅ empty_globals empty_receipts) empty_queue [] usage.

Definition operator (id : AccountId) : Prop := id = va \/ id = TREASURY.

Lemma write_header : exists usage,
  for_each (write_record cfg) [RecAccount va (node_account balance_yocto stake_yocto);
    RecAccessKey va (ED25519 key) full_access; RecAccount TREASURY (node_account treasury_balance 0)]
    (mkGenesisBatch empty_state empty_queue [] ∅) = Ok (header_batch usage)
  /\ usage_ok operator (2 ^ 42) usage.
Proof using Hset.
  pose proof (se_account Hset) as Ha. pose proof (se_record Hset) as Hr. unfold is_u, u32_max in Ha, Hr.
  destruct (add_usage_ok operator (RecAccount va (node_account balance_yocto stake_yocto)) va (num_bytes_account cfg) ∅ 0)
    as (u1 & E1 & O1); [done|lia|by left|apply map_Forall_empty|lia|done|].
  destruct (add_usage_ok operator (RecAccessKey va (ED25519 key) full_access) va (num_extra_bytes_record cfg + 33 + 9) u1 (0 + 2 ^ 40))
    as (u2 & E2 & O2); [|lia|by left|done|lia|done|].
  { unfold record_usage. replace (vec_len (enc public_key_c (ED25519 key))) with 33
      by (simpl; unfold vec_len; rewrite length_cons, (se_key_len Hset); done).
    change (vec_len (enc access_key_c full_access)) with 9. unfold add_or_panic, checked_add.
    rewrite (proj2 (Z.leb_le _ _)) by (unfold u64_max; lia). cbn [unwrap rbind].
    by rewrite (proj2 (Z.leb_le _ _)) by (unfold u64_max; lia). }
  destruct (add_usage_ok operator (RecAccount TREASURY (node_account treasury_balance 0)) TREASURY (num_bytes_account cfg) u2 (0 + 2 ^ 40 + 2 ^ 40))
    as (u3 & E3 & O3); [done|lia|by right|done|lia|done|].
  exists u3. split.
  - cbn [for_each]. unfold write_record at 1. cbn [gb_usage]. rewrite E1. cbn [rbind].
    unfold write_record at 1. cbn [gb_usage]. rewrite E2. cbn [rbind].
    unfold write_record at 1. cbn [gb_usage]. rewrite E3. cbn [rbind]. reflexivity.
  - eapply map_Forall_impl; [exact O3|]. intros k v [? ?]. split; [done|lia].
Qed.

Lemma write_addresses l : forall b,
  NoDup l.*1 -> (forall id, id ∈ l.*1 -> gb_usage b !! id = None) ->
  for_each (write_record cfg) (map address_record l) b
  = Ok (mkGenesisBatch (with_accounts (gb_state b) (list_to_map (map address_account l) ∪ st_accounts (gb_state b)))
          (gb_delayed b) (gb_postponed b)
          (list_to_map (map (fun p => (p.1, num_bytes_account cfg)) l) ∪ gb_usage b)).
Proof using Hset.
  induction l as [|[a x] l IH]; intros b Hnd Hf.
  { simpl. rewrite !map_empty_union. by destruct b as [[] ? ? ?]. }
  rewrite fmap_cons in Hnd, Hf. apply NoDup_cons in Hnd as [Ha Hnd]. simpl in Ha, Hf. cbn [map for_each].
  assert (write_record cfg (address_record (a, x)) b = Ok (mkGenesisBatch
    (set_account (gb_state b) a (node_account (x * 10 ^ 16) 0)) (gb_delayed b) (gb_postponed b)
    (<[a := num_bytes_account cfg]> (gb_usage b)))) as ->.
  { unfold write_record, add_usage, address_record. cbn [record_usage rbind fst snd]. rewrite (Hf a) by left. cbn [default fst].
    unfold add_or_panic, checked_add. pose proof (se_account Hset) as [_ Hn]. rewrite Z.add_0_l.
    by rewrite (proj2 (Z.leb_le _ _)) by (unfold u32_max, u64_max in *; lia). }
  cbn [rbind]. rewrite IH; [|done|].
  - cbn [gb_state gb_delayed gb_postponed gb_usage]. unfold set_account, with_accounts. cbn [st_accounts st_access_keys st_gas_key_nonces st_contract_code st_contract_data st_globals st_receipts].
    do 2 f_equal; [f_equal|]; cbn [list_to_map foldr uncurry map address_account fst snd];
      rewrite <- insert_union_l, insert_union_r; try done; apply not_elem_of_list_to_map_1;
      by rewrite <- list_fmap_compose.
  - cbn [gb_usage]. intros id Hid. rewrite lookup_insert_ne by (by intros <-). apply Hf. by right.
Qed.

Definition start_state (m : gmap string Z) (lock : Lock) : State :=
  let s := mkState (list_to_map (map address_account (btree_iter m))
                      ∪ <[TREASURY := node_account treasury_balance 0]> {[va := node_account balance_yocto stake_yocto]})
             {[(va, ED25519 key) := full_access]} ∅ ∅ ∅ empty_globals empty_receipts in
  match lock with
  | Some (target, floor) =>
      set_data (vec_c string_c) (set_patoshi_record s target (mkPatoshiRecord floor true None))
        FOUNDATION_ACCOUNT_ID PATOSHI_INDEX_DATA_KEY [target]
  | None => s
  end.

Lemma start_accounts_lock m lock : st_accounts (start_state m lock) = st_accounts (start_state m None).
Proof. by destruct lock as [[]|]. Qed.

Lemma address_keys l : (map address_account l).*1 = l.*1.
Proof. induction l as [|p l IH]; [done|]. simpl. by f_equal. Qed.

Lemma start_account m id : accounts_ok m ->
  get_account (start_state m None) id =
  match m !! id with
  | Some x => Some (node_account (x * 10 ^ 16) 0)
  | None => if decide (id = TREASURY) then Some (node_account treasury_balance 0)
            else if decide (id = va) then Some (node_account balance_yocto stake_yocto) else None
  end.
Proof using Hset.
  intros Hm. unfold get_account, start_state. cbn [st_accounts].
  destruct (m !! id) as [x|] eqn:E.
  - apply lookup_union_Some_l. apply elem_of_list_to_map_1; [rewrite address_keys; apply iter_NoDup|].
    apply list_elem_of_fmap. exists (id, x). split; [done|]. rewrite (btree_iter_perm m). by apply elem_of_map_to_list.
  - rewrite lookup_union_r.
    + case_decide as H1; [subst id; apply lookup_insert_eq|]. rewrite lookup_insert_ne by done.
      case_decide as H2; [subst id; apply lookup_singleton_eq|]. by apply lookup_singleton_ne.
    + apply not_elem_of_list_to_map_1. rewrite address_keys. intros ([a x] & Ea & Hin)%list_elem_of_fmap.
      rewrite (btree_iter_perm m) in Hin. apply elem_of_map_to_list in Hin. simpl in Ea. congruence.
Qed.

Lemma valid_len id : validate id = Ok tt -> 0 <= str_len id <= 64.
Proof.
  unfold validate, MIN_LEN, MAX_LEN. destruct (Z.ltb_spec (str_len id) 2); [done|].
  destruct (Z.ltb_spec 64 (str_len id)); [done|]. lia.
Qed.

Lemma index_len target : vec_len (enc (vec_c string_c) [target]) = 8 + str_len target.
Proof.
  change (enc (vec_c string_c) [target]) with
    (le_enc 4 1 ++ ((le_enc 4 (vec_len (as_bytes target)) ++ flat_map (le_enc 1) (as_bytes target)) ++ [])).
  unfold vec_len. rewrite app_nil_r, !length_app, !le_enc_length.
  assert (forall l, length (flat_map (le_enc 1) l) = length l) as -> by 
    (induction l as [|c l IH]; [done|]; cbn [flat_map]; by rewrite length_app, IH, le_enc_length).
  rewrite !Nat2Z.inj_add, length_as_bytes_Z. lia.
Qed.

Lemma record_len floor : vec_len (enc patoshi_record_c (mkPatoshiRecord floor true None)) = 18.
Proof. reflexivity. Qed.

Lemma data_usage id k v : vec_len k <= 100 -> vec_len v <= 100 ->
  record_usage cfg (RecData id k v) = Ok (Some (id, num_extra_bytes_record cfg + vec_len k + vec_len v)).
Proof using Hset.
  intros Hk Hv. pose proof (se_record Hset) as [? ?]. unfold record_usage, add_or_panic, checked_add, u32_max in *.
  pose proof (Nat2Z.is_nonneg (length k)). pose proof (Nat2Z.is_nonneg (length v)). unfold vec_len in *.
  rewrite (proj2 (Z.leb_le _ _)) by (unfold u64_max; lia). cbn [unwrap rbind].
  by rewrite (proj2 (Z.leb_le _ _)) by (unfold u64_max; lia).
Qed.

Lemma write_lock m lock usage : accounts_ok m -> lock_ok m lock ->
  usage_ok (fun id => is_Some (get_account (start_state m None) id)) (2 ^ 42) usage ->
  exists usage', for_each (write_record cfg) (lock_records lock)
    (mkGenesisBatch (start_state m None) empty_queue [] usage)
    = Ok (mkGenesisBatch (start_state m lock) empty_queue [] usage')
  /\ usage_ok (fun id => is_Some (get_account (start_state m lock) id)) (2 ^ 43) usage'.
Proof using Hset.
  intros Hm Hl Hu. pose proof (se_record Hset) as [? ?]. unfold u32_max in *. destruct lock as [[target floor]|]; cycle 1.
  { exists usage. split; [done|]. eapply map_Forall_impl; [exact Hu|]. intros k v [? ?]. split; [done|lia]. }
  destruct Hl as [Ht _]. destruct (ao_ids _ Hm _ Ht) as (Hv & _). apply valid_len in Hv.
  pose proof (start_account m target Hm) as Et. destruct Ht as [x Ex]. rewrite Ex in Et.
  pose proof (start_account m TREASURY Hm) as En. destruct (m !! TREASURY) as [y|] eqn:Ey.
  { destruct (ao_ids _ Hm TREASURY) as (_ & _ & _ & ? & _); [eauto|done]. }
  rewrite decide_True in En by done. pose proof (index_len target) as Hlen. cbn [lock_records].
  set (rec := enc patoshi_record_c (mkPatoshiRecord floor true None)). set (ind := enc (vec_c string_c) [target]).
  set (P := fun id => is_Some (get_account (start_state m None) id)) in *.
  destruct (add_usage_ok P _ _ _ usage (2 ^ 42) (data_usage target PATOSHI_RECORD_DATA_KEY rec ltac:(done) ltac:(done)))
    as (u1 & E1 & O1); [|apply mk_is_Some in Et; exact Et|exact Hu|done|done|].
  { change (vec_len PATOSHI_RECORD_DATA_KEY) with 22. change (vec_len rec) with 18. lia. }
  destruct (add_usage_ok P _ _ _ u1 (2 ^ 42 + 2 ^ 40) (data_usage FOUNDATION_ACCOUNT_ID PATOSHI_INDEX_DATA_KEY ind ltac:(done) ltac:(unfold ind; lia)))
    as (u2 & E2 & O2); [|apply mk_is_Some in En; exact En|exact O1|done|done|].
  { change (vec_len PATOSHI_INDEX_DATA_KEY) with 28. unfold ind. lia. }
  exists u2. split.
  - cbn [for_each]. unfold write_record at 1. cbn [gb_usage]. rewrite E1. cbn [rbind].
    unfold write_record at 1. cbn [gb_usage]. rewrite E2. reflexivity.
  - unfold get_account. rewrite start_accounts_lock. eapply map_Forall_impl; [exact O2|]. intros k v [? ?]. split; [done|lia].
Qed.

Lemma write_spec m lock : accounts_ok m -> lock_ok m lock ->
  exists usage, for_each (write_record cfg) (loaded_records m lock) (mkGenesisBatch empty_state empty_queue [] ∅)
    = Ok (mkGenesisBatch (start_state m lock) empty_queue [] usage)
  /\ usage_ok (fun id => is_Some (get_account (start_state m lock) id)) (2 ^ 43) usage.
Proof using Hset.
  intros Hm Hl. pose proof (se_account Hset) as [Ha1 Ha2]. unfold u32_max in *.
  destruct write_header as (u & Eh & Hu).
  unfold loaded_records. change (?a :: ?b :: ?c :: ?d) with ([a; b; c] ++ d). rewrite for_each_app, Eh. cbn [rbind].
  rewrite for_each_app, write_addresses; [|apply iter_NoDup|].
  - cbn [rbind]. apply write_lock; [done|done|]. cbn [gb_usage header_batch].
    intros id w [Hw|[_ Hw]]%lookup_union_Some_raw.
    + apply elem_of_list_to_map_2, list_elem_of_fmap in Hw as ([a x] & [= -> ->] & Hin). split; [|lia].
      rewrite (btree_iter_perm m) in Hin. apply elem_of_map_to_list in Hin. rewrite start_account, Hin by done. eauto.
    + destruct (Hu _ _ Hw) as [Hop ?]. split; [|lia]. rewrite start_account by done.
      destruct (m !! id); [eauto|]. destruct Hop as [-> | ->]; repeat case_decide; try done; eauto.
  - intros id Hid. destruct (gb_usage (header_batch u) !! id) as [w|] eqn:E; [|done].
    destruct (Hu _ _ E) as [[-> | ->] _]; apply fresh_ids in Hid as (_ & _ & ? & ? & _); done.
Qed.

Lemma own_records ids l : Forall (fun r => state_record_to_account_id r ∈ ids) l -> forall b,
  for_each (write_own_record cfg ids) l b = for_each (write_record cfg) l b.
Proof.
  intros Hl. induction Hl as [|r l Hr _ IH]; intros b; [done|]. cbn [for_each].
  unfold write_own_record at 1. rewrite bool_decide_true by done. destruct (write_record cfg r b); cbn [rbind]; [apply IH|done..].
Qed.

(* ------------------------------------------------------------------ *)
(** ** Storage and stakes do not move tokens *)

Definition funds (a : Account) : Z * Z := (Primitives.amount a, locked a).

Record same_funds (s s' : State) : Prop := mk_same_funds {
  sf_funds : forall id, funds <$> get_account s' id = funds <$> get_account s id;
  sf_total : total_accounts s' = total_accounts s;
  sf_keys : st_access_keys s' = st_access_keys s;
  sf_data : st_contract_data s' = st_contract_data s;
  sf_receipts : st_receipts s' = st_receipts s;
}.

Lemma same_funds_refl s : same_funds s s.
Proof. done. Qed.

Lemma same_funds_set s s' id a a' :
  same_funds s s' -> get_account s' id = Some a -> funds a' = funds a -> same_funds s (set_account s' id a').
Proof.
  intros [H1 H2 H3 H4 H5] Ha Hf. split; try done.
  - intros i. rewrite <- H1. destruct (decide (i = id)) as [->|Hne].
    + rewrite get_set_account, Ha. simpl. by rewrite Hf.
    + by rewrite get_set_account_ne.
  - rewrite total_accounts_set, Ha, <- H2. simpl. unfold account_total. unfold funds in Hf. injection Hf as E1 E2. lia.
Qed.

Lemma same_funds_account s s' id a : same_funds s s' -> get_account s id = Some a ->
  exists a', get_account s' id = Some a' /\ funds a' = funds a.
Proof.
  intros [H _ _ _ _] Ha. specialize (H id). rewrite Ha in H. destruct (get_account s' id) as [a'|]; [|done].
  simpl in H. injection H as E1 E2. exists a'. split; [done|]. unfold funds. congruence.
Qed.

Lemma usage_spec s usage bound : usage_ok (fun id => is_Some (get_account s id)) bound usage ->
  exists s', for_each write_usage (map_to_list usage) s = Ok s' /\ same_funds s s'.
Proof.
  intros Hu. apply for_each_keeps; [apply same_funds_refl|]. intros [id u] s1 Hin Hs.
  apply elem_of_map_to_list in Hin. destruct (Hu _ _ Hin) as [[a Ha] _].
  destruct (same_funds_account _ _ _ _ Hs Ha) as (a' & Ha' & _). unfold write_usage. cbn [fst snd]. rewrite Ha'.
  eexists. split; [reflexivity|]. eapply same_funds_set; [done|exact Ha'|]. by destruct a'.
Qed.

Lemma apply_spec m lock ids : accounts_ok m -> lock_ok m lock ->
  Forall (fun r => state_record_to_account_id r ∈ ids) (loaded_records m lock) ->
  exists s, apply_genesis cfg (gc_validators (loaded_config m)) (loaded_records m lock) ids
    = Ok (mkShard s empty_queue ∅ (mkOutgoingMetadatas ∅ default_config) None)
  /\ same_funds (start_state m lock) s.
Proof using Hset.
  intros Hm Hl Hids. unfold apply_genesis. rewrite own_records by done.
  destruct (write_spec m lock Hm Hl) as (usage & -> & Hu). cbn [rbind gb_usage gb_state gb_postponed gb_delayed].
  destruct (usage_spec _ _ _ Hu) as (s & -> & Hs). cbn [rbind for_each loaded_config gc_validators].
  assert (va ∈ ids) as Hva by (apply Forall_cons in Hids as [? _]; done).
  unfold write_stake. rewrite bool_decide_true by done. cbn [negb].
  assert (get_account (start_state m lock) va = Some (node_account balance_yocto stake_yocto)) as Ea.
  { unfold get_account. rewrite start_accounts_lock. change (get_account (start_state m None) va = Some (node_account balance_yocto stake_yocto)).
    rewrite start_account by done. destruct (m !! va) eqn:E.
    - destruct (ao_ids _ Hm va) as (_ & _ & ? & _); [eauto|done].
    - rewrite decide_False, decide_True by (done || apply (se_va_treasury Hset)). done. }
  destruct (same_funds_account _ _ _ _ Hs Ea) as (a & Ea' & Hf). rewrite Ea'. cbn [rbind].
  eexists. split; [reflexivity|]. eapply same_funds_set; [done|exact Ea'|].
  unfold funds in *. injection Hf as E1 E2. destruct a; simpl in *; congruence.
Qed.

(* ------------------------------------------------------------------ *)
(** ** The state the chain starts in *)

Lemma total_addresses l : forall base : gmap AccountId Account,
  NoDup l.*1 -> (forall id, id ∈ l.*1 -> base !! id = None) ->
  map_fold (fun _ a acc => account_total a + acc) 0 (list_to_map (map address_account l) ∪ base)
  = map_fold (fun _ a acc => account_total a + acc) 0 base + yocto l.
Proof.
  induction l as [|[a x] l IH]; intros base Hnd Hf.
  { cbn [map list_to_map foldr]. rewrite map_empty_union. unfold yocto, zsum. simpl. lia. }
  rewrite fmap_cons in Hnd, Hf. apply NoDup_cons in Hnd as [Ha Hnd]. simpl in Ha, Hf.
  cbn [map]. change (address_account (a, x)) with (a, node_account (x * 10 ^ 16) 0).
  rewrite list_to_map_cons, <- insert_union_l, (sum_insert account_total).
  rewrite IH; [|done|intros id Hid; apply Hf; by right].
  assert ((list_to_map (map address_account l) ∪ base : gmap string Account) !! a = None) as ->.
  { apply lookup_union_None. split; [|apply Hf; left]. apply not_elem_of_list_to_map_1. by rewrite address_keys. }
  unfold yocto. rewrite zsum_cons. unfold account_total. simpl. lia.
Qed.

Lemma total_start m lock : accounts_ok m -> money (start_state m lock) = start_supply (sum_of m).
Proof using Hset.
  intros Hm. unfold money, total_accounts, total_gas_keys. rewrite start_accounts_lock.
  assert (st_access_keys (start_state m lock) = {[(va, ED25519 key) := full_access]}) as -> by (by destruct lock as [[]|]).
  cbn [st_accounts start_state]. rewrite total_addresses; [|apply iter_NoDup|].
  - rewrite (sum_insert account_total), lookup_singleton_ne by apply (se_va_treasury Hset).
    rewrite !map_fold_singleton, yocto_sum. unfold start_supply.
    change (default 0 (account_total <$> None)) with 0. change (key_balance full_access) with 0.
    change (account_total (node_account ?x ?y)) with (x + y). lia.
  - intros id Hid. apply fresh_ids in Hid as (_ & _ & ? & ? & _); [|done].
    rewrite lookup_insert_ne, lookup_singleton_ne; congruence.
Qed.

Lemma start_account_ok m lock s id a : accounts_ok m -> same_funds (start_state m lock) s ->
  get_account s id = Some a ->
  is_system id = false /\ is_u u128_max (Primitives.amount a) /\ 0 <= locked a.
Proof using Hset.
  intros Hm Hs Ha. pose proof (sf_funds _ _ Hs id) as Hf. unfold get_account in Hf at 2. rewrite start_accounts_lock in Hf.
  fold (get_account (start_state m None) id) in Hf. rewrite Ha, start_account in Hf by done.
  destruct (m !! id) as [x|] eqn:E.
  - destruct (ao_ids _ Hm id) as (_ & _ & _ & _ & Hsys); [eauto|].
    pose proof (ao_nonneg _ Hm _ _ E) as Hx. pose proof (held_le_sum m id (ao_nonneg _ Hm)) as Hle. pose proof (ao_sum _ Hm).
    unfold held_by in Hle. rewrite E in Hle. cbn [default] in Hle. unfold Datatypes.id in Hle.
    unfold funds in Hf. cbn in Hf. injection Hf as E1 E2. change (Z.pow_pos 10 16) with (10 ^ 16) in E1.
    unfold is_u, u128_max, MAX_MONEY in *. split; [done|]. lia.
  - case_decide as H1; [subst id|case_decide as H2; [subst id|done]]; unfold funds in Hf; cbn in Hf; injection Hf as E1 E2; rewrite E1, E2.
    + by split_and!.
    + split; [apply (se_va_system Hset)|done].
Qed.

Lemma start_key_ok m lock s id pk k : same_funds (start_state m lock) s ->
  get_access_key s id pk = Some k -> key_balance k = 0.
Proof.
  intros Hs. unfold get_access_key. rewrite (sf_keys _ _ Hs).
  assert (st_access_keys (start_state m lock) = {[(va, ED25519 key) := full_access]}) as -> by (by destruct lock as [[]|]).
  by intros [_ <-]%lookup_singleton_Some.
Qed.

Definition start_shard (s : State) : Shard :=
  mkShard s empty_queue ∅ (mkOutgoingMetadatas ∅ default_config) None.

Lemma start_shard_ok layout ap m lock s : accounts_ok m -> same_funds (start_state m lock) s ->
  shard_ok layout ap (start_shard s) /\ balances_nonneg s
  /\ shard_tokens ap (start_shard s) = start_supply (sum_of m).
Proof using Hset.
  intros Hm Hs. assert (st_receipts s = empty_receipts) as Er.
  { rewrite (sf_receipts _ _ Hs). by destruct lock as [[]|]. }
  split; [|split].
  - split; [|apply queue_abs_empty|by constructor|apply map_Forall_empty].
    split; cbn [sd_state start_shard]; rewrite ?Er; try apply map_Forall_empty.
    + intros id. unfold inv. destruct (get_account s id) as [a|] eqn:E; [by eapply start_account_ok in E as (_ & ? & _)|].
      split; [done|]. intros pk k. by eapply start_key_ok.
    + intros id Hsys. destruct (get_account s id) as [a|] eqn:E; [|done]. eapply start_account_ok in E as (? & _); [congruence|done|done].
  - split.
    + intros id a Ha. by eapply start_account_ok in Ha as (_ & [? _] & ?).
    + intros id pk k Hk. eapply start_key_ok in Hk; [|done]. lia.
  - unfold shard_tokens, start_shard, waiting. cbn [sd_state sd_delayed sd_buffers]. rewrite Er.
    change (values _ (stored_receipts empty_queue)) with 0. change (buffers_sum _ ∅) with 0.
    change (column_value _ _) with 0. change (column_value _ _) with 0.
    rewrite !Z.add_0_r. rewrite <- (total_start m lock Hm). unfold money, total_gas_keys.
    by rewrite (sf_total _ _ Hs), (sf_keys _ _ Hs).
Qed.

(** The records of the runtime, read back. *)
Lemma locked_data m target floor s :
  accounts_ok m -> lock_ok m (Some (target, floor)) -> same_funds (start_state m (Some (target, floor))) s ->
  let record := mkPatoshiRecord floor true None in
  get_patoshi_index s = Ok [target] /\ get_patoshi_record s target = Ok (Some record)
  /\ (forall p, p <> target -> get_patoshi_record s p = Ok None)
  /\ record_ok record
  /\ forall a, get_account s target = Some a -> genesis_balance record <= Primitives.amount a + locked a.
Proof using Hset.
  intros Hm [Ht Hfl] Hs record. destruct (ao_ids _ Hm _ Ht) as (Hv & Hstr & _ & Hnt & _). pose proof (valid_len _ Hv) as Hlen.
  unfold get_patoshi_index, get_patoshi_record, get_data. rewrite (sf_data _ _ Hs).
  set (s0 := start_state m None).
  change (st_contract_data (start_state m (Some (target, floor)))) with
    (st_contract_data (set_data (vec_c string_c) (set_patoshi_record s0 target record)
       FOUNDATION_ACCOUNT_ID PATOSHI_INDEX_DATA_KEY [target])).
  assert (record_ok record) as Hr.
  { split; [|done]. cbn [genesis_balance record]. pose proof (held_le_sum m target (ao_nonneg _ Hm)). pose proof (ao_sum _ Hm).
    unfold is_u, u128_max, MAX_MONEY in *. lia. }
  split; [|split; [|split; [|split; [done|]]]].
  - pose proof (get_set_data (vec_c string_c) _ (set_patoshi_record s0 target record) FOUNDATION_ACCOUNT_ID
      PATOSHI_INDEX_DATA_KEY [target] (vec_rt _ _ string_rt)) as H. unfold get_data in H.
    rewrite H; [cbn [rbind parse_accounts]; by rewrite Hv|].
    split; [done|]. apply Forall_singleton. split; [unfold u32_max; lia|done].
  - rewrite <- (get_set_patoshi_record s0 target record Hr). unfold get_patoshi_record, get_data.
    unfold set_data, set_contract_data at 1. cbn [st_contract_data]. rewrite lookup_insert_ne; [done|].
    intros H. apply (f_equal snd) in H. done.
  - intros p Hp. unfold set_patoshi_record, set_data, set_contract_data. cbn [st_contract_data].
    rewrite !lookup_insert_ne; [done|congruence|]. intros H. apply (f_equal snd) in H. done.
  - intros a Ha. pose proof (sf_funds _ _ Hs target) as Hf. rewrite Ha in Hf. unfold get_account in Hf.
    rewrite start_accounts_lock in Hf. fold (get_account (start_state m None) target) in Hf. rewrite start_account in Hf by done.
    unfold held_by in Hfl. destruct (m !! target) as [x|]; [|by destruct Ht]. unfold funds in Hf. cbn in Hf.
    injection Hf as E1 E2. rewrite E1, E2. cbn [genesis_balance record]. change (Z.pow_pos 10 16) with (10 ^ 16).
    cbn [default] in Hfl. unfold Datatypes.id in Hfl. lia.
Qed.

(* ------------------------------------------------------------------ *)
(** ** From the snapshot *)

(** What an address gets, in satoshis: its coins, unless they are reassigned, and the
    reassigned ones if it is the target. *)
Definition moved (dump : list TxOut) (addrs : list string) : Z := zsum (fun a => paid_to a dump) addrs.
Definition share (dump : list TxOut) (addrs : list string) (target addr : string) : Z :=
  (if decide (addr ∈ addrs) then 0 else paid_to addr dump)
  + (if decide (addr = target) then moved dump addrs else 0).

Record snapshot_ok (dump : list TxOut) (patoshi : option (list string)) (target : string) : Prop := mk_snapshot_ok {
  sn_outputs : outputs_ok dump;
  sn_sum : addressed dump <= MAX_MONEY;
  sn_len : vec_len dump <= u64_max;
  sn_ids : Forall (fun o => forall addr, to_address o = Some addr -> good_id addr) dump;
  sn_distinct : NoDup (default [] patoshi);
  sn_target : is_Some patoshi -> good_id target;
}.

Definition lock_of (dump : list TxOut) (addrs : list string) (target : string) : Lock :=
  if 0 <? moved dump addrs then Some (target, moved dump addrs * 10 ^ 16) else None.

Lemma aggregate_ok dump : outputs_ok dump -> addressed dump <= MAX_MONEY -> vec_len dump <= u64_max ->
  exists m, parse_and_aggregate (vec_len dump) dump = Ok m /\ nonneg m /\ sum_of m = addressed dump
  /\ (forall addr, held_by m addr = paid_to addr dump)
  /\ forall addr, is_Some (m !! addr) <-> exists o, o ∈ dump /\ to_address o = Some addr.
Proof.
  intros Ho Hs Hl. pose proof (addressed_nonneg dump Ho).
  destruct (aggregate_spec dump (mkAggregate ∅ 0 0 0)) as (A1 & A2 & A3 & A4 & A5);
    [done|apply map_Forall_empty|cbn [ag_balances]; unfold sum_of; rewrite map_fold_empty; unfold MAX_MONEY, u64_max in *; lia|done|cbn; lia|].
  eexists. unfold parse_and_aggregate. rewrite A5. cbn [ag_total_utxos]. rewrite Z.add_0_l, Z.eqb_refl.
  split; [reflexivity|]. cbn [ag_balances] in A2, A3, A4. split; [done|]. split; [rewrite A2; done|]. split.
  - intros addr. rewrite A3. unfold held_by. rewrite lookup_empty. simpl. lia.
  - intros addr. rewrite A4, lookup_empty. split; [by intros [[? ?]|?]|by right].
Qed.

Lemma generate_spec chain_id genesis_time dump patoshi target : snapshot_ok dump patoshi target ->
  exists m, generate_genesis b64_encode chain_id genesis_time va vk (vec_len dump) dump patoshi target
    = build b64_encode chain_id genesis_time m (validator_of va vk) (registry_of (lock_of dump (default [] patoshi) target))
  /\ accounts_ok m /\ lock_ok m (lock_of dump (default [] patoshi) target) /\ sum_of m = addressed dump
  /\ forall addr, held_by m addr = share dump (default [] patoshi) target addr.
Proof.
  intros [H1 H2 H3 H4 H5 H6]. destruct (aggregate_ok dump H1 H2 H3) as (m & Em & Hn & Hs & Hh & Hi).
  unfold generate_genesis. rewrite Em. cbn [rbind].
  assert (forall addr, is_Some (m !! addr) -> good_id addr) as Hids.
  { intros addr (o & Hin & Eo)%Hi. rewrite Forall_forall in H4. by eapply H4. }
  assert (forall l, zsum (held_by m) l = moved dump l) as Hz by (intros l; apply zsum_ext_in; intros; apply Hh).
  destruct patoshi as [addrs|]; cbn [default] in *.
  2:{ exists m. split; [done|]. split; [by split; [|lia|]|]. split; [done|]. split; [done|].
      intros addr. unfold share. rewrite decide_False by apply not_elem_of_nil. rewrite Hh.
      unfold moved, zsum. simpl. case_decide; lia. }
  unfold Datatypes.id in *. destruct (reassign_patoshi m addrs target) as [m' r] eqn:E.
  apply reassign_spec in E as (R1 & R2 & R3 & R4 & R5 & R6 & R7 & R8 & R9 & R10);
    [|done|done|unfold MAX_MONEY, u64_max in *; lia].
  rewrite Hz in R1. exists m'. split_and!.
  - unfold lock_of. rewrite <- R1. destruct (Z.ltb_spec 0 (total_satoshis r)); [|done]. rewrite R4. unfold wrapping_mul.
    rewrite Z.mod_small by (unfold MAX_MONEY, u128_max in *; lia). done.
  - split; [done|lia|]. intros addr Ha. destruct (decide (addr = target)) as [->|Hne]; [eauto|].
    apply Hids. rewrite R7 in Ha by done. case_decide; [by destruct Ha|done].
  - unfold lock_of. rewrite <- R1. destruct (Z.ltb_spec 0 (total_satoshis r)); [|done]. split; [by apply R9|].
    rewrite R8. pose proof (held_nonneg m target Hn). case_decide; lia.
  - congruence.
  - intros addr. unfold share. destruct (decide (addr = target)) as [->|Hne].
    + rewrite R8, R1, Hh. case_decide; lia.
    + rewrite Z.add_0_r, <- Hh. unfold held_by. rewrite R7 by done. by repeat case_decide.
Qed.

(** All of it. *)
Lemma genesis_run chain_id genesis_time dump patoshi target : snapshot_ok dump patoshi target ->
  let lock := lock_of dump (default [] patoshi) target in
  exists m g, generate_genesis b64_encode chain_id genesis_time va vk (vec_len dump) dump patoshi target = Ok g
  /\ load_genesis parse_public_key b64_decode g = Some (loaded_config m, loaded_records m lock)
  /\ written m lock g /\ accounts_ok m /\ lock_ok m lock /\ sum_of m = addressed dump
  /\ forall addr, held_by m addr = share dump (default [] patoshi) target addr.
Proof using Hset.
  intros Hsnap lock. destruct (generate_spec chain_id genesis_time dump patoshi target Hsnap) as (m & E & Hm & Hl & Hsum & Hsh).
  destruct (build_spec chain_id genesis_time m lock Hm) as (g & Eg & Hw).
  exists m, g. split; [by rewrite E|]. split; [by apply load_spec|]. done.
Qed.
End genesis.

(* ------------------------------------------------------------------ *)
(** ** A snapshot *)

Module SampleGenesis.

#[export] Instance crates : Crates := {|
  sha256 := Toy.digest 32;
  ripemd160 := Toy.digest 20;
  keccak256 := Toy.digest 32;
  bs58_encode := Toy.encode;
  bs58_decode := fun s => if bool_decide (s = NO_CODE_HASH) then Some hash_default else None;
  segwit_decode := fun _ => None;
  recover_ecdsa := fun _ _ => None;
  verify_ecdsa := fun _ _ _ => false;
  verify_ed25519 := fun _ _ _ => false;
  ed25519_torsion_free := fun k => (length k =? 32)%nat;
|}.

Definition b64_encode : list Z -> string := of_bytes.
Definition b64_decode (s : string) : option (list Z) := Some (as_bytes s).
Definition parse_public_key (_ : string) : option PublicKey := Some (ED25519 (replicate 32 7)).
Definition operator : string := "validator.near".
Definition operator_key : string := "ed25519:7".

Definition alice : string := "bc1qw508d6qejxtdg4y5r3zarvary0c5xw7kv8f3t4".
Definition bob : string := "bc1qar0srrr7xfkvy5l643lydnw9re59gtzzwf5mdq".
Definition miner : string := "bc1qrp33g0q5c5txsp9arysrx4k6zdkfs4nce4xj0gdcccefvpysxf3q0s".
Definition vault : string := "bc1qc7slrfxkknqcq2jevvvkdgvrt8080852dfjewd".

(** The output without an address is not carried over. *)
Definition dump : list TxOut :=
  [mkTxOut 5000000000 (Some miner); mkTxOut 1200000000 (Some alice); mkTxOut 300 None;
   mkTxOut 33 (Some bob); mkTxOut 800000000 (Some alice)].
Definition patoshi : option (list string) := Some [miner].

Lemma sample_setup : setup_ok b64_encode b64_decode parse_public_key test_storage_usage_config operator operator_key (replicate 32 7).
Proof.
  split; try (vm_compute; congruence); try (split; vm_compute; congruence).
  intros b Hb. unfold b64_decode, b64_encode. by rewrite as_bytes_of_bytes.
Qed.

Lemma sample_ids : Forall (good_id operator) [miner; alice; bob; vault].
Proof. repeat constructor; (vm_compute; congruence). Qed.

Lemma sample_snapshot : snapshot_ok operator dump patoshi vault.
Proof.
  pose proof sample_ids as H. rewrite !Forall_cons in H. destruct H as (H1 & H2 & H3 & H4 & _).
  split.
  - repeat constructor; vm_compute; congruence.
  - vm_compute. congruence.
  - vm_compute. congruence.
  - apply Forall_forall. intros o Ho addr Ea. unfold dump in Ho.
    repeat (apply elem_of_cons in Ho as [->|Ho]; [cbn in Ea; congruence|]). by apply elem_of_nil in Ho.
  - apply NoDup_singleton.
  - done.
Qed.

(** The records of every account. *)
Lemma owns_all (records : list StateRecord) :
  Forall (fun r => state_record_to_account_id r ∈ (list_to_set (map state_record_to_account_id records) : gset AccountId)) records.
Proof. apply Forall_forall. intros r Hr. apply elem_of_list_to_set, list_elem_of_fmap. eauto. Qed.
End SampleGenesis.
