(* ===== verification/SnapshotCheck.v ===== *)
(** * Checking the supply of a genesis (bitinfinity-tools/src/main.rs)

    Amounts of Bitcoin are read exactly; the supply of every genesis the tools write adds up;
    and the comparison with the snapshot fails for all of them. *)

From stdpp Require Import sorting.
From S2P Require Import Prelude Decimal Crates AccountId Primitives Errors Fees Borsh GenesisTools Wire BandwidthProofs.
From S2P Require Import GenesisState GenesisProofs GenesisLoad.

(* ------------------------------------------------------------------ *)
(** ** Amounts *)

Abbreviation digits := (Forall (fun c => is_ascii_digit c = true)).

(** What Bitcoin Core prints. *)
Definition btc_text (satoshis : Z) : list Z :=
  to_dec (satoshis / SATOSHIS_PER_BTC) ++ 46 :: pad_left 8 (to_dec (satoshis mod SATOSHIS_PER_BTC)).

Lemma digit_not c x : is_ascii_digit c = true -> is_ascii_digit x = false -> (x =? c) = false.
Proof. intros Hc Hx. apply Z.eqb_neq. congruence. Qed.

Lemma digit_space c : is_ascii_digit c = true -> is_whitespace c = false.
Proof. unfold is_ascii_digit, is_whitespace. lia. Qed.

Lemma trim_start_digit c l : is_ascii_digit c = true -> trim_start (c :: l) = c :: l.
Proof. intros Hc. simpl. by rewrite digit_space. Qed.

(** Nothing to trim between two digits. *)
Lemma trim_digits c l d : is_ascii_digit c = true -> is_ascii_digit d = true -> trim (c :: l ++ [d]) = c :: l ++ [d].
Proof.
  intros Hc Hd. unfold trim. rewrite trim_start_digit by done.
  rewrite app_comm_cons, rev_app_distr. change (rev [d] ++ rev (c :: l)) with (d :: rev (c :: l)).
  rewrite trim_start_digit by done. cbn [rev]. by rewrite rev_app_distr, rev_involutive.
Qed.

Lemma contains_digits x l : digits l -> is_ascii_digit x = false -> contains x l = false.
Proof. intros Hl Hx. induction Hl as [|c l Hc _ IH]; [done|]. cbn. by rewrite digit_not. Qed.

Lemma split_digits l : digits l -> split_on 46 l = [l].
Proof. induction 1 as [|c l Hc _ IH]; [done|]. simpl. rewrite Z.eqb_sym, (digit_not c 46), IH by done. done. Qed.

Lemma split_point l1 l2 : digits l1 -> digits l2 -> split_on 46 (l1 ++ 46 :: l2) = [l1; l2].
Proof.
  intros H1 H2. induction H1 as [|c l Hc _ IH]; simpl; [by rewrite split_digits|].
  rewrite Z.eqb_sym, (digit_not c 46), IH by done. done.
Qed.

Lemma forallb_digits l : digits l -> forallb is_ascii_digit l = true.
Proof. induction 1 as [|c l Hc _ IH]; [done|]. simpl. by rewrite Hc. Qed.

(** Any digits around a point. *)
Lemma parse_point l1 l2 w f :
  digits l1 -> digits l2 -> (0 < length l1)%nat -> length l2 = 8%nat ->
  dec_value 0 l1 = Some w -> dec_value 0 l2 = Some f -> w <= u128_max -> f <= u128_max ->
  w * SATOSHIS_PER_BTC + f <= u128_max -> 0 <= f -> 0 <= w ->
  parse_btc_amount_to_satoshis (l1 ++ 46 :: l2) = Ok (w * SATOSHIS_PER_BTC + f).
Proof.
  intros H1 H2 L1 L2 V1 V2 B1 B2 B3 F0 W0. destruct l1 as [|c l1]; [simpl in L1; lia|].
  assert (exists l d, l2 = l ++ [d] /\ is_ascii_digit d = true) as (l & d & E2 & Hd).
  { destruct (exists_last (l := l2)) as (l & d & ->); [by intros ->|]. exists l, d. split; [done|].
    apply Forall_app in H2 as [_ H2]. by apply Forall_cons in H2 as [? _]. }
  pose proof (Forall_cons_1 _ _ _ H1) as [Hc _]. unfold parse_btc_amount_to_satoshis.
  assert (trim ((c :: l1) ++ 46 :: l2) = (c :: l1) ++ 46 :: l2) as ->.
  { rewrite E2. change (46 :: l ++ [d]) with ((46 :: l) ++ [d]). rewrite app_assoc.
    change ((c :: l1) ++ 46 :: l) with (c :: (l1 ++ 46 :: l)). rewrite <- app_comm_cons. by apply trim_digits. }
  set (v := (c :: l1) ++ 46 :: l2).
  assert (forall A (x : list Z -> A) (y : A), match v with 43 :: rest => x rest | _ => y end = y) as Hplus.
  { intros A x y. unfold v. unfold is_ascii_digit in Hc. simpl. repeat case_match; done || lia. }
  assert (match v with 45 :: _ => true | _ => false end = false) as Hminus.
  { unfold v. unfold is_ascii_digit in Hc. simpl. repeat case_match; done || lia. }
  cbv zeta. change (match v with [] => Err (lit "BTC amount is empty") | _ => ?k end) with k. rewrite Hplus, Hminus.
  assert (forall x, is_ascii_digit x = false -> x <> 46 -> contains x v = false) as Hno.
  { intros x Hx Hp. unfold v, contains. rewrite existsb_app. fold (contains x (c :: l1)). rewrite contains_digits by done.
    cbn [existsb orb]. fold (contains x l2). rewrite contains_digits by done. by rewrite (proj2 (Z.eqb_neq _ _) Hp). }
  rewrite (Hno 101), (Hno 69) by done. cbn [orb]. unfold v. rewrite split_point by done. cbn [rbind].
  rewrite !forallb_digits by done. cbn [negb]. rewrite L2. cbn [Nat.ltb Nat.leb].
  rewrite (parse_digits u128_max (c :: l1) w) by (done || simpl; lia). cbn [ok_or rbind].
  unfold pad_right. rewrite L2, app_nil_r. rewrite (parse_digits u128_max l2 f) by (done || lia). cbn [ok_or rbind].
  unfold checked_mul, checked_add. rewrite !(proj2 (Z.leb_le _ _)) by lia. done.
Qed.

(** Amounts of Bitcoin are read exactly: the text of any amount with eight decimals gives
    back the number of satoshis, as far as 128 bits reach. *)
Theorem btc_amount_exact satoshis : 0 <= satoshis <= u128_max ->
  parse_btc_amount_to_satoshis (btc_text satoshis) = Ok satoshis.
Proof.
  intros H. pose proof (Z.div_mod satoshis SATOSHIS_PER_BTC ltac:(done)) as Hdm.
  pose proof (Z.mod_pos_bound satoshis SATOSHIS_PER_BTC ltac:(done)) as Hm.
  pose proof (Z.div_pos satoshis SATOSHIS_PER_BTC ltac:(lia) ltac:(done)) as Hd.
  set (w := satoshis / SATOSHIS_PER_BTC) in *. set (f := satoshis mod SATOSHIS_PER_BTC) in *.
  assert (w <= u128_max) as Hw by (unfold SATOSHIS_PER_BTC in *; lia).
  destruct (to_dec_spec w ltac:(lia)) as (l & E & Hl & Hlen & _ & _ & Hv).
  assert (0 <= f < 10 ^ Z.of_nat 8) as Hf by (change (10 ^ Z.of_nat 8) with SATOSHIS_PER_BTC; lia).
  assert (f <= u128_max) as Hf' by (unfold SATOSHIS_PER_BTC, u128_max in *; lia).
  destruct (pad_left_spec f 7 Hf Hf') as (P1 & P2 & P3).
  unfold btc_text. fold w f. rewrite E. rewrite (parse_point l _ w f); try done; try lia.
  - f_equal. lia.
Qed.

Lemma btc_amount_exact_witness : parse_btc_amount_to_satoshis (btc_text 2099999997690000) = Ok 2099999997690000.
Proof. apply btc_amount_exact. split; vm_compute; congruence. Defined.

(* ------------------------------------------------------------------ *)
(** ** The supply of a genesis *)

Lemma count_account id x l st : is_u u128_max x -> is_u u128_max l ->
  let '(computed, accounts, keys, data) := st in 0 <= computed -> computed + x + l <= u128_max ->
  count_record st (ToolAccount id (account_data x l)) = Ok (computed + x + l, accounts + 1, keys, data).
Proof.
  destruct st as [[[computed accounts] keys] data]. intros [Hx Hx2] [Hl Hl2] H0 Hs. unfold count_record, account_data. cbn [ad_amount ad_locked].
  rewrite !parse_to_dec by done. cbn [ok_or rbind]. unfold checked_add.
  rewrite (proj2 (Z.leb_le (computed + x) _)) by lia. cbn [ok_or rbind].
  by rewrite (proj2 (Z.leb_le _ _)) by lia.
Qed.

Lemma count_app l1 l2 st :
  count_records (l1 ++ l2) st = let? st := count_records l1 st in count_records l2 st.
Proof. revert st. induction l1 as [|r l1 IH]; intros st; [done|]. simpl. destruct (count_record st r); [apply IH|done..]. Qed.

Lemma count_addresses l : forall computed accounts keys data,
  Forall (fun p => 0 <= p.2 <= MAX_MONEY) l -> 0 <= computed -> computed + yocto l <= u128_max ->
  count_records (map account_record l) (computed, accounts, keys, data)
  = Ok (computed + yocto l, accounts + vec_len l, keys, data).
Proof.
  induction l as [|[a x] l IH]; intros computed accounts keys data Hl H0 Hs.
  { simpl. unfold yocto, zsum, vec_len. simpl. by rewrite !Z.add_0_r. }
  apply Forall_cons in Hl as [Hx Hl]. simpl in Hx. unfold yocto in *. rewrite zsum_cons in *. cbn [snd] in Hs.
  assert (0 <= zsum (fun p : string * Z => p.2 * 10 ^ 16) l) as Hp.
  { apply zsum_nonneg. eapply Forall_impl; [exact Hl|]. intros p [? ?]. lia. }
  cbn [map count_records]. pose proof (count_account a (x * 10 ^ 16) 0 (computed, accounts, keys, data)) as Hc.
  cbv beta iota in Hc. unfold account_record at 1. cbn [fst snd]. rewrite Hc; [|unfold is_u, MAX_MONEY, u128_max in *; lia|done|lia|lia].
  cbn [rbind]. rewrite IH by (done || lia). unfold vec_len. rewrite length_cons. do 4 f_equal; lia.
Qed.

Lemma count_data b64_encode registry st :
  exists n, count_records (patoshi_data b64_encode registry) st
  = let '(computed, accounts, keys, data) := st in Ok (computed, accounts, keys, data + n).
Proof.
  assert (forall l st, Forall (fun r => match r with ToolData _ _ _ => True | _ => False end) l ->
    count_records l st = let '(computed, accounts, keys, data) := st in Ok (computed, accounts, keys, data + vec_len l)) as H.
  { intros l s Hl. revert s. induction Hl as [|r l Hr _ IH]; intros [[[c a] k] d]; simpl.
    - unfold vec_len. simpl. by rewrite Z.add_0_r.
    - destruct r; [done|done|]. cbn [count_record rbind]. rewrite IH. unfold vec_len. rewrite length_cons. do 2 f_equal. lia. }
  eexists. rewrite H; [reflexivity|]. unfold patoshi_data. destruct registry as [|p l]; [constructor|].
  apply Forall_app. split; [|by constructor]. apply Forall_map, Forall_forall. by intros [].
Qed.

Section check.
Context {C : Crates}.
Variable b64_encode : list Z -> string.
Variable b64_decode : string -> option (list Z).
Variable parse_public_key : string -> option PublicKey.
Variable cfg : StorageUsageConfig.
Variables va vk : string.
Variable key : list Z.
Variables chain_id genesis_time target : string.
Variable dump : list TxOut.
Variable patoshi : option (list string).

Hypothesis Hset : setup_ok b64_encode b64_decode parse_public_key cfg va vk key.
Hypothesis Hsnap : snapshot_ok va dump patoshi target.

Abbreviation generated :=
  (generate_genesis b64_encode chain_id genesis_time va vk (vec_len dump) dump patoshi target).

Lemma summary_spec m lock g : accounts_ok va m -> written b64_encode va vk m lock g ->
  exists accounts keys data, summarize_genesis g
    = Ok (mkSummary (start_supply (sum_of m)) (start_supply (sum_of m)) true (vec_len (g_records g)) accounts keys data).
Proof using Hset.
  intros Hm (_ & E2 & _ & _ & _ & _ & E7). unfold summarize_genesis. rewrite E2, E7.
  pose proof (ao_sum _ _ Hm) as Hs. pose proof (sum_of_nonneg _ (ao_nonneg _ _ Hm)) as Hp.
  assert (0 <= start_supply (sum_of m) <= u128_max) as Hb
    by (unfold start_supply, balance_yocto, stake_yocto, treasury_balance, MAX_MONEY, u128_max in *; lia).
  rewrite parse_to_dec by done. cbn [ok_or rbind].
  change (?a :: ?b :: ?c :: ?d) with ([a; b; c] ++ d). rewrite count_app.
  change (count_records [_; _; _] _) with (@Ok (Z * Z * Z * Z) message (balance_yocto + stake_yocto + treasury_balance, 2, 1, 0)).
  cbn [rbind]. rewrite count_app, count_addresses.
  - cbn [rbind]. destruct (count_data b64_encode (btree_iter (registry_of lock))
      (balance_yocto + stake_yocto + treasury_balance + yocto (btree_iter m), 2 + vec_len (btree_iter m), 1, 0)) as (n & ->).
    cbn [rbind]. rewrite yocto_sum. change (balance_yocto + _ + _ + _) with (start_supply (sum_of m)). rewrite Z.eqb_refl. eauto.
  - eapply Forall_impl; [by apply (iter_ok va)|]. by intros p [_ ?].
  - done.
  - rewrite yocto_sum. change (balance_yocto + _ + _ + _) with (start_supply (sum_of m)). lia.
Qed.

(** The comparison with the snapshot rejects every genesis the tools write.  The genesis
    itself adds up, but its total contains the 51,000,001 BIT of the operator, which no
    snapshot has: whatever total within the limit of Bitcoin is reported for the snapshot,
    and whatever tolerance below 30 million coins is given, [VerifySnapshotSupply] fails. *)
Theorem snapshot_check_rejects g total_amount snapshot tolerance_sats :
  generated = Ok g -> parse_btc_amount_to_satoshis total_amount = Ok snapshot ->
  snapshot <= MAX_MONEY -> tolerance_sats < 30000000 * SATOSHIS_PER_BTC ->
  (exists summary, summarize_genesis g = Ok summary /\ reconciled summary = true)
  /\ verify_snapshot_supply g total_amount tolerance_sats
     = Err (Msg "Snapshot supply reconciliation failed: diff {} sats exceeds tolerance {} sats"
              [FZ (51000001 * SATOSHIS_PER_BTC + addressed dump - snapshot); FZ tolerance_sats]).
Proof using Hset Hsnap.
  intros Eg Et Hsn Htol.
  destruct (genesis_run _ _ _ _ _ _ _ Hset chain_id genesis_time _ _ _ Hsnap) as (m & g' & E & _ & Hw & Hm & _ & Hsum & _).
  rewrite E in Eg. injection Eg as ->. destruct (summary_spec _ _ _ Hm Hw) as (a & k & d & Es).
  split; [eauto|]. unfold verify_snapshot_supply. rewrite Es, Et. cbn [rbind reconciled negb computed_total_yocto].
  pose proof (addressed_nonneg dump (sn_outputs _ _ _ _ Hsnap)) as Hpos.
  assert (start_supply (sum_of m) = (51000001 * SATOSHIS_PER_BTC + addressed dump) * YOCTO_PER_SATOSHI) as ->.
  { unfold start_supply, balance_yocto, stake_yocto, treasury_balance, SATOSHIS_PER_BTC, YOCTO_PER_SATOSHI. rewrite Hsum. lia. }
  unfold yocto_to_satoshis_exact. rewrite Z.mod_mul, Z.div_mul by done. cbn [Z.eqb negb rbind].
  unfold MAX_MONEY, SATOSHIS_PER_BTC in *.
  rewrite Z.abs_eq by lia. by rewrite (proj2 (Z.ltb_lt _ _)) by lia.
Qed.
End check.

Lemma snapshot_check_rejects_witness : exists g e,
  generate_genesis SampleGenesis.b64_encode "bitinfinity" "2026-01-01" SampleGenesis.operator SampleGenesis.operator_key
    5 SampleGenesis.dump SampleGenesis.patoshi SampleGenesis.vault = Ok g
  /\ verify_snapshot_supply g (btc_text 7000000333) 0 = Err e.
Proof.
  destruct (genesis_run _ _ _ _ _ _ _ SampleGenesis.sample_setup "bitinfinity" "2026-01-01" _ _ _ SampleGenesis.sample_snapshot) as (m & g & Eg & _).
  exists g. eexists. split; [exact Eg|].
  eapply (snapshot_check_rejects _ _ _ _ _ _ _ "bitinfinity" "2026-01-01" SampleGenesis.vault SampleGenesis.dump SampleGenesis.patoshi
    SampleGenesis.sample_setup SampleGenesis.sample_snapshot g (btc_text 7000000333) 7000000333 0 Eg);
    vm_compute; congruence.
Defined.
