(* ===== verification/GenesisChain.v ===== *)
(** * The chain starts with the coins of the snapshot

    The theorems on the genesis: the node accepts what the tools write, every address
    starts with its coins, the Patoshi coins start locked, and the command that compares
    the supply with the snapshot rejects every genesis the tools write. *)

From stdpp Require Import sorting.
From S2P Require Import Prelude Decimal Crates AccountId Primitives Errors Fees Borsh GenesisTools Wire ReceiptWire ShardLayout.
From S2P Require Import Bandwidth BandwidthProofs TrieQueue OutgoingMetadata State BitcoinTx RuntimeTypes Validation Congestion Scheduling SinkProofs.
From S2P Require Import Actions Runtime Receipts Conservation Validators Transactions ReceiptConservation ReceiptFrames ChunkSafety Supply Apply Chunk.
From S2P Require Import GenesisState GenesisProofs GenesisLoad.

(* ------------------------------------------------------------------ *)
(** ** What a file that the node reads was made from *)

Lemma aggregated_in dump addr : forall a,
  is_Some (ag_balances a !! addr) \/ (exists o, o ∈ dump /\ to_address o = Some addr) ->
  is_Some (ag_balances (fold_left add_txout dump a) !! addr).
Proof.
  induction dump as [|o dump IH]; intros a H; cbn [fold_left].
  { destruct H as [H|(o & Ho & _)]; [done|by apply elem_of_nil in Ho]. }
  apply IH. destruct H as [H|(o' & [->|Ho]%elem_of_cons & Ea)]; [left|left|right; eauto].
  - unfold add_txout, credit. destruct (to_address o) as [b|]; [|done]. cbn [ag_balances].
    destruct (decide (b = addr)) as [->|Hne]; [rewrite lookup_insert_eq; eauto|by rewrite lookup_insert_ne].
  - unfold add_txout, credit. rewrite Ea. cbn [ag_balances]. rewrite lookup_insert_eq. eauto.
Qed.

Lemma reassigned_in m addrs target addr :
  addr ∉ addrs -> is_Some (m !! addr) -> is_Some ((reassign_patoshi m addrs target).1 !! addr).
Proof.
  intros Hn Hm. unfold reassign_patoshi.
  assert (forall t c, (fold_left remove_patoshi addrs (m, t, c)).1.1 !! addr = m !! addr) as Hr.
  { clear Hm. revert m. induction addrs as [|b addrs IH]; intros m t c; cbn [fold_left]; [done|].
    apply not_elem_of_cons in Hn as [Hb Hn]. unfold remove_patoshi at 2.
    destruct (m !! b); rewrite IH by done; [by rewrite lookup_delete_ne|done]. }
  specialize (Hr 0 0). destruct (fold_left remove_patoshi addrs (m, 0, 0)) as [[m' t] c]. cbn [fst] in *.
  destruct (0 <? t); [|by rewrite Hr]. unfold credit.
  destruct (decide (target = addr)) as [->|Hne]; [rewrite lookup_insert_eq; eauto|by rewrite lookup_insert_ne, Hr].
Qed.

Lemma add_addresses_in va l : forall records total records' total',
  add_addresses va l records total = Ok (records', total') ->
  records ⊆ records'
  /\ forall addr x, (addr, x) ∈ l ->
       addr = va \/ addr = TREASURY \/ exists d, ToolAccount addr d ∈ records'.
Proof.
  induction l as [|[b y] l IH]; intros records total records' total' H; simpl in H.
  { injection H as <- <-. split; [done|]. intros addr x Hin. by apply elem_of_nil in Hin. }
  destruct (bool_decide (b = va) || bool_decide (b = TREASURY)) eqn:Eb.
  - apply IH in H as [H1 H2]. split; [done|]. intros addr x [[= -> ->]|Hin]%elem_of_cons; [|by eapply H2].
    apply orb_true_iff in Eb as [Eb|Eb]; apply bool_decide_eq_true in Eb; auto.
  - apply rbind_Ok in H as (t & _ & H). apply IH in H as [H1 H2]. split.
    + intros r Hr. apply H1, elem_of_app. by left.
    + intros addr x [[= -> ->]|Hin]%elem_of_cons; [|by eapply H2]. right. right. eexists.
      apply H1, elem_of_app. right. by left.
Qed.

Section needed.
Context {C : Crates}.
Variable b64_encode : list Z -> string.
Variable b64_decode : string -> option (list Z).
Variable parse_public_key : string -> option PublicKey.

Lemma parse_inv id x : parse_account_id id = Some x -> validate id = Ok tt.
Proof. unfold parse_account_id. by destruct (validate id) as [[]| |]. Qed.

Lemma load_inv g r : load_genesis parse_public_key b64_decode g = Some r ->
  Forall (fun v => is_Some (load_validator parse_public_key v)) (g_validators g)
  /\ Forall (fun x => is_Some (load_record parse_public_key b64_decode x)) (g_records g).
Proof.
  unfold load_genesis. intros H.
  destruct (mapM (load_validator parse_public_key) (g_validators g)) as [vs|] eqn:Ev; [|done].
  destruct (parse_uint _ _); [|done].
  destruct (mapM (load_record parse_public_key b64_decode) (g_records g)) as [rs|] eqn:Er; [|done].
  split; apply mapM_is_Some; eauto.
Qed.

Lemma build_writes_ids chain_id genesis_time m va vk registry g :
  build b64_encode chain_id genesis_time m (validator_of va vk) registry = Ok g ->
  (exists stake, g_validators g = [mkValidatorInfo va vk stake])
  /\ forall addr, is_Some (m !! addr) ->
       addr = va \/ addr = TREASURY \/ exists d, ToolAccount addr d ∈ g_records g.
Proof.
  intros H. unfold build in H.
  destruct (bool_decide (TREASURY = _)); apply rbind_Ok in H as ([records total] & E & [= <-]);
    apply add_addresses_in in E as [_ Hin]; (split; [by eexists|]); intros addr [x Hx];
    (destruct (Hin addr x) as [?|[?|[d Hd]]];
      [rewrite (btree_iter_perm m); by apply elem_of_map_to_list|by left|by right; left|]);
    right; right; exists d; apply elem_of_app; by left.
Qed.

Lemma build_loads_ids chain_id genesis_time m va vk registry g r :
  build b64_encode chain_id genesis_time m (validator_of va vk) registry = Ok g ->
  load_genesis parse_public_key b64_decode g = Some r ->
  validate va = Ok tt /\ is_Some (parse_public_key vk)
  /\ forall addr, is_Some (m !! addr) -> validate addr = Ok tt.
Proof.
  intros [[stake Ev] Hin]%build_writes_ids [Hv Hr]%load_inv.
  rewrite Ev in Hv. apply Forall_singleton in Hv as [v Hv]. unfold load_validator in Hv. cbn in Hv.
  destruct (parse_account_id va) as [q|] eqn:Eva; [|done]. apply parse_inv in Eva.
  destruct (parse_public_key vk) as [pk|]; [|done]. split_and!; [done|eauto|].
  intros addr Ha. destruct (Hin addr Ha) as [->|[->|[d Hd]]]; [done|apply treasury_valid|].
  rewrite Forall_forall in Hr. destruct (Hr _ Hd) as [sr Hsr]. unfold load_record in Hsr.
  destruct (parse_account_id addr) as [i|] eqn:Ei; [by apply parse_inv in Ei|done].
Qed.

Lemma generated_loads_ids chain_id genesis_time va vk n dump patoshi target g r :
  generate_genesis b64_encode chain_id genesis_time va vk n dump patoshi target = Ok g ->
  load_genesis parse_public_key b64_decode g = Some r ->
  validate va = Ok tt /\ is_Some (parse_public_key vk)
  /\ forall o addr, o ∈ dump -> to_address o = Some addr -> addr ∉ default [] patoshi ->
       validate addr = Ok tt.
Proof.
  unfold generate_genesis. intros (m & Em & H)%rbind_Ok Hl.
  assert (Hm : forall o addr, o ∈ dump -> to_address o = Some addr -> is_Some (m !! addr)).
  { intros o addr Ho Ea. unfold parse_and_aggregate in Em. destruct (negb _); [done|]. injection Em as <-.
    apply aggregated_in. right. eauto. }
  destruct patoshi as [addrs|]; cbn [default] in *.
  - pose proof (reassigned_in m addrs target) as Hre. destruct (reassign_patoshi m addrs target) as [m' q].
    destruct (0 <? total_satoshis q); apply (fun x => build_loads_ids _ _ _ _ _ _ _ _ x Hl) in H as (H1 & H2 & H3);
      (split_and!; [done|done|]); intros o addr Ho Ea Hn; apply H3, Hre; eauto.
  - apply (fun x => build_loads_ids _ _ _ _ _ _ _ _ x Hl) in H as (H1 & H2 & H3). split_and!; [done|done|].
    intros o addr Ho Ea _. by eapply H3, Hm.
Qed.
End needed.

Section theorems.
Context {C : Crates}.
Variable b64_encode : list Z -> string.
Variable b64_decode : string -> option (list Z).
Variable parse_public_key : string -> option PublicKey.
Variable cfg : StorageUsageConfig.
Variables va vk : string.
Variable key : list Z.
Variables chain_id genesis_time target : string.
Variable dump : list TxOut.
Variable patoshi : option (list string).

Abbreviation addrs := (default [] patoshi) (only parsing).
Abbreviation generated :=
  (generate_genesis b64_encode chain_id genesis_time va vk (vec_len dump) dump patoshi target).
Abbreviation loaded g := (load_genesis parse_public_key b64_decode g).

(** C15. When the node accepts a genesis that the tools write.  Suppose the operator's
    account id is valid and neither the treasury nor the system account, the operator's
    key parses as a valid ed25519 staking key, the outputs of the snapshot are in range
    with at most 21 million coins in all, every address in it (and the Patoshi target) is
    a valid account id of its own, and no Patoshi address is listed twice.  Then the
    command succeeds, the node parses every record of the file (amounts, account ids, keys
    and data) and validation finds nothing wrong; in particular the declared total supply is
    the sum of the records, the staked accounts are the validators, and no account is listed
    twice.  The tools check none of the names, and validity is needed: whatever they are
    given, a file that the node parses has a valid operator id, a key that parses, and a
    valid account id for every address that was not removed as Patoshi. *)
Theorem genesis_accepted :
  (setup_ok b64_encode b64_decode parse_public_key cfg va vk key -> snapshot_ok va dump patoshi target ->
   exists g gcfg records,
     generated = Ok g /\ loaded g = Some (gcfg, records) /\ validate_genesis gcfg records = Ok [])
  /\ (forall g r, generated = Ok g -> loaded g = Some r ->
      validate va = Ok tt /\ is_Some (parse_public_key vk)
      /\ forall o addr, o ∈ dump -> to_address o = Some addr -> addr ∉ addrs -> validate addr = Ok tt).
Proof.
  split; [|apply generated_loads_ids]. intros Hset Hsnap.
  destruct (genesis_run _ _ _ _ _ _ _ Hset chain_id genesis_time _ _ _ Hsnap) as (m & g & E & El & _ & Hm & _).
  do 3 eexists. split; [exact E|]. split; [exact El|by eapply validate_spec].
Qed.

Hypothesis Hset : setup_ok b64_encode b64_decode parse_public_key cfg va vk key.
Hypothesis Hsnap : snapshot_ok va dump patoshi target.

(** C2. What a chain that starts from a snapshot holds.  The node writes the loaded records
    without failing into a shard in the state that the theorems on chunks ask for.  Its
    tokens, in accounts, gas keys and receipts, are exactly the declared supply, which is
    the coins of the snapshot that have an address, at 10^16 each, and 51,000,001 BIT that
    no snapshot output pays for: the operator's stake of 50,000,000, their liquid
    1,000,000, and 1 of the treasury.  Outputs without an address are not carried over.
    Every address of its own holds what the snapshot pays to it and nothing staked, the
    coins of the Patoshi addresses having gone to the target.  The operator's account
    and key, the addresses and the outputs are assumed valid, with at most 21 million
    coins in all. *)
Theorem genesis_holds_snapshot g gcfg records ids layout ap :
  generated = Ok g -> loaded g = Some (gcfg, records) ->
  Forall (fun r => state_record_to_account_id r ∈ ids) records ->
  exists sh, apply_genesis cfg (gc_validators gcfg) records ids = Ok sh
  /\ shard_ok layout ap sh /\ balances_nonneg (sd_state sh)
  /\ shard_tokens ap sh = gc_total_supply gcfg
  /\ gc_total_supply gcfg = 51000001 * ONE_BIT + addressed dump * ONE_SATOSHI_IN_YOCTOBIT
  /\ (forall addr, good_id va addr ->
       default 0 (Primitives.amount <$> get_account (sd_state sh) addr)
       = share dump addrs target addr * ONE_SATOSHI_IN_YOCTOBIT
       /\ default 0 (locked <$> get_account (sd_state sh) addr) = 0)
  /\ funds <$> get_account (sd_state sh) va = Some (1000000 * ONE_BIT, 50000000 * ONE_BIT)
  /\ funds <$> get_account (sd_state sh) TREASURY = Some (ONE_BIT, 0).
Proof using Hset Hsnap.
  intros Eg El Hids.
  destruct (genesis_run _ _ _ _ _ _ _ Hset chain_id genesis_time _ _ _ Hsnap) as (m & g' & E & El' & _ & Hm & Hl & Hsum & Hshare).
  rewrite E in Eg. injection Eg as ->. rewrite El' in El. injection El as <- <-.
  destruct (apply_spec _ _ _ _ _ _ _ Hset _ _ ids Hm Hl Hids) as (s & Ea & Hs). exists (start_shard s). split; [exact Ea|].
  destruct (start_shard_ok _ _ _ _ _ _ _ Hset layout ap _ _ _ Hm Hs) as (O1 & O2 & O3).
  split; [done|]. split; [done|]. split; [exact O3|]. split.
  { unfold loaded_config, start_supply. cbn [gc_total_supply]. rewrite Hsum.
    unfold balance_yocto, stake_yocto, treasury_balance, ONE_BIT, ONE_SATOSHI_IN_YOCTOBIT. lia. }
  assert (Hf : forall id, funds <$> get_account s id = funds <$> get_account (start_state va key m None) id).
  { intros id. rewrite (sf_funds _ _ Hs id). unfold get_account at 1. by rewrite start_accounts_lock. }
  assert (Hown : forall id, id = va \/ id = TREASURY -> m !! id = None).
  { intros id Hid. destruct (m !! id) as [x|] eqn:Ex; [|done]. exfalso.
    destruct (ao_ids _ _ Hm id) as (_ & _ & ? & ? & _); [eauto|]. by destruct Hid. }
  cbn [sd_state start_shard]. split_and!.
  - intros addr (_ & _ & Hne & Hnt & _). rewrite <- Hshare. specialize (Hf addr).
    rewrite (start_account _ _ _ _ _ _ _ Hset) in Hf by done. unfold held_by.
    destruct (m !! addr) as [x|]; [|rewrite !decide_False in Hf by done];
      destruct (get_account s addr) as [a|]; try done; unfold funds in Hf; cbn in Hf.
    injection Hf as E1 E2. split; [exact E1|exact E2].
  - rewrite Hf, (start_account _ _ _ _ _ _ _ Hset), Hown by auto.
    rewrite decide_False by apply (se_va_treasury _ _ _ _ _ _ _ Hset). by rewrite decide_True.
  - rewrite Hf, (start_account _ _ _ _ _ _ _ Hset), Hown by auto. by rewrite decide_True.
Qed.

(** C16. The Patoshi coins start locked.  When the listed addresses hold anything, the state
    has, under the keys and in the encoding of the runtime, an index that lists the
    target and nothing else, and a record of the target that is locked, without a
    scheduled unlock, with the moved coins as floor; the floor is covered by the balance of
    the target, and so is every floor of the state. *)
Theorem genesis_locks_patoshi g gcfg records ids ap sh :
  generated = Ok g -> loaded g = Some (gcfg, records) ->
  Forall (fun r => state_record_to_account_id r ∈ ids) records ->
  apply_genesis cfg (gc_validators gcfg) records ids = Ok sh -> 0 < moved dump addrs ->
  let record := mkPatoshiRecord (moved dump addrs * ONE_SATOSHI_IN_YOCTOBIT) true None in
  get_patoshi_index (sd_state sh) = Ok [target]
  /\ get_patoshi_record (sd_state sh) target = Ok (Some record)
  /\ (forall epoch, is_patoshi_locked record epoch = true)
  /\ (forall p, p <> target -> get_patoshi_record (sd_state sh) p = Ok None)
  /\ forall p, keeps_floor ap (sd_state sh) p.
Proof using Hset Hsnap.
  intros Eg El Hids Eapp Hpos record.
  destruct (genesis_run _ _ _ _ _ _ _ Hset chain_id genesis_time _ _ _ Hsnap) as (m & g' & E & El' & _ & Hm & Hl & Hsum & Hshare).
  rewrite E in Eg. injection Eg as ->. rewrite El' in El. injection El as <- <-.
  destruct (apply_spec _ _ _ _ _ _ _ Hset _ _ ids Hm Hl Hids) as (s & Ea & Hs).
  rewrite Ea in Eapp. injection Eapp as <-. cbn [sd_state].
  assert (lock_of dump addrs target = Some (target, moved dump addrs * 10 ^ 16)) as Elock
    by (unfold lock_of; by rewrite (proj2 (Z.ltb_lt _ _) Hpos)).
  rewrite Elock in *. destruct (locked_data _ _ _ _ _ _ _ Hset _ _ _ _ Hm Hl Hs) as (D1 & D2 & D3 & D4 & D5).
  split; [done|]. split; [exact D2|]. split; [done|]. split; [done|].
  intros p rec Hrec. destruct (decide (p = target)) as [->|Hne]; [|rewrite D3 in Hrec by done; done].
  rewrite D2 in Hrec. injection Hrec as <-. split; [exact D4|]. intros _. exact D5.
Qed.
End theorems.

(* ------------------------------------------------------------------ *)
(** ** On a snapshot *)

Module Samples.
Import SampleGenesis.

Abbreviation sample_generated :=
  (generate_genesis b64_encode "bitinfinity" "2026-01-01" operator operator_key 5 dump patoshi vault) (only parsing).

Lemma sample_run : exists g gcfg records,
  sample_generated = Ok g /\ load_genesis parse_public_key b64_decode g = Some (gcfg, records).
Proof.
  destruct (genesis_run _ _ _ _ _ _ _ sample_setup "bitinfinity" "2026-01-01" _ _ _ sample_snapshot) as (m & g & E & El & _).
  eauto.
Qed.

Lemma genesis_accepted_witness : exists g gcfg records,
  sample_generated = Ok g /\ load_genesis parse_public_key b64_decode g = Some (gcfg, records)
  /\ validate_genesis gcfg records = Ok [].
Proof.
  exact (proj1 (genesis_accepted _ _ _ _ _ _ _ "bitinfinity" "2026-01-01" _ _ _) sample_setup sample_snapshot).
Defined.

(** The vault of the reassigned coins starts with those of the miner, Alice with the sum of two outputs. *)
Lemma genesis_holds_snapshot_witness : exists gcfg records ids sh,
  apply_genesis test_storage_usage_config (gc_validators gcfg) records ids = Ok sh
  /\ gc_total_supply gcfg = 51000001 * ONE_BIT + 7000000033 * 10 ^ 16
  /\ default 0 (Primitives.amount <$> get_account (sd_state sh) vault) = 5000000000 * 10 ^ 16
  /\ default 0 (Primitives.amount <$> get_account (sd_state sh) alice) = 2000000000 * 10 ^ 16
  /\ default 0 (Primitives.amount <$> get_account (sd_state sh) miner) = 0.
Proof.
  destruct sample_run as (g & gcfg & records & E & El).
  destruct (genesis_holds_snapshot _ _ _ _ _ _ _ "bitinfinity" "2026-01-01" _ _ _ sample_setup sample_snapshot
    g gcfg records _ one_shard chunk_apply E El (owns_all records)) as (sh & Ea & _ & _ & _ & Et & Hb & _).
  pose proof sample_ids as H. rewrite !Forall_cons in H. destruct H as (H1 & H2 & H3 & H4 & _).
  do 4 eexists. split; [exact Ea|]. split; [rewrite Et; vm_compute; reflexivity|].
  split; [rewrite (proj1 (Hb _ H4)); vm_compute; reflexivity|].
  split; [rewrite (proj1 (Hb _ H2)); vm_compute; reflexivity|].
  rewrite (proj1 (Hb _ H1)). vm_compute. reflexivity.
Defined.

Lemma genesis_locks_patoshi_witness : exists gcfg records ids sh,
  apply_genesis test_storage_usage_config (gc_validators gcfg) records ids = Ok sh
  /\ get_patoshi_index (sd_state sh) = Ok [vault]
  /\ get_patoshi_record (sd_state sh) vault = Ok (Some (mkPatoshiRecord (5000000000 * 10 ^ 16) true None)).
Proof.
  destruct (genesis_run _ _ _ _ _ _ _ sample_setup "bitinfinity" "2026-01-01" _ _ _ sample_snapshot) as (m & g & E & El & _ & Hm & Hl & _).
  destruct (apply_spec _ _ _ _ _ _ _ sample_setup _ _ _ Hm Hl (owns_all _)) as (s & Ea & _).
  destruct (genesis_locks_patoshi _ _ _ _ _ _ _ "bitinfinity" "2026-01-01" _ _ _ sample_setup sample_snapshot
    g _ _ _ chunk_apply _ E El (owns_all _) Ea) as (H1 & H2 & _); [vm_compute; reflexivity|].
  do 4 eexists. split; [exact Ea|]. split; [exact H1|exact H2].
Defined.
End Samples.
