(* ===== verification/LegacyCase.v ===== *)
(** * Upper-case addresses between the genesis and the server

    The genesis keeps the case of the addresses of the snapshot
    (bitinfinity-tools/src/genesis_builder.rs), and the translation of Bitcoin
    transactions (bitinfinity-btcrpc/src/tx_translator.rs) puts every address in lower
    case: the accounts of legacy addresses are out of its reach. *)

From S2P Require Import Prelude Crates AccountId Bech32 Addresses Borsh GenesisTools GenesisProofs Wallet RpcToy Translator SignSend.

Definition not_upper (b : Z) : bool := negb ((65 <=? b) && (b <=? 90)).
Definition lower (s : string) : bool := forallb not_upper (as_bytes s).

Lemma lower_fixed s : lower s = true -> to_lowercase s = s.
Proof.
  intros H. unfold to_lowercase. rewrite <- (of_bytes_as_bytes s) at 2. f_equal. unfold lower in H.
  induction (as_bytes s) as [|b l IH]; [done|]. simpl in *. apply andb_prop in H as [Hb Hl].
  unfold not_upper in Hb. rewrite (IH Hl). by destruct ((65 <=? b) && (b <=? 90)).
Qed.

Lemma lower_to_lowercase s : lower (to_lowercase s) = true.
Proof.
  unfold lower, to_lowercase. pose proof (as_bytes_ok s) as Hok. rewrite as_bytes_of_bytes.
  - apply forallb_forall. intros x (b & <- & _)%in_map_iff. unfold not_upper.
    destruct ((65 <=? b) && (b <=? 90)) eqn:E; [lia|by rewrite E].
  - apply Forall_map. eapply Forall_impl; [exact Hok|]. intros b Hb. simpl.
    unfold is_byte in *. destruct ((65 <=? b) && (b <=? 90)) eqn:E; lia.
Qed.

(** Every character of the Bech32 alphabet, and what is read beyond it. *)
Lemma charset_lower d : is_byte (charset_at d) /\ not_upper (charset_at d) = true.
Proof.
  unfold charset_at. destruct (nth_in_or_default (Z.to_nat d) CHARSET 0) as [H| ->].
  - assert (forallb (fun b => (0 <=? b) && (b <? 256) && not_upper b) CHARSET = true) as Hall by (vm_compute; reflexivity).
    rewrite forallb_forall in Hall. specialize (Hall _ H). unfold is_byte.
    apply andb_prop in Hall as [Hall ?]. split; [lia|done].
  - split; [unfold is_byte; lia|reflexivity].
Qed.

Lemma segwit_lower hrp v program : lower hrp = true -> lower (segwit_encode hrp v program) = true.
Proof.
  intros H. unfold segwit_encode, lower in *. rewrite as_bytes_of_bytes.
  - rewrite !forallb_app, H. simpl. apply andb_true_intro. split; [apply charset_lower|].
    apply forallb_forall. intros x (d & <- & _)%in_map_iff. apply charset_lower.
  - apply Forall_app. split; [apply as_bytes_ok|]. constructor; [unfold is_byte; lia|].
    apply Forall_map, Forall_forall. intros d _. apply charset_lower.
Qed.

Lemma hrp_lower chain_id : lower (bech32_hrp chain_id) = true.
Proof. unfold bech32_hrp. by repeat case_match. Qed.

Section translate.
Context {C : Crates} {R : RpcCrates} {B : BitcoinCrate}.

Lemma sender_lower tx hrp pk a : lower hrp = true ->
  extract_sender_from_input tx hrp = Ok (pk, a) -> lower a = true.
Proof.
  intros Hh. unfold extract_sender_from_input. repeat case_match; intros H'; try discriminate H'; injection H' as <- <-;
    first [apply lower_to_lowercase | by apply segwit_lower].
Qed.

Lemma output_lower hrp o : lower (out_address (extract_output hrp o)) = true.
Proof. unfold extract_output. repeat case_match; try done. apply lower_to_lowercase. Qed.

Lemma translated_lower raw chain_id p : from_hex_with_hrp raw (bech32_hrp chain_id) = Ok p ->
  lower (pt_sender_address p) = true /\ Forall (fun o => lower (out_address o) = true) (pt_outputs p).
Proof.
  unfold from_hex_with_hrp. destruct (hex_decode raw) as [bytes|]; [|discriminate]. simpl.
  destruct (deserialize bytes) as [tx|]; [|discriminate]. simpl.
  destruct (extract_sender_from_input tx _) as [[pk a]| |] eqn:E; [|discriminate|discriminate]. simpl.
  intros [= <-]. split; [exact (sender_lower _ _ _ _ (hrp_lower chain_id) E)|]. cbn [pt_outputs].
  apply Forall_map, Forall_forall. intros o _. apply output_lower.
Qed.
End translate.

(** The loop of the genesis lists every address under its own case. *)
Lemma add_addresses_lists va l : forall records total records' total' addr sats,
  add_addresses va l records total = Ok (records', total') -> (addr, sats) ∈ l -> addr <> va -> addr <> TREASURY ->
  records ⊆ records' /\ ToolAccount addr (account_data (wrapping_mul u128_max sats (10 ^ 16)) 0) ∈ records'.
Proof.
  assert (Hgrow : forall l records total records' total',
    add_addresses va l records total = Ok (records', total') -> records ⊆ records').
  { clear. induction l as [|[a x] l IH]; intros rs t rs' t' H; simpl in H; [by injection H as <- <-|].
    destruct (_ || _); [exact (IH _ _ _ _ H)|]. destruct (checked_add _ _ _); [|discriminate]. simpl in H.
    intros r Hr. apply (IH _ _ _ _ H), elem_of_app. by left. }
  induction l as [|[a x] l IH]; intros rs t rs' t' addr sats H Hin H1 H2; [by apply elem_of_nil in Hin|].
  split; [exact (Hgrow _ _ _ _ _ H)|]. simpl in H. apply elem_of_cons in Hin as [[= <- <-]|Hin].
  - rewrite !bool_decide_false in H by done. simpl in H. destruct (checked_add _ _ _); [|discriminate]. simpl in H.
    apply (Hgrow _ _ _ _ _ H), elem_of_app. right. by apply list_elem_of_singleton.
  - destruct (_ || _); [exact (proj2 (IH _ _ _ _ _ _ H Hin H1 H2))|].
    destruct (checked_add _ _ _); [|discriminate]. exact (proj2 (IH _ _ _ _ _ _ H Hin H1 H2)).
Qed.

Lemma build_lists b64_encode chain_id time utxos validator registry g addr sats :
  build b64_encode chain_id time utxos validator registry = Ok g ->
  utxos !! addr = Some sats -> addr <> vc_account_id validator -> addr <> TREASURY ->
  ToolAccount addr (account_data (wrapping_mul u128_max sats (10 ^ 16)) 0) ∈ g_records g.
Proof.
  intros H Hu H1 H2. unfold build in H.
  destruct (if bool_decide (TREASURY = _) then _ else _) as [rs t].
  destruct (add_addresses _ _ rs t) as [[rs' t']| |] eqn:E; [|discriminate|discriminate]. simpl in H. injection H as <-. cbn [g_records].
  apply elem_of_app. left. refine (proj2 (add_addresses_lists _ _ _ _ _ _ addr sats E _ H1 H2)).
  rewrite (btree_iter_perm utxos). by apply elem_of_map_to_list.
Qed.

(** C38. The coins of legacy addresses cannot be used through Bitcoin transactions.  An address
    of the snapshot with an upper-case letter, as nearly every Base58 address has, gets its
    account in the genesis under that name; but on no chain does sendrawtransaction read a
    transaction whose sender, or one of whose payments, is that account: the server puts
    the addresses it derives in lower case, and pays or spends another account. *)
Theorem legacy_accounts_unreachable {C : Crates} {R : RpcCrates} {B : BitcoinCrate}
    b64_encode chain_id time utxos validator registry g addr sats raw p :
  build b64_encode chain_id time utxos validator registry = Ok g ->
  utxos !! addr = Some sats -> addr <> vc_account_id validator -> addr <> TREASURY ->
  to_lowercase addr <> addr -> from_hex_with_hrp raw (bech32_hrp chain_id) = Ok p ->
  ToolAccount addr (account_data (wrapping_mul u128_max sats (10 ^ 16)) 0) ∈ g_records g
  /\ pt_sender_address p <> addr /\ Forall (fun o => out_address o <> addr) (pt_outputs p).
Proof.
  intros Hb Hu H1 H2 Hl Hp. split; [exact (build_lists _ _ _ _ _ _ _ _ _ Hb Hu H1 H2)|].
  assert (Hn : forall a, lower a = true -> a <> addr) by (intros a Ha ->; by apply Hl, lower_fixed).
  destruct (translated_lower raw chain_id p Hp) as [Hs Ho]. split; [by apply Hn|].
  eapply Forall_impl; [exact Ho|]. intros o. apply Hn.
Qed.

Module LegacySample.
#[local] Existing Instance SendSample.crates.
#[local] Existing Instance ToyRpc.crates.
#[local] Existing Instance SendSample.bitcoin.

Definition satoshi : string := "1A1zP1eP5QGefi2DMPTfTL5SLmv7DivfNa".
Definition utxos : gmap string Z := {[satoshi := 5000000000]}.

Lemma legacy_accounts_unreachable_witness : exists g,
  build (fun _ => ""%string) "mainnet" "" utxos (validator_of "node" "") ∅ = Ok g /\
  ToolAccount satoshi (account_data (5000000000 * 10 ^ 16) 0) ∈ g_records g /\
  pt_sender_address SendSample.parsed <> satoshi.
Proof.
  destruct (build (fun _ => ""%string) "mainnet" "" utxos (validator_of "node" "") ∅) as [g|e|] eqn:E;
    [|vm_compute in E; discriminate E|vm_compute in E; discriminate E].
  exists g. split; [reflexivity|].
  destruct (legacy_accounts_unreachable (fun _ => ""%string) "mainnet" "" utxos (validator_of "node" "") ∅ g satoshi 5000000000
    SendSample.raw SendSample.parsed E) as (H1 & H2 & _).
  - apply lookup_singleton_eq.
  - discriminate.
  - discriminate.
  - vm_compute. discriminate.
  - vm_compute. reflexivity.
  - exact (conj H1 H2).
Defined.
End LegacySample.
