(* ===== verification/Psbt.v ===== *)
(** * Partially signed transactions (bitinfinity-btcrpc/src/main.rs)

    The server builds, reads, signs, combines and finalizes PSBTs (BIP 174) by hand.  The
    loops over key-value pairs move a position of the machine's width by sizes taken from
    the input, in a build where addition wraps: a loop takes fuel here, and [Err Running]
    is a loop that has not ended. *)

From S2P Require Import Prelude Float64 Decimal Amounts Crates AccountId Bech32 Addresses Borsh GenesisTools Wallet.
From S2P Require Import Translator NearClient SendRaw.

Inductive running : Type := Running.

(** [usize] addition of a release build. *)
Definition wadd (a b : Z) : Z := wrapping_add u64_max a b.
(** [d[i]] and [d[a..b]]. *)
Definition byte_at (d : list Z) (i : Z) : result Z running :=
  if i <? vec_len d then Ok (nth (Z.to_nat i) d 0) else Panic.
Definition range (d : list Z) (a b : Z) : result (list Z) running :=
  if (a <=? b) && (b <=? vec_len d) then Ok (take (Z.to_nat (b - a)) (drop (Z.to_nat a) d)) else Panic.
(** [uN::from_le_bytes]. *)
Definition from_le_bytes (l : list Z) : Z := fold_right (fun x v => x + 256 * v) 0 l.

(* ------------------------------------------------------------------ *)
(** ** Base64 *)

Definition BASE64_CHARS : list Z := as_bytes "ABCDEFGHIJKLMNOPQRSTUVWXYZabcdefghijklmnopqrstuvwxyz0123456789+/".
(** [DECODE_TABLE]; [None] is the entry 255. *)
Definition base64_value (c : Z) : option Z := find_from 0 c BASE64_CHARS.

Fixpoint trim_end_eq (rev_l : list Z) : list Z :=
  match rev_l with
  | c :: l => if c =? 61 then trim_end_eq l else rev_l
  | [] => []
  end.

Fixpoint base64_loop (l : list Z) (buf bits : Z) : result (list Z) message :=
  match l with
  | [] => Ok []
  | c :: l =>
      match base64_value c with
      | None => Err (lit "Invalid base64 character")
      | Some v =>
          let buf := Z.lor (Z.land (Z.shiftl buf 6) u32_max) v in
          let bits := bits + 6 in
          if 8 <=? bits then
            let bits := bits - 8 in
            let? output := base64_loop l buf bits in
            Ok (Z.land (Z.shiftr buf bits) 255 :: output)
          else base64_loop l buf bits
      end
  end.
(** The characters beyond ASCII are those with bytes above 127. *)
Definition base64_decode (input : string) : result (list Z) message :=
  base64_loop (rev (trim_end_eq (rev (trim (chars input))))) 0 0.

Definition base64_char (triple shift : Z) : Z :=
  nth (Z.to_nat (Z.land (Z.shiftr triple shift) 63)) BASE64_CHARS 0.
Fixpoint base64_chunks (l : list Z) : list Z :=
  match l with
  | [] => []
  | [b0] =>
      let triple := Z.shiftl b0 16 in
      [base64_char triple 18; base64_char triple 12; 61; 61]
  | [b0; b1] =>
      let triple := Z.lor (Z.shiftl b0 16) (Z.shiftl b1 8) in
      [base64_char triple 18; base64_char triple 12; base64_char triple 6; 61]
  | b0 :: b1 :: b2 :: l =>
      let triple := Z.lor (Z.lor (Z.shiftl b0 16) (Z.shiftl b1 8)) b2 in
      base64_char triple 18 :: base64_char triple 12 :: base64_char triple 6 :: base64_char triple 0
        :: base64_chunks l
  end.
Definition base64_encode (input : list Z) : string := of_bytes (base64_chunks input).

(* ------------------------------------------------------------------ *)
(** ** Compact sizes *)

Definition write_compact_size (size : Z) : list Z :=
  if size <? 253 then [size]
  else if size <=? 0xFFFF then 0xFD :: le_enc 2 size
  else if size <=? 0xFFFFFFFF then 0xFE :: le_enc 4 size
  else 0xFF :: le_enc 8 size.

Definition encode_bitcoin_varint (value : Z) : list Z :=
  if value <? 0xfd then [value]
  else if value <=? 0xffff then 0xfd :: le_enc 2 value
  else if value <=? 0xffffffff then 0xfe :: le_enc 4 value
  else 0xff :: le_enc 8 value.

(** Inside, [pos] is below the length of the data, and so the sums do not wrap. *)
Definition read_compact_size (data : list Z) (pos : Z) : Z * Z :=
  if vec_len data <=? pos then (0, 1)
  else
    let rest := drop (Z.to_nat pos) data in
    let first := nth 0 rest 0 in
    if first <? 253 then (first, 1)
    else if (first =? 0xFD) && (pos + 2 <? vec_len data) then (from_le_bytes (take 2 (drop 1 rest)), 3)
    else if (first =? 0xFE) && (pos + 4 <? vec_len data) then (from_le_bytes (take 4 (drop 1 rest)), 5)
    else if (first =? 0xFF) && (pos + 8 <? vec_len data) then (from_le_bytes (take 8 (drop 1 rest)), 9)
    else (0, 1).

(* ------------------------------------------------------------------ *)
(** ** Reading *)

Definition MAGIC : list Z := [112; 115; 98; 116; 255].
Definition has_magic (bytes : list Z) : bool :=
  (5 <=? vec_len bytes) && bool_decide (take 5 bytes = MAGIC).

(** The loop of [parse_psbt_unsigned_tx] and of [extract_unsigned_tx_hex]. *)
Fixpoint find_unsigned_tx (fuel : nat) (psbt_bytes : list Z) (pos : Z) : result (option (list Z)) running :=
  match fuel with
  | O => Err Running
  | S fuel =>
      if vec_len psbt_bytes <=? pos then Ok None
      else
        let '(key_len, advance) := read_compact_size psbt_bytes pos in
        let pos := wadd pos advance in
        if key_len =? 0 then Ok None
        else if vec_len psbt_bytes <=? pos then Ok None
        else
          let? key_type := byte_at psbt_bytes pos in
          let pos := wadd pos key_len in
          if vec_len psbt_bytes <=? pos then Ok None
          else
            let '(val_len, advance2) := read_compact_size psbt_bytes pos in
            let pos := wadd pos advance2 in
            if key_type =? 0 then
              let tx_end := wadd pos val_len in
              if vec_len psbt_bytes <? tx_end then Ok None
              else let? tx := range psbt_bytes pos tx_end in Ok (Some tx)
            else find_unsigned_tx fuel psbt_bytes (wadd pos val_len)
  end.

Record PsbtVin : Type := mkPsbtVin {
  vin_txid : string;
  vin_vout : Z;
  vin_sequence : Z;
}.
Record PsbtVout : Type := mkPsbtVout {
  vout_value : Z;
  vout_n : Z;
  vout_script_hex : string;
}.
Record PsbtTx : Type := mkPsbtTx {
  ptx_vin : list PsbtVin;
  ptx_vout : list PsbtVout;
  ptx_version : Z;
  ptx_locktime : Z;
}.

(** [for _ in 0..count], with the position. *)
Fixpoint parse_inputs (fuel : nat) (tx : list Z) (count pos : Z) : result (list PsbtVin * Z) running :=
  match fuel with
  | O => Err Running
  | S fuel =>
      if count <=? 0 then Ok ([], pos)
      else if vec_len tx <? wadd pos 36 then Ok ([], pos)
      else
        let? txid_bytes := range tx pos (wadd pos 32) in
        let pos := wadd pos 32 in
        let? prev_vout := range tx pos (wadd pos 4) in
        let pos := wadd pos 4 in
        let '(script_len, adv) := read_compact_size tx pos in
        let pos := wadd (wadd pos adv) script_len in
        if vec_len tx <? wadd pos 4 then Ok ([], pos)
        else
          let? sequence := range tx pos (wadd pos 4) in
          let pos := wadd pos 4 in
          let? (vin, pos) := parse_inputs fuel tx (count - 1) pos in
          Ok (mkPsbtVin (hex_encode (rev txid_bytes)) (from_le_bytes prev_vout) (from_le_bytes sequence) :: vin, pos)
  end.

Fixpoint parse_outputs (fuel : nat) (tx : list Z) (n out_count pos : Z) : result (list PsbtVout * Z) running :=
  match fuel with
  | O => Err Running
  | S fuel =>
      if out_count <=? n then Ok ([], pos)
      else if vec_len tx <? wadd pos 8 then Ok ([], pos)
      else
        let? value := range tx pos (wadd pos 8) in
        let pos := wadd pos 8 in
        let '(script_len, adv) := read_compact_size tx pos in
        let pos := wadd pos adv in
        let? script :=
          if wadd pos script_len <=? vec_len tx then range tx pos (wadd pos script_len) else Ok [] in
        let pos := wadd pos script_len in
        let? (vout, pos) := parse_outputs fuel tx (n + 1) out_count pos in
        Ok (mkPsbtVout (from_le_bytes value) n (hex_encode script) :: vout, pos)
  end.

Definition empty_tx : PsbtTx := mkPsbtTx [] [] 2 0.

Definition parse_raw_tx_for_psbt (fuel : nat) (tx : list Z) : result PsbtTx running :=
  if vec_len tx <? 10 then Ok empty_tx
  else
    let version := from_le_bytes (take 4 tx) in
    let '(in_count, adv) := read_compact_size tx 4 in
    let? (vin, pos) := parse_inputs fuel tx in_count (wadd 4 adv) in
    let '(out_count, adv) := read_compact_size tx pos in
    let? (vout, pos) := parse_outputs fuel tx 0 out_count (wadd pos adv) in
    let? locktime :=
      if wadd pos 4 <=? vec_len tx then let? l := range tx pos (wadd pos 4) in Ok (from_le_bytes l) else Ok 0 in
    Ok (mkPsbtTx vin vout version locktime).

Definition parse_psbt_unsigned_tx (fuel : nat) (psbt_bytes : list Z) : result PsbtTx running :=
  let? tx := find_unsigned_tx fuel psbt_bytes 5 in
  match tx with
  | Some tx_bytes => parse_raw_tx_for_psbt fuel tx_bytes
  | None => Ok empty_tx
  end.

Definition extract_unsigned_tx_hex (fuel : nat) (psbt_bytes : list Z) : result string running :=
  let? tx := find_unsigned_tx fuel psbt_bytes 5 in
  Ok (match tx with Some tx => hex_encode tx | None => ""%string end).

(** The end of a map of key-value pairs: the loop over the global map, and those that skip
    the maps of inputs and outputs in [build_signed_psbt]. *)
Fixpoint skip_map (fuel : nat) (psbt_bytes : list Z) (pos : Z) : result Z running :=
  match fuel with
  | O => Err Running
  | S fuel =>
      if vec_len psbt_bytes <=? pos then Ok pos
      else
        let '(key_len, advance) := read_compact_size psbt_bytes pos in
        let pos := wadd pos advance in
        if key_len =? 0 then Ok pos
        else
          let pos := wadd pos key_len in
          if vec_len psbt_bytes <=? pos then Ok pos
          else
            let '(val_len, advance2) := read_compact_size psbt_bytes pos in
            skip_map fuel psbt_bytes (wadd (wadd pos advance2) val_len)
  end.

(** What is kept of an input: signatures by public key, both in hexadecimal, the type of the
    signatures, and the last derivation. *)
Record InputInfo : Type := mkInputInfo {
  in_partial_signatures : gmap string string;
  in_sighash : option Z;
  in_bip32 : option (string * string);
}.
Definition no_info : InputInfo := mkInputInfo ∅ None None.

Definition add_pair (key_type : Z) (key_data val_data : list Z) (i : InputInfo) : InputInfo :=
  if key_type =? 0x02 then
    mkInputInfo (<[hex_encode key_data := hex_encode val_data]> (in_partial_signatures i)) (in_sighash i) (in_bip32 i)
  else if key_type =? 0x03 then
    if 4 <=? vec_len val_data
    then mkInputInfo (in_partial_signatures i) (Some (from_le_bytes (take 4 val_data))) (in_bip32 i) else i
  else if key_type =? 0x06 then
    mkInputInfo (in_partial_signatures i) (in_sighash i)
      (Some (hex_encode key_data,
             if 4 <=? vec_len val_data then hex_encode (take 4 val_data) else "00000000"%string))
  else i.

Fixpoint parse_input_map (fuel : nat) (psbt_bytes : list Z) (pos : Z) (i : InputInfo)
    : result (InputInfo * Z) running :=
  match fuel with
  | O => Err Running
  | S fuel =>
      if vec_len psbt_bytes <=? pos then Ok (i, pos)
      else
        let '(key_len, advance) := read_compact_size psbt_bytes pos in
        let pos := wadd pos advance in
        if key_len =? 0 then Ok (i, pos)
        else if vec_len psbt_bytes <=? pos then Ok (i, pos)
        else
          let? key_type := byte_at psbt_bytes pos in
          let? key_data :=
            if (1 <? key_len) && (wadd pos key_len <=? vec_len psbt_bytes)
            then range psbt_bytes (wadd pos 1) (wadd pos key_len) else Ok [] in
          let pos := wadd pos key_len in
          if vec_len psbt_bytes <=? pos then Ok (i, pos)
          else
            let '(val_len, advance2) := read_compact_size psbt_bytes pos in
            let pos := wadd pos advance2 in
            let? val_data :=
              if wadd pos val_len <=? vec_len psbt_bytes then range psbt_bytes pos (wadd pos val_len) else Ok [] in
            parse_input_map fuel psbt_bytes (wadd pos val_len) (add_pair key_type key_data val_data i)
  end.

Fixpoint parse_input_maps (fuel : nat) (psbt_bytes : list Z) (num_inputs : nat) (pos : Z)
    : result (list InputInfo) running :=
  match num_inputs with
  | O => Ok []
  | S n =>
      let? (i, pos) := parse_input_map fuel psbt_bytes pos no_info in
      let? rest := parse_input_maps fuel psbt_bytes n pos in
      Ok (i :: rest)
  end.

Definition parse_psbt_input_maps (fuel : nat) (psbt_bytes : list Z) (num_inputs : nat)
    : result (list InputInfo) running :=
  let? pos := skip_map fuel psbt_bytes 5 in
  parse_input_maps fuel psbt_bytes num_inputs pos.

Definition psbt_input_signature_counts (fuel : nat) (psbt_bytes : list Z) : result (list nat) running :=
  let? tx := parse_psbt_unsigned_tx fuel psbt_bytes in
  match ptx_vin tx with
  | [] => Ok []
  | vin =>
      let? inputs := parse_psbt_input_maps fuel psbt_bytes (length vin) in
      Ok (map (fun i => size (in_partial_signatures i)) inputs)
  end.

(* ------------------------------------------------------------------ *)
(** ** Writing *)

Definition write_pair (key value : list Z) : list Z :=
  write_compact_size (vec_len key) ++ key ++ write_compact_size (vec_len value) ++ value.

(** Magic, the unsigned transaction, and the end of the global map. *)
Definition psbt_head (unsigned_tx : list Z) : list Z :=
  MAGIC ++ [0x01; 0x00] ++ write_compact_size (vec_len unsigned_tx) ++ unsigned_tx ++ [0x00].
Definition empty_maps (n : nat) : list Z := repeat 0x00 n.

Section commands.
Context {C : Crates} {R : RpcCrates} {B : BitcoinCrate}.
(** DER text of a signature of [secp256k1]; the order in which a map gives its keys. *)
Variable sign_der : list Z -> list Z -> list Z.
Variable key_order : gmap string KeyEntry -> list string.

Definition write_input (input : string * Z) : list Z :=
  let '(txid_hex, vout) := input in
  (match hex_decode txid_hex with Some txid_bytes => rev txid_bytes | None => repeat 0 32 end)
  ++ le_enc 4 vout ++ [0x00] ++ le_enc 4 0xFFFFFFFD.

Definition write_script (script_hex : string) : list Z :=
  if bool_decide (script_hex = ""%string) then [0x00]
  else match hex_decode script_hex with
       | Some script_bytes => write_compact_size (vec_len script_bytes) ++ script_bytes
       | None => [0x00]
       end.
Definition write_output (hrp_of : string -> string) (output : string * Z) : list Z :=
  let '(addr, satoshis) := output in
  le_enc 8 satoshis ++ write_script (derive_script_pub_key_hex addr (hrp_of addr)).

Definition unsigned_tx (hrp_of : string -> string) (inputs outputs : list (string * Z)) (locktime : Z) : list Z :=
  le_enc 4 2 ++ write_compact_size (vec_len inputs) ++ flat_map write_input inputs
  ++ write_compact_size (vec_len outputs) ++ flat_map (write_output hrp_of) outputs ++ le_enc 4 locktime.

Definition new_psbt (tx : list Z) (num_inputs num_outputs : nat) : list Z :=
  psbt_head tx ++ empty_maps num_inputs ++ empty_maps num_outputs.

(* ------------------------------------------------------------------ *)
(** ** createpsbt, converttopsbt *)

Fixpoint output_fields (fields : list (string * Json)) : result (list (string * Z)) message :=
  match fields with
  | [] => Ok []
  | (addr, amount_val) :: fields =>
      if bool_decide (addr = "data"%string) then output_fields fields
      else
        let? amount := ok_or (as_f64 amount_val) (lit "Output amounts must be positive numbers") in
        let? satoshis := ok_or (btc_to_satoshis_checked amount)
                           (lit "Output amounts must be positive and satoshi-precise") in
        let? rest := output_fields fields in
        Ok ((addr, satoshis) :: rest)
  end.
Fixpoint output_objects (outs : list Json) : result (list (string * Z)) message :=
  match outs with
  | [] => Ok []
  | JObj obj :: outs =>
      let? pairs := output_fields obj in
      let? rest := output_objects outs in
      Ok (pairs ++ rest)
  | _ => Err (lit "Each output entry must be an object")
  end.
Definition parse_psbt_output_pairs (outputs_param : option Json) : result (list (string * Z)) message :=
  let? outputs := ok_or outputs_param (lit "Missing outputs parameter") in
  let? output_pairs :=
    match outputs with
    | JArr outs => output_objects outs
    | JObj obj => output_fields obj
    | _ => Err (lit "Invalid outputs format")
    end in
  match output_pairs with
  | [] => Err (lit "At least one destination output is required")
  | _ => Ok output_pairs
  end.

Definition as_u32 (n : Z) : Z := n mod 2 ^ 32.

Definition input_of (inp : Json) : string * Z :=
  (default (of_bytes (repeat 48 64)) (get_str inp "txid"), as_u32 (default 0 (get_u64 inp "vout"))).

Definition hrp_guess (addr : string) : string :=
  match split_once 49 (as_bytes addr) with
  | Some (_ :: _ as prefix, _) => of_bytes prefix
  | _ => "bc"
  end.

Definition handle_createpsbt (params : Json) : Response :=
  let inputs := default [] (param params 0 ≫= as_array) in
  match parse_psbt_output_pairs (param params 1) with
  | Ok output_pairs =>
      let locktime := as_u32 (default 0 (param params 2 ≫= as_u64)) in
      let tx := unsigned_tx hrp_guess (map input_of inputs) output_pairs locktime in
      OkResponse (JStr (b64_std_encode (new_psbt tx (length inputs) (length output_pairs))))
  | Err msg => ErrResponse (-32602) msg
  | Panic => Panicked
  end.

Definition handle_converttopsbt (params : Json) : Response :=
  match get_str_param params 0 with
  | None => ErrResponse (-32602) (lit "Missing hex string parameter")
  | Some raw_hex =>
      match hex_decode raw_hex with
      | None => ErrResponse (-22) (lit "TX decode failed")
      | Some tx_bytes =>
          let '(n_inputs, n_outputs) :=
            if 10 <? vec_len tx_bytes then
              match deserialize tx_bytes with
              | Some tx => (length (btx_input tx), length (btx_output tx))
              | None => (1, 1)%nat
              end
            else (1, 1)%nat in
          OkResponse (JStr (b64_std_encode (new_psbt tx_bytes n_inputs n_outputs)))
      end
  end.

(* ------------------------------------------------------------------ *)
(** ** decodepsbt, finalizepsbt, analyzepsbt *)

(** The bytes of the first parameter, or the answer. *)
Definition psbt_param (params : Json) (base64_error : string) : string * list Z + Response :=
  match get_str_param params 0 with
  | None => inr (ErrResponse (-32602) (lit "Missing PSBT parameter"))
  | Some psbt_b64 =>
      match base64_decode psbt_b64 with
      | Ok bytes =>
          if has_magic bytes then inl (psbt_b64, bytes)
          else inr (ErrResponse (-22) (lit "Invalid PSBT: missing magic bytes"))
      | _ => inr (ErrResponse (-22) (lit base64_error))
      end
  end.

Definition vin_json (v : PsbtVin) : Json :=
  JObj [("txid"%string, JStr (vin_txid v)); ("vout"%string, JNum (vin_vout v));
        ("scriptSig"%string, JObj [("asm"%string, JStr ""); ("hex"%string, JStr "")]);
        ("sequence"%string, JNum (vin_sequence v))].
Definition vout_json (v : PsbtVout) : Json :=
  let '(script_type, script_asm) := classify_script_pub_key_hex (vout_script_hex v) in
  JObj [("value"%string, JFloat (f_div (of_Z (vout_value v)) Amounts.SATOSHIS_PER_BTC)); ("n"%string, JNum (vout_n v));
        ("scriptPubKey"%string, JObj [("asm"%string, JStr script_asm); ("hex"%string, JStr (vout_script_hex v));
                                      ("type"%string, JStr script_type)])].
Definition input_json (i : InputInfo) : Json :=
  JObj ([("partial_signatures"%string, JObj (map (fun '(k, v) => (k, JStr v)) (btree_iter (in_partial_signatures i))));
         ("bip32_derivs"%string,
           JArr (match in_bip32 i with
                 | Some (pubkey, fingerprint) =>
                     [JObj [("pubkey"%string, JStr pubkey); ("master_fingerprint"%string, JStr fingerprint);
                            ("path"%string, JStr "m/0'/0'/0'")]]
                 | None => []
                 end))]
        ++ match in_sighash i with
           | Some sighash => [("sighash"%string, JStr ("ALL|ANYONECANPAY+" +:+ of_bytes (to_dec sighash)))]
           | None => []
           end).

Definition psbt_output_json (v : PsbtVout) : Json :=
  if bool_decide (vout_script_hex v = ""%string) then JObj []
  else JObj [("witness_script"%string, JObj []); ("bip32_derivs"%string, JArr [])].

Definition psbt_txid (unsigned_tx_hex : string) : string :=
  match hex_decode unsigned_tx_hex with
  | Some tx_bytes =>
      if bool_decide (unsigned_tx_hex = ""%string) then of_bytes (repeat 48 64)
      else hex_encode (rev (sha256 (sha256 tx_bytes)))
  | None => of_bytes (repeat 48 64)
  end.

Definition decoded_json (unsigned_tx_hex : string) (tx : PsbtTx) (inputs : list InputInfo) : Json :=
  let txid := psbt_txid unsigned_tx_hex in
  let size := str_len unsigned_tx_hex / 2 in
  JObj
    [("tx"%string, JObj
       [("txid"%string, JStr txid); ("hash"%string, JStr txid); ("version"%string, JNum (ptx_version tx));
        ("size"%string, JNum size); ("vsize"%string, JNum size); ("weight"%string, JNum (size * 4));
        ("locktime"%string, JNum (ptx_locktime tx)); ("vin"%string, JArr (map vin_json (ptx_vin tx)));
        ("vout"%string, JArr (map vout_json (ptx_vout tx)))]);
     ("global_xpubs"%string, JArr []); ("psbt_version"%string, JNum 0); ("proprietary"%string, JArr []);
     ("unknown"%string, JObj []); ("inputs"%string, JArr (map input_json inputs));
     ("outputs"%string, JArr (map psbt_output_json (ptx_vout tx))); ("fee"%string, JNull)].

Definition handle_decodepsbt (fuel : nat) (params : Json) : result Response running :=
  match psbt_param params "Invalid PSBT: base64 decode failed" with
  | inr answer => Ok answer
  | inl (_, bytes) =>
      let? tx := parse_psbt_unsigned_tx fuel bytes in
      let? unsigned_tx_hex := extract_unsigned_tx_hex fuel bytes in
      let? inputs := parse_psbt_input_maps fuel bytes (length (ptx_vin tx)) in
      Ok (OkResponse (decoded_json unsigned_tx_hex tx inputs))
  end.

Definition all_signed (counts : list nat) : bool :=
  match counts with
  | [] => false
  | _ => forallb (fun count => (0 <? count)%nat) counts
  end.

Definition handle_finalizepsbt (fuel : nat) (params : Json) : result Response running :=
  match psbt_param params "Invalid PSBT base64" with
  | inr answer => Ok answer
  | inl (psbt_b64, bytes) =>
      let incomplete := OkResponse (JObj [("hex"%string, JStr ""); ("complete"%string, JBool false);
                                          ("psbt"%string, JStr psbt_b64)]) in
      let? tx_hex := extract_unsigned_tx_hex fuel bytes in
      if bool_decide (tx_hex = ""%string) then Ok incomplete
      else
        let? signature_counts := psbt_input_signature_counts fuel bytes in
        Ok (if all_signed signature_counts
            then OkResponse (JObj [("hex"%string, JStr tx_hex); ("complete"%string, JBool true)])
            else incomplete)
  end.

(** [STANDARD.decode] of the crate, here. *)
Definition handle_analyzepsbt (fuel : nat) (params : Json) : result Response running :=
  let psbt_str := default ""%string (get_str_param params 0) in
  match b64_std_decode psbt_str with
  | None => Ok (ErrResponse (-22) (lit "Invalid PSBT: base64 decode failed"))
  | Some bytes =>
      if negb (has_magic bytes) then Ok (ErrResponse (-22) (lit "Invalid PSBT: missing magic bytes"))
      else
        let? input_sig_counts := psbt_input_signature_counts fuel bytes in
        let? tx_hex := extract_unsigned_tx_hex fuel bytes in
        let next (signed : bool) := JStr (if signed then "finalizer" else "signer") in
        Ok (OkResponse (JObj
          [("inputs"%string, JArr (map (fun count =>
              let is_signed := (0 <? count)%nat in
              JObj [("has_utxo"%string, JBool true); ("is_final"%string, JBool is_signed); ("next"%string, next is_signed)])
              input_sig_counts));
           ("estimated_vsize"%string, JNum (str_len tx_hex / 2));
           ("estimated_feerate"%string, JFloat (round_frac 1 100000)); ("fee"%string, JFloat (round_frac 1 10000000));
           ("next"%string, next (all_signed input_sig_counts))]))
  end.

Definition handle_utxoupdatepsbt (fuel : nat) (params : Json) : result Response running :=
  let invalid := ErrResponse (-22) (lit "TX decode failed (invalid PSBT)") in
  match get_str_param params 0 with
  | None => Ok (ErrResponse (-32602) (lit "Missing PSBT parameter"))
  | Some psbt_base64 =>
      match b64_std_decode psbt_base64 with
      | None => Ok invalid
      | Some bytes =>
          if negb (has_magic bytes) then Ok invalid
          else
            let? tx_hex := extract_unsigned_tx_hex fuel bytes in
            Ok (if bool_decide (tx_hex = ""%string)
                then ErrResponse (-22) (lit "TX decode failed (missing PSBT_GLOBAL_UNSIGNED_TX)")
                else OkResponse (JStr psbt_base64))
      end
  end.

(* ------------------------------------------------------------------ *)
(** ** combinepsbt *)

Record Combined : Type := mkCombined {
  cb_reference : option string;
  cb_tx : list Z;
  cb_inputs : nat;
  cb_outputs : nat;
  cb_signatures : list (gmap string string);
  cb_seen : bool;
}.
Definition nothing_combined : Combined := mkCombined None [] 0 0 [] false.

Definition merge_signatures (merged : list (gmap string string)) (inputs : list InputInfo)
    : list (gmap string string) :=
  zip_with (fun m i => in_partial_signatures i ∪ m) merged inputs.

Definition not_same : Response := ErrResponse (-8) (lit "PSBTs do not refer to the same transaction").

(** One candidate; [inr] is an answer. *)
Definition combine_one (fuel : nat) (c : Combined) (psbt : string) : result (Combined + Response) running :=
  match base64_decode psbt with
  | Ok bytes =>
      if negb (has_magic bytes) then Ok (inl c)
      else
        let? unsigned_tx_hex := extract_unsigned_tx_hex fuel bytes in
        match (if bool_decide (unsigned_tx_hex = ""%string) then None else hex_decode unsigned_tx_hex) with
        | None => Ok (inl c)
        | Some unsigned_tx_bytes =>
            let? tx := parse_psbt_unsigned_tx fuel bytes in
            let input_count := length (ptx_vin tx) in
            let output_count := length (ptx_vout tx) in
            let c := match cb_reference c with
                     | None => mkCombined (Some unsigned_tx_hex) unsigned_tx_bytes input_count output_count
                                 (repeat ∅ input_count) (cb_seen c)
                     | Some _ => c
                     end in
            if negb (bool_decide (cb_reference c = Some unsigned_tx_hex)) then Ok (inr not_same)
            else if negb ((input_count =? cb_inputs c)%nat && (output_count =? cb_outputs c)%nat) then Ok (inr not_same)
            else
              let? inputs := parse_psbt_input_maps fuel bytes (cb_inputs c) in
              Ok (inl (mkCombined (cb_reference c) (cb_tx c) (cb_inputs c) (cb_outputs c)
                         (merge_signatures (cb_signatures c) inputs) true))
        end
  | _ => Ok (inl c)
  end.

Fixpoint combine_all (fuel : nat) (c : Combined) (psbts : list string) : result (Combined + Response) running :=
  match psbts with
  | [] => Ok (inl c)
  | psbt :: psbts =>
      let? r := combine_one fuel c psbt in
      match r with
      | inl c => combine_all fuel c psbts
      | inr answer => Ok (inr answer)
      end
  end.

Definition write_signature (entry : string * string) : list Z :=
  match hex_decode entry.1, hex_decode entry.2 with
  | Some pubkey_bytes, Some sig_bytes => write_pair (0x02 :: pubkey_bytes) sig_bytes
  | _, _ => []
  end.
Definition write_input_map (sigs : gmap string string) : list Z :=
  flat_map write_signature (btree_iter sigs) ++ [0x00].
Definition write_psbt (tx : list Z) (signatures : list (gmap string string)) (num_outputs : nat) : list Z :=
  psbt_head tx ++ flat_map write_input_map signatures ++ empty_maps num_outputs.

Definition handle_combinepsbt (fuel : nat) (params : Json) : result Response running :=
  match param params 0 ≫= as_array with
  | None => Ok (ErrResponse (-32602) (lit "Missing PSBTs array"))
  | Some arr =>
      match omap as_str arr with
      | [] => Ok (ErrResponse (-32602) (lit "Empty PSBTs array"))
      | psbts =>
          let? r := combine_all fuel nothing_combined psbts in
          match r with
          | inr answer => Ok answer
          | inl c =>
              if negb (cb_seen c) || bool_decide (cb_reference c = None)
              then Ok (ErrResponse (-22) (lit "Invalid PSBT: no valid candidates"))
              else Ok (OkResponse (JStr (base64_encode (write_psbt (cb_tx c) (cb_signatures c) (cb_outputs c)))))
          end
      end
  end.

(** It only calls the other command. *)
Definition handle_joinpsbts (fuel : nat) (params : Json) : result Response running := handle_combinepsbt fuel params.

(* ------------------------------------------------------------------ *)
(** ** walletcreatefundedpsbt *)

Section funded.
Variable call : nat -> string -> Json -> result Json message.

(** The first address with the amount whose synthetic output is not locked. *)
Fixpoint select_input (locked_utxos : list (string * Z)) (addrs : list string) (amount : Z) : M (list (string * Z)) :=
  match addrs with
  | [] => ret []
  | addr :: addrs =>
      let txid := deterministic_txid addr in
      if bool_decide ((txid, 0) ∈ locked_utxos) then select_input locked_utxos addrs amount
      else
        let! account := request (fun i => view_account call i addr) in
        match account with
        | Ok account => if amount <=? balance_as_satoshis account then ret [(txid, 0)]
                        else select_input locked_utxos addrs amount
        | _ => select_input locked_utxos addrs amount
        end
  end.

Definition handle_walletcreatefundedpsbt (locked_utxos : list (string * Z)) (params : Json) : M Response :=
  let! w := gets ss_wallet in
  if negb (ws_loaded w) then answer not_loaded
  else
    let locktime := as_u32 (default 0 (param params 2 ≫= as_u64)) in
    match parse_psbt_output_pairs (param params 1) with
    | Ok output_pairs =>
        let! total_output_sat := some_or_answer (checked_sum_satoshis (map snd output_pairs))
          (ErrResponse (-32602) (lit "Output amounts overflow total satoshi range")) in
        let! use_inputs :=
          match default [] (param params 0 ≫= as_array) with
          | [] => select_input locked_utxos (key_order (ks_keys (ws_keystore w))) (saturating_add u64_max total_output_sat 1000)
          | inputs => ret (map input_of inputs)
          end in
        match use_inputs with
        | [] => answer (ErrResponse (-4) (lit "Insufficient funds"))
        | _ =>
            let tx := unsigned_tx (fun _ => bech32_hrp (ws_chain_id w)) use_inputs output_pairs locktime in
            ret (OkResponse (JObj [("psbt"%string, JStr (base64_encode (new_psbt tx (length use_inputs) (length output_pairs))));
                                   ("fee"%string, JFloat (f_div (of_Z 1000) Amounts.SATOSHIS_PER_BTC));
                                   ("changepos"%string, JNum (-1))]))
        end
    | Err msg => answer (ErrResponse (-32602) msg)
    | Panic => answer Panicked
    end.
End funded.

(* ------------------------------------------------------------------ *)
(** ** walletprocesspsbt *)

(** The first key of the wallet that can sign. *)
Fixpoint signer_material (keystore : Keystore) (addresses : list string) : option (list Z * list Z) :=
  match addresses with
  | [] => None
  | addr :: addresses =>
      match ks_get keystore addr with
      | Some entry =>
          match hex_decode (public_key_compressed_hex entry), private_key_bytes entry with
          | Some pubkey_bytes, Ok sk_bytes =>
              if secp_valid sk_bytes then Some (pubkey_bytes, sk_bytes) else signer_material keystore addresses
          | _, _ => signer_material keystore addresses
          end
      | None => signer_material keystore addresses
      end
  end.

(** The copy of the global map: the bytes, and the position after it. *)
Fixpoint copy_global (fuel : nat) (original_psbt : list Z) (pos : Z) (result : list Z)
    : Prelude.result (list Z * Z) running :=
  match fuel with
  | O => Err Running
  | S fuel =>
      if vec_len original_psbt <=? pos then Ok (result, pos)
      else
        let '(key_len, advance) := read_compact_size original_psbt pos in
        if key_len =? 0 then Ok (result ++ [0x00], wadd pos advance)
        else
          let key_start := pos in
          let pos := wadd (wadd pos advance) key_len in
          let '(val_len, advance2) := read_compact_size original_psbt pos in
          let pos := wadd (wadd pos advance2) val_len in
          let? key_value := range original_psbt key_start pos in
          copy_global fuel original_psbt pos (result ++ key_value)
  end.

(** The signature of an input over the pseudo-sighash. *)
Definition input_signature (unsigned_tx_hex : string) (input_idx : Z) (secret_key : list Z) : list Z :=
  let preimage := as_bytes unsigned_tx_hex ++ le_enc 4 input_idx ++ le_enc 4 1 in
  sign_der (sha256 (sha256 preimage)) secret_key ++ [0x01].

Fixpoint sign_inputs (fuel : nat) (original_psbt : list Z) (unsigned_tx_hex : string) (pubkey secret_key : list Z)
    (input_idx : Z) (n : nat) (pos : Z) : result (list Z * Z) running :=
  match n with
  | O => Ok ([], pos)
  | S n =>
      let der := input_signature unsigned_tx_hex input_idx secret_key in
      let? pos := skip_map fuel original_psbt pos in
      let? (rest, pos) := sign_inputs fuel original_psbt unsigned_tx_hex pubkey secret_key (input_idx + 1) n pos in
      Ok (write_pair (0x02 :: pubkey) der ++ [0x01; 0x03; 0x04] ++ le_enc 4 1 ++ [0x00] ++ rest, pos)
  end.

Fixpoint skip_outputs (fuel : nat) (original_psbt : list Z) (n : nat) (pos : Z) : result (list Z) running :=
  match n with
  | O => Ok []
  | S n =>
      let? pos := skip_map fuel original_psbt pos in
      let? rest := skip_outputs fuel original_psbt n pos in
      Ok (0x00 :: rest)
  end.

Definition build_signed_psbt (fuel : nat) (original_psbt : list Z) (keystore : Keystore)
    : result (list Z * bool) running :=
  let? tx := parse_psbt_unsigned_tx fuel original_psbt in
  let num_inputs := length (ptx_vin tx) in
  match signer_material keystore (key_order (ks_keys keystore)) with
  | None => Ok (original_psbt, false)
  | Some (pubkey_bytes, secret_key) =>
      let? (head, pos) := copy_global fuel original_psbt 5 MAGIC in
      let head := if bool_decide (last head = Some 0x00) then head else head ++ [0x00] in
      let? unsigned_tx_hex := extract_unsigned_tx_hex fuel original_psbt in
      let? (inputs, pos) := sign_inputs fuel original_psbt unsigned_tx_hex pubkey_bytes secret_key 0 num_inputs pos in
      let? outputs := skip_outputs fuel original_psbt (length (ptx_vout tx)) pos in
      Ok (head ++ inputs ++ outputs, (0 <? num_inputs)%nat)
  end.

Definition handle_walletprocesspsbt (fuel : nat) (now : Z) (params : Json) (w : WalletState) : result Response running :=
  if negb (ws_loaded w) then Ok not_loaded
  else if negb (is_wallet_unlocked w now) then Ok locked_wallet
  else
    match psbt_param params "Invalid PSBT base64" with
    | inr answer => Ok answer
    | inl (psbt_b64, bytes) =>
        let? unsigned_tx_hex := extract_unsigned_tx_hex fuel bytes in
        if bool_decide (unsigned_tx_hex = ""%string)
        then Ok (ErrResponse (-22) (lit "Could not extract unsigned tx from PSBT"))
        else
          let? (signed_psbt, complete) := build_signed_psbt fuel bytes (ws_keystore w) in
          Ok (OkResponse (if complete : bool
                then JObj [("psbt"%string, JStr (base64_encode signed_psbt)); ("complete"%string, JBool true)]
                else JObj [("psbt"%string, JStr psbt_b64); ("complete"%string, JBool false)]))
    end.
End commands.
