(* ===== verification/PsbtBytes.v ===== *)
(** * Base64 and compact sizes read back

    The encoders and decoders that the commands on partially signed transactions use. *)

From S2P Require Import Prelude Float64 Decimal Amounts Crates AccountId Bech32 Addresses Borsh GenesisTools Wallet.
From S2P Require Import Translator NearClient SendRaw Psbt.

(* ------------------------------------------------------------------ *)
(** ** Base64 *)

Definition b64_char (v : Z) : Z := nth (Z.to_nat v) BASE64_CHARS 0.

Lemma b64_char_spec v : digit 6 v ->
  base64_value (b64_char v) = Some v /\ 0 <= b64_char v < 128 /\ b64_char v <> 61 /\ is_whitespace (b64_char v) = false.
Proof.
  intros [H0 H1].
  assert (Hall : forallb (fun v => let c := b64_char v in
    bool_decide (base64_value c = Some v) && (0 <=? c) && (c <? 128) && negb (c =? 61) && negb (is_whitespace c))
    (map Z.of_nat (seq 0 64)) = true) by (vm_compute; reflexivity).
  rewrite forallb_forall in Hall. specialize (Hall v). cbv zeta in Hall.
  assert (Hin : In v (map Z.of_nat (seq 0 64))).
  { apply in_map_iff. exists (Z.to_nat v). split; [lia|]. apply in_seq. change (2 ^ 6) with 64 in H1. lia. }
  specialize (Hall Hin). bool_inv. by rewrite <- negb_true_iff in *.
Qed.

(** One character: the pending bits, and the byte that leaves them. *)
Lemma base64_step buf bits v l : 0 <= buf -> 0 <= bits <= 6 -> digit 6 v ->
  exists buf', 0 <= buf' /\ buf' mod 2 ^ (bits + 6) = (buf mod 2 ^ bits) * 64 + v /\
  base64_loop (b64_char v :: l) buf bits =
    if 8 <=? bits + 6 then
      let? output := base64_loop l buf' (bits - 2) in
      Ok ((buf' mod 2 ^ (bits + 6)) / 2 ^ (bits - 2) :: output)
    else base64_loop l buf' (bits + 6).
Proof.
  intros Hb Hbits Hv. destruct (shift_in buf bits 6 v) as [H1 H2]; [lia..|done|].
  eexists. split; [exact H1|]. split; [rewrite H2; change (2 ^ 6) with 64; done|].
  cbn [base64_loop]. rewrite (proj1 (b64_char_spec v Hv)).
  destruct (Z.leb_spec 8 (bits + 6)); [|done].
  replace (bits + 6 - 8) with (bits - 2) by lia.
  set (buf' := Z.lor _ v). clearbody buf'. destruct (base64_loop l buf' (bits - 2)); [|done|done]. simpl. f_equal. f_equal.
  change 255 with (Z.ones 8). rewrite Z.land_ones, Z.shiftr_div_pow2 by lia.
  replace (2 ^ (bits + 6)) with (2 ^ (bits - 2) * 2 ^ 8) by (rewrite <- Z.pow_add_r by lia; f_equal; lia).
  rewrite Z.rem_mul_r by lia. rewrite Z.add_comm, (Z.mul_comm (2 ^ (bits - 2))), Z.div_add_l by lia.
  rewrite (Z.div_small (_ mod _)); [lia|]. apply Z.mod_pos_bound. lia.
Qed.

Lemma mod_weaken b j k : 0 <= j <= k -> (b mod 2 ^ k) mod 2 ^ j = b mod 2 ^ j.
Proof.
  intros H. replace (2 ^ k) with (2 ^ j * 2 ^ (k - j)) by (rewrite <- Z.pow_add_r by lia; f_equal; lia).
  rewrite Z.rem_mul_r by lia. rewrite (Z.mul_comm (2 ^ j) (_ mod _)), Z.mod_add by lia. apply Z.mod_mod. lia.
Qed.

(** Two, three and four characters from an empty buffer. *)
Lemma base64_two buf v0 v1 l : 0 <= buf -> digit 6 v0 -> digit 6 v1 ->
  exists buf', 0 <= buf' /\ buf' mod 2 ^ 4 = v1 mod 16 /\
  base64_loop (b64_char v0 :: b64_char v1 :: l) buf 0 =
    let? output := base64_loop l buf' 4 in Ok ((v0 * 64 + v1) / 16 :: output).
Proof.
  intros Hb H0 H1.
  destruct (base64_step buf 0 v0 (b64_char v1 :: l)) as (b1 & Hb1 & E1 & ->); [lia..|done|].
  change (8 <=? 0 + 6) with false. cbn iota. change (0 + 6) with 6 in *.
  destruct (base64_step b1 6 v1 l) as (b2 & Hb2 & E2 & ->); [lia..|done|].
  change (8 <=? 6 + 6) with true. change (6 + 6) with 12 in *. change (6 - 2) with 4. cbn iota. exists b2. split; [done|].
  rewrite E1, Z.pow_0_r, Z.mod_1_r in E2. split.
  - rewrite <- (mod_weaken b2 4 12), E2 by lia. change (2 ^ 4) with 16. destruct H0, H1. Z.to_euclidean_division_equations; lia.
  - by rewrite E2.
Qed.

Lemma base64_third buf v1 v2 l : 0 <= buf -> buf mod 2 ^ 4 = v1 mod 16 -> digit 6 v2 ->
  exists buf', 0 <= buf' /\ buf' mod 2 ^ 2 = v2 mod 4 /\
  base64_loop (b64_char v2 :: l) buf 4 =
    let? output := base64_loop l buf' 2 in Ok ((v1 mod 16 * 64 + v2) / 4 :: output).
Proof.
  intros Hb E H2. destruct (base64_step buf 4 v2 l) as (b' & Hb' & E' & ->); [lia..|done|].
  change (8 <=? 4 + 6) with true. change (4 + 6) with 10 in *. change (4 - 2) with 2. cbn iota. exists b'. split; [done|]. rewrite E in E'. split.
  - rewrite <- (mod_weaken b' 2 10), E' by lia. change (2 ^ 2) with 4. Z.to_euclidean_division_equations; lia.
  - by rewrite E'.
Qed.

Lemma base64_fourth buf v2 v3 l : 0 <= buf -> buf mod 2 ^ 2 = v2 mod 4 -> digit 6 v3 ->
  exists buf', 0 <= buf' /\
  base64_loop (b64_char v3 :: l) buf 2 =
    let? output := base64_loop l buf' 0 in Ok (v2 mod 4 * 64 + v3 :: output).
Proof.
  intros Hb E H3. destruct (base64_step buf 2 v3 l) as (b' & Hb' & E' & ->); [lia..|done|].
  change (8 <=? 2 + 6) with true. change (2 + 6) with 8 in *. change (2 - 2) with 0. cbn iota. exists b'. split; [done|]. rewrite E in E'.
  by rewrite E', Z.pow_0_r, Z.div_1_r.
Qed.

Lemma lor_shift a b k : 0 <= a -> 0 <= k -> 0 <= b < 2 ^ k -> Z.lor (Z.shiftl a k) b = a * 2 ^ k + b.
Proof.
  intros Ha Hk Hb.
  assert (Hl : Z.land (Z.shiftl a k) b = 0).
  { apply Z.bits_inj'. intros n Hn. rewrite Z.land_spec, Z.bits_0. destruct (Z.lt_ge_cases n k).
    - by rewrite Z.shiftl_spec_low by lia.
    - rewrite <- (Z.mod_small b (2 ^ k)), Z.mod_pow2_bits_high by lia. apply andb_false_r. }
  by rewrite <- Z.lxor_lor, <- Z.add_nocarry_lxor, Z.shiftl_mul_pow2.
Qed.

Lemma base64_char_spec t s : 0 <= s -> base64_char t s = b64_char ((t / 2 ^ s) mod 64) /\ digit 6 ((t / 2 ^ s) mod 64).
Proof.
  intros Hs. unfold base64_char, b64_char. change 63 with (Z.ones 6).
  rewrite Z.land_ones, Z.shiftr_div_pow2 by lia. change (2 ^ 6) with 64. split; [done|].
  unfold digit. change (2 ^ 6) with 64. pose proof (Z.mod_pos_bound (t / 2 ^ s) 64). lia.
Qed.

Ltac b64_chars := repeat match goal with
  |- context [base64_char ?t ?s] =>
    let E := fresh "E" in let D := fresh "D" in destruct (base64_char_spec t s) as [E D]; [lia|]; rewrite E; clear E
  end.

Definition b64_alpha (c : Z) : Prop := 0 <= c < 128 /\ c <> 61 /\ is_whitespace c = false.
Lemma b64_alpha_char v : digit 6 v -> b64_alpha (b64_char v).
Proof. intros H. destruct (b64_char_spec v H) as (_ & ? & ? & ?). done. Qed.

(** The characters of the text before the padding decode to the bytes. *)
Lemma base64_chunks_spec : forall n l, (length l <= n)%nat -> bytes_ok l ->
  exists cs k, base64_chunks l = cs ++ repeat 61 k /\ Forall b64_alpha cs /\
  forall buf, 0 <= buf -> base64_loop cs buf 0 = Ok l.
Proof.
  induction n as [|n IH]; intros l Hn Hl.
  { destruct l; [|simpl in Hn; lia]. exists [], 0%nat. split; [done|]. split; [constructor|done]. }
  destruct l as [|x0 [|x1 [|x2 l]]]; cbn [base64_chunks]; cbv zeta.
  - exists [], 0%nat. split; [done|]. split; [constructor|done].
  - inversion_clear Hl as [|? ? H0 _]. unfold is_byte in *. rewrite Z.shiftl_mul_pow2 by lia. b64_chars.
    eexists [_; _], 2%nat. split; [reflexivity|]. split; [repeat constructor; by apply b64_alpha_char|].
    intros buf Hb. destruct (base64_two buf _ _ [] Hb D D0) as (b' & _ & _ & ->). simpl. f_equal. f_equal.
    Z.to_euclidean_division_equations; lia.
  - inversion_clear Hl as [|? ? H0 Hl']. inversion_clear Hl' as [|? ? H1 _]. unfold is_byte in *.
    replace (Z.shiftl x0 16) with (Z.shiftl (Z.shiftl x0 8) 8) by (by rewrite Z.shiftl_shiftl).
    rewrite <- Z.shiftl_lor, lor_shift, Z.shiftl_mul_pow2 by lia. b64_chars.
    eexists [_; _; _], 1%nat. split; [reflexivity|]. split; [repeat constructor; by apply b64_alpha_char|].
    intros buf Hb. destruct (base64_two buf _ _ [b64_char (((x0 * 2 ^ 8 + x1) * 2 ^ 8 / 2 ^ 6) mod 64)] Hb D D0) as (b' & Hb' & Eb & ->).
    destruct (base64_third b' _ _ [] Hb' Eb D1) as (b2 & _ & _ & ->). simpl.
    f_equal. f_equal; [|f_equal]; Z.to_euclidean_division_equations; lia.
  - inversion_clear Hl as [|? ? H0 Hl']. inversion_clear Hl' as [|? ? H1 Hl2]. inversion_clear Hl2 as [|? ? H2 Hl3]. unfold is_byte in *.
    destruct (IH l) as (cs & k & Ec & Hcs & Hd); [simpl in Hn; lia|done|]. rewrite Ec. clear IH Ec.
    replace (Z.shiftl x0 16) with (Z.shiftl (Z.shiftl x0 8) 8) by (by rewrite Z.shiftl_shiftl).
    rewrite <- Z.shiftl_lor, (lor_shift x0 x1 8), (lor_shift (x0 * 2 ^ 8 + x1) x2 8) by lia. b64_chars.
    eexists (_ :: _ :: _ :: _ :: cs), k. split; [reflexivity|]. split; [repeat (constructor; [by apply b64_alpha_char|]); done|].
    intros buf Hb.
    match goal with |- base64_loop (_ :: _ :: ?l2) _ _ = _ => destruct (base64_two buf _ _ l2 Hb D D0) as (b1 & Hb1 & E1 & ->) end.
    match goal with |- context [base64_loop (_ :: ?l2) b1 4] => destruct (base64_third b1 _ _ l2 Hb1 E1 D1) as (b2 & Hb2 & E2 & ->) end.
    destruct (base64_fourth b2 _ _ cs Hb2 E2 D2) as (b3 & Hb3 & ->). rewrite (Hd b3 Hb3). simpl.
    f_equal. f_equal; [|f_equal; [|f_equal]]; Z.to_euclidean_division_equations; lia.
Qed.

Lemma chars_ascii l : Forall (fun c => 0 <= c < 128) l -> chars (of_bytes l) = l.
Proof.
  intros H. unfold chars. rewrite as_bytes_of_bytes by (eapply Forall_impl; [exact H|]; intros x ?; unfold is_byte; simpl in *; lia).
  induction H as [|x l Hx _ IH]; [done|]. simpl. destruct (Z.ltb_spec x 128); [by rewrite IH|lia].
Qed.

Lemma trim_start_none l : Forall (fun c => is_whitespace c = false) l -> trim_start l = l.
Proof. intros H. destruct H as [|x l Hx _]; [done|]. simpl. by rewrite Hx. Qed.
Lemma trim_none l : Forall (fun c => is_whitespace c = false) l -> trim l = l.
Proof.
  intros H. unfold trim. rewrite (trim_start_none l H), trim_start_none by by apply Forall_rev. apply rev_involutive.
Qed.

Lemma trim_end_padding cs k : Forall b64_alpha cs -> rev (trim_end_eq (rev (cs ++ repeat 61 k))) = cs.
Proof.
  intros H. rewrite rev_app_distr, rev_repeat. induction k as [|k IH]; [|exact IH]. simpl.
  destruct (rev cs) as [|x l] eqn:E; simpl; [by rewrite <- (rev_involutive cs), E|].
  assert (Hx : b64_alpha x). { apply Forall_rev in H. rewrite E in H. by inversion H. }
  destruct Hx as (_ & Hx & _). rewrite (proj2 (Z.eqb_neq x 61) Hx), <- E. apply rev_involutive.
Qed.

(** What is encoded is decoded, by the server's own functions. *)
Lemma base64_decode_encode b : bytes_ok b -> base64_decode (base64_encode b) = Ok b.
Proof.
  intros Hb. destruct (base64_chunks_spec (length b) b) as (cs & k & Ec & Hcs & Hd); [done|done|].
  unfold base64_decode, base64_encode. rewrite Ec.
  assert (Hall : Forall (fun c => 0 <= c < 128 /\ is_whitespace c = false) (cs ++ repeat 61 k)).
  { apply Forall_app. split; [eapply Forall_impl; [exact Hcs|]; intros c (? & _ & ?); done|].
    apply Forall_forall. intros x Hx%list_elem_of_In%repeat_spec. subst x. split; [lia|reflexivity]. }
  rewrite chars_ascii, trim_none, trim_end_padding by
    first [done | eapply Forall_impl; [exact Hall|]; by intros c []]. by apply Hd.
Qed.

(* ------------------------------------------------------------------ *)
(** ** Compact sizes *)

Lemma from_le_le_enc n v : 0 <= v < 256 ^ Z.of_nat n -> from_le_bytes (le_enc n v) = v.
Proof.
  revert v. induction n as [|n IH]; intros v Hv; [simpl in *; lia|].
  rewrite Nat2Z.inj_succ, Z.pow_succ_r in Hv by lia. cbn [le_enc from_le_bytes fold_right].
  fold (from_le_bytes (le_enc n (v / 256))). rewrite IH; [Z.to_euclidean_division_equations; lia|].
  split; [apply Z.div_pos; lia|]. apply Z.div_lt_upper_bound; lia.
Qed.

Lemma write_compact_size_ok n : is_u u64_max n -> bytes_ok (write_compact_size n).
Proof.
  intros [H0 H1]. unfold write_compact_size. destruct (Z.ltb_spec n 253).
  { constructor; [unfold is_byte; lia|constructor]. }
  destruct (n <=? 0xFFFF), (n <=? 0xFFFFFFFF); (constructor; [unfold is_byte; lia|apply le_enc_ok]).
Qed.

Lemma varint_is_compact_size n : encode_bitcoin_varint n = write_compact_size n.
Proof. reflexivity. Qed.

(** A size that was written is read back, with its length. *)
Lemma read_size_written pre n post : is_u u64_max n ->
  read_compact_size (pre ++ write_compact_size n ++ post) (vec_len pre)
  = (n, vec_len (write_compact_size n)).
Proof.
  intros [H0 H1]. unfold read_compact_size, vec_len. rewrite !length_app, !Nat2Z.inj_add, Nat2Z.id, drop_app_length.
  assert (Hlen : (0 < length (write_compact_size n))%nat).
  { unfold write_compact_size. repeat case_match; simpl; lia. }
  destruct (Z.leb_spec (Z.of_nat (length pre) + (Z.of_nat (length (write_compact_size n)) + Z.of_nat (length post))) (Z.of_nat (length pre))); [lia|].
  unfold write_compact_size in *. destruct (Z.ltb_spec n 253).
  { simpl. destruct (Z.ltb_spec n 253); [done|lia]. }
  destruct (Z.leb_spec n 0xFFFF); [|destruct (Z.leb_spec n 0xFFFFFFFF)];
    cbn [app nth length drop skipn]; rewrite ?le_enc_length, drop_0; cbn [Z.eqb Pos.eqb andb];
    (match goal with |- context [?a <? 253] => destruct (Z.ltb_spec a 253); [lia|] end);
    (match goal with |- context [?a <? ?b] => destruct (Z.ltb_spec a b); [|lia] end);
    rewrite take_app_length' by (symmetry; apply le_enc_length); (rewrite from_le_le_enc; [done|unfold u64_max in *; simpl; lia]).
Qed.
