(* ===== verification/PsbtReads.v ===== *)
(** * Reading partially signed transactions back

    What the readers of PSBTs find at the place of what the writers wrote. *)

From S2P Require Import Prelude Float64 Decimal Amounts Crates AccountId Bech32 Addresses Borsh GenesisTools GenesisProofs Wallet.
From S2P Require Import Translator NearClient SendRaw Psbt PsbtBytes.

(** Data that fits into memory. *)
Definition fits (d : list Z) : Prop := vec_len d <= 2 ^ 62.

Lemma vec_len_app {A} (a b : list A) : vec_len (a ++ b) = vec_len a + vec_len b.
Proof. unfold vec_len. rewrite length_app. lia. Qed.
Lemma vec_len_nonneg {A} (a : list A) : 0 <= vec_len a.
Proof. unfold vec_len. lia. Qed.
Lemma vec_len_cons {A} (x : A) (a : list A) : vec_len (x :: a) = 1 + vec_len a.
Proof. unfold vec_len. simpl. lia. Qed.
Lemma vec_len_nil {A} : vec_len (@nil A) = 0.
Proof. done. Qed.
Lemma wadd_small a b : 0 <= a -> 0 <= b -> a + b <= u64_max -> wadd a b = a + b.
Proof. intros. unfold wadd, wrapping_add. apply Z.mod_small. lia. Qed.

Lemma range_at pre x post a b : a = vec_len pre -> b = vec_len pre + vec_len x ->
  range (pre ++ x ++ post) a b = Ok x.
Proof.
  intros -> ->. unfold range. rewrite !vec_len_app. pose proof (vec_len_nonneg pre). pose proof (vec_len_nonneg x).
  pose proof (vec_len_nonneg post).
  destruct (Z.leb_spec (vec_len pre) (vec_len pre + vec_len x)); [|lia].
  destruct (Z.leb_spec (vec_len pre + vec_len x) (vec_len pre + (vec_len x + vec_len post))); [|lia]. simpl.
  replace (vec_len pre + vec_len x - vec_len pre) with (vec_len x) by lia. unfold vec_len. rewrite !Nat2Z.id.
  by rewrite drop_app_length, take_app_length.
Qed.

Lemma range_in d pre x post a b : d = pre ++ x ++ post -> a = vec_len pre -> b = vec_len pre + vec_len x ->
  range d a b = Ok x.
Proof. intros ->. apply range_at. Qed.

Lemma byte_at_here pre x post a : a = vec_len pre -> byte_at (pre ++ x :: post) a = Ok x.
Proof.
  intros ->. unfold byte_at. rewrite vec_len_app, vec_len_cons. pose proof (vec_len_nonneg post).
  destruct (Z.ltb_spec (vec_len pre) (vec_len pre + (1 + vec_len post))); [|lia].
  unfold vec_len. rewrite Nat2Z.id, nth_middle. done.
Qed.

Lemma read_at d pre n post a : d = pre ++ write_compact_size n ++ post -> a = vec_len pre -> is_u u64_max n ->
  read_compact_size d a = (n, vec_len (write_compact_size n)).
Proof. intros -> -> H. by apply read_size_written. Qed.

Lemma compact_len n : 1 <= vec_len (write_compact_size n) <= 9.
Proof. unfold write_compact_size, vec_len. repeat case_match; cbn [length]; rewrite ?le_enc_length; lia. Qed.

Lemma write_pair_len k v : vec_len k + vec_len v + 2 <= vec_len (write_pair k v).
Proof.
  unfold write_pair. rewrite !vec_len_app. pose proof (compact_len (vec_len k)). pose proof (compact_len (vec_len v)). lia.
Qed.

Ltac lens := repeat match goal with
  | H : context [vec_len (_ ++ _)] |- _ => rewrite vec_len_app in H
  | |- context [vec_len (_ ++ _)] => rewrite vec_len_app
  | H : context [vec_len (_ :: _)] |- _ => rewrite vec_len_cons in H
  | |- context [vec_len (_ :: _)] => rewrite vec_len_cons
  | H : context [vec_len (@nil ?A)] |- _ => rewrite (@vec_len_nil A) in H
  | |- context [vec_len (@nil ?A)] => rewrite (@vec_len_nil A)
  end.
Ltac nonneg := repeat match goal with
  | |- context [vec_len ?l] => lazymatch goal with H : 0 <= vec_len l |- _ => fail | _ => pose proof (vec_len_nonneg l) end
  | _ : context [vec_len ?l] |- _ => lazymatch goal with H : 0 <= vec_len l |- _ => fail | _ => pose proof (vec_len_nonneg l) end
  end.
Ltac len_lia := unfold fits, u64_max, is_u in *; lens; nonneg; change (2 ^ 62) with 4611686018427387904 in *; lia.

(** Sums that do not wrap, innermost first. *)
Ltac wadds := repeat match goal with |- context [wadd ?a ?b] =>
  lazymatch a with context [wadd _ _] => fail | _ => rewrite (wadd_small a b) by len_lia end end.

(** The key and the value of a pair, in place. *)
Section pair.
Variables (pre k v post : list Z).
Hypothesis (Hk : k <> []) (Hfit : fits (pre ++ write_pair k v ++ post)).
Let d := pre ++ write_pair k v ++ post.
Let lk := write_compact_size (vec_len k).
Let lv := write_compact_size (vec_len v).

Lemma pair_key : read_compact_size d (vec_len pre) = (vec_len k, vec_len lk) /\ 1 <= vec_len k
  /\ wadd (vec_len pre) (vec_len lk) = vec_len (pre ++ lk)
  /\ wadd (vec_len (pre ++ lk)) (vec_len k) = vec_len (pre ++ lk ++ k)
  /\ vec_len pre < vec_len d /\ vec_len (pre ++ lk) < vec_len d /\ vec_len (pre ++ lk ++ k) < vec_len d.
Proof using Hk Hfit.
  subst d lk lv. unfold write_pair in *. pose proof (compact_len (vec_len k)) as H1. pose proof (compact_len (vec_len v)) as H2.
  assert (1 <= vec_len k) by (destruct k; [done|len_lia]).
  split. { apply (read_at _ pre _ (k ++ write_compact_size (vec_len v) ++ v ++ post)); [by rewrite <- !app_assoc|done|len_lia]. }
  split; [done|].
  rewrite !wadd_small; len_lia.
Qed.

Lemma pair_value : read_compact_size d (vec_len (pre ++ lk ++ k)) = (vec_len v, vec_len lv)
  /\ wadd (vec_len (pre ++ lk ++ k)) (vec_len lv) = vec_len (pre ++ lk ++ k ++ lv)
  /\ wadd (vec_len (pre ++ lk ++ k ++ lv)) (vec_len v) = vec_len (pre ++ write_pair k v)
  /\ range d (vec_len (pre ++ lk ++ k ++ lv)) (vec_len (pre ++ write_pair k v)) = Ok v
  /\ vec_len (pre ++ write_pair k v) <= vec_len d.
Proof using Hfit.
  subst d lk lv. unfold write_pair in *. pose proof (compact_len (vec_len k)) as H1. pose proof (compact_len (vec_len v)) as H2.
  split. { apply (read_at _ (pre ++ write_compact_size (vec_len k) ++ k) _ (v ++ post)); [by rewrite <- !app_assoc|done|len_lia]. }
  split; [rewrite wadd_small; len_lia|]. split; [rewrite wadd_small; len_lia|]. split; [|len_lia].
  rewrite <- !app_assoc.
  replace (pre ++ write_compact_size (vec_len k) ++ k ++ write_compact_size (vec_len v) ++ v ++ post)
    with ((pre ++ write_compact_size (vec_len k) ++ k ++ write_compact_size (vec_len v)) ++ v ++ post) by (by rewrite <- !app_assoc).
  apply range_at; [done|len_lia].
Qed.

Lemma pair_key_byte t kd : k = t :: kd ->
  byte_at d (vec_len (pre ++ lk)) = Ok t
  /\ (if (1 <? vec_len k) && (vec_len (pre ++ lk ++ k) <=? vec_len d)
      then range d (wadd (vec_len (pre ++ lk)) 1) (vec_len (pre ++ lk ++ k)) else Ok []) = Ok kd.
Proof using Hk Hfit.
  intros ->. subst d lk lv. unfold write_pair in *. pose proof (compact_len (vec_len (t :: kd))) as H1.
  pose proof (compact_len (vec_len v)) as H2. set (lk := write_compact_size (vec_len (t :: kd))) in *.
  set (lv := write_compact_size (vec_len v)) in *. rewrite <- !app_assoc in *. cbn [app] in *. split.
  - replace (pre ++ lk ++ t :: kd ++ lv ++ v ++ post) with ((pre ++ lk) ++ t :: kd ++ lv ++ v ++ post) by (by rewrite <- app_assoc).
    by apply byte_at_here.
  - rewrite wadd_small by len_lia. rewrite vec_len_cons. destruct kd as [|x kd]; [done|].
    destruct (Z.ltb_spec 1 (1 + vec_len (x :: kd))); [|len_lia].
    match goal with |- context [?a <=? ?b] => destruct (Z.leb_spec a b); [|len_lia] end. simpl.
    replace (pre ++ lk ++ t :: x :: kd ++ lv ++ v ++ post) with ((pre ++ lk ++ [t]) ++ (x :: kd) ++ lv ++ v ++ post)
      by (by rewrite <- !app_assoc).
    apply range_at; len_lia.
Qed.
End pair.

(* ------------------------------------------------------------------ *)
(** ** The loops, pair by pair *)

Section loops.
Variables (pre k v post : list Z).
Hypothesis (Hk : k <> []) (Hfit : fits (pre ++ write_pair k v ++ post)).

Lemma skip_pair fuel : skip_map (S fuel) (pre ++ write_pair k v ++ post) (vec_len pre)
  = skip_map fuel (pre ++ write_pair k v ++ post) (vec_len (pre ++ write_pair k v)).
Proof using Hk Hfit.
  destruct (pair_key pre k v post Hk Hfit) as (E1 & Hk1 & E2 & E3 & L1 & L2 & L3).
  destruct (pair_value pre k v post Hfit) as (E4 & E5 & E6 & _ & L4).
  cbn [skip_map]. rewrite (proj2 (Z.leb_gt _ _) L1), E1, E2. rewrite (proj2 (Z.eqb_neq _ _)) by lia.
  rewrite E3, (proj2 (Z.leb_gt _ _) L3), E4, E5, E6. done.
Qed.

Lemma find_pair fuel t kd : k = t :: kd -> find_unsigned_tx (S fuel) (pre ++ write_pair k v ++ post) (vec_len pre)
  = if t =? 0 then Ok (Some v)
    else find_unsigned_tx fuel (pre ++ write_pair k v ++ post) (vec_len (pre ++ write_pair k v)).
Proof using Hk Hfit.
  intros Et. destruct (pair_key pre k v post Hk Hfit) as (E1 & Hk1 & E2 & E3 & L1 & L2 & L3).
  destruct (pair_value pre k v post Hfit) as (E4 & E5 & E6 & E7 & L4).
  destruct (pair_key_byte pre k v post Hk Hfit t kd Et) as [Eb _].
  cbn [find_unsigned_tx]. rewrite (proj2 (Z.leb_gt _ _) L1), E1, E2. rewrite (proj2 (Z.eqb_neq (vec_len k) 0)) by lia.
  rewrite (proj2 (Z.leb_gt _ _) L2), Eb. cbn [rbind]. rewrite E3, (proj2 (Z.leb_gt _ _) L3), E4, E5, E6.
  destruct (t =? 0); [|done]. rewrite (proj2 (Z.ltb_ge _ _) L4), E7. done.
Qed.

Lemma input_pair fuel t kd i : k = t :: kd -> parse_input_map (S fuel) (pre ++ write_pair k v ++ post) (vec_len pre) i
  = parse_input_map fuel (pre ++ write_pair k v ++ post) (vec_len (pre ++ write_pair k v)) (add_pair t kd v i).
Proof using Hk Hfit.
  intros Et. destruct (pair_key pre k v post Hk Hfit) as (E1 & Hk1 & E2 & E3 & L1 & L2 & L3).
  destruct (pair_value pre k v post Hfit) as (E4 & E5 & E6 & E7 & L4).
  destruct (pair_key_byte pre k v post Hk Hfit t kd Et) as [Eb Ekd].
  cbn [parse_input_map]. rewrite (proj2 (Z.leb_gt _ _) L1), E1, E2. rewrite (proj2 (Z.eqb_neq (vec_len k) 0)) by lia.
  rewrite (proj2 (Z.leb_gt _ _) L2), Eb. cbn [rbind]. rewrite E3, Ekd. cbn [rbind].
  rewrite (proj2 (Z.leb_gt _ _) L3), E4, E5, E6, (proj2 (Z.leb_le _ _) L4), E7. done.
Qed.

Lemma copy_pair fuel acc : copy_global (S fuel) (pre ++ write_pair k v ++ post) (vec_len pre) acc
  = copy_global fuel (pre ++ write_pair k v ++ post) (vec_len (pre ++ write_pair k v)) (acc ++ write_pair k v).
Proof using Hk Hfit.
  destruct (pair_key pre k v post Hk Hfit) as (E1 & Hk1 & E2 & E3 & L1 & L2 & L3).
  destruct (pair_value pre k v post Hfit) as (E4 & E5 & E6 & _ & L4).
  cbn [copy_global]. rewrite (proj2 (Z.leb_gt _ _) L1), E1. rewrite (proj2 (Z.eqb_neq _ _)) by lia.
  rewrite E2, E3, E4, E5, E6. rewrite (range_at pre (write_pair k v) post) by (done || len_lia). done.
Qed.
End loops.

(** The end of a map. *)
Section separator.
Variables (pre post : list Z).
Hypothesis (Hfit : fits (pre ++ [0] ++ post)).

Lemma read_zero : read_compact_size (pre ++ [0] ++ post) (vec_len pre) = (0, 1)
  /\ wadd (vec_len pre) 1 = vec_len (pre ++ [0]) /\ vec_len pre < vec_len (pre ++ [0] ++ post).
Proof using Hfit.
  split; [by apply (read_at _ pre 0 post)|]. rewrite wadd_small; len_lia.
Qed.

Lemma skip_end fuel : skip_map (S fuel) (pre ++ [0] ++ post) (vec_len pre) = Ok (vec_len (pre ++ [0])).
Proof using Hfit.
  destruct read_zero as (E1 & E2 & L). cbn [skip_map]. by rewrite (proj2 (Z.leb_gt _ _) L), E1, E2.
Qed.
Lemma input_end fuel i : parse_input_map (S fuel) (pre ++ [0] ++ post) (vec_len pre) i = Ok (i, vec_len (pre ++ [0])).
Proof using Hfit.
  destruct read_zero as (E1 & E2 & L). cbn [parse_input_map]. by rewrite (proj2 (Z.leb_gt _ _) L), E1, E2.
Qed.
Lemma copy_end fuel acc : copy_global (S fuel) (pre ++ [0] ++ post) (vec_len pre) acc = Ok (acc ++ [0], vec_len (pre ++ [0])).
Proof using Hfit.
  destruct read_zero as (E1 & E2 & L). cbn [copy_global]. by rewrite (proj2 (Z.leb_gt _ _) L), E1, E2.
Qed.
End separator.

(* ------------------------------------------------------------------ *)
(** ** The head *)

Section head.
Variables (tx post : list Z).
Hypothesis (Hfit : fits (psbt_head tx ++ post)).

Lemma head_pair : psbt_head tx ++ post = MAGIC ++ write_pair [0] tx ++ [0] ++ post.
Proof. unfold psbt_head, write_pair. by rewrite <- !app_assoc. Qed.

Lemma find_head fuel : find_unsigned_tx (S fuel) (psbt_head tx ++ post) 5 = Ok (Some tx).
Proof using Hfit.
  rewrite head_pair in *. change 5 with (vec_len MAGIC). by rewrite (find_pair MAGIC [0] tx ([0] ++ post) ltac:(done) Hfit fuel 0 []).
Qed.

Lemma head_end : fits ((MAGIC ++ write_pair [0] tx) ++ [0] ++ post)
  /\ (MAGIC ++ write_pair [0] tx) ++ [0] = psbt_head tx
  /\ MAGIC ++ write_pair [0] tx ++ [0] ++ post = (MAGIC ++ write_pair [0] tx) ++ [0] ++ post.
Proof using Hfit.
  rewrite head_pair in Hfit. split; [by rewrite <- app_assoc|]. split; [|by rewrite <- app_assoc].
  unfold psbt_head, write_pair. by rewrite <- !app_assoc.
Qed.

Lemma skip_head fuel : skip_map (S (S fuel)) (psbt_head tx ++ post) 5 = Ok (vec_len (psbt_head tx)).
Proof using Hfit.
  destruct head_end as (H1 & H2 & H3). rewrite head_pair in *. change 5 with (vec_len MAGIC).
  rewrite (skip_pair MAGIC [0] tx ([0] ++ post) ltac:(done) Hfit (S fuel)), H3.
  by rewrite (skip_end _ post H1), H2.
Qed.

Lemma copy_head fuel : copy_global (S (S fuel)) (psbt_head tx ++ post) 5 MAGIC = Ok (psbt_head tx, vec_len (psbt_head tx)).
Proof using Hfit.
  destruct head_end as (H1 & H2 & H3). rewrite head_pair in *. change 5 with (vec_len MAGIC).
  rewrite (copy_pair MAGIC [0] tx ([0] ++ post) ltac:(done) Hfit (S fuel)), H3.
  by rewrite (copy_end _ post H1), H2.
Qed.
End head.

(* ------------------------------------------------------------------ *)
(** ** The maps of the inputs *)

Section maps.
Context {C : Crates} {R : RpcCrates} {L : RpcLaws C R}.
#[local] Set Default Proof Using "All".

Definition sig_ok (e : string * string) : Prop :=
  exists kb vb, e = (hex_encode kb, hex_encode vb) /\ bytes_ok kb /\ bytes_ok vb.
Definition sigs_ok (m : gmap string string) : Prop := map_Forall (fun k v => sig_ok (k, v)) m.
Definition put_sig (i : InputInfo) (e : string * string) : InputInfo :=
  mkInputInfo (<[e.1 := e.2]> (in_partial_signatures i)) (in_sighash i) (in_bip32 i).

Lemma write_signature_pair e : sig_ok e ->
  exists kb vb, write_signature e = write_pair (2 :: kb) vb /\ forall i, add_pair 2 kb vb i = put_sig i e.
Proof.
  intros (kb & vb & -> & Hk & Hv). exists kb, vb. unfold write_signature. simpl. by rewrite !hex_round.
Qed.

Lemma signatures_len l : Forall sig_ok l -> (length l <= length (flat_map write_signature l))%nat.
Proof.
  induction 1 as [|e l He _ IH]; [done|]. simpl. rewrite length_app.
  destruct (write_signature_pair e He) as (kb & vb & -> & _). pose proof (write_pair_len (2 :: kb) vb). unfold vec_len in *. simpl in *. lia.
Qed.

Lemma read_signatures l : Forall sig_ok l -> forall pre post i fuel,
  fits (pre ++ flat_map write_signature l ++ [0] ++ post) -> (length l < fuel)%nat ->
  parse_input_map fuel (pre ++ flat_map write_signature l ++ [0] ++ post) (vec_len pre) i
  = Ok (fold_left put_sig l i, vec_len (pre ++ flat_map write_signature l ++ [0])).
Proof.
  induction 1 as [|e l He _ IH]; intros pre post i [|fuel] Hfit Hf; try (simpl in Hf; lia).
  - cbn [flat_map] in *. rewrite !app_nil_l in *. by rewrite (input_end pre post Hfit fuel i).
  - cbn [flat_map fold_left] in *. destruct (write_signature_pair e He) as (kb & vb & Ew & Ea). rewrite Ew in *. rewrite <- !app_assoc in *.
    rewrite (input_pair pre (2 :: kb) vb _ ltac:(done) Hfit fuel 2 kb i eq_refl), Ea.
    rewrite (app_assoc pre (write_pair _ _)) in *. rewrite IH; [|exact Hfit|simpl in Hf; lia].
    by rewrite <- !app_assoc.
Qed.

Lemma skip_signatures l : Forall sig_ok l -> forall pre post fuel,
  fits (pre ++ flat_map write_signature l ++ [0] ++ post) -> (length l < fuel)%nat ->
  skip_map fuel (pre ++ flat_map write_signature l ++ [0] ++ post) (vec_len pre)
  = Ok (vec_len (pre ++ flat_map write_signature l ++ [0])).
Proof.
  induction 1 as [|e l He _ IH]; intros pre post [|fuel] Hfit Hf; try (simpl in Hf; lia).
  - cbn [flat_map] in *. rewrite !app_nil_l in *. by rewrite (skip_end pre post Hfit fuel).
  - cbn [flat_map] in *. destruct (write_signature_pair e He) as (kb & vb & Ew & Ea). rewrite Ew in *. rewrite <- !app_assoc in *.
    rewrite (skip_pair pre (2 :: kb) vb _ ltac:(done) Hfit fuel).
    rewrite (app_assoc pre (write_pair _ _)) in *. rewrite IH; [|exact Hfit|simpl in Hf; lia].
    by rewrite <- !app_assoc.
Qed.

Lemma put_all l : NoDup l.*1 -> forall i,
  fold_left put_sig l i = mkInputInfo (list_to_map l ∪ in_partial_signatures i) (in_sighash i) (in_bip32 i).
Proof.
  induction l as [|[k v] l IH]; intros Hd i; cbn [fold_left]; simpl list_to_map.
  { rewrite map_empty_union. by destruct i. }
  apply NoDup_cons in Hd as [Hk Hd]. rewrite (IH Hd). unfold put_sig. simpl.
  rewrite <- insert_union_l, insert_union_r; [done|]. by apply not_elem_of_list_to_map.
Qed.

Lemma sorted_sigs m : sigs_ok m -> Forall sig_ok (btree_iter m) /\ forall i,
  fold_left put_sig (btree_iter m) i = mkInputInfo (m ∪ in_partial_signatures i) (in_sighash i) (in_bip32 i).
Proof.
  intros Hm. split.
  - apply Forall_forall. intros [k v] Hin. rewrite (btree_iter_perm m) in Hin. by apply elem_of_map_to_list, Hm in Hin.
  - intros i. assert (Hd : NoDup (btree_iter m).*1) by (rewrite (btree_iter_perm m); apply NoDup_fst_map_to_list).
    rewrite put_all by done. rewrite (list_to_map_proper _ _ Hd (btree_iter_perm m)), list_to_map_to_list. done.
Qed.

Lemma read_maps sigs : Forall sigs_ok sigs -> forall pre post fuel,
  fits (pre ++ flat_map write_input_map sigs ++ post) ->
  (length (pre ++ flat_map write_input_map sigs ++ post) <= fuel)%nat ->
  parse_input_maps fuel (pre ++ flat_map write_input_map sigs ++ post) (length sigs) (vec_len pre)
  = Ok (map (fun m => mkInputInfo m None None) sigs).
Proof.
  induction 1 as [|m sigs Hm _ IH]; intros pre post fuel Hfit Hf; [done|].
  cbn [flat_map length parse_input_maps map] in *.
  change (write_input_map m) with (flat_map write_signature (btree_iter m) ++ [0]) in *. destruct (sorted_sigs m Hm) as [Hs Hp]. pose proof (signatures_len _ Hs).
  rewrite <- !app_assoc in *. rewrite (read_signatures _ Hs); [|exact Hfit|rewrite !length_app in Hf; simpl in Hf; lia].
  rewrite Hp. cbn [rbind in_partial_signatures in_sighash in_bip32 no_info]. rewrite map_union_empty.
  assert (Ed : pre ++ flat_map write_signature (btree_iter m) ++ [0] ++ flat_map write_input_map sigs ++ post
    = (pre ++ flat_map write_signature (btree_iter m) ++ [0]) ++ flat_map write_input_map sigs ++ post) by (by rewrite <- !app_assoc).
  rewrite Ed in *. by rewrite (IH _ post fuel Hfit Hf).
Qed.

Section psbt.
Variables (tx : list Z) (sigs : list (gmap string string)) (n : nat) (fuel : nat).
Hypothesis (Hs : Forall sigs_ok sigs) (Hfit : fits (write_psbt tx sigs n)).
Hypothesis (Hf : (length (write_psbt tx sigs n) <= fuel)%nat).

Lemma fuel_two : exists f, fuel = S (S f).
Proof. unfold write_psbt, psbt_head in Hf. destruct fuel as [|[|f]]; [simpl in Hf; lia..|]. by exists f. Qed.

Lemma psbt_find : find_unsigned_tx fuel (write_psbt tx sigs n) 5 = Ok (Some tx).
Proof. destruct fuel_two as [f ->]. apply find_head. exact Hfit. Qed.
Lemma psbt_extract : extract_unsigned_tx_hex fuel (write_psbt tx sigs n) = Ok (hex_encode tx).
Proof. unfold extract_unsigned_tx_hex. by rewrite psbt_find. Qed.
Lemma psbt_parse : parse_psbt_unsigned_tx fuel (write_psbt tx sigs n) = parse_raw_tx_for_psbt fuel tx.
Proof. unfold parse_psbt_unsigned_tx. by rewrite psbt_find. Qed.
Lemma psbt_maps : parse_psbt_input_maps fuel (write_psbt tx sigs n) (length sigs) = Ok (map (fun m => mkInputInfo m None None) sigs).
Proof.
  unfold parse_psbt_input_maps, write_psbt in *. destruct fuel_two as [f Ef]. rewrite Ef at 1.
  rewrite skip_head by exact Hfit. cbn [rbind]. by apply read_maps.
Qed.
End psbt.

Lemma has_magic_psbt tx sigs n : has_magic (write_psbt tx sigs n) = true.
Proof.
  unfold has_magic, write_psbt, psbt_head. rewrite <- !app_assoc. rewrite vec_len_app. change (vec_len MAGIC) with 5.
  pose proof (vec_len_nonneg ([1; 0] ++ write_compact_size (vec_len tx) ++ tx ++ [0] ++ flat_map write_input_map sigs ++ empty_maps n)).
  rewrite (proj2 (Z.leb_le 5 _)) by lia. reflexivity.
Qed.

Lemma flat_map_ok {A} (f : A -> list Z) l : Forall (fun x => bytes_ok (f x)) l -> bytes_ok (flat_map f l).
Proof. induction 1; simpl; [constructor|]. by apply Forall_app. Qed.

Lemma write_pair_ok k v : bytes_ok k -> bytes_ok v -> fits (write_pair k v) -> bytes_ok (write_pair k v).
Proof.
  intros Hk Hv Hf. pose proof (write_pair_len k v). unfold write_pair in *.
  repeat (apply Forall_app; split); try done; apply write_compact_size_ok; len_lia.
Qed.

Lemma psbt_bytes_ok tx sigs n : bytes_ok tx -> Forall sigs_ok sigs -> fits (write_psbt tx sigs n) -> bytes_ok (write_psbt tx sigs n).
Proof.
  intros Htx Hs Hfit. unfold write_psbt in *. apply Forall_app. split.
  - pose proof (compact_len (vec_len tx)) as Hc. unfold psbt_head in *. repeat (apply Forall_app; split); try done;
      try (repeat constructor; unfold is_byte; lia). apply write_compact_size_ok. len_lia.
  - apply Forall_app. split; [|apply Forall_forall; intros x Hx%list_elem_of_In%repeat_spec; subst x; unfold is_byte; lia].
    assert (Hin : fits (flat_map write_input_map sigs)) by len_lia. clear Hfit.
    induction Hs as [|m sigs Hm _ IH]; [constructor|]. cbn [flat_map] in *. apply Forall_app.
    split; [|apply IH; len_lia]. unfold write_input_map in *. apply Forall_app. split; [|repeat constructor; unfold is_byte; lia].
    destruct (sorted_sigs m Hm) as [Hsi _]. assert (Hfi : fits (flat_map write_signature (btree_iter m))) by len_lia. clear Hin.
    induction Hsi as [|e l He _ IHl]; [constructor|]. cbn [flat_map] in *. apply Forall_app. split; [|apply IHl; len_lia].
    destruct He as (kb & vb & -> & Hk & Hv). unfold write_signature in *. simpl in *. rewrite !hex_round in * by done.
    apply write_pair_ok; [constructor; [unfold is_byte; lia|done]|done|len_lia].
Qed.
End maps.
