(* ===== verification/PsbtCreate.v ===== *)
(** * Created transactions are read back

    createpsbt and decodepsbt agree on what was asked for. *)

From S2P Require Import Prelude Float64 Decimal Amounts Crates AccountId Bech32 Addresses Borsh GenesisTools GenesisProofs Wallet.
From S2P Require Import Translator NearClient SendRaw Psbt PsbtBytes PsbtReads.

Section create.
Context {C : Crates} {R : RpcCrates} {L : RpcLaws C R}.
#[local] Set Default Proof Using "All".

(** An input names a transaction by 32 bytes. *)
Definition input_ok (i : string * Z) : Prop :=
  is_u u32_max i.2 /\ exists b, hex_decode i.1 = Some b /\ length b = 32%nat.
Definition vin_of (i : string * Z) : PsbtVin :=
  mkPsbtVin (hex_encode (default [] (hex_decode i.1))) i.2 0xFFFFFFFD.

Definition script_bytes (script_hex : string) : list Z :=
  if bool_decide (script_hex = ""%string) then [] else default [] (hex_decode script_hex).
Lemma write_script_bytes h : write_script h = write_compact_size (vec_len (script_bytes h)) ++ script_bytes h.
Proof. unfold write_script, script_bytes. case_bool_decide; [done|]. by destruct (hex_decode h). Qed.

Definition script_of (hrp_of : string -> string) (o : string * Z) : list Z :=
  script_bytes (derive_script_pub_key_hex o.1 (hrp_of o.1)).
Fixpoint vouts_of (hrp_of : string -> string) (n : Z) (outs : list (string * Z)) : list PsbtVout :=
  match outs with
  | [] => []
  | o :: outs => mkPsbtVout o.2 n (hex_encode (script_of hrp_of o)) :: vouts_of hrp_of (n + 1) outs
  end.

Lemma le4 v : is_u u32_max v -> from_le_bytes (le_enc 4 v) = v.
Proof. intros H. apply from_le_le_enc. unfold is_u, u32_max in *. simpl. lia. Qed.
Lemma le8 v : is_u u64_max v -> from_le_bytes (le_enc 8 v) = v.
Proof. intros H. apply from_le_le_enc. unfold is_u, u64_max in *. simpl. lia. Qed.
Lemma vec_len_le_enc n v : vec_len (le_enc n v) = Z.of_nat n.
Proof. unfold vec_len. by rewrite le_enc_length. Qed.

Lemma read_input i pre post count fuel : input_ok i -> 0 < count -> fits (pre ++ write_input i ++ post) ->
  parse_inputs (S fuel) (pre ++ write_input i ++ post) count (vec_len pre)
  = let? (vin, pos) := parse_inputs fuel (pre ++ write_input i ++ post) (count - 1) (vec_len (pre ++ write_input i)) in
    Ok (vin_of i :: vin, pos).
Proof.
  destruct i as [txid vout]. intros [Hv (b & Hb & Hl)] Hc Hfit. simpl in Hv, Hb. unfold write_input in *. rewrite Hb in *.
  assert (Lb : vec_len (rev b) = 32) by (unfold vec_len; by rewrite length_rev, Hl).
  pose proof (vec_len_le_enc 4 vout) as Lv. pose proof (vec_len_le_enc 4 0xFFFFFFFD) as Ls. change (Z.of_nat 4) with 4 in *.
  set (ev := le_enc 4 vout) in *. set (es := le_enc 4 0xFFFFFFFD) in *. rewrite <- !app_assoc in *.
  set (d := pre ++ rev b ++ ev ++ [0] ++ es ++ post) in *.
  assert (Ld : vec_len d = vec_len pre + 41 + vec_len post) by (subst d; len_lia).
  cbn [parse_inputs]. rewrite (proj2 (Z.leb_gt count 0)) by lia.
  pose proof (vec_len_nonneg pre) as Hp. pose proof (vec_len_nonneg post) as Hq.
  wadds. rewrite (proj2 (Z.ltb_ge _ _)) by lia.
  rewrite (range_in d pre (rev b) (ev ++ [0] ++ es ++ post)) by (done || lia). cbn [rbind].
  rewrite (range_in d (pre ++ rev b) ev ([0] ++ es ++ post)) by (subst d; first [by rewrite <- app_assoc | len_lia]). cbn [rbind].
  rewrite (read_at d (pre ++ rev b ++ ev) 0 (es ++ post)) by (subst d; first [by rewrite <- !app_assoc | len_lia]).
  change (vec_len (write_compact_size 0)) with 1. wadds. rewrite (proj2 (Z.ltb_ge _ _)) by lia.
  rewrite (range_in d (pre ++ rev b ++ ev ++ [0]) es post) by (subst d; first [by rewrite <- !app_assoc | len_lia]). cbn [rbind].
  replace (vec_len (pre ++ rev b ++ ev ++ [0] ++ es)) with (vec_len pre + 32 + 4 + 1 + 0 + 4) by len_lia.
  destruct (parse_inputs fuel d (count - 1) _) as [[vin pos]| |]; [|done|done]. cbn [rbind].
  unfold vin_of. cbn [fst snd]. rewrite Hb, rev_involutive. cbn [default]. subst ev es. rewrite !le4 by (done || unfold is_u, u32_max; lia). done.
Qed.

Lemma read_inputs ins : Forall input_ok ins -> forall pre post fuel,
  fits (pre ++ flat_map write_input ins ++ post) -> (length ins < fuel)%nat ->
  parse_inputs fuel (pre ++ flat_map write_input ins ++ post) (vec_len ins) (vec_len pre)
  = Ok (map vin_of ins, vec_len (pre ++ flat_map write_input ins)).
Proof.
  induction 1 as [|i ins Hi _ IH]; intros pre post [|fuel] Hfit Hf; try (simpl in Hf; lia).
  { cbn [flat_map parse_inputs map]. by rewrite app_nil_r. }
  cbn [flat_map map] in *. rewrite <- !app_assoc in *.
  rewrite read_input by (done || len_lia). rewrite vec_len_cons. replace (1 + vec_len ins - 1) with (vec_len ins) by lia.
  rewrite (app_assoc pre (write_input i)) in *. rewrite IH by (done || (simpl in Hf; lia)). cbn [rbind]. by rewrite <- !app_assoc.
Qed.

Lemma read_output hrp_of o pre post n count fuel : is_u u64_max o.2 -> n < count ->
  fits (pre ++ write_output hrp_of o ++ post) ->
  parse_outputs (S fuel) (pre ++ write_output hrp_of o ++ post) n count (vec_len pre)
  = let? (vout, pos) := parse_outputs fuel (pre ++ write_output hrp_of o ++ post) (n + 1) count
                          (vec_len (pre ++ write_output hrp_of o)) in
    Ok (mkPsbtVout o.2 n (hex_encode (script_of hrp_of o)) :: vout, pos).
Proof.
  destruct o as [addr sats]. intros Hs Hn Hfit. simpl in Hs. unfold write_output in *. rewrite write_script_bytes in *.
  change (script_bytes (derive_script_pub_key_hex addr (hrp_of addr))) with (script_of hrp_of (addr, sats)) in *.
  set (sc := script_of hrp_of (addr, sats)) in *.
  pose proof (vec_len_le_enc 8 sats) as Lv. change (Z.of_nat 8) with 8 in Lv. set (ev := le_enc 8 sats) in *.
  pose proof (compact_len (vec_len sc)) as Lc. set (lc := write_compact_size (vec_len sc)) in *. rewrite <- !app_assoc in *.
  set (d := pre ++ ev ++ lc ++ sc ++ post) in *.
  assert (Ld : vec_len d = vec_len pre + 8 + vec_len lc + vec_len sc + vec_len post) by (subst d; len_lia).
  cbn [parse_outputs]. rewrite (proj2 (Z.leb_gt count n)) by lia.
  pose proof (vec_len_nonneg pre) as Hp. pose proof (vec_len_nonneg post) as Hq. pose proof (vec_len_nonneg sc) as Hsc.
  wadds. rewrite (proj2 (Z.ltb_ge _ _)) by lia.
  rewrite (range_in d pre ev (lc ++ sc ++ post)) by (done || lia). cbn [rbind].
  rewrite (read_at d (pre ++ ev) (vec_len sc) (sc ++ post)) by (subst d; first [by rewrite <- !app_assoc | len_lia]).
  fold lc. wadds. rewrite (proj2 (Z.leb_le _ _)) by lia.
  rewrite (range_in d (pre ++ ev ++ lc) sc post) by (subst d; first [by rewrite <- !app_assoc | len_lia]). cbn [rbind].
  replace (vec_len (pre ++ ev ++ lc ++ sc)) with (vec_len pre + 8 + vec_len lc + vec_len sc) by len_lia.
  destruct (parse_outputs fuel d (n + 1) count _) as [[vout pos]| |]; [|done|done]. cbn [rbind].
  subst ev. by rewrite le8.
Qed.

Lemma read_outputs hrp_of outs : Forall (fun o => is_u u64_max o.2) outs -> forall pre post n fuel,
  fits (pre ++ flat_map (write_output hrp_of) outs ++ post) -> (length outs < fuel)%nat ->
  parse_outputs fuel (pre ++ flat_map (write_output hrp_of) outs ++ post) n (n + vec_len outs) (vec_len pre)
  = Ok (vouts_of hrp_of n outs, vec_len (pre ++ flat_map (write_output hrp_of) outs)).
Proof.
  induction 1 as [|o outs Ho _ IH]; intros pre post n [|fuel] Hfit Hf; try (simpl in Hf; lia).
  { cbn [flat_map parse_outputs vouts_of]. rewrite (proj2 (Z.leb_le _ n)) by len_lia. by rewrite app_nil_r. }
  cbn [flat_map vouts_of] in *. rewrite <- !app_assoc in *.
  rewrite read_output by (done || len_lia). rewrite vec_len_cons. replace (n + (1 + vec_len outs)) with (n + 1 + vec_len outs) by lia.
  rewrite (app_assoc pre (write_output hrp_of o)) in *. rewrite IH by (done || (simpl in Hf; lia)). cbn [rbind]. by rewrite <- !app_assoc.
Qed.

Lemma inputs_len ins : (length ins <= length (flat_map write_input ins))%nat.
Proof.
  induction ins as [|[t v] ins IH]; [done|]. cbn [flat_map]. rewrite length_app. unfold write_input at 1.
  rewrite !length_app, !le_enc_length. simpl. lia.
Qed.
Lemma outputs_len hrp_of outs : (length outs <= length (flat_map (write_output hrp_of) outs))%nat.
Proof.
  induction outs as [|[t v] outs IH]; [done|]. cbn [flat_map]. rewrite length_app. unfold write_output at 1.
  rewrite !length_app, !le_enc_length. simpl. lia.
Qed.

(** The unsigned transaction, read back. *)
Lemma read_unsigned_tx hrp_of ins outs locktime fuel :
  Forall input_ok ins -> Forall (fun o => is_u u64_max o.2) outs -> is_u u32_max locktime ->
  fits (unsigned_tx hrp_of ins outs locktime) -> (length (unsigned_tx hrp_of ins outs locktime) <= fuel)%nat ->
  parse_raw_tx_for_psbt fuel (unsigned_tx hrp_of ins outs locktime)
  = Ok (mkPsbtTx (map vin_of ins) (vouts_of hrp_of 0 outs) 2 locktime).
Proof.
  intros Hi Ho Hl Hfit Hf. unfold parse_raw_tx_for_psbt, unsigned_tx in *.
  pose proof (inputs_len ins) as Li. pose proof (outputs_len hrp_of outs) as Lo.
  set (fi := flat_map write_input ins) in *. set (fo := flat_map (write_output hrp_of) outs) in *.
  pose proof (compact_len (vec_len ins)) as Lci. set (ci := write_compact_size (vec_len ins)) in *.
  pose proof (compact_len (vec_len outs)) as Lco. set (co := write_compact_size (vec_len outs)) in *.
  pose proof (vec_len_le_enc 4 2) as L2. pose proof (vec_len_le_enc 4 locktime) as Ll. change (Z.of_nat 4) with 4 in *.
  set (e2 := le_enc 4 2) in *. set (el := le_enc 4 locktime) in *.
  set (d := e2 ++ ci ++ fi ++ co ++ fo ++ el) in *.
  assert (Ld : vec_len d = 4 + vec_len ci + vec_len fi + vec_len co + vec_len fo + 4) by (subst d; len_lia).
  pose proof (vec_len_nonneg fi). pose proof (vec_len_nonneg fo).
  rewrite (proj2 (Z.ltb_ge _ _)) by lia.
  assert (Hu1 : is_u u64_max (vec_len ins)) by (assert (vec_len ins <= vec_len fi) by (unfold vec_len; lia); len_lia).
  assert (Hu2 : is_u u64_max (vec_len outs)) by (assert (vec_len outs <= vec_len fo) by (unfold vec_len; lia); len_lia).
  rewrite (read_at d e2 (vec_len ins) (fi ++ co ++ fo ++ el)) by (done || lia). fold ci.
  wadds.
  replace (4 + vec_len ci) with (vec_len (e2 ++ ci)) by len_lia.
  assert (Ed1 : d = (e2 ++ ci) ++ fi ++ co ++ fo ++ el) by (subst d; by rewrite <- !app_assoc).
  pose proof (read_inputs ins Hi (e2 ++ ci) (co ++ fo ++ el) fuel) as Hri. fold fi in Hri. rewrite <- Ed1 in Hri.
  rewrite Hri; [|done|rewrite Ed1, !length_app in Hf; unfold el in Hf; rewrite le_enc_length in Hf; lia]. cbn [rbind].
  rewrite (read_at d ((e2 ++ ci) ++ fi) (vec_len outs) (fo ++ el)) by (subst d; first [by rewrite <- !app_assoc | done]). fold co.
  wadds.
  replace (vec_len ((e2 ++ ci) ++ fi) + vec_len co) with (vec_len (e2 ++ ci ++ fi ++ co)) by len_lia.
  assert (Ed2 : d = (e2 ++ ci ++ fi ++ co) ++ fo ++ el) by (subst d; by rewrite <- !app_assoc).
  pose proof (read_outputs hrp_of outs Ho (e2 ++ ci ++ fi ++ co) el 0 fuel) as Hro. rewrite Z.add_0_l in Hro. fold fo in Hro. rewrite <- Ed2 in Hro.
  rewrite Hro; [|done|rewrite Ed2, !length_app in Hf; unfold el in Hf; rewrite le_enc_length in Hf; lia]. cbn [rbind].
  wadds.
  rewrite (proj2 (Z.leb_le _ _)) by len_lia.
  rewrite (range_in d (e2 ++ ci ++ fi ++ co ++ fo) el []) by (subst d; first [by rewrite app_nil_r, <- !app_assoc | len_lia]). cbn [rbind].
  subst el. by rewrite le4.
Qed.

(* ------------------------------------------------------------------ *)
(** ** Bytes and amounts *)

Section bytes.
(** [hex::decode] gives bytes. *)
Hypothesis hex_bytes : forall s b, hex_decode s = Some b -> bytes_ok b.

Lemma unsigned_tx_ok hrp_of ins outs locktime : fits (unsigned_tx hrp_of ins outs locktime) ->
  bytes_ok (unsigned_tx hrp_of ins outs locktime).
Proof.
  intros Hfit. pose proof (inputs_len ins) as Li. pose proof (outputs_len hrp_of outs) as Lo. unfold unsigned_tx in *.
  assert (vec_len ins <= vec_len (flat_map write_input ins)) by (unfold vec_len; lia).
  assert (vec_len outs <= vec_len (flat_map (write_output hrp_of) outs)) by (unfold vec_len; lia).
  pose proof (compact_len (vec_len ins)). pose proof (compact_len (vec_len outs)).
  repeat (apply Forall_app; split); try apply le_enc_ok; try (apply write_compact_size_ok; len_lia).
  - apply flat_map_ok, Forall_forall. intros [t v] _. unfold write_input. repeat (apply Forall_app; split); try apply le_enc_ok.
    + destruct (hex_decode t) as [b|] eqn:E; [by apply Forall_rev, (hex_bytes t)|].
      apply Forall_forall. intros x Hx%list_elem_of_In%repeat_spec. subst x. unfold is_byte; lia.
    + repeat constructor; unfold is_byte; lia.
  - assert (Hfo : fits (flat_map (write_output hrp_of) outs)) by len_lia. clear - L hex_bytes Hfo.
    induction outs as [|[a x] outs IH]; [constructor|]. cbn [flat_map] in *. apply Forall_app. split; [|apply IH; len_lia].
    unfold write_output in *. rewrite write_script_bytes in *. set (sc := script_bytes _) in *.
    pose proof (compact_len (vec_len sc)).
    repeat (apply Forall_app; split); [apply le_enc_ok|apply write_compact_size_ok; len_lia|]. subst sc.
    unfold script_bytes. case_bool_decide; [constructor|]. destruct (hex_decode _) as [b|] eqn:E; [by apply (hex_bytes _ b E)|constructor].
Qed.
End bytes.

Lemma satoshis_u64 amount n : btc_to_satoshis_checked amount = Some n -> is_u u64_max n.
Proof.
  unfold btc_to_satoshis_checked. repeat case_match; intros E; try discriminate E; injection E as <-;
    unfold is_u, f_to_u64, u64_max; repeat case_match; lia.
Qed.

Lemma fields_u64 fields pairs : output_fields fields = Ok pairs -> Forall (fun o => is_u u64_max o.2) pairs.
Proof.
  revert pairs. induction fields as [|[a v] fields IH]; intros pairs H; simpl in H; [injection H as <-; constructor|].
  case_bool_decide; [by apply IH|]. rust_inv. subst. constructor; [by eapply satoshis_u64|by apply IH].
Qed.

Lemma pairs_u64 p pairs : parse_psbt_output_pairs p = Ok pairs -> Forall (fun o => is_u u64_max o.2) pairs.
Proof.
  unfold parse_psbt_output_pairs. destruct p as [j|]; [|discriminate]. simpl. intros H. apply rbind_Ok in H as (ps & E & H).
  assert (ps = pairs) as -> by (destruct ps; [discriminate|by injection H]). clear H.
  destruct j as [| | | | |l|fields]; try discriminate E; [|by eapply fields_u64].
  revert pairs E. induction l as [|o l IH]; intros pairs E; simpl in E; [injection E as <-; constructor|].
  destruct o; try discriminate E. rust_inv. subst. apply Forall_app. split; [by eapply fields_u64|by apply IH].
Qed.

Lemma new_psbt_write tx n m : new_psbt tx n m = write_psbt tx (repeat ∅ n) m.
Proof.
  unfold new_psbt, write_psbt. f_equal. f_equal. unfold empty_maps. induction n as [|n IH]; [done|].
  cbn [repeat flat_map]. rewrite <- IH. reflexivity.
Qed.
Lemma none_ok n : Forall sigs_ok (repeat ∅ n).
Proof. apply Forall_forall. intros m Hm%list_elem_of_In%repeat_spec. subst m. apply map_Forall_empty. Qed.

(** A text the server encoded, as a parameter. *)
Lemma psbt_param_ok tx sigs n e : bytes_ok (write_psbt tx sigs n) ->
  psbt_param (JArr [JStr (base64_encode (write_psbt tx sigs n))]) e
  = inl (base64_encode (write_psbt tx sigs n), write_psbt tx sigs n).
Proof.
  intros H. unfold psbt_param. change (get_str_param _ 0) with (Some (base64_encode (write_psbt tx sigs n))).
  cbv iota beta. by rewrite base64_decode_encode, has_magic_psbt.
Qed.

Lemma create_decode params outs fuel :
  let ins := map input_of (default [] (param params 0 ≫= as_array)) in
  let locktime := as_u32 (default 0 (param params 2 ≫= as_u64)) in
  let tx := unsigned_tx hrp_guess ins outs locktime in
  (forall s b, hex_decode s = Some b -> bytes_ok b) -> (forall b, bytes_ok b -> b64_std_encode b = base64_encode b) ->
  parse_psbt_output_pairs (param params 1) = Ok outs -> Forall input_ok ins ->
  fits (new_psbt tx (length ins) (length outs)) -> (length (new_psbt tx (length ins) (length outs)) <= fuel)%nat ->
  exists text, handle_createpsbt params = OkResponse (JStr text) /\
    handle_decodepsbt fuel (JArr [JStr text]) = Ok (OkResponse (decoded_json (hex_encode tx)
      (mkPsbtTx (map vin_of ins) (vouts_of hrp_guess 0 outs) 2 locktime) (repeat no_info (length ins)))).
Proof.
  intros ins locktime tx Hhex Hb64 Ho Hi Hfit Hf.
  assert (Hl : is_u u32_max locktime).
  { unfold is_u, u32_max. subst locktime. unfold as_u32. pose proof (Z.mod_pos_bound (default 0 (param params 2 ≫= as_u64)) (2 ^ 32)). lia. }
  exists (base64_encode (new_psbt tx (length ins) (length outs))).
  rewrite new_psbt_write in *. set (none := repeat ∅ (length ins)) in *.
  assert (Htx : fits tx) by (unfold write_psbt, psbt_head in Hfit; len_lia).
  assert (Hok : bytes_ok (write_psbt tx none (length outs))).
  { apply psbt_bytes_ok; [by apply unsigned_tx_ok|apply none_ok|done]. }
  split.
  { unfold handle_createpsbt. rewrite Ho. cbv zeta. fold ins locktime tx. rewrite new_psbt_write.
    replace (length (default [] (param params 0 ≫= as_array))) with (length ins) by (unfold ins; by rewrite length_map).
    fold none. by rewrite Hb64. }
  unfold handle_decodepsbt. rewrite psbt_param_ok by done.
  assert (Hlt : (length tx <= fuel)%nat) by (unfold write_psbt, psbt_head in Hf; rewrite !length_app in Hf; lia).
  rewrite psbt_parse, psbt_extract by (done || apply none_ok).
  pose proof (read_unsigned_tx hrp_guess ins outs locktime fuel Hi (pairs_u64 _ _ Ho) Hl Htx Hlt) as Hr. fold tx in Hr. rewrite Hr.
  cbn [rbind ptx_vin]. rewrite length_map.
  replace (length ins) with (length none) by (unfold none; by rewrite repeat_length).
  rewrite psbt_maps by (done || apply none_ok). cbn [rbind]. f_equal. f_equal. f_equal. unfold none. rewrite repeat_length, map_repeat. done.
Qed.

(** An input as it was asked for: the id and the whole index. *)
Definition requested (inp : Json) : string * Z :=
  (default (of_bytes (repeat 48 64)) (get_str inp "txid"), default 0 (get_u64 inp "vout")).

Lemma get_u64_nonneg j k : 0 <= default 0 (get_u64 j k).
Proof.
  unfold get_u64. destruct (get j k) as [v|]; [|done]. cbn [mbind option_bind].
  destruct v as [| |n| | | |]; try done. unfold as_u64. destruct ((0 <=? n) && (n <=? u64_max)) eqn:E; [|done].
  apply andb_true_iff in E as [E _]. apply Z.leb_le in E. exact E.
Qed.

Lemma requested_input inp : (requested inp).2 <= u32_max -> input_of inp = requested inp.
Proof.
  intros H. unfold input_of, requested in *. cbn [snd] in H. f_equal. unfold as_u32. apply Z.mod_small.
  pose proof (get_u64_nonneg inp "vout"). unfold u32_max in *. lia.
Qed.

(** C27. decodepsbt shows what createpsbt was asked for.  Take inputs named by 32 bytes, with
    indices and a lock time below 2^32, and outputs that the server accepts (the entries named
    data are dropped), in a transaction whose length fits 64 bits, with the base64 of the crate
    being the standard one.  createpsbt answers a text, and decodepsbt of that text, within as
    many steps as it has bytes, shows the inputs as they were asked for, in order, every
    output with its satoshis and the script of its address, the lock time, and no
    signature.  Indices and lock times from 2^32 on are cut to 32 bits without an error. *)
Theorem created_is_decoded params outs fuel :
  let ins := map requested (default [] (param params 0 ≫= as_array)) in
  let locktime := default 0 (param params 2 ≫= as_u64) in
  let tx := unsigned_tx hrp_guess ins outs locktime in
  (forall s b, hex_decode s = Some b -> bytes_ok b) -> (forall b, bytes_ok b -> b64_std_encode b = base64_encode b) ->
  parse_psbt_output_pairs (param params 1) = Ok outs -> Forall input_ok ins -> is_u u32_max locktime ->
  fits (new_psbt tx (length ins) (length outs)) -> (length (new_psbt tx (length ins) (length outs)) <= fuel)%nat ->
  exists text, handle_createpsbt params = OkResponse (JStr text) /\
    handle_decodepsbt fuel (JArr [JStr text]) = Ok (OkResponse (decoded_json (hex_encode tx)
      (mkPsbtTx (map vin_of ins) (vouts_of hrp_guess 0 outs) 2 locktime) (repeat no_info (length ins)))).
Proof.
  intros ins locktime tx Hhex Hb64 Ho Hi Hl. pose proof (create_decode params outs fuel) as H. cbv zeta in H.
  assert (E1 : map input_of (default [] (param params 0 ≫= as_array)) = ins).
  { unfold ins in *. apply map_ext_in. intros inp Hin%list_elem_of_In. apply requested_input.
    rewrite Forall_forall in Hi. apply (Hi (requested inp)). apply list_elem_of_fmap. eauto. }
  assert (E2 : as_u32 locktime = locktime) by (unfold as_u32; apply Z.mod_small; unfold is_u, u32_max in Hl; lia).
  unfold locktime in E2. rewrite E1, E2 in H. by apply H.
Qed.
End create.
