(* ===== verification/BitcoinWire.v ===== *)
(** * Bitcoin's encoding of transactions

    The consensus format of a transaction without witnesses: version, inputs, outputs and
    lock time, with compact sizes before lists and scripts.  This is what the [bitcoin]
    crate reads; the bytes that createpsbt writes are in this format, with empty input
    scripts. *)

From S2P Require Import Prelude Float64 Decimal Amounts Crates AccountId Bech32 Addresses Borsh GenesisTools GenesisProofs Wallet.
From S2P Require Import Translator NearClient SendRaw Psbt PsbtBytes PsbtReads PsbtCreate.

(* ------------------------------------------------------------------ *)
(** ** The format *)

Definition compact_c : codec Z :=
  mkCodec write_compact_size
    (fun b => match b with
              | [] => None
              | x :: b =>
                  if x <? 253 then Some (x, b)
                  else if x =? 253 then le_dec 2 b
                  else if x =? 254 then le_dec 4 b
                  else le_dec 8 b
              end).

Definition compact_vec_c {A : Type} (c : codec A) : codec (list A) :=
  mkCodec (fun l => write_compact_size (vec_len l) ++ flat_map (enc c) l)
    (fun b => let* (n, b) := dec compact_c b in dec_many c (Z.to_nat n) b).

Definition script_c : codec (list Z) :=
  mkCodec (fun s => write_compact_size (vec_len s) ++ s)
    (fun b => let* (n, b) := dec compact_c b in dec (array_c (Z.to_nat n)) b).

Section format.
Context {R : RpcCrates}.

(** A transaction id is shown with its bytes reversed. *)
Definition txid_c : codec string :=
  map_c (array_c 32) (fun txid => rev (default [] (hex_decode txid))) (fun b => hex_encode (rev b)).

Definition btc_in_c : codec BtcTxIn :=
  map_c (pair_c txid_c (pair_c u32_c (pair_c script_c u32_c)))
    (fun i => (ti_txid i, (ti_vout i, (ti_script_sig i, ti_sequence i))))
    (fun '(txid, (vout, (script, sequence))) => mkBtcTxIn txid vout script [] sequence).

Definition btc_out_c : codec BtcTxOut :=
  map_c (pair_c u64_c script_c) (fun o => (to_value o, to_script_pubkey o))
    (fun '(value, script) => mkBtcTxOut value script).

Definition btc_tx_c : codec BtcTransaction :=
  map_c (pair_c u32_c (pair_c (compact_vec_c btc_in_c) (pair_c (compact_vec_c btc_out_c) u32_c)))
    (fun t => (btx_version t, (btx_input t, (btx_output t, btx_lock_time t))))
    (fun '(version, (inputs, (outputs, lock_time))) => mkBtcTransaction version lock_time inputs outputs).

(** Transactions that this format describes: an input at least, for without one the bytes
    would be read as the start of the format with witnesses, and no witness. *)
Definition btc_in_ok (i : BtcTxIn) : Prop :=
  (exists b, length b = 32%nat /\ bytes_ok b /\ ti_txid i = hex_encode b)
  /\ is_u u32_max (ti_vout i) /\ vec_len (ti_script_sig i) <= u64_max /\ ti_witness i = []
  /\ is_u u32_max (ti_sequence i).
Definition btc_out_ok (o : BtcTxOut) : Prop :=
  is_u u64_max (to_value o) /\ vec_len (to_script_pubkey o) <= u64_max.
Record btc_tx_ok (t : BtcTransaction) : Prop := mk_btc_tx_ok {
  bt_version : 0 <= btx_version t < 2 ^ 31;
  bt_lock_time : is_u u32_max (btx_lock_time t);
  bt_some : btx_input t <> [];
  bt_inputs : vec_len (btx_input t) <= u64_max /\ Forall btc_in_ok (btx_input t);
  bt_outputs : vec_len (btx_output t) <= u64_max /\ Forall btc_out_ok (btx_output t);
}.
End format.

(* ------------------------------------------------------------------ *)
(** ** Reading it back *)

Lemma compact_rt : round_trip compact_c (is_u u64_max).
Proof.
  intros n rest [H0 H1]. unfold compact_c, write_compact_size. cbn [enc dec].
  destruct (Z.ltb_spec n 253) as [H|H]; cbn [app].
  { by rewrite (proj2 (Z.ltb_lt n 253)). }
  destruct (Z.leb_spec n 0xFFFF); cbn [app]; [apply (uint_rt 2); simpl; lia|].
  destruct (Z.leb_spec n 0xFFFFFFFF); cbn [app]; [apply (uint_rt 4); simpl; lia|].
  apply (uint_rt 8). unfold u64_max in *. simpl. lia.
Qed.

Lemma vec_len_u64 {A} (l : list A) : vec_len l <= u64_max -> is_u u64_max (vec_len l).
Proof. intros H. split; [unfold vec_len; lia|done]. Qed.

Lemma compact_vec_rt {A} (c : codec A) P :
  round_trip c P -> round_trip (compact_vec_c c) (fun l => vec_len l <= u64_max /\ Forall P l).
Proof.
  intros Hc l rest [Hl HP]. pose proof (compact_rt (vec_len l)) as Hn.
  unfold compact_vec_c. cbn [enc dec]. change write_compact_size with (enc compact_c).
  rewrite <- (assoc_L (++)), Hn by by apply vec_len_u64.
  unfold vec_len. rewrite Nat2Z.id. by apply (dec_many_rt c P).
Qed.

Lemma script_rt : round_trip script_c (fun s => vec_len s <= u64_max).
Proof.
  intros s rest Hs. pose proof (compact_rt (vec_len s)) as Hn. pose proof (array_rt (length s) s rest eq_refl) as Ha.
  unfold script_c. cbn [enc dec]. change write_compact_size with (enc compact_c).
  rewrite <- (assoc_L (++)), Hn by by apply vec_len_u64. unfold vec_len. rewrite Nat2Z.id. exact Ha.
Qed.

Section laws.
Context {C : Crates} {R : RpcCrates} {L : RpcLaws C R}.
#[local] Set Default Proof Using "All".

Lemma btc_in_rt : round_trip btc_in_c btc_in_ok.
Proof.
  eapply map_rt.
  - apply pair_rt; [|apply pair_rt; [apply u32_rt|apply pair_rt; [apply script_rt|apply u32_rt]]].
    apply (map_rt _ _ _ _ (fun s => exists b, length b = 32%nat /\ bytes_ok b /\ s = hex_encode b) (array_rt 32)).
    intros s (b & Hl & Hb & ->). rewrite hex_round by done. cbn [default]. unfold Datatypes.id.
    rewrite length_rev, rev_involutive. done.
  - intros [txid vout script witness sequence] (Ht & Hv & Hs & Hw & Hq). cbn in *. subst witness. by split_and!.
Qed.

Lemma btc_tx_rt : round_trip btc_tx_c btc_tx_ok.
Proof.
  eapply map_rt.
  - apply pair_rt; [apply u32_rt|]. apply pair_rt; [apply compact_vec_rt, btc_in_rt|].
    apply pair_rt; [|apply u32_rt]. apply (compact_vec_rt _ btc_out_ok). eapply map_rt.
    + apply pair_rt; [apply u64_rt|apply script_rt].
    + intros [value script] [Hv Hs]. by split.
  - intros [version lock_time inputs outputs] [H1 H2 H3 [H4 H6] [H5 H7]]. cbn in *. unfold is_u, u32_max in *. split_and!; try done; lia.
Qed.

(* ------------------------------------------------------------------ *)
(** ** What createpsbt writes *)

Definition unsigned_btc (hrp_of : string -> string) (ins outs : list (string * Z)) (locktime : Z) : BtcTransaction :=
  mkBtcTransaction 2 locktime
    (map (fun i => mkBtcTxIn (hex_encode (default [] (hex_decode i.1))) i.2 [] [] 0xFFFFFFFD) ins)
    (map (fun o => mkBtcTxOut o.2 (script_of hrp_of o)) outs).

Section unsigned.
Hypothesis hex_bytes : forall s b, hex_decode s = Some b -> bytes_ok b.

Lemma unsigned_tx_encodes hrp_of ins outs locktime :
  Forall input_ok ins ->
  unsigned_tx hrp_of ins outs locktime = enc btc_tx_c (unsigned_btc hrp_of ins outs locktime).
Proof.
  intros Hi. unfold unsigned_tx, unsigned_btc, btc_tx_c, map_c, pair_c, compact_vec_c. cbn [enc fst snd btx_version btx_lock_time btx_input btx_output].
  assert (E1 : flat_map write_input ins = flat_map (enc btc_in_c)
    (map (fun i => mkBtcTxIn (hex_encode (default [] (hex_decode i.1))) i.2 [] [] 0xFFFFFFFD) ins)).
  { induction Hi as [|[txid vout] ins [Hv (b & Hb & Hl)] _ IH]; [done|]. cbn [map flat_map fst snd] in *. rewrite <- IH. f_equal.
    unfold write_input. rewrite Hb. cbn [default]. unfold btc_in_c, map_c, pair_c, txid_c, map_c.
    cbn [enc fst snd ti_txid ti_vout ti_script_sig ti_sequence]. unfold Datatypes.id.
    rewrite hex_round by (by eapply hex_bytes). reflexivity. }
  assert (E2 : flat_map (write_output hrp_of) outs
    = flat_map (enc btc_out_c) (map (fun o => mkBtcTxOut o.2 (script_of hrp_of o)) outs)).
  { clear E1. induction outs as [|[a x] outs IH]; [done|]. cbn [map flat_map]. rewrite <- IH. f_equal.
    unfold write_output. by rewrite write_script_bytes. }
  rewrite E1, E2. unfold vec_len. rewrite !length_map, <- !app_assoc. reflexivity.
Qed.

Lemma script_len hrp_of outs o : fits (flat_map (write_output hrp_of) outs) -> In o outs ->
  vec_len (script_of hrp_of o) <= u64_max.
Proof.
  induction outs as [|q outs IH]; intros Hf Ho; [done|]. cbn [flat_map] in Hf. destruct Ho as [->|Ho]; [|apply IH; [len_lia|done]].
  destruct o as [a x]. unfold write_output in Hf. rewrite write_script_bytes in Hf. unfold script_of. cbn [fst snd]. len_lia.
Qed.

Lemma unsigned_btc_ok hrp_of ins outs locktime :
  ins <> [] -> Forall input_ok ins -> Forall (fun o => is_u u64_max o.2) outs -> is_u u32_max locktime ->
  fits (unsigned_tx hrp_of ins outs locktime) -> btc_tx_ok (unsigned_btc hrp_of ins outs locktime).
Proof.
  intros Hne Hi Ho Hl Hfit. pose proof (inputs_len ins) as Li. pose proof (outputs_len hrp_of outs) as Lo. unfold unsigned_tx in Hfit.
  assert (vec_len ins <= vec_len (flat_map write_input ins)) by (unfold vec_len; lia).
  assert (vec_len outs <= vec_len (flat_map (write_output hrp_of) outs)) by (unfold vec_len; lia).
  split; unfold unsigned_btc; cbn [btx_version btx_lock_time btx_input btx_output].
  - lia.
  - done.
  - by destruct ins.
  - unfold vec_len. rewrite length_map. fold (vec_len ins). split; [len_lia|]. apply Forall_map. eapply Forall_impl; [exact Hi|].
    intros [txid vout] [Hv (b & Hb & Hb32)]. cbn [fst snd] in *. rewrite Hb. cbn [default]. unfold Datatypes.id.
    split; [exists b; split_and!; [done|by eapply hex_bytes|done]|]. by split_and!.
  - unfold vec_len. rewrite length_map. fold (vec_len outs). split; [len_lia|]. apply Forall_map, Forall_forall. intros o Hin%list_elem_of_In.
    split; [|eapply script_len; [|done]; len_lia]. rewrite Forall_forall in Ho. by apply Ho, list_elem_of_In.
Qed.
End unsigned.
End laws.
