(* ===== verification/PsbtCombine.v ===== *)
(** * Combining and finalizing

    combinepsbt gathers the signatures of several copies of one transaction, and
    finalizepsbt calls it complete when every input has one. *)

From S2P Require Import Prelude Float64 Decimal Amounts Crates AccountId Bech32 Addresses Borsh GenesisTools GenesisProofs Wallet.
From S2P Require Import RpcToy Translator NearClient SendRaw Psbt PsbtBytes PsbtReads PsbtCreate.

Lemma lookup_repeat_some {A} (x : A) n i : (i < n)%nat -> repeat x n !! i = Some x.
Proof. revert i. induction n as [|n IH]; intros [|i] H; try lia; [done|]. simpl. apply IH. lia. Qed.

Section combine.
Context {C : Crates} {R : RpcCrates} {L : RpcLaws C R}.
Variables (tx : list Z) (ptx : PsbtTx) (fuel : nat).
Hypothesis (Htx : bytes_ok tx) (Hne : tx <> []) (Hparse : parse_raw_tx_for_psbt fuel tx = Ok ptx).
#[local] Set Default Proof Using "All".

Let k := length (ptx_vin ptx).
Let n := length (ptx_vout ptx).

(** A copy with signatures for each input, which fits into memory. *)
Definition copy_ok (sigs : list (gmap string string)) : Prop :=
  Forall sigs_ok sigs /\ length sigs = k /\ fits (write_psbt tx sigs n)
  /\ (length (write_psbt tx sigs n) <= fuel)%nat.
Definition text_of (sigs : list (gmap string string)) : string := base64_encode (write_psbt tx sigs n).

Definition merge_copy (merged sigs : list (gmap string string)) : list (gmap string string) :=
  zip_with (fun m s => s ∪ m) merged sigs.
Definition merge_all (sigss : list (list (gmap string string))) : list (gmap string string) :=
  fold_left merge_copy sigss (repeat ∅ k).

Definition combined (merged : list (gmap string string)) : Combined :=
  mkCombined (Some (hex_encode tx)) tx k n merged true.

Lemma hex_nonempty : hex_encode tx <> ""%string.
Proof. destruct tx as [|x l]; [done|]. unfold hex_encode. simpl. discriminate. Qed.

Lemma combine_copy sigs c merged : copy_ok sigs ->
  (c = nothing_combined /\ merged = repeat ∅ k) \/ c = combined merged ->
  combine_one fuel c (text_of sigs) = Ok (inl (combined (merge_copy merged sigs))).
Proof.
  intros (Hs & Hl & Hfit & Hf) Hc. unfold combine_one, text_of.
  rewrite base64_decode_encode by (by apply psbt_bytes_ok). rewrite has_magic_psbt. cbn [negb].
  rewrite psbt_extract by done. cbn [rbind]. rewrite bool_decide_false by apply hex_nonempty.
  rewrite hex_round by done. rewrite psbt_parse, Hparse by done. cbn [rbind]. fold k n.
  assert (Hm : parse_psbt_input_maps fuel (write_psbt tx sigs n) k = Ok (map (fun m => mkInputInfo m None None) sigs))
    by (rewrite <- Hl; by apply psbt_maps).
  assert (Hz : forall m, merge_signatures m (map (fun m => mkInputInfo m None None) sigs) = merge_copy m sigs)
    by (intros m; unfold merge_signatures, merge_copy; by rewrite zip_with_fmap_r).
  destruct Hc as [[-> ->]| ->]; cbn [cb_reference nothing_combined combined cb_inputs cb_outputs cb_tx cb_signatures];
    rewrite bool_decide_true by done; rewrite !Nat.eqb_refl; cbn [negb andb]; rewrite Hm; cbn [rbind]; by rewrite Hz.
Qed.

Lemma combine_copies sigss merged : Forall copy_ok sigss ->
  combine_all fuel (combined merged) (map text_of sigss) = Ok (inl (combined (fold_left merge_copy sigss merged))).
Proof.
  intros H. revert merged. induction H as [|sigs sigss Hs _ IH]; intros merged; [done|].
  cbn [map combine_all fold_left]. rewrite (combine_copy sigs _ merged Hs) by (by right). cbn [rbind]. apply IH.
Qed.

(** The signatures of one input. *)
Definition merged_at (i : nat) (sigss : list (list (gmap string string))) (m : gmap string string) : gmap string string :=
  fold_left (fun m sigs => default ∅ (sigs !! i) ∪ m) sigss m.

Lemma merge_at sigss merged i m : Forall copy_ok sigss -> merged !! i = Some m -> (i < k)%nat ->
  fold_left merge_copy sigss merged !! i = Some (merged_at i sigss m).
Proof.
  intros H. revert merged m. induction H as [|sigs sigss (_ & Hl & _) _ IH]; intros merged m Hm Hi; [done|].
  cbn [fold_left]. unfold merged_at. cbn [fold_left]. apply IH; [|done]. unfold merge_copy. rewrite lookup_zip_with, Hm. simpl.
  destruct (lookup_lt_is_Some_2 sigs i) as [s ->]; [lia|]. done.
Qed.

Lemma merge_length sigss merged : Forall copy_ok sigss -> length merged = k -> length (fold_left merge_copy sigss merged) = k.
Proof.
  intros H. revert merged. induction H as [|sigs sigss (_ & Hl & _) _ IH]; intros merged Hm; [done|].
  cbn [fold_left]. apply IH. unfold merge_copy. rewrite length_zip_with. lia.
Qed.

Lemma merged_at_spec i sigss m pk sg : merged_at i sigss m !! pk = Some sg ->
  m !! pk = Some sg \/ Exists (fun sigs => exists s, sigs !! i = Some s /\ s !! pk = Some sg) sigss.
Proof.
  revert m. induction sigss as [|sigs sigss IH]; intros m H; [by left|]. unfold merged_at in H. cbn [fold_left] in H.
  apply IH in H as [H|H]; [|right; by apply Exists_cons_tl].
  apply lookup_union_Some_raw in H as [H|[_ H]]; [|by left]. right. apply Exists_cons_hd.
  destruct (sigs !! i) as [s|]; simpl in H; [by exists s|]. by rewrite lookup_empty in H.
Qed.

Lemma merged_at_keeps i sigss m pk : is_Some (m !! pk) \/ Exists (fun sigs => exists s, sigs !! i = Some s /\ is_Some (s !! pk)) sigss ->
  is_Some (merged_at i sigss m !! pk).
Proof.
  revert m. induction sigss as [|sigs sigss IH]; intros m H.
  { destruct H as [H|H]; [done|]. by apply Exists_nil in H. }
  unfold merged_at. cbn [fold_left]. apply IH. destruct H as [H|H].
  - left. rewrite lookup_union_is_Some. by right.
  - apply Exists_cons in H as [(s & -> & H)|H]; [|by right]. left. simpl. rewrite lookup_union_is_Some. by left.
Qed.

Lemma merged_ok sigss merged : Forall copy_ok sigss -> Forall sigs_ok merged -> Forall sigs_ok (fold_left merge_copy sigss merged).
Proof.
  intros H. revert merged. induction H as [|sigs sigss (Hs & _) _ IH]; intros merged Hm; [done|].
  cbn [fold_left]. apply IH. clear IH. unfold merge_copy. revert sigs Hs. induction Hm as [|m merged Hm _ IHm]; intros sigs Hs; [constructor|].
  destruct Hs as [|s sigs Hs Hss]; [constructor|]. cbn [zip_with]. constructor; [|by apply IHm].
  intros pk sg [H1|[_ H1]]%lookup_union_Some_raw; [by apply Hs|by apply Hm].
Qed.

Lemma combine_answer sigss : sigss <> [] -> Forall copy_ok sigss ->
  handle_combinepsbt fuel (JArr [JArr (map (fun sigs => JStr (text_of sigs)) sigss)])
  = Ok (OkResponse (JStr (text_of (merge_all sigss)))).
Proof.
  intros Hn Hc. unfold handle_combinepsbt.
  change (param _ 0 ≫= as_array) with (Some (map (fun sigs => JStr (text_of sigs)) sigss)). cbv iota beta.
  assert (Ho : omap as_str (map (fun sigs => JStr (text_of sigs)) sigss) = map text_of sigss).
  { clear Hn Hc. induction sigss as [|sigs sigss IH]; [done|]. cbn [map]. by rewrite <- IH. }
  rewrite Ho. destruct Hc as [|sigs sigss Hs Hc]; [done|]. cbn [map combine_all].
  rewrite (combine_copy sigs _ (repeat ∅ k) Hs) by (by left). cbn [rbind]. rewrite combine_copies by done. done.
Qed.

Lemma finalize_answer sigs : copy_ok sigs ->
  handle_finalizepsbt fuel (JArr [JStr (text_of sigs)]) = Ok (OkResponse (
    if all_signed (map size sigs) then JObj [("hex"%string, JStr (hex_encode tx)); ("complete"%string, JBool true)]
    else JObj [("hex"%string, JStr ""); ("complete"%string, JBool false); ("psbt"%string, JStr (text_of sigs))])).
Proof.
  intros (Hs & Hl & Hfit & Hf). unfold handle_finalizepsbt, text_of. rewrite psbt_param_ok by (by apply psbt_bytes_ok).
  rewrite psbt_extract by done. cbn [rbind]. rewrite bool_decide_false by apply hex_nonempty.
  assert (Hcount : psbt_input_signature_counts fuel (write_psbt tx sigs n) = Ok (map size sigs)).
  { unfold psbt_input_signature_counts. rewrite psbt_parse, Hparse by done. cbn [rbind].
    assert (Hm : parse_psbt_input_maps fuel (write_psbt tx sigs n) k = Ok (map (fun m => mkInputInfo m None None) sigs))
      by (rewrite <- Hl; by apply psbt_maps).
    fold k in Hm. unfold k in Hm, Hl. destruct (ptx_vin ptx) as [|v vin]; [by destruct sigs|].
    rewrite Hm. cbn [rbind]. by rewrite map_map. }
  rewrite Hcount. cbn [rbind]. by destruct (all_signed _).
Qed.

Lemma all_signed_iff (sigs : list (gmap string string)) : all_signed (map size sigs) = true <->
  (0 < length sigs)%nat /\ forall i m, sigs !! i = Some m -> m <> ∅.
Proof.
  assert (Hall : forallb (fun count => (0 <? count)%nat) (map size sigs) = true <-> forall i m, sigs !! i = Some m -> m <> ∅).
  { rewrite forallb_forall. split.
    - intros H i m Hm E. assert (Hin : In (size m) (map size sigs)) by (apply in_map, list_elem_of_In; by eapply list_elem_of_lookup_2).
      apply H in Hin. subst m. by rewrite map_size_empty in Hin.
    - intros H c (m & <- & Hin)%in_map_iff. apply list_elem_of_In, list_elem_of_lookup_1 in Hin as [i Hi].
      apply Nat.ltb_lt. specialize (H i m Hi). apply map_size_non_empty_iff in H. lia. }
  destruct sigs as [|m sigs]; [simpl; split; [done|intros [H _]; lia]|].
  cbn [map all_signed] in *. rewrite Hall. simpl. split; [intros H; split; [lia|done]|by intros [_ H]].
Qed.

(** C21. combinepsbt gathers all signatures and finalizepsbt counts them.  Given copies of
    one transaction as the wallet writes them, each with any signatures and nothing else in
    its input maps: the answer is a copy with exactly the
    signatures of all of them, input by input and key by key, each one taken from one of
    the copies; reading it back gives these; and finalizepsbt answers that it is complete,
    with the transaction, if and only if there is an input and every input has been
    signed in one of the copies. *)
Theorem combine_gathers sigss :
  sigss <> [] -> Forall copy_ok sigss -> fits (write_psbt tx (merge_all sigss) n) ->
  (length (write_psbt tx (merge_all sigss) n) <= fuel)%nat ->
  handle_combinepsbt fuel (JArr [JArr (map (fun sigs => JStr (text_of sigs)) sigss)])
    = Ok (OkResponse (JStr (text_of (merge_all sigss)))) /\
  base64_decode (text_of (merge_all sigss)) = Ok (write_psbt tx (merge_all sigss) n) /\
  parse_psbt_input_maps fuel (write_psbt tx (merge_all sigss) n) k
    = Ok (map (fun m => mkInputInfo m None None) (merge_all sigss)) /\
  (forall i m pk, merge_all sigss !! i = Some m ->
     (is_Some (m !! pk) <-> Exists (fun sigs => exists s, sigs !! i = Some s /\ is_Some (s !! pk)) sigss) /\
     (forall sg, m !! pk = Some sg -> Exists (fun sigs => exists s, sigs !! i = Some s /\ s !! pk = Some sg) sigss)) /\
  (handle_finalizepsbt fuel (JArr [JStr (text_of (merge_all sigss))])
     = Ok (OkResponse (JObj [("hex"%string, JStr (hex_encode tx)); ("complete"%string, JBool true)]))
   <-> (0 < k)%nat /\ forall i, (i < k)%nat -> Exists (fun sigs => exists s, sigs !! i = Some s /\ s <> ∅) sigss).
Proof.
  intros Hn Hc Hfit Hf.
  assert (Hs : Forall sigs_ok (merge_all sigss)) by (apply merged_ok; [done|apply none_ok]).
  assert (Hl : length (merge_all sigss) = k) by (apply merge_length; [done|apply repeat_length]).
  assert (Hmaps : parse_psbt_input_maps fuel (write_psbt tx (merge_all sigss) n) k
    = Ok (map (fun m => mkInputInfo m None None) (merge_all sigss))) by (rewrite <- Hl at 1; by apply psbt_maps).
  assert (Hat : forall i, (i < k)%nat -> merge_all sigss !! i = Some (merged_at i sigss ∅)).
  { intros i Hi. apply merge_at; [done| |done]. by apply lookup_repeat_some. }
  assert (Hspec : forall i m pk, merge_all sigss !! i = Some m ->
     (is_Some (m !! pk) <-> Exists (fun sigs => exists s, sigs !! i = Some s /\ is_Some (s !! pk)) sigss) /\
     (forall sg, m !! pk = Some sg -> Exists (fun sigs => exists s, sigs !! i = Some s /\ s !! pk = Some sg) sigss)).
  { intros i m pk Hm. pose proof (lookup_lt_Some _ _ _ Hm) as Hi. rewrite Hl in Hi. rewrite (Hat i Hi) in Hm. injection Hm as <-.
    assert (Hone : forall sg, merged_at i sigss ∅ !! pk = Some sg ->
      Exists (fun sigs => exists s, sigs !! i = Some s /\ s !! pk = Some sg) sigss).
    { intros sg H. apply merged_at_spec in H as [H|H]; [by rewrite lookup_empty in H|done]. }
    split; [|done]. split; [|intros H; apply merged_at_keeps; by right].
    intros [sg Hsg]. eapply Exists_impl; [exact (Hone sg Hsg)|]. intros sigs (s & ? & ?). exists s. split; [done|by exists sg]. }
  split; [|split; [apply base64_decode_encode, psbt_bytes_ok; done|split; [done|split; [done|]]]].
  - apply combine_answer; done.
  - rewrite finalize_answer by done. rewrite <- Hl at 1. rewrite <- Hl.
    transitivity (all_signed (map size (merge_all sigss)) = true).
    { destruct (all_signed _); split; try done. }
    rewrite all_signed_iff. apply and_iff_compat_l. split.
    + intros H i Hi. rewrite Hl in Hi. specialize (H i _ (Hat i Hi)). apply map_choose in H as (pk & sg & Hsg).
      eapply Exists_impl; [exact (proj2 (Hspec i _ pk (Hat i Hi)) sg Hsg)|]. intros sigs (s & ? & H2). exists s. split; [done|].
      intros ->. by rewrite lookup_empty in H2.
    + intros H i m Hm ->. pose proof (lookup_lt_Some _ _ _ Hm) as Hi. specialize (H i Hi). apply Exists_exists in H as (sigs & Hin & s & Hsi & Hne').
      apply map_choose in Hne' as (pk & sg & Hsg). destruct (Hspec i ∅ pk Hm) as [[_ Hb] _].
      destruct Hb as [x Hx]; [|by rewrite lookup_empty in Hx]. apply Exists_exists. exists sigs. split; [done|]. exists s. split; [done|by exists sg].
Qed.
End combine.
