(* ===== verification/PsbtSign.v ===== *)
(** * Signing a copy

    walletprocesspsbt signs every input with the first key of the wallet; what it makes is
    complete for finalizepsbt, but other signatures are dropped, and the transaction that
    finalizepsbt gives is not one that sendrawtransaction takes. *)

From S2P Require Import Prelude Float64 Decimal Amounts Crates AccountId Bech32 Addresses Borsh GenesisTools GenesisProofs Wallet.
From S2P Require Import RpcToy Translator NearClient SendRaw Psbt PsbtBytes PsbtReads PsbtCreate BitcoinWire PsbtCombine.

Lemma counts_of fuel b ptx infos : parse_psbt_unsigned_tx fuel b = Ok ptx -> (0 < length (ptx_vin ptx))%nat ->
  parse_psbt_input_maps fuel b (length (ptx_vin ptx)) = Ok infos ->
  psbt_input_signature_counts fuel b = Ok (map (fun i => size (in_partial_signatures i)) infos).
Proof.
  intros Hp Hk Hm. unfold psbt_input_signature_counts. rewrite Hp. cbn [rbind].
  destruct (ptx_vin ptx) as [|v vin]; [simpl in Hk; lia|]. by rewrite Hm.
Qed.

Section sign.
Context {C : Crates} {R : RpcCrates} {L : RpcLaws C R} {B : BitcoinCrate}.
Variables (sign_der : list Z -> list Z -> list Z) (key_order : gmap string KeyEntry -> list string).
Variables (tx : list Z) (ptx : PsbtTx) (fuel : nat).
Hypothesis (Htx : bytes_ok tx) (Hne : tx <> []) (Hparse : parse_raw_tx_for_psbt fuel tx = Ok ptx).
#[local] Set Default Proof Using "All".

Let k := length (ptx_vin ptx).
Let n := length (ptx_vout ptx).

Definition signed_map (pubkey der : list Z) : list Z :=
  write_pair (0x02 :: pubkey) der ++ write_pair [0x03] (le_enc 4 1) ++ [0x00].
Fixpoint signed_maps (pubkey secret_key : list Z) (idx : Z) (m : nat) : list Z :=
  match m with
  | O => []
  | S m => signed_map pubkey (input_signature sign_der (hex_encode tx) idx secret_key)
           ++ signed_maps pubkey secret_key (idx + 1) m
  end.
Definition signed_psbt (pubkey secret_key : list Z) : list Z :=
  psbt_head tx ++ signed_maps pubkey secret_key 0 k ++ empty_maps n.

Lemma skip_input_map m pre post : sigs_ok m -> fits (pre ++ write_input_map m ++ post) ->
  (length (pre ++ write_input_map m ++ post) <= fuel)%nat ->
  skip_map fuel (pre ++ write_input_map m ++ post) (vec_len pre) = Ok (vec_len (pre ++ write_input_map m)).
Proof.
  intros Hm Hfit Hf. unfold write_input_map in *. destruct (sorted_sigs m Hm) as [Hs _]. pose proof (signatures_len _ Hs).
  rewrite <- !app_assoc in *. apply skip_signatures; [done|done|]. rewrite !length_app in Hf. simpl in Hf. lia.
Qed.

Lemma sign_all pubkey secret_key sigs : Forall sigs_ok sigs -> forall pre post idx,
  fits (pre ++ flat_map write_input_map sigs ++ post) ->
  (length (pre ++ flat_map write_input_map sigs ++ post) <= fuel)%nat ->
  sign_inputs sign_der fuel (pre ++ flat_map write_input_map sigs ++ post) (hex_encode tx) pubkey secret_key idx
    (length sigs) (vec_len pre)
  = Ok (signed_maps pubkey secret_key idx (length sigs), vec_len (pre ++ flat_map write_input_map sigs)).
Proof.
  induction 1 as [|m sigs Hm _ IH]; intros pre post idx Hfit Hf.
  { cbn [flat_map length sign_inputs signed_maps]. by rewrite app_nil_r. }
  cbn [flat_map length sign_inputs signed_maps] in *. rewrite <- !app_assoc in *.
  rewrite skip_input_map by done. cbn [rbind]. rewrite (app_assoc pre (write_input_map m)) in *.
  rewrite IH by done. cbn [rbind]. rewrite <- !app_assoc. f_equal. f_equal.
  unfold signed_map. by rewrite <- !app_assoc.
Qed.

Lemma skip_empty m : forall pre, fits (pre ++ empty_maps m) -> (length (pre ++ empty_maps m) <= fuel)%nat ->
  skip_outputs fuel (pre ++ empty_maps m) m (vec_len pre) = Ok (empty_maps m).
Proof.
  induction m as [|m IH]; intros pre Hfit Hf; [done|].
  change (empty_maps (S m)) with ([0] ++ empty_maps m) in *. cbn [skip_outputs].
  assert (Hf1 : exists f, fuel = S f) by (destruct fuel; [rewrite length_app in Hf; simpl in Hf; lia|eauto]).
  destruct Hf1 as [f Ef]. rewrite Ef at 1. rewrite skip_end by done. cbn [rbind].
  rewrite app_assoc in *. by rewrite IH.
Qed.

Lemma build_signed sigs keystore pubkey secret_key :
  Forall sigs_ok sigs -> length sigs = k -> fits (write_psbt tx sigs n) -> (length (write_psbt tx sigs n) <= fuel)%nat ->
  signer_material keystore (key_order (ks_keys keystore)) = Some (pubkey, secret_key) ->
  build_signed_psbt sign_der key_order fuel (write_psbt tx sigs n) keystore
  = Ok (signed_psbt pubkey secret_key, (0 <? k)%nat).
Proof.
  intros Hs Hl Hfit Hf Hm. unfold build_signed_psbt. rewrite psbt_parse, Hparse by done. cbn [rbind]. fold k n.
  rewrite Hm. rewrite psbt_extract by done. unfold write_psbt in *.
  destruct (fuel_two tx sigs n fuel Hs Hfit Hf) as [f Ef]. rewrite Ef at 1. rewrite copy_head by done. cbn [rbind].
  assert (El : last (psbt_head tx) = Some 0).
  { unfold psbt_head. rewrite !app_assoc. apply last_snoc. }
  rewrite bool_decide_true by done. rewrite <- Hl at 1. rewrite sign_all by done. cbn [rbind].
  rewrite app_assoc in *. rewrite skip_empty by done. cbn [rbind]. unfold signed_psbt. by rewrite Hl.
Qed.

(** What is read from the signed text. *)
Definition signed_info (pubkey secret_key : list Z) (idx : Z) : InputInfo :=
  mkInputInfo {[hex_encode pubkey := hex_encode (input_signature sign_der (hex_encode tx) idx secret_key)]} (Some 1) None.

Lemma read_signed pubkey secret_key m : forall pre post idx,
  fits (pre ++ signed_maps pubkey secret_key idx m ++ post) -> (3 <= fuel)%nat ->
  parse_input_maps fuel (pre ++ signed_maps pubkey secret_key idx m ++ post) m (vec_len pre)
  = Ok (map (fun i => signed_info pubkey secret_key (idx + Z.of_nat i)) (seq 0 m)).
Proof.
  induction m as [|m IH]; intros pre post idx Hfit Hf; [done|].
  destruct fuel as [|[|[|f]]] eqn:Ef; [lia..|]. rewrite <- Ef in *.
  cbn [signed_maps parse_input_maps] in *. set (der := input_signature _ _ idx _) in *. unfold signed_map in *. rewrite <- !app_assoc in *.
  set (rest := signed_maps pubkey secret_key (idx + 1) m) in *.
  set (p1 := write_pair (2 :: pubkey) der) in *. set (p2 := write_pair [3] (le_enc 4 1)) in *.
  rewrite Ef at 1. unfold p1 in Hfit. rewrite (input_pair pre (2 :: pubkey) der _ ltac:(done) Hfit _ 2 pubkey no_info eq_refl). fold p1.
  rewrite (app_assoc pre p1) in *. unfold p1, p2 in Hfit.
  assert (Hfit2 : fits ((pre ++ p1) ++ p2 ++ [0] ++ rest ++ post)) by exact Hfit.
  unfold p2 in Hfit2. rewrite (input_pair (pre ++ p1) [3] (le_enc 4 1) _ ltac:(done) Hfit2 _ 3 [] _ eq_refl). fold p2 in Hfit2 |- *.
  rewrite (app_assoc (pre ++ p1) p2) in *. rewrite (input_end ((pre ++ p1) ++ p2) (rest ++ post) Hfit2). cbn [rbind].
  rewrite (app_assoc ((pre ++ p1) ++ p2) [0]) in *. rewrite (IH _ post (idx + 1)) by done. cbn [rbind].
  cbn [seq map]. f_equal. f_equal.
  - unfold signed_info. rewrite Z.add_0_r. fold der. reflexivity.
  - rewrite <- seq_shift, map_map. apply map_ext. intros i. f_equal. lia.
Qed.

Lemma signed_ok pubkey secret_key idx m : bytes_ok pubkey -> (forall msg sk, bytes_ok (sign_der msg sk)) ->
  fits (signed_maps pubkey secret_key idx m) -> bytes_ok (signed_maps pubkey secret_key idx m).
Proof.
  intros Hp Hd. revert idx. induction m as [|m IH]; intros idx Hfit; [constructor|]. cbn [signed_maps] in *.
  set (rest := signed_maps pubkey secret_key (idx + 1) m) in *. unfold signed_map in *.
  set (p1 := write_pair (2 :: pubkey) _) in *. set (p2 := write_pair [3] _) in *.
  assert (H1 : fits p1) by len_lia. assert (H2 : fits p2) by len_lia. assert (H3 : fits rest) by len_lia. rewrite <- !app_assoc.
  assert (H0 : bytes_ok [0]) by (repeat constructor; unfold is_byte; lia).
  apply Forall_app; split; [|apply Forall_app; split; [|apply Forall_app; split; [done|by apply IH]]].
  - apply write_pair_ok; [constructor; [unfold is_byte; lia|done]| |done]. unfold input_signature. apply Forall_app.
    split; [apply Hd|repeat constructor; unfold is_byte; lia].
  - apply write_pair_ok; [repeat constructor; unfold is_byte; lia|apply le_enc_ok|done].
Qed.

Lemma head_ok post : fits (psbt_head tx ++ post) -> bytes_ok (psbt_head tx).
Proof.
  intros Hfit. pose proof (compact_len (vec_len tx)). unfold psbt_head in *.
  repeat (apply Forall_app; split); try done; try (repeat constructor; unfold is_byte; lia). apply write_compact_size_ok. len_lia.
Qed.

Lemma has_magic_head post : has_magic (psbt_head tx ++ post) = true.
Proof.
  unfold has_magic, psbt_head. rewrite <- !app_assoc, vec_len_app. change (vec_len MAGIC) with 5.
  rewrite (proj2 (Z.leb_le 5 _)) by (nonneg; lia). reflexivity.
Qed.

(** C29. walletprocesspsbt signs every input.  From a copy of a transaction with an input,
    in a wallet with a key that can sign: the answer is complete, its text has the same
    transaction, each input has the one signature that the wallet's key makes for it, and
    finalizepsbt takes it as complete.  Signatures that the copy had are not kept. *)
Theorem process_signs now w sigs pubkey secret_key :
  (forall msg sk, bytes_ok (sign_der msg sk)) -> ws_loaded w = true -> is_wallet_unlocked w now = true ->
  signer_material (ws_keystore w) (key_order (ks_keys (ws_keystore w))) = Some (pubkey, secret_key) -> bytes_ok pubkey ->
  copy_ok tx ptx fuel sigs -> (0 < k)%nat -> fits (signed_psbt pubkey secret_key) ->
  (length (signed_psbt pubkey secret_key) <= fuel)%nat ->
  exists text, handle_walletprocesspsbt sign_der key_order fuel now (JArr [JStr (text_of tx ptx sigs)]) w
      = Ok (OkResponse (JObj [("psbt"%string, JStr text); ("complete"%string, JBool true)])) /\
    base64_decode text = Ok (signed_psbt pubkey secret_key) /\
    parse_psbt_unsigned_tx fuel (signed_psbt pubkey secret_key) = Ok ptx /\
    parse_psbt_input_maps fuel (signed_psbt pubkey secret_key) k
      = Ok (map (fun i => signed_info pubkey secret_key (Z.of_nat i)) (seq 0 k)) /\
    handle_finalizepsbt fuel (JArr [JStr text])
      = Ok (OkResponse (JObj [("hex"%string, JStr (hex_encode tx)); ("complete"%string, JBool true)])).
Proof.
  intros Hder Hld Hul Hm Hpk (Hs & Hl & Hfit & Hf) Hk Hfit2 Hf2. fold n in Hfit, Hf.
  exists (base64_encode (signed_psbt pubkey secret_key)).
  assert (Hok : bytes_ok (signed_psbt pubkey secret_key)).
  { unfold signed_psbt in *. apply Forall_app. split; [by eapply head_ok|]. apply Forall_app. split; [apply signed_ok; try done; len_lia|].
    apply Forall_forall. intros x Hx%list_elem_of_In%repeat_spec. subst x. unfold is_byte; lia. }
  destruct (fuel_two tx sigs n fuel Hs Hfit Hf) as [f Ef].
  assert (H3 : (3 <= fuel)%nat) by (unfold signed_psbt, psbt_head in Hf2; rewrite !length_app in Hf2; simpl in Hf2; lia).
  assert (Hfind : find_unsigned_tx fuel (signed_psbt pubkey secret_key) 5 = Ok (Some tx)) by (rewrite Ef; by apply find_head).
  assert (Hun : parse_psbt_unsigned_tx fuel (signed_psbt pubkey secret_key) = Ok ptx) by (unfold parse_psbt_unsigned_tx; by rewrite Hfind).
  assert (Hmaps : parse_psbt_input_maps fuel (signed_psbt pubkey secret_key) k
      = Ok (map (fun i => signed_info pubkey secret_key (Z.of_nat i)) (seq 0 k))).
  { unfold parse_psbt_input_maps, signed_psbt in *. rewrite Ef at 1. rewrite skip_head by done. cbn [rbind]. by rewrite read_signed. }
  split; [|split; [by apply base64_decode_encode|split; [done|split; [done|]]]].
  - unfold handle_walletprocesspsbt, text_of. rewrite Hld, Hul. cbn [negb]. fold n. rewrite psbt_param_ok by (by apply psbt_bytes_ok).
    rewrite psbt_extract by done. cbn [rbind]. rewrite bool_decide_false by (by eapply hex_nonempty).
    rewrite (build_signed sigs _ pubkey secret_key) by done. cbn [rbind]. by rewrite (proj2 (Nat.ltb_lt 0 k) Hk).
  - unfold handle_finalizepsbt, psbt_param. change (get_str_param _ 0) with (Some (base64_encode (signed_psbt pubkey secret_key))). cbv iota beta.
    rewrite base64_decode_encode by done. unfold signed_psbt at 1. rewrite has_magic_head. unfold extract_unsigned_tx_hex. rewrite Hfind. cbn [rbind].
    rewrite bool_decide_false by (by eapply hex_nonempty). rewrite (counts_of fuel _ ptx _ Hun Hk Hmaps). cbn [rbind].
    rewrite map_map. assert (Hall : forall l, forallb (fun count => (0 <? count)%nat)
      (map (fun i => size (in_partial_signatures (signed_info pubkey secret_key (Z.of_nat i)))) l) = true).
    { intros l. apply forallb_forall. intros c (i & <- & _)%in_map_iff. unfold signed_info. cbn [in_partial_signatures]. by rewrite map_size_singleton. }
    destruct (seq 0 k) as [|x l] eqn:Es; [apply (f_equal length) in Es; rewrite length_seq in Es; simpl in Es; lia|].
    pose proof (Hall (x :: l)) as Hx. unfold all_signed. cbn [map] in *. by rewrite Hx.
Qed.
End sign.

(* ------------------------------------------------------------------ *)
(** ** What finalizepsbt gives *)

Section refused.
Context {C : Crates} {R : RpcCrates} {L : RpcLaws C R} {B : BitcoinCrate}.
Variables (call : nat -> string -> Json -> result Json message) (json_from_str : string -> option Json).

(** An input without a signature. *)
Definition unsigned_input (i : BtcTxIn) : Prop := ti_script_sig i = [] /\ ti_witness i = [].

Lemma no_sender t hrp : Forall unsigned_input (btx_input t) -> exists m, extract_sender_from_input t hrp = Err m.
Proof.
  intros H. unfold extract_sender_from_input. destruct H as [|i l [Hs Hw] _]; [by eexists|]. rewrite Hs, Hw. by eexists.
Qed.

(** Bytes that are no intent and that the crate reads without a signature. *)
Lemma unsigned_refused tx s : bytes_ok tx -> head tx <> head (as_bytes SIGNED_INTENT_PREFIX) ->
  (forall t, deserialize tx = Some t -> Forall unsigned_input (btx_input t)) ->
  exists m, run_command (handle_sendrawtransaction call json_from_str (JArr [JStr (hex_encode tx)])) s = (s, ErrResponse (-22) m).
Proof using L.
  intros Htx Hd Hun. unfold handle_sendrawtransaction, run_command, bind, some_or_answer.
  change (get_str_param (JArr [JStr (hex_encode tx)]) 0) with (Some (hex_encode tx)).
  unfold ret. rewrite hex_round by done.
  assert (Hpre : starts_with SIGNED_INTENT_PREFIX (if is_utf8 tx then of_bytes tx else ""%string) = false).
  { destruct (is_utf8 tx); [|done]. unfold starts_with. apply bool_decide_false. rewrite as_bytes_of_bytes by done.
    intros E. apply Hd. destruct tx as [|x tx]; [discriminate E|]. apply (f_equal head) in E. exact E. }
  rewrite Hpre. unfold send_bitcoin_tx, bind, gets, ok_or_answer. unfold from_hex_with_hrp. rewrite hex_round by done. cbn [ok_or rbind].
  destruct (deserialize tx) as [t|] eqn:Ed; cbn [ok_or rbind]; [|by eexists].
  destruct (no_sender t (bech32_hrp (ws_chain_id (ss_wallet s))) (Hun t eq_refl)) as [m ->]. cbn [rbind]. by eexists.
Qed.

Lemma copy_tx_fits tx ptx fuel sigs : copy_ok tx ptx fuel sigs -> fits tx /\ (length tx <= fuel)%nat.
Proof.
  intros (_ & _ & Hfit & Hf). unfold write_psbt, psbt_head in Hfit, Hf. split; [len_lia|].
  rewrite !length_app in Hf. lia.
Qed.

(** C40. A finalized transaction is never sent.  For every transaction of createpsbt with an
    input, all of whose inputs name 32-byte ids, and whatever signatures were given: what
    finalizepsbt answers as complete is the unsigned transaction.  It is in Bitcoin's
    format, with empty input scripts; where the bitcoin crate reads that format as Bitcoin
    defines it, sendrawtransaction finds no sender: it answers an error and hands nothing
    to the node.  The crate may also refuse the bytes. *)
Theorem finalized_is_refused hrp_of ins outs locktime fuel sigs hex s :
  (forall s b, hex_decode s = Some b -> bytes_ok b) ->
  (forall t t', btc_tx_ok t -> deserialize (enc btc_tx_c t) = Some t' -> t' = t) ->
  ins <> [] -> Forall input_ok ins -> Forall (fun o => is_u u64_max o.2) outs -> is_u u32_max locktime ->
  let tx := unsigned_tx hrp_of ins outs locktime in
  let ptx := mkPsbtTx (map vin_of ins) (vouts_of hrp_of 0 outs) 2 locktime in
  copy_ok tx ptx fuel sigs ->
  handle_finalizepsbt fuel (JArr [JStr (text_of tx ptx sigs)])
    = Ok (OkResponse (JObj [("hex"%string, JStr hex); ("complete"%string, JBool true)])) ->
  hex = hex_encode tx /\
  exists m, run_command (handle_sendrawtransaction call json_from_str (JArr [JStr hex])) s = (s, ErrResponse (-22) m).
Proof using L.
  intros Hhex Hde Hne Hi Ho Hl tx ptx Hc Hfin.
  destruct (copy_tx_fits tx ptx fuel sigs Hc) as [Hfit Hf].
  pose proof (unsigned_tx_ok Hhex hrp_of ins outs locktime Hfit) as Htx.
  pose proof (read_unsigned_tx hrp_of ins outs locktime fuel Hi Ho Hl Hfit Hf) as Hp. fold tx ptx in Hp.
  assert (Htn : tx <> []) by (unfold tx, unsigned_tx; simpl; discriminate).
  rewrite (finalize_answer tx ptx fuel Htx Htn Hp sigs Hc) in Hfin.
  assert (hex = hex_encode tx) as ->.
  { destruct (all_signed _); [by injection Hfin|]. discriminate Hfin. }
  split; [done|]. apply unsigned_refused; [done|unfold tx, unsigned_tx; simpl; discriminate|].
  intros t Et. unfold tx in Et. rewrite (unsigned_tx_encodes Hhex hrp_of ins outs locktime Hi) in Et.
  rewrite (Hde _ t (unsigned_btc_ok Hhex hrp_of ins outs locktime Hne Hi Ho Hl Hfit) Et).
  apply Forall_map, Forall_true. done.
Qed.
End refused.
