(* ===== verification/PsbtLoop.v ===== *)
(** * Loops that do not end

    The sizes of a PSBT move the position of the readers, and the addition wraps. *)

From S2P Require Import Prelude Float64 Decimal Amounts Crates AccountId Bech32 Addresses Borsh GenesisTools GenesisProofs Wallet.
From S2P Require Import RpcToy Translator NearClient SendRaw SendProofs SignSend Psbt PsbtBytes PsbtReads PsbtCreate BitcoinWire PsbtCombine PsbtSign.

Lemma from_le_nonneg l : bytes_ok l -> 0 <= from_le_bytes l.
Proof. induction 1 as [|x l Hx _ IH]; [done|]. cbn [from_le_bytes fold_right]. fold (from_le_bytes l). unfold is_byte in Hx. lia. Qed.

Lemma read_size_range d pos : bytes_ok d ->
  0 <= (read_compact_size d pos).1 /\ 1 <= (read_compact_size d pos).2 <= 9.
Proof.
  intros Hd. unfold read_compact_size. destruct (vec_len d <=? pos); [simpl; lia|]. cbv zeta.
  assert (Hr : bytes_ok (drop (Z.to_nat pos) d)) by by apply Forall_drop. set (rest := drop _ d) in *.
  assert (Ht : forall j, bytes_ok (take j (drop 1 rest))) by (intros j; by apply Forall_take, Forall_drop).
  assert (Hf : 0 <= nth 0 rest 0).
  { destruct rest as [|x l]; [done|]. inversion_clear Hr as [|? ? Hx _]. unfold is_byte in Hx. simpl. lia. }
  repeat case_match; cbn [fst snd]; (split; [first [lia | apply from_le_nonneg, Ht]|lia]).
Qed.

(** With sizes below the limit, the position grows. *)
Lemma bounded_ends d : bytes_ok d -> fits d -> (forall pos, 0 <= pos -> (read_compact_size d pos).1 <= 2 ^ 62) ->
  forall fuel pos, 0 <= pos -> (Z.to_nat (vec_len d - pos) < fuel)%nat -> find_unsigned_tx fuel d pos <> Err Running.
Proof.
  intros Hd Hfit Hb. induction fuel as [|fuel IH]; intros pos Hp Hf; [lia|]. cbn [find_unsigned_tx].
  destruct (Z.leb_spec (vec_len d) pos); [done|].
  pose proof (read_size_range d pos Hd) as [H1 H2]. pose proof (Hb pos Hp) as H3.
  destruct (read_compact_size d pos) as [key_len advance]. simpl in H1, H2, H3.
  destruct (Z.eqb_spec key_len 0); [done|]. rewrite (wadd_small pos advance) by len_lia.
  destruct (Z.leb_spec (vec_len d) (pos + advance)); [done|].
  unfold byte_at. destruct (Z.ltb_spec (pos + advance) (vec_len d)); [|lia]. cbn [rbind].
  rewrite (wadd_small (pos + advance) key_len) by len_lia.
  destruct (Z.leb_spec (vec_len d) (pos + advance + key_len)); [done|].
  pose proof (read_size_range d (pos + advance + key_len) Hd) as [G4 G5]. pose proof (Hb (pos + advance + key_len)) as G6.
  destruct (read_compact_size d (pos + advance + key_len)) as [val_len advance2]. simpl in G4, G5, G6.
  rewrite (wadd_small _ advance2) by len_lia. rewrite (wadd_small _ val_len) by len_lia.
  destruct (_ =? 0).
  - destruct (_ <? _); [done|]. unfold range. destruct (_ && _); done.
  - apply IH; lia.
Qed.

Lemma endless_has_huge_size d : bytes_ok d -> fits d -> find_unsigned_tx (S (length d)) d 5 = Err Running ->
  exists pos, 2 ^ 62 < (read_compact_size d pos).1.
Proof.
  intros Hd Hfit Hr.
  destruct (decide (Forall (fun i => (read_compact_size d (Z.of_nat i)).1 <= 2 ^ 62) (seq 0 (length d)))) as [Ha|Ha].
  - exfalso. apply (bounded_ends d Hd Hfit) in Hr; [done| |lia|unfold vec_len; lia].
    intros pos Hp. destruct (Z.lt_ge_cases pos (vec_len d)).
    + rewrite Forall_forall in Ha. specialize (Ha (Z.to_nat pos)). rewrite Z2Nat.id in Ha by done. apply Ha.
      apply list_elem_of_In, in_seq. unfold vec_len in *. lia.
    + unfold read_compact_size. by rewrite (proj2 (Z.leb_le _ _)) by done.
  - apply not_Forall_Exists in Ha; [|solve_decision]. apply Exists_exists in Ha as (i & _ & Hi). exists (Z.of_nat i).
    simpl in Hi. lia.
Qed.

(** A size of 2^64 - 9 after nine bytes leads back to itself. *)
Definition loop_bytes : list Z := MAGIC ++ [255; 247; 255; 255; 255; 255; 255; 255; 255; 1].
Definition loop_text : string := "cHNidP//9/////////8B".

Lemma loop_text_bytes : base64_decode loop_text = Ok loop_bytes /\ has_magic loop_bytes = true.
Proof. split; vm_compute; reflexivity. Qed.

Lemma loop_find fuel : find_unsigned_tx fuel loop_bytes 5 = Err Running.
Proof.
  induction fuel as [|fuel IH]; [reflexivity|].
  assert (E : find_unsigned_tx (S fuel) loop_bytes 5 = find_unsigned_tx fuel loop_bytes 5) by reflexivity. by rewrite E.
Qed.

(** C39. The commands on PSBTs can loop for ever, but only on an absurd size.  On the text
    cHNidP//9/////////8B none of decodepsbt, finalizepsbt, combinepsbt and, in an unlocked
    wallet, walletprocesspsbt ends, whatever the number of steps: a size of 2^64 - 9 leads
    the wrapping position back to itself.  And a text whose transaction has not been found
    or refused after as many steps as it has bytes holds a size above 2^62. *)
Theorem psbt_loops {C : Crates} {R : RpcCrates} sign_der key_order now w :
  ws_loaded w = true -> is_wallet_unlocked w now = true ->
  (forall fuel,
     handle_decodepsbt fuel (JArr [JStr loop_text]) = Err Running /\
     handle_finalizepsbt fuel (JArr [JStr loop_text]) = Err Running /\
     handle_combinepsbt fuel (JArr [JArr [JStr loop_text]]) = Err Running /\
     handle_walletprocesspsbt sign_der key_order fuel now (JArr [JStr loop_text]) w = Err Running) /\
  (forall d, bytes_ok d -> fits d -> find_unsigned_tx (S (length d)) d 5 = Err Running ->
     exists pos, 2 ^ 62 < (read_compact_size d pos).1).
Proof.
  intros Hld Hul. split; [|apply endless_has_huge_size]. intros fuel. destruct loop_text_bytes as [H1 H2].
  assert (Hp : forall e, psbt_param (JArr [JStr loop_text]) e = inl (loop_text, loop_bytes)).
  { intros e. unfold psbt_param. change (get_str_param _ 0) with (Some loop_text). cbv iota beta. by rewrite H1, H2. }
  assert (He : extract_unsigned_tx_hex fuel loop_bytes = Err Running) by (unfold extract_unsigned_tx_hex; by rewrite loop_find).
  assert (Hu : parse_psbt_unsigned_tx fuel loop_bytes = Err Running) by (unfold parse_psbt_unsigned_tx; by rewrite loop_find).
  split_and!.
  - unfold handle_decodepsbt. by rewrite Hp, Hu.
  - unfold handle_finalizepsbt. by rewrite Hp, He.
  - unfold handle_combinepsbt. change (param _ 0 ≫= as_array) with (Some [JStr loop_text]). cbv iota beta.
    change (omap as_str [JStr loop_text]) with [loop_text]. cbn [combine_all]. unfold combine_one. by rewrite H1, H2, He.
  - unfold handle_walletprocesspsbt. by rewrite Hld, Hul, Hp, He.
Qed.

Module PsbtSample.

(** The sample of the server with the base64 of the standard. *)
Definition rpc : RpcCrates := {|
  hex_decode := @hex_decode ToyRpc.crates;
  secp_valid := @secp_valid ToyRpc.crates;
  secp_compressed := @secp_compressed ToyRpc.crates;
  secp_uncompressed := @secp_uncompressed ToyRpc.crates;
  secp_sign := @secp_sign ToyRpc.crates;
  aead_encrypt := @aead_encrypt ToyRpc.crates;
  aead_decrypt := @aead_decrypt ToyRpc.crates;
  keystore_to_json := @keystore_to_json ToyRpc.crates;
  keystore_to_json_pretty := @keystore_to_json_pretty ToyRpc.crates;
  keystore_of_json := @keystore_of_json ToyRpc.crates;
  wallet_to_json_pretty := @wallet_to_json_pretty ToyRpc.crates;
  wallet_of_json := @wallet_of_json ToyRpc.crates;
  b64_std_encode := base64_encode;
  b64_std_decode := fun s => match base64_decode s with Ok b => Some b | _ => None end;
|}.
#[local] Existing Instance SendSample.crates.
#[local] Existing Instance rpc.
#[local] Existing Instance SendSample.bitcoin.

Lemma laws : RpcLaws SendSample.crates rpc.
Proof. destruct (ToyRpc.laws (C := SendSample.crates)). by constructor. Qed.
#[local] Existing Instance laws.

Lemma hex_bytes s b : hex_decode s = Some b -> bytes_ok b.
Proof.
  change (hex_decode s) with (ToyRpc.unhex (as_bytes s)). generalize (as_bytes s). clear s.
  assert (Hn : forall c v, ToyRpc.nibble c = Some v -> 0 <= v < 16).
  { intros c v. unfold ToyRpc.nibble. repeat case_match; intros E; try discriminate E; injection E as <-; lia. }
  assert (Hw : forall m l, (length l <= m)%nat -> forall b, ToyRpc.unhex l = Some b -> bytes_ok b).
  { induction m as [|m IH]; intros [|x [|y l]] Hm b0 H; simpl in *; try lia; try discriminate H; try (injection H as <-; constructor).
    destruct (ToyRpc.nibble x) as [a|] eqn:Ea; [|discriminate]. destruct (ToyRpc.nibble y) as [c|] eqn:Ec; [|discriminate].
    destruct (ToyRpc.unhex l) as [r|] eqn:Er; [|discriminate]. injection H as <-. apply Hn in Ea, Ec.
    constructor; [unfold is_byte; lia|]. apply (IH l); [lia|done]. }
  intros l. by apply (Hw (length l) l).
Qed.

(** One input, one payment of one coin. *)
Definition address : string := rpc_bech32_encode "bc" 0 (repeat 7 20).
Definition params : Json :=
  JArr [JArr [JObj [("txid"%string, JStr (hex_encode (repeat 17 32))); ("vout"%string, JNum 3)]];
        JObj [(address, JNum 1)]; JNum 5].
Definition ins : list (string * Z) := [(hex_encode (repeat 17 32), 3)].
Definition outs : list (string * Z) := [(address, 100000000)].
Definition tx : list Z := unsigned_tx hrp_guess ins outs 5.
Definition ptx : PsbtTx := mkPsbtTx (map vin_of ins) (vouts_of hrp_guess 0 outs) 2 5.
Definition fuel : nat := 400.

Lemma parsed : parse_raw_tx_for_psbt fuel tx = Ok ptx.
Proof. vm_compute. reflexivity. Qed.
Lemma tx_ok : bytes_ok tx.
Proof. apply unsigned_tx_ok; [exact hex_bytes|by vm_compute]. Qed.
Lemma tx_some : tx <> [].
Proof. vm_compute. discriminate. Qed.

Lemma created_is_decoded_witness : exists text,
  handle_createpsbt params = OkResponse (JStr text) /\
  handle_decodepsbt fuel (JArr [JStr text]) = Ok (OkResponse (decoded_json (hex_encode tx) ptx [no_info])).
Proof.
  apply (created_is_decoded params outs fuel).
  - exact hex_bytes.
  - intros b _. reflexivity.
  - vm_compute. reflexivity.
  - repeat constructor; [vm_compute; discriminate|vm_compute; discriminate|].
    exists (repeat 17 32). split; vm_compute; reflexivity.
  - split; vm_compute; discriminate.
  - vm_compute. discriminate.
  - apply Nat.leb_le. vm_compute. reflexivity.
Defined.

(** A copy without and one with a signature. *)
Definition sig1 : list (gmap string string) := [{[hex_encode (repeat 2 33) := hex_encode [48; 1]]}].
Lemma copies : Forall (copy_ok tx ptx fuel) [[∅]; sig1].
Proof.
  assert (H1 : sigs_ok ∅) by apply map_Forall_empty.
  assert (H2 : sigs_ok {[hex_encode (repeat 2 33) := hex_encode [48; 1]]}).
  { apply map_Forall_singleton. exists (repeat 2 33), [48; 1]. split; [done|]. split; repeat constructor; unfold is_byte; lia. }
  apply Forall_cons. split; [|apply Forall_singleton];
    (split; [by apply Forall_singleton|]; split; [done|]; split; [vm_compute; discriminate|apply Nat.leb_le; vm_compute; reflexivity]).
Qed.

Lemma combine_gathers_witness :
  handle_finalizepsbt fuel (JArr [JStr (text_of tx ptx (merge_all ptx [[∅]; sig1]))])
  = Ok (OkResponse (JObj [("hex"%string, JStr (hex_encode tx)); ("complete"%string, JBool true)])).
Proof.
  apply (combine_gathers tx ptx fuel tx_ok tx_some parsed [[∅]; sig1]).
  - discriminate.
  - exact copies.
  - vm_compute. discriminate.
  - apply Nat.leb_le. vm_compute. reflexivity.
  - split; [simpl; lia|]. intros [|i] Hi; [|simpl in Hi; lia].
    apply Exists_cons_tl, Exists_cons_hd. eexists. split; [reflexivity|]. intros E. apply (f_equal size) in E.
    by rewrite map_size_singleton in E.
Defined.

Definition sign_der (msg sk : list Z) : list Z := [48; 2].
Definition key_order (m : gmap string KeyEntry) : list string := [SendSample.sender].

Lemma process_signs_witness : exists text,
  handle_walletprocesspsbt sign_der key_order fuel 0 (JArr [JStr (text_of tx ptx sig1)]) SendSample.wallet
    = Ok (OkResponse (JObj [("psbt"%string, JStr text); ("complete"%string, JBool true)])) /\
  handle_finalizepsbt fuel (JArr [JStr text])
    = Ok (OkResponse (JObj [("hex"%string, JStr (hex_encode tx)); ("complete"%string, JBool true)])).
Proof.
  destruct (process_signs sign_der key_order tx ptx fuel tx_ok tx_some parsed 0 SendSample.wallet sig1
    (2 :: SendSample.sk) SendSample.sk) as (text & H1 & _ & _ & _ & H5).
  - intros. repeat constructor; unfold is_byte; lia.
  - reflexivity.
  - reflexivity.
  - vm_compute. reflexivity.
  - repeat constructor; unfold is_byte; lia.
  - pose proof copies as H. inversion_clear H as [|? ? _ H']. by inversion_clear H'.
  - simpl. lia.
  - vm_compute. discriminate.
  - apply Nat.leb_le. vm_compute. reflexivity.
  - exists text. exact (conj H1 H5).
Defined.

(** The bitcoin crate on transactions without witnesses. *)
Definition wire_bitcoin : BitcoinCrate := {|
  deserialize := try_from_slice btc_tx_c;
  compute_txid := fun _ => "txid"%string;
  weight_of := fun _ => 400;
  instructions := fun _ => [];
  is_op_return_script := fun _ => false;
  address_from_script := fun _ _ => Some "bob.near"%string;
|}.

Lemma finalized_is_refused_witness :
  (exists t, deserialize (BitcoinCrate := wire_bitcoin) tx = Some t /\ length (btx_input t) = 1%nat) /\
  exists m, run_command (handle_sendrawtransaction (B := wire_bitcoin) SendSample.node ToyRpc.json_from_str
    (JArr [JStr (hex_encode tx)])) SendSample.s = (SendSample.s, ErrResponse (-22) m).
Proof.
  split; [eexists; split; vm_compute; reflexivity|].
  apply (finalized_is_refused (B := wire_bitcoin) SendSample.node ToyRpc.json_from_str hrp_guess ins outs 5 fuel sig1).
  - exact hex_bytes.
  - intros t t' Ht. cbn [deserialize wire_bitcoin]. rewrite (try_from_slice_enc _ _ _ btc_tx_rt Ht). by intros [= <-].
  - discriminate.
  - repeat constructor; [vm_compute; discriminate|vm_compute; discriminate|].
    exists (repeat 17 32). split; vm_compute; reflexivity.
  - repeat constructor; vm_compute; discriminate.
  - split; vm_compute; discriminate.
  - pose proof copies as H. inversion_clear H as [|? ? _ H']. by inversion_clear H'.
  - vm_compute. reflexivity.
Defined.

Lemma psbt_loops_witness : handle_finalizepsbt 1000 (JArr [JStr loop_text]) = Err Running.
Proof.
  destruct (psbt_loops sign_der key_order 0 SendSample.wallet eq_refl eq_refl) as [H _].
  exact (proj1 (proj2 (H 1000%nat))).
Defined.
End PsbtSample.
