(* ===== verification/Quantum.v ===== *)
(** * The registry of quantum keys (bitinfinity-btcrpc/src/main.rs)

    addquantumkey, removequantumkey and listquantumkeys keep a map from addresses to public
    keys, in memory and in a file.  A Base58 address is found whatever the case of its
    letters, for which the map holds its keys under several spellings.  The theorem says
    that the commands implement one list of at most three keys for each address. *)

From S2P Require Import Prelude Float64 Decimal Crates AccountId Bech32 Addresses Wallet RpcToy Translator NearClient.

(** A key is its algorithm and its public key in hex. *)
Notation QuantumKey := (string * string)%type.
Notation QuantumKeyMap := (gmap string (list QuantumKey)).

(** The specification's: keys for each identity of an address. *)
Notation Registry := (gmap (string + string) (list QuantumKey)).

Definition QUANTUM_KEY_TYPES : list string := ["dilithium3"; "falcon512"; "sphincsplus"]%string.

Definition quantum_casefold_address (address : string) : option string :=
  if starts_with "1" address || starts_with "3" address then Some (to_lowercase address) else None.

(** [merged] without the pairs that [seen] has; the two hold the same pairs. *)
Definition push_new (merged : list QuantumKey) (pair : QuantumKey) : list QuantumKey :=
  if bool_decide (pair ∈ merged) then merged else merged ++ [pair].

Definition has_ascii_uppercase (s : string) : bool := existsb (fun b => (65 <=? b) && (b <=? 90)) (as_bytes s).

(** What a command meets: the order in which the map gives its entries, and whether the
    file can be written. *)
Record QuantumEnv : Type := mkQuantumEnv {
  qe_order : QuantumKeyMap -> list (string * list QuantumKey);
  qe_write : Write;
}.

Section registry.
Variable order : QuantumKeyMap -> list (string * list QuantumKey).

Definition collect_quantum_keys_for_address (keys : QuantumKeyMap) (address : string) : list QuantumKey :=
  match quantum_casefold_address address with
  | Some casefold =>
      fold_left (fun merged '(entry_address, entry_keys) =>
        if bool_decide (quantum_casefold_address entry_address = Some casefold)
        then fold_left push_new entry_keys merged else merged) (order keys) []
  | None =>
      match keys !! address with
      | Some entry_keys => fold_left push_new entry_keys []
      | None => []
      end
  end.

Fixpoint insert_all (dedup : list string) (storage_addresses : list string) (entries : list QuantumKey)
    (keys : QuantumKeyMap) : QuantumKeyMap :=
  match storage_addresses with
  | [] => keys
  | a :: rest =>
      if bool_decide (a ∈ dedup) then insert_all dedup rest entries keys
      else insert_all (a :: dedup) rest entries (<[a := entries]> keys)
  end.

Definition related_addresses (keys : QuantumKeyMap) (casefold : string) : list string :=
  List.filter (fun existing => bool_decide (quantum_casefold_address existing = Some casefold)) (map fst (order keys)).

Definition sync_quantum_keys_for_address (keys : QuantumKeyMap) (address : string) (entries : list QuantumKey)
    : QuantumKeyMap :=
  match quantum_casefold_address address with
  | Some casefold =>
      let related := related_addresses keys casefold in
      let canonical_existing := List.find has_ascii_uppercase related in
      let keys := fold_left (fun keys existing => delete existing keys) related keys in
      match entries with
      | [] => keys
      | _ => insert_all [] [default address canonical_existing; casefold; address] entries keys
      end
  | None =>
      match entries with
      | [] => delete address keys
      | _ => <[address := entries]> keys
      end
  end.
End registry.

(* ------------------------------------------------------------------ *)
(** ** The commands *)

Record QuantumState : Type := mkQuantumState {
  qs_keys : QuantumKeyMap;
  qs_file : option (list Z);
}.

Section commands.
Context {C : Crates} {R : RpcCrates}.
(** [serde_json] on the map. *)
Variable registry_to_json : QuantumKeyMap -> string.
Variable registry_of_json : string -> option QuantumKeyMap.

Definition load_quantum_keys_from_disk (file : option (list Z)) : QuantumKeyMap :=
  match read_to_string file with
  | Some contents => default ∅ (registry_of_json contents)
  | None => ∅
  end.

(** [fs::write] truncates the file before it writes. *)
Definition save_quantum_keys_to_disk (io : Write) (file : option (list Z)) (keys : QuantumKeyMap) : option (list Z) :=
  match io with
  | DirFails => file
  | _ => (write_with_restricted_permissions io file (as_bytes (registry_to_json keys))).1
  end.

Definition usage : Response := ErrResponse (-32602) (lit "params: [address, keytype, pubkey_hex]").

(** The address must be a Bitcoin address. *)
Definition bitcoin_address (address : string) : string + Response :=
  match validate address with
  | Ok _ => match get_account_type address with
            | BtcImplicitAccount => inl address
            | _ => inr (ErrResponse (-5) (Msg "Invalid Bitcoin address: {}" [FS address]))
            end
  | _ => inr (ErrResponse (-5) (Msg "Invalid Bitcoin address: {}" [FS address]))
  end.

(** The parameters of addquantumkey and removequantumkey.  No character outside ASCII has one
    of the algorithms' letters as its lower case. *)
Definition key_params (params : Json) : string * string * string + Response :=
  match get_str_param params 0 with
  | None => inr usage
  | Some address =>
      match bitcoin_address address with
      | inr r => inr r
      | inl address =>
          match get_str_param params 1, get_str_param params 2 with
          | Some keytype, Some pubkey_hex =>
              let keytype := to_lowercase keytype in
              if negb (bool_decide (keytype ∈ QUANTUM_KEY_TYPES)) then
                inr (ErrResponse (-32602) (Msg "Invalid keytype '{}'. Supported: dilithium3, falcon512, sphincsplus" [FS keytype]))
              else match hex_decode pubkey_hex with
                   | None => inr (ErrResponse (-32602) (lit "pubkey_hex must be valid hex"))
                   | Some _ => inl (address, keytype, pubkey_hex)
                   end
          | _, _ => inr usage
          end
      end
  end.

Definition registered_json (address keytype pubkey_hex : string) : Json :=
  JObj [("address"%string, JStr address); ("keytype"%string, JStr keytype); ("pubkey_hex"%string, JStr pubkey_hex);
        ("registered"%string, JBool true); ("enforcement_active"%string, JBool false);
        ("note"%string, JStr "Quantum key registered. Enforcement activates via validator supermajority vote (see issue #2).")].
Definition removed_json (address keytype : string) : Json :=
  JObj [("address"%string, JStr address); ("keytype"%string, JStr keytype); ("removed"%string, JBool true)].
Definition listed_json (address : string) (keys : list QuantumKey) : Json :=
  JObj [("address"%string, JStr address);
        ("quantum_keys"%string, JArr (map (fun '(kt, pk) => JObj [("keytype"%string, JStr kt); ("pubkey_hex"%string, JStr pk)]) keys));
        ("enforcement_active"%string, JBool false);
        ("supported_keytypes"%string, JArr (map JStr QUANTUM_KEY_TYPES))].

Definition store (e : QuantumEnv) (s : QuantumState) (address : string) (entry : list QuantumKey) : QuantumState :=
  let keys := sync_quantum_keys_for_address (qe_order e) (qs_keys s) address entry in
  mkQuantumState keys (save_quantum_keys_to_disk (qe_write e) (qs_file s) keys).

Definition handle_addquantumkey (e : QuantumEnv) (params : Json) (s : QuantumState) : QuantumState * Response :=
  match key_params params with
  | inr r => (s, r)
  | inl (address, keytype, pubkey_hex) =>
      let entry := collect_quantum_keys_for_address (qe_order e) (qs_keys s) address in
      if (3 <=? length entry)%nat then (s, ErrResponse (-32602) (lit "Maximum 3 quantum keys per address"))
      else if existsb (fun '(kt, pk) => bool_decide (kt = keytype) && bool_decide (pk = pubkey_hex)) entry
      then (s, ErrResponse (-32602) (lit "This quantum key is already registered"))
      else (store e s address (entry ++ [(keytype, pubkey_hex)]), OkResponse (registered_json address keytype pubkey_hex))
  end.

Definition handle_removequantumkey (e : QuantumEnv) (params : Json) (s : QuantumState) : QuantumState * Response :=
  match key_params params with
  | inr r => (s, r)
  | inl (address, keytype, pubkey_hex) =>
      let before := collect_quantum_keys_for_address (qe_order e) (qs_keys s) address in
      let entry := List.filter (fun '(kt, pk) => negb (bool_decide (kt = keytype) && bool_decide (pk = pubkey_hex))) before in
      if (length entry <? length before)%nat
      then (store e s address entry, OkResponse (removed_json address keytype))
      else (s, ErrResponse (-32602) (lit "Quantum key not found for this address"))
  end.

Definition handle_listquantumkeys (e : QuantumEnv) (params : Json) (s : QuantumState) : QuantumState * Response :=
  match get_str_param params 0 with
  | None => (s, ErrResponse (-32602) (lit "params: [address]"))
  | Some address =>
      match bitcoin_address address with
      | inr r => (s, r)
      | inl address =>
          (s, OkResponse (listed_json address (collect_quantum_keys_for_address (qe_order e) (qs_keys s) address)))
      end
  end.

Inductive QuantumCommand : Type :=
| AddQuantumKey (params : Json)
| RemoveQuantumKey (params : Json)
| ListQuantumKeys (params : Json)
| RestartServer.

Definition quantum_step (e : QuantumEnv) (c : QuantumCommand) (s : QuantumState) : QuantumState * Response :=
  match c with
  | AddQuantumKey params => handle_addquantumkey e params s
  | RemoveQuantumKey params => handle_removequantumkey e params s
  | ListQuantumKeys params => handle_listquantumkeys e params s
  | RestartServer => (mkQuantumState (load_quantum_keys_from_disk (qs_file s)) (qs_file s), null)
  end.

Fixpoint quantum_run (s : QuantumState) (cs : list (QuantumEnv * QuantumCommand)) : QuantumState * list Response :=
  match cs with
  | [] => (s, [])
  | (e, c) :: cs =>
      let '(s, r) := quantum_step e c s in
      let '(s, rs) := quantum_run s cs in (s, r :: rs)
  end.

(* ------------------------------------------------------------------ *)
(** ** What the commands promise: a list of keys for each address *)

(** Base58 addresses are one whatever their case. *)
Definition identity (address : string) : string + string :=
  match quantum_casefold_address address with Some casefold => inl casefold | None => inr address end.

Definition keys_of (G : Registry) (address : string) : list QuantumKey := default [] (G !! identity address).
Definition set_keys (G : Registry) (address : string) (l : list QuantumKey) : Registry :=
  match l with [] => delete (identity address) G | _ => <[identity address := l]> G end.

Definition registry_step (c : QuantumCommand) (G : Registry) : Registry * Response :=
  match c with
  | AddQuantumKey params =>
      match key_params params with
      | inr r => (G, r)
      | inl (a, kt, pk) =>
          if (3 <=? length (keys_of G a))%nat then (G, ErrResponse (-32602) (lit "Maximum 3 quantum keys per address"))
          else if bool_decide ((kt, pk) ∈ keys_of G a)
          then (G, ErrResponse (-32602) (lit "This quantum key is already registered"))
          else (set_keys G a (keys_of G a ++ [(kt, pk)]), OkResponse (registered_json a kt pk))
      end
  | RemoveQuantumKey params =>
      match key_params params with
      | inr r => (G, r)
      | inl (a, kt, pk) =>
          if bool_decide ((kt, pk) ∈ keys_of G a)
          then (set_keys G a (filter (.≠ (kt, pk)) (keys_of G a)), OkResponse (removed_json a kt))
          else (G, ErrResponse (-32602) (lit "Quantum key not found for this address"))
      end
  | ListQuantumKeys params =>
      match get_str_param params 0 with
      | None => (G, ErrResponse (-32602) (lit "params: [address]"))
      | Some a => match bitcoin_address a with
                  | inr r => (G, r)
                  | inl a => (G, OkResponse (listed_json a (keys_of G a)))
                  end
      end
  | RestartServer => (G, null)
  end.

Fixpoint registry_run (G : Registry) (cs : list QuantumCommand) : Registry * list Response :=
  match cs with
  | [] => (G, [])
  | c :: cs => let '(G, r) := registry_step c G in let '(G, rs) := registry_run G cs in (G, r :: rs)
  end.
End commands.

(* ------------------------------------------------------------------ *)
(** ** Identities *)

Lemma casefold_lowercase a c : quantum_casefold_address a = Some c -> quantum_casefold_address c = Some c.
Proof.
  unfold quantum_casefold_address. destruct (_ || _) eqn:E; [|done]. intros [= <-].
  rewrite (starts_with_lowercase "1" 49), (starts_with_lowercase "3" 51) by done. by rewrite E, lowercase_idem.
Qed.

Lemma identity_eq a b c : quantum_casefold_address a = Some c ->
  identity b = identity a <-> quantum_casefold_address b = Some c.
Proof.
  intros Ha. unfold identity. rewrite Ha. destruct (quantum_casefold_address b) as [d|]; split; intros H; congruence.
Qed.
Lemma identity_plain a b : quantum_casefold_address a = None -> identity b = identity a <-> b = a.
Proof.
  intros Ha. unfold identity. rewrite Ha. split; [|intros ->; by rewrite Ha].
  destruct (quantum_casefold_address b) as [d|]; congruence.
Qed.

(* ------------------------------------------------------------------ *)
(** ** The map holds a registry *)

Definition list_ok (l : list QuantumKey) : Prop := NoDup l /\ (length l <= 3)%nat.

Record holds (m : QuantumKeyMap) (G : Registry) : Prop := mkHolds {
  holds_entry a l : m !! a = Some l -> G !! identity a = Some l;
  holds_keys i l : G !! i = Some l -> l <> [] /\ list_ok l /\ exists a, identity a = i /\ m !! a = Some l;
}.

Lemma push_new_all l acc : NoDup (acc ++ l) -> fold_left push_new l acc = acc ++ l.
Proof.
  revert acc. induction l as [|x l IH]; intros acc H; simpl; [by rewrite app_nil_r|]. unfold push_new at 2.
  rewrite bool_decide_false.
  - rewrite IH; rewrite <- app_assoc; done.
  - intros Hx. apply NoDup_app in H as (_ & H & _). by apply (H x Hx); left.
Qed.
Lemma push_new_none l acc : (forall x, x ∈ l -> x ∈ acc) -> fold_left push_new l acc = acc.
Proof.
  induction l as [|x l IH]; intros H; simpl; [done|]. unfold push_new at 2.
  rewrite bool_decide_true by (apply H; left). apply IH. intros y Hy. apply H. by right.
Qed.

Lemma delete_all_lookup (l : list string) (m : QuantumKeyMap) b :
  fold_left (fun m a => delete a m) l m !! b = if bool_decide (b ∈ l) then None else m !! b.
Proof.
  revert m. induction l as [|a l IH]; intros m; cbn [fold_left].
  - rewrite bool_decide_false; [done|]. by intros ?%elem_of_nil.
  - rewrite IH. destruct (decide (b = a)) as [->|Hb].
    + rewrite lookup_delete_eq, (bool_decide_true (a ∈ a :: l)) by left. by case_bool_decide.
    + rewrite lookup_delete_ne by done. erewrite bool_decide_ext; [done|]. rewrite elem_of_cons. naive_solver.
Qed.

Lemma insert_all_lookup dedup l es (m : QuantumKeyMap) b : (forall a, a ∈ dedup -> m !! a = Some es) ->
  insert_all dedup l es m !! b = if bool_decide (b ∈ l) then Some es else m !! b.
Proof.
  revert dedup m. induction l as [|a l IH]; intros dedup m Hd; cbn [insert_all].
  - rewrite bool_decide_false; [done|]. by intros ?%elem_of_nil.
  - assert (Hstep : forall m' : QuantumKeyMap, (forall x, m' !! x = if bool_decide (x = a) then Some es else m !! x) ->
      (if bool_decide (b ∈ l) then Some es else m' !! b) = if bool_decide (b ∈ a :: l) then Some es else m !! b).
    { intros m' Hm'. rewrite Hm'. repeat case_bool_decide; set_solver. }
    destruct (bool_decide_reflect (a ∈ dedup)) as [Ha|Ha].
    + rewrite IH by done. apply Hstep. intros x. destruct (bool_decide_reflect (x = a)) as [->|Hx]; [by apply Hd|done].
    + rewrite IH.
      * apply Hstep. intros x. destruct (bool_decide_reflect (x = a)) as [->|Hx]; [by rewrite lookup_insert_eq|by rewrite lookup_insert_ne].
      * intros x [->|Hx]%elem_of_cons; [by rewrite lookup_insert_eq|]. rewrite lookup_insert_ne by set_solver. by apply Hd.
Qed.

Section holds.
Variable order : QuantumKeyMap -> list (string * list QuantumKey).
Hypothesis order_ok : forall m, order m ≡ₚ map_to_list m.

Lemma in_order m a l : (a, l) ∈ order m <-> m !! a = Some l.
Proof using order_ok. rewrite order_ok. apply elem_of_map_to_list. Qed.

Definition merge_related (c : string) (merged : list QuantumKey) (entry : string * list QuantumKey) : list QuantumKey :=
  let '(a, ks) := entry in
  if bool_decide (quantum_casefold_address a = Some c) then fold_left push_new ks merged else merged.

Lemma merge_all_related c l es acc : NoDup l -> acc = [] \/ acc = l ->
  (forall a ks, (a, ks) ∈ es -> quantum_casefold_address a = Some c -> ks = l) ->
  acc = l \/ (exists a ks, (a, ks) ∈ es /\ quantum_casefold_address a = Some c) ->
  fold_left (merge_related c) es acc = l.
Proof using Type.
  intros Hl. revert acc. induction es as [|[a ks] es IH]; intros acc Hacc Hes Hex; cbn [fold_left merge_related].
  { destruct Hex as [?|(a & ks & H & _)]; [done|by apply elem_of_nil in H]. }
  case_bool_decide as Hc.
  - rewrite (Hes a ks) by (done || left). assert (fold_left push_new l acc = l) as ->.
    { destruct Hacc as [->| ->]; [by apply push_new_all|by apply push_new_none]. }
    apply IH; [by right| |by left]. intros a' ks' H. apply (Hes a'). by right.
  - apply IH; [done| |].
    + intros a' ks' H. apply (Hes a'). by right.
    + destruct Hex as [?|(a' & ks' & [H|H]%elem_of_cons & Hc')]; [by left|congruence|right; eauto].
Qed.

Lemma collect_holds m G a : holds m G -> collect_quantum_keys_for_address order m a = keys_of G a.
Proof using order_ok.
  intros [He Hk]. unfold collect_quantum_keys_for_address, keys_of.
  destruct (quantum_casefold_address a) as [c|] eqn:Ec.
  - change (fold_left (merge_related c) (order m) [] = default [] (G !! identity a)).
    destruct (G !! identity a) as [l|] eqn:EG; simpl.
    + destruct (Hk _ _ EG) as (_ & [Hn _] & b & Hb & Hm). apply merge_all_related; [done|by left| |right].
      * intros a' ks Hin%in_order Hc'. apply He in Hin. rewrite (proj2 (identity_eq a a' c Ec) Hc') in Hin. congruence.
      * exists b, l. split; [by apply in_order|by apply (identity_eq a b c Ec)].
    + apply (merge_all_related c []); [apply NoDup_nil_2|by left| |by left].
      intros a' ks Hin%in_order Hc'. apply He in Hin. rewrite (proj2 (identity_eq a a' c Ec) Hc') in Hin. congruence.
  - destruct (m !! a) as [l|] eqn:Em.
    + apply He in Em. rewrite Em. simpl. destruct (Hk _ _ Em) as (_ & [Hn _] & _). by apply push_new_all.
    + destruct (G !! identity a) as [l|] eqn:EG; [|done]. destruct (Hk _ _ EG) as (_ & _ & b & Hb & Hm).
      apply (identity_plain a b Ec) in Hb as ->. congruence.
Qed.

Lemma related_spec m c a : a ∈ related_addresses order m c <-> quantum_casefold_address a = Some c /\ is_Some (m !! a).
Proof using order_ok.
  unfold related_addresses. rewrite list_elem_of_In, filter_In, bool_decide_eq_true, in_map_iff. split.
  - intros [([a' l] & <- & Hin) Hc]. split; [done|]. exists l. by apply in_order, list_elem_of_In.
  - intros [Hc [l Hm]]. split; [|done]. exists (a, l). split; [done|]. by apply list_elem_of_In, in_order.
Qed.

(** After the update the identity has the new keys, under at least one address if there are
    any, and the other entries are as before. *)
Lemma sync_lookup m a es b :
  (identity b <> identity a -> sync_quantum_keys_for_address order m a es !! b = m !! b) /\
  (identity b = identity a -> forall l, sync_quantum_keys_for_address order m a es !! b = Some l -> l = es /\ es <> []) /\
  (es <> [] -> sync_quantum_keys_for_address order m a es !! a = Some es).
Proof using order_ok.
  unfold sync_quantum_keys_for_address. destruct (quantum_casefold_address a) as [c|] eqn:Ec.
  - rewrite (identity_eq a b c Ec). set (rel := related_addresses order m c).
    assert (Hb : b ∈ rel <-> quantum_casefold_address b = Some c /\ is_Some (m !! b)) by apply related_spec.
    set (as3 := [default a (List.find has_ascii_uppercase rel); c; a]).
    assert (Has : b ∈ as3 -> quantum_casefold_address b = Some c).
    { intros [->|[->|[->|[]%elem_of_nil]%elem_of_cons]%elem_of_cons]%elem_of_cons; [|by eapply casefold_lowercase|done].
      destruct (List.find _ _) as [x|] eqn:Ef; [|done]. simpl. apply find_some in Ef as [Hin _].
      by apply list_elem_of_In, related_spec in Hin as [? _]. }
    destruct es as [|e es].
    + rewrite delete_all_lookup. split_and!; [| |done]; intros H.
      * rewrite bool_decide_false by tauto. done.
      * intros l. case_bool_decide as Hr; [done|]. intros Hm. destruct Hr. apply Hb. split; [done|by eexists].
    + rewrite !insert_all_lookup by (by intros ? ?%elem_of_nil). rewrite !delete_all_lookup.
      split_and!; intros H; [rewrite !bool_decide_false by tauto; done| |].
      * intros l. case_bool_decide; [by intros [= <-]|]. case_bool_decide as Hr; [done|].
        intros Hm. destruct Hr. apply Hb. split; [done|by eexists].
      * rewrite bool_decide_true; [done|]. subst as3. set_solver.
  - rewrite (identity_plain a b Ec). destruct es as [|e es]; split_and!; try done; intros H.
    + by rewrite lookup_delete_ne.
    + subst b. by rewrite lookup_delete_eq.
    + by rewrite lookup_insert_ne.
    + subst b. rewrite lookup_insert_eq. by intros l [= <-].
    + by rewrite lookup_insert_eq.
Qed.

Lemma sync_holds m G a es : holds m G -> list_ok es ->
  holds (sync_quantum_keys_for_address order m a es) (set_keys G a es).
Proof using order_ok.
  intros [He Hk] Hes.
  assert (HG : forall i, i <> identity a -> set_keys G a es !! i = G !! i).
  { intros i Hi. unfold set_keys. destruct es; by simplify_map_eq. }
  assert (Hs : es <> [] -> set_keys G a es !! identity a = Some es).
  { unfold set_keys. destruct es; [done|]. intros _. apply lookup_insert_eq. }
  assert (Hd : es = [] -> set_keys G a es !! identity a = None).
  { intros ->. apply lookup_delete_eq. }
  split.
  - intros b l Hb. destruct (sync_lookup m a es b) as (H1 & H2 & _). destruct (decide (identity b = identity a)) as [Hi|Hi].
    + destruct (H2 Hi l Hb) as [-> Hn]. rewrite Hi. by apply Hs.
    + rewrite H1 in Hb by done. rewrite HG by done. by apply He.
  - intros i l. destruct (decide (i = identity a)) as [->|Hi].
    + destruct (decide (es = [])) as [Hn|Hn]; [by rewrite Hd|]. rewrite Hs by done. intros [= <-].
      split_and!; [done|done|]. exists a. split; [done|]. by apply (sync_lookup m a es a).
    + rewrite HG by done. intros HGi. destruct (Hk i l HGi) as (Hn & Hl & b & Hb & Hm). split_and!; [done|done|].
      exists b. split; [done|]. subst i. by rewrite (proj1 (sync_lookup m a es b)).
Qed.
End holds.

(* ------------------------------------------------------------------ *)
(** ** Refinement *)

Section refinement.
Context {C : Crates} {R : RpcCrates}.
Variable registry_to_json : QuantumKeyMap -> string.
Variable registry_of_json : string -> option QuantumKeyMap.
(** [serde_json] reads back the maps it writes, in UTF-8. *)
Hypothesis registry_json : forall m, registry_of_json (registry_to_json m) = Some m.
Hypothesis registry_str : forall m, is_str (registry_to_json m) = true.

Definition quantum_env_ok (e : QuantumEnv) : Prop :=
  (forall m, qe_order e m ≡ₚ map_to_list m) /\ qe_write e = Written.

Notation step := (quantum_step registry_to_json registry_of_json).
Notation load := (load_quantum_keys_from_disk registry_of_json).

(** The map in memory holds the registry, and so does the file, if there is anything to hold. *)
Definition implements (s : QuantumState) (G : Registry) : Prop :=
  holds (qs_keys s) G /\ load (qs_file s) = qs_keys s.

Lemma keys_of_ok m G a : holds m G -> list_ok (keys_of G a).
Proof using Type.
  intros H. unfold keys_of. destruct (G !! _) as [l|] eqn:E; [exact (proj1 (proj2 (holds_keys _ _ H _ _ E)))|]. split; [apply NoDup_nil_2|simpl; lia].
Qed.

Lemma store_implements e s G a es : quantum_env_ok e -> implements s G -> list_ok es ->
  implements (store registry_to_json e s a es) (set_keys G a es).
Proof using registry_json registry_str.
  intros [Ho Hw] [Hh _] Hes. split; [by apply sync_holds|].
  unfold store, save_quantum_keys_to_disk, load_quantum_keys_from_disk. cbn [qs_file qs_keys]. rewrite Hw. cbn [write_with_restricted_permissions fst read_to_string].
  unfold read_to_string. fold (is_str (registry_to_json (sync_quantum_keys_for_address (qe_order e) (qs_keys s) a es))).
  rewrite registry_str, of_bytes_as_bytes, registry_json. done.
Qed.

Lemma pair_in (kt pk : string) l :
  existsb (fun '(kt', pk') => bool_decide (kt' = kt) && bool_decide (pk' = pk)) l = bool_decide ((kt, pk) ∈ l).
Proof using Type.
  apply eq_bool_prop_intro. rewrite !Is_true_true, bool_decide_eq_true, existsb_exists. split.
  - intros ([kt' pk'] & Hin & [->%bool_decide_eq_true ->%bool_decide_eq_true]%andb_true_iff). by apply list_elem_of_In.
  - intros Hin. exists (kt, pk). split; [by apply list_elem_of_In|]. by rewrite !bool_decide_true.
Qed.

Lemma retain_filter (kt pk : string) l :
  List.filter (fun '(kt', pk') => negb (bool_decide (kt' = kt) && bool_decide (pk' = pk))) l = filter (.≠ (kt, pk)) l.
Proof using Type.
  induction l as [|[kt' pk'] l IH]; [done|]. rewrite filter_cons. cbn [List.filter]. rewrite IH.
  destruct (bool_decide_reflect (kt' = kt)), (bool_decide_reflect (pk' = pk)); simpl; case_decide; naive_solver.
Qed.

Lemma retain_shorter (k : QuantumKey) l : (length (filter (.≠ k) l) <? length l)%nat = bool_decide (k ∈ l).
Proof using Type.
  destruct (bool_decide_reflect (k ∈ l)) as [H|H].
  - apply Nat.ltb_lt. induction l as [|x l IH]; [by apply elem_of_nil in H|]. rewrite filter_cons. case_decide as Hx; simpl.
    + apply elem_of_cons in H as [->|H]; [done|]. specialize (IH H). lia.
    + pose proof (length_filter (.≠ k) l). lia.
  - apply Nat.ltb_ge. induction l as [|x l IH]; [done|]. apply not_elem_of_cons in H as [Hx H]. rewrite filter_cons_True by congruence.
    simpl. specialize (IH H). lia.
Qed.

Lemma filter_ok (k : QuantumKey) l : list_ok l -> list_ok (filter (.≠ k) l).
Proof using Type. intros [Hn Hl]. split; [by apply NoDup_filter|]. pose proof (length_filter (.≠ k) l). lia. Qed.

Lemma step_implements e c s G : quantum_env_ok e -> implements s G ->
  implements (step e c s).1 (registry_step c G).1 /\ (step e c s).2 = (registry_step c G).2.
Proof using registry_json registry_str.
  intros He Hi. pose proof Hi as [Hh Hf]. destruct c as [params|params|params|]; cbn [quantum_step registry_step].
  - unfold handle_addquantumkey. destruct (key_params params) as [[[a kt] pk]|r]; [|done].
    rewrite (collect_holds _ (proj1 He) _ _ _ Hh), pair_in. destruct (_ <=? _)%nat eqn:El; [done|]. case_bool_decide as Hin; [done|].
    split; [|done]. apply store_implements; [done|done|]. destruct (keys_of_ok _ _ a Hh) as [Hn Hl]. apply Nat.leb_gt in El.
    split; [|rewrite length_app; simpl; lia]. apply NoDup_app. split_and!; [done|set_solver|apply NoDup_singleton].
  - unfold handle_removequantumkey. destruct (key_params params) as [[[a kt] pk]|r]; [|done].
    rewrite (collect_holds _ (proj1 He) _ _ _ Hh), retain_filter, retain_shorter. case_bool_decide as Hin; [|done].
    split; [|done]. apply store_implements; [done|done|]. by eapply filter_ok, keys_of_ok.
  - unfold handle_listquantumkeys. destruct (get_str_param params 0) as [a|]; [|done].
    destruct (bitcoin_address a) as [a'|r]; [|done]. by rewrite (collect_holds _ (proj1 He) _ _ _ Hh).
  - split; [|done]. split; cbn [fst qs_keys qs_file]; by rewrite Hf.
Qed.

(** C26. The registry of quantum keys keeps one list of keys for each address.  For any
    sequence of commands and restarts from an empty registry, in which the file can be
    written, and whatever the order in which the map gives its entries: every answer is that
    of the specification, in which an address has at most three distinct keys, Base58
    addresses that differ in case share them, and adding and removing change only the keys
    of the address; and the file holds what the memory holds. *)
Theorem quantum_registry_refines cs :
  Forall (fun '(e, _) => quantum_env_ok e) cs ->
  let '(s, answers) := quantum_run registry_to_json registry_of_json (mkQuantumState ∅ None) cs in
  let '(G, expected) := registry_run ∅ (map snd cs) in
  answers = expected /\ load (qs_file s) = qs_keys s /\
  forall a order, (forall m, order m ≡ₚ map_to_list m) ->
    collect_quantum_keys_for_address order (qs_keys s) a = keys_of G a /\ NoDup (keys_of G a) /\ (length (keys_of G a) <= 3)%nat.
Proof using registry_json registry_str.
  intros Hcs. assert (H0 : implements (mkQuantumState ∅ None) ∅) by (split; [split; intros ? ?; by rewrite lookup_empty|done]).
  revert H0. generalize (mkQuantumState ∅ None), (∅ : Registry). induction Hcs as [|[e c] cs He _ IH]; intros s G Hi; cbn [quantum_run registry_run map snd].
  - split; [done|]. split; [apply Hi|]. intros a order Ho. split; [apply collect_holds; [done|apply Hi]|]. eapply keys_of_ok, Hi.
  - destruct (step_implements e c s G He Hi) as [Hi' Hr].
    destruct (quantum_step _ _ e c s) as [s1 r1], (registry_step c G) as [G1 r1']. cbn [fst snd] in *. subst r1'.
    specialize (IH _ _ Hi'). destruct (quantum_run _ _ s1 cs) as [s2 rs], (registry_run G1 _) as [G2 rs'].
    destruct IH as [-> IH]. done.
Qed.
End refinement.

Module QuantumSample.
(** The sample's crates, with Base58 for which every text is one address. *)
Definition payload : list Z := repeat 0 21.
#[local] Instance crates : Crates := {|
  sha256 := @sha256 Toy.crates;
  ripemd160 := @ripemd160 Toy.crates;
  keccak256 := @keccak256 Toy.crates;
  bs58_encode := @bs58_encode Toy.crates;
  bs58_decode := fun _ => Some (payload ++ take 4 (@sha256 Toy.crates (@sha256 Toy.crates payload)));
  segwit_decode := @segwit_decode Toy.crates;
  recover_ecdsa := @recover_ecdsa Toy.crates;
  verify_ecdsa := @verify_ecdsa Toy.crates;
  verify_ed25519 := @verify_ed25519 Toy.crates;
  ed25519_torsion_free := @ed25519_torsion_free Toy.crates;
|}.
#[local] Existing Instance ToyRpc.crates.

Definition to_json : QuantumKeyMap -> string := ToyRpc.tagged 75.
Definition of_json : string -> option QuantumKeyMap := ToyRpc.untagged 75.
Definition env : QuantumEnv := mkQuantumEnv map_to_list Written.

Definition address : string := "1A1zP1eP5QGefi2DMPTfTL5SLmv7DivfNa".
Definition key_json (a kt pk : string) : Json := JArr [JStr a; JStr kt; JStr pk].
Definition commands : list QuantumCommand :=
  [AddQuantumKey (key_json address "Falcon512" "00ff"); AddQuantumKey (key_json address "dilithium3" "aa");
   RestartServer; RemoveQuantumKey (key_json (to_lowercase address) "falcon512" "00ff");
   AddQuantumKey (key_json address "dilithium3" "aa"); ListQuantumKeys (JArr [JStr address])].

Lemma quantum_registry_refines_witness :
  (quantum_run to_json of_json (mkQuantumState ∅ None) (map (pair env) commands)).2
  = [OkResponse (registered_json address "falcon512" "00ff"); OkResponse (registered_json address "dilithium3" "aa");
     null; OkResponse (removed_json (to_lowercase address) "falcon512");
     ErrResponse (-32602) (lit "This quantum key is already registered");
     OkResponse (listed_json address [("dilithium3"%string, "aa"%string)])].
Proof.
  assert (H : Forall (fun '(e, _) => quantum_env_ok e) (map (pair env) commands)).
  { apply Forall_map, Forall_forall. intros c _. split; [done|reflexivity]. }
  apply (quantum_registry_refines to_json of_json) in H.
  - destruct (quantum_run _ _ _ _) as [s answers].
    assert (E : (registry_run ∅ (map snd (map (pair env) commands))).2 = (registry_run ∅ commands).2) by reflexivity.
    destruct (registry_run ∅ (map snd _)) as [G expected]. cbn [snd] in E |- *. destruct H as [-> _]. rewrite E. vm_compute. reflexivity.
  - intros m. by apply ToyRpc.untagged_tagged.
  - intros m. by apply ToyRpc.tagged_str.
Defined.
End QuantumSample.
