(* ===== verification/Messages.v ===== *)
(** * Signed messages (bitinfinity-btcrpc/src/main.rs)

    signmessage, signmessagewithprivkey and verifymessage: recoverable signatures over the
    double hash of a message, in base64.  The theorem says that what the wallet signs for one
    of its addresses verifies for that address. *)

From S2P Require Import Prelude Float64 Decimal Crates AccountId Bech32 Addresses Borsh Wallet WalletProofs Translator NearClient TxBuilder SendProofs Psbt.

Section messages.
Context {C : Crates} {R : RpcCrates}.
(** [secp256k1::PublicKey::serialize] of a key given with its leading byte 4. *)
Variable pk_serialize : list Z -> list Z.

Definition MESSAGE_PREFIX : list Z := 0x18 :: as_bytes "Bitcoin Signed Message:" ++ [10].
Definition message_hash (message : string) : list Z :=
  sha256 (sha256 (MESSAGE_PREFIX ++ encode_bitcoin_varint (str_len message) ++ as_bytes message)).

(** The header of a signature for a compressed key, and the signature. *)
Definition signature_text (msg_hash secret_key : list Z) : string :=
  let '(rec_id, sig_data) := secp_sign secret_key msg_hash in
  b64_std_encode ((27 + rec_id + 4) mod 256 :: sig_data).

Definition handle_signmessage (now : Z) (params : Json) (w : WalletState) : Response :=
  if negb (ws_loaded w) then not_loaded
  else if negb (is_wallet_unlocked w now) then locked_wallet
  else match get_str_param params 0, get_str_param params 1 with
  | None, _ => ErrResponse (-32602) (lit "Missing address parameter")
  | _, None => ErrResponse (-32602) (lit "Missing message parameter")
  | Some addr, Some message =>
      match ks_get (ws_keystore w) addr with
      | None => ErrResponse (-3) (Msg "Address not found in wallet: {}" [FS addr])
      | Some key_entry =>
          match private_key_bytes key_entry with
          | Err e => ErrResponse (-32000) (wrap "Key error: " e)
          | Panic => Panicked
          | Ok sk_bytes =>
              if negb (secp_valid sk_bytes) then ErrResponse (-32000) (lit "Key error: {}")
              else OkResponse (JStr (signature_text (message_hash message) sk_bytes))
          end
      end
  end.

(** The length of the message as this command writes it. *)
Definition privkey_varint (len : Z) : list Z := if len <? 253 then [len] else 0xfd :: le_enc 2 (len mod 2 ^ 16).

Definition handle_signmessagewithprivkey (params : Json) : Response :=
  match get_str_param params 0, get_str_param params 1 with
  | None, _ => ErrResponse (-32602) (lit "Missing private key parameter")
  | _, None => ErrResponse (-32602) (lit "Missing message parameter")
  | Some privkey_wif, Some message =>
      match bs58_decode privkey_wif with
      | None => ErrResponse (-5) (lit "Invalid private key WIF encoding")
      | Some decoded =>
          if negb ((length decoded =? 38)%nat || (length decoded =? 37)%nat)
          then ErrResponse (-5) (lit "Invalid private key length")
          else
            let key_bytes := take 32 (drop 1 decoded) in
            let preimage := MESSAGE_PREFIX ++ privkey_varint (str_len message) ++ as_bytes message in
            if negb (secp_valid key_bytes) then ErrResponse (-5) (lit "Invalid private key")
            else OkResponse (JStr (signature_text (sha256 (sha256 preimage)) key_bytes))
      end
  end.

(** [RecoveryId::from_i32]: 0 to 3. *)
Definition recovery_id (header : Z) : option Z :=
  let raw := if 31 <=? header then Some (header - 31) else if 27 <=? header then Some (header - 27) else None in
  raw ≫= fun r => if r <=? 3 then Some r else None.

Definition hrps (addr bech32_hrp : string) : list string :=
  if starts_with "bc1" addr then ["bc"%string]
  else if starts_with "tb1" addr then ["tb"%string]
  else if starts_with "bcrt1" addr then ["bcrt"%string]
  else [bech32_hrp; "bc"%string; "tb"%string].
Definition version_bytes (addr : string) : list Z :=
  if starts_with "1" addr then [0x00]
  else if starts_with "m" addr || starts_with "n" addr then [0x6F]
  else [0x00; 0x6F].

Definition verify_bitcoin_message_signature (addr signature_b64 message bech32_hrp : string) : bool :=
  match b64_std_decode signature_b64 with
  | Some (header :: sig_data) =>
      if negb (length sig_data =? 64)%nat then false
      else match recovery_id header with
      | None => false
      | Some rec_id =>
          let compressed := 31 <=? header in
          match recover_ecdsa (sig_data ++ [rec_id]) (message_hash message) with
          | None => false
          | Some recovered_pubkey =>
              let pubkey_bytes := if compressed then pk_serialize recovered_pubkey else recovered_pubkey in
              let pubkey_hash := hash160 pubkey_bytes in
              existsb (fun vb =>
                let p2pkh_addr := base58check (vb :: pubkey_hash) in
                bool_decide (p2pkh_addr = addr) || bool_decide (to_lowercase p2pkh_addr = addr)) (version_bytes addr)
              || (compressed
                  && existsb (fun hrp => bool_decide (rpc_bech32_encode hrp 0 pubkey_hash = addr)) (hrps addr bech32_hrp))
          end
      end
  | _ => false
  end.

Definition handle_verifymessage (params : Json) (w : WalletState) : Response :=
  match get_str_param params 0, get_str_param params 1, get_str_param params 2 with
  | None, _, _ => ErrResponse (-32602) (lit "Missing address parameter")
  | _, None, _ => ErrResponse (-32602) (lit "Missing signature parameter")
  | _, _, None => ErrResponse (-32602) (lit "Missing message parameter")
  | Some addr, Some signature_b64, Some message =>
      OkResponse (JBool (verify_bitcoin_message_signature addr signature_b64 message (bech32_hrp (ws_chain_id w))))
  end.
End messages.

(* ------------------------------------------------------------------ *)
(** ** What is signed verifies *)

Section verified.
Context {C : Crates} {R : RpcCrates} {L : RpcLaws C R} {HL : HashLaws C} {SL : SignLaws C R}.
Variable pk_serialize : list Z -> list Z.
(** The two encodings are of one key; a leading zero byte is the Base58 digit 1, and the number
    of a test network's address has another first digit. *)
Hypothesis serialize_public : forall sk, secp_valid sk = true -> pk_serialize (secp_uncompressed sk) = secp_compressed sk.
Hypothesis bs58_zero : forall h, starts_with "1" (base58check (0x00 :: h)) = true.
Hypothesis bs58_testnet : forall h, starts_with "1" (base58check (0x6F :: h)) = false.
#[local] Set Default Proof Using "All".

Notation verify := (verify_bitcoin_message_signature pk_serialize).

(** Reading a signature made with a valid key. *)
Lemma verify_signed sk addr message hrp : secp_valid sk = true ->
  let h := hash160 (secp_compressed sk) in
  verify addr (signature_text (message_hash message) sk) message hrp
  = existsb (fun vb => bool_decide (base58check (vb :: h) = addr) || bool_decide (to_lowercase (base58check (vb :: h)) = addr))
      (version_bytes addr)
    || existsb (fun hrp => bool_decide (rpc_bech32_encode hrp 0 h = addr)) (hrps addr hrp).
Proof.
  intros Hv. cbv zeta. unfold verify_bitcoin_message_signature, signature_text.
  pose proof (secp_signs sk Hv (message_hash message)) as Hs. destruct (secp_public sk Hv) as (pk & Epk & _).
  destruct (secp_sign sk (message_hash message)) as [rec_id sig]. destruct Hs as (Hr & Hlen & Hsb & _ & Hrec).
  rewrite b64_std_round.
  2:{ constructor; [|done]. unfold is_byte. pose proof (Z.mod_pos_bound (27 + rec_id + 4) 256). lia. }
  rewrite Z.mod_small, Hlen by lia. cbn [Nat.eqb negb]. unfold recovery_id.
  destruct (Z.leb_spec 31 (27 + rec_id + 4)); [|lia]. cbn [mbind option_bind].
  replace (27 + rec_id + 4 - 31) with rec_id by lia. destruct (Z.leb_spec rec_id 3); [|lia].
  assert (E : 4 :: drop 1 (secp_uncompressed sk) = secp_uncompressed sk) by (by rewrite Epk).
  rewrite Hrec, E, serialize_public by done. done.
Qed.

Lemma version_found v h a : v = 0x00 \/ v = 0x6F ->
  a = base58check (v :: h) \/ a = to_lowercase (base58check (v :: h)) -> v ∈ version_bytes a.
Proof.
  intros Hv Ha. assert (E : starts_with "1" a = starts_with "1" (base58check (v :: h))).
  { destruct Ha as [->| ->]; [done|by apply (starts_with_lowercase "1" 49)]. }
  unfold version_bytes. rewrite E. destruct Hv as [->| ->]; [rewrite bs58_zero|rewrite bs58_testnet]; [set_solver|].
  destruct (_ || _); set_solver.
Qed.

Lemma hrp_found chain_id h : bytes_ok h ->
  let hrp := bech32_hrp chain_id in hrp ∈ hrps (rpc_bech32_encode hrp 0 h) hrp.
Proof.
  intros Hh. cbv zeta. set (hrp := bech32_hrp chain_id).
  assert (Hc : hrp = "bc"%string \/ hrp = "bcrt"%string \/ hrp = "tb"%string) by (unfold hrp, bech32_hrp; repeat case_match; auto).
  assert (Hs : exists rest, as_bytes (rpc_bech32_encode hrp 0 h) = as_bytes hrp ++ 49 :: rest).
  { unfold rpc_bech32_encode. rewrite segwit_encode_version by (done || unfold digit; lia). by eexists. }
  destruct Hs as [rest Hs]. unfold hrps, starts_with. rewrite Hs. clearbody hrp. destruct Hc as [->|[->| ->]]; cbn; left.
Qed.

Lemma own_verifies chain_id sk a message : secp_valid sk = true -> a ∈ own_addresses chain_id sk ->
  verify a (signature_text (message_hash message) sk) message (bech32_hrp chain_id) = true.
Proof.
  intros Hv Ha. rewrite verify_signed by done. set (h := hash160 (secp_compressed sk)).
  assert (Hb : forall v, v = 0x00 \/ v = 0x6F -> a = base58check (v :: h) \/ a = to_lowercase (base58check (v :: h)) ->
    existsb (fun vb => bool_decide (base58check (vb :: h) = a) || bool_decide (to_lowercase (base58check (vb :: h)) = a)) (version_bytes a) = true).
  { intros v Hv' Ha'. apply existsb_exists. exists v. split; [by eapply list_elem_of_In, version_found|].
    apply orb_true_iff. rewrite !bool_decide_eq_true. naive_solver. }
  unfold own_addresses in Ha. fold h in Ha. cbv zeta in Ha. apply orb_true_iff.
  apply elem_of_cons in Ha as [->|Ha].
  - right. apply existsb_exists. exists (bech32_hrp chain_id). split; [|by apply bool_decide_true].
    apply list_elem_of_In, hrp_found. apply ripemd160_ok.
  - left. set (v := if bool_decide _ then 0x00 else 0x6F) in Ha.
    assert (Hv2 : v = 0x00 \/ v = 0x6F) by (unfold v; case_bool_decide; auto).
    repeat (apply elem_of_cons in Ha as [->|Ha]); [..|by apply elem_of_nil in Ha];
      first [apply (Hb 0x00); [by left|auto; fail]|apply (Hb v); auto].
Qed.

Lemma varints_agree len : 0 <= len < 2 ^ 16 -> privkey_varint len = encode_bitcoin_varint len.
Proof.
  intros Hl. unfold privkey_varint, encode_bitcoin_varint. destruct (Z.ltb_spec len 253); [done|].
  destruct (Z.leb_spec len 65535); [|lia]. by rewrite Z.mod_small.
Qed.

(** Longer messages are not signed as they are verified. *)
Lemma long_message_differs message : 2 ^ 16 <= str_len message ->
  MESSAGE_PREFIX ++ privkey_varint (str_len message) ++ as_bytes message
  <> MESSAGE_PREFIX ++ encode_bitcoin_varint (str_len message) ++ as_bytes message.
Proof.
  intros Hl H%app_inv_head. unfold privkey_varint, encode_bitcoin_varint in H.
  rewrite !(proj2 (Z.ltb_ge _ _)), (proj2 (Z.leb_gt _ 65535)) in H by lia. by destruct (_ <=? _).
Qed.

Lemma privkey_signs sk (testnet : bool) hex message : (forall b, bytes_ok b -> bs58_decode (bs58_encode b) = Some b) ->
  secp_valid sk = true -> hex_decode hex = Some sk -> str_len message < 2 ^ 16 ->
  handle_signmessagewithprivkey (JArr [JStr (privkey_hex_to_wif hex testnet); JStr message])
  = OkResponse (JStr (signature_text (message_hash message) sk)).
Proof.
  intros Hbs Hv Hh Hm. destruct (secp_valid_len sk Hv) as [Hl Hb]. unfold privkey_hex_to_wif. rewrite Hh.
  set (v := if testnet then 0xEF else 0x80). set (sum := take 4 _).
  assert (Hsl : length sum = 4%nat) by (unfold sum; rewrite length_take, sha256_len; done).
  unfold handle_signmessagewithprivkey. cbn [get_str_param param as_array mbind option_bind lookup list_lookup as_str].
  rewrite Hbs.
  2:{ apply Forall_app. split; [|apply Forall_take, sha256_ok]. apply Forall_app. split.
      - apply Forall_singleton. unfold is_byte, v. destruct testnet; lia.
      - apply Forall_app. split; [done|]. apply Forall_singleton. unfold is_byte. lia. }
  rewrite !length_app, Hl, Hsl. cbn [length Nat.add Nat.eqb orb negb]. rewrite <- !app_assoc. cbn [app drop].
  rewrite drop_0, take_app_length', Hv by done. cbn [negb].
  rewrite varints_agree; [done|]. unfold str_len in *. lia.
Qed.

(** C28. What the wallet signs verifies.  After any sequence of wallet commands and restarts
    from a fresh installation in which the writes of the file succeed and no backup is made
    onto the wallet file, if the wallet is loaded and unlocked: for every address of
    the keystore and every message, signmessage answers a signature, which verifymessage
    accepts for that address and message; and for a message of less than 65536 bytes,
    signmessagewithprivkey with the key that dumpprivkey shows answers the same. *)
Theorem signed_message_verifies chain_id start evs now a message :
  (forall b, bytes_ok b -> bs58_decode (bs58_encode b) = Some b) ->
  Forall event_ok evs ->
  let w := (run (fresh chain_id start) evs).1 in
  ws_loaded w = true -> is_wallet_unlocked w now = true -> is_Some (ks_get (ws_keystore w) a) ->
  exists text, handle_signmessage now (JArr [JStr a; JStr message]) w = OkResponse (JStr text) /\
    handle_verifymessage pk_serialize (JArr [JStr a; JStr text; JStr message]) w = OkResponse (JBool true) /\
    (str_len message < 2 ^ 16 -> forall e, env_now e = now ->
     exists wif, handle_dumpprivkey e (Some a) w = (w, OkResponse (JStr wif)) /\
       handle_signmessagewithprivkey (JArr [JStr wif; JStr message]) = OkResponse (JStr text)).
Proof.
  intros Hbs Hev w Hld Hul [en Hen]. pose proof (run_inv _ _ Hev (fresh_inv chain_id start)) as Hinv. subst w.
  destruct (run _ _) as [w v]. cbn [fst] in *. destruct Hinv as (ks & _ & _ & Hk & _).
  destruct (Hk a en Hen) as (sk & Hsk & Hv & _ & Ha). destruct (secp_valid_len sk Hv) as [Hl Hb].
  exists (signature_text (message_hash message) sk). split_and!.
  - unfold handle_signmessage. rewrite Hld, Hul. cbn [negb get_str_param param as_array mbind option_bind lookup list_lookup as_str].
    rewrite Hen. unfold private_key_bytes. rewrite Hsk. cbn [ok_or rbind]. rewrite Hl. cbn [Nat.eqb negb]. by rewrite Hv.
  - unfold handle_verifymessage. cbn [get_str_param param as_array mbind option_bind lookup list_lookup as_str].
    by rewrite own_verifies.
  - intros Hm e He. exists (privkey_hex_to_wif (private_key_hex en) (is_testnet (ws_chain_id w))). split.
    + unfold handle_dumpprivkey. by rewrite Hld, He, Hul, Hen.
    + by apply privkey_signs.
Qed.
End verified.
