(* ===== verification/PatoshiUnlock.v ===== *)
(** * Unlocking Patoshi coins (bitinfinity-btcrpc/src/main.rs, runtime/src/state_viewer/mod.rs)

    patoshiunlock takes a signature of a challenge, reads the lock of the account from the node's
    state and sends the transaction that schedules the unlock.  The server reads the record with a
    decoder of its own and repeats the constants of the runtime; the theorem follows the command
    from the signature to the record in the state. *)

From S2P Require Import Prelude Float64 Decimal Crates AccountId Bech32 Addresses Primitives Errors Borsh Wire State BitcoinTx Wallet WalletProofs Translator NearClient TxBuilder RpcToy SendRaw SendProofs SignSend Psbt PsbtBytes PsbtLoop Messages RuntimeTypes Transactions.

(* ------------------------------------------------------------------ *)
(** ** The view of the state (node) *)

Inductive ViewStateError : Type :=
| AccountStateTooLarge (requested_account_id : AccountId)
| ViewAccountDoesNotExist (requested_account_id : AccountId).

(** The order of the trie: byte by byte, a prefix first. *)
Fixpoint key_le (k l : list Z) : bool :=
  match k, l with
  | [], _ => true
  | _, [] => false
  | x :: k, y :: l => (x <? y) || ((x =? y) && key_le k l)
  end.
Fixpoint insert_item (i : list Z * list Z) (l : list (list Z * list Z)) : list (list Z * list Z) :=
  match l with
  | [] => [i]
  | j :: l => if key_le i.1 j.1 then i :: j :: l else j :: insert_item i l
  end.

(** The items under a prefix; the proof is left out. *)
Definition view_state (state_size_limit : option Z) (s : State) (account_id : AccountId) (prefix : list Z)
    : result (list (list Z * list Z)) ViewStateError :=
  match get_account s account_id with
  | None => Err (ViewAccountDoesNotExist account_id)
  | Some account =>
      let code_len := default 0 (get_code_len s account_id) in
      if match state_size_limit with
         | Some limit => limit <? saturating_sub (storage_usage account) code_len
         | None => false
         end
      then Err (AccountStateTooLarge account_id)
      else Ok (fold_right insert_item []
                 (omap (fun '((id, key), value) =>
                          if bool_decide (id = account_id /\ prefix `prefix_of` key) then Some (key, value) else None)
                       (map_to_list (st_contract_data s))))
  end.

(* ------------------------------------------------------------------ *)
(** ** The command (server) *)

Definition PATOSHI_UNLOCK_RECEIVER : string := "near".

Record PatoshiLockState : Type := mkPatoshiLockState {
  pl_is_locked : bool;
  pl_unlock_epoch : option Z;
}.

Definition parse_patoshi_record_bytes (bytes : list Z) : result PatoshiLockState message :=
  if (length bytes <? 18)%nat then
    Err (Msg "invalid Patoshi record length {}; expected at least 18 bytes" [FZ (vec_len bytes)])
  else
    let b16 := nth 16 bytes 0 in
    let? is_locked := if b16 =? 0 then Ok false else if b16 =? 1 then Ok true
                      else Err (Msg "invalid is_locked discriminator byte: {}" [FZ b16]) in
    let b17 := nth 17 bytes 0 in
    let? unlock_epoch :=
      if b17 =? 0 then Ok None
      else if b17 =? 1 then
        if (length bytes <? 26)%nat
        then Err (Msg "invalid Patoshi record length {} for unlock_epoch=Some" [FZ (vec_len bytes)])
        else Ok (Some (from_le_bytes (take 8 (drop 18 bytes))))
      else Err (Msg "invalid unlock_epoch option tag byte: {}" [FZ b17]) in
    Ok (mkPatoshiLockState is_locked unlock_epoch).

Fixpoint find_record (key_b64 : string) (values : list Json) : result (option PatoshiLockState) message :=
  match values with
  | [] => Ok None
  | entry :: values =>
      match get_str entry "key" with
      | None => find_record key_b64 values
      | Some entry_key =>
          if negb (bool_decide (entry_key = key_b64)) then find_record key_b64 values
          else match get_str entry "value" with
          | None => find_record key_b64 values
          | Some value_b64 =>
              match base64_decode value_b64 with
              | Ok bytes => let? l := parse_patoshi_record_bytes bytes in Ok (Some l)
              | Err e => Err (wrap "failed to decode Patoshi record value: " e)
              | Panic => Panic
              end
          end
      end
  end.

Section command.
Context {C : Crates} {R : RpcCrates}.
Variable call : nat -> string -> Json -> result Json message.
Variable pk_serialize : list Z -> list Z.

Definition view_state_request (account_id prefix_base64 : string) : Json :=
  JObj [("request_type"%string, JStr "view_state"); ("finality"%string, JStr "final");
        ("account_id"%string, JStr account_id); ("prefix_base64"%string, JStr prefix_base64)].
Definition block_by_height (i : nat) (height : Z) : result Json message :=
  call i "block" (JObj [("block_id"%string, JNum height)]).

Definition fetch_patoshi_lock_state (address : string) : M (result (option PatoshiLockState) message) :=
  let key_b64 := base64_encode PATOSHI_RECORD_DATA_KEY in
  let! state_view := request (fun i => call i "query" (view_state_request address key_b64)) in
  ret (let? state_view := state_view in
       match get state_view "values" ≫= as_array with
       | None => Ok None
       | Some values => find_record key_b64 values
       end).

Definition get_sender_key (addr : string) : M (KeyEntry * list Z * string) :=
  let! keystore := gets (fun s => ws_keystore (ss_wallet s)) in
  let! key_entry := some_or_answer (ks_get keystore addr) (ErrResponse (-3) (Msg "Address not in wallet: {}" [FS addr])) in
  let! sk_bytes := ok_or_answer (private_key_bytes key_entry) (-32000) "Key error: " in
  let! _ := some_or_answer (if secp_valid sk_bytes then Some tt else None) (ErrResponse (-32000) (lit "Key error: {}")) in
  let! near_pubkey_str := ok_or_answer (near_public_key_string key_entry) (-32000) "Key error: " in
  ret (key_entry, sk_bytes, near_pubkey_str).

Definition get_block_and_nonce (addr near_pubkey_str : string) : M (list Z * Z) :=
  let! status := request (fun i => status call i) in
  let! status := ok_or_answer status (-32000) "Node error: " in
  let! block_hash := ok_or_answer (decode_block_hash (st_latest_block_hash status)) (-32000) "Block hash error: " in
  let! nonce := next_nonce call addr near_pubkey_str in
  ret (block_hash, normalize_nonce_for_first_bitcoin_tx nonce (st_latest_block_height status)).

Definition unlock_json (address challenge_message near_tx_hash : string) : Json :=
  JObj [("address"%string, JStr address); ("challenge_message"%string, JStr challenge_message);
        ("signature_valid"%string, JBool true); ("near_tx_hash"%string, JStr near_tx_hash);
        ("unlock_trigger_receiver"%string, JStr PATOSHI_UNLOCK_RECEIVER);
        ("unlock_trigger_action"%string, JStr "transfer"); ("unlock_trigger_amount_yoctobit"%string, JStr "0");
        ("timelock_epochs"%string, JNum 14); ("timelock_days_approx"%string, JNum 7);
        ("status"%string, JStr "unlock_tx_submitted")].

Definition challenge (genesis_block_hash : string) : string := "bitcoin-infinity-unlock:" +:+ genesis_block_hash.

Definition handle_patoshiunlock (params : Json) : M Response :=
  let! address := some_or_answer (get_str_param params 0) (ErrResponse (-32602) (lit "params: [address, signature_base64]")) in
  let! signature_b64 := some_or_answer (get_str_param params 1) (ErrResponse (-32602) (lit "params: [address, signature_base64]")) in
  let! sig_bytes := some_or_answer (b64_std_decode signature_b64) (ErrResponse (-5) (lit "signature_base64 must be valid base64")) in
  let! _ := if (length sig_bytes =? 65)%nat then ret tt
            else answer (ErrResponse (-5) (Msg "Invalid signature length: expected 65 bytes, got {}" [FZ (vec_len sig_bytes)])) in
  let! block := request (fun i => block_by_height i 0) in
  let! block := ok_or_answer block (-32000) "Failed to query genesis block hash: " in
  let! genesis_block_hash := some_or_answer (get block "header" ≫= fun h => get_str h "hash")
    (ErrResponse (-32000) (lit "Failed to extract genesis block hash from node response")) in
  let challenge_message := challenge genesis_block_hash in
  let! chain_id := gets (fun s => ws_chain_id (ss_wallet s)) in
  let! _ := if verify_bitcoin_message_signature pk_serialize address signature_b64 challenge_message (bech32_hrp chain_id)
            then ret tt
            else answer (ErrResponse (-5) (lit "Signature does not match address/challenge message")) in
  let! lock_state := fetch_patoshi_lock_state address in
  let! lock_state := ok_or_answer lock_state (-32000) "Failed to read Patoshi lock state: " in
  let! lock_state := some_or_answer lock_state
    (ErrResponse (-5) (Msg "Address {} is not a Patoshi-registered account" [FS address])) in
  let! _ := if pl_is_locked lock_state then ret tt
            else answer (ErrResponse (-5) (Msg "Patoshi account {} is already unlocked" [FS address])) in
  let! _ := match pl_unlock_epoch lock_state with
            | None => ret tt
            | Some unlock_epoch =>
                answer (ErrResponse (-5) (Msg "Patoshi unlock already scheduled for {} at epoch {}" [FS address; FZ unlock_epoch]))
            end in
  let! (key_entry, secret_key, near_pubkey_str) := get_sender_key address in
  let! (block_hash, nonce) := get_block_and_nonce address near_pubkey_str in
  let! pk_uncompressed := ok_or_answer (public_key_uncompressed_bytes key_entry) (-32000) "Key error: " in
  let builder := add_action (builder_new address pk_uncompressed nonce PATOSHI_UNLOCK_RECEIVER block_hash) (NearAction.transfer 0) in
  let! signed_tx := ok_or_answer (sign_and_encode b64_std_encode secp_sign builder secret_key) (-32000) "Sign failed: " in
  let! r := send_text call signed_tx in
  let! near_tx_hash := ok_or_answer r (-25) "Unlock TX submit failed: " in
  let! _ := record_nonce address nonce in
  ret (OkResponse (unlock_json address challenge_message near_tx_hash)).
End command.

(* ------------------------------------------------------------------ *)
(** ** The server reads the runtime's records *)

Lemma le_dec_split n b v rest : le_dec n b = Some (v, rest) ->
  exists a, b = a ++ rest /\ length a = n /\ v = from_le_bytes a.
Proof.
  revert b v. induction n as [|n IH]; intros b v; cbn [le_dec]; [intros [= <- <-]; by exists []|].
  destruct b as [|x b]; [done|]. destruct (le_dec n b) as [[v' r]|] eqn:E; [|done]. intros [= <- <-].
  destruct (IH _ _ E) as (a & -> & Hl & ->). exists (x :: a). simpl. by rewrite Hl.
Qed.

(** The decoder of the server agrees with the derived one of the runtime. *)
Lemma parse_agrees data record : try_from_slice patoshi_record_c data = Some record ->
  parse_patoshi_record_bytes data = Ok (mkPatoshiLockState (is_locked record) (unlock_epoch record)).
Proof.
  unfold try_from_slice, patoshi_record_c, u128_c, u64_c, uint_c, bool_c, option_c. cbn [dec map_c pair_c].
  destruct (le_dec 16 data) as [[g d1]|] eqn:E1; [|done]. apply le_dec_split in E1 as (a & -> & Ha & _).
  destruct d1 as [|l d2]; [done|].
  assert (H16 : forall r, nth 16 (a ++ r) 0 = nth 0 r 0) by (intros r; by rewrite app_nth2, Ha by lia).
  assert (H17 : forall r, nth 17 (a ++ r) 0 = nth 1 r 0) by (intros r; by rewrite app_nth2, Ha by lia).
  assert (Hdrop : forall x y r, drop 18 (a ++ x :: y :: r) = r) by (intros x y r; by rewrite drop_app_ge, Ha by lia).
  unfold parse_patoshi_record_bytes. rewrite H16, H17, length_app, Ha. cbn [nth length].
  destruct (Z.eqb_spec l 0) as [->|Hl0]; [|destruct (Z.eqb_spec l 1) as [->|Hl1]; [|done]];
  (destruct d2 as [|t d3]; [done|]; cbn [nth length]; destruct (Z.eqb_spec t 0) as [->|Ht0];
   [destruct d3; [|done]; intros [= <-]; reflexivity|];
   destruct (Z.eqb_spec t 1) as [->|Ht1]; [|done];
   destruct (le_dec 8 d3) as [[e d4]|] eqn:E2; [|done]; destruct d4; [|done]; intros [= <-];
   apply le_dec_split in E2 as (x & -> & Hx & ->); rewrite app_nil_r, Hdrop, Hx, take_ge by lia; reflexivity).
Qed.

Section found.
Context {C : Crates} {R : RpcCrates}.
Hypothesis b64_standard : forall b, bytes_ok b -> b64_std_encode b = base64_encode b.

(** Items as the node prints them. *)
Definition item_json (item : list Z * list Z) : Json :=
  JObj [("key"%string, JStr (b64_std_encode item.1)); ("value"%string, JStr (b64_std_encode item.2))].

Definition item_ok (item : list Z * list Z) : Prop := bytes_ok item.1 /\ bytes_ok item.2.

Lemma base64_inj a b : bytes_ok a -> bytes_ok b -> base64_encode a = base64_encode b -> a = b.
Proof using Type.
  intros Ha Hb H. pose proof (base64_decode_encode a Ha) as E. rewrite H, base64_decode_encode in E by done. by injection E.
Qed.

Lemma find_record_items key data record items : bytes_ok key -> Forall item_ok items ->
  (key, data) ∈ items -> (forall d, (key, d) ∈ items -> d = data) -> try_from_slice patoshi_record_c data = Some record ->
  find_record (base64_encode key) (map item_json items)
    = Ok (Some (mkPatoshiLockState (is_locked record) (unlock_epoch record))).
Proof using b64_standard.
  intros Hk Hi Hin Hu Hd. induction Hi as [|[k d] items [Hk' Hd'] _ IH]; [by apply elem_of_nil in Hin|].
  cbn [map find_record item_json fst snd]. cbn [fst snd] in Hk', Hd'.
  change (get_str _ "key") with (Some (b64_std_encode k)). cbv iota beta. rewrite (b64_standard k) by done.
  destruct (decide (k = key)) as [->|Hne].
  - rewrite bool_decide_true by done. cbn [negb]. change (get_str _ "value") with (Some (b64_std_encode d)). cbv iota beta.
    assert (d = data) as -> by (apply Hu; left). by rewrite (b64_standard data), base64_decode_encode, (parse_agrees _ _ Hd) by done.
  - rewrite bool_decide_false by (intros E; by apply Hne, base64_inj). cbn [negb]. apply IH.
    + apply elem_of_cons in Hin as [[= -> ->]|?]; [done|done].
    + intros d' Hd2. apply Hu. by right.
Qed.

Lemma elem_of_sorted (l : list (list Z * list Z)) i : i ∈ fold_right insert_item [] l <-> i ∈ l.
Proof using Type.
  induction l as [|j l IH]; cbn [fold_right]; [done|].
  assert (Hins : forall m, i ∈ insert_item j m <-> i = j \/ i ∈ m).
  { intros m. induction m as [|x m IHm]; cbn [insert_item]; [by rewrite elem_of_cons|].
    destruct (key_le _ _); rewrite !elem_of_cons, ?IHm, ?elem_of_cons; tauto. }
  rewrite Hins, IH, elem_of_cons. done.
Qed.

(** What the view holds. *)
Lemma view_items limit s a prefix items key value : view_state limit s a prefix = Ok items ->
  (key, value) ∈ items <-> prefix `prefix_of` key /\ st_contract_data s !! (a, key) = Some value.
Proof using Type.
  unfold view_state. destruct (get_account s a); [|done]. destruct (match limit with Some _ => _ | None => _ end); [done|].
  intros [= <-]. rewrite elem_of_sorted, list_elem_of_omap. split.
  - intros ([[id k] v] & Hin%elem_of_map_to_list & H). case_bool_decide as Hb; [|done]. destruct Hb as [-> Hp]. by injection H as -> ->.
  - intros [Hp Hm]. exists ((a, key), value). split; [by apply elem_of_map_to_list|]. by rewrite bool_decide_true.
Qed.

(** The record is found in the view of the state. *)
Lemma record_viewed limit s a items record :
  (forall k v, st_contract_data s !! (a, k) = Some v -> bytes_ok k /\ bytes_ok v) ->
  view_state limit s a PATOSHI_RECORD_DATA_KEY = Ok items -> get_patoshi_record s a = Ok (Some record) ->
  find_record (base64_encode PATOSHI_RECORD_DATA_KEY) (map item_json items)
    = Ok (Some (mkPatoshiLockState (is_locked record) (unlock_epoch record))).
Proof using b64_standard.
  intros Hb Hv Hr. unfold get_patoshi_record, get_data in Hr.
  destruct (st_contract_data s !! (a, PATOSHI_RECORD_DATA_KEY)) as [data|] eqn:Ed; [|done].
  destruct (try_from_slice patoshi_record_c data) as [r|] eqn:Et; [|done]. injection Hr as ->.
  apply (find_record_items _ data); [apply as_bytes_ok| | | |done].
  - apply Forall_forall. intros [k v] Hin. apply (view_items _ _ _ _ _ _ _ Hv) in Hin as [_ Hm]. by apply Hb in Hm.
  - by apply (view_items _ _ _ _ _ _ _ Hv).
  - intros d Hin. apply (view_items _ _ _ _ _ _ _ Hv) in Hin as [_ Hm]. congruence.
Qed.
End found.

(* ------------------------------------------------------------------ *)
(** ** The runtime schedules the unlock *)

Lemma foundation_wf {C : Crates} : id_wf PATOSHI_UNLOCK_RECEIVER.
Proof.
  split; [split; vm_compute; done|]. unfold validate. change (str_len PATOSHI_UNLOCK_RECEIVER) with 4. cbn [Z.ltb Z.compare Pos.compare Pos.compare_cont].
  destruct (is_bitcoin_implicit _); reflexivity.
Qed.

Lemma guard_schedules ap ts stx account r record a pk hash nonce total :
  stx_transaction stx = transfer_tx a pk hash nonce PATOSHI_UNLOCK_RECEIVER 0 ->
  get_patoshi_record (ts_state ts) a = Ok (Some record) -> record_ok record ->
  is_locked record = true -> unlock_epoch record = None -> is_u u64_max (epoch_height ap) ->
  checked_add u128_max (vr_new_account_amount r) (locked account) = Some total ->
  (genesis_balance record <= total -> exists ts', patoshi_guard ap ts stx account r = Ok (inl ts') /\
     get_patoshi_record (ts_state ts') a = Ok (Some (scheduled_record record (epoch_height ap)))) /\
  (total < genesis_balance record ->
     patoshi_guard ap ts stx account r
     = Ok (inr (patoshi_validation_error "patoshi_below_genesis_floor" (current_protocol_version ap)))).
Proof.
  intros Htx Hr [Hg _] Hl Hu He Ht. unfold patoshi_guard. rewrite Htx.
  change (signer_id (transfer_tx a pk hash nonce PATOSHI_UNLOCK_RECEIVER 0)) with a.
  change (receiver_id (transfer_tx a pk hash nonce PATOSHI_UNLOCK_RECEIVER 0)) with FOUNDATION_ACCOUNT_ID.
  change (actions (transfer_tx a pk hash nonce PATOSHI_UNLOCK_RECEIVER 0)) with [Plain (Transfer 0)].
  rewrite Hr, Ht. cbn [ok_or map_err rbind].
  assert (Hlock : is_patoshi_locked record (epoch_height ap) = true) by (unfold is_patoshi_locked; by rewrite Hl, Hu).
  unfold validate_locked_patoshi_transaction. rewrite Hlock. cbn [negb check_locked_actions].
  rewrite bool_decide_true by done. cbn [negb rbind]. split; intros Hc.
  - rewrite (proj2 (Z.ltb_ge _ _)) by lia. unfold maybe_schedule_patoshi_unlock. rewrite Hlock, Hu. cbn [negb orb].
    change (is_patoshi_unlock_trigger FOUNDATION_ACCOUNT_ID [Plain (Transfer 0)]) with true. cbn [negb].
    eexists. split; [reflexivity|]. apply get_set_patoshi_record. split; [done|]. cbn [unlock_epoch]. intros e [= <-].
    unfold is_u, saturating_add, u64_max, PATOSHI_UNLOCK_DELAY_EPOCHS in *. lia.
  - by rewrite (proj2 (Z.ltb_lt _ _)).
Qed.

(* ------------------------------------------------------------------ *)
(** ** From the signature to the record *)

Section unlock.
Context {C : Crates} {R : RpcCrates} {B : BitcoinCrate} {L : RpcLaws C R} {HL : HashLaws C} {SL : SignLaws C R}.
Variable call : nat -> string -> Json -> result Json message.
Variable pk_serialize : list Z -> list Z.
(** The two encodings are of one key; the first Base58 digit tells the networks apart; base64 is the standard one. *)
Hypothesis serialize_public : forall sk, secp_valid sk = true -> pk_serialize (secp_uncompressed sk) = secp_compressed sk.
Hypothesis bs58_zero : forall h, starts_with "1" (base58check (0x00 :: h)) = true.
Hypothesis bs58_testnet : forall h, starts_with "1" (base58check (0x6F :: h)) = false.
Hypothesis b64_standard : forall b, bytes_ok b -> b64_std_encode b = base64_encode b.

(** The node answers with its genesis block and with the view of a state. *)
Definition node_shows (genesis : string) (limit : option Z) (st : State) (a : string) : Prop :=
  (forall i, exists j, block_by_height call i 0 = Ok j /\ (get j "header" ≫= fun h => get_str h "hash") = Some genesis) /\
  (forall k v, st_contract_data st !! (a, k) = Some v -> bytes_ok k /\ bytes_ok v) /\
  exists items, view_state limit st a PATOSHI_RECORD_DATA_KEY = Ok items /\
    forall i, exists j, call i "query" (view_state_request a (base64_encode PATOSHI_RECORD_DATA_KEY)) = Ok j /\
      get j "values" = Some (JArr (map item_json items)).
#[local] Set Default Proof Using "All".

Lemma signature_len h sk : secp_valid sk = true ->
  exists bytes, b64_std_decode (signature_text h sk) = Some bytes /\ length bytes = 65%nat.
Proof.
  intros Hv. unfold signature_text. pose proof (secp_signs sk Hv h) as Hs. destruct (secp_sign sk h) as [rec_id sig].
  destruct Hs as (Hr & Hlen & Hsb & _). eexists. split; [apply b64_std_round|simpl; by rewrite Hlen].
  constructor; [|done]. unfold is_byte. pose proof (Z.mod_pos_bound (27 + rec_id + 4) 256). lia.
Qed.

Lemma nonce_spec a k s : node_up call -> exists hash n i,
  get_block_and_nonce call a k s
    = (mkSendState (ss_wallet s) (ss_nonce_cache s) (ss_tx_cache s) i (ss_sent s), inl (hash, n)) /\
  length hash = 32%nat /\ bytes_ok hash /\ is_u u64_max n.
Proof.
  intros Hup. destruct (Hup (ss_requests s)) as (st & hash & Est & Eh). unfold get_block_and_nonce, bind at 1, request at 1. cbn [fst snd].
  rewrite Est. cbn [ok_or_answer]. unfold bind at 1, ret at 1. rewrite Eh. cbn [ok_or_answer]. unfold bind at 1, ret at 1.
  unfold bind. destruct (next_nonce_spec call (fun _ => None) a k (tick s)) as (n & s' & En & [i Hs'] & Hn & _). rewrite En.
  destruct (decode_block_hash_ok call (fun _ => None) _ _ Eh) as [Hbl Hbb].
  exists hash, (normalize_nonce_for_first_bitcoin_tx n (st_latest_block_height st)), i. rewrite Hs'. split; [done|]. split_and!; [done..|].
  destruct (status_height call (fun _ => None) _ _ Est) as [Hh0 _]. destruct (floor_u64 call (fun _ => None) _ Hh0) as [[_ F1] F2].
  unfold normalize_nonce_for_first_bitcoin_tx, is_u in *. lia.
Qed.

Lemma bind_inl {A D : Type} (m : M A) (k : A -> M D) s s' x : m s = (s', inl x) -> bind m k s = k x s'.
Proof. intros H. unfold bind. by rewrite H. Qed.

Definition at_request (s : SendState) (i : nat) : SendState :=
  mkSendState (ss_wallet s) (ss_nonce_cache s) (ss_tx_cache s) i (ss_sent s).

Lemma fetch_spec genesis limit st a record s : node_shows genesis limit st a -> get_patoshi_record st a = Ok (Some record) ->
  fetch_patoshi_lock_state call a s = (tick s, inl (Ok (Some (mkPatoshiLockState (is_locked record) (unlock_epoch record))))).
Proof.
  intros (_ & Hb & items & Hv & Hq) Hr. destruct (Hq (ss_requests s)) as (j & Ej & Eg).
  unfold fetch_patoshi_lock_state, bind, request, ret. rewrite Ej. cbn [rbind]. rewrite Eg. cbn [mbind option_bind as_array].
  by rewrite (record_viewed b64_standard limit st a items record).
Qed.

Lemma sender_key_spec a h sk s : ks_get (ws_keystore (ss_wallet s)) a = Some (entry_of h sk) -> hex_decode h = Some sk ->
  secp_valid sk = true -> exists t, get_sender_key a s = (s, inl (entry_of h sk, sk, t)).
Proof.
  intros Hk Hh Hv. destruct (entry_keys call (fun _ => None) h sk Hh Hv) as [H1 H2].
  unfold get_sender_key, bind, gets, some_or_answer, ok_or_answer, near_public_key_string, ret. rewrite Hk, H1, Hv, H2.
  by eexists.
Qed.

(** The command, up to the answer. *)
Lemma unlock_spec genesis limit st a h sk record s :
  node_shows genesis limit st a -> node_up call -> node_accepts call ->
  ks_get (ws_keystore (ss_wallet s)) a = Some (entry_of h sk) -> hex_decode h = Some sk -> secp_valid sk = true ->
  a ∈ own_addresses (ws_chain_id (ss_wallet s)) sk -> id_wf a ->
  get_patoshi_record st a = Ok (Some record) -> is_locked record = true -> unlock_epoch record = None ->
  exists text hash nonce near_tx_hash i,
    run_command (handle_patoshiunlock call pk_serialize
      (JArr [JStr a; JStr (signature_text (message_hash (challenge genesis)) sk)])) s
    = (mkSendState (ss_wallet s) (<[a := nonce]> (ss_nonce_cache s)) (ss_tx_cache s) i (ss_sent s ++ [(text, true)]),
       OkResponse (unlock_json a (challenge genesis) near_tx_hash)) /\
    node_reads text (transfer_tx a (drop 1 (secp_uncompressed sk)) hash nonce PATOSHI_UNLOCK_RECEIVER 0).
Proof.
  intros Hn Hup Hacc Hk Hh Hv Ha Hwf Hr Hl Hu. set (sig := signature_text _ sk).
  destruct (signature_len (message_hash (challenge genesis)) sk Hv) as (bytes & Hd & Hlen). fold sig in Hd.
  destruct (proj1 Hn (ss_requests s)) as (blk & Eb & Eg).
  assert (Hverify : verify_bitcoin_message_signature pk_serialize a sig (challenge genesis) (bech32_hrp (ws_chain_id (ss_wallet s))) = true)
    by (by apply own_verifies).
  destruct (sender_key_spec a h sk (tick (tick s)) Hk Hh Hv) as [t Hsk].
  destruct (nonce_spec a t (tick (tick s)) Hup) as (hash & nonce & i & Hnn & Hhl & Hhb & Hnu).
  destruct (entry_keys call (fun _ => None) h sk Hh Hv) as [_ Hpub].
  set (g := mkSigner sk (drop 1 (secp_uncompressed sk)) hash nonce).
  destruct (transfer_text_read call (fun _ => None) a g sk nonce PATOSHI_UNLOCK_RECEIVER 0) as (text & Et & Hread);
    [by split|done|exact foundation_wf|done|unfold is_u, u64_max; lia|].
  destruct (Hacc i text) as [nh Enh].
  exists text, hash, nonce, nh, (S i). split; [|exact Hread]. unfold run_command, handle_patoshiunlock.
  erewrite bind_inl by reflexivity. erewrite bind_inl by reflexivity. erewrite bind_inl by (rewrite Hd; reflexivity).
  erewrite bind_inl by (rewrite Hlen; reflexivity). erewrite bind_inl by (unfold request; rewrite Eb; reflexivity).
  erewrite bind_inl by reflexivity. erewrite bind_inl by (rewrite Eg; reflexivity). erewrite bind_inl by reflexivity. cbv zeta.
  erewrite bind_inl by (cbn [ss_wallet tick]; rewrite Hverify; reflexivity).
  erewrite bind_inl by (by eapply fetch_spec). erewrite bind_inl by reflexivity. erewrite bind_inl by reflexivity.
  cbn [pl_is_locked pl_unlock_epoch]. rewrite Hl, Hu. erewrite bind_inl by reflexivity. erewrite bind_inl by reflexivity.
  erewrite bind_inl by exact Hsk. cbv iota beta. erewrite bind_inl by exact Hnn. cbv iota beta.
  erewrite bind_inl by (rewrite Hpub; reflexivity). erewrite bind_inl.
  2:{ change (sign_and_encode _ _ _ sk) with (transfer_text a g nonce PATOSHI_UNLOCK_RECEIVER 0). rewrite Et. reflexivity. }
  erewrite bind_inl.
  2:{ unfold send_text, bind, request, modify, ret. cbn [ss_requests fst snd]. rewrite Enh. reflexivity. }
  reflexivity.
Qed.

(** C6. The unlock of Patoshi coins works from the wallet to the state.  In a loaded and unlocked
    wallet with the key of a locked account, and a node that is up, takes transactions and shows
    the state: patoshiunlock with the signature that signmessage gives for the challenge answers
    that the transaction was submitted; exactly one text was handed over, which the node reads
    as the account's transaction to the foundation with a valid signature; and when the
    runtime charges it, the unlock is scheduled fourteen epochs ahead if the balance after the
    fee is at least the genesis balance, and rejected if it is less; in particular it is
    rejected for an account that has nothing but its genesis balance, whatever the fee. *)
Theorem unlock_reaches_lock genesis limit st a en record now s sig :
  let w := ss_wallet s in
  node_shows genesis limit st a -> node_up call -> node_accepts call ->
  ks_get (ws_keystore w) a = Some en -> entry_ok (ws_chain_id w) a en -> id_wf a ->
  get_patoshi_record st a = Ok (Some record) -> record_ok record -> is_locked record = true -> unlock_epoch record = None ->
  handle_signmessage now (JArr [JStr a; JStr (challenge genesis)]) w = OkResponse (JStr sig) ->
  exists text pk hash nonce near_tx_hash s',
    run_command (handle_patoshiunlock call pk_serialize (JArr [JStr a; JStr sig])) s
      = (s', OkResponse (unlock_json a (challenge genesis) near_tx_hash)) /\
    ss_sent s' = ss_sent s ++ [(text, true)] /\ ss_nonce_cache s' = <[a := nonce]> (ss_nonce_cache s) /\
    let tx := transfer_tx a pk hash nonce FOUNDATION_ACCOUNT_ID 0 in
    node_reads text tx /\
    forall ap ts stx account r total, stx_transaction stx = tx -> get_patoshi_record (ts_state ts) a = Ok (Some record) ->
      is_u u64_max (epoch_height ap) -> checked_add u128_max (vr_new_account_amount r) (locked account) = Some total ->
      (genesis_balance record <= total -> exists ts', patoshi_guard ap ts stx account r = Ok (inl ts') /\
         get_patoshi_record (ts_state ts') a = Ok (Some (scheduled_record record (epoch_height ap)))) /\
      (total < genesis_balance record -> patoshi_guard ap ts stx account r
         = Ok (inr (patoshi_validation_error "patoshi_below_genesis_floor" (current_protocol_version ap)))) /\
      (Primitives.amount account + locked account = genesis_balance record ->
       vr_new_account_amount r < Primitives.amount account -> patoshi_guard ap ts stx account r
         = Ok (inr (patoshi_validation_error "patoshi_below_genesis_floor" (current_protocol_version ap)))).
Proof.
  intros w Hn Hup Hacc Hk (sk & Hsk & Hv & Hen & Ha) Hwf Hr Hrok Hl Hu Hsig.
  assert (sig = signature_text (message_hash (challenge genesis)) sk) as ->.
  { unfold handle_signmessage in Hsig. destruct (negb _); [done|]. destruct (negb _); [done|].
    cbn [get_str_param param as_array mbind option_bind lookup list_lookup as_str] in Hsig. rewrite Hk in Hsig.
    unfold private_key_bytes in Hsig. rewrite Hsk in Hsig. cbn [ok_or rbind] in Hsig.
    rewrite (proj1 (secp_valid_len sk Hv)) in Hsig. cbn [Nat.eqb negb] in Hsig. rewrite Hv in Hsig. by injection Hsig. }
  rewrite Hen in Hk.
  destruct (unlock_spec genesis limit st a _ sk record s Hn Hup Hacc Hk Hsk Hv Ha Hwf Hr Hl Hu) as (text & hash & nonce & nh & i & Hrun & Hread).
  exists text, (drop 1 (secp_uncompressed sk)), hash, nonce, nh. eexists. split; [exact Hrun|]. split; [done|]. split; [done|].
  split; [exact Hread|]. intros ap ts stx account r total Htx Hr' He Ht.
  destruct (guard_schedules ap ts stx account r record a _ _ _ total Htx Hr' Hrok Hl Hu He Ht) as [G1 G2].
  split_and!; [exact G1|exact G2|]. intros Hbal Hfee. apply G2. apply checked_add_Some in Ht as [-> _]. lia.
Qed.
End unlock.

Module UnlockSample.
#[local] Existing Instance SendSample.crates.
#[local] Existing Instance SendSample.hash_laws.
#[local] Existing Instance SendSample.bitcoin.
#[local] Existing Instance PsbtSample.rpc.
#[local] Existing Instance PsbtSample.laws.

Lemma base64_loop_bytes l : forall buf bits b, base64_loop l buf bits = Ok b -> bytes_ok b.
Proof.
  induction l as [|c l IH]; intros buf bits b; cbn [base64_loop]; [intros [= <-]; constructor|].
  destruct (base64_value c) as [v|]; [|done]. cbv zeta. destruct (8 <=? bits + 6); [|by apply IH].
  destruct (base64_loop l _ _) as [out|e|] eqn:E; try done. cbn [rbind]. intros [= <-]. apply Forall_cons. split; [|by eapply IH].
  set (x := Z.shiftr _ _). assert (E2 : Z.land x 255 = x mod 256) by (apply (Z.land_ones x 8); lia). rewrite E2.
  unfold is_byte. pose proof (Z.mod_pos_bound x 256). lia.
Qed.

Lemma unlock_sign_laws : SignLaws SendSample.crates PsbtSample.rpc.
Proof.
  destruct SendSample.sign_laws as [H1 H2 _ H4 _]. split; [exact H1|exact H2| |exact H4|].
  - intros b Hb. change (match base64_decode (base64_encode b) with Ok b => Some b | _ => None end = Some b).
    by rewrite base64_decode_encode.
  - intros s b. change (match base64_decode s with Ok b => Some b | _ => None end = Some b -> bytes_ok b).
    destruct (base64_decode s) as [x|e|] eqn:E; try done. intros [= <-]. by eapply base64_loop_bytes.
Qed.
#[local] Existing Instance unlock_sign_laws.

Definition pk_serialize (u : list Z) : list Z := 2 :: take 32 (drop 1 u).
Lemma serialize_public sk : secp_valid sk = true -> pk_serialize (secp_uncompressed sk) = secp_compressed sk.
Proof.
  intros Hv. destruct (secp_valid_len sk Hv) as [Hl _]. unfold pk_serialize. cbn. f_equal. rewrite drop_0. by apply take_app_length'.
Qed.
Lemma bs58_zero h : starts_with "1" (base58check (0x00 :: h)) = true.
Proof. reflexivity. Qed.
Lemma bs58_testnet h : starts_with "1" (base58check (0x6F :: h)) = false.
Proof. reflexivity. Qed.

Lemma bs58_round b : bytes_ok b -> bs58_decode (bs58_encode b) = Some b.
Proof.
  intros Hb. change (match Toy.decode_pairs (as_bytes (Toy.encode b)) with
    | Some b => if forallb (fun x => (0 <=? x) && (x <? 256)) b then Some b else None | None => None end = Some b).
  rewrite toy_bs58_round by done. assert (E : forallb (fun x => (0 <=? x) && (x <? 256)) b = true); [|by rewrite E].
  apply forallb_forall. intros x Hx. apply list_elem_of_In in Hx. rewrite Forall_forall in Hb. specialize (Hb x Hx). unfold is_byte in Hb. lia.
Qed.

(** A new address in a fresh wallet. *)
Definition e : Env := mkEnv 1 Written (repeat 3 32) (repeat 5 12) SendSample.sk.
Definition evs : list Event := [Call e (GetNewAddress None)].
Lemma evs_ok : Forall event_ok evs.
Proof.
  apply Forall_singleton. split; [|done]. split_and!; [..|done|vm_compute; reflexivity];
    (apply Forall_forall; intros x Hx%list_elem_of_In%repeat_spec; subst x; unfold is_byte; lia).
Qed.

Lemma signed_message_verifies_witness : exists text,
  handle_verifymessage pk_serialize (JArr [JStr SendSample.sender; JStr text; JStr "hello"]) (run (fresh "mainnet" 0) evs).1
    = OkResponse (JBool true).
Proof.
  destruct (signed_message_verifies pk_serialize serialize_public bs58_zero bs58_testnet "mainnet" 0 evs 1 SendSample.sender "hello")
    as (text & _ & H & _).
  - exact bs58_round.
  - exact evs_ok.
  - reflexivity.
  - reflexivity.
  - exists SendSample.en. reflexivity.
  - exists text. exact H.
Defined.

(** The account locked with 100, and a node that shows it. *)
Definition record : PatoshiRecord := mkPatoshiRecord 100 true None.
Definition st : State :=
  set_patoshi_record (set_account empty_state SendSample.sender (account_new 150 0 ContractNone 200)) SendSample.sender record.
Definition items : list (list Z * list Z) := [(PATOSHI_RECORD_DATA_KEY, enc patoshi_record_c record)].
Definition node (i : nat) (method : string) (params : Json) : result Json message :=
  if bool_decide (method = "block"%string) then Ok (JObj [("header"%string, JObj [("hash"%string, JStr "genesis")])])
  else if bool_decide (method = "query"%string) then Ok (JObj [("values"%string, JArr (map item_json items))])
  else SendSample.node i method params.

Lemma node_shown : node_shows node "genesis" None st SendSample.sender.
Proof.
  split; [intros i; eexists; split; reflexivity|]. split.
  - intros k v H. change (st_contract_data st) with (<[(SendSample.sender, PATOSHI_RECORD_DATA_KEY) := enc patoshi_record_c record]> (∅ : gmap (AccountId * list Z) (list Z))) in H.
    apply lookup_insert_Some in H as [[E <-]|[_ H]]; [|by rewrite lookup_empty in H].
    assert (k = PATOSHI_RECORD_DATA_KEY) as -> by exact (eq_sym (f_equal snd E)). split; [apply as_bytes_ok|]. apply SendSample.forallb_bytes. vm_compute. reflexivity.
  - exists items. split; [vm_compute; reflexivity|]. intros i. eexists. split; reflexivity.
Qed.

Lemma unlock_reaches_lock_witness : exists sig text h s',
  handle_signmessage 0 (JArr [JStr SendSample.sender; JStr (challenge "genesis")]) SendSample.wallet = OkResponse (JStr sig) /\
  run_command (handle_patoshiunlock node pk_serialize (JArr [JStr SendSample.sender; JStr sig])) SendSample.s
    = (s', OkResponse (unlock_json SendSample.sender (challenge "genesis") h)) /\ ss_sent s' = [(text, true)].
Proof.
  set (sig := signature_text (message_hash (challenge "genesis")) SendSample.sk).
  assert (Hs : handle_signmessage 0 (JArr [JStr SendSample.sender; JStr (challenge "genesis")]) SendSample.wallet = OkResponse (JStr sig))
    by (vm_compute; reflexivity).
  destruct (unlock_reaches_lock node pk_serialize serialize_public bs58_zero bs58_testnet (fun _ _ => eq_refl)
    "genesis" None st SendSample.sender SendSample.en record 0 SendSample.s sig) as (text & pk & hash & nonce & h & s' & H1 & H2 & _).
  - exact node_shown.
  - intros i. eexists _, (repeat 0 32). split; [reflexivity|vm_compute; reflexivity].
  - intros i text. exists "near-hash"%string. reflexivity.
  - exact SendSample.key_found.
  - exact SendSample.entry_good.
  - exact SendSample.sender_wf.
  - vm_compute. reflexivity.
  - split; [unfold is_u, u128_max; simpl; lia|done].
  - reflexivity.
  - reflexivity.
  - exact Hs.
  - exists sig, text, h, s'. exact (conj Hs (conj H1 H2)).
Defined.
End UnlockSample.
